(* ===== verification/_CoqProject ===== *)
-Q . S2P
Prelude.v
CMem.v
Text.v
PacketsTls.v
PacketsHttp.v
Mpool.v
HostPool.v
Params.v
Inet.v
Desync.v
DList.v
Conev.v
Socks.v
Extend.v
World.v
TlsTrack.v
Groups.v
Cache.v
CacheFile.v
OptText.v
Options.v
Proxy.v
Relay.v
Requests.v
Engine.v
Session.v
Wire.v
Hooks.v
Serve.v
Loop.v
GdTrack.v
GdLine.v
GdText.v
UtHash.v
GdTables.v
GdFake.v
GdPacket.v
GdOptions.v
Main.v
Service.v
