(* ===== verification/Prelude.v ===== *)
(** * ZonDPI: a verified model of its DPI-desync engines

    ZonDPI is a Windows front end (Rust, under src/core, src/service and src/app) around two
    engines in C, src/engines/byedpi/upstream and src/engines/goodbye/upstream, that send the
    first bytes of a connection so that a middlebox does not recognise it.  This library
    models both: byedpi, a proxy, in the configuration the front end builds (Windows, [poll],
    no epoll), and GoodbyeDPI, a filter of packets.  Paths below are under
    src/engines/byedpi/upstream and src/engines/goodbye/upstream/src.

    ** The program

    byedpi is a local proxy.  [main] (main.c) takes its options from the command line or the
    environment, [run] (proxy.c) opens the port, and at the end what was learnt is saved and
    everything freed.  One thread waits for events of its descriptors
    ([loop_event], conev.c) and calls the callback of the connection an event is for
    (proxy.c): [on_accept] makes a connection for a client, [on_request] reads what the
    client asks for in SOCKS4, SOCKS5, HTTP CONNECT, Shadowsocks or raw TLS, [connect_hook]
    (extend.c) chooses a group of options for the destination and opens the connection to
    the server, [on_tunnel] moves the data of the two, [on_udp_tunnel] datagrams.  The first
    request of a client goes through [desync] (desync.c), which rewrites it (packets.c) and
    cuts it into parts.  When a server resets, times out or answers with a block page,
    [on_trigger] (extend.c) remembers in a pool of addresses (mpool.c, kavl.h) that the group
    does not work there, and connects again with the next group.

    GoodbyeDPI makes filters from its options, opens them ([init], goodbyedpi.c), and takes
    packets from the WinDivert driver, one at a time into one buffer, and
    puts them back (the loop of [main], goodbyedpi.c).  An outbound ClientHello or HTTP
    request is preceded by decoys (fakepackets.c) that only the middlebox takes for real,
    since their TTL is too small, their checksum wrong or their numbers in the past; it is
    rewritten (case, spaces) and sent as two TCP segments ([send_native_fragment]).  The
    distance of a server is learnt from its SYN-ACK (ttltrack.c), DNS queries are sent to
    another server and the answers given back their addresses (dnsredir.c); a list of hosts
    (blackwhitelist.c) may limit all this.

    ** The files

    - Prelude: computations that may fault ([comp]), the state monad over them ([ST]), the
      rules [wp] and [swp] with the tactic [sstep], loops with fuel, generic lemmas;
    - CMem: byte buffers with checked accesses, the C library functions used on them; Text:
      those that read and print numbers and words; Inet: texts of addresses, the class
      [Inet] of the two conversions;
    - PacketsTls, PacketsHttp: packets.c (TLS and HTTP);
    - Params: params.h and error.h, the options and the groups;
    - Mpool: kavl.h and mpool.c; HostPool: pools of names, also of those that [host_cmp] does
      not order; CacheFile: the iterator of kavl.h, [dump_cache] and [load_cache];
    - Desync: desync.c, with the default decoys of main.c;
    - DList: doubly linked lists through an array, the interface [DNode] and its laws, used
      for the timers of Conev and the groups of Groups;
    - Conev: conev.c, the pool of connections, its buffers, timers and descriptors;
    - Socks: proxy.c, the formats of requests, addresses and answers;
    - Extend: extend.c (definitions); World has the rules for its state, TlsTrack, Groups
      and Cache its theorems;
    - Proxy: proxy.c, the callbacks, the event loop and the start (definitions); Relay and
      Requests have theorems about the tunnel and about the first requests;
    - Session: the invariant of the event loop; Engine: the class [Engine], what the loop
      relies on of desync.c, with an instance; Wire: the addresses of requests, Hooks: the
      functions of extend.c, Serve: every callback, each under the invariant; Loop: the loop
      and [run] as a whole;
    - OptText: main.c, the values of options: data with escapes, lists of hosts and
      addresses, socket addresses, positions; Options: the switch of [parse_args] and the
      groups it makes; Main: [main], [init], [dump_all_cache], [clear_params] and the
      options of a plugin;
    - GdTrack: dnsredir.c (module [Dns]) and ttltrack.c (module [Tcp]), over one table of
      records with a time;
    - GdLine: utils/getline.c; GdText: repl_str.c and blackwhitelist.c;
    - UtHash: the hash tables of utils/uthash.h; GdTables: the tables of GdTrack and GdText
      on them;
    - GdFake: what is used of WinDivert, and fakepackets.c;
    - GdPacket: goodbyedpi.c, the searches, the rewriting, the fragments and the loop;
      GdOptions: its options, the strings of the filters, their opening and closing, and
      [main];
    - Service: service.c of GoodbyeDPI and win_service.c of byedpi, as threads.

    Definitions have the names of the C functions.  A loop's body is a definition of its
    own, named after the function with [_body] (or after what it does), which returns [inl]
    with the next values of the variables or [inr] with the result.

    ** How C is modelled

    A buffer is the list of its bytes, a pointer into it an offset; an access outside is
    [Fail OutOfBounds], so that a theorem that a function returns [Ok] says that it is
    memory safe there.  The comparisons of mpool.c are total functions, since the order of a tree
    needs them; [scmp_read_ok] (Mpool) shows that the checked reads of the code give the same
    and stay in the two elements.  Integers are in [Z], with the wrap-around of their type written where
    the code can reach it ([u8], [u16], [u32], [u64], [s8]).  [char] is signed.  [assert]
    faults when it fails.  Structures are records; pointers to connections and groups are
    indices into arrays ([p_items], [w_dps]), so that aliasing is kept.  A connection's buffer
    is a value that is moved between the free list and the connection, as the code moves its
    pointer.

    The system is the function [os] from the log of the calls so far, the last included, to
    an answer: every theorem holds for whatever the system answers, but for what its
    hypotheses say.  Time, [rand] and what [malloc] leaves in a block are answers of such
    functions too ([KTime], [rand], [junk]).  [malloc] does not fail, except where it gets a
    negative size.  What the C library does with the options is a parameter as well:
    [getopt_long] is a function on a state of its own (Options) or the list of what it returns
    (GdOptions); the record [runtime] (Options) has what is relied on of it, of [getaddrinfo],
    [inet_pton], [strtof] and of files.  [exit] is a value that ends the sequence it is in.
    Memory is modelled where it is freed: the blocks of the settings in Main, where a pool with its
    elements counts as one.

    WinDivert is a driver with a library, of which the repository has the header only.
    [WinDivertHelperParsePacket] and [WinDivertHelperCalcChecksums] are the parameters [parse]
    and [calc]; the class [WinDivert] (GdFake) states what the documentation promises and the
    code relies on: headers and data are inside of the packet, in order and not overlapping,
    and the checksums keep the length of the packet and its direction.  [plain_library] is an instance for packets
    without options, on which the witnesses run.  What [WinDivertRecv] returns is a list
    of packets, what is given to [WinDivertSend] a list that grows.

    ** Fuel

    A loop takes fuel and faults with [OutOfFuel] when it has none left, so that a theorem
    that a function returns is one that it ends.  Where the bound is known, the definition
    gives it: one more than the bytes of a buffer, the elements of a pool ([mem_add],
    [mem_destroy]), the repetitions of the parts of a group ([parts_fuel]).  Where it is not, it is the
    parameter [fuel] and a theorem says how much is enough: twice the number of groups for
    [find_dp], the number of full reads for [on_tunnel], the options of the command line for
    [parse_args].  The loops of GoodbyeDPI run over a packet, a table, a string or the list
    of its options, and have its length.

    ** The theorems

    byedpi as a whole: over any number of events no callback follows a null or stale pointer,
    leaves a buffer or fails an assertion ([run_never_faults]); between two events each live
    connection is a listener, a client on its own, a client with its server, or one of the three
    of a UDP association ([event_keeps_sessions]).  This is for one group of options, and for
    an engine that is an instance of [Engine].

    Packets: [parse_tls] and [parse_http] find exactly the name in an encoded hello and
    request, and stay in bounds on every buffer; [part_tls] keeps header and payload;
    [mod_http] changes case and blanks only.  Options: the settings that [parse_args] accepts
    are in their ranges and its groups are the list that the rest takes ([options_typed],
    [options_link_groups]); escapes, positions and addresses are read back from their text;
    the lists match what they say ([hosts_list_matches], [ipset_matches]); a refused command
    line, and the end of the program, free every block once ([main_refuses],
    [finish_saves_and_frees]).  Desync: on the first call for a hello, the bytes that
    are handed over in band are a prefix of the records with its payload, whatever the parts
    ([desync_delivers_hello]); a decoy travels with its own TTL and the real bytes with the
    usual one.  Pools: the AVL tree of kavl.h stays balanced and ordered and fits its fixed
    arrays; a pool finds a name or an address exactly when an entry covers it,
    and takes every name there is ([host_pool_takes_any_name]).  Events:
    [pool_wf] is the invariant of the pool, kept by [del_event], [set_timer], [next_event]
    and [create_conn]; a closed descriptor is closed once, and no stale event is delivered.
    Groups: [find_dp] ends and chooses a group that suits, [swop_groups] keeps the list.
    Cache: an address that was added is found, and the file of the cache gives it back
    ([cache_file_roundtrip]).
    Requests: an address that is written is read back, the bad requests of
    [Requests.refused] get their error code, no descriptor leaks.  Tunnel, from the server to
    the client: what was sent is what is received, however reads and sends are cut
    ([tunnel_relays]), and all of it when the client takes data at all ([tunnel_drains]); the tracker of TLS records refines a
    byte-by-byte specification ([tls_track_refines]).

    GoodbyeDPI: packets shorter than its buffer do not make it fault, nor do command lines with
    at most thirty decoys and real arguments ([loop_never_faults], [main_never_faults]); the filters that are open are those the
    options ask for ([filters_opened]), and a mode is what the usage says
    ([modes_as_spelled]); a hello is
    replaced by the planned decoys and by segments that rebuild it ([hello_split],
    [decoys_sent]); decoys are built as they were asked for ([fake_sni_found],
    [fake_hex_loaded]); names are found in hellos, requests and lists ([sni_extracted],
    [host_space_moved], [listed_hosts_found]); tracked queries and distances come back
    ([dns_answers_redirected], [server_ttl_tracked]).  GdTrack and GdText keep their tables as lists;
    that a hash table of uthash.h is such a list, whatever is added, deleted and searched, is
    [hash_table_refines], and GdTables carries it over to their operations.

    Services: in every interleaving of the service, its handler and the dispatcher, the
    system is told first that it runs and then that it stopped ([service_reports]).

    Lemmas that end in [_loses], [_overruns], [_misses], [_leaks] and the like show, on
    concrete inputs, where the code does not do what it means to; a theorem that needs a condition
    says so in its comment.

    ** Not modelled

    Of byedpi: the logging and the usage text, the code for other systems (epoll, vmsplice,
    md5 signatures, transparent proxying, the daemon, Android), the handlers of signals, which
    set a flag, and the clock of [time_ms].  Of GoodbyeDPI: what is printed, and of uthash.h
    what the program does not use (sorting, selecting, replacing, other hash functions).  The
    invariant of byedpi's event loop is for one group; several groups are covered by the theorems
    about [find_dp], the triggers and the cache only.  The Rust front end is not modelled. *)
From stdpp Require Import base numbers list option.
From Stdlib Require Import ZArith Lia.

Declare Scope zon_scope.
Delimit Scope zon_scope with zon.
#[global] Open Scope Z_scope.

Create HintDb zon discriminated.
Create Rewrite HintDb zonrw.

(** ** Computations that may go wrong

    A C function is a computation that returns a value or stops with a fault:
    an access outside the object it is given, a failed [assert], a division by
    zero, or a loop that has used up its fuel.  A theorem that a computation returns a value thus
    says at once that the code is memory safe on that input, that its
    assertions hold and that it terminates. *)

Inductive fault := OutOfBounds | OutOfFuel | AssertFailed | DivByZero.

#[export] Instance fault_eq_dec : EqDecision fault.
Proof. intros x y. unfold Decision. decide equality. Defined.

Inductive comp (A : Type) : Type :=
  | Ok (a : A)
  | Fail (f : fault).
Arguments Ok {_} _.
Arguments Fail {_} _.

#[export] Instance comp_ret : MRet comp := @Ok.
#[export] Instance comp_bind : MBind comp := λ A B f c,
  match c with Ok a => f a | Fail e => Fail e end.

Definition cassert (b : bool) : comp unit :=
  if b then Ok tt else Fail AssertFailed.

(** [wp c P]: the computation returns, and its value satisfies [P]. *)
Definition wp {A} (c : comp A) (P : A → Prop) : Prop :=
  match c with Ok a => P a | Fail _ => False end.

(** [pwp c P]: partial correctness; a fault satisfies it. *)
Definition pwp {A} (c : comp A) (P : A → Prop) : Prop :=
  match c with Ok a => P a | Fail _ => True end.

Lemma wp_inv {A} (c : comp A) P : wp c P ↔ ∃ a, c = Ok a ∧ P a.
Proof. destruct c; simpl; naive_solver. Qed.

Lemma wp_eq {A} (c : comp A) a : wp c (λ x, x = a) → c = Ok a.
Proof. by destruct c; simpl; [intros ->|]. Qed.

Lemma wp_ok {A} (a : A) P : wp (Ok a) P ↔ P a.
Proof. done. Qed.

Lemma wp_bind {A B} (c : comp A) (f : A → comp B) P :
  wp (mbind f c) P ↔ wp c (λ a, wp (f a) P).
Proof. by destruct c. Qed.

Lemma bind_ok {A B} (a : A) (f : A → comp B) : mbind f (Ok a) = f a.
Proof. done. Qed.

Lemma bind_fail {A B} e (f : A → comp B) : mbind f (Fail e) = Fail e.
Proof. done. Qed.

Lemma wp_mono {A} (c : comp A) (P Q : A → Prop) :
  wp c P → (∀ a, P a → Q a) → wp c Q.
Proof. destruct c; simpl; eauto. Qed.

Lemma wp_conj {A} (c : comp A) (P Q : A → Prop) :
  wp c P → pwp c Q → wp c (λ a, P a ∧ Q a).
Proof. destruct c; simpl; auto. Qed.

Lemma wp_pwp {A} (c : comp A) (P : A → Prop) : wp c P → pwp c P.
Proof. by destruct c. Qed.

Lemma pwp_bind {A B} (c : comp A) (f : A → comp B) P :
  pwp (mbind f c) P ↔ pwp c (λ a, pwp (f a) P).
Proof. by destruct c. Qed.

Lemma pwp_mono {A} (c : comp A) (P Q : A → Prop) :
  pwp c P → (∀ a, P a → Q a) → pwp c Q.
Proof. destruct c; simpl; eauto. Qed.

Lemma wp_assert b P : b = true → P tt → wp (cassert b) P.
Proof. by intros -> HP. Qed.

Lemma wp_if_ok {A} (b : bool) (c : comp A) a P :
  (b = true → wp c P) → P a → wp (if b then c else Ok a) P.
Proof. destruct b; auto. Qed.

(** ** Loops

    [loop body fuel s] runs [body] from state [s]; [inl] goes round again and
    [inr] leaves the loop with a result. *)

Section loop.
Context {St R : Type} (body : St → comp (St + R)).

Fixpoint loop (fuel : nat) (s : St) : comp R :=
  match fuel with
  | O => Fail OutOfFuel
  | S fuel => r ← body s; match r with inl s' => loop fuel s' | inr x => Ok x end
  end.

(** Total correctness: an invariant and a decreasing measure. *)
Lemma wp_loop (Inv : St → Prop) (m : St → nat) (P : R → Prop) :
  (∀ s, Inv s → wp (body s) (λ r, match r with
      | inl s' => Inv s' ∧ (m s' < m s)%nat
      | inr x => P x end)) →
  ∀ fuel s, Inv s → (m s < fuel)%nat → wp (loop fuel s) P.
Proof.
  intros Hbody fuel. induction fuel as [|fuel IH]; intros s Hs Hm; [lia|].
  simpl. apply wp_bind. eapply wp_mono; [by apply Hbody|].
  intros [s'|x]; simpl; [|done]. intros [Hs' Hlt]. apply IH; [done|lia].
Qed.

(** Partial correctness. *)
Lemma pwp_loop (Inv : St → Prop) (P : R → Prop) :
  (∀ s, Inv s → pwp (body s) (λ r, match r with
      | inl s' => Inv s' | inr x => P x end)) →
  ∀ fuel s, Inv s → pwp (loop fuel s) P.
Proof.
  intros Hbody fuel. induction fuel as [|fuel IH]; intros s Hs; [done|].
  simpl. apply pwp_bind. eapply pwp_mono; [by apply Hbody|].
  intros [s'|x]; simpl; auto.
Qed.

(** A loop whose body always goes round again never returns. *)
Lemma loop_diverges (Inv : St → Prop) :
  (∀ s, Inv s → ∃ s', body s = Ok (inl s') ∧ Inv s') →
  ∀ fuel s, Inv s → loop fuel s = Fail OutOfFuel.
Proof.
  intros Hbody fuel. induction fuel as [|fuel IH]; intros s Hs; [done|].
  simpl. destruct (Hbody s Hs) as (s' & -> & Hs'). simpl. auto.
Qed.

Lemma loop_fuel_mono fuel fuel' s x :
  loop fuel s = Ok x → (fuel ≤ fuel')%nat → loop fuel' s = Ok x.
Proof.
  revert fuel' s. induction fuel as [|fuel IH]; intros fuel' s H Hle; [done|].
  destruct fuel' as [|fuel']; [lia|]. simpl in *.
  destruct (body s) as [[s'|y]|]; simpl in *; try done. apply IH; [done|lia].
Qed.
End loop.

(** Reading an array of any elements through an index. *)
Definition geti {A} (l : list A) (i : Z) : comp A :=
  if i <? 0 then Fail OutOfBounds else
  match l !! Z.to_nat i with Some x => Ok x | None => Fail OutOfBounds end.

Lemma wp_geti {A} (l : list A) i x (P : A → Prop) :
  0 <= i → l !! Z.to_nat i = Some x → P x → wp (geti l i) P.
Proof. intros H E HP. unfold geti. destruct (Z.ltb_spec i 0); [lia|]. by rewrite E. Qed.

(** ** Stateful computations

    [ST S A] threads a state through a computation that may go wrong; a C function
    that changes shared objects is one, with the objects in the state. *)

Definition ST (S A : Type) : Type := S → comp (A * S).

#[export] Instance st_ret {S} : MRet (ST S) := λ A a s, Ok (a, s).
#[export] Instance st_bind {S} : MBind (ST S) := λ A B f m s, '(a, s) ← m s; f a s.

Definition lift {S A} (c : comp A) : ST S A := λ s, a ← c; Ok (a, s).
Definition gets {S A} (f : S → A) : ST S A := λ s, Ok (f s, s).
Definition modify {S} (f : S → S) : ST S unit := λ s, Ok (tt, f s).
Definition sfail {S A} (e : fault) : ST S A := λ _, Fail e.
Definition skip {S} : ST S unit := λ s, Ok (tt, s).

(** [loop] with a body that changes the state. *)
Definition sloop {S X R} (body : X → ST S (X + R)) (fuel : nat) (x : X) : ST S R := λ s,
  loop (λ '(x, s), '(r, s) ← body x s;
    Ok (match r with inl x => inl (x, s) | inr y => inr (y, s) end)) fuel (x, s).

(** Total correctness of a stateful computation from a state. *)
Definition swp {S A} (m : ST S A) (s : S) (P : A → S → Prop) : Prop :=
  wp (m s) (λ '(a, s), P a s).
(** Partial correctness. *)
Definition spwp {S A} (m : ST S A) (s : S) (P : A → S → Prop) : Prop :=
  pwp (m s) (λ '(a, s), P a s).

(** It does not go wrong, and when it returns, [P] holds: a loop may run out of fuel. *)
Definition snwp {S A} (m : ST S A) (s : S) (P : A → S → Prop) : Prop :=
  match m s with Ok (a, s) => P a s | Fail OutOfFuel => True | Fail _ => False end.

Section swp.
Context {S : Type}.
Implicit Types s : S.

Lemma swp_ret {A} (a : A) s (P : A → S → Prop) : P a s → swp (mret a) s P.
Proof. done. Qed.
Lemma swp_bind {A B} (m : ST S A) (f : A → ST S B) s P :
  swp m s (λ a s, swp (f a) s P) → swp (m ≫= f) s P.
Proof. unfold swp, mbind, st_bind, mbind, comp_bind. by destruct (m s) as [[]|]. Qed.
Lemma swp_mono {A} (m : ST S A) s (P Q : A → S → Prop) :
  swp m s P → (∀ a s, P a s → Q a s) → swp m s Q.
Proof. unfold swp. intros H HPQ. eapply wp_mono; [exact H|]. intros [a s']. auto. Qed.
Lemma swp_lift {A} (c : comp A) s (P : A → S → Prop) :
  wp c (λ a, P a s) → swp (lift c) s P.
Proof. unfold swp, lift. by destruct c. Qed.
Lemma swp_gets {A} (f : S → A) s (P : A → S → Prop) : P (f s) s → swp (gets f) s P.
Proof. done. Qed.
Lemma swp_modify (f : S → S) s (P : unit → S → Prop) : P tt (f s) → swp (modify f) s P.
Proof. done. Qed.

Lemma swp_sloop {X R} (body : X → ST S (X + R)) (Inv : X → S → Prop) (m : X → nat) P :
  (∀ x s, Inv x s → swp (body x) s (λ r s, match r with
      | inl x' => Inv x' s ∧ (m x' < m x)%nat | inr y => P y s end)) →
  ∀ fuel x s, Inv x s → (m x < fuel)%nat → swp (sloop body fuel x) s P.
Proof.
  intros Hb fuel x s Hi Hm. unfold swp, sloop.
  apply (wp_loop _ (λ '(x, s), Inv x s) (λ '(x, _), m x)); [|done|done].
  intros [x1 s1] H1. apply wp_bind. eapply wp_mono; [exact (Hb x1 s1 H1)|].
  intros [[x2|y] s2]; simpl; tauto.
Qed.

(** The same with a measure of the state. *)
Lemma swp_sloop_st {X R} (body : X → ST S (X + R)) (Inv : X → S → Prop) (m : S → nat) P :
  (∀ x s, Inv x s → swp (body x) s (λ r s', match r with
      | inl x' => Inv x' s' ∧ (m s' < m s)%nat | inr y => P y s' end)) →
  ∀ fuel x s, Inv x s → (m s < fuel)%nat → swp (sloop body fuel x) s P.
Proof.
  intros Hb fuel x s Hi Hm. unfold swp, sloop.
  apply (wp_loop _ (λ '(x, s), Inv x s) (λ '(_, s), m s)); [|done|done].
  intros [x1 s1] H1. apply wp_bind. eapply wp_mono; [exact (Hb x1 s1 H1)|].
  intros [[x2|y] s2]; simpl; tauto.
Qed.

(** One round of a loop. *)
Lemma swp_sloop_step {X R} (body : X → ST S (X + R)) fuel x s P :
  swp (body x) s (λ r s, match r with
    | inl x' => swp (sloop body fuel x') s P | inr y => P y s end) →
  swp (sloop body (Datatypes.S fuel) x) s P.
Proof.
  unfold swp, sloop. cbn [loop]. intros H. unfold mbind, comp_bind in *.
  destruct (body x s) as [[[x'|y] s']|]; done.
Qed.
Lemma swp_skip s (P : unit → S → Prop) : P tt s → swp skip s P.
Proof. done. Qed.

(** The rules of [snwp]; what always returns runs by the rules of [swp]. *)
Lemma swp_snwp {A} (m : ST S A) s (P : A → S → Prop) : swp m s P → snwp m s P.
Proof. unfold swp, snwp. by destruct (m s) as [[]|]. Qed.
Lemma snwp_bind {A B} (m : ST S A) (f : A → ST S B) s P :
  snwp m s (λ a s, snwp (f a) s P) → snwp (m ≫= f) s P.
Proof. unfold snwp, mbind, st_bind, mbind, comp_bind. by destruct (m s) as [[]|]. Qed.
Lemma snwp_run {A B} (m : ST S A) (f : A → ST S B) s P :
  swp m s (λ a s, snwp (f a) s P) → snwp (m ≫= f) s P.
Proof. intros H. by apply snwp_bind, swp_snwp. Qed.
Lemma snwp_mono {A} (m : ST S A) s (P Q : A → S → Prop) :
  snwp m s P → (∀ a s, P a s → Q a s) → snwp m s Q.
Proof. unfold snwp. destruct (m s) as [[]|]; cbn; auto. Qed.
Lemma snwp_ret {A} (a : A) s (P : A → S → Prop) : P a s → snwp (mret a) s P.
Proof. done. Qed.
Lemma snwp_sloop {X R} (body : X → ST S (X + R)) (Inv : X → S → Prop) P :
  (∀ x s, Inv x s → snwp (body x) s (λ r s, match r with
      | inl x' => Inv x' s | inr y => P y s end)) →
  ∀ fuel x s, Inv x s → snwp (sloop body fuel x) s P.
Proof.
  intros Hb fuel. unfold snwp, sloop. induction fuel as [|fuel IH]; intros x s Hi; [done|]. cbn [loop].
  pose proof (Hb x s Hi) as H. unfold snwp, mbind, comp_bind in *. destruct (body x s) as [[[x'|y] s']|]; cbn in *; auto.
  by apply IH.
Qed.
(** The round that a loop with [k] rounds of fuel starts is the [k]-th from the end. *)
Lemma snwp_sloop_fuel {X R} (body : X → ST S (X + R)) (Inv : nat → X → S → Prop) P :
  (∀ k x s, Inv (Datatypes.S k) x s → snwp (body x) s (λ r s, match r with
      | inl x' => Inv k x' s | inr y => P y s end)) →
  ∀ fuel x s, Inv fuel x s → snwp (sloop body fuel x) s P.
Proof.
  intros Hb fuel. unfold snwp, sloop. induction fuel as [|fuel IH]; intros x s Hi; [done|]. cbn [loop].
  pose proof (Hb fuel x s Hi) as H. unfold snwp, mbind, comp_bind in *. destruct (body x s) as [[[x'|y] s']|]; cbn in *; auto.
  by apply IH.
Qed.

Lemma spwp_bind {A B} (m : ST S A) (f : A → ST S B) s P :
  spwp m s (λ a s, spwp (f a) s P) → spwp (m ≫= f) s P.
Proof. unfold spwp, mbind, st_bind, mbind, comp_bind. by destruct (m s) as [[]|]. Qed.
Lemma spwp_mono {A} (m : ST S A) s (P Q : A → S → Prop) :
  spwp m s P → (∀ a s, P a s → Q a s) → spwp m s Q.
Proof. unfold spwp. intros H HPQ. eapply pwp_mono; [exact H|]. intros [a s']. auto. Qed.
Lemma spwp_ret {A} (a : A) s (P : A → S → Prop) : P a s → spwp (mret a) s P.
Proof. done. Qed.
Lemma spwp_lift {A} (c : comp A) s (P : A → S → Prop) :
  pwp c (λ a, P a s) → spwp (lift c) s P.
Proof. unfold spwp, lift. by destruct c. Qed.
Lemma spwp_gets {A} (f : S → A) s (P : A → S → Prop) : P (f s) s → spwp (gets f) s P.
Proof. done. Qed.
Lemma spwp_modify (f : S → S) s (P : unit → S → Prop) : P tt (f s) → spwp (modify f) s P.
Proof. done. Qed.
Lemma spwp_sloop {X R} (body : X → ST S (X + R)) (Inv : X → S → Prop) P :
  (∀ x s, Inv x s → spwp (body x) s (λ r s, match r with
      | inl x' => Inv x' s | inr y => P y s end)) →
  ∀ fuel x s, Inv x s → spwp (sloop body fuel x) s P.
Proof.
  intros Hb fuel x s Hi. unfold spwp, sloop.
  apply (pwp_loop _ (λ '(x, s), Inv x s)); [|done].
  intros [x1 s1] H1. apply pwp_bind. eapply pwp_mono; [exact (Hb x1 s1 H1)|].
  intros [[x2|y] s2]; simpl; tauto.
Qed.
End swp.

(** ** Machine integers *)

Definition u8 (x : Z) : Z := x mod 2 ^ 8.
Definition u16 (x : Z) : Z := x mod 2 ^ 16.
Definition u32 (x : Z) : Z := x mod 2 ^ 32.
Definition u64 (x : Z) : Z := x mod 2 ^ 64.
(** The two's-complement readings of a byte and of a 32-bit word. *)
Definition s8 (x : Z) : Z := (x + 2 ^ 7) mod 2 ^ 8 - 2 ^ 7.
Definition s32 (x : Z) : Z := (x + 2 ^ 31) mod 2 ^ 32 - 2 ^ 31.

Lemma u8_range x : 0 <= u8 x < 256.
Proof. unfold u8. apply Z.mod_pos_bound. lia. Qed.
Lemma u16_range x : 0 <= u16 x < 65536.
Proof. unfold u16. apply Z.mod_pos_bound. lia. Qed.
Lemma u32_range x : 0 <= u32 x < 2 ^ 32.
Proof. unfold u32. apply Z.mod_pos_bound. lia. Qed.
Lemma u8_small x : 0 <= x < 256 → u8 x = x.
Proof. intros. unfold u8. apply Z.mod_small. lia. Qed.
Lemma u16_small x : 0 <= x < 65536 → u16 x = x.
Proof. intros. unfold u16. apply Z.mod_small. lia. Qed.
Lemma u64_small x : 0 <= x < 2 ^ 64 → u64 x = x.
Proof. intros. by apply Z.mod_small. Qed.
Lemma u32_small x : 0 <= x < 2 ^ 32 → u32 x = x.
Proof. intros. unfold u32. apply Z.mod_small. lia. Qed.
Lemma s8_small x : 0 <= x < 128 → s8 x = x.
Proof. intros. unfold s8. rewrite Z.mod_small; lia. Qed.
Lemma s8_range x : -128 <= s8 x < 128.
Proof. unfold s8. pose proof (Z.mod_pos_bound (x + 2 ^ 7) (2 ^ 8)). lia. Qed.
#[export] Hint Resolve u8_range u16_range u32_range : zon.

(** A decidable property of all naturals below a bound, by evaluation. *)
Lemma forall_upto (f : Z → bool) n :
  forallb (λ j, f (Z.of_nat j)) (seq 0 n) = true → ∀ j, 0 <= j < Z.of_nat n → f j = true.
Proof.
  rewrite forallb_forall. intros H j Hj. rewrite <- (Z2Nat.id j) by lia.
  apply H, in_seq. lia.
Qed.

(** ** Tactics *)

(** Turn boolean comparisons in the context into facts [lia] reads. *)
Ltac zcase :=
  match goal with
  | |- context [if ?b then _ else _] =>
      lazymatch type of b with bool => destruct b eqn:? end
  end.

(** Open the next instruction of a computation under [wp]. *)
Ltac wp_step :=
  match goal with
  | |- wp (mbind _ _) _ => apply wp_bind
  | |- wp (Ok _) _ => apply wp_ok
  | |- wp (mret _) _ => apply wp_ok
  end.

(** Case on the test the computation starts with. *)
Ltac wp_case :=
  cbv beta;
  lazymatch goal with
  | |- wp (if ?b then _ else _) _ => destruct b eqn:?
  | |- wp (mbind _ (if ?b then _ else _)) _ => destruct b eqn:?
  | |- _ => zcase
  end; cbn beta iota.

(** Open the next instruction of a stateful computation under [swp]. *)
Ltac sstep :=
  match goal with
  | |- swp (mbind _ _) _ _ => apply swp_bind
  | |- swp (mret _) _ _ => apply swp_ret
  | |- swp (lift _) _ _ => apply swp_lift
  | |- swp (gets _) _ _ => apply swp_gets
  | |- swp (modify _) _ _ => apply swp_modify
  | |- swp skip _ _ => apply swp_skip
  end; cbv beta.

(** Open the next instruction under [snwp]: run it by a rule of [swp]. *)
Ltac nstep :=
  match goal with
  | |- snwp (mbind _ _) _ _ => apply snwp_run
  | |- snwp (mret _) _ _ => apply snwp_ret
  | |- snwp _ _ _ => apply swp_snwp
  end; cbv beta.
