(* ===== verification/CMem.v ===== *)
(** Byte buffers and the C library functions the engines use on them.

    A buffer is the list of its bytes, each an integer in [0, 256); a pointer
    into it is an offset.  Every access checks its bounds and faults outside.
    [rd]/[store] are the loads and stores, [ANTOHS]/[SHTONA] the 16-bit macros of
    packets.h, and the rest models memory and string functions of the C standard
    library in the "C" locale. *)
From Stdlib Require Import ZArith Lia Ascii String.
From stdpp Require Import base numbers list option.
From S2P Require Import Prelude.

Abbreviation bytes := (list Z).

Definition blen (b : bytes) : Z := Z.of_nat (length b).
(** The byte at an offset, 0 outside the buffer. *)
Definition bat (b : bytes) (i : Z) : Z := nth (Z.to_nat i) b 0.
(** The [n] bytes at offset [i]. *)
Definition sub (b : bytes) (i n : Z) : bytes := take (Z.to_nat n) (drop (Z.to_nat i) b).
(** The buffer with the bytes [l] written over offset [i]. *)
Definition put (b : bytes) (i : Z) (l : bytes) : bytes :=
  take (Z.to_nat i) b ++ l ++ drop (Z.to_nat (i + blen l)) b.

Definition is_byte (v : Z) : Prop := 0 <= v < 256.
Definition bytes_wf (b : bytes) : Prop := Forall is_byte b.

(** The bytes of a string literal. *)
Definition bs (s : string) : bytes :=
  map (λ c, Z.of_N (N_of_ascii c)) (list_ascii_of_string s).
Definition ch (c : ascii) : Z := Z.of_N (N_of_ascii c).

(** ** Loads and stores *)

Definition in_range (b : bytes) (i n : Z) : bool :=
  (0 <=? i) && (0 <=? n) && (i + n <=? blen b).

Definition rd (b : bytes) (i : Z) : comp Z :=
  if in_range b i 1 then Ok (bat b i) else Fail OutOfBounds.

Definition rds (b : bytes) (i n : Z) : comp bytes :=
  if in_range b i n then Ok (sub b i n) else Fail OutOfBounds.

Definition store (b : bytes) (i : Z) (l : bytes) : comp bytes :=
  if in_range b i (blen l) then Ok (put b i l) else Fail OutOfBounds.

Definition wr (b : bytes) (i v : Z) : comp bytes := store b i [u8 v].

(** [memmove(b + dst, b + src, n)]; a negative [n] is a huge [size_t]. *)
Definition memmove (b : bytes) (dst src n : Z) : comp bytes :=
  if n =? 0 then Ok b else l ← rds b src n; store b dst l.

(** [memcpy(d + dst, s + src, n)] from another object. *)
Definition memcpy (d : bytes) (dst : Z) (s : bytes) (src n : Z) : comp bytes :=
  if n =? 0 then Ok d else l ← rds s src n; store d dst l.

Definition memset (b : bytes) (i v n : Z) : comp bytes :=
  if n =? 0 then Ok b
  else if n <? 0 then Fail OutOfBounds
  else store b i (repeat (u8 v) (Z.to_nat n)).

(** packets.h: [ANTOHS(data, i)] over [char] data is an [int]: a byte from 128 up
    is negative as a [char] and its conversion to [uint16_t] keeps the sign. *)
Definition ANTOHS (b : bytes) (i : Z) : comp Z :=
  hi ← rd b i; lo ← rd b (i + 1); Ok (Z.shiftl (u16 (s8 hi)) 8 + u8 lo).

(** The same value assigned to a [uint16_t]. *)
Definition ANTOHS16 (b : bytes) (i : Z) : comp Z := v ← ANTOHS b i; Ok (u16 v).

(** packets.h: [SHTONA(data, i, x)]. *)
Definition SHTONA (b : bytes) (i x : Z) : comp bytes :=
  b ← wr b i (Z.shiftr x 8); wr b (i + 1) (Z.land x 255).

(** ** ctype.h, "C" locale *)

Definition isspace (c : Z) : bool := ((9 <=? c) && (c <=? 13)) || (c =? 32).
Definition isdigit (c : Z) : bool := (48 <=? c) && (c <=? 57).
Definition tolower (c : Z) : Z := if (65 <=? c) && (c <=? 90) then c + 32 else c.
Definition toupper (c : Z) : Z := if (97 <=? c) && (c <=? 122) then c - 32 else c.

(** ** string.h *)

(** The index of the first byte that satisfies [f]. *)
Fixpoint find_idx (f : Z → bool) (l : bytes) : option Z :=
  match l with
  | [] => None
  | c :: l => if f c then Some 0 else match find_idx f l with
                                      | Some i => Some (i + 1) | None => None end
  end.

(** [memchr(b + p, c, n)], read sequentially up to the first match. *)
Definition memchr (b : bytes) (p c n : Z) : comp (option Z) :=
  if n =? 0 then Ok None
  else if (p <? 0) || (blen b <? p) then Fail OutOfBounds
  else let l := drop (Z.to_nat p) b in
       let l := if n <? 0 then l else take (Z.to_nat n) l in
       match find_idx (λ v, v =? c) l with
       | Some i => Ok (Some (p + i))
       | None => if (n <? 0) || (blen b <? p + n) then Fail OutOfBounds else Ok None
       end.

(** [!strncmp(b + p, m, strlen(m))] for a literal [m]. *)
Fixpoint str_prefix (b : bytes) (p : Z) (m : bytes) : comp bool :=
  match m with
  | [] => Ok true
  | c :: m => v ← rd b p; if v =? c then str_prefix b (p + 1) m else Ok false
  end.

(** [!strncasecmp(b + p, m, strlen(m))]. *)
Fixpoint str_caseprefix (b : bytes) (p : Z) (m : bytes) : comp bool :=
  match m with
  | [] => Ok true
  | c :: m => v ← rd b p;
      if tolower v =? tolower c then str_caseprefix b (p + 1) m else Ok false
  end.

(** The sign of the first difference of two byte strings of equal length. *)
Fixpoint bytes_cmp (a b : bytes) : Z :=
  match a, b with
  | x :: a, y :: b => if x <? y then -1 else if y <? x then 1 else bytes_cmp a b
  | _, _ => 0
  end.

Definition memcmp (a : bytes) (i : Z) (b : bytes) (j n : Z) : comp Z :=
  if n =? 0 then Ok 0 else x ← rds a i n; y ← rds b j n; Ok (bytes_cmp x y).

(** [strtol(b + p, &end, 10)], with the 32-bit [long] of the Windows build: the
    value, saturated, and the end offset ([p] when there is no number). *)
Definition long_max : Z := 2 ^ 31 - 1.
Definition long_min : Z := - 2 ^ 31.

Fixpoint strtol_spaces (l : bytes) (n : Z) : comp (bytes * Z) :=
  match l with
  | [] => Fail OutOfBounds
  | c :: l' => if isspace c then strtol_spaces l' (n + 1) else Ok (l, n)
  end.

Fixpoint strtol_digits (l : bytes) (acc n : Z) : comp (Z * Z) :=
  match l with
  | [] => Fail OutOfBounds
  | c :: l => if isdigit c then strtol_digits l (acc * 10 + (c - 48)) (n + 1)
              else Ok (acc, n)
  end.

Definition strtol_sign (l : bytes) : bool * bytes * Z :=
  match l with
  | [] => (false, l, 0)
  | c :: l' => if c =? 45 then (true, l', 1) else if c =? 43 then (false, l', 1)
               else (false, l, 0)
  end.

Definition strtol10 (b : bytes) (p : Z) : comp (Z * Z) :=
  if (p <? 0) then Fail OutOfBounds else
  '(l, sp) ← strtol_spaces (drop (Z.to_nat p) b) 0;
  let '(neg, l, sg) := strtol_sign l in
  '(v, n) ← strtol_digits l 0 0;
  if n =? 0 then Ok (0, p)
  else Ok (if (neg : bool) then Z.max (- v) long_min else Z.min v long_max, p + sp + sg + n).

(** ** Lemmas: slices and overwrites *)

Lemma blen_nonneg b : 0 <= blen b.
Proof. unfold blen. lia. Qed.
Lemma blen_nil : blen [] = 0.
Proof. done. Qed.
Lemma blen_cons x b : blen (x :: b) = blen b + 1.
Proof. unfold blen. simpl length. lia. Qed.
Lemma blen_app a b : blen (a ++ b) = blen a + blen b.
Proof. unfold blen. rewrite length_app. lia. Qed.
Lemma blen_repeat v n : blen (repeat v n) = Z.of_nat n.
Proof. unfold blen. by rewrite repeat_length. Qed.
Lemma blen_sub b i n : 0 <= i → 0 <= n → i + n <= blen b → blen (sub b i n) = n.
Proof. unfold blen, sub. intros. rewrite length_take, length_drop. lia. Qed.
Lemma blen_put b i l : 0 <= i → i + blen l <= blen b → blen (put b i l) = blen b.
Proof.
  unfold put. intros. rewrite !blen_app. unfold blen in *.
  rewrite length_take, length_drop. lia.
Qed.

Lemma bat_app a b i :
  0 <= i → bat (a ++ b) i = if i <? blen a then bat a i else bat b (i - blen a).
Proof.
  unfold bat, blen. intros. destruct (Z.ltb_spec i (Z.of_nat (length a))).
  - apply app_nth1. lia.
  - rewrite app_nth2 by lia. f_equal. lia.
Qed.
Lemma bat_cons x b i : 0 <= i → bat (x :: b) i = if i =? 0 then x else bat b (i - 1).
Proof.
  intros. change (x :: b) with ([x] ++ b). rewrite bat_app by done.
  rewrite blen_cons, blen_nil. destruct (Z.eqb_spec i 0) as [->|]; [done|].
  by rewrite (proj2 (Z.ltb_ge _ _)) by lia.
Qed.
Lemma bat_sub b i n j : 0 <= i → 0 <= j < n → bat (sub b i n) j = bat b (i + j).
Proof.
  unfold bat, sub. intros. rewrite !nth_lookup. f_equal.
  rewrite lookup_take_lt by lia. rewrite lookup_drop. f_equal. lia.
Qed.
Lemma bat_put b i l j :
  0 <= i → i + blen l <= blen b → 0 <= j →
  bat (put b i l) j = if (i <=? j) && (j <? i + blen l) then bat l (j - i) else bat b j.
Proof.
  intros. unfold put. pose proof (blen_nonneg l).
  assert (Ht : blen (take (Z.to_nat i) b) = i).
  { unfold blen in *. rewrite length_take. lia. }
  rewrite bat_app, Ht by done. destruct (Z.ltb_spec j i).
  - rewrite (proj2 (Z.leb_gt i j)) by lia. simpl.
    unfold bat. rewrite !nth_lookup, lookup_take_lt by lia. done.
  - rewrite (proj2 (Z.leb_le i j)) by lia. rewrite bat_app by lia. simpl.
    destruct (Z.ltb_spec (j - i) (blen l)).
    + by rewrite (proj2 (Z.ltb_lt _ _)) by lia.
    + rewrite (proj2 (Z.ltb_ge _ _)) by lia. unfold bat.
      rewrite !nth_lookup, lookup_drop. do 2 f_equal. lia.
Qed.
Lemma bat_repeat v n i : 0 <= i < Z.of_nat n → bat (repeat v n) i = v.
Proof. intros. unfold bat. apply nth_repeat_lt. lia. Qed.
Lemma bat_bs_lookup b i : 0 <= i < blen b → b !! Z.to_nat i = Some (bat b i).
Proof.
  unfold bat, blen. intros. rewrite nth_lookup.
  destruct (b !! Z.to_nat i) eqn:E; [done|]. apply lookup_ge_None in E. lia.
Qed.

Lemma bytes_ext a b :
  blen a = blen b → (∀ i, 0 <= i < blen a → bat a i = bat b i) → a = b.
Proof.
  intros Hl Hb. apply list_eq_same_length with (length a); unfold blen in *; [lia|done|].
  intros i x y Hi Hx Hy. specialize (Hb (Z.of_nat i) ltac:(lia)).
  unfold bat in Hb. rewrite !nth_lookup, !Nat2Z.id, Hx, Hy in Hb. done.
Qed.

Lemma blen_mono_nonneg b n : blen b = n → 0 <= n.
Proof. intros <-. apply blen_nonneg. Qed.

#[export] Hint Rewrite blen_nil blen_cons blen_app blen_repeat : zonrw.
#[export] Hint Rewrite blen_put blen_sub using (autorewrite with zonrw; lia) : zonrw.

(** Every length in sight is non-negative. *)
Ltac blen_pos :=
  repeat match goal with
  | |- context [blen ?b] =>
      lazymatch goal with _ : 0 <= blen b |- _ => fail | _ => pose proof (blen_nonneg b) end
  | H : context [blen ?b] |- _ =>
      lazymatch goal with _ : 0 <= blen b |- _ => fail | _ => pose proof (blen_nonneg b) end
  end.

(** Solve goals about lengths and offsets. *)
Ltac blia :=
  repeat match goal with
  | b : bytes |- _ =>
      lazymatch goal with
      | _ : 0 <= blen b |- _ => fail
      | _ => pose proof (blen_nonneg b)
      end
  end; autorewrite with zonrw in *;
  first [lia | blen_pos; lia].

Lemma sub_all b : sub b 0 (blen b) = b.
Proof. unfold sub, blen. rewrite drop_0, Nat2Z.id. apply firstn_all. Qed.
Lemma sub_0 b i : sub b i 0 = [].
Proof. done. Qed.
Lemma sub_sub b i n j k :
  0 <= i → 0 <= j → 0 <= k → j + k <= n → sub (sub b i n) j k = sub b (i + j) k.
Proof.
  unfold sub. intros. apply list_eq. intros x. destruct (decide (x < Z.to_nat k)%nat).
  - rewrite !lookup_take_lt by lia. rewrite !lookup_drop.
    rewrite lookup_take_lt by lia. rewrite lookup_drop. f_equal. lia.
  - rewrite !lookup_take_ge by lia. done.
Qed.
Lemma sub_app_l a b i n : 0 <= i → 0 <= n → i + n <= blen a → sub (a ++ b) i n = sub a i n.
Proof.
  intros. apply bytes_ext; [rewrite !blen_sub; blia|].
  intros j Hj. rewrite blen_sub in Hj by blia. rewrite !bat_sub, bat_app by lia.
  by rewrite (proj2 (Z.ltb_lt _ _)) by lia.
Qed.
Lemma sub_app_r a b i n :
  blen a <= i → 0 <= n → sub (a ++ b) i n = sub b (i - blen a) n.
Proof.
  unfold sub, blen. intros. rewrite drop_app_ge by lia. do 2 f_equal. lia.
Qed.
Lemma sub_put_same b i l :
  0 <= i → i + blen l <= blen b → sub (put b i l) i (blen l) = l.
Proof.
  intros. pose proof (blen_nonneg l). apply bytes_ext; [rewrite blen_sub; blia|].
  intros j Hj. rewrite blen_sub in Hj by blia. rewrite bat_sub, bat_put by lia.
  rewrite (proj2 (Z.leb_le _ _)), (proj2 (Z.ltb_lt _ _)) by lia. simpl. f_equal. lia.
Qed.
Lemma sub_put_disjoint b i l j n :
  0 <= i → i + blen l <= blen b → 0 <= j → 0 <= n → j + n <= blen b →
  j + n <= i ∨ i + blen l <= j → sub (put b i l) j n = sub b j n.
Proof.
  intros. pose proof (blen_nonneg l). apply bytes_ext; [rewrite !blen_sub; blia|].
  intros k Hk. rewrite blen_sub in Hk by blia. rewrite !bat_sub, bat_put by lia.
  destruct (_ && _) eqn:E; [lia|done].
Qed.
Lemma sub_split b i n k :
  0 <= i → 0 <= k <= n → i + n <= blen b → sub b i n = sub b i k ++ sub b (i + k) (n - k).
Proof.
  intros. apply bytes_ext; [autorewrite with zonrw; lia|].
  intros j Hj. rewrite blen_sub in Hj by lia. rewrite bat_app, blen_sub by lia.
  destruct (Z.ltb_spec j k); rewrite !bat_sub by lia; [done|f_equal; lia].
Qed.

Lemma put_put_app b i l l' :
  0 <= i → i + blen l + blen l' <= blen b → put (put b i l) (i + blen l) l' = put b i (l ++ l').
Proof.
  intros. pose proof (blen_nonneg l). pose proof (blen_nonneg l').
  apply bytes_ext; [blia|]. intros j Hj. rewrite !blen_put in Hj by blia.
  rewrite !bat_put by blia. rewrite blen_app.
  destruct (Z.leb_spec i j), (Z.leb_spec (i + blen l) j), (Z.ltb_spec j (i + blen l)),
    (Z.ltb_spec j (i + blen l + blen l')), (Z.ltb_spec j (i + (blen l + blen l')));
    simpl; try lia; rewrite ?bat_app by lia; try done;
    try (rewrite (proj2 (Z.ltb_lt _ _)) by lia; done);
    rewrite (proj2 (Z.ltb_ge _ _)) by lia; f_equal; lia.
Qed.
Lemma put_at a b c l i :
  i = blen a → blen b = blen l → put (a ++ b ++ c) i l = a ++ l ++ c.
Proof.
  intros -> Hl. unfold put. rewrite <- Hl. unfold blen.
  rewrite <- Nat2Z.inj_add, !Nat2Z.id. rewrite take_app_length.
  rewrite (app_assoc a b c), drop_app_length'; [done|]. by rewrite length_app.
Qed.
Lemma sub_at a b c i n : i = blen a → n = blen b → sub (a ++ b ++ c) i n = b.
Proof.
  intros -> ->. unfold sub, blen. rewrite !Nat2Z.id, drop_app_length. apply take_app_length.
Qed.
Lemma split_at b k : 0 <= k <= blen b → ∃ x y, b = x ++ y ∧ blen x = k.
Proof.
  intros. exists (take (Z.to_nat k) b), (drop (Z.to_nat k) b).
  rewrite take_drop. split; [done|]. unfold blen in *. rewrite length_take. lia.
Qed.
Lemma sub_take b n : sub b 0 n = take (Z.to_nat n) b.
Proof. unfold sub. by rewrite drop_0. Qed.

(** ** Lemmas: well-formed bytes *)

Lemma bat_byte b i : bytes_wf b → is_byte (bat b i).
Proof.
  unfold bytes_wf, bat, is_byte. intros H.
  destruct (nth_in_or_default (Z.to_nat i) b 0) as [Hin| ->]; [|lia].
  apply (proj1 (List.Forall_forall _ _) H). done.
Qed.
Lemma wf_sub b i n : bytes_wf b → bytes_wf (sub b i n).
Proof. intros. by apply Forall_take, Forall_drop. Qed.
Lemma wf_put b i l : bytes_wf b → bytes_wf l → bytes_wf (put b i l).
Proof.
  intros. unfold put. apply Forall_app_2; [by apply Forall_take|].
  apply Forall_app_2; [done|by apply Forall_drop].
Qed.
Lemma wf_app a b : bytes_wf (a ++ b) ↔ bytes_wf a ∧ bytes_wf b.
Proof. apply Forall_app. Qed.
Lemma wf_u8 v : is_byte (u8 v).
Proof. apply u8_range. Qed.
#[export] Hint Resolve bat_byte wf_sub wf_put wf_u8 : zon.

(** Split the well-formedness of a concatenation into its parts. *)
Ltac wf_split :=
  repeat match goal with
  | H : bytes_wf (_ ++ _) |- _ => apply wf_app in H as [? ?]
  | |- bytes_wf (_ ++ _) => apply wf_app; split
  end; auto with zon.

(** ** Lemmas: [wp] rules of the memory operations *)

Lemma in_range_true b i n : 0 <= i → 0 <= n → i + n <= blen b → in_range b i n = true.
Proof. unfold in_range. lia. Qed.

Lemma wp_rd b i P : 0 <= i < blen b → P (bat b i) → wp (rd b i) P.
Proof. intros. unfold rd. rewrite in_range_true by lia. done. Qed.

Lemma wp_rds b i n P :
  0 <= i → 0 <= n → i + n <= blen b → P (sub b i n) → wp (rds b i n) P.
Proof. intros. unfold rds. rewrite in_range_true by lia. done. Qed.

Lemma wp_store b i l P :
  0 <= i → i + blen l <= blen b → P (put b i l) → wp (store b i l) P.
Proof.
  intros. unfold store. pose proof (blen_nonneg l). rewrite in_range_true by lia. done.
Qed.

Lemma wp_memmove b dst src n P :
  0 <= dst → 0 <= src → 0 <= n → dst + n <= blen b → src + n <= blen b →
  P (put b dst (sub b src n)) → wp (memmove b dst src n) P.
Proof.
  intros ????? HP. unfold memmove. destruct (Z.eqb_spec n 0) as [->|].
  - rewrite sub_0 in HP. unfold put in HP. simpl in HP.
    rewrite blen_nil, Z.add_0_r, take_drop in HP. done.
  - apply wp_bind, wp_rds; [done..|]. apply wp_store; [done|blia|done].
Qed.

Lemma wp_memcpy d dst s src n P :
  0 <= dst → 0 <= src → 0 <= n → dst + n <= blen d → src + n <= blen s →
  P (put d dst (sub s src n)) → wp (memcpy d dst s src n) P.
Proof.
  intros ????? HP. unfold memcpy. destruct (Z.eqb_spec n 0) as [->|].
  - rewrite sub_0 in HP. unfold put in HP. simpl in HP.
    rewrite blen_nil, Z.add_0_r, take_drop in HP. done.
  - apply wp_bind, wp_rds; [done..|]. apply wp_store; [done|blia|done].
Qed.

Lemma wp_memset b i v n P :
  0 <= i → 0 <= n → i + n <= blen b → P (put b i (repeat (u8 v) (Z.to_nat n))) →
  wp (memset b i v n) P.
Proof.
  intros ??? HP. unfold memset. destruct (Z.eqb_spec n 0) as [->|].
  - unfold put in HP. simpl in HP. rewrite blen_nil, Z.add_0_r, take_drop in HP. done.
  - rewrite (proj2 (Z.ltb_ge _ _)) by lia. apply wp_store; [done|blia|done].
Qed.

(** The value of a big-endian 16-bit field. *)
Definition be16 (b : bytes) (i : Z) : Z := bat b i * 256 + bat b (i + 1).

Lemma be16_range b i : bytes_wf b → 0 <= be16 b i < 65536.
Proof.
  intros H. unfold be16. pose proof (bat_byte b i H). pose proof (bat_byte b (i + 1) H).
  unfold is_byte in *. lia.
Qed.
#[export] Hint Resolve be16_range : zon.

Lemma antohs_u16 hi lo :
  is_byte hi → is_byte lo → u16 (Z.shiftl (u16 (s8 hi)) 8 + u8 lo) = hi * 256 + lo.
Proof.
  unfold is_byte, u16, u8, s8. intros. rewrite Z.shiftl_mul_pow2 by lia.
  rewrite (Z.mod_small lo) by lia.
  change (2 ^ 7) with 128. change (2 ^ 8) with 256. change (2 ^ 16) with 65536.
  Z.to_euclidean_division_equations. lia.
Qed.

Lemma wp_ANTOHS16 b i P :
  bytes_wf b → 0 <= i → i + 1 < blen b → P (be16 b i) → wp (ANTOHS16 b i) P.
Proof.
  intros Hb ?? HP. unfold ANTOHS16, ANTOHS. repeat wp_step.
  apply wp_rd; [lia|]. repeat wp_step. apply wp_rd; [lia|]. repeat wp_step.
  rewrite antohs_u16 by auto with zon. done.
Qed.

Lemma rd_eq b i : 0 <= i < blen b → rd b i = Ok (bat b i).
Proof. intros. unfold rd. by rewrite in_range_true by lia. Qed.

Lemma ANTOHS16_eq b i :
  bytes_wf b → 0 <= i → i + 1 < blen b → ANTOHS16 b i = Ok (be16 b i).
Proof.
  intros. pose proof (wp_ANTOHS16 b i (λ v, v = be16 b i)) as W.
  apply wp_inv in W as (v & -> & ->); done.
Qed.

(** Two bytes that spell [v], big-endian. *)
Definition enc16 (v : Z) : bytes := [u8 (Z.shiftr v 8); u8 (Z.land v 255)].

Lemma blen_enc16 v : blen (enc16 v) = 2.
Proof. done. Qed.
#[export] Hint Rewrite blen_enc16 : zonrw.

Lemma put_put_adjacent b i x y :
  0 <= i → i + 2 <= blen b → put (put b i [x]) (i + 1) [y] = put b i [x; y].
Proof.
  intros. pose proof (blen_nonneg b).
  assert (blen [x] = 1 ∧ blen [y] = 1 ∧ blen [x; y] = 2) as (Hx & Hy & Hxy) by done.
  apply bytes_ext; [rewrite !blen_put; rewrite ?blen_put; lia|].
  intros j Hj. rewrite !blen_put in Hj by (rewrite ?blen_put; lia).
  rewrite !bat_put by (rewrite ?blen_put; lia). rewrite Hx, Hy, Hxy.
  repeat case_match; try lia.
  - replace (j - (i + 1)) with 0 by lia. replace (j - i) with 1 by lia. done.
  - replace (j - i) with 0 by lia. done.
Qed.

Lemma wp_SHTONA b i x P :
  0 <= i → i + 2 <= blen b → P (put b i (enc16 x)) → wp (SHTONA b i x) P.
Proof.
  intros ?? HP. unfold SHTONA, wr. wp_step.
  apply wp_store; [done|autorewrite with zonrw; lia|].
  apply wp_store; [lia|autorewrite with zonrw; lia|].
  rewrite put_put_adjacent by done. done.
Qed.

Lemma enc16_wf v : bytes_wf (enc16 v).
Proof. repeat constructor; apply u8_range. Qed.
#[export] Hint Resolve enc16_wf : zon.

Lemma be16_enc16 v : be16 (enc16 v) 0 = u16 v.
Proof.
  unfold be16, enc16, bat. simpl. unfold u8, u16.
  rewrite Z.shiftr_div_pow2 by lia. change 255 with (Z.ones 8).
  rewrite Z.land_ones by lia. change (2 ^ 8) with 256. change (2 ^ 16) with 65536.
  Z.to_euclidean_division_equations. lia.
Qed.

(** ** Lemmas: searching and comparing *)

Lemma find_idx_some f l i :
  find_idx f l = Some i →
  0 <= i < blen l ∧ f (bat l i) = true ∧ ∀ j, 0 <= j < i → f (bat l j) = false.
Proof.
  revert i. induction l as [|c l IH]; intros i; cbn [find_idx]; [done|].
  rewrite blen_cons. pose proof (blen_nonneg l). destruct (f c) eqn:Hc.
  - intros [= <-]. split_and!; [lia..|done|]. intros j ?. lia.
  - destruct (find_idx f l) as [k|]; [|done]. intros [= <-].
    destruct (IH k eq_refl) as (? & ? & Hj). split_and!; [lia..| |].
    + rewrite bat_cons by lia. rewrite (proj2 (Z.eqb_neq _ _)) by lia.
      by replace (k + 1 - 1) with k by lia.
    + intros j ?. rewrite bat_cons by lia. destruct (Z.eqb_spec j 0); [done|]. apply Hj. lia.
Qed.

Lemma find_idx_none f l i : find_idx f l = None → 0 <= i < blen l → f (bat l i) = false.
Proof.
  revert i. induction l as [|c l IH]; intros i; cbn [find_idx]; [rewrite blen_nil; lia|].
  rewrite blen_cons. destruct (f c) eqn:Hc; [done|].
  destruct (find_idx f l) as [k|]; [done|]. intros _ ?.
  rewrite bat_cons by lia. destruct (Z.eqb_spec i 0); [done|]. apply IH; [done|lia].
Qed.

Lemma wp_memchr b p c n P :
  0 <= p → 0 <= n → p + n <= blen b →
  (∀ q, match q with
        | None => ∀ j, p <= j < p + n → bat b j ≠ c
        | Some q => p <= q < p + n ∧ bat b q = c ∧ ∀ j, p <= j < q → bat b j ≠ c
        end → P q) →
  wp (memchr b p c n) P.
Proof.
  intros ??? HP. unfold memchr. destruct (Z.eqb_spec n 0) as [->|].
  { apply wp_ok, HP. intros. lia. }
  rewrite (proj2 (Z.ltb_ge p 0)), (proj2 (Z.ltb_ge (blen b) p)) by lia. cbn [orb].
  rewrite (proj2 (Z.ltb_ge n 0)) by lia. cbn [orb].
  change (take (Z.to_nat n) (drop (Z.to_nat p) b)) with (sub b p n).
  destruct (find_idx _ _) as [i|] eqn:E.
  - apply find_idx_some in E as (Hi & Hc & Hj). rewrite blen_sub in Hi by lia.
    rewrite bat_sub in Hc by lia. apply wp_ok, HP. split_and!; [lia..| |].
    + lia.
    + intros j ?. specialize (Hj (j - p)). rewrite bat_sub in Hj by lia.
      replace (p + (j - p)) with j in Hj by lia. lia.
  - rewrite (proj2 (Z.ltb_ge _ _)) by lia. apply wp_ok, HP. intros j ?.
    pose proof (find_idx_none _ _ (j - p) E) as Hn. rewrite blen_sub, bat_sub in Hn by lia.
    replace (p + (j - p)) with j in Hn by lia. lia.
Qed.

(** Equality of [m] with the bytes at [p], up to case. *)
Fixpoint ci_match (b : bytes) (p : Z) (m : bytes) : bool :=
  match m with
  | [] => true
  | c :: m => (tolower (bat b p) =? tolower c) && ci_match b (p + 1) m
  end.

Lemma str_caseprefix_eq b p m :
  0 <= p → p + blen m <= blen b → str_caseprefix b p m = Ok (ci_match b p m).
Proof.
  revert p. induction m as [|c m IH]; intros p; cbn [str_caseprefix ci_match]; [done|].
  rewrite blen_cons. pose proof (blen_nonneg m). intros.
  rewrite rd_eq, bind_ok by lia. destruct (_ =? _); cbn [andb]; [|done]. apply IH; lia.
Qed.

Fixpoint cs_match (b : bytes) (p : Z) (m : bytes) : bool :=
  match m with
  | [] => true
  | c :: m => (bat b p =? c) && cs_match b (p + 1) m
  end.

Lemma str_prefix_eq b p m :
  0 <= p → p + blen m <= blen b → str_prefix b p m = Ok (cs_match b p m).
Proof.
  revert p. induction m as [|c m IH]; intros p; cbn [str_prefix cs_match]; [done|].
  rewrite blen_cons. pose proof (blen_nonneg m). intros.
  rewrite rd_eq, bind_ok by lia. destruct (_ =? _); cbn [andb]; [|done]. apply IH; lia.
Qed.

Lemma cs_match_app a b p m :
  0 <= p → p + blen m <= blen a → cs_match (a ++ b) p m = cs_match a p m.
Proof.
  revert p. induction m as [|c m IH]; intros p; cbn [cs_match]; [done|].
  rewrite blen_cons. pose proof (blen_nonneg m). intros. rewrite bat_app by lia.
  rewrite (proj2 (Z.ltb_lt _ _)) by lia. f_equal. apply IH; lia.
Qed.
