(* ===== verification/Text.v ===== *)
(** The functions of the C standard library that read and print numbers and words.

    A C string is the list of its characters without the zero at its end; a pointer into it
    is what is left of the list.  [long] has 32 bits, as on Windows. *)
From Stdlib Require Import ZArith Lia Ascii String.
From stdpp Require Import base numbers list option.
From S2P Require Import Prelude CMem.

#[local] Open Scope Z_scope.
#[local] Open Scope list_scope.

(** The character a pointer is at. *)
Definition here (s : bytes) : Z := match s with c :: _ => c | [] => 0 end.

(** What is read of a buffer that is used as a string. *)
Fixpoint cstr (b : bytes) : bytes :=
  match b with [] => [] | c :: b => if c =? 0 then [] else c :: cstr b end.

Fixpoint drop_while (f : Z → bool) (s : bytes) : bytes :=
  match s with [] => [] | c :: s' => if f c then drop_while f s' else s end.
Fixpoint take_while (f : Z → bool) (s : bytes) : bytes :=
  match s with [] => [] | c :: s => if f c then c :: take_while f s else [] end.

(** [strchr(s, c)] for a character that is not zero. *)
Fixpoint strchr (s : bytes) (c : Z) : option bytes :=
  match s with [] => None | x :: s' => if x =? c then Some s else strchr s' c end.

(** * stdlib.h *)

Definition digit (base c : Z) : option Z :=
  let v := if isdigit c then c - ch "0"
           else if (ch "a" <=? c) && (c <=? ch "z") then c - ch "a" + 10
           else if (ch "A" <=? c) && (c <=? ch "Z") then c - ch "A" + 10 else 36 in
  if v <? base then Some v else None.
Definition is_digit (base c : Z) : bool := bool_decide (is_Some (digit base c)).

Fixpoint number (base : Z) (s : bytes) (acc : Z) : Z * bytes :=
  match s with
  | [] => (acc, [])
  | c :: s' => match digit base c with Some v => number base s' (acc * base + v) | None => (acc, s) end
  end.

(** The number at the start of [s] behind white space and a sign: its sign, its value, what is
    left.  [None] when there is none.  [base] 0 stands for the prefixes of C. *)
Definition sign_of (s : bytes) : bool * bytes :=
  if here s =? ch "-" then (true, tail s) else if here s =? ch "+" then (false, tail s) else (false, s).
Definition base_of (base : Z) (s : bytes) : Z * bytes :=
  let hex := match s with
    | z :: x :: d :: _ => (z =? ch "0") && (tolower x =? ch "x") && is_digit 16 d | _ => false end in
  if (base =? 0) && hex then (16, drop 2 s)
  else if (base =? 0) && (here s =? ch "0") then (8, s)
  else if base =? 0 then (10, s) else (base, s).
Definition strto (base : Z) (s : bytes) : option (bool * Z * bytes) :=
  let '(neg, s) := sign_of (drop_while isspace s) in
  let '(base, s) := base_of base s in
  if is_digit base (here s) then let '(v, s) := number base s 0 in Some (neg, v, s) else None.

Definition signed (neg : bool) (v : Z) : Z := if neg then - v else v.
Definition clamp (lo hi v : Z) : Z := Z.max lo (Z.min hi v).

Definition strtol (base : Z) (s : bytes) : Z * bytes :=
  match strto base s with
  | Some (neg, v, e) => (clamp long_min long_max (signed neg v), e)
  | None => (0, s)
  end.
Definition ulong_max : Z := 2 ^ 32 - 1.
Definition strtoul (base : Z) (s : bytes) : Z * bytes :=
  match strto base s with
  | Some (neg, v, e) => (if ulong_max <? v then ulong_max else u32 (signed neg v), e)
  | None => (0, s)
  end.
Definition atoi (s : bytes) : Z := (strtol 10 s).1.

(** * stdio.h *)

(** [%d] *)
Fixpoint dec_digits (fuel : nat) (n : Z) (acc : bytes) : bytes :=
  match fuel with
  | O => acc
  | S fuel => let acc := (ch "0" + n mod 10) :: acc in if n <? 10 then acc else dec_digits fuel (n / 10) acc
  end.
Definition dec_nat (n : Z) : bytes := dec_digits (S (Z.to_nat (Z.log2 n))) n [].
Definition dec (n : Z) : bytes := if n <? 0 then ch "-" :: dec_nat (- n) else dec_nat n.

(** The directives of [scanf]: white space, a literal character, [%<w>s] and [%d].  The result
    of a directive that matches is [Some]; what is left of the stream comes in either case. *)
Definition scan_space (s : bytes) : bytes := drop_while isspace s.
Definition scan_char (c : Z) (s : bytes) : bool * bytes :=
  match s with x :: s' => if x =? c then (true, s') else (false, s) | [] => (false, []) end.
Definition scan_word (w : nat) (s : bytes) : option bytes * bytes :=
  let s := scan_space s in
  let x := take w (take_while (λ c, negb (isspace c)) s) in
  if bool_decide (x = []) then (None, s) else (Some x, drop (length x) s).
Definition scan_int (s : bytes) : option Z * bytes :=
  let '(neg, s) := sign_of (scan_space s) in
  if is_digit 10 (here s) then let '(v, s) := number 10 s 0 in (Some (signed neg v), s) else (None, s).

(** * Lemmas *)

Lemma cstr_app b c : forallb (λ x, negb (x =? 0)) b = true → cstr (b ++ 0 :: c) = b.
Proof. induction b as [|x b IH]; cbn; [done|]. destruct (x =? 0); cbn; [done|]. intros H. by rewrite IH. Qed.
Lemma cstr_id b : forallb (λ x, negb (x =? 0)) b = true → cstr b = b.
Proof. induction b as [|x b IH]; cbn; [done|]. destruct (x =? 0); cbn; [done|]. intros H. by rewrite IH. Qed.

Lemma drop_while_none f s : f (here s) = false → drop_while f s = s.
Proof. destruct s as [|c s]; cbn; [done|]. by intros ->. Qed.
Lemma drop_while_app f a s : forallb f a = true → drop_while f (a ++ s) = drop_while f s.
Proof. induction a as [|c a IH]; cbn; [done|]. destruct (f c); cbn; [exact IH|done]. Qed.
Lemma drop_while_length f s : (length (drop_while f s) ≤ length s)%nat.
Proof. induction s as [|c s IH]; cbn; [lia|]. destruct (f c); cbn; lia. Qed.
Lemma take_while_app f a s : forallb f a = true → f (here s) = false ∨ s = [] → take_while f (a ++ s) = a.
Proof.
  intros Ha Hs. induction a as [|c a IH]; cbn in *.
  - destruct s as [|c s]; cbn; [done|]. destruct Hs as [Hs|]; [|done]. cbn in Hs. by rewrite Hs.
  - destruct (f c); [|done]. f_equal. by apply IH.
Qed.

(** ** Numbers *)

(** The value of digits, most significant first. *)
Definition dec_value (l : bytes) (acc : Z) : Z := foldl (λ a c, a * 10 + (c - ch "0")) acc l.

Lemma digit_10 c : isdigit c = true → digit 10 c = Some (c - ch "0").
Proof.
  intros H. unfold digit. rewrite H. unfold isdigit in H. change (ch "0") with 48.
  by destruct (Z.ltb_spec (c - 48) 10); [|lia].
Qed.
Lemma digit_10_none c : isdigit c = false → digit 10 c = None.
Proof.
  intros H. unfold digit. rewrite H. change (ch "a") with 97. change (ch "A") with 65.
  destruct (Z.leb_spec 97 c), (Z.leb_spec c (ch "z")), (Z.leb_spec 65 c), (Z.leb_spec c (ch "Z")); cbn [andb];
    destruct (Z.ltb_spec (c - 97 + 10) 10), (Z.ltb_spec (c - 65 + 10) 10); try lia; done.
Qed.
Lemma is_digit_10 c : is_digit 10 c = isdigit c.
Proof.
  unfold is_digit. destruct (isdigit c) eqn:E; [rewrite digit_10 by done|rewrite digit_10_none by done]; done.
Qed.

Lemma number_10 l s acc : forallb isdigit l = true → isdigit (here s) = false →
  number 10 (l ++ s) acc = (dec_value l acc, s).
Proof.
  intros Hl Hs. revert acc. induction l as [|c l IH]; intros acc; cbn in Hl |- *.
  - destruct s as [|c s]; cbn; [done|]. by rewrite digit_10_none.
  - apply andb_true_iff in Hl as [Hc Hl]. rewrite digit_10 by done. by apply IH.
Qed.

Lemma dec_digits_spec fuel n acc : 0 <= n < 2 ^ Z.of_nat (S fuel) → ∃ l, dec_digits (S fuel) n acc = l ++ acc ∧
  forallb isdigit l = true ∧ l ≠ [] ∧ dec_value l 0 = n ∧ (here l = ch "0" → n = 0).
Proof.
  revert n acc. induction fuel as [|fuel IH]; intros n acc Hn.
  all: rewrite Nat2Z.inj_succ, Z.pow_succ_r in Hn by lia.
  all: assert (Hd : isdigit (48 + n mod 10) = true) by (unfold isdigit; pose proof (Z.mod_pos_bound n 10); lia).
  all: assert (Hsmall : n < 10 → ∃ l, (48 + n mod 10) :: acc = l ++ acc ∧
    forallb isdigit l = true ∧ l ≠ [] ∧ dec_value l 0 = n ∧ (here l = ch "0" → n = 0)).
  1, 3: intros H; exists [48 + n mod 10]; rewrite Z.mod_small in * by lia; cbn [forallb]; rewrite Hd;
    unfold dec_value; cbn [foldl here]; change (ch "0") with 48; split_and!; [done|done|done|lia|lia].
  - cbn in Hn. cbn [dec_digits]. change (ch "0") with 48 in *. destruct (Z.ltb_spec n 10); [auto|lia].
  - remember (S fuel) as fuel'. cbn [dec_digits]. subst fuel'. change (ch "0") with 48 in *.
    destruct (Z.ltb_spec n 10); [auto|].
    destruct (IH (n / 10) ((48 + n mod 10) :: acc)) as (l & -> & Hl & Hne & Hv & H0).
    { split; [apply Z.div_pos; lia|]. apply Z.div_lt_upper_bound; lia. }
    exists (l ++ [48 + n mod 10]). rewrite <- app_assoc, forallb_app, Hl. cbn [forallb]. rewrite Hd.
    split_and!; [done|done|by destruct l| |].
    + unfold dec_value in *. rewrite foldl_app, Hv. cbn [foldl]. change (ch "0") with 48. pose proof (Z.div_mod n 10). lia.
    + destruct l as [|c l]; [done|]. intros Hh. specialize (H0 Hh). pose proof (Z.div_le_mono 10 n 10). rewrite H0 in *.
      change (10 / 10) with 1 in *. lia.
Qed.
Lemma dec_nat_spec n : 0 <= n → ∃ l, dec_nat n = l ∧ forallb isdigit l = true ∧ l ≠ [] ∧ dec_value l 0 = n ∧
  (here l = ch "0" → n = 0).
Proof.
  intros Hn. unfold dec_nat. destruct (dec_digits_spec (Z.to_nat (Z.log2 n)) n []) as (l & E & H).
  { split; [done|]. rewrite Nat2Z.inj_succ, Z2Nat.id by apply Z.log2_nonneg. destruct (decide (n = 0)) as [->|].
    - cbn. lia.
    - pose proof (Z.log2_spec n). lia. }
  exists l. by rewrite E, app_nil_r.
Qed.

Lemma isdigit_not_space c : isdigit c = true → isspace c = false.
Proof. unfold isdigit, isspace. lia. Qed.
Lemma here_app a s : a ≠ [] → here (a ++ s) = here a.
Proof. by destruct a. Qed.
Lemma forallb_here f a : forallb f a = true → a ≠ [] → f (here a) = true.
Proof. destruct a as [|c a]; [done|]. cbn. intros H _. by apply andb_true_iff in H as [-> _]. Qed.

Lemma sign_of_digit s : isdigit (here s) = true → sign_of s = (false, s).
Proof.
  unfold sign_of, isdigit. change (ch "-") with 45. change (ch "+") with 43. intros H.
  destruct (Z.eqb_spec (here s) 45); [lia|]. by destruct (Z.eqb_spec (here s) 43); [lia|].
Qed.

(** A number that was printed is read back. *)
Lemma strto_dec n s : 0 <= n → isdigit (here s) = false → strto 10 (dec_nat n ++ s) = Some (false, n, s).
Proof.
  intros Hn Hs. destruct (dec_nat_spec n Hn) as (l & -> & Hl & Hne & Hv & _). unfold strto.
  pose proof (forallb_here _ _ Hl Hne) as Hh. rewrite <- (here_app l s Hne) in Hh.
  rewrite drop_while_none, sign_of_digit by auto using isdigit_not_space. unfold base_of. cbn [andb Z.eqb].
  rewrite is_digit_10, Hh, number_10 by done. by rewrite Hv.
Qed.
Lemma strto_dec0 n s : 0 < n → isdigit (here s) = false → strto 0 (dec_nat n ++ s) = Some (false, n, s).
Proof.
  intros Hn Hs. destruct (dec_nat_spec n ltac:(lia)) as (l & -> & Hl & Hne & Hv & H0). unfold strto.
  pose proof (forallb_here _ _ Hl Hne) as Hh. rewrite <- (here_app l s Hne) in Hh.
  rewrite drop_while_none, sign_of_digit by auto using isdigit_not_space.
  assert (Hz : here (l ++ s) ≠ ch "0") by (rewrite here_app by done; intros E; specialize (H0 E); lia).
  assert (base_of 0 (l ++ s) = (10, l ++ s)) as ->.
  { unfold base_of. rewrite Z.eqb_refl. cbn [andb]. rewrite (proj2 (Z.eqb_neq _ _) Hz).
    destruct (l ++ s) as [|z [|x [|d r]]]; try done. cbn [here] in Hz. by rewrite (proj2 (Z.eqb_neq _ _) Hz). }
  rewrite is_digit_10, Hh, number_10 by done. by rewrite Hv.
Qed.

Lemma clamp_id lo hi v : lo <= v <= hi → clamp lo hi v = v.
Proof. unfold clamp. lia. Qed.
Lemma strtol_dec n s : 0 <= n <= long_max → isdigit (here s) = false → strtol 10 (dec_nat n ++ s) = (n, s).
Proof. intros Hn Hs. unfold strtol. rewrite strto_dec by (done || lia). cbn. rewrite clamp_id; [done|]. unfold long_min. lia. Qed.
Lemma strtol_dec0 n s : 0 < n <= long_max → isdigit (here s) = false → strtol 0 (dec_nat n ++ s) = (n, s).
Proof. intros Hn Hs. unfold strtol. rewrite strto_dec0 by (done || lia). cbn. rewrite clamp_id; [done|]. unfold long_min. lia. Qed.

(** The same for any number and the base of C. *)
Lemma strtol_dec_any n s : long_min <= n <= long_max → is_digit 16 (here s) = false → tolower (here s) ≠ ch "x" →
  strtol 0 (dec n ++ s) = (n, s).
Proof.
  intros Hn Hd Hx. assert (Hs : isdigit (here s) = false).
  { unfold is_digit in Hd. destruct (isdigit (here s)) eqn:E; [|done]. unfold digit in Hd. rewrite E in Hd.
    unfold isdigit in E. change (ch "0") with 48 in Hd. destruct (Z.ltb_spec (here s - 48) 16); [done|lia]. }
  assert (Hp : ∀ m, 0 <= m → let '(base, t) := base_of 0 (dec_nat m ++ s) in
    is_digit base (here t) = true ∧ number base t 0 = (m, s)).
  { intros m Hm. destruct (decide (m = 0)) as [->|Hne].
    - change (dec_nat 0) with [ch "0"]. cbn [app]. unfold base_of. cbn [here]. rewrite !Z.eqb_refl. cbn [andb].
      assert (E8 : digit 8 (here s) = None).
      { unfold is_digit, digit in *. rewrite Hs in *. cbv zeta in *. revert Hd.
        match goal with |- context [?a <? 16] => destruct (Z.ltb_spec a 16); [done|]; by destruct (Z.ltb_spec a 8); [lia|] end. }
      assert (E0 : number 8 (ch "0" :: s) 0 = (0, s)).
      { cbn [number]. change (digit 8 (ch "0")) with (Some 0). cbn. destruct s as [|c s]; cbn in *; [done|]. by rewrite E8. }
      destruct s as [|x [|d s']]; [by rewrite E0..|]. cbn [here] in Hx.
      rewrite (proj2 (Z.eqb_neq _ _) Hx). cbn [andb]. by rewrite E0.
    - pose proof (strto_dec0 m s ltac:(lia) Hs) as H. unfold strto in H.
      destruct (dec_nat_spec m Hm) as (l & E & Hl & Hnl & _). rewrite E in *.
      pose proof (forallb_here _ _ Hl Hnl) as Hh. rewrite <- (here_app l s Hnl) in Hh.
      rewrite drop_while_none, sign_of_digit in H by auto using isdigit_not_space.
      destruct (base_of 0 (l ++ s)) as [base t]. destruct (is_digit base (here t)); [|done].
      split; [done|]. destruct (number base t 0) as [v e]. by injection H as -> ->. }
  unfold strtol, strto. assert (Hc : ∀ v, v = n → clamp long_min long_max v = n) by (intros v ->; by apply clamp_id).
  unfold dec. destruct (Z.ltb_spec n 0).
  - cbn [app]. rewrite drop_while_none by done. change (sign_of (ch "-" :: dec_nat (- n) ++ s)) with (true, dec_nat (- n) ++ s).
    specialize (Hp (- n) ltac:(lia)). cbv beta iota. destruct (base_of 0 (dec_nat (- n) ++ s)) as [base t]. destruct Hp as [-> ->].
    rewrite Hc; [done|]. unfold signed. lia.
  - destruct (dec_nat_spec n ltac:(lia)) as (l & E & Hl & Hnl & _).
    pose proof (forallb_here _ _ Hl Hnl) as Hh. rewrite <- (here_app l s Hnl), <- E in Hh.
    rewrite drop_while_none, sign_of_digit by auto using isdigit_not_space.
    specialize (Hp n ltac:(lia)). destruct (base_of 0 (dec_nat n ++ s)) as [base t]. destruct Hp as [-> ->]. by rewrite Hc.
Qed.

Lemma scan_int_dec n s : isdigit (here s) = false → scan_int (dec n ++ s) = (Some n, s).
Proof.
  intros Hs. unfold dec, scan_int, scan_space. destruct (Z.ltb_spec n 0).
  - destruct (dec_nat_spec (- n) ltac:(lia)) as (l & -> & Hl & Hne & Hv & _).
    pose proof (forallb_here _ _ Hl Hne) as Hh. rewrite <- (here_app l s Hne) in Hh.
    cbn [app]. rewrite drop_while_none by done. unfold sign_of. cbn [here tail Z.eqb].
    change (ch "-" =? ch "-") with true. cbn match. rewrite is_digit_10, Hh, number_10, Hv by done. cbn. by rewrite Z.opp_involutive.
  - destruct (dec_nat_spec n ltac:(lia)) as (l & -> & Hl & Hne & Hv & _).
    pose proof (forallb_here _ _ Hl Hne) as Hh. rewrite <- (here_app l s Hne) in Hh.
    rewrite drop_while_none, sign_of_digit by auto using isdigit_not_space. by rewrite is_digit_10, Hh, number_10, Hv.
Qed.

(** A word that was printed is read back, when it fits. *)
Lemma scan_word_app w x s : x ≠ [] → forallb (λ c, negb (isspace c)) x = true → (length x ≤ w)%nat →
  isspace (here s) = true ∨ s = [] → scan_word w (x ++ s) = (Some x, s).
Proof.
  intros Hne Hx Hw Hs. unfold scan_word, scan_space. pose proof (forallb_here _ _ Hx Hne) as Hh.
  rewrite <- (here_app x s Hne) in Hh. rewrite drop_while_none by (by apply negb_true_iff in Hh).
  rewrite take_while_app; [|done|].
  2: { destruct Hs as [Hs|]; [left; by rewrite Hs|by right]. }
  rewrite take_ge by lia. rewrite bool_decide_eq_false_2 by done. by rewrite drop_app_length.
Qed.
Lemma scan_space_app a s : forallb isspace a = true → isspace (here s) = false → scan_space (a ++ s) = s.
Proof. intros Ha Hs. unfold scan_space. rewrite drop_while_app by done. by apply drop_while_none. Qed.

Lemma dec_not_space n s : isspace (here (dec n ++ s)) = false.
Proof.
  unfold dec. destruct (Z.ltb_spec n 0); [done|]. destruct (dec_nat_spec n ltac:(lia)) as (l & -> & Hl & Hne & _).
  rewrite here_app by done. by apply isdigit_not_space, forallb_here.
Qed.

Example strtol_hex : strtol 0 (bs " -0x1Fz") = (-31, bs "z"). Proof. reflexivity. Qed.
Example strtol_oct : strtol 0 (bs "0190") = (1, bs "90"). Proof. reflexivity. Qed.
Example dec_1080 : dec (-1080) = bs "-1080". Proof. reflexivity. Qed.
