(* ===== verification/PacketsTls.v ===== *)
(** byedpi packets.c, the TLS half.

    Parsing a ClientHello ([find_tls_ext_offset], [find_ext_block], [parse_tls]),
    the classifiers [is_tls_chello], [is_tls_shello] and [neq_tls_sid], record
    splitting and merging ([part_tls], [merge_tls_records]) and the rewriting of
    the fake ClientHello ([change_tls_sni] and its helpers, [randomize_tls]).
    [buffer] is the object the C pointer points into; [bsize]/[n] are the length
    arguments.  The results of [rand()] are the successive values of an oracle. *)
From Stdlib Require Import ZArith Lia.
From stdpp Require Import base numbers list option.
From S2P Require Import Prelude CMem.

(** packets.c: the default fake ClientHello, [char tls_data[517]]; the
    initialiser names the first bytes, the rest of the array is zero. *)
Definition tls_data_init : bytes := [
   22; 3; 1; 2; 0; 1; 0; 1; 252; 3; 3; 3; 95; 111; 44; 237; 19; 34;
   248; 220; 178; 242; 96; 72; 45; 114; 102; 111; 87; 221; 19; 157; 27; 55; 220; 250;
   54; 46; 186; 249; 146; 153; 58; 32; 249; 223; 12; 46; 138; 85; 137; 130; 49; 99;
   26; 239; 168; 190; 8; 88; 167; 163; 90; 24; 211; 150; 95; 4; 92; 180; 98; 175;
   137; 215; 15; 139; 0; 62; 19; 2; 19; 3; 19; 1; 192; 44; 192; 48; 0; 159;
   204; 169; 204; 168; 204; 170; 192; 43; 192; 47; 0; 158; 192; 36; 192; 40; 0; 107;
   192; 35; 192; 39; 0; 103; 192; 10; 192; 20; 0; 57; 192; 9; 192; 19; 0; 51;
   0; 157; 0; 156; 0; 61; 0; 60; 0; 53; 0; 47; 0; 255; 1; 0; 1; 117;
   0; 0; 0; 22; 0; 20; 0; 0; 17; 119; 119; 119; 46; 119; 105; 107; 105; 112;
   101; 100; 105; 97; 46; 111; 114; 103; 0; 11; 0; 4; 3; 0; 1; 2; 0; 10;
   0; 22; 0; 20; 0; 29; 0; 23; 0; 30; 0; 25; 0; 24; 1; 0; 1; 1;
   1; 2; 1; 3; 1; 4; 0; 16; 0; 14; 0; 12; 2; 104; 50; 8; 104; 116;
   116; 112; 47; 49; 46; 49; 0; 22; 0; 0; 0; 23; 0; 0; 0; 49; 0; 0;
   0; 13; 0; 42; 0; 40; 4; 3; 5; 3; 6; 3; 8; 7; 8; 8; 8; 9;
   8; 10; 8; 11; 8; 4; 8; 5; 8; 6; 4; 1; 5; 1; 6; 1; 3; 3;
   3; 1; 3; 2; 4; 2; 5; 2; 6; 2; 0; 43; 0; 9; 8; 3; 4; 3;
   3; 3; 2; 3; 1; 0; 45; 0; 2; 1; 1; 0; 51; 0; 38; 0; 36; 0;
   29; 0; 32; 17; 140; 184; 140; 232; 138; 8; 144; 30; 238; 25; 217; 221; 232; 212;
   6; 177; 209; 226; 171; 224; 22; 99; 214; 220; 218; 132; 164; 184; 75; 251; 14; 0;
   21; 0; 172; 0; 0; 0; 0; 0; 0].

Definition tls_data : bytes := tls_data_init ++ repeat 0 (517 - length tls_data_init).

(** ** Reading a ClientHello *)

Definition find_tls_ext_offset (type : Z) (data : bytes) (size skip : Z) : comp Z :=
  if size <=? skip + 2 then Ok 0 else
  ext_len ← ANTOHS16 data skip;
  let skip := skip + 2 in
  let size := if ext_len <? size - skip then ext_len + skip else size in
  loop (λ skip,
    if skip + 4 <? size then
      epyt ← ANTOHS16 data skip;
      if type =? epyt then Ok (inr skip) else
      len ← ANTOHS16 data (skip + 2);
      Ok (inl (skip + (len + 4)))
    else Ok (inr 0)) (S (Z.to_nat size)) skip.

Definition find_ext_block (data : bytes) (size : Z) : comp Z :=
  if size <? 44 then Ok 0 else
  sid_len ← rd data 43;
  if size <? 44 + sid_len + 2 then Ok 0 else
  cip_len ← ANTOHS16 data (44 + sid_len);
  let skip := 44 + sid_len + 2 + cip_len + 2 in
  Ok (if size <? skip then 0 else skip).

Definition is_tls_chello (buffer : bytes) (bsize : Z) : comp bool :=
  if bsize <=? 5 then Ok false else
  v ← ANTOHS buffer 0;
  if negb (v =? 5635 (* 0x1603 *)) then Ok false else
  t ← rd buffer 5; Ok (t =? 1).

Definition is_tls_shello (buffer : bytes) (bsize : Z) : comp bool :=
  if bsize <=? 5 then Ok false else
  v ← ANTOHS buffer 0;
  if negb (v =? 5635) then Ok false else
  t ← rd buffer 5; Ok (t =? 2).

(** The length returned and the offset stored through [hs], if one is. *)
Definition parse_tls (buffer : bytes) (bsize : Z) : comp (Z * option Z) :=
  hello ← is_tls_chello buffer bsize;
  if negb hello then Ok (0, None) else
  skip ← find_ext_block buffer bsize;
  if skip =? 0 then Ok (0, None) else
  sni_offs ← find_tls_ext_offset 0 buffer bsize skip;
  if (sni_offs =? 0) || (bsize <=? sni_offs + 12) then Ok (0, None) else
  len ← ANTOHS16 buffer (sni_offs + 7);
  if bsize <? sni_offs + 9 + len then Ok (0, None) else
  Ok (len, Some (sni_offs + 9)).

Definition neq_tls_sid (req : bytes) (qn : Z) (resp : bytes) (sn : Z) : comp bool :=
  if (qn <? 75) || (sn <? 75) then Ok false else
  hello ← is_tls_chello req qn;
  if negb hello then Ok false else
  v ← ANTOHS resp 0;
  if negb (v =? 5635) then Ok false else
  sid_len ← rd req 43;
  let skip := 44 + sid_len + 3 in
  offs ← find_tls_ext_offset 43 resp sn skip;
  if offs =? 0 then Ok false else
  rs ← rd resp 43;
  if negb (sid_len =? rs) then Ok true else
  c ← memcmp req 44 resp 44 sid_len;
  Ok (negb (c =? 0)).

(** ** Records *)

(** The bytes added and the new buffer.  [bsize - n < 5] compares a [size_t], so
    it also holds when [n] exceeds [bsize]: never in a 64-bit word. *)
Definition part_tls (buffer : bytes) (bsize n pos : Z) : comp (Z * bytes) :=
  if (n <? 3) || (u64 (bsize - n) <? 5) || (pos <? 0) || (n <? pos + 5)
  then Ok (0, buffer) else
  r_sz ← ANTOHS16 buffer 3;
  if r_sz <? pos then Ok (n, buffer) else
  buffer ← memmove buffer (5 + pos + 5) (5 + pos) (n - (5 + pos));
  buffer ← memcpy buffer (5 + pos) buffer 0 3;
  buffer ← SHTONA buffer 3 pos;
  buffer ← SHTONA buffer (5 + pos + 3) (r_sz - pos);
  Ok (5, buffer).

(** The state of the loop of [merge_tls_records]. *)
Record merge_state := MergeState {
  mg_buffer : bytes; mg_full : Z; mg_rsz : Z; mg_i : Z }.

Definition merge_body (n : Z) (s : merge_state) : comp (merge_state + merge_state) :=
  let buffer := mg_buffer s in
  let full_sz := u16 (mg_full s + mg_rsz s) in
  let leave := Ok (inr (MergeState buffer full_sz (mg_rsz s) (mg_i s))) in
  if n - 5 <? 5 + full_sz then leave else
  c ← rd buffer (5 + full_sz);
  c0 ← rd buffer 0;
  if negb (c =? c0) then leave else
  r_sz ← ANTOHS16 buffer (5 + full_sz + 3);
  if n <? full_sz + 10 + r_sz then Ok (inr (MergeState buffer full_sz r_sz (mg_i s)))
  else
  buffer ← memmove buffer (5 + full_sz) (10 + full_sz) (n - (10 + full_sz));
  Ok (inl (MergeState buffer full_sz r_sz (mg_i s + 1))).

(** The fuel is explicit: the C loop does not always end (see
    [merge_tls_records_diverges]). *)
Definition merge_tls_records (fuel : nat) (buffer : bytes) (n : Z) : comp (Z * bytes) :=
  if n <? 5 then Ok (0, buffer) else
  r_sz ← ANTOHS16 buffer 3;
  s ← loop (merge_body n) fuel (MergeState buffer 0 r_sz 0);
  buffer ← SHTONA (mg_buffer s) 3 (mg_full s);
  buffer ← SHTONA buffer 7 (mg_full s - 4);
  Ok (mg_i s * 5, buffer).

(** ** Rewriting the fake ClientHello *)

(** [remove_ks_group] and [randomize_tls] keep the key-share length in an [int]
    straight from [ANTOHS]: a length of 32768 or more arrives sign-extended. *)
Definition remove_ks_group (buffer : bytes) (n skip group : Z) : comp (Z * bytes) :=
  ks_offs ← find_tls_ext_offset 51 (* 0x0033 *) buffer n skip;
  if (ks_offs =? 0) || (n <=? ks_offs + 6) then Ok (0, buffer) else
  ks_sz ← ANTOHS buffer (ks_offs + 2);
  if n <? ks_offs + 4 + ks_sz then Ok (0, buffer) else
  loop (λ g_offs,
    if g_offs + 4 <? ks_offs + 4 + ks_sz then
      g_sz ← ANTOHS16 buffer (g_offs + 2);
      if n <? ks_offs + 4 + g_sz then Ok (inr (0, buffer)) else
      g_tp ← ANTOHS16 buffer g_offs;
      if g_tp =? group then
        let g_end := g_offs + 4 + g_sz in
        buffer ← memmove buffer g_offs g_end (n - g_end);
        buffer ← SHTONA buffer (ks_offs + 2) (ks_sz - (4 + g_sz));
        buffer ← SHTONA buffer (ks_offs + 4) (ks_sz - (4 + g_sz) - 2);
        Ok (inr (4 + g_sz, buffer))
      else Ok (inl (g_offs + (4 + g_sz)))
    else Ok (inr (0, buffer))) (S (Z.to_nat n)) (ks_offs + 4 + 2).

Definition remove_tls_ext (buffer : bytes) (n skip type : Z) : comp (Z * bytes) :=
  ext_offs ← find_tls_ext_offset type buffer n skip;
  if ext_offs =? 0 then Ok (0, buffer) else
  ext_sz ← ANTOHS16 buffer (ext_offs + 2);
  let ext_end := ext_offs + 4 + ext_sz in
  if n <? ext_end then Ok (0, buffer) else
  buffer ← memmove buffer ext_offs ext_end (n - ext_end);
  Ok (ext_sz + 4, buffer).

Definition resize_ech_ext (buffer : bytes) (n skip inc : Z) : comp (Z * bytes) :=
  ech_offs ← find_tls_ext_offset 65037 (* 0xfe0d *) buffer n skip;
  if ech_offs =? 0 then Ok (0, buffer) else
  ech_sz ← ANTOHS16 buffer (ech_offs + 2);
  let ech_end := ech_offs + 4 + ech_sz in
  if (ech_sz <? 12) || (n <? ech_end) then Ok (0, buffer) else
  enc_sz ← ANTOHS16 buffer (ech_offs + 4 + 6);
  let pay_offs := ech_offs + 4 + 8 + enc_sz in
  let pay_sz := u16 (ech_sz - (8 + enc_sz + 2)) in
  if n <? pay_offs + 2 then Ok (0, buffer) else
  let inc := if pay_sz <? - inc then - pay_sz else inc in
  buffer ← SHTONA buffer (ech_offs + 2) (ech_sz + inc);
  buffer ← SHTONA buffer pay_offs (pay_sz + inc);
  buffer ← memmove buffer (ech_end + inc) ech_end (n - (ech_end + inc));
  Ok (inc, buffer).

Definition resize_sni (buffer : bytes) (n sni_offs sni_sz new_sz : Z) : comp bytes :=
  buffer ← SHTONA buffer (sni_offs + 2) (new_sz + 5);
  buffer ← SHTONA buffer (sni_offs + 4) (new_sz + 3);
  buffer ← SHTONA buffer (sni_offs + 7) new_sz;
  let sni_end := sni_offs + 4 + sni_sz in
  memmove buffer (sni_end + new_sz - (sni_sz - 5)) sni_end (n - sni_end).

Section rand.
(** The [k]-th result of [rand()]. *)
Context (rand : nat → Z).

(** One character of [copy_name] and the number of [rand()] calls it makes. *)
Definition copy_char (c : Z) (k : nat) : Z * nat :=
  if c =? 42 (* '*' *) then
    let r := rand k mod (10 + 122 - 97 + 1) in
    ((if r <? 10 then 48 else 97 - 10) + r, S k)
  else if c =? 63 (* '?' *) then (97 + rand k mod (122 - 97 + 1), S k)
  else if c =? 35 (* '#' *) then (48 + rand k mod 10, S k)
  else (c, k).

Fixpoint copy_name (out : bytes) (o : Z) (name : bytes) (k : nat) : comp (bytes * nat) :=
  match name with
  | [] => Ok (out, k)
  | c :: name => let '(v, k) := copy_char c k in
      out ← wr out o v; copy_name out (o + 1) name k
  end.

Definition change_exts : list Z := [21; 49; 16; 28; 35; 5; 34; 18; 27].

(** [for (e = exts; avail && avail < 4; e++)]: [false] is the [return -1]. *)
Fixpoint trim_exts (exts : list Z) (buffer : bytes) (n skip avail : Z) :
    comp (bool * bytes * Z) :=
  if (avail =? 0) || (4 <=? avail) then Ok (true, buffer, avail) else
  match exts with
  | [] => Ok (false, buffer, avail)
  | e :: exts =>
      '(r, buffer) ← remove_tls_ext buffer n skip e;
      trim_exts exts buffer n skip (avail + r)
  end.

(** The name is the C string [host], without its terminator; [copy_name] reads
    [new_sz] of its characters. *)
Definition change_tls_sni (fuel : nat) (host buffer : bytes) (n nn : Z) (k : nat) :
    comp (Z * bytes * nat) :=
  '(avail, buffer) ← merge_tls_records fuel buffer n;
  let avail := avail + (nn - n) in
  r_sz ← ANTOHS16 buffer 3;
  let r_sz := u16 (r_sz + avail) in
  skip ← find_ext_block buffer n;
  if skip =? 0 then Ok (-1, buffer, k) else
  sni_offs ← find_tls_ext_offset 0 buffer n skip;
  if sni_offs =? 0 then Ok (-1, buffer, k) else
  let new_sz := u16 (blen host) in
  sni_sz ← ANTOHS16 buffer (sni_offs + 2);
  if n <? sni_offs + 4 + sni_sz then Ok (-1, buffer, k) else
  let diff := new_sz - (sni_sz - 5) in
  let avail := avail - diff in
  '(diff, buffer) ← (if (diff <? 0) && (0 <? avail) then
      b ← resize_sni buffer n sni_offs sni_sz new_sz; Ok (0, b) else Ok (diff, buffer));
  '(avail, buffer) ← (if negb (avail =? 0) then
      '(r, b) ← resize_ech_ext buffer n skip avail; Ok (avail - r, b)
      else Ok (avail, buffer));
  '(avail, buffer) ← (if avail <? -50 then
      '(r, b) ← remove_ks_group buffer n skip 4588; Ok (avail + r, b)
      else Ok (avail, buffer));
  '(trimmed, buffer, avail) ← trim_exts change_exts buffer n skip avail;
  if negb trimmed then Ok (-1, buffer, k) else
  sni_offs ← find_tls_ext_offset 0 buffer n skip;
  if sni_offs =? 0 then Ok (-1, buffer, k) else
  buffer ← (if negb (diff =? 0)
            then resize_sni buffer n sni_offs sni_sz new_sz else Ok buffer);
  '(buffer, k) ← copy_name buffer (sni_offs + 9) (take (Z.to_nat new_sz) host) k;
  '(avail, buffer) ← (if 0 <? avail then
      '(r, b) ← resize_ech_ext buffer n skip avail; Ok (avail - r, b)
      else Ok (avail, buffer));
  buffer ← (if 4 <=? avail then
      b ← SHTONA buffer (5 + r_sz - avail) 21;
      b ← SHTONA b (5 + r_sz - avail + 2) (avail - 4);
      memset b (5 + r_sz - avail + 4) 0 (avail - 4) else Ok buffer);
  buffer ← SHTONA buffer 3 r_sz;
  buffer ← SHTONA buffer 7 (r_sz - 4);
  buffer ← SHTONA buffer skip (5 + r_sz - skip - 2);
  Ok (0, buffer, k).

Fixpoint gen_rand_array (out : bytes) (o : Z) (len : nat) (k : nat) : comp (bytes * nat) :=
  match len with
  | O => Ok (out, k)
  | S len => out ← wr out o (rand k mod 256); gen_rand_array out (o + 1) len (S k)
  end.

Definition randomize_tls (buffer : bytes) (n : Z) (k : nat) : comp (bytes * nat) :=
  if n <? 44 then Ok (buffer, k) else
  sid_len ← rd buffer 43;
  if n <? 44 + sid_len + 2 then Ok (buffer, k) else
  '(buffer, k) ← gen_rand_array buffer 11 32 k;
  '(buffer, k) ← gen_rand_array buffer 44 (Z.to_nat sid_len) k;
  skip ← find_ext_block buffer n;
  if skip =? 0 then Ok (buffer, k) else
  ks_offs ← find_tls_ext_offset 51 buffer n skip;
  if (ks_offs =? 0) || (n <=? ks_offs + 6) then Ok (buffer, k) else
  ks_sz ← ANTOHS buffer (ks_offs + 2);
  if n <? ks_offs + 4 + ks_sz then Ok (buffer, k) else
  loop (λ '(buffer, k, g_offs),
    if g_offs + 4 <? ks_offs + 4 + ks_sz then
      g_sz ← ANTOHS16 buffer (g_offs + 2);
      if n <? ks_offs + 4 + g_sz then Ok (inr (buffer, k)) else
      '(buffer, k) ← gen_rand_array buffer (g_offs + 4) (Z.to_nat g_sz) k;
      Ok (inl (buffer, k, g_offs + (4 + g_sz)))
    else Ok (inr (buffer, k))) (S (Z.to_nat n)) (buffer, k, ks_offs + 4 + 2).
End rand.

(** * Memory safety and termination of the parser *)

Lemma wp_find_tls_ext_offset type data size skip P :
  bytes_wf data → 0 <= skip → size <= blen data →
  (∀ r, r = 0 ∨ (skip + 2 <= r ∧ r + 4 < size ∧ be16 data r = type) → P r) →
  wp (find_tls_ext_offset type data size skip) P.
Proof.
  intros Hwf Hs Hsz HP. unfold find_tls_ext_offset. wp_case; [apply HP; auto|].
  wp_step. apply wp_ANTOHS16; [done|lia..|]. pose proof (be16_range data skip Hwf).
  set (size' := if _ <? _ then _ else size).
  assert (size' <= size) by (subst size'; case_match; lia).
  apply (wp_loop _ (λ s, skip + 2 <= s) (λ s, Z.to_nat (size' - s))); [|lia|lia].
  intros s Hle. wp_case; [|apply HP; auto].
  wp_step. apply wp_ANTOHS16; [done|lia..|]. wp_case; [apply HP; lia|].
  wp_step. apply wp_ANTOHS16; [done|lia..|]. pose proof (be16_range data (s + 2) Hwf).
  apply wp_ok. lia.
Qed.

Lemma wp_find_ext_block data size P :
  bytes_wf data → size <= blen data →
  (∀ r, r = 0 ∨ 48 <= r <= size → P r) → wp (find_ext_block data size) P.
Proof.
  intros Hwf Hsz HP. unfold find_ext_block. wp_case; [apply HP; auto|].
  wp_step. apply wp_rd; [lia|]. pose proof (bat_byte data 43 Hwf) as [].
  wp_case; [apply HP; auto|]. wp_step. apply wp_ANTOHS16; [done|lia..|].
  pose proof (be16_range data (44 + bat data 43) Hwf). apply wp_ok, HP. case_match; lia.
Qed.

Lemma antohs_1603 hi lo :
  is_byte hi → is_byte lo →
  (Z.shiftl (u16 (s8 hi)) 8 + u8 lo =? 5635) = (hi =? 22) && (lo =? 3).
Proof.
  unfold is_byte, u16, u8, s8. intros. rewrite Z.shiftl_mul_pow2 by lia.
  rewrite (Z.mod_small lo) by lia.
  change (2 ^ 7) with 128. change (2 ^ 8) with 256. change (2 ^ 16) with 65536.
  destruct (Z.eqb_spec hi 22) as [->|]; destruct (Z.eqb_spec lo 3) as [->|];
    apply eq_true_iff_eq; rewrite Z.eqb_eq; simpl; try done;
    (split; [|done]); intros E; exfalso; revert E;
    Z.to_euclidean_division_equations; lia.
Qed.

(** The classifiers test the record type and version and the handshake type. *)
Definition hello_bytes (t : Z) (buffer : bytes) (bsize : Z) : bool :=
  (5 <? bsize) && (bat buffer 0 =? 22) && (bat buffer 1 =? 3) && (bat buffer 5 =? t).

Lemma is_tls_chello_eq buffer bsize :
  bytes_wf buffer → bsize <= blen buffer →
  is_tls_chello buffer bsize = Ok (hello_bytes 1 buffer bsize).
Proof.
  intros Hwf Hb. unfold is_tls_chello, hello_bytes, ANTOHS.
  rewrite Z.leb_antisym. destruct (Z.ltb_spec 5 bsize); [|done]. simpl negb.
  unfold rd. rewrite !in_range_true by lia. simpl.
  rewrite antohs_1603 by auto with zon. by destruct (_ && _).
Qed.

Lemma is_tls_shello_eq buffer bsize :
  bytes_wf buffer → bsize <= blen buffer →
  is_tls_shello buffer bsize = Ok (hello_bytes 2 buffer bsize).
Proof.
  intros Hwf Hb. unfold is_tls_shello, hello_bytes, ANTOHS.
  rewrite Z.leb_antisym. destruct (Z.ltb_spec 5 bsize); [|done]. simpl negb.
  unfold rd. rewrite !in_range_true by lia. simpl.
  rewrite antohs_1603 by auto with zon. by destruct (_ && _).
Qed.

(** What [parse_tls] promises: a name inside the buffer, or no name. *)
Definition name_in (bsize : Z) (r : Z * option Z) : Prop :=
  match r with
  | (len, Some o) => 59 <= o ∧ 0 <= len ∧ o + len <= bsize
  | (len, None) => len = 0
  end.

Lemma wp_parse_tls buffer bsize P :
  bytes_wf buffer → bsize <= blen buffer →
  (∀ r, name_in bsize r → P r) → wp (parse_tls buffer bsize) P.
Proof.
  intros Hwf Hb HP. unfold parse_tls. rewrite is_tls_chello_eq by done.
  apply wp_bind, wp_ok. wp_case; [by apply HP|].
  wp_step. apply wp_find_ext_block; [done..|]. intros skip Hskip.
  wp_case; [by apply HP|]. wp_step.
  apply wp_find_tls_ext_offset; [done|lia|done|]. intros o Ho.
  wp_case; [by apply HP|]. wp_step. apply wp_ANTOHS16; [done|lia..|].
  pose proof (be16_range buffer (o + 7) Hwf). wp_case; [by apply HP|].
  apply wp_ok, HP. simpl. lia.
Qed.

(** * Functional correctness against an encoder

    The wire format the parser is written for: an extension is a type and its
    data, a ClientHello record wraps random, session id, cipher suites, the one
    null compression method and the extension block (RFC 8446, 4.1.2). *)

Abbreviation ext := (Z * bytes)%type.

Definition enc_ext (e : ext) : bytes := enc16 e.1 ++ enc16 (blen e.2) ++ e.2.
Fixpoint enc_exts (l : list ext) : bytes :=
  match l with [] => [] | e :: l => enc_ext e ++ enc_exts l end.
Definition enc_block (l : list ext) : bytes := enc16 (blen (enc_exts l)) ++ enc_exts l.

Definition ext_wf (e : ext) : Prop :=
  0 <= e.1 < 65536 ∧ bytes_wf e.2 ∧ blen e.2 < 65536.

(** Where the scan finds an extension: the first of its type; an extension with
    no data that ends the block is beyond the loop's test. *)
Fixpoint ext_offset (type : Z) (l : list ext) (o : Z) : Z :=
  match l with
  | [] => 0
  | (t, d) :: rest =>
      if blen (enc_exts l) <=? 4 then 0
      else if type =? t then o else ext_offset type rest (o + (blen d + 4))
  end.

Record client_hello := ClientHello {
  ch_minor : Z; ch_version : Z; ch_random : bytes; ch_sid : bytes;
  ch_ciphers : bytes; ch_exts : list ext }.

Definition enc_hello_head (c : client_hello) : bytes :=
  let body := 2 + 32 + 1 + blen (ch_sid c) + 2 + blen (ch_ciphers c) + 2 +
              blen (enc_block (ch_exts c)) in
  [22; 3; ch_minor c] ++ enc16 (body + 4) ++ [1; 0] ++ enc16 body ++
  [3; ch_version c] ++ ch_random c ++ [blen (ch_sid c)] ++ ch_sid c ++
  enc16 (blen (ch_ciphers c)) ++ ch_ciphers c ++ [1; 0].

Definition enc_hello (c : client_hello) : bytes :=
  enc_hello_head c ++ enc_block (ch_exts c).

Definition hello_wf (c : client_hello) : Prop :=
  is_byte (ch_minor c) ∧ is_byte (ch_version c) ∧
  bytes_wf (ch_random c) ∧ blen (ch_random c) = 32 ∧
  bytes_wf (ch_sid c) ∧ blen (ch_sid c) < 256 ∧
  bytes_wf (ch_ciphers c) ∧ blen (ch_ciphers c) < 65536 ∧
  Forall ext_wf (ch_exts c) ∧ blen (enc_exts (ch_exts c)) < 65536.

(** The data of a server_name extension that carries one host name. *)
Definition sni_data (host : bytes) : bytes :=
  enc16 (blen host + 3) ++ [0] ++ enc16 (blen host) ++ host.

Lemma be16_app_r a b i : 0 <= i → be16 (a ++ b) (blen a + i) = be16 b i.
Proof.
  intros. pose proof (blen_nonneg a). unfold be16. rewrite !bat_app by lia.
  rewrite !(proj2 (Z.ltb_ge _ _)) by lia. repeat f_equal; lia.
Qed.
Lemma be16_at pre v post : 0 <= v < 65536 → be16 (pre ++ enc16 v ++ post) (blen pre) = v.
Proof.
  intros. pose proof (be16_app_r pre (enc16 v ++ post) 0 ltac:(lia)) as E.
  rewrite Z.add_0_r in E. rewrite E. unfold be16. rewrite !bat_app by lia. simpl.
  change (be16 (enc16 v) 0 = v). rewrite be16_enc16. by apply u16_small.
Qed.
Lemma be16_at' pre v post i :
  0 <= v < 65536 → i = blen pre → be16 (pre ++ enc16 v ++ post) i = v.
Proof. intros ? ->. by apply be16_at. Qed.

Lemma enc_ext_wf e : ext_wf e → bytes_wf (enc_ext e).
Proof.
  intros (_ & ? & _). unfold enc_ext.
  wf_split.
Qed.
Lemma enc_exts_wf l : Forall ext_wf l → bytes_wf (enc_exts l).
Proof.
  induction 1; cbn [enc_exts]; [constructor|]. apply wf_app. split; [by apply enc_ext_wf|done].
Qed.
Lemma enc_exts_app l1 l2 : enc_exts (l1 ++ l2) = enc_exts l1 ++ enc_exts l2.
Proof.
  induction l1 as [|e l1 IH]; [done|]. cbn [app enc_exts]. by rewrite IH, app_assoc.
Qed.
Lemma blen_enc_ext e : blen (enc_ext e) = blen e.2 + 4.
Proof. unfold enc_ext. autorewrite with zonrw. lia. Qed.

(** One lap of the scan over an encoded extension. *)
Lemma find_loop_exts type size l : ∀ fuel pre post s data,
  Forall ext_wf l → data = pre ++ enc_exts l ++ post → bytes_wf data →
  s = blen pre → size = blen pre + blen (enc_exts l) → (length l < fuel)%nat →
  loop (λ skip, if skip + 4 <? size then
      epyt ← ANTOHS16 data skip;
      if type =? epyt then Ok (inr skip) else
      len ← ANTOHS16 data (skip + 2);
      Ok (inl (skip + (len + 4))) else Ok (inr 0)) fuel s =
  Ok (ext_offset type l s).
Proof.
  induction l as [|[t d] l IH]; intros fuel pre post s data Hl Hd Hwf Hs Hsz Hf;
    (destruct fuel as [|fuel]; [simpl in Hf; lia|]).
  - simpl. rewrite Hs, Hsz. simpl. rewrite blen_nil, (proj2 (Z.ltb_ge _ _)) by lia. done.
  - apply Forall_cons_1 in Hl as [(Ht & Hdw & Hdl) Hl']. subst data s. simpl fst in *; simpl snd in *.
    cbn [loop ext_offset]. pose proof (blen_nonneg pre). pose proof (blen_nonneg d).
    pose proof (blen_nonneg post).
    assert (He : blen (enc_exts ((t, d) :: l)) = blen d + 4 + blen (enc_exts l)).
    { cbn [enc_exts]. rewrite blen_app, blen_enc_ext. done. }
    pose proof (blen_nonneg (enc_exts l)). rewrite He in *.
    destruct (Z.leb_spec (blen d + 4 + blen (enc_exts l)) 4).
    { rewrite (proj2 (Z.ltb_ge _ _)) by lia. done. }
    rewrite (proj2 (Z.ltb_lt _ _)) by lia.
    set (data := pre ++ _ ++ post) in *.
    assert (Hlen : blen data = blen pre + (blen d + 4 + blen (enc_exts l)) + blen post).
    { subst data. rewrite !blen_app, He. lia. }
    assert (Hty : be16 data (blen pre) = t).
    { subst data. cbn [enc_exts]. unfold enc_ext. simpl. rewrite <- !app_assoc.
      by apply be16_at. }
    assert (Hln : be16 data (blen pre + 2) = blen d).
    { subst data. cbn [enc_exts]. unfold enc_ext. cbn [fst snd]. rewrite <- !app_assoc.
      rewrite (app_assoc pre). apply be16_at'; [lia|]. autorewrite with zonrw. lia. }
    rewrite (ANTOHS16_eq data (blen pre)), bind_ok, Hty by (done || lia). destruct (type =? t); [done|].
    rewrite ANTOHS16_eq, bind_ok, Hln by (done || lia). rewrite bind_ok.
    apply (IH fuel (pre ++ enc_ext (t, d)) post); try done.
    + subst data. cbn [enc_exts]. by rewrite <- !app_assoc.
    + rewrite blen_app, blen_enc_ext. simpl. lia.
    + rewrite blen_app, blen_enc_ext. simpl. lia.
    + simpl in Hf. lia.
Qed.

Lemma enc_exts_length l : Z.of_nat (length l) <= blen (enc_exts l).
Proof.
  induction l as [|e l IH]; [done|]. cbn [enc_exts length].
  rewrite blen_app, blen_enc_ext. pose proof (blen_nonneg e.2). lia.
Qed.

Lemma find_tls_ext_offset_enc type pre l post :
  bytes_wf pre → bytes_wf post → Forall ext_wf l → 0 < blen (enc_exts l) < 65536 →
  let data := pre ++ enc_block l ++ post in
  find_tls_ext_offset type data (blen data) (blen pre) = Ok (ext_offset type l (blen pre + 2)).
Proof.
  intros Hpre Hpost Hl Hlen data. unfold find_tls_ext_offset.
  pose proof (blen_nonneg pre). pose proof (blen_nonneg post).
  assert (Hd : blen data = blen pre + 2 + blen (enc_exts l) + blen post).
  { subst data. unfold enc_block. autorewrite with zonrw. lia. }
  rewrite (proj2 (Z.leb_gt _ _)) by lia.
  assert (Hwf : bytes_wf data).
  { subst data. unfold enc_block. wf_split; auto using enc_exts_wf. }
  assert (Hr : ANTOHS16 data (blen pre) = Ok (blen (enc_exts l))).
  { rewrite ANTOHS16_eq by (done || lia). f_equal. subst data. unfold enc_block.
    rewrite <- app_assoc. apply be16_at. lia. }
  rewrite Hr, bind_ok. cbv zeta.
  apply (find_loop_exts type _ l _ (pre ++ enc16 (blen (enc_exts l))) post); try done.
  - subst data. unfold enc_block. by rewrite <- !app_assoc.
  - autorewrite with zonrw. lia.
  - autorewrite with zonrw. case_match; lia.
  - pose proof (enc_exts_length l). case_match; lia.
Qed.

(** The 43 bytes before the session id length. *)
Lemma enc_hello_split c :
  ∃ h, blen h = blen (ch_random c) + 11 ∧
    bat h 0 = 22 ∧ bat h 1 = 3 ∧ bat h 5 = 1 ∧
    (hello_wf c → bytes_wf h) ∧
    enc_hello c = h ++ [blen (ch_sid c)] ++ ch_sid c ++
      enc16 (blen (ch_ciphers c)) ++ (ch_ciphers c ++ [1; 0]) ++ enc_block (ch_exts c).
Proof.
  unfold enc_hello, enc_hello_head. set (body := _ + blen (enc_block _)).
  exists (([22; 3; ch_minor c] ++ enc16 (body + 4) ++ [1; 0] ++ enc16 body ++
     [3; ch_version c]) ++ ch_random c). split_and!; try done.
  - autorewrite with zonrw. lia.
  - intros (? & ? & ? & _). wf_split;
      repeat constructor; unfold is_byte in *; lia.
  - by rewrite <- !app_assoc.
Qed.

Lemma enc_block_wf l : Forall ext_wf l → bytes_wf (enc_block l).
Proof.
  intros. unfold enc_block. apply wf_app. split; auto using enc_exts_wf with zon.
Qed.

Lemma blen_enc_block l : blen (enc_block l) = 2 + blen (enc_exts l).
Proof. unfold enc_block. autorewrite with zonrw. lia. Qed.
#[export] Hint Rewrite blen_enc_block : zonrw.

(** The fields the parser reads, at their offsets in an encoded hello. *)
Lemma enc_hello_fields c post :
  hello_wf c → bytes_wf post →
  let data := enc_hello c ++ post in
  let skip := 48 + blen (ch_sid c) + blen (ch_ciphers c) in
  bytes_wf data ∧ bat data 0 = 22 ∧ bat data 1 = 3 ∧ bat data 5 = 1 ∧
  bat data 43 = blen (ch_sid c) ∧
  be16 data (44 + blen (ch_sid c)) = blen (ch_ciphers c) ∧
  ∃ pre, data = pre ++ enc_block (ch_exts c) ++ post ∧ blen pre = skip ∧ bytes_wf pre.
Proof.
  intros Hc Hpost data skip. destruct (enc_hello_split c) as (h & Hh & H0 & H1 & H5 & Hhw & E).
  pose proof Hc as (? & ? & ? & Hr & Hs & ? & Hcw & ? & He & ?). specialize (Hhw Hc).
  rewrite Hr in Hh. subst data. rewrite E.
  pose proof (blen_nonneg (ch_sid c)). pose proof (blen_nonneg (ch_ciphers c)).
  assert (Hp : bytes_wf (h ++ [blen (ch_sid c)] ++ ch_sid c ++
      enc16 (blen (ch_ciphers c)) ++ (ch_ciphers c ++ [1; 0]))).
  { wf_split; repeat constructor; unfold is_byte; lia. }
  split_and!.
  - pose proof (enc_block_wf _ He). wf_split.
  - rewrite <- !app_assoc, bat_app, Hh by lia. done.
  - rewrite <- !app_assoc, bat_app, Hh by lia. done.
  - rewrite <- !app_assoc, bat_app, Hh by lia. done.
  - rewrite <- !app_assoc, bat_app, Hh by lia. done.
  - rewrite <- !app_assoc. rewrite (app_assoc h), (app_assoc (h ++ _)).
    apply be16_at'; [lia|]. autorewrite with zonrw. lia.
  - eexists. split; [|split; [|exact Hp]].
    + by rewrite <- !app_assoc.
    + autorewrite with zonrw. lia.
Qed.

Lemma find_ext_block_enc c post :
  hello_wf c → bytes_wf post →
  let data := enc_hello c ++ post in
  find_ext_block data (blen data) = Ok (48 + blen (ch_sid c) + blen (ch_ciphers c)).
Proof.
  intros Hc Hpost data.
  destruct (enc_hello_fields c post Hc Hpost) as (Hwf & _ & _ & _ & H43 & Hcip & pre & E & Hp & _).
  fold data in Hwf, H43, Hcip, E.
  pose proof (blen_nonneg (ch_sid c)). pose proof (blen_nonneg (ch_ciphers c)).
  pose proof (blen_nonneg post). pose proof (blen_nonneg (enc_exts (ch_exts c))).
  assert (Hd : blen data = blen pre + (2 + blen (enc_exts (ch_exts c))) + blen post).
  { rewrite E. autorewrite with zonrw. lia. }
  unfold find_ext_block. rewrite (proj2 (Z.ltb_ge _ _)) by lia.
  rewrite rd_eq, bind_ok, H43 by lia. rewrite (proj2 (Z.ltb_ge _ _)) by lia.
  rewrite ANTOHS16_eq, bind_ok, Hcip by (done || lia).
  rewrite (proj2 (Z.ltb_ge _ _)) by lia. f_equal. lia.
Qed.

Lemma ext_offset_sni l1 d l2 o :
  Forall (λ e : ext, e.1 ≠ 0) l1 → 0 < blen d →
  ext_offset 0 (l1 ++ (0, d) :: l2) o = o + blen (enc_exts l1).
Proof.
  intros H Hd. revert o. induction H as [|[t e] l1 Ht Hl IH]; intros o;
    cbn [ext_offset app enc_exts];
    rewrite !blen_app, blen_enc_ext; cbn [snd fst] in *.
  - pose proof (blen_nonneg (enc_exts l2)).
    rewrite (proj2 (Z.leb_gt _ _)) by lia. rewrite blen_nil. simpl. lia.
  - assert (Hx : blen (enc_exts (l1 ++ (0, d) :: l2)) =
                 blen (enc_exts l1) + blen d + 4 + blen (enc_exts l2)).
    { rewrite enc_exts_app. cbn [enc_exts]. rewrite !blen_app, blen_enc_ext. simpl. lia. }
    pose proof (blen_nonneg (enc_exts l1)). pose proof (blen_nonneg (enc_exts l2)).
    pose proof (blen_nonneg e).
    rewrite (proj2 (Z.leb_gt _ _)) by lia. rewrite (proj2 (Z.eqb_neq _ _)) by lia.
    rewrite IH, ?blen_enc_ext. simpl. lia.
Qed.

(** The parser finds exactly the name of the first server_name extension. *)
Lemma parse_tls_enc c l1 host l2 post :
  hello_wf c → bytes_wf post → ch_exts c = l1 ++ (0, sni_data host) :: l2 →
  Forall (λ e : ext, e.1 ≠ 0) l1 → 3 < blen host + blen (enc_exts l2) + blen post →
  let data := enc_hello c ++ post in
  ∃ o, parse_tls data (blen data) = Ok (blen host, Some o) ∧ sub data o (blen host) = host.
Proof.
  intros Hc Hpost He Hl1 Hlong data.
  destruct (enc_hello_fields c post Hc Hpost)
    as (Hwf & H0 & H1 & H5 & H43 & Hcip & pre & E & Hp & Hprew).
  pose proof (find_ext_block_enc c post Hc Hpost) as Hblk.
  fold data in Hwf, H0, H1, H5, H43, Hcip, E, Hblk.
  pose proof Hc as (_ & _ & _ & _ & _ & _ & _ & _ & Hew & Hel).
  set (skip := 48 + _ + _) in *.
  pose proof (blen_nonneg (ch_sid c)). pose proof (blen_nonneg (ch_ciphers c)).
  pose proof (blen_nonneg post). pose proof (blen_nonneg (enc_exts l1)).
  pose proof (blen_nonneg (enc_exts l2)). pose proof (blen_nonneg host).
  assert (Hsd : blen (sni_data host) = blen host + 5).
  { unfold sni_data. autorewrite with zonrw. lia. }
  assert (Hsplit : enc_exts (ch_exts c) =
                   enc_exts l1 ++ enc_ext (0, sni_data host) ++ enc_exts l2).
  { by rewrite He, enc_exts_app. }
  assert (Hbl : blen (enc_exts (ch_exts c)) = blen (enc_exts l1) + (blen host + 9) + blen (enc_exts l2)).
  { rewrite Hsplit, !blen_app, blen_enc_ext. simpl. lia. }
  assert (Hd : blen data = skip + 2 + blen (enc_exts (ch_exts c)) + blen post).
  { rewrite E. autorewrite with zonrw. lia. }
  set (o := skip + 2 + blen (enc_exts l1)).
  assert (Hnl : data = (pre ++ enc16 (blen (enc_exts (ch_exts c))) ++ enc_exts l1 ++
            enc16 0 ++ enc16 (blen (sni_data host)) ++ enc16 (blen host + 3) ++ [0]) ++
            enc16 (blen host) ++ host ++ (enc_exts l2 ++ post)).
  { rewrite E. unfold enc_block. rewrite Hsplit. unfold enc_ext, sni_data. simpl fst.
    simpl snd. by rewrite <- !app_assoc. }
  exists (o + 9). split.
  - unfold parse_tls. rewrite is_tls_chello_eq, bind_ok by (done || lia).
    unfold hello_bytes. rewrite H0, H1, H5, (proj2 (Z.ltb_lt _ _)) by lia. simpl.
    rewrite Hblk, bind_ok. rewrite (proj2 (Z.eqb_neq _ _)) by lia.
    replace (find_tls_ext_offset 0 data (blen data) skip) with (Ok o).
    2: { rewrite <- Hp, E at 1. rewrite E, find_tls_ext_offset_enc by (done || lia).
         rewrite He, ext_offset_sni by (done || lia). f_equal. lia. }
    rewrite bind_ok, (proj2 (Z.eqb_neq o 0)), (proj2 (Z.leb_gt _ _)) by lia. simpl.
    rewrite ANTOHS16_eq, bind_ok by (done || lia).
    assert (Hlen : be16 data (o + 7) = blen host).
    { rewrite Hnl. apply be16_at'; [lia|]. autorewrite with zonrw. lia. }
    rewrite Hlen, (proj2 (Z.ltb_ge _ _)) by lia. done.
  - rewrite Hnl. rewrite (app_assoc _ (enc16 _)), sub_app_r; [|autorewrite with zonrw; lia|done].
    replace (_ - _) with 0 by (autorewrite with zonrw; lia).
    rewrite sub_app_l by lia. apply sub_all.
Qed.

(** * Record splitting

    A record is its three header bytes and its fragment. *)

Abbreviation tls_record := (bytes * bytes)%type.

Definition enc_record (r : tls_record) : bytes := r.1 ++ enc16 (blen r.2) ++ r.2.
Fixpoint enc_records (l : list tls_record) : bytes :=
  match l with [] => [] | r :: l => enc_record r ++ enc_records l end.
(** What the record layer delivers: the fragments, end to end. *)
Definition payload (l : list tls_record) : bytes := concat (map snd l).

Lemma blen_enc_record r : blen (enc_record r) = blen r.1 + 2 + blen r.2.
Proof. unfold enc_record. autorewrite with zonrw. lia. Qed.
#[export] Hint Rewrite blen_enc_record : zonrw.

Lemma enc_records_app a b : enc_records (a ++ b) = enc_records a ++ enc_records b.
Proof. induction a as [|r a IH]; [done|]. cbn [app enc_records]. by rewrite IH, app_assoc. Qed.

(** Splitting a record at [pos]: two records with the same header, the data
    behind them moved up by five bytes over the slack. *)
Lemma part_tls_split h f1 f2 rest s5 slack bsize :
  let n := 5 + blen (f1 ++ f2) + blen rest in
  bytes_wf (h ++ f1 ++ f2 ++ rest ++ s5 ++ slack) → blen h = 3 → blen s5 = 5 →
  blen (f1 ++ f2) < 65536 → n + 5 <= bsize < 2 ^ 63 → blen f1 + 5 <= n →
  part_tls (enc_record (h, f1 ++ f2) ++ rest ++ s5 ++ slack) bsize n (blen f1) =
  Ok (5, enc_record (h, f1) ++ enc_record (h, f2) ++ rest ++ slack).
Proof.
  intros n Hwf Hh Hs5 Hlen Hb Hn. subst n.
  pose proof (blen_nonneg f1). pose proof (blen_nonneg f2). pose proof (blen_nonneg rest).
  pose proof (blen_nonneg slack).
  rewrite blen_app in *. set (L := blen f1 + blen f2) in *.
  assert (HL : blen (f1 ++ f2) = L) by apply blen_app.
  unfold enc_record. cbn [fst snd]. rewrite HL.
  set (B := (h ++ _ ++ f1 ++ f2) ++ _).
  assert (HB : B = h ++ enc16 L ++ (f1 ++ (f2 ++ rest ++ s5) ++ slack)).
  { subst B. by rewrite <- !app_assoc. }
  assert (HBw : bytes_wf B). { subst B. wf_split. }
  assert (HBl : blen B = 10 + L + blen rest + blen slack).
  { rewrite HB. autorewrite with zonrw. lia. }
  destruct (split_at (f2 ++ rest ++ s5) 5) as (X & Y & EW & HX);
    [autorewrite with zonrw; lia|].
  destruct (split_at X 3) as (X3 & X2 & -> & HX3); [lia|].
  assert (HY : blen Y = blen f2 + blen rest).
  { apply (f_equal blen) in EW. autorewrite with zonrw in *. lia. }
  rewrite blen_app in HX.
  unfold part_tls. rewrite (proj2 (Z.ltb_ge _ 3)), (proj2 (Z.ltb_ge _ 0)) by lia.
  unfold u64. rewrite Z.mod_small by lia.
  rewrite (proj2 (Z.ltb_ge _ 5)), (proj2 (Z.ltb_ge _ (blen f1 + 5))) by lia.
  cbn [orb].
  rewrite ANTOHS16_eq, bind_ok by (done || lia).
  assert (Hr : be16 B 3 = L). { rewrite HB. apply be16_at'; lia. }
  rewrite Hr, (proj2 (Z.ltb_ge _ _)) by lia.
  apply wp_eq. wp_step. apply wp_memmove; [lia..|].
  replace (5 + L + blen rest - (5 + blen f1)) with (blen (f2 ++ rest))
    by (autorewrite with zonrw; lia).
  replace (sub B (5 + blen f1) _) with (f2 ++ rest).
  2: { replace B with ((h ++ enc16 L ++ f1) ++ (f2 ++ rest) ++ s5 ++ slack)
         by (rewrite HB; by rewrite <- !app_assoc).
       symmetry. apply sub_at; [autorewrite with zonrw; lia|done]. }
  rewrite HB, EW.
  replace (h ++ _ ++ f1 ++ _ ++ slack) with
    ((h ++ enc16 L ++ f1 ++ X3 ++ X2) ++ Y ++ slack) by (by rewrite <- !app_assoc).
  rewrite put_at by (autorewrite with zonrw; lia).
  wp_step. apply wp_memcpy; [autorewrite with zonrw; lia..|].
  replace (sub _ 0 3) with h.
  2: { rewrite <- !app_assoc. symmetry. by apply (sub_at [] h). }
  replace ((h ++ _ ++ f1 ++ _) ++ _) with
    ((h ++ enc16 L ++ f1) ++ X3 ++ X2 ++ (f2 ++ rest) ++ slack)
    by (by rewrite <- !app_assoc).
  rewrite put_at by (autorewrite with zonrw; lia).
  wp_step. apply wp_SHTONA; [lia|autorewrite with zonrw; lia|].
  rewrite <- (app_assoc h), <- (app_assoc (enc16 L)).
  rewrite put_at by (autorewrite with zonrw; lia).
  wp_step. apply wp_SHTONA; [lia|autorewrite with zonrw; lia|].
  replace (h ++ enc16 _ ++ _) with
    ((h ++ enc16 (blen f1) ++ f1 ++ h) ++ X2 ++ (f2 ++ rest) ++ slack)
    by (by rewrite <- !app_assoc).
  rewrite put_at by (autorewrite with zonrw; lia).
  apply wp_ok. replace (L - blen f1) with (blen f2) by lia.
  by rewrite <- !app_assoc.
Qed.

(** [part_tls] never leaves its buffer, whatever the offset asked for. *)
Lemma wp_part_tls buffer bsize n pos P :
  bytes_wf buffer → n <= bsize <= blen buffer → bsize < 2 ^ 63 →
  (P (0, buffer) ∧ P (n, buffer) ∧
   ∀ b, blen b = blen buffer → bytes_wf b → 3 <= n → 0 <= pos → pos + 5 <= n →
        n + 5 <= bsize → P (5, b)) →
  wp (part_tls buffer bsize n pos) P.
Proof.
  intros Hwf Hn Hb (P0 & Pn & P5). unfold part_tls.
  wp_case; [done|]. unfold u64 in *. rewrite Z.mod_small in * by lia.
  wp_step. apply wp_ANTOHS16; [done|lia..|]. wp_case; [done|].
  wp_step. apply wp_memmove; [lia..|].
  wp_step. apply wp_memcpy; [autorewrite with zonrw; lia..|].
  wp_step. apply wp_SHTONA; [lia|autorewrite with zonrw; lia|].
  wp_step. apply wp_SHTONA; [lia|autorewrite with zonrw; lia|].
  apply wp_ok, P5; [|by auto 10 with zon|lia..].
  autorewrite with zonrw. lia.
Qed.

(** * Where the code goes wrong

    Inputs a client controls, on which the source as written loops for ever or
    leaves its buffer. *)

(** A one-byte record followed by two empty ones: merging the second record
    leaves the buffer as it was. *)
Definition merge_loop_input : bytes :=
  [22; 3; 1; 0; 1; 1; 22; 3; 1; 0; 0; 22; 3; 1; 0; 0].

Lemma merge_body_stuck i f r :
  u16 (f + r) = 1 →
  merge_body 16 (MergeState merge_loop_input f r i) =
  Ok (inl (MergeState merge_loop_input 1 0 (i + 1))).
Proof. intros E. unfold merge_body. cbn [mg_buffer mg_full mg_rsz mg_i]. by rewrite E. Qed.

(** [merge_tls_records] need not return: on this input no number of iterations
    reaches the end of the loop. *)
Lemma merge_tls_records_diverges fuel :
  merge_tls_records fuel merge_loop_input 16 = Fail OutOfFuel.
Proof.
  unfold merge_tls_records. simpl.
  rewrite (loop_diverges _ (λ s, mg_buffer s = merge_loop_input ∧
    u16 (mg_full s + mg_rsz s) = 1)); [done| |done].
  intros [b f r i] [Hb E]. simpl in Hb, E. subst b.
  eexists. split; [by apply merge_body_stuck|]. done.
Qed.

(** A ClientHello whose second key share claims more bytes than are left. *)
Definition bad_key_share : client_hello := ClientHello 1 3 (repeat 7 32) [] [19; 1]
  [(0, sni_data (repeat 97 8)); (51, [0; 10; 0; 29; 0; 1; 7; 0; 29; 0; 12; 1])].

Lemma bad_key_share_wf : hello_wf bad_key_share.
Proof.
  assert (bytes_wf (repeat 7 32)) by (repeat constructor; done).
  unfold hello_wf, bad_key_share; cbn [ch_minor ch_version ch_random ch_sid ch_ciphers ch_exts].
  split_and!; try done; repeat constructor; try done.
Qed.

(** [randomize_tls] tests [ks_offs + 4 + g_sz] against [n] where the write ends
    at [g_offs + 4 + g_sz]: on this record it writes behind the buffer. *)
Lemma randomize_tls_overruns :
  randomize_tls (λ _, 0) (enc_hello bad_key_share) (blen (enc_hello bad_key_share)) 0 =
  Fail OutOfBounds.
Proof. vm_compute. reflexivity. Qed.

(** [remove_ks_group] has the same test; asked for the second group it moves a
    negative number of bytes. *)
Lemma remove_ks_group_overruns :
  let b := enc_hello (ClientHello 1 3 (repeat 7 32) [] [19; 1]
    [(51, [0; 10; 0; 29; 0; 1; 7; 17; 236; 0; 12; 1])]) in
  remove_ks_group b (blen b) 50 4588 = Fail OutOfBounds.
Proof. vm_compute. reflexivity. Qed.

(** A position beyond the first record: [part_tls] returns [n] with the buffer
    untouched, although the caller then counts five more bytes. *)
Lemma part_tls_short_record :
  part_tls (enc_record ([22; 3; 1], [1]) ++ repeat 0 30) 36 20 4 =
  Ok (20, enc_record ([22; 3; 1], [1]) ++ repeat 0 30).
Proof. vm_compute. reflexivity. Qed.

(** * Properties *)

(** for every buffer and length, [parse_tls] terminates without reading
    outside the [bsize] bytes it is given, and a name it reports lies inside
    them. *)
Theorem parse_tls_in_bounds buffer bsize :
  bytes_wf buffer → bsize <= blen buffer →
  ∃ r, parse_tls buffer bsize = Ok r ∧ name_in bsize r.
Proof. intros. apply wp_inv. by apply wp_parse_tls. Qed.

Lemma parse_tls_in_bounds_witness :
  ∃ r, parse_tls (enc_hello bad_key_share) 60 = Ok r ∧ name_in 60 r.
Proof.
  apply (parse_tls_in_bounds (enc_hello bad_key_share) 60).
  - assert (H : bytes_wf (enc_hello bad_key_share ++ [])).
    { apply enc_hello_fields; [exact bad_key_share_wf|constructor]. }
    exact H.
  - vm_compute. discriminate.
Defined.

(** C10: on the encoding of any well-formed ClientHello whose extensions hold a
    server_name, [parse_tls] returns the length and the position of exactly that
    host name. *)
Theorem parse_tls_finds_sni c l1 host l2 post :
  hello_wf c → bytes_wf post → ch_exts c = l1 ++ (0, sni_data host) :: l2 →
  Forall (λ e : ext, e.1 ≠ 0) l1 → 3 < blen host + blen (enc_exts l2) + blen post →
  ∃ o, parse_tls (enc_hello c ++ post) (blen (enc_hello c ++ post)) =
         Ok (blen host, Some o) ∧
       sub (enc_hello c ++ post) o (blen host) = host.
Proof. intros. by apply parse_tls_enc with l1 l2. Qed.

Lemma parse_tls_finds_sni_witness :
  ∃ o, parse_tls (enc_hello bad_key_share ++ []) (blen (enc_hello bad_key_share ++ [])) =
         Ok (8, Some o) ∧ sub (enc_hello bad_key_share ++ []) o 8 = repeat 97 8.
Proof.
  apply (parse_tls_finds_sni bad_key_share [] (repeat 97 8)
    [(51, [0; 10; 0; 29; 0; 1; 7; 0; 29; 0; 12; 1])] []).
  - exact bad_key_share_wf.
  - constructor.
  - reflexivity.
  - constructor.
  - vm_compute. reflexivity.
Defined.

(** splitting a record with [part_tls] puts two records with the header of
    the first in its place, adds five bytes, and leaves the delivered payload and
    the bytes behind the record as they were. *)
Theorem part_tls_preserves_payload h f pos rest s5 slack bsize :
  bytes_wf (h ++ f ++ rest ++ s5 ++ slack) → blen h = 3 → blen s5 = 5 →
  blen f < 65536 → 0 <= pos <= blen f → pos + 5 <= 5 + blen f + blen rest →
  5 + blen f + blen rest + 5 <= bsize < 2 ^ 63 →
  ∃ r1 r2,
    part_tls (enc_record (h, f) ++ rest ++ s5 ++ slack) bsize
      (5 + blen f + blen rest) pos = Ok (5, enc_records [r1; r2] ++ rest ++ slack) ∧
    r1.1 = h ∧ r2.1 = h ∧ blen r1.2 = pos ∧ payload [r1; r2] = f.
Proof.
  intros Hwf Hh Hs Hf Hp Hn Hb. destruct (split_at f pos Hp) as (f1 & f2 & -> & <-).
  exists (h, f1), (h, f2). rewrite part_tls_split; try done.
  - cbn [enc_records]. rewrite app_nil_r, <- !app_assoc. split_and!; try done.
    unfold payload. simpl. by rewrite app_nil_r.
  - by rewrite <- !app_assoc in Hwf.
Qed.

Lemma part_tls_preserves_payload_witness :
  ∃ r1 r2,
    part_tls (enc_record ([22; 3; 1], [1; 2; 3; 4]) ++ [] ++ repeat 0 5 ++ []) 14 9 3 =
      Ok (5, enc_records [r1; r2] ++ [] ++ []) ∧
    r1.1 = [22; 3; 1] ∧ r2.1 = [22; 3; 1] ∧ blen r1.2 = 3 ∧ payload [r1; r2] = [1; 2; 3; 4].
Proof.
  apply (part_tls_preserves_payload [22; 3; 1] [1; 2; 3; 4] 3 [] (repeat 0 5) [] 14);
    try reflexivity; try (vm_compute; split; congruence);
    try (vm_compute; congruence).
  repeat constructor; discriminate.
Defined.
