(* ===== verification/PacketsHttp.v ===== *)
(** byedpi packets.c, the HTTP half.

    Recognising a request ([is_http]), finding its Host value ([parse_http]), the
    redirect detector ([get_http_code], [is_http_redirect]) and the header
    modifications ([mod_http]).  Host pointers are offsets into the request. *)
From Stdlib Require Import ZArith Lia Ascii String.
From stdpp Require Import base numbers list option.
From S2P Require Import Prelude CMem.

#[local] Open Scope string_scope.
#[local] Open Scope Z_scope.
#[local] Open Scope list_scope.

Definition MH_HMIX : Z := 1.
Definition MH_SPACE : Z := 2.
Definition MH_DMIX : Z := 4.
(** A flag of a bit mask. *)
Definition has (m f : Z) : bool := negb (Z.land m f =? 0).

(** [strncasestr(a, as, b, bs)] with [b] a literal. *)
Definition strncasestr (a : bytes) (as_ : Z) (b : bytes) : comp (option Z) :=
  loop (λ p,
    q ← memchr a p (bat b 0) (as_ - p);
    match q with
    | None => Ok (inr None)
    | Some p =>
        if as_ <? p + blen b then Ok (inr None) else
        e ← str_caseprefix a p b;
        if (e : bool) then Ok (inr (Some p)) else Ok (inl (p + 1))
    end) (S (Z.to_nat as_)) 0.

Definition methods : list bytes :=
  map bs ["HEAD"; "GET"; "POST"; "PUT"; "DELETE"; "OPTIONS"; "CONNECT"; "TRACE"; "PATCH"].

Fixpoint any_prefix (buffer : bytes) (ms : list bytes) : comp bool :=
  match ms with
  | [] => Ok false
  | m :: ms => e ← str_prefix buffer 0 m;
      if (e : bool) then Ok true else any_prefix buffer ms
  end.

Definition is_http (buffer : bytes) (bsize : Z) : comp bool :=
  if bsize <? 16 then Ok false else
  c ← rd buffer 0;
  if (s8 c >? ch "T") || (s8 c <? ch "C") then Ok false else
  any_prefix buffer methods.

(** [for (; p < end && *p == ' '; p++)] *)
Definition skip_blanks (buffer : bytes) (end_ p : Z) : comp Z :=
  loop (λ p, if p <? end_ then
      c ← rd buffer p; if c =? 32 then Ok (inl (p + 1)) else Ok (inr p)
    else Ok (inr p)) (S (Z.to_nat end_)) p.

(** [for (; isspace(p[-1]); p--)] *)
Definition trim_end (buffer : bytes) (p : Z) : comp Z :=
  loop (λ p, c ← rd buffer (p - 1); if isspace c then Ok (inl (p - 1)) else Ok (inr p))
    (S (Z.to_nat p)) p.

(** [while (isdigit( *--p))] *)
Definition back_digits (buffer : bytes) (p : Z) : comp Z :=
  loop (λ p, c ← rd buffer (p - 1); if isdigit c then Ok (inl (p - 1)) else Ok (inr (p - 1)))
    (S (Z.to_nat p)) p.

(** The return value and what is stored through [hs] and, when the caller passes
    it, through [port]. *)
Record http_host := HttpHost { hh_len : Z; hh_hs : option Z; hh_port : option Z }.

(** The tail of [parse_http], from [if ( *host == '[')] on. *)
Definition parse_http_end (buffer : bytes) (host h_end : Z) (port : option Z) :
    comp http_host :=
  c ← rd buffer host;
  if c =? ch "[" then
    c ← rd buffer (h_end - 1);
    if negb (c =? ch "]") then Ok (HttpHost 0 None port) else
    Ok (HttpHost (h_end - 1 - (host + 1)) (Some (host + 1)) port)
  else Ok (HttpHost (h_end - host) (Some host) port).

Definition parse_http (buffer : bytes) (bsize : Z) (want_port : bool) : comp http_host :=
  http ← is_http buffer bsize;
  if negb http then Ok (HttpHost 0 None None) else
  h ← strncasestr buffer bsize (10 :: bs "Host:");
  match h with
  | None => Ok (HttpHost 0 None None)
  | Some host =>
      host ← skip_blanks buffer bsize (host + 6);
      l ← memchr buffer host 10 (bsize - host);
      match l with
      | None => Ok (HttpHost 0 None None)
      | Some l_end =>
          l_end ← trim_end buffer l_end;
          h_end ← back_digits buffer (l_end - 1);
          c ← rd buffer h_end;
          if c =? ch ":" then
            '(i, end_) ← (if want_port then strtol10 buffer (h_end + 1) else Ok (1, l_end));
            if (want_port : bool) && ((i <=? 0) || negb (end_ =? l_end) || (65535 <? i))
            then Ok (HttpHost 0 None None) else
            parse_http_end buffer host h_end (if want_port then Some i else None)
          else parse_http_end buffer host l_end (if want_port then Some 80 else None)
      end
  end.

Definition get_http_code (b : bytes) (n : Z) : comp Z :=
  if n <? 13 then Ok 0 else
  e ← str_prefix b 0 (bs "HTTP/1.");
  if negb e then Ok 0 else
  q ← memchr b 12 10 (n - 12);
  match q with
  | None => Ok 0
  | Some _ =>
      '(num, e) ← strtol10 b 9;
      if (num <? 100) || (511 <? num) then Ok 0 else
      c ← rd b e; Ok (if isspace c then num else 0)
  end.

(** [while (h != host && *(--h - 1) != '.')] *)
Definition back_label (req : bytes) (host h : Z) : comp Z :=
  loop (λ h, if h =? host then Ok (inr h) else
      c ← rd req (h - 1 - 1);
      if c =? ch "." then Ok (inr (h - 1)) else Ok (inl (h - 1)))
    (S (Z.to_nat h)) h.

(** A pointer difference handed to [memchr] as a [size_t] is negative when the
    Location value is blank. *)
Definition is_http_redirect (req : bytes) (qn : Z) (resp : bytes) (sn : Z) : comp bool :=
  hh ← parse_http req qn false;
  let len := hh_len hh in
  if (len <=? 0) || (sn <? 29) then Ok false else
  code ← get_http_code resp sn;
  if (308 <? code) || (code <? 300) then Ok false else
  loc ← strncasestr resp sn (10 :: bs "Location:");
  match loc, hh_hs hh with
  | Some p, Some host =>
      let location := p + 11 in
      if sn <=? location + 8 then Ok false else
      l ← memchr resp location 10 (sn - location);
      match l with
      | None => Ok false
      | Some l_end =>
          l_end ← trim_end resp l_end;
          location ← (if 7 <? l_end - location then
              e ← str_prefix resp location (bs "http://");
              if (e : bool) then Ok (location + 7) else
              e ← str_prefix resp location (bs "https://");
              Ok (if (e : bool) then location + 8 else location)
            else Ok location);
          le ← memchr resp location (ch "/") (l_end - location);
          let le := match le with Some le => le | None => l_end end in
          let he := host + len in
          h ← back_label req host he;
          h ← back_label req host h;
          if le - location <? he - h then Ok true else
          c ← memcmp resp (le - (he - h)) req h (he - h);
          Ok (negb (c =? 0))
      end
  | _, _ => Ok false
  end.

(** [for (par = host - 1; *par != ':'; par--)] *)
Definition back_colon (buffer : bytes) (par : Z) : comp Z :=
  loop (λ par, c ← rd buffer par; if c =? ch ":" then Ok (inr par) else Ok (inl (par - 1)))
    (S (Z.to_nat par)) par.

(** [for (i = 0; i < hlen; i += 2) host[i] = toupper(host[i])] *)
Definition mix_domain (buffer : bytes) (host hlen : Z) : comp bytes :=
  loop (λ '(b, i), if i <? hlen then
      c ← rd b (host + i); b ← wr b (host + i) (toupper c); Ok (inl (b, i + 2))
    else Ok (inr b)) (S (Z.to_nat hlen)) (buffer, 0).

(** [for (; !isspace(host[hlen]); hlen++)] *)
Definition to_space (buffer : bytes) (host hlen : Z) : comp Z :=
  loop (λ hlen, c ← rd buffer (host + hlen);
      if isspace c then Ok (inr hlen) else Ok (inl (hlen + 1)))
    (S (Z.to_nat (blen buffer))) hlen.

Definition mix_header (buffer : bytes) (par : Z) : comp bytes :=
  c ← rd buffer par; b ← wr buffer par (tolower c);
  c ← rd b (par + 1); b ← wr b (par + 1) (toupper c);
  c ← rd b (par + 3); wr b (par + 3) (toupper c).

(** The return value and the modified buffer. *)
Definition mod_http (buffer : bytes) (bsize m : Z) : comp (Z * bytes) :=
  hh ← parse_http buffer bsize false;
  let hlen := hh_len hh in
  match hh_hs hh with
  | None => Ok (-1, buffer)
  | Some host =>
      if hlen =? 0 then Ok (-1, buffer) else
      par ← back_colon buffer (host - 1);
      let par := par - 4 in
      buffer ← (if has m MH_HMIX then mix_header buffer par else Ok buffer);
      buffer ← (if has m MH_DMIX then mix_domain buffer host hlen else Ok buffer);
      buffer ← (if has m MH_SPACE then
          hlen ← to_space buffer host hlen;
          let sc := host - (par + 5) in
          buffer ← memmove buffer (par + 5) host hlen;
          memset buffer (par + 5 + hlen) 9 sc else Ok buffer);
      Ok (0, buffer)
  end.

(** * Memory safety and termination *)

Lemma tolower_nl v : (tolower v =? tolower 10) = true → v = 10.
Proof. unfold tolower. simpl. case_match; lia. Qed.

(** The first position of [m] in the first [n] bytes, up to case. *)
Definition first_match (a : bytes) (n : Z) (m : bytes) (q : Z) : Prop :=
  0 <= q ∧ q + blen m <= n ∧ ci_match a q m = true ∧
  ∀ j, 0 <= j < q → ci_match a j m = false.

Lemma wp_strncasestr a n m P :
  0 <= n <= blen a →
  (∀ r, match r with
        | Some q => first_match a n (10 :: m) q
        | None => ∀ j, 0 <= j → j + blen (10 :: m) <= n → ci_match a j (10 :: m) = false
        end → P r) →
  wp (strncasestr a n (10 :: m)) P.
Proof.
  intros Hn HP. unfold strncasestr. pose proof (blen_nonneg m).
  apply (wp_loop _ (λ p, 0 <= p <= n ∧ ∀ j, 0 <= j < p → ci_match a j (10 :: m) = false)
    (λ p, Z.to_nat (n - p))); [|split; [lia|intros; lia]|lia].
  intros p [Hp Hno]. wp_step. apply wp_memchr; [lia..|].
  assert (Hskip : ∀ j, 0 <= j → bat a j ≠ 10 → ci_match a j (10 :: m) = false).
  { intros j _ Hj. cbn [ci_match]. destruct (_ =? _) eqn:E; [|done].
    by apply tolower_nl in E. }
  intros [q|] Hq.
  - destruct Hq as (Hq & Hc & Hbefore). wp_case.
    { apply wp_ok, HP. intros j ? Hj. destruct (decide (j < p)); [apply Hno; lia|].
      apply Hskip; [lia|]. apply Hbefore. lia. }
    rewrite str_caseprefix_eq, bind_ok by lia.
    assert (Hnoq : ∀ j, 0 <= j < q → ci_match a j (10 :: m) = false).
    { intros j ?. destruct (decide (j < p)); [apply Hno; lia|]. apply Hskip; [lia|].
      apply Hbefore. lia. }
    destruct (ci_match a q (10 :: m)) eqn:E.
    + apply wp_ok, HP. unfold first_match. split_and!; try done; lia.
    + apply wp_ok. split; [split; [rewrite blen_cons in *; lia|]|rewrite blen_cons in *; lia].
      intros j ?. destruct (decide (j = q)) as [->|]; [done|]. apply Hnoq. lia.
  - apply wp_ok, HP. intros j ? Hj. destruct (decide (j < p)); [apply Hno; lia|].
    apply Hskip; [lia|]. apply Hq. rewrite blen_cons in *. lia.
Qed.

Lemma any_prefix_eq buffer ms :
  Forall (λ m, blen m <= blen buffer) ms →
  any_prefix buffer ms = Ok (existsb (cs_match buffer 0) ms).
Proof.
  induction 1 as [|m ms Hm _ IH]; [done|]. cbn [any_prefix existsb].
  rewrite str_prefix_eq, bind_ok by lia. by destruct (cs_match _ _ _).
Qed.

Lemma methods_short : Forall (λ m, blen m <= 16) methods.
Proof. repeat (apply List.Forall_cons; [vm_compute; discriminate|]). constructor. Qed.

(** [is_http] is the test of the first byte and of the nine methods. *)
Lemma is_http_eq buffer bsize :
  bsize <= blen buffer →
  is_http buffer bsize = Ok ((16 <=? bsize) &&
    negb ((s8 (bat buffer 0) >? ch "T") || (s8 (bat buffer 0) <? ch "C")) &&
    existsb (cs_match buffer 0) methods).
Proof.
  intros. unfold is_http. rewrite Z.leb_antisym. destruct (Z.ltb_spec bsize 16); [done|].
  rewrite rd_eq, bind_ok by lia. destruct (_ || _); [done|]. cbn [negb andb].
  apply any_prefix_eq. eapply List.Forall_impl; [|exact methods_short].
  intros m Hm. cbv beta in *. lia.
Qed.

Lemma wp_skip_blanks buffer end_ p P :
  0 <= p <= end_ → end_ <= blen buffer →
  (∀ q, p <= q <= end_ → (∀ j, p <= j < q → bat buffer j = 32) →
        (q < end_ → bat buffer q ≠ 32) → P q) →
  wp (skip_blanks buffer end_ p) P.
Proof.
  intros Hp He HP. unfold skip_blanks.
  apply (wp_loop _ (λ q, p <= q <= end_ ∧ ∀ j, p <= j < q → bat buffer j = 32)
    (λ q, Z.to_nat (end_ - q))); [|split; [lia|intros; lia]|lia].
  intros q [Hq Hj]. wp_case; [|apply wp_ok, HP; [lia|done|lia]].
  rewrite rd_eq, bind_ok by lia. wp_case; apply wp_ok.
  - split; [split; [lia|]|lia]. intros j ?. destruct (decide (j = q)) as [->|]; [lia|].
    apply Hj. lia.
  - apply HP; [lia|done|lia].
Qed.

(** Backwards scans end at any byte known to stop them. *)
Lemma wp_trim_end buffer stop p P :
  0 <= stop → stop + 1 <= p <= blen buffer → isspace (bat buffer stop) = false →
  (∀ q, stop + 1 <= q <= p → isspace (bat buffer (q - 1)) = false →
        (∀ j, q <= j < p → isspace (bat buffer j) = true) → P q) →
  wp (trim_end buffer p) P.
Proof.
  intros Hs Hp Hst HP. unfold trim_end.
  apply (wp_loop _ (λ q, stop + 1 <= q <= p ∧ ∀ j, q <= j < p → isspace (bat buffer j) = true)
    (λ q, Z.to_nat q)); [|split; [lia|intros; lia]|lia].
  intros q [Hq Hj]. rewrite rd_eq, bind_ok by lia.
  destruct (isspace (bat buffer (q - 1))) eqn:E; apply wp_ok.
  - split; [split|lia].
    + destruct (decide (q = stop + 1)) as [->|]; [|lia].
      replace (stop + 1 - 1) with stop in E by lia. congruence.
    + intros j ?. destruct (decide (j = q - 1)) as [->|]; [done|]. apply Hj. lia.
  - by apply HP.
Qed.

Lemma wp_back_digits buffer stop p P :
  0 <= stop → stop < p <= blen buffer → isdigit (bat buffer stop) = false →
  (∀ q, stop <= q < p → isdigit (bat buffer q) = false →
        (∀ j, q < j < p → isdigit (bat buffer j) = true) → P q) →
  wp (back_digits buffer p) P.
Proof.
  intros Hs Hp Hst HP. unfold back_digits.
  apply (wp_loop _ (λ q, stop < q <= p ∧ ∀ j, q <= j < p → isdigit (bat buffer j) = true)
    (λ q, Z.to_nat q)); [|split; [lia|intros; lia]|lia].
  intros q [Hq Hj]. rewrite rd_eq, bind_ok by lia.
  destruct (isdigit (bat buffer (q - 1))) eqn:E; apply wp_ok.
  - split; [split|lia].
    + destruct (decide (q = stop + 1)) as [->|]; [|lia].
      replace (stop + 1 - 1) with stop in E by lia. congruence.
    + intros j ?. destruct (decide (j = q - 1)) as [->|]; [done|]. apply Hj. lia.
  - apply HP; [lia|done|]. intros j ?. apply Hj. lia.
Qed.

(** [strtol] stops inside the buffer when a byte that ends a number follows. *)
Lemma wp_strtol_digits l acc n P :
  (∃ i, 0 <= i < blen l ∧ isdigit (bat l i) = false) →
  (∀ v k, P (v, k)) → wp (strtol_digits l acc n) P.
Proof.
  intros (i & Hi & Hd) HP. revert acc n i Hi Hd.
  induction l as [|c l IH]; intros acc n i; cbn [strtol_digits]; [rewrite blen_nil; lia|].
  rewrite blen_cons. intros Hi Hd. destruct (isdigit c) eqn:Hc; [|apply wp_ok, HP].
  apply IH with (i - 1); destruct (Z.eqb_spec i 0) as [->|];
    rewrite bat_cons in Hd by lia; simpl in Hd; try congruence; try lia.
  rewrite (proj2 (Z.eqb_neq _ _)) in Hd by lia. done.
Qed.

Lemma wp_strtol10 b p stop P :
  0 <= p → p < stop < blen b → isspace (bat b p) = false → isdigit (bat b stop) = false →
  (∀ v e, P (v, e)) → wp (strtol10 b p) P.
Proof.
  intros Hp Hs Hsp Hd HP. unfold strtol10. rewrite (proj2 (Z.ltb_ge _ _)) by lia.
  assert (Hl : drop (Z.to_nat p) b = bat b p :: drop (Z.to_nat (p + 1)) b).
  { rewrite (drop_S b (bat b p)); [by replace (S (Z.to_nat p)) with (Z.to_nat (p + 1)) by lia|].
    apply bat_bs_lookup. lia. }
  assert (Hb : ∀ k, 0 <= k → ∀ i, 0 <= i → bat (drop (Z.to_nat k) b) i = bat b (k + i)).
  { intros k ? i ?. unfold bat. rewrite !nth_lookup, lookup_drop. do 2 f_equal. lia. }
  assert (Hn : ∀ k, 0 <= k <= blen b → blen (drop (Z.to_nat k) b) = blen b - k).
  { intros k ?. unfold blen in *. rewrite length_drop. lia. }
  rewrite Hl. cbn [strtol_spaces]. rewrite Hsp, bind_ok.
  assert (Hrest : ∃ i, 0 <= i < blen (drop (Z.to_nat (p + 1)) b) ∧
      isdigit (bat (drop (Z.to_nat (p + 1)) b) i) = false).
  { exists (stop - (p + 1)). rewrite Hn, Hb by lia.
    replace (p + 1 + (stop - (p + 1))) with stop by lia. split; [lia|done]. }
  assert (Hall : ∃ i, 0 <= i < blen (bat b p :: drop (Z.to_nat (p + 1)) b) ∧
      isdigit (bat (bat b p :: drop (Z.to_nat (p + 1)) b) i) = false).
  { rewrite <- Hl. exists (stop - p). rewrite Hn, Hb by lia.
    replace (p + (stop - p)) with stop by lia. split; [lia|done]. }
  generalize dependent (drop (Z.to_nat (p + 1)) b). intros rest _ Hrest Hall.
  assert (Hfin : ∀ neg l sg, l = rest ∨ l = bat b p :: rest →
    wp ('(v, n) ← strtol_digits l 0 0; if n =? 0 then Ok (0, p) else
      Ok (if (neg : bool) then Z.max (- v) long_min else Z.min v long_max, p + 0 + sg + n)) P).
  { intros neg l sg Hl. wp_step. apply wp_strtol_digits.
    - destruct Hl as [->| ->]; done.
    - intros v k. case_match; apply wp_ok, HP. }
  cbn [strtol_sign]. destruct (_ =? 45); [apply (Hfin true _ 1); auto|].
  destruct (_ =? 43); [apply (Hfin false _ 1)|apply (Hfin false _ 0)]; auto.
Qed.

Lemma ci_match_at b m : ∀ p i,
  0 <= p → ci_match b p m = true → 0 <= i < blen m →
  tolower (bat b (p + i)) = tolower (bat m i).
Proof.
  induction m as [|c m IH]; intros p i Hp Hm Hi; [rewrite blen_nil in Hi; lia|].
  cbn [ci_match] in Hm. rewrite blen_cons in Hi. apply andb_true_iff in Hm as [Hc Hm].
  destruct (Z.eqb_spec i 0) as [->|]; rewrite bat_cons by lia.
  - simpl. rewrite Z.add_0_r. lia.
  - rewrite (proj2 (Z.eqb_neq _ _)) by lia. rewrite <- (IH (p + 1)) by (done || lia).
    do 2 f_equal. lia.
Qed.

Definition host_hdr : bytes := bs "Host:".

(** What the header search leaves known: the colon, and the letter before it. *)
Lemma host_match_bytes b n q :
  first_match b n (10 :: host_hdr) q →
  0 <= q ∧ q + 6 <= n ∧ bat b (q + 5) = 58 ∧ isdigit (bat b (q + 4)) = false ∧
  bat b (q + 4) ≠ 58.
Proof.
  intros (Hq & Hn & Hm & _). change (blen (10 :: host_hdr)) with 6 in *.
  pose proof (ci_match_at b _ q 5 Hq Hm ltac:(split; [lia|vm_compute; done])) as H5.
  pose proof (ci_match_at b _ q 4 Hq Hm ltac:(split; [lia|vm_compute; done])) as H4.
  change (tolower (bat (10 :: host_hdr) 5)) with 58 in H5.
  change (tolower (bat (10 :: host_hdr) 4)) with 116 in H4.
  unfold tolower, isdigit in *. split_and!; try lia; repeat case_match; lia.
Qed.

(** What [parse_http] promises.  With [q] the line feed before the header name,
    the value starts behind the colon at [q + 5], but the end that is computed may
    lie before its start: only [q + 5] bounds it from below. *)
Definition host_in (buffer : bytes) (bsize : Z) (r : http_host) : Prop :=
  match hh_hs r with
  | None => hh_len r = 0
  | Some o => ∃ q e, first_match buffer bsize (10 :: host_hdr) q ∧
      q + 6 <= o ∧ q + 5 <= o + hh_len r ∧ o + hh_len r <= e ∧
      o <= e + 1 ∧ e < bsize ∧ bat buffer e = 10 ∧
      ∀ j, q + 6 <= j < o → bat buffer j ≠ 58
  end.

Lemma wp_parse_http_end buffer bsize host h_end port q e P :
  bsize <= blen buffer → first_match buffer bsize (10 :: host_hdr) q →
  q + 6 <= host → host <= e → e < bsize → bat buffer e = 10 →
  q + 5 <= h_end → h_end <= e →
  (∀ j, q + 6 <= j < host → bat buffer j = 32) →
  (∀ r, host_in buffer bsize r → hh_port r = port → P r) →
  wp (parse_http_end buffer host h_end port) P.
Proof.
  intros Hb Hm Hh He Heb Hnl Hq Hle Hbl HP.
  pose proof (host_match_bytes _ _ _ Hm) as (? & ? & H58 & _ & H4).
  unfold parse_http_end. rewrite (rd_eq buffer host), bind_ok by lia.
  destruct (bat buffer host =? ch "[") eqn:Hbr.
  - rewrite rd_eq, bind_ok by lia.
    destruct (negb _) eqn:Hcl; apply wp_ok, HP; try done.
    cbn [host_in hh_hs hh_len]. exists q, e. split_and!; try done; try lia;
      [|intros j Hj; destruct (decide (j = host)) as [->|];
        [apply Z.eqb_eq in Hbr; by rewrite Hbr|rewrite Hbl by lia; done]].
    assert (h_end - 1 ≠ q + 4).
    { intros E. rewrite E in *.
      pose proof (ci_match_at buffer _ q 4 ltac:(lia) (proj1 (proj2 (proj2 Hm)))
        ltac:(split; [lia|vm_compute; done])) as Ht.
      change (tolower (bat (10 :: host_hdr) 4)) with 116 in Ht.
      change (ch "]") with 93 in *. destruct (Z.eqb_spec (bat buffer (q + 4)) 93) as [Ex|]; [|done].
      rewrite Ex in Ht. done. }
    lia.
  - apply wp_ok, HP; [|done]. exists q, e. cbn [hh_hs hh_len]. split_and!; try done; try lia.
    intros j Hj. rewrite Hbl by lia. done.
Qed.

Lemma wp_parse_http buffer bsize want P :
  bsize <= blen buffer → (∀ r, host_in buffer bsize r → P r) →
  wp (parse_http buffer bsize want) P.
Proof.
  intros Hb HP. unfold parse_http. rewrite is_http_eq, bind_ok by done.
  destruct (negb (_ && _)) eqn:Hhttp; [by apply HP|].
  assert (16 <= bsize) by lia. clear Hhttp.
  wp_step. apply wp_strncasestr; [lia|]. intros [q|] Hq; [|by apply HP].
  change (bs "Host:") with host_hdr in Hq.
  pose proof (host_match_bytes _ _ _ Hq) as (? & ? & H58 & H4 & H4').
  wp_step. apply wp_skip_blanks; [lia..|]. intros host Hhost Hbl _.
  wp_step. apply wp_memchr; [lia..|]. intros [l|] Hl; [|by apply HP].
  destruct Hl as (Hlr & Hnl & _).
  wp_step. apply (wp_trim_end _ (q + 5)); [lia..|by rewrite H58|].
  intros l_end Hle Hns Hsp.
  assert (Hnl' : isdigit (bat buffer l_end) = false).
  { destruct (decide (l_end = l)) as [->|]; [by rewrite Hnl|].
    specialize (Hsp l_end ltac:(lia)). unfold isspace, isdigit in *. lia. }
  wp_step. apply (wp_back_digits _ (q + 4)); [lia..|done|].
  intros h_end Hhe Hnd Hdig. rewrite rd_eq, bind_ok by lia.
  destruct (Z.eqb_spec (bat buffer h_end) (ch ":")) as [Hc|].
  - assert (h_end ≠ q + 4) by (intros ->; done).
    assert (Hhs : isspace (bat buffer (h_end + 1)) = false).
    { destruct (decide (h_end + 1 = l_end - 1)) as [->|]; [done|].
      specialize (Hdig (h_end + 1) ltac:(lia)). unfold isspace, isdigit in *. lia. }
    destruct want.
    + wp_step. apply (wp_strtol10 _ _ l_end); [lia..|done|done|].
      intros v e. cbv beta iota. destruct (true && _); [by apply HP|].
      apply (wp_parse_http_end _ bsize _ _ _ q l); try done; try lia. intros. by apply HP.
    + rewrite bind_ok. cbn [andb].
      apply (wp_parse_http_end _ bsize _ _ _ q l); try done; try lia. intros. by apply HP.
  - apply (wp_parse_http_end _ bsize _ _ _ q l); try done; try lia. intros. by apply HP.
Qed.

(** * Requests as a client writes them *)

(** The number a digit string denotes. *)
Definition dec (ds : bytes) : Z := fold_left (λ acc c, acc * 10 + (c - 48)) ds 0.

Record http_req := HttpReq {
  hr_pre : bytes;         (* up to the line feed before the Host header *)
  hr_name : bytes;        (* that line feed and ["Host:"], in any case *)
  hr_blanks : nat;        (* blanks before the value *)
  hr_v6 : bool;           (* a bracketed IPv6 literal *)
  hr_host : bytes;
  hr_port : option bytes;
  hr_trail : bytes;       (* white space before the line feed, as the [\r] *)
  hr_rest : bytes
}.

Definition hr_value (r : http_req) : bytes :=
  if hr_v6 r then [91] ++ hr_host r ++ [93] else hr_host r.
Definition hr_text (r : http_req) : bytes :=
  hr_value r ++ match hr_port r with Some ds => 58 :: ds | None => [] end.
Definition enc_req (r : http_req) : bytes :=
  hr_pre r ++ hr_name r ++ repeat 32 (hr_blanks r) ++ hr_text r ++ hr_trail r ++ 10 :: hr_rest r.

Definition digits (ds : bytes) : Prop := Forall (λ c, isdigit c = true) ds.

(** What the parser needs: without a port, the digits before the last byte of the
    value follow a byte that is not a colon. *)
Record req_wf (r : http_req) : Prop := {
  rw_http : is_http (enc_req r) (blen (enc_req r)) = Ok true;
  rw_name : map tolower (hr_name r) = map tolower (10 :: host_hdr);
  rw_first : ∀ j, 0 <= j < blen (hr_pre r) → ci_match (enc_req r) j (10 :: host_hdr) = false;
  rw_host : 0 < blen (hr_host r);
  rw_head : bat (hr_value r) 0 ≠ 32 ∧ (bat (hr_value r) 0 = 91 ↔ hr_v6 r = true);
  rw_nl : Forall (λ c, c ≠ 10) (hr_text r);
  rw_last : isspace (bat (hr_text r) (blen (hr_text r) - 1)) = false;
  rw_trail : Forall (λ c, isspace c = true ∧ c ≠ 10) (hr_trail r);
  rw_port : match hr_port r with
            | Some ds => digits ds ∧ 0 < dec ds <= 65535 ∧ 0 < blen ds
            | None => ∃ a c ds z, repeat 32 (hr_blanks r) ++ hr_text r = a ++ [c] ++ ds ++ [z] ∧
                isdigit c = false ∧ c ≠ 58 ∧ digits ds
            end
}.

Lemma bat_Forall P b i : Forall P b → 0 <= i < blen b → P (bat b i).
Proof.
  intros HF Hi. apply (Forall_lookup_1 _ _ (Z.to_nat i) _ HF). by apply bat_bs_lookup.
Qed.

Lemma bat_mid a b c i :
  0 <= i < blen b → bat (a ++ b ++ c) (blen a + i) = bat b i.
Proof.
  intros. pose proof (blen_nonneg a). rewrite bat_app by lia.
  rewrite (proj2 (Z.ltb_ge _ _)) by lia. rewrite bat_app by lia.
  rewrite (proj2 (Z.ltb_lt _ _)) by lia. f_equal. lia.
Qed.

Lemma ci_match_app m : ∀ a nm c,
  map tolower nm = map tolower m → ci_match (a ++ nm ++ c) (blen a) m = true.
Proof.
  induction m as [|x m IH]; intros a nm c E; [done|].
  destruct nm as [|y nm]; [done|]. simpl in E. injection E as Ex E. cbn [ci_match].
  pose proof (bat_mid a (y :: nm) c 0 ltac:(blia)) as Hb. rewrite Z.add_0_r in Hb.
  rewrite Hb. change (bat (y :: nm) 0) with y. rewrite Ex, Z.eqb_refl. simpl.
  specialize (IH (a ++ [y]) nm c E). rewrite <- app_assoc in IH.
  rewrite blen_app in IH. exact IH.
Qed.

Lemma strtol_digits_exact ds x r acc n :
  digits ds → isdigit x = false →
  strtol_digits (ds ++ x :: r) acc n =
    Ok (fold_left (λ a c, a * 10 + (c - 48)) ds acc, n + blen ds).
Proof.
  intros Hd Hx. revert acc n. induction Hd as [|c ds Hc _ IH]; intros acc n; cbn [app strtol_digits].
  - rewrite Hx, blen_nil, Z.add_0_r. done.
  - rewrite Hc, IH. cbn [fold_left]. rewrite blen_cons. do 2 f_equal. lia.
Qed.

Lemma strtol10_exact a ds x r :
  digits ds → 0 < blen ds → isdigit x = false →
  strtol10 (a ++ ds ++ x :: r) (blen a) = Ok (Z.min (dec ds) long_max, blen a + blen ds).
Proof.
  intros Hd Hl Hx. unfold strtol10. rewrite (proj2 (Z.ltb_ge _ _)) by blia.
  replace (drop (Z.to_nat (blen a)) (a ++ ds ++ x :: r)) with (ds ++ x :: r)
    by (unfold blen; by rewrite Nat2Z.id, drop_app_length).
  assert (Hs : ∃ c ds', ds = c :: ds' ∧ isdigit c = true).
  { destruct Hd; [by rewrite blen_nil in Hl|]. eauto. }
  destruct Hs as (c & ds' & -> & Hc). cbn [app strtol_spaces].
  assert (isspace c = false) as -> by (unfold isspace, isdigit in *; lia).
  rewrite bind_ok. cbn [strtol_sign].
  assert ((c =? 45) = false) as -> by (unfold isdigit in *; lia).
  assert ((c =? 43) = false) as -> by (unfold isdigit in *; lia).
  change (c :: ds' ++ x :: r) with ((c :: ds') ++ x :: r).
  rewrite strtol_digits_exact, bind_ok by done.
  rewrite (proj2 (Z.eqb_neq _ _)) by lia. do 2 f_equal. lia.
Qed.

(** Where the parts of the request are. *)
Definition hr_start (r : http_req) : Z := blen (hr_pre r) + 6 + Z.of_nat (hr_blanks r).
Definition hr_stop (r : http_req) : Z := hr_start r + blen (hr_text r).
Definition hr_nl (r : http_req) : Z := hr_stop r + blen (hr_trail r).

Section request.
Context (r : http_req) (Hr : req_wf r).
Local Abbreviation b := (enc_req r).

Lemma req_name_len : blen (hr_name r) = 6.
Proof.
  pose proof (f_equal (@length Z) (rw_name r Hr)) as E. rewrite !length_map in E.
  unfold blen. rewrite E. done.
Qed.

Lemma req_len : blen b = hr_nl r + 1 + blen (hr_rest r).
Proof.
  unfold enc_req, hr_nl, hr_stop, hr_start. pose proof req_name_len. blia.
Qed.

Lemma req_first n : n = blen b → first_match b n (10 :: host_hdr) (blen (hr_pre r)).
Proof.
  intros ->. split_and!; [blia|..|exact (rw_first r Hr)].
  - rewrite req_len. unfold hr_nl, hr_stop, hr_start. change (blen (10 :: host_hdr)) with 6.
    blia.
  - apply ci_match_app, (rw_name r Hr).
Qed.

Lemma req_blank j :
  blen (hr_pre r) + 6 <= j < hr_start r → bat b j = 32.
Proof.
  unfold hr_start. intros Hj. pose proof req_name_len. unfold enc_req.
  rewrite (app_assoc (hr_pre r)).
  replace j with (blen (hr_pre r ++ hr_name r) + (j - blen (hr_pre r) - 6)) by blia.
  rewrite bat_mid by blia. apply bat_repeat. lia.
Qed.

Lemma req_text i : 0 <= i < blen (hr_text r) → bat b (hr_start r + i) = bat (hr_text r) i.
Proof.
  unfold hr_start. intros Hi. pose proof req_name_len. unfold enc_req.
  rewrite (app_assoc (hr_pre r)), (app_assoc (hr_pre r ++ hr_name r)).
  rewrite <- (bat_mid ((hr_pre r ++ hr_name r) ++ repeat 32 (hr_blanks r)) (hr_text r)
    (hr_trail r ++ 10 :: hr_rest r)) by lia. f_equal. blia.
Qed.

Lemma req_tail j : hr_stop r <= j → bat b j = bat (hr_trail r ++ 10 :: hr_rest r) (j - hr_stop r).
Proof.
  unfold hr_stop, hr_start. intros Hj. pose proof req_name_len. unfold enc_req.
  rewrite !app_assoc. rewrite <- (app_assoc _ (hr_trail r)). rewrite bat_app by blia.
  rewrite (proj2 (Z.ltb_ge _ _)) by blia. f_equal. blia.
Qed.

Lemma req_trail j : hr_stop r <= j < hr_nl r → isspace (bat b j) = true ∧ bat b j ≠ 10.
Proof.
  unfold hr_nl. intros Hj. rewrite req_tail, bat_app by lia.
  rewrite (proj2 (Z.ltb_lt _ _)) by lia.
  apply (bat_Forall _ _ _ (rw_trail r Hr)). lia.
Qed.

Lemma req_nl : bat b (hr_nl r) = 10.
Proof.
  unfold hr_nl. rewrite req_tail by blia. rewrite bat_app by blia.
  rewrite (proj2 (Z.ltb_ge _ _)) by blia.
  replace (_ - _ - _) with 0 by blia. done.
Qed.

Lemma req_bounds : 0 <= hr_start r /\ hr_start r < hr_stop r /\ hr_stop r <= hr_nl r /\
  hr_nl r < blen b.
Proof.
  rewrite req_len. unfold hr_nl, hr_stop, hr_start, hr_text, hr_value.
  pose proof (rw_host r Hr). destruct (hr_v6 r), (hr_port r); blia.
Qed.

(** The scan for the end of the value finds it. *)
Lemma req_host_end P :
  (match hr_port r with
   | Some ds => bat b (hr_stop r - blen ds - 1) = 58 → P (hr_stop r - blen ds - 1)
   | None => ∀ h, 0 <= h → h < hr_stop r - 1 → bat b h ≠ 58 → P h
   end) → wp (back_digits b (hr_stop r - 1)) P.
Proof.
  pose proof req_bounds as (B1 & B2 & B3 & B4). pose proof (rw_port r Hr) as Hp.
  intros HP. destruct (hr_port r) as [ds|] eqn:Ep.
  - destruct Hp as (Hd & _ & Hl).
    assert (Et : hr_text r = hr_value r ++ 58 :: ds) by (unfold hr_text; by rewrite Ep).
    assert (Ht : ∀ k, 0 <= k <= blen ds →
      bat b (hr_stop r - blen ds - 1 + k) = bat (58 :: ds) k).
    { intros k Hk. replace (hr_stop r - blen ds - 1 + k)
        with (hr_start r + (blen (hr_value r) + k)) by (unfold hr_stop; rewrite Et; blia).
      rewrite req_text by (rewrite Et; blia). rewrite Et, bat_app by blia. rewrite (proj2 (Z.ltb_ge _ _)) by blia. f_equal. lia. }
    assert (B5 : hr_start r <= hr_stop r - blen ds - 1).
    { unfold hr_stop. rewrite Et. blia. }
    pose proof (Ht 0 ltac:(lia)) as H0. rewrite Z.add_0_r in H0.
    apply (wp_back_digits _ (hr_stop r - blen ds - 1)); [lia..|by rewrite H0|].
    intros q Hq Hnd _. destruct (decide (q = hr_stop r - blen ds - 1)) as [->|].
    { apply HP, H0. }
    exfalso. specialize (Ht (q - (hr_stop r - blen ds - 1)) ltac:(lia)).
    replace (_ + _) with q in Ht by lia. rewrite bat_cons in Ht by lia.
    rewrite (proj2 (Z.eqb_neq _ _)) in Ht by lia.
    pose proof (bat_Forall _ _ (q - (hr_stop r - blen ds - 1) - 1) Hd ltac:(lia)) as Hdg.
    cbv beta in Hdg. congruence.
  - destruct Hp as (a & c & ds & z & E & Hc & Hc58 & Hd).
    pose proof (f_equal blen E) as El. rewrite !blen_app, blen_repeat, !blen_cons, !blen_nil in El.
    assert (Ht : ∀ k, 0 <= k <= blen ds →
      bat b (hr_stop r - 2 - blen ds + k) = bat (c :: ds) k).
    { intros k Hk. transitivity (bat (repeat 32 (hr_blanks r) ++ hr_text r) (blen a + k)).
      - rewrite bat_app by blia. rewrite blen_repeat.
        destruct (Z.ltb_spec (blen a + k) (Z.of_nat (hr_blanks r))).
        + rewrite bat_repeat by blia. apply req_blank; unfold hr_stop, hr_start in *; blia.
        + rewrite <- req_text by blia. f_equal. unfold hr_stop, hr_start in *. lia.
      - rewrite E. change ([c] ++ ds ++ [z]) with ((c :: ds) ++ [z]).
        rewrite bat_mid by blia. done. }
    assert (B5 : 0 <= hr_stop r - 2 - blen ds) by (unfold hr_stop, hr_start in *; blia).
    pose proof (Ht 0 ltac:(blia)) as H0. rewrite Z.add_0_r in H0. change (bat (c :: ds) 0) with c in H0.
    apply (wp_back_digits _ (hr_stop r - 2 - blen ds)); [blia..|by rewrite H0|].
    intros q Hq Hnd _. destruct (decide (q = hr_stop r - 2 - blen ds)) as [->|].
    { apply HP; [lia|blia|by rewrite H0]. }
    exfalso. specialize (Ht (q - (hr_stop r - 2 - blen ds)) ltac:(lia)).
    replace (_ + _) with q in Ht by lia. rewrite bat_cons in Ht by lia.
    rewrite (proj2 (Z.eqb_neq _ _)) in Ht by lia.
    pose proof (bat_Forall _ _ (q - (hr_stop r - 2 - blen ds) - 1) Hd ltac:(lia)) as Hdg.
    cbv beta in Hdg. congruence.
Qed.
Definition hr_result (port : option Z) : http_host :=
  HttpHost (blen (hr_host r)) (Some (hr_start r + if hr_v6 r then 1 else 0)) port.

Lemma req_value i : 0 <= i < blen (hr_value r) → bat b (hr_start r + i) = bat (hr_value r) i.
Proof.
  intros Hi. unfold hr_text in *. rewrite req_text by (unfold hr_text; blia).
  unfold hr_text. rewrite bat_app by lia. by rewrite (proj2 (Z.ltb_lt _ _)) by lia.
Qed.

Lemma req_parse_end port :
  parse_http_end b (hr_start r) (hr_start r + blen (hr_value r)) port = Ok (hr_result port).
Proof.
  pose proof req_bounds as (B1 & B2 & B3 & B4). pose proof (rw_host r Hr) as Hh.
  destruct (rw_head r Hr) as [_ Hv].
  assert (Hs : hr_start r + blen (hr_value r) <= hr_stop r).
  { unfold hr_stop, hr_text. blia. }
  assert (Hl : 0 < blen (hr_value r)) by (unfold hr_value; destruct (hr_v6 r); blia).
  pose proof (req_value 0 ltac:(lia)) as H0. rewrite Z.add_0_r in H0.
  unfold parse_http_end, hr_result. rewrite (rd_eq _ (hr_start r)), bind_ok, H0 by lia.
  change (ch "[") with 91. destruct (hr_v6 r) eqn:E6.
  - rewrite (proj2 Hv), Z.eqb_refl by done.
    assert (El : blen (hr_value r) = blen (hr_host r) + 2) by (unfold hr_value; rewrite E6; blia).
    rewrite rd_eq, bind_ok by lia.
    rewrite <- Z.add_sub_assoc, req_value by lia. unfold hr_value at 1 3. rewrite E6.
    rewrite El. replace (blen (hr_host r) + 2 - 1) with (blen [91] + blen (hr_host r)) by blia.
    rewrite app_assoc, bat_app by blia. rewrite (proj2 (Z.ltb_ge _ _)) by blia.
    rewrite blen_app, Z.sub_diag. 
    change (bat [93] 0 =? ch "]") with true. cbn [negb]. do 2 f_equal; blia.
  - destruct (Z.eqb_spec (bat (hr_value r) 0) 91) as [Ex|]; [by apply Hv in Ex|].
    unfold hr_value. rewrite E6. do 2 f_equal; [lia|f_equal; lia].
Qed.

Lemma req_strtol ds :
  hr_port r = Some ds →
  strtol10 b (hr_stop r - blen ds - 1 + 1) = Ok (dec ds, hr_stop r).
Proof.
  intros Ep. pose proof (rw_port r Hr) as Hp. rewrite Ep in Hp. destruct Hp as (Hd & Hv & Hl).
  pose proof req_name_len. unfold enc_req, hr_text. rewrite Ep.
  assert (Hx : ∃ x rest, hr_trail r ++ 10 :: hr_rest r = x :: rest ∧ isdigit x = false).
  { pose proof (rw_trail r Hr) as Ht. destruct (hr_trail r) as [|x t]; [by eexists _, _|].
    inversion Ht as [|? ? [Hsp _]]; subst. eexists x, _. split; [done|].
    unfold isspace, isdigit in *. lia. }
  destruct Hx as (x & rest & Ex & Hnd). rewrite <- (app_assoc (hr_value r)).
  cbn [app]. rewrite Ex.
  replace (hr_pre r ++ hr_name r ++ repeat 32 (hr_blanks r) ++ hr_value r ++ 58 :: ds ++ x :: rest)
    with ((hr_pre r ++ hr_name r ++ repeat 32 (hr_blanks r) ++ hr_value r ++ [58]) ++ ds ++ x :: rest)
    by (by rewrite <- !app_assoc).
  assert (E : hr_stop r - blen ds - 1 + 1 =
    blen (hr_pre r ++ hr_name r ++ repeat 32 (hr_blanks r) ++ hr_value r ++ [58])).
  { unfold hr_stop, hr_start, hr_text. rewrite Ep. blia. }
  rewrite E, strtol10_exact by done. rewrite <- E. unfold long_max. f_equal. f_equal; [lia|]. ring.
Qed.

Lemma req_blanks_exact q :
  blen (hr_pre r) + 6 <= q <= blen b →
  (∀ j, blen (hr_pre r) + 6 <= j < q → bat b j = 32) → (q < blen b → bat b q ≠ 32) →
  q = hr_start r.
Proof.
  pose proof req_bounds as (B1 & B2 & B3 & B4). intros Hq Hbl Hnb.
  destruct (rw_head r Hr) as [Hh _].
  pose proof (req_value 0) as H0. rewrite Z.add_0_r in H0.
  assert (Hl : 0 < blen (hr_value r)).
  { pose proof (rw_host r Hr). unfold hr_value. destruct (hr_v6 r); blia. }
  destruct (Z.lt_trichotomy q (hr_start r)) as [|[|]]; [|done|].
  - exfalso. apply Hnb; [lia|]. apply req_blank; lia.
  - exfalso. apply Hh. rewrite <- H0 by lia. apply Hbl. unfold hr_start in *. blia.
Qed.

Lemma req_nl_exact l :
  hr_start r <= l < blen b → bat b l = 10 →
  (∀ j, hr_start r <= j < l → bat b j ≠ 10) → l = hr_nl r.
Proof.
  pose proof req_bounds as (B1 & B2 & B3 & B4). intros Hl H10 Hb.
  destruct (Z.lt_trichotomy l (hr_nl r)) as [|[|]]; [|done|].
  - exfalso. destruct (decide (l < hr_stop r)).
    + replace l with (hr_start r + (l - hr_start r)) in H10 by lia.
      rewrite req_text in H10 by (unfold hr_stop in *; lia). revert H10.
      apply (bat_Forall _ _ _ (rw_nl r Hr)). unfold hr_stop in *. lia.
    + destruct (req_trail l); [lia|done].
  - exfalso. apply (Hb (hr_nl r)); [lia|]. by apply req_nl.
Qed.

Lemma req_trim P : P (hr_stop r) → wp (trim_end b (hr_nl r)) P.
Proof.
  pose proof req_bounds as (B1 & B2 & B3 & B4). intros HP.
  apply (wp_trim_end _ (hr_stop r - 1)); [lia..| |].
  - replace (hr_stop r - 1) with (hr_start r + (blen (hr_text r) - 1)) by (unfold hr_stop; lia).
    rewrite req_text by (unfold hr_stop in *; lia). apply (rw_last r Hr).
  - intros q Hq Hns _. destruct (decide (q = hr_stop r)) as [->|]; [done|].
    destruct (req_trail (q - 1)) as [Hs _]; [lia|congruence].
Qed.
End request.

(** The port of the request, 80 unless it is written. *)
Definition hr_port_num (r : http_req) : Z :=
  match hr_port r with Some ds => dec ds | None => 80 end.

(** ** Parsing a request *)

Lemma parse_http_enc r want :
  req_wf r →
  parse_http (enc_req r) (blen (enc_req r)) want =
    Ok (hr_result r (if want then Some (hr_port_num r) else None)).
Proof.
  intros Hr. pose proof (req_bounds r Hr) as (B1 & B2 & B3 & B4).
  apply wp_eq. unfold parse_http. rewrite (rw_http r Hr), bind_ok. cbn [negb].
  pose proof (req_first r Hr _ eq_refl) as Hf.
  wp_step. apply wp_strncasestr; [lia|]. intros [q|] Hq.
  2: { destruct Hf as (? & Hf2 & Hf3 & _). rewrite Hq in Hf3; done. }
  assert (q = blen (hr_pre r)) as ->.
  { destruct Hq as (? & _ & Hq3 & Hq4), Hf as (? & _ & Hf3 & Hf4).
    destruct (Z.lt_trichotomy q (blen (hr_pre r))) as [Hlt|[|Hlt]]; [|done|].
    - rewrite Hf4 in Hq3; [done|lia].
    - rewrite Hq4 in Hf3; [done|lia]. }
  clear Hq. wp_step. apply wp_skip_blanks; [unfold hr_start in *; blia|lia|].
  intros host Hh1 Hh2 Hh3. rewrite (req_blanks_exact r Hr host) by done.
  wp_step. apply wp_memchr; [lia..|]. intros [l|] Hl.
  2: { exfalso. apply (Hl (hr_nl r)); [lia|]. by apply req_nl. }
  rewrite (req_nl_exact r Hr l) by (done || lia || apply Hl).
  wp_step. apply req_trim; [done|]. wp_step.
  destruct (hr_port r) as [ds|] eqn:Ep.
  - pose proof (rw_port r Hr) as Hp. rewrite Ep in Hp. destruct Hp as (_ & Hv & Hl1).
    assert (Et : hr_stop r - blen ds - 1 = hr_start r + blen (hr_value r)).
    { unfold hr_stop, hr_text. rewrite Ep. blia. }
    apply req_host_end; [done|]. rewrite Ep. intros H58. rewrite rd_eq, bind_ok, H58 by blia.
    change (58 =? ch ":") with true. cbv iota. destruct want.
    + rewrite (req_strtol r Hr ds), bind_ok by done. cbv beta iota. rewrite Z.eqb_refl.
      rewrite (proj2 (Z.leb_gt _ _)), (proj2 (Z.ltb_ge _ _)) by lia. cbn [andb orb negb].
      rewrite Et, req_parse_end by done. unfold hr_port_num. by rewrite Ep.
    + rewrite bind_ok. cbv beta iota. cbn [andb]. by rewrite Et, req_parse_end.
  - apply req_host_end; [done|]. rewrite Ep. intros h Hh0 Hhs Hnc. rewrite rd_eq, bind_ok by lia.
    destruct (Z.eqb_spec (bat (enc_req r) h) (ch ":")); [done|].
    assert (Et : hr_stop r = hr_start r + blen (hr_value r)).
    { unfold hr_stop, hr_text. rewrite Ep. blia. }
    rewrite Et, req_parse_end by done. unfold hr_port_num. rewrite Ep. by destruct want.
Qed.

(** * Changes of case *)

Definition case_eq (a b : bytes) : Prop := map tolower a = map tolower b.

#[export] Instance case_eq_equiv : Equivalence case_eq.
Proof. split; unfold case_eq; [intros ?|intros ???|intros ?????]; congruence. Qed.

Lemma case_eq_alt a b :
  case_eq a b ↔ blen a = blen b ∧ ∀ i, 0 <= i < blen a → tolower (bat a i) = tolower (bat b i).
Proof.
  assert (Hm : ∀ l i, tolower (bat l i) = bat (map tolower l) i).
  { intros. unfold bat. by rewrite <- (map_nth tolower). }
  assert (Hl : ∀ l, blen (map tolower l) = blen l) by (intros; unfold blen; by rewrite length_map).
  unfold case_eq. split.
  - intros E. split; [by rewrite <- (Hl a), E, Hl|]. intros. by rewrite !Hm, E.
  - intros [El Ei]. apply bytes_ext; [by rewrite !Hl|]. intros i Hi. rewrite Hl in Hi.
    rewrite <- !Hm. auto.
Qed.

Lemma case_eq_len a b : case_eq a b → blen a = blen b.
Proof. by intros [? _]%case_eq_alt. Qed.
Lemma case_eq_at a b i : case_eq a b → 0 <= i < blen a → tolower (bat a i) = tolower (bat b i).
Proof. intros [_ ?]%case_eq_alt. auto. Qed.

Lemma case_eq_app a b c d : case_eq a b → case_eq c d → case_eq (a ++ c) (b ++ d).
Proof. unfold case_eq. rewrite !map_app. by intros -> ->. Qed.

Lemma case_eq_app_inv b a c :
  case_eq b (a ++ c) → ∃ x y, b = x ++ y ∧ case_eq x a ∧ case_eq y c.
Proof.
  unfold case_eq. rewrite map_app. intros (x & y & -> & ? & ?)%map_eq_app. eauto.
Qed.

Lemma tolower_isspace c d : tolower c = tolower d → isspace c = isspace d.
Proof. unfold tolower, isspace. repeat case_match; lia. Qed.
Lemma tolower_toupper c : tolower (toupper c) = tolower c.
Proof. unfold tolower, toupper. repeat case_match; lia. Qed.
Lemma tolower_idem c : tolower (tolower c) = tolower c.
Proof. unfold tolower. repeat case_match; lia. Qed.
Lemma toupper_byte c : is_byte c → is_byte (toupper c).
Proof. unfold is_byte, toupper. case_match; lia. Qed.
Lemma tolower_byte c : is_byte c → is_byte (tolower c).
Proof. unfold is_byte, tolower. case_match; lia. Qed.

(** A byte replaced by its other case. *)
Lemma wp_wr_case (b b0 : bytes) i v P :
  bytes_wf b → case_eq b b0 → 0 <= i < blen b → is_byte v → tolower v = tolower (bat b i) →
  (∀ b', bytes_wf b' → case_eq b' b0 → P b') → wp (wr b i v) P.
Proof.
  intros Hw Hc Hi Hv Ht HP. unfold wr. rewrite u8_small by done.
  apply wp_store; [lia|blia|]. apply HP.
  - apply wf_put; [done|]. by constructor.
  - etrans; [|exact Hc]. apply case_eq_alt. rewrite blen_put by blia. split; [done|].
    intros j Hj. rewrite bat_put by blia. rewrite blen_cons, blen_nil.
    destruct (_ && _) eqn:E; [|done]. replace (j - i) with 0 by lia. by replace j with i by lia.
Qed.

Lemma wp_mix_header b b0 par P :
  bytes_wf b → case_eq b b0 → 0 <= par → par + 3 < blen b →
  (∀ b', bytes_wf b' → case_eq b' b0 → P b') → wp (mix_header b par) P.
Proof.
  intros Hw Hc Hp Hl HP. pose proof (case_eq_len _ _ Hc) as El. unfold mix_header.
  wp_step. apply wp_rd; [lia|]. wp_step.
  apply (wp_wr_case b b0); [done..|lia|apply tolower_byte; auto with zon|apply tolower_idem|].
  intros b1 Hw1 Hc1. pose proof (case_eq_len _ _ Hc1). wp_step. apply wp_rd; [lia|]. wp_step.
  apply (wp_wr_case b1 b0); [done..|lia|apply toupper_byte; auto with zon|apply tolower_toupper|].
  intros b2 Hw2 Hc2. pose proof (case_eq_len _ _ Hc2). wp_step. apply wp_rd; [lia|].
  by apply (wp_wr_case b2 b0);
    [done..|lia|apply toupper_byte; auto with zon|apply tolower_toupper|].
Qed.

Lemma wp_mix_domain b b0 host hlen P :
  bytes_wf b → case_eq b b0 → 0 <= host → host + hlen <= blen b →
  (∀ b', bytes_wf b' → case_eq b' b0 → P b') → wp (mix_domain b host hlen) P.
Proof.
  intros Hw Hc Hh Hl HP. pose proof (case_eq_len _ _ Hc) as El. unfold mix_domain.
  apply (wp_loop _ (λ '(b, i), 0 <= i ∧ bytes_wf b ∧ case_eq b b0)
    (λ '(_, i), Z.to_nat (hlen - i))); [|done|lia].
  intros [b1 i] (Hi & Hw1 & Hc1). pose proof (case_eq_len _ _ Hc1).
  destruct (Z.ltb_spec i hlen); [|apply wp_ok; auto].
  wp_step. apply wp_rd; [lia|]. wp_step.
  apply (wp_wr_case b1 b0);
    [done..|lia|apply toupper_byte; auto with zon|apply tolower_toupper|].
  intros b2 Hw2 Hc2. apply wp_ok. split; [|lia]. split_and!; [lia|done|done].
Qed.

Definition cased (b0 b : bytes) : Prop := bytes_wf b ∧ case_eq b b0.

Lemma wp_mix_header_opt (b b0 : bytes) (c : bool) par :
  bytes_wf b → case_eq b b0 → 0 <= par → par + 3 < blen b →
  wp (if c then mix_header b par else Ok b) (cased b0).
Proof.
  intros. apply wp_if_ok; [intros _|done]. by apply (wp_mix_header b b0); [..|split].
Qed.

Lemma wp_mix_domain_opt (b b0 : bytes) (c : bool) host hlen :
  bytes_wf b → case_eq b b0 → 0 <= host → host + hlen <= blen b →
  wp (if c then mix_domain b host hlen else Ok b) (cased b0).
Proof.
  intros. apply wp_if_ok; [intros _|done]. by apply (wp_mix_domain b b0); [..|split].
Qed.

Lemma wp_back_colon buffer q p P :
  0 <= q <= p → p < blen buffer → bat buffer q = 58 →
  (∀ j, q < j <= p → bat buffer j ≠ 58) → P q → wp (back_colon buffer p) P.
Proof.
  intros Hq Hp Hc Hno HP. unfold back_colon.
  apply (wp_loop _ (λ x, q <= x <= p) Z.to_nat); [|lia..].
  intros x Hx. rewrite rd_eq, bind_ok by lia. change (ch ":") with 58.
  destruct (Z.eqb_spec (bat buffer x) 58); apply wp_ok.
  - destruct (decide (x = q)) as [->|]; [done|]. exfalso. apply (Hno x); [lia|done].
  - assert (x ≠ q) by (intros ->; done). lia.
Qed.

Lemma wp_to_space buffer host hlen stop P :
  0 <= host + hlen → host + hlen <= stop < blen buffer → isspace (bat buffer stop) = true →
  (∀ j, host + hlen <= j < stop → isspace (bat buffer j) = false) → P (stop - host) →
  wp (to_space buffer host hlen) P.
Proof.
  intros H0 Hs Hsp Hno HP. unfold to_space.
  apply (wp_loop _ (λ x, host + hlen <= host + x <= stop) (λ x, Z.to_nat (stop - (host + x))));
    [|lia..].
  intros x Hx. rewrite rd_eq, bind_ok by lia.
  destruct (isspace (bat buffer (host + x))) eqn:E; apply wp_ok.
  - destruct (decide (host + x = stop)) as [<-|].
    + replace x with (host + x - host) by lia. done.
    + rewrite Hno in E by lia. done.
  - assert (host + x ≠ stop) by (intros Ex; rewrite Ex in E; congruence). lia.
Qed.

(** The request with the blanks before the value turned into tabs behind it. *)
Definition squeeze (r : http_req) : http_req :=
  HttpReq (hr_pre r) (hr_name r) 0 (hr_v6 r) (hr_host r) (hr_port r)
    (repeat 9 (hr_blanks r) ++ hr_trail r) (hr_rest r).

(** A request for example.org:8080, with a header name in mixed case and two
    blanks before the value. *)
Definition sample_req : http_req :=
  HttpReq (bs "GET / HTTP/1.1" ++ [13]) (10 :: bs "hOst:") 2 false (bs "example.org")
    (Some (bs "8080")) [13] ([13; 10]).

Lemma sample_req_wf : req_wf sample_req.
Proof.
  split; try (by vm_compute).
  - intros j Hj. change (blen (hr_pre sample_req)) with 15 in Hj.
    apply negb_true_iff. revert j Hj.
    apply (forall_upto (λ j, negb (ci_match (enc_req sample_req) j (10 :: host_hdr))) 15).
    by vm_compute.
  - vm_compute. repeat constructor; discriminate.
  - vm_compute. repeat constructor; discriminate.
  - vm_compute. repeat constructor; discriminate.
Qed.

Lemma sample_req_bytes : bytes_wf (enc_req sample_req).
Proof. vm_compute. repeat constructor; discriminate. Qed.

(** * Properties *)

(** on any request buffer, of any content, [parse_http] stays inside the
    buffer and terminates, and a value it reports lies on the line that the first
    "Host:" header starts. *)
Theorem parse_http_in_bounds buffer bsize want :
  bsize <= blen buffer →
  ∃ r, parse_http buffer bsize want = Ok r ∧ host_in buffer bsize r.
Proof. intros. by apply wp_inv, wp_parse_http. Qed.

Lemma parse_http_in_bounds_witness :
  24 <= blen (bs "GET / HTTP/1.1" ++ [13; 10] ++ bs "Host: a" ++ [10]) ∧
  ∃ r, parse_http (bs "GET / HTTP/1.1" ++ [13; 10] ++ bs "Host: a" ++ [10]) 24 true = Ok r ∧
       host_in (bs "GET / HTTP/1.1" ++ [13; 10] ++ bs "Host: a" ++ [10]) 24 r.
Proof. split; [by vm_compute|]. apply parse_http_in_bounds. by vm_compute. Defined.



(** as long as blanks are kept ([MH_SPACE] off), [mod_http] on any request stays
    inside the buffer and terminates, and all it ever does is change the case of
    letters. *)
Theorem mod_http_changes_case_only buffer bsize m :
  bytes_wf buffer → bsize <= blen buffer → has m MH_SPACE = false →
  ∃ rc b', mod_http buffer bsize m = Ok (rc, b') ∧ bytes_wf b' ∧ case_eq b' buffer.
Proof.
  intros Hw Hb Hs. cut (wp (mod_http buffer bsize m) (λ '(_, b'), bytes_wf b' ∧ case_eq b' buffer)).
  { intros ([rc b'] & ? & ?)%wp_inv. eauto. }
  unfold mod_http. wp_step. apply wp_parse_http; [done|]. intros [len [host|] port]; [|done].
  unfold host_in; cbn [hh_hs hh_len]. intros (q & e & Hq & H1 & H2 & H3 & H4 & H5 & H6 & H7).
  pose proof (host_match_bytes _ _ _ Hq) as (? & ? & H58 & _). destruct (len =? 0); [done|].
  wp_step. apply (wp_back_colon _ (q + 5)); [lia..|done|intros; apply H7; lia|]. cbn beta zeta.
  rewrite Hs. wp_step. eapply wp_mono; [apply (wp_mix_header_opt buffer buffer); done || lia|].
  intros b1 [Hw1 Hc1]. pose proof (case_eq_len _ _ Hc1). wp_step.
  eapply wp_mono; [apply (wp_mix_domain_opt b1 buffer); done || lia|]. done.
Qed.

Lemma mod_http_changes_case_only_witness :
  ∃ rc b', mod_http (enc_req sample_req) 42 (MH_HMIX + MH_DMIX) = Ok (rc, b') ∧
    bytes_wf b' ∧ case_eq b' (enc_req sample_req).
Proof.
  apply mod_http_changes_case_only; [apply sample_req_bytes|by vm_compute|done].
Defined.

(** The value moved up against the colon and the freed bytes filled. *)
Lemma wp_squeeze r b : req_wf r → hr_v6 r = false → case_eq b (enc_req r) →
  wp (buffer ← memmove b (blen (hr_pre r) + 5 - 4 + 5) (hr_start r) (hr_stop r - hr_start r);
      memset buffer (blen (hr_pre r) + 5 - 4 + 5 + (hr_stop r - hr_start r)) 9
        (hr_start r - (blen (hr_pre r) + 5 - 4 + 5))) (λ b', case_eq b' (enc_req (squeeze r))).
Proof.
  intros Hr H6 Hc2. pose proof (req_bounds r Hr) as (B1 & B2 & B3 & B4). pose proof (req_name_len r Hr) as Hn.
  pose proof (case_eq_len _ _ Hc2) as Hlen. unfold enc_req in Hc2.
  apply case_eq_app_inv in Hc2 as (p1 & t1 & E1 & Hp1 & Hc2).
  apply case_eq_app_inv in Hc2 as (n1 & t2 & E2 & Hn1 & Hc2).
  apply case_eq_app_inv in Hc2 as (s1 & t3 & E3 & Hs1 & Hc2).
  apply case_eq_app_inv in Hc2 as (x1 & y1 & E4 & Hx1 & Hy1).
  subst t1 t2 t3.
  pose proof (case_eq_len _ _ Hp1). pose proof (case_eq_len _ _ Hn1).
  pose proof (case_eq_len _ _ Hs1) as Hsl. rewrite blen_repeat in Hsl.
  pose proof (case_eq_len _ _ Hx1).
  replace (hr_stop r - hr_start r) with (blen x1) by (unfold hr_stop; lia).
  replace (blen (hr_pre r) + 5 - 4 + 5) with (blen (p1 ++ n1)) by blia.
  assert (Esub : sub b (hr_start r) (blen x1) = x1).
  { rewrite E1, !(app_assoc _ n1), !(app_assoc _ s1). apply sub_at; [|done]. unfold hr_start. blia. }
  wp_step. apply wp_memmove; [blia|lia|blia|subst b; blia|unfold hr_stop in *; blia|].
  rewrite Esub.
  replace (hr_start r - blen (p1 ++ n1)) with (blen s1) by (unfold hr_start; blia).
  apply wp_memset; [blia|blia|subst b; blia|]. 
  rewrite put_put_app by (subst b; blia).
  replace b with ((p1 ++ n1) ++ (s1 ++ x1) ++ y1) by (subst b; by rewrite <- !app_assoc).
  rewrite put_at by blia. unfold enc_req. change (hr_text (squeeze r)) with (hr_text r).
  cbn [squeeze hr_pre hr_name hr_blanks hr_trail hr_rest repeat].
  rewrite <- !app_assoc. cbn [app]. change (u8 9) with 9.
  replace (Z.to_nat (blen s1)) with (hr_blanks r) by lia.
  by repeat (apply case_eq_app; [done|]).
Qed.

(** with [MH_SPACE], [mod_http] on a well-formed request whose value is a name or
    an IPv4 address moves the value up against "Host:" and fills the freed bytes
    with tabs; the length is kept and the rest is unchanged up to the case of
    letters. *)
Theorem mod_http_squeezes r m :
  req_wf r → bytes_wf (enc_req r) → hr_v6 r = false → has m MH_SPACE = true →
  Forall (λ c, isspace c = false) (hr_text r) →
  ∃ b', mod_http (enc_req r) (blen (enc_req r)) m = Ok (0, b') ∧ case_eq b' (enc_req (squeeze r)).
Proof.
  intros Hr Hw H6 Hs Hns. pose proof (req_bounds r Hr) as (B1 & B2 & B3 & B4).
  pose proof (rw_host r Hr). pose proof (req_name_len r Hr) as Hn.
  pose proof (req_first r Hr _ eq_refl) as Hq.
  pose proof (host_match_bytes _ _ _ Hq) as (? & ? & H58 & _).
  cut (wp (mod_http (enc_req r) (blen (enc_req r)) m)
    (λ '(rc, b'), rc = 0 ∧ case_eq b' (enc_req (squeeze r)))).
  { intros ([rc b'] & ? & -> & ?)%wp_inv. eauto. }
  unfold mod_http. rewrite parse_http_enc, bind_ok by done. unfold hr_result.
  cbn [hh_hs hh_len]. rewrite H6, Z.add_0_r, (proj2 (Z.eqb_neq _ _)) by lia.
  wp_step. apply (wp_back_colon _ (blen (hr_pre r) + 5));
    [unfold hr_start in *; blia|lia|done| |].
  { intros j Hj. rewrite req_blank by (done || lia). done. }
  assert (Hst : hr_start r + blen (hr_host r) <= hr_stop r).
  { unfold hr_stop, hr_text, hr_value. rewrite H6. blia. }
  cbn beta zeta. rewrite Hs. wp_step.
  eapply wp_mono; [apply (wp_mix_header_opt _ (enc_req r)); done || blia|].
  intros b1 [Hw1 Hc1]. pose proof (case_eq_len _ _ Hc1). wp_step.
  eapply wp_mono; [apply (wp_mix_domain_opt b1 (enc_req r)); done || lia|].
  intros b2 [Hw2 Hc2]. pose proof (case_eq_len _ _ Hc2). do 2 wp_step.
  assert (Hsp : ∀ j, hr_start r <= j < blen (enc_req r) →
    isspace (bat b2 j) = isspace (bat (enc_req r) j)).
  { intros j Hj. apply tolower_isspace. apply (case_eq_at _ _ _ Hc2). lia. }
  apply (wp_to_space _ _ _ (hr_stop r)); [lia..| | |].
  { rewrite Hsp by lia. destruct (decide (hr_stop r = hr_nl r)) as [E|].
    - by rewrite E, req_nl.
    - apply (req_trail r Hr). lia. }
  { intros j Hj. rewrite Hsp by lia. replace j with (hr_start r + (j - hr_start r)) by lia.
    unfold hr_stop in *. rewrite req_text by (done || lia). apply (bat_Forall _ _ _ Hns). lia. }
  eapply wp_mono; [by apply wp_squeeze|]. intros b3 Hb3. wp_step. by split.
Qed.

Lemma mod_http_squeezes_witness :
  ∃ b', mod_http (enc_req sample_req) (blen (enc_req sample_req)) 7 = Ok (0, b') ∧
    case_eq b' (enc_req (squeeze sample_req)).
Proof.
  apply mod_http_squeezes; [exact sample_req_wf|exact sample_req_bytes|done..|].
  vm_compute. repeat constructor.
Defined.

(** * Where the code goes wrong *)

(** A blank Host value has a negative length, and [MH_SPACE] then hands [memmove] a
    huge size. *)
Definition blank_host : bytes :=
  bs "GET / HTTP/1.1" ++ [13; 10] ++ bs "Host:   " ++ [13; 10; 13; 10].

Lemma parse_http_blank_host :
  parse_http blank_host (blen blank_host) false = Ok (HttpHost (-3) (Some 24) None) ∧
  mod_http blank_host (blen blank_host) MH_SPACE = Fail OutOfBounds.
Proof. by vm_compute. Qed.

(** Without a blank, a value that is a number is taken for a port. *)
Definition number_host : bytes :=
  bs "GET / HTTP/1.1" ++ [13; 10] ++ bs "Host:1234" ++ [13; 10; 13; 10].

Lemma parse_http_number_host :
  parse_http number_host (blen number_host) false = Ok (HttpHost (-1) (Some 21) None).
Proof. by vm_compute. Qed.

(** An IPv6 literal without a port is not recognised when its last group is a
    number: the scan for a port stops at the colon inside the brackets. *)
Definition v6_host : bytes :=
  bs "GET / HTTP/1.1" ++ [13; 10] ++ bs "Host: [::1]" ++ [13; 10; 13; 10].

Lemma parse_http_misses_v6 :
  parse_http v6_host (blen v6_host) false = Ok (HttpHost 0 None None).
Proof. by vm_compute. Qed.

(** [MH_SPACE] on an IPv6 literal drops its opening bracket. *)
Definition v6_port_host : bytes :=
  bs "GET / HTTP/1.1" ++ [13; 10] ++ bs "Host: [::1]:80" ++ [13; 10; 13; 10].

Lemma mod_http_drops_bracket :
  mod_http v6_port_host (blen v6_port_host) MH_SPACE =
    Ok (0, bs "GET / HTTP/1.1" ++ [13; 10] ++ bs "Host:::1]:80" ++ [9; 9] ++ [13; 10; 13; 10]).
Proof. by vm_compute. Qed.

(** A blank Location value makes the redirect detector search with a huge size. *)
Definition blank_location : bytes :=
  bs "HTTP/1.1 302 Found" ++ [13; 10] ++ bs "Location:    " ++ [10; 13; 10; 13; 10; 13; 10].

Lemma is_http_redirect_overruns :
  is_http_redirect (enc_req sample_req) (blen (enc_req sample_req))
    blank_location (blen blank_location) = Fail OutOfBounds.
Proof. by vm_compute. Qed.
