(* ===== verification/Mpool.v ===== *)
(** byedpi mpool.c and kavl.h: ordered pools of elements.

    A pool is an AVL tree of elements ordered by one of three comparators.
    Section [kavl] models the tree operations of kavl.h (the macros instantiated by
    [KAVL_INIT(my, struct elem, head, scmp)]) for any comparison; the rest models the
    comparators and the [mem_*] operations.  A subtree is a value and the [path] /
    [dir] arrays of the C code are a list of frames, innermost first; following a
    null pointer faults. *)
From Stdlib Require Import ZArith Lia String.
From stdpp Require Import base numbers list option sorting.
From S2P Require Import Prelude CMem.

(** * The tree *)

Section kavl.
Context {A : Type} (cmp : A → A → Z).

(** [p[0]], the element, [balance], [size], [p[1]]. *)
Inductive tree := Leaf | Node (l : tree) (e : A) (b sz : Z) (r : tree).

(** [kavl_size] *)
Definition tsize (t : tree) : Z := match t with Leaf => 0 | Node _ _ _ sz _ => sz end.
Definition tbal (t : tree) : Z := match t with Leaf => 0 | Node _ _ b _ _ => b end.
Definition set_bal (b : Z) (t : tree) : tree :=
  match t with Leaf => Leaf | Node l e _ sz r => Node l e b sz r end.
(** The child in a direction: [false] is [p[0]], [true] is [p[1]]. *)
Definition child (d : bool) (t : tree) : tree :=
  match t with Leaf => Leaf | Node l _ _ _ r => if d then r else l end.
(** The node whose child in direction [d] is [c] and whose other child is [o]. *)
Definition node (d : bool) (c o : tree) (e : A) (b sz : Z) : tree :=
  if d then Node o e b sz c else Node c e b sz o.

Fixpoint kavl_find (t : tree) (x : A) : option A :=
  match t with
  | Leaf => None
  | Node l e _ _ r =>
      let c := cmp x e in
      if c <? 0 then kavl_find l x else if 0 <? c then kavl_find r x else Some e
  end.

(** [(a,(b,c)q)p => ((a,b)p,c)q]; the balance factors are the caller's. *)
Definition kavl_rotate1 (p : tree) (dir : bool) : comp tree :=
  let opp := negb dir in
  match p, child opp p with
  | Node _ pe pb psz _, Node _ qe qb qsz _ =>
      let q := child opp p in
      let psz' := psz - (qsz - tsize (child dir q)) in
      Ok (node dir (node dir (child dir p) (child dir q) pe pb psz')
            (child opp q) qe qb psz)
  | _, _ => Fail OutOfBounds
  end.

(** [(a,((b,c)r,d)q)p => ((a,b)p,(c,d)q)r] *)
Definition kavl_rotate2 (p : tree) (dir : bool) : comp tree :=
  let opp := negb dir in
  let q := child opp p in
  match p, q, child dir q with
  | Node _ pe pb psz _, Node _ qe qb qsz _, Node _ re rb rsz _ =>
      let r := child dir q in
      let sx := tsize (child dir r) in
      let b1 := if dir then -1 else 1 in
      let '(qb, pb) := if rb =? b1 then (0, - b1) else if rb =? 0 then (0, 0) else (b1, 0) in
      Ok (node dir (node dir (child dir p) (child dir r) pe pb (psz - (qsz - sx)))
            (node dir (child opp r) (child opp q) qe qb (qsz - (sx + 1)))
            re 0 psz)
  | _, _, _ => Fail OutOfBounds
  end.

(** A node on the path: the direction taken, the other child, the element, the
    balance and the size. *)
Record frame := Frame { f_dir : bool; f_sib : tree; f_e : A; f_b : Z; f_sz : Z }.

Definition plug1 (f : frame) (t : tree) : tree :=
  node (f_dir f) t (f_sib f) (f_e f) (f_b f) (f_sz f).
(** The whole tree around a subtree. *)
Fixpoint plug (p : list frame) (t : tree) : tree :=
  match p with [] => t | f :: p => plug p (plug1 f t) end.

Definition add_size (k : Z) (f : frame) : frame :=
  Frame (f_dir f) (f_sib f) (f_e f) (f_b f) (f_sz f + k).
Definition with_bal (b : Z) (f : frame) : frame :=
  Frame (f_dir f) (f_sib f) (f_e f) b (f_sz f).

(** The search for the insertion point: an equal element or the path to it. *)
Fixpoint descend (x : A) (t : tree) (p : list frame) : A + list frame :=
  match t with
  | Leaf => inr p
  | Node l e b sz r =>
      let c := cmp x e in
      if c =? 0 then inl e
      else if 0 <? c then descend x r (Frame true l e b sz :: p)
      else descend x l (Frame false r e b sz :: p)
  end.

Definition rebalance_ins (bp : tree) : comp tree :=
  let which := tbal bp <? 0 in
  let b1 := if which then -1 else 1 in
  if tbal (child (negb which) bp) =? b1 then
    r ← kavl_rotate1 bp which;
    Ok (match r with
        | Node l e _ sz r => if which then Node l e 0 sz (set_bal 0 r)
                             else Node (set_bal 0 l) e 0 sz r
        | Leaf => Leaf end)
  else kavl_rotate2 bp which.

(** The balance update from [bp], the last node on the path with a balance other
    than 0 (the root when there is none), down to the new node, and the rotation
    at [bp]. *)
Fixpoint climb_ins (p : list frame) (t : tree) : comp tree :=
  match p with
  | [] => Ok t
  | f :: p =>
      let b := f_b f + (if f_dir f then 1 else -1) in
      let t := plug1 (with_bal b f) t in
      if f_b f =? 0 then climb_ins p t
      else t ← (if (-2 <? b) && (b <? 2) then Ok t else rebalance_ins t);
           Ok (plug p t)
  end.

(** The new tree and the element in it that is equal to [x], [true] if it is [x]
    itself. *)
Definition kavl_insert (t : tree) (x : A) : comp (tree * A * bool) :=
  match descend x t [] with
  | inl e => Ok (t, e, false)
  | inr p => t ← climb_ins (map (add_size 1) p) (Node Leaf x 0 1 Leaf); Ok (t, x, true)
  end.

(** The loop up the path after a removal: [t] is the subtree that lost a level. *)
Fixpoint climb_del (p : list frame) (t : tree) : comp tree :=
  match p with
  | [] => Ok t
  | f :: p =>
      let which := f_dir f in
      let b1 := if which then -1 else 1 in
      let b := f_b f + b1 in
      let q := plug1 (with_bal b f) t in
      if b =? b1 then Ok (plug p q)
      else if b =? 2 * b1 then
        let rb := tbal (child (negb which) q) in
        if rb =? - b1 then t ← kavl_rotate2 q which; climb_del p t
        else
          t ← kavl_rotate1 q which;
          match t with
          | Leaf => Fail OutOfBounds
          | Node l e _ sz r =>
              if rb =? 0 then
                Ok (plug p (if which then Node l e (- b1) sz (set_bal b1 r)
                            else Node (set_bal b1 l) e (- b1) sz r))
              else climb_del p (if which then Node l e 0 sz (set_bal 0 r)
                                else Node (set_bal 0 l) e 0 sz r)
          end
      else climb_del p q
  end.

(** The node that takes the place of the removed one when that has a right child:
    the leftmost node below [q], with its right child and the path to it. *)
Fixpoint leftmost (ql : tree) (qe : A) (qb qsz : Z) (qr : tree) (p : list frame) :
    A * tree * list frame :=
  match ql with
  | Leaf => (qe, qr, p)
  | Node l e b sz r => leftmost l e b sz r (Frame false qr qe qb (qsz - 1) :: p)
  end.

(** Removes the node [(l, e, b, sz, r)] below the path [p]. *)
Definition unlink (l : tree) (b sz : Z) (r : tree) (p : list frame) : comp tree :=
  match r with
  | Leaf => climb_del p l
  | Node rl re rb rsz rr =>
      let '(me, mr, q) := leftmost rl re rb rsz rr [] in
      climb_del (q ++ Frame true l me b (sz - 1) :: p) mr
  end.

Fixpoint erase_at (x : A) (t : tree) (p : list frame) : comp (tree * option A) :=
  match t with
  | Leaf => Ok (plug (map (add_size 1) p) Leaf, None)
  | Node l e b sz r =>
      let c := cmp x e in
      if c =? 0 then t ← unlink l b sz r p; Ok (t, Some e)
      else if 0 <? c then erase_at x r (Frame true l e b (sz - 1) :: p)
      else erase_at x l (Frame false r e b (sz - 1) :: p)
  end.

Definition kavl_erase (t : tree) (x : A) : comp (tree * option A) := erase_at x t [].

(** Only for a tree that is not empty. *)
Fixpoint erase_first_at (t : tree) (p : list frame) : comp (tree * option A) :=
  match t with
  | Leaf => Fail OutOfBounds
  | Node Leaf e b sz r => t ← unlink Leaf b sz r p; Ok (t, Some e)
  | Node l e b sz r => erase_first_at l (Frame false r e b (sz - 1) :: p)
  end.

Definition kavl_erase_first (t : tree) : comp (tree * option A) := erase_first_at t [].

(** The order in which the iterator ([kavl_itr_first], [kavl_itr_next]) visits. *)
Fixpoint elements (t : tree) : list A :=
  match t with Leaf => [] | Node l e _ _ r => elements l ++ e :: elements r end.
End kavl.
Arguments tree : clear implicits.
Arguments frame : clear implicits.

(** * Elements and their order *)

(** The number of entries of the [path] arrays. *)
Definition KAVL_MAX_DEPTH : Z := 64.

Definition CMP_BYTES : Z := 0.
Definition CMP_BITS : Z := 1.
Definition CMP_HOST : Z := 2.
Definition MF_STATIC : Z := 1.
Definition MF_EXTRA : Z := 2.

(** [struct elem_i], whose head is [struct elem]; [dp] is the number of the group it
    points to.  [e_len] counts bytes, or bits under [CMP_BITS], and [e_data] holds at
    least that much. *)
Record elem := Elem {
  e_len : Z; e_data : bytes; e_cmp_type : Z;
  e_extra : option bytes; e_extra_len : Z; e_dp_mask : Z; e_dp : option nat; e_detect : Z; e_time : Z
}.

(** The sign that [memcmp(p, q, n)] has. *)
Definition mem_cmp (p q : bytes) (n : Z) : Z := bytes_cmp (sub p 0 n) (sub q 0 n).

Definition bit_cmp (p q : elem) : Z :=
  let len := if e_len q <? e_len p then e_len q else e_len p in
  let df := Z.rem len 8 in
  let nbytes := Z.quot len 8 in
  let cmp := mem_cmp (e_data p) (e_data q) nbytes in
  if negb (cmp =? 0) || (df =? 0) then cmp else
  let c1 := u8 (Z.shiftr (s8 (bat (e_data p) nbytes)) (8 - df)) in
  let c2 := u8 (Z.shiftr (s8 (bat (e_data q) nbytes)) (8 - df)) in
  if negb (c1 =? c2) then if c1 <? c2 then -1 else 1 else 0.

Definition byte_cmp (p q : elem) : Z :=
  if negb (e_len p =? e_len q) then if e_len p <? e_len q then -1 else 1
  else mem_cmp (e_data p) (e_data q) (e_len p).

(** The loop of [host_cmp] over the last [n] bytes, from the end. *)
Fixpoint host_cmp_tail (pd qd : bytes) (p q : Z) (n : nat) : Z :=
  match n with
  | O => 0
  | S n => let c := bat pd (p - 1) in let d := bat qd (q - 1) in
      if negb (c =? d) then if s8 c <? s8 d then -1 else 1
      else host_cmp_tail pd qd (p - 1) (q - 1) n
  end.

Definition host_cmp (p q : elem) : Z :=
  let pl := e_len p in let ql := e_len q in
  let len := if ql <? pl then ql else pl in
  let c := host_cmp_tail (e_data p) (e_data q) pl ql (Z.to_nat len) in
  if negb (c =? 0) then c
  else if (pl =? ql) ||
    ((if ql <? pl then bat (e_data p) (pl - len - 1) else bat (e_data q) (ql - len - 1)) =? 46)
  then 0 else if ql <? pl then 1 else -1.

Definition scmp (p q : elem) : Z :=
  if e_cmp_type p =? CMP_BITS then bit_cmp p q
  else if e_cmp_type p =? CMP_HOST then host_cmp p q
  else byte_cmp p q.

(** * Pools *)

(** [struct mphdr] *)
Record mphdr := Mphdr {
  mp_flags : Z; mp_cmp_type : Z; mp_count : Z; mp_root : tree elem }.

Definition mem_pool (flags cmp_type : Z) : mphdr := Mphdr flags cmp_type 0 Leaf.

Definition new_elem (hdr : mphdr) (str : bytes) (len : Z) : elem :=
  Elem len str (mp_cmp_type hdr) None 0 0 None 0 0.

Definition mem_get (hdr : mphdr) (str : bytes) (len : Z) : option elem :=
  kavl_find scmp (mp_root hdr) (new_elem hdr str len).

Definition mem_delete (hdr : mphdr) (str : bytes) (len : Z) : comp mphdr :=
  '(t, e) ← kavl_erase scmp (mp_root hdr) (new_elem hdr str len);
  match e with
  | None => Ok hdr
  | Some _ => Ok (Mphdr (mp_flags hdr) (mp_cmp_type hdr) (mp_count hdr - 1) t)
  end.

(** The element the pool holds for the key, [true] when it is the new one, and the
    pool.  [fuel] bounds the deletions of the loop: one per element is enough. *)
Fixpoint mem_add_loop (fuel : nat) (hdr : mphdr) (e : elem) : comp (elem * bool * mphdr) :=
  match fuel with
  | O => Fail OutOfFuel
  | S fuel =>
      '(t, v, new) ← kavl_insert scmp (mp_root hdr) e;
      let hdr := Mphdr (mp_flags hdr) (mp_cmp_type hdr) (mp_count hdr) t in
      if (new : bool) then
        Ok (e, true, Mphdr (mp_flags hdr) (mp_cmp_type hdr) (mp_count hdr + 1) t)
      else if e_len e <? e_len v then
        hdr ← mem_delete hdr (e_data v) (e_len v); mem_add_loop fuel hdr e
      else Ok (v, false, hdr)
  end.

Definition mem_add (hdr : mphdr) (str : bytes) (len : Z) : comp (elem * bool * mphdr) :=
  mem_add_loop (S (length (elements (mp_root hdr)))) hdr (new_elem hdr str len).

(** [mem_destroy]: the elements in the order in which they are freed. *)
Fixpoint mem_destroy_loop (fuel : nat) (t : tree elem) : comp (list elem) :=
  match t, fuel with
  | Leaf, _ => Ok []
  | _, O => Fail OutOfFuel
  | _, S fuel =>
      '(t, e) ← kavl_erase_first t;
      l ← mem_destroy_loop fuel t;
      Ok (match e with Some e => e :: l | None => l end)
  end.

Definition mem_destroy (hdr : mphdr) : comp (list elem) :=
  mem_destroy_loop (S (length (elements (mp_root hdr)))) (mp_root hdr).

(** * The tree: balance, sizes and order *)

Section kavl_lemmas.
Context {A : Type}.
Implicit Types (t l r : tree A) (e : A).

Fixpoint height t : Z :=
  match t with Leaf => 0 | Node l _ _ _ r => 1 + Z.max (height l) (height r) end.

(** An AVL tree whose balance and size fields are right. *)
Fixpoint avl t : Prop :=
  match t with
  | Leaf => True
  | Node l _ b sz r => avl l ∧ avl r ∧ b = height r - height l ∧ -1 <= b <= 1 ∧
      sz = tsize l + tsize r + 1
  end.

Lemma height_nonneg t : 0 <= height t.
Proof. induction t; simpl; lia. Qed.

Lemma avl_size t : avl t → tsize t = Z.of_nat (length (elements t)).
Proof.
  induction t as [|l IHl e b sz r IHr]; simpl; [done|]. intros (Hl & Hr & _ & _ & ->).
  rewrite length_app, IHl, IHr by done. simpl. lia.
Qed.

(** The elements to the left and to the right of the hole of a path. *)
Fixpoint before (p : list (frame A)) : list A :=
  match p with
  | [] => []
  | f :: p => before p ++ (if f_dir f then elements (f_sib f) ++ [f_e f] else [])
  end.
Fixpoint after (p : list (frame A)) : list A :=
  match p with
  | [] => []
  | f :: p => (if f_dir f then [] else f_e f :: elements (f_sib f)) ++ after p
  end.

Lemma elements_plug1 (f : frame A) t :
  elements (plug1 f t) =
    if f_dir f then elements (f_sib f) ++ f_e f :: elements t
    else elements t ++ f_e f :: elements (f_sib f).
Proof. unfold plug1, node. by destruct (f_dir f). Qed.

Lemma elements_plug p t : elements (plug p t) = before p ++ elements t ++ after p.
Proof.
  revert t. induction p as [|f p IH]; intros t; cbn [plug before after].
  { by rewrite app_nil_r. }
  rewrite IH, elements_plug1. destruct (f_dir f); rewrite <- !app_assoc; [done|].
  by rewrite app_nil_l.
Qed.

Lemma before_add_size k p : before (map (add_size k) p) = before p.
Proof. induction p as [|f p IH]; simpl; [done|]. by rewrite IH. Qed.
Lemma after_add_size k p : after (map (add_size k) p) = after p.
Proof. induction p as [|f p IH]; simpl; [done|]. by rewrite IH. Qed.

(** A path that makes an AVL tree around any AVL tree of height [h] and size [s]. *)
Fixpoint ctx_ok (p : list (frame A)) (h s : Z) : Prop :=
  match p with
  | [] => True
  | f :: p => avl (f_sib f) ∧ -1 <= f_b f <= 1 ∧
      f_b f = (if f_dir f then h - height (f_sib f) else height (f_sib f) - h) ∧
      f_sz f = s + tsize (f_sib f) + 1 ∧
      ctx_ok p (1 + Z.max h (height (f_sib f))) (f_sz f)
  end.

Lemma avl_plug1 (f : frame A) t :
  avl (f_sib f) → avl t → -1 <= f_b f <= 1 →
  f_b f = (if f_dir f then height t - height (f_sib f) else height (f_sib f) - height t) →
  f_sz f = tsize t + tsize (f_sib f) + 1 →
  avl (plug1 f t) ∧ height (plug1 f t) = 1 + Z.max (height t) (height (f_sib f)) ∧
  tsize (plug1 f t) = f_sz f.
Proof.
  unfold plug1, node. intros Hs Ht Hb Hbe Hz. destruct (f_dir f); simpl; split_and!; try done; lia.
Qed.

Lemma avl_plug p t : avl t → ctx_ok p (height t) (tsize t) → avl (plug p t).
Proof.
  revert t. induction p as [|f p IH]; intros t Ht; cbn [plug ctx_ok]; [done|].
  intros (Hs & Hb & Hbe & Hz & Hp).
  destruct (avl_plug1 f t) as (H1 & H2 & H3); [done..|lia|].
  apply IH; [done|]. by rewrite H2, H3.
Qed.

(** Paths met on the way down. *)
Lemma ctx_down (d : bool) t e b sz c o p :
  t = node d c o e b sz → avl t → ctx_ok p (height t) (tsize t) →
  avl c ∧ ctx_ok (Frame d o e b sz :: p) (height c) (tsize c).
Proof.
  intros -> Ht Hp. unfold node in *. destruct d; simpl in *; destruct Ht as (H1 & H2 & H3 & H4 & H5);
    (split; [done|]); split_and!; try done; try lia.
  - by rewrite Z.max_comm.
Qed.

(** ** Rotations *)

(** A node that is right but for a balance out of range. *)
Definition leaning l e b sz r : Prop :=
  avl l ∧ avl r ∧ b = height r - height l ∧ sz = tsize l + tsize r + 1.

(** [t'] is [t] rebalanced: an AVL tree with the same elements, of height [h]. *)
Definition rebalanced t h t' : Prop :=
  avl t' ∧ height t' = h ∧ tsize t' = tsize t ∧ elements t' = elements t.

Ltac avl_solve :=
  unfold rebalanced; cbn [avl height tsize elements set_bal] in *;
  split_and!; try done; try lia;
  repeat progress (rewrite <- ?app_assoc; cbn [app]); try done.

Lemma rebalance_ins_right l e sz r :
  leaning l e 2 sz r → tbal r ≠ 0 →
  ∃ t', rebalance_ins (Node l e 2 sz r) = Ok t' ∧
    rebalanced (Node l e 2 sz r) (height r) t'.
Proof.
  intros (Hl & Hr & Hb & Hz) Hn. pose proof (height_nonneg l).
  destruct r as [|rl re rb rsz rr]; [simpl in Hb; lia|]. cbn [tbal] in Hn.
  destruct Hr as (Hrl & Hrr & Hrb & Hrb' & Hrz). cbn [height] in Hb.
  unfold rebalance_ins. cbn [tbal child negb]. change (2 <? 0) with false. cbn [negb child tbal].
  destruct (Z.eqb_spec rb 1) as [->|].
  - cbn. eexists. split; [done|]. avl_solve.
  - destruct rl as [|a x xb xsz c]; [simpl in *; pose proof (height_nonneg rr); lia|].
    destruct Hrl as (Ha & Hc & Hxb & Hxb' & Hxz). cbn [height tsize] in *.
    cbn. destruct (Z.eqb_spec xb 1); [|destruct (Z.eqb_spec xb 0)];
      (eexists; split; [done|]; avl_solve).
Qed.

Lemma rebalance_ins_left l e sz r :
  leaning l e (-2) sz r → tbal l ≠ 0 →
  ∃ t', rebalance_ins (Node l e (-2) sz r) = Ok t' ∧
    rebalanced (Node l e (-2) sz r) (height l) t'.
Proof.
  intros (Hl & Hr & Hb & Hz) Hn. pose proof (height_nonneg r).
  destruct l as [|ll le lb lsz lr]; [simpl in Hb; lia|]. cbn [tbal] in Hn.
  destruct Hl as (Hll & Hlr & Hlb & Hlb' & Hlz). cbn [height] in Hb.
  unfold rebalance_ins. cbn [tbal child negb]. change (-2 <? 0) with true. cbn [negb child tbal].
  destruct (Z.eqb_spec lb (-1)) as [->|].
  - cbn. eexists. split; [done|]. avl_solve.
  - destruct lr as [|a x xb xsz c]; [simpl in *; pose proof (height_nonneg ll); lia|].
    destruct Hlr as (Ha & Hc & Hxb & Hxb' & Hxz). cbn [height tsize] in *.
    cbn. destruct (Z.eqb_spec xb (-1)); [|destruct (Z.eqb_spec xb 0)];
      (eexists; split; [done|]; avl_solve).
Qed.

(** ** Insertion *)

Lemma climb_ins_ok p t h :
  ctx_ok p h (tsize t) → avl t → height t = h + 1 → tbal t ≠ 0 ∨ height t = 1 →
  ∃ t', climb_ins p t = Ok t' ∧ avl t' ∧ elements t' = before p ++ elements t ++ after p.
Proof.
  revert t h. induction p as [|f p IH]; intros t h; cbn [ctx_ok climb_ins before after].
  { intros _ Ht _ _. exists t. by rewrite app_nil_r. }
  intros (Hs & Hb & Hbe & Hz & Hp) Ht Hh Hn.
  set (b := f_b f + _). set (t1 := plug1 (with_bal b f) t).
  assert (He : elements t1 = if f_dir f then elements (f_sib f) ++ f_e f :: elements t
                             else elements t ++ f_e f :: elements (f_sib f)).
  { subst t1. by rewrite elements_plug1. }
  assert (Hbb : b = (if f_dir f then height t - height (f_sib f) else height (f_sib f) - height t)).
  { subst b. destruct (f_dir f); lia. }
  assert (Hel : before p ++ elements t1 ++ after p =
    (before p ++ (if f_dir f then elements (f_sib f) ++ [f_e f] else [])) ++ elements t ++
    (if f_dir f then [] else f_e f :: elements (f_sib f)) ++ after p).
  { rewrite He. destruct (f_dir f); rewrite <- !app_assoc; done. }
  destruct (Z.eqb_spec (f_b f) 0) as [E0|E0].
  - destruct (avl_plug1 (with_bal b f) t) as (H1 & H2 & H3); try done.
    { subst b. cbn. destruct (f_dir f); lia. }
    cbn in H2, H3. fold t1 in H1, H2, H3.
    destruct (IH t1 (1 + Z.max h (height (f_sib f)))) as (t' & -> & Ht' & He'); try done.
    + by rewrite H3.
    + destruct (f_dir f); lia.
    + left. subst t1. unfold plug1, node. cbn. destruct (f_dir f); cbn; subst b; lia.
    + exists t'. by rewrite <- Hel, <- He'.
  - assert (Hmid : ∃ t2, (if (-2 <? b) && (b <? 2) then Ok t1 else rebalance_ins t1) = Ok t2 ∧
      avl t2 ∧ height t2 = 1 + Z.max h (height (f_sib f)) ∧ tsize t2 = f_sz f ∧
      elements t2 = elements t1).
    { destruct (_ && _) eqn:Eb.
      - destruct (avl_plug1 (with_bal b f) t) as (H1 & H2 & H3); try done.
        { cbn. lia. }
        exists t1. cbn in H2, H3. split_and!; try done. fold t1 in H2. subst b. destruct (f_dir f); lia.
      - subst t1. unfold plug1, node. cbn [with_bal f_dir f_sib f_e f_b f_sz].
        pose proof (height_nonneg (f_sib f)).
        destruct (f_dir f).
        + assert (b = 2) as -> by (subst b; lia).
          destruct (rebalance_ins_right (f_sib f) (f_e f) (f_sz f) t) as (t' & -> & H1 & H2 & H3 & H4).
          { split_and!; try done; lia. } { destruct Hn; [done|lia]. }
          exists t'. split_and!; try done. lia.
        + assert (b = -2) as -> by (subst b; lia).
          destruct (rebalance_ins_left t (f_e f) (f_sz f) (f_sib f)) as (t' & -> & H1 & H2 & H3 & H4).
          { split_and!; try done; lia. } { destruct Hn; [done|lia]. }
          exists t'. split_and!; try done. lia. }
    destruct Hmid as (t2 & -> & Ht2 & Hh2 & Hs2 & He2). rewrite bind_ok.
    exists (plug p t2). split_and!; [done| |].
    + apply avl_plug; [done|]. by rewrite Hh2, Hs2.
    + by rewrite elements_plug, He2.
Qed.

(** ** Removal *)

(** The rotation after a removal, on the side [which] that lost a level. *)
Lemma rebalance_del_right l e sz r :
  leaning l e 2 sz r →
  if tbal r =? -1 then
    ∃ t', kavl_rotate2 (Node l e 2 sz r) false = Ok t' ∧
      rebalanced (Node l e 2 sz r) (height r) t'
  else ∃ l' e' b' sz' r', kavl_rotate1 (Node l e 2 sz r) false = Ok (Node l' e' b' sz' r') ∧
    if tbal r =? 0
    then rebalanced (Node l e 2 sz r) (height r + 1) (Node (set_bal 1 l') e' (-1) sz' r')
    else rebalanced (Node l e 2 sz r) (height r) (Node (set_bal 0 l') e' 0 sz' r').
Proof.
  intros Hlean. pose proof Hlean as (Hl & Hr & Hb & Hz). pose proof (height_nonneg l).
  destruct (Z.eqb_spec (tbal r) (-1)) as [E|].
  - destruct (rebalance_ins_right l e sz r Hlean ltac:(lia)) as (t' & Ht & Hres).
    exists t'. split; [|done]. rewrite <- Ht. unfold rebalance_ins. cbn [tbal child].
    change (2 <? 0) with false. cbn [negb child]. by rewrite E.
  - destruct r as [|rl re rb rsz rr]; [simpl in Hb; lia|]. cbn [tbal] in *.
    destruct Hr as (Hrl & Hrr & Hrb & Hrb' & Hrz). cbn [height] in Hb.
    cbn. do 5 eexists. split; [done|]. destruct (Z.eqb_spec rb 0); avl_solve.
Qed.

Lemma rebalance_del_left l e sz r :
  leaning l e (-2) sz r →
  if tbal l =? 1 then
    ∃ t', kavl_rotate2 (Node l e (-2) sz r) true = Ok t' ∧
      rebalanced (Node l e (-2) sz r) (height l) t'
  else ∃ l' e' b' sz' r', kavl_rotate1 (Node l e (-2) sz r) true = Ok (Node l' e' b' sz' r') ∧
    if tbal l =? 0
    then rebalanced (Node l e (-2) sz r) (height l + 1) (Node l' e' 1 sz' (set_bal (-1) r'))
    else rebalanced (Node l e (-2) sz r) (height l) (Node l' e' 0 sz' (set_bal 0 r')).
Proof.
  intros Hlean. pose proof Hlean as (Hl & Hr & Hb & Hz). pose proof (height_nonneg r).
  destruct (Z.eqb_spec (tbal l) 1) as [E|].
  - destruct (rebalance_ins_left l e sz r Hlean ltac:(lia)) as (t' & Ht & Hres).
    exists t'. split; [|done]. rewrite <- Ht. unfold rebalance_ins. cbn [tbal child].
    change (-2 <? 0) with true. cbn [negb child]. by rewrite E.
  - destruct l as [|ll le lb lsz lr]; [simpl in Hb; lia|]. cbn [tbal] in *.
    destruct Hl as (Hll & Hlr & Hlb & Hlb' & Hlz). cbn [height] in Hb.
    cbn. do 5 eexists. split; [done|]. destruct (Z.eqb_spec lb 0); avl_solve.
Qed.

(** The tree the path and a subtree should end up as. *)
Definition climbed (p : list (frame A)) (es : list A) (c : comp (tree A)) : Prop :=
  ∃ t', c = Ok t' ∧ avl t' ∧ elements t' = before p ++ es ++ after p.

Lemma climbed_cons (f : frame A) p es c :
  climbed p (if f_dir f then elements (f_sib f) ++ f_e f :: es
             else es ++ f_e f :: elements (f_sib f)) c → climbed (f :: p) es c.
Proof.
  intros (t' & E & Ht & He). exists t'. split_and!; [done|done|]. rewrite He.
  cbn [before after]. destruct (f_dir f); rewrite <- !app_assoc; done.
Qed.

Lemma climbed_plug p t es :
  avl t → ctx_ok p (height t) (tsize t) → elements t = es → climbed p es (Ok (plug p t)).
Proof.
  intros Ht Hp <-. exists (plug p t). split_and!; [done|by apply avl_plug|apply elements_plug].
Qed.

Lemma climb_del_ok p t :
  ctx_ok p (height t + 1) (tsize t) → avl t → climbed p (elements t) (climb_del p t).
Proof.
  revert t. induction p as [|f p IH]; intros t; cbn [ctx_ok climb_del].
  { intros _ Ht. exists t. by rewrite app_nil_r. }
  intros (Hs & Hb & Hbe & Hz & Hp) Ht. apply climbed_cons.
  set (b1 := if f_dir f then -1 else 1). set (b := f_b f + b1).
  set (q := plug1 (with_bal b f) t).
  assert (He : elements q = if f_dir f then elements (f_sib f) ++ f_e f :: elements t
                            else elements t ++ f_e f :: elements (f_sib f)).
  { subst q. by rewrite elements_plug1. }
  rewrite <- He. clear He.
  assert (Hgo : ∀ q', rebalanced q (1 + Z.max (height t + 1) (height (f_sib f))) q' →
    climbed p (elements q) (Ok (plug p q'))).
  { intros q' (H1 & H2 & H3 & H4). apply climbed_plug; [done| |done].
    rewrite H2, H3. replace (tsize q) with (f_sz f); [done|].
    subst q. unfold plug1, node. cbn. by destruct (f_dir f). }
  assert (Hup : ∀ q', rebalanced q (Z.max (height t + 1) (height (f_sib f))) q' →
    climbed p (elements q) (climb_del p q')).
  { intros q' (H1 & H2 & H3 & H4). rewrite <- H4. apply IH; [|done].
    rewrite H2, H3. replace (tsize q) with (f_sz f);
      [by rewrite Z.add_comm|]. subst q. unfold plug1, node. cbn. by destruct (f_dir f). }
  assert (Hb' : b = if f_dir f then height t - height (f_sib f) else height (f_sib f) - height t).
  { subst b b1. destruct (f_dir f); lia. }
  assert (Hq : -1 <= b <= 1 → rebalanced q (1 + Z.max (height t) (height (f_sib f))) q).
  { intros Hr. by destruct (avl_plug1 (with_bal b f) t) as (H1 & H2 & H3). }
  destruct (Z.eqb_spec b b1) as [E1|N1].
  { apply Hgo. replace (height t + 1) with (height (f_sib f)) by (subst b b1; destruct (f_dir f); lia).
    replace (Z.max (height (f_sib f)) (height (f_sib f))) with (Z.max (height t) (height (f_sib f)))
      by (subst b b1; destruct (f_dir f); lia).
    apply Hq. subst b1. destruct (f_dir f); lia. }
  destruct (Z.eqb_spec b (2 * b1)) as [E2|N2].
  2: { apply Hup. replace (Z.max (height t + 1) (height (f_sib f))) with
      (1 + Z.max (height t) (height (f_sib f))) by (subst b b1; destruct (f_dir f); lia).
    apply Hq. subst b1 b. destruct (f_dir f); lia. }
  clear Hq. pose proof (height_nonneg t).
  assert (Hm : Z.max (height t + 1) (height (f_sib f)) = height (f_sib f)).
  { subst b b1. destruct (f_dir f); lia. }
  rewrite Hm in Hgo, Hup.
  subst q b1 b. unfold plug1, node in *. cbn [with_bal f_dir f_sib f_e f_b f_sz] in *.
  destruct (f_dir f); cbn [negb child].
  - rewrite E2 in *. change (2 * -1) with (-2) in *.
    pose proof (rebalance_del_left (f_sib f) (f_e f) (f_sz f) t) as Hrot.
    change (- -1) with 1. destruct (tbal (f_sib f) =? 1).
    + destruct Hrot as (t' & -> & Hres); [split_and!; (done || lia)|]. rewrite bind_ok. auto.
    + destruct Hrot as (l' & e' & b' & sz' & r' & -> & Hres); [split_and!; (done || lia)|].
      rewrite bind_ok. destruct (tbal (f_sib f) =? 0); [|by apply Hup].
      apply Hgo. by rewrite Z.add_comm.
  - rewrite E2 in *. change (2 * 1) with 2 in *.
    pose proof (rebalance_del_right t (f_e f) (f_sz f) (f_sib f)) as Hrot.
    change (- (1)) with (-1). destruct (tbal (f_sib f) =? -1).
    + destruct Hrot as (t' & -> & Hres); [split_and!; (done || lia)|]. rewrite bind_ok. auto.
    + destruct Hrot as (l' & e' & b' & sz' & r' & -> & Hres); [split_and!; (done || lia)|].
      rewrite bind_ok. destruct (tbal (f_sib f) =? 0); [|by apply Hup].
      apply Hgo. by rewrite Z.add_comm.
Qed.

(** Taking out the leftmost node below [q]. *)
Lemma leftmost_ok (ql : tree A) qe qb qsz (qr : tree A) q :
  avl (Node ql qe qb qsz qr) → ctx_ok q (height (Node ql qe qb qsz qr)) (qsz - 1) →
  let '(me, mr, q') := leftmost ql qe qb qsz qr q in
  avl mr ∧ ctx_ok q' (height mr + 1) (tsize mr) ∧ before q' = before q ∧
  elements (Node ql qe qb qsz qr) ++ after q = me :: elements mr ++ after q'.
Proof.
  revert qe qb qsz qr q. induction ql as [|l IHl e b sz r IHr]; intros qe qb qsz qr q Hq Hc; cbn [leftmost].
  - destruct Hq as (_ & Hr & Hb & Hb' & Hz). cbn [height tsize elements] in *.
    split_and!; try done. pose proof (height_nonneg qr).
    replace (height qr + 1) with (1 + Z.max 0 (height qr)) by lia.
    replace (tsize qr) with (qsz - 1) by lia. done.
  - pose proof Hq as (Hl & Hr & Hb & Hb' & Hz).
    specialize (IHl e b sz r (Frame false qr qe qb (qsz - 1) :: q) Hl).
    destruct (leftmost l e b sz r _) as [[me mr] q'].
    destruct IHl as (H1 & H2 & H3 & H4).
    { cbn [ctx_ok f_sib f_b f_dir f_sz]. cbn [tsize] in Hz. split_and!; try done; lia. }
    split_and!; try done.
    + rewrite H3. cbn. by rewrite app_nil_r.
    + rewrite <- H4. cbn [elements after f_dir f_e f_sib].
      rewrite <- !app_assoc. done.
Qed.

Lemma leftmost_app (ql : tree A) qe qb qsz (qr : tree A) q p :
  leftmost ql qe qb qsz qr (q ++ p) =
    let '(me, mr, q') := leftmost ql qe qb qsz qr q in (me, mr, q' ++ p).
Proof.
  revert qe qb qsz qr q. induction ql as [|l IHl e b sz r IHr]; intros; cbn [leftmost]; [done|].
  apply (IHl e b sz r (Frame false qr qe qb (qsz - 1) :: q)).
Qed.

(** The element of a frame does not matter for balance. *)
Lemma ctx_ok_e q d (s : tree A) (e e' : A) b sz p h k :
  ctx_ok (q ++ Frame d s e b sz :: p) h k → ctx_ok (q ++ Frame d s e' b sz :: p) h k.
Proof. revert h k. induction q as [|f q IH]; intros h k; simpl; [done|].
  intros (? & ? & ? & ? & Hp%IH). tauto. Qed.

Lemma before_app (q p : list (frame A)) : before (q ++ p) = before p ++ before q.
Proof.
  induction q as [|f q IH]; simpl; [by rewrite app_nil_r|]. by rewrite IH, app_assoc.
Qed.
Lemma after_app (q p : list (frame A)) : after (q ++ p) = after q ++ after p.
Proof. induction q as [|f q IH]; simpl; [done|]. by rewrite IH, app_assoc. Qed.

Lemma unlink_ok l e b sz r p :
  avl (Node l e b sz r) → ctx_ok p (height (Node l e b sz r)) (sz - 1) →
  climbed p (elements l ++ elements r) (unlink l b sz r p).
Proof.
  intros Ht Hp. pose proof Ht as (Hl & Hr & Hb & Hb' & Hz). unfold unlink.
  destruct r as [|rl re rb rsz rr].
  - cbn [elements]. rewrite app_nil_r. apply climb_del_ok; [|done]. cbn [height tsize] in *.
    pose proof (height_nonneg l). replace (tsize l) with (sz - 1) by lia.
    by replace (height l + 1) with (1 + Z.max (height l) 0) by lia.
  - pose proof (leftmost_ok rl re rb rsz rr [Frame true l e b (sz - 1)] Hr) as Hm.
    pose proof (leftmost_ok rl re rb rsz rr (Frame true l e b (sz - 1) :: p) Hr) as Hm2.
    pose proof (leftmost_app rl re rb rsz rr [] (Frame true l e b (sz - 1) :: p)) as Ha.
    pose proof (leftmost_app rl re rb rsz rr [] [Frame true l e b (sz - 1)]) as Ha1.
    cbn [app] in Ha, Ha1. rewrite Ha in Hm2. rewrite Ha1 in Hm. clear Ha Ha1.
    destruct (leftmost rl re rb rsz rr []) as [[me mr] q].
    assert (Hsz : rsz = tsize (Node rl re rb rsz rr)) by done.
    destruct Hm2 as (H1 & H2 & H3 & H4).
    { cbn [ctx_ok f_sib f_b f_dir f_sz]. split_and!; try done; try lia.
      cbn [height] in Hp. cbn [height]. by rewrite Z.max_comm. }
    destruct (climb_del_ok (q ++ Frame true l me b (sz - 1) :: p) mr) as (t' & E & Ht' & He).
    { by eapply ctx_ok_e. } { done. }
    exists t'. split_and!; [done|done|]. rewrite He.
    rewrite before_app in H3 |- *. rewrite after_app in H4 |- *. cbn [before after f_dir f_sib f_e] in *.
    assert (Hb0 : before q = []).
    { destruct (before q) as [|y ys]; [done|]. exfalso. apply (f_equal length) in H3.
      rewrite !length_app in H3. simpl in H3. lia. }
    rewrite Hb0, app_nil_r. rewrite app_nil_l in *. rewrite <- !app_assoc.
    cbn [app]. do 2 f_equal. rewrite H4. done.
Qed.

End kavl_lemmas.

(** * The tree: searching *)

Section kavl_search.
Context {A : Type} (cmp : A → A → Z).
Implicit Types (t : tree A) (x e : A) (l : list A).

Lemma elem_mid l1 e l2 : e ∈ l1 ++ e :: l2.
Proof. apply elem_of_app. right. left. Qed.
Lemma elem_left y l1 e l2 : y ∈ l1 → y ∈ l1 ++ e :: l2.
Proof. intros. apply elem_of_app. by left. Qed.
Lemma elem_right y l1 e l2 : y ∈ l2 → y ∈ l1 ++ e :: l2.
Proof. intros. apply elem_of_app. right. by right. Qed.

(** The comparison with [x] does not rise along the list: the elements below [x],
    then those equal to it, then those above. *)
Definition cuts x l : Prop :=
  StronglySorted (λ y z, (cmp x y <= 0 → cmp x z <= 0) ∧ (cmp x y < 0 → cmp x z < 0)) l.

Lemma cuts_app x l1 l2 :
  cuts x (l1 ++ l2) → cuts x l1 ∧ cuts x l2 ∧
  ∀ y z, y ∈ l1 → z ∈ l2 → (cmp x y <= 0 → cmp x z <= 0) ∧ (cmp x y < 0 → cmp x z < 0).
Proof.
  unfold cuts. rewrite StronglySorted_app. tauto.
Qed.

Lemma cuts_node x (l : tree A) e b sz r :
  cuts x (elements (Node l e b sz r)) → cuts x (elements l) ∧ cuts x (elements r) ∧
  (0 < cmp x e → Forall (λ y, 0 < cmp x y) (elements l)) ∧
  (cmp x e < 0 → Forall (λ y, cmp x y < 0) (elements r)).
Proof.
  cbn [elements]. intros H. apply cuts_app in H as (Hl & Hr & Hc).
  change (e :: elements r) with ([e] ++ elements r) in Hr.
  apply cuts_app in Hr as (_ & Hr & Hc'). split_and!; [done|done| |].
  - intros He. apply Forall_forall. intros y Hy.
    destruct (Hc y e Hy ltac:(left)) as [Hc1 _]. lia.
  - intros He. apply Forall_forall. intros y Hy.
    destruct (Hc' e y ltac:(by left) Hy) as [_ Hc2]. lia.
Qed.

(** [kavl_find] finds an equal element whenever there is one. *)
Lemma kavl_find_ok t x :
  cuts x (elements t) →
  match kavl_find cmp t x with
  | Some e => e ∈ elements t ∧ cmp x e = 0
  | None => Forall (λ y, cmp x y ≠ 0) (elements t)
  end.
Proof.
  induction t as [|l IHl e b sz r IHr]; cbn [kavl_find]; [constructor|].
  intros Hc. destruct (cuts_node _ _ _ _ _ _ Hc) as (Hl & Hr & Hlt & Hgt). cbn [elements].
  destruct (Z.ltb_spec (cmp x e) 0); [|destruct (Z.ltb_spec 0 (cmp x e))].
  - specialize (IHl Hl). destruct (kavl_find cmp l x); [by split; [apply elem_left, IHl|apply IHl]|].
    apply Forall_app_2; [done|]. constructor; [lia|].
    eapply Forall_impl; [by apply Hgt|]. cbv beta. lia.
  - specialize (IHr Hr). destruct (kavl_find cmp r x); [by split; [apply elem_right, IHr|apply IHr]|].
    apply Forall_app_2; [|constructor; [lia|done]].
    eapply Forall_impl; [by apply Hlt|]. cbv beta. lia.
  - split; [apply elem_mid|lia].
Qed.

Lemma descend_ok x t p :
  cuts x (elements t) → avl t → ctx_ok p (height t) (tsize t) →
  match descend cmp x t p with
  | inl e => e ∈ elements t ∧ cmp x e = 0
  | inr q => ctx_ok q 0 0 ∧ ∃ a b, elements t = a ++ b ∧ before q = before p ++ a ∧
      after q = b ++ after p ∧ Forall (λ y, 0 < cmp x y) a ∧ Forall (λ y, cmp x y < 0) b
  end.
Proof.
  revert p. induction t as [|l IHl e b sz r IHr]; intros p Hc Ht Hp; cbn [descend].
  { split; [done|]. exists [], [].
    split_and!; rewrite ?app_nil_r; (done || constructor). }
  destruct (cuts_node _ _ _ _ _ _ Hc) as (Hl & Hr & Hlt & Hgt). cbn [elements].
  destruct (Z.eqb_spec (cmp x e) 0); [by split; [apply elem_mid|]|].
  destruct (Z.ltb_spec 0 (cmp x e)).
  - destruct (ctx_down true _ e b sz r l p eq_refl Ht Hp) as [Htr Hpr].
    specialize (IHr _ Hr Htr Hpr).
    destruct (descend _ _ _ _); [by split; [apply elem_right, IHr|apply IHr]|].
    destruct IHr as (Hq & a1 & b1 & Ee & Eb & Ea & Fa & Fb). split; [done|].
    exists (elements l ++ e :: a1), b1. rewrite Ee, Eb, Ea. cbn. split_and!; try done.
    + by rewrite <- !app_assoc.
    + by rewrite <- !app_assoc.
    + apply Forall_app_2; [by apply Hlt|by constructor].
  - destruct (ctx_down false _ e b sz l r p eq_refl Ht Hp) as [Htl Hpl].
    specialize (IHl _ Hl Htl Hpl).
    destruct (descend _ _ _ _); [by split; [apply elem_left, IHl|apply IHl]|].
    destruct IHl as (Hq & a1 & b1 & Ee & Eb & Ea & Fa & Fb). split; [done|].
    exists a1, (b1 ++ e :: elements r). rewrite Ee, Eb, Ea. cbn. split_and!; try done.
    + by rewrite <- !app_assoc.
    + by rewrite app_nil_r.
    + by rewrite <- !app_assoc.
    + apply Forall_app_2; [done|constructor; [lia|]]. apply Hgt. lia.
Qed.

Lemma ctx_ok_grow (p : list (frame A)) h s : ctx_ok p h s → ctx_ok (map (add_size 1) p) h (s + 1).
Proof.
  revert h s. induction p as [|f p IH]; intros h s; simpl; [done|].
  intros (H1 & H2 & H3 & H4 & H5). split_and!; try done; try lia. by apply IH.
Qed.

(** [kavl_insert] keeps the tree balanced and returns an equal element, or puts the
    new one at its place in the order. *)
Lemma kavl_insert_ok t x :
  avl t → cuts x (elements t) →
  (∃ e, kavl_insert cmp t x = Ok (t, e, false) ∧ e ∈ elements t ∧ cmp x e = 0) ∨
  (∃ t' a b, kavl_insert cmp t x = Ok (t', x, true) ∧ avl t' ∧ elements t = a ++ b ∧
     elements t' = a ++ x :: b ∧ Forall (λ y, 0 < cmp x y) a ∧ Forall (λ y, cmp x y < 0) b).
Proof.
  intros Ht Hc. pose proof (descend_ok x t [] Hc Ht I) as Hd. unfold kavl_insert.
  destruct (descend cmp x t []) as [e|q]; [left; eauto|right].
  destruct Hd as (Hq & a & b & Ee & Eb & Ea & Fa & Fb). apply ctx_ok_grow in Hq.
  destruct (climb_ins_ok _ (Node Leaf x 0 1 Leaf) 0 Hq) as (t' & -> & Ht' & He');
    [by repeat split|done|by right|].
  exists t', a, b. rewrite bind_ok. split_and!; try done.
  rewrite He', before_add_size, after_add_size, Eb, Ea. cbn. by rewrite app_nil_r.
Qed.

Lemma erase_at_ok x t p :
  cuts x (elements t) → avl t → ctx_ok p (height t) (tsize t - 1) →
  (∃ t' a e b, erase_at cmp x t p = Ok (t', Some e) ∧ avl t' ∧ cmp x e = 0 ∧
     elements t = a ++ e :: b ∧ elements t' = before p ++ (a ++ b) ++ after p) ∨
  (erase_at cmp x t p = Ok (plug (map (add_size 1) p) t, None) ∧
   Forall (λ y, cmp x y ≠ 0) (elements t)).
Proof.
  revert p. induction t as [|l IHl e b sz r IHr]; intros p Hc Ht Hp; cbn [erase_at]; [by right|].
  destruct (cuts_node _ _ _ _ _ _ Hc) as (Hl & Hr & Hlt & Hgt). cbn [elements].
  pose proof Ht as (Htl & Htr & Hb & Hb' & Hz).
  destruct (Z.eqb_spec (cmp x e) 0).
  { left. destruct (unlink_ok l e b sz r p Ht Hp) as (t' & -> & Ht' & He').
    rewrite bind_ok. by exists t', (elements l), e, (elements r). }
  destruct (Z.ltb_spec 0 (cmp x e)).
  - destruct (IHr (Frame true l e b (sz - 1) :: p) Hr Htr) as
      [(t' & a1 & e1 & b1 & -> & Ht' & He & E1 & E2)|[-> Hno]].
    { cbn [ctx_ok f_sib f_b f_dir f_sz]. split_and!; try done; try lia.
      cbn [height tsize] in Hp. by rewrite Z.max_comm. }
    + left. exists t', (elements l ++ e :: a1), e1, b1. split_and!; try done.
      * rewrite E1. by rewrite <- !app_assoc.
      * rewrite E2. cbn. by rewrite <- !app_assoc.
    + right. split.
      * cbn. unfold plug1, add_size, node. cbn. do 4 f_equal. lia.
      * apply Forall_app_2; [|constructor; [lia|done]].
        eapply Forall_impl; [by apply Hlt|]. cbv beta. lia.
  - destruct (IHl (Frame false r e b (sz - 1) :: p) Hl Htl) as
      [(t' & a1 & e1 & b1 & -> & Ht' & He & E1 & E2)|[-> Hno]].
    { cbn [ctx_ok f_sib f_b f_dir f_sz]. cbn [height tsize] in Hp. split_and!; try done; lia. }
    + left. exists t', a1, e1, (b1 ++ e :: elements r). split_and!; try done.
      * rewrite E1. by rewrite <- !app_assoc.
      * rewrite E2. cbn. by rewrite app_nil_r, <- !app_assoc.
    + right. split.
      * cbn. unfold plug1, add_size, node. cbn. do 4 f_equal. lia.
      * apply Forall_app_2; [done|constructor; [lia|]].
        eapply Forall_impl; [apply Hgt; lia|]. cbv beta. lia.
Qed.

(** [kavl_erase] keeps the tree balanced and takes out one equal element, if there is
    one. *)
Lemma kavl_erase_ok t x :
  avl t → cuts x (elements t) →
  (∃ t' a e b, kavl_erase cmp t x = Ok (t', Some e) ∧ avl t' ∧ cmp x e = 0 ∧
     elements t = a ++ e :: b ∧ elements t' = a ++ b) ∨
  (kavl_erase cmp t x = Ok (t, None) ∧ Forall (λ y, cmp x y ≠ 0) (elements t)).
Proof.
  intros Ht Hc. unfold kavl_erase. destruct (erase_at_ok x t [] Hc Ht I) as
    [(t' & a & e & b & -> & ? & ? & ? & E)|[-> ?]]; [left|by right].
  exists t', a, e, b. cbn in E. by rewrite app_nil_r in E.
Qed.

(** [kavl_erase_first] takes out the first element. *)
Lemma erase_first_at_ok (l : tree A) e b sz r p :
  avl (Node l e b sz r) → ctx_ok p (height (Node l e b sz r)) (sz - 1) →
  ∃ t' e1 es, erase_first_at (Node l e b sz r) p = Ok (t', Some e1) ∧ avl t' ∧
    elements (Node l e b sz r) = e1 :: es ∧ elements t' = before p ++ es ++ after p.
Proof.
  revert e b sz r p. induction l as [|l IHl e0 b0 sz0 r0 _]; intros e b sz r p Ht Hp.
  - cbn [erase_first_at]. destruct (unlink_ok Leaf e b sz r p Ht Hp) as (t' & -> & Ht' & He').
    rewrite bind_ok. by exists t', e, (elements r).
  - pose proof Ht as (Htl & Htr & Hb & Hb' & Hz).
    change (erase_first_at (Node (Node l e0 b0 sz0 r0) e b sz r) p) with
      (erase_first_at (Node l e0 b0 sz0 r0) (Frame false r e b (sz - 1) :: p)).
    destruct (IHl e0 b0 sz0 r0 (Frame false r e b (sz - 1) :: p) Htl) as
      (t' & e1 & es & -> & Ht' & E1 & E2).
    { cbn [ctx_ok f_sib f_b f_dir f_sz]. cbn [tsize] in Hz. split_and!; try done; lia. }
    exists t', e1, (es ++ e :: elements r). split_and!; try done.
    + change (elements (Node (Node l e0 b0 sz0 r0) e b sz r)) with
        (elements (Node l e0 b0 sz0 r0) ++ e :: elements r). by rewrite E1.
    + rewrite E2. cbn. by rewrite app_nil_r, <- !app_assoc.
Qed.
End kavl_search.

(** * Orders by prefix

    The three comparators order keys lexicographically and call two keys equal when
    one is a prefix of the other.  [Keyed] is what the pools need of a comparator;
    its instances give the keys. *)

Fixpoint prefix_cmp (a b : list Z) : Z :=
  match a, b with
  | x :: a, y :: b => if x <? y then -1 else if y <? x then 1 else prefix_cmp a b
  | _, _ => 0
  end.

Lemma prefix_cmp_refl a : prefix_cmp a a = 0.
Proof. induction a as [|x a IH]; simpl; [done|]. by rewrite Z.ltb_irrefl. Qed.

Lemma prefix_cmp_opp a b : prefix_cmp b a = - prefix_cmp a b.
Proof.
  revert b. induction a as [|x a IH]; intros [|y b]; simpl; try done.
  destruct (Z.ltb_spec x y), (Z.ltb_spec y x); try lia; auto.
Qed.

Lemma prefix_cmp_0 a b : prefix_cmp a b = 0 ↔ a `prefix_of` b ∨ b `prefix_of` a.
Proof.
  split.
  - revert b. induction a as [|x a IH]; intros [|y b]; simpl; intros H;
      try (by left; apply prefix_nil); try (by right; apply prefix_nil).
    destruct (Z.ltb_spec x y), (Z.ltb_spec y x); try lia.
    assert (x = y) as -> by lia. destruct (IH _ H); [left|right]; by apply prefix_cons.
  - intros [[c ->]|[c ->]].
    + induction a as [|x a IH]; simpl; [by destruct c|]. by rewrite Z.ltb_irrefl.
    + rewrite prefix_cmp_opp. induction b as [|x b IH]; simpl; [by destruct c|].
      by rewrite Z.ltb_irrefl.
Qed.

(** Two unrelated keys cut every third one the same way. *)
Lemma prefix_cmp_cuts x y z :
  prefix_cmp y z < 0 →
  (prefix_cmp x y <= 0 → prefix_cmp x z <= 0) ∧ (prefix_cmp x y < 0 → prefix_cmp x z < 0).
Proof.
  revert y z. induction x as [|a x IH]; intros [|b y] [|c z]; simpl; try lia.
  destruct (Z.ltb_spec b c), (Z.ltb_spec c b), (Z.ltb_spec a b), (Z.ltb_spec b a),
    (Z.ltb_spec a c), (Z.ltb_spec c a); try lia. apply IH.
Qed.

(** Two keys that are both related to a third on the short side are related. *)
Lemma prefix_cmp_below x y z :
  prefix_cmp x y = 0 → prefix_cmp x z = 0 → (length y <= length x)%nat → prefix_cmp y z = 0.
Proof.
  rewrite !prefix_cmp_0. intros Hxy Hxz Hl.
  assert (Hy : y `prefix_of` x).
  { destruct Hxy as [Hp|]; [|done]. apply prefix_length_eq in Hp; [by subst|done]. }
  destruct Hxz as [Hz|Hz]; [left; by etrans|].
  by apply (prefix_weak_total _ _ x).
Qed.

Class Keyed {A} (cmp : A → A → Z) (dom : A → Prop) (key : A → list Z) := {
  keyed_sgn p q : dom p → dom q → Z.sgn (cmp p q) = prefix_cmp (key p) (key q)
}.

Section keyed.
Context {A : Type} (cmp : A → A → Z) (dom : A → Prop) (key : A → list Z) `{!Keyed cmp dom key}.
Implicit Types (x y z : A) (l : list A).

Lemma keyed_lt x y : dom x → dom y → cmp x y < 0 ↔ prefix_cmp (key x) (key y) < 0.
Proof. intros Hx Hy. rewrite <- (keyed_sgn x y Hx Hy). lia. Qed.
Lemma keyed_eq x y : dom x → dom y → cmp x y = 0 ↔ prefix_cmp (key x) (key y) = 0.
Proof. intros Hx Hy. rewrite <- (keyed_sgn x y Hx Hy). lia. Qed.
Lemma keyed_sym x y : dom x → dom y → (cmp y x < 0 ↔ 0 < cmp x y) ∧ (cmp y x = 0 ↔ cmp x y = 0).
Proof.
  intros Hx Hy. pose proof (keyed_sgn x y Hx Hy). pose proof (keyed_sgn y x Hy Hx) as H1.
  rewrite prefix_cmp_opp in H1. lia.
Qed.
Lemma keyed_refl x : dom x → cmp x x = 0.
Proof. intros. apply keyed_eq; [done..|]. apply prefix_cmp_refl. Qed.

(** In order, and no two related. *)
Definition in_order l : Prop := StronglySorted (λ y z, cmp y z < 0) l ∧ Forall dom l.

Lemma in_order_cuts x l : dom x → in_order l → cuts cmp x l.
Proof.
  intros Hx [Hs Hd]. unfold cuts. induction Hs as [|y l Hs IH Hy]; [constructor|].
  inversion Hd as [|? ? Hdy Hdl]; subst. constructor; [auto|].
  apply Forall_forall. intros z Hz. rewrite Forall_forall in Hy, Hdl.
  specialize (Hy z Hz). specialize (Hdl z Hz). apply (keyed_lt y z Hdy Hdl) in Hy.
  pose proof (keyed_sgn x y Hx Hdy). pose proof (keyed_sgn x z Hx Hdl).
  destruct (prefix_cmp_cuts (key x) (key y) (key z) Hy). lia.
Qed.

Lemma in_order_insert x a b :
  dom x → in_order (a ++ b) → Forall (λ y, 0 < cmp x y) a → Forall (λ y, cmp x y < 0) b →
  in_order (a ++ x :: b).
Proof.
  intros Hx [Hs Hd] Ha Hb. apply Forall_app in Hd as [Hda Hdb].
  rewrite StronglySorted_app in Hs. destruct Hs as (Hab & Hsa & Hsb).
  split; [|apply Forall_app; by split; [|constructor]].
  rewrite StronglySorted_app. split_and!; [|done|by constructor].
  intros y z Hy Hz. apply elem_of_cons in Hz as [->|Hz]; [|by apply Hab].
  rewrite Forall_forall in Ha, Hda. apply keyed_sym; auto.
Qed.

Lemma in_order_remove a e b : in_order (a ++ e :: b) → in_order (a ++ b).
Proof.
  intros [Hs Hd]. rewrite StronglySorted_app, StronglySorted_cons in Hs.
  destruct Hs as (Hab & Hsa & Hb & Hsb). apply Forall_app in Hd as [Hda Hdb].
  inversion Hdb; subst. split; [|by apply Forall_app].
  rewrite StronglySorted_app. split_and!; [|done|done]. intros y z Hy Hz.
  apply Hab; [done|]. by right.
Qed.

(** Only [e] itself is related to [e] in an ordered list that holds it. *)
Lemma in_order_mid a e b :
  in_order (a ++ e :: b) → Forall (λ y, cmp e y ≠ 0) a ∧ Forall (λ y, cmp e y ≠ 0) b.
Proof.
  intros [Hs Hd]. rewrite StronglySorted_app, StronglySorted_cons in Hs.
  destruct Hs as (Hab & Hsa & Hb & Hsb). apply Forall_app in Hd as [Hda Hdb].
  inversion Hdb as [|? ? Hde Hdb']; subst. split.
  - rewrite Forall_forall in Hda |- *. intros y Hy. specialize (Hab y e Hy ltac:(left)).
    pose proof (keyed_sym e y Hde (Hda y Hy)). lia.
  - eapply Forall_impl; [exact Hb|]. cbv beta. lia.
Qed.
End keyed.

(** * The three orders *)

Lemma bytes_cmp_prefix a b : bytes_cmp a b = prefix_cmp a b.
Proof. reflexivity. Qed.

Lemma prefix_cmp_sgn a b : Z.sgn (prefix_cmp a b) = prefix_cmp a b.
Proof.
  revert b. induction a as [|x a IH]; intros [|y b]; simpl; try done.
  destruct (x <? y), (y <? x); try done.
Qed.

Lemma prefix_cmp_app a b c d : length a = length b →
  prefix_cmp (a ++ c) (b ++ d) = if prefix_cmp a b =? 0 then prefix_cmp c d else prefix_cmp a b.
Proof.
  revert b. induction a as [|x a IH]; intros [|y b] H; simpl in *; try done.
  destruct (x <? y), (y <? x); try done. apply IH. lia.
Qed.

(** Only as much as the shorter list matters. *)
Lemma prefix_cmp_take a b m : m = Nat.min (length a) (length b) →
  prefix_cmp a b = prefix_cmp (take m a) (take m b).
Proof.
  intros ->. revert b. induction a as [|x a IH]; intros [|y b]; simpl; try done.
  destruct (x <? y), (y <? x); try done.
Qed.

(** ** Byte strings: the length decides first. *)

Definition byte_dom (p : elem) : Prop :=
  e_cmp_type p = CMP_BYTES ∧ 0 <= e_len p <= blen (e_data p).
Definition byte_key (p : elem) : list Z := e_len p :: sub (e_data p) 0 (e_len p).

#[export] Instance byte_keyed : Keyed scmp byte_dom byte_key.
Proof.
  constructor. intros p q [Hp _] [Hq _]. unfold scmp, byte_cmp, byte_key, mem_cmp. rewrite Hp.
  change (CMP_BYTES =? CMP_BITS) with false. change (CMP_BYTES =? CMP_HOST) with false.
  cbv beta iota. cbn [prefix_cmp].
  destruct (Z.eqb_spec (e_len p) (e_len q)) as [E|], (Z.ltb_spec (e_len p) (e_len q)),
    (Z.ltb_spec (e_len q) (e_len p)); try lia; try done.
  rewrite <- E, bytes_cmp_prefix. apply prefix_cmp_sgn.
Qed.

Lemma byte_key_len p q : byte_dom p → byte_dom q → scmp p q = 0 →
  (e_len p <= e_len q ↔ (length (byte_key p) <= length (byte_key q))%nat).
Proof.
  intros Hp Hq H. rewrite (keyed_eq scmp byte_dom byte_key) in H by done.
  cbn [byte_key prefix_cmp] in H. unfold byte_key. cbn [length].
  destruct Hp as [_ Hp], Hq as [_ Hq].
  pose proof (blen_sub (e_data p) 0 (e_len p)). pose proof (blen_sub (e_data q) 0 (e_len q)).
  unfold blen in *. lia.
Qed.

Lemma byte_dom_probe hdr p : byte_dom p → e_cmp_type p = mp_cmp_type hdr →
  byte_dom (new_elem hdr (e_data p) (e_len p)) ∧
  byte_key (new_elem hdr (e_data p) (e_len p)) = byte_key p.
Proof. intros [H1 H2] Ht. split; [|done]. split; [|done]. cbn. congruence. Qed.

(** ** Bit strings: most significant bit first. *)

Fixpoint bits (w : nat) (x : Z) : list Z :=
  match w with O => [] | S w => bits w (x / 2) ++ [x mod 2] end.

Lemma length_bits w x : length (bits w x) = w.
Proof. revert x. induction w as [|w IH]; intros x; simpl; [done|]. rewrite length_app, IH. simpl. lia. Qed.

Lemma bits_cmp w x y : 0 <= x < 2 ^ Z.of_nat w → 0 <= y < 2 ^ Z.of_nat w →
  prefix_cmp (bits w x) (bits w y) = Z.sgn (x - y).
Proof.
  revert x y. induction w as [|w IH]; intros x y Hx Hy.
  { simpl in *. assert (x = y) by lia. subst. simpl. by rewrite Z.sub_diag. }
  rewrite Nat2Z.inj_succ, Z.pow_succ_r in Hx, Hy by lia. cbn [bits].
  rewrite prefix_cmp_app by (by rewrite !length_bits).
  rewrite IH by (split; [apply Z.div_pos; lia|apply Z.div_lt_upper_bound; lia]).
  pose proof (Z.div_mod x 2). pose proof (Z.div_mod y 2).
  pose proof (Z.mod_pos_bound x 2). pose proof (Z.mod_pos_bound y 2). cbn [prefix_cmp].
  destruct (Z.eqb_spec (Z.sgn (x / 2 - y / 2)) 0), (Z.ltb_spec (x mod 2) (y mod 2)),
    (Z.ltb_spec (y mod 2) (x mod 2)); lia.
Qed.

Lemma take_bits d w x : (d <= w)%nat → take d (bits w x) = bits d (x / 2 ^ Z.of_nat (w - d)).
Proof.
  revert x. induction w as [|w IH]; intros x Hd.
  { assert (d = O) as -> by lia. done. }
  destruct (decide (d = S w)) as [->|].
  - rewrite Nat.sub_diag, Z.div_1_r. apply take_ge. by rewrite length_bits.
  - cbn [bits]. rewrite take_app_le by (rewrite length_bits; lia). rewrite IH by lia.
    rewrite Z.div_div by (try apply Z.pow_pos_nonneg; lia).
    rewrite <- Z.pow_succ_r by lia. do 3 f_equal. lia.
Qed.

(** The bits of a byte string. *)
Definition all_bits (b : bytes) : list Z := flat_map (bits 8) b.

Lemma length_all_bits b : Z.of_nat (length (all_bits b)) = 8 * blen b.
Proof.
  unfold all_bits, blen. induction b as [|x b IH]; [done|]. cbn [flat_map].
  rewrite length_app, length_bits. cbn [length]. lia.
Qed.

Lemma all_bits_cmp a b : bytes_wf a → bytes_wf b →
  prefix_cmp (all_bits a) (all_bits b) = prefix_cmp a b.
Proof.
  intros Ha. revert b. induction Ha as [|x a Hx Ha IH]; intros b Hb; [done|].
  destruct Hb as [|y b Hy Hb]; [by destruct (all_bits (x :: a))|].
  cbn [all_bits flat_map prefix_cmp]. rewrite prefix_cmp_app by (by rewrite !length_bits).
  unfold is_byte in *. rewrite bits_cmp by (change (2 ^ Z.of_nat 8) with 256; lia).
  fold (all_bits a) (all_bits b). rewrite IH by done.
  destruct (Z.ltb_spec x y), (Z.ltb_spec y x), (Z.eqb_spec (Z.sgn (x - y)) 0); lia.
Qed.

Lemma take_all_bits b n : 0 <= n <= 8 * blen b →
  take (Z.to_nat n) (all_bits b) =
    all_bits (sub b 0 (n / 8)) ++
    if n mod 8 =? 0 then [] else bits (Z.to_nat (n mod 8)) (bat b (n / 8) / 2 ^ (8 - n mod 8)).
Proof.
  rewrite sub_take. revert n. induction b as [|x b IH]; intros n Hn.
  { rewrite blen_nil in Hn. assert (n = 0) as -> by lia. done. }
  rewrite blen_cons in Hn. cbn [all_bits flat_map]. fold (all_bits b).
  destruct (Z.lt_ge_cases n 8) as [Hlt|Hge].
  - rewrite Z.div_small, Z.mod_small by lia. rewrite take_app_le by (rewrite length_bits; lia).
    rewrite take_bits by lia. cbn [Z.to_nat take all_bits flat_map app].
    destruct (Z.eqb_spec n 0) as [->|]; [done|].
    rewrite bat_cons by lia. cbn [Z.eqb].
    replace (Z.of_nat (8 - Z.to_nat n)) with (8 - n) by lia. done.
  - replace (Z.to_nat n) with (8 + Z.to_nat (n - 8))%nat by lia.
    rewrite <- (length_bits 8 x) at 1. rewrite take_app_add, IH by lia.
    replace (n / 8) with (1 + (n - 8) / 8) by (Z.to_euclidean_division_equations; lia).
    replace (n mod 8) with ((n - 8) mod 8) by (Z.to_euclidean_division_equations; lia).
    assert (0 <= (n - 8) / 8) by (apply Z.div_pos; lia).
    replace (Z.to_nat (1 + (n - 8) / 8)) with (S (Z.to_nat ((n - 8) / 8))) by lia.
    rewrite bat_cons by lia. cbn [take all_bits flat_map].
    destruct (Z.eqb_spec (1 + (n - 8) / 8) 0); [lia|].
    replace (1 + (n - 8) / 8 - 1) with ((n - 8) / 8) by lia. by rewrite <- app_assoc.
Qed.

Definition bit_dom (p : elem) : Prop :=
  e_cmp_type p = CMP_BITS ∧ bytes_wf (e_data p) ∧ 0 <= e_len p <= 8 * blen (e_data p).
Definition bit_key (p : elem) : list Z := take (Z.to_nat (e_len p)) (all_bits (e_data p)).

Lemma length_bit_key p : bit_dom p → length (bit_key p) = Z.to_nat (e_len p).
Proof.
  intros (_ & _ & H). unfold bit_key. rewrite length_take.
  pose proof (length_all_bits (e_data p)). lia.
Qed.

(** The top [df] bits of a byte, through the sign extension of [char]. *)
Lemma top_bits x y df : is_byte x → is_byte y → 0 < df < 8 →
  let c1 := u8 (Z.shiftr (s8 x) (8 - df)) in let c2 := u8 (Z.shiftr (s8 y) (8 - df)) in
  Z.sgn (if negb (c1 =? c2) then if c1 <? c2 then -1 else 1 else 0) =
  prefix_cmp (bits (Z.to_nat df) (x / 2 ^ (8 - df))) (bits (Z.to_nat df) (y / 2 ^ (8 - df))).
Proof.
  unfold is_byte. intros Hx Hy Hdf. cbv zeta. rewrite !Z.shiftr_div_pow2 by lia.
  assert (Hs : ∀ z, 0 <= z < 256 →
    u8 (s8 z / 2 ^ (8 - df)) = z / 2 ^ (8 - df) + if z <? 128 then 0 else 256 - 2 ^ df).
  { intros z Hz. unfold s8, u8.
    assert (df = 1 ∨ df = 2 ∨ df = 3 ∨ df = 4 ∨ df = 5 ∨ df = 6 ∨ df = 7) as Hd by lia.
    destruct (Z.ltb_spec z 128); destruct Hd as [->|[->|[->|[->|[->|[->| ->]]]]]]; cbn [Z.sub Z.pow_pos Z.pow Z.opp Z.add Pos.iter Z.mul Pos.mul Z.pos_sub Pos.pred_double]; Z.to_euclidean_division_equations; lia. }
  rewrite !Hs by done.
  assert (Hpow : 2 ^ 8 = 2 ^ (8 - df) * 2 ^ df) by (rewrite <- Z.pow_add_r by lia; f_equal; lia).
  rewrite bits_cmp; rewrite ?Z2Nat.id by lia;
    [|split; [apply Z.div_pos; lia|apply Z.div_lt_upper_bound; lia]..].
  pose proof (Z.pow_pos_nonneg 2 df). pose proof (Z.pow_pos_nonneg 2 (8 - df)).
  assert (∀ z, 0 <= z < 256 → z < 128 → z / 2 ^ (8 - df) < 2 ^ (df - 1)).
  { intros z ? ?. apply Z.div_lt_upper_bound; [lia|]. rewrite <- Z.pow_add_r by lia.
    replace (8 - df + (df - 1)) with 7 by lia. lia. }
  assert (∀ z, 0 <= z < 256 → 128 <= z → 2 ^ (df - 1) <= z / 2 ^ (8 - df)).
  { intros z ? ?. apply Z.div_le_lower_bound; [lia|]. rewrite <- Z.pow_add_r by lia.
    replace (8 - df + (df - 1)) with 7 by lia. lia. }
  assert (2 ^ df < 256) by (change 256 with (2 ^ 8); apply Z.pow_lt_mono_r; lia).
  repeat match goal with Hz : ∀ z, _ → _ → _ |- _ =>
    pose proof (Hz x Hx); pose proof (Hz y Hy); clear Hz end.
  destruct (Z.ltb_spec x 128), (Z.ltb_spec y 128);
  match goal with |- context [?a =? ?b] => destruct (Z.eqb_spec a b) end; cbn [negb];
  try match goal with |- context [?a <? ?b] => destruct (Z.ltb_spec a b) end; lia.
Qed.

#[export] Instance bit_keyed : Keyed scmp bit_dom bit_key.
Proof.
  constructor. intros p q Dp Dq. pose proof (length_bit_key p Dp). pose proof (length_bit_key q Dq).
  destruct Dp as (Hp & Wp & Lp), Dq as (Hq & Wq & Lq). unfold scmp, bit_cmp. rewrite Hp.
  change (CMP_BITS =? CMP_BITS) with true. cbv beta iota zeta.
  set (len := if e_len q <? e_len p then e_len q else e_len p).
  assert (Hlen : len = Z.min (e_len p) (e_len q)).
  { subst len. destruct (Z.ltb_spec (e_len q) (e_len p)); lia. }
  rewrite (prefix_cmp_take _ _ (Z.to_nat len)) by lia. unfold bit_key.
  rewrite !take_take, !(Nat.min_l (Z.to_nat len)) by lia.
  rewrite Z.rem_mod_nonneg, Z.quot_div_nonneg by lia. unfold mem_cmp. rewrite bytes_cmp_prefix.
  assert (0 <= len / 8 /\ 8 * (len / 8) <= len) by (Z.to_euclidean_division_equations; lia).
  rewrite !take_all_bits, prefix_cmp_app, all_bits_cmp by
    (try lia; try (by apply wf_sub); apply Nat2Z.inj; rewrite !length_all_bits, !blen_sub; lia).
  destruct (Z.eqb_spec (prefix_cmp (sub (e_data p) 0 (len / 8)) (sub (e_data q) 0 (len / 8))) 0) as [->|];
    cbn [negb orb]; [|by rewrite prefix_cmp_sgn].
  destruct (Z.eqb_spec (len mod 8) 0); [done|]. pose proof (Z.mod_pos_bound len 8).
  apply top_bits; [by apply bat_byte..|lia].
Qed.

Lemma bit_key_len p q : bit_dom p → bit_dom q → scmp p q = 0 →
  (e_len p <= e_len q ↔ (length (bit_key p) <= length (bit_key q))%nat).
Proof.
  intros Hp Hq _. rewrite !length_bit_key by done. destruct Hp as (_ & _ & ?), Hq as (_ & _ & ?). lia.
Qed.

Lemma bit_dom_probe hdr p : bit_dom p → e_cmp_type p = mp_cmp_type hdr →
  bit_dom (new_elem hdr (e_data p) (e_len p)) ∧
  bit_key (new_elem hdr (e_data p) (e_len p)) = bit_key p.
Proof. intros [H1 H2] Ht. split; [|done]. split; [|done]. cbn. congruence. Qed.

(** ** Host names: from the end, a label boundary ends the comparison.

    The order holds for names whose characters are not below the dot. *)

Definition host_dom (p : elem) : Prop :=
  e_cmp_type p = CMP_HOST ∧ Forall (λ c, 46 <= c < 128) (e_data p) ∧
  0 <= e_len p <= blen (e_data p).
Definition host_key (p : elem) : list Z := rev (sub (e_data p) 0 (e_len p)) ++ [46].

Lemma sub_snoc b n : 0 <= n < blen b → sub b 0 (n + 1) = sub b 0 n ++ [bat b n].
Proof. intros H. rewrite (sub_split b 0 (n + 1) n) by lia. f_equal.
  rewrite Z.add_0_l. replace (n + 1 - n) with 1 by lia.
  apply bytes_ext; [rewrite blen_sub by lia; done|]. rewrite blen_sub by lia. intros i Hi.
  rewrite bat_sub by lia. assert (i = 0) as -> by lia. by rewrite Z.add_0_r.
Qed.

Definition host_byte (c : Z) : Prop := 46 <= c < 128.

Lemma host_bat b i : Forall host_byte b → 0 <= i < blen b → host_byte (bat b i).
Proof. intros H Hi. by eapply Forall_lookup_1; [|apply bat_bs_lookup]. Qed.

Lemma rev_sub_at b p : 0 < p <= blen b →
  rev (sub b 0 p) = bat b (p - 1) :: rev (sub b 0 (p - 1)).
Proof.
  intros H. replace p with (p - 1 + 1) at 1 by lia. rewrite sub_snoc by lia. by rewrite rev_unit.
Qed.

(** The loop compares the names from the end; the rest is decided at the boundary. *)
Lemma host_tail_cmp pd qd n p q :
  Forall host_byte pd → Forall host_byte qd → Z.of_nat n <= p <= blen pd → Z.of_nat n <= q <= blen qd →
  let c := host_cmp_tail pd qd p q n in
  prefix_cmp (rev (sub pd 0 p) ++ [46]) (rev (sub qd 0 q) ++ [46]) =
    if negb (c =? 0) then c else
    prefix_cmp (rev (sub pd 0 (p - Z.of_nat n)) ++ [46]) (rev (sub qd 0 (q - Z.of_nat n)) ++ [46]).
Proof.
  intros Fp Fq. revert p q. induction n as [|n IH]; intros p q Hp Hq.
  { cbn. by rewrite !Z.sub_0_r. }
  cbn [host_cmp_tail]. cbv zeta. rewrite (rev_sub_at pd p), (rev_sub_at qd q) by lia.
  pose proof (host_bat pd (p - 1) Fp ltac:(lia)) as Bp.
  pose proof (host_bat qd (q - 1) Fq ltac:(lia)) as Bq. unfold host_byte in *.
  cbn [app prefix_cmp]. rewrite !s8_small by lia.
  destruct (Z.eqb_spec (bat pd (p - 1)) (bat qd (q - 1))) as [->|]; cbn [negb].
  - rewrite Z.ltb_irrefl, IH by lia.
    replace (p - 1 - Z.of_nat n) with (p - Z.of_nat (S n)) by lia.
    by replace (q - 1 - Z.of_nat n) with (q - Z.of_nat (S n)) by lia.
  - destruct (Z.ltb_spec (bat pd (p - 1)) (bat qd (q - 1))),
      (Z.ltb_spec (bat qd (q - 1)) (bat pd (p - 1))); cbn; lia.
Qed.

#[export] Instance host_keyed : Keyed scmp host_dom host_key.
Proof.
  constructor. intros p q (Hp & Wp & Lp) (Hq & Wq & Lq). unfold scmp, host_cmp. rewrite Hp.
  change (CMP_HOST =? CMP_BITS) with false. change (CMP_HOST =? CMP_HOST) with true.
  cbv beta iota zeta. unfold host_key.
  set (len := if e_len q <? e_len p then e_len q else e_len p).
  assert (Hlen : len = Z.min (e_len p) (e_len q)).
  { subst len. destruct (Z.ltb_spec (e_len q) (e_len p)); lia. }
  pose proof (host_tail_cmp (e_data p) (e_data q) (Z.to_nat len) (e_len p) (e_len q) Wp Wq) as H.
  rewrite Z2Nat.id in H by lia. rewrite H by lia. clear H. cbv zeta.
  set (c := host_cmp_tail _ _ _ _ _).
  destruct (Z.eqb_spec c 0); cbn [negb].
  2: { subst c. generalize (Z.to_nat len) (e_len p) (e_len q). intros m. induction m as [|m IH];
       intros a b; cbn [host_cmp_tail]; [done|]. destruct (_ =? _); cbn [negb]; [apply IH|].
       match goal with |- context [if ?b then _ else _] => destruct b end; reflexivity. }
  destruct (Z.eqb_spec (e_len p) (e_len q)) as [E|]; cbn [orb].
  { replace (e_len q - len) with 0 by lia. replace (e_len p - len) with 0 by lia.
    rewrite !sub_0. done. }
  destruct (Z.ltb_spec (e_len q) (e_len p)).
  - replace (e_len q - len) with 0 by lia. rewrite sub_0, rev_sub_at by lia. cbn [rev app prefix_cmp].
    pose proof (host_bat (e_data p) (e_len p - len - 1) Wp ltac:(lia)). unfold host_byte in *.
    destruct (Z.eqb_spec (bat (e_data p) (e_len p - len - 1)) 46) as [->|]; [by destruct (rev _ ++ _)|].
    destruct (Z.ltb_spec (bat (e_data p) (e_len p - len - 1)) 46); [lia|].
    destruct (Z.ltb_spec 46 (bat (e_data p) (e_len p - len - 1))); [done|lia].
  - replace (e_len p - len) with 0 by lia. rewrite sub_0, rev_sub_at by lia. cbn [rev app prefix_cmp].
    pose proof (host_bat (e_data q) (e_len q - len - 1) Wq ltac:(lia)). unfold host_byte in *.
    destruct (Z.eqb_spec (bat (e_data q) (e_len q - len - 1)) 46) as [->|]; [done|].
    destruct (Z.ltb_spec 46 (bat (e_data q) (e_len q - len - 1))); [done|lia].
Qed.

Lemma length_host_key p : host_dom p → Z.of_nat (length (host_key p)) = e_len p + 1.
Proof.
  intros (_ & _ & ?). unfold host_key. rewrite length_app, length_rev.
  pose proof (blen_sub (e_data p) 0 (e_len p)). unfold blen in *. simpl. lia.
Qed.

Lemma host_key_len p q : host_dom p → host_dom q → scmp p q = 0 →
  (e_len p <= e_len q ↔ (length (host_key p) <= length (host_key q))%nat).
Proof.
  intros Hp Hq _. pose proof (length_host_key p Hp). pose proof (length_host_key q Hq). lia.
Qed.

Lemma host_dom_probe hdr p : host_dom p → e_cmp_type p = mp_cmp_type hdr →
  host_dom (new_elem hdr (e_data p) (e_len p)) ∧
  host_key (new_elem hdr (e_data p) (e_len p)) = host_key p.
Proof. intros [H1 H2] Ht. split; [|done]. split; [|done]. cbn. congruence. Qed.

(** ** The reads of the comparators

    [scmp] reads through total functions, so that it is an order on values.  The same steps with every
    read checked come to the same result for elements that hold the lengths they say. *)

Definition memcmp_read (p q : bytes) (n : Z) : comp Z := x ← rds p 0 n; y ← rds q 0 n; Ok (bytes_cmp x y).
Definition bit_cmp_read (p q : elem) : comp Z :=
  let len := if e_len q <? e_len p then e_len q else e_len p in
  let df := Z.rem len 8 in
  let nbytes := Z.quot len 8 in
  cmp ← memcmp_read (e_data p) (e_data q) nbytes;
  if negb (cmp =? 0) || (df =? 0) then Ok cmp else
  x ← rd (e_data p) nbytes; y ← rd (e_data q) nbytes;
  let c1 := u8 (Z.shiftr (s8 x) (8 - df)) in
  let c2 := u8 (Z.shiftr (s8 y) (8 - df)) in
  Ok (if negb (c1 =? c2) then if c1 <? c2 then -1 else 1 else 0).
Definition byte_cmp_read (p q : elem) : comp Z :=
  if negb (e_len p =? e_len q) then Ok (if e_len p <? e_len q then -1 else 1)
  else memcmp_read (e_data p) (e_data q) (e_len p).
Fixpoint host_cmp_tail_read (pd qd : bytes) (p q : Z) (n : nat) : comp Z :=
  match n with
  | O => Ok 0
  | S n => c ← rd pd (p - 1); d ← rd qd (q - 1);
      if negb (c =? d) then Ok (if s8 c <? s8 d then -1 else 1)
      else host_cmp_tail_read pd qd (p - 1) (q - 1) n
  end.
Definition host_cmp_read (p q : elem) : comp Z :=
  let pl := e_len p in let ql := e_len q in
  let len := if ql <? pl then ql else pl in
  c ← host_cmp_tail_read (e_data p) (e_data q) pl ql (Z.to_nat len);
  if negb (c =? 0) then Ok c
  else if pl =? ql then Ok 0 else
  e ← (if ql <? pl then rd (e_data p) (pl - len - 1) else rd (e_data q) (ql - len - 1));
  Ok (if e =? 46 then 0 else if ql <? pl then 1 else -1).
Definition scmp_read (p q : elem) : comp Z :=
  if e_cmp_type p =? CMP_BITS then bit_cmp_read p q
  else if e_cmp_type p =? CMP_HOST then host_cmp_read p q
  else byte_cmp_read p q.

(** The block of an element holds its length, which is in bits for [CMP_BITS]. *)
Definition holds (type : Z) (p : elem) : Prop :=
  e_cmp_type p = type ∧ 0 <= e_len p ∧ (if type =? CMP_BITS then e_len p <= 8 * blen (e_data p) else e_len p <= blen (e_data p)).

Lemma memcmp_read_ok p q n : 0 <= n → n <= blen p → n <= blen q → memcmp_read p q n = Ok (mem_cmp p q n).
Proof. intros. unfold memcmp_read, rds. rewrite !in_range_true by lia. done. Qed.
Lemma host_tail_read_ok pd qd p q n : Z.of_nat n <= p <= blen pd → Z.of_nat n <= q <= blen qd →
  host_cmp_tail_read pd qd p q n = Ok (host_cmp_tail pd qd p q n).
Proof.
  revert p q. induction n as [|n IH]; intros p q Hp Hq; cbn [host_cmp_tail_read host_cmp_tail]; [done|].
  rewrite !rd_eq by lia. rewrite !bind_ok. cbv zeta. destruct (negb _); [done|]. apply IH; lia.
Qed.
Lemma scmp_read_ok type p q : holds type p → holds type q → scmp_read p q = Ok (scmp p q).
Proof.
  intros (Tp & Lp & Hp) (Tq & Lq & Hq). unfold scmp_read, scmp. rewrite Tp. destruct (type =? CMP_BITS).
  - unfold bit_cmp_read, bit_cmp. set (len := if e_len q <? e_len p then e_len q else e_len p).
    assert (Hlen : 0 <= len ∧ len <= e_len p ∧ len <= e_len q) by (subst len; destruct (Z.ltb_spec (e_len q) (e_len p)); lia).
    rewrite !Z.rem_mod_nonneg, !Z.quot_div_nonneg by lia. pose proof (Z.div_mod len 8 ltac:(lia)) as E. pose proof (Z.mod_pos_bound len 8 ltac:(lia)).
    rewrite memcmp_read_ok by lia. rewrite bind_ok. cbv zeta. destruct (_ || _) eqn:Eo; [done|].
    apply orb_false_iff in Eo as [_ Hdf%Z.eqb_neq]. rewrite !rd_eq by lia. by rewrite !bind_ok.
  - destruct (type =? CMP_HOST).
    + unfold host_cmp_read, host_cmp. set (len := if e_len q <? e_len p then e_len q else e_len p).
      assert (Hlen : 0 <= len ∧ len = Z.min (e_len p) (e_len q)) by (subst len; destruct (Z.ltb_spec (e_len q) (e_len p)); lia).
      rewrite host_tail_read_ok by lia. rewrite bind_ok. cbv zeta. destruct (negb _); [done|].
      destruct (Z.eqb_spec (e_len p) (e_len q)); cbn [orb]; [done|].
      destruct (Z.ltb_spec (e_len q) (e_len p)); rewrite rd_eq by lia; rewrite bind_ok; by destruct (_ =? 46).
    + unfold byte_cmp_read, byte_cmp. destruct (Z.eqb_spec (e_len p) (e_len q)) as [El|]; cbn [negb]; [|done]. apply memcmp_read_ok; lia.
Qed.

(** * Pools keep their order *)

(** What a pool needs of its comparator: an order by prefix of keys, whose lengths
    related elements have in proportion; and an element is looked up by what it is
    compared by. *)
Class Pool_order (dom : elem → Prop) (key : elem → list Z) := {
  #[global] order_keyed :: Keyed scmp dom key;
  key_len p q : dom p → dom q → scmp p q = 0 →
    (e_len p <= e_len q ↔ (length (key p) <= length (key q))%nat);
  dom_probe hdr p : dom p → e_cmp_type p = mp_cmp_type hdr →
    dom (new_elem hdr (e_data p) (e_len p)) ∧ key (new_elem hdr (e_data p) (e_len p)) = key p
}.

#[export] Instance byte_order : Pool_order byte_dom byte_key.
Proof. split; [apply _|apply byte_key_len|apply byte_dom_probe]. Qed.
#[export] Instance bit_order : Pool_order bit_dom bit_key.
Proof. split; [apply _|apply bit_key_len|apply bit_dom_probe]. Qed.
#[export] Instance host_order : Pool_order host_dom host_key.
Proof. split; [apply _|apply host_key_len|apply host_dom_probe]. Qed.

Section pool.
Context (dom : elem → Prop) (key : elem → list Z) `{PO : !Pool_order dom key}.

Definition pool_elems (hdr : mphdr) : list elem := elements (mp_root hdr).

Record pool_ok (hdr : mphdr) : Prop := {
  po_avl : avl (mp_root hdr);
  po_order : in_order scmp dom (pool_elems hdr);
  po_count : mp_count hdr = Z.of_nat (length (pool_elems hdr));
  po_type : Forall (λ p, e_cmp_type p = mp_cmp_type hdr) (pool_elems hdr)
}.

Lemma mem_get_ok hdr str len :
  pool_ok hdr → dom (new_elem hdr str len) →
  match mem_get hdr str len with
  | Some e => e ∈ pool_elems hdr ∧ scmp (new_elem hdr str len) e = 0
  | None => Forall (λ y, scmp (new_elem hdr str len) y ≠ 0) (pool_elems hdr)
  end.
Proof.
  intros [? Ho ? ?] Hd. apply kavl_find_ok. by apply (in_order_cuts scmp dom key).
Qed.

(** Deleting the key of an element of the pool takes out that element. *)
Lemma mem_delete_ok hdr v a b :
  pool_ok hdr → pool_elems hdr = a ++ v :: b →
  ∃ hdr', mem_delete hdr (e_data v) (e_len v) = Ok hdr' ∧ pool_ok hdr' ∧
    pool_elems hdr' = a ++ b ∧ mp_cmp_type hdr' = mp_cmp_type hdr.
Proof.
  intros [Hb Ho Hc Ht] E. set (x := new_elem hdr (e_data v) (e_len v)).
  assert (Hv : dom v ∧ e_cmp_type v = mp_cmp_type hdr).
  { rewrite E in Ht. destruct Ho as [_ Hd]. rewrite E in Hd.
    apply Forall_app in Ht as [_ Ht], Hd as [_ Hd]. inversion Ht. by inversion Hd. }
  destruct (dom_probe hdr v (proj1 Hv) (proj2 Hv)) as [Hdx Hkx]. fold x in Hdx, Hkx.
  assert (Hsame : ∀ y, dom y → scmp x y = 0 ↔ scmp v y = 0).
  { intros y Hy. rewrite !(keyed_eq scmp dom key) by (done || apply Hv). by rewrite Hkx. }
  destruct (in_order_mid scmp dom key a v b) as [Na Nb]; [by rewrite <- E|].
  pose proof (proj2 Ho) as Hd. rewrite E in Hd. apply Forall_app in Hd as [Hda Hdb].
  inversion Hdb as [|? ? _ Hdb']; subst.
  unfold mem_delete. fold x.
  destruct (kavl_erase_ok scmp (mp_root hdr) x Hb) as
    [(t' & a1 & e & b1 & -> & Ht' & He & E1 & E2)|[_ Hno]].
  { by apply (in_order_cuts scmp dom key). }
  - rewrite bind_ok. eexists. split; [done|]. unfold pool_elems in *. cbn [mp_root mp_cmp_type].
    assert (e = v ∧ a1 ++ b1 = a ++ b) as [-> Eab].
    { assert (Hin : e ∈ a ++ v :: b) by (rewrite <- E, E1; apply elem_mid).
      assert (Hde : dom e).
      { destruct Ho as [_ Ho]. rewrite E, Forall_forall in Ho. by apply Ho. }
      rewrite Hsame in He by done.
      destruct (elem_of_app a (v :: b) e) as [[Hin'|Hin'] _]; [done| |].
      { rewrite Forall_forall in Na. by destruct (Na e). }
      apply elem_of_cons in Hin' as [->|Hin']; [|by rewrite Forall_forall in Nb; destruct (Nb e)].
      split; [done|]. rewrite E in E1. clear -E1 Na Nb He.
      revert a1 E1 Na. induction a as [|y a IH]; intros [|y1 a1] E1 Na; simpl in *.
      - by injection E1 as <-.
      - injection E1 as <- ->. apply Forall_app in Nb as [_ Nb]. by inversion Nb.
      - injection E1 as -> _. by inversion Na.
      - injection E1 as <- E1. inversion Na. f_equal. by apply IH. }
    rewrite E2, Eab. split_and!; [|done|done].
    split; unfold pool_elems; cbn [mp_root mp_count mp_cmp_type]; rewrite ?E2, ?Eab.
    + done.
    + apply (in_order_remove scmp dom a v b). by rewrite <- E.
    + rewrite Hc, E, !length_app. simpl. lia.
    + rewrite E in Ht. apply Forall_app in Ht as [Ht1 Ht2]. inversion Ht2. by apply Forall_app.
  - exfalso. unfold pool_elems in E. rewrite E in Hno. apply Forall_app in Hno as [_ Hno].
    inversion Hno as [|? ? Hx _]; subst. apply Hx, Hsame; [apply Hv|].
    apply (keyed_refl scmp dom key), Hv.
Qed.

(** [mem_add]: either the pool holds a related element that is not longer, and it is
    returned and nothing changes; or the new element replaces every related one. *)
Lemma mem_add_loop_ok fuel hdr e :
  pool_ok hdr → dom e → e_cmp_type e = mp_cmp_type hdr →
  (length (pool_elems hdr) < fuel)%nat →
  (∃ v hdr', mem_add_loop fuel hdr e = Ok (v, false, hdr') ∧ hdr' = hdr ∧
     v ∈ pool_elems hdr ∧ scmp e v = 0 ∧ e_len v <= e_len e) ∨
  (∃ hdr' a b, mem_add_loop fuel hdr e = Ok (e, true, hdr') ∧ pool_ok hdr' ∧
     mp_cmp_type hdr' = mp_cmp_type hdr ∧ pool_elems hdr' = a ++ e :: b ∧
     a ++ b = List.filter (λ y, negb (scmp e y =? 0)) (pool_elems hdr) ∧
     Forall (λ y, scmp e y = 0 → e_len e < e_len y) (pool_elems hdr)).
Proof.
  revert hdr. induction fuel as [|fuel IH]; intros hdr Hp He Hty Hf; [lia|].
  pose proof Hp as [Hb Ho Hc Ht]. cbn [mem_add_loop].
  destruct (kavl_insert_ok scmp (mp_root hdr) e Hb) as
    [(v & -> & Hv & Hev)|(t' & a & b & -> & Ht' & E1 & E2 & Fa & Fb)].
  { by apply (in_order_cuts scmp dom key). }
  - rewrite bind_ok. cbv beta iota zeta.
    replace (Mphdr (mp_flags hdr) (mp_cmp_type hdr) (mp_count hdr) (mp_root hdr)) with hdr
      by (by destruct hdr).
    destruct (Z.ltb_spec (e_len e) (e_len v)) as [Hlt|]; [right|by left; exists v, hdr].
    apply list_elem_of_split in Hv as (a & b & E).
    destruct (mem_delete_ok hdr v a b Hp E) as (hdr1 & -> & Hp1 & E1 & Hty1).
    rewrite bind_ok. unfold pool_elems in Hf. rewrite E in Hf. rewrite length_app in Hf. simpl in Hf.
    destruct (IH hdr1 Hp1 He) as [(v1 & h1 & _ & -> & Hv1 & Hev1 & Hl1)|
        (h1 & a1 & b1 & -> & Hp' & Hty' & Ee & Eab & Hall)].
    + by rewrite Hty1.
    + rewrite E1, length_app. lia.
    + exfalso. rewrite E1 in Hv1. destruct Ho as [Hs Hd]. unfold pool_elems in Hs, Hd.
      rewrite E in Hs, Hd. assert (Hdv1 : dom v1 ∧ dom v).
      { rewrite Forall_forall in Hd. split; apply Hd; [|apply elem_mid].
        apply elem_of_app in Hv1 as [|]; [by apply elem_left|by apply elem_right]. }
      destruct Hdv1 as [Hdv1 Hdv].
      assert (Hrel : scmp v1 v = 0).
      { apply (keyed_eq scmp dom key); [done..|].
        apply (prefix_cmp_below (key e)).
        - by apply (keyed_eq scmp dom key).
        - by apply (keyed_eq scmp dom key).
        - apply key_len; [done|done| |done]. by apply (keyed_sym scmp dom key). }
      apply (keyed_sym scmp dom key) in Hrel; [|done..].
      destruct (in_order_mid scmp dom key a v b) as [Na Nb]; [done|].
      rewrite Forall_forall in Na, Nb.
      apply elem_of_app in Hv1 as [Hin|Hin]; [by destruct (Na v1 Hin)|by destruct (Nb v1 Hin)].
    + exists h1, a1, b1. unfold pool_elems in *. rewrite E1 in Eab, Hall. rewrite E.
      split_and!; [done|done|congruence|done| |].
      * rewrite Eab, !List.filter_app. simpl. rewrite Hev. done.
      * apply Forall_app in Hall as [Ha1 Hb1]. apply Forall_app_2; [done|]. by constructor.
  - rewrite bind_ok. cbv beta iota zeta. right. eexists _, a, b. split; [done|].
    unfold pool_elems in *. cbn [mp_root mp_cmp_type]. rewrite E2.
    assert (Hnr : ∀ y, y ∈ elements (mp_root hdr) → scmp e y ≠ 0).
    { rewrite E1. rewrite Forall_forall in Fa, Fb. intros y [Hy|Hy]%elem_of_app.
      - specialize (Fa y Hy). lia.
      - specialize (Fb y Hy). lia. }
    split_and!; [|done|done| |].
    + split; unfold pool_elems; cbn [mp_root mp_count mp_cmp_type]; rewrite ?E2.
      * done.
      * apply (in_order_insert scmp dom key); [done|by rewrite <- E1|done|done].
      * rewrite Hc, E1, !length_app. simpl. lia.
      * rewrite E1 in Ht. apply Forall_app in Ht as [Ht1 Ht2].
        apply Forall_app_2; [done|by constructor].
    + rewrite <- E1. clear -Hnr. induction (elements (mp_root hdr)) as [|y l IH]; [done|].
      simpl. rewrite (proj2 (Z.eqb_neq _ 0)) by (apply Hnr; by left). simpl. f_equal.
      apply IH. intros z Hz. apply Hnr. by right.
    + apply Forall_forall. intros y Hy E. by destruct (Hnr y Hy).
Qed.

Lemma mem_add_ok hdr str len :
  pool_ok hdr → dom (new_elem hdr str len) →
  let e := new_elem hdr str len in
  (∃ v, mem_add hdr str len = Ok (v, false, hdr) ∧
     v ∈ pool_elems hdr ∧ scmp e v = 0 ∧ e_len v <= len) ∨
  (∃ hdr' a b, mem_add hdr str len = Ok (e, true, hdr') ∧ pool_ok hdr' ∧
     mp_cmp_type hdr' = mp_cmp_type hdr ∧ pool_elems hdr' = a ++ e :: b ∧
     a ++ b = List.filter (λ y, negb (scmp e y =? 0)) (pool_elems hdr) ∧
     Forall (λ y, scmp e y = 0 → len < e_len y) (pool_elems hdr)).
Proof.
  intros Hp Hd e. destruct (mem_add_loop_ok (S (length (elements (mp_root hdr)))) hdr e) as
    [(v & h & E & -> & ?)|?]; [done..|unfold pool_elems; lia| |by right].
  left. by exists v.
Qed.
Lemma pool_ok_empty flags t : pool_ok (mem_pool flags t).
Proof. split; cbn; [done|by split; constructor|done|constructor]. Qed.

(** [p] is at least as general as [q]. *)
Lemma covers_scmp p q : dom p → dom q →
  key p `prefix_of` key q ↔ scmp q p = 0 ∧ e_len p <= e_len q.
Proof.
  intros Hp Hq. rewrite (keyed_eq scmp dom key), prefix_cmp_0 by done. split.
  - intros H. split; [by right|]. apply key_len; [done|done| |by apply prefix_length].
    rewrite (keyed_eq scmp dom key), prefix_cmp_0 by done. by left.
  - intros [[H|H] Hl]; [|done].
    apply key_len in Hl; [|done|done|by rewrite (keyed_eq scmp dom key), prefix_cmp_0 by done; right].
    by apply prefix_length_eq in H; [rewrite H|].
Qed.

(** The pool stands for the set [added]: it covers the same keys. *)
Definition stands_for (hdr : mphdr) (added : list elem) : Prop :=
  ∀ x, (∃ e, e ∈ pool_elems hdr ∧ key e `prefix_of` x) ↔ (∃ e, e ∈ added ∧ key e `prefix_of` x).

Lemma pool_dom hdr e : pool_ok hdr → e ∈ pool_elems hdr → dom e.
Proof. intros [? [_ Hd] ? ?]. rewrite Forall_forall in Hd. apply Hd. Qed.

Lemma mem_add_stands hdr str len added :
  pool_ok hdr → dom (new_elem hdr str len) → stands_for hdr added →
  ∃ v new hdr', mem_add hdr str len = Ok (v, new, hdr') ∧ pool_ok hdr' ∧
    mp_cmp_type hdr' = mp_cmp_type hdr ∧ stands_for hdr' (new_elem hdr str len :: added).
Proof.
  intros Hp Hd Hs. set (e := new_elem hdr str len) in *.
  destruct (mem_add_ok hdr str len Hp Hd) as
    [(v & E & Hv & Hev & Hl)|(hdr' & a & b & E & Hp' & Hty & El & Eab & Hall)];
    fold e in E; eexists _, _, _; (split; [exact E|]).
  - split_and!; [done|done|]. intros x. rewrite (Hs x). split.
    + intros (y & Hy & Hx). exists y. split; [by right|done].
    + intros (y & [->|Hy]%elem_of_cons & Hx); [|by exists y].
      apply Hs. exists v. split; [done|]. etrans; [|exact Hx].
      apply covers_scmp; [by apply (pool_dom hdr)|done|done].
  - fold e in El, Eab, Hall. split_and!; [done|done|]. intros x. rewrite El. split.
    + intros (y & Hy & Hx). apply elem_of_app in Hy as [Hy|[->|Hy]%elem_of_cons].
      2: { exists e. split; [by left|done]. }
      all: assert (Hin : y ∈ a ++ b) by (rewrite elem_of_app; auto); rewrite Eab in Hin;
        apply list_elem_of_In, filter_In in Hin as [Hin _];
        destruct (proj1 (Hs x)) as (z & Hz & Hzx); [exists y; split; [by apply list_elem_of_In|done]|];
        exists z; split; [by right|done].
    + intros (y & [->|Hy]%elem_of_cons & Hx); [exists e; split; [apply elem_mid|done]|].
      destruct (proj2 (Hs x)) as (z & Hz & Hzx); [by exists y|].
      destruct (Z.eq_dec (scmp e z) 0) as [Hr|Hr].
      * exists e. split; [apply elem_mid|]. etrans; [|exact Hzx].
        pose proof (pool_dom hdr z Hp Hz) as Hdz.
        apply covers_scmp; [done|done|]. split; [by apply (keyed_sym scmp dom key)|].
        rewrite Forall_forall in Hall. specialize (Hall z Hz Hr). cbn. lia.
      * exists z. split; [|done]. assert (Hin : z ∈ a ++ b).
        { rewrite Eab. apply list_elem_of_In, filter_In. split; [by apply list_elem_of_In|].
          by apply negb_true_iff, Z.eqb_neq. }
        apply elem_of_app in Hin as [?|?]; [by apply elem_left|by apply elem_right].
Qed.

(** Adding the strings of a list one after the other. *)
Fixpoint mem_add_all (hdr : mphdr) (l : list (bytes * Z)) : comp mphdr :=
  match l with
  | [] => Ok hdr
  | (str, len) :: l => '(_, _, hdr) ← mem_add hdr str len; mem_add_all hdr l
  end.

Lemma mem_add_all_ok l hdr added :
  pool_ok hdr → stands_for hdr added →
  Forall (λ '(str, len), dom (new_elem hdr str len)) l →
  ∃ hdr', mem_add_all hdr l = Ok hdr' ∧ pool_ok hdr' ∧ mp_cmp_type hdr' = mp_cmp_type hdr ∧
    stands_for hdr' (rev (map (λ '(str, len), new_elem hdr str len) l) ++ added).
Proof.
  revert hdr added. induction l as [|[str len] l IH]; intros hdr added Hp Hs Hd.
  { by exists hdr. }
  apply Forall_cons in Hd as [Hd1 Hd]. cbn [mem_add_all].
  destruct (mem_add_stands hdr str len added Hp Hd1 Hs) as (v & new & hdr1 & -> & Hp1 & Hty & Hs1).
  rewrite bind_ok.
  assert (Hn : ∀ str len, new_elem hdr1 str len = new_elem hdr str len).
  { intros. unfold new_elem. by rewrite Hty. }
  destruct (IH hdr1 (new_elem hdr str len :: added) Hp1 Hs1) as (hdr' & -> & Hp' & Hty' & Hs').
  { eapply Forall_impl; [exact Hd|]. intros [s n]. by rewrite Hn. }
  exists hdr'. split_and!; [done|done|congruence|].
  cbn [map rev]. rewrite <- app_assoc. cbn [app].
  replace (map (λ '(str, len), new_elem hdr str len) l) with
    (map (λ '(str, len), new_elem hdr1 str len) l); [done|].
  apply map_ext. intros [s n]. apply Hn.
Qed.

Lemma scmp_related p q : dom p → dom q →
  scmp p q = 0 ↔ key p `prefix_of` key q ∨ key q `prefix_of` key p.
Proof. intros Hp Hq. by rewrite (keyed_eq scmp dom key), prefix_cmp_0. Qed.

(** What is related to a string of which [p] has a prefix is related to [p]. *)
Lemma related_prefix p q x : dom p → dom q → dom x → key p `prefix_of` key q → scmp x q = 0 → scmp x p = 0.
Proof.
  intros Hp Hq Hx Hpq H. apply scmp_related in H as [H|H]; try done; apply scmp_related; try done; [|right; by transitivity (key q)].
  destruct (prefix_weak_total (key x) (key p) (key q)); auto.
Qed.

(** A key is found, with whatever element, exactly when a string that is related to it was added. *)
Lemma pool_finds_ok l flags t str len :
  let hdr := mem_pool flags t in let x := new_elem hdr str len in
  let names := map (λ '(s, n), new_elem hdr s n) l in
  Forall dom (x :: names) →
  ∃ hdr', mem_add_all hdr l = Ok hdr' ∧ (is_Some (mem_get hdr' str len) ↔ ∃ e, e ∈ names ∧ scmp x e = 0).
Proof.
  intros hdr x names [Hx Hd]%Forall_cons.
  destruct (mem_add_all_ok l hdr []) as (hdr' & E & Hp & Hty & Hs).
  - apply pool_ok_empty.
  - intros y. by split; intros (e & He & _); apply elem_of_nil in He.
  - subst names. rewrite Forall_map in Hd. eapply Forall_impl; [exact Hd|]. by intros [s n].
  - exists hdr'. split; [done|]. rewrite app_nil_r in Hs. fold names in Hs.
    assert (Hin : ∀ y, y ∈ names ↔ y ∈ rev names) by (intros y; by rewrite !list_elem_of_In, <- in_rev).
    assert (Hx' : new_elem hdr' str len = x) by (subst x; unfold new_elem; by rewrite Hty).
    pose proof (mem_get_ok hdr' str len Hp) as Hg. rewrite Hx' in Hg. specialize (Hg Hx).
    rewrite Forall_forall in Hd. split.
    + intros [e Ee]. rewrite Ee in Hg. destruct Hg as [He Hr]. pose proof (pool_dom hdr' e Hp He) as Hde.
      destruct (proj1 (Hs (key e))) as (y & Hy%Hin & Hye); [by exists e|]. exists y. split; [done|].
      apply (related_prefix y e); auto.
    + intros (y & Hy & Hr). destruct (proj2 (Hs (key y))) as (z & Hz & Hzy); [exists y; by rewrite <- Hin|].
      pose proof (pool_dom hdr' z Hp Hz) as Hdz. destruct (mem_get hdr' str len) as [e|]; [by eexists|]. exfalso.
      rewrite Forall_forall in Hg. apply (Hg z Hz). apply (related_prefix z y); auto.
Qed.

(** Looking up a key: an element that covers it is found when a string that covers it
    was added. *)
Lemma pool_lookup_ok l flags t str len :
  let hdr := mem_pool flags t in let x := new_elem hdr str len in
  let names := map (λ '(s, n), new_elem hdr s n) l in
  Forall dom (x :: names) →
  ∃ hdr', mem_add_all hdr l = Ok hdr' ∧
    ((∃ e, mem_get hdr' str len = Some e ∧ e_len e <= len) ↔
     ∃ e, e ∈ names ∧ scmp x e = 0 ∧ e_len e <= len).
Proof.
  intros hdr x names [Hx Hd]%Forall_cons.
  destruct (mem_add_all_ok l hdr []) as (hdr' & E & Hp & Hty & Hs).
  - apply pool_ok_empty.
  - intros y. by split; intros (e & He & _); apply elem_of_nil in He.
  - subst names. rewrite Forall_map in Hd. eapply Forall_impl; [exact Hd|]. by intros [s n].
  - exists hdr'. split; [done|]. rewrite app_nil_r in Hs. fold names in Hs.
    assert (Hx' : new_elem hdr' str len = x) by (subst x; unfold new_elem; by rewrite Hty).
    pose proof (mem_get_ok hdr' str len Hp) as Hg. rewrite Hx' in Hg. specialize (Hg Hx).
    rewrite Forall_forall in Hd. split.
    + intros (e & Ee & Hl). rewrite Ee in Hg. destruct Hg as [Hin Hr].
      pose proof (pool_dom hdr' e Hp Hin) as Hde.
      destruct (proj1 (Hs (key x))) as (y & Hy & Hyx).
      { exists e. split; [done|]. by apply covers_scmp. }
      exists y. assert (Hy' : y ∈ names) by (apply list_elem_of_In, in_rev, list_elem_of_In, Hy).
      split; [done|]. apply covers_scmp in Hyx; [done|by apply Hd|done].
    + intros (y & Hy & Hr & Hl).
      destruct (proj2 (Hs (key x))) as (z & Hz & Hzx).
      { exists y. split; [by apply list_elem_of_In, in_rev; rewrite rev_involutive; apply list_elem_of_In|].
        by apply covers_scmp; [apply Hd| |]. }
      pose proof (pool_dom hdr' z Hp Hz) as Hdz. apply covers_scmp in Hzx as [Hzr Hzl]; [|done..].
      destruct (mem_get hdr' str len) as [e|] eqn:Ee.
      * exists e. split; [done|]. destruct Hg as [Hin Hre].
        pose proof (pool_dom hdr' e Hp Hin) as Hde.
        destruct (Z.le_gt_cases (e_len e) len) as [|Hgt]; [done|]. exfalso.
        assert (Hez : key z `prefix_of` key e).
        { transitivity (key x); [by apply covers_scmp|]. apply covers_scmp; [done|done|].
          split; [by apply (keyed_sym scmp dom key)|]. cbn. lia. }
        apply covers_scmp in Hez as [Hez Hezl]; [|done|done]. cbn in Hzl.
        apply list_elem_of_split in Hin as (a & b & El).
        destruct (in_order_mid scmp dom key a e b) as [Na Nb].
        { rewrite <- El. apply Hp. }
        rewrite El in Hz. apply elem_of_app in Hz as [Hz|[->|Hz]%elem_of_cons]; [| |].
        -- rewrite Forall_forall in Na. by apply (Na z Hz).
        -- lia.
        -- rewrite Forall_forall in Nb. by apply (Nb z Hz).
      * rewrite Forall_forall in Hg. by destruct (Hg z Hz).
Qed.
End pool.

(** * Depth *)

Lemma avl_height_size {A} (t : tree A) :
  avl t → 2 ^ (height t / 2) <= tsize t + 1.
Proof.
  intros Ht. assert (H : ∀ n (t : tree A), avl t → height t = Z.of_nat n →
    2 ^ (Z.of_nat n / 2) <= tsize t + 1).
  2: { pose proof (height_nonneg t). specialize (H (Z.to_nat (height t)) t Ht).
       rewrite !Z2Nat.id in H by lia. auto. }
  intros n. induction n as [n IH] using lt_wf_ind. intros [|l e b sz r] Hv Hh.
  { cbn in Hh. assert (n = O) as -> by lia. by vm_compute. }
  destruct Hv as (Hl & Hr & Hb & Hb' & Hz). cbn [height tsize] in *.
  pose proof (height_nonneg l). pose proof (height_nonneg r).
  pose proof (IH (Z.to_nat (height l)) ltac:(lia) l Hl ltac:(lia)) as Il.
  pose proof (IH (Z.to_nat (height r)) ltac:(lia) r Hr ltac:(lia)) as Ir.
  rewrite !Z2Nat.id in Il, Ir by lia.
  assert (Hm : ∀ h, Z.of_nat n - 2 <= h → 0 <= h → 2 ^ (Z.of_nat n / 2) <= 2 * 2 ^ (h / 2)).
  { intros h ? ?. rewrite <- Z.pow_succ_r by (apply Z.div_pos; lia). apply Z.pow_le_mono_r; [lia|].
    Z.to_euclidean_division_equations. lia. }
  pose proof (Hm (height l) ltac:(lia) ltac:(lia)). pose proof (Hm (height r) ltac:(lia) ltac:(lia)).
  lia.
Qed.

(** * Freeing *)

Lemma mem_destroy_loop_ok fuel t :
  avl t → (length (elements t) < fuel)%nat → mem_destroy_loop fuel t = Ok (elements t).
Proof.
  revert t. induction fuel as [|fuel IH]; intros t Ht Hf; [lia|].
  destruct t as [|l e b sz r]; [done|]. cbn [mem_destroy_loop].
  destruct (erase_first_at_ok l e b sz r []) as (t' & e1 & es & E & Ht' & E1 & E2); [done|done|].
  unfold kavl_erase_first. rewrite E, bind_ok, E1. cbn in E2. rewrite app_nil_r in E2.
  rewrite IH; [by rewrite bind_ok, E2|done|]. rewrite E2. rewrite E1 in Hf. simpl in Hf. lia.
Qed.

(** * Names *)

(** A name and its parent domains. *)
Definition in_domain (name dom : bytes) : Prop :=
  name = dom ∨ ∃ x, name = x ++ 46 :: dom.
Definition e_name (e : elem) : bytes := sub (e_data e) 0 (e_len e).

Lemma host_covers p q : host_key p `prefix_of` host_key q ↔ in_domain (e_name q) (e_name p).
Proof.
  unfold host_key, in_domain. fold (e_name p) (e_name q). split.
  - intros [k Hk]. rewrite <- app_assoc in Hk.
    destruct (exists_last (l := [46] ++ k)) as (k' & z & Ez); [done|].
    rewrite Ez, app_assoc in Hk. apply app_inj_tail in Hk as [Hk <-].
    apply (f_equal (@rev Z)) in Hk. rewrite rev_app_distr, !rev_involutive in Hk.
    destruct k' as [|y k']; [by left|]. right. cbn in Ez. injection Ez as <- Ez.
    exists (rev k'). rewrite Hk. cbn. by rewrite <- app_assoc.
  - intros [->|(x & ->)]; [done|]. rewrite rev_app_distr. cbn [rev]. rewrite <- !app_assoc.
    apply prefix_app. by exists (rev x ++ [46]).
Qed.


(** A dash sorts below the dot, so the comparison is not an order when names hold one:
    a host of a domain that was added is not found. *)
Lemma host_cmp_dash_misses :
  match mem_add_all (mem_pool MF_STATIC CMP_HOST)
          [(bs "my-google.com", 13); (bs "google.com", 10)] with
  | Ok hdr => map e_len (pool_elems hdr) = [10; 13] ∧ mem_get hdr (bs "www.google.com") 14 = None
  | Fail _ => False
  end.
Proof. by vm_compute. Qed.

(** * Properties *)

(** [kavl_insert], for any comparison [cmp] by which the node looked for cuts the
    elements in order: it returns the related element with the tree as it was, or the
    new one after adding it at its place, and the tree it leaves is balanced with right
    balance and size fields. *)
Theorem kavl_insert_correct {A} (cmp : A → A → Z) (t : tree A) (x : A) :
  avl t → cuts cmp x (elements t) →
  (∃ v, kavl_insert cmp t x = Ok (t, v, false) ∧ v ∈ elements t ∧ cmp x v = 0) ∨
  (∃ t' a b, kavl_insert cmp t x = Ok (t', x, true) ∧ avl t' ∧ elements t = a ++ b ∧
     elements t' = a ++ x :: b ∧ Forall (λ y, 0 < cmp x y) a ∧ Forall (λ y, cmp x y < 0) b).
Proof. apply kavl_insert_ok. Qed.

(** A tree of numbers, built by insertions. *)
Definition sample_tree : tree Z :=
  foldl (λ t x, match kavl_insert Z.sub t x with Ok (t, _, _) => t | Fail _ => t end)
    Leaf [5; 1; 9; 3; 4; 2; 8; 7; 6].

Lemma kavl_insert_correct_witness :
  kavl_find Z.sub sample_tree 10 = None ∧
  ((∃ v, kavl_insert Z.sub sample_tree 10 = Ok (sample_tree, v, false) ∧ v ∈ elements sample_tree ∧ 10 - v = 0) ∨
  (∃ t' a b, kavl_insert Z.sub sample_tree 10 = Ok (t', 10, true) ∧ avl t' ∧
     elements sample_tree = a ++ b ∧ elements t' = a ++ 10 :: b ∧
     Forall (λ y, 0 < 10 - y) a ∧ Forall (λ y, 10 - y < 0) b)).
Proof.
  split; [reflexivity|]. apply (kavl_insert_correct Z.sub sample_tree 10).
  - vm_compute. intuition congruence.
  - change (elements sample_tree) with [1; 2; 3; 4; 5; 6; 7; 8; 9]. unfold cuts.
    repeat constructor; simpl; lia.
Defined.

(** [kavl_erase] takes out exactly the element that is related to the one asked for
    and leaves the others in their order, or returns null with the tree untouched when
    there is none; the tree stays balanced. *)
Theorem kavl_erase_correct {A} (cmp : A → A → Z) (t : tree A) (x : A) :
  avl t → cuts cmp x (elements t) →
  (∃ t' a e b, kavl_erase cmp t x = Ok (t', Some e) ∧ avl t' ∧ cmp x e = 0 ∧
     elements t = a ++ e :: b ∧ elements t' = a ++ b) ∨
  (kavl_erase cmp t x = Ok (t, None) ∧ Forall (λ y, cmp x y ≠ 0) (elements t)).
Proof. apply kavl_erase_ok. Qed.

Lemma kavl_erase_correct_witness :
  kavl_find Z.sub sample_tree 5 = Some 5 ∧
  ((∃ t' a e b, kavl_erase Z.sub sample_tree 5 = Ok (t', Some e) ∧ avl t' ∧ 5 - e = 0 ∧
     elements sample_tree = a ++ e :: b ∧ elements t' = a ++ b) ∨
  (kavl_erase Z.sub sample_tree 5 = Ok (sample_tree, None) ∧
     Forall (λ y, 5 - y ≠ 0) (elements sample_tree))).
Proof.
  split; [reflexivity|]. apply (kavl_erase_correct Z.sub sample_tree 5).
  - vm_compute. intuition congruence.
  - change (elements sample_tree) with [1; 2; 3; 4; 5; 6; 7; 8; 9]. unfold cuts.
    repeat constructor; simpl; lia.
Defined.

(** A pool of bit strings, as for address masks: a key is found exactly when a bit string
    that was added is a prefix of the key's bits, or they of it. *)
Lemma bit_pool_finds (l : list (bytes * Z)) flags key n :
  Forall (λ '(b, n), bytes_wf b ∧ 0 <= n <= 8 * blen b) ((key, n) :: l) →
  ∃ hdr, mem_add_all (mem_pool flags CMP_BITS) l = Ok hdr ∧
    (is_Some (mem_get hdr key n) ↔ ∃ b m, (b, m) ∈ l ∧
       (take (Z.to_nat m) (all_bits b) `prefix_of` take (Z.to_nat n) (all_bits key) ∨
        take (Z.to_nat n) (all_bits key) `prefix_of` take (Z.to_nat m) (all_bits b))).
Proof.
  intros [Hk Hl]%Forall_cons. set (h := mem_pool flags CMP_BITS).
  assert (Hdom : ∀ b m, bytes_wf b ∧ 0 <= m <= 8 * blen b → bit_dom (new_elem h b m)) by done.
  destruct (pool_finds_ok bit_dom bit_key l flags CMP_BITS key n) as (hdr & E & P).
  { constructor; [by apply Hdom|]. rewrite Forall_map. eapply Forall_impl; [exact Hl|].
    intros [b m]. apply Hdom. }
  exists hdr. split; [exact E|]. rewrite P. rewrite Forall_forall in Hl. fold h. split.
  - intros (e & He & Hr). apply list_elem_of_In, in_map_iff in He as ([b m] & <- & Hin).
    apply list_elem_of_In in Hin. exists b, m. split; [done|].
    apply (scmp_related bit_dom bit_key) in Hr; [|by apply Hdom|by apply Hdom, (Hl _ Hin)]. destruct Hr; [by right|by left].
  - intros (b & m & Hin & Hp). exists (new_elem h b m). split.
    { apply list_elem_of_In, in_map_iff. exists (b, m). split; [done|]. by apply list_elem_of_In. }
    apply (scmp_related bit_dom bit_key); [by apply Hdom|by apply Hdom, (Hl _ Hin)|]. destruct Hp; [by right|by left].
Qed.

(** C34: [mem_add] on a pool in order, under any of the three comparators: either the pool
    is left as it is and the element returned is related to the string and not longer;
    or the new element is in the pool at its place in the order, every related element
    -- all of them longer -- has been deleted and no other, and tree and count are
    right. *)
Theorem mem_add_spec dom key `{!Pool_order dom key} hdr str len :
  pool_ok dom hdr → dom (new_elem hdr str len) →
  let e := new_elem hdr str len in
  (∃ v, mem_add hdr str len = Ok (v, false, hdr) ∧
     v ∈ pool_elems hdr ∧ scmp e v = 0 ∧ e_len v <= len) ∨
  (∃ hdr' a b, mem_add hdr str len = Ok (e, true, hdr') ∧ pool_ok dom hdr' ∧
     mp_cmp_type hdr' = mp_cmp_type hdr ∧ pool_elems hdr' = a ++ e :: b ∧
     a ++ b = List.filter (λ y, negb (scmp e y =? 0)) (pool_elems hdr) ∧
     Forall (λ y, scmp e y = 0 → len < e_len y) (pool_elems hdr)).
Proof. intros. by apply (mem_add_ok dom key). Qed.

Lemma mem_add_spec_witness :
  let hdr := mem_pool 0 CMP_BYTES in let e := new_elem hdr (bs "abc") 2 in
  (∃ v, mem_add hdr (bs "abc") 2 = Ok (v, false, hdr) ∧
     v ∈ pool_elems hdr ∧ scmp e v = 0 ∧ e_len v <= 2) ∨
  (∃ hdr' a b, mem_add hdr (bs "abc") 2 = Ok (e, true, hdr') ∧ pool_ok byte_dom hdr' ∧
     mp_cmp_type hdr' = mp_cmp_type hdr ∧ pool_elems hdr' = a ++ e :: b ∧
     a ++ b = List.filter (λ y, negb (scmp e y =? 0)) (pool_elems hdr) ∧
     Forall (λ y, scmp e y = 0 → 2 < e_len y) (pool_elems hdr)).
Proof.
  apply (mem_add_spec byte_dom byte_key (mem_pool 0 CMP_BYTES) (bs "abc") 2).
  - apply (pool_ok_empty byte_dom).
  - split; [reflexivity|]. by vm_compute.
Defined.

(** [mem_destroy] terminates and frees every element of the pool exactly once, in
    order. *)
Theorem mem_destroy_frees_all hdr :
  avl (mp_root hdr) → mem_destroy hdr = Ok (pool_elems hdr).
Proof. intros H. apply mem_destroy_loop_ok; [done|]. lia. Qed.

Lemma mem_destroy_frees_all_witness :
  match mem_add_all (mem_pool 0 CMP_HOST) [(bs "a.b", 3); (bs "c", 1)] with
  | Ok hdr => mem_destroy hdr = Ok (pool_elems hdr)
  | Fail _ => False
  end.
Proof.
  set (c := mem_add_all _ _). vm_compute in c. subst c. cbv beta iota.
  apply mem_destroy_frees_all. vm_compute. intuition congruence.
Defined.

(** Of a balanced tree whose 32-bit size field cannot have overflowed, every path fits
    the arrays of [KAVL_MAX_DEPTH] entries, with the fake root and the entry that
    removal adds below the node. *)
Theorem kavl_depth_bound {A} (t : tree A) :
  avl t → tsize t < 2 ^ 31 - 1 → height t + 2 <= KAVL_MAX_DEPTH.
Proof.
  intros Ht Hs. pose proof (avl_height_size t Ht) as H. unfold KAVL_MAX_DEPTH.
  assert (height t / 2 < 31) by (apply (Z.pow_lt_mono_r_iff 2); lia).
  pose proof (Z.div_mod (height t) 2). pose proof (Z.mod_pos_bound (height t) 2). lia.
Qed.

Lemma kavl_depth_bound_witness :
  height sample_tree = 4 ∧ height sample_tree + 2 <= KAVL_MAX_DEPTH.
Proof.
  split; [reflexivity|]. apply (kavl_depth_bound sample_tree).
  - vm_compute. intuition congruence.
  - reflexivity.
Defined.
