(* ===== verification/HostPool.v ===== *)
(** byedpi mpool.c: pools of host names that take any name.

    [host_cmp] is no order: a name and its domain are equal to it while names that begin with a
    character below the dot lie between them (see [host_cmp_dash_misses] of Mpool).  Whenever it
    does tell two names apart, it does so by their characters from the end; and so the
    tree stays in that order, and [mem_add] finds what it deletes. *)
From Stdlib Require Import ZArith Lia String.
From stdpp Require Import base numbers list option sorting.
From S2P Require Import Prelude CMem Mpool.

#[local] Open Scope Z_scope.
#[local] Open Scope list_scope.

(** The characters from the end, and [z] behind them. *)
Definition name_to (z : Z) (b : bytes) (n : Z) : list Z := map s8 (rev (sub b 0 n)) ++ [z].
(** With an end below all of them. *)
Definition lex_name : bytes → Z → list Z := name_to (-129).
Definition lex_key (p : elem) : list Z := lex_name (e_data p) (e_len p).
Definition lex (p q : elem) : Z := prefix_cmp (lex_key p) (lex_key q).
Definition name_dom (p : elem) : Prop :=
  e_cmp_type p = CMP_HOST ∧ bytes_wf (e_data p) ∧ 0 <= e_len p <= blen (e_data p).

#[export] Instance lex_keyed : Keyed lex name_dom lex_key.
Proof. constructor. intros p q _ _. apply prefix_cmp_sgn. Qed.

Lemma name_to_0 z b : name_to z b 0 = [z].
Proof. unfold name_to. by rewrite sub_0. Qed.
Lemma name_to_at z b p : 0 < p <= blen b → name_to z b p = s8 (bat b (p - 1)) :: name_to z b (p - 1).
Proof. intros H. unfold name_to. by rewrite rev_sub_at. Qed.

Lemma s8_inj x y : is_byte x → is_byte y → s8 x = s8 y → x = y.
Proof. unfold is_byte, s8. intros. Z.to_euclidean_division_equations. lia. Qed.

(** The loop of [host_cmp] decides as the keys do, or leaves them to what is before. *)
Lemma name_tail z pd qd n p q :
  bytes_wf pd → bytes_wf qd → Z.of_nat n <= p <= blen pd → Z.of_nat n <= q <= blen qd →
  let c := host_cmp_tail pd qd p q n in
  prefix_cmp (name_to z pd p) (name_to z qd q) =
    if negb (c =? 0) then c else
    prefix_cmp (name_to z pd (p - Z.of_nat n)) (name_to z qd (q - Z.of_nat n)).
Proof.
  intros Wp Wq. revert p q. induction n as [|n IH]; intros p q Hp Hq.
  { cbn. by rewrite !Z.sub_0_r. }
  cbn [host_cmp_tail]. cbv zeta. rewrite (name_to_at z pd p), (name_to_at z qd q) by lia.
  pose proof (s8_inj _ _ (bat_byte pd (p - 1) Wp) (bat_byte qd (q - 1) Wq)) as Hi. cbn [prefix_cmp].
  destruct (Z.eqb_spec (bat pd (p - 1)) (bat qd (q - 1))) as [->|]; cbn [negb].
  - rewrite Z.ltb_irrefl, IH by lia.
    replace (p - 1 - Z.of_nat n) with (p - Z.of_nat (S n)) by lia.
    by replace (q - 1 - Z.of_nat n) with (q - Z.of_nat (S n)) by lia.
  - destruct (Z.ltb_spec (s8 (bat pd (p - 1))) (s8 (bat qd (q - 1)))),
      (Z.ltb_spec (s8 (bat qd (q - 1))) (s8 (bat pd (p - 1)))); cbn; lia.
Qed.

(** An empty name is below every other. *)
Lemma lex_name_end b n : 0 < n <= blen b →
  prefix_cmp (lex_name b n) (lex_name b 0) = 1 ∧ prefix_cmp (lex_name b 0) (lex_name b n) = -1.
Proof.
  intros H. unfold lex_name. rewrite name_to_0, name_to_at by lia. cbn [prefix_cmp]. pose proof (s8_range (bat b (n - 1))).
  destruct (Z.ltb_spec (s8 (bat b (n - 1))) (-129)), (Z.ltb_spec (-129) (s8 (bat b (n - 1)))); lia.
Qed.

Lemma scmp_lex p q : name_dom p → name_dom q → scmp p q = 0 ∨ scmp p q = lex p q.
Proof.
  intros (Hp & Wp & Lp) (Hq & Wq & Lq). unfold scmp, host_cmp. rewrite Hp.
  change (CMP_HOST =? CMP_BITS) with false. change (CMP_HOST =? CMP_HOST) with true.
  cbv beta iota zeta. unfold lex, lex_key, lex_name.
  set (len := if e_len q <? e_len p then e_len q else e_len p).
  assert (Hlen : len = Z.min (e_len p) (e_len q)).
  { subst len. destruct (Z.ltb_spec (e_len q) (e_len p)); lia. }
  pose proof (name_tail (-129) (e_data p) (e_data q) (Z.to_nat len) (e_len p) (e_len q) Wp Wq) as H.
  rewrite Z2Nat.id in H by lia. rewrite H by lia. clear H. cbv zeta.
  set (c := host_cmp_tail _ _ _ _ _). destruct (Z.eqb_spec c 0); cbn [negb]; [|by right].
  destruct (_ || _) eqn:E; [by left|]. right. apply orb_false_iff in E as [Hne _]. apply Z.eqb_neq in Hne.
  destruct (Z.ltb_spec (e_len q) (e_len p)).
  - replace (e_len q - len) with 0 by lia. rewrite (name_to_0 (-129) (e_data q)), <- (name_to_0 (-129) (e_data p)).
    symmetry. apply lex_name_end. lia.
  - replace (e_len p - len) with 0 by lia. rewrite (name_to_0 (-129) (e_data p)), <- (name_to_0 (-129) (e_data q)).
    symmetry. apply lex_name_end. lia.
Qed.

(** * Trees in this order *)

(** [scmp] takes the way of [lex] from node to node, or stops. *)
Lemma descend_lex x t p : name_dom x → Forall name_dom (elements t) →
  (∃ e, descend scmp x t p = inl e ∧ e ∈ elements t ∧ scmp x e = 0) ∨
  descend scmp x t p = descend lex x t p.
Proof.
  intros Hx. revert p. induction t as [|l IHl e b sz r IHr]; intros p Hd; cbn [descend elements] in *; [by right|].
  apply Forall_app in Hd as [Hl Hr]. apply list.Forall_cons in Hr as [He Hr].
  destruct (Z.eqb_spec (scmp x e) 0) as [|Hne]; [left; exists e; split_and!; [done|apply elem_mid|done]|].
  destruct (scmp_lex x e Hx He) as [|E]; [done|]. rewrite E in Hne |- *.
  rewrite (proj2 (Z.eqb_neq _ _) Hne). destruct (0 <? lex x e).
  - destruct (IHr (Frame true l e b sz :: p) Hr) as [(v & -> & Hv & Hc)| -> ]; [left|by right].
    exists v. split_and!; [done|by apply elem_right|done].
  - destruct (IHl (Frame false r e b sz :: p) Hl) as [(v & -> & Hv & Hc)| -> ]; [left|by right].
    exists v. split_and!; [done|by apply elem_left|done].
Qed.

(** [kavl_erase] by [scmp] takes out an element, when one is equal by [lex]. *)
Lemma erase_lex x t p : name_dom x → Forall name_dom (elements t) → cuts lex x (elements t) →
  avl t → ctx_ok p (height t) (tsize t - 1) → Exists (λ y, lex x y = 0) (elements t) →
  ∃ t' a e b, erase_at scmp x t p = Ok (t', Some e) ∧ avl t' ∧
    elements t = a ++ e :: b ∧ elements t' = before p ++ (a ++ b) ++ after p.
Proof.
  intros Hx. revert p. induction t as [|l IHl e b sz r IHr]; intros p Hd Hc Ht Hp Hex; cbn [erase_at].
  { by apply Exists_nil in Hex. }
  destruct (cuts_node _ _ _ _ _ _ _ Hc) as (Hl & Hr & Hlt & Hgt). cbn [elements] in *.
  pose proof Ht as (Htl & Htr & Hb & Hb' & Hz). apply Forall_app in Hd as [Hdl Hdr].
  apply list.Forall_cons in Hdr as [He Hdr].
  destruct (Z.eqb_spec (scmp x e) 0) as [|Hne].
  { destruct (unlink_ok l e b sz r p Ht Hp) as (t' & -> & Ht' & He').
    rewrite bind_ok. by exists t', (elements l), e, (elements r). }
  destruct (scmp_lex x e Hx He) as [|E]; [done|]. rewrite E in Hne |- *.
  rewrite Exists_app, Exists_cons in Hex. destruct (Z.ltb_spec 0 (lex x e)).
  - destruct (IHr (Frame true l e b (sz - 1) :: p)) as (t' & a1 & e1 & b1 & -> & Ht' & E1 & E2); [done..| | |].
    { cbn [ctx_ok f_sib f_b f_dir f_sz]. cbn [height tsize] in Hp. split_and!; try done; try lia. by rewrite Z.max_comm. }
    { destruct Hex as [Hex|[Hex|]]; [|done..]. apply Exists_exists in Hex as (y & Hy & Ey).
      pose proof (Hlt ltac:(lia)) as Hall. rewrite Forall_forall in Hall. specialize (Hall y Hy). cbv beta in Hall. lia. }
    exists t', (elements l ++ e :: a1), e1, b1. split_and!; [done..| |].
    + rewrite E1. by rewrite <- !app_assoc.
    + rewrite E2. cbn. by rewrite <- !app_assoc.
  - destruct (IHl (Frame false r e b (sz - 1) :: p)) as (t' & a1 & e1 & b1 & -> & Ht' & E1 & E2); [done..| | |].
    { cbn [ctx_ok f_sib f_b f_dir f_sz]. cbn [height tsize] in Hp. split_and!; try done; lia. }
    { destruct Hex as [|[Hex|Hex]]; [done..|]. apply Exists_exists in Hex as (y & Hy & Ey).
      pose proof (Hgt ltac:(lia)) as Hall. rewrite Forall_forall in Hall. specialize (Hall y Hy). cbv beta in Hall. lia. }
    exists t', a1, e1, (b1 ++ e :: elements r). split_and!; [done..| |].
    + rewrite E1. by rewrite <- !app_assoc.
    + rewrite E2. cbn. by rewrite app_nil_r, <- !app_assoc.
Qed.

(** * Adding *)

(** A pool of names in the order of their characters from the end. *)
Record names_ok (hdr : mphdr) : Prop := {
  no_avl : avl (mp_root hdr);
  no_order : in_order lex name_dom (pool_elems hdr);
  no_count : mp_count hdr = Z.of_nat (length (pool_elems hdr));
  no_type : mp_cmp_type hdr = CMP_HOST
}.
Lemma names_ok_empty flags : names_ok (mem_pool flags CMP_HOST).
Proof. split; [done|split; constructor|done|done]. Qed.

Lemma mem_delete_names hdr v : names_ok hdr → v ∈ pool_elems hdr →
  ∃ hdr', mem_delete hdr (e_data v) (e_len v) = Ok hdr' ∧ names_ok hdr' ∧
    S (length (pool_elems hdr')) = length (pool_elems hdr).
Proof.
  intros [Ht Ho Hc Hty] Hv. unfold mem_delete, kavl_erase. pose proof (proj2 Ho) as Hd.
  assert (Hdv : name_dom v).
  { clear -Hd Hv. cbv beta in Hd. rewrite Forall_forall in Hd. by apply Hd. }
  set (x := new_elem hdr (e_data v) (e_len v)). assert (Hx : name_dom x).
  { by destruct Hdv as (? & ? & ?). }
  destruct (erase_lex x (mp_root hdr) [] Hx Hd) as (t' & a & e & b & -> & Ht' & E1 & E2).
  - by apply (in_order_cuts lex name_dom lex_key).
  - done.
  - done.
  - apply Exists_exists. exists v. split; [done|]. unfold lex. change (lex_key x) with (lex_key v). apply prefix_cmp_refl.
  - rewrite bind_ok. eexists. split; [done|]. cbn in E2. rewrite app_nil_r in E2. unfold pool_elems in *. split.
    + split; unfold pool_elems; cbn [mp_root mp_cmp_type mp_count]; [done| |rewrite Hc, E1, E2, !length_app; simpl; lia|done].
      rewrite E2. apply (in_order_remove lex name_dom a e b). by rewrite <- E1.
    + cbn [mp_root]. rewrite E1, E2, !length_app. simpl. lia.
Qed.

Lemma mem_add_names hdr str len : names_ok hdr → bytes_wf str → 0 <= len <= blen str →
  ∃ v new hdr', mem_add hdr str len = Ok (v, new, hdr') ∧ names_ok hdr'.
Proof.
  intros Hok Hstr Hlen. unfold mem_add. set (e := new_elem hdr str len).
  assert (He : name_dom e) by (split_and!; [apply Hok|done|cbn; lia..]).
  assert (Hf : (length (pool_elems hdr) < S (length (elements (mp_root hdr))))%nat) by (unfold pool_elems; lia).
  revert Hf. generalize (S (length (elements (mp_root hdr)))) as fuel. clearbody e. revert hdr Hok.
  intros hdr Hok fuel. revert hdr Hok. induction fuel as [|fuel IH]; intros hdr Hok Hf; [lia|].
  pose proof Hok as [Ht Ho Hc Hty]. cbn [mem_add_loop]. unfold kavl_insert at 1.
  destruct (descend_lex e (mp_root hdr) [] He (proj2 Ho)) as [(v & -> & Hv & Hev)|Hd].
  - rewrite bind_ok. cbv beta iota zeta.
    replace (Mphdr (mp_flags hdr) (mp_cmp_type hdr) (mp_count hdr) (mp_root hdr)) with hdr by (by destruct hdr).
    destruct (e_len e <? e_len v); [|by eexists _, _, _].
    destruct (mem_delete_names hdr v Hok Hv) as (hdr1 & -> & Hok1 & Hl). rewrite bind_ok. apply IH; [done|lia].
  - rewrite Hd. fold (kavl_insert lex (mp_root hdr) e).
    destruct (kavl_insert_ok lex (mp_root hdr) e Ht) as [(v & -> & Hv & Hev)|(t' & a & b & -> & Ht' & E1 & E2 & Fa & Fb)].
    { by apply (in_order_cuts lex name_dom lex_key). }
    + rewrite bind_ok. cbv beta iota zeta.
      replace (Mphdr (mp_flags hdr) (mp_cmp_type hdr) (mp_count hdr) (mp_root hdr)) with hdr by (by destruct hdr).
      destruct (e_len e <? e_len v); [|by eexists _, _, _].
      destruct (mem_delete_names hdr v Hok Hv) as (hdr1 & -> & Hok1 & Hl). rewrite bind_ok. apply IH; [done|lia].
    + rewrite bind_ok. cbv beta iota zeta. eexists _, _, _. split; [done|].
      split; unfold pool_elems in *; cbn [mp_root mp_count mp_cmp_type]; rewrite ?E2; [done| |rewrite Hc, E1, !length_app; simpl; lia|done].
      apply (in_order_insert lex name_dom lex_key); [done|by rewrite <- E1|done|done].
Qed.

Lemma mem_add_all_names l hdr : names_ok hdr → Forall (λ x, bytes_wf x.1 ∧ 0 <= x.2 <= blen x.1) l →
  ∃ hdr', mem_add_all hdr l = Ok hdr' ∧ names_ok hdr'.
Proof.
  revert hdr. induction l as [|[str len] l IH]; intros hdr Hok Hl; [by exists hdr|].
  apply list.Forall_cons in Hl as [[H1 H2] Hl]. cbn [mem_add_all fst snd] in *.
  destruct (mem_add_names hdr str len Hok H1 H2) as (v & new & hdr1 & -> & Hok1). rewrite bind_ok. by apply IH.
Qed.

(** * What is found *)

(** [w] is [h] behind a character that sorts below the dot, as the dash does. *)
Definition low (h w : bytes) : Prop := ∃ x c, s8 c < 46 ∧ w = x ++ c :: h.
Definition lowb (h w : bytes) : bool :=
  let k := (length w - length h)%nat in (0 <? k)%nat && bool_decide (drop k w = h) && (s8 (nth (k - 1) w 0) <? 46).
Lemma low_lowb h w : low h w → lowb h w = true.
Proof.
  intros (x & c & Hc & ->). unfold lowb. rewrite length_app. cbn [length]. replace (length x + S (length h) - length h)%nat with (S (length x)) by lia.
  cbn [Nat.ltb Nat.leb andb]. rewrite drop_app_ge, bool_decide_eq_true_2 by (lia || (rewrite ?drop_app_ge by lia; by replace (S (length x) - length x)%nat with 1%nat by lia)).
  cbn [andb]. replace (S (length x) - 1)%nat with (length x) by lia. rewrite nth_middle. by apply Z.ltb_lt.
Qed.
(** No word of the list is another one behind such a character. *)
Definition dash_free (l : list bytes) : Prop := ∀ h w, h ∈ l → w ∈ l → ¬ low h w.
Lemma dash_free_b l : forallb (λ h, forallb (λ w, negb (lowb h w)) l) l = true → dash_free l.
Proof.
  intros H h w Hh Hw Hl%low_lowb. rewrite forallb_forall in H. apply list_elem_of_In in Hh, Hw. specialize (H h Hh). cbv beta in H.
  rewrite forallb_forall in H. specialize (H w Hw). by rewrite Hl in H.
Qed.
Definition name_key (p : elem) : list Z := name_to 46 (e_data p) (e_len p).

Lemma e_name_len p : name_dom p → blen (e_name p) = e_len p.
Proof. intros (_ & _ & H). unfold e_name. rewrite blen_sub; lia. Qed.
Lemma e_name_wf p : name_dom p → bytes_wf (e_name p).
Proof. intros (_ & H & _). by apply wf_sub. Qed.

(** The loop has found no difference in the last [n] characters. *)
Lemma tail_equal pd qd n p q : Z.of_nat n <= p <= blen pd → Z.of_nat n <= q <= blen qd → host_cmp_tail pd qd p q n = 0 →
  sub pd (p - Z.of_nat n) (Z.of_nat n) = sub qd (q - Z.of_nat n) (Z.of_nat n).
Proof.
  revert p q. induction n as [|n IH]; intros p q Hp Hq; [by rewrite !sub_0|]. cbn [host_cmp_tail]. cbv zeta.
  destruct (Z.eqb_spec (bat pd (p - 1)) (bat qd (q - 1))) as [E|]; cbn [negb]; [|by destruct (_ <? _)].
  intros H. apply IH in H; [|lia..].
  rewrite (sub_split pd (p - Z.of_nat (S n)) (Z.of_nat (S n)) (Z.of_nat n)), (sub_split qd (q - Z.of_nat (S n)) (Z.of_nat (S n)) (Z.of_nat n)) by lia.
  replace (p - Z.of_nat (S n)) with (p - 1 - Z.of_nat n) by lia. replace (q - Z.of_nat (S n)) with (q - 1 - Z.of_nat n) by lia.
  rewrite H. f_equal. replace (Z.of_nat (S n) - Z.of_nat n) with 1 by lia.
  apply bytes_ext; [rewrite !blen_sub by lia; done|]. rewrite blen_sub by lia. intros i Hi. rewrite !bat_sub by lia.
  replace (p - 1 - Z.of_nat n + Z.of_nat n + i) with (p - 1) by lia. by replace (q - 1 - Z.of_nat n + Z.of_nat n + i) with (q - 1) by lia.
Qed.

Lemma tail_sym pd qd p q n : host_cmp_tail pd qd p q n = 0 → host_cmp_tail qd pd q p n = 0.
Proof.
  revert p q. induction n as [|n IH]; intros p q; [done|]. cbn [host_cmp_tail]. cbv zeta. rewrite (Z.eqb_sym (bat qd _)).
  destruct (bat pd (p - 1) =? bat qd (q - 1)); cbn [negb]; [apply IH|]. by destruct (s8 _ <? s8 _).
Qed.

(** The end of the longer of two names whose last characters are equal. *)
Lemma longer_name p q : name_dom p → name_dom q → e_len q < e_len p →
  host_cmp_tail (e_data p) (e_data q) (e_len p) (e_len q) (Z.to_nat (e_len q)) = 0 →
  ∃ x, e_name p = x ++ bat (e_data p) (e_len p - e_len q - 1) :: e_name q.
Proof.
  intros (_ & _ & Lp) (_ & _ & Lq) Hlt H. apply tail_equal in H; [|lia..]. rewrite Z2Nat.id, Z.sub_diag in H by lia.
  exists (sub (e_data p) 0 (e_len p - e_len q - 1)). unfold e_name. rewrite <- H.
  rewrite (sub_split (e_data p) 0 (e_len p) (e_len p - e_len q)), Z.add_0_l by lia.
  replace (e_len p - e_len q) with (e_len p - e_len q - 1 + 1) at 1 by lia. rewrite sub_snoc by lia. rewrite <- app_assoc. cbn [app].
  by replace (e_len p - (e_len p - e_len q)) with (e_len q) by lia.
Qed.

(** Unless a character below the dot is where one name ends, the comparison is that of the keys. *)
Lemma scmp_name p q : name_dom p → name_dom q → ¬ low (e_name p) (e_name q) → ¬ low (e_name q) (e_name p) →
  Z.sgn (scmp p q) = prefix_cmp (name_key p) (name_key q).
Proof.
  intros Hp Hq Hpq Hqp. pose proof Hp as (Tp & Wp & Lp). pose proof Hq as (Tq & Wq & Lq). unfold scmp, host_cmp. rewrite Tp.
  change (CMP_HOST =? CMP_BITS) with false. change (CMP_HOST =? CMP_HOST) with true.
  cbv beta iota zeta. unfold name_key.
  set (len := if e_len q <? e_len p then e_len q else e_len p).
  assert (Hlen : len = Z.min (e_len p) (e_len q)) by (subst len; destruct (Z.ltb_spec (e_len q) (e_len p)); lia).
  pose proof (name_tail 46 (e_data p) (e_data q) (Z.to_nat len) (e_len p) (e_len q) Wp Wq) as H.
  rewrite Z2Nat.id in H by lia. rewrite H by lia. clear H. cbv zeta.
  set (c := host_cmp_tail _ _ _ _ _). destruct (Z.eqb_spec c 0) as [Ec|]; cbn [negb].
  2: { subst c. generalize (Z.to_nat len) (e_len p) (e_len q). intros m. induction m as [|m IH];
       intros a b; cbn [host_cmp_tail]; [done|]. destruct (_ =? _); cbn [negb]; [apply IH|]. case_match; reflexivity. }
  destruct (Z.eqb_spec (e_len p) (e_len q)) as [E|]; cbn [orb].
  { replace (e_len q - len) with 0 by lia. replace (e_len p - len) with 0 by lia. by rewrite !name_to_0. }
  assert (H46 : ∀ x, is_byte x → s8 x = 46 ↔ x = 46) by (intros x Hx; split; [intros Hs; by apply s8_inj; [| |rewrite Hs]|by intros ->]).
  destruct (Z.ltb_spec (e_len q) (e_len p)); subst len.
  - replace (e_len q - e_len q) with 0 by lia. rewrite name_to_0, name_to_at by lia. cbn [prefix_cmp].
    pose proof (bat_byte (e_data p) (e_len p - e_len q - 1) Wp) as Hb. specialize (H46 _ Hb).
    destruct (longer_name p q) as [x Ex]; [done..|].
    destruct (Z.eqb_spec (bat (e_data p) (e_len p - e_len q - 1)) 46) as [->|]; [by destruct (name_to _ _ _)|].
    destruct (Z.ltb_spec (s8 (bat (e_data p) (e_len p - e_len q - 1))) 46); [destruct Hqp; by eexists _, _|].
    destruct (Z.ltb_spec 46 (s8 (bat (e_data p) (e_len p - e_len q - 1)))); [done|lia].
  - replace (e_len p - e_len p) with 0 by lia. rewrite name_to_0, name_to_at by lia. cbn [prefix_cmp].
    pose proof (bat_byte (e_data q) (e_len q - e_len p - 1) Wq) as Hb. specialize (H46 _ Hb).
    assert (Ec' : host_cmp_tail (e_data q) (e_data p) (e_len q) (e_len p) (Z.to_nat (e_len p)) = 0) by (by apply tail_sym).
    destruct (longer_name q p) as [x Ex]; [done|done|lia|done|].
    destruct (Z.eqb_spec (bat (e_data q) (e_len q - e_len p - 1)) 46) as [->|]; [done|].
    destruct (Z.ltb_spec (s8 (bat (e_data q) (e_len q - e_len p - 1))) 46); [destruct Hpq; by eexists _, _|].
    destruct (Z.ltb_spec 46 (s8 (bat (e_data q) (e_len q - e_len p - 1)))); [done|lia].
Qed.

Lemma prefix_s8 a b : bytes_wf a → bytes_wf b → map s8 a `prefix_of` map s8 b ↔ a `prefix_of` b.
Proof.
  intros Ha. revert b. induction Ha as [|x a Hx Ha IH]; intros b Hb; [by split; intros _; apply prefix_nil|].
  destruct Hb as [|y b Hy Hb]; [by split; intros ?%prefix_nil_not|]. cbn [map]. split.
  - intros H. pose proof (prefix_cons_inv_1 _ _ _ _ H) as Exy. apply prefix_cons_inv_2 in H. apply s8_inj in Exy as ->; [|done..].
    apply prefix_cons. by apply IH.
  - intros H. pose proof (prefix_cons_inv_1 _ _ _ _ H) as ->. apply prefix_cons_inv_2 in H. apply prefix_cons. by apply IH.
Qed.
(** Keys begin as others do exactly where names are domains of others. *)
Lemma name_covers p q : name_dom p → name_dom q → name_key p `prefix_of` name_key q ↔ in_domain (e_name q) (e_name p).
Proof.
  intros Hp Hq. rewrite <- host_covers.
  assert (E : ∀ e, name_key e = map s8 (host_key e)) by (intros e; unfold name_key, name_to, host_key; by rewrite map_app).
  assert (W : ∀ e, name_dom e → bytes_wf (host_key e)).
  { intros e He. unfold host_key. apply Forall_app. split; [|by repeat constructor]. apply Forall_rev. by apply e_name_wf. }
  rewrite !E. apply prefix_s8; auto.
Qed.
Lemma in_domain_trans a b c : in_domain a b → in_domain b c → in_domain a c.
Proof. intros [->|[x ->]] [->|[y ->]]; [by left|right; by exists y|right; by exists x|right]. exists (x ++ 46 :: y). by rewrite <- app_assoc. Qed.

(** Two ways to cut a name. *)
Lemma two_cuts {A} (x y a z : list A) c d : x ++ c :: y = a ++ d :: z →
  (y = z ∧ c = d) ∨ (∃ b, y = b ++ d :: z) ∨ (∃ b, z = b ++ c :: y).
Proof.
  intros [k [[-> E]|[-> E]]]%app_eq_app.
  - destruct k as [|k0 k]; cbn in E; injection E as <- ->; [by left|]. right. right. by exists k.
  - destruct k as [|k0 k]; cbn in E; injection E as <- ->; [by left|]. right. left. by exists k.
Qed.
Lemma prefix_cmp_longer a b c : a `prefix_of` b → prefix_cmp a c ≠ 0 → prefix_cmp b c = prefix_cmp a c.
Proof.
  intros [k ->]. revert c. induction a as [|x a IH]; intros c H; [by destruct c|]. destruct c as [|y c]; [done|].
  cbn [app prefix_cmp] in *. destruct (x <? y), (y <? x); try done. by apply IH.
Qed.

Section names.
Context (S : list bytes) (HS : dash_free S).
Definition listed (p : elem) : Prop := name_dom p ∧ e_name p ∈ S.

#[local] Instance names_keyed : Keyed scmp listed name_key.
Proof. constructor. intros p q [Hp Ip] [Hq Iq]. apply scmp_name; auto. Qed.
Lemma length_name_key p : name_dom p → Z.of_nat (length (name_key p)) = e_len p + 1.
Proof.
  intros Hp. pose proof (e_name_len p Hp) as H. unfold name_key, name_to. fold (e_name p). unfold blen in H.
  rewrite length_app, length_map, length_rev. cbn [length]. lia.
Qed.
#[local] Instance names_order : Pool_order listed name_key.
Proof.
  split; [apply _| |].
  - intros p q [Hp _] [Hq _] _. pose proof (length_name_key p Hp). pose proof (length_name_key q Hq). lia.
  - intros hdr p [(H1 & H2) Hi] Ht. split; [|done]. split; [|done]. split; [cbn; congruence|done].
Qed.

Lemma kavl_find_in t q e : kavl_find scmp t q = Some e → e ∈ elements t ∧ scmp q e = 0.
Proof.
  induction t as [|l IHl x b sz r IHr]; cbn [kavl_find elements]; [done|].
  destruct (Z.ltb_spec (scmp q x) 0); [intros [? ?]%IHl; split; [by apply elem_left|done]|].
  destruct (Z.ltb_spec 0 (scmp q x)); [intros [? ?]%IHr; split; [by apply elem_right|done]|].
  intros [= <-]. split; [apply elem_mid|lia].
Qed.
Lemma kavl_find_same t q v : (∀ y, y ∈ elements t → Z.sgn (scmp q y) = Z.sgn (scmp v y)) → kavl_find scmp t q = kavl_find scmp t v.
Proof.
  induction t as [|l IHl x b sz r IHr]; intros H; cbn [kavl_find elements] in *; [done|]. pose proof (H x (elem_mid _ _ _)).
  rewrite IHl, IHr by (intros y Hy; apply H; first [by apply elem_left|by apply elem_right]).
  destruct (Z.ltb_spec (scmp q x) 0), (Z.ltb_spec (scmp v x) 0); try lia; try done.
  by destruct (Z.ltb_spec 0 (scmp q x)), (Z.ltb_spec 0 (scmp v x)); try lia.
Qed.

(** A name is on the way to any domain of it that is in the pool. *)
Lemma same_way q z y : name_dom q → listed z → listed y → in_domain (e_name q) (e_name z) → z = y ∨ scmp z y ≠ 0 →
  Z.sgn (scmp q y) = Z.sgn (scmp z y).
Proof.
  intros Hq Hz Hy Hin Hzy. pose proof Hz as [Nz Iz]. pose proof Hy as [Ny Iy].
  assert (Hrel : ∀ v, listed v → in_domain (e_name v) (e_name z) → scmp z v = 0).
  { intros v Hv Hd. apply (scmp_related listed name_key); [done|done|]. left. apply name_covers; [done|apply Hv|done]. }
  assert (Hdot : ∀ c : Z, s8 c < 46 → c ≠ 46) by (intros c Hc ->; by vm_compute in Hc).
  assert (Hqy : ¬ low (e_name q) (e_name y)).
  { intros (x & c & Hc & E). destruct Hin as [Ein|[a Ein]]; rewrite Ein in E; [by apply (HS (e_name z) (e_name y) Iz Iy); exists x, c|].
    assert (Hd : in_domain (e_name y) (e_name z)) by (right; exists (x ++ c :: a); by rewrite E, <- app_assoc).
    destruct Hzy as [->|Hne]; [|by apply Hne, Hrel]. apply (f_equal length) in E. rewrite !length_app in E. cbn in E. rewrite length_app in E. cbn in E. lia. }
  assert (Hyq : ¬ low (e_name y) (e_name q)).
  { intros (x & c & Hc & E). destruct Hin as [Ein|[a Ein]]; rewrite Ein in E; [by apply (HS (e_name y) (e_name z) Iy Iz); exists x, c|].
    symmetry in E. destruct (two_cuts _ _ _ _ _ _ E) as [[_ ?]|[[b Eb]|[b Eb]]]; [by apply (Hdot c)| |].
    - assert (Hd : in_domain (e_name y) (e_name z)) by (right; by exists b).
      destruct Hzy as [->|Hne]; [|by apply Hne, Hrel]. apply (f_equal length) in Eb. rewrite length_app in Eb. cbn in Eb. lia.
    - apply (HS (e_name y) (e_name z) Iy Iz). by exists b, c. }
  rewrite scmp_name by done. rewrite (keyed_sgn (cmp := scmp) (dom := listed) (key := name_key) z y) by done.
  assert (Hpre : name_key z `prefix_of` name_key q) by (by apply name_covers).
  destruct Hzy as [->|Hne].
  - rewrite prefix_cmp_refl. apply prefix_cmp_0. by right.
  - apply prefix_cmp_longer; [done|]. intros E. apply Hne. apply (keyed_eq scmp listed name_key); done.
Qed.

(** What is found with a name that is no longer: the name, or a domain of it. *)
Lemma found_domain p q : name_dom p → name_dom q → scmp p q = 0 → e_len q <= e_len p → in_domain (e_name p) (e_name q).
Proof.
  intros Hp Hq H Hle. pose proof Hp as (Tp & Wp & Lp). pose proof Hq as (Tq & Wq & Lq). unfold scmp, host_cmp in H. rewrite Tp in H.
  change (CMP_HOST =? CMP_BITS) with false in H. change (CMP_HOST =? CMP_HOST) with true in H. cbv beta iota zeta in H.
  set (len := if e_len q <? e_len p then e_len q else e_len p) in H.
  assert (Hlen : len = e_len q) by (subst len; destruct (Z.ltb_spec (e_len q) (e_len p)); lia). rewrite Hlen in H.
  destruct (Z.eqb_spec (host_cmp_tail (e_data p) (e_data q) (e_len p) (e_len q) (Z.to_nat (e_len q))) 0) as [Ec|]; cbn [negb] in H; [|done].
  destruct (Z.eqb_spec (e_len p) (e_len q)) as [E|]; cbn [orb] in H.
  - left. apply tail_equal in Ec; [|lia..]. rewrite Z2Nat.id, E, Z.sub_diag in Ec by lia. unfold e_name. by rewrite E.
  - destruct (Z.ltb_spec (e_len q) (e_len p)); [|lia]. destruct (longer_name p q) as [x Ex]; [done..|lia|done|].
    replace (e_len p - e_len q - 1) with (e_len p - e_len q - 1) in H by lia.
    destruct (Z.eqb_spec (bat (e_data p) (e_len p - e_len q - 1)) 46) as [E46|]; [|done]. right. exists x. by rewrite Ex, E46.
Qed.

Lemma names_pool_matches l flags name : bytes_wf name → Forall (λ s, bytes_wf s ∧ s ∈ S) l →
  ∃ hdr, mem_add_all (mem_pool flags CMP_HOST) (map (λ s, (s, blen s)) l) = Ok hdr ∧
    ((∃ e, mem_get hdr name (blen name) = Some e ∧ e_len e <= blen name) ↔ ∃ s, s ∈ l ∧ in_domain name s).
Proof.
  intros Hn Hl. set (h := mem_pool flags CMP_HOST).
  assert (Hnew : ∀ s, bytes_wf s → name_dom (new_elem h s (blen s)) ∧ e_name (new_elem h s (blen s)) = s).
  { intros s Hs. split; [split; [done|]; split; [done|cbn; pose proof (blen_nonneg s); lia]|]. unfold e_name. cbn. apply sub_all. }
  rewrite Forall_forall in Hl.
  destruct (mem_add_all_ok listed name_key (map (λ s, (s, blen s)) l) h []) as (hdr & E & Hp & Hty & Hs).
  { apply pool_ok_empty. }
  { intros y. by split; intros (e & He & _); apply elem_of_nil in He. }
  { rewrite Forall_map. apply Forall_forall. intros s Hin. destruct (Hl s Hin) as [Hw Hi]. destruct (Hnew s Hw) as [? En]. split; [done|by rewrite En]. }
  exists hdr. split; [done|]. rewrite app_nil_r, map_map in Hs. set (q := new_elem hdr name (blen name)).
  assert (Hq : name_dom q ∧ e_name q = name) by (unfold q, new_elem; rewrite Hty; by apply Hnew). destruct Hq as [Hq Eq].
  assert (Hin : ∀ e, e ∈ rev (map (λ s, new_elem h s (blen s)) l) ↔ ∃ s, s ∈ l ∧ e = new_elem h s (blen s)).
  { intros e. rewrite list_elem_of_In, <- in_rev, in_map_iff. split; intros (s & H1 & H2); exists s; rewrite list_elem_of_In in *; split; congruence || done. }
  unfold mem_get. fold q. split.
  - intros (e & He & Hle). destruct (kavl_find_in _ _ _ He) as [Hpe Hr]. pose proof (pool_dom listed hdr e Hp Hpe) as [Ne Ie].
    destruct (proj1 (Hs (name_key e))) as (y & (s & Hsl & ->)%Hin & Hy); [by exists e|]. exists s. split; [done|].
    destruct (Hl s Hsl) as [Hw _]. destruct (Hnew s Hw) as [Nn En]. rewrite <- Eq, <- En.
    apply (in_domain_trans _ (e_name e)); [by apply found_domain|]. by apply name_covers.
  - intros (s & Hsl & Hd). destruct (Hl s Hsl) as [Hw Hi]. destruct (Hnew s Hw) as [Nn En].
    destruct (proj2 (Hs (name_key (new_elem h s (blen s))))) as (z & Hz & Hzp); [eexists; split; [apply Hin; by exists s|done]|].
    pose proof (pool_dom listed hdr z Hp Hz) as Lz. pose proof Lz as [Nz Iz]. apply name_covers in Hzp; [|done..]. rewrite En in Hzp.
    assert (Hqz : in_domain (e_name q) (e_name z)) by (rewrite Eq; by eapply in_domain_trans).
    apply list_elem_of_split in Hz as Hsplit. destruct Hsplit as (a & b & El).
    destruct (in_order_mid scmp listed name_key a z b) as [Na Nb]; [rewrite <- El; apply Hp|]. rewrite Forall_forall in Na, Nb.
    assert (Hne : ∀ y, y ∈ pool_elems hdr → z = y ∨ scmp z y ≠ 0).
    { intros y Hy. rewrite El in Hy. apply elem_of_app in Hy as [Hy|[->|Hy]%elem_of_cons]; [right; by apply Na|by left|right; by apply Nb]. }
    exists z. split.
    + rewrite (kavl_find_same _ q z).
      * pose proof (kavl_find_ok scmp (mp_root hdr) z) as Hk. specialize (Hk (in_order_cuts scmp listed name_key z _ Lz (po_order _ _ Hp))).
        destruct (kavl_find scmp (mp_root hdr) z) as [v|].
        -- destruct Hk as [Hv Hr]. destruct (Hne v Hv) as [->|]; done.
        -- rewrite Forall_forall in Hk. destruct (Hk z Hz). apply (keyed_eq scmp listed name_key); [done|done|apply prefix_cmp_refl].
      * intros y Hy. apply same_way; [done|done|by apply (pool_dom listed hdr)|done|by apply Hne].
    + rewrite <- (e_name_len z Nz), <- Eq. destruct Hqz as [->|[x ->]]; [done|]. rewrite blen_app, blen_cons. pose proof (blen_nonneg x). lia.
Qed.
End names.

(** * Properties *)

(** C16: A pool of host names takes any names, in any order, those included whose characters sort
    below the dot and for which the comparison is no order: [mem_add] returns, having deleted
    each longer name it met, and the pool is again a balanced tree with the count of its names,
    in the order of their characters from the end. *)
Theorem host_pool_takes_any_name hdr str len :
  names_ok hdr → bytes_wf str → 0 <= len <= blen str →
  ∃ v new hdr', mem_add hdr str len = Ok (v, new, hdr') ∧ names_ok hdr'.
Proof. apply mem_add_names. Qed.

Lemma host_pool_takes_any_name_witness :
  ∃ v new hdr', mem_add (mem_pool MF_STATIC CMP_HOST) (bs "my-google.com") 13 = Ok (v, new, hdr') ∧ names_ok hdr'.
Proof.
  apply host_pool_takes_any_name; [apply names_ok_empty| |done].
  unfold bytes_wf, is_byte. repeat constructor; discriminate.
Defined.
