(* ===== verification/Params.v ===== *)
(** byedpi params.h: the data the engine is configured with.

    Structures are records with the fields of the C structures.  A socket address
    ([union sockaddr_u]) is its 28 bytes, because the code reads one member of the
    union after writing another. *)
From Stdlib Require Import ZArith Lia.
From stdpp Require Import base numbers list option.
From S2P Require Import Prelude CMem Mpool.

Definition OFFSET_END : Z := 1.
Definition OFFSET_MID : Z := 2.
Definition OFFSET_RAND : Z := 4.
Definition OFFSET_SNI : Z := 8.
Definition OFFSET_HOST : Z := 16.
Definition OFFSET_START : Z := 32.

Definition DETECT_HTTP_LOCAT : Z := 1.
Definition DETECT_TLS_ERR : Z := 2.
Definition DETECT_TORST : Z := 8.
Definition DETECT_CONNECT : Z := 16.

Definition AUTO_ONRECONN : Z := 1.
Definition AUTO_NORECONN : Z := 2.
Definition AUTO_SORT : Z := 4.

Definition FM_RAND : Z := 1.
Definition FM_ORIG : Z := 2.

(** packets.h *)

Definition IS_HTTP : Z := 4.
Definition IS_HTTPS : Z := 8.
Definition IS_UDP : Z := 2.
Definition IS_TCP : Z := 1.
Definition IS_IPV4 : Z := 16.

Inductive demode :=
  | DESYNC_NONE | DESYNC_SPLIT | DESYNC_DISORDER | DESYNC_OOB | DESYNC_DISOOB | DESYNC_FAKE.

#[export] Instance demode_eq_dec : EqDecision demode.
Proof. intros x y. unfold Decision. decide equality. Defined.

(** [struct part] *)
Record part := Part { p_m : demode; p_flag : Z; p_pos : Z; p_r : Z; p_s : Z }.

(** [struct packet], with its data. *)
Record packet := Packet { pk_data : bytes; pk_size : Z; pk_off : Z }.

(** [struct desync_params], the fields a Windows build reads.  [prev] and [next] are
    the numbers of the neighbouring groups. *)
Record desync_params := DesyncParams {
  dp_ttl : Z;
  dp_fake_data : option packet;
  dp_udp_fake_count : Z;
  dp_fake_offset : part;
  dp_fake_sni_list : list bytes;
  dp_fake_mod : Z;
  dp_fake_tls_size : Z;
  dp_oob_char : Z * Z;
  dp_parts : list part;
  dp_mod_http : Z;
  dp_tlsrec : list part;
  dp_tlsminor : option Z;
  dp_proto : Z;
  dp_detect : Z;
  dp_auto_level : Z;
  dp_hosts : option mphdr;
  dp_ipset : option mphdr;
  dp_pf : Z * Z;
  dp_rounds : Z * Z;
  dp_out_type : Z;
  dp_out_addr : bytes;
  dp_id : Z;
  dp_bit : Z;
  dp_fail_count : Z;
  dp_pri : Z;
  dp_cache_ttl : Z;
  dp_prev : option nat;
  dp_next : option nat
}.

(** A group as [calloc] leaves it. *)
Definition part_init : part := Part DESYNC_NONE 0 0 0 0.
Definition dp_init : desync_params := {|
  dp_ttl := 0; dp_fake_data := None; dp_udp_fake_count := 0; dp_fake_offset := part_init;
  dp_fake_sni_list := []; dp_fake_mod := 0; dp_fake_tls_size := 0; dp_oob_char := (0, 0);
  dp_parts := []; dp_mod_http := 0; dp_tlsrec := []; dp_tlsminor := None; dp_proto := 0;
  dp_detect := 0; dp_auto_level := 0; dp_hosts := None; dp_ipset := None; dp_pf := (0, 0);
  dp_rounds := (0, 0); dp_out_type := 0; dp_out_addr := repeat 0 28; dp_id := 0; dp_bit := 0;
  dp_fail_count := 0; dp_pri := 0; dp_cache_ttl := 0; dp_prev := None; dp_next := None |}.

(** The part of [struct params] that is fixed once the options are read; the list of
    groups is state of its own. *)
Record params := Params {
  pr_await_int : Z;
  pr_wait_send : bool;
  pr_def_ttl : Z;
  pr_custom_ttl : bool;
  pr_timeout : Z;
  pr_ptimeout : Z;
  pr_to_count_lim : Z;
  pr_to_bytes_lim : Z;
  pr_cache_pre : Z;
  pr_mode : Z;
  pr_ipv6 : bool;
  pr_resolve : bool;
  pr_udp : bool;
  pr_delay_conn : bool;
  pr_auto_reconnect : bool;
  pr_max_open : Z;
  pr_debug : Z;
  pr_bfsize : Z;
  pr_baddr : bytes;
  pr_dp_full_mask : Z
}.

(** error.h *)
Definition LOG_S : Z := 1.
Definition LOG_ENABLED (prm : params) : bool := LOG_S <=? pr_debug prm.

(** * Error codes *)

(** The values of errno.h, and of winsock2.h behind them. *)
Definition ENOENT : Z := 2.
Definition EAGAIN : Z := 11.
Definition ECONNREFUSED : Z := 107.
Definition ECONNRESET : Z := 108.
Definition EHOSTUNREACH : Z := 110.
Definition EINPROGRESS : Z := 112.
Definition EMSGSIZE : Z := 115.
Definition ENETUNREACH : Z := 118.
Definition ETIMEDOUT : Z := 138.
Definition EWOULDBLOCK : Z := 140.

Definition WSAEWOULDBLOCK : Z := 10035.
Definition WSAENETUNREACH : Z := 10051.
Definition WSAECONNRESET : Z := 10054.
Definition WSAETIMEDOUT : Z := 10060.
Definition WSAECONNREFUSED : Z := 10061.
Definition WSAEHOSTUNREACH : Z := 10065.

Definition unie (e : Z) : Z :=
  if e =? WSAEWOULDBLOCK then EAGAIN
  else if e =? WSAETIMEDOUT then ETIMEDOUT
  else if e =? WSAENETUNREACH then ENETUNREACH
  else if e =? WSAEHOSTUNREACH then EHOSTUNREACH
  else if e =? WSAECONNREFUSED then ECONNREFUSED
  else if e =? WSAECONNRESET then ECONNRESET
  else e.

(** * Socket addresses *)

Definition AF_INET : Z := 2.
Definition AF_INET6 : Z := 23.  (* winsock2.h *)

Definition sa_len : Z := 28.
Definition sa_family (a : bytes) : Z := bat a 0 + 256 * bat a 1.
(** [sin_port] and [sin6_port] are the same two bytes, in network order. *)
Definition sin_port (a : bytes) : bytes := sub a 2 2.
Definition sin_addr (a : bytes) : bytes := sub a 4 4.
Definition sin6_addr (a : bytes) : bytes := sub a 8 16.

Definition set_family (a : bytes) (f : Z) : bytes := put a 0 [u8 f; u8 (Z.shiftr f 8)].
Definition set_port (a p : bytes) : bytes := put a 2 p.
Definition set_sin_addr (a v : bytes) : bytes := put a 4 v.
Definition set_sin6_addr (a v : bytes) : bytes := put a 8 v.

(** The [uint16_t] a little-endian machine reads from the two bytes of a port. *)
Definition port_raw (a : bytes) : Z := bat a 2 + 256 * bat a 3.
