(* ===== verification/Inet.v ===== *)
(** [inet_ntop] and [inet_pton] of the socket library: what their documentation promises, as
    a class, and an instance. *)
From Stdlib Require Import ZArith Lia Ascii String.
From stdpp Require Import base numbers list option.
From S2P Require Import Prelude CMem Mpool Params Text.

#[local] Open Scope Z_scope.
#[local] Open Scope list_scope.

(** The bytes of an address of a family. *)
Definition ip_size (family : Z) : Z := if family =? AF_INET then 4 else 16.

(** Characters of a word: neither white space nor the end of a string. *)
Definition word_char (c : Z) : bool := negb (isspace c) && negb (c =? 0).

(** [ntop family a] is the text of an address, [pton family s] the address of a text, [None] when
    it is no address of the family. *)
Class Inet (ntop : Z → bytes → bytes) (pton : Z → bytes → option bytes) : Prop := {
  pton_size f s a : f = AF_INET ∨ f = AF_INET6 → pton f s = Some a → bytes_wf a ∧ blen a = ip_size f;
  pton_ntop f a : f = AF_INET ∨ f = AF_INET6 → bytes_wf a → blen a = ip_size f → pton f (ntop f a) = Some a;
  pton4_ntop6 a : bytes_wf a → blen a = 16 → pton AF_INET (ntop AF_INET6 a) = None;
  ntop_word f a : f = AF_INET ∨ f = AF_INET6 → bytes_wf a → blen a = ip_size f →
    forallb word_char (ntop f a) = true ∧ 1 <= blen (ntop f a) <= 39 }.

(** * An instance

    IPv4 addresses in dotted decimals, IPv6 addresses in eight groups of four hexadecimal
    digits. *)

Definition plain_ntop4 (a : bytes) : bytes :=
  dec (bat a 0) ++ [ch "."] ++ dec (bat a 1) ++ [ch "."] ++ dec (bat a 2) ++ [ch "."] ++ dec (bat a 3).
Definition octet (s : bytes) : option (Z * bytes) :=
  match scan_int s with
  | (Some v, s) => if (0 <=? v) && (v <? 256) then Some (v, s) else None
  | (None, _) => None
  end.
Definition dot (s : bytes) : option bytes := match s with c :: s => if c =? ch "." then Some s else None | [] => None end.
Definition plain_pton4 (s : bytes) : option bytes :=
  '(a, s) ← octet s; s ← dot s; '(b, s) ← octet s; s ← dot s; '(c, s) ← octet s; s ← dot s;
  '(d, s) ← octet s; match s with [] => Some [a; b; c; d] | _ => None end.

Definition hexd (v : Z) : Z := if v <? 10 then ch "0" + v else ch "a" + v - 10.
Definition hex_byte (v : Z) : bytes := [hexd (v / 16); hexd (v mod 16)].
Fixpoint plain_ntop6 (a : bytes) : bytes :=
  match a with
  | x :: y :: a => hex_byte x ++ hex_byte y ++ (if bool_decide (a = []) then [] else ch ":" :: plain_ntop6 a)
  | _ => []
  end.
Fixpoint plain_pton6 (n : nat) (s : bytes) : option bytes :=
  match s with
  | a :: b :: c :: d :: s =>
      a ← digit 16 a; b ← digit 16 b; c ← digit 16 c; d ← digit 16 d;
      match n, s with
      | 1%nat, [] => Some [16 * a + b; 16 * c + d]
      | S n, e :: s => if e =? ch ":" then l ← plain_pton6 n s; Some ([16 * a + b; 16 * c + d] ++ l) else None
      | _, _ => None
      end
  | _ => None
  end.

Definition plain_ntop (f : Z) (a : bytes) : bytes := if f =? AF_INET then plain_ntop4 a else plain_ntop6 a.
Definition plain_pton (f : Z) (s : bytes) : option bytes := if f =? AF_INET then plain_pton4 s else plain_pton6 8 s.

Lemma octet_dec v s : is_byte v → isdigit (here s) = false → octet (dec v ++ s) = Some (v, s).
Proof.
  intros Hv Hs. unfold octet. rewrite scan_int_dec by done. unfold is_byte in Hv.
  by destruct (Z.leb_spec 0 v), (Z.ltb_spec v 256); try lia.
Qed.
Lemma octet_byte s v s' : octet s = Some (v, s') → is_byte v.
Proof.
  unfold octet. destruct (scan_int s) as [[x|] r]; [|done]. destruct (Z.leb_spec 0 x), (Z.ltb_spec x 256); cbn; try done.
  by intros [= -> ->].
Qed.

Definition hexd_ok (v : Z) : bool := match digit 16 (hexd v) with Some w => w =? v | None => false end.
Lemma hexd_digit v : 0 <= v < 16 → digit 16 (hexd v) = Some v.
Proof.
  intros Hv. pose proof (forall_upto hexd_ok 16 eq_refl v Hv) as E. unfold hexd_ok in E.
  destruct (digit 16 (hexd v)) as [w|]; [|done]. f_equal. lia.
Qed.
Lemma digit_16_range c v : digit 16 c = Some v → 0 <= v < 16.
Proof.
  unfold digit. set (w := if isdigit c then _ else _). destruct (Z.ltb_spec w 16); [|done]. intros [= <-]. split; [|done].
  unfold w, isdigit. change (ch "0") with 48. change (ch "a") with 97. change (ch "A") with 65. repeat case_match; lia.
Qed.

Lemma hex_byte_digits v : is_byte v →
  digit 16 (hexd (v / 16)) = Some (v / 16) ∧ digit 16 (hexd (v mod 16)) = Some (v mod 16) ∧ 16 * (v / 16) + v mod 16 = v.
Proof.
  unfold is_byte. intros Hv. pose proof (Z.mod_pos_bound v 16). pose proof (Z.div_mod v 16).
  assert (0 <= v / 16 < 16) by (split; [apply Z.div_pos; lia|apply Z.div_lt_upper_bound; lia]).
  rewrite !hexd_digit by lia. split_and!; [done|done|lia].
Qed.
Lemma plain_pton6_last x y : is_byte x → is_byte y → plain_pton6 1 (hex_byte x ++ hex_byte y) = Some [x; y].
Proof.
  intros Hx Hy. destruct (hex_byte_digits x Hx) as (X1 & X2 & X3), (hex_byte_digits y Hy) as (Y1 & Y2 & Y3).
  cbn [hex_byte app plain_pton6]. rewrite X1, X2, Y1, Y2. cbn [mbind option_bind]. by rewrite X3, Y3.
Qed.
Lemma plain_pton6_group n x y s l : is_byte x → is_byte y → plain_pton6 (S n) s = Some l →
  plain_pton6 (S (S n)) (hex_byte x ++ hex_byte y ++ ch ":" :: s) = Some (x :: y :: l).
Proof.
  intros Hx Hy Hs. destruct (hex_byte_digits x Hx) as (X1 & X2 & X3), (hex_byte_digits y Hy) as (Y1 & Y2 & Y3).
  remember (S n) as m eqn:Em. cbn [hex_byte app plain_pton6]. rewrite X1, X2, Y1, Y2. cbn [mbind option_bind].
  rewrite X3, Y3, Hs. by rewrite Em.
Qed.

Lemma plain_pton6_ok n a : bytes_wf a → length a = (2 * S n)%nat →
  plain_pton6 (S n) (plain_ntop6 a) = Some a.
Proof.
  revert a. induction n as [|n IH]; intros [|x [|y a]] Hw Hl; try done; cbn [length] in Hl;
    apply list.Forall_cons in Hw as [Hx Hw]; apply list.Forall_cons in Hw as [Hy Hw]; cbn [plain_ntop6].
  - destruct a; [by apply plain_pton6_last|cbn in Hl; lia].
  - rewrite bool_decide_eq_false_2 by (intros ->; cbn in Hl; lia). apply plain_pton6_group; [done|done|]. apply IH; [done|lia].
Qed.
Lemma plain_pton6_size n s a : plain_pton6 n s = Some a → bytes_wf a ∧ length a = (2 * n)%nat.
Proof.
  revert s a. induction n as [|n IH]; intros [|x1 [|x2 [|x3 [|x4 s]]]] l; cbn [plain_pton6]; try done;
    destruct (digit 16 x1) eqn:E1; try done; destruct (digit 16 x2) eqn:E2; try done;
    destruct (digit 16 x3) eqn:E3; try done; destruct (digit 16 x4) eqn:E4; try done; cbn [mbind option_bind];
    try (by destruct s).
  apply digit_16_range in E1, E2, E3, E4. intros H.
  assert (Hb : bytes_wf [16 * z + z0; 16 * z1 + z2]) by (repeat apply Forall_cons_2; [unfold is_byte; lia..|apply Forall_nil_2]).
  assert (H1 : (n = 0%nat ∧ s = [] ∧ l = [16 * z + z0; 16 * z1 + z2]) ∨
    (∃ s' l', plain_pton6 n s' = Some l' ∧ l = [16 * z + z0; 16 * z1 + z2] ++ l')).
  { destruct s as [|e s]; [destruct n; [left; by injection H as <-|done]|right].
    assert (H' : (if e =? ch ":" then l ← plain_pton6 n s; Some ([16 * z + z0; 16 * z1 + z2] ++ l) else None) = Some l)
      by (by destruct n).
    destruct (e =? ch ":"); [|done]. destruct (plain_pton6 n s) as [l'|] eqn:E; [|done]. injection H' as <-. by exists s, l'. }
  destruct H1 as [(-> & _ & ->)|(s' & l' & E & ->)]; [done|]. apply IH in E as [Hw Hl].
  split; [by apply Forall_app_2|]. rewrite length_app, Hl. cbn. lia.
Qed.

(** ** IPv4 *)

Lemma dot_ok s : dot (ch "." :: s) = Some s.
Proof. done. Qed.
Lemma plain_pton4_ok a : bytes_wf a → blen a = 4 → plain_pton4 (plain_ntop4 a) = Some a.
Proof.
  intros Hw Hl. unfold blen in Hl. destruct a as [|x [|y [|z [|w [|]]]]]; cbn [length] in Hl; try lia.
  repeat (apply list.Forall_cons in Hw as [? Hw]). unfold plain_pton4, plain_ntop4.
  change (bat [x; y; z; w] 0) with x. change (bat [x; y; z; w] 1) with y. change (bat [x; y; z; w] 2) with z.
  change (bat [x; y; z; w] 3) with w. cbn [app].
  rewrite octet_dec by done. cbn [mbind option_bind]. rewrite dot_ok. cbn [mbind option_bind].
  rewrite octet_dec by done. cbn [mbind option_bind]. rewrite dot_ok. cbn [mbind option_bind].
  rewrite octet_dec by done. cbn [mbind option_bind]. rewrite dot_ok. cbn [mbind option_bind].
  rewrite <- (app_nil_r (dec w)). by rewrite octet_dec.
Qed.
Lemma plain_pton4_size s a : plain_pton4 s = Some a → bytes_wf a ∧ blen a = 4.
Proof.
  unfold plain_pton4. destruct (octet s) as [[x s1]|] eqn:E1; cbn; [|done]. destruct (dot s1) as [t1|]; cbn; [|done].
  destruct (octet t1) as [[y s2]|] eqn:E2; cbn; [|done]. destruct (dot s2) as [t2|]; cbn; [|done].
  destruct (octet t2) as [[z s3]|] eqn:E3; cbn; [|done]. destruct (dot s3) as [t3|]; cbn; [|done].
  destruct (octet t3) as [[w s4]|] eqn:E4; cbn; [|done]. destruct s4; [|done]. intros [= <-]. split; [|done].
  repeat apply Forall_cons_2; try (by eapply octet_byte). apply Forall_nil_2.
Qed.

(** ** Words *)

Lemma word_char_digit c : isdigit c = true → word_char c = true.
Proof. unfold word_char, isdigit, isspace. lia. Qed.
Lemma dec_word v : is_byte v → forallb word_char (dec v) = true ∧ 1 <= blen (dec v) <= 3.
Proof.
  intros Hv. split.
  - unfold dec, is_byte in *. destruct (Z.ltb_spec v 0); [lia|]. destruct (dec_nat_spec v) as (l & -> & Hl & _); [lia|].
    rewrite forallb_forall in Hl |- *. intros c Hc. by apply word_char_digit, Hl.
  - pose proof (forall_upto (λ v, (1 <=? blen (dec v)) && (blen (dec v) <=? 3)) 256 ltac:(vm_compute; reflexivity) v Hv) as H.
    cbv beta in H. lia.
Qed.
Lemma hexd_word v : 0 <= v < 16 → word_char (hexd v) = true.
Proof. intros Hv. by apply (forall_upto (λ v, word_char (hexd v)) 16 eq_refl). Qed.
Lemma hex_byte_word v : is_byte v → forallb word_char (hex_byte v) = true.
Proof.
  unfold is_byte. intros Hv. pose proof (Z.mod_pos_bound v 16).
  assert (0 <= v / 16 < 16) by (split; [apply Z.div_pos; lia|apply Z.div_lt_upper_bound; lia]).
  cbn. by rewrite !hexd_word by lia.
Qed.
Lemma plain_ntop6_word n a : bytes_wf a → length a = (2 * S n)%nat →
  forallb word_char (plain_ntop6 a) = true ∧ blen (plain_ntop6 a) = 5 * Z.of_nat (S n) - 1.
Proof.
  revert a. induction n as [|n IH]; intros [|x [|y a]] Hw Hl; try done; cbn [length] in Hl;
    apply list.Forall_cons in Hw as [Hx Hw]; apply list.Forall_cons in Hw as [Hy Hw]; cbn [plain_ntop6];
    rewrite !forallb_app, !blen_app, !hex_byte_word by done; change (blen (hex_byte _)) with 2.
  - destruct a; [done|cbn in Hl; lia].
  - rewrite bool_decide_eq_false_2 by (intros ->; cbn in Hl; lia). destruct (IH a) as [H1 H2]; [done|lia|].
    cbn [forallb]. rewrite H1, blen_cons, H2. split; [done|lia].
Qed.

(** A text without a dot is no IPv4 address. *)
Lemma number_forallb f base s acc v r : forallb f s = true → number base s acc = (v, r) → forallb f r = true.
Proof.
  revert acc. induction s as [|c s IH]; intros acc Hs; cbn [number]; [by intros [= <- <-]|].
  pose proof Hs as Hs'. cbn in Hs. apply andb_true_iff in Hs as [_ Hs].
  destruct (digit base c); [by apply IH|by intros [= <- <-]].
Qed.
Lemma drop_while_forallb f g s : forallb f s = true → forallb f (drop_while g s) = true.
Proof. induction s as [|c s IH]; [done|]. cbn. intros H. destruct (g c); [|done]. apply IH. by apply andb_true_iff in H as [_ ?]. Qed.
Lemma tail_forallb f (s : bytes) : forallb f s = true → forallb f (tail s) = true.
Proof. destruct s; [done|]. cbn. intros H. by apply andb_true_iff in H as [_ ?]. Qed.
Lemma octet_forallb f s v r : forallb f s = true → octet s = Some (v, r) → forallb f r = true.
Proof.
  intros Hs. unfold octet, scan_int, scan_space, sign_of. apply (drop_while_forallb f isspace) in Hs.
  set (t := drop_while isspace s) in *. set (x := if here t =? ch "-" then _ else _). assert (Hx : forallb f x.2 = true).
  { unfold x. destruct (here t =? ch "-"); [by apply tail_forallb|]. destruct (here t =? ch "+"); [by apply tail_forallb|done]. }
  destruct x as [neg u]. cbn in Hx. destruct (is_digit 10 (here u)); [|done]. destruct (number 10 u 0) as [w q] eqn:E.
  apply (number_forallb f) in E; [|done]. destruct (_ && _); [|done]. by intros [= <- <-].
Qed.
Lemma no_dot s : forallb (λ c, negb (c =? ch ".")) s = true → plain_pton4 s = None.
Proof.
  intros Hs. unfold plain_pton4. destruct (octet s) as [[v r]|] eqn:E; [|done]. cbn. apply octet_forallb with (1 := Hs) in E.
  destruct r as [|c r]; [done|]. cbn in E |- *. by destruct (c =? ch ".").
Qed.
Lemma hexd_no_dot v : 0 <= v < 16 → negb (hexd v =? ch ".") = true.
Proof. intros Hv. by apply (forall_upto (λ v, negb (hexd v =? ch ".")) 16 eq_refl). Qed.
Lemma hex_byte_no_dot v : is_byte v → forallb (λ c, negb (c =? ch ".")) (hex_byte v) = true.
Proof.
  unfold is_byte. intros Hv. pose proof (Z.mod_pos_bound v 16).
  assert (0 <= v / 16 < 16) by (split; [apply Z.div_pos; lia|apply Z.div_lt_upper_bound; lia]).
  cbn [hex_byte forallb]. by rewrite !hexd_no_dot by lia.
Qed.
Lemma plain_ntop6_no_dot n a : bytes_wf a → length a = (2 * n)%nat → forallb (λ c, negb (c =? ch ".")) (plain_ntop6 a) = true.
Proof.
  revert a. induction n as [|n IH]; intros [|x [|y a]] Hw Hl; try done; cbn [length] in Hl; try lia.
  apply list.Forall_cons in Hw as [Hx Hw]; apply list.Forall_cons in Hw as [Hy Hw]; cbn [plain_ntop6].
  rewrite !forallb_app, !hex_byte_no_dot by done. cbn [andb]. case_bool_decide; [done|]. cbn [forallb].
  rewrite IH by (done || lia). done.
Qed.
Lemma plain_ntop4_word a : bytes_wf a → blen a = 4 →
  forallb word_char (plain_ntop4 a) = true ∧ 1 <= blen (plain_ntop4 a) <= 39.
Proof.
  intros Hw Hl. unfold plain_ntop4. rewrite !forallb_app, !blen_app.
  destruct (dec_word (bat a 0) (bat_byte a 0 Hw)) as [-> ?], (dec_word (bat a 1) (bat_byte a 1 Hw)) as [-> ?],
    (dec_word (bat a 2) (bat_byte a 2 Hw)) as [-> ?], (dec_word (bat a 3) (bat_byte a 3 Hw)) as [-> ?].
  change (blen [ch "."]) with 1. split; [done|lia].
Qed.

#[export] Instance plain_inet : Inet plain_ntop plain_pton.
Proof.
  assert (H6 : ∀ a, blen a = 16 → length a = (2 * 8)%nat) by (unfold blen; lia).
  split.
  - intros f s a [-> | ->] H; [by apply plain_pton4_size in H|]. change (plain_pton6 8 s = Some a) in H.
    apply plain_pton6_size in H as [Hw Hl]. split; [done|]. unfold blen. by rewrite Hl.
  - intros f a [-> | ->] Hw Hl; [by apply plain_pton4_ok|].
    change (plain_pton6 8 (plain_ntop6 a) = Some a). apply (plain_pton6_ok 7); [done|by apply H6].
  - intros a Hw Hl. change (plain_pton4 (plain_ntop6 a) = None). apply H6 in Hl.
    by apply no_dot, (plain_ntop6_no_dot 8).
  - intros f a [-> | ->] Hw Hl.
    + by apply plain_ntop4_word.
    + apply H6 in Hl. destruct (plain_ntop6_word 7 a Hw Hl) as [H1 H2]. change (plain_ntop AF_INET6 a) with (plain_ntop6 a).
      by rewrite H1, H2.
Qed.
