(* ===== verification/Desync.v ===== *)
(** byedpi desync.c: how the first data of a connection is sent.

    [tamp] rewrites the request, [desync] cuts it into parts and sends each the way
    its group says, [send_fake] lets a decoy travel in front of a part and
    [desync_udp] sends decoy datagrams.

    System calls are recorded, in order, in a log; what they answer is a parameter,
    a function of the log up to and including the call ([os]), so that nothing is
    assumed about the system except where a theorem says so.  [rand()] is a stream
    and the bytes [malloc] leaves in a new block are a parameter. *)
From Stdlib Require Import ZArith Lia Ascii String.
From stdpp Require Import base numbers list option.
From S2P Require Import Prelude CMem PacketsTls PacketsHttp Mpool Params.

#[local] Open Scope Z_scope.
#[local] Open Scope list_scope.

(** * State *)

(** [struct proto_info] *)
Record proto_info := ProtoInfo {
  pi_init : bool; pi_type : Z; pi_host_len : Z; pi_host_pos : Z }.
Definition no_info : proto_info := ProtoInfo false 0 0 0.

(** An open temporary file: its contents and the file pointer. *)
Record tfile := TFile { fl_data : bytes; fl_pos : Z }.
(** [struct tf_s]; a file handle is a number, 0 the null handle. *)
Record tf_s := Tf { tf_file : Z; tf_event : Z }.

Inductive sys :=
  | SSend (oob : bool) (data : bytes)
  | SSetHops6 (ttl : Z)
  | SSetTtl4 (ttl : Z)
  | SGetE
  | SSetTimer (ms : Z)
  | SMalloc (n : Z)
  | SWait
  | SGetTempPath | SGetTempFileName | SCreateFile
  | SWriteFile (h : Z) (data : bytes)
  | SSetFilePointer (h pos : Z)
  | SSetEndOfFile (h : Z)
  | SCreateEvent
  | STransmit (h n : Z) (data : bytes)
  | SGetLastError | SWSAGetLastError
  | SCloseHandle (h : Z).

(** The socket's pair, the engine's globals and the objects of the call. *)
Record dstate := DState {
  d_log : list sys;
  d_rand : nat;
  d_buf : bytes;
  d_info : proto_info;
  d_restore_ttl : bool;
  d_part_sent : Z;
  d_tf_count : Z;
  d_tf : list tf_s;
  d_files : list tfile
}.

Definition set_log l s := DState l (d_rand s) (d_buf s) (d_info s) (d_restore_ttl s)
  (d_part_sent s) (d_tf_count s) (d_tf s) (d_files s).
Definition set_rand k s := DState (d_log s) k (d_buf s) (d_info s) (d_restore_ttl s)
  (d_part_sent s) (d_tf_count s) (d_tf s) (d_files s).
Definition set_buf b s := DState (d_log s) (d_rand s) b (d_info s) (d_restore_ttl s)
  (d_part_sent s) (d_tf_count s) (d_tf s) (d_files s).
Definition set_info i s := DState (d_log s) (d_rand s) (d_buf s) i (d_restore_ttl s)
  (d_part_sent s) (d_tf_count s) (d_tf s) (d_files s).
Definition set_restore b s := DState (d_log s) (d_rand s) (d_buf s) (d_info s) b
  (d_part_sent s) (d_tf_count s) (d_tf s) (d_files s).
Definition set_part_sent p s := DState (d_log s) (d_rand s) (d_buf s) (d_info s)
  (d_restore_ttl s) p (d_tf_count s) (d_tf s) (d_files s).
Definition set_tfs n t s := DState (d_log s) (d_rand s) (d_buf s) (d_info s)
  (d_restore_ttl s) (d_part_sent s) n t (d_files s).
Definition set_files f s := DState (d_log s) (d_rand s) (d_buf s) (d_info s)
  (d_restore_ttl s) (d_part_sent s) (d_tf_count s) (d_tf s) f.

Definition DEFAULT_TTL : Z := 8.
Definition ERR_WAIT : Z := -12.
Definition MAX_TF : Z := 2.

Definition http_data : bytes :=
  bs "GET / HTTP/1.1" ++ [13; 10] ++ bs "Host: www.wikipedia.org" ++ [13; 10; 13; 10].
(** main.c *)
Definition fake_tls : packet := Packet tls_data 517 0.
Definition fake_http : packet := Packet http_data 43 0.
Definition udp_data : bytes := repeat 0 64.
Definition fake_udp : packet := Packet udp_data 64 0.

(** * Operations *)

Section desync.
Context (prm : params).
(** What the system answers to the last call of a log. *)
Context (os : list sys → Z).
Context (rand : nat → Z).
(** The contents of a block fresh from [malloc]. *)
Context (junk : Z → bytes).
(** The rounds granted to [merge_tls_records]. *)
Context (fuel : nat).

Abbreviation M := (ST dstate).

Definition call (c : sys) : M Z := λ s,
  let l := d_log s ++ [c] in Ok (os l, set_log l s).
Definition next_rand : M Z := λ s, Ok (rand (d_rand s), set_rand (S (d_rand s)) s).
(** [get_e()] *)
Definition get_e : M Z := e ← call SGetE; mret (unie e).

Definition setttl (ttl : Z) : M Z :=
  ret6 ← call (SSetHops6 ttl);
  ret4 ← call (SSetTtl4 ttl);
  mret (if negb (ret4 =? 0) && negb (ret6 =? 0) then -1 else 0).

(** [send(sfd, buffer + p, n, flags)] *)
Definition send_buf (oob : bool) (p n : Z) : M Z :=
  b ← gets d_buf; l ← lift (rds b p n); call (SSend oob l).

Definition init_proto_info (buffer : bytes) (n : Z) : M unit :=
  info ← gets d_info;
  if pi_init info then mret tt else
  '(len, hs) ← lift (parse_tls buffer n);
  '(type, len, hs) ← (if negb (len =? 0) then mret (IS_HTTPS, len, hs) else
      hh ← lift (parse_http buffer n false);
      let len := hh_len hh in
      mret (if negb (len =? 0) then IS_HTTP else pi_type info, len,
            match hh_hs hh with Some h => Some h | None => hs end));
  modify (set_info (ProtoInfo true type len (match hs with Some h => h | None => 0 end))).

(** [long] has 32 bits; sums with the [size_t] [n] wrap in 64 and are cut to 32. *)
Definition gen_offset (pos flag : Z) (buffer : bytes) (n lp : Z) : M Z :=
  if has flag (Z.lor OFFSET_SNI OFFSET_HOST) then
    init_proto_info buffer n;;
    info ← gets d_info;
    if (pi_host_pos info =? 0) || (has flag OFFSET_SNI && negb (pi_type info =? IS_HTTPS))
    then mret (-1) else
    let pos := s32 (pos + pi_host_pos info) in
    if has flag OFFSET_END then mret (s32 (pos + pi_host_len info))
    else if has flag OFFSET_MID then mret (s32 (pos + Z.quot (pi_host_len info) 2))
    else if has flag OFFSET_RAND then
      r ← next_rand;
      if pi_host_len info =? 0 then sfail DivByZero
      else mret (s32 (pos + Z.rem r (pi_host_len info)))
    else mret pos
  else if has flag OFFSET_RAND then
    r ← next_rand;
    let m := u64 (n - lp) in
    if m =? 0 then sfail DivByZero else mret (s32 (pos + lp + u64 r mod m))
  else if has flag OFFSET_MID then mret (s32 (pos + u64 n / 2))
  else if (pos <? 0) || has flag OFFSET_END then mret (s32 (pos + n))
  else mret pos.

(** ** Rewriting the request *)

(** [part_tls(buffer + lp, ...)] on the connection's buffer. *)
Definition part_tls_at (lp bfsize n pos : Z) : M Z :=
  b ← gets d_buf;
  if (lp <? 0) || (blen b <? lp) then sfail OutOfBounds else
  '(r, t) ← lift (part_tls (drop (Z.to_nat lp) b) (bfsize - lp) (n - lp) (pos - lp));
  modify (set_buf (take (Z.to_nat lp) b ++ t));;
  mret r.

(** The loop variables of the record splitter: [i], [r], [rc], [part], [lp], [n]. *)
Record tamp_st := TampSt {
  tp_i : nat; tp_r : Z; tp_rc : Z; tp_part : part; tp_lp : Z; tp_n : Z }.

Definition tamp_body (bfsize : Z) (tlsrec : list part) (x : tamp_st) : M (tamp_st + Z) :=
  if negb ((0 <? tp_r x) || (tp_i x <? length tlsrec)%nat) then mret (inr (tp_n x)) else
  let '(part, r, i) :=
    if tp_r x <=? 0 then
      let p := nth (tp_i x) tlsrec part_init in (p, p_r p, S (tp_i x))
    else (tp_part x, tp_r x, tp_i x) in
  let n := tp_n x in
  let lp := tp_lp x in
  let pos := tp_rc x * 5 in
  b ← gets d_buf;
  o ← gen_offset (p_pos part) (p_flag part) b (n - pos) lp;
  let pos := pos + o in
  let pos := if (p_pos part <? 0) || negb (p_flag part =? 0) then pos - 5 else pos in
  let pos := pos + p_s part * (p_r part - r) in
  if pos <? lp then mret (inr n) else
  d ← part_tls_at lp bfsize n pos;
  if d =? 0 then mret (inr n) else
  mret (inl (TampSt i (r - 1) (tp_rc x + 1) part (pos + 5) (n + 5))).

(** Each entry of the list goes round [max 1 r] times. *)
Definition parts_fuel (l : list part) : nat :=
  S (sum_list (map (λ p, Z.to_nat (Z.max 1 (p_r p))) l)).

(** The new [*n]. *)
Definition tamp (bfsize n : Z) (dp : desync_params) : M Z :=
  (if dp_mod_http dp =? 0 then mret tt else
    b ← gets d_buf;
    http ← lift (is_http b n);
    if negb http then mret tt else
    '(_, b) ← lift (mod_http b n (dp_mod_http dp)); modify (set_buf b));;
  match dp_tlsminor dp with
  | None => mret tt
  | Some v =>
      b ← gets d_buf;
      hello ← lift (is_tls_chello b n);
      if negb hello then mret tt else b ← lift (wr b 2 v); modify (set_buf b)
  end;;
  match dp_tlsrec dp with
  | [] => mret n
  | _ =>
      b ← gets d_buf;
      hello ← lift (is_tls_chello b n);
      if negb hello then mret n else
      sloop (tamp_body bfsize (dp_tlsrec dp)) (parts_fuel (dp_tlsrec dp))
        (TampSt 0 0 0 part_init 0 n)
  end.

(** ** Decoys *)

(** [None] when the packet has no data. *)
Definition get_tcp_fake (n : Z) (opt : desync_params) : M (option packet) :=
  buffer ← gets d_buf;
  pkt ← match dp_fake_data opt with
    | Some pkt => mret pkt
    | None =>
        info ← gets d_info;
        (if negb (pi_type info =? 0) then mret tt else
          hello ← lift (is_tls_chello buffer n);
          if (hello : bool) then
            modify (set_info (ProtoInfo (pi_init info) IS_HTTPS (pi_host_len info)
              (pi_host_pos info)))
          else
            http ← lift (is_http buffer n);
            if (http : bool) then
              modify (set_info (ProtoInfo (pi_init info) IS_HTTP (pi_host_len info)
                (pi_host_pos info)))
            else mret tt);;
        info ← gets d_info;
        mret (if pi_type info =? IS_HTTP then fake_http else fake_tls)
    end;
  let ps := Z.max n (pk_size pkt) in
  m ← call (SMalloc ps);
  if m =? 0 then mret None else
  let p := junk ps in
  sni ← (if Z.of_nat (length (dp_fake_sni_list opt)) =? 0 then mret None else
    r ← next_rand;
    mret (dp_fake_sni_list opt !! Z.to_nat (r mod Z.of_nat (length (dp_fake_sni_list opt)))));
  let f_size := dp_fake_tls_size opt in
  let f_size := if f_size <? 0 then n + f_size else f_size in
  let f_size := if (n <? f_size) || (f_size <=? 0) then n else f_size in
  let change (sni p : bytes) (n : Z) : M (Z * bytes) :=
    k ← gets d_rand;
    '(rc, p, k) ← lift (change_tls_sni rand fuel sni p n f_size k);
    modify (set_rand k);; mret (rc, p) in
  info ← gets d_info;
  '(orig, p) ← (if has (dp_fake_mod opt) FM_ORIG && (pi_type info =? IS_HTTPS) then
      p ← lift (memcpy p 0 buffer 0 n);
      match sni with
      | None => mret (true, p)
      | Some sni => '(rc, p) ← change sni p n; mret (rc =? 0, p)
      end
    else mret (false, p));
  p ← (if (orig : bool) then mret p else
    p ← lift (memcpy p 0 (pk_data pkt) 0 (pk_size pkt));
    match sni with
    | None => mret p
    | Some sni => '(_, p) ← change sni p (pk_size pkt); mret p
    end);
  p ← (if negb (has (dp_fake_mod opt) FM_RAND) then mret p else
    k ← gets d_rand;
    '(p, k) ← lift (randomize_tls rand p ps k);
    modify (set_rand k);; mret p);
  off ← (if decide (p_m (dp_fake_offset opt) = DESYNC_NONE) then mret (pk_off pkt) else
    off ← gen_offset (p_pos (dp_fake_offset opt)) (p_flag (dp_fake_offset opt)) buffer n 0;
    mret (if (ps <? off) || (off <? 0) then 0 else off));
  mret (Some (Packet p ps off)).

(** *** Windows: a decoy file behind the part *)

Definition null_tf : tf_s := Tf 0 0.

(** The index of the slot in [tf_exems]. *)
Definition getTFE : M (option nat) :=
  c ← gets d_tf_count;
  if c <? MAX_TF then
    modify (λ s, set_tfs c (<[Z.to_nat c := null_tf]> (d_tf s)) s);;
    mret (Some (Z.to_nat c))
  else
    ret ← call SWait;
    if (0 <=? ret) && (ret <? MAX_TF) then
      t ← gets d_tf;
      let x := nth (Z.to_nat ret) t null_tf in
      call (SCloseHandle (tf_event x));;
      call (SCloseHandle (tf_file x));;
      modify (set_tfs c (<[Z.to_nat ret := null_tf]> t));;
      mret (Some (Z.to_nat ret))
    else mret None.

(** The handle, 0 on failure: handles of files number them from 1. *)
Definition openTempFile : M Z :=
  r ← call SGetTempPath;
  if r =? 0 then mret 0 else
  r ← call SGetTempFileName;
  if r =? 0 then mret 0 else
  h ← call SCreateFile;
  if h =? -1 then mret 0 else
  f ← gets d_files;
  modify (set_files (f ++ [TFile [] 0]));;
  mret (Z.of_nat (length f) + 1).

Definition file_at (h : Z) : M tfile :=
  f ← gets d_files; mret (nth (Z.to_nat (h - 1)) f (TFile [] 0)).
Definition set_file (h : Z) (x : tfile) : M unit :=
  modify (λ s, set_files (<[Z.to_nat (h - 1) := x]> (d_files s)) s).

(** The contents after a write of [l] at [p], behind a gap of zeros if need be. *)
Definition file_write (d : bytes) (p : Z) (l : bytes) : bytes :=
  let d := d ++ repeat 0 (Z.to_nat (p - blen d)) in
  take (Z.to_nat p) d ++ l ++ drop (Z.to_nat (p + blen l)) d.

(** [WriteFile]: 0 on failure. *)
Definition WriteFile (h : Z) (l : bytes) : M Z :=
  r ← call (SWriteFile h l);
  if r =? 0 then mret 0 else
  x ← file_at h;
  set_file h (TFile (file_write (fl_data x) (fl_pos x) l) (fl_pos x + blen l));;
  mret r.

Definition SetFilePointer (h p : Z) : M Z :=
  r ← call (SSetFilePointer h p);
  if r =? -1 then mret (-1) else
  x ← file_at h; set_file h (TFile (fl_data x) p);; mret r.

Definition SetEndOfFile (h : Z) : M Z :=
  r ← call (SSetEndOfFile h);
  if r =? 0 then mret 0 else
  x ← file_at h;
  let d := fl_data x ++ repeat 0 (Z.to_nat (fl_pos x - blen (fl_data x))) in
  set_file h (TFile (take (Z.to_nat (fl_pos x)) d) (fl_pos x));;
  mret r.

(** [TransmitFile] with an OVERLAPPED whose offset is 0: it takes up the contents from there. *)
Definition TransmitFile (h n : Z) : M Z :=
  x ← file_at h;
  call (STransmit h n (sub (fl_data x) 0 n)).

(** The steps between the opening of the file and the clean-up; [false] leaves the
    C loop by [break] with [len = -1]. *)
Definition send_fake_steps (slot : nat) (h : Z) (buffer : bytes) (pos : Z)
    (opt : desync_params) (pkt : packet) : M bool :=
  let ps := pk_size pkt - pk_off pkt in
  l ← lift (rds (pk_data pkt) (pk_off pkt) (if ps <? pos then ps else pos));
  r ← WriteFile h l;
  if r =? 0 then mret false else
  ok ← (if ps <? pos then
      r ← SetFilePointer h pos;
      if r =? -1 then mret false else
      r ← SetEndOfFile h; mret (negb (r =? 0))
    else mret true);
  if negb ok then mret false else
  r ← SetFilePointer h 0;
  if r =? -1 then mret false else
  r ← setttl (if dp_ttl opt =? 0 then DEFAULT_TTL else dp_ttl opt);
  if r <? 0 then mret false else
  ev ← call SCreateEvent;
  modify (λ s, set_tfs (d_tf_count s) (<[slot := Tf h ev]> (d_tf s)) s);;
  if ev =? 0 then mret false else
  r ← TransmitFile h pos;
  ok ← (if negb (r =? 0) then mret true else
    e ← call SGetLastError;
    if e =? 997 (* ERROR_IO_PENDING *) then mret true else
    e ← call SWSAGetLastError; mret (e =? 997 (* WSA_IO_PENDING *)));
  if negb ok then mret false else
  r ← SetFilePointer h 0;
  if r =? -1 then mret false else
  l ← lift (rds buffer 0 pos);
  r ← WriteFile h l;
  if r =? 0 then mret false else
  r ← setttl (pr_def_ttl prm);
  if r <? 0 then mret false else
  c ← gets d_tf_count;
  (if c <? MAX_TF then modify (λ s, set_tfs (c + 1) (d_tf s) s) else mret tt);;
  mret true.

(** [buffer] is the data from the part's start on. *)
Definition send_fake (buffer : bytes) (pos : Z) (opt : desync_params) (pkt : packet) : M Z :=
  s ← getTFE;
  match s with
  | None => mret ERR_WAIT
  | Some slot =>
      h ← openTempFile;
      if h =? 0 then mret (-1) else
      modify (λ s, set_tfs (d_tf_count s) (<[slot := Tf h 0]> (d_tf s)) s);;
      ok ← send_fake_steps slot h buffer pos opt pkt;
      if (ok : bool) then mret pos else
      t ← gets d_tf;
      call (SCloseHandle h);;
      let ev := tf_event (nth slot t null_tf) in
      (if ev =? 0 then mret 0 else call (SCloseHandle ev));;
      mret (-1)
  end.

(** ** Sending *)

Definition restore_state : M unit :=
  r ← gets d_restore_ttl;
  if negb r then mret tt else
  setttl (pr_def_ttl prm);; modify (set_restore false).

(** [send_oob(sfd, buffer + lp, n, pos, c)] *)
Definition send_oob (lp n pos : Z) (c : Z * Z) : M Z :=
  if n <=? pos then mret (-1) else
  b ← gets d_buf;
  rchar ← lift (rd b (lp + pos));
  b ← lift (wr b (lp + pos) (if c.2 =? 0 then ch "a" else c.1));
  modify (set_buf b);;
  len ← send_buf true lp (pos + 1);
  b ← gets d_buf;
  b ← lift (wr b (lp + pos) rchar);
  modify (set_buf b);;
  mret (if len <? 0 then -1 else len - 1).

(** The [switch] over the part's mode, for the bytes from [lp] to [pos]: [None] is
    the [return -1] of a decoy that cannot be made. *)
Definition send_part (bfsize n lp pos : Z) (dp : desync_params) (part : part) (r : Z) :
    M (option Z) :=
  match p_m part with
  | DESYNC_FAKE =>
      pkt ← get_tcp_fake n dp;
      match pkt with
      | None => mret None
      | Some pkt =>
          if pos =? lp then mret (Some 0) else
          b ← gets d_buf;
          s ← send_fake (drop (Z.to_nat lp) b) (pos - lp) dp pkt; mret (Some s)
      end
  | DESYNC_OOB =>
      s ← send_oob lp (bfsize - lp) (pos - lp) (dp_oob_char dp); mret (Some s)
  | DESYNC_DISORDER | DESYNC_DISOOB =>
      bad ← (if Z.rem (p_r part - r) 2 =? 0 then
          e ← setttl 1; mret (e <? 0) else mret false);
      if (bad : bool) then mret (Some (-1)) else
      modify (set_restore true);;
      s ← (if decide (p_m part = DESYNC_DISOOB)
           then send_oob lp (bfsize - lp) (pos - lp) (dp_oob_char dp)
           else send_buf false lp (pos - lp));
      mret (Some s)
  | DESYNC_SPLIT | DESYNC_NONE => s ← send_buf false lp (pos - lp); mret (Some s)
  end.

(** The loop variables: [i], [r], [curr_part], [part], [lp]. *)
Record cut_st := CutSt {
  ct_i : nat; ct_r : Z; ct_curr : Z; ct_part : part; ct_lp : Z }.

(** A round of the loop over the parts.  [inr (inl lp)] leaves the loop for the
    final send, [inr (inr (ret, wait))] returns. *)
Definition cut_body (bfsize n offset skip part_skip : Z) (dp : desync_params) (x : cut_st) :
    M (cut_st + (Z + Z * bool)) :=
  if negb ((0 <? ct_r x) || (ct_i x <? length (dp_parts dp))%nat)
  then mret (inr (inl (ct_lp x))) else
  let '(part, r, i) :=
    if ct_r x <=? 0 then
      let p := nth (ct_i x) (dp_parts dp) part_init in (p, p_r p, S (ct_i x))
    else (ct_part x, ct_r x, ct_i x) in
  let curr_part := ct_curr x + 1 in
  let lp := ct_lp x in
  b ← gets d_buf;
  pos ← gen_offset (p_pos part) (p_flag part) b n lp;
  let pos := pos + p_s part * (p_r part - r) in
  let next := CutSt i (r - 1) curr_part part in
  if ((negb (skip =? 0) && (pos <? skip)) || (curr_part <? part_skip)) &&
     negb (has (p_flag part) OFFSET_START) then mret (inl (next lp)) else
  if negb (offset =? 0) && (pos <? offset) then mret (inl (next lp)) else
  if (pos <? 0) || (pos <? lp) then mret (inr (inl lp)) else
  let pos := if n <? pos then n else pos in
  s ← (if curr_part =? part_skip then mret (Some (pos - lp))
       else send_part bfsize n lp pos dp part r);
  match s with
  | None => mret (inr (inr (-1, false)))
  | Some s =>
      modify (set_part_sent curr_part);;
      if s =? ERR_WAIT then
        call (SSetTimer (pr_await_int prm));; mret (inr (inr (lp - offset, true)))
      else if s <? 0 then
        e ← get_e;
        if e =? EAGAIN then mret (inr (inr (lp - offset, false)))
        else mret (inr (inr (-1, false)))
      else if negb (s =? pos - lp) then mret (inr (inr (lp + s - offset, false)))
      else if pr_wait_send prm && (part_skip <? curr_part) then
        call (SSetTimer (pr_await_int prm));; mret (inr (inr (pos - offset, true)))
      else restore_state;; mret (inl (next pos))
  end.

(** [send all/rest] *)
Definition send_rest (n offset lp : Z) : M (Z * bool) :=
  if n <=? lp then mret (n - offset, false) else
  s ← send_buf false lp (n - lp);
  if s <? 0 then
    e ← get_e;
    mret (if e =? EAGAIN then lp - offset else -1, false)
  else mret (n - offset, false).

(** The parts and the rest, once the request is rewritten. *)
Definition send_parts (bfsize n offset skip part_skip : Z) (dp : desync_params) :
    M (Z * bool) :=
  r ← sloop (cut_body bfsize n offset skip part_skip dp) (parts_fuel (dp_parts dp))
    (CutSt 0 0 0 part_init offset);
  match r with
  | inl lp => send_rest n offset lp
  | inr ret => mret ret
  end.

(** The result, [*wait] and [*np].  The caller passes the pair's [round_sent]. *)
Definition desync (bfsize offset n round_sent : Z) (dp : desync_params) :
    M (Z * bool * Z) :=
  modify (set_info no_info);;
  part_skip ← gets d_part_sent;
  b ← gets d_buf;
  (if (round_sent =? 0) && LOG_ENABLED prm then init_proto_info b n else mret tt);;
  n ← (if round_sent =? 0 then tamp bfsize n dp else mret n);
  '(ret, wait) ← send_parts bfsize n offset round_sent part_skip dp;
  mret (ret, wait, n).

(** ** UDP *)

(** [for (i = 0; i < udp_fake_count; i++)]: [false] when a send fails. *)
Fixpoint send_fakes (data : bytes) (count : nat) : M bool :=
  match count with
  | O => mret true
  | S count =>
      len ← call (SSend false data);
      if len <? 0 then mret false else send_fakes data count
  end.

Definition desync_udp (n : Z) (dp : desync_params) : M Z :=
  ok ← (if dp_udp_fake_count dp =? 0 then mret true else
    let pkt := match dp_fake_data dp with Some p => p | None => fake_udp end in
    let off := p_pos (dp_fake_offset dp) in
    let '(start, size) :=
      if decide (p_m (dp_fake_offset dp) = DESYNC_NONE) then (0, pk_size pkt)
      else if off <? pk_size pkt then (off, pk_size pkt - off) else (0, 0) in
    r ← setttl (if dp_ttl dp =? 0 then DEFAULT_TTL else dp_ttl dp);
    if r <? 0 then mret false else
    data ← lift (rds (pk_data pkt) start size);
    ok ← send_fakes data (Z.to_nat (dp_udp_fake_count dp));
    if negb ok then mret false else
    r ← setttl (pr_def_ttl prm);
    mret (negb (r <? 0)));
  if (ok : bool) then send_buf false 0 n else mret (-1).
End desync.

(** * Lemmas *)

(** What reaches the peer in band, by the answers the sends got: an urgent send
    spends the last byte it takes on the urgent one. *)
Section wire.
Context (os : list sys → Z).

Definition sent_by (l : list sys) (c : sys) : bytes :=
  match c with
  | SSend false d => take (Z.to_nat (os l)) d
  | SSend true d => take (Z.to_nat (os l - 1)) d
  | _ => []
  end.

Fixpoint wire (pre new : list sys) : bytes :=
  match new with
  | [] => []
  | c :: new => sent_by (pre ++ [c]) c ++ wire (pre ++ [c]) new
  end.

Lemma wire_app pre a b : wire pre (a ++ b) = wire pre a ++ wire (pre ++ a) b.
Proof.
  revert pre. induction a as [|c a IH]; intros pre; cbn [app wire].
  - by rewrite app_nil_r.
  - by rewrite IH, <- !app_assoc.
Qed.

(** The calls made between two states and what they sent. *)
Definition sends (s s' : dstate) (d : bytes) : Prop :=
  ∃ new, d_log s' = d_log s ++ new ∧ wire (d_log s) new = d.

Lemma sends_trans s1 s2 s3 a b : sends s1 s2 a → sends s2 s3 b → sends s1 s3 (a ++ b).
Proof.
  intros (n1 & E1 & <-) (n2 & E2 & <-). exists (n1 ++ n2).
  rewrite E2, E1, <- app_assoc. split; [done|]. by rewrite wire_app.
Qed.
Lemma sends_log s s' : d_log s = d_log s' → sends s s' [].
Proof. intros E. exists []. by rewrite app_nil_r. Qed.
Lemma sends_nil_trans s1 s2 s3 a : sends s1 s2 a → sends s2 s3 [] → sends s1 s3 a.
Proof. intros H1 H2. rewrite <- (app_nil_r a). by eapply sends_trans. Qed.
End wire.

(** Steps that leave the connection alone: the same buffer, nothing sent. *)
Definition quiet os (s s' : dstate) : Prop := d_buf s' = d_buf s ∧ sends os s s' [].

Section lemmas.
Context (prm : params) (os : list sys → Z) (rand : nat → Z) (junk : Z → bytes) (fuel : nat).
Local Abbreviation quiet := (quiet os).

#[local] Instance quiet_refl : Reflexive quiet.
Proof. intros s. split; [done|by apply sends_log]. Qed.
#[local] Instance quiet_trans : Transitive quiet.
Proof.
  intros s1 s2 s3 [E1 H1] [E2 H2]. split; [congruence|]. by eapply sends_nil_trans.
Qed.
Lemma quiet_same s s' : d_buf s' = d_buf s → d_log s' = d_log s → quiet s s'.
Proof. intros. split; [done|by apply sends_log]. Qed.

Definition silent (c : sys) : Prop := match c with SSend _ _ => False | _ => True end.

Lemma swp_call c s (P : Z → dstate → Prop) :
  P (os (d_log s ++ [c])) (set_log (d_log s ++ [c]) s) → swp (call os c) s P.
Proof. done. Qed.

Lemma swp_silent c s (P : Z → dstate → Prop) :
  silent c → (∀ r s', quiet s s' → P r s') → swp (call os c) s P.
Proof.
  intros Hc HP. apply swp_call, HP. split; [done|]. exists [c]. split; [done|].
  cbn [wire]. rewrite app_nil_r. by destruct c.
Qed.

Lemma swp_setttl ttl s (P : Z → dstate → Prop) :
  (∀ r s', quiet s s' → P r s') → swp (setttl os ttl) s P.
Proof.
  intros HP. unfold setttl. sstep. apply swp_silent; [done|]. intros r1 s1 H1.
  sstep. apply swp_silent; [done|]. intros r2 s2 H2. sstep. apply HP. by etrans.
Qed.

Lemma swp_restore s (P : unit → dstate → Prop) :
  (∀ s', quiet s s' → P tt s') → swp (restore_state prm os) s P.
Proof.
  intros HP. unfold restore_state. do 2 sstep. destruct (negb _); [by apply HP|].
  sstep. apply swp_setttl. intros _ s1 H1. sstep. apply HP. etrans; [exact H1|].
  by apply quiet_same.
Qed.

Lemma swp_init_proto_info buffer n s (P : unit → dstate → Prop) :
  bytes_wf buffer → n <= blen buffer → (∀ s', quiet s s' → P tt s') →
  swp (init_proto_info buffer n) s P.
Proof.
  intros Hw Hn HP. unfold init_proto_info. do 2 sstep. destruct (pi_init _); [by apply HP|].
  do 2 sstep. apply wp_parse_tls; [done..|]. intros [len hs] _. cbv beta iota.
  destruct (negb (len =? 0)).
  - do 2 sstep. cbv beta iota. sstep. by apply HP, quiet_same.
  - do 2 sstep. sstep. apply wp_parse_http; [done|]. intros hh _. sstep.
    cbv beta iota. sstep. by apply HP, quiet_same.
Qed.

Lemma swp_gen_offset pos flag buffer n lp s (P : Z → dstate → Prop) :
  bytes_wf buffer → n <= blen buffer → has flag OFFSET_RAND = false →
  (∀ r s', quiet s s' → P r s') → swp (gen_offset rand pos flag buffer n lp) s P.
Proof.
  intros Hw Hn Hf HP. unfold gen_offset. rewrite Hf. destruct (has flag (Z.lor _ _)).
  - sstep. apply swp_init_proto_info; [done..|]. intros s1 H1. do 2 sstep.
    repeat case_match; sstep; by apply HP.
  - repeat case_match; sstep; by apply HP.
Qed.

Lemma swp_send_buf (oob : bool) p n s (P : Z → dstate → Prop) :
  0 <= p → 0 <= n → p + n <= blen (d_buf s) →
  (∀ r s', d_buf s' = d_buf s →
     sends os s s' (take (Z.to_nat (if oob then r - 1 else r)) (sub (d_buf s) p n)) →
     r = os (d_log s ++ [SSend oob (sub (d_buf s) p n)]) → P r s') →
  swp (send_buf os oob p n) s P.
Proof.
  intros Hp Hn Hl HP. unfold send_buf. do 4 sstep. apply wp_rds; [done..|].
  apply swp_call, HP; [done| |done]. eexists. split; [done|].
  cbn [wire]. rewrite app_nil_r. by destruct oob.
Qed.

(** Sends never take more than they are given. *)
Definition send_bounded : Prop := ∀ l oob d, os (l ++ [SSend oob d]) <= blen d.
(** Plain sends take everything or fail. *)
Definition send_whole : Prop :=
  ∀ l d, os (l ++ [SSend false d]) < 0 ∨ os (l ++ [SSend false d]) = blen d.

Lemma put_restore b i v :
  0 <= i < blen b → is_byte (bat b i) → put (put b i [v]) i [u8 (bat b i)] = b.
Proof.
  intros Hi Hb. assert (Hl : blen [v] = 1 ∧ ∀ x, blen [u8 x] = 1) by done.
  destruct Hl as [Hl Hl'].
  assert (E1 : blen (put b i [v]) = blen b) by (apply blen_put; rewrite ?Hl; lia).
  assert (E2 : blen (put (put b i [v]) i [u8 (bat b i)]) = blen b).
  { rewrite blen_put; rewrite ?E1, ?Hl'; lia. }
  apply bytes_ext; [done|]. intros j Hj. rewrite E2 in Hj.
  rewrite bat_put by (rewrite ?E1, ?Hl'; lia). rewrite bat_put by (rewrite ?Hl; lia).
  rewrite Hl, Hl'.
  destruct (_ && _) eqn:E; [|done]. replace j with i by lia. rewrite Z.sub_diag.
  unfold is_byte in Hb. by rewrite u8_small.
Qed.

Lemma sub_put_above b i l p n :
  0 <= i → i + blen l <= blen b → 0 <= p → 0 <= n → p + n <= i →
  sub (put b i l) p n = sub b p n.
Proof. intros. pose proof (blen_nonneg l). apply sub_put_disjoint; lia. Qed.

Lemma take_sub b p n k :
  0 <= p → 0 <= n → p + n <= blen b → k <= n → take (Z.to_nat k) (sub b p n) = sub b p (Z.max 0 k).
Proof.
  intros. rewrite <- sub_take. destruct (Z.leb_spec 0 k).
  - rewrite Z.max_r, sub_sub by lia. f_equal; lia.
  - rewrite Z.max_l by lia. unfold sub. replace (Z.to_nat k) with O by lia. done.
Qed.

(** [send_oob] puts its byte back, and sends the bytes in front of it in band. *)
Lemma swp_send_oob lp n pos c s (P : Z → dstate → Prop) :
  send_bounded → bytes_wf (d_buf s) → 0 <= lp → 0 <= pos → lp + n <= blen (d_buf s) →
  (∀ r s', d_buf s' = d_buf s → sends os s s' (sub (d_buf s) lp (Z.max 0 r)) → r <= pos → P r s') →
  swp (send_oob os lp n pos c) s P.
Proof.
  intros Hs Hw Hlp Hpos Hl HP. unfold send_oob.
  destruct (Z.leb_spec n pos).
  { sstep. apply HP; [done| |lia]. rewrite Z.max_l by lia. by apply sends_log. }
  do 4 sstep. apply wp_rd; [lia|]. do 2 sstep. set (v := if _ =? 0 then _ else _).
  pose proof (bat_byte (d_buf s) (lp + pos) Hw) as Hby.
  unfold wr at 1. assert (Hv : ∀ x, blen [u8 x] = 1) by done.
  apply wp_store; [lia|rewrite Hv; lia|]. do 2 sstep.
  set (b1 := put _ _ _). assert (Hb1 : blen b1 = blen (d_buf s)).
  { unfold b1. rewrite blen_put; rewrite ?Hv; lia. }
  sstep. apply swp_send_buf; [lia|lia|cbn [d_buf set_buf]; lia|].
  intros r s1 E1 H1 Er. cbn [d_buf set_buf] in *. do 4 sstep. unfold wr. rewrite E1.
  apply wp_store; [lia|rewrite Hv; lia|]. do 3 sstep.
  pose proof (Hs (d_log s) true (sub b1 lp (pos + 1))) as Hr.
  cbn [d_log set_buf] in Er. rewrite <- Er, blen_sub in Hr by lia.
  rewrite take_sub in H1 by lia.
  replace (sub b1 lp (Z.max 0 (r - 1))) with (sub (d_buf s) lp (Z.max 0 (r - 1))) in H1.
  2: { unfold b1. symmetry. apply sub_put_above; rewrite ?Hv; lia. }
  apply HP.
  - cbn [d_buf set_buf]. unfold b1. apply put_restore; [lia|done].
  - replace (Z.max 0 (if r <? 0 then -1 else r - 1)) with (Z.max 0 (r - 1))
      by (destruct (Z.ltb_spec r 0); lia). exact H1.
  - destruct (Z.ltb_spec r 0); lia.
Qed.

(** A part that is no decoy sends a prefix of its bytes, as long as the result. *)
Lemma swp_send_part bfsize n lp pos dp part r s (P : option Z → dstate → Prop) :
  send_bounded → bytes_wf (d_buf s) → p_m part ≠ DESYNC_FAKE →
  0 <= lp <= pos → pos <= blen (d_buf s) → bfsize <= blen (d_buf s) →
  (∀ k s', d_buf s' = d_buf s → sends os s s' (sub (d_buf s) lp (Z.max 0 k)) → k <= pos - lp →
     P (Some k) s') →
  swp (send_part prm os rand junk fuel bfsize n lp pos dp part r) s P.
Proof.
  intros Hs Hw Hm Hlp Hpos Hbf HP.
  assert (Hplain : ∀ s0, quiet s s0 →
    swp (send_buf os false lp (pos - lp)) s0 (λ k s', P (Some k) s')).
  { intros s0 [Eb Hq]. apply swp_send_buf; rewrite ?Eb; [lia..|].
    intros k s' E1 H1 Ek. pose proof (Hs (d_log s0) false (sub (d_buf s) lp (pos - lp))) as Hk.
    rewrite <- Ek, blen_sub in Hk by lia. rewrite take_sub in H1 by lia.
    apply HP; [congruence| |lia]. exact (sends_trans _ _ _ _ _ _ Hq H1). }
  assert (Hoob : ∀ s0, quiet s s0 →
    swp (send_oob os lp (bfsize - lp) (pos - lp) (dp_oob_char dp)) s0 (λ k s', P (Some k) s')).
  { intros s0 [Eb Hq]. apply swp_send_oob; rewrite ?Eb; [done|done|lia..|].
    intros k s' E1 H1 Hk. apply HP; [congruence| |done]. exact (sends_trans _ _ _ _ _ _ Hq H1). }
  unfold send_part. destruct (p_m part) eqn:Em; [..|done].
  - sstep. eapply swp_mono; [by apply Hplain|]. done.
  - sstep. eapply swp_mono; [by apply Hplain|]. done.
  - sstep. destruct (_ =? 0).
    + sstep. apply swp_setttl. intros e s1 H1. sstep. destruct (e <? 0).
      * sstep. apply HP; [by apply H1|by apply H1|lia].
      * do 3 sstep. assert (quiet s (set_restore true s1)) by (etrans; [exact H1|by apply quiet_same]).
        eapply swp_mono; [by apply Hplain|]. done.
    + do 4 sstep. eapply swp_mono; [by apply Hplain, quiet_same|]. done.
  - sstep. eapply swp_mono; [by apply Hoob|]. done.
  - sstep. destruct (_ =? 0).
    + sstep. apply swp_setttl. intros e s1 H1. sstep. destruct (e <? 0).
      * sstep. apply HP; [by apply H1|by apply H1|lia].
      * do 3 sstep. assert (quiet s (set_restore true s1)) by (etrans; [exact H1|by apply quiet_same]).
        eapply swp_mono; [by apply Hoob|]. done.
    + do 4 sstep. eapply swp_mono; [by apply Hoob, quiet_same|]. done.
Qed.

(** *** Rounds of the loops over parts *)

Definition rounds (l : list part) : nat := sum_list (map (λ p, Z.to_nat (Z.max 1 (p_r p))) l).
(** The rounds left, from the loop variables [i] and [r]. *)
Definition rounds_left (l : list part) (i : nat) (r : Z) : nat :=
  rounds (drop i l) + Z.to_nat r.

(** Taking up the next entry, if it is time to, and counting down uses a round. *)
Lemma next_part l i r (q : part) (Q : part → Prop) :
  (0 <? r) || (i <? length l)%nat = true → Q q → Forall Q l →
  let '(p, r', i') := if r <=? 0 then
      let p := nth i l part_init in (p, p_r p, S i) else (q, r, i) in
  Q p ∧ (rounds_left l i' (r' - 1) < rounds_left l i r)%nat.
Proof.
  intros Hc Hq Hl. unfold rounds_left. destruct (Z.leb_spec r 0).
  - destruct (Z.ltb_spec 0 r); [lia|]. simpl in Hc. apply Nat.ltb_lt in Hc.
    destruct (lookup_lt_is_Some_2 l i Hc) as [p Hp].
    rewrite nth_lookup, Hp. simpl. split; [by eapply Forall_lookup_1|].
    rewrite (drop_S _ _ _ Hp). unfold rounds. simpl. lia.
  - split; [done|]. lia.
Qed.

(** What a run that started in [s0] has done when it reports [ret] bytes: [k] were sent. *)
Definition outcome (s0 : dstate) (n offset ret : Z) (s : dstate) : Prop :=
  d_buf s = d_buf s0 ∧ ∃ k, sends os s0 s (sub (d_buf s0) offset k) ∧ 0 <= k <= n - offset ∧
    (ret = -1 ∨ k <= ret ∧ ret <= n - offset ∧ (ret < n - offset → k = ret) ∧ (send_whole → k = ret)).

Definition covered (s0 : dstate) (offset lp : Z) (s : dstate) : Prop :=
  d_buf s = d_buf s0 ∧ sends os s0 s (sub (d_buf s0) offset (lp - offset)).

Lemma covered_quiet s0 offset lp s s' : covered s0 offset lp s → quiet s s' → covered s0 offset lp s'.
Proof. intros [E H] [E' H']. split; [congruence|]. by eapply sends_nil_trans. Qed.

Lemma covered_more s0 offset lp k s s' :
  covered s0 offset lp s → 0 <= offset <= lp → lp + k <= blen (d_buf s0) → 0 <= k →
  d_buf s' = d_buf s → sends os s s' (sub (d_buf s) lp k) → covered s0 offset (lp + k) s'.
Proof.
  intros [E H] Ho Hl Hk E' H'. split; [congruence|]. rewrite E in H'.
  rewrite (sub_split _ offset (lp + k - offset) (lp - offset)) by lia.
  replace (offset + (lp - offset)) with lp by lia.
  replace (lp + k - offset - (lp - offset)) with k by lia. by eapply sends_trans.
Qed.

Lemma covered_outcome s0 n offset lp s :
  covered s0 offset lp s → offset <= lp <= n → outcome s0 n offset (lp - offset) s.
Proof. intros [E H] Hl. split; [done|]. exists (lp - offset). split_and!; [done|lia|lia|]. right. auto with lia. Qed.
Lemma covered_failed s0 n offset lp s :
  covered s0 offset lp s → offset <= lp <= n → outcome s0 n offset (-1) s.
Proof. intros [E H] Hl. split; [done|]. exists (lp - offset). split_and!; [done|lia|lia|by left]. Qed.

Definition plain (p : part) : Prop :=
  p_m p ≠ DESYNC_FAKE ∧ has (p_flag p) OFFSET_RAND = false.

Lemma swp_send_rest s0 n offset lp s :
  send_bounded → covered s0 offset lp s → 0 <= offset <= lp → lp <= n <= blen (d_buf s0) →
  swp (send_rest os n offset lp) s (λ r s', outcome s0 n offset r.1 s').
Proof.
  intros Hs Hc Ho Hn. unfold send_rest. destruct (Z.leb_spec n lp).
  { sstep. replace n with lp by lia. apply covered_outcome; [done|lia]. }
  pose proof Hc as [Eb _]. sstep. apply swp_send_buf; rewrite ?Eb; [lia..|].
  intros k s1 E1 H1 Ek. pose proof (Hs (d_log s) false (sub (d_buf s0) lp (n - lp))) as Hb.
  rewrite <- Ek, blen_sub in Hb by lia. rewrite take_sub in H1 by lia.
  destruct (Z.ltb_spec k 0).
  - rewrite Z.max_l in H1 by lia.
    assert (Hc1 : covered s0 offset lp s1).
    { eapply covered_quiet; [exact Hc|]. split; [congruence|exact H1]. }
    unfold get_e. do 2 sstep. apply swp_silent; [done|]. intros e s2 H2. do 2 sstep.
    apply (covered_quiet _ _ _ _ _ Hc1) in H2. cbn [fst]. destruct (_ =? EAGAIN).
    + apply covered_outcome; [done|lia].
    + apply (covered_failed _ _ _ lp); [done|lia].
  - rewrite Z.max_r in H1 by lia. sstep. cbn [fst].
    destruct (covered_more s0 offset lp k s s1) as [E2 H2]; [done|lia..|congruence|by rewrite Eb|].
    split; [done|]. exists (lp + k - offset). split_and!; [done|lia..|]. right. split_and!; [lia..|].
    intros Hw. destruct (Hw (d_log s) (sub (d_buf s0) lp (n - lp))) as [Hx|Hx];
      rewrite <- Ek in Hx; [lia|]. rewrite blen_sub in Hx; lia.
Qed.

Lemma swp_cut_body bfsize n offset dp x s0 s :
  send_bounded → bytes_wf (d_buf s0) → Forall plain (dp_parts dp) →
  0 <= offset → n <= blen (d_buf s0) → bfsize <= blen (d_buf s0) →
  plain (ct_part x) → 0 <= ct_curr x →
  covered s0 offset (ct_lp x) s → offset <= ct_lp x <= n →
  swp (cut_body prm os rand junk fuel bfsize n offset 0 0 dp x) s (λ r s', match r with
    | inl x' => (plain (ct_part x') ∧ 0 <= ct_curr x' ∧ covered s0 offset (ct_lp x') s' ∧
          offset <= ct_lp x' <= n) ∧
        (rounds_left (dp_parts dp) (ct_i x') (ct_r x') < rounds_left (dp_parts dp) (ct_i x) (ct_r x))%nat
    | inr (inl lp) => covered s0 offset lp s' ∧ offset <= lp <= n
    | inr (inr ret) => outcome s0 n offset ret.1 s'
    end).
Proof.
  intros Hs Hw Hp Ho Hn Hbf Hpl Hcu Hc Hlp. unfold cut_body. destruct (negb _) eqn:Hgo; [by sstep|].
  apply negb_false_iff in Hgo.
  pose proof (next_part (dp_parts dp) (ct_i x) (ct_r x) (ct_part x) plain Hgo Hpl Hp) as Hnx.
  cbv zeta in Hnx |- *. destruct (if ct_r x <=? 0 then _ else _) as [[part r] i].
  destruct Hnx as [[Hfk Hrd] Hrounds]. pose proof Hc as [Eb _].
  do 3 sstep. apply swp_gen_offset; [by rewrite Eb|by rewrite Eb|done|].
  intros pos0 s1 H1. apply (covered_quiet _ _ _ _ _ Hc) in H1. clear Hc.
  set (pos := pos0 + _). change (negb (0 =? 0)) with false.
  rewrite (proj2 (Z.ltb_ge (ct_curr x + 1) 0)) by lia. cbn [andb orb].
  destruct (negb (offset =? 0) && _).
  { sstep. cbn. split_and!; (done || lia). }
  destruct ((pos <? 0) || _) eqn:E3; [by sstep|].
  set (pos' := if n <? pos then n else pos).
  assert (Hpos : ct_lp x <= pos' <= n) by (subst pos'; destruct (Z.ltb_spec n pos); lia).
  assert (Hback : ∀ s2 k, d_buf s2 = d_buf s1 →
    sends os s1 s2 (sub (d_buf s1) (ct_lp x) (Z.max 0 k)) → k <= pos' - ct_lp x →
    covered s0 offset (ct_lp x + Z.max 0 k) s2).
  { intros s2 k E H ?. apply (covered_more _ _ _ _ s1); [done|lia..|done|done]. }
  sstep. rewrite (proj2 (Z.eqb_neq (ct_curr x + 1) 0)) by lia.
  pose proof (proj1 H1) as Eb1. apply swp_send_part; rewrite ?Eb1; [done..|lia|lia|done|].
  intros k s2 E H Hk. rewrite <- Eb1 in H. specialize (Hback s2 k ltac:(congruence) H Hk).
  do 2 sstep. assert (Hb3 : covered s0 offset (ct_lp x + Z.max 0 k)
    (set_part_sent (ct_curr x + 1) s2)) by (eapply covered_quiet; [done|by apply quiet_same]).
  destruct (Z.eqb_spec k ERR_WAIT) as [->|].
  { sstep. apply swp_silent; [done|]. intros ? s4 H4. sstep. cbn [fst].
    apply (covered_quiet _ _ _ _ _ Hb3) in H4. apply covered_outcome; [|lia].
    by rewrite Z.add_0_r in H4. }
  destruct (Z.ltb_spec k 0).
  { unfold get_e. do 2 sstep. apply swp_silent; [done|]. intros e s4 H4. sstep.
    apply (covered_quiet _ _ _ _ _ Hb3) in H4. rewrite Z.max_l, Z.add_0_r in H4 by lia.
    destruct (_ =? EAGAIN); sstep; cbn [fst].
    - apply covered_outcome; [done|lia].
    - apply (covered_failed _ _ _ (ct_lp x)); [done|lia]. }
  rewrite Z.max_r in Hb3 by lia.
  destruct (Z.eqb_spec k (pos' - ct_lp x)) as [->|]; cbn [negb].
  2: { sstep. cbn [fst]. apply covered_outcome; [done|lia]. }
  replace (ct_lp x + (pos' - ct_lp x)) with pos' in Hb3 by lia.
  destruct (_ && _).
  { sstep. apply swp_silent; [done|]. intros ? s4 H4. sstep. cbn [fst].
    apply (covered_quiet _ _ _ _ _ Hb3) in H4. apply covered_outcome; [done|lia]. }
  sstep. apply swp_restore. intros s4 H4. sstep.
  apply (covered_quiet _ _ _ _ _ Hb3) in H4. cbn. split_and!; (done || lia).
Qed.

(** The parts and the rest, together. *)
Lemma swp_send_parts bfsize n offset dp s :
  send_bounded → bytes_wf (d_buf s) → Forall plain (dp_parts dp) →
  0 <= offset <= n → n <= blen (d_buf s) → bfsize <= blen (d_buf s) →
  swp (send_parts prm os rand junk fuel bfsize n offset 0 0 dp) s
    (λ r s', outcome s n offset r.1 s').
Proof.
  intros Hs Hw Hp Ho Hn Hbf. unfold send_parts. sstep.
  apply (swp_sloop _ (λ x s', plain (ct_part x) ∧ 0 <= ct_curr x ∧
      covered s offset (ct_lp x) s' ∧ offset <= ct_lp x <= n)
    (λ x, rounds_left (dp_parts dp) (ct_i x) (ct_r x))).
  - intros x s1 (H1 & H2 & H3 & H4).
    eapply swp_mono; [apply (swp_cut_body bfsize n offset dp x s s1); done || lia|].
    intros [x'|[lp|ret]] s2; cbn; [tauto| |done].
    intros [Hc Hl]. apply swp_send_rest; [done|done|lia|lia].
  - cbn [ct_part ct_curr ct_lp]. split; [done|]. split; [lia|]. split; [|lia]. split; [done|].
    rewrite Z.sub_diag, sub_0. by apply sends_log.
  - unfold rounds_left, parts_fuel, rounds. cbn [ct_i ct_r]. rewrite drop_0. simpl. lia.
Qed.

(** *** The record splitter *)

(** The connection's buffer holds the records [done], the record being split, and
    slack behind it. *)
Definition splitting (h f : bytes) (L : Z) (s0 : dstate) (lp n : Z) (s : dstate) : Prop :=
  ∃ done rest slack, d_buf s = enc_records done ++ enc_record (h, rest) ++ slack ∧
    lp = blen (enc_records done) ∧ n = lp + 5 + blen rest ∧
    Forall (λ r, r.1 = h) done ∧ payload done ++ rest = f ∧
    blen (d_buf s) = L ∧ bytes_wf (d_buf s) ∧ sends os s0 s [].

(** The buffer after it: the records, and slack. *)
Definition split_done (h f : bytes) (L : Z) (s0 : dstate) (n : Z) (s : dstate) : Prop :=
  ∃ rs slack, d_buf s = enc_records rs ++ slack ∧ n = blen (enc_records rs) ∧
    Forall (λ r, r.1 = h) rs ∧ payload rs = f ∧
    blen (d_buf s) = L ∧ bytes_wf (d_buf s) ∧ sends os s0 s [].

Lemma splitting_done h f L s0 lp n s :
  blen h = 3 → splitting h f L s0 lp n s → split_done h f L s0 n s.
Proof.
  intros Hh (done & rest & slack & E & El & En & Hd & Hf & HL & Hw & Hq).
  exists (done ++ [(h, rest)]), slack. split_and!; try done.
  - rewrite E, enc_records_app. cbn [enc_records]. by rewrite app_nil_r, <- app_assoc.
  - rewrite enc_records_app. cbn [enc_records]. rewrite app_nil_r, blen_app, blen_enc_record.
    cbn [fst snd]. lia.
  - apply Forall_app_2; [done|by constructor].
  - unfold payload in *. rewrite map_app, concat_app. cbn. by rewrite app_nil_r.
Qed.

Lemma splitting_quiet h f L s0 lp n s s' :
  splitting h f L s0 lp n s → quiet s s' → splitting h f L s0 lp n s'.
Proof.
  intros (done & rest & slack & E & El & En & Hd & Hf & HL & Hw & Hq) [E' Hq'].
  exists done, rest, slack. rewrite E'. split_and!; try done. by eapply sends_nil_trans.
Qed.

(** One split: refused, or the record at [lp] becomes two. *)
Lemma swp_part_tls_at h f L s0 lp n s bfsize pos (P : Z → dstate → Prop) :
  blen h = 3 → blen f < 65536 → L < 2 ^ 62 → n <= bfsize <= L → lp <= pos →
  splitting h f L s0 lp n s →
  P 0 s → (∀ s', splitting h f L s0 (pos + 5) (n + 5) s' → n + 5 <= bfsize → P 5 s') →
  swp (part_tls_at lp bfsize n pos) s P.
Proof.
  intros Hh Hf HL Hb Hpos (done & rest & slack & E & El & En & Hd & Hpay & HbL & Hw & Hq) HP0 HP.
  pose proof (blen_nonneg (enc_records done)) as H0.
  pose proof (blen_nonneg rest). pose proof (blen_nonneg slack).
  assert (Hbl : blen (d_buf s) = lp + (5 + blen rest) + blen slack).
  { rewrite E, !blen_app, blen_enc_record. cbn [fst snd]. lia. }
  unfold part_tls_at. do 2 sstep.
  rewrite (proj2 (Z.ltb_ge lp 0)), (proj2 (Z.ltb_ge (blen (d_buf s)) lp)) by lia. cbn [orb].
  assert (Hdr : drop (Z.to_nat lp) (d_buf s) = enc_record (h, rest) ++ slack).
  { rewrite E, El. unfold blen. by rewrite Nat2Z.id, drop_app_length. }
  assert (Hta : take (Z.to_nat lp) (d_buf s) = enc_records done).
  { rewrite E, El. unfold blen. by rewrite Nat2Z.id, take_app_length. }
  assert (Hu : u64 (bfsize - lp - (n - lp)) = bfsize - n).
  { unfold u64. rewrite Z.mod_small; lia. }
  do 2 sstep. rewrite Hdr. destruct ((n - lp <? 3) || (u64 (bfsize - lp - (n - lp)) <? 5) ||
    (pos - lp <? 0) || (n - lp <? pos - lp + 5)) eqn:Hno.
  { unfold part_tls. rewrite Hno. cbn [wp]. cbv beta iota. do 3 sstep.
    replace (set_buf _ s) with s; [exact HP0|]. rewrite <- Hdr, take_drop. by destruct s. }
  rewrite Hu in Hno.
  destruct (split_at rest (pos - lp)) as (f1 & f2 & -> & Hf1); [lia|].
  destruct (split_at slack 5) as (s5 & slack' & -> & Hs5); [lia|].
  assert (Hlen : blen (f1 ++ f2) < 65536).
  { pose proof (f_equal blen Hpay) as E1. rewrite blen_app in E1. blia. }
  assert (Hw' := Hw). rewrite E in Hw'. apply wf_app in Hw' as [_ Hw'].
  unfold enc_record in Hw'. cbn [fst snd] in Hw'.
  rewrite <- !app_assoc in Hw'.
  apply wf_app in Hw' as [Hwh Hw']. apply wf_app in Hw' as [_ Hw'].
  pose proof (part_tls_split h f1 f2 [] s5 slack' (bfsize - lp)) as Hsp.
  cbv zeta in Hsp. rewrite blen_nil, Z.add_0_r, blen_app in Hsp.
  rewrite blen_app in *. rewrite !app_nil_l in Hsp. rewrite Hf1 in Hsp.
  replace (n - lp) with (5 + (pos - lp + blen f2)) by lia.
  rewrite Hsp; [|by apply wf_app|done|done|lia|lia|lia].
  cbn [wp]. cbv beta iota. do 3 sstep. apply HP; [|lia]. rewrite Hta.
  exists (done ++ [(h, f1)]), f2, slack'. cbn [d_buf set_buf d_log].
  assert (Heq : enc_records done ++ enc_record (h, f1) ++ enc_record (h, f2) ++ slack' =
    enc_records (done ++ [(h, f1)]) ++ enc_record (h, f2) ++ slack').
  { rewrite enc_records_app. cbn [enc_records]. by rewrite app_nil_r, <- app_assoc. }
  split_and!.
  - exact Heq.
  - rewrite enc_records_app. cbn [enc_records]. rewrite app_nil_r, blen_app, blen_enc_record.
    cbn [fst snd]. lia.
  - lia.
  - apply Forall_app_2; [done|by constructor].
  - rewrite <- Hpay. unfold payload. rewrite map_app, concat_app. cbn.
    by rewrite app_nil_r, <- !app_assoc.
  - rewrite <- HbL, E, !blen_app, !blen_enc_record. cbn [fst snd]. rewrite !blen_app. lia.
  - rewrite E in Hw. apply wf_app in Hw as [Hwd _]. apply wf_app. split; [done|].
    unfold enc_record. cbn [fst snd].
    apply wf_app in Hw' as [? Hw']. apply wf_app in Hw' as [? Hw']. apply wf_app in Hw' as [_ ?].
    repeat (apply wf_app; split); try done; auto with zon.
  - exact Hq.
Qed.

Definition steady (p : part) : Prop := has (p_flag p) OFFSET_RAND = false.

Lemma swp_tamp_body h f L s0 bfsize l x s :
  blen h = 3 → blen f < 65536 → L < 2 ^ 62 → bfsize <= L → Forall steady l →
  steady (tp_part x) → 0 <= tp_rc x → tp_n x <= bfsize →
  splitting h f L s0 (tp_lp x) (tp_n x) s →
  swp (tamp_body rand bfsize l x) s (λ r s', match r with
    | inl x' => (steady (tp_part x') ∧ 0 <= tp_rc x' ∧ tp_n x' <= bfsize ∧
          splitting h f L s0 (tp_lp x') (tp_n x') s') ∧
        (rounds_left l (tp_i x') (tp_r x') < rounds_left l (tp_i x) (tp_r x))%nat
    | inr n => n <= bfsize ∧ split_done h f L s0 n s'
    end).
Proof.
  intros Hh Hf HL Hb Hl Hst Hrc Hn Hs. unfold tamp_body. destruct (negb _) eqn:Hgo.
  { sstep. split; [done|]. by eapply splitting_done. }
  apply negb_false_iff in Hgo.
  pose proof (next_part l (tp_i x) (tp_r x) (tp_part x) steady Hgo Hst Hl) as Hnx.
  cbv zeta in Hnx |- *. destruct (if tp_r x <=? 0 then _ else _) as [[part r] i].
  destruct Hnx as [Hrd Hrounds].
  pose proof Hs as (done & rest & slack & _ & _ & _ & _ & _ & HbL & Hw & _).
  do 3 sstep. apply swp_gen_offset; [done|lia|done|]. intros o s1 H1.
  apply (splitting_quiet _ _ _ _ _ _ _ _ Hs) in H1. clear Hs.
  set (pos := (if _ || _ then _ else _) + _).
  destruct (Z.ltb_spec pos (tp_lp x)).
  { sstep. split; [done|]. by eapply splitting_done. }
  sstep. eapply (swp_part_tls_at h f L s0); [done..|lia|done|exact H1| |].
  - cbn. split; [done|]. by eapply splitting_done.
  - intros s2 H2 Hn2. cbn. split_and!; [done|lia|done|done|done].
Qed.

(** The record header that goes out: the client's, but for a minor version set by the
    group. *)
Definition header_of (dp : desync_params) (h h' : bytes) : Prop :=
  h' = h ∨ ∃ v, dp_tlsminor dp = Some v ∧ h' = put h 2 [u8 v].

(** A ClientHello in one record stays one, whatever the group asks for: the record
    is cut into records with its header and the same payload in all. *)
Lemma swp_tamp h f slack s bfsize n dp :
  d_buf s = enc_record (h, f) ++ slack → n = 5 + blen f → bytes_wf (d_buf s) →
  blen h = 3 → bat h 0 = 22 → blen f < 65536 → blen (d_buf s) < 2 ^ 62 →
  n <= bfsize <= blen (d_buf s) → Forall steady (dp_tlsrec dp) →
  swp (tamp rand bfsize n dp) s (λ n' s', n' <= bfsize ∧ ∃ h', header_of dp h h' ∧
    split_done h' f (blen (d_buf s)) s n' s').
Proof.
  intros Hbuf -> Hw Hh H22 Hf HL Hb Hst. unfold tamp.
  pose proof (blen_nonneg f) as Hfl.
  assert (Hlen : blen (d_buf s) = 5 + blen f + blen slack).
  { rewrite Hbuf, blen_app, blen_enc_record. cbn [fst snd]. lia. }
  pose proof (blen_nonneg slack).
  assert (H0 : bat (d_buf s) 0 = 22).
  { rewrite Hbuf. unfold enc_record. cbn [fst snd]. rewrite <- app_assoc, bat_app by lia.
    by rewrite (proj2 (Z.ltb_lt _ _)) by lia. }
  assert (Hinit : splitting h f (blen (d_buf s)) s 0 (5 + blen f) s).
  { exists [], f, slack. split_and!; try done. by apply sends_log. }
  sstep. eapply (swp_mono _ _ (λ _ s', s' = s)).
  { destruct (dp_mod_http dp =? 0); [done|]. do 2 sstep. sstep. sstep.
    rewrite is_http_eq by lia. cbn [wp]. rewrite H0.
    change (s8 22 <? ch "C") with true. rewrite orb_true_r. cbn [negb].
    rewrite andb_false_r. done. }
  intros _ s1 ->.
  sstep. eapply (swp_mono _ _ (λ _ s', ∃ h', (blen h' = 3 ∧ header_of dp h h') ∧
    splitting h' f (blen (d_buf s)) s 0 (5 + blen f) s')).
  { destruct (dp_tlsminor dp) as [v|] eqn:Ev; [|sstep; exists h; repeat (done || split || left)].
    do 2 sstep. do 2 sstep. rewrite is_tls_chello_eq by (done || lia). cbn [wp].
    destruct (negb _); [sstep; exists h; repeat (done || split || left)|]. do 2 sstep. unfold wr. apply wp_store; [lia|blia|].
    sstep. exists (put h 2 [u8 v]).
    assert (Hh' : blen (put h 2 [u8 v]) = 3) by (rewrite blen_put; blia).
    split; [split; [done|right; eauto]|]. exists [], f, slack. cbn [d_buf set_buf enc_records app].
    assert (E : put (d_buf s) 2 [u8 v] = enc_record (put h 2 [u8 v], f) ++ slack).
    { rewrite Hbuf. unfold enc_record. cbn [fst snd].
      destruct (split_at h 2) as (h1 & h2 & -> & Hh1); [lia|]. rewrite blen_app in Hh.
      rewrite <- !app_assoc. rewrite put_at by blia.
      rewrite <- (app_nil_r h2), put_at by blia. by rewrite !app_nil_r, <- app_assoc. }
    split_and!; try done.
    - rewrite blen_put; blia.
    - apply wf_put; [done|]. constructor; [apply wf_u8|done].
    - by apply sends_log. }
  intros _ s2 (h' & [Hh' Hdr] & Hs2). pose proof Hs2 as (? & ? & ? & _ & _ & _ & _ & _ & HL2 & Hw2 & _).
  assert (Hdone : 5 + blen f <= bfsize ∧ ∃ h', header_of dp h h' ∧
    split_done h' f (blen (d_buf s)) s (5 + blen f) s2).
  { split; [lia|]. exists h'. split; [done|]. by eapply splitting_done. }
  destruct (dp_tlsrec dp) as [|p l] eqn:El; [by sstep|]. rewrite <- El in *. clear p l El.
  do 4 sstep. rewrite is_tls_chello_eq by (done || lia). cbn [wp]. destruct (negb _); [by sstep|].
  eapply swp_mono.
  - apply (swp_sloop _ (λ x s', steady (tp_part x) ∧ 0 <= tp_rc x ∧ tp_n x <= bfsize ∧
        splitting h' f (blen (d_buf s)) s (tp_lp x) (tp_n x) s')
      (λ x, rounds_left (dp_tlsrec dp) (tp_i x) (tp_r x))
      (λ n' s', n' <= bfsize ∧ split_done h' f (blen (d_buf s)) s n' s')).
    + intros y s3 (H1 & H2 & H3 & H4).
      eapply swp_mono; [apply (swp_tamp_body h' f (blen (d_buf s)) s); done || lia|].
      intros [y'|n'] s4; done.
    + cbn [tp_part tp_rc tp_n tp_lp]. split_and!; [done|lia|lia|done].
    + unfold rounds_left, parts_fuel, rounds. cbn [tp_i tp_r]. rewrite drop_0. simpl. lia.
  - intros n' s3 [Hn' Hd]. eauto.
Qed.

Lemma swp_desync_hello h f slack s bfsize dp :
  d_buf s = enc_record (h, f) ++ slack → d_part_sent s = 0 → bytes_wf (d_buf s) →
  blen h = 3 → bat h 0 = 22 → blen f < 65536 → blen (d_buf s) < 2 ^ 62 →
  5 + blen f <= bfsize <= blen (d_buf s) → send_bounded →
  Forall steady (dp_tlsrec dp) → Forall plain (dp_parts dp) →
  swp (desync prm os rand junk fuel bfsize 0 (5 + blen f) 0 dp) s (λ '(ret, _, n) s',
    ∃ h' rs, header_of dp h h' ∧ Forall (λ r, r.1 = h') rs ∧ payload rs = f ∧
      n = blen (enc_records rs) ∧ ∃ k, sends os s s' (sub (enc_records rs) 0 k) ∧ 0 <= k <= n ∧
      (ret = -1 ∨ k <= ret ∧ ret <= n ∧ (ret < n → k = ret) ∧ (send_whole → k = ret))).
Proof.
  intros Hbuf Hps Hw Hh H22 Hf HL Hb Hs Hst Hp. unfold desync. pose proof (blen_nonneg f).
  assert (Hlen : blen (d_buf s) = 5 + blen f + blen slack).
  { rewrite Hbuf, blen_app, blen_enc_record. cbn [fst snd]. lia. }
  pose proof (blen_nonneg slack). do 4 sstep. cbn [d_part_sent set_info]. rewrite Hps.
  do 2 sstep. cbn [d_buf set_info]. set (s1 := set_info no_info s).
  sstep. eapply (swp_mono _ _ (λ _ s', quiet s s')).
  { change (0 =? 0) with true. cbn [andb]. destruct (LOG_ENABLED prm); [|sstep; by apply quiet_same].
    apply swp_init_proto_info; [done|lia|]. intros s2 H2. exact H2. }
  intros _ s2 [Eb Hq]. change (0 =? 0) with true. cbv iota. sstep.
  eapply swp_mono; [apply (swp_tamp h f slack); rewrite ?Eb; done || lia|].
  intros n s3 (Hn & h' & Hh' & rs & sl & Eb3 & -> & Hrs & Hpay & HL3 & Hw3 & Hq3).
  pose proof (blen_nonneg (enc_records rs)). pose proof (blen_nonneg sl).
  pose proof (f_equal blen Eb3) as El3. rewrite blen_app in El3. rewrite Eb in HL3.
  sstep. eapply swp_mono; [apply swp_send_parts; done || lia|].
  intros [ret wait] s4 [E4 Ho]. cbn [fst] in Ho. cbv beta iota. sstep. exists h', rs. split_and!; try done.
  destruct Ho as (k & Hk & Hk1 & Hk2). rewrite Z.sub_0_r in *. exists k.
  rewrite Eb3, sub_app_l in Hk by lia. split_and!; try lia; [|done].
  eapply (sends_trans os _ _ _ [] _); [|exact Hk]. eapply sends_nil_trans; [exact Hq|exact Hq3].
Qed.

(** *** Decoys *)

(** Since [s0] the calls [l] were made, and file [h] now is [x]. *)
Definition filed (s0 : dstate) (l : list sys) (h : Z) (x : tfile) (s : dstate) : Prop :=
  d_log s = d_log s0 ++ l ∧ d_files s !! Z.to_nat (h - 1) = Some x ∧ d_buf s = d_buf s0.

Lemma filed_file s0 l h x s : filed s0 l h x s → nth (Z.to_nat (h - 1)) (d_files s) (TFile [] 0) = x.
Proof. intros (_ & E & _). by rewrite nth_lookup, E. Qed.

Lemma filed_set s0 l h x y s :
  filed s0 l h x s → filed s0 l h y (set_files (<[Z.to_nat (h - 1) := y]> (d_files s)) s).
Proof.
  intros (El & E & Eb). split_and!; [done| |done]. cbn [d_files set_files].
  apply list_lookup_insert_eq. by eapply lookup_lt_Some.
Qed.

Lemma swp_filed_call s0 l h x c s (P : Z → dstate → Prop) :
  filed s0 l h x s → (∀ r s', filed s0 (l ++ [c]) h x s' → P r s') → swp (call os c) s P.
Proof.
  intros (El & E & Eb) HP. apply swp_call, HP. split_and!; [|done|done].
  cbn [d_log set_log]. by rewrite El, <- app_assoc.
Qed.

Lemma swp_filed_setttl s0 l h x ttl s (P : Z → dstate → Prop) :
  filed s0 l h x s →
  (∀ r s', filed s0 (l ++ [SSetHops6 ttl; SSetTtl4 ttl]) h x s' → P r s') →
  swp (setttl os ttl) s P.
Proof.
  intros Hf HP. unfold setttl. sstep. eapply swp_filed_call; [exact Hf|]. intros r1 s1 H1.
  sstep. eapply swp_filed_call; [exact H1|]. intros r2 s2 H2. sstep. apply HP.
  by rewrite <- app_assoc in H2.
Qed.

Lemma swp_WriteFile s0 l h x d s (P : Z → dstate → Prop) :
  filed s0 l h x s → (∀ s', P 0 s') →
  (∀ r s', r ≠ 0 → filed s0 (l ++ [SWriteFile h d]) h
     (TFile (file_write (fl_data x) (fl_pos x) d) (fl_pos x + blen d)) s' → P r s') →
  swp (WriteFile os h d) s P.
Proof.
  intros Hf H0 HP. unfold WriteFile, file_at, set_file. sstep.
  eapply swp_filed_call; [exact Hf|]. intros r s1 H1.
  destruct (Z.eqb_spec r 0); [by sstep|]. do 5 sstep. apply HP; [done|].
  rewrite (filed_file _ _ _ _ _ H1). by eapply filed_set.
Qed.

Lemma swp_SetFilePointer s0 l h x p s (P : Z → dstate → Prop) :
  filed s0 l h x s → (∀ s', P (-1) s') →
  (∀ r s', r ≠ -1 → filed s0 (l ++ [SSetFilePointer h p]) h (TFile (fl_data x) p) s' → P r s') →
  swp (SetFilePointer os h p) s P.
Proof.
  intros Hf H0 HP. unfold SetFilePointer, file_at, set_file. sstep.
  eapply swp_filed_call; [exact Hf|]. intros r s1 H1.
  destruct (Z.eqb_spec r (-1)); [by sstep|]. do 5 sstep. apply HP; [done|].
  rewrite (filed_file _ _ _ _ _ H1). by eapply filed_set.
Qed.

Lemma swp_SetEndOfFile s0 l h x s (P : Z → dstate → Prop) :
  filed s0 l h x s → (∀ s', P 0 s') →
  (∀ r s', r ≠ 0 → filed s0 (l ++ [SSetEndOfFile h]) h
     (TFile (take (Z.to_nat (fl_pos x))
              (fl_data x ++ repeat 0 (Z.to_nat (fl_pos x - blen (fl_data x))))) (fl_pos x)) s' →
     P r s') →
  swp (SetEndOfFile os h) s P.
Proof.
  intros Hf H0 HP. unfold SetEndOfFile, file_at, set_file. sstep.
  eapply swp_filed_call; [exact Hf|]. intros r s1 H1.
  destruct (Z.eqb_spec r 0); [by sstep|]. do 5 sstep. apply HP; [done|].
  rewrite (filed_file _ _ _ _ _ H1). by eapply filed_set.
Qed.

(** The decoy: the packet from its offset on, cut or filled up with zeros to the
    length of the part. *)
Definition decoy (pkt : packet) (pos : Z) : bytes :=
  let ps := pk_size pkt - pk_off pkt in
  sub (pk_data pkt) (pk_off pkt) (Z.min ps pos) ++ repeat 0 (Z.to_nat (pos - ps)).

(** The decoy was handed to the kernel under the decoy's TTL; the file it was handed
    in now holds the real bytes for what is sent again, under the normal TTL. *)
Definition decoyed (s : dstate) (buffer : bytes) (pos ttl : Z) (pkt : packet) (s' : dstate) : Prop :=
  ∃ h l1 l2 p, filed s (l1 ++ STransmit h pos (decoy pkt pos) :: l2) h
      (TFile (sub buffer 0 pos) p) s' ∧
    Forall (λ c, ∀ oob d, c ≠ SSend oob d) (l1 ++ l2) ∧
    (∃ l3 l4, l1 = l3 ++ [SSetHops6 ttl; SSetTtl4 ttl] ++ l4 ∧
       Forall (λ c, ∀ t, c ≠ SSetTtl4 t) l4) ∧
    (∃ l5, l2 = l5 ++ [SSetHops6 (pr_def_ttl prm); SSetTtl4 (pr_def_ttl prm)]).

Lemma blen_decoy pkt pos :
  0 <= pk_off pkt <= pk_size pkt → pk_size pkt <= blen (pk_data pkt) → 0 <= pos →
  blen (decoy pkt pos) = pos.
Proof.
  intros. unfold decoy. rewrite blen_app, blen_repeat, blen_sub by lia. lia.
Qed.

Lemma file_write_0 d l : file_write d 0 l = l ++ drop (length l) d.
Proof.
  unfold file_write. pose proof (blen_nonneg d). replace (Z.to_nat (0 - blen d)) with O by lia.
  rewrite app_nil_r. cbn [Z.to_nat take app]. by unfold blen; rewrite Z.add_0_l, Nat2Z.id.
Qed.

(** Leave by the branch of a failed call. *)
Ltac bail :=
  intros; cbv beta; (change (0 =? 0) with true || change (-1 =? -1) with true);
  cbv iota; sstep; (done || lia).

(** The steps up to the point where the file holds the decoy. *)
Lemma decoy_file pkt pos :
  0 <= pk_off pkt <= pk_size pkt → pk_size pkt <= blen (pk_data pkt) → 0 <= pos →
  let ps := pk_size pkt - pk_off pkt in
  let l := sub (pk_data pkt) (pk_off pkt) (if ps <? pos then ps else pos) in
  file_write [] 0 l = l ∧
  ((ps <? pos) = true → take (Z.to_nat pos) (l ++ repeat 0 (Z.to_nat (pos - blen l))) = decoy pkt pos) ∧
  ((ps <? pos) = false → l = decoy pkt pos).
Proof.
  intros Ho Hs Hp ps l. unfold decoy. fold ps. split; [|split].
  - rewrite file_write_0, drop_nil. apply app_nil_r.
  - intros Hlt. subst l. rewrite Hlt. rewrite blen_sub by lia.
    rewrite Z.min_l by lia. rewrite take_ge; [done|].
    rewrite length_app, repeat_length. pose proof (blen_sub (pk_data pkt) (pk_off pkt) ps ltac:(lia) ltac:(lia) ltac:(lia)) as Hb.
    unfold blen at 1 in Hb. lia.
  - intros Hge. subst l. rewrite Hge, Z.min_r by lia. replace (Z.to_nat (pos - ps)) with O by lia.
    by rewrite app_nil_r.
Qed.

Lemma swp_send_fake_steps slot h buffer pos opt pkt s0 s l0 :
  filed s0 l0 h (TFile [] 0) s → Forall (λ c, ∀ oob d, c ≠ SSend oob d) l0 →
  0 <= pk_off pkt <= pk_size pkt → pk_size pkt <= blen (pk_data pkt) →
  0 <= pos <= blen buffer →
  swp (send_fake_steps prm os slot h buffer pos opt pkt) s (λ ok s', ok = true →
    decoyed s0 buffer pos (if dp_ttl opt =? 0 then DEFAULT_TTL else dp_ttl opt) pkt s').
Proof.
  intros Hf Hl0 Ho Hs Hp. pose proof (decoy_file pkt pos Ho Hs ltac:(lia)) as (E1 & E2 & E3).
  unfold send_fake_steps. set (ps := pk_size pkt - pk_off pkt) in *. cbv zeta in E1, E2, E3.
  set (ttl := if dp_ttl opt =? 0 then _ else _).
  do 2 sstep. apply wp_rds; [lia|destruct (ps <? pos); lia|destruct (Z.ltb_spec ps pos); lia|].
  set (l := sub (pk_data pkt) _ _) in *.
  sstep. eapply swp_WriteFile; [exact Hf|bail|]. intros r s1 Hr H1.
  rewrite (proj2 (Z.eqb_neq r 0)) by done. cbn [fl_data fl_pos] in H1. rewrite E1 in H1.
  sstep. eapply (swp_mono _ _ (λ ok s', ok = true → ∃ l1 p,
    filed s0 l1 h (TFile (decoy pkt pos) p) s' ∧ Forall (λ c, ∀ oob d, c ≠ SSend oob d) l1)).
  { assert (Hl1 : Forall (λ c, ∀ oob d, c ≠ SSend oob d) (l0 ++ [SWriteFile h l])).
    { apply Forall_app_2; [done|by constructor]. }
    destruct (ps <? pos) eqn:Hps; [|sstep; intros _; rewrite <- E3 by done; eauto].
    sstep. eapply swp_SetFilePointer; [exact H1|bail|]. intros r2 s2 Hr2 H2.
    rewrite (proj2 (Z.eqb_neq r2 (-1))) by done. cbn [fl_data fl_pos] in H2.
    sstep. eapply swp_SetEndOfFile; [exact H2|bail|]. intros r3 s3 Hr3 H3.
    sstep. intros _. cbn [fl_data fl_pos] in H3. rewrite E2 in H3 by done.
    do 2 eexists. split; [exact H3|]. rewrite <- app_assoc.
    apply Forall_app_2; [done|by repeat constructor]. }
  intros ok s2 H2. destruct ok; cbn [negb]; [|by sstep]. destruct (H2 eq_refl) as (l2 & p2 & Hf2 & Hl2).
  clear Hf Hl0 E1 E2 E3 H1 H2. cbn [negb].
  sstep. eapply swp_SetFilePointer; [exact Hf2|bail|]. intros r3 s3 Hr3 H3.
  rewrite (proj2 (Z.eqb_neq r3 (-1))) by done. cbn [fl_data] in H3.
  sstep. eapply swp_filed_setttl; [exact H3|]. intros r4 s4 H4. destruct (r4 <? 0); [by sstep|].
  sstep. eapply swp_filed_call; [exact H4|]. intros ev s5 H5. do 2 sstep.
  set (s5' := set_tfs _ _ s5).
  assert (H5' : filed s0 _ h _ s5') by exact H5. clearbody s5'.
  destruct (ev =? 0); [by sstep|].
  unfold TransmitFile, file_at. do 4 sstep. rewrite (filed_file _ _ _ _ _ H5').
  cbn [fl_data fl_pos]. pose proof (blen_decoy pkt pos Ho Hs ltac:(lia)) as Hdl.
  eapply swp_filed_call; [exact H5'|]. intros r6 s6 H6. cbn [fl_data fl_pos] in H6.
  replace (sub (decoy pkt pos) 0 pos) with (decoy pkt pos) in H6
    by (rewrite <- Hdl at 3; by rewrite sub_all).
  set (L := (((l2 ++ _) ++ _) ++ _) ++ [STransmit _ _ _]) in H6.
  sstep. eapply (swp_mono _ _ (λ ok s', ok = true → ∃ l7,
    filed s0 (L ++ l7) h (TFile (decoy pkt pos) 0) s' ∧ Forall (λ c, ∀ oob d, c ≠ SSend oob d) l7)).
  { destruct (negb _); [sstep; intros _; exists []; by rewrite app_nil_r|].
    sstep. eapply swp_filed_call; [exact H6|]. intros e7 s7 H7.
    destruct (e7 =? 997); [sstep; intros _; eexists; split; [exact H7|by repeat constructor]|].
    sstep. eapply swp_filed_call; [exact H7|]. intros e8 s8 H8. sstep. intros _.
    rewrite <- app_assoc in H8. eexists. split; [exact H8|by repeat constructor]. }
  intros ok s7 H7. destruct ok; cbn [negb]; [|by sstep]. destruct (H7 eq_refl) as (l7 & Hf7 & Hl7). cbn [negb].
  sstep. eapply swp_SetFilePointer; [exact Hf7|bail|]. intros r8 s8 Hr8 H8.
  rewrite (proj2 (Z.eqb_neq r8 (-1))) by done. cbn [fl_data] in H8.
  do 2 sstep. apply wp_rds; [lia..|]. sstep. eapply swp_WriteFile; [exact H8|bail|].
  intros r9 s9 Hr9 H9. rewrite (proj2 (Z.eqb_neq r9 0)) by done. cbn [fl_data fl_pos] in H9.
  rewrite file_write_0 in H9. rewrite drop_ge, app_nil_r in H9.
  2: { pose proof (blen_sub buffer 0 pos ltac:(lia) ltac:(lia) ltac:(lia)) as Hb.
       unfold blen in Hb at 1. unfold blen in Hdl. lia. }
  sstep. eapply swp_filed_setttl; [exact H9|]. intros r10 s10 H10. destruct (r10 <? 0); [by sstep|].
  do 3 sstep. eapply (swp_mono _ _ (λ _ s', filed s0 (((( L ++ l7) ++ [SSetFilePointer h 0]) ++
      [SWriteFile h (sub buffer 0 pos)]) ++
      [SSetHops6 (pr_def_ttl prm); SSetTtl4 (pr_def_ttl prm)]) h
      (TFile (sub buffer 0 pos) (0 + blen (sub buffer 0 pos))) s')).
  { destruct (_ <? MAX_TF); sstep; exact H10. }
  intros _ s11 H11. sstep. intros _. subst L. rewrite <- !app_assoc in H11.
  set (tl := [SSetHops6 ttl; SSetTtl4 ttl]) in *.
  set (td := [SSetHops6 (pr_def_ttl prm); SSetTtl4 (pr_def_ttl prm)]) in *.
  exists h, (l2 ++ [SSetFilePointer h 0] ++ tl ++ [SCreateEvent]),
    (l7 ++ [SSetFilePointer h 0] ++ [SWriteFile h (sub buffer 0 pos)] ++ td),
    (0 + blen (sub buffer 0 pos)).
  split_and!.
  - rewrite <- !app_assoc. exact H11.
  - subst tl td. repeat (apply Forall_app; split); try done; by repeat constructor.
  - exists (l2 ++ [SSetFilePointer h 0]), [SCreateEvent]. rewrite <- !app_assoc.
    split; [done|by repeat constructor].
  - exists (l7 ++ [SSetFilePointer h 0] ++ [SWriteFile h (sub buffer 0 pos)]).
    by rewrite <- !app_assoc.
Qed.

Definition no_send (c : sys) : Prop := ∀ oob d, c ≠ SSend oob d.
Definition called (s0 : dstate) (s : dstate) : Prop :=
  ∃ l, d_log s = d_log s0 ++ l ∧ Forall no_send l ∧ d_buf s = d_buf s0.

Lemma called_trans s1 s2 s3 : called s1 s2 → called s2 s3 → called s1 s3.
Proof.
  intros (l1 & E1 & F1 & B1) (l2 & E2 & F2 & B2). exists (l1 ++ l2).
  rewrite E2, E1, B2, B1, <- app_assoc. split_and!; [done| |done]. by apply Forall_app_2.
Qed.
Lemma called_refl s s' : d_log s' = d_log s → d_buf s' = d_buf s → called s s'.
Proof. intros E B. exists []. rewrite app_nil_r. done. Qed.

Lemma swp_called c s (P : Z → dstate → Prop) :
  no_send c → (∀ r s', called s s' → d_files s' = d_files s → P r s') → swp (call os c) s P.
Proof. intros Hc HP. apply swp_call, HP; [|done]. exists [c]. split_and!; [done|by constructor|done]. Qed.

Lemma swp_getTFE s (P : option nat → dstate → Prop) :
  (∀ r s', called s s' → P r s') → swp (getTFE os) s P.
Proof.
  intros HP. unfold getTFE. do 2 sstep. destruct (_ <? MAX_TF).
  { do 3 sstep. by apply HP, called_refl. }
  sstep. apply swp_called; [done|]. intros r s1 H1 _. destruct (_ && _); [|sstep; by apply HP].
  do 3 sstep. apply swp_called; [done|]. intros ? s2 H2 _. sstep. apply swp_called; [done|].
  intros ? s3 H3 _. do 3 sstep. apply HP. eapply called_trans; [exact H1|].
  eapply called_trans; [exact H2|]. eapply called_trans; [exact H3|]. by apply called_refl.
Qed.

Lemma swp_openTempFile s (P : Z → dstate → Prop) :
  (∀ s', P 0 s') →
  (∀ h s', h ≠ 0 → called s s' → d_files s' !! Z.to_nat (h - 1) = Some (TFile [] 0) → P h s') →
  swp (openTempFile os) s P.
Proof.
  intros H0 HP. unfold openTempFile. sstep. apply swp_called; [done|]. intros r1 s1 H1 _.
  destruct (r1 =? 0); [by sstep|]. sstep. apply swp_called; [done|]. intros r2 s2 H2 _.
  destruct (r2 =? 0); [by sstep|]. sstep. apply swp_called; [done|]. intros r3 s3 H3 _.
  destruct (r3 =? -1); [by sstep|]. do 5 sstep. apply HP; [lia| |].
  - eapply called_trans; [exact H1|]. eapply called_trans; [exact H2|].
    eapply called_trans; [exact H3|]. by apply called_refl.
  - cbn [d_files set_files]. rewrite Z.add_simpl_r, Nat2Z.id. apply list_lookup_middle. done.
Qed.

Lemma swp_send_fake buffer pos opt pkt s :
  0 <= pk_off pkt <= pk_size pkt → pk_size pkt <= blen (pk_data pkt) →
  0 <= pos <= blen buffer →
  swp (send_fake prm os buffer pos opt pkt) s (λ r s', 0 <= r → r = pos ∧
    decoyed s buffer pos (if dp_ttl opt =? 0 then DEFAULT_TTL else dp_ttl opt) pkt s').
Proof.
  intros Ho Hs Hp. unfold send_fake. sstep. apply swp_getTFE. intros [slot|] s1 H1; [|sstep; unfold ERR_WAIT; lia].
  sstep. apply swp_openTempFile; [bail|].
  intros h s2 Hh H2 Hfile. rewrite (proj2 (Z.eqb_neq h 0)) by done. do 2 sstep.
  destruct (called_trans _ _ _ H1 H2) as (l & El & Fl & Eb).
  sstep. eapply swp_mono.
  - apply (swp_send_fake_steps _ _ _ _ _ _ s _ l); [|done..]. split_and!; [exact El|exact Hfile|exact Eb].
  - intros [] s3 H3; [sstep; by auto|]. do 3 sstep. apply swp_called; [done|]. intros ? s4 _ _.
    sstep. destruct (tf_event _ =? 0); [do 2 sstep; lia|].
    apply swp_called; [done|]. intros ? s5 _ _. sstep. lia.
Qed.

(** *** UDP *)

Lemma swp_send_fakes data count s :
  swp (send_fakes os data count) s (λ ok s', d_buf s' = d_buf s ∧
    ∃ k, (k <= count)%nat ∧ d_log s' = d_log s ++ repeat (SSend false data) k ∧
      (ok = true → k = count)).
Proof.
  revert s. induction count as [|count IH]; intros s; cbn [send_fakes].
  { sstep. split; [done|]. exists O. by rewrite app_nil_r. }
  sstep. apply swp_call. destruct (_ <? 0).
  { sstep. split; [done|]. exists 1%nat. split_and!; [lia|done|done]. }
  eapply swp_mono; [apply IH|]. intros ok s' (Eb & k & Hk & El & Hok).
  split; [by rewrite Eb|]. exists (S k). split_and!; [lia| |intros; f_equal; auto].
  rewrite El. cbn [d_log set_log repeat]. by rewrite <- app_assoc.
Qed.

(** The decoy datagram of a group. *)
Definition udp_decoy (dp : desync_params) : bytes :=
  let pkt := match dp_fake_data dp with Some p => p | None => fake_udp end in
  if decide (p_m (dp_fake_offset dp) = DESYNC_NONE) then sub (pk_data pkt) 0 (pk_size pkt)
  else sub (pk_data pkt) (p_pos (dp_fake_offset dp)) (pk_size pkt - p_pos (dp_fake_offset dp)).

Definition packet_wf (p : packet) : Prop := 0 <= pk_size p <= blen (pk_data p).

Lemma swp_setttl_log ttl s (P : Z → dstate → Prop) :
  (∀ r s', d_log s' = d_log s ++ [SSetHops6 ttl; SSetTtl4 ttl] → d_buf s' = d_buf s → P r s') →
  swp (setttl os ttl) s P.
Proof.
  intros HP. unfold setttl. sstep. apply swp_call. sstep. apply swp_call. sstep.
  apply HP; [|done]. cbn [d_log set_log]. by rewrite <- app_assoc.
Qed.

Lemma swp_send_all n s (P : Z → dstate → Prop) :
  0 <= n <= blen (d_buf s) →
  (∀ r s', d_log s' = d_log s ++ [SSend false (sub (d_buf s) 0 n)] → P r s') →
  swp (send_buf os false 0 n) s P.
Proof.
  intros Hn HP. unfold send_buf. do 4 sstep. apply wp_rds; [lia..|]. by apply swp_call, HP.
Qed.
End lemmas.

(** * A system to run on *)

(** Everything succeeds at once. *)
Definition os_ok (l : list sys) : Z :=
  match list.last l with
  | Some (SSend _ d) => blen d
  | Some (SSetHops6 _) | Some (SSetTtl4 _) => 0
  | _ => 1
  end.

Lemma os_ok_bounded : send_bounded os_ok.
Proof. intros l oob d. unfold os_ok. rewrite last_snoc. lia. Qed.

Definition prm0 : params := {|
  pr_await_int := 10; pr_wait_send := false; pr_def_ttl := 128; pr_custom_ttl := false;
  pr_timeout := 0; pr_ptimeout := 0; pr_to_count_lim := 0; pr_to_bytes_lim := 0;
  pr_cache_pre := 0; pr_mode := 0; pr_ipv6 := true; pr_resolve := true; pr_udp := true;
  pr_delay_conn := false; pr_auto_reconnect := false; pr_max_open := 512; pr_debug := 0;
  pr_bfsize := 16384; pr_baddr := repeat 0 28; pr_dp_full_mask := 1 |}.

Definition start (b : bytes) : dstate :=
  DState [] 0 b no_info false 0 0 [null_tf; null_tf] [].

Definition with_parts (parts tlsrec : list part) (dp : desync_params) : desync_params :=
  DesyncParams (dp_ttl dp) (dp_fake_data dp) (dp_udp_fake_count dp) (dp_fake_offset dp)
    (dp_fake_sni_list dp) (dp_fake_mod dp) (dp_fake_tls_size dp) (dp_oob_char dp) parts
    (dp_mod_http dp) tlsrec (dp_tlsminor dp) (dp_proto dp) (dp_detect dp) (dp_auto_level dp)
    (dp_hosts dp) (dp_ipset dp) (dp_pf dp) (dp_rounds dp) (dp_out_type dp) (dp_out_addr dp)
    (dp_id dp) (dp_bit dp) (dp_fail_count dp) (dp_pri dp) (dp_cache_ttl dp) (dp_prev dp)
    (dp_next dp).
Definition with_udp (count : Z) (dp : desync_params) : desync_params :=
  DesyncParams (dp_ttl dp) (dp_fake_data dp) count (dp_fake_offset dp)
    (dp_fake_sni_list dp) (dp_fake_mod dp) (dp_fake_tls_size dp) (dp_oob_char dp) (dp_parts dp)
    (dp_mod_http dp) (dp_tlsrec dp) (dp_tlsminor dp) (dp_proto dp) (dp_detect dp) (dp_auto_level dp)
    (dp_hosts dp) (dp_ipset dp) (dp_pf dp) (dp_rounds dp) (dp_out_type dp) (dp_out_addr dp)
    (dp_id dp) (dp_bit dp) (dp_fail_count dp) (dp_pri dp) (dp_cache_ttl dp) (dp_prev dp)
    (dp_next dp).

(** A ClientHello fragment, room behind the record, and a group that splits the
    record once and sends two parts, one out of order and one with an urgent byte. *)
Definition sample_frag : bytes := 1 :: repeat 7 20.
Definition sample_buf : bytes := enc_record ([22; 3; 1], sample_frag) ++ repeat 0 30.
Definition sample_dp : desync_params :=
  with_parts [Part DESYNC_DISORDER 0 5 0 0; Part DESYNC_OOB 0 9 0 0] [Part DESYNC_NONE 0 3 0 0]
    dp_init.

Lemma sample_buf_wf : bytes_wf sample_buf.
Proof. vm_compute. repeat constructor; discriminate. Qed.
Lemma sample_plain : Forall plain (dp_parts sample_dp).
Proof. repeat (constructor; try (split; done)). Qed.
Lemma sample_steady : Forall steady (dp_tlsrec sample_dp).
Proof. by repeat constructor. Qed.

(** * Properties *)



(** C35: a decoy that [send_fake] reports as sent was put into a file, zero-padded to
    the length of the part, and handed to [TransmitFile] under the decoy's TTL; by
    the time the call returns, the file holds the part's real bytes for the
    retransmission, the normal TTL is back, and nothing was sent besides. *)
Theorem send_fake_covers prm os buffer pos opt pkt s :
  0 <= pk_off pkt <= pk_size pkt → pk_size pkt <= blen (pk_data pkt) →
  0 <= pos <= blen buffer →
  swp (send_fake prm os buffer pos opt pkt) s (λ r s', 0 <= r → r = pos ∧
    decoyed prm s buffer pos (if dp_ttl opt =? 0 then DEFAULT_TTL else dp_ttl opt) pkt s').
Proof. intros. by apply swp_send_fake. Qed.

Lemma send_fake_covers_witness :
  swp (send_fake prm0 os_ok sample_buf 9 dp_init fake_http) (start sample_buf)
    (λ r s', 0 <= r → r = 9 ∧ decoyed prm0 (start sample_buf) sample_buf 9 8 fake_http s').
Proof. apply (send_fake_covers prm0 os_ok sample_buf 9 dp_init fake_http (start sample_buf)); done. Defined.

(** when [desync_udp] reports success, the datagrams went out in this order: the
    group's number of decoys, between a change to the decoys' TTL and the return to
    the normal one, and then the real datagram. *)
Theorem desync_udp_order prm os n dp s :
  0 <= n <= blen (d_buf s) →
  (∀ p, dp_fake_data dp = Some p → packet_wf p) → 0 <= p_pos (dp_fake_offset dp) →
  dp_udp_fake_count dp ≠ 0 →
  let ttl := if dp_ttl dp =? 0 then DEFAULT_TTL else dp_ttl dp in
  let def := pr_def_ttl prm in
  swp (desync_udp prm os n dp) s (λ r s', 0 <= r →
    d_log s' = d_log s ++ [SSetHops6 ttl; SSetTtl4 ttl] ++
      repeat (SSend false (udp_decoy dp)) (Z.to_nat (dp_udp_fake_count dp)) ++
      [SSetHops6 def; SSetTtl4 def] ++ [SSend false (sub (d_buf s) 0 n)]).
Proof.
  intros Hn Hp Hpos Hc ttl def. unfold desync_udp. rewrite (proj2 (Z.eqb_neq _ 0)) by done.
  set (pkt := match dp_fake_data dp with Some p => p | None => fake_udp end).
  assert (Hpk : packet_wf pkt).
  { subst pkt. destruct (dp_fake_data dp); [by apply Hp|]. by split; vm_compute. }
  unfold udp_decoy. fold pkt. set (off := p_pos (dp_fake_offset dp)) in *.
  set (data := if decide _ then sub _ _ _ else _).
  destruct (if decide _ then (0, pk_size pkt) else _) as [start size] eqn:Ess.
  assert (Hr : 0 <= start ∧ 0 <= size ∧ start + size <= blen (pk_data pkt) ∧
    sub (pk_data pkt) start size = data).
  { subst data. destruct Hpk. destruct (decide _); [injection Ess as <- <-; split_and!; (lia || done)|].
    destruct (Z.ltb_spec off (pk_size pkt)); injection Ess as <- <-;
      [split_and!; (lia || done)|]. split_and!; [lia..|]. unfold sub. replace (Z.to_nat (pk_size pkt - off)) with O by lia. done. }
  destruct Hr as (Hs0 & Hs1 & Hs2 & Ed). cbv zeta. fold ttl. sstep.
  eapply (swp_mono _ _ (λ ok s', ok = true → d_buf s' = d_buf s ∧
    d_log s' = d_log s ++ [SSetHops6 ttl; SSetTtl4 ttl] ++
      repeat (SSend false data) (Z.to_nat (dp_udp_fake_count dp)) ++ [SSetHops6 def; SSetTtl4 def])).
  { sstep. apply swp_setttl_log. intros r1 s1 E1 B1. destruct (r1 <? 0); [by sstep|].
    do 2 sstep. apply wp_rds; [done..|]. rewrite Ed. sstep.
    eapply swp_mono; [apply swp_send_fakes|]. intros ok s2 (B2 & k & _ & E2 & Hk).
    destruct ok; cbn [negb]; [|by sstep]. rewrite (Hk eq_refl) in E2. sstep.
    apply swp_setttl_log. intros r3 s3 E3 B3. sstep. intros _.
    split; [congruence|]. by rewrite E3, E2, E1, <- !app_assoc. }
  intros ok s4 H4. destruct ok; [|sstep; lia]. destruct (H4 eq_refl) as [B4 E4].
  apply swp_send_all; [by rewrite B4|]. intros r s5 E5 _. by rewrite E5, E4, B4, <- !app_assoc.
Qed.

Lemma desync_udp_order_witness :
  swp (desync_udp prm0 os_ok 26 (with_udp 2 dp_init)) (start sample_buf) (λ r s', 0 <= r →
    d_log s' = [] ++ [SSetHops6 8; SSetTtl4 8] ++
      repeat (SSend false (udp_decoy (with_udp 2 dp_init))) 2 ++
      [SSetHops6 128; SSetTtl4 128] ++ [SSend false (sub sample_buf 0 26)]).
Proof. apply (desync_udp_order prm0 os_ok 26 (with_udp 2 dp_init) (start sample_buf)); done. Defined.

(** * Where the code goes wrong *)

Definition ten : bytes := [0; 1; 2; 3; 4; 5; 6; 7; 8; 9].
Definition two_parts : desync_params :=
  with_parts [Part DESYNC_SPLIT 0 3 0 0; Part DESYNC_SPLIT 0 6 0 0] [] dp_init.
Definition no_junk (n : Z) : bytes := repeat 0 (Z.to_nat n).

(** The second send would block; everything else succeeds. *)
Definition is_send (c : sys) : bool := match c with SSend _ _ => true | _ => false end.
Definition os_block (l : list sys) : Z :=
  match list.last l with
  | Some (SSend _ d) => if (length (List.filter is_send l) =? 2)%nat then -1 else blen d
  | Some SGetE => WSAEWOULDBLOCK
  | _ => 0
  end.

(** The first call reports the three bytes of the first part, and the second, made by
    the caller with what the first one left, the seven others: but the part whose
    send would have blocked is counted as sent, and its bytes are lost. *)
Definition resumed : comp (Z * Z * bytes) :=
  '(ret1, _, n, s1) ← desync prm0 os_block (λ _, 0) no_junk 0 10 0 10 0 two_parts (start ten);
  '(ret2, _, _, s2) ← desync prm0 os_block (λ _, 0) no_junk 0 10 ret1 n ret1 two_parts s1;
  Ok (ret1, ret2, wire os_block [] (d_log s2)).

Lemma desync_resume_loses : resumed = Ok (3, 7, [0; 1; 2; 6; 7; 8; 9]).
Proof. by vm_compute. Qed.

(** A send of the rest that takes four of ten bytes is reported as ten. *)
Definition os_partial (l : list sys) : Z :=
  match list.last l with Some (SSend _ d) => Z.min 4 (blen d) | _ => 0 end.

Lemma desync_rest_loses :
  (r ← desync prm0 os_partial (λ _, 0) no_junk 0 10 0 10 0 dp_init (start ten);
   Ok (r.1.1.1, wire os_partial [] (d_log r.2))) = Ok (10, [0; 1; 2; 3]).
Proof. by vm_compute. Qed.

(** A random position behind a part that reaches the end divides by zero. *)
Lemma gen_offset_divides_by_zero :
  desync prm0 os_ok (λ _, 5) no_junk 0 10 0 10 0
    (with_parts [Part DESYNC_SPLIT 0 12 0 0; Part DESYNC_SPLIT OFFSET_RAND 0 0 0] [] dp_init)
    (start ten) = Fail DivByZero.
Proof. by vm_compute. Qed.

(** For a request longer than the packet, the decoy's tail is whatever [malloc] left
    in the block. *)
Lemma get_tcp_fake_leaks :
  (r ← get_tcp_fake os_ok (λ _, 0) (λ n, repeat 170 (Z.to_nat n)) 0 600 dp_init
         (start (repeat 1 600));
   Ok (match r.1 with Some p => sub (pk_data p) 517 83 | None => [] end)) =
  Ok (repeat 170 83).
Proof. by vm_compute. Qed.
