(* ===== verification/DList.v ===== *)
(** Doubly linked lists threaded through an array, as the timers of a pool and the groups
    of options are: an element keeps the indices of its two neighbours.

    [DNode] is what a kind of element promises: two fields and their setters.  [dseg] is
    the segment of such a list that holds given indices in a given order; the lemmas say
    how assignments to the links change it. *)
From Stdlib Require Import ZArith Lia.
From stdpp Require Import base numbers list option sorting.
From S2P Require Import Prelude.

#[local] Open Scope list_scope.

Class DNode {A} (prev next : A → option nat) (set_prev set_next : option nat → A → A) : Prop := {
  dn_prev_prev x a : prev (set_prev x a) = x;
  dn_next_prev x a : next (set_prev x a) = next a;
  dn_prev_next x a : prev (set_next x a) = prev a;
  dn_next_next x a : next (set_next x a) = x
}.

Definition hd_or (n : option nat) (L : list nat) : option nat :=
  match L with [] => n | v :: _ => Some v end.
Definition last_or (p : option nat) (L : list nat) : option nat :=
  match list.last L with Some v => Some v | None => p end.

(** Changing the item behind an optional pointer. *)
Definition upd_opt {A} (o : option nat) (f : A → A) (its : list A) : list A :=
  match o with Some q => alter f q its | None => its end.

Lemma last_or_cons p v L : last_or p (v :: L) = last_or (Some v) L.
Proof.
  unfold last_or. destruct L as [|w L]; [done|]. rewrite last_cons_cons.
  by destruct (list.last (w :: L)) eqn:E; [|apply last_None in E].
Qed.

Lemma hd_or_app n L1 L2 : hd_or n (L1 ++ L2) = hd_or (hd_or n L2) L1.
Proof. by destruct L1. Qed.

Lemma upd_opt_is_Some {A} o f (its : list A) w : is_Some (upd_opt o f its !! w) ↔ is_Some (its !! w).
Proof.
  destruct o as [q|]; [|done]. cbn. destruct (decide (q = w)) as [->|].
  - rewrite list_lookup_alter_eq. apply fmap_is_Some.
  - by rewrite list_lookup_alter_ne.
Qed.
Lemma upd_opt_ne {A} o f (its : list A) w : o ≠ Some w → upd_opt o f its !! w = its !! w.
Proof. destruct o as [q|]; [|done]. intros H. cbn. apply list_lookup_alter_ne. congruence. Qed.

Lemma last_or_elem L q : last_or None L = Some q → q ∈ L.
Proof.
  unfold last_or. destruct (list.last L) eqn:E; [|done]. intros [= ->]. by apply last_Some_elem_of.
Qed.
Lemma hd_or_elem L q : hd_or None L = Some q → q ∈ L.
Proof. destruct L; [done|]. intros [= ->]. by left. Qed.

Lemma last_or_app p L1 v L2 : last_or p (L1 ++ v :: L2) = last_or (Some v) L2.
Proof.
  unfold last_or. rewrite last_app, last_cons. by destruct (list.last L2).
Qed.
Lemma last_or_snoc p L v : last_or p (L ++ [v]) = Some v.
Proof. unfold last_or. by rewrite last_snoc. Qed.

Lemma last_or_some p L : L ≠ [] → last_or p L = last_or None L.
Proof. unfold last_or. destruct (list.last L) eqn:E; [done|]. by apply last_None in E. Qed.

Section segments.
Context {A : Type} (prev next : A → option nat).

(** The doubly linked segment [L], between the neighbours [p] and [n]. *)
Fixpoint dseg (its : list A) (p : option nat) (L : list nat) (n : option nat) : Prop :=
  match L with
  | [] => True
  | v :: L => (∃ ev, its !! v = Some ev ∧ prev ev = p ∧ next ev = hd_or n L) ∧
      dseg its (Some v) L n
  end.

Abbreviation seg := dseg.

Lemma seg_app its p L1 L2 n :
  seg its p (L1 ++ L2) n ↔ seg its p L1 (hd_or n L2) ∧ seg its (last_or p L1) L2 n.
Proof.
  revert p. induction L1 as [|v L1 IH]; intros p; cbn [app dseg]; [tauto|].
  rewrite IH, hd_or_app, last_or_cons. tauto.
Qed.

Lemma seg_ext its its' p L n :
  (∀ v, v ∈ L → its' !! v = its !! v) → seg its p L n → seg its' p L n.
Proof.
  revert p. induction L as [|v L IH]; intros p H; cbn [dseg]; [done|]. intros [H1 H2]. split.
  - rewrite H by (by left). done.
  - apply IH; [|done]. intros w Hw. apply H. by right.
Qed.

Lemma seg_alter_notin its p L n f v : v ∉ L → seg its p L n → seg (alter f v its) p L n.
Proof.
  intros Hv. apply seg_ext. intros w Hw. apply list_lookup_alter_ne. by intros ->.
Qed.

Lemma seg_lookup its p L n v : seg its p L n → v ∈ L → is_Some (its !! v).
Proof.
  revert p. induction L as [|w L IH]; intros p Hs Hv; [by apply elem_of_nil in Hv|].
  destruct Hs as [(ev & Ev & _) Hs]. apply elem_of_cons in Hv as [->|Hv]; [by exists ev|].
  by apply (IH (Some w)).
Qed.

Lemma seg_upd_notin its o p L n f :
  (∀ q, o = Some q → q ∉ L) → seg its p L n → seg (upd_opt o f its) p L n.
Proof. destruct o; [|done]. intros H. apply seg_alter_notin. by apply H. Qed.
Lemma seg_alter_same its p L n f v :
  (∀ a, prev (f a) = prev a ∧ next (f a) = next a) → seg its p L n → seg (alter f v its) p L n.
Proof.
  intros Hf. revert p. induction L as [|w L IH]; intros p; cbn [dseg]; [done|].
  intros [(ev & Ev & <- & E2) Hs]. split; [|by apply IH]. destruct (Hf ev) as [F1 F2].
  destruct (decide (w = v)) as [->|].
  - exists (f ev). by rewrite list_lookup_alter_eq, Ev, F1, F2.
  - exists ev. by rewrite list_lookup_alter_ne.
Qed.

Context {set_prev set_next : option nat → A → A} `{!DNode prev next set_prev set_next}.

(** Retargeting the last [next] and the first [prev] of a segment. *)
Lemma seg_end its p L n n' :
  NoDup L → (L = [] → p = None) → seg its p L n →
  seg (upd_opt (last_or p L) (set_next n') its) p L n'.
Proof.
  intros Hnd. revert p Hnd. induction L as [|v L IH]; intros p Hnd Hp; [done|].
  rewrite last_or_cons. cbn [dseg]. intros [(ev & Hv & E1 & E2) Hs].
  apply NoDup_cons in Hnd as [Hn Hnd]. destruct L as [|w L].
  - cbn. split; [|done]. exists (set_next n' ev).
    by rewrite list_lookup_alter_eq, Hv, dn_prev_next, dn_next_next.
  - specialize (IH (Some v) Hnd ltac:(done) Hs). split; [|exact IH].
    exists ev. split; [|done]. destruct (last_or (Some v) (w :: L)) as [q|] eqn:Eq; [|done].
    cbn [upd_opt]. rewrite list_lookup_alter_ne; [done|]. intros ->. apply Hn.
    unfold last_or in Eq. destruct (list.last (w :: L)) eqn:El; [|by apply last_None in El].
    injection Eq as ->. by apply last_Some_elem_of.
Qed.

Lemma seg_start its p L n p' :
  NoDup L → seg its p L n → (L = [] → n = None) →
  seg (upd_opt (hd_or n L) (set_prev p') its) p' L n.
Proof.
  intros Hnd Hs Hn. destruct L as [|v L]; [done|]. cbn [hd_or upd_opt dseg] in *.
  apply NoDup_cons in Hnd as [Hv Hnd]. destruct Hs as [(ev & Ev & E1 & E2) Hs]. split.
  - exists (set_prev p' ev).
    by rewrite list_lookup_alter_eq, Ev, dn_prev_prev, dn_next_prev.
  - by apply seg_alter_notin.
Qed.

End segments.
Arguments seg_app {A prev next}.
Arguments seg_ext {A prev next}.
Arguments seg_alter_notin {A prev next}.
Arguments seg_upd_notin {A prev next}.
Arguments seg_lookup {A prev next}.
Arguments seg_end {A prev next set_prev set_next _}.
Arguments seg_start {A prev next set_prev set_next _}.
Arguments seg_alter_same {A prev next}.
