(* ===== verification/Conev.v ===== *)
(** byedpi conev.c: the pool of events (the poll build).

    A pool keeps its connections in the array [items]; [links] is a permutation of their
    pointers, whose first [count] are the live ones, and [pevents] runs parallel to
    [links].  A pointer to a connection is its index in [items].  Timers are a doubly
    linked list through the items, free buffers a list of at most [MAX_BUFF_INP].  The
    system's answers come from an oracle over the log of calls. *)
From Stdlib Require Import ZArith Lia Ascii String.
From stdpp Require Import base numbers list option sorting.
From S2P Require Import Prelude CMem Params Desync DList.

#[local] Open Scope Z_scope.
#[local] Open Scope list_scope.

(** * Data *)

(** The callbacks of the engine ([evcb_t]); [ON_NULL] is the null pointer. *)
Inductive evcb :=
  | ON_NULL | on_accept | on_request | on_connect | on_ignore | on_tunnel | on_udp_tunnel
  | on_socks_conn | on_socks_recv | recv_and_connect.

(** winsock2.h *)
Definition POLLIN : Z := 768.
Definition POLLOUT : Z := 16.
Definition POLLERR : Z := 1.
Definition POLLHUP : Z := 2.
Definition POLLRDHUP : Z := 0.
Definition POLLTIMEOUT : Z := 0.
Definition _POLLDEF : Z := 0.
Definition MAX_BUFF_INP : Z := 8.

Definition FLAG_S4 : Z := 1.
Definition FLAG_S5 : Z := 2.
Definition FLAG_CONN : Z := 4.
Definition FLAG_HTTP : Z := 8.

(** What the engine asks of the system. *)
Inductive call :=
  | KSys (fd : Z) (c : sys)              (* desync.c's calls *)
  | KPoll (fds : list (Z * Z)) (ms : Z)
  | KTimeMs | KTime
  | KClose (fd : Z)
  | KGetE
  | KSocket (family type : Z)
  | KNonBlock (fd : Z)
  | KSetOpt (fd : Z) (opt : string) (v : Z)
  | KGetError (fd : Z)
  | KGetTtl (fd : Z)
  | KBind (fd : Z) (addr : bytes)
  | KListen (fd n : Z)
  | KConnect (fd : Z) (addr : bytes)
  | KAccept (fd : Z)
  | KGetSockName (fd : Z)
  | KRecv (fd n : Z)
  | KRecvFrom (fd n : Z)
  | KSend (fd : Z) (data : bytes)
  | KResolve (host : bytes) (type : Z) (numeric any_family : bool).

(** An answer: the value returned, what was written to memory, the [revents]. *)
Record answer := Answer { a_ret : Z; a_data : bytes; a_addr : bytes; a_rev : list Z }.

(** [struct buffer]; the link is the list it is in. *)
Record buffer := Buffer {
  b_size : Z;
  b_offset : Z;
  b_lock : Z;
  b_data : bytes
}.
Definition set_b_size (v : Z) (x : buffer) : buffer :=
  Buffer v (b_offset x) (b_lock x) (b_data x).
Definition set_b_offset (v : Z) (x : buffer) : buffer :=
  Buffer (b_size x) v (b_lock x) (b_data x).
Definition set_b_lock (v : Z) (x : buffer) : buffer :=
  Buffer (b_size x) (b_offset x) v (b_data x).
Definition set_b_data (v : bytes) (x : buffer) : buffer :=
  Buffer (b_size x) (b_offset x) (b_lock x) v.

(** The fields of [struct eval] that the proxy keeps and the pool only clears. *)
Record conn := Conn {
  c_after_conn_cb : evcb;
  c_conn_state : Z;
  c_flag : Z;
  c_addr : bytes;
  c_host_len : Z;
  c_recv_count : Z;
  c_round_sent : Z;
  c_round_count : Z;
  c_dp : option nat;
  c_dp_mask : Z;
  c_detect : Z;
  c_mark : bool;
  c_to_count : Z;
  c_tls_rec_size : Z;
  c_tls_rec_pos : Z;
  c_tls_rec : bytes;
  c_restore_ttl : bool;
  c_part_sent : Z
}.
Definition set_c_after_conn_cb (v : evcb) (x : conn) : conn :=
  Conn v (c_conn_state x) (c_flag x) (c_addr x) (c_host_len x) (c_recv_count x) (c_round_sent
    x) (c_round_count x) (c_dp x) (c_dp_mask x) (c_detect x) (c_mark x) (c_to_count x)
    (c_tls_rec_size x) (c_tls_rec_pos x) (c_tls_rec x) (c_restore_ttl x) (c_part_sent x).
Definition set_c_conn_state (v : Z) (x : conn) : conn :=
  Conn (c_after_conn_cb x) v (c_flag x) (c_addr x) (c_host_len x) (c_recv_count x)
    (c_round_sent x) (c_round_count x) (c_dp x) (c_dp_mask x) (c_detect x) (c_mark x) (c_to_count
    x) (c_tls_rec_size x) (c_tls_rec_pos x) (c_tls_rec x) (c_restore_ttl x) (c_part_sent x).
Definition set_c_flag (v : Z) (x : conn) : conn :=
  Conn (c_after_conn_cb x) (c_conn_state x) v (c_addr x) (c_host_len x) (c_recv_count x)
    (c_round_sent x) (c_round_count x) (c_dp x) (c_dp_mask x) (c_detect x) (c_mark x) (c_to_count
    x) (c_tls_rec_size x) (c_tls_rec_pos x) (c_tls_rec x) (c_restore_ttl x) (c_part_sent x).
Definition set_c_addr (v : bytes) (x : conn) : conn :=
  Conn (c_after_conn_cb x) (c_conn_state x) (c_flag x) v (c_host_len x) (c_recv_count x)
    (c_round_sent x) (c_round_count x) (c_dp x) (c_dp_mask x) (c_detect x) (c_mark x) (c_to_count
    x) (c_tls_rec_size x) (c_tls_rec_pos x) (c_tls_rec x) (c_restore_ttl x) (c_part_sent x).
Definition set_c_host_len (v : Z) (x : conn) : conn :=
  Conn (c_after_conn_cb x) (c_conn_state x) (c_flag x) (c_addr x) v (c_recv_count x)
    (c_round_sent x) (c_round_count x) (c_dp x) (c_dp_mask x) (c_detect x) (c_mark x) (c_to_count
    x) (c_tls_rec_size x) (c_tls_rec_pos x) (c_tls_rec x) (c_restore_ttl x) (c_part_sent x).
Definition set_c_recv_count (v : Z) (x : conn) : conn :=
  Conn (c_after_conn_cb x) (c_conn_state x) (c_flag x) (c_addr x) (c_host_len x) v
    (c_round_sent x) (c_round_count x) (c_dp x) (c_dp_mask x) (c_detect x) (c_mark x) (c_to_count
    x) (c_tls_rec_size x) (c_tls_rec_pos x) (c_tls_rec x) (c_restore_ttl x) (c_part_sent x).
Definition set_c_round_sent (v : Z) (x : conn) : conn :=
  Conn (c_after_conn_cb x) (c_conn_state x) (c_flag x) (c_addr x) (c_host_len x) (c_recv_count
    x) v (c_round_count x) (c_dp x) (c_dp_mask x) (c_detect x) (c_mark x) (c_to_count x)
    (c_tls_rec_size x) (c_tls_rec_pos x) (c_tls_rec x) (c_restore_ttl x) (c_part_sent x).
Definition set_c_round_count (v : Z) (x : conn) : conn :=
  Conn (c_after_conn_cb x) (c_conn_state x) (c_flag x) (c_addr x) (c_host_len x) (c_recv_count
    x) (c_round_sent x) v (c_dp x) (c_dp_mask x) (c_detect x) (c_mark x) (c_to_count x)
    (c_tls_rec_size x) (c_tls_rec_pos x) (c_tls_rec x) (c_restore_ttl x) (c_part_sent x).
Definition set_c_dp (v : option nat) (x : conn) : conn :=
  Conn (c_after_conn_cb x) (c_conn_state x) (c_flag x) (c_addr x) (c_host_len x) (c_recv_count
    x) (c_round_sent x) (c_round_count x) v (c_dp_mask x) (c_detect x) (c_mark x) (c_to_count x)
    (c_tls_rec_size x) (c_tls_rec_pos x) (c_tls_rec x) (c_restore_ttl x) (c_part_sent x).
Definition set_c_dp_mask (v : Z) (x : conn) : conn :=
  Conn (c_after_conn_cb x) (c_conn_state x) (c_flag x) (c_addr x) (c_host_len x) (c_recv_count
    x) (c_round_sent x) (c_round_count x) (c_dp x) v (c_detect x) (c_mark x) (c_to_count x)
    (c_tls_rec_size x) (c_tls_rec_pos x) (c_tls_rec x) (c_restore_ttl x) (c_part_sent x).
Definition set_c_detect (v : Z) (x : conn) : conn :=
  Conn (c_after_conn_cb x) (c_conn_state x) (c_flag x) (c_addr x) (c_host_len x) (c_recv_count
    x) (c_round_sent x) (c_round_count x) (c_dp x) (c_dp_mask x) v (c_mark x) (c_to_count x)
    (c_tls_rec_size x) (c_tls_rec_pos x) (c_tls_rec x) (c_restore_ttl x) (c_part_sent x).
Definition set_c_mark (v : bool) (x : conn) : conn :=
  Conn (c_after_conn_cb x) (c_conn_state x) (c_flag x) (c_addr x) (c_host_len x) (c_recv_count
    x) (c_round_sent x) (c_round_count x) (c_dp x) (c_dp_mask x) (c_detect x) v (c_to_count x)
    (c_tls_rec_size x) (c_tls_rec_pos x) (c_tls_rec x) (c_restore_ttl x) (c_part_sent x).
Definition set_c_to_count (v : Z) (x : conn) : conn :=
  Conn (c_after_conn_cb x) (c_conn_state x) (c_flag x) (c_addr x) (c_host_len x) (c_recv_count
    x) (c_round_sent x) (c_round_count x) (c_dp x) (c_dp_mask x) (c_detect x) (c_mark x) v
    (c_tls_rec_size x) (c_tls_rec_pos x) (c_tls_rec x) (c_restore_ttl x) (c_part_sent x).
Definition set_c_tls_rec_size (v : Z) (x : conn) : conn :=
  Conn (c_after_conn_cb x) (c_conn_state x) (c_flag x) (c_addr x) (c_host_len x) (c_recv_count
    x) (c_round_sent x) (c_round_count x) (c_dp x) (c_dp_mask x) (c_detect x) (c_mark x)
    (c_to_count x) v (c_tls_rec_pos x) (c_tls_rec x) (c_restore_ttl x) (c_part_sent x).
Definition set_c_tls_rec_pos (v : Z) (x : conn) : conn :=
  Conn (c_after_conn_cb x) (c_conn_state x) (c_flag x) (c_addr x) (c_host_len x) (c_recv_count
    x) (c_round_sent x) (c_round_count x) (c_dp x) (c_dp_mask x) (c_detect x) (c_mark x)
    (c_to_count x) (c_tls_rec_size x) v (c_tls_rec x) (c_restore_ttl x) (c_part_sent x).
Definition set_c_tls_rec (v : bytes) (x : conn) : conn :=
  Conn (c_after_conn_cb x) (c_conn_state x) (c_flag x) (c_addr x) (c_host_len x) (c_recv_count
    x) (c_round_sent x) (c_round_count x) (c_dp x) (c_dp_mask x) (c_detect x) (c_mark x)
    (c_to_count x) (c_tls_rec_size x) (c_tls_rec_pos x) v (c_restore_ttl x) (c_part_sent x).
Definition set_c_restore_ttl (v : bool) (x : conn) : conn :=
  Conn (c_after_conn_cb x) (c_conn_state x) (c_flag x) (c_addr x) (c_host_len x) (c_recv_count
    x) (c_round_sent x) (c_round_count x) (c_dp x) (c_dp_mask x) (c_detect x) (c_mark x)
    (c_to_count x) (c_tls_rec_size x) (c_tls_rec_pos x) (c_tls_rec x) v (c_part_sent x).
Definition set_c_part_sent (v : Z) (x : conn) : conn :=
  Conn (c_after_conn_cb x) (c_conn_state x) (c_flag x) (c_addr x) (c_host_len x) (c_recv_count
    x) (c_round_sent x) (c_round_count x) (c_dp x) (c_dp_mask x) (c_detect x) (c_mark x)
    (c_to_count x) (c_tls_rec_size x) (c_tls_rec_pos x) (c_tls_rec x) (c_restore_ttl x) v.

(** [struct eval] *)
Record eval := MkEval {
  ev_fd : Z;
  ev_index : Z;
  ev_mod_iter : Z;
  ev_cb : evcb;
  ev_tv_ms : Z;
  ev_tv_next : option nat;
  ev_tv_prev : option nat;
  ev_pair : option nat;
  ev_buff : option buffer;
  ev_sq_buff : option buffer;
  ev_host : option bytes;
  ev_conn : conn
}.
Definition set_ev_fd (v : Z) (x : eval) : eval :=
  MkEval v (ev_index x) (ev_mod_iter x) (ev_cb x) (ev_tv_ms x) (ev_tv_next x) (ev_tv_prev x)
    (ev_pair x) (ev_buff x) (ev_sq_buff x) (ev_host x) (ev_conn x).
Definition set_ev_index (v : Z) (x : eval) : eval :=
  MkEval (ev_fd x) v (ev_mod_iter x) (ev_cb x) (ev_tv_ms x) (ev_tv_next x) (ev_tv_prev x)
    (ev_pair x) (ev_buff x) (ev_sq_buff x) (ev_host x) (ev_conn x).
Definition set_ev_mod_iter (v : Z) (x : eval) : eval :=
  MkEval (ev_fd x) (ev_index x) v (ev_cb x) (ev_tv_ms x) (ev_tv_next x) (ev_tv_prev x) (ev_pair
    x) (ev_buff x) (ev_sq_buff x) (ev_host x) (ev_conn x).
Definition set_ev_cb (v : evcb) (x : eval) : eval :=
  MkEval (ev_fd x) (ev_index x) (ev_mod_iter x) v (ev_tv_ms x) (ev_tv_next x) (ev_tv_prev x)
    (ev_pair x) (ev_buff x) (ev_sq_buff x) (ev_host x) (ev_conn x).
Definition set_ev_tv_ms (v : Z) (x : eval) : eval :=
  MkEval (ev_fd x) (ev_index x) (ev_mod_iter x) (ev_cb x) v (ev_tv_next x) (ev_tv_prev x)
    (ev_pair x) (ev_buff x) (ev_sq_buff x) (ev_host x) (ev_conn x).
Definition set_ev_tv_next (v : option nat) (x : eval) : eval :=
  MkEval (ev_fd x) (ev_index x) (ev_mod_iter x) (ev_cb x) (ev_tv_ms x) v (ev_tv_prev x)
    (ev_pair x) (ev_buff x) (ev_sq_buff x) (ev_host x) (ev_conn x).
Definition set_ev_tv_prev (v : option nat) (x : eval) : eval :=
  MkEval (ev_fd x) (ev_index x) (ev_mod_iter x) (ev_cb x) (ev_tv_ms x) (ev_tv_next x) v
    (ev_pair x) (ev_buff x) (ev_sq_buff x) (ev_host x) (ev_conn x).
Definition set_ev_pair (v : option nat) (x : eval) : eval :=
  MkEval (ev_fd x) (ev_index x) (ev_mod_iter x) (ev_cb x) (ev_tv_ms x) (ev_tv_next x)
    (ev_tv_prev x) v (ev_buff x) (ev_sq_buff x) (ev_host x) (ev_conn x).
Definition set_ev_buff (v : option buffer) (x : eval) : eval :=
  MkEval (ev_fd x) (ev_index x) (ev_mod_iter x) (ev_cb x) (ev_tv_ms x) (ev_tv_next x)
    (ev_tv_prev x) (ev_pair x) v (ev_sq_buff x) (ev_host x) (ev_conn x).
Definition set_ev_sq_buff (v : option buffer) (x : eval) : eval :=
  MkEval (ev_fd x) (ev_index x) (ev_mod_iter x) (ev_cb x) (ev_tv_ms x) (ev_tv_next x)
    (ev_tv_prev x) (ev_pair x) (ev_buff x) v (ev_host x) (ev_conn x).
Definition set_ev_host (v : option bytes) (x : eval) : eval :=
  MkEval (ev_fd x) (ev_index x) (ev_mod_iter x) (ev_cb x) (ev_tv_ms x) (ev_tv_next x)
    (ev_tv_prev x) (ev_pair x) (ev_buff x) (ev_sq_buff x) v (ev_conn x).
Definition set_ev_conn (v : conn) (x : eval) : eval :=
  MkEval (ev_fd x) (ev_index x) (ev_mod_iter x) (ev_cb x) (ev_tv_ms x) (ev_tv_next x)
    (ev_tv_prev x) (ev_pair x) (ev_buff x) (ev_sq_buff x) (ev_host x) v.

Definition zero_conn : conn :=
  Conn ON_NULL 0 0 (repeat 0 28) 0 0 0 0 None 0 0 false 0 0 0 (repeat 0 5) false 0.
(** What [memset] leaves. *)
Definition zero_eval : eval :=
  MkEval 0 0 0 ON_NULL 0 None None None None None None zero_conn.

(** [struct pollfd] *)
Record pollfd := Pollfd { pf_fd : Z; pf_events : Z; pf_revents : Z }.
Definition set_revents (v : Z) (p : pollfd) : pollfd := Pollfd (pf_fd p) (pf_events p) v.

(** [struct poolhd], with the log of the calls made so far. *)
Record poolhd := Poolhd {
  p_max : Z;
  p_count : Z;
  p_links : list nat;
  p_items : list eval;
  p_pevents : list pollfd;
  p_iters : Z;
  p_brk : bool;
  p_tv_start : option nat;
  p_tv_end : option nat;
  p_root_buff : list buffer;
  p_buff_count : Z;
  p_log : list call
}.
Definition set_p_max (v : Z) (x : poolhd) : poolhd :=
  Poolhd v (p_count x) (p_links x) (p_items x) (p_pevents x) (p_iters x) (p_brk x) (p_tv_start
    x) (p_tv_end x) (p_root_buff x) (p_buff_count x) (p_log x).
Definition set_p_count (v : Z) (x : poolhd) : poolhd :=
  Poolhd (p_max x) v (p_links x) (p_items x) (p_pevents x) (p_iters x) (p_brk x) (p_tv_start x)
    (p_tv_end x) (p_root_buff x) (p_buff_count x) (p_log x).
Definition set_p_links (v : list nat) (x : poolhd) : poolhd :=
  Poolhd (p_max x) (p_count x) v (p_items x) (p_pevents x) (p_iters x) (p_brk x) (p_tv_start x)
    (p_tv_end x) (p_root_buff x) (p_buff_count x) (p_log x).
Definition set_p_items (v : list eval) (x : poolhd) : poolhd :=
  Poolhd (p_max x) (p_count x) (p_links x) v (p_pevents x) (p_iters x) (p_brk x) (p_tv_start x)
    (p_tv_end x) (p_root_buff x) (p_buff_count x) (p_log x).
Definition set_p_pevents (v : list pollfd) (x : poolhd) : poolhd :=
  Poolhd (p_max x) (p_count x) (p_links x) (p_items x) v (p_iters x) (p_brk x) (p_tv_start x)
    (p_tv_end x) (p_root_buff x) (p_buff_count x) (p_log x).
Definition set_p_iters (v : Z) (x : poolhd) : poolhd :=
  Poolhd (p_max x) (p_count x) (p_links x) (p_items x) (p_pevents x) v (p_brk x) (p_tv_start x)
    (p_tv_end x) (p_root_buff x) (p_buff_count x) (p_log x).
Definition set_p_brk (v : bool) (x : poolhd) : poolhd :=
  Poolhd (p_max x) (p_count x) (p_links x) (p_items x) (p_pevents x) (p_iters x) v (p_tv_start
    x) (p_tv_end x) (p_root_buff x) (p_buff_count x) (p_log x).
Definition set_p_tv_start (v : option nat) (x : poolhd) : poolhd :=
  Poolhd (p_max x) (p_count x) (p_links x) (p_items x) (p_pevents x) (p_iters x) (p_brk x) v
    (p_tv_end x) (p_root_buff x) (p_buff_count x) (p_log x).
Definition set_p_tv_end (v : option nat) (x : poolhd) : poolhd :=
  Poolhd (p_max x) (p_count x) (p_links x) (p_items x) (p_pevents x) (p_iters x) (p_brk x)
    (p_tv_start x) v (p_root_buff x) (p_buff_count x) (p_log x).
Definition set_p_root_buff (v : list buffer) (x : poolhd) : poolhd :=
  Poolhd (p_max x) (p_count x) (p_links x) (p_items x) (p_pevents x) (p_iters x) (p_brk x)
    (p_tv_start x) (p_tv_end x) v (p_buff_count x) (p_log x).
Definition set_p_buff_count (v : Z) (x : poolhd) : poolhd :=
  Poolhd (p_max x) (p_count x) (p_links x) (p_items x) (p_pevents x) (p_iters x) (p_brk x)
    (p_tv_start x) (p_tv_end x) (p_root_buff x) v (p_log x).
Definition set_p_log (v : list call) (x : poolhd) : poolhd :=
  Poolhd (p_max x) (p_count x) (p_links x) (p_items x) (p_pevents x) (p_iters x) (p_brk x)
    (p_tv_start x) (p_tv_end x) (p_root_buff x) (p_buff_count x) v.

(** * Operations *)

Section conev.
Context (os : list call → answer).
(** The contents of a block fresh from [malloc]. *)
Context (junk : Z → bytes).
Abbreviation M := (ST poolhd).

Definition kcall (c : call) : M answer := λ s,
  let l := p_log s ++ [c] in Ok (os l, set_p_log l s).
Definition kret (c : call) : M Z := a ← kcall c; mret (a_ret a).

(** Following a pointer to a connection. *)
Definition item (v : nat) : M eval := l ← gets p_items; lift (geti l (Z.of_nat v)).
(** Assigning through it. *)
Definition upd_item (v : nat) (f : eval → eval) : M unit :=
  item v;; modify (λ s, set_p_items (alter f v (p_items s)) s).

(** [malloc] leaves anything in the items, the array of events and all but the first
    item: the [memset] has the size of one. *)
Definition init_pool (count : Z) (items : list eval) (pevents : list pollfd) : poolhd :=
  Poolhd count 0 (seq 0 (Z.to_nat count)) (<[0%nat := zero_eval]> items) pevents 0 false
    None None [] 0 [].

Definition add_event (cb : evcb) (fd e : Z) : M (option nat) :=
  lift (cassert (0 <? fd));;
  count ← gets p_count; max ← gets p_max;
  if max <=? count then mret None else
  links ← gets p_links;
  val ← lift (geti links count);
  iters ← gets p_iters;
  upd_item val (λ _, set_ev_cb cb (set_ev_index count (set_ev_fd fd (set_ev_mod_iter iters zero_eval))));;
  pevents ← gets p_pevents;
  lift (geti pevents count);;
  modify (λ s, set_p_pevents (<[Z.to_nat count := Pollfd fd (Z.lor _POLLDEF e) 0]> (p_pevents s)) s);;
  modify (λ s, set_p_count (p_count s + 1) s);;
  mret (Some val).

Definition buff_pop (size : Z) : M buffer :=
  root ← gets p_root_buff;
  match root with
  | buff :: next => modify (λ s, set_p_buff_count (p_buff_count s - 1) (set_p_root_buff next s));;
      mret buff
  | [] => mret (Buffer size 0 0 (junk size))
  end.

Definition buff_push (buff : option buffer) : M unit :=
  match buff with
  | None => skip
  | Some b =>
      n ← gets p_buff_count;
      if MAX_BUFF_INP <=? n then skip (* free *) else
      modify (λ s, set_p_buff_count (p_buff_count s + 1)
        (set_p_root_buff (set_b_lock 0 (set_b_offset 0 b) :: p_root_buff s) s))
  end.

(** The loop of [set_timer]: past the timers that are due later, from the end. *)
Definition timer_walk (tv_ms : Z) (x : option nat * option nat) :
    M ((option nat * option nat) + (option nat * option nat)) :=
  let '(next, prev) := x in
  match prev with
  | None => mret (inr (next, prev))
  | Some q => e ← item q;
      if tv_ms <=? ev_tv_ms e then mret (inl (Some q, ev_tv_prev e)) else mret (inr (next, prev))
  end.

Definition set_timer (val : nat) (ms : Z) (fuel : nat) : M unit :=
  ev ← item val;
  if negb (ev_tv_ms ev =? 0) then skip else
  prev ← gets p_tv_end;
  t ← kret KTimeMs;
  let tv_ms := s32 (s32 t + ms) in
  upd_item val (set_ev_tv_ms tv_ms);;
  '(next, prev) ← sloop (timer_walk tv_ms) fuel (None, prev);
  upd_item val (λ e, set_ev_tv_prev prev (set_ev_tv_next next e));;
  match next with Some q => upd_item q (set_ev_tv_prev (Some val)) | None => skip end;;
  match prev with Some q => upd_item q (set_ev_tv_next (Some val)) | None => skip end;;
  start ← gets p_tv_start;
  (if bool_decide (start = None ∨ next = start)
   then modify (set_p_tv_start (Some val)) else skip);;
  tend ← gets p_tv_end;
  if bool_decide (tend = None ∨ prev = tend)
  then modify (set_p_tv_end (Some val)) else skip.

Definition remove_timer (val : nat) : M unit :=
  ev ← item val;
  match ev_tv_prev ev with Some q => upd_item q (set_ev_tv_next (ev_tv_next ev)) | None => skip end;;
  ev ← item val;
  match ev_tv_next ev with Some q => upd_item q (set_ev_tv_prev (ev_tv_prev ev)) | None => skip end;;
  ev ← item val;
  start ← gets p_tv_start;
  (if bool_decide (start = Some val) then modify (set_p_tv_start (ev_tv_next ev)) else skip);;
  tend ← gets p_tv_end;
  (if bool_decide (tend = Some val) then modify (set_p_tv_end (ev_tv_prev ev)) else skip);;
  upd_item val (λ e, set_ev_tv_prev None (set_ev_tv_next None (set_ev_tv_ms 0 e))).

(** [del_event] up to the timer: the buffers, the host, the descriptor. *)
Definition close_fd (val : nat) (ev : eval) : M unit :=
  pevents ← gets p_pevents;
  pe ← lift (geti pevents (ev_index ev));
  lift (cassert (ev_fd ev =? pf_fd pe));;
  buff_push (ev_buff ev);; upd_item val (set_ev_buff None);;
  buff_push (ev_sq_buff ev);; upd_item val (set_ev_sq_buff None);;
  upd_item val (set_ev_host None);;
  kret (KClose (ev_fd ev));;
  iters ← gets p_iters;
  upd_item val (λ e, set_ev_mod_iter iters (set_ev_fd (-1) e)).

(** [del_event] after the timer: the last live connection takes the slot. *)
Definition close_link (val : nat) (ev : eval) : M unit :=
  modify (λ s, set_p_count (p_count s - 1) s);;
  count ← gets p_count; links ← gets p_links;
  last ← lift (geti links count);
  if decide (last = val) then skip else
  let index := ev_index ev in
  lift (geti links index);;
  modify (λ s, set_p_links (<[Z.to_nat count := val]> (<[Z.to_nat index := last]> (p_links s))) s);;
  pevents ← gets p_pevents;
  pe ← lift (geti pevents count);
  modify (λ s, set_p_pevents (<[Z.to_nat index := pe]> (p_pevents s)) s);;
  upd_item last (set_ev_index index).

(** The part of [del_event] that takes [val] out of the pool. *)
Definition close_event (val : nat) (ev : eval) : M unit :=
  close_fd val ev;; remove_timer val;; close_link val ev.

(** [fuel] bounds the chain of pairs: one per live connection is enough. *)
Fixpoint del_event (fuel : nat) (val : nat) : M unit :=
  match fuel with
  | O => sfail OutOfFuel
  | S fuel =>
      ev ← item val; iters ← gets p_iters;
      lift (cassert ((-1 <=? ev_fd ev) && (ev_mod_iter ev <=? iters)));;
      if ev_fd ev =? -1 then skip else
      close_event val ev;;
      (match ev_pair ev with
       | None => skip
       | Some e =>
           pe ← item e;
           (if decide (ev_pair pe = Some val) then upd_item e (set_ev_pair None) else skip);;
           upd_item val (set_ev_pair None);;
           del_event fuel e
       end);;
      count ← gets p_count; lift (cassert (0 <=? count))
  end.

(** [while (pool->count) del_event(pool, pool->links[0])], then the frees. *)
Definition destroy_pool (fuel : nat) : M unit :=
  sloop (λ _ : unit,
    count ← gets p_count;
    if count =? 0 then mret (inr tt) else
    links ← gets p_links; val ← lift (geti links 0);
    del_event fuel val;; mret (inl tt)) fuel tt.

(** The call of [poll] in [next_event]: what it returned and [*typel]. *)
Definition poll_events (ms typel : Z) : M (Z * Z) :=
  pevents ← gets p_pevents; count ← gets p_count;
  a ← kcall (KPoll (map (λ p, (pf_fd p, pf_events p)) (take (Z.to_nat count) pevents)) ms);
  modify (λ s, set_p_pevents
    (imap (λ k p, if Z.of_nat k <? count then set_revents (nth k (a_rev a) 0) p else p)
       pevents) s);;
  mret (a_ret a, if a_ret a =? 0 then POLLTIMEOUT else typel).

(** One slot of the scan: [inr] is the return, with the connection, [*offs] and
    [*typel]. *)
Definition scan_slot (i typel : Z) : M ((Z * Z) + (option nat * Z * Z)) :=
  pevents ← gets p_pevents; pe ← lift (geti pevents i);
  let type := pf_revents pe in
  if type =? 0 then mret (inl (i - 1, typel)) else
  links ← gets p_links; val ← lift (geti links i); ev ← item val;
  count ← gets p_count; iters ← gets p_iters;
  lift (cassert ((i <? count) || (ev_mod_iter ev =? iters)));;
  if ev_mod_iter ev =? iters then mret (inl (i - 1, typel)) else
  modify (λ s, set_p_pevents (alter (set_revents 0) (Z.to_nat i) (p_pevents s)) s);;
  mret (inr (Some val, i - 1, type)).

(** The body of [for (int i = *offs; ; i--)]. *)
Definition next_event_body (ms offs : Z) (x : Z * Z) :
    M ((Z * Z) + (option nat * Z * Z)) :=
  let '(i, typel) := x in
  max ← gets p_max;
  lift (cassert ((-1 <=? i) && (i <? max)));;
  if i <? 0 then
    '(ret, typel) ← poll_events ms typel;
    if ret <=? 0 then mret (inr (None, offs, typel)) else
    count ← gets p_count;
    modify (λ s, set_p_iters (u64 (p_iters s + 1)) s);;
    scan_slot (count - 1) typel
  else scan_slot i typel.

Definition next_event (fuel : nat) (offs typel ms : Z) : M (option nat * Z * Z) :=
  sloop (next_event_body ms offs) fuel (offs, typel).

Definition mod_etype (val : nat) (type : Z) : M Z :=
  ev ← item val; count ← gets p_count;
  lift (cassert ((0 <=? ev_index ev) && (ev_index ev <? count)));;
  pevents ← gets p_pevents; lift (geti pevents (ev_index ev));;
  modify (λ s, set_p_pevents (alter (λ p, Pollfd (pf_fd p) (Z.lor _POLLDEF type) (pf_revents p))
    (Z.to_nat (ev_index ev)) (p_pevents s)) s);;
  mret 0.

(** The first timer is due when no event came within its time. *)
Definition next_event_tv (fuel : nat) (offs typel : Z) : M (option nat * Z * Z) :=
  start ← gets p_tv_start;
  match start with
  | None => next_event fuel offs typel (-1)
  | Some v =>
      e ← item v; t ← kret KTimeMs;
      let ms := s32 (ev_tv_ms e - s32 t) in
      '(val, offs, typel) ← (if 0 <? ms then next_event fuel offs typel ms
                             else mret (None, offs, POLLTIMEOUT));
      start ← gets p_tv_start;
      match val, start with
      | None, Some v => if typel =? POLLTIMEOUT then remove_timer v;; mret (Some v, offs, typel)
                        else mret (val, offs, typel)
      | _, _ => mret (val, offs, typel)
      end
  end.
End conev.

(** * The arrays *)

Section conev_lemmas.
Context (os : list call → answer) (junk : Z → bytes).
Implicit Types (s : poolhd) (v w : nat) (its : list eval) (ev : eval).

Lemma swp_item v s ev (P : eval → poolhd → Prop) :
  p_items s !! v = Some ev → P ev s → swp (item v) s P.
Proof.
  intros E HP. unfold item. sstep. sstep. sstep. eapply wp_geti; [lia| |exact HP].
  by rewrite Nat2Z.id.
Qed.

Lemma swp_upd v f s (P : unit → poolhd → Prop) :
  is_Some (p_items s !! v) → P tt (set_p_items (alter f v (p_items s)) s) → swp (upd_item v f) s P.
Proof.
  intros [ev E] HP. unfold upd_item. sstep. eapply swp_item; [exact E|]. by sstep.
Qed.

Lemma swp_kret c s (P : Z → poolhd → Prop) :
  P (a_ret (os (p_log s ++ [c]))) (set_p_log (p_log s ++ [c]) s) → swp (kret os c) s P.
Proof. done. Qed.

Lemma swp_upd_opt (o : option nat) f s (P : unit → poolhd → Prop) :
  (∀ q, o = Some q → is_Some (p_items s !! q)) →
  P tt (set_p_items (upd_opt o f (p_items s)) s) →
  swp (match o with Some q => upd_item q f | None => skip end) s P.
Proof.
  intros H HP. destruct o as [q|]; [apply swp_upd; auto|]. sstep. by destruct s.
Qed.

(** ** The list of timers *)

#[export] Instance eval_dnode : DNode ev_tv_prev ev_tv_next set_ev_tv_prev set_ev_tv_next.
Proof. by split. Qed.
Abbreviation seg := (dseg ev_tv_prev ev_tv_next).

Definition tvms its v : Z := match its !! v with Some ev => ev_tv_ms ev | None => 0 end.
Definition no_links its v : Prop :=
  ∃ ev, its !! v = Some ev ∧ ev_tv_prev ev = None ∧ ev_tv_next ev = None.

(** The timers that run, in the order in which they are due. *)
Record timers s (T : list nat) : Prop := {
  tm_nodup : NoDup T;
  tm_start : p_tv_start s = hd_or None T;
  tm_end : p_tv_end s = last_or None T;
  tm_seg : seg (p_items s) None T None;
  tm_sorted : StronglySorted (λ v w, tvms (p_items s) v <= tvms (p_items s) w) T;
  tm_set : Forall (λ v, tvms (p_items s) v ≠ 0) T
}.

Lemma tvms_alter its v w f : (v = w → ∀ ev, ev_tv_ms (f ev) = ev_tv_ms ev) →
  tvms (alter f v its) w = tvms its w.
Proof.
  intros H. unfold tvms. destruct (decide (v = w)) as [->|].
  - rewrite list_lookup_alter_eq. destruct (its !! w); cbn; auto.
  - by rewrite list_lookup_alter_ne.
Qed.
Lemma tvms_upd_opt its o w f : (∀ ev, ev_tv_ms (f ev) = ev_tv_ms ev) →
  tvms (upd_opt o f its) w = tvms its w.
Proof. intros H. destruct o; [|done]. by apply tvms_alter. Qed.

Lemma sorted_ext its its' T :
  (∀ v, v ∈ T → tvms its' v = tvms its v) →
  StronglySorted (λ v w, tvms its v <= tvms its w) T → Forall (λ v, tvms its v ≠ 0) T →
  StronglySorted (λ v w, tvms its' v <= tvms its' w) T ∧ Forall (λ v, tvms its' v ≠ 0) T.
Proof.
  intros H. induction T as [|v T IH]; intros Hs Hf; [by repeat constructor|].
  apply StronglySorted_cons in Hs as [Hv Hs]. apply Forall_cons in Hf as [Hf1 Hf].
  destruct IH as [I1 I2]; [by intros w Hw; apply H; right|done|done|].
  split; constructor; try done.
  - rewrite Forall_forall in Hv |- *. intros w Hw. rewrite (H v), (H w) by (by constructor). auto.
  - rewrite H by (by left). done.
Qed.

(** What the timer operations leave alone. *)
Definition strip ev : eval := set_ev_tv_ms 0 (set_ev_tv_next None (set_ev_tv_prev None ev)).
Definition same_but_timers s s' : Prop :=
  set_p_items [] (set_p_tv_start None (set_p_tv_end None s')) =
  set_p_items [] (set_p_tv_start None (set_p_tv_end None s)) ∧
  map strip (p_items s') = map strip (p_items s).

Lemma map_strip_alter f v its : (∀ ev, strip (f ev) = strip ev) →
  map strip (alter f v its) = map strip its.
Proof.
  intros H. apply list_eq. intros w. rewrite !list_lookup_fmap.
  destruct (decide (v = w)) as [->|].
  - rewrite list_lookup_alter_eq. destruct (its !! w); cbn; by rewrite ?H.
  - by rewrite list_lookup_alter_ne.
Qed.
Lemma map_strip_upd_opt f o its : (∀ ev, strip (f ev) = strip ev) →
  map strip (upd_opt o f its) = map strip its.
Proof. destruct o; [apply map_strip_alter|done]. Qed.



(** [T] without [v]. *)
Definition others v (T : list nat) : list nat := List.filter (λ w, negb (bool_decide (w = v))) T.

Lemma others_notin v T : v ∉ T → others v T = T.
Proof.
  induction T as [|w T IH]; [done|]. intros [Hw HT]%not_elem_of_cons. cbn.
  rewrite bool_decide_eq_false_2 by done. cbn. f_equal. by apply IH.
Qed.
Lemma others_app v L1 L2 : others v (L1 ++ L2) = others v L1 ++ others v L2.
Proof. apply List.filter_app. Qed.
Lemma others_cons v T : others v (v :: T) = others v T.
Proof. unfold others. cbn. by rewrite bool_decide_eq_true_2. Qed.

(** Where a connection stands among the timers: between two parts of the list, or at the
    end of it, outside. *)
Definition placed T v ev L1 L2 : Prop :=
  (T = L1 ++ v :: L2 ∧ ev_tv_prev ev = last_or None L1 ∧ ev_tv_next ev = hd_or None L2) ∨
  (T = L1 ++ L2 ∧ L2 = [] ∧ ev_tv_prev ev = None ∧ ev_tv_next ev = None).

Lemma timer_placed s T v :
  timers s T → v ∈ T ∨ no_links (p_items s) v →
  ∃ ev L1 L2, p_items s !! v = Some ev ∧ others v T = L1 ++ L2 ∧ (v ∉ L1) ∧ (v ∉ L2) ∧
    placed T v ev L1 L2 ∧ NoDup L1 ∧ NoDup L2 ∧ (∀ q, q ∈ L1 → q ∉ L2).
Proof.
  intros [Hnd _ _ Hseg _ _] Hv. destruct (decide (v ∈ T)) as [Hin|Hin].
  - apply list_elem_of_split in Hin as (L1 & L2 & ->).
    apply seg_app in Hseg as [_ [(ev & Ev & E1 & E2) _]].
    apply NoDup_app in Hnd as (N1 & N2 & N3). apply NoDup_cons in N3 as [N3 N4].
    assert (v ∉ L1) by (intros Hx; apply (N2 v Hx); by left).
    exists ev, L1, L2. rewrite others_app, others_cons, !others_notin by done.
    split_and!; try done; [by left|]. intros q Hq ?. apply (N2 q Hq). by right.
  - destruct Hv as [|(ev & Ev & E1 & E2)]; [done|]. exists ev, T, [].
    rewrite app_nil_r, others_notin by done.
    split_and!; [done|done|done|apply not_elem_of_nil| |done|constructor|].
    + right. by rewrite app_nil_r.
    + intros ? _. apply not_elem_of_nil.
Qed.

(** The items after [v] is unlinked and cleared. *)
Definition clear_tv ev : eval := set_ev_tv_prev None (set_ev_tv_next None (set_ev_tv_ms 0 ev)).
Definition unlinked its v ev : list eval :=
  alter clear_tv v (upd_opt (ev_tv_next ev) (set_ev_tv_prev (ev_tv_prev ev))
    (upd_opt (ev_tv_prev ev) (set_ev_tv_next (ev_tv_next ev)) its)).

Lemma placed_prev T v ev L1 L2 q : placed T v ev L1 L2 → ev_tv_prev ev = Some q → q ∈ L1.
Proof. intros [(_ & -> & _)|(_ & _ & -> & _)]; [apply last_or_elem|done]. Qed.
Lemma placed_next T v ev L1 L2 q : placed T v ev L1 L2 → ev_tv_next ev = Some q → q ∈ L2.
Proof. intros [(_ & _ & ->)|(_ & _ & _ & ->)]; [apply hd_or_elem|done]. Qed.
Lemma placed_sub T v ev L1 L2 q : placed T v ev L1 L2 → q ∈ L1 ∨ q ∈ L2 → q ∈ T.
Proof. intros [(-> & _)|(-> & _)]; rewrite ?elem_of_app, ?elem_of_cons; tauto. Qed.

Lemma unlinked_seg its T v ev L1 L2 :
  seg its None T None → placed T v ev L1 L2 → v ∉ L1 → v ∉ L2 → NoDup L1 → NoDup L2 →
  (∀ q, q ∈ L1 → q ∉ L2) → seg (unlinked its v ev) None (L1 ++ L2) None.
Proof.
  intros Hseg Hp Hn1 Hn2 N1 N2 N3.
  apply seg_alter_notin; [by apply not_elem_of_app|]. apply seg_app.
  pose proof (λ q, placed_prev T v ev L1 L2 q Hp) as Hpv.
  pose proof (λ q, placed_next T v ev L1 L2 q Hp) as Hnx.
  destruct Hp as [(HT & Ep & En)|(HT & -> & Ep & En)].
  - rewrite HT in Hseg. apply seg_app in Hseg as [S1 [_ S2]]. cbn [hd_or] in S1.
    rewrite <- En, <- Ep. split.
    + apply seg_upd_notin.
      { intros q Hq Hq'. by apply (N3 q Hq'), (Hnx q). }
      rewrite Ep. by apply (seg_end _ None _ (Some v)).
    + rewrite En. apply (seg_start _ (Some v)); [done| |done].
      apply seg_upd_notin; [|exact S2]. intros q Hq. by apply N3, (Hpv q).
  - rewrite app_nil_r in HT. subst T. rewrite Ep, En. split; [exact Hseg|done].
Qed.

Lemma unlinked_tvms its v ev w : w ≠ v → tvms (unlinked its v ev) w = tvms its w.
Proof.
  intros Hw. unfold unlinked. rewrite tvms_alter by (by intros ->). by rewrite !tvms_upd_opt.
Qed.

Lemma unlinked_sorted its T v ev L1 L2 :
  placed T v ev L1 L2 → v ∉ L1 → v ∉ L2 →
  StronglySorted (λ v w, tvms its v <= tvms its w) T → Forall (λ v, tvms its v ≠ 0) T →
  let its' := unlinked its v ev in
  StronglySorted (λ v w, tvms its' v <= tvms its' w) (L1 ++ L2) ∧
  Forall (λ v, tvms its' v ≠ 0) (L1 ++ L2).
Proof.
  intros Hp Hn1 Hn2 Hso Hset its'. apply (sorted_ext its).
  { intros w [Hw|Hw]%elem_of_app; apply unlinked_tvms; by intros ->. }
  all: destruct Hp as [(-> & _)|(-> & _)]; [|done].
  - apply StronglySorted_app in Hso as (H1 & H2 & H3). apply StronglySorted_cons in H3 as [H3 H4].
    apply StronglySorted_app. split_and!; [|done|done]. intros a b Ha Hb.
    apply H1; [done|by right].
  - apply Forall_app in Hset as [F1 F2]. apply Forall_app. split; [done|by inversion F2].
Qed.

(** The ends of the list after the removal. *)
Lemma placed_start T v ev L1 L2 : placed T v ev L1 L2 → v ∉ L1 →
  (if bool_decide (hd_or None T = Some v) then ev_tv_next ev else hd_or None T) =
  hd_or None (L1 ++ L2).
Proof.
  intros [(-> & _ & ->)|(-> & -> & _)] Hn; rewrite !hd_or_app.
  - destruct L1 as [|a L1]; cbn [hd_or]; [by rewrite bool_decide_eq_true_2|].
    rewrite bool_decide_eq_false_2; [done|]. intros [= ->]. apply Hn. by left.
  - rewrite bool_decide_eq_false_2; [done|]. intros Hq%hd_or_elem. by apply Hn.
Qed.
Lemma placed_end T v ev L1 L2 : placed T v ev L1 L2 → v ∉ L1 → v ∉ L2 →
  (if bool_decide (last_or None T = Some v) then ev_tv_prev ev else last_or None T) =
  last_or None (L1 ++ L2).
Proof.
  intros [(-> & -> & _)|(-> & -> & _)] Hn1 Hn2.
  - rewrite last_or_app. destruct L2 as [|b L2].
    + cbn. rewrite bool_decide_eq_true_2 by done. by rewrite app_nil_r.
    + rewrite last_or_some by done. rewrite bool_decide_eq_false_2.
      * by rewrite last_or_app, last_or_cons.
      * intros Hq%last_or_elem. by apply Hn2.
  - rewrite app_nil_r. rewrite bool_decide_eq_false_2; [done|]. intros Hq%last_or_elem. by apply Hn1.
Qed.

Lemma remove_timer_ok s T v :
  timers s T → v ∈ T ∨ no_links (p_items s) v →
  swp (remove_timer v) s (λ _ s',
    timers s' (others v T) ∧ same_but_timers s s' ∧
    no_links (p_items s') v ∧ tvms (p_items s') v = 0 ∧
    ∀ w, w ∉ T → w ≠ v → p_items s' !! w = p_items s !! w).
Proof.
  intros Ht Hv. destruct (timer_placed s T v Ht Hv) as
    (ev & L1 & L2 & Ev & -> & Hn1 & Hn2 & Hp & N1 & N2 & N3).
  destruct Ht as [Hnd Hst Hen Hseg Hso Hset].
  assert (Hpv : ∀ q, ev_tv_prev ev = Some q → q ∈ L1) by (intros; by eapply placed_prev).
  assert (Hnx : ∀ q, ev_tv_next ev = Some q → q ∈ L2) by (intros; by eapply placed_next).
  assert (Hlk : ∀ q, q ∈ L1 ∨ q ∈ L2 → is_Some (p_items s !! q)).
  { intros q Hq. eapply seg_lookup; [exact Hseg|]. by eapply placed_sub. }
  set (its1 := upd_opt (ev_tv_prev ev) (set_ev_tv_next (ev_tv_next ev)) (p_items s)).
  set (its2 := upd_opt (ev_tv_next ev) (set_ev_tv_prev (ev_tv_prev ev)) its1).
  assert (Ev1 : its1 !! v = Some ev).
  { subst its1. rewrite upd_opt_ne; [done|]. intros Hq. by apply Hn1, Hpv. }
  assert (Ev2 : its2 !! v = Some ev).
  { subst its2. rewrite upd_opt_ne; [done|]. intros Hq. by apply Hn2, Hnx. }
  unfold remove_timer. sstep. eapply swp_item; [exact Ev|]. sstep. apply swp_upd_opt.
  { intros q Hq. apply Hlk. left. by apply Hpv. }
  sstep. eapply swp_item; [exact Ev1|]. sstep. apply swp_upd_opt.
  { intros q Hq. cbn. apply upd_opt_is_Some, Hlk. right. by apply Hnx. }
  sstep. eapply swp_item; [exact Ev2|]. sstep. sstep. cbn [p_tv_start p_items set_p_items].
  fold its1. fold its2.
  sstep. apply (swp_mono _ _ (λ _ s', s' = set_p_tv_start (hd_or None (L1 ++ L2)) (set_p_items its2 s))).
  { rewrite <- (placed_start _ _ _ _ _ Hp Hn1), <- Hst. case_bool_decide as E; sstep.
    - by rewrite ?bool_decide_eq_true_2.
    - rewrite ?bool_decide_eq_false_2 by done. by destruct s. }
  intros _ ? ->. sstep. sstep. cbn [p_tv_end set_p_items set_p_tv_start]. sstep.
  apply (swp_mono _ _ (λ _ s', s' = set_p_tv_end (last_or None (L1 ++ L2))
    (set_p_tv_start (hd_or None (L1 ++ L2)) (set_p_items its2 s)))).
  { rewrite <- (placed_end _ _ _ _ _ Hp Hn1 Hn2), <- Hen. case_bool_decide as E; sstep.
    - by rewrite ?bool_decide_eq_true_2.
    - rewrite ?bool_decide_eq_false_2 by done. by destruct s. }
  intros _ ? ->. apply swp_upd; [by exists ev|]. cbn [p_items set_p_items set_p_tv_end set_p_tv_start].
  fold clear_tv. destruct (unlinked_sorted _ _ _ _ _ _ Hp Hn1 Hn2 Hso Hset) as [Hs1 Hs2].
  split_and!.
  - split; cbn; try done; [apply NoDup_app; split_and!; [done| |done]; auto|].
    by apply (unlinked_seg _ T).
  - split; [by destruct s|]. cbn. subst its2 its1.
    by rewrite map_strip_alter, !map_strip_upd_opt.
  - exists (clear_tv ev). cbn. by rewrite list_lookup_alter_eq, Ev2.
  - cbn. unfold tvms. by rewrite list_lookup_alter_eq, Ev2.
  - intros w HwT Hwv. cbn. rewrite list_lookup_alter_ne by done. subst its2 its1.
    rewrite !upd_opt_ne; [done| |]; intros Hq; apply HwT; eapply placed_sub; eauto.
Qed.
(** [set_timer]'s loop finds the place that keeps the list sorted. *)
Lemma timer_walk_ok x s L1 L2 fuel :
  seg (p_items s) None (L1 ++ L2) None →
  StronglySorted (λ v w, tvms (p_items s) v <= tvms (p_items s) w) (L1 ++ L2) →
  Forall (λ w, x <= tvms (p_items s) w) L2 → (length L1 < fuel)%nat →
  swp (sloop (timer_walk x) fuel (hd_or None L2, last_or None L1)) s (λ r s',
    s' = s ∧ ∃ K1 K2, L1 ++ L2 = K1 ++ K2 ∧ r = (hd_or None K2, last_or None K1) ∧
      Forall (λ w, tvms (p_items s) w < x) K1 ∧ Forall (λ w, x <= tvms (p_items s) w) K2).
Proof.
  revert L2 fuel. induction L1 as [|q L1 IH] using rev_ind; intros L2 fuel Hseg Hso Hge Hf;
    (destruct fuel as [|fuel]; [lia|]); apply swp_sloop_step.
  - cbn. split; [done|]. by exists [], L2.
  - rewrite last_or_snoc. cbn [timer_walk]. rewrite <- app_assoc in Hseg, Hso. cbn [app] in *.
    pose proof Hseg as Hseg'. apply seg_app in Hseg' as [_ [(ev & Ev & E1 & E2) _]].
    assert (Etv : tvms (p_items s) q = ev_tv_ms ev) by (unfold tvms; by rewrite Ev).
    sstep. eapply swp_item; [exact Ev|].
    rewrite length_app in Hf. cbn in Hf.
    destruct (Z.leb_spec x (ev_tv_ms ev)) as [Hle|Hlt]; cbv beta iota; sstep.
    + rewrite E1. eapply swp_mono; [apply (IH (q :: L2)); try done; [constructor; [lia|done]|lia]|].
      intros r s' (-> & K1 & K2 & E & ?). split; [done|]. exists K1, K2.
      rewrite <- app_assoc. by rewrite <- E.
    + split; [done|]. exists (L1 ++ [q]), L2. rewrite last_or_snoc. split_and!; [done|done| |done].
      apply Forall_app. split; [|constructor; [lia|done]].
      apply StronglySorted_app in Hso as (Hso & _ & _). apply Forall_forall. intros w Hw.
      specialize (Hso w q Hw ltac:(by left)). lia.
Qed.

(** The items after [v] is linked in between [L1] and [L2] with time [x]. *)
Definition linked its v (x : Z) L1 L2 : list eval :=
  upd_opt (last_or None L1) (set_ev_tv_next (Some v))
    (upd_opt (hd_or None L2) (set_ev_tv_prev (Some v))
      (alter (λ e, set_ev_tv_prev (last_or None L1) (set_ev_tv_next (hd_or None L2) e)) v
        (alter (set_ev_tv_ms x) v its))).

Lemma linked_lookup its v ev x L1 L2 :
  its !! v = Some ev → v ∉ L1 → v ∉ L2 → linked its v x L1 L2 !! v =
    Some (set_ev_tv_prev (last_or None L1) (set_ev_tv_next (hd_or None L2) (set_ev_tv_ms x ev))).
Proof.
  intros Ev H1 H2. unfold linked.
  rewrite !upd_opt_ne by (intros Hq; first [by apply H1, last_or_elem|by apply H2, hd_or_elem]).
  by rewrite !list_lookup_alter_eq, Ev.
Qed.

Lemma linked_tvms its v x L1 L2 w : w ≠ v → tvms (linked its v x L1 L2) w = tvms its w.
Proof.
  intros Hw. unfold linked. rewrite !tvms_upd_opt by done. by rewrite !tvms_alter by (by intros ->).
Qed.

Lemma linked_seg its v ev x L1 L2 :
  its !! v = Some ev → NoDup (L1 ++ L2) → v ∉ L1 → v ∉ L2 → seg its None (L1 ++ L2) None →
  seg (linked its v x L1 L2) None (L1 ++ v :: L2) None.
Proof.
  intros Ev (N1 & N2 & N3)%NoDup_app H1 H2 [S1 S2]%seg_app. apply seg_app. cbn [hd_or dseg].
  split; [|split].
  - apply (seg_end _ None _ (hd_or None L2)); [done|done|]. apply seg_upd_notin.
    { intros q Hq Hq'. apply (N2 q Hq'). by apply hd_or_elem. }
    by do 2 (apply seg_alter_notin; [done|]).
  - rewrite (linked_lookup its v ev) by done. eexists. split_and!; [done|done|done].
  - apply seg_upd_notin; [intros q Hq%last_or_elem; by apply N2|].
    apply (seg_start _ (last_or None L1)); [done| |done]. by do 2 (apply seg_alter_notin; [done|]).
Qed.

Lemma linked_sorted its v ev x L1 L2 :
  its !! v = Some ev → v ∉ L1 → v ∉ L2 → x ≠ 0 →
  StronglySorted (λ v w, tvms its v <= tvms its w) (L1 ++ L2) →
  Forall (λ v, tvms its v ≠ 0) (L1 ++ L2) →
  Forall (λ w, tvms its w < x) L1 → Forall (λ w, x <= tvms its w) L2 →
  let its' := linked its v x L1 L2 in
  StronglySorted (λ v w, tvms its' v <= tvms its' w) (L1 ++ v :: L2) ∧
  Forall (λ v, tvms its' v ≠ 0) (L1 ++ v :: L2).
Proof.
  intros Ev H1 H2 Hx Hso Hset Hlt Hge its'. destruct (sorted_ext its its' (L1 ++ L2)) as [S1 S2]; [|exact Hso|exact Hset|].
  { intros w [Hw|Hw]%elem_of_app; apply linked_tvms; by intros ->. }
  assert (Etv : tvms its' v = x).
  { unfold tvms. subst its'. by rewrite (linked_lookup its v ev). }
  apply StronglySorted_app in S1 as (Hab & Sa & Sb). apply Forall_app in S2 as [Fa Fb].
  rewrite Forall_forall in Hlt, Hge. split.
  - apply StronglySorted_app. split_and!; [|done|constructor; [done|]].
    + intros a b Ha [->|Hb]%elem_of_cons; [|by apply Hab]. rewrite Etv.
      subst its'. rewrite linked_tvms by (by intros ->). specialize (Hlt a Ha). lia.
    + apply Forall_forall. intros b Hb. rewrite Etv. subst its'.
      rewrite linked_tvms by (by intros ->). by apply Hge.
  - apply Forall_app. split; [done|]. constructor; [by rewrite Etv|done].
Qed.

Lemma linked_start v L1 L2 : NoDup (L1 ++ L2) →
  (if bool_decide (hd_or None (L1 ++ L2) = None ∨ hd_or None L2 = hd_or None (L1 ++ L2))
   then Some v else hd_or None (L1 ++ L2)) = hd_or None (L1 ++ v :: L2).
Proof.
  intros (_ & N2 & _)%NoDup_app. destruct L1 as [|a L1]; cbn [app hd_or].
  - rewrite bool_decide_eq_true_2; [done|by right].
  - rewrite bool_decide_eq_false_2; [done|]. intros [|Hq]; [done|].
    apply (N2 a); [by left|]. by apply hd_or_elem.
Qed.
Lemma linked_end v L1 L2 : NoDup (L1 ++ L2) →
  (if bool_decide (last_or None (L1 ++ L2) = None ∨ last_or None L1 = last_or None (L1 ++ L2))
   then Some v else last_or None (L1 ++ L2)) = last_or None (L1 ++ v :: L2).
Proof.
  intros (_ & N2 & _)%NoDup_app. rewrite last_or_app. destruct L2 as [|b L2].
  - rewrite app_nil_r. rewrite bool_decide_eq_true_2; [done|by right].
  - rewrite last_or_app, last_or_cons. rewrite bool_decide_eq_false_2; [done|].
    assert (Hl : ∃ q, last_or (Some b) L2 = Some q ∧ q ∈ b :: L2).
    { unfold last_or. destruct (list.last L2) as [q|] eqn:E; [|exists b; split; [done|by left]].
      exists q. split; [done|]. right. by apply last_Some_elem_of. }
    destruct Hl as (q & -> & Hq). intros [|Hq']; [done|]. apply (N2 q); [by apply last_or_elem|done].
Qed.

Lemma set_timer_ok s T v ev ms fuel :
  let x := s32 (s32 (a_ret (os (p_log s ++ [KTimeMs]))) + ms) in
  timers s T → v ∉ T → p_items s !! v = Some ev → ev_tv_ms ev = 0 → x ≠ 0 → (length T < fuel)%nat →
  swp (set_timer os v ms fuel) s (λ _ s',
    ∃ L1 L2, T = L1 ++ L2 ∧ timers s' (L1 ++ v :: L2) ∧
      same_but_timers (set_p_log (p_log s ++ [KTimeMs]) s) s' ∧ tvms (p_items s') v = x ∧
      ∀ w, w ∉ T → w ≠ v → p_items s' !! w = p_items s !! w).
Proof.
  intros x [Hnd Hst Hen Hseg Hso Hset] Hv Ev Hz Hx Hf. unfold set_timer.
  sstep. eapply swp_item; [exact Ev|]. rewrite Hz. cbn [Z.eqb negb]. sstep. sstep. sstep.
  apply swp_kret. fold x. sstep. apply swp_upd; [by exists ev|]. cbn [p_items set_p_log].
  rewrite Hen. sstep.
  set (s1 := set_p_items (alter (set_ev_tv_ms x) v (p_items s)) (set_p_log (p_log s ++ [KTimeMs]) s)).
  assert (Htv : ∀ w, w ∈ T → tvms (p_items s1) w = tvms (p_items s) w).
  { intros w Hw. apply tvms_alter. by intros ->. }
  destruct (sorted_ext (p_items s) (p_items s1) T Htv Hso Hset) as [Hso1 _].
  eapply swp_mono.
  { apply (timer_walk_ok x s1 T []); rewrite ?app_nil_r; try done. by apply seg_alter_notin. }
  intros r ? (-> & L1 & L2 & E & -> & Hlt & Hge). rewrite app_nil_r in E.
  assert ((v ∉ L1) ∧ (v ∉ L2)) as [Hv1 Hv2] by (by rewrite E, not_elem_of_app in Hv).
  assert (Hlk : ∀ q, q ∈ L1 ∨ q ∈ L2 → is_Some (p_items s !! q)).
  { intros q Hq. eapply seg_lookup; [exact Hseg|]. rewrite E. by apply elem_of_app. }
  cbn beta iota. sstep. apply swp_upd; [cbn; by rewrite list_lookup_alter_eq, Ev|].
  sstep. apply swp_upd_opt.
  { intros q Hq%hd_or_elem. cbn. rewrite !list_lookup_alter_ne by (by intros ->). apply Hlk. by right. }
  sstep. apply swp_upd_opt.
  { intros q Hq%last_or_elem. cbn. apply upd_opt_is_Some.
    rewrite !list_lookup_alter_ne by (by intros ->). apply Hlk. by left. }
  cbn [p_items set_p_items s1]. fold (linked (p_items s) v x L1 L2).
  set (its' := linked (p_items s) v x L1 L2). sstep. sstep. cbn [p_tv_start set_p_items set_p_log].
  sstep. apply (swp_mono _ _ (λ _ s', s' = set_p_tv_start (hd_or None (L1 ++ v :: L2))
    (set_p_items its' (set_p_log (p_log s ++ [KTimeMs]) s)))).
  { change (p_tv_start s1) with (p_tv_start s). rewrite Hst, E, <- linked_start by (by rewrite <- E). case_bool_decide as Eb; sstep.
    - by rewrite ?bool_decide_eq_true_2.
    - rewrite ?bool_decide_eq_false_2 by done. rewrite <- E, <- Hst. by destruct s. }
  intros _ ? ->. sstep. sstep. cbn [p_tv_end set_p_items set_p_log set_p_tv_start].
  apply (swp_mono _ _ (λ _ s', s' = set_p_tv_end (last_or None (L1 ++ v :: L2))
    (set_p_tv_start (hd_or None (L1 ++ v :: L2)) (set_p_items its' (set_p_log (p_log s ++ [KTimeMs]) s))))).
  { change (p_tv_end s1) with (p_tv_end s). rewrite Hen, E, <- linked_end by (by rewrite <- E). case_bool_decide as Eb; sstep.
    - by rewrite ?bool_decide_eq_true_2.
    - rewrite ?bool_decide_eq_false_2 by done. rewrite <- E, <- Hen. by destruct s. }
  intros _ ? ->. exists L1, L2. split; [done|].
  assert (Hltge : Forall (λ w, tvms (p_items s) w < x) L1 ∧ Forall (λ w, x <= tvms (p_items s) w) L2).
  { rewrite Forall_forall in Hlt, Hge. split; apply Forall_forall; intros w Hw.
    - rewrite <- Htv by (rewrite E; by apply elem_of_app; left). by apply Hlt.
    - rewrite <- Htv by (rewrite E; by apply elem_of_app; right). by apply Hge. }
  rewrite E in Hnd, Hseg, Hso, Hset. split_and!.
  - destruct (linked_sorted _ _ _ _ _ _ Ev Hv1 Hv2 Hx Hso Hset (proj1 Hltge) (proj2 Hltge)) as [Hs1 Hs2].
    split; cbn; try done; [|by apply (linked_seg _ _ ev)].
    rewrite NoDup_app in Hnd |- *. destruct Hnd as (N1 & N2 & N3). split_and!; [done| |by constructor].
    intros a Ha [->|Hb]%elem_of_cons; [done|by apply (N2 a)].
  - split; [by destruct s|]. cbn. subst its'. unfold linked.
    by rewrite !map_strip_upd_opt, !map_strip_alter.
  - cbn. unfold tvms, its'. by rewrite (linked_lookup _ _ ev).
  - intros w HwT Hwv. cbn. subst its'. unfold linked. rewrite E, not_elem_of_app in HwT.
    destruct HwT as [W1 W2].
    rewrite !upd_opt_ne by (intros Hq; first [by apply W1, last_or_elem|by apply W2, hd_or_elem]).
    by rewrite !list_lookup_alter_ne.
Qed.
(** ** The pool *)

Definition live s v : Prop := ∃ i, Z.of_nat i < p_count s ∧ p_links s !! i = Some v.
Definition closed s v : Prop :=
  ∃ ev, p_items s !! v = Some ev ∧ ev_fd ev = -1 ∧ ev_mod_iter ev <= p_iters s.

(** A live connection, its slot in the arrays. *)
Record slot_ok s (i : nat) ev (pe : pollfd) : Prop := {
  sl_index : ev_index ev = Z.of_nat i;
  sl_fd : 0 < ev_fd ev;
  sl_poll : pf_fd pe = ev_fd ev;
  sl_iter : ev_mod_iter ev <= p_iters s
}.

Record pool_wf s (T : list nat) : Prop := {
  wf_nodup : NoDup (p_links s);
  wf_range : Forall (λ v, (v < length (p_items s))%nat) (p_links s);
  wf_links : length (p_links s) = Z.to_nat (p_max s);
  wf_items : length (p_items s) = Z.to_nat (p_max s);
  wf_pevents : length (p_pevents s) = Z.to_nat (p_max s);
  wf_count : 0 <= p_count s <= p_max s;
  wf_live i v : Z.of_nat i < p_count s → p_links s !! i = Some v →
    ∃ ev pe, p_items s !! v = Some ev ∧ p_pevents s !! i = Some pe ∧ slot_ok s i ev pe;
  wf_timers : timers s T;
  wf_timers_live : Forall (live s) T;
  wf_others v : live s v → v ∉ T → no_links (p_items s) v;
  wf_pairs v ev w : live s v → p_items s !! v = Some ev → ev_pair ev = Some w →
    live s w ∨ closed s w;
  wf_buffs : p_buff_count s = Z.of_nat (length (p_root_buff s)) ∧
    p_buff_count s <= MAX_BUFF_INP
}.

(** Pending events are of the last poll, for the descriptor of the slot. *)
Definition reported s (rep : list (Z * Z)) : Prop :=
  ∀ i pe, Z.of_nat i < p_count s → p_pevents s !! i = Some pe → pf_revents pe ≠ 0 →
    (pf_fd pe, pf_revents pe) ∈ rep.

(** The slots a scan from [offs] has left: those past the live ones hold connections that
    were deleted in this round. *)
Definition scan_ok s (offs : Z) : Prop :=
  -1 <= offs < p_max s ∧
  ∀ i v, p_count s <= Z.of_nat i <= offs → p_links s !! i = Some v →
    ∃ ev, p_items s !! v = Some ev ∧ ev_mod_iter ev = p_iters s.

Lemma live_lookup s T v : pool_wf s T → live s v →
  ∃ i ev pe, Z.of_nat i < p_count s ∧ p_links s !! i = Some v ∧ p_items s !! v = Some ev ∧
    p_pevents s !! i = Some pe ∧ slot_ok s i ev pe.
Proof.
  intros Hwf (i & Hi & Hv). destruct (wf_live _ _ Hwf i v Hi Hv) as (ev & pe & ? & ? & ?).
  by exists i, ev, pe.
Qed.

Lemma links_inj s T i j v : pool_wf s T → p_links s !! i = Some v → p_links s !! j = Some v → i = j.
Proof. intros Hwf. by apply NoDup_alt, Hwf. Qed.

(** Changes of an item that the timers do not see. *)
Lemma seg_ext_tv its its' p L n :
  (∀ v ev, v ∈ L → its !! v = Some ev → ∃ ev', its' !! v = Some ev' ∧
    ev_tv_prev ev' = ev_tv_prev ev ∧ ev_tv_next ev' = ev_tv_next ev) →
  seg its p L n → seg its' p L n.
Proof.
  revert p. induction L as [|v L IH]; intros p H; cbn [dseg]; [done|].
  intros [(ev & Ev & <- & <-) H2]. split.
  - destruct (H v ev ltac:(by left) Ev) as (ev' & ? & ? & ?). by exists ev'.
  - apply IH; [|done]. intros w ew Hw. apply H. by right.
Qed.

Definition tv_fields ev : Z * option nat * option nat := (ev_tv_ms ev, ev_tv_next ev, ev_tv_prev ev).

(** The timers only depend on the two ends and on the timer fields of the items. *)
Lemma timers_ext s s' T :
  p_tv_start s' = p_tv_start s → p_tv_end s' = p_tv_end s →
  (∀ v, v ∈ T → tv_fields <$> p_items s' !! v = tv_fields <$> p_items s !! v) →
  timers s T → timers s' T.
Proof.
  intros E1 E2 H [Hnd Hst Hen Hseg Hso Hset].
  assert (Htv : ∀ v, v ∈ T → tvms (p_items s') v = tvms (p_items s) v).
  { intros v Hv. specialize (H v Hv). unfold tvms.
    destruct (p_items s' !! v), (p_items s !! v); cbn in H; try done. by injection H. }
  destruct (sorted_ext _ _ _ Htv Hso Hset) as [? ?].
  split; [done|congruence|congruence| |done|done]. eapply seg_ext_tv; [|exact Hseg].
  intros v ev Hv Ev. specialize (H v Hv). rewrite Ev in H.
  destruct (p_items s' !! v) as [ev'|]; [|done]. exists ev'. cbn in H. by injection H as _ -> ->.
Qed.

Lemma no_links_ext its its' v :
  tv_fields <$> its' !! v = tv_fields <$> its !! v → no_links its v → no_links its' v.
Proof.
  intros H (ev & Ev & E1 & E2). rewrite Ev in H. destruct (its' !! v) as [ev'|] eqn:E; [|done].
  exists ev'. cbn in H. unfold tv_fields in H. injection H as _ -> ->. done.
Qed.

Lemma same_items s s' v ev : same_but_timers s s' → p_items s !! v = Some ev →
  ∃ ev', p_items s' !! v = Some ev' ∧ strip ev' = strip ev.
Proof.
  intros [_ H] Ev. apply (f_equal (λ l, l !! v)) in H. rewrite !list_lookup_fmap, Ev in H.
  destruct (p_items s' !! v) as [ev'|]; [|done]. exists ev'. split; [done|].
  change (Some (strip ev') = Some (strip ev)) in H. by apply (inj Some) in H.
Qed.

Lemma same_length s s' : same_but_timers s s' → length (p_items s') = length (p_items s).
Proof. intros [_ H]. apply (f_equal length) in H. by rewrite !length_map in H. Qed.

(** The free list [rb] was made from [rb0] by giving back buffers of which [Q] holds. *)
Definition pushed (Q : buffer → Prop) (rb0 rb : list buffer) : Prop :=
  ∀ P : buffer → Prop, Forall P rb0 → (∀ b, Q b → P (set_b_lock 0 (set_b_offset 0 b))) → Forall P rb.
Definition buff_in ev (b : buffer) : Prop := ev_buff ev = Some b ∨ ev_sq_buff ev = Some b.

Lemma swp_buff_push b s (P : unit → poolhd → Prop) :
  p_buff_count s = Z.of_nat (length (p_root_buff s)) → p_buff_count s <= MAX_BUFF_INP →
  (∀ rb, Z.of_nat (length rb) <= MAX_BUFF_INP → pushed (λ x, b = Some x) (p_root_buff s) rb →
    P tt (set_p_buff_count (Z.of_nat (length rb)) (set_p_root_buff rb s))) →
  swp (buff_push b) s P.
Proof.
  intros H1 H2 HP. unfold buff_push.
  assert (Hs : set_p_buff_count (p_buff_count s) (set_p_root_buff (p_root_buff s) s) = s).
  { by destruct s. }
  destruct b as [b|].
  - sstep. sstep. destruct (Z.leb_spec MAX_BUFF_INP (p_buff_count s)).
    + sstep. rewrite <- Hs, H1 at 1. apply HP; [by rewrite <- H1|]. by intros Q HQ _.
    + sstep. specialize (HP (set_b_lock 0 (set_b_offset 0 b) :: p_root_buff s)). cbn [length] in HP.
      rewrite Nat2Z.inj_succ, <- H1 in HP. apply HP; [lia|]. intros Q HQ Hb. constructor; auto.
  - sstep. rewrite <- Hs, H1. apply HP; [by rewrite <- H1|]. by intros Q HQ _.
Qed.

(** ** Exchanging the deleted connection with the last live one *)

Lemma swap_lookup {A} (l : list A) i n (x y : A) k :
  l !! i = Some x → l !! n = Some y →
  <[n:=x]> (<[i:=y]> l) !! k =
    if decide (k = n) then Some x else if decide (k = i) then Some y else l !! k.
Proof.
  intros Hi Hn. pose proof (lookup_lt_Some _ _ _ Hi). pose proof (lookup_lt_Some _ _ _ Hn).
  destruct (decide (k = n)) as [->|Hkn].
  { apply list_lookup_insert_eq. by rewrite length_insert. }
  rewrite list_lookup_insert_ne by done. destruct (decide (k = i)) as [->|Hki].
  - by apply list_lookup_insert_eq.
  - by rewrite list_lookup_insert_ne.
Qed.

Lemma swap_nodup {A} (l : list A) i n (x y : A) :
  l !! i = Some x → l !! n = Some y → NoDup l → NoDup (<[n:=x]> (<[i:=y]> l)).
Proof.
  intros Hi Hn Hnd. rewrite NoDup_alt in Hnd |- *. intros a b z.
  rewrite !(swap_lookup l i n x y) by done. intros Ha Hb.
  repeat case_decide; subst; simplify_eq; try done; try (by apply (Hnd _ _ z)).
  all: exfalso; naive_solver.
Qed.

Lemma alter_alter {A} (f g : A → A) i (l : list A) : alter f i (alter g i l) = alter (λ x, f (g x)) i l.
Proof. apply list_alter_alter_eq. Qed.
Lemma alter_same {A} (f : A → A) i (l : list A) x : l !! i = Some x → f x = x → alter f i l = l.
Proof.
  intros E Hf. apply list_eq. intros j. destruct (decide (i = j)) as [->|].
  - rewrite list_lookup_alter_eq, E. cbn. by rewrite Hf.
  - by rewrite list_lookup_alter_ne.
Qed.

Definition closing (it : Z) ev : eval :=
  set_ev_mod_iter it (set_ev_fd (-1) (set_ev_host None (set_ev_sq_buff None (set_ev_buff None ev)))).

Lemma close_fd_ok s T i v ev pe (P : unit → poolhd → Prop) :
  pool_wf s T → p_items s !! v = Some ev → p_pevents s !! i = Some pe → slot_ok s i ev pe →
  (∀ rb, Z.of_nat (length rb) <= MAX_BUFF_INP → pushed (buff_in ev) (p_root_buff s) rb →
    P tt (set_p_items (alter (closing (p_iters s)) v (p_items s))
      (set_p_log (p_log s ++ [KClose (ev_fd ev)])
        (set_p_buff_count (Z.of_nat (length rb)) (set_p_root_buff rb s))))) →
  swp (close_fd os v ev) s P.
Proof.
  intros Hwf Ev Ep [Hi Hfd Hpf Hit] HP. destruct (wf_buffs _ _ Hwf) as [Hb1 Hb2].
  unfold close_fd. sstep. sstep. sstep. sstep.
  eapply wp_geti; [lia|rewrite Hi, Nat2Z.id; exact Ep|].
  sstep. sstep. apply wp_assert; [by apply Z.eqb_eq|].
  sstep. apply swp_buff_push; [done|done|]. intros rb1 H1 Q1.
  sstep. apply swp_upd; [by exists ev|].
  sstep. apply swp_buff_push; [done|done|]. intros rb2 H2 Q2.
  sstep. apply swp_upd; [cbn; by rewrite list_lookup_alter_eq, Ev|].
  sstep. apply swp_upd; [cbn; by rewrite !list_lookup_alter_eq, Ev|].
  sstep. apply swp_kret. sstep. sstep. apply swp_upd; [cbn; by rewrite !list_lookup_alter_eq, Ev|].
  specialize (HP rb2 H2). specialize (HP ltac:(intros Q HQ Hb; apply Q2; [apply Q1; [done|]|]; intros b E; apply Hb; [by left|by right])).
  cbn. rewrite !alter_alter. by destruct s.
Qed.

Lemma close_link_ok s i v last ev pe n (P : unit → poolhd → Prop) :
  p_items s !! v = Some ev → ev_index ev = Z.of_nat i → NoDup (p_links s) →
  p_count s = Z.of_nat (S n) → p_links s !! i = Some v → p_links s !! n = Some last →
  p_pevents s !! n = Some pe → is_Some (p_items s !! last) →
  P tt (set_p_items (alter (set_ev_index (Z.of_nat i)) last (p_items s))
    (set_p_pevents (<[i := pe]> (p_pevents s))
      (set_p_links (<[n := v]> (<[i := last]> (p_links s)))
        (set_p_count (Z.of_nat n) s)))) →
  ∀ ev', ev_index ev' = Z.of_nat i → swp (close_link v ev') s P.
Proof.
  intros Ev Hi Hnd Hc Hv Hl Hpe Hlast HP ev' Hi'. unfold close_link. rewrite Hi'.
  replace (Z.of_nat n) with (p_count s - 1) in HP by lia.
  assert (Hn : Z.to_nat (p_count s - 1) = n) by lia.
  sstep. sstep. sstep. sstep. sstep. sstep. cbn [p_count p_links set_p_count]. sstep. sstep.
  eapply wp_geti; [lia|rewrite Hn; exact Hl|].
  destruct (decide (last = v)) as [->|Hne].
  - assert (i = n) as ->.
    { rewrite NoDup_alt in Hnd. by apply (Hnd i n v). }
    rewrite (list_insert_id (p_links s) n v), (list_insert_id (p_links s) n v),
      (list_insert_id (p_pevents s) n pe), (alter_same _ _ _ ev) in HP
      by (done || (destruct ev; cbn in *; by subst)).
    sstep. by destruct s.
  - sstep. sstep. eapply wp_geti; [lia|rewrite Nat2Z.id; exact Hv|].
    sstep. sstep. sstep. sstep. cbn [p_pevents set_p_links set_p_count]. sstep. sstep.
    eapply wp_geti; [lia|rewrite Hn; exact Hpe|].
    sstep. sstep. apply swp_upd; [done|]. cbn. rewrite Nat2Z.id, Hn. by destruct s.
Qed.

(** What stays of a connection when others come and go. *)
Definition core ev : eval := set_ev_index 0 (strip ev).

(** [s'] is [s] without the live connection [v], whose descriptor was [fd]. *)
Record removed s v ev s' : Prop := {
  rm_max : p_max s' = p_max s;
  rm_iters : p_iters s' = p_iters s;
  rm_length : length (p_items s') = length (p_items s);
  rm_brk : p_brk s' = p_brk s;
  rm_count : p_count s' = p_count s - 1;
  rm_log : p_log s' = p_log s ++ [KClose (ev_fd ev)];
  rm_live w : live s' w ↔ live s w ∧ w ≠ v;
  rm_item : ∃ ev', p_items s' !! v = Some ev' ∧ ev_fd ev' = -1 ∧ ev_pair ev' = ev_pair ev ∧
    ev_mod_iter ev' = p_iters s;
  rm_others w e : w ≠ v → p_items s !! w = Some e →
    ∃ e', p_items s' !! w = Some e' ∧ core e' = core e;
  rm_roots : pushed (buff_in ev) (p_root_buff s) (p_root_buff s');
  rm_reported rep : reported s rep → reported s' rep;
  rm_scan offs : scan_ok s offs → scan_ok s' offs
}.

(** The pool once the descriptor is closed and the timer removed, and once the last live
    connection has taken the slot. *)
Definition unlisted s ev its rb st en : poolhd :=
  set_p_items its (set_p_tv_start st (set_p_tv_end en
    (set_p_log (p_log s ++ [KClose (ev_fd ev)])
      (set_p_buff_count (Z.of_nat (length rb)) (set_p_root_buff rb s))))).
Definition relinked s v i n last plast : poolhd :=
  set_p_items (alter (set_ev_index (Z.of_nat i)) last (p_items s))
    (set_p_pevents (<[i := plast]> (p_pevents s))
      (set_p_links (<[n := v]> (<[i := last]> (p_links s)))
        (set_p_count (Z.of_nat n) s))).

Section remove.
Context (s : poolhd) (T : list nat) (v i n last : nat) (ev elast : eval) (pe plast : pollfd).
Context (Hwf : pool_wf s T) (Ev : p_items s !! v = Some ev) (Hi : p_links s !! i = Some v)
  (Hin : Z.of_nat i < p_count s) (Hpe : p_pevents s !! i = Some pe) (Hok : slot_ok s i ev pe).
Context (Hn : p_count s = Z.of_nat (S n)) (Hl : p_links s !! n = Some last)
  (El : p_items s !! last = Some elast) (Hpl : p_pevents s !! n = Some plast)
  (Hol : slot_ok s n elast plast).
(** The items after the timer was removed. *)
Context (its : list eval) (rb : list buffer) (st en : option nat).
Context (Hlen : length its = length (p_items s)) (Hrb : Z.of_nat (length rb) <= MAX_BUFF_INP).
Context (Hroots : pushed (buff_in ev) (p_root_buff s) rb).
Context (Hits : ∀ w e, w ≠ v → p_items s !! w = Some e →
  ∃ e', its !! w = Some e' ∧ strip e' = strip e).
Context (Hitv : ∃ ev', its !! v = Some ev' ∧ strip ev' = strip (closing (p_iters s) ev)).

Abbreviation s1 := (unlisted s ev its rb st en).
Abbreviation s' := (relinked s1 v i n last plast).

Lemma remove_links k : p_links s' !! k =
  if decide (k = n) then Some v else if decide (k = i) then Some last else p_links s !! k.
Proof. by apply swap_lookup. Qed.

Lemma remove_pevents k : p_pevents s' !! k = if decide (k = i) then Some plast else p_pevents s !! k.
Proof.
  cbn. destruct (decide (k = i)) as [->|].
  - apply list_lookup_insert_eq. by eapply lookup_lt_Some.
  - by apply list_lookup_insert_ne.
Qed.

Lemma remove_le : (i <= n)%nat.
Proof. lia. Qed.

Lemma remove_live w : live s' w ↔ live s w ∧ w ≠ v.
Proof.
  assert (Hinj : ∀ a b x, p_links s !! a = Some x → p_links s !! b = Some x → a = b).
  { intros a b x. by apply (links_inj s T). }
  unfold live. rewrite Hn. cbn [p_count relinked unlisted set_p_items set_p_pevents set_p_links set_p_count]. split.
  - intros (k & Hk & E). rewrite remove_links in E. rewrite decide_False in E by lia.
    destruct (decide (k = i)) as [->|Hki].
    + injection E as <-. split; [exists n; split; [lia|done]|]. intros ->.
      pose proof (Hinj i n v Hi Hl). lia.
    + split; [exists k; split; [lia|done]|]. intros ->. by apply Hki, (Hinj k i v).
  - intros [(k & Hk & E) Hw]. destruct (decide (k = n)) as [->|Hkn].
    + rewrite Hl in E. injection E as <-.
      exists i. rewrite remove_links, !(decide_True (P := i = i)) by done.
      assert (i ≠ n) by (intros ->; pose proof Hl as Hl'; rewrite Hi in Hl'; by injection Hl').
      rewrite decide_False by done. split; [lia|done].
    + exists k. rewrite remove_links. rewrite !decide_False; [split; [lia|done]|..|done].
      intros ->. rewrite Hi in E. by injection E.
Qed.

Lemma remove_item w e : w ≠ v → p_items s !! w = Some e →
  ∃ e', p_items s' !! w = Some e' ∧ core e' = core e ∧
    ev_index e' = (if decide (w = last) then Z.of_nat i else ev_index e).
Proof.
  intros Hw E. destruct (Hits w e Hw E) as (e' & E' & Hs). cbn.
  destruct (decide (last = w)) as [->|Hne].
  - rewrite list_lookup_alter_eq, E', decide_True by done. exists (set_ev_index (Z.of_nat i) e').
    split_and!; [done| |done]. unfold core. rewrite <- Hs. done.
  - rewrite list_lookup_alter_ne, decide_False by done. exists e'. split_and!; [done| |].
    + unfold core. by rewrite Hs.
    + by apply (f_equal ev_index) in Hs.
Qed.

Lemma remove_item_v : ∃ ev', p_items s' !! v = Some ev' ∧ ev_fd ev' = -1 ∧
  ev_pair ev' = ev_pair ev ∧ ev_mod_iter ev' = p_iters s.
Proof.
  destruct Hitv as (ev' & E & Hs). cbn. rewrite list_lookup_alter.
  pose proof (f_equal ev_fd Hs) as H1. pose proof (f_equal ev_pair Hs) as H2.
  pose proof (f_equal ev_mod_iter Hs) as H3. cbn in H1, H2, H3.
  destruct (decide (last = v)) as [Elv|]; [rewrite Elv|]; rewrite E; cbn; by eexists.
Qed.

Lemma remove_reported rep : reported s rep → reported s' rep.
Proof.
  intros H k p Hk E. rewrite remove_pevents in E. cbn in Hk.
  destruct (decide (k = i)) as [->|]; [|apply (H k); [lia|done]].
  injection E as <-. apply (H n); [lia|done].
Qed.

Lemma remove_scan offs : scan_ok s offs → scan_ok s' offs.
Proof.
  intros [Ho H]. split; [done|]. intros k w Hk E. rewrite remove_links in E. cbn in Hk.
  destruct remove_item_v as (ev' & Ev' & _ & _ & Hm).
  destruct (decide (k = n)) as [->|Hkn]; [injection E as <-; by exists ev'|].
  rewrite decide_False in E by (pose proof remove_le; lia).
  destruct (H k w ltac:(lia) E) as (e & Ee & Hie).
  assert (Hwv : w ≠ v).
  { intros ->. pose proof (links_inj s T k i v Hwf E Hi). pose proof remove_le. lia. }
  destruct (remove_item w e Hwv Ee) as (e' & Ee' & Hc & _). exists e'. split; [done|].
  pose proof (f_equal ev_mod_iter Hc) as Hm'. cbn in Hm'. by rewrite Hm'.
Qed.

Lemma remove_slots k w : Z.of_nat k < p_count s' → p_links s' !! k = Some w →
  ∃ e p, p_items s' !! w = Some e ∧ p_pevents s' !! k = Some p ∧ slot_ok s' k e p.
Proof.
  intros Hk E. assert (Hlv : live s' w) by (by exists k). apply remove_live in Hlv as [_ Hwv].
  rewrite remove_links in E. rewrite remove_pevents. cbn in Hk.
  rewrite decide_False in E by lia.
  destruct (decide (k = i)) as [->|Hki].
  - injection E as <-. destruct (remove_item last elast Hwv El) as (e' & E' & Hc & Hx).
    rewrite decide_True in Hx by done. exists e', plast. split_and!; [done|done|].
    pose proof (f_equal ev_fd Hc) as H1. pose proof (f_equal ev_mod_iter Hc) as H2. cbn in H1, H2.
    destruct Hol. split; [done|lia|by rewrite H1|by rewrite H2].
  - destruct (wf_live _ _ Hwf k w ltac:(lia) E) as (e & p & Ee & Ep & [O1 O2 O3 O4]).
    destruct (remove_item w e Hwv Ee) as (e' & E' & Hc & Hx).
    exists e', p. split_and!; [done|done|]. rewrite decide_False in Hx.
    2: { intros ->. pose proof (links_inj s T k n last Hwf E Hl). lia. }
    pose proof (f_equal ev_fd Hc) as H1. pose proof (f_equal ev_mod_iter Hc) as H2. cbn in H1, H2.
    split; [by rewrite Hx|lia|by rewrite H1|by rewrite H2].
Qed.

Context (Htm : timers s1 (others v T)).
Context (Hrest : ∀ w, w ∉ T → w ≠ v → its !! w = p_items s !! w).

Lemma in_others w : w ∈ others v T ↔ w ∈ T ∧ w ≠ v.
Proof.
  unfold others. rewrite list_elem_of_In, filter_In, <- list_elem_of_In, negb_true_iff, bool_decide_eq_false.
  done.
Qed.

Lemma remove_tv w : tv_fields <$> p_items s' !! w = tv_fields <$> its !! w.
Proof. cbn. rewrite list_lookup_alter. case_decide as H; [subst; by destruct (its !! w)|done]. Qed.

Lemma remove_wf : pool_wf s' (others v T).
Proof.
  assert (Hlk : length (p_links s') = length (p_links s)) by (cbn; by rewrite !length_insert).
  split; try apply remove_slots.
  - by apply swap_nodup, Hwf.
  - apply Forall_lookup. intros k w E. rewrite remove_links in E. cbn. rewrite length_alter, Hlen.
    pose proof (proj1 (Forall_lookup _ _) (wf_range _ _ Hwf)) as Hr.
    destruct (decide (k = n)); [injection E as <-; by apply (Hr i)|].
    destruct (decide (k = i)); [injection E as <-; by apply (Hr n)|by apply (Hr k)].
  - rewrite Hlk. apply Hwf.
  - cbn. rewrite length_alter, Hlen. apply Hwf.
  - cbn. rewrite length_insert. apply Hwf.
  - cbn. pose proof (wf_count _ _ Hwf). lia.
  - apply (timers_ext s1); [done|done| |done]. intros w _. apply remove_tv.
  - apply Forall_forall. intros w [Hw Hne]%in_others. apply remove_live. split; [|done].
    pose proof (wf_timers_live _ _ Hwf) as H. rewrite Forall_forall in H. by apply H.
  - intros w [Hw Hwv]%remove_live HwT. assert (w ∉ T) by (intros H; by apply HwT, in_others).
    apply (no_links_ext (p_items s)); [|by apply (wf_others _ _ Hwf)].
    by rewrite remove_tv, Hrest.
  - intros w e x [Hw Hwv]%remove_live Ee Ex.
    destruct (live_lookup s T w Hwf Hw) as (k & e0 & p0 & _ & _ & E0 & _).
    destruct (remove_item w e0 Hwv E0) as (e' & E' & Hc & _). rewrite Ee in E'. injection E' as <-.
    pose proof (f_equal ev_pair Hc) as Hp. cbn in Hp. rewrite Hp in Ex.
    destruct (decide (x = v)) as [->|Hxv].
    { right. destruct remove_item_v as (ev' & ? & ? & _ & Hm). exists ev'. split_and!; [done|done|].
      cbn. lia. }
    destruct (wf_pairs _ _ Hwf w e0 x Hw E0 Ex) as [Hx|(ex & Eex & Hfd & Hm)].
    + left. by apply remove_live.
    + right. destruct (remove_item x ex Hxv Eex) as (ex' & Ex' & Hcx & _). exists ex'.
      pose proof (f_equal ev_fd Hcx) as H1. pose proof (f_equal ev_mod_iter Hcx) as H2. cbn in H1, H2.
      split_and!; [done|congruence|cbn; lia].
  - cbn. done.
Qed.

Lemma remove_removed : removed s v ev s'.
Proof.
  split; try done; [cbn; by rewrite length_alter|cbn; lia|apply remove_live|apply remove_item_v| |apply remove_reported|apply remove_scan].
  intros w e Hw E. destruct (remove_item w e Hw E) as (e' & ? & ? & _). by exists e'.
Qed.
End remove.

Lemma same_eta s s' : same_but_timers s s' →
  s' = set_p_items (p_items s') (set_p_tv_start (p_tv_start s') (set_p_tv_end (p_tv_end s') s)).
Proof.
  intros [H _]. destruct s, s'. cbn in *. injection H. intros. by subst.
Qed.

(** Deleting one connection: the first half of [del_event]. *)
Lemma del_one_ok s T v ev :
  pool_wf s T → live s v → p_items s !! v = Some ev →
  swp (close_event os v ev) s (λ _ s',
    pool_wf s' (others v T) ∧ removed s v ev s').
Proof.
  intros Hwf Hlv Ev. destruct (live_lookup s T v Hwf Hlv) as (i & ev0 & pe & Hin & Hi & Ev0 & Hpe & Hok).
  rewrite Ev in Ev0. injection Ev0 as <-.
  assert (Hn : ∃ n, p_count s = Z.of_nat (S n)) by (exists (Z.to_nat (p_count s - 1)); lia).
  destruct Hn as [n Hn].
  destruct (lookup_lt_is_Some_2 (p_links s) n) as [last Hl].
  { rewrite (wf_links _ _ Hwf). pose proof (wf_count _ _ Hwf). lia. }
  destruct (wf_live _ _ Hwf n last ltac:(lia) Hl) as (elast & plast & El & Hpl & Hol).
  unfold close_event. sstep. apply (close_fd_ok s T i v ev pe); [done..|]. intros rb Hrb Hroots. sstep.
  set (s1 := set_p_items _ _).
  assert (Htm : timers s1 T).
  { eapply timers_ext; [..|apply Hwf]; [done..|]. intros w _. cbn. rewrite list_lookup_alter.
    case_decide; [subst; by destruct (p_items s !! w)|done]. }
  assert (Hv : v ∈ T ∨ no_links (p_items s1) v).
  { destruct (decide (v ∈ T)) as [|HvT]; [by left|right].
    eapply no_links_ext; [|by apply (wf_others _ _ Hwf)]. cbn. by rewrite list_lookup_alter_eq, Ev. }
  eapply swp_mono; [by apply remove_timer_ok|]. intros _ s2 (Htm2 & Hsame & _ & _ & Hrest).
  pose proof (same_eta _ _ Hsame) as E2. pose proof (same_length _ _ Hsame) as Hlen.
  cbn in Hlen. rewrite length_alter in Hlen.
  assert (Hits : ∀ w e, w ≠ v → p_items s !! w = Some e →
    ∃ e', p_items s2 !! w = Some e' ∧ strip e' = strip e).
  { intros w e Hw E. apply (same_items s1); [done|]. cbn. by rewrite list_lookup_alter_ne. }
  assert (Hitv : ∃ ev', p_items s2 !! v = Some ev' ∧ strip ev' = strip (closing (p_iters s) ev)).
  { apply (same_items s1); [done|]. cbn. by rewrite list_lookup_alter_eq, Ev. }
  assert (Hs2 : s2 = unlisted s ev (p_items s2) rb (p_tv_start s2) (p_tv_end s2)).
  { rewrite E2 at 1. reflexivity. }
  rewrite Hs2 in Htm2. clear E2.
  destruct Hitv as (ev2 & Ev2 & Hs). pose proof (f_equal ev_index Hs) as Hidx. cbn in Hidx.
  destruct Hok as [Ok1 Ok2 Ok3 Ok4].
  assert (Hlk : p_links s2 = p_links s ∧ p_count s2 = p_count s ∧ p_pevents s2 = p_pevents s).
  { rewrite Hs2. done. }
  destruct Hlk as (L1 & L2 & L3).
  eapply (close_link_ok s2 i v last ev2 plast n).
  - done.
  - congruence.
  - rewrite L1. apply Hwf.
  - congruence.
  - congruence.
  - congruence.
  - congruence.
  - apply lookup_lt_is_Some_2. rewrite Hlen. by eapply lookup_lt_Some.
  - fold (relinked s2 v i n last plast). rewrite Hs2.
    assert (Hrest' : ∀ w, w ∉ T → w ≠ v → p_items s2 !! w = p_items s !! w).
    { intros w HwT Hw. rewrite Hrest by done. cbn. by apply list_lookup_alter_ne. }
    split.
    + eapply remove_wf; try done; by exists ev2.
    + eapply remove_removed; try done; by exists ev2.
  - done.
Qed.

(** Clearing a [pair] pointer changes nothing else. *)
Definition unpair v s : poolhd := set_p_items (alter (set_ev_pair None) v (p_items s)) s.

Lemma unpair_lookup v s w e : p_items s !! w = Some e →
  ∃ e', p_items (unpair v s) !! w = Some e' ∧ set_ev_pair None e' = set_ev_pair None e ∧
    (ev_pair e' = ev_pair e ∧ w ≠ v ∨ ev_pair e' = None).
Proof.
  intros E. cbn. destruct (decide (v = w)) as [->|].
  - rewrite list_lookup_alter_eq, E. eexists. split_and!; [done|done|by right].
  - rewrite list_lookup_alter_ne by done. exists e. split_and!; [done|done|]. left. split; congruence.
Qed.

Lemma unpair_closed v s w : closed (unpair v s) w ↔ closed s w.
Proof.
  unfold closed. cbn. rewrite list_lookup_alter. case_decide; [|done]. subst.
  destruct (p_items s !! w) as [e|]; cbn; [|naive_solver].
  split; intros (e' & [= <-] & ?); by eexists.
Qed.

Lemma unpair_wf v s T : pool_wf s T → pool_wf (unpair v s) T.
Proof.
  intros Hwf.
  assert (Htv : ∀ w, tv_fields <$> p_items (unpair v s) !! w = tv_fields <$> p_items s !! w).
  { intros w. cbn. rewrite list_lookup_alter. case_decide; [subst; by destruct (p_items s !! w)|done]. }
  destruct Hwf as [H1 H2 H3 H4 H5 H6 H7 H8 H9 H10 H11 H12].
  split; try done; cbn -[unpair]; try (by cbn; rewrite length_alter).
  - intros i w Hi Hw. destruct (H7 i w Hi Hw) as (e & p & E & Hp & [O1 O2 O3 O4]).
    destruct (unpair_lookup v s w e E) as (e' & E' & Hc & _). exists e', p. split_and!; [done|done|].
    pose proof (f_equal ev_fd Hc) as C1. pose proof (f_equal ev_mod_iter Hc) as C2.
    pose proof (f_equal ev_index Hc) as C3. cbn in C1, C2, C3. split; cbn; congruence || lia.
  - apply (timers_ext s); done.
  - intros w Hw HwT. apply (no_links_ext (p_items s)); [done|]. by apply H10.
  - intros w e x Hw E Ex. destruct Hw as (i & Hi & Hw). destruct (H7 i w Hi Hw) as (e0 & _ & E0 & _).
    destruct (unpair_lookup v s w e0 E0) as (e' & E' & _ & Hc). rewrite E in E'. injection E' as <-.
    destruct Hc as [[Hc _]|Hc]; [|congruence]. rewrite Hc in Ex.
    destruct (H11 w e0 x (ex_intro _ i (conj Hi Hw)) E0 Ex) as [|Hx]; [by left|right].
    by apply unpair_closed.
Qed.

Lemma removed_closed s v ev s' w : removed s v ev s' → closed s' w ↔ closed s w ∨ w = v.
Proof.
  intros H. destruct (decide (w = v)) as [->|Hw].
  { destruct (rm_item _ _ _ _ H) as (e & E & Hf & _ & Hm). split; [by right|]. intros _.
    exists e. split_and!; [done|done|]. rewrite (rm_iters _ _ _ _ H). lia. }
  assert (Hfields : ∀ e e', core e' = core e → ev_fd e' = ev_fd e ∧ ev_mod_iter e' = ev_mod_iter e).
  { intros e e' Hc. split; [by apply (f_equal ev_fd) in Hc|by apply (f_equal ev_mod_iter) in Hc]. }
  unfold closed. rewrite (rm_iters _ _ _ _ H). split.
  - intros (e' & E' & ? & ?). left. destruct (lookup_lt_is_Some_2 (p_items s) w) as [e E].
    { rewrite <- (rm_length _ _ _ _ H). by eapply lookup_lt_Some. }
    destruct (rm_others _ _ _ _ H w e Hw E) as (e'' & E'' & [F1 F2]%Hfields).
    rewrite E' in E''. injection E'' as <-. exists e. split_and!; [done|congruence|lia].
  - intros [(e & E & ? & ?)|]; [|done].
    destruct (rm_others _ _ _ _ H w e Hw E) as (e' & E' & [F1 F2]%Hfields).
    exists e'. split_and!; [done|congruence|lia].
Qed.

Definition fd_of s v : Z := match p_items s !! v with Some ev => ev_fd ev | None => 0 end.

(** [s'] is [s] without the connections [D], deleted in this order. *)
Record deleted s (D : list nat) s' : Prop := {
  dl_max : p_max s' = p_max s;
  dl_iters : p_iters s' = p_iters s;
  dl_brk : p_brk s' = p_brk s;
  dl_nodup : NoDup D;
  dl_were d : d ∈ D → live s d;
  dl_live w : live s' w ↔ live s w ∧ w ∉ D;
  dl_closed w : closed s' w ↔ closed s w ∨ w ∈ D;
  dl_count : p_count s' = p_count s - Z.of_nat (length D);
  dl_log : p_log s' = p_log s ++ map (λ d, KClose (fd_of s d)) D;
  dl_others w e : live s w → w ∉ D → p_items s !! w = Some e →
    ∃ e', p_items s' !! w = Some e' ∧ core e' = core e;
  dl_chain d e w : d ∈ D → p_items s !! d = Some e → ev_pair e = Some w → w ∈ D ∨ closed s w;
  dl_roots : pushed (λ b, ∃ d e, d ∈ D ∧ p_items s !! d = Some e ∧ buff_in e b) (p_root_buff s) (p_root_buff s');
  dl_reported rep : reported s rep → reported s' rep;
  dl_scan offs : scan_ok s offs → scan_ok s' offs
}.

Lemma deleted_none s : deleted s [] s.
Proof.
  split; [done|done|done|constructor|..].
  - intros d H. by apply elem_of_nil in H.
  - intros w. split; [intros H; split; [done|apply not_elem_of_nil]|by intros [H _]].
  - intros w. split; [by left|]. intros [H|H]; [done|by apply elem_of_nil in H].
  - cbn. lia.
  - by rewrite app_nil_r.
  - intros w e _ _ E. by exists e.
  - intros d e w H. by apply elem_of_nil in H.
  - by intros P HP _.
  - done.
  - done.
Qed.

(** The state in which the pair is deleted after [v]: [e] no longer points back. *)
Definition unpaired v e (b : bool) s : poolhd := unpair v (if b then unpair e s else s).

Lemma unpaired_facts v e b s T : pool_wf s T →
  pool_wf (unpaired v e b s) T ∧ (∀ w, closed (unpaired v e b s) w ↔ closed s w).
Proof.
  intros H. unfold unpaired. destruct b; split; try by repeat apply unpair_wf.
  - intros w. by rewrite !unpair_closed.
  - intros w. by rewrite unpair_closed.
Qed.

Lemma unpaired_lookup v e b s w x : p_items s !! w = Some x →
  ∃ x', p_items (unpaired v e b s) !! w = Some x' ∧ (ev_fd x' = ev_fd x ∧ buff_in x' = buff_in x) ∧
    (w ≠ v → w ≠ e ∨ b = false → x' = x).
Proof.
  intros E. unfold unpaired, unpair. cbn. rewrite list_lookup_alter.
  destruct (decide (v = w)) as [->|].
  - destruct b; cbn; [rewrite list_lookup_alter; case_decide; subst|]; rewrite E; cbn;
      eexists; split_and!; try done.
  - destruct b; cbn; [rewrite list_lookup_alter; case_decide; subst|]; rewrite E; cbn;
      eexists; split_and!; try done; naive_solver.
Qed.

Lemma unpair_scan v s offs : scan_ok s offs → scan_ok (unpair v s) offs.
Proof.
  intros [Ho H]. split; [done|]. intros i w Hi Hw. destruct (H i w Hi Hw) as (e & E & Hm).
  destruct (unpair_lookup v s w e E) as (e' & E' & Hc & _). exists e'. split; [done|].
  apply (f_equal ev_mod_iter) in Hc. cbn in *. congruence.
Qed.

(** Deleting [v] and then, with the pointers cleared, what its pair leads to. *)
Lemma deleted_cons s T v ev s1 e b D s3 :
  pool_wf s T → live s v → p_items s !! v = Some ev → ev_pair ev = Some e →
  removed s v ev s1 →
  (b = true → ∃ x, p_items s1 !! e = Some x ∧ ev_pair x = Some v) →
  deleted (unpaired v e b s1) D s3 → (live (unpaired v e b s1) e → e ∈ D) →
  deleted s (v :: D) s3.
Proof.
  intros Hwf Hlv Ev Ep Hrm Hb Hd He. set (s2 := unpaired v e b s1) in *.
  assert (Hl2 : ∀ w, live s2 w ↔ live s w ∧ w ≠ v).
  { intros w. rewrite <- (rm_live _ _ _ _ Hrm). by destruct b. }
  assert (Hc2 : ∀ w, closed s2 w ↔ closed s w ∨ w = v).
  { intros w. rewrite <- (removed_closed _ _ _ _ w Hrm). subst s2. unfold unpaired.
    rewrite unpair_closed. destruct b; [apply unpair_closed|done]. }
  assert (Hsame : p_max s2 = p_max s1 ∧ p_iters s2 = p_iters s1 ∧ p_brk s2 = p_brk s1 ∧
    p_count s2 = p_count s1 ∧ p_log s2 = p_log s1) by (subst s2; by destruct b).
  destruct Hsame as (Q1 & Q2 & Q3 & Q4 & Q5).
  destruct Hrm as [R1 R2 R3 R4 R5 R6 R7 R8 R9 Rb R10 R11].
  destruct Hd as [D1 D2 D3 D4 D5 D6 D7 D8 D9 D10 D11 Db D12 D13].
  assert (HvD : v ∉ D) by (intros H; apply D5, Hl2 in H; by destruct H).
  assert (Hitem : ∀ w x, w ≠ v → p_items s !! w = Some x →
    ∃ x', p_items s2 !! w = Some x' ∧ (ev_fd x' = ev_fd x ∧ buff_in x' = buff_in x) ∧
      (w ≠ e ∨ b = false → core x' = core x)).
  { intros w x Hw E. destruct (R9 w x Hw E) as (x1 & E1 & Hc).
    destruct (unpaired_lookup v e b s1 w x1 E1) as (x2 & E2 & [Hf Hbf] & Hx). exists x2.
    split_and!; [done|..].
    - rewrite Hf. by apply (f_equal ev_fd) in Hc.
    - rewrite Hbf. unfold buff_in. apply (f_equal (λ e, (ev_buff e, ev_sq_buff e))) in Hc. cbn in Hc.
      by injection Hc as -> ->.
    - intros H. by rewrite Hx. }
  split; try congruence.
  - by constructor.
  - intros d [->|Hx]%elem_of_cons; [done|]. by apply D5, Hl2 in Hx as [? _].
  - intros w. rewrite D6, Hl2, not_elem_of_cons. tauto.
  - intros w. rewrite D7, Hc2, elem_of_cons. tauto.
  - cbn [length]. lia.
  - rewrite D9, Q5, R6, <- app_assoc. cbn [map app]. unfold fd_of at 2. rewrite Ev. do 2 f_equal.
    apply map_ext_in. intros d Hd%list_elem_of_In. apply D5, Hl2 in Hd as [Hd Hdv].
    destruct (live_lookup s T d Hwf Hd) as (_ & x & _ & _ & _ & E & _).
    destruct (Hitem d x Hdv E) as (x' & E' & [Hf _] & _). unfold fd_of. by rewrite E, E', Hf.
  - intros w x Hw [Hwv HwD]%not_elem_of_cons E.
    assert (Hwe : w ≠ e).
    { intros ->. apply HwD, He, Hl2. done. }
    destruct (Hitem w x Hwv E) as (x' & E' & _ & Hc). specialize (Hc (or_introl Hwe)).
    destruct (D10 w x' ltac:(by apply Hl2) HwD E') as (x'' & E'' & Hc'). exists x''.
    split; [done|congruence].
  - intros d x w [->|HdD]%elem_of_cons E Ex.
    + rewrite E in Ev. injection Ev as ->. rewrite Ep in Ex. injection Ex as <-.
      destruct (wf_pairs _ _ Hwf v ev e Hlv E Ep) as [Hle|]; [|by right]. left.
      destruct (decide (e = v)) as [->|Hev]; [by left|]. right. apply He, Hl2. done.
    + pose proof (D5 d HdD) as Hd. apply Hl2 in Hd as [_ Hdv].
      destruct (Hitem d x Hdv E) as (x' & E' & _ & Hc).
      assert (Hcase : w = v ∨ ev_pair x' = Some w).
      { destruct (decide (d = e ∧ b = true)) as [[-> Hbt]|Hne].
        - left. destruct (Hb Hbt) as (y & Ey & Hy). destruct (R9 e x Hdv E) as (x1 & E1 & Hc1).
          rewrite Ey in E1. injection E1 as <-. apply (f_equal ev_pair) in Hc1. cbn in Hc1. congruence.
        - right. specialize (Hc ltac:(destruct b; [left; intros ->; by apply Hne|by right])).
          apply (f_equal ev_pair) in Hc. cbn in Hc. congruence. }
      destruct Hcase as [->|Hx']; [left; by left|].
      destruct (D11 d x' w HdD E' Hx') as [|Hcw]; [left; by right|].
      apply Hc2 in Hcw as [|Hwv]; [by right|left; rewrite Hwv; by left].
  - intros P HP HbP. apply Db.
    + replace (p_root_buff s2) with (p_root_buff s1) by (subst s2; by destruct b). apply Rb; [done|].
      intros x Hx. apply HbP. exists v, ev. split_and!; [by left|done|done].
    + intros x (d & x1 & HdD & E1 & Hx). pose proof (D5 d HdD) as Hd. apply Hl2 in Hd as [Hd Hdv].
      destruct (live_lookup s T d Hwf Hd) as (_ & y & _ & _ & _ & E & _).
      destruct (Hitem d y Hdv E) as (y' & E' & [_ Hbf] & _). simplify_eq.
      apply HbP. exists d, y. split_and!; [by right|done|]. by rewrite <- Hbf.
  - intros rep Hr. apply D12. apply R10 in Hr. by destruct b.
  - intros offs Ho. apply D13. apply R11 in Ho. subst s2. unfold unpaired.
    apply unpair_scan. destruct b; [by apply unpair_scan|done].
Qed.

Lemma deleted_one s v ev s1 : live s v → p_items s !! v = Some ev → ev_pair ev = None →
  removed s v ev s1 → deleted s [v] s1.
Proof.
  intros Hl Ev Ep H. split; try apply H.
  - constructor; [apply not_elem_of_nil|constructor].
  - intros d Hd. apply list_elem_of_singleton in Hd. by subst.
  - intros w. rewrite list_elem_of_singleton. apply H.
  - intros w. rewrite list_elem_of_singleton. by eapply removed_closed.
  - rewrite (rm_log _ _ _ _ H). cbn. unfold fd_of. by rewrite Ev.
  - intros w e _ Hw. rewrite list_elem_of_singleton in Hw. by apply (rm_others _ _ _ _ H).
  - intros d e w Hd E Ex. apply list_elem_of_singleton in Hd. subst. congruence.
  - intros P HP Hb. refine (rm_roots _ _ _ _ H P HP _). intros b Hx. apply Hb.
    exists v, ev. split_and!; [by left|done|done].
Qed.

(** [del_event] deletes a live connection with everything that hangs on it by [pair],
    and does nothing to a closed one. *)
Lemma del_event_run fuel s T v :
  pool_wf s T → live s v ∨ closed s v → p_count s < Z.of_nat fuel →
  swp (del_event os fuel v) s (λ _ s', ∃ D T', pool_wf s' T' ∧ deleted s D s' ∧
    (live s v → ∃ D', D = v :: D') ∧ (closed s v → ¬ live s v → D = []) ∧ (∀ w, w ∈ T' → w ∈ T)).
Proof.
  revert s T v. induction fuel as [|fuel IH]; intros s T v Hwf Hv Hf.
  { pose proof (wf_count _ _ Hwf). lia. }
  cbn [del_event]. assert (Hit : ∃ ev, p_items s !! v = Some ev ∧ ev_mod_iter ev <= p_iters s ∧
    (live s v ∧ 0 < ev_fd ev ∨ ev_fd ev = -1)).
  { destruct Hv as [Hl|(ev & E & H1 & H2)]; [|by exists ev; auto].
    destruct (live_lookup s T v Hwf Hl) as (i & ev & pe & _ & _ & E & _ & [_ ? _ ?]).
    exists ev. auto. }
  destruct Hit as (ev & Ev & Hm & Hfd). sstep. eapply swp_item; [exact Ev|]. sstep. sstep. sstep.
  sstep. apply wp_assert; [lia|]. destruct Hfd as [[Hl Hfd]|Hfd].
  2: { rewrite Hfd. cbn [Z.eqb Pos.eqb]. sstep. exists [], T. split_and!; [done|apply deleted_none| |done|done].
       intros Hl. destruct (live_lookup s T v Hwf Hl) as (i & ev' & pe & _ & _ & E & _ & [_ ? _ ?]).
       rewrite Ev in E. injection E as <-. lia. }
  destruct (Z.eqb_spec (ev_fd ev) (-1)); [lia|].
  sstep. eapply swp_mono; [by apply del_one_ok|]. intros _ s1 [Hwf1 Hrm].
  sstep. apply (swp_mono _ _ (λ _ s', ∃ D T', pool_wf s' T' ∧ deleted s (v :: D) s' ∧ (∀ w, w ∈ T' → w ∈ T))).
  2: { intros _ s' (D & T' & Hwf' & Hd & Hsub). sstep. sstep. sstep. apply wp_assert.
       { pose proof (wf_count _ _ Hwf'). lia. }
       exists (v :: D), T'. split_and!; [done|done|by exists D|done|done]. }
  destruct (ev_pair ev) as [e|] eqn:Ep.
  - assert (Hlc : live s e ∨ closed s e) by (by eapply wf_pairs).
    assert (He : live s1 e ∨ closed s1 e).
    { rewrite (rm_live _ _ _ _ Hrm), (removed_closed _ _ _ _ _ Hrm).
      destruct (decide (e = v)); tauto. }
    assert (Hpe : ∃ pe, p_items s1 !! e = Some pe).
    { destruct He as [He|(pe & ? & _)]; [|by exists pe].
      destruct (live_lookup _ _ _ Hwf1 He) as (_ & pe & _ & _ & _ & ? & _). by exists pe. }
    destruct Hpe as [pe Epe]. sstep. eapply swp_item; [exact Epe|].
    set (b := bool_decide (ev_pair pe = Some v)).
    sstep. apply (swp_mono _ _ (λ _ s', s' = if b then unpair e s1 else s1)).
    { subst b. case_decide as Hb; [rewrite bool_decide_eq_true_2 by done|rewrite bool_decide_eq_false_2 by done].
      - apply swp_upd; [by exists pe|done].
      - by sstep. }
    intros _ ? ->. sstep.
    assert (Hvs : is_Some (p_items (if b then unpair e s1 else s1) !! v)).
    { destruct (rm_item _ _ _ _ Hrm) as (x & Ex & _). destruct b; [|by exists x].
      destruct (unpair_lookup e s1 v x Ex) as (x' & ? & _). by exists x'. }
    apply swp_upd; [done|]. fold (unpair v (if b then unpair e s1 else s1)).
    fold (unpaired v e b s1).
    destruct (unpaired_facts v e b s1 _ Hwf1) as [Hwf2 Hc2].
    eapply swp_mono.
    { apply (IH (unpaired v e b s1) (others v T) e Hwf2).
      - rewrite Hc2. destruct b; exact He.
      - replace (p_count (unpaired v e b s1)) with (p_count s1) by (by destruct b).
        rewrite (rm_count _ _ _ _ Hrm). lia. }
    intros _ s3 (D & T' & Hwf3 & Hd & HD & _ & Hsub). exists D, T'. split; [done|].
    split; [|intros w Hw%Hsub; by apply in_others in Hw as [? _]].
    eapply (deleted_cons s T v ev s1 e b D s3); try done.
    + intros Hb. apply bool_decide_eq_true in Hb. by exists pe.
    + intros Hle. destruct (HD Hle) as [D' ->]. by left.
  - sstep. exists [], (others v T). split; [done|]. split; [by eapply deleted_one|].
    intros w Hw. by apply in_others in Hw as [? _].
Qed.

Lemma del_event_ok fuel s T v :
  pool_wf s T → live s v ∨ closed s v → p_count s < Z.of_nat fuel →
  swp (del_event os fuel v) s (λ _ s', ∃ D T', pool_wf s' T' ∧ deleted s D s' ∧
    (live s v → ∃ D', D = v :: D') ∧ (closed s v → ¬ live s v → D = [])).
Proof.
  intros. eapply swp_mono; [by apply (del_event_run fuel s T v)|]. intros _ s' (D & T' & ? & ? & ? & ? & _).
  exists D, T'. by split_and!.
Qed.

(** ** Adding, arming, finding *)

Lemma init_pool_wf n its pes :
  0 <= n → length its = Z.to_nat n → length pes = Z.to_nat n → pool_wf (init_pool n its pes) [].
Proof.
  intros Hn H1 H2. split; cbn; rewrite ?length_insert, ?length_seq; try done; try lia.
  - apply NoDup_seq.
  - apply Forall_forall. intros v Hv. apply elem_of_seq in Hv. lia.
  - split; cbn; try done; constructor.
  - intros v (i & Hi & _). cbn in Hi. lia.
  - intros v ev w (i & Hi & _). cbn in Hi. lia.
Qed.

(** The connection [add_event] makes. *)
Definition fresh_eval (it i : Z) (cb : evcb) (fd : Z) : eval :=
  set_ev_cb cb (set_ev_index i (set_ev_fd fd (set_ev_mod_iter it zero_eval))).

Section add.
Context (s : poolhd) (T : list nat) (v n : nat) (cb : evcb) (fd e : Z).
Context (Hwf : pool_wf s T) (Hfd : 0 < fd) (Hn : p_count s = Z.of_nat n)
  (Hmax : p_count s < p_max s) (Hv : p_links s !! n = Some v).

Definition added : poolhd :=
  set_p_count (p_count s + 1)
    (set_p_pevents (<[n := Pollfd fd (Z.lor _POLLDEF e) 0]> (p_pevents s))
      (set_p_items (alter (λ _, fresh_eval (p_iters s) (Z.of_nat n) cb fd) v (p_items s)) s)).

Lemma add_not_live : ¬ live s v.
Proof. intros (i & Hi & Hw). pose proof (links_inj s T i n v Hwf Hw Hv). lia. Qed.

Lemma add_live w : live added w ↔ live s w ∨ w = v.
Proof.
  unfold live. cbn. split.
  - intros (i & Hi & Hw). destruct (decide (i = n)) as [->|].
    + right. congruence.
    + left. exists i. split; [lia|done].
  - intros [(i & Hi & Hw)| ->]; [exists i; split; [lia|done]|]. exists n. split; [lia|done].
Qed.

Lemma add_item w : w ≠ v → p_items added !! w = p_items s !! w.
Proof. intros Hw. cbn. by apply list_lookup_alter_ne. Qed.

Lemma add_item_v : p_items added !! v = Some (fresh_eval (p_iters s) (Z.of_nat n) cb fd).
Proof.
  cbn. rewrite list_lookup_alter_eq. pose proof (wf_range _ _ Hwf) as H.
  rewrite Forall_lookup in H. destruct (lookup_lt_is_Some_2 (p_items s) v) as [x ->]; [by apply (H n)|].
  done.
Qed.

Lemma add_closed w : w ≠ v → closed added w ↔ closed s w.
Proof. intros Hw. unfold closed. by rewrite add_item. Qed.

Lemma add_wf : pool_wf added T.
Proof.
  assert (HvT : v ∉ T).
  { intros H. pose proof (wf_timers_live _ _ Hwf) as HT. rewrite Forall_forall in HT.
    by apply add_not_live, HT. }
  split; try apply Hwf; cbn -[added].
  - unfold added. cbn. rewrite length_alter. apply Hwf.
  - cbn. rewrite length_alter. apply Hwf.
  - cbn. rewrite length_insert. apply Hwf.
  - cbn. pose proof (wf_count _ _ Hwf). lia.
  - intros i w Hi Hw. destruct (decide (i = n)) as [->|Hin].
    + cbn in Hw. assert (w = v) as -> by congruence. rewrite add_item_v.
      eexists _, _. split_and!; [done| |].
      * cbn. apply list_lookup_insert_eq. rewrite (wf_pevents _ _ Hwf). lia.
      * split; cbn; done || lia.
    + cbn in Hi, Hw. destruct (wf_live _ _ Hwf i w ltac:(lia) Hw) as (ev & pe & E & Ep & Hok).
      exists ev, pe. rewrite add_item.
      2: { intros ->. by apply add_not_live; exists i; split; [lia|]. }
      split_and!; [done| |by destruct Hok]. cbn. rewrite list_lookup_insert_ne by done. done.
  - apply (timers_ext s); [done|done| |apply Hwf]. intros w Hw. rewrite add_item; [done|]. by intros ->.
  - eapply Forall_impl; [apply (wf_timers_live _ _ Hwf)|]. intros w Hw. apply add_live. by left.
  - intros w Hw HwT. destruct (decide (w = v)) as [->|Hwv].
    + eexists. split; [apply add_item_v|done].
    + apply add_live in Hw as [Hw|]; [|done].
      apply (no_links_ext (p_items s)); [by rewrite add_item|]. by apply (wf_others _ _ Hwf).
  - intros w x y Hw E Ey. destruct (decide (w = v)) as [->|Hwv].
    { rewrite add_item_v in E. injection E as <-. done. }
    apply add_live in Hw as [Hw|]; [|done]. rewrite add_item in E by done.
    destruct (decide (y = v)) as [->|Hy]; [left; apply add_live; by right|].
    destruct (wf_pairs _ _ Hwf w x y Hw E Ey) as [|]; [left; apply add_live; by left|right].
    by apply add_closed.
Qed.

Lemma add_reported rep : reported s rep → reported added rep.
Proof.
  intros H i pe Hi. cbn in Hi |- *. rewrite list_lookup_insert. case_decide as Hc.
  - by intros [= <-].
  - intros E. apply (H i); [|done]. assert (i ≠ n); [|lia]. intros ->. apply Hc. split; [done|].
    by eapply lookup_lt_Some.
Qed.

Lemma add_scan offs : scan_ok s offs → scan_ok added offs.
Proof.
  intros [Ho H]. split; [done|]. intros i w Hi Hw. cbn in Hi, Hw.
  destruct (H i w ltac:(lia) Hw) as (x & E & Hm). exists x. rewrite add_item; [done|].
  intros ->. pose proof (links_inj s T i n v Hwf Hw Hv). lia.
Qed.

Lemma add_event_at : swp (add_event cb fd e) s (λ r s', r = Some v ∧ s' = added).
Proof.
  unfold add_event. sstep. sstep. apply wp_assert; [by apply Z.ltb_lt|]. sstep. sstep. sstep. sstep.
  destruct (Z.leb_spec (p_max s) (p_count s)); [lia|]. sstep. sstep. sstep. sstep.
  eapply wp_geti; [lia|rewrite Hn, Nat2Z.id; exact Hv|]. sstep. sstep. sstep.
  apply swp_upd.
  { apply lookup_lt_is_Some_2. pose proof (wf_range _ _ Hwf) as Hr. rewrite Forall_lookup in Hr.
    by apply (Hr n). }
  sstep. sstep. sstep. sstep. cbn [p_pevents set_p_items].
  destruct (lookup_lt_is_Some_2 (p_pevents s) n) as [pe Epe].
  { rewrite (wf_pevents _ _ Hwf). lia. }
  eapply wp_geti; [lia|rewrite Hn, Nat2Z.id; exact Epe|]. sstep. sstep. sstep. sstep. sstep.
  split; [done|]. unfold added, fresh_eval. rewrite Hn, Nat2Z.id. cbn. by rewrite Hn.
Qed.
End add.

Lemma add_event_full cb fd e s : 0 < fd → p_max s <= p_count s →
  add_event cb fd e s = Ok (None, s).
Proof.
  intros Hfd Hc. unfold add_event. cbv [mbind st_bind comp_bind lift gets cassert mret st_ret].
  destruct (Z.ltb_spec 0 fd); [|lia]. destruct (Z.leb_spec (p_max s) (p_count s)); [done|lia].
Qed.

(** ** The scan for events *)

(** The slot holds an event for a connection that this round has not touched. *)
Definition pending s (i : nat) : Prop :=
  ∃ v ev pe, p_links s !! i = Some v ∧ p_items s !! v = Some ev ∧ p_pevents s !! i = Some pe ∧
    pf_revents pe ≠ 0 ∧ ev_mod_iter ev ≠ p_iters s.

Definition cleared i s : poolhd := set_p_pevents (alter (set_revents 0) i (p_pevents s)) s.

(** What the scan returns for the slot [i]. *)
Definition found s (i : nat) (r : option nat * Z * Z) s' : Prop :=
  ∃ v ev pe, r = (Some v, Z.of_nat i - 1, pf_revents pe) ∧ s' = cleared i s ∧ Z.of_nat i < p_count s ∧
    p_links s !! i = Some v ∧ p_items s !! v = Some ev ∧ p_pevents s !! i = Some pe ∧
    pf_revents pe ≠ 0 ∧ ev_mod_iter ev < p_iters s ∧ pf_fd pe = ev_fd ev.

Lemma scan_slot_ok s T i typel :
  pool_wf s T → scan_ok s (Z.of_nat i) →
  swp (scan_slot (Z.of_nat i) typel) s (λ r s',
    match r with
    | inl x => s' = s ∧ x = (Z.of_nat i - 1, typel) ∧ ¬ pending s i
    | inr y => found s i y s'
    end).
Proof.
  intros Hwf [Ho Hs]. unfold scan_slot. sstep. sstep. sstep. sstep.
  destruct (lookup_lt_is_Some_2 (p_pevents s) i) as [pe Epe]; [rewrite (wf_pevents _ _ Hwf); lia|].
  eapply wp_geti; [lia|rewrite Nat2Z.id; exact Epe|].
  destruct (Z.eqb_spec (pf_revents pe) 0) as [Hr|Hr].
  { sstep. split_and!; [done|done|]. intros (v & ev & pe' & _ & _ & E & Hr' & _). congruence. }
  destruct (lookup_lt_is_Some_2 (p_links s) i) as [v Ev]; [rewrite (wf_links _ _ Hwf); lia|].
  assert (Hit : ∃ ev, p_items s !! v = Some ev ∧ (Z.of_nat i < p_count s ∧ slot_ok s i ev pe ∨
    p_count s <= Z.of_nat i ∧ ev_mod_iter ev = p_iters s)).
  { destruct (Z.lt_ge_cases (Z.of_nat i) (p_count s)) as [Hlt|Hge].
    - destruct (wf_live _ _ Hwf i v Hlt Ev) as (ev & pe' & E & Ep & Hok). rewrite Epe in Ep.
      injection Ep as <-. exists ev. auto.
    - destruct (Hs i v ltac:(lia) Ev) as (ev & E & Hm). exists ev. auto. }
  destruct Hit as (ev & E & Hcase). sstep. sstep. sstep. sstep.
  eapply wp_geti; [lia|rewrite Nat2Z.id; exact Ev|]. sstep. eapply swp_item; [exact E|].
  sstep. sstep. sstep. sstep. sstep. sstep. apply wp_assert.
  { destruct Hcase as [[? _]|[_ ->]]; [lia|]. rewrite Z.eqb_refl. apply orb_true_r. }
  destruct (Z.eqb_spec (ev_mod_iter ev) (p_iters s)) as [Hm|Hm].
  { sstep. split_and!; [done|done|]. intros (v' & ev' & pe' & E1 & E2 & _ & _ & H). congruence. }
  destruct Hcase as [[Hlt [_ _ Hp Hle]]|[_ Hm']]; [|done].
  sstep. sstep. sstep. rewrite Nat2Z.id. exists v, ev, pe. split_and!; try done. lia.
Qed.

Lemma scan_ok_mono s i j : scan_ok s j → -1 <= i <= j → scan_ok s i.
Proof. intros [H1 H2] Hi. split; [lia|]. intros k v Hk. apply H2. lia. Qed.

(** The scan below a slot that has a pending event finds one. *)
Lemma scan_finds ms offs s T i typel fuel :
  pool_wf s T → scan_ok s (Z.of_nat i) → (∃ k, (k <= i)%nat ∧ pending s k) → (i < fuel)%nat →
  swp (sloop (next_event_body os ms offs) fuel (Z.of_nat i, typel)) s (λ r s', ∃ k, found s k r s').
Proof.
  revert i. induction fuel as [|fuel IH]; intros i Hwf Hs Hp Hf; [lia|]. apply swp_sloop_step.
  unfold next_event_body at 1. pose proof (proj1 Hs). sstep. sstep. sstep. sstep.
  apply wp_assert; [lia|]. destruct (Z.ltb_spec (Z.of_nat i) 0); [lia|].
  eapply swp_mono; [by apply (scan_slot_ok s T)|]. intros [x|y] s'; [|by exists i].
  intros (-> & -> & Hnp). destruct Hp as (k & Hk & Hp).
  destruct (decide (k = i)) as [->|]; [done|]. replace (Z.of_nat i - 1) with (Z.of_nat (i - 1)) by lia.
  apply IH; [done| |exists k; split; [lia|done]|lia]. eapply scan_ok_mono; [exact Hs|lia].
Qed.

(** The pool after [poll] has reported [rev]. *)
Definition polled (a : answer) (c : call) s : poolhd :=
  set_p_pevents
    (imap (λ k p, if Z.of_nat k <? p_count s then set_revents (nth k (a_rev a) 0) p else p)
       (p_pevents s)) (set_p_log (p_log s ++ [c]) s).
Definition poll_of ms s : call :=
  KPoll (map (λ p, (pf_fd p, pf_events p)) (take (Z.to_nat (p_count s)) (p_pevents s))) ms.
(** What it reported, for each descriptor. *)
Definition report (a : answer) s : list (Z * Z) :=
  imap (λ k p, (pf_fd p, nth k (a_rev a) 0)) (take (Z.to_nat (p_count s)) (p_pevents s)).

Definition next_round s : poolhd := set_p_iters (u64 (p_iters s + 1)) s.

Lemma polled_lookup a c s k p : p_pevents s !! k = Some p →
  p_pevents (polled a c s) !! k =
    Some (if Z.of_nat k <? p_count s then set_revents (nth k (a_rev a) 0) p else p).
Proof. intros E. cbn. by rewrite list_lookup_imap, E. Qed.

Lemma polled_wf a c s T : pool_wf s T → pool_wf (polled a c s) T.
Proof.
  intros Hwf. destruct Hwf as [H1 H2 H3 H4 H5 H6 H7 H8 H9 H10 H11 H12].
  split; try done; cbn -[polled].
  - cbn. by rewrite length_imap.
  - intros k v Hk Hv. destruct (H7 k v Hk Hv) as (ev & pe & E & Ep & [O1 O2 O3 O4]).
    exists ev. eexists. split_and!; [done|by apply polled_lookup|]. split; try done.
    by destruct (_ <? _).
  - by apply (timers_ext s).
Qed.

Lemma polled_reported a c s : reported (polled a c s) (report a s).
Proof.
  intros k pe Hk E Hr. cbn in Hk. destruct (p_pevents s !! k) as [p|] eqn:Ep.
  2: { cbn in E. by rewrite list_lookup_imap, Ep in E. }
  rewrite (polled_lookup _ _ _ _ _ Ep) in E. destruct (Z.ltb_spec (Z.of_nat k) (p_count s)); [|lia].
  injection E as <-. apply list_elem_of_lookup. exists k. unfold report.
  rewrite list_lookup_imap, lookup_take_lt, Ep by lia. done.
Qed.

Lemma next_round_wf s T : pool_wf s T → 0 <= p_iters s < 2 ^ 64 - 1 → pool_wf (next_round s) T.
Proof.
  intros Hwf Hit. assert (Hu : u64 (p_iters s + 1) = p_iters s + 1) by (apply Z.mod_small; lia).
  destruct Hwf as [H1 H2 H3 H4 H5 H6 H7 H8 H9 H10 H11 H12].
  split; try done; cbn -[next_round].
  - intros k v Hk Hv. destruct (H7 k v Hk Hv) as (ev & pe & E & Ep & [O1 O2 O3 O4]).
    exists ev, pe. split_and!; try done. split; try done. cbn. lia.
  - by apply (timers_ext s).
  - intros v ev w Hv E Ew. destruct (H11 v ev w Hv E Ew) as [|(x & ? & ? & ?)]; [by left|right].
    exists x. split_and!; try done. cbn. lia.
Qed.

Lemma poll_events_ok ms typel s :
  let a := os (p_log s ++ [poll_of ms s]) in
  swp (poll_events os ms typel) s (λ r s',
    r = (a_ret a, if a_ret a =? 0 then POLLTIMEOUT else typel) ∧ s' = polled a (poll_of ms s) s).
Proof. done. Qed.

(** [poll] returns a positive number only when some descriptor has an event. *)
Definition poll_ok : Prop := ∀ l fds ms,
  let a := os (l ++ [KPoll fds ms]) in
  0 < a_ret a → ∃ k, (k < length fds)%nat ∧ nth k (a_rev a) 0 ≠ 0.

(** What [next_event] promises: a live connection that no one touched since the last
    [poll], with the events that [poll] reported for its descriptor; or the failure or
    the timeout of [poll]. *)
(** The same connections at the same places, with the same free buffers. *)
Definition same_conns s s' : Prop :=
  (p_items s' = p_items s ∧ p_links s' = p_links s ∧ p_count s' = p_count s ∧ p_max s' = p_max s ∧
   p_root_buff s' = p_root_buff s ∧ p_tv_start s' = p_tv_start s) ∧ p_iters s <= p_iters s' <= p_iters s + 1.

Definition event_ok ms s T rep offs typel (r : option nat * Z * Z) s' : Prop :=
  let a := os (p_log s ++ [poll_of ms s]) in
  pool_wf s' T ∧
  match r with
  | (Some v, offs', type) =>
      live s' v ∧ scan_ok s' offs' ∧ type ≠ 0 ∧ same_conns s s' ∧
      ∃ ev rep', p_items s' !! v = Some ev ∧ ev_mod_iter ev < p_iters s' ∧
        reported s' rep' ∧ (ev_fd ev, type) ∈ rep' ∧
        (p_log s' = p_log s ∧ rep' = rep ∨
         p_log s' = p_log s ++ [poll_of ms s] ∧ rep' = report a s)
  | (None, offs', type) =>
      offs' = offs ∧ a_ret a <= 0 ∧ type = (if a_ret a =? 0 then POLLTIMEOUT else typel) ∧
      s' = polled a (poll_of ms s) s
  end.

Lemma cleared_lookup i s k : p_pevents (cleared i s) !! k =
  if decide (i = k) then set_revents 0 <$> p_pevents s !! k else p_pevents s !! k.
Proof. cbn. rewrite list_lookup_alter. case_decide; by subst. Qed.

Lemma cleared_wf i s T : pool_wf s T → pool_wf (cleared i s) T.
Proof.
  intros Hwf. destruct Hwf as [H1 H2 H3 H4 H5 H6 H7 H8 H9 H10 H11 H12].
  split; try done; cbn -[cleared].
  - cbn. by rewrite length_alter.
  - intros k v Hk Hv. destruct (H7 k v Hk Hv) as (ev & pe & E & Ep & [O1 O2 O3 O4]).
    rewrite cleared_lookup, Ep. case_decide; eexists _, _; (split_and!; [done|done|by split]).
  - by apply (timers_ext s).
Qed.

Lemma cleared_reported i s rep : reported s rep → reported (cleared i s) rep.
Proof.
  intros H k pe Hk. rewrite cleared_lookup. case_decide; [|by apply H].
  destruct (p_pevents s !! k) as [p|]; [|done]. by intros [= <-].
Qed.

Lemma found_ok s T rep i r s' : pool_wf s T → reported s rep → scan_ok s (Z.of_nat i) →
  found s i r s' →
  pool_wf s' T ∧ p_log s' = p_log s ∧ ∃ v offs' type ev, r = (Some v, offs', type) ∧
    live s' v ∧ scan_ok s' offs' ∧ type ≠ 0 ∧ p_items s' !! v = Some ev ∧
    ev_mod_iter ev < p_iters s' ∧ reported s' rep ∧ (ev_fd ev, type) ∈ rep.
Proof.
  intros Hwf Hr Hs (v & ev & pe & -> & -> & Hi & Hv & E & Ep & Hne & Hm & Hf).
  split; [by apply cleared_wf|]. split; [done|]. exists v, (Z.of_nat i - 1), (pf_revents pe), ev.
  split_and!; try done; [by exists i| |by apply cleared_reported|].
  - apply scan_ok_mono with (j := Z.of_nat i); [exact Hs|lia].
  - rewrite <- Hf. by apply (Hr i).
Qed.

(** After a poll that reported something, some slot is pending. *)
Lemma polled_pending ms s T : poll_ok → pool_wf s T → 0 <= p_iters s < 2 ^ 64 - 1 →
  let a := os (p_log s ++ [poll_of ms s]) in
  0 < a_ret a →
  ∃ k, Z.of_nat k < p_count s ∧ pending (next_round (polled a (poll_of ms s) s)) k.
Proof.
  intros Hpoll Hwf Hit a Ha. destruct (Hpoll (p_log s) _ ms Ha) as (k & Hk & Hr).
  rewrite length_map, length_take, (wf_pevents _ _ Hwf) in Hk.
  destruct (lookup_lt_is_Some_2 (p_links s) k) as [v Ev]; [rewrite (wf_links _ _ Hwf); lia|].
  destruct (wf_live _ _ Hwf k v ltac:(lia) Ev) as (ev & pe & E & Ep & [_ _ _ O4]).
  exists k. split; [lia|]. exists v, ev. eexists.
  split_and!; [done|done|by apply polled_lookup| |].
  - destruct (Z.ltb_spec (Z.of_nat k) (p_count s)); [exact Hr|lia].
  - assert (Hu : u64 (p_iters s + 1) = p_iters s + 1) by (apply Z.mod_small; lia). cbn. lia.
Qed.

Lemma next_event_ok ms s T rep offs typel fuel :
  poll_ok → pool_wf s T → reported s rep → scan_ok s offs → 0 <= p_iters s < 2 ^ 64 - 1 →
  (Z.to_nat (offs + 1) + Z.to_nat (p_count s) + 2 <= fuel)%nat →
  swp (next_event os fuel offs typel ms) s (event_ok ms s T rep offs typel).
Proof.
  intros Hpoll Hwf Hrep Hs Hit Hf. unfold next_event.
  assert (H : ∀ n i fuel, i = Z.of_nat n - 1 → scan_ok s i → (n + Z.to_nat (p_count s) + 2 <= fuel)%nat →
    swp (sloop (next_event_body os ms offs) fuel (i, typel)) s (event_ok ms s T rep offs typel)).
  2: { apply (H (Z.to_nat (offs + 1))); [destruct Hs; lia|done|done]. }
  clear Hs Hf fuel. intros n. induction n as [|n IH]; intros i fuel Ei Hs Hf;
    (destruct fuel as [|fuel]; [lia|]); apply swp_sloop_step; unfold next_event_body at 1;
    pose proof (proj1 Hs); sstep; sstep; sstep; sstep; (apply wp_assert; [lia|]);
    (destruct (Z.ltb_spec i 0); [try lia|try lia]).
  - sstep. eapply swp_mono; [apply poll_events_ok|]. intros ? ? [-> ->].
    set (a := os _). cbn beta iota. set (s1 := polled a (poll_of ms s) s).
    destruct (Z.leb_spec (a_ret a) 0) as [Hle|Hgt]; sstep.
    { split; [by apply polled_wf|]. fold a s1. done. }
    destruct (polled_pending ms s T Hpoll Hwf Hit Hgt) as (k & Hk & Hp). fold a s1 in Hp.
    sstep. sstep. sstep. fold (next_round s1). change (p_count s1) with (p_count s).
    assert (Hwf1 : pool_wf (next_round s1) T) by (apply next_round_wf; [by apply polled_wf|done]).
    pose proof (wf_count _ _ Hwf).
    assert (Hs1 : scan_ok (next_round s1) (p_count s - 1)).
    { split; [cbn; lia|]. intros j v Hj. cbn in Hj. lia. }
    assert (Hr1 : reported (next_round s1) (report a s)) by apply polled_reported.
    assert (Hfin : ∀ j r s', Z.of_nat j <= p_count s - 1 → found (next_round s1) j r s' →
      event_ok ms s T rep offs typel r s').
    { intros j r s' Hj Hfd. destruct (found_ok _ T (report a s) j r s' Hwf1 Hr1) as
        (W & L & v & o & t & ev & -> & Hv & Ho & Ht & E & Hm & Hrp & Hin); [|done|].
      { eapply scan_ok_mono; [exact Hs1|lia]. }
      split; [done|]. split_and!; try done; [|exists ev, (report a s); split_and!; try done; right; by rewrite L].
      destruct Hfd as (? & ? & ? & _ & -> & _). assert (u64 (p_iters s + 1) = p_iters s + 1) by (apply u64_small; lia).
      split; [done|]. cbn. lia. }
    assert (Hj : p_count s - 1 = Z.of_nat (Z.to_nat (p_count s - 1))) by lia.
    rewrite Hj in Hs1 |- *. eapply swp_mono; [by apply (scan_slot_ok _ T)|].
    intros [x|y] s'; [|apply Hfin; lia]. intros (-> & -> & Hnp).
    assert (k ≠ Z.to_nat (p_count s - 1)) by (intros ->; done).
    replace (Z.of_nat (Z.to_nat (p_count s - 1)) - 1) with (Z.of_nat (Z.to_nat (p_count s - 2))) by lia.
    eapply swp_mono; [apply (scan_finds ms offs (next_round s1) T)|].
    + done.
    + eapply scan_ok_mono; [exact Hs1|lia].
    + exists k. split; [lia|done].
    + lia.
    + intros r s' (j & Hfd). apply (Hfin j); [|done]. destruct Hfd as (? & ? & ? & _ & _ & Hc & _).
      cbn in Hc. lia.
  - subst i. replace (Z.of_nat (S n) - 1) with (Z.of_nat n) in * by lia.
    eapply swp_mono; [by apply (scan_slot_ok s T)|]. intros [x|y] s'.
    + intros (-> & -> & _). apply IH; [done| |lia]. eapply scan_ok_mono; [exact Hs|lia].
    + intros Hfd. destruct (found_ok s T rep n y s' Hwf Hrep Hs Hfd) as
        (W & L & v & o & t & ev & -> & Hv & Ho & Ht & E & Hm & Hrp & Hin).
      split; [done|]. split_and!; try done; [|exists ev, rep; split_and!; try done; by left].
      destruct Hfd as (? & ? & ? & _ & -> & _). split; [done|]. cbn. lia.
Qed.

(** ** Tearing down *)

Lemma live_link s T : pool_wf s T → 0 < p_count s → ∃ v, p_links s !! 0%nat = Some v ∧ live s v.
Proof.
  intros Hwf Hc. pose proof (wf_count _ _ Hwf).
  destruct (lookup_lt_is_Some_2 (p_links s) 0) as [v Ev]; [rewrite (wf_links _ _ Hwf); lia|].
  exists v. split; [done|]. exists 0%nat. split; [lia|done].
Qed.

(** [destroy_pool] closes every descriptor of a live connection exactly once. *)
Lemma destroy_pool_ok s T fuel :
  pool_wf s T → p_count s < Z.of_nat fuel →
  swp (destroy_pool os fuel) s (λ _ s', ∃ D, NoDup D ∧ (∀ v, v ∈ D ↔ live s v) ∧ p_count s' = 0 ∧
    p_log s' = p_log s ++ map (λ d, KClose (fd_of s d)) D).
Proof.
  intros Hwf Hf. unfold destroy_pool.
  assert (H : ∀ n s T, pool_wf s T → p_count s <= Z.of_nat n → p_count s < Z.of_nat fuel →
    ∀ k, (n < k)%nat →
    swp (sloop (λ _ : unit, count ← gets p_count;
      if count =? 0 then mret (inr tt) else
      links ← gets p_links; val ← lift (geti links 0);
      del_event os fuel val;; mret (inl tt)) k tt) s (λ _ s', ∃ D, NoDup D ∧ (∀ v, v ∈ D ↔ live s v) ∧
        p_count s' = 0 ∧ p_log s' = p_log s ++ map (λ d, KClose (fd_of s d)) D)).
  2: { eapply (H (Z.to_nat (p_count s))); [done| |done|]; pose proof (wf_count _ _ Hwf); lia. }
  clear Hwf Hf T s. intros n. induction n as [|n IH]; intros s T Hwf Hc Hf k Hk;
    (destruct k as [|k]; [lia|]); apply swp_sloop_step; sstep; sstep; pose proof (wf_count _ _ Hwf);
    (destruct (Z.eqb_spec (p_count s) 0) as [E0|E0]; [|try lia]).
  1, 2: sstep; exists []; split_and!; [constructor| |done|by rewrite app_nil_r];
    intros v; split; [intros Hv; by apply elem_of_nil in Hv|intros (i & Hi & _); lia].
  sstep. sstep. destruct (live_link s T Hwf) as (v & Ev & Hl); [lia|]. sstep. sstep.
  eapply wp_geti; [lia|exact Ev|]. sstep.
  eapply swp_mono; [apply (del_event_ok fuel s T v Hwf (or_introl Hl) Hf)|].
  intros _ s1 (D & T1 & Hwf1 & Hd & HD & _). destruct (HD Hl) as [D' ED]. sstep.
  pose proof (dl_count _ _ _ Hd) as Hc1. rewrite ED in Hc1. cbn [length] in Hc1.
  eapply swp_mono; [apply (IH s1 T1 Hwf1); lia|].
  intros _ s2 (D2 & N2 & H2 & C2 & L2). exists (D ++ D2). split_and!.
  - apply NoDup_app. split_and!; [apply Hd| |done]. intros d Hd1 Hd2. apply H2, Hd in Hd2 as [_ ?]. done.
  - intros w. rewrite elem_of_app, H2, (dl_live _ _ _ Hd). split.
    + intros [Hw|[? _]]; [by apply Hd|done].
    + intros Hw. destruct (decide (w ∈ D)); auto.
  - done.
  - rewrite L2, (dl_log _ _ _ Hd), map_app, <- app_assoc. do 2 f_equal.
    apply map_ext_in. intros d Hd2%list_elem_of_In. apply H2, Hd in Hd2 as [Hl2 HdD].
    destruct (live_lookup s T d Hwf Hl2) as (_ & x & _ & _ & _ & E & _).
    destruct (dl_others _ _ _ Hd d x Hl2 HdD E) as (x' & E' & Hcore). unfold fd_of. rewrite E, E'.
    by apply (f_equal ev_fd) in Hcore; cbn in Hcore; rewrite Hcore.
Qed.

(** ** Other changes of a connection *)

(** Assigning fields that the pool does not look at, or a pointer to a live pair. *)
Lemma item_wf s T v f : pool_wf s T →
  (∀ e, tv_fields (f e) = tv_fields e ∧ ev_fd (f e) = ev_fd e ∧ ev_index (f e) = ev_index e ∧
    ev_mod_iter (f e) = ev_mod_iter e ∧
    (ev_pair (f e) = ev_pair e ∨ ∀ w, ev_pair (f e) = Some w → live s w ∨ closed s w)) →
  pool_wf (set_p_items (alter f v (p_items s)) s) T.
Proof.
  intros Hwf Hf.
  assert (Htv : ∀ w, tv_fields <$> alter f v (p_items s) !! w = tv_fields <$> p_items s !! w).
  { intros w. rewrite list_lookup_alter. case_decide; [|done]. subst.
    destruct (p_items s !! w) as [e|]; [|done]. cbn. by destruct (Hf e) as [-> _]. }
  assert (Hlk : ∀ w e, p_items s !! w = Some e → ∃ e', alter f v (p_items s) !! w = Some e' ∧
    (e' = e ∨ e' = f e)).
  { intros w e E. destruct (decide (v = w)) as [->|].
    - rewrite list_lookup_alter_eq, E. eauto.
    - rewrite list_lookup_alter_ne by done. eauto. }
  assert (Hcl : ∀ w, closed s w → closed (set_p_items (alter f v (p_items s)) s) w).
  { intros w (e & E & H1 & H2). destruct (Hlk w e E) as (e' & E' & He). exists e'. split; [exact E'|].
    destruct (Hf e) as (_ & F1 & _ & F2 & _). destruct He as [-> | ->]; rewrite ?F1, ?F2; done. }
  destruct Hwf as [H1 H2 H3 H4 H5 H6 H7 H8 H9 H10 H11 H12].
  split; try done; try (by cbn; rewrite length_alter).
  - intros i w Hi Hw. destruct (H7 i w Hi Hw) as (e & p & E & Hp & [O1 O2 O3 O4]).
    destruct (Hlk w e E) as (e' & E' & He). exists e', p. split_and!; [done|done|].
    destruct (Hf e) as (_ & F1 & F2 & F3 & _).
    destruct He as [-> | ->]; split; rewrite ?F1, ?F2, ?F3; done.
  - by apply (timers_ext s).
  - intros w Hw HwT. apply (no_links_ext (p_items s)); [apply Htv|]. by apply H10.
  - intros w e x Hw E Ex. pose proof Hw as (i & Hi & Hl). destruct (H7 i w Hi Hl) as (e0 & _ & E0 & _).
    destruct (Hlk w e0 E0) as (e' & E' & He). cbn in E. rewrite E in E'. injection E' as <-.
    assert (Hx : live s x ∨ closed s x).
    { destruct He as [-> | ->]; [by eapply H11|]. destruct (Hf e0) as (_ & _ & _ & _ & [F|F]); [|by apply F].
      rewrite F in Ex. by eapply H11. }
    destruct Hx as [|Hx]; [by left|right; by apply Hcl].
Qed.

(** The timer that is due first fires when its time has come. *)
Lemma next_event_tv_due s v T offs typel fuel :
  timers s (v :: T) →
  s32 (tvms (p_items s) v - s32 (a_ret (os (p_log s ++ [KTimeMs])))) <= 0 →
  swp (next_event_tv os fuel offs typel) s (λ r s',
    r = (Some v, offs, POLLTIMEOUT) ∧ timers s' T ∧
    same_but_timers (set_p_log (p_log s ++ [KTimeMs]) s) s').
Proof.
  intros Ht Hdue. pose proof Ht as [Hnd Hst _ Hseg _ _]. destruct Hseg as [(ev & Ev & _) _].
  apply NoDup_cons in Hnd as [Hv Hnd]. unfold tvms in Hdue. rewrite Ev in Hdue.
  unfold next_event_tv. sstep. sstep. rewrite Hst. cbn [hd_or]. sstep. eapply swp_item; [exact Ev|].
  sstep. apply swp_kret. destruct (Z.ltb_spec 0 (s32 (ev_tv_ms ev - s32 (a_ret (os (p_log s ++ [KTimeMs])))))); [lia|].
  sstep. sstep. cbv beta iota. sstep. sstep. cbn [p_tv_start set_p_log]. rewrite Hst. cbn [hd_or].
  change (POLLTIMEOUT =? POLLTIMEOUT) with true. cbv iota. sstep.
  eapply swp_mono; [apply (remove_timer_ok _ (v :: T)); [|by left; left]|].
  { by apply (timers_ext s). }
  intros _ s' (H1 & H2 & _). sstep. rewrite others_cons, others_notin in H1 by done. done.
Qed.
End conev_lemmas.

(** * Properties *)

(** A pool of four connections, the first two of which are in use and paired. *)
Definition sample_pool : poolhd :=
  match (a ← add_event on_accept 5 POLLIN; b ← add_event on_tunnel 7 POLLIN;
         upd_item 0 (set_ev_pair (Some 1%nat));; upd_item 1 (set_ev_pair (Some 0%nat));; mret (a, b))
        (init_pool 4 (repeat zero_eval 4) (repeat (Pollfd 0 0 0) 4)) with
  | Ok (_, s) => s
  | Fail _ => init_pool 0 [] []
  end.

(** A system in which the time is 1000 and a poll reports a readable second socket. *)
Definition os_sample (l : list call) : answer :=
  match list.last l with
  | Some (KPoll (_ :: _ :: _) _) => Answer 1 [] [] [0; POLLIN]
  | Some KTimeMs => Answer 1000 [] [] []
  | _ => Answer 0 [] [] []
  end.

Lemma sample_pool_wf : pool_wf sample_pool [].
Proof.
  pose proof (init_pool_wf 4 (repeat zero_eval 4) (repeat (Pollfd 0 0 0) 4) ltac:(lia) eq_refl eq_refl) as H0.
  set (s0 := init_pool _ _ _) in H0.
  pose proof (add_wf s0 [] 0 0 on_accept 5 POLLIN H0 ltac:(lia) eq_refl ltac:(reflexivity) eq_refl) as H1.
  pose proof (add_wf _ [] 1 1 on_tunnel 7 POLLIN H1 ltac:(lia) eq_refl ltac:(reflexivity) eq_refl) as H2.
  set (s2 := added (added s0 0 0 on_accept 5 POLLIN) 1 1 on_tunnel 7 POLLIN) in H2.
  assert (L0 : live s2 0%nat) by (exists 0%nat; by vm_compute).
  assert (L1 : live s2 1%nat) by (exists 1%nat; by vm_compute).
  pose proof (item_wf s2 [] 0 (set_ev_pair (Some 1%nat)) H2) as H3.
  pose proof (item_wf (set_p_items (alter (set_ev_pair (Some 1%nat)) 0%nat (p_items s2)) s2) [] 1
    (set_ev_pair (Some 0%nat))) as H4.
  assert (E : sample_pool = set_p_items (alter (set_ev_pair (Some 0%nat)) 1%nat
    (alter (set_ev_pair (Some 1%nat)) 0%nat (p_items s2))) s2) by (by vm_compute).
  rewrite E. apply H4.
  - apply H3. intros e. split_and!; try done. right. intros w [= <-]. by left.
  - intros e. split_and!; try done. right. intros w [= <-]. by left.
Qed.

(** C31: [del_event] on a live connection, in a pool whose invariant holds: it terminates
    without a failed assertion, keeps the invariant, closes this connection and all that
    its chain of pairs leads to -- each once -- and leaves every other connection live
    and as it was. *)
Theorem del_event_closes (os : list call → answer) fuel s T v :
  pool_wf s T → live s v ∨ closed s v → p_count s < Z.of_nat fuel →
  swp (del_event os fuel v) s (λ _ s', ∃ D T', pool_wf s' T' ∧ deleted s D s' ∧
    (live s v → ∃ D', D = v :: D') ∧ (closed s v → ¬ live s v → D = [])).
Proof. apply del_event_ok. Qed.

Lemma del_event_closes_witness :
  p_count sample_pool = 2 ∧
  swp (del_event os_sample 3 1%nat) sample_pool (λ _ s', ∃ D T', pool_wf s' T' ∧
    deleted sample_pool D s' ∧ (live sample_pool 1%nat → ∃ D', D = 1%nat :: D') ∧
    (closed sample_pool 1%nat → ¬ live sample_pool 1%nat → D = [])).
Proof.
  split; [reflexivity|]. apply (del_event_closes os_sample 3 sample_pool [] 1%nat).
  - apply sample_pool_wf.
  - left. exists 1%nat. split; reflexivity.
  - reflexivity.
Defined.

(** [next_event] terminates, fails no assertion and keeps the invariant; the
    connection it returns is live, was neither made nor deleted since the last [poll],
    and the type is what that [poll] reported for its own descriptor. *)
Theorem next_event_fresh (os : list call → answer) ms s T rep offs typel fuel :
  poll_ok os → pool_wf s T → reported s rep → scan_ok s offs → 0 <= p_iters s < 2 ^ 64 - 1 →
  (Z.to_nat (offs + 1) + Z.to_nat (p_count s) + 2 <= fuel)%nat →
  swp (next_event os fuel offs typel ms) s (event_ok os ms s T rep offs typel).
Proof. apply next_event_ok. Qed.

Lemma next_event_fresh_witness :
  next_event os_sample 4 (-1) (-1) 10 sample_pool =
    Ok ((Some 1%nat, 0, POLLIN), cleared 1 (next_round
      (polled (Answer 1 [] [] [0; POLLIN]) (poll_of 10 sample_pool) sample_pool))) ∧
  swp (next_event os_sample 4 (-1) (-1) 10) sample_pool
    (event_ok os_sample 10 sample_pool [] [] (-1) (-1)).
Proof.
  split; [by vm_compute|]. apply next_event_fresh.
  - intros l fds ms a Ha. subst a. unfold os_sample in *. rewrite last_snoc in *.
    destruct fds as [|? [|? fds]]; [discriminate|discriminate|]. exists 1%nat. cbn. split; [lia|discriminate].
  - apply sample_pool_wf.
  - intros i pe Hi E. change (p_count sample_pool) with 2 in Hi.
    destruct i as [|[|i]]; [..|lia]; by injection E as <-.
  - split; [split; by vm_compute|]. intros i v Hi. change (p_count sample_pool) with 2 in Hi. lia.
  - split; by vm_compute.
  - change (p_count sample_pool) with 2. cbn. lia.
Defined.

(** [set_timer] on a connection whose timer is not running, among timers in order: it
    terminates and puts the connection in the list at the place where the list stays
    sorted by due time, the links of both directions and both ends included, and changes
    nothing else. *)
Theorem set_timer_sorted (os : list call → answer) s T v ev ms fuel :
  let x := s32 (s32 (a_ret (os (p_log s ++ [KTimeMs]))) + ms) in
  timers s T → v ∉ T → p_items s !! v = Some ev → ev_tv_ms ev = 0 → x ≠ 0 → (length T < fuel)%nat →
  swp (set_timer os v ms fuel) s (λ _ s',
    ∃ L1 L2, T = L1 ++ L2 ∧ timers s' (L1 ++ v :: L2) ∧
      same_but_timers (set_p_log (p_log s ++ [KTimeMs]) s) s' ∧ tvms (p_items s') v = x ∧
      ∀ w, w ∉ T → w ≠ v → p_items s' !! w = p_items s !! w).
Proof. apply set_timer_ok. Qed.

(** The sample pool with the first timer running. *)
Definition sample_armed : poolhd :=
  match set_timer os_sample 0%nat 50 1 sample_pool with Ok (_, s) => s | Fail _ => sample_pool end.

Lemma set_timer_sorted_witness :
  p_tv_start sample_armed = Some 0%nat ∧
  swp (set_timer os_sample 1%nat 20 2) sample_armed (λ _ s',
    ∃ L1 L2, [0%nat] = L1 ++ L2 ∧ timers s' (L1 ++ 1%nat :: L2) ∧
      same_but_timers (set_p_log (p_log sample_armed ++ [KTimeMs]) sample_armed) s' ∧
      tvms (p_items s') 1 = 1020 ∧
      ∀ w, w ∉ [0%nat] → w ≠ 1%nat → p_items s' !! w = p_items sample_armed !! w).
Proof.
  split; [reflexivity|].
  apply (set_timer_sorted os_sample sample_armed [0%nat] 1%nat
    (match p_items sample_armed !! 1%nat with Some e => e | None => zero_eval end) 20 2).
  - split; try reflexivity.
    + apply NoDup_singleton.
    + split; [|exact I]. eexists. split_and!; reflexivity.
    + repeat constructor.
    + repeat constructor. discriminate.
  - rewrite list_elem_of_singleton. discriminate.
  - reflexivity.
  - reflexivity.
  - discriminate.
  - cbn. lia.
Defined.

(** [remove_timer] takes the connection out of the list of timers, whether or not it
    is in it, and the others keep their order. *)
Theorem remove_timer_unlinks s T v :
  timers s T → v ∈ T ∨ no_links (p_items s) v →
  swp (remove_timer v) s (λ _ s',
    timers s' (others v T) ∧ same_but_timers s s' ∧
    no_links (p_items s') v ∧ tvms (p_items s') v = 0 ∧
    ∀ w, w ∉ T → w ≠ v → p_items s' !! w = p_items s !! w).
Proof. apply remove_timer_ok. Qed.

Lemma remove_timer_unlinks_witness :
  swp (remove_timer 0%nat) sample_armed (λ _ s',
    timers s' (others 0 [0%nat]) ∧ same_but_timers sample_armed s' ∧
    no_links (p_items s') 0 ∧ tvms (p_items s') 0 = 0 ∧
    ∀ w, w ∉ [0%nat] → w ≠ 0%nat → p_items s' !! w = p_items sample_armed !! w).
Proof.
  apply (remove_timer_unlinks sample_armed [0%nat] 0%nat).
  - split; try reflexivity.
    + apply NoDup_singleton.
    + split; [|exact I]. eexists. split_and!; reflexivity.
    + repeat constructor.
    + repeat constructor. discriminate.
  - left. by left.
Defined.

(** [destroy_pool] terminates and closes the descriptor of every live connection
    exactly once. *)
Theorem destroy_pool_closes_all (os : list call → answer) s T fuel :
  pool_wf s T → p_count s < Z.of_nat fuel →
  swp (destroy_pool os fuel) s (λ _ s', ∃ D, NoDup D ∧ (∀ v, v ∈ D ↔ live s v) ∧ p_count s' = 0 ∧
    p_log s' = p_log s ++ map (λ d, KClose (fd_of s d)) D).
Proof. apply destroy_pool_ok. Qed.

Lemma destroy_pool_closes_all_witness :
  swp (destroy_pool os_sample 3) sample_pool (λ _ s', ∃ D, NoDup D ∧
    (∀ v, v ∈ D ↔ live sample_pool v) ∧ p_count s' = 0 ∧
    p_log s' = p_log sample_pool ++ map (λ d, KClose (fd_of sample_pool d)) D).
Proof.
  apply (destroy_pool_closes_all os_sample sample_pool []).
  - apply sample_pool_wf.
  - reflexivity.
Defined.
