(* ===== verification/Socks.v ===== *)
(** byedpi proxy.c, the address half: the SOCKS4, SOCKS5, HTTP and TLS destinations.

    Requests are read from byte buffers through bounds-checked accesses; [getaddrinfo]
    and [send] are calls to the system.  A [union sockaddr_u] is its 28 bytes. *)
From Stdlib Require Import ZArith Lia Ascii String.
From stdpp Require Import base numbers list option.
From S2P Require Import Prelude CMem PacketsTls PacketsHttp Params Desync Conev.

#[local] Open Scope Z_scope.
#[local] Open Scope list_scope.

(** proxy.h *)
Definition S_AUTH_NONE : Z := 0.
Definition S_AUTH_BAD : Z := 255.
Definition S_ATP_I4 : Z := 1.
Definition S_ATP_ID : Z := 3.
Definition S_ATP_I6 : Z := 4.
Definition S_CMD_CONN : Z := 1.
Definition S_CMD_AUDP : Z := 3.
Definition S_ER_OK : Z := 0.
Definition S_ER_GEN : Z := 1.
Definition S_ER_NET : Z := 3.
Definition S_ER_HOST : Z := 4.
Definition S_ER_CONN : Z := 5.
Definition S_ER_CMD : Z := 7.
Definition S_ER_ATP : Z := 8.
Definition S4_OK : Z := 90.
Definition S4_ER : Z := 91.
Definition S_VER5 : Z := 5.
Definition S_VER4 : Z := 4.
Definition S_SIZE_MIN : Z := 8.
Definition S_SIZE_I4 : Z := 10.
Definition S_SIZE_I6 : Z := 22.
Definition S_SIZE_ID : Z := 7.
(** winsock2.h *)
Definition SOCK_STREAM : Z := 1.
Definition SOCK_DGRAM : Z := 2.

(** [SA_SIZE(s)] *)
Definition SA_SIZE (a : bytes) : Z := if sa_family a =? AF_INET6 then 28 else 16.

(** [ipv6m] is the IPv6 address seen as [o64] (8 bytes), [o16], [t16] and [o32]. *)
Definition map_fix (addr : bytes) (f6 : Z) : bytes :=
  if (sa_family addr =? AF_INET) && negb (f6 =? 0) then
    let addr := set_family addr AF_INET6 in
    let addr := put addr 20 (sin_addr addr) in
    let addr := put addr 8 (repeat 0 8) in
    let addr := put addr 16 [0; 0] in
    put addr 18 [255; 255]
  else if bool_decide (sub addr 8 8 = repeat 0 8) && bool_decide (sub addr 16 2 = [0; 0]) &&
      bool_decide (sub addr 18 2 = [255; 255]) && (f6 =? 0) then
    let addr := set_family addr AF_INET in
    set_sin_addr addr (sub addr 20 4)
  else addr.

Definition addr_equ (a b : bytes) : bool :=
  if sa_family a =? AF_INET then bool_decide (sin_addr a = sin_addr b)
  else bool_decide (sin6_addr a = sin6_addr b).

Section socks.
Context (prm : params).
Context (os : list call → answer).
Abbreviation M := (ST poolhd).

(** [resolve(buff + chost, len, addr, type)]: the value returned and [*addr]. *)
Definition resolve (buff : bytes) (chost len : Z) (addr : bytes) (type : Z) : M (Z * bytes) :=
  host ← lift (rds buff chost len);
  a ← kcall os (KResolve host type (negb (pr_resolve prm)) (pr_ipv6 prm));
  if negb (a_ret a =? 0) then mret (-1, addr) else
  addr ← lift (memcpy addr 0 (a_addr a) 0 (SA_SIZE (a_addr a)));
  mret (0, addr).

(** [send(fd, data, ...)] *)
Definition send (fd : Z) (data : bytes) : M Z := kret os (KSend fd data).

(** The method offered, by the search of [auth_socks5]. *)
Definition auth_method (buffer : bytes) (n : Z) : comp Z :=
  loop (λ i, if i <? n then
      c ← rd buffer i; Ok (if c =? S_AUTH_NONE then inr S_AUTH_NONE else inl (i + 1))
    else Ok (inr S_AUTH_BAD)) (S (Z.to_nat n)) 2.

Definition auth_socks5 (fd : Z) (buffer : bytes) (n : Z) : M Z :=
  if n <=? 2 then mret (-1) else
  k ← lift (rd buffer 1);
  if negb (k =? n - 2) then mret (-1) else
  c ← lift (auth_method buffer n);
  r ← send fd [S_VER5; c];
  if r <? 0 then mret (-1) else mret (if negb (c =? S_AUTH_BAD) then 0 else -1).

Definition resp_s5_error (fd e : Z) : M Z :=
  send fd [5; u8 e; 0; S_ATP_I4; 0; 0; 0; 0; 0; 0].

Definition s5_code (e : Z) : Z :=
  let u := unie e in
  if u =? 0 then S_ER_OK
  else if u =? ECONNREFUSED then S_ER_CONN
  else if (u =? EHOSTUNREACH) || (u =? ETIMEDOUT) then S_ER_HOST
  else if u =? ENETUNREACH then S_ER_NET
  else S_ER_GEN.

Definition http_ok : bytes := bs "HTTP/1.1 200 OK" ++ [13; 10; 13; 10].
Definition http_fail : bytes := bs "HTTP/1.1 503 Fail" ++ [13; 10; 13; 10].

Definition resp_error (fd e flag : Z) : M Z :=
  if flag =? FLAG_S4 then
    send fd [0; if negb (e =? 0) then S4_ER else S4_OK; 0; 0; 0; 0; 0; 0]
  else if flag =? FLAG_S5 then resp_s5_error fd (s5_code e)
  else if flag =? FLAG_HTTP then send fd (if e =? 0 then http_ok else http_fail)
  else mret 0.

(** The value returned and [*dst]. *)
Definition s4_get_addr (buff : bytes) (n : Z) (dst : bytes) : M (Z * bytes) :=
  if n <? 9 then mret (-1, dst) else
  cmd ← lift (rd buff 1);
  if negb (cmd =? S_CMD_CONN) then mret (-1, dst) else
  ip ← lift (rds buff 4 4);
  port ← lift (rds buff 2 2);
  '(err, dst) ← (
    if bat ip 0 * 2 ^ 24 + bat ip 1 * 2 ^ 16 + bat ip 2 * 2 ^ 8 + bat ip 3 <=? 255 then
      last ← lift (rd buff (n - 1));
      if negb (pr_resolve prm) || negb (last =? 0) then mret (-1, dst) else
      id_end ← lift (memchr buff 8 0 (blen buff - 8));
      match id_end with
      | None => sfail OutOfBounds
      | Some id_end =>
          let len := n - id_end - 2 in
          if (len <? 3) || (255 <? len) then mret (-1, dst) else
          '(r, dst) ← resolve buff (id_end + 1) len dst SOCK_STREAM;
          mret (if negb (r =? 0) then -1 else 0, dst)
      end
    else mret (0, set_sin_addr (set_family dst AF_INET) ip));
  if negb (err =? 0) then mret (err, dst) else mret (0, set_port dst port).

(** [s5_get_addr(buffer + p, n, addr, type)]. *)
Definition s5_get_addr (buffer : bytes) (p n : Z) (addr : bytes) (type : Z) : M (Z * bytes) :=
  if n <? S_SIZE_MIN then mret (- S_ER_GEN, addr) else
  atp ← lift (rd buffer (p + 3));
  len ← lift (rd buffer (p + 4));
  let o := if atp =? S_ATP_I4 then S_SIZE_I4
           else if atp =? S_ATP_ID then len + S_SIZE_ID
           else if atp =? S_ATP_I6 then S_SIZE_I6 else 0 in
  if n <? o then mret (- S_ER_GEN, addr) else
  '(err, addr) ← (
    if atp =? S_ATP_I4 then
      ip ← lift (rds buffer (p + 4) 4); mret (0, set_sin_addr (set_family addr AF_INET) ip)
    else if atp =? S_ATP_ID then
      if negb (pr_resolve prm) then mret (- S_ER_ATP, addr)
      else if len <? 3 then mret (- S_ER_HOST, addr)
      else '(r, addr) ← resolve buffer (p + 5) len addr type;
           mret (if negb (r =? 0) then - S_ER_HOST else 0, addr)
    else if atp =? S_ATP_I6 then
      if negb (pr_ipv6 prm) then mret (- S_ER_ATP, addr)
      else ip ← lift (rds buffer (p + 4) 16); mret (0, set_sin6_addr (set_family addr AF_INET6) ip)
    else mret (0, addr));
  if negb (err =? 0) then mret (err, addr) else
  port ← lift (rds buffer (p + o - 2) 2);
  mret (o, set_port addr port).

(** [s5_set_addr(buffer + p, n, addr, end)]: the value returned and the buffer. *)
Definition s5_set_addr (buffer : bytes) (p n : Z) (addr : bytes) (tail : bool) : comp (Z * bytes) :=
  if n <? S_SIZE_I4 then Ok (-1, buffer) else
  if sa_family addr =? AF_INET then
    let r := if tail then p - S_SIZE_I4 else p in
    b ← store buffer (r + 3) [S_ATP_I4];
    b ← store b (r + 4) (sin_addr addr);
    b ← store b (r + 8) (sin_port addr);
    Ok (S_SIZE_I4, b)
  else if n <? S_SIZE_I6 then Ok (-1, buffer) else
    let r := if tail then p - S_SIZE_I6 else p in
    b ← store buffer (r + 3) [S_ATP_I6];
    b ← store b (r + 4) (sin6_addr addr);
    b ← store b (r + 20) (sin_port addr);
    Ok (S_SIZE_I6, b).

Definition htons (x : Z) : bytes := [u8 (Z.shiftr x 8); u8 x].

Definition http_get_addr (buff : bytes) (n : Z) (dst : bytes) : M (Z * bytes) :=
  h ← lift (parse_http buff n true);
  let len := hh_len h in
  if (len <? 3) || (255 <? len) then mret (-1, dst) else
  match hh_hs h with
  | None => sfail OutOfBounds
  | Some host =>
      '(r, dst) ← resolve buff host len dst SOCK_STREAM;
      if negb (r =? 0) then mret (-1, dst) else
      mret (0, set_port dst (htons (match hh_port h with Some p => p | None => 0 end)))
  end.

Definition tls_get_addr (buff : bytes) (n : Z) (dst : bytes) : M (Z * bytes) :=
  '(len, hs) ← lift (parse_tls buff n);
  if (len <? 3) || (255 <? len) then mret (-1, dst) else
  match hs with
  | None => sfail OutOfBounds
  | Some host =>
      '(r, dst) ← (if pr_resolve prm then resolve buff host len dst SOCK_STREAM else mret (0, dst));
      if negb (r =? 0) then mret (-1, dst) else mret (0, set_port dst (htons 443))
  end.
End socks.

(** * Addresses *)

(** A list of 28 bytes, byte by byte. *)
Ltac bytes28 a H :=
  let H' := fresh in
  assert (H' : length a = 28%nat) by (unfold blen, sa_len in H; lia); clear H;
  do 28 (destruct a as [|? a]; [discriminate H'|]); destruct a; [|discriminate H']; clear H'.

Lemma map_fix_to6 a : blen a = sa_len → sa_family a = AF_INET →
  map_fix a 6 = [23; 0] ++ sub a 2 6 ++ repeat 0 10 ++ [255; 255] ++ sin_addr a ++ sub a 24 4.
Proof. intros H E. unfold map_fix. rewrite E. bytes28 a H. reflexivity. Qed.

Lemma map_fix_to4 a : blen a = sa_len → sa_family a ≠ AF_INET →
  sub a 8 12 = repeat 0 10 ++ [255; 255] →
  map_fix a 0 = [2; 0] ++ sin_port a ++ sub a 20 4 ++ sub a 8 20.
Proof.
  intros H E Hm. unfold map_fix. apply Z.eqb_neq in E. rewrite E. bytes28 a H.
  cbn in Hm. injection Hm. intros. subst. reflexivity.
Qed.

(** An IPv6 address that is no mapped one is left alone by both directions. *)
Lemma map_fix_id a f : blen a = sa_len → sa_family a = AF_INET6 →
  f ≠ 0 ∨ sub a 8 12 ≠ repeat 0 10 ++ [255; 255] → map_fix a f = a.
Proof.
  intros H E Hf. unfold map_fix. rewrite E. change (AF_INET6 =? AF_INET) with false.
  cbn [andb]. destruct (_ && _ && _ && _) eqn:Eb; [|done]. exfalso.
  rewrite !andb_true_iff, !bool_decide_eq_true, Z.eqb_eq in Eb. destruct Eb as [[[E1 E2] E3] ->].
  destruct Hf as [|Hf]; [done|]. apply Hf. rewrite (sub_split a 8 12 8), (sub_split a (8 + 8) (12 - 8) 2)
    by (rewrite ?H; unfold sa_len; lia).
  change (8 + 8) with 16. change (12 - 8) with 4. change (16 + 2) with 18. change (4 - 2) with 2.
  by rewrite E1, E2, E3.
Qed.

(** * Sections of a request *)

Lemma wp_put3 {A} b r q x ip port (k : bytes → comp A) (P : A → Prop) n :
  0 <= r → blen ip = n → blen port = 2 → r + 6 + n <= blen b → q = r + 4 + n →
  (∀ b', blen b' = blen b → bat b' (r + 3) = x → sub b' (r + 4) n = ip → sub b' q 2 = port →
    (∀ j m, 0 <= j → 0 <= m → j + m <= r + 3 → sub b' j m = sub b j m) → wp (k b') P) →
  wp (b1 ← store b (r + 3) [x]; b2 ← store b1 (r + 4) ip; b3 ← store b2 q port; k b3) P.
Proof.
  intros Hr Hip Hport Hb -> HP. pose proof (blen_nonneg ip) as Hn. rewrite Hip in Hn.
  apply wp_bind, wp_store; [lia|blia|]. apply wp_bind, wp_store; [lia|blia|].
  apply wp_bind, wp_store; [lia|blia|]. apply HP.
  - blia.
  - rewrite !bat_put by blia. rewrite blen_cons, blen_nil, Hip.
    rewrite (proj2 (Z.leb_gt (r + 4 + n) (r + 3))), (proj2 (Z.leb_gt (r + 4) (r + 3))) by lia.
    cbn [andb]. rewrite Z.leb_refl, (proj2 (Z.ltb_lt _ _)), Z.sub_diag by lia. done.
  - rewrite sub_put_disjoint by blia. rewrite <- Hip. apply sub_put_same; blia.
  - rewrite <- Hport at 1. apply sub_put_same; blia.
  - intros j m Hj Hm Hjm. rewrite !sub_put_disjoint by blia. done.
Qed.

Section socks_lemmas.
Context (prm : params) (os : list call → answer).

(** [s5_get_addr] on the address part of a request at [p]. *)
Lemma s5_get_addr_v4 b p n a type s :
  0 <= p → S_SIZE_I4 <= n → p + n <= blen b → bat b (p + 3) = S_ATP_I4 →
  s5_get_addr prm os b p n a type s =
    Ok ((S_SIZE_I4, set_port (set_sin_addr (set_family a AF_INET) (sub b (p + 4) 4)) (sub b (p + 8) 2)), s).
Proof.
  unfold S_SIZE_I4. intros Hp Hn Hb Ht.
  assert (H : swp (s5_get_addr prm os b p n a type) s (λ r s', s' = s ∧ r =
    (S_SIZE_I4, set_port (set_sin_addr (set_family a AF_INET) (sub b (p + 4) 4)) (sub b (p + 8) 2)))).
  2: { unfold swp in H. by apply wp_inv in H as ([r s'] & -> & -> & ->). }
  unfold s5_get_addr, S_SIZE_MIN. destruct (Z.ltb_spec n 8); [lia|].
  sstep. sstep. apply wp_rd; [lia|]. rewrite Ht. sstep. sstep. apply wp_rd; [lia|].
  change (S_ATP_I4 =? S_ATP_I4) with true. cbv beta iota zeta. unfold S_SIZE_I4.
  destruct (Z.ltb_spec n 10); [lia|]. sstep. sstep. sstep. apply wp_rds; [lia|lia|lia|].
  sstep. cbn beta iota. change (negb (0 =? 0)) with false. cbv iota. sstep. sstep.
  apply wp_rds; [lia|lia|lia|]. sstep. split; [done|]. do 3 f_equal. lia.
Qed.

Lemma s5_get_addr_v6 b p n a type s :
  pr_ipv6 prm = true → 0 <= p → S_SIZE_I6 <= n → p + n <= blen b → bat b (p + 3) = S_ATP_I6 →
  s5_get_addr prm os b p n a type s =
    Ok ((S_SIZE_I6, set_port (set_sin6_addr (set_family a AF_INET6) (sub b (p + 4) 16)) (sub b (p + 20) 2)), s).
Proof.
  unfold S_SIZE_I6. intros H6 Hp Hn Hb Ht.
  assert (H : swp (s5_get_addr prm os b p n a type) s (λ r s', s' = s ∧ r =
    (S_SIZE_I6, set_port (set_sin6_addr (set_family a AF_INET6) (sub b (p + 4) 16)) (sub b (p + 20) 2)))).
  2: { unfold swp in H. by apply wp_inv in H as ([r s'] & -> & -> & ->). }
  unfold s5_get_addr, S_SIZE_MIN. destruct (Z.ltb_spec n 8); [lia|].
  sstep. sstep. apply wp_rd; [lia|]. rewrite Ht. sstep. sstep. apply wp_rd; [lia|].
  change (S_ATP_I6 =? S_ATP_I4) with false. change (S_ATP_I6 =? S_ATP_ID) with false.
  change (S_ATP_I6 =? S_ATP_I6) with true. cbv beta iota zeta. unfold S_SIZE_I6.
  destruct (Z.ltb_spec n 22); [lia|]. rewrite H6. cbn [negb]. sstep. sstep. sstep.
  apply wp_rds; [lia|lia|lia|].
  sstep. cbn beta iota. change (negb (0 =? 0)) with false. cbv iota. sstep. sstep.
  apply wp_rds; [lia|lia|lia|]. sstep. split; [done|]. do 3 f_equal. lia.
Qed.
Lemma list4 (l : bytes) : blen l = 4 → ∃ a b c d, l = [a; b; c; d].
Proof.
  unfold blen. intros H. destruct l as [|a [|b [|c [|d [|? l]]]]]; cbn in H; try lia. by exists a, b, c, d.
Qed.
Lemma list2 (l : bytes) : blen l = 2 → ∃ a b, l = [a; b].
Proof. unfold blen. intros H. destruct l as [|a [|b [|? l]]]; cbn in H; try lia. by exists a, b. Qed.

Lemma addr_v4 a ip port : blen a = sa_len → blen ip = 4 → blen port = 2 →
  let x := set_port (set_sin_addr (set_family a AF_INET) ip) port in
  blen x = sa_len ∧ sa_family x = AF_INET ∧ sin_port x = port ∧ sin_addr x = ip.
Proof.
  intros H (i & j & k & l & ->)%list4 (m & n & ->)%list2. bytes28 a H. by repeat split.
Qed.

Lemma addr_v6 a ip port : blen a = sa_len → blen ip = 16 → blen port = 2 →
  let x := set_port (set_sin6_addr (set_family a AF_INET6) ip) port in
  blen x = sa_len ∧ sa_family x = AF_INET6 ∧ sin_port x = port ∧ sin6_addr x = ip.
Proof.
  intros H Hip (m & n & ->)%list2.
  assert (Hf : ∀ c : bytes, blen c = 12 → sa_family (set_port (set_sin6_addr (set_family a AF_INET6) ip) [m; n]) = AF_INET6).
  { intros _ _. bytes28 a H. reflexivity. }
  split_and!.
  - unfold set_port, set_sin6_addr, set_family. rewrite !blen_put; rewrite ?blen_put; unfold sa_len in *; blia.
  - bytes28 a H. reflexivity.
  - unfold sin_port, set_port. change 2 with (blen [m; n]) at 3. apply sub_put_same; [lia|].
    unfold set_sin6_addr, set_family. rewrite !blen_put; rewrite ?blen_put; unfold sa_len in *; blia.
  - unfold sin6_addr, set_port. rewrite sub_put_disjoint; unfold set_sin6_addr, set_family;
      rewrite ?blen_put; rewrite ?blen_put; unfold sa_len in *; try blia.
    rewrite <- Hip at 1. apply sub_put_same; [lia|]. rewrite ?blen_put; blia.
Qed.

Definition same_addr (a b : bytes) : Prop :=
  sa_family a = sa_family b ∧ sin_port a = sin_port b ∧
  (if sa_family b =? AF_INET then sin_addr a = sin_addr b else sin6_addr a = sin6_addr b).

Lemma s5_roundtrip_ok b p n addr a0 type (tail : bool) s :
  blen addr = sa_len → blen a0 = sa_len →
  sa_family addr = AF_INET ∨ sa_family addr = AF_INET6 ∧ pr_ipv6 prm = true →
  0 <= p → S_SIZE_I6 <= n → p + n <= blen b → (if tail then S_SIZE_I6 <= p else True) →
  ∃ o b' a', s5_set_addr b p n addr tail = Ok (o, b') ∧ blen b' = blen b ∧
    let r := if tail then p - o else p in
    s5_get_addr prm os b' r n a0 type s = Ok ((o, a'), s) ∧ same_addr a' addr.
Proof.
  unfold S_SIZE_I6. intros Ha Ha0 Hf Hp Hn Hb Ht. pose proof Ha as Ha'. unfold sa_len in Ha'.
  destruct Hf as [Hf|[Hf H6]].
  - assert (W : wp (s5_set_addr b p n addr tail) (λ '(o, b'), o = S_SIZE_I4 ∧ blen b' = blen b ∧
      let r := if tail then p - 10 else p in
      bat b' (r + 3) = S_ATP_I4 ∧ sub b' (r + 4) 4 = sin_addr addr ∧ sub b' (r + 8) 2 = sin_port addr)).
    { unfold s5_set_addr, S_SIZE_I4. destruct (Z.ltb_spec n 10); [lia|]. rewrite Hf.
      change (AF_INET =? AF_INET) with true. cbv iota zeta. set (r := if tail then p - 10 else p).
      assert (0 <= r ∧ r + 10 <= blen b) by (subst r; destruct tail; lia).
      apply (wp_put3 _ r _ _ _ _ _ _ 4); [lia|unfold sin_addr; blia|unfold sin_port; blia|lia|lia|].
      intros b' B1 B2 B3 B4 _. by apply wp_ok. }
    apply wp_inv in W as ([o b'] & E & -> & Hl & H1 & H2 & H3). cbv zeta in H1, H2, H3.
    set (r := if tail then p - 10 else p) in *.
    assert (0 <= r ∧ r + 10 <= blen b ∧ r <= p) by (subst r; destruct tail; lia).
    destruct (addr_v4 a0 (sin_addr addr) (sin_port addr) Ha0) as (A1 & A2 & A3 & A4);
      [unfold sin_addr; blia|unfold sin_port; blia|].
    eexists _, b', _. split; [exact E|]. split; [done|]. unfold S_SIZE_I4 at 1. fold r. cbv zeta.
    rewrite s5_get_addr_v4 by (unfold S_SIZE_I4; lia || done). rewrite H2, H3. split; [done|].
    unfold same_addr. rewrite Hf. by rewrite A2, A3, A4.
  - assert (W : wp (s5_set_addr b p n addr tail) (λ '(o, b'), o = S_SIZE_I6 ∧ blen b' = blen b ∧
      let r := if tail then p - 22 else p in
      bat b' (r + 3) = S_ATP_I6 ∧ sub b' (r + 4) 16 = sin6_addr addr ∧ sub b' (r + 20) 2 = sin_port addr)).
    { unfold s5_set_addr, S_SIZE_I4, S_SIZE_I6. destruct (Z.ltb_spec n 10); [lia|]. rewrite Hf.
      change (AF_INET6 =? AF_INET) with false. cbv iota zeta. destruct (Z.ltb_spec n 22); [lia|].
      set (r := if tail then p - 22 else p).
      assert (0 <= r ∧ r + 22 <= blen b) by (subst r; destruct tail; lia).
      apply (wp_put3 _ r _ _ _ _ _ _ 16); [lia|unfold sin6_addr; blia|unfold sin_port; blia|lia|lia|].
      intros b' B1 B2 B3 B4 _. by apply wp_ok. }
    apply wp_inv in W as ([o b'] & E & -> & Hl & H1 & H2 & H3). cbv zeta in H1, H2, H3.
    set (r := if tail then p - 22 else p) in *.
    assert (0 <= r ∧ r + 22 <= blen b ∧ r <= p) by (subst r; destruct tail; lia).
    destruct (addr_v6 a0 (sin6_addr addr) (sin_port addr) Ha0) as (A1 & A2 & A3 & A4);
      [unfold sin6_addr; blia|unfold sin_port; blia|].
    eexists _, b', _. split; [exact E|]. split; [done|]. unfold S_SIZE_I6 at 1. fold r. cbv zeta.
    rewrite s5_get_addr_v6 by (unfold S_SIZE_I6; lia || done). rewrite H2, H3. split; [done|].
    unfold same_addr. rewrite Hf. by rewrite A2, A3, A4.
Qed.

(** ** Bounds *)

(** [getaddrinfo] returns an address of the size of its family. *)
Definition resolver_ok : Prop := ∀ l h t x y,
  let a := os (l ++ [KResolve h t x y]) in a_ret a = 0 → SA_SIZE (a_addr a) <= blen (a_addr a).

Lemma SA_SIZE_range a : 16 <= SA_SIZE a <= 28.
Proof. unfold SA_SIZE. destruct (_ =? _); lia. Qed.

Lemma resolve_ok buff p len a type s :
  resolver_ok → 0 <= p → 0 <= len → p + len <= blen buff → blen a = sa_len →
  let c := KResolve (sub buff p len) type (negb (pr_resolve prm)) (pr_ipv6 prm) in
  swp (resolve prm os buff p len a type) s (λ r s',
    s' = set_p_log (p_log s ++ [c]) s ∧ blen r.2 = sa_len ∧
    (r.1 = 0 ∧ a_ret (os (p_log s ++ [c])) = 0 ∨ r.1 = -1 ∧ r.2 = a)).
Proof.
  intros Hr Hp Hl Hb Ha c. unfold resolve. sstep. sstep. apply wp_rds; [done..|].
  sstep. unfold swp at 1. cbn [kcall]. apply wp_ok. cbv beta iota. fold c.
  set (x := os (p_log s ++ [c])). destruct (Z.eqb_spec (a_ret x) 0) as [E|E]; cbn [negb]; sstep.
  2: { split_and!; [done|done|by right]. }
  pose proof (SA_SIZE_range (a_addr x)). unfold sa_len in *.
  sstep. apply wp_memcpy; [lia|lia|lia|lia|by apply (Hr _ _ _ _ _ E)|].
  assert (Hsz : SA_SIZE (a_addr x) <= blen (a_addr x)) by apply (Hr _ _ _ _ _ E).
  sstep. split; [done|]. split; [|left; split; [done|exact E]]. cbn [snd].
  rewrite blen_put; [done|lia|]. rewrite blen_sub; lia.
Qed.

(** An address type that is one of the three: every access is inside the request. *)
Lemma s5_get_addr_ok b p n a type s :
  resolver_ok → bytes_wf b → 0 <= p → p + n <= blen b → blen a = sa_len →
  bat b (p + 3) = S_ATP_I4 ∨ bat b (p + 3) = S_ATP_ID ∨ bat b (p + 3) = S_ATP_I6 →
  swp (s5_get_addr prm os b p n a type) s (λ r _, blen r.2 = sa_len ∧
    (r.1 < 0 ∨ S_SIZE_MIN < r.1 <= n ∧ sin_port r.2 = sub b (p + r.1 - 2) 2)).
Proof.
  intros Hr Hw Hp Hb Ha Ht. unfold s5_get_addr, S_SIZE_MIN, S_ER_GEN, S_ER_ATP, S_ER_HOST.
  destruct (Z.ltb_spec n 8); [sstep; split; [done|left; cbn; lia]|].
  sstep. sstep. apply wp_rd; [lia|]. sstep. sstep. apply wp_rd; [lia|].
  pose proof (bat_byte b (p + 4) Hw) as Hlen. unfold is_byte in Hlen.
  assert (Hset : ∀ f ip, blen ip <= 20 → blen (set_sin_addr (set_family a f) ip) = sa_len ∧
    (blen ip <= 16 → blen (set_sin6_addr (set_family a f) ip) = sa_len)).
  { unfold set_sin_addr, set_sin6_addr, set_family, sa_len in *. intros f ip Hip.
    rewrite !blen_put; rewrite ?blen_put; blia. }
  assert (Hport : ∀ x o, blen x = sa_len → 8 < o <= n →
    blen (set_port x (sub b (p + o - 2) 2)) = sa_len ∧
    sin_port (set_port x (sub b (p + o - 2) 2)) = sub b (p + o - 2) 2).
  { unfold set_port, sin_port, sa_len. intros x o Hx Hxo. split; [rewrite blen_put; blia|].
    pose proof (sub_put_same x 2 (sub b (p + o - 2) 2)) as Hsp.
    rewrite (blen_sub b) in Hsp by lia. apply Hsp; lia. }
  unfold S_SIZE_I4, S_SIZE_I6, S_SIZE_ID. destruct Ht as [E|[E|E]]; rewrite E.
  - change (S_ATP_I4 =? S_ATP_I4) with true. cbv beta iota zeta. destruct (Z.ltb_spec n 10); [sstep; split; [done|left; cbn; lia]|].
    sstep. sstep. sstep. apply wp_rds; [lia..|]. sstep. cbn beta iota. change (negb (0 =? 0)) with false. cbv iota.
    sstep. sstep. apply wp_rds; [lia..|].
    sstep. destruct (Hport (set_sin_addr (set_family a AF_INET) (sub b (p + 4) 4)) 10) as [P1 P2];
      [apply Hset; blia|lia|]. split; [done|]. right. cbn. split; [lia|done].
  - change (S_ATP_ID =? S_ATP_I4) with false. change (S_ATP_ID =? S_ATP_ID) with true. cbv beta iota zeta.
    destruct (Z.ltb_spec n (bat b (p + 4) + 7)); [sstep; split; [done|left; cbn; lia]|].
    destruct (negb (pr_resolve prm)); [sstep; sstep; split; [done|by left]|].
    destruct (Z.ltb_spec (bat b (p + 4)) 3); [sstep; sstep; split; [done|by left]|].
    sstep. sstep. eapply swp_mono; [apply resolve_ok; [done|lia|lia|lia|done]|].
    intros [r x] s' (-> & Hx & Hr1). cbn [fst snd] in *. sstep. cbv beta iota.
    destruct Hr1 as [[-> _]|[-> ->]]; cbn [Z.eqb negb]; cbv iota.
    + change (negb (0 =? 0)) with false. cbv iota. sstep. sstep. apply wp_rds; [lia..|]. sstep.
      destruct (Hport x (bat b (p + 4) + 7)) as [P1 P2]; [done|lia|]. split; [done|].
      right. cbn. split; [lia|done].
    + apply (swp_ret (-4, a)). split; [done|by left].
  - change (S_ATP_I6 =? S_ATP_I4) with false. change (S_ATP_I6 =? S_ATP_ID) with false.
    change (S_ATP_I6 =? S_ATP_I6) with true. cbv beta iota zeta. destruct (Z.ltb_spec n 22); [sstep; split; [done|left; cbn; lia]|].
    destruct (negb (pr_ipv6 prm)); [sstep; sstep; split; [done|by left]|].
    sstep. sstep. sstep. apply wp_rds; [lia..|]. sstep. cbn beta iota. change (negb (0 =? 0)) with false. cbv iota.
    sstep. sstep. apply wp_rds; [lia..|].
    sstep. destruct (Hport (set_sin6_addr (set_family a AF_INET6) (sub b (p + 4) 16)) 22) as [P1 P2];
      [apply Hset; blia|lia|]. split; [done|]. right. cbn. split; [lia|done].
Qed.

(** The domain that a SOCKS4a request of [n] bytes names: between the end of the user id
    and the last byte. *)
Definition s4_name (b : bytes) (n q : Z) : Prop :=
  8 <= q ∧ bat b q = 0 ∧ (∀ j, 8 <= j < q → bat b j ≠ 0) ∧ bat b (n - 1) = 0 ∧ 3 <= n - q - 2 <= 255.

Definition s4_result (b : bytes) (n : Z) (s : poolhd) (r : Z * bytes) (s' : poolhd) : Prop :=
  blen r.2 = sa_len ∧ (r.1 = -1 ∨ r.1 = 0 ∧ sin_port r.2 = sub b 2 2 ∧ bat b 1 = S_CMD_CONN ∧
    (s' = s ∧ sa_family r.2 = AF_INET ∧ sin_addr r.2 = sub b 4 4 ∨
     ∃ q, s4_name b n q ∧
       let c := KResolve (sub b (q + 1) (n - q - 2)) SOCK_STREAM (negb (pr_resolve prm)) (pr_ipv6 prm) in
       s' = set_p_log (p_log s ++ [c]) s ∧ a_ret (os (p_log s ++ [c])) = 0)).

Lemma sin_port_set x p : blen x = sa_len → blen p = 2 →
  blen (set_port x p) = sa_len ∧ sin_port (set_port x p) = p.
Proof.
  unfold set_port, sin_port, sa_len. intros Hx Hp. split; [rewrite blen_put; lia|].
  pose proof (sub_put_same x 2 p) as H. rewrite Hp in H. apply H; lia.
Qed.

Lemma s4_get_addr_ok b n dst s :
  resolver_ok → n <= blen b → blen dst = sa_len →
  swp (s4_get_addr prm os b n dst) s (s4_result b n s).
Proof.
  intros Hr Hn Hd. unfold s4_get_addr. destruct (Z.ltb_spec n 9); [sstep; split; [done|by left]|].
  sstep. sstep. apply wp_rd; [lia|]. destruct (Z.eqb_spec (bat b 1) S_CMD_CONN) as [Hc|]; cbn [negb].
  2: { sstep. split; [done|by left]. }
  sstep. sstep. apply wp_rds; [lia..|]. sstep. sstep. apply wp_rds; [lia..|].
  assert (Hport : blen (sub b 2 2) = 2) by (apply blen_sub; lia).
  sstep. apply (swp_mono _ _ (λ r s', blen r.2 = sa_len ∧ (r.1 = -1 ∨ r.1 = 0 ∧
    (s' = s ∧ r.2 = set_sin_addr (set_family dst AF_INET) (sub b 4 4) ∨
     ∃ q, s4_name b n q ∧
       let c := KResolve (sub b (q + 1) (n - q - 2)) SOCK_STREAM (negb (pr_resolve prm)) (pr_ipv6 prm) in
       s' = set_p_log (p_log s ++ [c]) s ∧ a_ret (os (p_log s ++ [c])) = 0)))).
  - destruct (_ <=? 255).
    2: { sstep. split; [|right; split; [done|by left]]. cbn [snd].
         unfold set_sin_addr, set_family, sa_len in *. rewrite !blen_put; rewrite ?blen_put; blia. }
    sstep. sstep. apply wp_rd; [lia|].
    destruct (pr_resolve prm) eqn:Er; cbn [negb orb]; [|sstep; split; [done|by left]].
    destruct (Z.eqb_spec (bat b (n - 1)) 0) as [Hl|]; cbn [negb]; [|sstep; split; [done|by left]].
    sstep. sstep. apply wp_memchr; [lia|lia|lia|]. intros [q|] Hq.
    2: { exfalso. apply (Hq (n - 1)); [lia|done]. }
    destruct Hq as (Hq1 & Hq2 & Hq3).
    assert (q <= n - 1).
    { destruct (Z.le_gt_cases q (n - 1)); [done|]. exfalso. by apply (Hq3 (n - 1)); [lia|]. }
    destruct (Z.ltb_spec (n - q - 2) 3); cbn [orb]; [sstep; split; [done|by left]|].
    destruct (Z.ltb_spec 255 (n - q - 2)); [sstep; split; [done|by left]|].
    sstep. eapply swp_mono; [apply resolve_ok; [done|lia|lia|lia|done]|].
    intros [r x] s' (-> & Hx & Hr1). cbn [fst snd] in *. rewrite Er in *. sstep. cbn [fst snd].
    split; [done|]. destruct Hr1 as [[-> Ha]|[-> ->]]; [right|by left]. split; [done|]. right.
    exists q. unfold s4_name. split_and!; done || lia.
  - intros [r x] s' [Hx Hcase]. cbn [fst snd] in *. cbv beta iota.
    destruct (sin_port_set x (sub b 2 2) Hx Hport) as [P1 P2].
    destruct Hcase as [->|[-> Hcase]]; [apply swp_ret; split; [done|by left]|].
    apply swp_ret. split; [done|]. right. cbn [fst snd]. split_and!; [done|done|done|].
    destruct Hcase as [[-> ->]|?]; [left|by right].
    destruct (addr_v4 dst (sub b 4 4) (sub b 2 2) Hd) as (_ & ? & _ & ?); [apply blen_sub; lia|done|done].
Qed.

(** ** Authentication *)

Lemma auth_method_ok b n : 2 <= n <= blen b →
  auth_method b n = Ok (if existsb (λ c, c =? 0) (sub b 2 (n - 2)) then S_AUTH_NONE else S_AUTH_BAD).
Proof.
  intros Hn. apply wp_eq. unfold auth_method.
  apply (wp_loop _ (λ i, 2 <= i <= n ∧ existsb (λ c, c =? 0) (sub b 2 (i - 2)) = false)
    (λ i, Z.to_nat (n - i))); [|split; [lia|done]|lia].
  intros i [Hi He]. destruct (Z.ltb_spec i n).
  - apply wp_bind, wp_rd; [lia|]. apply wp_ok. unfold S_AUTH_NONE.
    assert (Hs : sub b 2 (i + 1 - 2) = sub b 2 (i - 2) ++ [bat b i]).
    { rewrite (sub_split b 2 (i + 1 - 2) (i - 2)) by lia. f_equal.
      replace (2 + (i - 2)) with i by lia. replace (i + 1 - 2 - (i - 2)) with 1 by lia.
      apply bytes_ext; [rewrite blen_sub by lia; done|]. rewrite blen_sub by lia. intros j Hj.
      rewrite bat_sub by lia. assert (j = 0) as -> by lia. by rewrite Z.add_0_r. }
    destruct (Z.eqb_spec (bat b i) 0) as [E|E].
    + assert (Hx : existsb (λ c, c =? 0) (sub b 2 (n - 2)) = true); [|by rewrite Hx].
      rewrite (sub_split b 2 (n - 2) (i + 1 - 2)), Hs, !existsb_app by lia. cbn.
      rewrite E. cbn. by rewrite orb_true_r.
    + split; [|lia]. split; [lia|]. rewrite Hs, existsb_app, He. cbn.
      by rewrite (proj2 (Z.eqb_neq _ _)).
  - apply wp_ok. assert (i = n) as -> by lia. by rewrite He.
Qed.

(** The answer to a greeting: the method 0 when it is offered, else the refusal. *)
Lemma auth_socks5_ok fd b n s : 2 < n <= blen b →
  let m := if existsb (λ c, c =? 0) (sub b 2 (n - 2)) then S_AUTH_NONE else S_AUTH_BAD in
  let c := KSend fd [S_VER5; m] in
  auth_socks5 os fd b n s =
    if bat b 1 =? n - 2 then
      Ok (if (0 <=? a_ret (os (p_log s ++ [c]))) && (m =? S_AUTH_NONE) then 0 else -1,
          set_p_log (p_log s ++ [c]) s)
    else Ok (-1, s).
Proof.
  intros Hn m c. unfold auth_socks5. destruct (Z.leb_spec n 2); [lia|].
  cbv [mbind st_bind comp_bind lift mret st_ret]. rewrite rd_eq by lia.
  destruct (Z.eqb_spec (bat b 1) (n - 2)); cbn [negb]; [|done].
  rewrite auth_method_ok by lia. fold m. cbv [send kret kcall mbind st_bind comp_bind mret st_ret]. fold c.
  destruct (Z.ltb_spec (a_ret (os (p_log s ++ [c]))) 0), (Z.leb_spec 0 (a_ret (os (p_log s ++ [c]))));
    try lia; cbn [andb]; [done|]. subst m. by destruct (existsb _ _).
Qed.
End socks_lemmas.

(** An address type that is none of the three passes every check, and the port is read
    from in front of the request. *)
Lemma s5_get_addr_unknown_type prm os b n a type s :
  S_SIZE_MIN <= n <= blen b → bat b 3 = 2 →
  s5_get_addr prm os b 0 n a type s = Fail OutOfBounds.
Proof.
  unfold S_SIZE_MIN. intros Hn Ht. unfold s5_get_addr, S_SIZE_MIN. destruct (Z.ltb_spec n 8); [lia|].
  cbv [mbind st_bind comp_bind lift mret st_ret]. rewrite !rd_eq by lia. rewrite Z.add_0_l, Ht.
  change (2 =? S_ATP_I4) with false. change (2 =? S_ATP_ID) with false. change (2 =? S_ATP_I6) with false.
  cbv iota. destruct (Z.ltb_spec n 0); [lia|]. reflexivity.
Qed.

(** Without name resolution a TLS destination is accepted with no address at all. *)
Lemma tls_get_addr_no_address prm os b n dst s len host :
  pr_resolve prm = false → parse_tls b n = Ok (len, Some host) → 3 <= len <= 255 →
  tls_get_addr prm os b n dst s = Ok ((0, set_port dst (htons 443)), s).
Proof.
  intros Hr Hp Hl. unfold tls_get_addr. cbv [mbind st_bind comp_bind lift mret st_ret]. rewrite Hp, Hr.
  destruct (Z.ltb_spec len 3), (Z.ltb_spec 255 len); try lia. done.
Qed.

(** [map_fix] turns an IPv4 address into the mapped IPv6 one but leaves the IPv4 bytes in
    the flow label field. *)
Lemma map_fix_keeps_flowinfo a : blen a = sa_len → sa_family a = AF_INET →
  sub (map_fix a 6) 4 4 = sin_addr a.
Proof. intros H E. rewrite map_fix_to6 by done. bytes28 a H. reflexivity. Qed.

Lemma map_fix_back a : blen a = sa_len → sa_family a = AF_INET →
  let x := map_fix (map_fix a 6) 0 in
  sa_family (map_fix a 6) = AF_INET6 ∧ sin_port (map_fix a 6) = sin_port a ∧
  sa_family x = AF_INET ∧ sin_port x = sin_port a ∧ sin_addr x = sin_addr a.
Proof.
  intros H E. cbv zeta. rewrite (map_fix_to4 (map_fix a 6)); rewrite !map_fix_to6 by done;
    bytes28 a H; repeat split; discriminate.
Qed.

(** * Properties *)

Definition v4_sample : bytes := [2; 0; 1; 187; 10; 0; 0; 7] ++ repeat 0 20.
Definition v6_sample : bytes := [23; 0; 1; 187; 0; 0; 0; 0] ++ map Z.of_nat (seq 1 16) ++ repeat 0 4.
Definition os_quiet (l : list call) : answer := Answer 0 [] v4_sample [].
Definition pool0 : poolhd := init_pool 0 [] [].

Lemma os_quiet_resolver : resolver_ok os_quiet.
Proof. intros l h t x y a _. by vm_compute. Qed.

(** An address written by [s5_set_addr] -- at the start of a buffer, or right before
    the payload of a datagram -- is read back by [s5_get_addr] with the same family,
    port and host, and both agree on the size of the header. *)
Theorem s5_addr_roundtrip prm os b p n addr a0 type (tail : bool) s :
  blen addr = sa_len → blen a0 = sa_len →
  sa_family addr = AF_INET ∨ sa_family addr = AF_INET6 ∧ pr_ipv6 prm = true →
  0 <= p → S_SIZE_I6 <= n → p + n <= blen b → (if tail then S_SIZE_I6 <= p else True) →
  ∃ o b' a', s5_set_addr b p n addr tail = Ok (o, b') ∧ blen b' = blen b ∧
    let r := if tail then p - o else p in
    s5_get_addr prm os b' r n a0 type s = Ok ((o, a'), s) ∧ same_addr a' addr.
Proof. apply s5_roundtrip_ok. Qed.

Lemma s5_addr_roundtrip_witness :
  ∃ o b' a', s5_set_addr (repeat 9 60) 22 22 v6_sample true = Ok (o, b') ∧ blen b' = blen (repeat 9 60) ∧
    s5_get_addr prm0 os_quiet b' (22 - o) 22 (repeat 0 28) SOCK_DGRAM pool0 = Ok ((o, a'), pool0) ∧
    same_addr a' v6_sample.
Proof.
  apply (s5_addr_roundtrip prm0 os_quiet (repeat 9 60) 22 22 v6_sample (repeat 0 28) SOCK_DGRAM true pool0);
    try reflexivity; try discriminate. right. split; reflexivity.
Defined.

(** On a SOCKS5 request of any content whose address type is one of the three, at any
    place of a buffer, [s5_get_addr] reads nothing outside the request; it fails, or
    returns the size of the header, which is inside the request, and the port from its
    end. *)
Theorem s5_get_addr_in_bounds prm os b p n a type s :
  resolver_ok os → bytes_wf b → 0 <= p → p + n <= blen b → blen a = sa_len →
  bat b (p + 3) = S_ATP_I4 ∨ bat b (p + 3) = S_ATP_ID ∨ bat b (p + 3) = S_ATP_I6 →
  swp (s5_get_addr prm os b p n a type) s (λ r _, blen r.2 = sa_len ∧
    (r.1 < 0 ∨ S_SIZE_MIN < r.1 <= n ∧ sin_port r.2 = sub b (p + r.1 - 2) 2)).
Proof. apply s5_get_addr_ok. Qed.

Lemma s5_get_addr_in_bounds_witness :
  let b := [5; 1; 0; 3; 3; 97; 46; 98; 1; 187] in
  swp (s5_get_addr prm0 os_quiet b 0 10 (repeat 0 28) SOCK_STREAM) pool0 (λ r _, blen r.2 = sa_len ∧
    (r.1 < 0 ∨ S_SIZE_MIN < r.1 <= 10 ∧ sin_port r.2 = sub b (0 + r.1 - 2) 2)).
Proof.
  apply s5_get_addr_in_bounds; [exact os_quiet_resolver| |discriminate|discriminate|reflexivity|].
  - unfold bytes_wf, is_byte. repeat constructor; discriminate.
  - right. left. reflexivity.
Defined.

(** [s4_get_addr] on any buffer stays inside it; when it succeeds, the address is the
    one of the request, or the name resolved is exactly the string between the end of
    the user id and the final zero, of 3 to 255 bytes. *)
Theorem s4_get_addr_resolves prm os b n dst s :
  resolver_ok os → n <= blen b → blen dst = sa_len →
  swp (s4_get_addr prm os b n dst) s (s4_result prm os b n s).
Proof. apply s4_get_addr_ok. Qed.

Lemma s4_get_addr_resolves_witness :
  swp (s4_get_addr prm0 os_quiet [4; 1; 1; 187; 0; 0; 0; 1; 117; 0; 97; 46; 98; 0] 14 (repeat 0 28)) pool0
    (s4_result prm0 os_quiet [4; 1; 1; 187; 0; 0; 0; 1; 117; 0; 97; 46; 98; 0] 14 pool0).
Proof.
  apply s4_get_addr_resolves; [exact os_quiet_resolver|discriminate|reflexivity].
Defined.

(** [auth_socks5] answers a well-formed greeting with method 0 exactly when it is
    among the methods offered, else with the refusal, and succeeds only in the first
    case; a greeting whose length field is wrong gets no answer. *)
Theorem auth_socks5_answers os fd b n s : 2 < n <= blen b →
  let m := if existsb (λ c, c =? 0) (sub b 2 (n - 2)) then S_AUTH_NONE else S_AUTH_BAD in
  let c := KSend fd [S_VER5; m] in
  auth_socks5 os fd b n s =
    if bat b 1 =? n - 2 then
      Ok (if (0 <=? a_ret (os (p_log s ++ [c]))) && (m =? S_AUTH_NONE) then 0 else -1,
          set_p_log (p_log s ++ [c]) s)
    else Ok (-1, s).
Proof. apply auth_socks5_ok. Qed.

Lemma auth_socks5_answers_witness :
  auth_socks5 os_quiet 5 [5; 2; 2; 0] 4 pool0 = Ok (0, set_p_log [KSend 5 [5; 0]] pool0).
Proof. apply (auth_socks5_answers os_quiet 5 [5; 2; 2; 0] 4 pool0). split; [reflexivity|discriminate]. Defined.

(** [map_fix] to IPv6 keeps the port of an IPv4 address, and [map_fix] back gives its
    family, port and host again. *)
Theorem map_fix_roundtrip a : blen a = sa_len → sa_family a = AF_INET →
  let x := map_fix (map_fix a 6) 0 in
  sa_family (map_fix a 6) = AF_INET6 ∧ sin_port (map_fix a 6) = sin_port a ∧
  sa_family x = AF_INET ∧ sin_port x = sin_port a ∧ sin_addr x = sin_addr a.
Proof. apply map_fix_back. Qed.

Lemma map_fix_roundtrip_witness :
  sa_family (map_fix v4_sample 6) = AF_INET6 ∧ sin_port (map_fix v4_sample 6) = sin_port v4_sample ∧
  sa_family (map_fix (map_fix v4_sample 6) 0) = AF_INET ∧
  sin_port (map_fix (map_fix v4_sample 6) 0) = sin_port v4_sample ∧
  sin_addr (map_fix (map_fix v4_sample 6) 0) = sin_addr v4_sample.
Proof. apply (map_fix_roundtrip v4_sample); reflexivity. Defined.
