(* ===== verification/Extend.v ===== *)
(** byedpi extend.c: what happens around a connection.

    Choosing the group of options for a destination ([find_dp]), the cache of addresses
    ([cache_get], [cache_add]), the triggers that move a connection to the next group
    and connect it again ([on_trigger], [reconnect]), and the hooks on sending and
    receiving that call the desync engine.  The functions of proxy.c that these call
    ([remote_sock], [create_conn]) come first.

    The state is the pool, the groups, the cache and the counters of the engine; a
    pointer to a group is its index. *)
From Stdlib Require Import ZArith Lia Ascii String.
From stdpp Require Import base numbers list option sorting sets.
From S2P Require Import Prelude CMem PacketsTls PacketsHttp Mpool Params Desync DList Conev Socks.

#[local] Open Scope Z_scope.
#[local] Open Scope list_scope.

(** * Groups *)

Definition set_dp_prev (v : option nat) (x : desync_params) : desync_params :=
  DesyncParams (dp_ttl x) (dp_fake_data x) (dp_udp_fake_count x) (dp_fake_offset x)
    (dp_fake_sni_list x) (dp_fake_mod x) (dp_fake_tls_size x) (dp_oob_char x) (dp_parts x)
    (dp_mod_http x) (dp_tlsrec x) (dp_tlsminor x) (dp_proto x) (dp_detect x) (dp_auto_level x)
    (dp_hosts x) (dp_ipset x) (dp_pf x) (dp_rounds x) (dp_out_type x) (dp_out_addr x) (dp_id x)
    (dp_bit x) (dp_fail_count x) (dp_pri x) (dp_cache_ttl x) v (dp_next x).
Definition set_dp_next (v : option nat) (x : desync_params) : desync_params :=
  DesyncParams (dp_ttl x) (dp_fake_data x) (dp_udp_fake_count x) (dp_fake_offset x)
    (dp_fake_sni_list x) (dp_fake_mod x) (dp_fake_tls_size x) (dp_oob_char x) (dp_parts x)
    (dp_mod_http x) (dp_tlsrec x) (dp_tlsminor x) (dp_proto x) (dp_detect x) (dp_auto_level x)
    (dp_hosts x) (dp_ipset x) (dp_pf x) (dp_rounds x) (dp_out_type x) (dp_out_addr x) (dp_id x)
    (dp_bit x) (dp_fail_count x) (dp_pri x) (dp_cache_ttl x) (dp_prev x) v.
Definition set_dp_detect (v : Z) (x : desync_params) : desync_params :=
  DesyncParams (dp_ttl x) (dp_fake_data x) (dp_udp_fake_count x) (dp_fake_offset x)
    (dp_fake_sni_list x) (dp_fake_mod x) (dp_fake_tls_size x) (dp_oob_char x) (dp_parts x)
    (dp_mod_http x) (dp_tlsrec x) (dp_tlsminor x) (dp_proto x) v (dp_auto_level x) (dp_hosts x)
    (dp_ipset x) (dp_pf x) (dp_rounds x) (dp_out_type x) (dp_out_addr x) (dp_id x) (dp_bit x)
    (dp_fail_count x) (dp_pri x) (dp_cache_ttl x) (dp_prev x) (dp_next x).
Definition set_dp_auto_level (v : Z) (x : desync_params) : desync_params :=
  DesyncParams (dp_ttl x) (dp_fake_data x) (dp_udp_fake_count x) (dp_fake_offset x)
    (dp_fake_sni_list x) (dp_fake_mod x) (dp_fake_tls_size x) (dp_oob_char x) (dp_parts x)
    (dp_mod_http x) (dp_tlsrec x) (dp_tlsminor x) (dp_proto x) (dp_detect x) v (dp_hosts x)
    (dp_ipset x) (dp_pf x) (dp_rounds x) (dp_out_type x) (dp_out_addr x) (dp_id x) (dp_bit x)
    (dp_fail_count x) (dp_pri x) (dp_cache_ttl x) (dp_prev x) (dp_next x).
Definition set_dp_pri (v : Z) (x : desync_params) : desync_params :=
  DesyncParams (dp_ttl x) (dp_fake_data x) (dp_udp_fake_count x) (dp_fake_offset x)
    (dp_fake_sni_list x) (dp_fake_mod x) (dp_fake_tls_size x) (dp_oob_char x) (dp_parts x)
    (dp_mod_http x) (dp_tlsrec x) (dp_tlsminor x) (dp_proto x) (dp_detect x) (dp_auto_level x)
    (dp_hosts x) (dp_ipset x) (dp_pf x) (dp_rounds x) (dp_out_type x) (dp_out_addr x) (dp_id x)
    (dp_bit x) (dp_fail_count x) v (dp_cache_ttl x) (dp_prev x) (dp_next x).
Definition set_dp_fail_count (v : Z) (x : desync_params) : desync_params :=
  DesyncParams (dp_ttl x) (dp_fake_data x) (dp_udp_fake_count x) (dp_fake_offset x)
    (dp_fake_sni_list x) (dp_fake_mod x) (dp_fake_tls_size x) (dp_oob_char x) (dp_parts x)
    (dp_mod_http x) (dp_tlsrec x) (dp_tlsminor x) (dp_proto x) (dp_detect x) (dp_auto_level x)
    (dp_hosts x) (dp_ipset x) (dp_pf x) (dp_rounds x) (dp_out_type x) (dp_out_addr x) (dp_id x)
    (dp_bit x) v (dp_pri x) (dp_cache_ttl x) (dp_prev x) (dp_next x).

(** * State *)

(** The pool, the groups with the head of their list ([params.dp]), the cache, and the
    globals of desync.c. *)
Record world := World {
  w_pool : poolhd;
  w_dps : list desync_params;
  w_dp : option nat;
  w_mempool : mphdr;
  w_rand : nat;
  w_tf_count : Z;
  w_tf : list tf_s;
  w_files : list tfile
}.
Definition set_w_pool (v : poolhd) (x : world) : world :=
  World v (w_dps x) (w_dp x) (w_mempool x) (w_rand x) (w_tf_count x) (w_tf x) (w_files x).
Definition set_w_dps (v : list desync_params) (x : world) : world :=
  World (w_pool x) v (w_dp x) (w_mempool x) (w_rand x) (w_tf_count x) (w_tf x) (w_files x).
Definition set_w_dp (v : option nat) (x : world) : world :=
  World (w_pool x) (w_dps x) v (w_mempool x) (w_rand x) (w_tf_count x) (w_tf x) (w_files x).
Definition set_w_mempool (v : mphdr) (x : world) : world :=
  World (w_pool x) (w_dps x) (w_dp x) v (w_rand x) (w_tf_count x) (w_tf x) (w_files x).
Definition set_w_rand (v : nat) (x : world) : world :=
  World (w_pool x) (w_dps x) (w_dp x) (w_mempool x) v (w_tf_count x) (w_tf x) (w_files x).
Definition set_w_tf_count (v : Z) (x : world) : world :=
  World (w_pool x) (w_dps x) (w_dp x) (w_mempool x) (w_rand x) v (w_tf x) (w_files x).
Definition set_w_tf (v : list tf_s) (x : world) : world :=
  World (w_pool x) (w_dps x) (w_dp x) (w_mempool x) (w_rand x) (w_tf_count x) v (w_files x).
Definition set_w_files (v : list tfile) (x : world) : world :=
  World (w_pool x) (w_dps x) (w_dp x) (w_mempool x) (w_rand x) (w_tf_count x) (w_tf x) v.

(** params.h *)
Definition MODE_SOCKS5 : Z := 1.
Definition MODE_SOCKS4 : Z := 2.
Definition MODE_HTTP : Z := 4.
Definition MODE_SHADOWSOCKS : Z := 16.
Definition MODE_RAWTLS : Z := 32.
Definition MODE_TCP : Z := 64.

Definition has_bit (x m : Z) : bool := negb (Z.land x m =? 0).

(** * Pure functions *)

(** The bytes of the packed [struct cache_key] and the number in use. *)
Definition serialize_addr (dst : bytes) : bytes * Z :=
  if sa_family dst =? AF_INET
  then (sub dst 0 2 ++ sin_port dst ++ sin_addr dst ++ repeat 0 12, 8)
  else (sub dst 0 2 ++ sin_port dst ++ sin6_addr dst, 20).

(** The number of leading bits that [a] and [b] share, with [char] shifted signed. *)
Definition eq_bitlen (a b : bytes) (n : Z) : comp Z :=
  k ← loop (λ k, if k <? n then
        x ← rd a k; y ← rd b k; Ok (if x =? y then inl (k + 1) else inr k)
      else Ok (inr k)) (S (Z.to_nat n)) 0;
  bi ← (if negb (k =? n) then
      x ← rd a k; y ← rd b k;
      loop (λ bi, Ok (if (bi <? 8) && negb (Z.shiftr (s8 x) bi =? Z.shiftr (s8 y) bi)
                      then inl (bi + 1) else inr bi)) 9 0
    else Ok 0);
  Ok (k * 8 + 8 - bi).

Definition check_round (nr : Z * Z) (r : Z) : bool :=
  ((nr.2 =? 0) && (r <=? 1)) || ((nr.1 <=? r) && (r <=? nr.2)).

Definition check_ip (ipset : mphdr) (dst : bytes) : bool :=
  let '(len, data) := if sa_family dst =? AF_INET6 then (16, sin6_addr dst) else (4, sin_addr dst) in
  match mem_get ipset data (len * 8) with Some _ => true | None => false end.

Definition check_l34 (dp : desync_params) (st : Z) (dst : bytes) : bool :=
  if has_bit (dp_proto dp) IS_UDP && negb (st =? SOCK_DGRAM) then false
  else if has_bit (dp_proto dp) IS_TCP && negb (st =? SOCK_STREAM) then false
  else if has_bit (dp_proto dp) IS_IPV4 && negb (sa_family dst =? AF_INET) &&
      negb (bool_decide (sub dst 8 12 = repeat 0 10 ++ [255; 255])) then false
  else if negb ((dp_pf dp).1 =? 0) &&
      ((port_raw dst <? (dp_pf dp).1) || ((dp_pf dp).2 <? port_raw dst)) then false
  else match dp_ipset dp with Some s => check_ip s dst | None => true end.

Definition check_host (hosts : mphdr) (buffer : bytes) (n : Z) : comp bool :=
  '(len, host) ← parse_tls buffer n;
  '(len, host) ← (if len =? 0 then h ← parse_http buffer n false; Ok (hh_len h, hh_hs h)
                  else Ok (len, host));
  cassert ((len =? 0) || match host with Some _ => true | None => false end);;
  if len <=? 0 then Ok false else
  match host with
  | None => Fail OutOfBounds
  | Some host =>
      name ← rds buffer host len;
      Ok (match mem_get hosts name len with Some v => e_len v <=? len | None => false end)
  end.

Definition check_proto_tcp (proto : Z) (buffer : bytes) (n : Z) : comp bool :=
  if Z.land proto (Z.lnot IS_IPV4) =? 0 then Ok true else
  http ← (if has_bit proto IS_HTTP then is_http buffer n else Ok false);
  if (http : bool) then Ok true else
  if has_bit proto IS_HTTPS then is_tls_chello buffer n else Ok false.

(** * Operations *)

Section engine.
Context (prm : params).
Context (os : list call → answer).
Context (junk : Z → bytes) (rand : nat → Z).
(** The rounds granted to the loops that go over the groups, the timers and the pairs,
    and to [merge_tls_records]. *)
Context (fuel : nat).

Abbreviation W := (ST world).

(** ** The parts of the state *)

Definition on_pool {A} (m : ST poolhd A) : W A := λ w,
  '(a, p) ← m (w_pool w); Ok (a, set_w_pool p w).
Definition sysret (c : call) : W Z := on_pool (kret os c).
(** [get_e()] *)
Definition get_e : W Z := e ← sysret KGetE; mret (unie e).
(** Following a pointer that may be null. *)
Definition deref (p : option nat) : W nat :=
  match p with Some v => mret v | None => sfail OutOfBounds end.
Definition eval_at (v : nat) : W eval := on_pool (item v).
Definition upd (v : nat) (f : eval → eval) : W unit := on_pool (upd_item v f).
Definition conn_at (v : nat) : W conn := e ← eval_at v; mret (ev_conn e).
Definition updc (v : nat) (f : conn → conn) : W unit :=
  upd v (λ e, set_ev_conn (f (ev_conn e)) e).
Definition group (i : nat) : W desync_params := l ← gets w_dps; lift (geti l (Z.of_nat i)).
Definition upd_group (i : nat) (f : desync_params → desync_params) : W unit :=
  group i;; modify (λ w, set_w_dps (alter f i (w_dps w)) w).

(** A call into desync.c for the descriptor [fd], whose buffer is [b] and whose
    connection has [restore_ttl] and [part_sent] as given: its calls go to the log, and
    its timers are set on [v]. *)
Definition in_desync {A} (fd : Z) (b : bytes) (restore : bool) (part_sent : Z)
    (m : (list sys → Z) → ST dstate A) : W (A * dstate) := λ w,
  let pre := p_log (w_pool w) in
  let os' l := a_ret (os (pre ++ map (KSys fd) l)) in
  '(a, d) ← m os' (DState [] (w_rand w) b no_info restore part_sent (w_tf_count w) (w_tf w) (w_files w));
  Ok ((a, d), World (set_p_log (pre ++ map (KSys fd) (d_log d)) (w_pool w)) (w_dps w) (w_dp w)
                (w_mempool w) (d_rand d) (d_tf_count d) (d_tf d) (d_files d)).

(** The timers among the calls of desync.c. *)
Definition timers_of (l : list sys) : list Z :=
  omap (λ c, match c with SSetTimer ms => Some ms | _ => None end) l.

(** ** proxy.c: opening a connection *)

Definition nb_socket (domain type : Z) : W Z :=
  fd ← sysret (KSocket domain type);
  if fd <? 0 then mret (-1) else
  r ← sysret (KNonBlock fd);
  if r <? 0 then sysret (KClose fd);; mret (-1) else mret fd.

Definition socket_mod (fd : Z) : W Z :=
  if pr_custom_ttl prm then
    '(r, _) ← in_desync fd [] false 0 (λ os, setttl os (pr_def_ttl prm));
    mret (if r <? 0 then -1 else 0)
  else mret 0.

(** The descriptor, and [*dst] in the family of the outgoing address. *)
Definition remote_sock (dst : bytes) (type : Z) : W (Z * bytes) :=
  let dst := map_fix dst (if sa_family (pr_baddr prm) =? AF_INET6 then 6 else 0) in
  if negb (sa_family dst =? sa_family (pr_baddr prm)) then mret (-1, dst) else
  sfd ← nb_socket (sa_family dst) type;
  if sfd <? 0 then mret (-1, dst) else
  r ← socket_mod sfd;
  if r <? 0 then sysret (KClose sfd);; mret (-1, dst) else
  r ← (if sa_family dst =? AF_INET6 then sysret (KSetOpt sfd "IPV6_V6ONLY" 0) else mret 0);
  if negb (r =? 0) then sysret (KClose sfd);; mret (-1, dst) else
  r ← sysret (KBind sfd (pr_baddr prm));
  if r <? 0 then sysret (KClose sfd);; mret (-1, dst) else
  mret (sfd, dst).

Definition create_conn (val : nat) (dst : bytes) (next : evcb) : W Z :=
  '(sfd, addr) ← remote_sock dst SOCK_STREAM;
  if sfd <? 0 then mret (-1) else
  r ← sysret (KSetOpt sfd "TCP_NODELAY" 1);
  if negb (r =? 0) then sysret (KClose sfd);; mret (-1) else
  status ← sysret (KConnect sfd addr);
  bad ← (if status <? 0 then
      e ← get_e; if negb (e =? EINPROGRESS) then e ← get_e; mret (negb (e =? EAGAIN)) else mret false
    else mret false);
  if (bad : bool) then sysret (KClose sfd);; mret (-1) else
  peer ← on_pool (add_event next sfd POLLOUT);
  match peer with
  | None => sysret (KClose sfd);; mret (-1)
  | Some peer =>
      r ← on_pool (mod_etype val 0);
      if r <? 0 then mret (-1) else
      upd val (set_ev_pair (Some peer));;
      upd peer (set_ev_pair (Some val));;
      updc peer (λ c, set_c_flag FLAG_CONN (set_c_addr dst c));;
      upd val (set_ev_cb on_ignore);;
      mret 0
  end.

(** ** The cache of addresses *)

Definition set_timeout (fd s : Z) : W Z :=
  r ← sysret (KSetOpt fd "TCP_MAXRT" (Z.quot s 1000));
  mret (if negb (r =? 0) then -1 else 0).

(** Assigning through a pointer to an element of the cache. *)
Fixpoint tree_update (f : elem → elem) (e : elem) (t : tree elem) : tree elem :=
  match t with
  | Leaf => Leaf
  | Node l x b sz r =>
      Node (tree_update f e l)
        (if (e_len x =? e_len e) && bool_decide (e_data x = e_data e) then f x else x) b sz
        (tree_update f e r)
  end.
Definition upd_elem (e : elem) (f : elem → elem) : W unit :=
  modify (λ w, set_w_mempool (Mphdr (mp_flags (w_mempool w)) (mp_cmp_type (w_mempool w))
    (mp_count (w_mempool w)) (tree_update f e (mp_root (w_mempool w)))) w).
Definition set_e_cache (mask : Z) (detect : Z) (dp : option nat) (e : elem) : elem :=
  Elem (e_len e) (e_data e) (e_cmp_type e) (e_extra e) (e_extra_len e) mask dp detect (e_time e).
Definition set_e_time (t : Z) (e : elem) : elem :=
  Elem (e_len e) (e_data e) (e_cmp_type e) (e_extra e) (e_extra_len e) (e_dp_mask e) (e_dp e) (e_detect e) t.
Definition set_e_extra (x : option bytes) (e : elem) : elem :=
  Elem (e_len e) (e_data e) (e_cmp_type e) x (match x with Some h => blen h | None => e_extra_len e end) (e_dp_mask e) (e_dp e) (e_detect e) (e_time e).

Definition cache_get (dst : bytes) : W (option elem) :=
  let '(key, len) := serialize_addr dst in
  pool ← gets w_mempool;
  match mem_get pool key (len * 8) with
  | None => mret None
  | Some val =>
      i ← deref (e_dp val); dp ← group i;
      t ← sysret KTime;
      if negb (dp_cache_ttl dp =? 0) && (e_time val + dp_cache_ttl dp <? t) then
        pool ← lift (mem_delete pool key len);
        modify (set_w_mempool pool);; mret None
      else mret (Some val)
  end.

(** The element for [dst], and the host when the element did not take it. *)
Definition cache_add (dst : bytes) (host : option bytes) : W (elem * option bytes) :=
  let '(key, n) := serialize_addr dst in
  t ← sysret KTime;
  pool ← gets w_mempool;
  cmp_len ← lift (
    if (sa_family dst =? AF_INET) && negb (pr_cache_pre prm =? 0) then
      match mem_get pool key (n * 8 - pr_cache_pre prm) with
      | Some val => eq_bitlen key (e_data val) n
      | None => Ok (n * 8)
      end
    else Ok (n * 8));
  '(val, _, pool) ← lift (mem_add pool (sub key 0 n) cmp_len);
  modify (set_w_mempool pool);;
  upd_elem val (set_e_time t);;
  match e_extra val, host with
  | None, Some h => upd_elem val (set_e_extra (Some h));; mret (set_e_extra (Some h) (set_e_time t val), None)
  | _, _ => mret (set_e_time t val, host)
  end.

(** ** Groups *)

Definition swop_groups (dpc dpn : nat) : W unit :=
  c ← group dpc; n ← group dpn;
  upd_group dpc (λ x, set_dp_prev (dp_prev n) (set_dp_next (dp_next n) x));;
  upd_group dpn (λ x, set_dp_next (dp_next c) (set_dp_prev (dp_prev c) x));;
  n' ← group dpn;
  match dp_prev n' with Some q => upd_group q (set_dp_next (Some dpn)) | None => skip end;;
  c' ← group dpc;
  match dp_next c' with Some q => upd_group q (set_dp_prev (Some dpc)) | None => skip end;;
  (if decide (dp_next c ≠ Some dpn) then
     n' ← group dpn; q ← deref (dp_next n'); upd_group q (set_dp_prev (Some dpn));;
     c' ← group dpc; q ← deref (dp_prev c'); upd_group q (set_dp_next (Some dpc))
   else
     upd_group dpc (set_dp_prev (Some dpn));; upd_group dpn (set_dp_next (Some dpc)));;
  n' ← group dpn;
  upd_group dpc (λ x, set_dp_auto_level (dp_auto_level n') (set_dp_detect (dp_detect n') x));;
  upd_group dpn (λ x, set_dp_auto_level (dp_auto_level c) (set_dp_detect (dp_detect c) x));;
  head ← gets w_dp;
  if decide (head = Some dpc) then modify (set_w_dp (Some dpn)) else skip.

(** The test of [find_dp]; [first] tells that the group is the one the client has. *)
Definition group_fits (g : desync_params) (c : conn) (first : bool) (buff : option (bytes * Z))
    (dst : bytes) : comp bool :=
  if negb (has_bit (dp_bit g) (c_dp_mask c)) &&
     (first || (dp_detect g =? 0) || has_bit (c_detect c) (dp_detect g)) &&
     check_l34 g SOCK_STREAM dst
  then
    proto ← (match buff with
      | Some (b, n) => if negb (dp_proto g =? 0) then check_proto_tcp (dp_proto g) b n else Ok true
      | None => Ok true end);
    if negb proto then Ok false else
    match buff, dp_hosts g with
    | Some (b, n), Some h => check_host h b n
    | _, _ => Ok true
    end
  else Ok false.

(** The loop of [find_dp]: the group that fits, or null when all are used up. *)
Definition find_dp_body (client : nat) (buff : option (bytes * Z)) (dst : bytes) (init_dp : option nat)
    (dp : option nat) : W (option nat + option nat) :=
  head ← gets w_dp;
  i ← deref (match dp with Some i => Some i | None => head end);
  c ← conn_at client;
  if c_dp_mask c =? pr_dp_full_mask prm then mret (inr None) else
  g ← group i;
  fits ← lift (group_fits g c (bool_decide (Some i = init_dp)) buff dst);
  if (fits : bool) then mret (inr (Some i)) else
  updc client (λ c, set_c_dp_mask (Z.lor (c_dp_mask c) (dp_bit g)) c);;
  mret (inl (dp_next g)).

Definition find_dp (client : nat) (buff : option (bytes * Z)) (dst : bytes) : W (option nat) :=
  e ← eval_at client;
  let buff := match buff, ev_buff e with
              | None, Some b => Some (b_data b, b_lock b) | _, _ => buff end in
  sloop (find_dp_body client buff dst (c_dp (ev_conn e))) fuel (c_dp (ev_conn e)).

Definition connect_hook (val : nat) (dst : bytes) (next : evcb) : W Z :=
  c ← conn_at val;
  (match c_dp c with
   | Some _ => skip
   | None =>
       e ← cache_get dst;
       match e with
       | Some e => updc val (λ c, set_c_dp (e_dp e) (set_c_detect (e_detect e)
                                    (set_c_dp_mask (e_dp_mask e) c)))
       | None => skip
       end
   end);;
  dp ← find_dp val None dst;
  match dp with
  | None => mret (-1)
  | Some i =>
      updc val (set_c_dp (Some i));;
      g ← group i; e ← eval_at val;
      if (bool_decide (is_Some (dp_hosts g)) || negb (dp_proto g =? 0)) &&
         negb (bool_decide (is_Some (ev_buff e))) && pr_delay_conn prm then
        r ← on_pool (resp_error os (ev_fd e) 0 (c_flag (ev_conn e)));
        if r <? 0 then mret (-1) else
        upd val (set_ev_cb recv_and_connect);;
        updc val (set_c_addr dst);; mret 0
      else if negb (dp_out_type g =? 0) then
        r ← create_conn val (dp_out_addr g) (if dp_out_type g =? MODE_SOCKS5 then on_socks_conn else next);
        if negb (r =? 0) then mret r else
        e ← eval_at val; peer ← deref (ev_pair e);
        updc peer (λ c, set_c_addr dst (set_c_after_conn_cb next c));; mret r
      else create_conn val dst next
  end.

(** ** Triggers *)

Definition reconnect (val : nat) : W Z :=
  e ← eval_at val;
  lift (cassert (c_flag (ev_conn e) =? FLAG_CONN));;
  client ← deref (ev_pair e);
  ce ← eval_at client;
  (match ev_sq_buff ce with
   | None => skip
   | Some sq =>
       buff ← (match ev_buff ce with
               | Some b => mret b | None => on_pool (buff_pop junk (b_size sq)) end);
       data ← lift (memcpy (b_data buff) 0 (b_data sq) 0 (b_lock sq));
       upd client (set_ev_buff (Some (Buffer (b_size buff) 0 (b_lock sq) data)))
   end);;
  updc client (λ c, set_c_part_sent 0 (set_c_round_sent 0 c));;
  r ← connect_hook client (c_addr (ev_conn e)) on_connect;
  if negb (r =? 0) then mret (-1) else
  upd val (set_ev_pair None);;
  on_pool (del_event os fuel val);;
  mret 0.

(** The search of [on_trigger] for the next group: [uncheked], and the group. *)
Definition next_group_body (lav : nat) (type : Z) (can_reconn : bool) (x : option nat * Z) :
    W ((option nat * Z) + (Z * option nat)) :=
  let '(dp, uncheked) := x in
  match dp with
  | None => mret (inr (uncheked, None))
  | Some i =>
      g ← group i; c ← conn_at lav;
      if (uncheked =? 0) && (dp_detect g =? 0) then mret (inr (uncheked, None)) else
      if negb (has_bit (dp_bit g) (c_dp_mask c)) &&
         ((dp_detect g =? 0) || has_bit (dp_detect g) type) &&
         (negb (has_bit (dp_auto_level g) AUTO_ONRECONN) || can_reconn)
      then mret (inr (uncheked, Some i)) else
      updc lav (λ c, set_c_dp_mask (Z.lor (c_dp_mask c) (dp_bit g)) c);;
      mret (inl (dp_next g, Z.land uncheked (Z.lnot (dp_bit g))))
  end.

Definition on_trigger (type : Z) (val : nat) (client_alive : bool) : W Z :=
  e ← eval_at val; lav ← deref (ev_pair e); le ← eval_at lav;
  let before_req := (c_recv_count (ev_conn le) =? 0) && (c_recv_count (ev_conn e) =? 0) in
  let can_reconn := (bool_decide (is_Some (ev_sq_buff le)) || before_req) && client_alive in
  '(cache, host) ← cache_add (c_addr (ev_conn e)) (ev_host le);
  upd lav (set_ev_host host);;
  cur ← deref (c_dp (ev_conn le));
  upd_group cur (λ g, set_dp_fail_count (dp_fail_count g + 1) g);;
  g ← group cur;
  updc lav (λ c, set_c_detect type (set_c_dp_mask (Z.lor (c_dp_mask c) (dp_bit g)) c));;
  lc ← conn_at lav; head ← gets w_dp;
  '(uncheked, next) ← sloop (next_group_body lav type can_reconn) fuel (head, c_dp_mask lc);
  g ← group cur;
  (if negb (has_bit (dp_bit g) (e_dp_mask cache)) then
     (match next with
      | Some i =>
          n ← group i;
          if has_bit (dp_auto_level n) AUTO_SORT && (dp_pri n <? dp_pri g) &&
             negb (has_bit (dp_bit g) uncheked)
          then swop_groups cur i else skip
      | None => skip
      end);;
     upd_group cur (λ g, set_dp_pri (dp_pri g + 1) g)
   else skip);;
  match next with
  | None =>
      head ← gets w_dp;
      upd_elem cache (set_e_cache 0 0 head);; mret (-1)
  | Some i =>
      lc ← conn_at lav;
      upd_elem cache (set_e_cache (Z.lor (e_dp_mask cache) (c_dp_mask lc)) (c_detect lc) (Some i));;
      n ← group i;
      if negb (has_bit (dp_auto_level n) AUTO_NORECONN) && can_reconn then reconnect val else mret (-1)
  end.

Definition on_torst (val : nat) : W Z :=
  r ← on_trigger DETECT_TORST val true;
  if r =? 0 then mret 0 else
  e ← eval_at val; peer ← deref (ev_pair e); pe ← eval_at peer;
  sysret (KSetOpt (ev_fd pe) "SO_LINGER" 1);;
  mret (-1).

Definition on_fin (val : nat) : W Z :=
  e ← eval_at val;
  let is_client := negb (c_flag (ev_conn e) =? FLAG_CONN) in
  match (if is_client then ev_pair e else Some val) with
  | None => mret (-1)
  | Some val =>
      e ← eval_at val; peer ← deref (ev_pair e); pc ← conn_at peer;
      if negb (c_mark pc && (c_round_count (ev_conn e) <=? 1)) then mret (-1) else
      r ← on_trigger DETECT_TLS_ERR val (negb is_client);
      mret (if r =? 0 then 0 else -1)
  end.

Definition on_timeout (val : nat) : W Z :=
  updc val (λ c, set_c_to_count (c_to_count c + 1) c);;
  c ← conn_at val;
  if pr_to_count_lim prm <=? c_to_count c then on_torst val else
  on_pool (set_timer os val (pr_ptimeout prm) fuel);; mret 0.

Definition on_connerr (val : nat) : W Z := on_trigger DETECT_CONNECT val true.

(** The search of [on_response] for a group that the answer triggers. *)
Definition response_body (mask : Z) (req : bytes) (qn : Z) (resp : bytes) (sn : Z) (dp : option nat) :
    W (option nat + option nat) :=
  match dp with
  | None => mret (inr None)
  | Some i =>
      g ← group i;
      if has_bit (dp_bit g) mask then mret (inl (dp_next g)) else
      http ← (if has_bit (dp_detect g) DETECT_HTTP_LOCAT
              then lift (is_http_redirect req qn resp sn) else mret false);
      if (http : bool) then mret (inr (Some i)) else
      tls ← (if has_bit (dp_detect g) DETECT_TLS_ERR then lift (
          ch ← is_tls_chello req qn;
          bad ← (if (ch : bool) then sh ← is_tls_shello resp sn; Ok (negb sh) else Ok false);
          if (bad : bool) then Ok true else neq_tls_sid req qn resp sn)
        else mret false);
      mret (if (tls : bool) then inr (Some i) else inl (dp_next g))
  end.

Definition on_response (val : nat) (resp : bytes) (sn : Z) : W Z :=
  e ← eval_at val; peer ← deref (ev_pair e); pe ← eval_at peer;
  match ev_sq_buff pe with
  | None => sfail OutOfBounds
  | Some sq =>
      cur ← deref (c_dp (ev_conn pe)); g ← group cur;
      updc peer (λ c, set_c_dp_mask (Z.lor (c_dp_mask c) (dp_bit g)) c);;
      head ← gets w_dp;
      dp ← sloop (response_body (Z.lor (c_dp_mask (ev_conn pe)) (dp_bit g)) (b_data sq) (b_size sq) resp sn)
        fuel head;
      match dp with
      | Some i => g ← group i; on_trigger (dp_detect g) val true
      | None => mret (-1)
      end
  end.

(** [ANTOHS(data, i)] over [uint8_t] data. *)
Definition ANTOHS_u8 (b : bytes) (i : Z) : comp Z :=
  hi ← rd b i; lo ← rd b (i + 1); Ok (Z.shiftl (u16 hi) 8 + u8 lo).

(** The record that the TLS stream is in: the header so far, the bytes seen of the record
    and its size. *)
Definition tls_track (buff : bytes) (n : Z) (x : Z * (bytes * Z * Z)) :
    comp ((Z * (bytes * Z * Z)) + (bool * (bytes * Z * Z))) :=
  let '(pos, (hdr, rpos, size)) := x in
  let next (y : Z * (bytes * Z * Z)) := if y.1 <? n then inl y else inr (true, y.2) in
  if rpos <? 5 then
    c ← rd buff pos; hdr ← store hdr rpos [c];
    Ok (next (pos + 1, (hdr, rpos + 1, size)))
  else
    '(size, bad, again) ← (
      if rpos =? 5 then
        v ← ANTOHS_u8 hdr 3; t ← rd hdr 0; Ok (v + 5, (t <? 20) || (24 <? t), false)
      else Ok (size, false, rpos =? size));
    if (bad : bool) then Ok (inr (false, (hdr, rpos, size))) else
    if (again : bool) then Ok (next (pos, (hdr, 0, 0))) else
    let end_ := size - rpos in
    if end_ <=? 0 then Ok (inr (false, (hdr, rpos, size))) else
    let end_ := if n <? pos + end_ then n - pos else end_ in
    Ok (next (pos + end_, (hdr, rpos + end_, size))).

Definition tls_track_all (buff : bytes) (n : Z) (t : bytes * Z * Z) : comp (bool * (bytes * Z * Z)) :=
  loop (tls_track buff n) (S (2 * S (Z.to_nat n))) (0, t).

Definition try_set_tls_timer (val : nat) (buff : bytes) (n : Z) : W Z :=
  c ← conn_at val;
  if negb (pr_to_bytes_lim prm =? 0) && (pr_to_bytes_lim prm <? c_recv_count c) then
    on_pool (remove_timer val);; mret (-1)
  else
    '(ok, (hdr, rpos, size)) ← lift (tls_track_all buff n (c_tls_rec c, c_tls_rec_pos c, c_tls_rec_size c));
    updc val (λ c, set_c_tls_rec hdr (set_c_tls_rec_pos rpos (set_c_tls_rec_size size c)));;
    if negb ok then mret (-1) else
    (if negb (pr_ptimeout prm =? 0) then
       on_pool (remove_timer val);;
       (if negb (rpos =? size) then on_pool (set_timer os val (pr_ptimeout prm) fuel) else skip)
     else skip);;
    mret 0.

(** ** The hooks *)

Definition free_first_req (client : nat) : W unit :=
  e ← eval_at client;
  on_pool (buff_push (ev_sq_buff e));; upd client (set_ev_sq_buff None).

(** [malloc] of a negative length fails. *)
Definition save_hostname (client : nat) (buffer : bytes) (n : Z) : W unit :=
  e ← eval_at client;
  match ev_host e with
  | Some _ => skip
  | None =>
      '(len, host) ← lift (parse_tls buffer n);
      '(len, host) ← (if len =? 0 then h ← lift (parse_http buffer n false); mret (hh_len h, hh_hs h)
                      else mret (len, host));
      if len <=? 0 then skip else
      host ← deref (Z.to_nat <$> host);
      name ← lift (rds buffer (Z.of_nat host) len);
      upd client (set_ev_host (Some name));;
      updc client (set_c_host_len len)
  end.

Definition setup_conn (client : nat) (buffer : bytes) (n : Z) : W Z :=
  e ← eval_at client; peer ← deref (ev_pair e); pe ← eval_at peer;
  dp ← find_dp client (Some (buffer, n)) (c_addr (ev_conn pe));
  match dp with
  | None => mret (-1)
  | Some i =>
      save_hostname client buffer n;;
      mark ← lift (is_tls_chello buffer n);
      updc client (λ c, set_c_dp (Some i) (set_c_mark mark c));;
      (* pre_desync does nothing in this build *)
      if negb (pr_timeout prm =? 0) then
        r ← set_timeout (ev_fd pe) (pr_timeout prm); mret (if negb (r =? 0) then -1 else 0)
      else mret 0
  end.

Definition handle_err (val : nat) (e : Z) : W Z :=
  if (e =? ECONNRESET) || (e =? ECONNREFUSED) || (e =? ETIMEDOUT) || (e =? EHOSTUNREACH) then
    c ← conn_at val;
    if c_flag c =? FLAG_CONN then on_torst val else on_fin val
  else mret (-1).

(** The buffer of a connection ([val->buff]). *)
Definition buff_of (val : nat) : W buffer :=
  e ← eval_at val;
  match ev_buff e with Some b => mret b | None => sfail OutOfBounds end.
Definition updb (val : nat) (f : buffer → buffer) : W unit :=
  upd val (λ e, set_ev_buff (f <$> ev_buff e) e).

(** The call of [desync] for the connection [remote] of [client], with the buffer of
    [owner]; [lock] tells that [*n] is the [lock] of this buffer. *)
Definition call_desync (remote client owner : nat) (n : Z) (lock : bool) (dp : desync_params) :
    W (Z * bool * Z) :=
  re ← eval_at remote; cc ← conn_at client; buff ← buff_of owner;
  '((ret, wait, n), d) ← in_desync (ev_fd re) (b_data buff) (c_restore_ttl (ev_conn re)) (c_part_sent cc)
    (λ os, desync prm os rand junk fuel (b_size buff) (b_offset buff) n (c_round_sent cc) dp);
  updc remote (set_c_restore_ttl (d_restore_ttl d));;
  updc client (set_c_part_sent (d_part_sent d));;
  (match timers_of (d_log d) with
   | ms :: _ => on_pool (set_timer os remote ms fuel) | [] => skip end);;
  updb owner (λ b, set_b_data (d_buf d) (if lock then set_b_lock n b else b));;
  mret (ret, wait, n).

(** [tcp_send_hook(pool, remote, owner->buff, n, wait)]: the value returned, [*wait] and
    [*n]. *)
Definition tcp_send_hook (remote owner : nat) (n : Z) (lock : bool) : W (Z * bool * Z) :=
  re ← eval_at remote; buff ← buff_of owner;
  let conn := c_flag (ev_conn re) =? FLAG_CONN in
  let off := b_offset buff in
  setup ← (if conn then
      client ← deref (ev_pair re); cc ← conn_at client;
      (if c_recv_count cc =? n then setup_conn client (b_data buff) n else mret 0)
    else mret 0);
  if setup <? 0 then mret (-1, false, n) else
  skip_ ← (if conn then
      client ← deref (ev_pair re); cc ← conn_at client; i ← deref (c_dp cc); g ← group i;
      mret (negb (check_round (dp_rounds g) (c_round_count cc)))
    else mret true);
  '(sn, wait, n, again) ← (if (skip_ : bool) then
        l ← lift (rds (b_data buff) off (n - off));
        sn ← sysret (KSend (ev_fd re) l);
        again ← (if sn <? 0 then e ← get_e; mret (e =? EAGAIN) else mret false);
        mret (sn, false, n, again)
    else
        client ← deref (ev_pair re); cc ← conn_at client; i ← deref (c_dp cc); g ← group i;
        '(sn, wait, n) ← call_desync remote client owner n lock g;
        mret (sn, wait, n, false));
  if (again : bool) then mret (0, wait, n) else
  if sn <? 0 then e ← get_e; r ← handle_err remote e; mret (r, wait, n)
  else
    re ← eval_at remote; peer ← deref (ev_pair re);
    updc peer (λ c, set_c_round_sent (c_round_sent c + sn) c);;
    mret (sn, wait, n).

(** What [tcp_recv_hook] does with a request, for a later connection. *)
Definition keep_request (val : nat) (buff : buffer) (n : Z) : W Z :=
  e ← eval_at val;
  sq ← (match ev_sq_buff e with
        | Some b => mret b | None => on_pool (buff_pop junk (b_size buff)) end);
  let lock := b_lock sq + n in
  if b_size sq <=? lock then
    upd val (set_ev_sq_buff (Some (set_b_lock lock sq)));; free_first_req val;; mret n
  else
    data ← lift (memcpy (b_data sq) (lock - n) (b_data buff) 0 n);
    upd val (set_ev_sq_buff (Some (set_b_lock lock (set_b_data data sq))));; mret n.

(** What [tcp_recv_hook] does with an answer. *)
Definition on_answer (val : nat) (buff : buffer) (n : Z) : W Z :=
  e ← eval_at val; peer ← deref (ev_pair e); pc ← conn_at peer;
  (if c_mark pc then
     r ← try_set_tls_timer val (b_data buff) n;
     (if negb (r =? 0) then updc peer (set_c_mark false) else skip)
   else skip);;
  c ← conn_at val;
  (if (0 <=? c_to_count c) && negb (pr_timeout prm =? 0) &&
      (negb (pr_to_bytes_lim prm =? 0) && (pr_to_bytes_lim prm <? c_recv_count c)) then
     set_timeout (ev_fd e) 0;; updc val (set_c_to_count (-1))
   else skip);;
  pe ← eval_at peer;
  match ev_sq_buff pe with
  | None => mret n
  | Some _ =>
      r ← on_response val (b_data buff) n;
      if r =? 0 then mret 0 else free_first_req peer;; mret n
  end.

(** What [tcp_recv_hook] does with the counters of a round; [pair] is [val->pair].
    [post_desync] does nothing in this build, so that the test for the last round has no
    effect. *)
Definition count_round (val : nat) (pair : option nat) : W unit :=
  c ← conn_at val;
  (if c_round_sent c =? 0 then
     updc val (λ c, set_c_round_count (u32 (c_round_count c + 1)) c);;
     match pair with
     | Some peer => updc peer (λ c, set_c_part_sent 0 (set_c_round_sent 0 c))
     | None => skip
     end
   else skip);;
  if (c_flag c =? FLAG_CONN) && (c_round_sent c =? 0) then
    peer ← deref pair; pc ← conn_at peer; i ← deref (c_dp pc); group i;; skip
  else skip.

(** [tcp_recv_hook(pool, val, val->buff)] *)
Definition tcp_recv_hook (val : nat) : W Z :=
  e ← eval_at val; buff ← buff_of val;
  a ← on_pool (kcall os (KRecv (ev_fd e) (b_size buff)));
  let n := a_ret a in
  if n <? 1 then
    if n =? 0 then on_fin val else
    err ← get_e;
    if err =? EAGAIN then mret 0 else
    err ← get_e; handle_err val err
  else
    data ← lift (memcpy (b_data buff) 0 (a_data a) 0 n);
    let buff := set_b_data data buff in
    upd val (set_ev_buff (Some buff));;
    updc val (λ c, set_c_recv_count (c_recv_count c + n) c);;
    count_round val (ev_pair e);;
    c ← conn_at val;
    if c_flag c =? FLAG_CONN then on_answer val buff n else
    c ← conn_at val;
    if pr_auto_reconnect prm && (bool_decide (is_Some (ev_sq_buff e)) || (c_recv_count c =? n))
    then keep_request val buff n
    else mret n.

Definition on_recv_and_connect (val : nat) : W Z :=
  buff ← on_pool (buff_pop junk (pr_bfsize prm));
  upd val (set_ev_buff (Some buff));;
  lock ← tcp_recv_hook val;
  updb val (set_b_lock lock);;
  if lock <=? 0 then mret (-1) else
  c ← conn_at val;
  connect_hook val (c_addr c) on_connect.

(** The search of [udp_hook] for a group. *)
Definition udp_group_body (dst : bytes) (dp : option nat) : W (option nat + option nat) :=
  match dp with
  | None => mret (inr None)
  | Some i =>
      g ← group i;
      mret (if (dp_detect g =? 0) && check_l34 g SOCK_DGRAM dst then inr (Some i) else inl (dp_next g))
  end.

(** [udp_hook(val, buffer + p, n, dst)] *)
Definition udp_hook (val : nat) (buffer : bytes) (p n : Z) (dst : bytes) : W Z :=
  e ← eval_at val; q ← deref (ev_pair e); qe ← eval_at q; peer ← deref (ev_pair qe);
  pc ← conn_at peer;
  dp ← (match c_dp pc with
        | Some i => mret (Some i)
        | None => head ← gets w_dp; sloop (udp_group_body dst) fuel head end);
  match dp with
  | None => mret (-1)
  | Some i =>
      updc peer (set_c_dp (Some i));;
      g ← group i;
      l ← lift (rds buffer p n);
      if negb (check_round (dp_rounds g) (c_round_count pc)) then sysret (KSend (ev_fd e) l) else
      '(r, _) ← in_desync (ev_fd e) l false 0 (λ os, desync_udp prm os n g);
      mret r
  end.
End engine.
