(* ===== verification/World.v ===== *)
(** Rules to run the parts of the state of extend.c: the pool, a connection in it, a
    group of options, a call of the system. *)
From Stdlib Require Import ZArith Lia Ascii String.
From stdpp Require Import base numbers list option sorting sets.
From S2P Require Import Prelude CMem PacketsTls PacketsHttp Mpool Params Desync DList Conev Socks Extend.

#[local] Open Scope Z_scope.
#[local] Open Scope list_scope.

(** * Running the parts of the state *)

Lemma swp_on_pool {A} (m : ST poolhd A) w (P : A → world → Prop) :
  swp m (w_pool w) (λ a p, P a (set_w_pool p w)) → swp (on_pool m) w P.
Proof.
  unfold swp, on_pool. intros H. unfold mbind, comp_bind. destruct (m (w_pool w)) as [[a p]|]; done.
Qed.

Definition client_at (w : world) (v : nat) (e : eval) : Prop := p_items (w_pool w) !! v = Some e.

Lemma swp_eval_at v w e (P : eval → world → Prop) : client_at w v e → P e w → swp (eval_at v) w P.
Proof.
  intros E HP. apply swp_on_pool. eapply swp_item; [exact E|]. by destruct w.
Qed.
Lemma swp_conn_at v w e (P : conn → world → Prop) :
  client_at w v e → P (ev_conn e) w → swp (conn_at v) w P.
Proof. intros E HP. unfold conn_at. sstep. eapply swp_eval_at; [exact E|]. by sstep. Qed.

(** The world after an assignment through a pointer to a connection. *)
Definition with_eval (w : world) (v : nat) (f : eval → eval) : world :=
  set_w_pool (set_p_items (alter f v (p_items (w_pool w))) (w_pool w)) w.

Lemma swp_upd_eval v f w e (P : unit → world → Prop) :
  client_at w v e → P tt (with_eval w v f) → swp (upd v f) w P.
Proof. intros E HP. apply swp_on_pool, swp_upd; [by exists e|]. exact HP. Qed.

Lemma swp_updc v f w e (P : unit → world → Prop) :
  client_at w v e → P tt (with_eval w v (λ e, set_ev_conn (f (ev_conn e)) e)) → swp (updc v f) w P.
Proof. apply swp_upd_eval. Qed.

Lemma client_at_with w v f e : client_at w v e → client_at (with_eval w v f) v (f e).
Proof. unfold client_at. cbn. intros E. by rewrite list_lookup_alter_eq, E. Qed.

Lemma alter_fixed {A} (f : A → A) (l : list A) (i : nat) x : l !! i = Some x → f x = x → alter f i l = l.
Proof.
  intros Hx Hf. apply list_eq. intros j. destruct (decide (j = i)) as [->|].
  - by rewrite list_lookup_alter_eq, Hx; cbn; rewrite Hf.
  - by rewrite list_lookup_alter_ne.
Qed.

(** ** Groups *)

Lemma swp_group i w g (P : desync_params → world → Prop) :
  w_dps w !! i = Some g → P g w → swp (group i) w P.
Proof.
  intros E HP. unfold group. sstep. sstep. sstep. eapply wp_geti; [lia| |exact HP].
  by rewrite Nat2Z.id.
Qed.

Lemma swp_upd_group i f w (P : unit → world → Prop) :
  is_Some (w_dps w !! i) → P tt (set_w_dps (alter f i (w_dps w)) w) → swp (upd_group i f) w P.
Proof. intros [g E] HP. unfold upd_group. sstep. eapply swp_group; [exact E|]. by sstep. Qed.

Lemma swp_upd_group_opt (o : option nat) f w (P : unit → world → Prop) :
  (∀ q, o = Some q → is_Some (w_dps w !! q)) →
  P tt (set_w_dps (upd_opt o f (w_dps w)) w) →
  swp (match o with Some q => upd_group q f | None => skip end) w P.
Proof. intros H HP. destruct o as [q|]; [apply swp_upd_group; auto|]. sstep. by destruct w. Qed.

Lemma swp_deref o x w (P : nat → world → Prop) : o = Some x → P x w → swp (deref o) w P.
Proof. by intros ->. Qed.

(** ** Calls of the system *)

Definition world_log (w : world) : list call := p_log (w_pool w).
Definition with_log (l : list call) (w : world) : world := set_w_pool (set_p_log l (w_pool w)) w.

Lemma swp_sysret os c w (P : Z → world → Prop) :
  P (a_ret (os (world_log w ++ [c]))) (with_log (world_log w ++ [c]) w) → swp (sysret os c) w P.
Proof. done. Qed.

Lemma swp_get_e os w (P : Z → world → Prop) :
  P (unie (a_ret (os (world_log w ++ [KGetE])))) (with_log (world_log w ++ [KGetE]) w) →
  swp (get_e os) w P.
Proof. intros HP. unfold get_e. sstep. apply swp_sysret. by sstep. Qed.

Lemma swp_answer os c w (P : answer → world → Prop) :
  P (os (world_log w ++ [c])) (with_log (world_log w ++ [c]) w) → swp (on_pool (kcall os c)) w P.
Proof. done. Qed.
