(* ===== verification/TlsTrack.v ===== *)
(** The TLS record tracker of [try_set_tls_timer] (extend.c) against the record format.

    [tls_byte] is the specification, byte by byte; the loop of the code takes a chunk of
    the stream at a time and does the same, however the stream is cut. *)
From Stdlib Require Import ZArith Lia Ascii String.
From stdpp Require Import base numbers list option sorting sets.
From S2P Require Import Prelude CMem PacketsTls PacketsHttp Mpool Params Desync DList Conev Socks Extend.

#[local] Open Scope Z_scope.
#[local] Open Scope list_scope.

(** * The TLS record tracker *)

(** The specification: what one byte of the stream does to the state of the tracker, the
    header so far, the bytes seen of the record and its size.  [None] is a stream that is
    not made of TLS records. *)
Definition tls_byte (t : bytes * Z * Z) (c : Z) : option (bytes * Z * Z) :=
  let '(hdr, rpos, size) := t in
  if rpos <? 5 then Some (put hdr rpos [c], rpos + 1, size)
  else if rpos =? 5 then
    if (20 <=? bat hdr 0) && (bat hdr 0 <=? 24) && (0 <? be16 hdr 3)
    then Some (hdr, 6, be16 hdr 3 + 5) else None
  else if rpos =? size then Some (put hdr 0 [c], 1, 0)
  else if rpos <? size then Some (hdr, rpos + 1, size) else None.

Fixpoint tls_bytes (t : bytes * Z * Z) (l : bytes) : option (bytes * Z * Z) :=
  match l with [] => Some t | c :: l => t ← tls_byte t c; tls_bytes t l end.

Definition tracker_wf (t : bytes * Z * Z) : Prop :=
  let '(hdr, rpos, size) := t in bytes_wf hdr ∧ blen hdr = 5 ∧ 0 <= rpos.

Lemma tls_bytes_app t a b : tls_bytes t (a ++ b) = t' ← tls_bytes t a; tls_bytes t' b.
Proof.
  revert t. induction a as [|c a IH]; intros t; [done|]. simpl.
  destruct (tls_byte t c); simpl; [apply IH | done].
Qed.

Lemma wp_ANTOHS_u8 b i P :
  bytes_wf b → 0 <= i → i + 1 < blen b → P (be16 b i) → wp (ANTOHS_u8 b i) P.
Proof.
  intros Hb ?? HP. unfold ANTOHS_u8. wp_step. apply wp_rd; [lia|]. wp_step.
  apply wp_rd; [lia|]. wp_step.
  pose proof (bat_byte b i Hb). pose proof (bat_byte b (i + 1) Hb). unfold is_byte in *.
  rewrite u16_small, u8_small, Z.shiftl_mul_pow2 by lia. exact HP.
Qed.

(** [k] bytes inside a record do nothing but count. *)
Lemma tls_bytes_skip hdr rpos size l :
  5 < rpos → rpos + blen l <= size → tls_bytes (hdr, rpos, size) l = Some (hdr, rpos + blen l, size).
Proof.
  revert rpos. induction l as [|c l IH]; intros rpos H1 H2; [simpl; rewrite blen_nil; f_equal; f_equal; f_equal; lia|].
  rewrite blen_cons in *. pose proof (blen_nonneg l). cbn [tls_bytes]. unfold tls_byte.
  destruct (Z.ltb_spec rpos 5); [lia|]. destruct (Z.eqb_spec rpos 5); [lia|].
  destruct (Z.eqb_spec rpos size); [lia|]. destruct (Z.ltb_spec rpos size); [|lia].
  cbn. rewrite IH by lia. do 3 f_equal; lia.
Qed.

(** The same from the end of the header on. *)
Lemma tls_bytes_body hdr c l :
  20 <= bat hdr 0 <= 24 → blen (c :: l) <= be16 hdr 3 →
  ∀ size, tls_bytes (hdr, 5, size) (c :: l) = Some (hdr, 5 + blen (c :: l), be16 hdr 3 + 5).
Proof.
  intros Ht Hl size. rewrite blen_cons in *. pose proof (blen_nonneg l). cbn [tls_bytes]. unfold tls_byte. cbn [Z.ltb Z.eqb Z.compare].
  change (5 <? 5) with false. change (5 =? 5) with true. cbv iota.
  destruct (Z.leb_spec 20 (bat hdr 0)); [|lia]. destruct (Z.leb_spec (bat hdr 0) 24); [|lia].
  destruct (Z.ltb_spec 0 (be16 hdr 3)); [|lia]. cbn.
  rewrite tls_bytes_skip by lia. do 3 f_equal; lia.
Qed.

Lemma tls_byte_wf t c t' : is_byte c → tracker_wf t → tls_byte t c = Some t' → tracker_wf t'.
Proof.
  destruct t as [[hdr rpos] size]. intros Hc (Hw & Hl & Hr). unfold tls_byte.
  repeat case_match; try discriminate; intros [= <-]; repeat split;
    try (apply wf_put; [done|by apply Forall_singleton]);
    try (rewrite blen_put; rewrite ?blen_cons, ?blen_nil); try done; lia.
Qed.

(** What is left of the stream when the tracker stops. *)
Definition tracked (t : bytes * Z * Z) (l : bytes) (r : bool * (bytes * Z * Z)) : Prop :=
  match tls_bytes t l with Some t' => r = (true, t') | None => r.1 = false end.

Lemma sub_cons b i n : 0 <= i → 0 < n → i + n <= blen b → sub b i n = bat b i :: sub b (i + 1) (n - 1).
Proof.
  intros. rewrite (sub_split b i n 1) by lia. unfold sub at 1.
  rewrite (drop_S b (bat b i) (Z.to_nat i)) by (apply bat_bs_lookup; lia).
  done.
Qed.

Section tracker.
Context (b : bytes) (n : Z) (t0 : bytes * Z * Z).
Context (Hb : bytes_wf b) (Hn : 0 < n <= blen b).

Let rest (pos : Z) : bytes := sub b pos (n - pos).

(** The state at [pos] leads where the state at the start leads. *)
Let inv (x : Z * (bytes * Z * Z)) : Prop :=
  0 <= x.1 < n ∧ tracker_wf x.2 ∧ tls_bytes x.2 (rest x.1) = tls_bytes t0 (rest 0).

Let msr (x : Z * (bytes * Z * Z)) : nat :=
  let '(pos, (_, rpos, size)) := x in
  (2 * Z.to_nat (n - pos) + if (5 <? rpos)%Z && (rpos =? size)%Z then 1 else 0)%nat.

Lemma rest_split pos k : 0 <= pos → 0 <= k → pos + k <= n → rest pos = sub b pos k ++ rest (pos + k).
Proof. intros. unfold rest. rewrite (sub_split b pos (n - pos) k) by lia. do 2 f_equal; lia. Qed.

Lemma tracker_next x pos t :
  0 <= pos <= n → tracker_wf t → tls_bytes t (rest pos) = tls_bytes t0 (rest 0) →
  (msr (pos, t) < msr x)%nat →
  match (if pos <? n then inl (pos, t) else inr (true, t)) with
  | inl y => inv y ∧ (msr y < msr x)%nat
  | inr r => tracked t0 (rest 0) r
  end.
Proof.
  intros Hp Ht E Hm. destruct (Z.ltb_spec pos n); [by split; [split; [cbn; lia|]|]|].
  assert (pos = n) as -> by lia. unfold tracked. rewrite <- E. unfold rest at 1.
  rewrite Z.sub_diag, sub_0. done.
Qed.

(** Taking [k] bytes at once. *)
Lemma tracker_take pos t k t' :
  inv (pos, t) → 0 < k → pos + k <= n → tls_bytes t (sub b pos k) = Some t' → tracker_wf t' →
  match (if pos + k <? n then inl (pos + k, t') else inr (true, t')) with
  | inl y => inv y ∧ (msr y < msr (pos, t))%nat
  | inr r => tracked t0 (rest 0) r
  end.
Proof.
  intros (Hp & Hw & E) Hk Hkn Et Hw'. cbn [fst snd] in *. apply tracker_next; [lia|done| |].
  - rewrite <- E, (rest_split pos k) by lia. rewrite tls_bytes_app, Et. done.
  - destruct t as [[? r] s], t' as [[? r'] s']. unfold msr. repeat case_match; lia.
Qed.

Lemma tracker_fails pos t :
  inv (pos, t) → tls_byte t (bat b pos) = None → ∀ t', tracked t0 (rest 0) (false, t').
Proof.
  intros (Hp & _ & E) Ef t'. unfold tracked. rewrite <- E. cbn [fst snd] in *. unfold rest.
  rewrite sub_cons by lia. cbn [tls_bytes]. rewrite Ef. done.
Qed.

Lemma tracker_step x : inv x →
  wp (tls_track b n x) (λ r, match r with
    | inl y => inv y ∧ (msr y < msr x)%nat | inr r => tracked t0 (rest 0) r end).
Proof.
  destruct x as [pos [[hdr rpos] size]]. intros Hi. pose proof Hi as (Hp & (Hw & Hl & Hr) & E).
  cbn [fst snd] in *. unfold tls_track. destruct (Z.ltb_spec rpos 5) as [H5|H5].
  - wp_step. apply wp_rd; [lia|]. wp_step.
    apply wp_store; [lia|rewrite blen_cons, blen_nil; lia|]. wp_step.
    apply (tracker_take pos (hdr, rpos, size) 1); [done|lia|lia| |].
    + rewrite sub_cons by lia. change (1 - 1) with 0. rewrite sub_0. cbn [tls_bytes]. unfold tls_byte.
      destruct (Z.ltb_spec rpos 5); [done|lia].
    + repeat split; [|rewrite blen_put; rewrite ?blen_cons, ?blen_nil; lia|lia].
      apply wf_put; [done|]. apply Forall_singleton. by apply bat_byte.
  - assert (∀ k, 0 < k → pos + k <= n → ∃ l, sub b pos k = bat b pos :: l) as Hsub.
    { intros k ??. rewrite sub_cons by lia. eauto. }
    destruct (Z.eqb_spec rpos 5) as [->|N5].
    + repeat wp_step. apply wp_ANTOHS_u8; [done|lia|lia|]. wp_step. apply wp_rd; [lia|]. wp_step.
      pose proof (be16_range hdr 3 Hw).
      assert (tls_byte (hdr, 5, size) (bat b pos) =
        if (20 <=? bat hdr 0) && (bat hdr 0 <=? 24) && (0 <? be16 hdr 3)
        then Some (hdr, 6, be16 hdr 3 + 5) else None) as Eb by done.
      destruct (Z.ltb_spec (bat hdr 0) 20), (Z.ltb_spec 24 (bat hdr 0)); cbn [orb];
        try (apply wp_ok, (tracker_fails pos (hdr, 5, size)); [done|]; rewrite Eb;
             destruct (Z.leb_spec 20 (bat hdr 0)), (Z.leb_spec (bat hdr 0) 24); done || lia).
      destruct (Z.leb_spec (be16 hdr 3 + 5 - 5) 0).
      { apply wp_ok, (tracker_fails pos (hdr, 5, size)); [done|]. rewrite Eb.
        destruct (Z.ltb_spec 0 (be16 hdr 3)); [lia|]. by rewrite andb_false_r. }
      apply wp_ok. cbn [fst snd]. set (k := if n <? pos + _ then _ else _).
      assert (0 < k ∧ pos + k <= n ∧ k <= be16 hdr 3) as (K1 & K2 & K3).
      { unfold k. destruct (Z.ltb_spec n (pos + (be16 hdr 3 + 5 - 5))); lia. }
      apply (tracker_take pos (hdr, 5, size) k); [done|lia|lia| |repeat split; done || lia].
      destruct (Hsub k) as [l El]; [lia|lia|]. rewrite El, tls_bytes_body, <- El, blen_sub; [done|..]; try lia.
      rewrite <- El, blen_sub; lia.
    + repeat wp_step. destruct (Z.eqb_spec rpos size) as [<-|Ns].
      * apply wp_ok. apply tracker_next; [lia|by repeat split| |].
        -- rewrite <- E. unfold rest. rewrite sub_cons by lia. cbn [tls_bytes]. unfold tls_byte.
           destruct (Z.ltb_spec rpos 5); [lia|]. destruct (Z.eqb_spec rpos 5); [lia|].
           by rewrite Z.eqb_refl.
        -- unfold msr. rewrite Z.eqb_refl. destruct (Z.ltb_spec 5 rpos); [|lia]. cbn. lia.
      * assert (tls_byte (hdr, rpos, size) (bat b pos) =
          if rpos <? size then Some (hdr, rpos + 1, size) else None) as Eb.
        { unfold tls_byte. destruct (Z.ltb_spec rpos 5); [lia|]. destruct (Z.eqb_spec rpos 5); [lia|].
          destruct (Z.eqb_spec rpos size); [lia|done]. }
        destruct (Z.leb_spec (size - rpos) 0).
        { apply wp_ok, (tracker_fails pos (hdr, rpos, size)); [done|]. rewrite Eb.
          destruct (Z.ltb_spec rpos size); [lia|done]. }
        apply wp_ok. cbn [fst snd]. set (k := if n <? pos + _ then _ else _).
        assert (0 < k ∧ pos + k <= n ∧ k <= size - rpos) as (K1 & K2 & K3).
        { unfold k. destruct (Z.ltb_spec n (pos + (size - rpos))); lia. }
        apply (tracker_take pos (hdr, rpos, size) k); [done|lia|lia| |repeat split; done || lia].
        rewrite tls_bytes_skip, blen_sub; [done|..]; try lia. rewrite blen_sub; lia.
Qed.
End tracker.

(** The tracker does on a chunk what the specification does byte by byte. *)
Lemma tls_track_all_ok b n t :
  bytes_wf b → 0 < n <= blen b → tracker_wf t →
  wp (tls_track_all b n t) (tracked t (sub b 0 n)).
Proof.
  intros Hb Hn Ht. unfold tls_track_all.
  pose proof (wp_loop (tls_track b n) _ _ _ (tracker_step b n t Hb Hn) (S (2 * S (Z.to_nat n))) (0, t)) as W.
  cbv beta in W. rewrite !Z.sub_0_r in W. apply W.
  - repeat split; cbn; try lia. exact Ht.
  - destruct t as [[? r] s]. case_match; lia.
Qed.

(** The state stays well formed, also where the tracker gives up. *)
Lemma tls_track_wf b n x : bytes_wf b → 0 <= x.1 < n → n <= blen b → tracker_wf x.2 →
  wp (tls_track b n x) (λ r, match r with
    | inl y => 0 <= y.1 < n ∧ tracker_wf y.2 | inr r => tracker_wf r.2 end).
Proof.
  destruct x as [pos [[hdr rpos] size]]. cbn [fst snd]. intros Hb Hp Hn (Hw & Hl & Hr). unfold tls_track.
  assert (Hnext : ∀ p t, 0 <= p → tracker_wf t →
    match (if p <? n then inl (p, t) else inr (true, t)) with
    | inl y => 0 <= y.1 < n ∧ tracker_wf y.2 | inr r => tracker_wf r.2 end).
  { intros p t H0 Ht. destruct (Z.ltb_spec p n); cbn; [by split|done]. }
  destruct (Z.ltb_spec rpos 5) as [H5|H5].
  - wp_step. apply wp_rd; [lia|]. wp_step. apply wp_store; [lia|rewrite blen_cons, blen_nil; lia|]. wp_step.
    apply Hnext; [lia|]. split_and!; [|rewrite blen_put; rewrite ?blen_cons, ?blen_nil; lia|lia].
    apply wf_put; [done|]. apply Forall_singleton. by apply bat_byte.
  - wp_step.
    assert (Hend : ∀ size' (bad again : bool), wp (
        if bad then Ok (inr (false, (hdr, rpos, size'))) else
        if again then Ok (if pos <? n then inl (pos, (hdr, 0, 0)) else inr (true, (hdr, 0, 0))) else
        let end_ := size' - rpos in
        if end_ <=? 0 then Ok (inr (false, (hdr, rpos, size'))) else
        let end_ := if n <? pos + end_ then n - pos else end_ in
        Ok (if pos + end_ <? n then inl (pos + end_, (hdr, rpos + end_, size')) else inr (true, (hdr, rpos + end_, size'))))
      (λ r, match r with inl y => 0 <= y.1 < n ∧ tracker_wf y.2 | inr r => tracker_wf r.2 end)).
    { intros size' bad again. destruct bad; [apply wp_ok; by split_and!|]. destruct again.
      - apply wp_ok, Hnext; [lia|by split_and!].
      - cbv zeta. destruct (Z.leb_spec (size' - rpos) 0); [apply wp_ok; by split_and!|].
        destruct (Z.ltb_spec n (pos + (size' - rpos))); apply wp_ok, Hnext; try lia; split_and!; done || lia. }
    destruct (Z.eqb_spec rpos 5).
    + wp_step. apply wp_ANTOHS_u8; [done|lia|lia|]. wp_step. apply wp_rd; [lia|]. apply wp_ok. exact (Hend _ _ false).
    + apply wp_ok. exact (Hend _ false _).
Qed.

Lemma tls_track_all_wf b n t : bytes_wf b → 0 < n <= blen b → tracker_wf t →
  wp (tls_track_all b n t) (λ r, tracker_wf r.2).
Proof.
  intros Hb Hn Ht. pose proof (tls_track_all_ok b n t Hb Hn Ht) as H. unfold tls_track_all in *.
  assert (Hp : pwp (loop (tls_track b n) (S (2 * S (Z.to_nat n))) (0, t)) (λ r, tracker_wf r.2)).
  { apply (pwp_loop _ (λ x, 0 <= x.1 < n ∧ tracker_wf x.2)); [|by split; [cbn; lia|]].
    intros x [Hx Hw]. pose proof (tls_track_wf b n x Hb Hx (proj2 Hn) Hw) as Hs. unfold wp in Hs. unfold pwp.
    by destruct (tls_track b n x). }
  unfold wp, pwp in *. by destruct (loop _ _ _).
Qed.

(** A TLS record: its type, its version and its fragment. *)
Definition tls_record (type : Z) (ver frag : bytes) : bytes := type :: ver ++ enc16 (blen frag) ++ frag.

Definition record_ok (r : Z * bytes * bytes) : Prop :=
  let '(type, ver, frag) := r in
  20 <= type <= 24 ∧ blen ver = 2 ∧ bytes_wf ver ∧ bytes_wf frag ∧ 0 < blen frag < 65536.

Definition tls_stream (l : list (Z * bytes * bytes)) : bytes :=
  concat (map (λ '(type, ver, frag), tls_record type ver frag) l).

(** The tracker stands at the start of a record: nothing is seen yet, or all of the last one. *)
Definition at_boundary (t : bytes * Z * Z) : Prop :=
  let '(hdr, rpos, size) := t in
  blen hdr = 5 ∧ bytes_wf hdr ∧ (rpos = 0 ∧ size = 0 ∨ 5 < rpos ∧ rpos = size).

Lemma tls_bytes_header hdr t0 v1 v2 l1 l2 s0 t :
  blen hdr = 5 → bytes_wf hdr → t = (hdr, 0, s0) ∨ (∃ r, 5 < r ∧ t = (hdr, r, r)) →
  ∃ s, tls_bytes t [t0; v1; v2; l1; l2] = Some ([t0; v1; v2; l1; l2], 5, s).
Proof.
  intros Hl Hw Ht.
  destruct hdr as [|h0 [|h1 [|h2 [|h3 [|h4 [|h5 hdr]]]]]];
    rewrite ?blen_cons, ?blen_nil in Hl; try (pose proof (blen_nonneg hdr)); try lia.
  destruct Ht as [->|(r & Hr & ->)]; [by eexists|].
  exists 0. cbn [tls_bytes].
  assert (tls_byte ([h0; h1; h2; h3; h4], r, r) t0 = Some ([t0; h1; h2; h3; h4], 1, 0)) as ->; [|done].
  unfold tls_byte. destruct (Z.ltb_spec r 5); [lia|]. destruct (Z.eqb_spec r 5); [lia|].
  by rewrite Z.eqb_refl.
Qed.

Lemma tls_bytes_record t r :
  at_boundary t → record_ok r → ∃ t', tls_bytes t (let '(type, ver, frag) := r in tls_record type ver frag) = Some t' ∧
    at_boundary t'.
Proof.
  destruct t as [[hdr rpos] size], r as [[type ver] frag].
  intros (Hl & Hw & Hb) (Ht & Hv & Wv & Wf & Hf).
  destruct ver as [|v1 [|v2 [|v3 ver]]]; rewrite ?blen_cons, ?blen_nil in Hv; try (pose proof (blen_nonneg ver)); try lia.
  pose proof (be16_enc16 (blen frag)) as E16. pose proof (enc16_wf (blen frag)) as W16.
  rewrite u16_small in E16 by lia. unfold tls_record. unfold enc16 in *.
  set (l1 := u8 (Z.shiftr _ _)) in *. set (l2 := u8 (Z.land _ _)) in *.
  destruct (tls_bytes_header hdr type v1 v2 l1 l2 size (hdr, rpos, size)) as [s Es]; [done|done| |].
  { destruct Hb as [[-> ->]|[? ->]]; eauto. }
  change (type :: [v1; v2] ++ [l1; l2] ++ frag) with ([type; v1; v2; l1; l2] ++ frag).
  rewrite tls_bytes_app, Es. cbn [mbind option_bind].
  destruct frag as [|c frag]; [rewrite blen_nil in Hf; lia|].
  assert (be16 [type; v1; v2; l1; l2] 3 = blen (c :: frag)) as Eb by exact E16.
  eexists. split; [apply tls_bytes_body; [done|rewrite Eb; lia]|].
  split; [done|]. split.
  - unfold bytes_wf in *. rewrite list.Forall_cons, list.Forall_cons in Wv. rewrite list.Forall_cons, list.Forall_cons in W16.
    rewrite !list.Forall_cons. unfold is_byte in *.
    destruct Wv as (? & ? & _), W16 as (? & ? & _). repeat split; try done; lia.
  - right. lia.
Qed.

Lemma tls_bytes_stream l t :
  at_boundary t → Forall record_ok l → ∃ t', tls_bytes t (tls_stream l) = Some t' ∧ at_boundary t'.
Proof.
  revert t. induction l as [|[[type ver] frag] l IH]; intros t Ht Hl; [by eexists|].
  apply list.Forall_cons in Hl as [Hr Hl]. destruct (tls_bytes_record t _ Ht Hr) as (t1 & E1 & H1).
  destruct (IH t1 H1 Hl) as (t2 & E2 & H2). exists t2. split; [|done].
  unfold tls_stream in *. cbn [map concat]. rewrite tls_bytes_app, E1. exact E2.
Qed.

(** The tracker fed with the answers as they come in. *)
Fixpoint track_chunks (chunks : list bytes) (t : bytes * Z * Z) : comp (bool * (bytes * Z * Z)) :=
  match chunks with
  | [] => Ok (true, t)
  | c :: chunks =>
      '(ok, t) ← tls_track_all c (blen c) t; if (ok : bool) then track_chunks chunks t else Ok (false, t)
  end.

Lemma tls_bytes_wf t l t' : bytes_wf l → tracker_wf t → tls_bytes t l = Some t' → tracker_wf t'.
Proof.
  revert t. induction l as [|c l IH]; intros t Hl Ht; [by intros [= <-]|].
  apply list.Forall_cons in Hl as [Hc Hl]. cbn [tls_bytes].
  destruct (tls_byte t c) as [t1|] eqn:E; [|done]. apply IH; [done|]. by eapply tls_byte_wf.
Qed.

Lemma track_chunks_ok chunks t :
  Forall (λ c, bytes_wf c ∧ c ≠ []) chunks → tracker_wf t →
  wp (track_chunks chunks t) (tracked t (concat chunks)).
Proof.
  revert t. induction chunks as [|c chunks IH]; intros t Hc Ht; [done|].
  apply list.Forall_cons in Hc as [[Hw Hn] Hc]. cbn [track_chunks concat].
  assert (0 < blen c) by (destruct c; [done|rewrite blen_cons; pose proof (blen_nonneg c); lia]).
  wp_step. eapply wp_mono; [apply tls_track_all_ok; [done|lia|done]|].
  intros [ok t'] H'. rewrite sub_all in H'. unfold tracked in *. rewrite tls_bytes_app.
  destruct (tls_bytes t c) as [t1|] eqn:E; cbn in *.
  - injection H' as -> ->. apply IH; [done|]. by eapply tls_bytes_wf.
  - by rewrite H'.
Qed.

Lemma at_boundary_wf t : at_boundary t → tracker_wf t.
Proof. destruct t as [[hdr rpos] size]. intros (? & ? & ?). repeat split; try done. lia. Qed.

(** C25: However the answer is cut into pieces, the loop of [try_set_tls_timer] does to the
    header, the position and the size kept in the connection what the record format asks
    byte by byte, and rejects exactly the streams that the format rejects. *)
Theorem tls_track_refines chunks t :
  Forall (λ c, bytes_wf c ∧ c ≠ []) chunks → tracker_wf t →
  wp (track_chunks chunks t) (λ r, match tls_bytes t (concat chunks) with
    | Some t' => r = (true, t') | None => r.1 = false end).
Proof. apply track_chunks_ok. Qed.

Lemma tls_track_refines_witness :
  wp (track_chunks [[22; 3]; [3; 0; 2; 7]; [8; 23]] (repeat 0 5, 0, 0)) (λ r, r = (true, ([23; 3; 3; 0; 2], 1, 0))).
Proof.
  apply (tls_track_refines [[22; 3]; [3; 0; 2; 7]; [8; 23]] (repeat 0 5, 0, 0)).
  - repeat constructor; try done; lia.
  - repeat split; try done; repeat constructor; lia.
Defined.

(** A stream of well-formed TLS records, however it is cut, is accepted, and at its end
    the bytes seen equal the size of the record, where [try_set_tls_timer] leaves the
    timer off. *)
Theorem tls_stream_tracked l chunks :
  Forall record_ok l → concat chunks = tls_stream l → Forall (λ c, bytes_wf c ∧ c ≠ []) chunks →
  wp (track_chunks chunks (repeat 0 5, 0, 0)) (λ '(ok, (hdr, rpos, size)), ok = true ∧ rpos = size).
Proof.
  intros Hl Ec Hc. assert (at_boundary (repeat 0 5, 0, 0)) as Hb.
  { split; [done|]. split; [|by left]. repeat constructor; lia. }
  eapply wp_mono; [apply track_chunks_ok; [done|by apply at_boundary_wf]|].
  intros [ok [[hdr rpos] size]]. unfold tracked. rewrite Ec.
  destruct (tls_bytes_stream l _ Hb Hl) as (t' & -> & Ht').
  intros [= -> <-]. destruct Ht' as (_ & _ & [[-> ->]|[? ->]]); done.
Qed.

Lemma tls_stream_tracked_witness :
  wp (track_chunks [[22; 3; 3]; [0; 2; 7; 8; 21; 3]; [3; 0; 1; 9]] (repeat 0 5, 0, 0))
    (λ '(ok, (hdr, rpos, size)), ok = true ∧ rpos = size).
Proof.
  apply (tls_stream_tracked [(22, [3; 3], [7; 8]); (21, [3; 3], [9])]
    [[22; 3; 3]; [0; 2; 7; 8; 21; 3]; [3; 0; 1; 9]]).
  - repeat constructor; try done; unfold blen; simpl; lia.
  - reflexivity.
  - repeat constructor; try done; lia.
Defined.
