(* ===== verification/Groups.v ===== *)
(** The list of groups of options (extend.c): exchanging two of them ([swop_groups]) and
    choosing one for a destination ([find_dp]).

    [groups w l] says that the groups of the world [w] form the doubly linked list [l];
    [bits_ok] that each has the bit of its number in the masks. *)
From Stdlib Require Import ZArith Lia Ascii String.
From stdpp Require Import base numbers list option sorting sets.
From S2P Require Import Prelude CMem PacketsTls PacketsHttp Mpool Params Desync DList Conev Socks Extend World.

#[local] Open Scope Z_scope.
#[local] Open Scope list_scope.

(** * The list of groups *)

#[export] Instance group_dnode : DNode dp_prev dp_next set_dp_prev set_dp_next.
Proof. by split. Qed.

(** The groups form the doubly linked list [l], from the head of [params.dp]. *)
Record groups (w : world) (l : list nat) : Prop := {
  gr_nodup : NoDup l;
  gr_head : w_dp w = hd_or None l;
  gr_seg : dseg dp_prev dp_next (w_dps w) None l None
}.

(** What the exchange of the groups [c] and [n] does to the array, [prv] and [nxt] being
    the neighbours that stay: the one before [c] and the one after [n]. *)
Definition swopped (dps : list desync_params) (c n : nat) (gc gn : desync_params) : list desync_params :=
  upd_opt (dp_next gn) (set_dp_prev (Some c))
    (upd_opt (dp_prev gc) (set_dp_next (Some n))
      (alter (λ x, set_dp_next (dp_next gc) (set_dp_prev (dp_prev gc) x)) n
        (alter (λ x, set_dp_prev (dp_prev gn) (set_dp_next (dp_next gn) x)) c dps))).

(** The links inside, and the two settings that stay in their place. *)
Definition swop_inner (c n : nat) (gc gn : desync_params) (dps : list desync_params) : list desync_params :=
  if decide (dp_next gc ≠ Some n)
  then upd_opt (dp_prev gn) (set_dp_next (Some c)) (upd_opt (dp_next gc) (set_dp_prev (Some n)) dps)
  else alter (set_dp_next (Some c)) n (alter (set_dp_prev (Some n)) c dps).
Definition swop_settings (c n : nat) (gc gn : desync_params) (dps : list desync_params) : list desync_params :=
  alter (λ x, set_dp_auto_level (dp_auto_level gc) (set_dp_detect (dp_detect gc) x)) n
    (alter (λ x, set_dp_auto_level (dp_auto_level gn) (set_dp_detect (dp_detect gn) x)) c dps).


Section swop.
Context (w : world) (l1 l2 l3 : list nat) (c n : nat) (gc gn : desync_params).
Context (Hg : groups w (l1 ++ c :: l2 ++ n :: l3)).
Context (Ec : w_dps w !! c = Some gc) (En : w_dps w !! n = Some gn).

Lemma swop_parts :
  NoDup l1 ∧ NoDup l2 ∧ NoDup l3 ∧ c ≠ n ∧
  (c ∉ l1) ∧ (c ∉ l2) ∧ (c ∉ l3) ∧ (n ∉ l1) ∧ (n ∉ l2) ∧ (n ∉ l3) ∧
  (∀ x, x ∈ l1 → (x ∉ l2) ∧ (x ∉ l3)) ∧ (∀ x, x ∈ l2 → x ∉ l3).
Proof.
  pose proof (gr_nodup _ _ Hg) as H. apply NoDup_app in H as (N1 & D1 & H).
  apply NoDup_cons in H as [Hc H]. apply NoDup_app in H as (N2 & D2 & H).
  apply NoDup_cons in H as [Hn N3]. split_and!; try done; try set_solver.
Qed.

Lemma swop_links :
  dp_prev gc = last_or None l1 ∧ dp_next gc = hd_or (Some n) l2 ∧
  dp_prev gn = last_or (Some c) l2 ∧ dp_next gn = hd_or None l3 ∧
  dseg dp_prev dp_next (w_dps w) None l1 (Some c) ∧
  dseg dp_prev dp_next (w_dps w) (Some c) l2 (Some n) ∧
  dseg dp_prev dp_next (w_dps w) (Some n) l3 None.
Proof.
  pose proof (gr_seg _ _ Hg) as H. apply seg_app in H as [S1 H]. cbn [hd_or dseg] in *.
  destruct H as [(g & E & P1 & P2) H]. simplify_eq. apply seg_app in H as [S2 H].
  cbn [hd_or dseg] in *. destruct H as [(g' & E' & P3 & P4) S3]. simplify_eq.
  rewrite hd_or_app in P2. by split_and!.
Qed.

(** A neighbour that an end of a segment names is an index of the segment. *)
Lemma swop_prev_fresh : (∀ q, dp_prev gc = Some q → q ≠ c ∧ q ≠ n ∧ is_Some (w_dps w !! q)).
Proof.
  destruct swop_links as (-> & _ & _ & _ & S1 & _). destruct swop_parts as (_ & _ & _ & _ & C1 & _ & _ & N1 & _).
  intros q Hq%last_or_elem. split_and!; [by intros ->|by intros ->|]. by eapply seg_lookup.
Qed.
Lemma swop_next_fresh : (∀ q, dp_next gn = Some q → q ≠ c ∧ q ≠ n ∧ is_Some (w_dps w !! q)).
Proof.
  destruct swop_links as (_ & _ & _ & -> & _ & _ & S3).
  destruct swop_parts as (_ & _ & _ & _ & _ & _ & C3 & _ & _ & N3 & _).
  intros q Hq%hd_or_elem. split_and!; [by intros ->|by intros ->|]. by eapply seg_lookup.
Qed.

Lemma swopped_at_c : swopped (w_dps w) c n gc gn !! c = Some (set_dp_prev (dp_prev gn) (set_dp_next (dp_next gn) gc)).
Proof.
  destruct swop_parts as (_ & _ & _ & Hcn & _). unfold swopped.
  rewrite !upd_opt_ne by (intros Hq; first [by apply swop_next_fresh in Hq as [??]|by apply swop_prev_fresh in Hq as [??]]).
  rewrite list_lookup_alter_ne by done. by rewrite list_lookup_alter_eq, Ec.
Qed.
Lemma swopped_at_n : swopped (w_dps w) c n gc gn !! n = Some (set_dp_next (dp_next gc) (set_dp_prev (dp_prev gc) gn)).
Proof.
  destruct swop_parts as (_ & _ & _ & Hcn & _). unfold swopped.
  rewrite !upd_opt_ne by (intros Hq; first [by apply swop_next_fresh in Hq as (_ & ? & _)|by apply swop_prev_fresh in Hq as (_ & ? & _)]).
  rewrite list_lookup_alter_eq, list_lookup_alter_ne by done. by rewrite En.
Qed.
Lemma swopped_is_Some q : is_Some (w_dps w !! q) → is_Some (swopped (w_dps w) c n gc gn !! q).
Proof. intros H. unfold swopped. do 2 apply upd_opt_is_Some.
  by do 2 (eapply (upd_opt_is_Some (Some _))). Qed.

(** The segments after the exchange. *)
Lemma swopped_segs :
  let dps := swopped (w_dps w) c n gc gn in
  dseg dp_prev dp_next dps None l1 (Some n) ∧ dseg dp_prev dp_next dps (Some c) l2 (Some n) ∧
  dseg dp_prev dp_next dps (Some c) l3 None.
Proof.
  destruct swop_links as (E1 & E2 & E3 & E4 & S1 & S2 & S3).
  destruct swop_parts as (N1 & N2 & N3 & Hcn & C1 & C2 & C3 & M1 & M2 & M3 & D1 & D2).
  unfold swopped. rewrite E1, E4. split_and!.
  - apply seg_upd_notin; [intros q Hq%hd_or_elem Hq'; by destruct (D1 q Hq')|].
    apply (seg_end _ None _ (Some c)); [done|done|]. by do 2 (apply seg_alter_notin; [done|]).
  - apply seg_upd_notin; [intros q Hq%hd_or_elem Hq'; by apply (D2 q Hq')|].
    apply seg_upd_notin; [intros q Hq%last_or_elem; by apply D1|].
    by do 2 (apply seg_alter_notin; [done|]).
  - apply (seg_start _ (Some n)); [done| |done].
    apply seg_upd_notin; [intros q Hq%last_or_elem; by apply D1|].
    by do 2 (apply seg_alter_notin; [done|]).
Qed.

Lemma swop_inner_segs :
  let dps := swop_inner c n gc gn (swopped (w_dps w) c n gc gn) in
  dseg dp_prev dp_next dps None (l1 ++ n :: l2 ++ c :: l3) None.
Proof.
  destruct swop_links as (E1 & E2 & E3 & E4 & _).
  destruct swop_parts as (N1 & N2 & N3 & Hcn & C1 & C2 & C3 & M1 & M2 & M3 & D1 & D2).
  destruct swopped_segs as (S1 & S2 & S3). pose proof swopped_at_c as Ac. pose proof swopped_at_n as An.
  unfold swop_inner. set (dps := swopped _ _ _ _ _) in *. cbv zeta.
  apply seg_app. cbn [hd_or dseg]. rewrite seg_app, hd_or_app. cbn [hd_or dseg].
  destruct (decide (dp_next gc ≠ Some n)) as [Hd|Hd].
  - rewrite E2 in Hd. destruct l2 as [|x l2']; [done|].
    rewrite E2, E3. cbn [hd_or]. rewrite (last_or_some (Some c)), (last_or_some (Some n)) by done.
    assert (∀ q, last_or None (x :: l2') = Some q → q ∈ x :: l2') as Hl by apply last_or_elem.
    assert (x ∈ x :: l2') as Hx by left.
    assert (∀ v, v ∉ x :: l2' → upd_opt (last_or None (x :: l2')) (set_dp_next (Some c))
      (upd_opt (Some x) (set_dp_prev (Some n)) dps) !! v = dps !! v) as Hk.
    { intros v Hv. rewrite !upd_opt_ne; [done|by intros [= ->]|by intros Hq%Hl]. }
    split_and!.
    + apply seg_upd_notin; [intros q Hq%Hl Hq'; by destruct (D1 q Hq')|].
      apply seg_upd_notin; [intros q [= <-] Hq'; by destruct (D1 x Hq')|done].
    + eexists. rewrite Hk by done. split; [exact An|]. cbn. by rewrite E1, E2.
    + rewrite <- (last_or_some (Some n)) by done. apply (seg_end _ _ _ (Some n)); [done|done|].
      by apply (seg_start _ (Some c) (x :: l2') (Some n)).
    + eexists. rewrite Hk by done. split; [exact Ac|]. cbn. by rewrite E3, (last_or_some (Some c)), E4.
    + apply seg_upd_notin; [intros q Hq%Hl; by apply D2|].
      apply seg_upd_notin; [intros q [= <-]; by apply D2|done].
  - rewrite E2 in Hd. destruct l2 as [|x l2'].
    2: { exfalso. apply Hd. cbn. intros [= ->]. apply M2. by left. }
    cbn [hd_or last_or dseg] in *. split_and!; try done.
    + by do 2 (apply seg_alter_notin; [done|]).
    + eexists. rewrite list_lookup_alter_eq, list_lookup_alter_ne, An by done. split; [done|]. cbn. by rewrite E1.
    + eexists. rewrite list_lookup_alter_ne, list_lookup_alter_eq, Ac by done. split; [done|]. cbn. by rewrite E4.
    + by do 2 (apply seg_alter_notin; [done|]).
Qed.

(** The world after [swop_groups]. *)
Definition swop_world : world :=
  let dps := swop_settings c n gc gn (swop_inner c n gc gn (swopped (w_dps w) c n gc gn)) in
  set_w_dp (if decide (w_dp w = Some c) then Some n else w_dp w) (set_w_dps dps w).

Lemma swop_inner_at q dps :
  is_Some (dps !! q) → is_Some (swop_inner c n gc gn dps !! q).
Proof.
  intros H. unfold swop_inner. case_decide.
  - by do 2 apply upd_opt_is_Some.
  - by do 2 (eapply (upd_opt_is_Some (Some _))).
Qed.

(** The settings at [n], which the links do not touch. *)
Lemma swop_inner_settings dps q g : dps !! q = Some g → ∃ g', swop_inner c n gc gn dps !! q = Some g' ∧
  dp_detect g' = dp_detect g ∧ dp_auto_level g' = dp_auto_level g.
Proof.
  assert (∀ o f (l : list desync_params) x, (∀ a, dp_detect (f a) = dp_detect a ∧ dp_auto_level (f a) = dp_auto_level a) →
    l !! q = Some x → ∃ y, upd_opt o f l !! q = Some y ∧ dp_detect y = dp_detect x ∧ dp_auto_level y = dp_auto_level x) as H.
  { intros [v|] f l x Hf Hx; [|by exists x]. cbn. destruct (decide (q = v)) as [->|].
    - exists (f x). rewrite list_lookup_alter_eq, Hx. by destruct (Hf x).
    - exists x. by rewrite list_lookup_alter_ne. }
  assert (∀ o1 f1 o2 f2, (∀ a, dp_detect (f1 a) = dp_detect a ∧ dp_auto_level (f1 a) = dp_auto_level a) →
    (∀ a, dp_detect (f2 a) = dp_detect a ∧ dp_auto_level (f2 a) = dp_auto_level a) → dps !! q = Some g →
    ∃ g', upd_opt o1 f1 (upd_opt o2 f2 dps) !! q = Some g' ∧ dp_detect g' = dp_detect g ∧ dp_auto_level g' = dp_auto_level g) as H2.
  { intros o1 f1 o2 f2 Hf1 Hf2 Hx. destruct (H o2 f2 dps g Hf2 Hx) as (y & Ey & D1 & D2).
    destruct (H o1 f1 _ y Hf1 Ey) as (z & Ez & D3 & D4). exists z. split_and!; congruence. }
  intros Hx. unfold swop_inner. case_decide; [by apply H2|].
  by apply (H2 (Some n) _ (Some c)).
Qed.


(** The assignments before the links inside. *)
Lemma swop_outer_runs (k : world → comp (unit * world)) P :
  swp k (set_w_dps (swopped (w_dps w) c n gc gn) w) P →
  swp (upd_group c (λ x, set_dp_prev (dp_prev gn) (set_dp_next (dp_next gn) x));;
       upd_group n (λ x, set_dp_next (dp_next gc) (set_dp_prev (dp_prev gc) x));;
       n' ← group n;
       match dp_prev n' with Some q => upd_group q (set_dp_next (Some n)) | None => skip end;;
       c' ← group c;
       match dp_next c' with Some q => upd_group q (set_dp_prev (Some c)) | None => skip end;; k) w P.
Proof.
  intros Hk. destruct swop_parts as (_ & _ & _ & Hcn & _).
  sstep. apply swp_upd_group; [by exists gc|]. sstep.
  apply swp_upd_group; [cbn; rewrite list_lookup_alter_ne by done; by exists gn|]. sstep.
  eapply swp_group; [cbn; by rewrite list_lookup_alter_eq, list_lookup_alter_ne, En by done|].
  cbn [dp_prev set_dp_next set_dp_prev]. sstep. apply swp_upd_group_opt.
  { intros q Hq%swop_prev_fresh. cbn. apply (upd_opt_is_Some (Some n)), (upd_opt_is_Some (Some c)). tauto. }
  cbn [w_dps set_w_dps]. sstep. eapply swp_group.
  { cbn. rewrite upd_opt_ne by (intros Hq; by apply swop_prev_fresh in Hq as [??]).
    by rewrite list_lookup_alter_ne, list_lookup_alter_eq, Ec by done. }
  cbn [dp_next set_dp_next set_dp_prev]. sstep. apply swp_upd_group_opt.
  { intros q Hq%swop_next_fresh. cbn. apply upd_opt_is_Some, (upd_opt_is_Some (Some n)), (upd_opt_is_Some (Some c)). tauto. }
  exact Hk.
Qed.

(** The links inside. *)
Lemma swop_inner_runs (P : unit → world → Prop) :
  let dps := swopped (w_dps w) c n gc gn in
  P tt (set_w_dps (swop_inner c n gc gn dps) w) →
  swp (if decide (dp_next gc ≠ Some n) then
     n' ← group n; q ← deref (dp_next n'); upd_group q (set_dp_prev (Some n));;
     c' ← group c; q ← deref (dp_prev c'); upd_group q (set_dp_next (Some c))
   else
     upd_group c (set_dp_prev (Some n));; upd_group n (set_dp_next (Some c))) (set_w_dps dps w) P.
Proof.
  destruct swop_links as (E1 & E2 & E3 & E4 & _ & S2 & _).
  destruct swop_parts as (N1 & N2 & N3 & Hcn & C1 & C2 & C3 & M1 & M2 & M3 & _).
  pose proof swopped_at_c as Ac. pose proof swopped_at_n as An. pose proof swopped_is_Some as Si.
  intros dps HP. unfold swop_inner in HP. case_decide as Hd.
  - rewrite E2 in *. destruct l2 as [|x l2']; [done|]. cbn [hd_or] in *.
    assert (∃ y, last_or None (x :: l2') = Some y ∧ y ∈ x :: l2') as (y & Ey & Hy).
    { destruct (last_or None (x :: l2')) as [y|] eqn:E; [exists y; split; [done|by apply last_or_elem]|].
      unfold last_or in E. destruct (list.last _) eqn:El; [done|]. by apply last_None in El. }
    assert (x ∈ x :: l2') as Hx by left.
    rewrite E3, (last_or_some (Some c)), Ey in HP by done.
    sstep. eapply swp_group; [exact An|]. sstep. eapply swp_deref; [reflexivity|]. sstep.
    apply swp_upd_group; [apply Si; by eapply seg_lookup|]. sstep.
    eapply swp_group.
    { cbn [w_dps set_w_dps]. rewrite list_lookup_alter_ne by (intros ->; done). exact Ac. }
    sstep. eapply swp_deref; [cbn [dp_prev set_dp_prev]; first [rewrite E3|idtac]; rewrite (last_or_some (Some c)) by done; exact Ey|].
    apply swp_upd_group; [|exact HP].
    apply (upd_opt_is_Some (Some x)), Si. by eapply seg_lookup.
  - sstep. apply swp_upd_group; [unfold dps; cbn [w_dps set_w_dps]; rewrite Ac; by eexists|].
    apply swp_upd_group; [|exact HP].
    apply (upd_opt_is_Some (Some c)). cbn [w_dps set_w_dps]; unfold dps; rewrite An. by eexists.
Qed.

Lemma swop_groups_runs : swp (swop_groups c n) w (λ _ w', w' = swop_world).
Proof.
  destruct swop_parts as (_ & _ & _ & Hcn & _).
  unfold swop_groups. sstep. eapply swp_group; [exact Ec|]. sstep. eapply swp_group; [exact En|].
  apply swop_outer_runs. sstep. apply swop_inner_runs. sstep.
  destruct (swop_inner_settings _ _ _ swopped_at_n) as (gn' & Gn & D1 & D2).
  destruct (swop_inner_settings _ _ _ swopped_at_c) as (gc' & Gc & _).
  eapply swp_group; [exact Gn|]. rewrite D1, D2. sstep. apply swp_upd_group; [by exists gc'|]. sstep.
  apply swp_upd_group; [apply (upd_opt_is_Some (Some c)); by exists gn'|].
  sstep. sstep. cbn [w_dp set_w_dps]. unfold swop_world.
  destruct (decide (w_dp w = Some c)); by sstep.
Qed.

Lemma swop_groups_ok : groups swop_world (l1 ++ n :: l2 ++ c :: l3).
Proof.
  destruct swop_parts as (N1 & N2 & N3 & Hcn & C1 & C2 & C3 & M1 & M2 & M3 & D1 & D2).
  split.
  - apply NoDup_app. split_and!; [done|set_solver|]. apply NoDup_cons. split; [set_solver|].
    apply NoDup_app. split_and!; [done|set_solver|]. by apply NoDup_cons.
  - pose proof (gr_head _ _ Hg) as H. cbn. rewrite H. destruct l1 as [|x l1']; cbn [app hd_or].
    + by rewrite decide_True.
    + rewrite decide_False; [done|]. intros [= ->]. apply C1. by left.
  - cbn. unfold swop_settings. do 2 (apply seg_alter_same; [done|]). apply swop_inner_segs.
Qed.
End swop.

(** A group without its links and its trigger settings. *)
Definition dp_core (g : desync_params) : desync_params :=
  set_dp_prev None (set_dp_next None (set_dp_detect 0 (set_dp_auto_level 0 g))).

Lemma map_core_alter f i dps :
  (∀ g, dp_core (f g) = dp_core g) → map dp_core (alter f i dps) = map dp_core dps.
Proof.
  intros Hf. apply list_eq. intros j. change (map dp_core) with (fmap (M := list) dp_core).
  rewrite !list_lookup_fmap. destruct (decide (j = i)) as [->|].
  - rewrite list_lookup_alter_eq. destruct (dps !! i); cbn; by rewrite ?Hf.
  - by rewrite list_lookup_alter_ne.
Qed.
Lemma map_core_upd_opt f o dps :
  (∀ g, dp_core (f g) = dp_core g) → map dp_core (upd_opt o f dps) = map dp_core dps.
Proof. destruct o; [apply map_core_alter|done]. Qed.

Lemma swop_world_core w c n gc gn : map dp_core (w_dps (swop_world w c n gc gn)) = map dp_core (w_dps w).
Proof.
  cbn [swop_world w_dps set_w_dp set_w_dps]. unfold swop_settings, swop_inner, swopped.
  rewrite !map_core_alter by done.
  case_decide; rewrite ?map_core_alter, ?map_core_upd_opt, ?map_core_alter by done; done.
Qed.

Lemma swop_world_settings w l1 l2 l3 c n gc gn :
  groups w (l1 ++ c :: l2 ++ n :: l3) → w_dps w !! c = Some gc → w_dps w !! n = Some gn →
  (∃ g, w_dps (swop_world w c n gc gn) !! n = Some g ∧
     dp_detect g = dp_detect gc ∧ dp_auto_level g = dp_auto_level gc) ∧
  (∃ g, w_dps (swop_world w c n gc gn) !! c = Some g ∧
     dp_detect g = dp_detect gn ∧ dp_auto_level g = dp_auto_level gn).
Proof.
  intros Hg Ec En. destruct (swop_parts w l1 l2 l3 c n gc gn Hg Ec En) as (_ & _ & _ & Hcn & _).
  destruct (swop_inner_settings c n gc gn _ _ _ (swopped_at_n w l1 l2 l3 c n gc gn Hg Ec En)) as (gn' & Gn & _).
  destruct (swop_inner_settings c n gc gn _ _ _ (swopped_at_c w l1 l2 l3 c n gc gn Hg Ec En)) as (gc' & Gc & _).
  cbn [swop_world w_dps set_w_dp set_w_dps]. unfold swop_settings. split.
  - eexists. by rewrite list_lookup_alter_eq, list_lookup_alter_ne, Gn by done.
  - eexists. by rewrite list_lookup_alter_ne, list_lookup_alter_eq, Gc by done.
Qed.

(** [swop_groups] on two groups of the list, the first before the second, next to each
    other or not, exchanges their places and nothing else: the list of groups is well
    linked again with the two exchanged, each place keeps its trigger settings, and no
    other field of any group changes. *)
Theorem swop_groups_swaps w l1 l2 l3 c n gc gn :
  groups w (l1 ++ c :: l2 ++ n :: l3) → w_dps w !! c = Some gc → w_dps w !! n = Some gn →
  swp (swop_groups c n) w (λ _ w',
    groups w' (l1 ++ n :: l2 ++ c :: l3) ∧ w_pool w' = w_pool w ∧ w_mempool w' = w_mempool w ∧
    map dp_core (w_dps w') = map dp_core (w_dps w) ∧
    (∃ g, w_dps w' !! n = Some g ∧ dp_detect g = dp_detect gc ∧ dp_auto_level g = dp_auto_level gc) ∧
    (∃ g, w_dps w' !! c = Some g ∧ dp_detect g = dp_detect gn ∧ dp_auto_level g = dp_auto_level gn)).
Proof.
  intros Hg Ec En. eapply swp_mono; [by eapply swop_groups_runs|]. intros [] w' ->. split_and!.
  - by apply swop_groups_ok.
  - done.
  - done.
  - apply swop_world_core.
  - by eapply swop_world_settings.
  - by eapply swop_world_settings.
Qed.

(** Three groups in a row. *)
Definition sample_group (p n : option nat) (id detect : Z) : desync_params :=
  set_dp_prev p (set_dp_next n (set_dp_detect detect (DesyncParams 0 None 0 part_init [] 0 0 (0, 0) [] 0 [] None 0
    0 0 None None (0, 0) (0, 0) 0 (repeat 0 28) id (2 ^ id) 0 0 0 None None))).
Definition sample_groups : list desync_params :=
  [sample_group None (Some 1%nat) 0 0; sample_group (Some 0%nat) (Some 2%nat) 1 1;
   sample_group (Some 1%nat) None 2 8].
Definition sample_world (p : poolhd) : world :=
  World p sample_groups (Some 0%nat) (mem_pool 0 CMP_BITS) 0 0 [] [].

Lemma sample_world_groups p : groups (sample_world p) [0; 1; 2]%nat.
Proof.
  split; [|done|].
  - repeat (apply NoDup_cons; split; [rewrite ?elem_of_cons, elem_of_nil; lia|]). by apply NoDup_nil.
  - cbn. split_and!; [by eexists|by eexists|by eexists|done].
Qed.

Lemma swop_groups_swaps_witness :
  swp (swop_groups 0 2) (sample_world (init_pool 4 [] [])) (λ _ w', groups w' [2; 1; 0]%nat).
Proof.
  eapply swp_mono; [apply (swop_groups_swaps (sample_world (init_pool 4 [] [])) [] [1%nat] [] 0 2
    (sample_group None (Some 1%nat) 0 0) (sample_group (Some 1%nat) None 2 8)
    (sample_world_groups _) eq_refl eq_refl)|].
  by intros ? ? [? _].
Defined.

(** * Choosing the group *)

(** The bytes that the tests of a group read. *)
Definition buff_ok (buff : option (bytes * Z)) : Prop :=
  match buff with Some (b, n) => bytes_wf b ∧ n <= blen b | None => True end.

Lemma wp_check_proto_tcp proto b n P :
  bytes_wf b → n <= blen b → (∀ r, P r) → wp (check_proto_tcp proto b n) P.
Proof.
  intros Hb Hn HP. unfold check_proto_tcp. zcase; [apply HP|].
  rewrite is_http_eq, is_tls_chello_eq by done. destruct (has_bit proto IS_HTTP); cbn;
    zcase; try apply HP; destruct (has_bit proto IS_HTTPS); apply HP.
Qed.

Lemma wp_check_host h b n P : bytes_wf b → n <= blen b → (∀ r, P r) → wp (check_host h b n) P.
Proof.
  intros Hb Hn HP. unfold check_host. wp_step. apply wp_parse_tls; [done|done|].
  intros [len host] Hr. wp_step.
  assert (∀ len host, (match host with None => len = 0 | Some o => 0 < len → 0 <= o ∧ o + len <= blen b end) →
    wp (cassert ((len =? 0) || match host with Some _ => true | None => false end);;
      if len <=? 0 then Ok false else
      match host with
      | None => Fail OutOfBounds
      | Some host =>
          name ← rds b host len;
          Ok (match mem_get h name len with Some v => e_len v <=? len | None => false end)
      end) P) as Hk.
  { clear len host Hr. intros len host Hr. wp_step. apply wp_assert.
    { destruct host; [apply orb_true_r|]. by subst. }
    destruct (Z.leb_spec len 0); [apply HP|]. destruct host as [o|]; [|lia].
    destruct (Hr ltac:(lia)). wp_step. apply wp_rds; [lia|lia|lia|]. apply HP. }
  destruct (len =? 0) eqn:E0.
  - wp_step. apply wp_parse_http; [done|]. intros r Hin. apply Hk. unfold host_in in Hin.
    destruct (hh_hs r) as [o|]; [|done]. destruct Hin as (q & e & Hf & ? & ? & ? & ? & ? & _).
    intros ?. assert (0 <= q) by apply Hf. lia.
  - apply Hk. unfold name_in in Hr. destruct host; [lia|done].
Qed.

(** Every group of the list [l] has the bit of its number, and the full mask is theirs. *)
Record bits_ok (w : world) (l : list nat) (full : Z) : Prop := {
  bo_bit i g : i ∈ l → w_dps w !! i = Some g → 0 <= dp_id g ∧ dp_bit g = 2 ^ dp_id g;
  bo_inj i j g h : i ∈ l → j ∈ l → w_dps w !! i = Some g → w_dps w !! j = Some h →
    dp_id g = dp_id h → i = j;
  bo_full k : Z.testbit full k = true ↔ ∃ i g, i ∈ l ∧ w_dps w !! i = Some g ∧ dp_id g = k
}.

(** What [find_dp] asks of a group, apart from its bit: [init] is the group that the client
    has already. *)
Definition suits (buff : option (bytes * Z)) (dst : bytes) (init : option nat) (det : Z)
    (i : nat) (g : desync_params) : Prop :=
  (init = Some i ∨ dp_detect g = 0 ∨ has_bit det (dp_detect g) = true) ∧
  check_l34 g SOCK_STREAM dst = true ∧
  ∀ b n, buff = Some (b, n) →
    (dp_proto g = 0 ∨ check_proto_tcp (dp_proto g) b n = Ok true) ∧
    (∀ h, dp_hosts g = Some h → check_host h b n = Ok true).

Lemma has_bit_pow m k : 0 <= k → has_bit (2 ^ k) m = Z.testbit m k.
Proof.
  intros Hk. unfold has_bit. destruct (Z.testbit m k) eqn:E.
  - destruct (Z.eqb_spec (Z.land (2 ^ k) m) 0) as [H|]; [|done].
    assert (Z.testbit (Z.land (2 ^ k) m) k = true) as Ht.
    { by rewrite Z.land_spec, Z.pow2_bits_true, E by done. }
    by rewrite H, Z.bits_0 in Ht.
  - destruct (Z.eqb_spec (Z.land (2 ^ k) m) 0) as [|H]; [done|]. exfalso. apply H.
    apply Z.bits_inj'. intros j Hj. rewrite Z.bits_0, Z.land_spec.
    destruct (Z.eq_dec j k) as [->|]; [by rewrite E, andb_false_r|].
    by rewrite Z.pow2_bits_false by lia.
Qed.

Lemma testbit_lor_pow m k j : 0 <= k → Z.testbit (Z.lor m (2 ^ k)) j = Z.testbit m j || (j =? k).
Proof.
  intros Hk. rewrite Z.lor_spec. f_equal. destruct (Z.eqb_spec j k) as [->|].
  - by apply Z.pow2_bits_true.
  - destruct (Z.ltb_spec j 0); [by apply Z.testbit_neg_r|]. apply Z.pow2_bits_false. lia.
Qed.

Section find_dp.
Context (prm : params) (fuel : nat) (w : world) (l : list nat) (client : nat) (e0 : eval).
Context (buff : option (bytes * Z)) (dst : bytes).
Context (Hg : groups w l) (Hl : l ≠ []) (Hb : bits_ok w l (pr_dp_full_mask prm)).
Context (Hc : client_at w client e0) (Hbuff : buff_ok buff).
Let init := c_dp (ev_conn e0).
Let mask0 := c_dp_mask (ev_conn e0).
Let det := c_detect (ev_conn e0).

(** The world in which the client has tried the groups of [m]. *)
Definition tried (m : Z) : world :=
  with_eval w client (λ e, set_ev_conn (set_c_dp_mask m (ev_conn e)) e).

Lemma tried_client m : client_at (tried m) client (set_ev_conn (set_c_dp_mask m (ev_conn e0)) e0).
Proof. exact (client_at_with w client (λ e, set_ev_conn (set_c_dp_mask m (ev_conn e)) e) e0 Hc). Qed.

Lemma tried_start : tried mask0 = w.
Proof.
  unfold tried, with_eval. rewrite (alter_fixed _ _ _ e0); [by destruct w as [[]]|exact Hc|].
  by destruct e0 as [? ? ? ? ? ? ? ? ? ? ? []].
Qed.

Lemma tried_more m b :
  with_eval (tried m) client (λ e, set_ev_conn (set_c_dp_mask (Z.lor (c_dp_mask (ev_conn e)) b) (ev_conn e)) e) =
  tried (Z.lor m b).
Proof.
  unfold tried, with_eval. cbn [w_pool set_w_pool p_items set_p_items].
  rewrite list_alter_alter_eq. done.
Qed.

(** What holds while the loop runs: the mask has grown by groups that do not suit. *)
Record grown (m : Z) : Prop := {
  gw_mono k : Z.testbit mask0 k = true → Z.testbit m k = true;
  gw_full k : Z.testbit m k = true → Z.testbit (pr_dp_full_mask prm) k = true;
  gw_not i g : i ∈ l → w_dps w !! i = Some g → Z.testbit mask0 (dp_id g) = false →
    Z.testbit m (dp_id g) = true → ¬ suits buff dst init det i g
}.

Lemma grown_more m i g : grown m → i ∈ l → w_dps w !! i = Some g →
  (Z.testbit m (dp_id g) = false → ¬ suits buff dst init det i g) → grown (Z.lor m (dp_bit g)).
Proof.
  intros [G1 G2 G3] Hi Eg Hs. destruct (bo_bit _ _ _ Hb i g Hi Eg) as [Hk ->]. split.
  - intros k H%G1. rewrite testbit_lor_pow, H by done. done.
  - intros k. rewrite testbit_lor_pow by done. intros [H|H%Z.eqb_eq]%orb_prop; [by apply G2|].
    subst k. apply (bo_full _ _ _ Hb). eauto.
  - intros j h Hj Eh H0. rewrite testbit_lor_pow by done.
    intros [H|H%Z.eqb_eq]%orb_prop; [by apply G3|].
    assert (j = i) as -> by (by eapply (bo_inj _ _ _ Hb)). simplify_eq.
    destruct (Z.testbit m (dp_id g)) eqn:Em; [by apply G3|by apply Hs].
Qed.

(** What [find_dp] leaves. *)
Definition found (r : option nat) (w' : world) : Prop :=
  ∃ m, w' = tried m ∧ grown m ∧
    match r with
    | Some i => i ∈ l ∧ ∃ g, w_dps w !! i = Some g ∧ Z.testbit m (dp_id g) = false ∧
        suits buff dst init det i g
    | None => m = pr_dp_full_mask prm
    end.

Lemma checks_total b n : buff = Some (b, n) →
  (∀ p, ∃ r, check_proto_tcp p b n = Ok r) ∧ (∀ h, ∃ r, check_host h b n = Ok r).
Proof.
  intros ->. destruct Hbuff as [Hw Hn]. split; intros x.
  - pose proof (wp_check_proto_tcp x b n (λ _, True) Hw Hn (λ _, I)) as W.
    apply wp_inv in W as (r & -> & _). by exists r.
  - pose proof (wp_check_host x b n (λ _, True) Hw Hn (λ _, I)) as W.
    apply wp_inv in W as (r & -> & _). by exists r.
Qed.

Lemma group_fits_tail i g : ∃ r : bool,
  (proto ← (match buff with
     | Some (b, n) => if negb (dp_proto g =? 0) then check_proto_tcp (dp_proto g) b n else Ok true
     | None => Ok true end);
   if negb proto then Ok false else
   match buff, dp_hosts g with
   | Some (b, n), Some h => check_host h b n
   | _, _ => Ok true
   end) = Ok r ∧
  ((init = Some i ∨ dp_detect g = 0 ∨ has_bit det (dp_detect g) = true) →
   check_l34 g SOCK_STREAM dst = true → r = true ↔ suits buff dst init det i g).
Proof.
  pose proof checks_total as Ht. unfold suits. destruct buff as [[b n]|].
  2: { exists true. split; [done|]. intros. split; [|done]. intros _. by split_and!. }
  destruct (Ht b n eq_refl) as [Hp Hh]. destruct (Hp (dp_proto g)) as [rp Ep].
  assert (∀ r : bool, (∀ b' n', Some (b, n) = Some (b', n') →
      (dp_proto g = 0 ∨ check_proto_tcp (dp_proto g) b' n' = Ok true) ∧
      (∀ h, dp_hosts g = Some h → check_host h b' n' = Ok true)) ↔
    ((dp_proto g = 0 ∨ rp = true) ∧ (∀ h, dp_hosts g = Some h → check_host h b n = Ok true))) as Hs.
  { intros _. split.
    - intros H. destruct (H b n eq_refl) as [[|E] ?]; split; auto. right. congruence.
    - intros [H1 H2] b' n' [= <- <-]. split; [|done]. destruct H1 as [|Hr]; [by left|right; congruence]. }
  specialize (Hs true). rewrite Ep.
  destruct (Z.eqb_spec (dp_proto g) 0) as [E0|E0]; cbn [negb]; rewrite bind_ok.
  - cbn [negb]. destruct (dp_hosts g) as [h|] eqn:Eh.
    + destruct (Hh h) as [rh Er]. exists rh. split; [done|]. intros. rewrite Hs. split.
      * intros ->. split_and!; try done; [by left|]. intros ? [= <-]. congruence.
      * intros (_ & _ & _ & H'). specialize (H' h eq_refl). congruence.
    + exists true. split; [done|]. intros. rewrite Hs. naive_solver.
  - destruct rp; cbn [negb].
    + destruct (dp_hosts g) as [h|] eqn:Eh.
      * destruct (Hh h) as [rh Er]. exists rh. split; [done|]. intros. rewrite Hs. split.
        -- intros ->. split_and!; try done; [by right|]. intros ? [= <-]. congruence.
        -- intros (_ & _ & _ & H'). specialize (H' h eq_refl). congruence.
      * exists true. split; [done|]. intros. rewrite Hs. naive_solver.
    + exists false. split; [done|]. intros. rewrite Hs. naive_solver.
Qed.

Lemma group_fits_ok i g c :
  0 <= dp_id g → dp_bit g = 2 ^ dp_id g → c_detect c = det → ∃ r : bool,
  group_fits g c (bool_decide (Some i = init)) buff dst = Ok r ∧
  (r = true ↔ Z.testbit (c_dp_mask c) (dp_id g) = false ∧ suits buff dst init det i g).
Proof.
  intros Hk Ebit Ed. unfold group_fits. rewrite Ebit, has_bit_pow, Ed by done.
  destruct (group_fits_tail i g) as (r & Er & Hr).
  destruct (Z.testbit (c_dp_mask c) (dp_id g)) eqn:Et; cbn [negb andb].
  { exists false. split; [done|]. split; [done|]. by intros [? _]. }
  destruct (bool_decide (Some i = init) || (dp_detect g =? 0) || has_bit det (dp_detect g)) eqn:E1; cbn [andb].
  2: { exists false. split; [done|]. split; [done|]. intros [_ ([H|[H|H]] & _ & _)].
       - rewrite H, bool_decide_eq_true_2 in E1 by done. done.
       - rewrite H, orb_true_r in E1. done.
       - rewrite H, orb_true_r in E1. done. }
  assert (init = Some i ∨ dp_detect g = 0 ∨ has_bit det (dp_detect g) = true) as Hd.
  { apply orb_prop in E1 as [[H|H]%orb_prop|H]; [left|right; left; lia|by right; right].
    by apply bool_decide_eq_true in H. }
  destruct (check_l34 g SOCK_STREAM dst) eqn:E2.
  - exists r. split; [exact Er|]. rewrite Hr by done. naive_solver.
  - exists false. split; [done|]. split; [done|]. intros [_ (_ & H & _)]. congruence.
Qed.

Lemma find_dp_body_ok dp i g m (P : option nat + option nat → world → Prop) :
  match dp with Some i => Some i | None => w_dp w end = Some i → i ∈ l → w_dps w !! i = Some g → grown m →
  (m = pr_dp_full_mask prm → P (inr None) (tried m)) →
  (Z.testbit m (dp_id g) = false → suits buff dst init det i g → P (inr (Some i)) (tried m)) →
  (m ≠ pr_dp_full_mask prm → grown (Z.lor m (dp_bit g)) →
     P (inl (dp_next g)) (tried (Z.lor m (dp_bit g)))) →
  swp (find_dp_body prm client buff dst init dp) (tried m) P.
Proof.
  intros Edp Hi Eg Hm Hnone Hsome Hnext. unfold find_dp_body.
  sstep. sstep. sstep. eapply swp_deref; [exact Edp|]. sstep.
  eapply swp_conn_at; [apply tried_client|]. cbn [c_dp_mask ev_conn set_ev_conn set_c_dp_mask].
  destruct (Z.eqb_spec m (pr_dp_full_mask prm)) as [->|Hf]; [by apply swp_ret, Hnone|].
  sstep. eapply swp_group; [exact Eg|]. sstep. sstep.
  destruct (bo_bit _ _ _ Hb i g Hi Eg) as [Hk Ebit].
  destruct (group_fits_ok i g (set_c_dp_mask m (ev_conn e0)) Hk Ebit eq_refl) as (r & -> & Hr).
  apply wp_ok. cbn [c_dp_mask set_c_dp_mask] in Hr. destruct r.
  - apply swp_ret. apply Hsome; by apply Hr.
  - sstep. eapply swp_updc; [apply tried_client|]. rewrite tried_more. apply swp_ret, Hnext; [done|].
    apply (grown_more m i g); [done|done|done|]. intros Et Hs.
    by assert (false = true) by (by apply Hr).
Qed.

(** Walking one stretch of the list, up to its end. *)
Lemma find_dp_walk L2 L1 : l = L1 ++ L2 → ∀ dp m k P,
  L2 ≠ [] → match dp with Some i => Some i | None => w_dp w end = hd_or None L2 → grown m →
  (∀ r w', found r w' → P r w') →
  (∀ m', grown m' → (∀ j, Z.testbit m j = true → Z.testbit m' j = true) →
     (∀ i g, i ∈ L2 → w_dps w !! i = Some g → Z.testbit m' (dp_id g) = true) →
     swp (sloop (find_dp_body prm client buff dst init) k None) (tried m') P) →
  swp (sloop (find_dp_body prm client buff dst init) (length L2 + k) dp) (tried m) P.
Proof.
  revert L1. induction L2 as [|i L2 IH]; intros L1 El dp m k P HL Edp Hm HP Hend; [done|].
  cbn [hd_or] in Edp. assert (i ∈ l) as Hi by (rewrite El; apply elem_of_app; right; left).
  assert (∃ g, w_dps w !! i = Some g ∧ dp_next g = hd_or None L2) as (g & Eg & En).
  { pose proof (gr_seg _ _ Hg) as S. rewrite El in S. apply seg_app in S as [_ [(g & ? & _ & ?) _]]. eauto. }
  destruct (bo_bit _ _ _ Hb i g Hi Eg) as [Hk Ebit].
  cbn [length Nat.add]. apply swp_sloop_step. apply (find_dp_body_ok _ i g); try done.
  - intros ->. apply HP. eexists. split_and!; done.
  - intros Et Hs. apply HP. exists m. split_and!; try done. eauto.
  - intros _ Hm'. rewrite En. rewrite Ebit in *. destruct L2 as [|i2 L2].
    + apply Hend; [done| |].
      * intros j Hj. rewrite testbit_lor_pow, Hj by done. done.
      * intros j h [->|Hj]%elem_of_cons Eh; [|by apply elem_of_nil in Hj]. simplify_eq.
        rewrite testbit_lor_pow, Z.eqb_refl by done. apply orb_true_r.
    + apply (IH (L1 ++ [i])); [by rewrite <- app_assoc|done|done|done|done|].
      intros m' Hg' Hmono Hall. apply Hend; [done| |].
      * intros j Hj. apply Hmono. rewrite testbit_lor_pow, Hj by done. done.
      * intros j h [->|Hj]%elem_of_cons Eh; [|by eapply Hall]. simplify_eq. apply Hmono.
        rewrite testbit_lor_pow, Z.eqb_refl by done. apply orb_true_r.
Qed.

Lemma all_tried_full m : grown m → (∀ i g, i ∈ l → w_dps w !! i = Some g → Z.testbit m (dp_id g) = true) →
  m = pr_dp_full_mask prm.
Proof.
  intros Hm Hall. apply Z.bits_inj'. intros k _. destruct (Z.testbit (pr_dp_full_mask prm) k) eqn:E.
  - apply (bo_full _ _ _ Hb) in E as (i & g & Hi & Eg & <-). by apply (Hall i g).
  - destruct (Z.testbit m k) eqn:E'; [|done]. apply (gw_full m Hm) in E'. congruence.
Qed.

Lemma grown_start : (∀ k, Z.testbit mask0 k = true → Z.testbit (pr_dp_full_mask prm) k = true) → grown mask0.
Proof. intros H. split; [done|done|]. intros. congruence. Qed.

Lemma find_dp_loop_ok L1 L2 dp :
  l = L1 ++ L2 → L2 ≠ [] → match dp with Some i => Some i | None => w_dp w end = hd_or None L2 →
  grown mask0 → (2 * length l < fuel)%nat →
  swp (sloop (find_dp_body prm client buff dst init) fuel dp) w found.
Proof.
  intros El HL Edp Hm Hf. rewrite <- tried_start.
  assert (length L2 <= length l)%nat by (rewrite El, length_app; lia).
  replace fuel with (length L2 + (fuel - length L2))%nat by lia.
  apply (find_dp_walk L2 L1 El); [done|done|done|done|].
  intros m1 Hm1 _ _. replace (fuel - length L2)%nat with (length l + (fuel - length L2 - length l))%nat by lia.
  apply (find_dp_walk l []); [done|done|apply (gr_head _ _ Hg)|done|done|].
  intros m2 Hm2 _ Hall. apply (all_tried_full m2 Hm2) in Hall.
  replace (fuel - length L2 - length l)%nat with (S (fuel - length L2 - length l - 1)) by lia.
  assert (∃ i, hd_or None l = Some i ∧ i ∈ l) as (i & Hh & Hi) by (destruct l as [|i l']; [done|]; exists i; split; [done|by left]).
  destruct (seg_lookup _ _ _ _ i (gr_seg _ _ Hg) Hi) as [g Eg].
  apply swp_sloop_step. apply (find_dp_body_ok _ i g); try done.
  - by rewrite (gr_head _ _ Hg).
  - intros _. exists m2. by split_and!.
  - intros Et Hs. exists m2. split_and!; [done|done|done|eauto].
Qed.
End find_dp.

(** The bytes that [find_dp] goes by: the ones it is given, or the buffer of the client. *)
Definition request_of (buff : option (bytes * Z)) (e : eval) : option (bytes * Z) :=
  match buff, ev_buff e with None, Some b => Some (b_data b, b_lock b) | _, _ => buff end.

(** [find_dp] from its loop. *)
Lemma find_dp_ok prm fuel w l client e buff dst :
  groups w l → l ≠ [] → bits_ok w l (pr_dp_full_mask prm) → client_at w client e →
  buff_ok (request_of buff e) → (∀ i, c_dp (ev_conn e) = Some i → i ∈ l) →
  (∀ k, Z.testbit (c_dp_mask (ev_conn e)) k = true → Z.testbit (pr_dp_full_mask prm) k = true) →
  (2 * length l < fuel)%nat →
  swp (find_dp prm fuel client buff dst) w (λ r w', ∃ m,
    w' = tried w client m ∧ grown prm w l e (request_of buff e) dst m ∧
    match r with
    | Some i => i ∈ l ∧ ∃ g, w_dps w !! i = Some g ∧ Z.testbit m (dp_id g) = false ∧
        suits (request_of buff e) dst (c_dp (ev_conn e)) (c_detect (ev_conn e)) i g
    | None => m = pr_dp_full_mask prm
    end).
Proof.
  intros Hg Hl Hb Hc Hbuff Hdp Hm Hf. unfold find_dp. sstep. eapply swp_eval_at; [exact Hc|].
  assert (∃ L1 L2, l = L1 ++ L2 ∧ L2 ≠ [] ∧
    match c_dp (ev_conn e) with Some i => Some i | None => w_dp w end = hd_or None L2) as (L1 & L2 & El & HL & Ed).
  { destruct (c_dp (ev_conn e)) as [i|].
    - destruct (list_elem_of_split l i (Hdp i eq_refl)) as (L1 & L2 & El). by exists L1, (i :: L2).
    - exists [], l. split_and!; [done|done|apply (gr_head _ _ Hg)]. }
  apply (find_dp_loop_ok prm fuel w l client e (request_of buff e) dst Hg Hl Hb Hc Hbuff L1 L2); try done.
  by apply grown_start.
Qed.

(** C23: [find_dp] always ends, whatever groups the client has tried.  It returns a group of
    the list that suits the destination and the request and was not tried before, or null
    once the mask is full; the groups it marks as tried on the way do not suit, and it
    changes nothing but this mask. *)
Theorem find_dp_chooses prm fuel w l client e buff dst :
  groups w l → l ≠ [] → bits_ok w l (pr_dp_full_mask prm) → client_at w client e →
  buff_ok (request_of buff e) → (∀ i, c_dp (ev_conn e) = Some i → i ∈ l) →
  (∀ k, Z.testbit (c_dp_mask (ev_conn e)) k = true → Z.testbit (pr_dp_full_mask prm) k = true) →
  (2 * length l < fuel)%nat →
  swp (find_dp prm fuel client buff dst) w (λ r w', ∃ m,
    w' = tried w client m ∧ grown prm w l e (request_of buff e) dst m ∧
    match r with
    | Some i => i ∈ l ∧ ∃ g, w_dps w !! i = Some g ∧ Z.testbit m (dp_id g) = false ∧
        suits (request_of buff e) dst (c_dp (ev_conn e)) (c_detect (ev_conn e)) i g
    | None => m = pr_dp_full_mask prm
    end).
Proof. intros. by apply find_dp_ok. Qed.

(** The groups of [sample_world] and their full mask. *)
Definition sample_params (full : Z) : params :=
  Params 10 false 0 false 0 0 0 0 0 2 true true true false true 512 0 16384 (repeat 0 28) full.

Lemma sample_bits_ok p : bits_ok (sample_world p) [0; 1; 2]%nat 7.
Proof.
  split.
  - intros i g Hi Eg. repeat (apply elem_of_cons in Hi as [->|Hi]; [by simplify_eq/=|]).
    by apply elem_of_nil in Hi.
  - intros i j g h Hi Hj. repeat (apply elem_of_cons in Hi as [->|Hi]; [|]); try (by apply elem_of_nil in Hi);
      repeat (apply elem_of_cons in Hj as [->|Hj]; [|]); try (by apply elem_of_nil in Hj);
      intros; by simplify_eq/=.
  - intros k. split.
    + intros Hk. assert (k = 0 ∨ k = 1 ∨ k = 2) as [-> | [-> | ->]].
      { destruct (Z.ltb_spec k 0); [by rewrite Z.testbit_neg_r in Hk|].
        destruct (Z.leb_spec k 2); [lia|]. exfalso. rewrite Z.bits_above_log2 in Hk; [done|done|]. cbn. lia. }
      * exists 0%nat. eexists. split_and!; [by left|done|done].
      * exists 1%nat. eexists. split_and!; [by right; left|done|done].
      * exists 2%nat. eexists. split_and!; [by right; right; left|done|done].
    + intros (i & g & Hi & Eg & <-). repeat (apply elem_of_cons in Hi as [->|Hi]; [by simplify_eq/=|]).
      by apply elem_of_nil in Hi.
Qed.

(** The first group was tried: the second asks for a trigger that did not fire, the third
    is for the one that did. *)
Definition sample_client : eval := set_ev_conn (set_c_detect 8 (set_c_dp_mask 1 zero_conn)) zero_eval.

Lemma find_dp_chooses_witness :
  let w := sample_world (init_pool 1 [sample_client] [Pollfd 0 0 0]) in
  let w := set_w_pool (set_p_items [sample_client] (w_pool w)) w in
  swp (find_dp (sample_params 7) 7 0 None (repeat 0 28)) w (λ r w', ∃ m,
    w' = tried w 0 m ∧ grown (sample_params 7) w [0; 1; 2]%nat sample_client None (repeat 0 28) m ∧
    match r with
    | Some i => i ∈ [0; 1; 2]%nat ∧ ∃ g, w_dps w !! i = Some g ∧ Z.testbit m (dp_id g) = false ∧
        suits None (repeat 0 28) None 8 i g
    | None => m = 7
    end).
Proof.
  intros w0 w. pose proof (sample_bits_ok (w_pool w)) as Hb.
  apply (find_dp_chooses (sample_params 7) 7 w [0; 1; 2]%nat 0 sample_client None (repeat 0 28)).
  - apply (sample_world_groups (w_pool w)).
  - done.
  - exact Hb.
  - done.
  - done.
  - intros i H. discriminate H.
  - intros k H. cbn [ev_conn sample_client set_ev_conn c_dp_mask set_c_detect set_c_dp_mask] in H.
    destruct (Z.eq_dec k 0) as [->|]; [done|]. rewrite (Z.pow2_bits_false 0) in H by lia. discriminate H.
  - cbn. lia.
Defined.
