(* ===== verification/Cache.v ===== *)
(** The cache of addresses (extend.c): what [cache_add] stores, [cache_get] finds. *)
From Stdlib Require Import ZArith Lia Ascii String.
From stdpp Require Import base numbers list option sorting sets.
From S2P Require Import Prelude CMem PacketsTls PacketsHttp Mpool Params Desync DList Conev Socks Extend World.

#[local] Open Scope Z_scope.
#[local] Open Scope list_scope.

(** * Assignments to the elements of a pool *)

(** What the order of a pool depends on. *)
Definition shape (e : elem) : Z * bytes * Z := (e_len e, e_data e, e_cmp_type e).

Lemma scmp_shape x x' y y' : shape x = shape x' → shape y = shape y' → scmp x y = scmp x' y'.
Proof. destruct x, x', y, y'. unfold shape. cbn. intros [= -> -> ->] [= -> -> ->]. reflexivity. Qed.
Lemma bit_dom_shape x y : shape x = shape y → bit_dom x ↔ bit_dom y.
Proof. destruct x, y. unfold shape. cbn. intros [= -> -> ->]. reflexivity. Qed.
Lemma bit_key_shape x y : shape x = shape y → bit_key x = bit_key y.
Proof. destruct x, y. unfold shape. cbn. intros [= -> -> ->]. reflexivity. Qed.

(** An assignment through the pointer to [e], at [x]. *)
Definition at_elem (f : elem → elem) (e x : elem) : elem :=
  if (e_len x =? e_len e) && bool_decide (e_data x = e_data e) then f x else x.

Section update.
Context (f : elem → elem) (Hf : ∀ x, shape (f x) = shape x) (e : elem).

Lemma at_elem_shape x : shape (at_elem f e x) = shape x.
Proof. unfold at_elem. by destruct (_ && _). Qed.
Lemma at_elem_same x : shape x = shape e → at_elem f e x = f x.
Proof. intros [= H1 H2 _]. unfold at_elem. by rewrite H1, H2, Z.eqb_refl, bool_decide_eq_true_2. Qed.

Lemma elements_update t : elements (tree_update f e t) = map (at_elem f e) (elements t).
Proof. induction t as [|l IHl x b sz r IHr]; cbn; [done|]. by rewrite map_app, IHl, IHr. Qed.
Lemma height_update t : height (tree_update f e t) = height t.
Proof. induction t as [|l IHl x b sz r IHr]; cbn; [done|]. by rewrite IHl, IHr. Qed.
Lemma tsize_update t : tsize (tree_update f e t) = tsize t.
Proof. by destruct t. Qed.
Lemma avl_update t : avl t → avl (tree_update f e t).
Proof.
  induction t as [|l IHl x b sz r IHr]; cbn; [done|]. intros (Hl & Hr & ? & ? & ->).
  rewrite !height_update, !tsize_update. split_and!; auto; lia.
Qed.

Definition with_elem (hdr : mphdr) : mphdr :=
  Mphdr (mp_flags hdr) (mp_cmp_type hdr) (mp_count hdr) (tree_update f e (mp_root hdr)).

Lemma with_elem_elems hdr : pool_elems (with_elem hdr) = map (at_elem f e) (pool_elems hdr).
Proof. apply elements_update. Qed.

Lemma with_elem_in hdr v : v ∈ pool_elems hdr → shape v = shape e → f v ∈ pool_elems (with_elem hdr).
Proof.
  intros Hv Hs. rewrite with_elem_elems, <- (at_elem_same v Hs). by apply (list_elem_of_fmap_2 (at_elem f e)).
Qed.

Lemma with_elem_ok hdr : pool_ok bit_dom hdr → pool_ok bit_dom (with_elem hdr).
Proof.
  intros [Ha [Hs Hd] Hc Ht]. split.
  - by apply avl_update.
  - rewrite with_elem_elems. split.
    + clear -Hs Hf. induction Hs as [|x l Hl IH Hx]; cbn; constructor; [done|].
      rewrite Forall_map. eapply Forall_impl; [exact Hx|]. cbv beta. intros y Hy.
      by rewrite (scmp_shape _ x _ y) by apply at_elem_shape.
    + rewrite Forall_map. eapply Forall_impl; [exact Hd|]. intros x. apply bit_dom_shape. by rewrite at_elem_shape.
  - rewrite with_elem_elems, length_map. exact Hc.
  - rewrite with_elem_elems, Forall_map. eapply Forall_impl; [exact Ht|]. cbv beta. intros x Hx.
    pose proof (at_elem_shape x) as [= _ _ E]. by rewrite E.
Qed.
End update.

Lemma swp_upd_elem f e w (P : unit → world → Prop) :
  P tt (set_w_mempool (with_elem f e (w_mempool w)) w) → swp (upd_elem e f) w P.
Proof. done. Qed.

(** * Lookups *)

Lemma in_order_unique l x y : in_order scmp bit_dom l → x ∈ l → y ∈ l → scmp x y = 0 → x = y.
Proof.
  intros Ho Hx Hy H. apply list_elem_of_split in Hx as (a & b & ->).
  destruct (in_order_mid scmp bit_dom bit_key a x b Ho) as [Ha Hb]. rewrite Forall_forall in Ha, Hb.
  apply elem_of_app in Hy as [Hy|[->|Hy]%elem_of_cons]; [by destruct (Ha y Hy)|done|by destruct (Hb y Hy)].
Qed.

(** An element that covers the key is the one found. *)
Lemma covering_found hdr v key n : pool_ok bit_dom hdr → bit_dom (new_elem hdr key n) → v ∈ pool_elems hdr →
  bit_key v `prefix_of` bit_key (new_elem hdr key n) → mem_get hdr key n = Some v.
Proof.
  intros Hp Hd Hv Hpre. set (q := new_elem hdr key n) in *.
  assert (Dv : bit_dom v) by (by apply (pool_dom bit_dom hdr)).
  pose proof (mem_get_ok bit_dom bit_key hdr key n Hp Hd) as H. fold q in H.
  assert (Hqv : scmp q v = 0).
  { rewrite (keyed_eq scmp bit_dom bit_key), prefix_cmp_0 by done. by right. }
  destruct (mem_get hdr key n) as [e|].
  - destruct H as [He Hqe]. f_equal. symmetry. apply (in_order_unique (pool_elems hdr)); [apply Hp|done|done|].
    assert (De : bit_dom e) by (by apply (pool_dom bit_dom hdr)).
    rewrite (keyed_eq scmp bit_dom bit_key), prefix_cmp_0 in Hqe |- * by done. destruct Hqe as [Hqe|Hqe].
    + left. by etrans.
    + by eapply prefix_weak_total.
  - rewrite Forall_forall in H. by destruct (H v Hv).
Qed.

(** * The bits that two keys share *)

(** The bits that differ behind the top ones of two bytes, as [eq_bitlen] finds them. *)
Definition low_bits (x y : Z) : comp Z :=
  loop (λ bi, Ok (if (bi <? 8) && negb (Z.shiftr (s8 x) bi =? Z.shiftr (s8 y) bi)
                  then inl (bi + 1) else inr bi)) 9 0.

Definition low_bits_right (x y : Z) : bool :=
  match low_bits x y with
  | Ok bi => (0 <=? bi) && (bi <=? 8) && ((x =? y) || (0 <? bi) &&
      bool_decide (take (Z.to_nat (8 - bi)) (bits 8 x) = take (Z.to_nat (8 - bi)) (bits 8 y)) &&
      bool_decide (bits 8 x !! Z.to_nat (8 - bi) ≠ bits 8 y !! Z.to_nat (8 - bi)))
  | Fail _ => false
  end.

Lemma low_bits_all : forallb (λ x, forallb (low_bits_right x) (seqZ 0 256)) (seqZ 0 256) = true.
Proof. by vm_compute. Qed.

Lemma low_bits_ok x y : is_byte x → is_byte y → x ≠ y → ∃ bi, low_bits x y = Ok bi ∧ 0 < bi <= 8 ∧
  take (Z.to_nat (8 - bi)) (bits 8 x) = take (Z.to_nat (8 - bi)) (bits 8 y) ∧
  bits 8 x !! Z.to_nat (8 - bi) ≠ bits 8 y !! Z.to_nat (8 - bi).
Proof.
  intros Hx Hy Hne. pose proof low_bits_all as H. rewrite forallb_forall in H.
  unfold is_byte in *. assert (Hin : ∀ z, 0 <= z < 256 → In z (seqZ 0 256)).
  { intros z Hz. apply list_elem_of_In, elem_of_seqZ. lia. }
  specialize (H x (Hin x Hx)). cbv beta in H. rewrite forallb_forall in H. specialize (H y (Hin y Hy)).
  unfold low_bits_right in H. destruct (low_bits x y) as [bi|]; [|done]. exists bi.
  apply andb_prop in H as [H H1]. apply andb_prop in H as [Hl%Z.leb_le Hh%Z.leb_le].
  destruct (Z.eqb_spec x y) as [|_]; [done|]. cbn [orb] in H1. apply andb_prop in H1 as [H1 H3].
  apply andb_prop in H1 as [H1%Z.ltb_lt H2]. apply bool_decide_eq_true_1 in H2, H3. by split_and!.
Qed.

(** The first byte in which two strings differ, or the end. *)
Lemma eq_bytes_ok a b n : 0 <= n → n <= blen a → n <= blen b →
  wp (loop (λ k, if k <? n then
        x ← rd a k; y ← rd b k; Ok (if x =? y then inl (k + 1) else inr k)
      else Ok (inr k)) (S (Z.to_nat n)) 0)
    (λ k, 0 <= k <= n ∧ sub a 0 k = sub b 0 k ∧ (k < n → bat a k ≠ bat b k)).
Proof.
  intros Hn Ha Hb.
  apply (wp_loop _ (λ k, 0 <= k <= n ∧ sub a 0 k = sub b 0 k) (λ k, Z.to_nat (n - k))).
  - intros k [Hk E]. destruct (Z.ltb_spec k n); [|split_and!; try done; lia].
    apply wp_bind, wp_rd; [lia|]. apply wp_bind, wp_rd; [lia|]. apply wp_ok.
    destruct (Z.eqb_spec (bat a k) (bat b k)) as [Eq|].
    + split; [|lia]. split; [lia|]. by rewrite !sub_snoc, E, Eq by lia.
    + split_and!; [lia|lia|done|done].
  - split; [lia|]. by rewrite !sub_0.
  - lia.
Qed.

Lemma all_bits_at a k : 0 <= k < blen a → ∃ l, all_bits a = all_bits (sub a 0 k) ++ bits 8 (bat a k) ++ l.
Proof.
  intros Hk. destruct (split_at a k) as (x & y & -> & Hx); [lia|]. rewrite blen_app in Hk.
  destruct y as [|c y]; [rewrite blen_nil in Hk; lia|]. exists (all_bits y).
  rewrite sub_app_l by lia. rewrite <- Hx at 1. rewrite sub_all. unfold bat.
  rewrite <- Hx. unfold blen. rewrite Nat2Z.id, nth_middle. unfold all_bits. by rewrite flat_map_app.
Qed.

(** The strings share [r] leading bits and no more. *)
Definition shared_bits (a b : bytes) (r : Z) : Prop :=
  take (Z.to_nat r) (all_bits a) = take (Z.to_nat r) (all_bits b) ∧
  all_bits a !! Z.to_nat r ≠ all_bits b !! Z.to_nat r.

(** [eq_bitlen] on two keys that differ counts the leading bits they share, although it
    shifts signed characters; on equal keys it returns eight more than all the bits. *)
Lemma eq_bitlen_counts a b n : bytes_wf a → bytes_wf b → 0 <= n → n <= blen a → n <= blen b →
  wp (eq_bitlen a b n) (λ r,
    if decide (sub a 0 n = sub b 0 n) then r = 8 * n + 8
    else 0 <= r < 8 * n ∧ shared_bits a b r).
Proof.
  intros Hwa Hwb Hn Ha Hb. unfold eq_bitlen. apply wp_bind. eapply wp_mono; [by apply eq_bytes_ok|].
  intros k (Hk & E & Hd). cbv beta. destruct (Z.eqb_spec k n) as [->|Hkn]; cbn [negb].
  { apply wp_bind, wp_ok, wp_ok. rewrite decide_True by done. lia. }
  assert (Hkn' : k < n) by lia. specialize (Hd Hkn').
  destruct (low_bits_ok (bat a k) (bat b k)) as (bi & Ebi & Hbi & Ht & Hl); [by apply bat_byte..|done|].
  apply wp_bind, wp_bind, wp_rd; [lia|]. apply wp_bind, wp_rd; [lia|]. fold (low_bits (bat a k) (bat b k)).
  rewrite Ebi. apply wp_ok, wp_ok. rewrite decide_False.
  2: { intros H. apply Hd. transitivity (bat (sub a 0 n) k); [|rewrite H]; rewrite bat_sub; f_equal; lia. }
  split; [lia|]. destruct (all_bits_at a k) as [la Ea]; [lia|]. destruct (all_bits_at b k) as [lb Eb]; [lia|].
  assert (Hlen : length (all_bits (sub b 0 k)) = Z.to_nat (8 * k)).
  { apply Nat2Z.inj. rewrite length_all_bits, blen_sub by lia. lia. }
  unfold shared_bits. rewrite Ea, Eb, E. replace (Z.to_nat (k * 8 + 8 - bi)) with (length (all_bits (sub b 0 k)) + Z.to_nat (8 - bi))%nat by lia.
  split.
  - rewrite !take_app_add, !take_app_le by (rewrite length_bits; lia). by rewrite Ht.
  - set (L := all_bits (sub b 0 k)).
    assert (Hr : ∀ c l, (L ++ bits 8 c ++ l) !! (length L + Z.to_nat (8 - bi))%nat = bits 8 c !! Z.to_nat (8 - bi)).
    { intros c l. rewrite lookup_app_r, Nat.add_comm, Nat.add_sub by lia. rewrite lookup_app_l; [done|].
      rewrite length_bits. lia. }
    by rewrite !Hr.
Qed.

(** * Keys of addresses *)

Lemma whole_bits b n : 0 <= n <= blen b → take (Z.to_nat (n * 8)) (all_bits b) = all_bits (sub b 0 n).
Proof.
  intros Hn. rewrite take_all_bits by lia. rewrite Z.mod_mul, Z.div_mul by lia.
  change (0 =? 0) with true. by rewrite app_nil_r.
Qed.
Lemma all_bits_inj a b : bytes_wf a → bytes_wf b → blen a = blen b → all_bits a = all_bits b → a = b.
Proof.
  intros Ha Hb Hl E. pose proof (all_bits_cmp a b Ha Hb) as H. rewrite E in H.
  rewrite (proj2 (prefix_cmp_0 _ _)) in H by (by left). unfold blen in Hl. symmetry in H. apply prefix_cmp_0 in H as [H|H].
  - apply prefix_length_eq in H; [done|lia].
  - symmetry. apply prefix_length_eq in H; [done|lia].
Qed.

(** An element with its family and its port, and with an IPv4 address where the family is that. *)
Definition addressed (e : elem) : Prop := 32 <= e_len e ∧ (sub (e_data e) 0 2 = [2; 0] → blen (e_data e) = 8).
Lemma addressed_shape x y : shape x = shape y → addressed x ↔ addressed y.
Proof. destruct x, y. unfold shape. cbn. intros [= -> -> ->]. reflexivity. Qed.

(** Keys that are related have the same family. *)
Lemma related_family p q : bit_dom p → bit_dom q → 32 <= e_len p → 32 <= e_len q → scmp p q = 0 →
  sub (e_data p) 0 2 = sub (e_data q) 0 2.
Proof.
  intros Hp Hq H1 H2 H. pose proof Hp as (_ & Wp & Lp). pose proof Hq as (_ & Wq & Lq).
  assert (Hlen : ∀ e, bit_dom e → 32 <= e_len e → take 16 (bit_key e) = all_bits (sub (e_data e) 0 2)).
  { intros e (_ & _ & He) Hl. unfold bit_key. rewrite take_take, Nat.min_l by lia. rewrite <- whole_bits by lia. done. }
  assert (Hpre : ∀ x y, bit_dom x → 32 <= e_len x → bit_key x `prefix_of` bit_key y → take 16 (bit_key x) = take 16 (bit_key y)).
  { intros x y Hx Hl [k ->]. rewrite take_app_le; [done|]. rewrite length_bit_key by done. lia. }
  apply all_bits_inj; [by apply wf_sub|by apply wf_sub|rewrite !blen_sub by lia; done|]. rewrite <- !Hlen by done.
  apply (scmp_related bit_dom bit_key) in H as [H|H]; [| |done|done]; [|symmetry]; by apply Hpre.
Qed.

Lemma mem_cmp_start a b k n : 0 <= k <= n → k <= blen a → k <= blen b → sub a 0 k ≠ sub b 0 k →
  mem_cmp a b n = mem_cmp a b k ∧ mem_cmp a b k ≠ 0.
Proof.
  intros Hk Ha Hb Hne. unfold mem_cmp. rewrite !bytes_cmp_prefix.
  assert (Hz : prefix_cmp (sub a 0 k) (sub b 0 k) ≠ 0).
  { intros H. apply Hne. assert (El : length (sub a 0 k) = length (sub b 0 k)).
    { pose proof (blen_sub a 0 k). pose proof (blen_sub b 0 k). unfold blen in *. lia. }
    apply prefix_cmp_0 in H as [H|H]; [|symmetry]; (apply prefix_length_eq in H; [done|lia]). }
  split; [|done]. assert (E : ∀ l, sub l 0 n = sub l 0 k ++ take (Z.to_nat (n - k)) (drop (Z.to_nat k) l)).
  { intros l. unfold sub. rewrite !drop_0. replace (Z.to_nat n) with (Z.to_nat k + Z.to_nat (n - k))%nat by lia. by rewrite take_take_drop. }
  rewrite (E a), (E b), prefix_cmp_app.
  - by destruct (Z.eqb_spec (prefix_cmp (sub a 0 k) (sub b 0 k)) 0).
  - pose proof (blen_sub a 0 k). pose proof (blen_sub b 0 k). unfold blen in *. lia.
Qed.

(** [eq_bitlen] gives a length of nine bytes for two equal keys of eight; the comparison
    does not come to the ninth. *)
Lemma long_key hdr key y : mp_cmp_type hdr = CMP_BITS → blen key = 8 → sub key 0 2 = [2; 0] → bit_dom y → addressed y →
  scmp (new_elem hdr key 72) y = scmp (new_elem hdr key 64) y.
Proof.
  intros Ht Hk Hf (_ & _ & Hl) [H32 Hy]. unfold scmp. cbn [e_cmp_type new_elem]. rewrite Ht.
  change (CMP_BITS =? CMP_BITS) with true. cbv iota. unfold bit_cmp. cbn [e_len e_data new_elem].
  destruct (decide (sub (e_data y) 0 2 = [2; 0])) as [E|E].
  - specialize (Hy E). assert (e_len y <= 64) by lia. destruct (Z.ltb_spec (e_len y) 72); [|lia].
    destruct (Z.ltb_spec (e_len y) 64); [done|]. by replace (e_len y) with 64 by lia.
  - assert (Hne : sub key 0 2 ≠ sub (e_data y) 0 2) by congruence.
    assert (H : ∀ m, 32 <= m → let nb := Z.quot m 8 in mem_cmp key (e_data y) nb = mem_cmp key (e_data y) 2 ∧ mem_cmp key (e_data y) 2 ≠ 0).
    { intros m Hm. apply mem_cmp_start; [|lia|lia|done]. assert (4 <= m ÷ 8) by (apply Z.quot_le_lower_bound; lia). lia. }
    assert (Hmin : ∀ a, 32 <= a → 32 <= (if e_len y <? a then e_len y else a)) by (intros a Ha; destruct (e_len y <? a); lia).
    destruct (H _ (Hmin 72 ltac:(lia))) as [-> Hz]. destruct (H _ (Hmin 64 ltac:(lia))) as [-> _].
    by rewrite (proj2 (Z.eqb_neq _ _) Hz).
Qed.

Lemma cuts_same x x' l : (∀ y, y ∈ l → scmp x y = scmp x' y) → cuts scmp x' l → cuts scmp x l.
Proof.
  intros Hsame Hc. unfold cuts in *. induction l as [|y l IH]; [constructor|].
  apply StronglySorted_cons in Hc as [Hy Hc]. apply StronglySorted_cons. split.
  - rewrite Forall_forall in Hy |- *. intros z Hz. rewrite !Hsame by (by left || by right). by apply Hy.
  - apply IH; [|done]. intros z Hz. apply Hsame. by right.
Qed.
(** [mem_add] finds what the same string is related to under another length. *)
Lemma mem_add_found hdr str len len' : pool_ok bit_dom hdr → bit_dom (new_elem hdr str len') →
  (∀ y, y ∈ pool_elems hdr → scmp (new_elem hdr str len) y = scmp (new_elem hdr str len') y) →
  (∀ y, y ∈ pool_elems hdr → scmp (new_elem hdr str len') y = 0 → e_len y <= len) →
  (∃ y, y ∈ pool_elems hdr ∧ scmp (new_elem hdr str len') y = 0) →
  ∃ v, mem_add hdr str len = Ok (v, false, hdr) ∧ v ∈ pool_elems hdr ∧ scmp (new_elem hdr str len') v = 0.
Proof.
  intros Hp Hd Hsame Hlen (y & Hy & Hyr). unfold mem_add. cbn [mem_add_loop].
  destruct (kavl_insert_ok scmp (mp_root hdr) (new_elem hdr str len) (po_avl _ _ Hp)) as
    [(v & -> & Hv & Hev)|(t' & a & b & _ & _ & E1 & _ & Fa & Fb)].
  - pose proof (in_order_cuts scmp bit_dom bit_key (new_elem hdr str len') _ Hd (po_order _ _ Hp)) as Hc.
    by apply (cuts_same _ (new_elem hdr str len')).
  - rewrite bind_ok. cbv iota zeta. rewrite Hsame in Hev by done. destruct (Z.ltb_spec (e_len (new_elem hdr str len)) (e_len v)) as [Hlt|].
    { cbn in Hlt. specialize (Hlen v Hv Hev). lia. }
    exists v. split_and!; [by destruct hdr|done|done].
  - exfalso. rewrite <- Hsame in Hyr by done. unfold pool_elems in Hy. rewrite E1 in Hy. rewrite Forall_forall in Fa, Fb.
    apply elem_of_app in Hy as [Hy|Hy]; [specialize (Fa y Hy)|specialize (Fb y Hy)]; lia.
Qed.

Section cache.
Context (prm : params) (os : list call → answer).

(** The cache is a pool of bit strings in order, with keys of addresses. *)
Definition pool_fine (hdr : mphdr) : Prop :=
  pool_ok bit_dom hdr ∧ mp_cmp_type hdr = CMP_BITS ∧ Forall addressed (pool_elems hdr).
Definition cache_ok (w : world) : Prop := pool_fine (w_mempool w).
Lemma with_elem_fine f e hdr : (∀ x, shape (f x) = shape x) → pool_fine hdr → pool_fine (with_elem f e hdr).
Proof.
  intros Hf (Hp & Ht & Ha). split_and!; [by apply with_elem_ok|done|]. rewrite with_elem_elems, Forall_map by done.
  eapply Forall_impl; [exact Ha|]. intros x. apply addressed_shape. by rewrite at_elem_shape.
Qed.

(** [e] is what the cache has for [dst]. *)
Definition cached (w : world) (dst : bytes) (e : elem) : Prop :=
  let '(key, n) := serialize_addr dst in
  mem_get (w_mempool w) key (n * 8) = Some e ∧ bit_key e `prefix_of` all_bits (sub key 0 n).

Lemma serialize_ok dst : bytes_wf dst → blen dst = sa_len →
  let '(key, n) := serialize_addr dst in bytes_wf key ∧ blen key = 20 ∧
    (sa_family dst ≠ AF_INET → n = 20 ∧ sub key 0 2 ≠ [2; 0]) ∧ (sa_family dst = AF_INET → n = 8 ∧ sub key 0 2 = [2; 0]).
Proof.
  intros Hw Hl. unfold serialize_addr, sin_port, sin_addr, sin6_addr, sa_len in *.
  assert (Hfam : sub dst 0 2 = [2; 0] ↔ sa_family dst = AF_INET).
  { unfold sa_family, AF_INET. destruct dst as [|x [|y l]]; [done|done|]. apply list.Forall_cons in Hw as [Hx [Hy _]%list.Forall_cons].
    change (sub (x :: y :: l) 0 2) with [x; y]. change (bat (x :: y :: l) 0) with x. change (bat (x :: y :: l) 1) with y.
    unfold is_byte in *. split; [by intros [= -> ->]|]. intros. f_equal; [lia|]. f_equal. lia. }
  assert (Hsub : ∀ l, sub (sub dst 0 2 ++ l) 0 2 = sub dst 0 2).
  { intros l. rewrite sub_app_l; [by rewrite sub_sub by lia|lia|lia|rewrite blen_sub; lia]. }
  destruct (Z.eqb_spec (sa_family dst) AF_INET) as [E|E].
  - split_and!; [|rewrite !blen_app, !blen_sub, blen_repeat by lia; lia|done|rewrite Hsub; by split; [|apply Hfam]].
    repeat apply Forall_app_2; try by apply wf_sub. by repeat constructor.
  - split_and!; [|rewrite !blen_app, !blen_sub by lia; lia|rewrite Hsub; split; [done|by intros ?%Hfam]|done].
    repeat apply Forall_app_2; by apply wf_sub.
Qed.

(** What remains once the element is in the pool: the time, and the host. *)
Lemma tag_ok hdr w v dst (host : option bytes) t (P : elem * option bytes → world → Prop) :
  w_mempool w = hdr → pool_fine hdr → bytes_wf dst → blen dst = sa_len →
  v ∈ pool_elems hdr → (let '(key, n) := serialize_addr dst in bit_key v `prefix_of` all_bits (sub key 0 n)) →
  (∀ r w', cache_ok w' → cached w' dst r.1 → e_time r.1 = t → w_pool w' = w_pool w → w_dps w' = w_dps w →
    (match e_extra v, host with
     | None, Some h => e_extra r.1 = Some h ∧ r.2 = None
     | _, _ => e_extra r.1 = e_extra v ∧ r.2 = host end) → P r w') →
  swp (upd_elem v (set_e_time t);;
    match e_extra v, host with
    | None, Some h => upd_elem v (set_e_extra (Some h));; mret (set_e_extra (Some h) (set_e_time t v), None)
    | _, _ => mret (set_e_time t v, host)
    end) w P.
Proof.
  intros Hw Hp Hwf Hl Hv Hpre HP. pose proof (serialize_ok dst Hwf Hl) as Hser.
  assert (Hend : ∀ hdr' v', pool_fine hdr' → v' ∈ pool_elems hdr' →
    shape v' = shape v → cached (set_w_mempool hdr' w) dst v').
  { intros hdr' v' (Hp' & Ht' & _) Hv' Hs. unfold cached. destruct (serialize_addr dst) as [key n].
    destruct Hser as (Hkw & Hkl & Hn). rewrite (bit_key_shape v' v Hs). split; [|done].
    apply covering_found; [done| |done|].
    - split; [exact Ht'|]. cbn. split; [done|lia].
    - rewrite (bit_key_shape v' v Hs). unfold bit_key at 2. cbn. by rewrite whole_bits by lia. }
  assert (H1 : pool_fine (with_elem (set_e_time t) v hdr)) by (by apply with_elem_fine).
  assert (V1 : set_e_time t v ∈ pool_elems (with_elem (set_e_time t) v hdr)) by (by apply with_elem_in).
  sstep. apply swp_upd_elem. rewrite Hw.
  assert (Hsimple : e_extra v ≠ None ∨ host = None →
    P (set_e_time t v, host) (set_w_mempool (with_elem (set_e_time t) v hdr) w)).
  { intros Hc. apply HP; cbn; try done; [by apply Hend|].
    destruct (e_extra v), host; try done. by destruct Hc. }
  destruct (e_extra v) as [x|] eqn:Ex; [sstep; apply Hsimple; by left|].
  destruct host as [h|]; [|sstep; apply Hsimple; by right].
  sstep. apply swp_upd_elem. cbn [w_mempool set_w_mempool]. sstep.
  set (h1 := with_elem (set_e_time t) v hdr) in *.
  apply HP; cbn; try done.
  - change (pool_fine (with_elem (set_e_extra (Some h)) v h1)). by apply with_elem_fine.
  - change (cached (set_w_mempool (with_elem (set_e_extra (Some h)) v h1) w) dst (set_e_extra (Some h) (set_e_time t v))).
    apply Hend; [by apply with_elem_fine| |done]. by apply with_elem_in.
Qed.

(** The length under which the key is stored: all of it, or, when prefixes are merged, the bits that
    it shares with a related element. *)
Definition stored_len (hdr : mphdr) (key : bytes) (n len : Z) : Prop :=
  32 <= len <= n * 8 ∨
  n = 8 ∧ len = 72 ∧ sub key 0 2 = [2; 0] ∧ ∃ v, v ∈ pool_elems hdr ∧ sub key 0 8 = e_data v.

Lemma merged_len hdr dst : pool_fine hdr → bytes_wf dst → blen dst = sa_len → 0 <= pr_cache_pre prm <= 32 →
  let '(key, n) := serialize_addr dst in
  wp (if (sa_family dst =? AF_INET) && negb (pr_cache_pre prm =? 0) then
      match mem_get hdr key (n * 8 - pr_cache_pre prm) with
      | Some val => eq_bitlen key (e_data val) n
      | None => Ok (n * 8)
      end
    else Ok (n * 8)) (stored_len hdr key n).
Proof.
  intros (Hp & Ht & Ha) Hwf Hl Hpre. pose proof (serialize_ok dst Hwf Hl) as Hser.
  destruct (serialize_addr dst) as [key n] eqn:E. destruct Hser as (Hkw & Hkl & Hn & Hn8). assert (Hall : wp (Ok (n * 8)) (stored_len hdr key n)) by (apply wp_ok; left; lia).
  destruct (Z.eqb_spec (sa_family dst) AF_INET) as [Hf|]; [|exact Hall]. destruct (negb _); [|exact Hall]. cbn [andb].
  destruct (Hn8 Hf) as [-> Hfam].
  assert (Hd : bit_dom (new_elem hdr key (8 * 8 - pr_cache_pre prm))) by (split; [exact Ht|]; cbn; split; [done|lia]).
  pose proof (mem_get_ok bit_dom bit_key hdr key (8 * 8 - pr_cache_pre prm) Hp Hd) as Hg.
  destruct (mem_get _ _ _) as [v|]; [|exact Hall]. destruct Hg as [Hv Hr]. pose proof (pool_dom bit_dom hdr v Hp Hv) as Hdv.
  rewrite Forall_forall in Ha. destruct (Ha v Hv) as [H32 H8].
  assert (Hvf : sub key 0 2 = sub (e_data v) 0 2) by (apply (related_family (new_elem hdr key (8 * 8 - pr_cache_pre prm)) v); [done|done|cbn; lia|done|done]).
  rewrite Hfam in Hvf. symmetry in Hvf. specialize (H8 Hvf). pose proof Hdv as (_ & Hvw & Hvl).
  eapply wp_mono; [apply eq_bitlen_counts; [done|done|lia|lia|lia]|]. cbv beta. intros r Hc.
  destruct (decide _) as [Es|_].
  - right. split_and!; [done|lia|done|]. exists v. split; [done|]. rewrite Es. rewrite <- H8. apply sub_all.
  - left. destruct Hc as [Hr0 [Et En]]. split; [|lia]. destruct (Z.le_gt_cases 32 r) as [|Hlt]; [done|]. exfalso. apply En.
    apply (scmp_related bit_dom bit_key) in Hr; [|done|done].
    assert (Hbits : ∀ x, bit_dom x → 32 <= e_len x → bit_key x !! Z.to_nat r = all_bits (e_data x) !! Z.to_nat r).
    { intros x _ Hx. unfold bit_key. apply lookup_take_lt. lia. }
    assert (Hpr : ∀ x y, bit_dom x → bit_dom y → 32 <= e_len x → 32 <= e_len y → bit_key x `prefix_of` bit_key y →
      all_bits (e_data x) !! Z.to_nat r = all_bits (e_data y) !! Z.to_nat r).
    { intros x y Hx Hy Hlx Hly [k Ek]. rewrite <- Hbits, <- (Hbits y) by done. rewrite Ek, lookup_app_l; [done|].
      rewrite length_bit_key by done. lia. }
    destruct Hr as [Hr|Hr]; [|symmetry]; (apply (Hpr _ _) in Hr; [exact Hr|done|done|cbn; lia|cbn; lia]).
Qed.

(** The element that [mem_add] finds or makes. *)
Lemma stored_ok hdr key n len : pool_fine hdr → bytes_wf key → blen key = 20 → (n = 8 ∧ sub key 0 2 = [2; 0] ∨ n = 20 ∧ sub key 0 2 ≠ [2; 0]) →
  stored_len hdr key n len →
  ∃ v new hdr', mem_add hdr (sub key 0 n) len = Ok (v, new, hdr') ∧ pool_fine hdr' ∧ v ∈ pool_elems hdr' ∧
    bit_key v `prefix_of` all_bits (sub key 0 n).
Proof.
  intros (Hp & Ht & Ha) Hkw Hkl Hn Hlen. assert (Hn20 : 8 <= n <= 20) by (destruct Hn as [[-> _]|[-> _]]; lia).
  assert (Hd : ∀ m, 0 <= m <= n * 8 → bit_dom (new_elem hdr (sub key 0 n) m)).
  { intros m Hm. split; [exact Ht|]. cbn. split; [by apply wf_sub|]. rewrite blen_sub; lia. }
  assert (Hk : ∀ m, 0 <= m <= n * 8 → bit_key (new_elem hdr (sub key 0 n) m) `prefix_of` all_bits (sub key 0 n)).
  { intros m Hm. unfold bit_key. cbn. apply prefix_take. }
  assert (Hfam : sub (sub key 0 n) 0 2 = sub key 0 2) by (rewrite sub_sub by lia; done).
  destruct Hlen as [Hlen|(-> & -> & Hf & x & Hx & Ex)].
  - destruct (mem_add_ok bit_dom bit_key hdr (sub key 0 n) len Hp (Hd len ltac:(lia))) as
      [(v & E & Hv & Hs & Hle)|(hdr' & a & b & E & Hp' & Ht' & El & Ef & _)].
    + exists v, false, hdr. split_and!; [done|by split|done|]. pose proof (pool_dom bit_dom hdr v Hp Hv) as Hdv.
      etrans; [|apply (Hk len); lia]. apply (covers_scmp bit_dom bit_key); [done|apply Hd; lia|done].
    + eexists _, true, hdr'. split_and!; [exact E| |rewrite El; apply elem_mid|apply Hk; lia]. split_and!; [done|congruence|].
      rewrite El. assert (Hab : Forall addressed (a ++ b)).
      { rewrite Ef. rewrite Forall_forall in Ha |- *. intros y Hy. apply list_elem_of_In, filter_In in Hy as [Hy _]. by apply Ha, list_elem_of_In. }
      apply Forall_app in Hab as [Fa Fb]. apply Forall_app. split; [done|]. constructor; [|done]. split; [cbn; lia|]. cbn. rewrite Hfam.
      intros Hf. destruct Hn as [[-> _]|[_ Hne]]; [rewrite blen_sub; lia|done].
  - rewrite Forall_forall in Ha. assert (H64 : bit_dom (new_elem hdr (sub key 0 8) 64)) by (apply Hd; lia).
    assert (Hrel : scmp (new_elem hdr (sub key 0 8) 64) x = 0).
    { apply (scmp_related bit_dom bit_key); [done|by apply (pool_dom bit_dom hdr)|]. right. unfold bit_key. cbn [e_len e_data new_elem].
      rewrite Ex. destruct (pool_dom bit_dom hdr x Hp Hx) as (_ & _ & Hlx). rewrite <- Ex, blen_sub in Hlx by lia. exists (take (64 - Z.to_nat (e_len x)) (drop (Z.to_nat (e_len x)) (all_bits (e_data x)))).
      rewrite take_take_drop. f_equal. lia. }
    assert (Hle : ∀ y, y ∈ pool_elems hdr → scmp (new_elem hdr (sub key 0 8) 64) y = 0 → e_len y <= 64).
    { intros y Hy Hr. destruct (Ha y Hy) as [H32 H8]. destruct (pool_dom bit_dom hdr y Hp Hy) as (Hy1 & Hy2 & Hy3).
      apply related_family in Hr; [|done|done|cbn; lia|done]. cbn [e_data new_elem] in Hr. rewrite Hfam, Hf in Hr. specialize (H8 (eq_sym Hr)). lia. }
    destruct (mem_add_found hdr (sub key 0 8) 72 64 Hp H64) as (v & E & Hv & Hr).
    + intros y Hy. apply long_key; [done|rewrite blen_sub; lia|by rewrite Hfam|by apply (pool_dom bit_dom hdr)|by apply Ha].
    + intros y Hy Hr. specialize (Hle y Hy Hr). lia.
    + by exists x.
    + exists v, false, hdr. split_and!; [done|split_and!; [done|done|by rewrite Forall_forall]|done|].
      etrans; [|apply (Hk 64); lia]. apply (covers_scmp bit_dom bit_key); [by apply (pool_dom bit_dom hdr)|done|]. split; [done|cbn; by apply Hle].
Qed.

Lemma cache_add_ok dst host w :
  cache_ok w → bytes_wf dst → blen dst = sa_len → 0 <= pr_cache_pre prm <= 32 →
  swp (cache_add prm os dst host) w (λ r w', cache_ok w' ∧ cached w' dst r.1 ∧
    e_time r.1 = a_ret (os (world_log w ++ [KTime])) ∧ w_dps w' = w_dps w ∧
    p_items (w_pool w') = p_items (w_pool w) ∧ (host = None ∨ e_extra r.1 ≠ None) ∧ (r.2 = host ∨ r.2 = None)).
Proof.
  intros Hc Hwf Hl Hpre. pose proof (serialize_ok dst Hwf Hl) as Hser. pose proof (merged_len (w_mempool w) dst Hc Hwf Hl Hpre) as Hm.
  unfold cache_add. destruct (serialize_addr dst) as [key n] eqn:Eser. destruct Hser as (Hkw & Hkl & Hn & Hn8).
  sstep. apply swp_sysret. set (t := a_ret _). set (w1 := with_log _ w). sstep. sstep. sstep.
  change (w_mempool w1) with (w_mempool w).
  apply swp_lift. eapply wp_mono; [exact Hm|]. intros len Hlen. sstep. sstep.
  destruct (stored_ok (w_mempool w) key n len Hc Hkw Hkl) as (v & new & hdr & -> & Hf & Hv & Hk); [|done|].
  { destruct (Z.eq_dec (sa_family dst) AF_INET) as [E|E]; [left; by apply Hn8|right; by apply Hn]. }
  apply wp_ok. sstep. sstep. apply (tag_ok hdr _ v dst host t); [done..| |].
  - by rewrite Eser.
  - intros r w' Hc' Hcd Hti Hpo Hdp Hx. split_and!; [done..|by rewrite Hpo| |].
    + destruct host as [h|]; [right|by left]. destruct (e_extra v); destruct Hx as [-> _]; done.
    + destruct (e_extra v), host; destruct Hx as [_ ->]; auto.
Qed.
End cache.

(** * Where the code does not do what it means to *)

(** An IPv4 address and port, as a [sockaddr_in]. *)
Definition v4 (a b c d : Z) (port : Z) : bytes := [2; 0; u8 (Z.shiftr port 8); u8 port; a; b; c; d] ++ repeat 0 20.

(** A group with ports [pf] whose entries live [ttl] seconds. *)
Definition plain_group (pf : Z * Z) (ttl : Z) : desync_params :=
  DesyncParams 0 None 0 part_init [] 0 0 (0, 0) [] 0 [] None 0 0 0 None None pf (0, 0) 0 (repeat 0 28) 0 0 0 0 ttl None None.

Definition cache_params : params :=
  Params 10 false 0 false 0 0 0 0 0 2 true true true false true 512 0 64 (repeat 0 28) 1.

(** The clock stands at 100. *)
Definition clock_os (_ : list call) : answer := Answer 100 [] [] [].

(** Two addresses of one group whose entries live ten seconds; the second is thirty seconds old. *)
Definition two_addresses : mphdr :=
  let e t a := Elem 64 (serialize_addr a).1 CMP_BITS None 0 0 (Some 0%nat) 0 t in
  Mphdr 0 CMP_BITS 2 (Node Leaf (e 95 (v4 10 0 0 1 443)) 1 2 (Node Leaf (e 70 (v4 10 0 0 2 443)) 0 1 Leaf)).
Definition cache_world : world :=
  World (init_pool 0 [] []) [plain_group (0, 0) 10] (Some 0%nat) two_addresses 0 0 [] [].

(** [cache_get] for the second, expired, deletes the first: the length it gives to
    [mem_delete] is in bytes and counts as bits. *)
Lemma cache_get_deletes_other :
  match cache_get clock_os (v4 10 0 0 2 443) cache_world with
  | Ok (None, w) => map e_time (pool_elems (w_mempool w)) = [70]
  | _ => False
  end.
Proof. by vm_compute. Qed.

(** A group for the ports 80 to 443, as [main] stores them, rejects port 256 and
    accepts port 2660: the bytes are compared in network order. *)
Definition ports_80_443 : desync_params := plain_group (80 * 256, 443 / 256 + 443 mod 256 * 256) 0.

Lemma check_l34_port_order :
  check_l34 ports_80_443 SOCK_STREAM (v4 10 0 0 1 256) = false ∧
  check_l34 ports_80_443 SOCK_STREAM (v4 10 0 0 1 2660) = true.
Proof. by vm_compute. Qed.

(** * Properties *)

(** C36: What [cache_add] stores for an address is what a lookup for the address finds, for every
    number of bits that option [-/] leaves open for merging (0 to 32): the cache stays an ordered pool
    of keys, its entry for the address is the element returned, which is a prefix of the
    address and has the time of the call, and the host is kept by the element or by the
    caller.  The keys in the cache have to hold at least the family and the port, and an
    IPv4 address where the family is that ([addressed]), and they still do afterwards. *)
Theorem cache_add_found prm os dst host w :
  cache_ok w → bytes_wf dst → blen dst = sa_len → 0 <= pr_cache_pre prm <= 32 →
  swp (cache_add prm os dst host) w (λ r w', cache_ok w' ∧ cached w' dst r.1 ∧
    e_time r.1 = a_ret (os (world_log w ++ [KTime])) ∧ w_dps w' = w_dps w ∧
    p_items (w_pool w') = p_items (w_pool w) ∧ (host = None ∨ e_extra r.1 ≠ None) ∧ (r.2 = host ∨ r.2 = None)).
Proof. apply cache_add_ok. Qed.

(** 10.0.0.1 is in the cache, and the last eight bits are open. *)
Definition merging_params : params := 
  Params 10 false 0 false 0 0 0 0 8 2 true true true false true 512 0 64 (repeat 0 28) 1.
Definition one_address : mphdr := Mphdr 0 CMP_BITS 1
  (Node Leaf (Elem 64 (sub (serialize_addr (v4 10 0 0 1 443)).1 0 8) CMP_BITS None 0 0 (Some 0%nat) 0 95) 0 1 Leaf).
Definition merging_world : world := set_w_mempool one_address cache_world.
Lemma one_address_fine : pool_fine one_address.
Proof.
  assert (Hw : bytes_wf (sub (serialize_addr (v4 10 0 0 1 443)).1 0 8)) by (apply (bool_decide_unpack _); vm_compute; exact I).
  split_and!; [split| |]; [vm_compute; intuition congruence|split; [repeat constructor|]| | | |].
  - constructor; [|constructor]. split_and!; [done|exact Hw|discriminate|discriminate].
  - done.
  - repeat constructor.
  - done.
  - constructor; [|constructor]. split; [discriminate|done].
Qed.
(** Then 10.0.0.3 is kept under the 62 bits that the two share. *)
Lemma merged_under_62 :
  match cache_add merging_params clock_os (v4 10 0 0 3 443) None merging_world with
  | Ok ((e, _), w) => e_len e = 62 ∧ map e_len (pool_elems (w_mempool w)) = [62]
  | _ => False
  end.
Proof. by vm_compute. Qed.

Lemma cache_add_found_witness :
  swp (cache_add merging_params clock_os (v4 10 0 0 3 443) (Some (bs "example.org"))) merging_world
    (λ r w', cache_ok w' ∧ cached w' (v4 10 0 0 3 443) r.1 ∧ e_time r.1 = 100 ∧ w_dps w' = [plain_group (0, 0) 10] ∧
      p_items (w_pool w') = p_items (w_pool cache_world) ∧
      (Some (bs "example.org") = None ∨ e_extra r.1 ≠ None) ∧ (r.2 = Some (bs "example.org") ∨ r.2 = None)).
Proof.
  apply (cache_add_found merging_params clock_os (v4 10 0 0 3 443) (Some (bs "example.org")) merging_world).
  - exact one_address_fine.
  - repeat constructor; done.
  - done.
  - split; discriminate.
Defined.

Lemma eq_bitlen_counts_witness :
  wp (eq_bitlen [10; 200] [10; 196] 2) (λ r, 0 <= r < 16 ∧ shared_bits [10; 200] [10; 196] r).
Proof. apply (eq_bitlen_counts [10; 200] [10; 196] 2); try (by repeat constructor); done. Defined.
