(* ===== verification/CacheFile.v ===== *)
(** The file of the cache: the iterator of kavl.h, [dump_cache] and [load_cache] of mpool.c. *)
From Stdlib Require Import ZArith Lia Ascii String.
From stdpp Require Import base numbers list option sorting.
From S2P Require Import Prelude CMem PacketsTls Mpool Params Desync Conev Socks Extend Text Inet Cache.

#[local] Open Scope Z_scope.
#[local] Open Scope list_scope.

#[export] Instance elem_eq_dec : EqDecision elem.
Proof. solve_decision. Defined.

(** * The iterator *)

Section itr.
Context {A : Type}.

(** [struct kavl_itr]: the nodes on the stack, the top one first, each with its right child,
    and [right]. *)
Record itr := Itr { it_stack : list (A * tree A); it_right : tree A }.

(** The loop that goes down to the left; the stack has [KAVL_MAX_DEPTH] places. *)
Fixpoint push_left (p : tree A) (stack : list (A * tree A)) : comp (list (A * tree A)) :=
  match p with
  | Leaf => Ok stack
  | Node l e _ _ r =>
      if KAVL_MAX_DEPTH <=? Z.of_nat (length stack) then Fail OutOfBounds else push_left l ((e, r) :: stack)
  end.

(** [right = ( *top)->p[1]] *)
Definition itr_top (stack : list (A * tree A)) : comp itr :=
  match stack with [] => Fail OutOfBounds | (_, r) :: _ => Ok (Itr stack r) end.

Definition kavl_itr_first (root : tree A) : comp itr := s ← push_left root []; itr_top s.

(** [None] when there is no next element. *)
Definition kavl_itr_next (i : itr) : comp (option itr) :=
  match it_stack i with
  | [] => Fail OutOfBounds
  | _ :: stack =>
      s ← push_left (it_right i) stack;
      match s with [] => Ok None | _ => i ← itr_top s; Ok (Some i) end
  end.

Definition kavl_at (i : itr) : option A := match it_stack i with [] => None | (e, _) :: _ => Some e end.

(** The elements that are still to come. *)
Fixpoint behind (stack : list (A * tree A)) : list A :=
  match stack with [] => [] | (e, r) :: stack => e :: elements r ++ behind stack end.

(** The stack has room for the nodes below. *)
Fixpoint fits (stack : list (A * tree A)) : Prop :=
  match stack with
  | [] => True
  | (_, r) :: stack => Z.of_nat (length stack) + height r <= KAVL_MAX_DEPTH ∧ fits stack
  end.

Lemma push_left_ok p stack : fits stack → Z.of_nat (length stack) + height p <= KAVL_MAX_DEPTH →
  wp (push_left p stack) (λ s, fits s ∧ behind s = elements p ++ behind stack).
Proof.
  revert stack. induction p as [|l IHl e b sz r IHr]; intros stack Hf Hh; cbn [push_left]; [by apply wp_ok|].
  cbn [height] in Hh. pose proof (height_nonneg l). pose proof (height_nonneg r).
  destruct (Z.leb_spec KAVL_MAX_DEPTH (Z.of_nat (length stack))); [lia|]. eapply wp_mono; [apply IHl|].
  - split; [lia|done].
  - cbn [length]. lia.
  - cbv beta. intros s [Hs ->]. split; [done|]. cbn. by rewrite <- app_assoc.
Qed.

(** The iterator is at [x], with [l] behind it. *)
Definition at_elements (i : itr) (x : A) (l : list A) : Prop :=
  fits (it_stack i) ∧ ∃ e stack, it_stack i = (e, it_right i) :: stack ∧ behind (it_stack i) = x :: l.

Lemma itr_top_ok stack x l : fits stack → behind stack = x :: l → wp (itr_top stack) (λ i, at_elements i x l).
Proof.
  intros Hf Hb. destruct stack as [|[e r] stack]; [done|]. cbn [itr_top]. apply wp_ok. split; [done|]. by exists e, stack.
Qed.
Lemma kavl_itr_first_ok root x l : height root <= KAVL_MAX_DEPTH → elements root = x :: l →
  wp (kavl_itr_first root) (λ i, at_elements i x l).
Proof.
  intros Hh He. unfold kavl_itr_first. apply wp_bind. eapply wp_mono; [apply push_left_ok; [done|cbn [length]; lia]|]. cbv beta. intros s [Hf Hb].
  apply itr_top_ok; [done|]. rewrite Hb, He. apply app_nil_r.
Qed.
Lemma kavl_at_ok i x l : at_elements i x l → kavl_at i = Some x.
Proof. intros (_ & e & stack & E & Hb). unfold kavl_at. rewrite E in *. by injection Hb as ->. Qed.
Lemma kavl_itr_next_ok i x l : at_elements i x l →
  wp (kavl_itr_next i) (λ r, match l, r with
    | [], None => True | y :: l, Some i => at_elements i y l | _, _ => False end).
Proof.
  intros (Hf & e & stack & E & Hb). unfold kavl_itr_next. rewrite E in *. cbn in Hf, Hb. injection Hb as <- <-.
  destruct Hf as [Hh Hf]. apply wp_bind. eapply wp_mono; [by apply push_left_ok|]. cbv beta. intros s [Hs <-].
  destruct s as [|y s]; [by apply wp_ok|]. apply wp_bind.
  assert (∃ z l, behind (y :: s) = z :: l) as (z & l & Hl) by (destruct y; cbn; eauto).
  rewrite Hl. eapply wp_mono; [by apply itr_top_ok|]. cbv beta. intros j Hj. by apply wp_ok.
Qed.
End itr.
Arguments itr : clear implicits.

(** * Writing the cache *)

Section cache_file.
Context (inet_ntop : Z → bytes → bytes) (inet_pton : Z → bytes → option bytes).

Definition s64 (x : Z) : Z := (x + 2 ^ 63) mod 2 ^ 64 - 2 ^ 63.

(** [p->extra_len ? p->extra_len : 1] characters at most of [p->extra ? p->extra : "-"] *)
Definition extra_text (p : elem) : bytes :=
  take (Z.to_nat (if e_extra_len p =? 0 then 1 else e_extra_len p)) (match e_extra p with Some x => cstr x | None => bs "-" end).

(** One line, from a [struct cache_key] of 4 bytes in front of the address. *)
Definition dump_line (p : elem) : comp bytes :=
  f ← rds (e_data p) 0 2; port ← rds (e_data p) 2 2;
  let family := bat f 0 + 256 * bat f 1 in
  ip ← (if family =? AF_INET then rds (e_data p) 4 4 else rds (e_data p) 4 16);
  let addr := inet_ntop (if family =? AF_INET then AF_INET else AF_INET6) ip in
  Ok (bs "0 " ++ addr ++ bs " " ++ dec (e_len p - 4 * 8) ++ bs " " ++ dec (be16 port 0) ++ bs " " ++
      dec (e_time p) ++ bs " " ++ extra_text p ++ [10]).

Definition dump_body (dp : nat) (x : itr elem * bytes) : comp (itr elem * bytes + bytes) :=
  let '(i, out) := x in
  match kavl_at i with
  | None => Fail OutOfBounds
  | Some p =>
      out ← (if bool_decide (e_dp p = Some dp) then l ← dump_line p; Ok (out ++ l) else Ok out);
      n ← kavl_itr_next i;
      Ok (match n with Some i => inl (i, out) | None => inr out end)
  end.

(** What is written to the file. *)
Definition dump_cache (hdr : mphdr) (dp : nat) : comp bytes :=
  match mp_root hdr with
  | Leaf => Ok []
  | _ => i ← kavl_itr_first (mp_root hdr);
         loop (dump_body dp) (S (length (elements (mp_root hdr)))) (i, [])
  end.

(** * Reading it *)

(** [fscanf(in, "0 %39s %d %hu %jd %255s\n", ...)]: the values it stores and what is left of the
    file; [None] when it stores none. *)
Record line := Line { l_addr : bytes; l_bitlen : option Z; l_port : option Z; l_time : option Z; l_host : option bytes }.
Definition scan_line (s : bytes) : option line * bytes :=
  let '(ok, s) := scan_char (ch "0") s in
  if negb ok then (None, s) else
  let '(a, s) := scan_word 39 (scan_space s) in
  match a with
  | None => (None, s)
  | Some a =>
      let '(b, s) := scan_int s in
      match b with
      | None => (Some (Line a None None None None), s)
      | Some b =>
          let '(p, s) := scan_int s in
          match p with
          | None => (Some (Line a (Some b) None None None), s)
          | Some p =>
              let '(t, s) := scan_int s in
              match t with
              | None => (Some (Line a (Some b) (Some p) None None), s)
              | Some t =>
                  let '(h, s) := scan_word 255 s in
                  match h with
                  | None => (Some (Line a (Some b) (Some p) (Some t) None), s)
                  | Some h => (Some (Line a (Some b) (Some p) (Some t) (Some h)), scan_space s)
                  end
              end
          end
      end
  end.

(** A key is compared with the root first, and [memcmp] gets the shorter length. *)
Definition comparable (hdr : mphdr) (bitlen : Z) : bool :=
  match mp_root hdr with Leaf => true | Node _ e _ _ _ => (0 <=? bitlen) && (0 <=? e_len e) end.

(** The assignments to the element. *)
Definition fill_elem (dp : nat) (time : Z) (host : bytes) (e : elem) : elem :=
  Elem (e_len e) (e_data e) (e_cmp_type e) (if 1 <? blen host then Some host else e_extra e) (blen host)
    (e_dp_mask e) (Some dp) (e_detect e) time.

(** [junk] is what the variables hold that [fscanf] did not set: the bit length, the port, the
    time. *)
Definition load_body (dp : nat) (junk : nat → Z * Z * Z) (x : bytes * nat * mphdr) : comp (bytes * nat * mphdr + mphdr) :=
  let '(file, i, hdr) := x in
  let '(l, file) := scan_line file in
  match l with
  | None => Ok (inr hdr)
  | Some l =>
      let next hdr := Ok (inl (file, S i, hdr)) in
      let bitlen := s32 (default (junk i).1.1 (l_bitlen l)) + 4 * 8 in
      let port := u16 (default (junk i).1.2 (l_port l)) in
      let time := s64 (default (junk i).2 (l_time l)) in
      let host := cstr (default [] (l_host l)) in
      let key := match inet_pton AF_INET (cstr (l_addr l)) with
        | Some ip => Some (AF_INET, ip)
        | None => (λ ip, (AF_INET6, ip)) <$> inet_pton AF_INET6 (cstr (l_addr l))
        end in
      match key with
      | None => next hdr
      | Some (family, ip) =>
          let key := [family; 0] ++ enc16 port ++ ip in
          if blen key * 8 <? bitlen then next hdr else
          if negb (comparable hdr bitlen) then Fail OutOfBounds else
          '(e, _, hdr) ← mem_add hdr key bitlen;
          next (Mphdr (mp_flags hdr) (mp_cmp_type hdr) (mp_count hdr)
                  (tree_update (fill_elem dp time host) e (mp_root hdr)))
      end
  end.

Definition load_cache (hdr : mphdr) (file : bytes) (dp : nat) (junk : nat → Z * Z * Z) : comp mphdr :=
  loop (load_body dp junk) (S (length file)) (file, 0%nat, hdr).
End cache_file.

(** * A line *)

(** The text of a line. *)
Definition line_text (addr : bytes) (bitlen port time : Z) (host : bytes) : bytes :=
  bs "0 " ++ addr ++ bs " " ++ dec bitlen ++ bs " " ++ dec port ++ bs " " ++ dec time ++ bs " " ++ host ++ [10].

Lemma word_not_space c : word_char c = true → negb (isspace c) = true.
Proof. unfold word_char. by destruct (isspace c). Qed.
Lemma word_not_spaces x : forallb word_char x = true → forallb (λ c, negb (isspace c)) x = true.
Proof. rewrite !forallb_forall. intros H c Hc. by apply word_not_space, H. Qed.
Lemma word_cstr x : forallb word_char x = true → cstr x = x.
Proof.
  intros H. apply cstr_id. rewrite !forallb_forall in *. intros c Hc. specialize (H c Hc). unfold word_char in H.
  by apply andb_true_iff in H as [_ H].
Qed.

Lemma scan_word_line w x s : forallb word_char x = true → 1 <= blen x <= Z.of_nat w → isspace (here s) = true →
  scan_word w (x ++ s) = (Some x, s).
Proof.
  intros Hx Hl Hs. unfold blen in Hl. apply scan_word_app; [by intros ->; cbn in Hl; lia|by apply word_not_spaces|lia|by left].
Qed.
Lemma scan_word_space w s : scan_word w (bs " " ++ s) = scan_word w s.
Proof. done. Qed.
Lemma scan_int_space s : scan_int (bs " " ++ s) = scan_int s.
Proof. done. Qed.

Lemma scan_line_text addr b p t host rest :
  forallb word_char addr = true → 1 <= blen addr <= 39 → forallb word_char host = true → 1 <= blen host <= 255 →
  isspace (here rest) = false →
  scan_line (line_text addr b p t host ++ rest) = (Some (Line addr (Some b) (Some p) (Some t) (Some host)), rest).
Proof.
  intros Ha La Hh Lh Hr. unfold line_text, scan_line. rewrite <- !app_assoc.
  change (scan_char (ch "0") (bs "0 " ++ ?s)) with (true, bs " " ++ s). cbn [negb].
  assert (Hne : addr ≠ []) by (intros ->; rewrite blen_nil in La; lia).
  assert (Ea : ∀ s, scan_space (bs " " ++ addr ++ s) = addr ++ s).
  { intros s. apply scan_space_app; [done|]. rewrite here_app by done.
    by apply negb_true_iff, (forallb_here (λ c, negb (isspace c)) addr (word_not_spaces _ Ha)). }
  rewrite Ea, scan_word_line by (done || lia). rewrite scan_int_space, scan_int_dec by done.
  rewrite scan_int_space, scan_int_dec by done. rewrite scan_int_space, scan_int_dec by done.
  rewrite scan_word_space, scan_word_line by (done || lia).
  f_equal. apply (scan_space_app [10]); done.
Qed.

Section round.
Context (inet_ntop : Z → bytes → bytes) (inet_pton : Z → bytes → option bytes) `{!Inet inet_ntop inet_pton}.

(** A host that a line can carry. *)
Definition host_ok (h : bytes) : Prop := forallb word_char h = true ∧ 2 <= blen h <= 255.

(** An element that can be saved: an address with its port, a host that is a word, a time. *)
Record saved (e : elem) : Prop := {
  sv_key : ∃ f port ip, (f = AF_INET ∨ f = AF_INET6) ∧ e_data e = [f; 0] ++ port ++ ip ∧ blen port = 2 ∧ blen ip = ip_size f;
  sv_time : - 2 ^ 63 <= e_time e < 2 ^ 63;
  sv_len : 0 <= e_extra_len e;
  sv_host h : e_extra e = Some h → host_ok h ∧ e_extra_len e = blen h }.

(** What is read back: all but the mask and the flags of detection, and the number of the group
    that reads. *)
Definition reloaded (dp : nat) (e : elem) : elem :=
  Elem (e_len e) (e_data e) CMP_BITS (e_extra e) (match e_extra e with Some h => blen h | None => 1 end)
    0 (Some dp) 0 (e_time e).

Definition host_text (e : elem) : bytes := match e_extra e with Some h => h | None => bs "-" end.

Lemma extra_text_ok e : saved e → extra_text e = host_text e ∧ forallb word_char (host_text e) = true ∧ 1 <= blen (host_text e) <= 255.
Proof.
  intros [_ _ H0 Hh]. unfold extra_text, host_text. destruct (e_extra e) as [h|].
  - destruct (Hh h eq_refl) as [[Hw Hl] ->]. rewrite word_cstr by done. destruct (Z.eqb_spec (blen h) 0); [lia|].
    split_and!; [|done|lia|lia]. apply take_ge. unfold blen. lia.
  - split_and!; [|done|by vm_compute|by vm_compute]. apply take_ge. destruct (Z.eqb_spec (e_extra_len e) 0); [done|].
    change (length (bs "-")) with 1%nat. lia.
Qed.
Lemma bat_key f port ip k : blen port = 2 → 0 <= k < 2 → bat ([f; 0] ++ port ++ ip) (2 + k) = bat port k.
Proof.
  intros Hp Hk. rewrite bat_app by lia. change (blen [f; 0]) with 2. destruct (Z.ltb_spec (2 + k) 2); [lia|].
  rewrite bat_app by lia. destruct (Z.ltb_spec (2 + k - 2) (blen port)); [f_equal; lia|lia].
Qed.

Lemma ip_size_range f : 4 <= ip_size f <= 16.
Proof. unfold ip_size. destruct (f =? AF_INET); lia. Qed.

(** The line that is written for an element. *)
Definition line_for (e : elem) (f : Z) (port ip : bytes) : bytes :=
  line_text (inet_ntop f ip) (e_len e - 32) (be16 port 0) (e_time e) (host_text e).

Lemma dump_line_ok e f port ip : saved e → f = AF_INET ∨ f = AF_INET6 → e_data e = [f; 0] ++ port ++ ip →
  blen port = 2 → blen ip = ip_size f → dump_line inet_ntop e = Ok (line_for e f port ip).
Proof.
  intros He Hf Ed Hp Hi. unfold dump_line. rewrite Ed.
  assert (R1 : rds ([f; 0] ++ port ++ ip) 0 2 = Ok [f; 0]).
  { unfold rds. by rewrite in_range_true by (rewrite ?blen_app, ?Hp; change (blen [f; 0]) with 2; blia). }
  assert (R2 : rds ([f; 0] ++ port ++ ip) 2 2 = Ok port).
  { unfold rds. rewrite in_range_true by (rewrite ?blen_app, ?Hp; change (blen [f; 0]) with 2; blia). f_equal. by apply sub_at. }
  assert (R3 : rds ([f; 0] ++ port ++ ip) 4 (ip_size f) = Ok ip).
  { pose proof (ip_size_range f). unfold rds. rewrite in_range_true by (rewrite ?blen_app, ?Hp, ?Hi; change (blen [f; 0]) with 2; lia).
    f_equal. rewrite app_assoc. rewrite <- (app_nil_r (_ ++ ip)), <- (app_assoc _ ip). apply sub_at; [by rewrite blen_app, Hp|done]. }
  rewrite R1, R2, !bind_ok. change (bat [f; 0] 0 + 256 * bat [f; 0] 1) with (f + 0). rewrite Z.add_0_r.
  destruct (extra_text_ok e He) as [-> _]. unfold ip_size in R3.
  destruct Hf as [-> | ->]; cbn [Z.eqb Pos.eqb AF_INET AF_INET6] in R3 |- *; rewrite R3, bind_ok; done.
Qed.

(** ** One line is read *)

Context (dp : nat) (junk : nat → Z * Z * Z).

Lemma mem_add_last hdr str len : pool_ok bit_dom hdr → bit_dom (new_elem hdr str len) →
  Forall (λ x, scmp x (new_elem hdr str len) < 0) (pool_elems hdr) →
  ∃ hdr', mem_add hdr str len = Ok (new_elem hdr str len, true, hdr') ∧ pool_ok bit_dom hdr' ∧
    mp_cmp_type hdr' = mp_cmp_type hdr ∧ pool_elems hdr' = pool_elems hdr ++ [new_elem hdr str len].
Proof.
  intros Hp Hd Hlt. set (e := new_elem hdr str len) in *. rewrite Forall_forall in Hlt.
  assert (Hne : ∀ y, y ∈ pool_elems hdr → scmp e y ≠ 0).
  { intros y Hy E. specialize (Hlt y Hy). apply (keyed_sym scmp bit_dom bit_key) in Hlt; [lia|done|].
    by apply (pool_dom bit_dom hdr). }
  destruct (mem_add_ok bit_dom bit_key hdr str len Hp Hd) as
    [(v & _ & Hv & E & _)|(hdr' & a & b & E & Hp' & Ht & El & Eab & _)]; [by destruct (Hne v Hv)|].
  fold e in E, El, Eab. exists hdr'. split_and!; [done|done|done|].
  assert (Eab' : a ++ b = pool_elems hdr).
  { rewrite Eab. clear -Hne. induction (pool_elems hdr) as [|y l IH]; [done|]. cbn.
    rewrite (proj2 (Z.eqb_neq _ 0)) by (apply Hne; by left). cbn. f_equal. apply IH. intros z Hz. apply Hne. by right. }
  destruct b as [|y b]; [by rewrite El, <- Eab', app_nil_r|]. exfalso.
  destruct (po_order _ _ Hp') as [Hs Hdom]. rewrite El in Hs, Hdom.
  assert (Hy : scmp e y < 0).
  { apply StronglySorted_app_1_r in Hs. inversion Hs as [|? ? _ Hall]; subst. by inversion Hall. }
  assert (Hin : y ∈ pool_elems hdr) by (rewrite <- Eab'; apply elem_mid). specialize (Hlt y Hin).
  assert (Hdy : bit_dom y) by (by apply (pool_dom bit_dom hdr)).
  apply (keyed_sym scmp bit_dom bit_key) in Hlt; [lia|done|done].
Qed.
Lemma loaded_new v hdr f : pool_ok bit_dom hdr → mp_cmp_type hdr = CMP_BITS → (∀ x, shape (f x) = shape x) → v ∈ pool_elems hdr →
  let hdr' := Mphdr (mp_flags hdr) (mp_cmp_type hdr) (mp_count hdr) (tree_update f v (mp_root hdr)) in
  pool_ok bit_dom hdr' ∧ pool_elems hdr' = map (λ x, if bool_decide (x = v) then f x else x) (pool_elems hdr).
Proof.
  intros Hp Ht Hf Hv. split; [by apply (with_elem_ok f Hf v)|].
  change (pool_elems (with_elem f v hdr) = map (λ x, if bool_decide (x = v) then f x else x) (pool_elems hdr)).
  rewrite with_elem_elems. apply map_ext_in. intros x Hx. apply list_elem_of_In in Hx. case_bool_decide as E.
  - subst x. by apply at_elem_same.
  - unfold at_elem. destruct (Z.eqb_spec (e_len x) (e_len v)) as [El|]; [|done]. case_bool_decide as Ed; [|done]. cbn [andb].
    exfalso. apply E. pose proof (po_type _ _ Hp) as Hty. rewrite Forall_forall in Hty.
    apply (in_order_unique (pool_elems hdr)); [apply Hp|done|done|].
    assert (Hs : shape x = shape v) by (unfold shape; rewrite El, Ed, (Hty x), (Hty v) by done; done).
    rewrite (scmp_shape x v v v) by done. apply (keyed_refl scmp bit_dom bit_key). by apply (pool_dom bit_dom hdr).
Qed.

Lemma enc16_be16 p : bytes_wf p → blen p = 2 → enc16 (be16 p 0) = p.
Proof.
  intros Hw Hl. pose proof (be16_enc16 (be16 p 0)) as E. pose proof (enc16_wf (be16 p 0)) as Hw'.
  rewrite u16_small in E by (by apply be16_range). set (q := enc16 _) in *. assert (Hq : blen q = 2) by apply blen_enc16.
  apply bytes_ext; [lia|]. intros j Hj. pose proof (bat_byte p 0 Hw). pose proof (bat_byte p 1 Hw).
  pose proof (bat_byte q 0 Hw'). pose proof (bat_byte q 1 Hw'). unfold be16, is_byte in *. change (0 + 1) with 1 in E. clearbody q.
  assert (j = 0 ∨ j = 1) as [-> | ->] by lia; lia.
Qed.
Lemma s64_small x : - 2 ^ 63 <= x < 2 ^ 63 → s64 x = x.
Proof. intros. unfold s64. rewrite Z.mod_small; lia. Qed.
Lemma s32_small x : - 2 ^ 31 <= x < 2 ^ 31 → s32 x = x.
Proof. intros. unfold s32. rewrite Z.mod_small; lia. Qed.

(** The elements of [hdr] come before [e]; the line for [e] adds it behind them. *)
Lemma load_line hdr e f port ip i rest : saved e → bit_dom e → f = AF_INET ∨ f = AF_INET6 →
  e_data e = [f; 0] ++ port ++ ip → blen port = 2 → blen ip = ip_size f →
  pool_ok bit_dom hdr → mp_cmp_type hdr = CMP_BITS → Forall (λ x, scmp x e < 0) (pool_elems hdr) →
  isspace (here rest) = false →
  wp (load_body inet_pton dp junk (line_for e f port ip ++ rest, i, hdr)) (λ r, ∃ hdr', r = inl (rest, S i, hdr') ∧
    pool_ok bit_dom hdr' ∧ mp_cmp_type hdr' = CMP_BITS ∧ pool_elems hdr' = pool_elems hdr ++ [reloaded dp e]).
Proof.
  intros He Hd Hf Ed Hp Hi Hok Hty Hlt Hr. destruct (extra_text_ok e He) as (_ & Hh1 & Hh2). destruct Hd as (Hct & Hw & Hlen).
  assert (Hwp : bytes_wf port ∧ bytes_wf ip).
  { rewrite Ed in Hw. apply Forall_app in Hw as [_ Hw]. by apply Forall_app in Hw. }
  destruct Hwp as [Hwp Hwi]. destruct (ntop_word f ip Hf Hwi Hi) as [Hn1 Hn2].
  assert (Hbl : blen (e_data e) = 4 + ip_size f) by (rewrite Ed, !blen_app, Hp, Hi; change (blen [f; 0]) with 2; lia).
  pose proof (ip_size_range f).
  unfold load_body, line_for. rewrite scan_line_text by done. cbn [l_addr l_bitlen l_port l_time l_host from_option id].
  rewrite !word_cstr by done. rewrite s32_small by lia. rewrite s64_small by apply He.
  assert (Hkey : match inet_pton AF_INET (inet_ntop f ip) with
    | Some ip => Some (AF_INET, ip)
    | None => (λ ip, (AF_INET6, ip)) <$> inet_pton AF_INET6 (inet_ntop f ip) end = Some (f, ip)).
  { destruct Hf as [-> | ->].
    - by rewrite pton_ntop by (done || by left).
    - rewrite pton4_ntop6 by done. by rewrite pton_ntop by (done || by right). }
  rewrite Hkey. rewrite u16_small by (by apply be16_range).
  assert (Hport : enc16 (be16 port 0) = port).
  { by apply enc16_be16. }
  rewrite Hport, <- Ed. replace (e_len e - 32 + 4 * 8) with (e_len e) by lia.
  destruct (Z.ltb_spec (blen (e_data e) * 8) (e_len e)); [lia|].
  assert (Hcmp : comparable hdr (e_len e) = true).
  { unfold comparable. destruct (mp_root hdr) as [|l v b sz r] eqn:Er; [done|].
    assert (Hv : bit_dom v) by (apply (pool_dom bit_dom hdr v Hok); unfold pool_elems; rewrite Er; apply elem_mid).
    destruct Hv as (_ & _ & ?). lia. }
  rewrite Hcmp. cbn [negb]. set (e' := new_elem hdr (e_data e) (e_len e)).
  assert (Hs' : shape e' = shape e) by (unfold shape; cbn; by rewrite Hty, Hct).
  destruct (mem_add_last hdr (e_data e) (e_len e)) as (hdr1 & -> & Hok1 & Hty1 & El1); [done| | |].
  { apply (bit_dom_shape e' e Hs'). by split. }
  { eapply Forall_impl; [exact Hlt|]. cbv beta. intros x Hx. change (scmp x e' < 0). by rewrite (scmp_shape x x e' e). }
  rewrite bind_ok. fold e' in El1 |- *. apply wp_ok. set (g := fill_elem dp (e_time e) (host_text e)).
  destruct (loaded_new e' hdr1 g) as [Hok2 El2]; [done|congruence|done|rewrite El1; apply elem_mid|].
  eexists. split; [reflexivity|]. split_and!; [exact Hok2|cbn; congruence|]. rewrite El2, El1, map_app.
  f_equal.
  - rewrite <- (map_id (pool_elems hdr)) at 2. apply map_ext_in. intros x Hx. apply list_elem_of_In in Hx.
    rewrite bool_decide_eq_false_2; [done|]. intros ->. rewrite Forall_forall in Hlt. specialize (Hlt _ Hx).
    rewrite (scmp_shape e' e e e) in Hlt by done. rewrite (keyed_refl scmp bit_dom bit_key) in Hlt; [lia|by split].
  - cbn [map]. rewrite bool_decide_eq_true_2 by done. unfold g, fill_elem, reloaded, host_text, e', new_elem. cbn. rewrite Hty.
    destruct He as [_ _ _ Hh]. destruct (e_extra e) as [h|]; [|done]. destruct (Hh h eq_refl) as [[_ ?] _].
    by destruct (Z.ltb_spec 1 (blen h)); [|lia].
Qed.
(** ** The whole file *)

(** The lines for the elements of a list. *)
Inductive lines_of : list elem → bytes → Prop :=
  | no_lines : lines_of [] []
  | a_line e f port ip l file : saved e → bit_dom e → f = AF_INET ∨ f = AF_INET6 →
      e_data e = [f; 0] ++ port ++ ip → blen port = 2 → blen ip = ip_size f → lines_of l file →
      lines_of (e :: l) (line_for e f port ip ++ file).

Lemma lines_here l file : lines_of l file → isspace (here file) = false.
Proof. by destruct 1. Qed.
Lemma line_length e f port ip : (0 < length (line_for e f port ip))%nat.
Proof. unfold line_for, line_text. rewrite length_app. cbn. lia. Qed.

Lemma reloaded_shape d e : e_cmp_type e = CMP_BITS → shape (reloaded d e) = shape e.
Proof. unfold shape, reloaded. cbn. by intros ->. Qed.

Lemma load_lines l file : lines_of l file → ∀ hdr i fuel, (length file < fuel)%nat →
  pool_ok bit_dom hdr → mp_cmp_type hdr = CMP_BITS → StronglySorted (λ y z, scmp y z < 0) l →
  Forall (λ e, Forall (λ x, scmp x e < 0) (pool_elems hdr)) l →
  wp (loop (load_body inet_pton dp junk) fuel (file, i, hdr)) (λ hdr', pool_ok bit_dom hdr' ∧
    mp_cmp_type hdr' = CMP_BITS ∧ pool_elems hdr' = pool_elems hdr ++ map (reloaded dp) l).
Proof.
  induction 1 as [|e f port ip l file He Hd Hf Ed Hp Hi Hl IH]; intros hdr i fuel Hfuel Hok Hty Hs Hlt;
    (destruct fuel as [|fuel]; [lia|]); cbn [loop]; apply wp_bind.
  - apply wp_ok, wp_ok. by rewrite app_nil_r.
  - apply list.Forall_cons in Hlt as [Hlt1 Hlt]. apply StronglySorted_cons in Hs as [Hhd Hs].
    eapply wp_mono; [eapply load_line; eauto using lines_here|]. cbv beta. intros r (hdr' & -> & Hok' & Hty' & El).
    eapply wp_mono; [apply IH; [|done|done|done|]|].
    + rewrite length_app in Hfuel. pose proof (line_length e f port ip). lia.
    + rewrite El. apply Forall_forall. intros z Hz. rewrite Forall_forall in Hlt, Hhd. apply Forall_app_2; [by apply Hlt|].
      apply Forall_cons_2; [|apply Forall_nil_2]. rewrite (scmp_shape (reloaded dp e) e z z); [by apply Hhd| |done].
      apply reloaded_shape, Hd.
    + cbv beta. intros h (? & ? & E). split_and!; [done|done|]. by rewrite E, El, <- app_assoc.
Qed.

(** The elements of the group, as they are written. *)
Definition of_group (g : nat) (l : list elem) : list elem := filter (λ e, e_dp e = Some g) l.

Lemma dump_loop g l i x out fuel : at_elements i x l → (length l < fuel)%nat →
  Forall bit_dom (x :: l) → Forall saved (of_group g (x :: l)) →
  wp (loop (dump_body inet_ntop g) fuel (i, out)) (λ r, ∃ file, r = out ++ file ∧ lines_of (of_group g (x :: l)) file).
Proof.
  revert i x out fuel. induction l as [|y l IH]; intros i x out fuel Hi Hfuel Hd Hs;
    (destruct fuel as [|fuel]; [lia|]); cbn [loop]; apply wp_bind; unfold dump_body; rewrite (kavl_at_ok i x _ Hi);
    apply list.Forall_cons in Hd as [Hdx Hd].
  all: assert (Hline : wp (if bool_decide (e_dp x = Some g) then l ← dump_line inet_ntop x; Ok (out ++ l) else Ok out)
    (λ o, ∃ t, o = out ++ t ∧ ∀ r file, lines_of (of_group g r) file → lines_of (of_group g (x :: r)) (t ++ file))).
  1, 3: unfold of_group in *; case_bool_decide as E.
  1, 3: rewrite filter_cons_True in Hs by done; apply list.Forall_cons in Hs as [Hx _];
    pose proof (sv_key _ Hx) as (f & port & ip & Hf & Ed & Hp & Hl); rewrite (dump_line_ok x f port ip) by done; rewrite bind_ok;
    apply wp_ok; exists (line_for x f port ip); split; [done|]; intros r file Hr; rewrite filter_cons_True by done;
    by apply a_line.
  1, 2: apply wp_ok; exists []; rewrite app_nil_r; split; [done|]; intros r file Hr; by rewrite filter_cons_False by done.
  all: apply wp_bind; eapply wp_mono; [exact Hline|]; cbv beta; intros o (t & -> & Ht);
    apply wp_bind; eapply wp_mono; [exact (kavl_itr_next_ok i x _ Hi)|]; cbv beta.
  - intros [j|]; [done|]. intros _. apply wp_ok, wp_ok. exists (t ++ []). split; [by rewrite app_nil_r|]. apply Ht. constructor.
  - intros [j|]; [|done]. intros Hj. apply wp_ok. cbn [length] in Hfuel. eapply wp_mono; [apply (IH j y); [done|lia|done|]|].
    + unfold of_group in *. destruct (decide (e_dp x = Some g)).
      * rewrite (filter_cons_True _ _ (y :: l)) in Hs by done. by apply list.Forall_cons in Hs as [_ Hs].
      * by rewrite (filter_cons_False _ _ (y :: l)) in Hs by done.
    + cbv beta. intros r (file & -> & Hfile). exists (t ++ file). split; [by rewrite app_assoc|]. by apply Ht.
Qed.

Lemma sorted_filter (P : elem → Prop) `{∀ x, Decision (P x)} l :
  StronglySorted (λ y z, scmp y z < 0) l → StronglySorted (λ y z, scmp y z < 0) (filter P l).
Proof.
  induction 1 as [|x l Hs IH Hx]; [constructor|]. rewrite filter_cons. destruct (decide (P x)); [|done].
  apply StronglySorted_cons. split; [|done]. rewrite Forall_forall in Hx |- *. intros y Hy. apply Hx.
  by apply list_elem_of_filter in Hy as [_ Hy].
Qed.

Lemma dump_cache_ok hdr g : pool_ok bit_dom hdr → tsize (mp_root hdr) < 2 ^ 31 - 1 →
  Forall saved (of_group g (pool_elems hdr)) →
  wp (dump_cache inet_ntop hdr g) (λ file, lines_of (of_group g (pool_elems hdr)) file).
Proof.
  intros Hp Hsz Hs. unfold dump_cache, pool_elems in *. pose proof (po_order _ _ Hp) as [_ Hd]. unfold pool_elems in Hd.
  assert (Hh : height (mp_root hdr) <= KAVL_MAX_DEPTH).
  { pose proof (avl_height_size _ (po_avl _ _ Hp)) as H. unfold KAVL_MAX_DEPTH.
    assert (height (mp_root hdr) / 2 < 31) by (apply (Z.pow_lt_mono_r_iff 2); lia).
    pose proof (Z.div_mod (height (mp_root hdr)) 2). pose proof (Z.mod_pos_bound (height (mp_root hdr)) 2). lia. }
  destruct (elements (mp_root hdr)) as [|x l] eqn:El.
  - destruct (mp_root hdr); [apply wp_ok; constructor|]. by destruct (app_cons_not_nil _ _ _ (eq_sym El)).
  - destruct (mp_root hdr) as [|a v b sz c] eqn:Er; [done|]. rewrite <- Er in *. apply wp_bind.
    eapply wp_mono; [by apply (kavl_itr_first_ok _ x l)|]. cbv beta. intros i Hi.
    eapply wp_mono; [apply (dump_loop g l i x); [done| |done|done]|].
    + cbn. lia.
    + cbv beta. by intros r (file & -> & Hf).
Qed.
End round.

(** * The property *)

(** * Any file *)

(** What is left after reading is an end of what was there. *)
Definition end_of (s t : bytes) : Prop := ∃ k, (k ≤ length s)%nat ∧ t = drop k s.
Lemma end_of_refl s : end_of s s.
Proof. exists 0%nat. split; [lia|done]. Qed.
Lemma end_of_trans s t r : end_of s t → end_of t r → end_of s r.
Proof.
  intros (k & Hk & ->) (j & Hj & ->). rewrite length_drop in Hj. exists (k + j)%nat. split; [lia|]. apply drop_drop.
Qed.
Lemma end_of_cons c s t : end_of s t → end_of (c :: s) t.
Proof. intros (k & Hk & ->). exists (S k). cbn. split; [lia|done]. Qed.
Lemma end_of_tail s : end_of s (tail s).
Proof. destruct s as [|c s]; [apply end_of_refl|]. apply end_of_cons, end_of_refl. Qed.
Lemma end_of_drop_while f s : end_of s (drop_while f s).
Proof.
  induction s as [|c s IH]; cbn; [apply end_of_refl|]. destruct (f c); [by apply end_of_cons|apply end_of_refl].
Qed.
Lemma end_of_number base s acc : end_of s (number base s acc).2.
Proof.
  revert acc. induction s as [|c s IH]; intros acc; cbn; [apply end_of_refl|].
  destruct (digit base c); [by apply end_of_cons|apply end_of_refl].
Qed.
Lemma end_of_scan_int s : end_of s (scan_int s).2.
Proof.
  unfold scan_int. apply (end_of_trans s (scan_space s)); [apply end_of_drop_while|]. generalize (scan_space s) as r. clear s. intros s.
  assert (H : end_of s (sign_of s).2) by (unfold sign_of; destruct (_ =? _); [|destruct (_ =? _)]; cbn; auto using end_of_tail, end_of_refl).
  destruct (sign_of s) as [neg t]. cbn in H. destruct (is_digit 10 (here t)); [|done].
  pose proof (end_of_number 10 t 0) as Hn. destruct (number 10 t 0) as [v e]. by apply (end_of_trans s t).
Qed.
Lemma end_of_scan_word w s : end_of s (scan_word w s).2.
Proof.
  unfold scan_word. apply (end_of_trans s (scan_space s)); [apply end_of_drop_while|]. case_bool_decide; [apply end_of_refl|].
  cbn [snd]. eexists. split; [|reflexivity]. rewrite length_take.
  assert (Hl : ∀ f t, (length (take_while f t) ≤ length t)%nat) by (clear; induction t as [|c t IH]; cbn; [|destruct (f c); cbn]; lia).
  specialize (Hl (λ c, negb (isspace c)) (scan_space s)). lia.
Qed.

Lemma scan_line_end s l t : scan_line s = (Some l, t) → end_of (tail s) t ∧ s ≠ [].
Proof.
  unfold scan_line. destruct s as [|c s]; cbn [scan_char]; [done|]. destruct (c =? ch "0"); [|done]. cbn [negb tail].
  pose proof (end_of_trans s _ _ (end_of_drop_while isspace s) (end_of_scan_word 39 (scan_space s))) as H1.
  destruct (scan_word 39 (scan_space s)) as [[a|] s1]; [|done]. cbn in H1.
  pose proof (end_of_trans _ _ _ H1 (end_of_scan_int s1)) as H2. destruct (scan_int s1) as [[b|] s2]; [|by intros [= <- <-]].
  pose proof (end_of_trans _ _ _ H2 (end_of_scan_int s2)) as H3. destruct (scan_int s2) as [[p|] s3]; [|by intros [= <- <-]].
  pose proof (end_of_trans _ _ _ H3 (end_of_scan_int s3)) as H4. destruct (scan_int s3) as [[m|] s4]; [|by intros [= <- <-]].
  pose proof (end_of_trans _ _ _ H4 (end_of_scan_word 255 s4)) as H5. destruct (scan_word 255 s4) as [[h|] s5]; [|by intros [= <- <-]].
  intros [= <- <-]. split; [|done]. exact (end_of_trans _ _ _ H5 (end_of_drop_while isspace s5)).
Qed.

(** Wherever a line begins in the file, it has a bit length, and one that is not below -32. *)
Fixpoint lengths_ok (file : bytes) : bool :=
  match (scan_line file).1 with
  | Some l => match l_bitlen l with Some b => -32 <=? s32 b | None => false end
  | None => true
  end && match file with [] => true | _ :: file => lengths_ok file end.
Lemma lengths_ok_end file t : end_of file t → lengths_ok file = true → lengths_ok t = true.
Proof.
  intros (k & _ & ->). revert k. induction file as [|c file IH]; intros k; [by rewrite drop_nil|].
  destruct k as [|k]; [done|]. intros H. cbn [lengths_ok] in H. apply andb_true_iff in H as [_ H]. cbn [drop]. by apply IH.
Qed.

Lemma load_cache_total inet_pton hdr file dp junk :
  (∀ f s a, f = AF_INET ∨ f = AF_INET6 → inet_pton f s = Some a → bytes_wf a ∧ blen a = ip_size f) →
  pool_ok bit_dom hdr → mp_cmp_type hdr = CMP_BITS → lengths_ok file = true →
  wp (load_cache inet_pton hdr file dp junk) (λ hdr', pool_ok bit_dom hdr' ∧ mp_cmp_type hdr' = CMP_BITS).
Proof.
  intros Hpton Hok Hty Hf. unfold load_cache.
  apply (wp_loop _ (λ '(f, i, h), lengths_ok f = true ∧ pool_ok bit_dom h ∧ mp_cmp_type h = CMP_BITS) (λ '(f, _, _), length f));
    [|done|lia].
  clear hdr file Hok Hty Hf. intros [[file i] hdr] (Hf & Hok & Hty). unfold load_body.
  destruct (scan_line file) as [[l|] rest] eqn:El; [|by apply wp_ok].
  destruct (scan_line_end _ _ _ El) as [He Hne]. destruct file as [|c file]; [done|]. cbn [tail] in He.
  assert (Hrest : lengths_ok rest = true ∧ (length rest < length (c :: file))%nat).
  { split; [apply (lengths_ok_end (c :: file)); [by apply end_of_cons|done]|]. destruct He as (k & _ & ->). rewrite length_drop. cbn. lia. }
  destruct Hrest as [Hr Hlen]. cbn [lengths_ok] in Hf. rewrite El in Hf. cbn [fst] in Hf. apply andb_true_iff in Hf as [Hb _].
  destruct (l_bitlen l) as [b|]; [|done]. cbn [default from_option]. cbv zeta. unfold id.
  match goal with |- wp (match ?k with Some _ => _ | None => _ end) _ =>
    assert (Hkey : ∀ f a, k = Some (f, a) → bytes_wf (f :: 0 :: enc16 (u16 (default (junk i).1.2 (l_port l))) ++ a)) end.
  { intros f a. assert (Hw : is_byte f → bytes_wf a → bytes_wf (f :: 0 :: enc16 (u16 (default (junk i).1.2 (l_port l))) ++ a)).
    { intros H1 H2. constructor; [done|]. constructor; [by vm_compute|]. apply wf_app. split; [apply enc16_wf|done]. }
    destruct (inet_pton AF_INET _) as [a4|] eqn:E4; [|destruct (inet_pton AF_INET6 _) as [a6|] eqn:E6; [|done]];
      intros [= <- <-]; apply Hw; try (by vm_compute).
    - by apply (Hpton _ _ _ (or_introl eq_refl)) in E4 as [? _].
    - by apply (Hpton _ _ _ (or_intror eq_refl)) in E6 as [? _]. }
  match goal with |- wp (match ?k with Some _ => _ | None => _ end) _ => destruct k as [[f a]|] end; [|by apply wp_ok].
  specialize (Hkey f a eq_refl). set (key := [f; 0] ++ _). fold key in Hkey. set (n := s32 b + 4 * 8).
  destruct (Z.ltb_spec (blen key * 8) n); [by apply wp_ok|].
  assert (comparable hdr n = true) as ->.
  { unfold comparable. destruct (mp_root hdr) as [|tl v bb sz tr] eqn:Er; [done|].
    assert (Hv : bit_dom v) by (apply (pool_dom bit_dom hdr v Hok); unfold pool_elems; rewrite Er; apply elem_mid).
    destruct Hv as (_ & _ & ?). lia. }
  cbn [negb]. assert (Hd : bit_dom (new_elem hdr key n)) by (split_and!; [done|done|cbn [e_len e_data new_elem]; unfold n in *; lia..]).
  destruct (mem_add_stands bit_dom bit_key hdr key n (pool_elems hdr) Hok Hd) as (v & new & hdr1 & -> & Hok1 & Hty1 & _).
  { intros x. by split. }
  rewrite bind_ok. apply wp_ok. split; [|done]. split; [done|]. split; [|cbn; congruence].
  refine (with_elem_ok (fill_elem dp _ _) _ v hdr1 Hok1). intros x. reflexivity.
Qed.

(** What was written for a group is read back. *)
Lemma load_dumped inet_ntop inet_pton hdr g dp junk file :
  Inet inet_ntop inet_pton → pool_ok bit_dom hdr → lines_of inet_ntop (of_group g (pool_elems hdr)) file →
  wp (load_cache inet_pton (mem_pool MF_EXTRA CMP_BITS) file dp junk)
    (λ hdr', pool_ok bit_dom hdr' ∧ pool_elems hdr' = map (reloaded dp) (of_group g (pool_elems hdr))).
Proof.
  intros Hi Hp Hf. eapply wp_mono; [apply (load_lines inet_ntop inet_pton dp junk _ _ Hf)|].
  - lia.
  - apply (pool_ok_empty bit_dom).
  - done.
  - apply sorted_filter, Hp.
  - apply Forall_forall. intros e _. apply Forall_nil_2.
  - cbv beta. by intros h (? & _ & ->).
Qed.

(** C15: a saved cache is the cache that is loaded: what [dump_cache] writes for a group,
    [load_cache] reads into an empty pool as the elements of that group in the same order, each with
    its address, the length of its mask, its port, its time and its host.  The mask of the groups
    that failed and what was detected are not saved ([reloaded]).  The elements have to be such that a
    line can hold them ([saved]): keys of an address with its port, and hosts of 2 to 255
    characters without spaces (a space ends the reading, [load_cache_loses_behind_space]). *)
Theorem cache_file_roundtrip inet_ntop inet_pton hdr g dp junk :
  Inet inet_ntop inet_pton → pool_ok bit_dom hdr → tsize (mp_root hdr) < 2 ^ 31 - 1 →
  Forall saved (of_group g (pool_elems hdr)) →
  wp (file ← dump_cache inet_ntop hdr g; load_cache inet_pton (mem_pool MF_EXTRA CMP_BITS) file dp junk)
    (λ hdr', pool_ok bit_dom hdr' ∧ pool_elems hdr' = map (reloaded dp) (of_group g (pool_elems hdr))).
Proof.
  intros Hi Hp Hsz Hs. apply wp_bind. eapply wp_mono; [by apply dump_cache_ok|]. cbv beta. intros file Hf. by apply (load_dumped inet_ntop).
Qed.

(** A cache of two groups; the second element is a whole network. *)
Definition sample_cache : mphdr :=
  let e f ip len extra n g := Elem len ([f; 0; 1; 187] ++ ip) CMP_BITS extra n 1 (Some g) 0 1700000000 in
  Mphdr MF_EXTRA CMP_BITS 3
    (Node (Node Leaf (e AF_INET [10; 0; 0; 1] 64 (Some (bs "w3.org")) 6 0%nat) 0 1 Leaf)
       (e AF_INET [192; 168; 0; 0] 48 None 0 1%nat) 0 3
       (Node Leaf (e AF_INET6 (repeat 1 16) 160 None 0 0%nat) 0 1 Leaf)).

Lemma sample_cache_ok : pool_ok bit_dom sample_cache.
Proof.
  split.
  - vm_compute. intuition congruence.
  - split; [repeat (apply StronglySorted_cons; split; [repeat (apply Forall_cons_2; [vm_compute; reflexivity|]); apply Forall_nil_2|]);
      constructor|].
    repeat (apply Forall_cons_2; [split_and!; [reflexivity| |discriminate|discriminate]|]); [..|apply Forall_nil_2];
      apply (bool_decide_unpack (bytes_wf _)); vm_compute; exact I.
  - reflexivity.
  - repeat (apply Forall_cons_2; [reflexivity|]). apply Forall_nil_2.
Qed.

Lemma cache_file_roundtrip_witness :
  wp (file ← dump_cache plain_ntop sample_cache 0; load_cache plain_pton (mem_pool MF_EXTRA CMP_BITS) file 2 (λ _, (0, 0, 0)))
    (λ hdr', pool_ok bit_dom hdr' ∧
      pool_elems hdr' = map (reloaded 2) (of_group 0 (pool_elems sample_cache))).
Proof.
  apply (cache_file_roundtrip plain_ntop plain_pton sample_cache 0 2 (λ _, (0, 0, 0)) plain_inet sample_cache_ok).
  - reflexivity.
  - apply Forall_cons_2; [|apply Forall_cons_2; [|apply Forall_nil_2]]; split.
    + exists AF_INET, [1; 187], [10; 0; 0; 1]. split_and!; [by left|done..].
    + vm_compute. split; congruence.
    + vm_compute. congruence.
    + intros h [= <-]. vm_compute. repeat split; discriminate.
    + exists AF_INET6, [1; 187], (repeat 1 16). split_and!; [by right|done..].
    + vm_compute. split; congruence.
    + vm_compute. congruence.
    + done.
Defined.

(** A host with a space in it ends the reading of the file: what is behind is lost. *)
Definition spaced_cache : mphdr :=
  let e ip h := Elem 64 ([AF_INET; 0; 1; 187] ++ ip) CMP_BITS (Some h) (blen h) 0 (Some 0%nat) 0 0 in
  Mphdr MF_EXTRA CMP_BITS 2
    (Node Leaf (e [10; 0; 0; 1] (bs "a b.org")) 1 2 (Node Leaf (e [10; 0; 0; 2] (bs "w3.org")) 0 1 Leaf)).
Lemma load_cache_loses_behind_space :
  (file ← dump_cache plain_ntop spaced_cache 0;
   hdr ← load_cache plain_pton (mem_pool MF_EXTRA CMP_BITS) file 0 (λ _, (0, 0, 0)); Ok (length (pool_elems hdr))) = Ok 1%nat.
Proof. vm_compute. reflexivity. Qed.

(** A mask of less than -32 bits makes [memcmp] read a negative length. *)
Lemma load_cache_overruns :
  load_cache plain_pton (mem_pool MF_EXTRA CMP_BITS) (bs "0 1.2.3.4 32 80 0 - 0 1.2.3.4 -40 80 0 -") 0 (λ _, (0, 0, 0)) =
    Fail OutOfBounds.
Proof. vm_compute. reflexivity. Qed.
