(* ===== verification/OptText.v ===== *)
(** byedpi main.c: the values of options: data with escapes, files, lists of hosts and of
    addresses, socket addresses and positions. *)
From Stdlib Require Import ZArith Lia Ascii String.
From stdpp Require Import base numbers list option sorting.
From S2P Require Import Prelude CMem Text Mpool HostPool Params Inet Extend.

#[local] Open Scope Z_scope.
#[local] Open Scope list_scope.

(** * Data *)

(** [esca] *)
Definition esca : list (Z * Z) :=
  [(ch "r", 13); (ch "n", 10); (ch "t", 9); (ch "\", 92); (ch "f", 12); (ch "b", 8); (ch "v", 11); (ch "a", 7)].
Definition escape (c : Z) : option Z := snd <$> find (λ x, x.1 =? c) esca.

(** A number of at most [w] characters in base [base], and what is behind it. *)
Definition scan_radix (base : Z) (w : nat) (s : bytes) : option (Z * bytes) :=
  let s := scan_space s in
  let '(neg, t) := sign_of (take w s) in
  let t := if (base =? 16) && (here t =? ch "0") && (tolower (here (tail t)) =? ch "x") then drop 2 t else t in
  if is_digit base (here t) then
    let '(v, e) := number base t 0 in Some (signed neg v, drop (length (take w s) - length e) s)
  else None.

(** [sscanf(&str[p], "x%2hhx%n", ...)] and [sscanf(&str[p], "%3hho%n", ...)]: the byte, and the
    number of characters. *)
Definition scan_byte (s : bytes) : option (Z * Z) :=
  let res x := match x with Some (v, e) => Some (u8 v, blen s - blen e) | None => None end in
  match (if here s =? ch "x" then scan_radix 16 2 (tail s) else None) with
  | Some x => res (Some x)
  | None => res (scan_radix 8 3 s)
  end.

(** A character of a string, the zero at its end included. *)
Definition char_at (s : bytes) (i : Z) : comp Z :=
  if (0 <=? i) && (i <=? blen s) then Ok (bat s i) else Fail OutOfBounds.

(** One round of [parse_cform]: the variables [i], [p] and the buffer. *)
Definition cform_body (buflen : Z) (str : bytes) (slen : Z) (x : Z * Z * bytes) : comp (Z * Z * bytes + Z * bytes) :=
  let '(i, p, buffer) := x in
  if (p <? slen) && (i <? buflen) then
    c ← char_at str p;
    if negb (c =? ch "\") then buffer ← wr buffer i c; Ok (inl (i + 1, p + 1, buffer)) else
    e ← char_at str (p + 1);
    match escape e with
    | Some v => buffer ← wr buffer i v; Ok (inl (i + 1, p + 2, buffer))
    | None =>
        match scan_byte (drop (Z.to_nat (p + 1)) str) with
        | Some (v, n) => buffer ← wr buffer i v; Ok (inl (i + 1, p + 1 + n, buffer))
        | None => Ok (inl (i, p + 1, buffer))
        end
    end
  else Ok (inr (i, buffer)).
Definition parse_cform (buffer : bytes) (buflen : Z) (str : bytes) (slen : Z) : comp (Z * bytes) :=
  loop (cform_body buflen str slen) (S (Z.to_nat slen)) (0, 0, buffer).

Definition data_from_str (junk : Z → bytes) (str : bytes) : comp (option bytes) :=
  let len := blen str in
  if len =? 0 then Ok None else
  '(i, d) ← parse_cform (junk len) len str len;
  if i =? 0 then Ok None else d ← rds d 0 i; Ok (Some d).

(** What the calls on an open file answer: whether [fseek] to the end fails, [ftell], whether
    [fseek] to the start fails, and the bytes [fread] gets. *)
Record file := File { f_seek_end : bool; f_tell : Z; f_seek_set : bool; f_read : bytes }.
Definition ftob (fopen : bytes → option file) (junk : Z → bytes) (str : bytes) : comp (option bytes) :=
  if here str =? ch ":" then data_from_str junk (tail str) else
  match fopen str with
  | None => Ok None
  | Some f =>
      if f_seek_end f then Ok None
      else if f_tell f <=? 0 then Ok None
      else if f_seek_set f then Ok None
      else if negb (blen (f_read f) =? f_tell f) then Ok None
      else Ok (Some (f_read f))
  end.

(** * Lists of hosts *)

(** The character in lower case, [None] for one that no host has. *)
Definition lower_char (cl : Z) : option Z :=
  let c := s8 cl in
  if c <? ch "A" then if (ch "9" <? c) || (c <? ch "-") then None else Some cl
  else if c <? ch "a" then if ch "Z" <? c then None else Some (u8 (c + 32))
  else if ch "z" <? c then None else Some cl.

Definition separator (c : Z) : bool := (c =? ch " ") || (c =? 10) || (c =? 13).

Record hosts_st := HostsSt { hs_e : Z; hs_s : Z; hs_drop : bool; hs_hdr : mphdr; hs_buffer : bytes }.
Definition hosts_body (size : Z) (x : hosts_st) : comp (hosts_st + mphdr) :=
  let '(HostsSt e s drop hdr buffer) := x in
  if e <=? size then
    c ← (if negb (e =? size) then c ← rd buffer e; Ok (if negb (separator c) then Some c else None) else Ok None);
    match c with
    | Some c =>
        match lower_char c with
        | None => Ok (inl (HostsSt (e + 1) s true hdr buffer))
        | Some c => buffer ← wr buffer e c; Ok (inl (HostsSt (e + 1) s drop hdr buffer))
        end
    | None =>
        if s =? e then Ok (inl (HostsSt (e + 1) (s + 1) drop hdr buffer)) else
        hdr ← (if negb drop then w ← rds buffer s (e - s); '(_, _, hdr) ← mem_add hdr w (e - s); Ok hdr else Ok hdr);
        Ok (inl (HostsSt (e + 1) (e + 1) false hdr buffer))
    end
  else Ok (inr hdr).
Definition parse_hosts (hdr : mphdr) (buffer : bytes) (size : Z) : comp mphdr :=
  loop (hosts_body size) (S (S (Z.to_nat size))) (HostsSt 0 0 false hdr buffer).

(** * Lists of addresses *)

Section inet.
Context (inet_pton : Z → bytes → option bytes).

(** The number of bits, 0 for a text that is no address, and the address.  [str] is the text
    without the zero behind it. *)
Definition parse_ip (str : bytes) : comp (Z * bytes) :=
  sep ← memchr (str ++ [0]) 0 (ch "/") (blen str + 1);
  let bits := match sep with Some i => (strtol 10 (cstr (drop (Z.to_nat (i + 1)) str))).1 | None => 0 end in
  if bool_decide (is_Some sep) && (bits <=? 0) then Ok (0, []) else
  let text := cstr (match sep with Some i => take (Z.to_nat i) str | None => str end) in
  let ip := match inet_pton AF_INET text with
    | Some a => Some (a, 4)
    | None => match inet_pton AF_INET6 text with Some a => Some (a, 16) | None => None end
    end in
  match ip with
  | None => Ok (0, [])
  | Some (a, len) => Ok (if (bits =? 0) || (len * 8 <? bits) then len * 8 else bits, a)
  end.

Definition ipset_body (buffer : bytes) (size : Z) (x : Z * Z * mphdr) : comp (Z * Z * mphdr + mphdr) :=
  let '(e, s, hdr) := x in
  if e <=? size then
    c ← (if negb (e =? size) then c ← rd buffer e; Ok (Some c) else Ok None);
    if match c with Some c => negb (separator c) | None => false end then Ok (inl (e + 1, s, hdr))
    else if s =? e then Ok (inl (e + 1, s + 1, hdr)) else
    ip ← rds buffer s (e - s);
    '(bits, ip_stack) ← parse_ip ip;
    if bits <=? 0 then Ok (inl (e + 1, e + 1, hdr)) else
    let len := bits / 8 + (if negb (bits mod 8 =? 0) then 1 else 0) in
    ip_raw ← rds ip_stack 0 len;
    '(_, _, hdr) ← mem_add hdr ip_raw bits;
    Ok (inl (e + 1, e + 1, hdr))
  else Ok (inr hdr).
Definition parse_ipset (hdr : mphdr) (buffer : bytes) (size : Z) : comp mphdr :=
  loop (ipset_body buffer size) (S (S (Z.to_nat size))) (0, 0, hdr).
End inet.

(** * Socket addresses *)

Section addr.
(** [getaddrinfo] of a numeric host: its family and its address. *)
Context (getaddrinfo : bytes → option (Z * bytes)).

(** The port behind the colon at [p]: [None] when it is none. *)
Definition port_of (p : option bytes) : option (option Z) :=
  match p with
  | Some p =>
      if isdigit (here (tail p)) then
        let '(val, e) := strtol 0 (tail p) in
        if (val <=? 0) || (65535 <? val) || negb (here e =? 0) then None else Some (Some val)
      else Some None
  | None => Some None
  end.

(** The address, [None] for -1. *)
Definition get_addr (str : bytes) (addr : bytes) : option bytes :=
  br ← (if here str =? ch "[" then e ← strchr str (ch "]"); Some (Some e) else Some None);
  let s := match br with Some _ => tail str | None => str end in
  let p := strchr (match br with Some e => tail e | None => str end) (ch ":") in
  port ← port_of p;
  let e := match br, port, p with Some e, _, _ => e | None, Some _, Some p => p | _, _, _ => [] end in
  let host := take (length s - length e) s in
  addr ← (if bool_decide (host = []) then Some addr else
    '(family, ip) ← getaddrinfo host;
    Some (set_family (if family =? AF_INET6 then set_sin6_addr addr ip else set_sin_addr addr ip) family));
  Some (match port with Some v => set_port addr (enc16 v) | None => addr end).

Definition schemes : list (bytes * Z) :=
  [(bs "socks4://", MODE_SOCKS4); (bs "socks5://", MODE_SOCKS5); (bs "socks://", Z.lor MODE_SOCKS4 MODE_SOCKS5);
   (bs "ss://", MODE_SHADOWSOCKS); (bs "http://", MODE_HTTP); (bs "sni://", MODE_RAWTLS); (bs "tcp://", MODE_TCP)].
Definition get_addr_scheme (str : bytes) (addr : bytes) : option (Z * bytes) :=
  let '(mode, str) := match find (λ x, bool_decide (take (length x.1) str = x.1)) schemes with
    | Some (s, mode) => (mode, drop (length s) str)
    | None => (0, str)
    end in
  addr ← get_addr str addr; Some (mode, addr).
End addr.

(** * Positions *)

(** The loop over the numbers behind colons; [INT_MAX] is that of [long]. *)
Definition set_r (r : Z) (p : part) : part := Part (p_m p) (p_flag p) (p_pos p) r (p_s p).
Definition set_s (s : Z) (p : part) : part := Part (p_m p) (p_flag p) (p_pos p) (p_r p) s.
Definition set_flag (f : Z) (p : part) : part := Part (p_m p) f (p_pos p) (p_r p) (p_s p).
Definition set_pos (v : Z) (p : part) : part := Part (p_m p) (p_flag p) v (p_r p) (p_s p).
Fixpoint offset_counts (fuel : nat) (p : part) (e : bytes) : option (part * bytes) :=
  match fuel with
  | O => Some (p, e)
  | S fuel =>
      if here e =? ch ":" then
        let '(rs, e) := strtol 0 (tail e) in
        if rs <? 0 then None
        else if p_r p =? 0 then if rs =? 0 then None else offset_counts fuel (set_r rs p) e
        else Some (set_s rs p, e)
      else Some (p, e)
  end.

(** The part, [None] for -1.  A repetition count is set in the first round at the latest, so
    that there are two rounds at most. *)
Definition parse_offset (p : part) (str : bytes) : option part :=
  let '(val, e) := strtol 0 str in
  '(p, e) ← offset_counts 2 p e;
  p ← (if here e =? ch "+" then
      let c := here (tail e) in let d := here (tail (tail e)) in
      p ← (if c =? ch "s" then Some (set_flag OFFSET_SNI p)
           else if c =? ch "h" then Some (set_flag OFFSET_HOST p)
           else if c =? ch "n" then Some p else None);
      let add f := set_flag (Z.lor (p_flag p) f) p in
      Some (if d =? ch "e" then add OFFSET_END else if d =? ch "m" then add OFFSET_MID
            else if d =? ch "r" then add OFFSET_RAND else if d =? ch "s" then add OFFSET_START else p)
    else if here e =? 0 then Some p else None);
  Some (set_pos val p).

(** * Data with escapes *)

(** The spellings of a byte: itself, the letter of an escape, two digits in base 16 or three in
    base 8. *)
Inductive spelt : bytes → Z → Prop :=
  | spelt_char c : is_byte c → c ≠ 0 → c ≠ ch "\" → spelt [c] c
  | spelt_letter e v : escape e = Some v → spelt [ch "\"; e] v
  | spelt_hex a b x y : digit 16 a = Some x → digit 16 b = Some y → spelt [ch "\"; ch "x"; a; b] (x * 16 + y)
  | spelt_oct a b c x y z : digit 8 a = Some x → digit 8 b = Some y → digit 8 c = Some z →
      spelt [ch "\"; a; b; c] (u8 ((x * 8 + y) * 8 + z)).

Lemma digit_range base c v : digit base c = Some v → base <= 16 →
  48 <= c <= 57 ∨ 65 <= c <= 70 ∨ 97 <= c <= 102.
Proof.
  unfold digit, isdigit. change (ch "0") with 48. change (ch "a") with 97. change (ch "z") with 122.
  change (ch "A") with 65. change (ch "Z") with 90.
  destruct ((48 <=? c) && (c <=? 57)) eqn:E1; [lia|].
  destruct ((97 <=? c) && (c <=? 122)) eqn:E2; [|destruct ((65 <=? c) && (c <=? 90)) eqn:E3];
    match goal with |- context [?a <? base] => destruct (Z.ltb_spec a base) end; intros; lia || done.
Qed.
Lemma digit_value base c v : digit base c = Some v → 0 <= v < base.
Proof.
  unfold digit, isdigit. change (ch "0") with 48. change (ch "a") with 97. change (ch "z") with 122.
  change (ch "A") with 65. change (ch "Z") with 90.
  destruct ((48 <=? c) && (c <=? 57)) eqn:E1; [|destruct ((97 <=? c) && (c <=? 122)) eqn:E2;
    [|destruct ((65 <=? c) && (c <=? 90)) eqn:E3]];
    match goal with |- context [?a <? base] => destruct (Z.ltb_spec a base) end; intros [= <-]; lia.
Qed.
Lemma escape_oct c v : digit 8 c = Some v → escape c = None.
Proof.
  unfold digit, isdigit. change (ch "0") with 48. change (ch "a") with 97. change (ch "z") with 122.
  change (ch "A") with 65. change (ch "Z") with 90. intros H. assert (Hc : 48 <= c <= 55).
  { destruct ((48 <=? c) && (c <=? 57)) eqn:E1; [|destruct ((97 <=? c) && (c <=? 122)) eqn:E2;
      [|destruct ((65 <=? c) && (c <=? 90)) eqn:E3]];
      match type of H with context [?a <? ?base] => destruct (Z.ltb_spec a base) end; lia || done. }
  assert (c = 48 ∨ c = 49 ∨ c = 50 ∨ c = 51 ∨ c = 52 ∨ c = 53 ∨ c = 54 ∨ c = 55) as Hd by lia.
  by destruct Hd as [->|[->|[->|[->|[->|[->|[->| ->]]]]]]].
Qed.
Lemma scan_digits base w l s : base <= 16 → Forall (λ c, is_Some (digit base c)) l → l ≠ [] → w = length l →
  scan_radix base w (l ++ s) = Some ((number base l 0).1, s) ∨ here l = ch "0" ∧ tolower (here (tail l)) = ch "x".
Proof.
  intros Hb Hl Hne ->. destruct l as [|c l]; [done|]. clear Hne.
  pose proof (Forall_inv Hl) as [v Hv]. pose proof (digit_range _ _ _ Hv Hb) as Hc.
  unfold scan_radix, scan_space. cbn [app]. rewrite drop_while_none by (unfold isspace; cbn [here]; lia).
  change (c :: l ++ s) with ((c :: l) ++ s). rewrite take_app_length. unfold sign_of. cbn [here tail].
  change (ch "-") with 45. change (ch "+") with 43. change (ch "0") with 48. change (ch "x") with 120.
  destruct (Z.eqb_spec c 45); [lia|]. destruct (Z.eqb_spec c 43); [lia|]. cbn [here tail].
  destruct (Z.eqb_spec c 48), (Z.eqb_spec (tolower (here l)) 120); [by right|left..].
  all: rewrite ?andb_false_r; cbn [andb]; unfold is_digit; cbn [here]; rewrite Hv, bool_decide_eq_true_2 by done.
  all: assert (Hn : ∀ l acc, Forall (λ c, is_Some (digit base c)) l → (number base l acc).2 = [])
    by (clear; induction l as [|x l IH]; intros acc Hl; cbn; [done|]; apply list.Forall_cons in Hl as [[v Hv] Hl];
        rewrite Hv; by apply IH).
  all: specialize (Hn (c :: l) 0 Hl); destruct (number base (c :: l) 0) as [num rest]; cbn in Hn; subst rest.
  all: cbn [fst length]; rewrite Nat.sub_0_r; unfold signed; do 2 f_equal; exact (drop_app_length (c :: l) s).
Qed.
Lemma scan_hex2 a b x y s : digit 16 a = Some x → digit 16 b = Some y →
  scan_radix 16 2 (a :: b :: s) = Some (x * 16 + y, s).
Proof.
  intros Ha Hb. destruct (scan_digits 16 2 [a; b] s) as [E|[_ E]]; [lia|by repeat constructor|done|done| |].
  - change (a :: b :: s) with ([a; b] ++ s). rewrite E. cbn [number]. by rewrite Ha, Hb.
  - pose proof (digit_range _ _ _ Hb). cbn in E. unfold tolower in E. change (ch "x") with 120 in E.
    destruct ((65 <=? b) && (b <=? 90)); lia.
Qed.
Lemma scan_oct3 a b c x y z s : digit 8 a = Some x → digit 8 b = Some y → digit 8 c = Some z →
  scan_radix 8 3 (a :: b :: c :: s) = Some ((x * 8 + y) * 8 + z, s).
Proof.
  intros Ha Hb Hc. destruct (scan_digits 8 3 [a; b; c] s) as [E|[_ E]]; [lia|by repeat constructor|done|done| |].
  - change (a :: b :: c :: s) with ([a; b; c] ++ s). rewrite E. cbn [number]. by rewrite Ha, Hb, Hc.
  - pose proof (digit_range _ _ _ Hb). cbn in E. unfold tolower in E. change (ch "x") with 120 in E.
    destruct ((65 <=? b) && (b <=? 90)); lia.
Qed.

Lemma spelt_byte w v : spelt w v → is_byte v ∧ 1 <= blen w.
Proof.
  destruct 1 as [c|e v He|a b x y Ha Hb|a b c x y z]; rewrite ?blen_cons; change (blen []) with 0.
  - done.
  - split; [|lia]. unfold escape in He. cbn in He.
    repeat (match type of He with context [if ?b then _ else _] => destruct b end; [by injection He as <-|]). done.
  - pose proof (digit_value _ _ _ Ha). pose proof (digit_value _ _ _ Hb). unfold is_byte. lia.
  - split; [apply u8_range|lia].
Qed.

Lemma char_at_eq s i : 0 <= i <= blen s → char_at s i = Ok (bat s i).
Proof. intros H. unfold char_at. by rewrite (proj2 (Z.leb_le _ _)), (proj2 (Z.leb_le _ _)) by lia. Qed.
Lemma bat_between a w s i : 0 <= i < blen w → bat (a ++ w ++ s) (blen a + i) = bat w i.
Proof.
  intros H. pose proof (blen_nonneg a). rewrite bat_app by lia. rewrite (proj2 (Z.ltb_ge _ _)) by lia.
  replace (blen a + i - blen a) with i by lia. rewrite bat_app by lia. by rewrite (proj2 (Z.ltb_lt _ _)) by lia.
Qed.

(** A round of [parse_cform] at a spelling stores its byte. *)
Lemma cform_spelt w v a s i b :
  spelt w v → 0 <= i < blen b →
  cform_body (blen b) (a ++ w ++ s) (blen (a ++ w ++ s)) (i, blen a, b) =
    Ok (inl (i + 1, blen a + blen w, put b i [v])).
Proof.
  intros Hw Hi. pose proof (spelt_byte _ _ Hw) as [Hv Hl]. pose proof (blen_nonneg a). pose proof (blen_nonneg s).
  assert (Hwr : wr b i v = Ok (put b i [v])).
  { unfold wr, store. rewrite u8_small by done. by rewrite in_range_true by (rewrite ?blen_cons, ?blen_nil; lia). }
  unfold cform_body. rewrite !blen_app. rewrite (proj2 (Z.ltb_lt _ _)), (proj2 (Z.ltb_lt i _)) by lia. cbn [andb].
  rewrite (char_at_eq _ (blen a)) by (rewrite !blen_app; lia). rewrite bind_ok.
  replace (bat (a ++ w ++ s) (blen a)) with (bat w 0) by (rewrite <- (bat_between a w s 0) by lia; f_equal; lia).
  destruct Hw as [c Hc _ Hne|e v He|x y vx vy Hx Hy|x y z vx vy vz Hx Hy Hz].
  { change (bat [c] 0) with c. rewrite (proj2 (Z.eqb_neq _ _) Hne). cbn [negb]. by rewrite Hwr. }
  all: match goal with |- context [bat ?l 0] => change (bat l 0) with (ch "\") end; rewrite Z.eqb_refl; cbn [negb].
  all: rewrite char_at_eq by (rewrite ?blen_app, ?blen_cons in *; change (blen []) with 0 in *; lia); rewrite bind_ok.
  all: rewrite bat_between by (rewrite ?blen_cons in *; change (blen []) with 0 in *; lia).
  all: match goal with |- context [bat [?x; ?y] 1] => change (bat [x; y] 1) with y
       | |- context [bat [?x; ?y; ?z; ?t] 1] => change (bat [x; y; z; t] 1) with y end.
  { rewrite He, Hwr, bind_ok. by change (blen [ch "\"; e]) with 2. }
  all: replace (Z.to_nat (blen a + 1)) with (length a + 1)%nat by (unfold blen; lia).
  all: rewrite <- drop_drop, drop_app_length; cbn [app drop].
  - change (escape (ch "x")) with (None : option Z). unfold scan_byte. cbn [here tail]. rewrite Z.eqb_refl.
    rewrite (scan_hex2 x y vx vy s Hx Hy). rewrite u8_small by done. rewrite Hwr, bind_ok. do 4 f_equal.
    rewrite !blen_cons. change (blen []) with 0. lia.
  - rewrite (escape_oct x vx Hx).
    unfold scan_byte. cbn [here tail]. pose proof (digit_range _ _ _ Hx). change (ch "x") with 120.
    destruct (Z.eqb_spec x 120); [lia|]. rewrite (scan_oct3 x y z vx vy vz s Hx Hy Hz). rewrite Hwr, bind_ok. do 4 f_equal.
    rewrite !blen_cons. change (blen []) with 0. lia.
Qed.

Lemma cform_loop ws vs a i b fuel :
  Forall2 spelt ws vs → 0 <= i → i + blen vs <= blen b → (length ws < fuel)%nat →
  loop (cform_body (blen b) (a ++ mjoin ws) (blen (a ++ mjoin ws))) fuel (i, blen a, b) = Ok (i + blen vs, put b i vs).
Proof.
  intros H. revert a i b fuel. induction H as [|w v ws vs Hw Hws IH]; intros a i b [|fuel] Hi Hl Hf; cbn [length] in Hf; try lia.
  - cbn [loop mjoin]. cbn. unfold cform_body. rewrite app_nil_r, Z.ltb_irrefl. cbn [andb]. rewrite bind_ok.
    do 2 f_equal; [change (blen []) with 0; lia|]. unfold put. cbn [app length]. by rewrite ?Nat.add_0_r, ?blen_nil, ?Z.add_0_r, take_drop.
  - change (mjoin (w :: ws)) with (w ++ mjoin ws). cbn [loop]. rewrite blen_cons in Hl. pose proof (blen_nonneg vs).
    rewrite (cform_spelt w v a (mjoin ws) i b Hw) by lia. rewrite bind_ok, <- blen_app, app_assoc.
    rewrite <- (blen_put b i [v]) at 1 by (change (blen [v]) with 1; lia).
    rewrite IH; [|lia| |lia].
    2: { rewrite blen_put by (change (blen [v]) with 1; lia). lia. }
    do 2 f_equal; [rewrite blen_cons; lia|]. change (v :: vs) with ([v] ++ vs).
    change (i + 1) with (i + blen [v]). apply put_put_app; [lia|]. change (blen [v]) with 1. lia.
Qed.

Lemma scan_byte_length s v n : scan_byte s = Some (v, n) → 0 <= n.
Proof.
  assert (H : ∀ base w s v e, scan_radix base w s = Some (v, e) → blen e <= blen s).
  { clear. intros base w s v e. unfold scan_radix. destruct (sign_of _) as [neg t].
    destruct (is_digit _ _); [|done]. destruct (number _ _ _) as [num r]. intros [= _ <-].
    unfold blen. rewrite length_drop. pose proof (drop_while_length isspace s). unfold scan_space. lia. }
  assert (Ht : blen (tail s) <= blen s) by (unfold blen; destruct s; cbn; lia).
  unfold scan_byte. destruct (here s =? ch "x").
  - destruct (scan_radix 16 2 (tail s)) as [[x e]|] eqn:E; [|destruct (scan_radix 8 3 s) as [[x e]|] eqn:E2; [|done]].
    + intros [= _ <-]. apply H in E. lia.
    + intros [= _ <-]. apply H in E2. lia.
  - destruct (scan_radix 8 3 s) as [[x e]|] eqn:E2; [|done]. intros [= _ <-]. apply H in E2. lia.
Qed.

(** [parse_cform] stays inside the buffer and the text. *)
Lemma wp_parse_cform b n str (P : Z * bytes → Prop) : 0 <= n <= blen b → bytes_wf b →
  (∀ i b', 0 <= i <= n → blen b' = blen b → bytes_wf b' → P (i, b')) → wp (parse_cform b n str (blen str)) P.
Proof.
  intros Hn Hwf HP. unfold parse_cform. pose proof (blen_nonneg str).
  apply (wp_loop _ (λ '(i, p, b'), 0 <= i <= n ∧ 0 <= p ∧ blen b' = blen b ∧ bytes_wf b') (λ '(_, p, _), Z.to_nat (blen str - p)));
    [|auto with lia|lia].
  intros [[i p] b'] (Hi & Hp & Hb & Hw). unfold cform_body.
  destruct (Z.ltb_spec p (blen str)), (Z.ltb_spec i n); cbn [andb]; [|by apply wp_ok, HP; [lia|..]..].
  rewrite (char_at_eq _ p) by lia. rewrite bind_ok.
  assert (Hs : ∀ v p', p < p' → wp (buffer ← wr b' i v; Ok (inl (i + 1, p', buffer)))
    (λ r : Z * Z * bytes + Z * bytes, match r with inl s' => (let '(i, p, b') := s' in 0 <= i <= n ∧ 0 <= p ∧ blen b' = blen b ∧ bytes_wf b') ∧
       ((let '(_, p, _) := s' in Z.to_nat (blen str - p)) < Z.to_nat (blen str - p))%nat | inr x => P x end)).
  { intros v p' Hp'. apply wp_bind, wp_store; rewrite ?blen_cons, ?blen_nil; [lia..|]. apply wp_ok.
    rewrite blen_put by (rewrite ?blen_cons, ?blen_nil; lia). split_and!; try lia.
    apply wf_put; [done|]. constructor; [apply wf_u8|constructor]. }
  destruct (negb _); [apply Hs; lia|]. rewrite char_at_eq by lia. rewrite bind_ok.
  destruct (escape _); [apply Hs; lia|]. destruct (scan_byte _) as [[v k]|] eqn:Ek; [|apply wp_ok; split_and!; done || lia].
  apply scan_byte_length in Ek. apply Hs; lia.
Qed.

(** Fresh memory. *)
Definition fresh (junk : Z → bytes) : Prop := ∀ n, 0 <= n → blen (junk n) = n ∧ bytes_wf (junk n).
Lemma wp_data_from_str junk str (P : option bytes → Prop) : fresh junk →
  (∀ r, (∀ d, r = Some d → 0 < blen d <= blen str ∧ bytes_wf d) → P r) → wp (data_from_str junk str) P.
Proof.
  intros Hj HP. unfold data_from_str. pose proof (blen_nonneg str).
  destruct (Z.eqb_spec (blen str) 0); [by apply wp_ok, HP|]. apply wp_bind.
  destruct (Hj (blen str)) as [Hl Hw]; [lia|].
  apply wp_parse_cform; [lia|done|]. intros i b Hi Hb Hwb. rewrite Hl in Hb.
  destruct (Z.eqb_spec i 0); [by apply wp_ok, HP|]. apply wp_bind, wp_rds; [lia..|]. apply wp_ok, HP.
  intros d [= <-]. rewrite blen_sub by lia. split; [lia|by apply wf_sub].
Qed.

Lemma wp_ftob fopen junk str (P : option bytes → Prop) : fresh junk →
  (∀ f, fopen str = Some f → bytes_wf (f_read f)) →
  (∀ r, (∀ d, r = Some d → bytes_wf d ∧ 0 < blen d) → P r) → wp (ftob fopen junk str) P.
Proof.
  intros Hj Hf HP. unfold ftob. destruct (_ =? _).
  { apply wp_data_from_str; [done|]. intros r Hr. apply HP. intros d Hd. apply Hr in Hd. split; [apply Hd|lia]. }
  destruct (fopen str) as [f|]; [|by apply wp_ok, HP].
  destruct (f_seek_end f); [by apply wp_ok, HP|]. destruct (Z.leb_spec (f_tell f) 0); [by apply wp_ok, HP|].
  destruct (f_seek_set f); [by apply wp_ok, HP|]. destruct (Z.eqb_spec (blen (f_read f)) (f_tell f)); [|by apply wp_ok, HP].
  apply wp_ok, HP. intros d [= <-]. split; [by apply Hf|lia].
Qed.

Lemma data_from_spelt ws data junk : Forall2 spelt ws data → data ≠ [] → fresh junk →
  data_from_str junk (mjoin ws) = Ok (Some data).
Proof.
  intros Hs Hne Hj. unfold data_from_str. assert (Hl : blen data <= blen (mjoin ws)).
  { clear Hne. induction Hs as [|w v ws vs Hw _ IH]; [done|]. apply spelt_byte in Hw as [_ Hw].
    change (mjoin (w :: ws)) with (w ++ mjoin ws). rewrite blen_cons, blen_app. lia. }
  assert (Hp : 0 < blen data) by (destruct data; [done|rewrite blen_cons; pose proof (blen_nonneg data); lia]).
  destruct (Z.eqb_spec (blen (mjoin ws)) 0); [lia|]. destruct (Hj (blen (mjoin ws))) as [Hb _]; [lia|].
  unfold parse_cform. rewrite <- Hb at 1. pose proof (cform_loop ws data [] 0 (junk (blen (mjoin ws)))) as H. cbn [app] in H.
  change (blen []) with 0 in H. rewrite H; [|done|done|rewrite Hb; lia|].
  2: { clear -Hs. induction Hs as [|w v ws vs Hw _ IH]; [cbn; lia|]. apply spelt_byte in Hw as [_ Hw].
       change (mjoin (w :: ws)) with (w ++ mjoin ws). unfold blen in *. rewrite length_app. cbn. lia. }
  rewrite bind_ok, Z.add_0_l. destruct (Z.eqb_spec (blen data) 0); [lia|].
  unfold rds. rewrite in_range_true, bind_ok by (rewrite ?blen_put; lia). by rewrite sub_put_same by lia.
Qed.

(** * Hosts *)

(** The words between separators; [w] is the start of the first one. *)
Fixpoint words (w b : bytes) : list bytes :=
  match b with
  | [] => if bool_decide (w = []) then [] else [w]
  | c :: b => if separator c then (if bool_decide (w = []) then [] else [w]) ++ words [] b else words (w ++ [c]) b
  end.
(** The host a word is, in lower case. *)
Definition host_of (w : bytes) : option bytes := mapM lower_char w.
Definition sized (w : bytes) : bytes * Z := (w, blen w).
Definition hosts_of (b : bytes) : list (bytes * Z) := sized <$> omap host_of (words [] b).

Lemma lower_char_byte c c' : is_byte c → lower_char c = Some c' → is_byte c'.
Proof.
  unfold lower_char. intros Hc. repeat case_match; intros [= <-]; try done. apply u8_range.
Qed.

Lemma host_of_snoc w c : host_of (w ++ [c]) =
  match host_of w, lower_char c with Some l, Some c' => Some (l ++ [c']) | _, _ => None end.
Proof.
  induction w as [|x w IH]; cbn; [by destruct (lower_char c)|]. unfold host_of in IH. rewrite IH.
  destruct (lower_char x); cbn; [|done]. destruct (mapM lower_char w); cbn; [|done]. by destruct (lower_char c).
Qed.

(** The state inside a word [w], of which the buffer holds what [lower_char] made of it. *)
Definition in_word (w l : bytes) (drop : bool) : Prop :=
  length l = length w ∧ if drop then host_of w = None else host_of w = Some l.

Lemma in_word_snoc w l drop c : in_word w l drop →
  in_word (w ++ [c]) (l ++ [match lower_char c with Some c' => c' | None => c end])
    (drop || bool_decide (lower_char c = None)).
Proof.
  intros [Hl Hw]. split; [rewrite !length_app; cbn; lia|]. rewrite host_of_snoc.
  destruct drop; rewrite Hw; [done|]. by destruct (lower_char c).
Qed.

Lemma mem_add_all_app hdr l l' : mem_add_all hdr (l ++ l') = (hdr ← mem_add_all hdr l; mem_add_all hdr l').
Proof.
  revert hdr. induction l as [|[str len] l IH]; intros hdr; [done|]. cbn [app mem_add_all].
  destruct (mem_add hdr str len) as [[[v new] hdr1]|]; [|done]. rewrite !bind_ok. apply IH.
Qed.
Lemma omap_words w b : omap host_of (words w b) =
  match b with
  | [] => omap host_of (if bool_decide (w = []) then [] else [w])
  | c :: b => if separator c then omap host_of (if bool_decide (w = []) then [] else [w]) ++ omap host_of (words [] b)
              else omap host_of (words (w ++ [c]) b)
  end.
Proof. destruct b as [|c b]; cbn [words]; [done|]. destruct (separator c); [|done]. by rewrite omap_app. Qed.

(** The end of a word. *)
Lemma hosts_flush {R} w l drop hdr a b (k : mphdr → comp R) : in_word w l drop →
  (hdr ← (if negb drop then w ← rds (a ++ l ++ b) (blen a) (blen a + blen l - blen a);
            '(_, _, hdr) ← mem_add hdr w (blen a + blen l - blen a); Ok hdr else Ok hdr); k hdr) =
  (hdr ← mem_add_all hdr (sized <$> omap host_of [w]); k hdr).
Proof.
  intros [_ Hw]. cbn [omap list_omap]. destruct drop; cbn [negb]; rewrite Hw; [done|].
  replace (blen a + blen l - blen a) with (blen l) by lia. unfold rds.
  rewrite in_range_true by (rewrite ?blen_app; pose proof (blen_nonneg a); pose proof (blen_nonneg b); pose proof (blen_nonneg l); lia).
  rewrite sub_at, bind_ok by done. cbn [fmap list_fmap mem_add_all sized].
  destruct (mem_add hdr l (blen l)) as [[[v new] hdr1]|]; by rewrite ?bind_ok.
Qed.

Lemma in_word_nil w l drop : in_word w l drop → bool_decide (w = []) = (blen l =? 0).
Proof.
  intros [Hl _]. by destruct w, l.
Qed.

(** A round of the loop at the end of a word. *)
Lemma hosts_round_end w l drop hdr a b : in_word w l drop →
  here b = 0 ∧ b = [] ∨ separator (here b) = true ∧ b ≠ [] →
  hosts_body (blen (a ++ l ++ b)) (HostsSt (blen (a ++ l)) (blen a) drop hdr (a ++ l ++ b)) =
    (hdr ← mem_add_all hdr (sized <$> omap host_of (if bool_decide (w = []) then [] else [w]));
     Ok (inl (HostsSt (blen (a ++ l) + 1) (blen (a ++ l) + 1) (if blen l =? 0 then drop else false) hdr (a ++ l ++ b)))).
Proof.
  intros Hin Hb. rewrite (in_word_nil _ _ _ Hin). pose proof (blen_nonneg a). pose proof (blen_nonneg l). pose proof (blen_nonneg b).
  unfold hosts_body. rewrite !blen_app. rewrite (proj2 (Z.leb_le _ _)) by lia.
  match goal with |- (c ← ?x; _) = _ => assert (x = Ok None) as -> end.
  { destruct Hb as [[_ ->]|[Hb Hne]].
    - rewrite blen_nil, Z.add_0_r. by rewrite Z.eqb_refl.
    - destruct b as [|c b]; [done|]. cbn [here] in Hb. rewrite blen_cons in *. pose proof (blen_nonneg b).
      destruct (Z.eqb_spec (blen a + blen l) (blen a + (blen l + (blen b + 1)))); [lia|]. cbn [negb].
      rewrite rd_eq by (rewrite !blen_app, blen_cons; lia). rewrite bind_ok, app_assoc.
      replace (bat ((a ++ l) ++ c :: b) (blen a + blen l)) with c; [by rewrite Hb|].
      rewrite <- blen_app, <- (Z.add_0_r (blen (a ++ l))). symmetry. apply (bat_between (a ++ l) [c] b 0).
      rewrite blen_cons, blen_nil. lia. }
  rewrite bind_ok. destruct (Z.eqb_spec (blen l) 0) as [E|E].
  - rewrite E, Z.add_0_r, Z.eqb_refl. cbn [omap list_omap fmap list_fmap mem_add_all]. by rewrite bind_ok.
  - destruct (Z.eqb_spec (blen a) (blen a + blen l)); [lia|]. by rewrite (hosts_flush w l).
Qed.

Lemma hosts_loop b : ∀ w l drop hdr a fuel, bytes_wf b → in_word w l drop → (length b + 1 < fuel)%nat →
  loop (hosts_body (blen (a ++ l ++ b))) fuel (HostsSt (blen (a ++ l)) (blen a) drop hdr (a ++ l ++ b)) =
    mem_add_all hdr (sized <$> omap host_of (words w b)).
Proof.
  induction b as [|c b IH]; intros w l drop hdr a [|fuel] Hb Hin Hf; cbn [length] in Hf; try lia; cbn [loop words].
  - rewrite (hosts_round_end w) by auto. destruct (mem_add_all _ _) as [h|]; [|done]. rewrite !bind_ok.
    destruct fuel as [|fuel]; [lia|]. cbn [loop]. unfold hosts_body. rewrite !blen_app, blen_nil, Z.add_0_r.
    by destruct (Z.leb_spec (blen a + blen l + 1) (blen a + blen l)); [lia|].
  - inversion Hb as [|? ? Hc Hb']; subst. destruct (separator c) eqn:Es.
    + rewrite (hosts_round_end w) by auto. rewrite omap_app, fmap_app, mem_add_all_app.
      destruct (mem_add_all _ _) as [h|]; [|done]. rewrite !bind_ok.
      assert (Hin' : in_word [] [] (if blen l =? 0 then drop else false)).
      { split; [done|]. destruct (Z.eqb_spec (blen l) 0) as [E|]; [|done]. destruct Hin as [Hl Hw].
        assert (l = []) as -> by (destruct l; [done|]; rewrite blen_cons in E; pose proof (blen_nonneg l); lia).
        by destruct w, drop. }
      specialize (IH [] [] (if blen l =? 0 then drop else false) h (a ++ l ++ [c]) fuel Hb' Hin' ltac:(lia)).
      rewrite <- IH. rewrite !app_nil_r, !app_nil_l, <- !app_assoc. cbn [app]. rewrite !blen_app, !blen_cons, blen_nil. do 2 f_equal; lia.
    + cbn [hosts_body]. unfold hosts_body. pose proof (blen_nonneg a). pose proof (blen_nonneg l). pose proof (blen_nonneg b).
      rewrite !blen_app, blen_cons. rewrite (proj2 (Z.leb_le _ _)) by lia.
      destruct (Z.eqb_spec (blen a + blen l) (blen a + (blen l + (blen b + 1)))); [lia|]. cbn [negb].
      rewrite rd_eq by (rewrite !blen_app, blen_cons; lia). rewrite bind_ok.
      assert (bat (a ++ l ++ c :: b) (blen a + blen l) = c) as ->.
      { rewrite app_assoc, <- blen_app, <- (Z.add_0_r (blen (a ++ l))). apply (bat_between (a ++ l) [c] b 0).
        rewrite blen_cons, blen_nil. lia. }
      rewrite Es. cbn [negb]. rewrite bind_ok. pose proof (in_word_snoc w l drop c Hin) as Hin'.
      set (c' := match lower_char c with Some c' => c' | None => c end) in *.
      specialize (IH (w ++ [c]) (l ++ [c']) (drop || bool_decide (lower_char c = None)) hdr a fuel Hb' Hin' ltac:(lia)).
      rewrite <- IH. rewrite <- !app_assoc. cbn [app]. rewrite !blen_app, !blen_cons, blen_nil.
      destruct (lower_char c) as [lc|] eqn:El; subst c'.
      * unfold wr, store. rewrite u8_small by (by eapply lower_char_byte).
        rewrite in_range_true by (rewrite ?blen_app, ?blen_cons, ?blen_nil; lia). rewrite !bind_ok.
        rewrite bool_decide_eq_false_2, orb_false_r by done.
        rewrite (app_assoc a l (c :: b)). change (c :: b) with ([c] ++ b).
        rewrite (put_at (a ++ l) [c] b [lc]) by (rewrite ?blen_app; done). rewrite <- app_assoc. cbn [app]. do 2 f_equal; lia.
      * rewrite !bind_ok. rewrite bool_decide_eq_true_2, orb_true_r by done. do 2 f_equal; lia.
Qed.

Lemma parse_hosts_ok hdr buffer : bytes_wf buffer →
  parse_hosts hdr buffer (blen buffer) = mem_add_all hdr (hosts_of buffer).
Proof.
  intros Hb. unfold parse_hosts, hosts_of. 
  rewrite <- (hosts_loop buffer [] [] false hdr [] (S (S (Z.to_nat (blen buffer))))); [done|done|done|unfold blen; lia].
Qed.

Lemma hosts_wf b : bytes_wf b → Forall (λ x, bytes_wf x.1 ∧ 0 <= x.2 <= blen x.1) (hosts_of b).
Proof.
  intros Hb. unfold hosts_of. apply Forall_fmap, Forall_forall. intros h Hh. apply list_elem_of_omap in Hh as (w & Hw & Ew).
  cbn. pose proof (blen_nonneg h). split; [|lia].
  assert (Hwb : bytes_wf w).
  { clear h H Ew. assert (Hw0 : bytes_wf []) by constructor. revert Hw0 Hw. generalize (@nil Z) as v.
    induction Hb as [|c b Hc Hb IH]; intros v Hv; cbn [words].
    - case_bool_decide; [by intros ?%elem_of_nil|]. intros Hw%list_elem_of_singleton. by subst w.
    - destruct (separator c).
      + intros [Hin|Hin]%elem_of_app; [|apply (IH []); [constructor|done]]. case_bool_decide; [by apply elem_of_nil in Hin|].
        apply list_elem_of_singleton in Hin. by subst w.
      + apply IH. apply wf_app. split; [done|by constructor]. }
  unfold host_of in Ew. apply mapM_Some_1 in Ew. clear Hw H. induction Ew as [|c c' w h Hc _ IH]; [constructor|].
  inversion Hwb; subst. constructor; [by eapply lower_char_byte|by apply IH].
Qed.

(** * Sets of addresses *)

(** A network: an address, and the number of bits behind a slash if there is one. *)
Definition net_of (pton : Z → bytes → option bytes) (w : bytes) : option (bytes * Z) :=
  let text := take_while (λ c, negb (c =? ch "/")) w in
  mask ← (match drop (length text) w with
          | [] => Some None
          | _ :: m => let bits := (strtol 10 (cstr m)).1 in if bits <=? 0 then None else Some (Some bits)
          end);
  '(a, size) ← (match pton AF_INET (cstr text), pton AF_INET6 (cstr text) with
                | Some a, _ => Some (a, 32) | None, Some a => Some (a, 128) | None, None => None end);
  let n := match mask with Some bits => Z.min bits size | None => size end in
  Some (take (Z.to_nat ((n + 7) / 8)) a, n).
Definition nets_of pton (b : bytes) : list (bytes * Z) := omap (net_of pton) (words [] b).

Lemma take_while_split f w : w = take_while f w ++ drop (length (take_while f w)) w ∧
  match drop (length (take_while f w)) w with [] => forallb f w = true | c :: _ => f c = false end ∧
  forallb f (take_while f w) = true.
Proof.
  induction w as [|c w (H1 & H2 & H3)]; cbn; [done|]. destruct (f c) eqn:E; cbn; rewrite ?E; cbn.
  - split_and!; [by f_equal|done|done].
  - done.
Qed.

Lemma find_idx_app f a c b : forallb (λ x, negb (f x)) a = true → f c = true → find_idx f (a ++ c :: b) = Some (blen a).
Proof.
  intros Ha Hc. induction a as [|x a IH]; cbn in *; [by rewrite Hc|]. apply andb_true_iff in Ha as [Hx Ha].
  rewrite (negb_true_iff (f x)) in Hx. rewrite Hx, IH by done. by rewrite blen_cons.
Qed.
Lemma find_idx_all f a : forallb (λ x, negb (f x)) a = true → find_idx f a = None.
Proof.
  induction a as [|x a IH]; cbn; [done|]. intros [Hx Ha]%andb_true_iff. rewrite (negb_true_iff (f x)) in Hx.
  by rewrite Hx, IH.
Qed.

Section ipset.
Context (pton : Z → bytes → option bytes).
(** The size of an address [inet_pton] finds. *)
Hypothesis pton_length : ∀ f s a, f = AF_INET ∨ f = AF_INET6 → pton f s = Some a → bytes_wf a ∧ blen a = ip_size f.

Lemma parse_ip_ok w : ∃ n a, parse_ip pton w = Ok (n, a) ∧
  match net_of pton w with
  | Some (raw, m) => n = m ∧ 0 < n <= 8 * blen a ∧ bytes_wf a ∧ raw = take (Z.to_nat ((n + 7) / 8)) a
  | None => n = 0
  end.
Proof.
  unfold parse_ip, net_of. set (text := take_while _ w).
  destruct (take_while_split (λ c, negb (c =? ch "/")) w) as (Hw & Hs & Ht). fold text in Hw, Hs, Ht.
  pose proof (blen_nonneg w). unfold memchr. destruct (Z.eqb_spec (blen w + 1) 0); [lia|].
  rewrite blen_app, blen_cons, blen_nil, Z.add_0_l. rewrite (proj2 (Z.ltb_ge (blen w + 1) 0)) by lia.
  cbn [Z.ltb Z.compare orb]. change (drop (Z.to_nat 0) (w ++ [0])) with (w ++ [0]).
  rewrite take_ge by (unfold blen; rewrite length_app; cbn; lia).
  assert (Hip : ∀ bits, 0 <= bits → ∃ n a,
    Ok match match pton AF_INET (cstr text) with Some a => Some (a, 4)
             | None => match pton AF_INET6 (cstr text) with Some a => Some (a, 16) | None => None end end with
       | Some (a, len) => (if (bits =? 0) || (len * 8 <? bits) then len * 8 else bits, a) | None => (0, []) end = Ok (n, a) ∧
    match ('(a, size) ← (match pton AF_INET (cstr text), pton AF_INET6 (cstr text) with
                | Some a, _ => Some (a, 32) | None, Some a => Some (a, 128) | None, None => None end);
           let n := if bits =? 0 then size else Z.min bits size in Some (take (Z.to_nat ((n + 7) / 8)) a, n)) with
    | Some (raw, m) => n = m ∧ 0 < n <= 8 * blen a ∧ bytes_wf a ∧ raw = take (Z.to_nat ((n + 7) / 8)) a
    | None => n = 0
    end).
  { intros bits Hb. destruct (pton AF_INET (cstr text)) as [a|] eqn:E4; [|destruct (pton AF_INET6 (cstr text)) as [a|] eqn:E6].
    - apply pton_length in E4 as [Hwf Hl]; [|by left]. change (ip_size AF_INET) with 4 in Hl. eexists _, _. split; [done|]. cbn [mbind option_bind]. change (4 * 8) with 32. change (16 * 8) with 128.
      destruct (Z.eqb_spec bits 0), (Z.ltb_spec 32 bits); cbn [orb]; try rewrite Z.min_r by lia; try rewrite Z.min_l by lia; split_and!; done || lia.
    - apply pton_length in E6 as [Hwf Hl]; [|by right]. change (ip_size AF_INET6) with 16 in Hl. eexists _, _. split; [done|]. cbn [mbind option_bind]. change (4 * 8) with 32. change (16 * 8) with 128.
      destruct (Z.eqb_spec bits 0), (Z.ltb_spec 128 bits); cbn [orb]; try rewrite Z.min_r by lia; try rewrite Z.min_l by lia; split_and!; done || lia.
    - by eexists _, _. }
  destruct (drop (length text) w) as [|c m] eqn:Ed.
  - rewrite app_nil_r in Hw. rewrite find_idx_all by (rewrite forallb_app, Hs; done). rewrite (proj2 (Z.ltb_ge _ _)), bind_ok by lia.
    rewrite bool_decide_eq_false_2 by (by intros [? ?]). cbn [andb]. clearbody text. subst w.
    destruct (Hip 0) as (nb & ad & E & Hn); [lia|]. exists nb, ad. split; [|exact Hn].
    rewrite <- E. clear. by destruct (pton AF_INET (cstr text)), (pton AF_INET6 (cstr text)).
  - apply negb_false_iff in Hs. replace (w ++ [0]) with (text ++ c :: m ++ [0]) by (rewrite Hw, <- app_assoc; done).
    rewrite find_idx_app by done. rewrite Z.add_0_l, bind_ok. rewrite bool_decide_eq_true_2 by done. cbn [andb].
    assert (drop (Z.to_nat (blen text + 1)) w = m) as ->.
    { rewrite Hw. unfold blen. replace (Z.to_nat _) with (length text + 1)%nat by lia. by rewrite <- drop_drop, drop_app_length. }
    destruct (Z.leb_spec (strtol 10 (cstr m)).1 0) as [Hb|Hb]; [by eexists _, _|].
    assert (take (Z.to_nat (blen text)) w = text) as ->.
    { rewrite Hw. unfold blen. by rewrite Nat2Z.id, take_app_length. }
    destruct (Hip (strtol 10 (cstr m)).1) as (nb & ad & E & Hn); [lia|]. exists nb, ad. split.
    + rewrite <- E. clear. by destruct (pton AF_INET (cstr text)), (pton AF_INET6 (cstr text)).
    + rewrite (proj2 (Z.eqb_neq _ _)) in Hn by lia. exact Hn.
Qed.

Lemma net_round hdr a w b : w ≠ [] →
  (ip ← rds (a ++ w ++ b) (blen a) (blen (a ++ w) - blen a);
   '(bits, ip_stack) ← parse_ip pton ip;
   if bits <=? 0 then Ok (inl (blen (a ++ w) + 1, blen (a ++ w) + 1, hdr)) else
   let len := bits / 8 + (if negb (bits mod 8 =? 0) then 1 else 0) in
   ip_raw ← rds ip_stack 0 len;
   '(_, _, hdr) ← mem_add hdr ip_raw bits;
   Ok (inl (blen (a ++ w) + 1, blen (a ++ w) + 1, hdr))) =
  (hdr ← mem_add_all hdr (omap (net_of pton) [w]); Ok (inl (blen (a ++ w) + 1, blen (a ++ w) + 1, hdr) : Z * Z * mphdr + mphdr)).
Proof.
  intros Hne. rewrite blen_app. replace (blen a + blen w - blen a) with (blen w) by lia. pose proof (blen_nonneg a).
  pose proof (blen_nonneg w). pose proof (blen_nonneg b). unfold rds.
  rewrite in_range_true by (rewrite ?blen_app; lia). rewrite sub_at, bind_ok by done. cbn [omap list_omap].
  destruct (parse_ip_ok w) as (n & ip & -> & Hn). rewrite bind_ok. destruct (net_of pton w) as [[raw m]|].
  - destruct Hn as (<- & Hn & _ & ->). destruct (Z.leb_spec n 0); [lia|]. cbv zeta.
    assert (n / 8 + (if negb (n mod 8 =? 0) then 1 else 0) = (n + 7) / 8) as ->.
    { destruct (Z.eqb_spec (n mod 8) 0); cbn [negb]; Z.to_euclidean_division_equations; lia. }
    assert (0 < (n + 7) / 8 <= blen ip) by (Z.to_euclidean_division_equations; lia).
    rewrite in_range_true by lia. rewrite bind_ok, sub_take. cbn [mem_add_all].
    destruct (mem_add _ _ _) as [[[v new] h]|]; by rewrite ?bind_ok.
  - subst n. cbn [Z.leb Z.compare mem_add_all]. by rewrite bind_ok.
Qed.

Lemma ipset_round_end hdr a w b : b = [] ∨ separator (here b) = true ∧ b ≠ [] →
  ipset_body pton (a ++ w ++ b) (blen (a ++ w ++ b)) (blen (a ++ w), blen a, hdr) =
    (hdr ← mem_add_all hdr (omap (net_of pton) (if bool_decide (w = []) then [] else [w]));
     Ok (inl (blen (a ++ w) + 1, blen (a ++ w) + 1, hdr))).
Proof.
  intros Hb. pose proof (blen_nonneg a). pose proof (blen_nonneg w). pose proof (blen_nonneg b).
  unfold ipset_body. rewrite (app_assoc a w b), (blen_app (a ++ w) b). rewrite (proj2 (Z.leb_le _ _)) by lia.
  match goal with |- (c ← ?x; _) = _ => assert (∃ c, x = Ok c ∧ match c with Some c => negb (separator c) | None => false end = false) as (c & -> & Hc) end.
  { destruct Hb as [->|[Hb Hne]].
    - rewrite blen_nil, Z.add_0_r, Z.eqb_refl. by exists None.
    - destruct b as [|c b]; [done|]. cbn [here] in Hb. rewrite blen_cons in *. pose proof (blen_nonneg b).
      destruct (Z.eqb_spec (blen (a ++ w)) (blen (a ++ w) + (blen b + 1))); [lia|]. cbn [negb].
      rewrite rd_eq by (rewrite !blen_app, blen_cons; lia). rewrite bind_ok. eexists. split; [done|]. cbn.
      replace (bat ((a ++ w) ++ c :: b) (blen (a ++ w))) with c; [by rewrite Hb|].
      rewrite <- (Z.add_0_r (blen (a ++ w))). symmetry. apply (bat_between (a ++ w) [c] b 0). rewrite blen_cons, blen_nil. lia. }
  rewrite bind_ok, Hc. rewrite blen_app at 1. destruct (Z.eqb_spec (blen a) (blen a + blen w)) as [E|E].
  - assert (w = []) as -> by (destruct w; [done|]; rewrite blen_cons in E; pose proof (blen_nonneg w); lia).
    cbn [omap list_omap bool_decide]. rewrite app_nil_r. done.
  - rewrite bool_decide_eq_false_2 by (intros ->; rewrite blen_nil in E; lia).
    rewrite <- app_assoc. apply net_round. intros ->. rewrite blen_nil in E. lia.
Qed.

Lemma ipset_loop b : ∀ w hdr a fuel, (length b + 1 < fuel)%nat →
  loop (ipset_body pton (a ++ w ++ b) (blen (a ++ w ++ b))) fuel (blen (a ++ w), blen a, hdr) =
    mem_add_all hdr (omap (net_of pton) (words w b)).
Proof.
  induction b as [|c b IH]; intros w hdr a [|fuel] Hf; cbn [length] in Hf; try lia; cbn [loop words].
  - rewrite ipset_round_end by auto. destruct (mem_add_all _ _) as [h|]; [|done]. rewrite !bind_ok.
    destruct fuel as [|fuel]; [lia|]. cbn [loop]. unfold ipset_body. rewrite app_nil_r.
    by destruct (Z.leb_spec (blen (a ++ w) + 1) (blen (a ++ w))); [lia|].
  - destruct (separator c) eqn:Es.
    + rewrite ipset_round_end by auto. rewrite omap_app, mem_add_all_app.
      destruct (mem_add_all _ _) as [h|]; [|done]. rewrite !bind_ok.
      rewrite <- (IH [] h (a ++ w ++ [c]) fuel) by lia.
      rewrite !app_nil_r, !app_nil_l, <- !app_assoc. cbn [app]. rewrite !blen_app, !blen_cons, blen_nil. do 2 f_equal. f_equal; lia.
    + rewrite <- (IH (w ++ [c]) hdr a fuel) by lia. rewrite <- !app_assoc. cbn [app].
      assert (ipset_body pton (a ++ w ++ c :: b) (blen (a ++ w ++ c :: b)) (blen (a ++ w), blen a, hdr) =
        Ok (inl (blen (a ++ w ++ [c]), blen a, hdr))) as ->; [|by rewrite bind_ok].
      unfold ipset_body. pose proof (blen_nonneg a). pose proof (blen_nonneg w). pose proof (blen_nonneg b).
      rewrite !blen_app, blen_cons. rewrite (proj2 (Z.leb_le _ _)) by lia.
      destruct (Z.eqb_spec (blen a + blen w) (blen a + (blen w + (blen b + 1)))); [lia|]. cbn [negb].
      rewrite rd_eq by (rewrite !blen_app, blen_cons; lia). rewrite bind_ok.
      assert (bat (a ++ w ++ c :: b) (blen a + blen w) = c) as ->.
      { rewrite app_assoc, <- blen_app, <- (Z.add_0_r (blen (a ++ w))). apply (bat_between (a ++ w) [c] b 0).
        rewrite blen_cons, blen_nil. lia. }
      rewrite bind_ok, Es. cbn [negb]. rewrite blen_cons, blen_nil. do 3 f_equal. f_equal. lia.
Qed.

Lemma parse_ipset_ok hdr buffer : parse_ipset pton hdr buffer (blen buffer) = mem_add_all hdr (nets_of pton buffer).
Proof. unfold parse_ipset, nets_of. apply (ipset_loop buffer [] hdr []). unfold blen. lia. Qed.

Lemma nets_wf b : Forall (λ '(raw, n), bytes_wf raw ∧ 0 <= n <= 8 * blen raw) (nets_of pton b).
Proof.
  apply Forall_forall. intros [raw n] Hin. apply list_elem_of_omap in Hin as (w & _ & Hw).
  destruct (parse_ip_ok w) as (m & a & _ & Ha). rewrite Hw in Ha. destruct Ha as (-> & Hn & Hwf & ->).
  split; [apply Forall_take, Hwf|]. unfold blen in *. rewrite length_take.
  assert (Z.to_nat ((n + 7) / 8) <= length a)%nat by (Z.to_euclidean_division_equations; lia).
  rewrite Nat.min_l by done. Z.to_euclidean_division_equations. lia.
Qed.
End ipset.

(** * Positions *)

(** The text of a position: the number, the repetitions and those to skip behind colons, and
    behind a plus what it counts from. *)
Inductive place := place_null | place_sni | place_host.
Inductive align := align_end | align_mid | align_rand | align_start.
Definition place_char (x : place) : Z := match x with place_null => ch "n" | place_sni => ch "s" | place_host => ch "h" end.
Definition place_flag (x : place) : Z :=
  match x with place_null => 0 | place_sni => OFFSET_SNI | place_host => OFFSET_HOST end.
Definition align_char (x : align) : Z :=
  match x with align_end => ch "e" | align_mid => ch "m" | align_rand => ch "r" | align_start => ch "s" end.
Definition align_flag (x : align) : Z :=
  match x with align_end => OFFSET_END | align_mid => OFFSET_MID | align_rand => OFFSET_RAND | align_start => OFFSET_START end.

Definition flags_text (f : option (place * option align)) : bytes :=
  match f with
  | Some (p, a) => ch "+" :: place_char p :: match a with Some a => [align_char a] | None => [] end
  | None => []
  end.
Definition flags_value (f : option (place * option align)) : Z :=
  match f with
  | Some (p, a) => Z.lor (place_flag p) (match a with Some a => align_flag a | None => 0 end)
  | None => 0
  end.
Definition counts_text (l : list Z) : bytes := mjoin ((λ n, ch ":" :: dec n) <$> l).
Definition offset_text (pos : Z) (counts : list Z) (f : option (place * option align)) : bytes :=
  dec pos ++ counts_text counts ++ flags_text f.

Definition stops (s : bytes) : Prop := is_digit 16 (here s) = false ∧ tolower (here s) ≠ ch "x".
Lemma flags_stop f : stops (flags_text f) ∧ here (flags_text f) ≠ ch ":".
Proof. by destruct f as [[[] [[]|]]|]. Qed.
Lemma counts_stop l f : stops (counts_text l ++ flags_text f).
Proof. destruct l; [apply flags_stop|done]. Qed.

Lemma offset_flags p f pos : p_flag p = 0 →
  (p ← (if here (flags_text f) =? ch "+" then
      let c := here (tail (flags_text f)) in let d := here (tail (tail (flags_text f))) in
      p ← (if c =? ch "s" then Some (set_flag OFFSET_SNI p)
           else if c =? ch "h" then Some (set_flag OFFSET_HOST p)
           else if c =? ch "n" then Some p else None);
      let add f := set_flag (Z.lor (p_flag p) f) p in
      Some (if d =? ch "e" then add OFFSET_END else if d =? ch "m" then add OFFSET_MID
            else if d =? ch "r" then add OFFSET_RAND else if d =? ch "s" then add OFFSET_START else p)
    else if here (flags_text f) =? 0 then Some p else None);
   Some (set_pos pos p)) = Some (Part (p_m p) (flags_value f) pos (p_r p) (p_s p)).
Proof. destruct p as [m flag ? r s]. cbn. intros ->. by destruct f as [[[] [[]|]]|]. Qed.

Lemma parse_offset_text pos counts f :
  long_min <= pos <= long_max → Forall (λ n, 0 <= n <= long_max) counts → (length counts ≤ 2)%nat → head counts ≠ Some 0 →
  parse_offset part_init (offset_text pos counts f) =
    Some (Part DESYNC_NONE (flags_value f) pos (default 0 (head counts)) (default 0 (counts !! 1%nat))).
Proof.
  intros Hp Hc Hl Hz. assert (Hnum : ∀ n s, 0 <= n <= long_max → stops s → strtol 0 (dec n ++ s) = (n, s)).
  { intros n s Hn [H1 H2]. apply strtol_dec_any; [unfold long_min; lia|done|done]. }
  pose proof (flags_stop f) as [Hf Hcol]. unfold parse_offset, offset_text.
  pose proof (counts_stop counts f) as [H1 H2]. rewrite strtol_dec_any by done. clear H1 H2.
  destruct counts as [|r [|s [|x counts]]]; cbn [length] in Hl; [| | |lia]; unfold counts_text;
    cbn [fmap list_fmap mjoin list_join app].
  - cbn [offset_counts]. rewrite (proj2 (Z.eqb_neq _ _) Hcol). cbn [mbind option_bind]. by apply (offset_flags part_init).
  - apply list.Forall_cons in Hc as [Hr _]. assert (Hr0 : r ≠ 0) by (intros ->; by apply Hz). rewrite <- app_assoc. cbn [app].
    cbn [offset_counts]. cbn [here tail]. rewrite Z.eqb_refl, Hnum by done. destruct (Z.ltb_spec r 0); [lia|].
    cbn [p_r part_init]. rewrite Z.eqb_refl, (proj2 (Z.eqb_neq _ _) Hr0). rewrite (proj2 (Z.eqb_neq _ _) Hcol).
    cbn [mbind option_bind]. by apply (offset_flags (set_r r part_init)).
  - apply list.Forall_cons in Hc as [Hr Hc]. apply list.Forall_cons in Hc as [Hs _].
    assert (Hr0 : r ≠ 0) by (intros ->; by apply Hz). rewrite <- !app_assoc. cbn [app]. rewrite <- !app_assoc. cbn [app].
    cbn [offset_counts]. cbn [here tail]. rewrite Z.eqb_refl, Hnum by done. destruct (Z.ltb_spec r 0); [lia|].
    cbn [p_r part_init]. rewrite Z.eqb_refl, (proj2 (Z.eqb_neq _ _) Hr0). cbn [here tail]. rewrite Z.eqb_refl, Hnum by done.
    destruct (Z.ltb_spec s 0); [lia|]. cbn [set_r p_r part_init]. rewrite (proj2 (Z.eqb_neq _ _) Hr0).
    cbn [mbind option_bind]. by apply (offset_flags (set_s s (set_r r part_init))).
Qed.

(** * Socket addresses *)

Lemma strchr_app c a s : forallb (λ x, negb (x =? c)) a = true → strchr (a ++ c :: s) c = Some (c :: s).
Proof.
  induction a as [|x a IH]; cbn; [by rewrite Z.eqb_refl|]. destruct (x =? c); cbn; [done|exact IH].
Qed.
Lemma strchr_none c a : forallb (λ x, negb (x =? c)) a = true → strchr a c = None.
Proof. induction a as [|x a IH]; cbn; [done|]. destruct (x =? c); cbn; [done|exact IH]. Qed.
Lemma dec_digit n : 0 <= n → isdigit (here (dec n)) = true.
Proof.
  intros Hn. unfold dec. destruct (Z.ltb_spec n 0); [lia|]. destruct (dec_nat_spec n Hn) as (l & -> & Hl & Hne & _).
  by apply forallb_here.
Qed.
Lemma port_of_dec v : 0 < v <= 65535 → port_of (Some (ch ":" :: dec v)) = Some (Some v).
Proof.
  intros Hv. unfold port_of. cbn [tail]. rewrite dec_digit by lia. rewrite <- (app_nil_r (dec v)).
  rewrite strtol_dec_any by (done || (unfold long_min, long_max; lia)). rewrite (proj2 (Z.leb_gt _ _)), (proj2 (Z.ltb_ge _ _)) by lia. done.
Qed.

(** The address that is set: its family, the host's address and, if one is given, the port. *)
Definition resolved (family : Z) (ip addr : bytes) : bytes :=
  set_family (if family =? AF_INET6 then set_sin6_addr addr ip else set_sin_addr addr ip) family.
Definition port_text (p : option Z) : bytes := match p with Some v => ch ":" :: dec v | None => [] end.
Definition with_port (p : option Z) (addr : bytes) : bytes := match p with Some v => set_port addr (enc16 v) | None => addr end.
Definition port_ok (p : option Z) : Prop := match p with Some v => 0 < v <= 65535 | None => True end.

Lemma get_addr_plain getaddrinfo host family ip addr p :
  getaddrinfo host = Some (family, ip) → host ≠ [] → here host ≠ ch "[" → forallb (λ c, negb (c =? ch ":")) host = true →
  port_ok p → get_addr getaddrinfo (host ++ port_text p) addr = Some (with_port p (resolved family ip addr)).
Proof.
  intros Hg Hne Hh Hc Hp. unfold get_addr. rewrite here_app by done. rewrite (proj2 (Z.eqb_neq _ _) Hh). cbn [mbind option_bind].
  destruct p as [v|]; cbn [port_text].
  - rewrite strchr_app by done. rewrite port_of_dec by done. cbn [mbind option_bind].
    rewrite length_app, Nat.add_sub, take_app_length. rewrite bool_decide_eq_false_2 by done. rewrite Hg. done.
  - rewrite app_nil_r, strchr_none by done. cbn [port_of mbind option_bind]. rewrite Nat.sub_0_r, take_ge by done.
    rewrite bool_decide_eq_false_2 by done. rewrite Hg. done.
Qed.
Lemma get_addr_brackets getaddrinfo host family ip addr p :
  getaddrinfo host = Some (family, ip) → host ≠ [] → forallb (λ c, negb (c =? ch "]")) host = true →
  port_ok p → get_addr getaddrinfo (ch "[" :: host ++ ch "]" :: port_text p) addr = Some (with_port p (resolved family ip addr)).
Proof.
  intros Hg Hne Hc Hp. unfold get_addr. cbn [here tail]. rewrite Z.eqb_refl.
  change (ch "[" :: host ++ ch "]" :: port_text p) with ((ch "[" :: host) ++ ch "]" :: port_text p).
  rewrite strchr_app by (by cbn; rewrite Hc). cbn [mbind option_bind tail app].
  destruct p as [v|]; cbn [port_text].
  - cbn [strchr]. rewrite Z.eqb_refl. rewrite port_of_dec by done. cbn [mbind option_bind].
    rewrite length_app, Nat.add_sub, take_app_length. rewrite bool_decide_eq_false_2 by done. rewrite Hg. done.
  - cbn [strchr port_of mbind option_bind]. rewrite length_app, Nat.add_sub, take_app_length.
    rewrite bool_decide_eq_false_2 by done. rewrite Hg. done.
Qed.

(** [getaddrinfo] answers with an address of one of the two families. *)
Definition finds_addresses (getaddrinfo : bytes → option (Z * bytes)) : Prop :=
  ∀ h f ip, getaddrinfo h = Some (f, ip) → f = AF_INET ∧ blen ip = 4 ∨ f = AF_INET6 ∧ blen ip = 16.

Lemma sa_family_set a f : 2 <= blen a → 0 <= f < 65536 → sa_family (set_family a f) = f.
Proof.
  intros Ha Hf. unfold sa_family, set_family. rewrite !bat_put by (rewrite ?blen_cons, ?blen_nil; lia).
  change (blen [u8 f; u8 (Z.shiftr f 8)]) with 2. cbn. change (bat [u8 f; u8 (Z.shiftr f 8)] 0) with (u8 f).
  change (bat [u8 f; u8 (Z.shiftr f 8)] 1) with (u8 (Z.shiftr f 8)). unfold u8. rewrite Z.shiftr_div_pow2 by lia.
  change (f mod 2 ^ 8 + 256 * ((f / 2 ^ 8) mod 2 ^ 8) = f). Z.to_euclidean_division_equations. lia.
Qed.
Lemma sa_family_port a p : 4 <= blen a → blen p = 2 → sa_family (set_port a p) = sa_family a.
Proof. intros Ha Hp. unfold sa_family, set_port. by rewrite !bat_put, Hp by (rewrite ?Hp; lia). Qed.

Lemma port_raw_set a v : 4 <= blen a → port_raw (set_port a (enc16 v)) = 256 * (v mod 256) + (v / 256) mod 256.
Proof.
  intros Ha. unfold port_raw, set_port. rewrite !bat_put by (rewrite ?blen_enc16; lia). rewrite blen_enc16.
  change ((u8 (Z.shiftr v 8)) + 256 * (u8 (Z.land v 255)) = 256 * (v mod 256) + (v / 256) mod 256).
  unfold u8. rewrite Z.shiftr_div_pow2 by lia. change 255 with (Z.ones 8). rewrite Z.land_ones by lia.
  change (2 ^ 8) with 256. rewrite Z.mod_mod by lia. lia.
Qed.
Lemma port_raw_put a i l : blen a = 28 → 4 <= i ∨ i + blen l <= 2 → 0 <= i → i + blen l <= 28 → port_raw (put a i l) = port_raw a.
Proof.
  intros Ha Hi H0 Hl. unfold port_raw. rewrite !bat_put by lia. pose proof (blen_nonneg l).
  destruct (Z.leb_spec i 2), (Z.ltb_spec 2 (i + blen l)), (Z.leb_spec i 3), (Z.ltb_spec 3 (i + blen l)); cbn [andb]; (lia || done).
Qed.
Lemma get_addr_ok getaddrinfo str a a' : finds_addresses getaddrinfo → blen a = 28 → get_addr getaddrinfo str a = Some a' →
  blen a' = 28 ∧ (sa_family a' = sa_family a ∨ sa_family a' = AF_INET ∨ sa_family a' = AF_INET6) ∧
  (port_raw a ≠ 0 → port_raw a' ≠ 0).
Proof.
  intros Hg Ha. unfold get_addr. destruct (if here str =? ch "[" then _ else _) as [br|]; [|done]. cbn [mbind option_bind].
  destruct (port_of _) as [port|] eqn:Ep; [|done]. cbn [mbind option_bind].
  match goal with |- context [take ?n ?l] => set (host := take n l) end.
  destruct (if bool_decide (host = []) then _ else _) as [b|] eqn:Eb; [|done]. cbn [mbind option_bind].
  assert (Hb : blen b = 28 ∧ (sa_family b = sa_family a ∨ sa_family b = AF_INET ∨ sa_family b = AF_INET6) ∧ port_raw b = port_raw a).
  { case_bool_decide; [injection Eb as <-; auto|]. destruct (getaddrinfo host) as [[f ip]|] eqn:E; [|done].
    cbn [mbind option_bind] in Eb. injection Eb as <-. unfold set_family, set_sin6_addr, set_sin_addr.
    destruct (Hg _ _ _ E) as [[-> Hi]|[-> Hi]]; cbn [Z.eqb Pos.eqb AF_INET AF_INET6].
    - assert (blen (put a 4 ip) = 28) by (rewrite blen_put; lia). split; [rewrite blen_put; rewrite ?blen_cons, ?blen_nil; lia|].
      split; [right; left; apply (sa_family_set (put a 4 ip) AF_INET); [lia|by vm_compute]|].
      rewrite port_raw_put by (rewrite ?blen_cons, ?blen_nil; lia). apply port_raw_put; lia.
    - assert (blen (put a 8 ip) = 28) by (rewrite blen_put; lia). split; [rewrite blen_put; rewrite ?blen_cons, ?blen_nil; lia|].
      split; [right; right; apply (sa_family_set (put a 8 ip) AF_INET6); [lia|by vm_compute]|].
      rewrite port_raw_put by (rewrite ?blen_cons, ?blen_nil; lia). apply port_raw_put; lia. }
  destruct Hb as (Hb & Hf & Hpr). destruct port as [v|]; intros [= <-]; [|by rewrite Hpr].
  rewrite sa_family_port by (rewrite ?blen_enc16; lia). split; [unfold set_port; rewrite blen_put; rewrite ?blen_enc16; lia|].
  split; [done|]. intros _. rewrite port_raw_set by lia. assert (0 < v <= 65535).
  { unfold port_of in Ep. destruct (strchr _ _) as [p|]; [|done]. destruct (isdigit _); [|done].
    destruct (strtol 0 (tail p)) as [w e]. destruct (Z.leb_spec w 0); [done|]. destruct (Z.ltb_spec 65535 w); [done|].
    destruct (negb _); [done|]. injection Ep as <-. lia. }
  Z.to_euclidean_division_equations. lia.
Qed.
Lemma get_addr_scheme_ok getaddrinfo str a mode a' : finds_addresses getaddrinfo → blen a = 28 →
  get_addr_scheme getaddrinfo str a = Some (mode, a') →
  0 <= mode < 128 ∧ blen a' = 28 ∧ (sa_family a' = sa_family a ∨ sa_family a' = AF_INET ∨ sa_family a' = AF_INET6) ∧
  (port_raw a ≠ 0 → port_raw a' ≠ 0).
Proof.
  intros Hg Ha. unfold get_addr_scheme.
  assert (Hm : ∀ x, find (λ x, bool_decide (take (length x.1) str = x.1)) schemes = Some x → 0 <= x.2 < 128).
  { intros x [Hx _]%find_some. cbn in Hx. repeat (destruct Hx as [<-|Hx]; [by vm_compute|]). done. }
  destruct (find _ schemes) as [[sc m]|] eqn:E.
  - specialize (Hm _ eq_refl). destruct (get_addr getaddrinfo _ a) as [b|] eqn:Eg; [|done]. intros [= <- <-].
    split; [exact Hm|]. by eapply get_addr_ok.
  - destruct (get_addr getaddrinfo _ a) as [b|] eqn:Eg; [|done]. intros [= <- <-]. split; [lia|]. by eapply get_addr_ok.
Qed.

(** A part with counts that are not negative. *)
Definition part_ok (p : part) : Prop := 0 <= p_r p <= long_max ∧ 0 <= p_s p <= long_max.
Lemma strtol_range base s : long_min <= (strtol base s).1 <= long_max.
Proof.
  unfold strtol. destruct (strto base s) as [[[neg v] e]|]; [|by vm_compute]. cbn. unfold clamp, long_min, long_max. lia.
Qed.
Lemma offset_counts_ok fuel p e p' e' : part_ok p → offset_counts fuel p e = Some (p', e') → part_ok p'.
Proof.
  revert p e. induction fuel as [|fuel IH]; intros p e Hp; cbn [offset_counts]; [by intros [= <- _]|].
  destruct (here e =? ch ":"); [|by intros [= <- _]]. pose proof (strtol_range 0 (tail e)) as Hr.
  destruct (strtol 0 (tail e)) as [rs r]. cbn in Hr. destruct (Z.ltb_spec rs 0); [done|].
  destruct (p_r p =? 0).
  - destruct (rs =? 0); [done|]. apply IH. split; [cbn; lia|apply Hp].
  - intros [= <- _]. split; [apply Hp|cbn; lia].
Qed.
Lemma parse_offset_ok p str p' : part_ok p → parse_offset p str = Some p' → part_ok p'.
Proof.
  intros Hp. unfold parse_offset. destruct (strtol 0 str) as [val e]. destruct (offset_counts 2 p e) as [[q r]|] eqn:E; [|done].
  apply offset_counts_ok in E; [|done]. cbn [mbind option_bind].
  assert (Hset : ∀ f, part_ok (set_flag f q)) by done. destruct (here r =? ch "+").
  - destruct (here (tail r) =? ch "s"); [|destruct (here (tail r) =? ch "h"); [|destruct (here (tail r) =? ch "n"); [|done]]];
      cbn [mbind option_bind]; intros [= <-];
      repeat (match goal with |- context [if ?b then _ else _] => destruct b end); done.
  - destruct (here r =? 0); [|done]. by intros [= <-].
Qed.

(** * Properties *)

(** C17: A text in which every byte of the data is spelt in any of the ways there are (itself, a
    letter behind a backslash, two digits in base 16, three in base 8) is read back as the data;
    the buffer, of the length of the text, is long enough. *)
Theorem cform_roundtrip ws data junk : Forall2 spelt ws data → data ≠ [] → fresh junk →
  data_from_str junk (mjoin ws) = Ok (Some data).
Proof. apply data_from_spelt. Qed.

Lemma cform_roundtrip_witness :
  data_from_str (λ n, repeat 205 (Z.to_nat n)) (bs "G\n\x1f\101") = Ok (Some [71; 10; 31; 65]).
Proof.
  apply (cform_roundtrip [bs "G"; bs "\n"; bs "\x1f"; bs "\101"]); [|done|].
  - constructor; [by constructor|]. constructor; [by apply (spelt_letter (ch "n"))|].
    constructor; [by apply (spelt_hex (ch "1") (ch "f") 1 15)|].
    constructor; [by apply (spelt_oct (ch "1") (ch "0") (ch "1") 1 0 1)|constructor].
  - intros n Hn. split; [rewrite blen_repeat; lia|]. induction (Z.to_nat n); constructor; [by vm_compute|done].
Defined.

Lemma host_words_wf b h : bytes_wf b → h ∈ omap host_of (words [] b) → bytes_wf h.
Proof.
  intros Hb (w & Hw & Ew)%list_elem_of_omap.
  assert (Hwf : ∀ w0 b, bytes_wf w0 → bytes_wf b → ∀ w, w ∈ words w0 b → bytes_wf w).
  { intros w0 b0 Hw0 Hb0. revert w0 Hw0. induction Hb0 as [|c b0 Hc Hb0 IH]; intros w0 Hw0 v; cbn [words].
    - case_bool_decide; [by intros ?%elem_of_nil|by intros ->%list_elem_of_singleton].
    - destruct (separator c); [|apply IH, Forall_app; split; [done|by constructor]].
      intros [Hv|Hv]%elem_of_app; [|exact (IH [] (Forall_nil_2 _) v Hv)]. case_bool_decide; [by apply elem_of_nil in Hv|by apply list_elem_of_singleton in Hv as ->]. }
  specialize (Hwf [] b (Forall_nil_2 _) Hb w Hw). clear Hw. unfold host_of in Ew. apply mapM_Some_1 in Ew.
  induction Ew as [|c c' w l Hc Hl IH]; [constructor|]. apply list.Forall_cons in Hwf as [H1 H2]. constructor; [by eapply lower_char_byte|by apply IH].
Qed.

(** C13: What a list of hosts means: after [parse_hosts] has read any text, any name is found, with an
    element no longer than it as [check_host] asks for, exactly when it is, or is a subdomain of, one of the
    words of the text between separators, in lower case, that have only characters of hosts.  This is
    for lists in which no such word is another one with a character below the dot in front, which is to say a
    dash: with my-google.com and google.com in one list, subdomains of google.com may be
    missed ([Mpool.host_cmp_dash_misses]). *)
Theorem hosts_list_matches flags buffer name : let hosts := omap host_of (words [] buffer) in
  bytes_wf buffer → bytes_wf name → dash_free hosts →
  ∃ hdr, parse_hosts (mem_pool flags CMP_HOST) buffer (blen buffer) = Ok hdr ∧
    ((∃ e, mem_get hdr name (blen name) = Some e ∧ e_len e <= blen name) ↔
     ∃ w h, w ∈ words [] buffer ∧ host_of w = Some h ∧ in_domain name h).
Proof.
  intros hosts Hb Hn Hd. rewrite parse_hosts_ok by done. fold hosts.
  destruct (names_pool_matches hosts Hd hosts flags name Hn) as (hdr & E & H).
  { apply Forall_forall. intros h Hh. split; [by apply (host_words_wf buffer)|done]. }
  exists hdr. split; [exact E|]. rewrite H. split.
  - intros (h & Hh & Hdom). apply list_elem_of_omap in Hh as (w & Hw & Ew). by exists w, h.
  - intros (w & h & Hw & Ew & Hdom). exists h. split; [|done]. apply list_elem_of_omap. by exists w.
Qed.

Lemma hosts_list_matches_witness :
  let buffer := bs "X.Org  no_host my-host.net" in let name := bs "a-b.my-host.net" in
  ∃ hdr, parse_hosts (mem_pool MF_STATIC CMP_HOST) buffer (blen buffer) = Ok hdr ∧
    ((∃ e, mem_get hdr name (blen name) = Some e ∧ e_len e <= blen name) ↔
     ∃ w h, w ∈ words [] buffer ∧ host_of w = Some h ∧ in_domain name h).
Proof.
  apply hosts_list_matches.
  - unfold bytes_wf, is_byte. repeat constructor; discriminate.
  - unfold bytes_wf, is_byte. repeat constructor; discriminate.
  - apply dash_free_b. vm_compute. reflexivity.
Defined.

(** C14: What a set of addresses means: after [parse_ipset] has read any text, the first [n] bits of
    a key are found exactly when they begin with the bits of one of the networks of the text, or
    are themselves the beginning of one, as of a network of IPv6 whose first 32 bits are
    the IPv4 address that is looked up.  The networks are the words between separators that
    are an address of either family and, behind a slash, no number or one above zero,
    of which the address has no fewer bits. *)
Theorem ipset_matches pton flags buffer key n :
  (∀ f s a, f = AF_INET ∨ f = AF_INET6 → pton f s = Some a → bytes_wf a ∧ blen a = ip_size f) →
  bytes_wf key → 0 <= n <= 8 * blen key →
  ∃ hdr, parse_ipset pton (mem_pool flags CMP_BITS) buffer (blen buffer) = Ok hdr ∧
    (is_Some (mem_get hdr key n) ↔ ∃ w a m, w ∈ words [] buffer ∧ net_of pton w = Some (a, m) ∧
       (take (Z.to_nat m) (all_bits a) `prefix_of` take (Z.to_nat n) (all_bits key) ∨
        take (Z.to_nat n) (all_bits key) `prefix_of` take (Z.to_nat m) (all_bits a))).
Proof.
  intros Hpton Hk Hn. rewrite (parse_ipset_ok pton Hpton).
  destruct (bit_pool_finds (nets_of pton buffer) flags key n) as (hdr & E & H).
  { constructor; [done|]. by apply nets_wf. }
  exists hdr. split; [exact E|]. rewrite H. unfold nets_of. split.
  - intros (a & m & Hin & Hp). apply list_elem_of_omap in Hin as (w & Hw & Ew). by exists w, a, m.
  - intros (w & a & m & Hw & Ew & Hp). exists a, m. split; [|done]. apply list_elem_of_omap. by exists w.
Qed.

Lemma ipset_matches_witness :
  let buffer := bs "10.0.0.0/8 1.2.3.4/0 5.6.7.8" in
  ∃ hdr, parse_ipset plain_pton (mem_pool 0 CMP_BITS) buffer (blen buffer) = Ok hdr ∧
    (is_Some (mem_get hdr [10; 1; 2; 3] 32) ↔
     ∃ w a m, w ∈ words [] buffer ∧ net_of plain_pton w = Some (a, m) ∧
       (take (Z.to_nat m) (all_bits a) `prefix_of` take (Z.to_nat 32) (all_bits [10; 1; 2; 3]) ∨
        take (Z.to_nat 32) (all_bits [10; 1; 2; 3]) `prefix_of` take (Z.to_nat m) (all_bits a))).
Proof.
  apply ipset_matches; [apply (pton_size (ntop := plain_ntop))| |done].
  unfold bytes_wf, is_byte. repeat constructor; discriminate.
Defined.

(** A position that is written in the documented way -- a number, up to two counts behind
    colons of which the first is not zero, and behind a plus the place it counts from and the
    point of it -- is read back by [parse_offset]. *)
Theorem offset_roundtrip pos counts f :
  long_min <= pos <= long_max → Forall (λ n, 0 <= n <= long_max) counts → (length counts ≤ 2)%nat → head counts ≠ Some 0 →
  parse_offset part_init (offset_text pos counts f) =
    Some (Part DESYNC_NONE (flags_value f) pos (default 0 (head counts)) (default 0 (counts !! 1%nat))).
Proof. apply parse_offset_text. Qed.

Lemma offset_roundtrip_witness :
  parse_offset part_init (bs "-5:3:0+sm") = Some (Part DESYNC_NONE (Z.lor OFFSET_SNI OFFSET_MID) (-5) 3 0).
Proof.
  apply (offset_roundtrip (-5) [3; 0] (Some (place_sni, Some align_mid))); [done| |cbn; lia|done].
  repeat constructor; discriminate.
Defined.

(** [get_addr] takes an address that the system knows, alone or with a port behind a colon: of
    a host without colons as it is, of any other in brackets; the address and its family are set,
    the port when there is one, and nothing else. *)
Theorem addr_roundtrip getaddrinfo host family ip addr p :
  getaddrinfo host = Some (family, ip) → host ≠ [] → port_ok p →
  (here host ≠ ch "[" → forallb (λ c, negb (c =? ch ":")) host = true →
    get_addr getaddrinfo (host ++ port_text p) addr = Some (with_port p (resolved family ip addr))) ∧
  (forallb (λ c, negb (c =? ch "]")) host = true →
    get_addr getaddrinfo (ch "[" :: host ++ ch "]" :: port_text p) addr = Some (with_port p (resolved family ip addr))).
Proof. intros Hg Hne Hp. split; intros; [by apply get_addr_plain|by apply get_addr_brackets]. Qed.

Lemma addr_roundtrip_witness :
  get_addr (λ s, (λ a, (AF_INET, a)) <$> plain_pton AF_INET s) (bs "127.0.0.1:1080") (repeat 0 28) =
    Some ([2; 0; 4; 56; 127; 0; 0; 1] ++ repeat 0 20).
Proof.
  refine (proj1 (addr_roundtrip (λ s, (λ a, (AF_INET, a)) <$> plain_pton AF_INET s) (bs "127.0.0.1") AF_INET [127; 0; 0; 1]
    (repeat 0 28) (Some 1080) _ _ _) _ _); done.
Defined.

(** An IPv6 address without brackets is refused, when its second group begins with a digit: the
    digits behind the first colon are taken for the port. *)
Lemma get_addr_refuses_ipv6 getaddrinfo addr : get_addr getaddrinfo (bs "2001:1::2") addr = None.
Proof. reflexivity. Qed.

(** What is behind the second flag of a position is not looked at. *)
Lemma parse_offset_ignores_rest : parse_offset part_init (bs "1+sm:9") = parse_offset part_init (bs "1+sm").
Proof. reflexivity. Qed.
