(* ===== verification/Options.v ===== *)
(** byedpi main.c: the options of the command line.

    The state is that of [parse_args]: the fields of [struct params], the groups in the order of
    their numbers, which are their places in memory, the local variables, and what
    [getopt_long] goes by. *)
From Stdlib Require Import ZArith Lia Ascii String.
From stdpp Require Import base numbers list option sorting.
From S2P Require Import Prelude CMem Text PacketsHttp Mpool HostPool Params Inet DList Extend Groups Cache CacheFile OptText.

#[local] Open Scope Z_scope.
#[local] Open Scope list_scope.

(** * State *)

Definition set_dp_ttl (v : Z) (x : desync_params) : desync_params := DesyncParams v (dp_fake_data x)
    (dp_udp_fake_count x) (dp_fake_offset x) (dp_fake_sni_list x) (dp_fake_mod x) (dp_fake_tls_size x)
    (dp_oob_char x) (dp_parts x) (dp_mod_http x) (dp_tlsrec x) (dp_tlsminor x) (dp_proto x) (dp_detect x)
    (dp_auto_level x) (dp_hosts x) (dp_ipset x) (dp_pf x) (dp_rounds x) (dp_out_type x) (dp_out_addr x) (dp_id x)
    (dp_bit x) (dp_fail_count x) (dp_pri x) (dp_cache_ttl x) (dp_prev x) (dp_next x).
Definition set_dp_fake_data (v : option packet) (x : desync_params) : desync_params := DesyncParams
    (dp_ttl x) v (dp_udp_fake_count x) (dp_fake_offset x) (dp_fake_sni_list x) (dp_fake_mod x)
    (dp_fake_tls_size x) (dp_oob_char x) (dp_parts x) (dp_mod_http x) (dp_tlsrec x) (dp_tlsminor x) (dp_proto x)
    (dp_detect x) (dp_auto_level x) (dp_hosts x) (dp_ipset x) (dp_pf x) (dp_rounds x) (dp_out_type x)
    (dp_out_addr x) (dp_id x) (dp_bit x) (dp_fail_count x) (dp_pri x) (dp_cache_ttl x) (dp_prev x) (dp_next x).
Definition set_dp_udp_fake_count (v : Z) (x : desync_params) : desync_params := DesyncParams (dp_ttl x)
    (dp_fake_data x) v (dp_fake_offset x) (dp_fake_sni_list x) (dp_fake_mod x) (dp_fake_tls_size x)
    (dp_oob_char x) (dp_parts x) (dp_mod_http x) (dp_tlsrec x) (dp_tlsminor x) (dp_proto x) (dp_detect x)
    (dp_auto_level x) (dp_hosts x) (dp_ipset x) (dp_pf x) (dp_rounds x) (dp_out_type x) (dp_out_addr x) (dp_id x)
    (dp_bit x) (dp_fail_count x) (dp_pri x) (dp_cache_ttl x) (dp_prev x) (dp_next x).
Definition set_dp_fake_offset (v : part) (x : desync_params) : desync_params := DesyncParams (dp_ttl x)
    (dp_fake_data x) (dp_udp_fake_count x) v (dp_fake_sni_list x) (dp_fake_mod x) (dp_fake_tls_size x)
    (dp_oob_char x) (dp_parts x) (dp_mod_http x) (dp_tlsrec x) (dp_tlsminor x) (dp_proto x) (dp_detect x)
    (dp_auto_level x) (dp_hosts x) (dp_ipset x) (dp_pf x) (dp_rounds x) (dp_out_type x) (dp_out_addr x) (dp_id x)
    (dp_bit x) (dp_fail_count x) (dp_pri x) (dp_cache_ttl x) (dp_prev x) (dp_next x).
Definition set_dp_fake_sni_list (v : list bytes) (x : desync_params) : desync_params := DesyncParams
    (dp_ttl x) (dp_fake_data x) (dp_udp_fake_count x) (dp_fake_offset x) v (dp_fake_mod x) (dp_fake_tls_size x)
    (dp_oob_char x) (dp_parts x) (dp_mod_http x) (dp_tlsrec x) (dp_tlsminor x) (dp_proto x) (dp_detect x)
    (dp_auto_level x) (dp_hosts x) (dp_ipset x) (dp_pf x) (dp_rounds x) (dp_out_type x) (dp_out_addr x) (dp_id x)
    (dp_bit x) (dp_fail_count x) (dp_pri x) (dp_cache_ttl x) (dp_prev x) (dp_next x).
Definition set_dp_fake_mod (v : Z) (x : desync_params) : desync_params := DesyncParams (dp_ttl x)
    (dp_fake_data x) (dp_udp_fake_count x) (dp_fake_offset x) (dp_fake_sni_list x) v (dp_fake_tls_size x)
    (dp_oob_char x) (dp_parts x) (dp_mod_http x) (dp_tlsrec x) (dp_tlsminor x) (dp_proto x) (dp_detect x)
    (dp_auto_level x) (dp_hosts x) (dp_ipset x) (dp_pf x) (dp_rounds x) (dp_out_type x) (dp_out_addr x) (dp_id x)
    (dp_bit x) (dp_fail_count x) (dp_pri x) (dp_cache_ttl x) (dp_prev x) (dp_next x).
Definition set_dp_fake_tls_size (v : Z) (x : desync_params) : desync_params := DesyncParams (dp_ttl x)
    (dp_fake_data x) (dp_udp_fake_count x) (dp_fake_offset x) (dp_fake_sni_list x) (dp_fake_mod x) v
    (dp_oob_char x) (dp_parts x) (dp_mod_http x) (dp_tlsrec x) (dp_tlsminor x) (dp_proto x) (dp_detect x)
    (dp_auto_level x) (dp_hosts x) (dp_ipset x) (dp_pf x) (dp_rounds x) (dp_out_type x) (dp_out_addr x) (dp_id x)
    (dp_bit x) (dp_fail_count x) (dp_pri x) (dp_cache_ttl x) (dp_prev x) (dp_next x).
Definition set_dp_oob_char (v : Z * Z) (x : desync_params) : desync_params := DesyncParams (dp_ttl x)
    (dp_fake_data x) (dp_udp_fake_count x) (dp_fake_offset x) (dp_fake_sni_list x) (dp_fake_mod x)
    (dp_fake_tls_size x) v (dp_parts x) (dp_mod_http x) (dp_tlsrec x) (dp_tlsminor x) (dp_proto x) (dp_detect x)
    (dp_auto_level x) (dp_hosts x) (dp_ipset x) (dp_pf x) (dp_rounds x) (dp_out_type x) (dp_out_addr x) (dp_id x)
    (dp_bit x) (dp_fail_count x) (dp_pri x) (dp_cache_ttl x) (dp_prev x) (dp_next x).
Definition set_dp_parts (v : list part) (x : desync_params) : desync_params := DesyncParams (dp_ttl x)
    (dp_fake_data x) (dp_udp_fake_count x) (dp_fake_offset x) (dp_fake_sni_list x) (dp_fake_mod x)
    (dp_fake_tls_size x) (dp_oob_char x) v (dp_mod_http x) (dp_tlsrec x) (dp_tlsminor x) (dp_proto x)
    (dp_detect x) (dp_auto_level x) (dp_hosts x) (dp_ipset x) (dp_pf x) (dp_rounds x) (dp_out_type x)
    (dp_out_addr x) (dp_id x) (dp_bit x) (dp_fail_count x) (dp_pri x) (dp_cache_ttl x) (dp_prev x) (dp_next x).
Definition set_dp_mod_http (v : Z) (x : desync_params) : desync_params := DesyncParams (dp_ttl x)
    (dp_fake_data x) (dp_udp_fake_count x) (dp_fake_offset x) (dp_fake_sni_list x) (dp_fake_mod x)
    (dp_fake_tls_size x) (dp_oob_char x) (dp_parts x) v (dp_tlsrec x) (dp_tlsminor x) (dp_proto x) (dp_detect x)
    (dp_auto_level x) (dp_hosts x) (dp_ipset x) (dp_pf x) (dp_rounds x) (dp_out_type x) (dp_out_addr x) (dp_id x)
    (dp_bit x) (dp_fail_count x) (dp_pri x) (dp_cache_ttl x) (dp_prev x) (dp_next x).
Definition set_dp_tlsrec (v : list part) (x : desync_params) : desync_params := DesyncParams (dp_ttl x)
    (dp_fake_data x) (dp_udp_fake_count x) (dp_fake_offset x) (dp_fake_sni_list x) (dp_fake_mod x)
    (dp_fake_tls_size x) (dp_oob_char x) (dp_parts x) (dp_mod_http x) v (dp_tlsminor x) (dp_proto x)
    (dp_detect x) (dp_auto_level x) (dp_hosts x) (dp_ipset x) (dp_pf x) (dp_rounds x) (dp_out_type x)
    (dp_out_addr x) (dp_id x) (dp_bit x) (dp_fail_count x) (dp_pri x) (dp_cache_ttl x) (dp_prev x) (dp_next x).
Definition set_dp_tlsminor (v : option Z) (x : desync_params) : desync_params := DesyncParams (dp_ttl x)
    (dp_fake_data x) (dp_udp_fake_count x) (dp_fake_offset x) (dp_fake_sni_list x) (dp_fake_mod x)
    (dp_fake_tls_size x) (dp_oob_char x) (dp_parts x) (dp_mod_http x) (dp_tlsrec x) v (dp_proto x) (dp_detect x)
    (dp_auto_level x) (dp_hosts x) (dp_ipset x) (dp_pf x) (dp_rounds x) (dp_out_type x) (dp_out_addr x) (dp_id x)
    (dp_bit x) (dp_fail_count x) (dp_pri x) (dp_cache_ttl x) (dp_prev x) (dp_next x).
Definition set_dp_proto (v : Z) (x : desync_params) : desync_params := DesyncParams (dp_ttl x)
    (dp_fake_data x) (dp_udp_fake_count x) (dp_fake_offset x) (dp_fake_sni_list x) (dp_fake_mod x)
    (dp_fake_tls_size x) (dp_oob_char x) (dp_parts x) (dp_mod_http x) (dp_tlsrec x) (dp_tlsminor x) v
    (dp_detect x) (dp_auto_level x) (dp_hosts x) (dp_ipset x) (dp_pf x) (dp_rounds x) (dp_out_type x)
    (dp_out_addr x) (dp_id x) (dp_bit x) (dp_fail_count x) (dp_pri x) (dp_cache_ttl x) (dp_prev x) (dp_next x).
Definition set_dp_hosts (v : option mphdr) (x : desync_params) : desync_params := DesyncParams (dp_ttl x)
    (dp_fake_data x) (dp_udp_fake_count x) (dp_fake_offset x) (dp_fake_sni_list x) (dp_fake_mod x)
    (dp_fake_tls_size x) (dp_oob_char x) (dp_parts x) (dp_mod_http x) (dp_tlsrec x) (dp_tlsminor x) (dp_proto x)
    (dp_detect x) (dp_auto_level x) v (dp_ipset x) (dp_pf x) (dp_rounds x) (dp_out_type x) (dp_out_addr x)
    (dp_id x) (dp_bit x) (dp_fail_count x) (dp_pri x) (dp_cache_ttl x) (dp_prev x) (dp_next x).
Definition set_dp_ipset (v : option mphdr) (x : desync_params) : desync_params := DesyncParams (dp_ttl x)
    (dp_fake_data x) (dp_udp_fake_count x) (dp_fake_offset x) (dp_fake_sni_list x) (dp_fake_mod x)
    (dp_fake_tls_size x) (dp_oob_char x) (dp_parts x) (dp_mod_http x) (dp_tlsrec x) (dp_tlsminor x) (dp_proto x)
    (dp_detect x) (dp_auto_level x) (dp_hosts x) v (dp_pf x) (dp_rounds x) (dp_out_type x) (dp_out_addr x)
    (dp_id x) (dp_bit x) (dp_fail_count x) (dp_pri x) (dp_cache_ttl x) (dp_prev x) (dp_next x).
Definition set_dp_pf (v : Z * Z) (x : desync_params) : desync_params := DesyncParams (dp_ttl x)
    (dp_fake_data x) (dp_udp_fake_count x) (dp_fake_offset x) (dp_fake_sni_list x) (dp_fake_mod x)
    (dp_fake_tls_size x) (dp_oob_char x) (dp_parts x) (dp_mod_http x) (dp_tlsrec x) (dp_tlsminor x) (dp_proto x)
    (dp_detect x) (dp_auto_level x) (dp_hosts x) (dp_ipset x) v (dp_rounds x) (dp_out_type x) (dp_out_addr x)
    (dp_id x) (dp_bit x) (dp_fail_count x) (dp_pri x) (dp_cache_ttl x) (dp_prev x) (dp_next x).
Definition set_dp_rounds (v : Z * Z) (x : desync_params) : desync_params := DesyncParams (dp_ttl x)
    (dp_fake_data x) (dp_udp_fake_count x) (dp_fake_offset x) (dp_fake_sni_list x) (dp_fake_mod x)
    (dp_fake_tls_size x) (dp_oob_char x) (dp_parts x) (dp_mod_http x) (dp_tlsrec x) (dp_tlsminor x) (dp_proto x)
    (dp_detect x) (dp_auto_level x) (dp_hosts x) (dp_ipset x) (dp_pf x) v (dp_out_type x) (dp_out_addr x)
    (dp_id x) (dp_bit x) (dp_fail_count x) (dp_pri x) (dp_cache_ttl x) (dp_prev x) (dp_next x).
Definition set_dp_out_type (v : Z) (x : desync_params) : desync_params := DesyncParams (dp_ttl x)
    (dp_fake_data x) (dp_udp_fake_count x) (dp_fake_offset x) (dp_fake_sni_list x) (dp_fake_mod x)
    (dp_fake_tls_size x) (dp_oob_char x) (dp_parts x) (dp_mod_http x) (dp_tlsrec x) (dp_tlsminor x) (dp_proto x)
    (dp_detect x) (dp_auto_level x) (dp_hosts x) (dp_ipset x) (dp_pf x) (dp_rounds x) v (dp_out_addr x) (dp_id x)
    (dp_bit x) (dp_fail_count x) (dp_pri x) (dp_cache_ttl x) (dp_prev x) (dp_next x).
Definition set_dp_out_addr (v : bytes) (x : desync_params) : desync_params := DesyncParams (dp_ttl x)
    (dp_fake_data x) (dp_udp_fake_count x) (dp_fake_offset x) (dp_fake_sni_list x) (dp_fake_mod x)
    (dp_fake_tls_size x) (dp_oob_char x) (dp_parts x) (dp_mod_http x) (dp_tlsrec x) (dp_tlsminor x) (dp_proto x)
    (dp_detect x) (dp_auto_level x) (dp_hosts x) (dp_ipset x) (dp_pf x) (dp_rounds x) (dp_out_type x) v (dp_id x)
    (dp_bit x) (dp_fail_count x) (dp_pri x) (dp_cache_ttl x) (dp_prev x) (dp_next x).
Definition set_dp_id (v : Z) (x : desync_params) : desync_params := DesyncParams (dp_ttl x) (dp_fake_data x)
    (dp_udp_fake_count x) (dp_fake_offset x) (dp_fake_sni_list x) (dp_fake_mod x) (dp_fake_tls_size x)
    (dp_oob_char x) (dp_parts x) (dp_mod_http x) (dp_tlsrec x) (dp_tlsminor x) (dp_proto x) (dp_detect x)
    (dp_auto_level x) (dp_hosts x) (dp_ipset x) (dp_pf x) (dp_rounds x) (dp_out_type x) (dp_out_addr x) v
    (dp_bit x) (dp_fail_count x) (dp_pri x) (dp_cache_ttl x) (dp_prev x) (dp_next x).
Definition set_dp_bit (v : Z) (x : desync_params) : desync_params := DesyncParams (dp_ttl x) (dp_fake_data x)
    (dp_udp_fake_count x) (dp_fake_offset x) (dp_fake_sni_list x) (dp_fake_mod x) (dp_fake_tls_size x)
    (dp_oob_char x) (dp_parts x) (dp_mod_http x) (dp_tlsrec x) (dp_tlsminor x) (dp_proto x) (dp_detect x)
    (dp_auto_level x) (dp_hosts x) (dp_ipset x) (dp_pf x) (dp_rounds x) (dp_out_type x) (dp_out_addr x) (dp_id x)
    v (dp_fail_count x) (dp_pri x) (dp_cache_ttl x) (dp_prev x) (dp_next x).
Definition set_dp_cache_ttl (v : Z) (x : desync_params) : desync_params := DesyncParams (dp_ttl x)
    (dp_fake_data x) (dp_udp_fake_count x) (dp_fake_offset x) (dp_fake_sni_list x) (dp_fake_mod x)
    (dp_fake_tls_size x) (dp_oob_char x) (dp_parts x) (dp_mod_http x) (dp_tlsrec x) (dp_tlsminor x) (dp_proto x)
    (dp_detect x) (dp_auto_level x) (dp_hosts x) (dp_ipset x) (dp_pf x) (dp_rounds x) (dp_out_type x)
    (dp_out_addr x) (dp_id x) (dp_bit x) (dp_fail_count x) (dp_pri x) v (dp_prev x) (dp_next x).
Definition set_pr_await_int (v : Z) (x : params) : params := Params v (pr_wait_send x) (pr_def_ttl x)
    (pr_custom_ttl x) (pr_timeout x) (pr_ptimeout x) (pr_to_count_lim x) (pr_to_bytes_lim x) (pr_cache_pre x)
    (pr_mode x) (pr_ipv6 x) (pr_resolve x) (pr_udp x) (pr_delay_conn x) (pr_auto_reconnect x) (pr_max_open x)
    (pr_debug x) (pr_bfsize x) (pr_baddr x) (pr_dp_full_mask x).
Definition set_pr_wait_send (v : bool) (x : params) : params := Params (pr_await_int x) v (pr_def_ttl x)
    (pr_custom_ttl x) (pr_timeout x) (pr_ptimeout x) (pr_to_count_lim x) (pr_to_bytes_lim x) (pr_cache_pre x)
    (pr_mode x) (pr_ipv6 x) (pr_resolve x) (pr_udp x) (pr_delay_conn x) (pr_auto_reconnect x) (pr_max_open x)
    (pr_debug x) (pr_bfsize x) (pr_baddr x) (pr_dp_full_mask x).
Definition set_pr_def_ttl (v : Z) (x : params) : params := Params (pr_await_int x) (pr_wait_send x) v
    (pr_custom_ttl x) (pr_timeout x) (pr_ptimeout x) (pr_to_count_lim x) (pr_to_bytes_lim x) (pr_cache_pre x)
    (pr_mode x) (pr_ipv6 x) (pr_resolve x) (pr_udp x) (pr_delay_conn x) (pr_auto_reconnect x) (pr_max_open x)
    (pr_debug x) (pr_bfsize x) (pr_baddr x) (pr_dp_full_mask x).
Definition set_pr_custom_ttl (v : bool) (x : params) : params := Params (pr_await_int x) (pr_wait_send x)
    (pr_def_ttl x) v (pr_timeout x) (pr_ptimeout x) (pr_to_count_lim x) (pr_to_bytes_lim x) (pr_cache_pre x)
    (pr_mode x) (pr_ipv6 x) (pr_resolve x) (pr_udp x) (pr_delay_conn x) (pr_auto_reconnect x) (pr_max_open x)
    (pr_debug x) (pr_bfsize x) (pr_baddr x) (pr_dp_full_mask x).
Definition set_pr_timeout (v : Z) (x : params) : params := Params (pr_await_int x) (pr_wait_send x)
    (pr_def_ttl x) (pr_custom_ttl x) v (pr_ptimeout x) (pr_to_count_lim x) (pr_to_bytes_lim x) (pr_cache_pre x)
    (pr_mode x) (pr_ipv6 x) (pr_resolve x) (pr_udp x) (pr_delay_conn x) (pr_auto_reconnect x) (pr_max_open x)
    (pr_debug x) (pr_bfsize x) (pr_baddr x) (pr_dp_full_mask x).
Definition set_pr_ptimeout (v : Z) (x : params) : params := Params (pr_await_int x) (pr_wait_send x)
    (pr_def_ttl x) (pr_custom_ttl x) (pr_timeout x) v (pr_to_count_lim x) (pr_to_bytes_lim x) (pr_cache_pre x)
    (pr_mode x) (pr_ipv6 x) (pr_resolve x) (pr_udp x) (pr_delay_conn x) (pr_auto_reconnect x) (pr_max_open x)
    (pr_debug x) (pr_bfsize x) (pr_baddr x) (pr_dp_full_mask x).
Definition set_pr_to_count_lim (v : Z) (x : params) : params := Params (pr_await_int x) (pr_wait_send x)
    (pr_def_ttl x) (pr_custom_ttl x) (pr_timeout x) (pr_ptimeout x) v (pr_to_bytes_lim x) (pr_cache_pre x)
    (pr_mode x) (pr_ipv6 x) (pr_resolve x) (pr_udp x) (pr_delay_conn x) (pr_auto_reconnect x) (pr_max_open x)
    (pr_debug x) (pr_bfsize x) (pr_baddr x) (pr_dp_full_mask x).
Definition set_pr_to_bytes_lim (v : Z) (x : params) : params := Params (pr_await_int x) (pr_wait_send x)
    (pr_def_ttl x) (pr_custom_ttl x) (pr_timeout x) (pr_ptimeout x) (pr_to_count_lim x) v (pr_cache_pre x)
    (pr_mode x) (pr_ipv6 x) (pr_resolve x) (pr_udp x) (pr_delay_conn x) (pr_auto_reconnect x) (pr_max_open x)
    (pr_debug x) (pr_bfsize x) (pr_baddr x) (pr_dp_full_mask x).
Definition set_pr_cache_pre (v : Z) (x : params) : params := Params (pr_await_int x) (pr_wait_send x)
    (pr_def_ttl x) (pr_custom_ttl x) (pr_timeout x) (pr_ptimeout x) (pr_to_count_lim x) (pr_to_bytes_lim x) v
    (pr_mode x) (pr_ipv6 x) (pr_resolve x) (pr_udp x) (pr_delay_conn x) (pr_auto_reconnect x) (pr_max_open x)
    (pr_debug x) (pr_bfsize x) (pr_baddr x) (pr_dp_full_mask x).
Definition set_pr_mode (v : Z) (x : params) : params := Params (pr_await_int x) (pr_wait_send x)
    (pr_def_ttl x) (pr_custom_ttl x) (pr_timeout x) (pr_ptimeout x) (pr_to_count_lim x) (pr_to_bytes_lim x)
    (pr_cache_pre x) v (pr_ipv6 x) (pr_resolve x) (pr_udp x) (pr_delay_conn x) (pr_auto_reconnect x)
    (pr_max_open x) (pr_debug x) (pr_bfsize x) (pr_baddr x) (pr_dp_full_mask x).
Definition set_pr_ipv6 (v : bool) (x : params) : params := Params (pr_await_int x) (pr_wait_send x)
    (pr_def_ttl x) (pr_custom_ttl x) (pr_timeout x) (pr_ptimeout x) (pr_to_count_lim x) (pr_to_bytes_lim x)
    (pr_cache_pre x) (pr_mode x) v (pr_resolve x) (pr_udp x) (pr_delay_conn x) (pr_auto_reconnect x)
    (pr_max_open x) (pr_debug x) (pr_bfsize x) (pr_baddr x) (pr_dp_full_mask x).
Definition set_pr_resolve (v : bool) (x : params) : params := Params (pr_await_int x) (pr_wait_send x)
    (pr_def_ttl x) (pr_custom_ttl x) (pr_timeout x) (pr_ptimeout x) (pr_to_count_lim x) (pr_to_bytes_lim x)
    (pr_cache_pre x) (pr_mode x) (pr_ipv6 x) v (pr_udp x) (pr_delay_conn x) (pr_auto_reconnect x) (pr_max_open x)
    (pr_debug x) (pr_bfsize x) (pr_baddr x) (pr_dp_full_mask x).
Definition set_pr_udp (v : bool) (x : params) : params := Params (pr_await_int x) (pr_wait_send x)
    (pr_def_ttl x) (pr_custom_ttl x) (pr_timeout x) (pr_ptimeout x) (pr_to_count_lim x) (pr_to_bytes_lim x)
    (pr_cache_pre x) (pr_mode x) (pr_ipv6 x) (pr_resolve x) v (pr_delay_conn x) (pr_auto_reconnect x)
    (pr_max_open x) (pr_debug x) (pr_bfsize x) (pr_baddr x) (pr_dp_full_mask x).
Definition set_pr_delay_conn (v : bool) (x : params) : params := Params (pr_await_int x) (pr_wait_send x)
    (pr_def_ttl x) (pr_custom_ttl x) (pr_timeout x) (pr_ptimeout x) (pr_to_count_lim x) (pr_to_bytes_lim x)
    (pr_cache_pre x) (pr_mode x) (pr_ipv6 x) (pr_resolve x) (pr_udp x) v (pr_auto_reconnect x) (pr_max_open x)
    (pr_debug x) (pr_bfsize x) (pr_baddr x) (pr_dp_full_mask x).
Definition set_pr_auto_reconnect (v : bool) (x : params) : params := Params (pr_await_int x) (pr_wait_send x)
    (pr_def_ttl x) (pr_custom_ttl x) (pr_timeout x) (pr_ptimeout x) (pr_to_count_lim x) (pr_to_bytes_lim x)
    (pr_cache_pre x) (pr_mode x) (pr_ipv6 x) (pr_resolve x) (pr_udp x) (pr_delay_conn x) v (pr_max_open x)
    (pr_debug x) (pr_bfsize x) (pr_baddr x) (pr_dp_full_mask x).
Definition set_pr_max_open (v : Z) (x : params) : params := Params (pr_await_int x) (pr_wait_send x)
    (pr_def_ttl x) (pr_custom_ttl x) (pr_timeout x) (pr_ptimeout x) (pr_to_count_lim x) (pr_to_bytes_lim x)
    (pr_cache_pre x) (pr_mode x) (pr_ipv6 x) (pr_resolve x) (pr_udp x) (pr_delay_conn x) (pr_auto_reconnect x) v
    (pr_debug x) (pr_bfsize x) (pr_baddr x) (pr_dp_full_mask x).
Definition set_pr_debug (v : Z) (x : params) : params := Params (pr_await_int x) (pr_wait_send x)
    (pr_def_ttl x) (pr_custom_ttl x) (pr_timeout x) (pr_ptimeout x) (pr_to_count_lim x) (pr_to_bytes_lim x)
    (pr_cache_pre x) (pr_mode x) (pr_ipv6 x) (pr_resolve x) (pr_udp x) (pr_delay_conn x) (pr_auto_reconnect x)
    (pr_max_open x) v (pr_bfsize x) (pr_baddr x) (pr_dp_full_mask x).
Definition set_pr_bfsize (v : Z) (x : params) : params := Params (pr_await_int x) (pr_wait_send x)
    (pr_def_ttl x) (pr_custom_ttl x) (pr_timeout x) (pr_ptimeout x) (pr_to_count_lim x) (pr_to_bytes_lim x)
    (pr_cache_pre x) (pr_mode x) (pr_ipv6 x) (pr_resolve x) (pr_udp x) (pr_delay_conn x) (pr_auto_reconnect x)
    (pr_max_open x) (pr_debug x) v (pr_baddr x) (pr_dp_full_mask x).
Definition set_pr_baddr (v : bytes) (x : params) : params := Params (pr_await_int x) (pr_wait_send x)
    (pr_def_ttl x) (pr_custom_ttl x) (pr_timeout x) (pr_ptimeout x) (pr_to_count_lim x) (pr_to_bytes_lim x)
    (pr_cache_pre x) (pr_mode x) (pr_ipv6 x) (pr_resolve x) (pr_udp x) (pr_delay_conn x) (pr_auto_reconnect x)
    (pr_max_open x) (pr_debug x) (pr_bfsize x) v (pr_dp_full_mask x).
Definition set_pr_dp_full_mask (v : Z) (x : params) : params := Params (pr_await_int x) (pr_wait_send x)
    (pr_def_ttl x) (pr_custom_ttl x) (pr_timeout x) (pr_ptimeout x) (pr_to_count_lim x) (pr_to_bytes_lim x)
    (pr_cache_pre x) (pr_mode x) (pr_ipv6 x) (pr_resolve x) (pr_udp x) (pr_delay_conn x) (pr_auto_reconnect x)
    (pr_max_open x) (pr_debug x) (pr_bfsize x) (pr_baddr x) v.
(** A group: its [desync_params] and the fields that only main.c reads. *)
Record group := Group {
  g_dp : desync_params;
  g_optind : Z;
  g_str : bytes;
  g_cache_file : option bytes;
  g_md5sig : bool;
  g_drop_sack : bool
}.
Definition set_g_dp (v : desync_params) (x : group) : group := Group v (g_optind x) (g_str x)
    (g_cache_file x) (g_md5sig x) (g_drop_sack x).
Definition set_g_optind (v : Z) (x : group) : group := Group (g_dp x) v (g_str x) (g_cache_file x)
    (g_md5sig x) (g_drop_sack x).
Definition set_g_str (v : bytes) (x : group) : group := Group (g_dp x) (g_optind x) v (g_cache_file x)
    (g_md5sig x) (g_drop_sack x).
Definition set_g_cache_file (v : option bytes) (x : group) : group := Group (g_dp x) (g_optind x) (g_str x) v
    (g_md5sig x) (g_drop_sack x).
Definition set_g_md5sig (v : bool) (x : group) : group := Group (g_dp x) (g_optind x) (g_str x)
    (g_cache_file x) v (g_drop_sack x).
Definition set_g_drop_sack (v : bool) (x : group) : group := Group (g_dp x) (g_optind x) (g_str x)
    (g_cache_file x) (g_md5sig x) v.
Section options.
(** [getopt_long] of the runtime: the next option with its argument, -1 behind the last one;
    [optind], which main.c reads and sets. *)
Context {G : Type} (getopt_long : G → Z * bytes * G) (optind : G → Z) (set_optind : Z → G → G).
Context (getaddrinfo : bytes → option (Z * bytes)) (inet_pton : Z → bytes → option bytes).
(** [strtof], the conversion of its value to [int], and that of a thousand times it to
    [unsigned int]. *)
Context {F : Type} (strtof : bytes → F * bytes) (f_int f_ms : F → Z).
(** Files: one to read as a whole, and the text of a cache. *)
Context (fopen : bytes → option file) (cache_text : bytes → option bytes).
(** What fresh memory and variables hold. *)
Context (junk : Z → bytes) (unset : nat → Z * Z * Z).

Record popt := Popt {
  o_params : params;
  o_laddr : bytes;
  o_tfo : bool;
  o_dp_n : Z;
  o_groups : list group;
  o_mempool : mphdr;
  o_need_free : list bytes;
  o_dp : nat;
  o_curr_optind : Z;
  o_all_limited : bool;
  o_get : G
}.
Definition set_o_params (v : params) (x : popt) : popt := Popt v (o_laddr x) (o_tfo x) (o_dp_n x)
    (o_groups x) (o_mempool x) (o_need_free x) (o_dp x) (o_curr_optind x) (o_all_limited x) (o_get x).
Definition set_o_laddr (v : bytes) (x : popt) : popt := Popt (o_params x) v (o_tfo x) (o_dp_n x) (o_groups x)
    (o_mempool x) (o_need_free x) (o_dp x) (o_curr_optind x) (o_all_limited x) (o_get x).
Definition set_o_tfo (v : bool) (x : popt) : popt := Popt (o_params x) (o_laddr x) v (o_dp_n x) (o_groups x)
    (o_mempool x) (o_need_free x) (o_dp x) (o_curr_optind x) (o_all_limited x) (o_get x).
Definition set_o_dp_n (v : Z) (x : popt) : popt := Popt (o_params x) (o_laddr x) (o_tfo x) v (o_groups x)
    (o_mempool x) (o_need_free x) (o_dp x) (o_curr_optind x) (o_all_limited x) (o_get x).
Definition set_o_groups (v : list group) (x : popt) : popt := Popt (o_params x) (o_laddr x) (o_tfo x)
    (o_dp_n x) v (o_mempool x) (o_need_free x) (o_dp x) (o_curr_optind x) (o_all_limited x) (o_get x).
Definition set_o_mempool (v : mphdr) (x : popt) : popt := Popt (o_params x) (o_laddr x) (o_tfo x) (o_dp_n x)
    (o_groups x) v (o_need_free x) (o_dp x) (o_curr_optind x) (o_all_limited x) (o_get x).
Definition set_o_need_free (v : list bytes) (x : popt) : popt := Popt (o_params x) (o_laddr x) (o_tfo x)
    (o_dp_n x) (o_groups x) (o_mempool x) v (o_dp x) (o_curr_optind x) (o_all_limited x) (o_get x).
Definition set_o_dp (v : nat) (x : popt) : popt := Popt (o_params x) (o_laddr x) (o_tfo x) (o_dp_n x)
    (o_groups x) (o_mempool x) (o_need_free x) v (o_curr_optind x) (o_all_limited x) (o_get x).
Definition set_o_curr_optind (v : Z) (x : popt) : popt := Popt (o_params x) (o_laddr x) (o_tfo x) (o_dp_n x)
    (o_groups x) (o_mempool x) (o_need_free x) (o_dp x) v (o_all_limited x) (o_get x).
Definition set_o_all_limited (v : bool) (x : popt) : popt := Popt (o_params x) (o_laddr x) (o_tfo x)
    (o_dp_n x) (o_groups x) (o_mempool x) (o_need_free x) (o_dp x) (o_curr_optind x) v (o_get x).
Definition set_o_get (v : G) (x : popt) : popt := Popt (o_params x) (o_laddr x) (o_tfo x) (o_dp_n x)
    (o_groups x) (o_mempool x) (o_need_free x) (o_dp x) (o_curr_optind x) (o_all_limited x) v.
(** [params], as it is initialised. *)
Definition params_init : params := {|
  pr_await_int := 10; pr_wait_send := false; pr_def_ttl := 0; pr_custom_ttl := false; pr_timeout := 0; pr_ptimeout := 0;
  pr_to_count_lim := 0; pr_to_bytes_lim := 0; pr_cache_pre := 0; pr_mode := 0; pr_ipv6 := true; pr_resolve := true;
  pr_udp := true; pr_delay_conn := false; pr_auto_reconnect := false; pr_max_open := 512; pr_debug := 0;
  pr_bfsize := 16384; pr_baddr := set_family (repeat 0 28) AF_INET6; pr_dp_full_mask := 0 |}.
Definition popt_init (g : G) : popt := {|
  o_params := params_init; o_laddr := set_family (repeat 0 28) AF_INET; o_tfo := false; o_dp_n := 0; o_groups := [];
  o_mempool := mem_pool MF_EXTRA CMP_BITS; o_need_free := []; o_dp := 0; o_curr_optind := 1; o_all_limited := true; o_get := g |}.

#[local] Abbreviation OPT := (ST popt).

Definition updp (f : params → params) : OPT unit := modify (λ s, set_o_params (f (o_params s)) s).
Definition upd_group (i : nat) (f : group → group) : OPT unit := modify (λ s, set_o_groups (alter f i (o_groups s)) s).
Definition group_at (i : nat) : OPT group := l ← gets o_groups; lift (geti l (Z.of_nat i)).
(** The group [dp] points to. *)
Definition updg (f : group → group) : OPT unit := i ← gets o_dp; upd_group i f.
Definition updd (f : desync_params → desync_params) : OPT unit := updg (λ g, set_g_dp (f (g_dp g)) g).
Definition the_group : OPT group := i ← gets o_dp; group_at i.

(** * Groups *)

(** [1 << id], of an [int]: the machine takes the count modulo 32. *)
Definition group_bit (id : Z) : Z := u64 (s32 (Z.shiftl 1 (id mod 32))).
Definition add_group (prev : option nat) : OPT nat :=
  l ← gets o_groups; id ← gets o_dp_n;
  let n := length l in
  let dp := set_dp_bit (group_bit id) (set_dp_id id (set_dp_prev prev dp_init)) in
  modify (set_o_groups (l ++ [Group dp 0 [] None false false]));;
  match prev with Some p => upd_group p (λ g, set_g_dp (set_dp_next (Some n) (g_dp g)) g) | None => skip end;;
  modify (set_o_dp_n (id + 1));;
  updp (λ p, set_pr_dp_full_mask (Z.lor (pr_dp_full_mask p) (group_bit id)) p);;
  mret n.

(** * Options *)

(** What the switch leaves: the next round of the loop, [invalid] set, or a return. *)
Inductive after := Next | Invalid | Return (r : Z).

(** [val = strtol(optarg, &end, 0)], refused when [bad] or when there is more behind it. *)
Definition opt_val (optarg : bytes) (bad : Z → bool) (set : Z → OPT unit) : OPT after :=
  let '(val, e) := strtol 0 optarg in
  if bad val || negb (here e =? 0) then mret Invalid else set val;; mret Next.

(** The character behind the next comma. *)
Definition comma (e : bytes) : option bytes := tail <$> strchr e (ch ",").

(** A loop over letters between commas, each with its flag: whether all are known, and the flags. *)
Definition flags_body (table : list (Z * Z)) (x : bytes * Z) : comp (bytes * Z + bool * Z) :=
  let '(e, acc) := x in
  match find (λ t, t.1 =? here e) table with
  | None => Ok (inr (false, acc))
  | Some (_, f) => let acc := Z.lor acc f in
      Ok (match comma e with Some e => inl (e, acc) | None => inr (true, acc) end)
  end.
Definition parse_flags (table : list (Z * Z)) (optarg : bytes) : comp (bool * Z) :=
  loop (flags_body table) (S (length optarg)) (optarg, 0).
Definition opt_flags (table : list (Z * Z)) (optarg : bytes) (set : Z → OPT unit) : OPT after :=
  '(ok, v) ← lift (parse_flags table optarg); set v;; mret (if ok : bool then Next else Invalid).

Definition auto_levels : list (Z * Z) := [(ch "o", AUTO_ONRECONN); (ch "s", AUTO_SORT); (ch "n", AUTO_NORECONN)].
Definition protos : list (Z * Z) :=
  [(ch "t", Z.lor IS_TCP IS_HTTPS); (ch "h", Z.lor IS_TCP IS_HTTP); (ch "u", IS_UDP); (ch "i", IS_IPV4)].
Definition http_mods : list (Z * Z) := [(ch "r", MH_SPACE); (ch "h", MH_HMIX); (ch "d", MH_DMIX)].

(** -A: what is detected and the priority of the group before, as far as it is given.  Behind a
    [p] without [=] the pointer is null. *)
Definition detects : list (Z * Z) :=
  [(ch "t", DETECT_TORST); (ch "r", DETECT_HTTP_LOCAT); (ch "s", DETECT_TLS_ERR); (ch "c", DETECT_CONNECT); (ch "n", 0)].
Definition auto_body (x : bytes * Z * option Z) : comp (bytes * Z * option Z + bool * Z * option Z) :=
  let '(e, det, pri) := x in
  let go e det pri := Ok (match comma e with Some e => inl (e, det, pri) | None => inr (true, det, pri) end) in
  match find (λ t, t.1 =? here e) detects with
  | Some (_, f) => go e (Z.lor det f) pri
  | None =>
      if here e =? ch "p" then
        match strchr e (ch "=") with
        | None => Fail OutOfBounds
        | Some e => let '(f, e) := strtof (tail e) in
            if negb (here e =? 0) then Ok (inr (false, det, pri)) else go e det (Some (f_int f))
        end
      else Ok (inr (false, det, pri))
  end.
Definition parse_auto (optarg : bytes) : comp (bool * Z * option Z) :=
  loop auto_body (S (length optarg)) (optarg, 0, None).

Definition opt_auto (optarg : bytes) : OPT after :=
  g ← gets o_get; c ← gets o_curr_optind;
  if optind g <? c then modify (set_o_get (set_optind c g));; mret Next else
  dp ← the_group;
  let d := g_dp dp in
  (if negb (bool_decide (is_Some (dp_hosts d)) || negb (dp_proto d =? 0) || negb ((dp_pf d).1 =? 0) ||
            negb (dp_detect d =? 0) || bool_decide (is_Some (dp_ipset d)))
   then modify (set_o_all_limited false) else skip);;
  prev ← gets o_dp;
  n ← add_group (Some prev);
  modify (set_o_dp n);;
  '(ok, det, pri) ← lift (parse_auto optarg);
  updd (λ d, set_dp_detect (Z.lor (dp_detect d) det) d);;
  match pri with Some p => upd_group prev (λ g, set_g_dp (set_dp_pri p (g_dp g)) g) | None => skip end;;
  dp ← the_group;
  (if negb (dp_detect (g_dp dp) =? 0) then updp (set_pr_auto_reconnect true) else skip);;
  updg (set_g_optind (optind g));;
  mret (if ok : bool then Next else Invalid).

(** -B: the group with the number, from the first one on. *)
Definition find_group_body (id : Z) (it : option nat) : OPT (option nat + option nat) :=
  match it with
  | None => mret (inr None)
  | Some i => g ← group_at i;
      mret (if dp_id (g_dp g) =? id then inr (Some i) else inl (dp_next (g_dp g)))
  end.
Definition opt_copy (optarg : bytes) : OPT after :=
  g ← gets o_get; c ← gets o_curr_optind;
  if optind g <? c then mret Next
  else if here optarg =? ch "i" then updd (λ d, set_dp_pf (256, (dp_pf d).2) d);; mret Next
  else
  let val := (strtol 0 optarg).1 in
  l ← gets o_groups;
  it ← sloop (find_group_body (val - 1)) (S (S (length l))) (match l with [] => None | _ => Some 0%nat end);
  match it with
  | None => mret Invalid
  | Some i => it ← group_at i;
      modify (set_o_curr_optind (optind g));;
      modify (set_o_get (set_optind (g_optind it) g));; mret Next
  end.

Definition opt_timeout (optarg : bytes) : OPT after :=
  let '(f, e) := strtof optarg in
  updp (set_pr_timeout (f_ms f));;
  e ← (if here e =? ch ":" then let '(f, e) := strtof (tail e) in updp (set_pr_ptimeout (f_ms f));; mret e else mret e);
  e ← (if here e =? ch ":" then let '(f, e) := strtof (tail e) in updp (set_pr_to_count_lim (f_int f));; mret e else mret e);
  e ← (if here e =? ch ":" then let '(f, e) := strtof (tail e) in updp (set_pr_to_bytes_lim (f_int f));; mret e else mret e);
  mret (if negb (here e =? 0) then Invalid else Next).

(** -y: the file is read at once; main.c goes on when it cannot be opened. *)
Definition opt_cache_file (optarg : bytes) : OPT after :=
  updg (set_g_cache_file (Some optarg));;
  if bool_decide (optarg = bs "-") then mret Next else
  match cache_text optarg with
  | None => mret Next
  | Some text =>
      dp ← gets o_dp; hdr ← gets o_mempool;
      hdr ← lift (load_cache inet_pton hdr text dp unset);
      modify (set_o_mempool hdr);; mret Next
  end.

Definition opt_hosts (optarg : bytes) : OPT after :=
  g ← the_group;
  let hosts := match dp_hosts (g_dp g) with Some h => h | None => mem_pool MF_STATIC CMP_HOST end in
  updd (set_dp_hosts (Some hosts));;
  data ← lift (ftob fopen junk optarg);
  match data with
  | None => mret Invalid
  | Some data =>
      modify (λ s, set_o_need_free (o_need_free s ++ [data]) s);;
      hosts ← lift (parse_hosts hosts data (blen data));
      updd (set_dp_hosts (Some hosts));; mret Next
  end.
Definition opt_ipset (optarg : bytes) : OPT after :=
  data ← lift (ftob fopen junk optarg);
  match data with
  | None => mret Invalid
  | Some data =>
      g ← the_group;
      let ipset := match dp_ipset (g_dp g) with Some h => h | None => mem_pool 0 CMP_BITS end in
      ipset ← lift (parse_ipset inet_pton ipset data (blen data));
      updd (set_dp_ipset (Some ipset));; mret Next
  end.

(** -s, -d, -o, -q, -f: a part that is refused stays as [add] left it, up to the fields that
    [parse_offset] had set. *)
Definition opt_part (m : demode) (optarg : bytes) : OPT after :=
  let add p := updd (λ d, set_dp_parts (dp_parts d ++ [p]) d) in
  match parse_offset part_init optarg with
  | None => add part_init;; mret Invalid
  | Some p => add (Part m (p_flag p) (p_pos p) (p_r p) (p_s p));; mret Next
  end.
Definition opt_tlsrec (optarg : bytes) : OPT after :=
  let add p := updd (λ d, set_dp_tlsrec (dp_tlsrec d ++ [p]) d) in
  match parse_offset part_init optarg with
  | None => add part_init;; mret Invalid
  | Some p => add p;; mret (if 65535 <? p_pos p then Invalid else Next)
  end.
Definition opt_fake_offset (optarg : bytes) : OPT after :=
  g ← the_group;
  match parse_offset (dp_fake_offset (g_dp g)) optarg with
  | None => mret Invalid
  | Some p => updd (set_dp_fake_offset (Part DESYNC_SPLIT (p_flag p) (p_pos p) (p_r p) (p_s p)));; mret Next
  end.

(** -Q: the flags and the size, as far as it is given. *)
Definition fake_mods : list (Z * Z) := [(ch "r", FM_RAND); (ch "o", FM_ORIG)].
Definition INT_MAX : Z := 2 ^ 31 - 1.
Definition fake_mod_body (x : bytes * Z * option Z) : comp (bytes * Z * option Z + bool * Z * option Z) :=
  let '(e, fl, size) := x in
  let go e fl size := Ok (match comma e with Some e => inl (e, fl, size) | None => inr (true, fl, size) end) in
  match find (λ t, t.1 =? here e) fake_mods with
  | Some (_, f) => go e (Z.lor fl f) size
  | None =>
      match (if here e =? ch "m" then strchr e (ch "=") else None) with
      | Some e => let '(val, e) := strtol 0 (tail e) in
          if (INT_MAX <? val) || (negb (here e =? 0) && negb (here e =? ch ",")) then Ok (inr (false, fl, size))
          else go e fl (Some val)
      | None => Ok (inr (false, fl, size))
      end
  end.
Definition opt_fake_mod (optarg : bytes) : OPT after :=
  '(ok, fl, size) ← lift (loop fake_mod_body (S (length optarg)) (optarg, 0, None));
  updd (λ d, set_dp_fake_mod (Z.lor (dp_fake_mod d) fl) d);;
  match size with Some v => updd (set_dp_fake_tls_size v) | None => skip end;;
  mret (if ok : bool then Next else Invalid).

Definition opt_fake_data (optarg : bytes) : OPT after :=
  g ← the_group;
  if bool_decide (is_Some (dp_fake_data (g_dp g))) then mret Next else
  data ← lift (ftob fopen junk optarg);
  match data with
  | None => mret Invalid
  | Some d => updd (set_dp_fake_data (Some (Packet d (blen d) 0)));; mret Next
  end.
Definition opt_oob (optarg : bytes) : OPT after :=
  g ← the_group;
  let '(c0, c1) := dp_oob_char (g_dp g) in
  '(val, b) ← lift (parse_cform [c0; c1] 1 optarg (blen optarg));
  if negb (val =? 1) then updd (set_dp_oob_char (bat b 0, bat b 1));; mret Invalid
  else updd (set_dp_oob_char (bat b 0, 1));; mret Next.

(** -V, -R: a number, or two around a dash. *)
Definition opt_range (hi : Z) (optarg : bytes) (first second : Z → OPT unit) : OPT after :=
  let '(val, e) := strtol 0 optarg in
  if (val <=? 0) || (hi <? val) then mret Invalid else
  first val;;
  let '(val, e, bad) :=
    if here e =? ch "-" then let '(v, e) := strtol 0 (tail e) in (v, e, (v <=? 0) || (hi <? v)) else (val, e, false) in
  if negb (here e =? 0) then mret Invalid else
  second val;; mret (if bad : bool then Invalid else Next).
(** [htons] on a little-endian machine. *)
Definition htons (v : Z) : Z := port_raw ([0; 0] ++ enc16 v).

Definition OUT_SUPPORT : Z := Z.lor MODE_SOCKS5 MODE_TCP.
Definition opt_connect_to (optarg : bytes) : OPT after :=
  g ← the_group;
  let '(type, addr) := match get_addr_scheme getaddrinfo optarg (dp_out_addr (g_dp g)) with
    | Some (mode, addr) => (mode, addr) | None => (u16 (-1), dp_out_addr (g_dp g)) end in
  updd (λ d, set_dp_out_type (if type =? 0 then MODE_SOCKS5 else type) (set_dp_out_addr addr d));;
  updp (set_pr_delay_conn true);;
  mret (if negb (Z.land type OUT_SUPPORT =? type) || (port_raw addr =? 0) then Invalid else Next).

(** The options of [params]; [None] for one that is not among them. *)
Definition general_opt (rez : Z) (optarg : bytes) : option (OPT after) :=
  let o c := rez =? ch c in
  let set f := Some (updp f;; mret Next : OPT after) in
  if o "N"%char then set (set_pr_resolve false)
  else if o "X"%char then set (set_pr_ipv6 false)
  else if o "U"%char then set (set_pr_udp false)
  else if o "h"%char then Some (mret (Return 1))
  else if o "v"%char then Some (mret (Return 1))
  else if o "i"%char then Some (a ← gets o_laddr;
    match get_addr_scheme getaddrinfo optarg a with
    | None => mret Invalid
    | Some (mode, a) => modify (set_o_laddr a);; updp (λ p, set_pr_mode (Z.lor (pr_mode p) mode) p);; mret Next
    end)
  else if o "p"%char then Some (opt_val optarg (λ v, (v <=? 0) || (65535 <? v))
    (λ v, modify (λ s, set_o_laddr (set_port (o_laddr s) (enc16 v)) s)))
  else if o "I"%char then Some (p ← gets o_params;
    match get_addr getaddrinfo optarg (pr_baddr p) with
    | None => mret Invalid
    | Some a => updp (set_pr_baddr a);; mret Next
    end)
  else if o "b"%char then Some (opt_val optarg (λ v, (v <=? 0) || (INT_MAX / 4 <? v)) (λ v, updp (set_pr_bfsize v)))
  else if o "c"%char then Some (opt_val optarg (λ v, (v <=? 0) || (65535 / 2 <=? v)) (λ v, updp (set_pr_max_open v)))
  else if o "x"%char then Some (let v := (strtol 0 optarg).1 in updp (set_pr_debug v);; mret (if v <? 0 then Invalid else Next))
  else if o "F"%char then Some (modify (set_o_tfo true);; mret Next)
  else if o "/"%char then Some (opt_val optarg (λ v, (v <? 0) || (32 <? v)) (λ v, updp (set_pr_cache_pre (32 - v))))
  else if o "T"%char then Some (opt_timeout optarg)
  else if o "g"%char then Some (opt_val optarg (λ v, (v <=? 0) || (255 <? v)) (λ v, updp (set_pr_def_ttl v);; updp (set_pr_custom_ttl true)))
  else if o "Z"%char then set (set_pr_wait_send true)
  else if o "W"%char then set (set_pr_await_int (atoi optarg))
  else None.

(** The options of the group. *)
Definition group_opt (rez : Z) (optarg : bytes) : OPT after :=
  let o c := rez =? ch c in
  if o "y"%char then opt_cache_file optarg
  else if o "L"%char then opt_flags auto_levels optarg (λ v, updd (λ d, set_dp_auto_level (Z.lor (dp_auto_level d) v) d))
  else if o "A"%char then opt_auto optarg
  else if o "B"%char then opt_copy optarg
  else if o "#"%char then updg (set_g_str optarg);; mret Next
  else if o "u"%char then opt_val optarg (λ v, v <=? 0) (λ v, updd (set_dp_cache_ttl v))
  else if o "K"%char then opt_flags protos optarg (λ v, updd (λ d, set_dp_proto (Z.lor (dp_proto d) v) d))
  else if o "H"%char then opt_hosts optarg
  else if o "j"%char then opt_ipset optarg
  else if o "s"%char then opt_part DESYNC_SPLIT optarg
  else if o "d"%char then opt_part DESYNC_DISORDER optarg
  else if o "o"%char then opt_part DESYNC_OOB optarg
  else if o "q"%char then opt_part DESYNC_DISOOB optarg
  else if o "f"%char then opt_part DESYNC_FAKE optarg
  else if o "t"%char then opt_val optarg (λ v, (v <=? 0) || (255 <? v)) (λ v, updd (set_dp_ttl v))
  else if o "S"%char then updg (set_g_md5sig true);; mret Next
  else if o "O"%char then opt_fake_offset optarg
  else if o "Q"%char then opt_fake_mod optarg
  else if o "n"%char then updd (λ d, set_dp_fake_sni_list (dp_fake_sni_list d ++ [optarg]) d);; mret Next
  else if o "l"%char then opt_fake_data optarg
  else if o "e"%char then opt_oob optarg
  else if o "M"%char then opt_flags http_mods optarg (λ v, updd (λ d, set_dp_mod_http (Z.lor (dp_mod_http d) v) d))
  else if o "r"%char then opt_tlsrec optarg
  else if o "m"%char then opt_val optarg (λ v, (v <=? 0) || (255 <? v)) (λ v, updd (set_dp_tlsminor (Some v)))
  else if o "a"%char then opt_val optarg (λ v, (v <? 0) || (INT_MAX <? v)) (λ v, updd (set_dp_udp_fake_count v))
  else if o "V"%char then opt_range 65535 optarg
    (λ v, updd (λ d, set_dp_pf (htons v, (dp_pf d).2) d)) (λ v, updd (λ d, set_dp_pf ((dp_pf d).1, htons v) d))
  else if o "R"%char then opt_range INT_MAX optarg
    (λ v, updd (λ d, set_dp_rounds (v, (dp_rounds d).2) d)) (λ v, updd (λ d, set_dp_rounds ((dp_rounds d).1, v) d))
  else if o "Y"%char then updg (set_g_drop_sack true);; mret Next
  else if o "C"%char then opt_connect_to optarg
  else if rez =? 0 then mret Next
  else mret (Return (-1)).

(** The switch. *)
Definition option_case (rez : Z) (optarg : bytes) : OPT after :=
  match general_opt rez optarg with Some m => m | None => group_opt rez optarg end.

Definition args_body (x : unit) : OPT (unit + option Z) :=
  g ← gets o_get;
  let '(rez, optarg, g) := getopt_long g in
  modify (set_o_get g);;
  if rez =? -1 then mret (inr None) else
  r ← option_case rez optarg;
  mret (match r with Next => inl tt | Invalid => inr (Some (-1)) | Return r => inr (Some r) end).

(** [socket] for a protocol family. *)
Definition ipv6_support (socket : Z → Z) : bool := negb (socket AF_INET6 <? 0).

(** [parse_args]: what is done before the loop and behind it. *)
Definition args_start (socket : Z → Z) : OPT unit :=
  a ← gets o_laddr;
  (if port_raw a =? 0 then modify (set_o_laddr (set_port a (enc16 1080))) else skip);;
  (if negb (ipv6_support socket) then updp (λ p, set_pr_baddr (set_family (pr_baddr p) AF_INET) p) else skip);;
  modify (set_o_mempool (mem_pool MF_EXTRA CMP_BITS));;
  dp ← add_group None;
  modify (set_o_dp dp).
Definition args_end : OPT Z :=
  limited ← gets o_all_limited;
  (if limited : bool then dp ← gets o_dp; dp ← add_group (Some dp); modify (set_o_dp dp) else skip);;
  updp (λ p, if sa_family (pr_baddr p) =? AF_INET6 then p else set_pr_ipv6 false p);;
  updp (λ p, if pr_mode p =? 0 then set_pr_mode (Z.lor MODE_SOCKS4 MODE_SOCKS5) p else p);;
  mret 0.
Definition parse_args (socket : Z → Z) (fuel : nat) : OPT Z :=
  args_start socket;;
  r ← sloop args_body fuel tt;
  match r with Some r => mret r | None => args_end end.

(** * What the options are *)

(** The settings of a group that was accepted. *)
Record dp_vals (d : desync_params) : Prop := {
  v_ttl : 0 <= dp_ttl d <= 255;
  v_minor v : dp_tlsminor d = Some v → 1 <= v <= 255;
  v_udp : 0 <= dp_udp_fake_count d <= INT_MAX;
  v_mod_http : 0 <= dp_mod_http d < 2 ^ 3;
  v_auto_level : 0 <= dp_auto_level d < 2 ^ 3;
  v_fake_mod : 0 <= dp_fake_mod d < 2 ^ 2;
  v_proto : 0 <= dp_proto d < 2 ^ 5;
  v_detect : 0 <= dp_detect d < 2 ^ 5;
  v_cache_ttl : 0 <= dp_cache_ttl d <= long_max;
  v_pf : (0 <= (dp_pf d).1 < 65536) ∧ (0 <= (dp_pf d).2 < 65536);
  v_rounds : (0 <= (dp_rounds d).1 <= INT_MAX) ∧ (0 <= (dp_rounds d).2 <= INT_MAX);
  v_parts : Forall part_ok (dp_parts d);
  v_tlsrec : Forall (λ p, part_ok p ∧ p_pos p <= 65535) (dp_tlsrec d);
  v_offset : part_ok (dp_fake_offset d);
  v_data p : dp_fake_data d = Some p → 0 < pk_size p ∧ pk_size p = blen (pk_data p) ∧ pk_off p = 0;
  v_out : Z.land (dp_out_type d) OUT_SUPPORT = dp_out_type d ∧ (dp_out_type d ≠ 0 → port_raw (dp_out_addr d) ≠ 0);
  v_out_addr : blen (dp_out_addr d) = 28;
  v_oob : is_byte (dp_oob_char d).1 ∧ 0 <= (dp_oob_char d).2 <= 1
}.

Definition addr_ok (a : bytes) : Prop := blen a = 28 ∧ (sa_family a = AF_INET ∨ sa_family a = AF_INET6).
Record pr_vals (p : params) : Prop := {
  v_max_open : 1 <= pr_max_open p <= 32766;
  v_bfsize : 1 <= pr_bfsize p <= INT_MAX / 4;
  v_def_ttl : 0 <= pr_def_ttl p <= 255;
  v_cache_pre : 0 <= pr_cache_pre p <= 32;
  v_debug : 0 <= pr_debug p;
  v_mode : 0 <= pr_mode p < 128;
  v_baddr : addr_ok (pr_baddr p)
}.

(** The lists of a group. *)
Definition pools_ok (d : desync_params) : Prop :=
  (∀ h, dp_hosts d = Some h → names_ok h) ∧ (∀ h, dp_ipset d = Some h → pool_ok bit_dom h ∧ mp_cmp_type h = CMP_BITS).
(** Group [i] of [n]: its number, its bit, its neighbours. *)
Record node_ok (n i : nat) (d : desync_params) : Prop := {
  nd_id : dp_id d = Z.of_nat i;
  nd_bit : dp_bit d = group_bit (Z.of_nat i);
  nd_prev : dp_prev d = match i with O => None | S j => Some j end;
  nd_next : dp_next d = if bool_decide (S i = n) then None else Some (S i);
  nd_pools : pools_ok d
}.

(** The mask of the first [n] groups. *)
Fixpoint full_mask (n : nat) : Z := match n with O => 0 | S n => Z.lor (full_mask n) (group_bit (Z.of_nat n)) end.

Record linked (s : popt) : Prop := {
  lk_n : o_dp_n s = Z.of_nat (length (o_groups s));
  lk_dp : S (o_dp s) = length (o_groups s);
  lk_nodes i g : o_groups s !! i = Some g → node_ok (length (o_groups s)) i (g_dp g);
  lk_mask : pr_dp_full_mask (o_params s) = full_mask (length (o_groups s));
  lk_pool : pool_ok bit_dom (o_mempool s) ∧ mp_cmp_type (o_mempool s) = CMP_BITS
}.
Record values (s : popt) : Prop := {
  vs_groups : Forall (λ g, dp_vals (g_dp g)) (o_groups s);
  vs_params : pr_vals (o_params s);
  vs_laddr : addr_ok (o_laddr s) ∧ port_raw (o_laddr s) ≠ 0
}.
Definition ok (s : popt) : Prop := linked s ∧ values s.
Definition post (r : after) (s : popt) : Prop := linked s ∧ (r = Next → values s).

(** ** The steps *)

Definition with_group (i : nat) (f : group → group) (s : popt) : popt := set_o_groups (alter f i (o_groups s)) s.
Definition with_dp (f : desync_params → desync_params) (s : popt) : popt :=
  with_group (o_dp s) (λ g, set_g_dp (f (g_dp g)) g) s.
Definition with_pr (f : params → params) (s : popt) : popt := set_o_params (f (o_params s)) s.

Lemma swp_updd f s (P : unit → popt → Prop) : P tt (with_dp f s) → swp (updd f) s P.
Proof. done. Qed.
Lemma swp_updg f s (P : unit → popt → Prop) : P tt (with_group (o_dp s) f s) → swp (updg f) s P.
Proof. done. Qed.
Lemma swp_updp f s (P : unit → popt → Prop) : P tt (with_pr f s) → swp (updp f) s P.
Proof. done. Qed.

Lemma current_group s : linked s → ∃ g, o_groups s !! o_dp s = Some g.
Proof. intros Hl. apply lookup_lt_is_Some. rewrite <- (lk_dp s Hl). lia. Qed.
Lemma swp_group_at i s g (P : group → popt → Prop) : o_groups s !! i = Some g → P g s → swp (group_at i) s P.
Proof. intros Hg HP. unfold group_at. sstep. sstep. sstep. apply (wp_geti _ _ g); [lia|by rewrite Nat2Z.id|done]. Qed.
Lemma swp_the_group s (P : group → popt → Prop) :
  linked s → (∀ g, o_groups s !! o_dp s = Some g → P g s) → swp the_group s P.
Proof.
  intros Hl HP. destruct (current_group s Hl) as [g Hg]. unfold the_group. sstep. sstep. by apply (swp_group_at _ _ g); auto.
Qed.

Lemma group_vals s g i : values s → o_groups s !! i = Some g → dp_vals (g_dp g).
Proof. intros Hv Hg. by apply (Forall_lookup_1 (λ g, dp_vals (g_dp g)) (o_groups s) i g (vs_groups s Hv)). Qed.

Lemma with_group_linked i f s : linked s →
  (∀ g, o_groups s !! i = Some g → node_ok (length (o_groups s)) i (g_dp g) → node_ok (length (o_groups s)) i (g_dp (f g))) →
  linked (with_group i f s).
Proof.
  intros [Hn Hd Hg Hm Hp] Hf. split; cbn; rewrite ?length_alter; [done|done| |done|done].
  intros j g Ej. rewrite list_lookup_alter in Ej. case_decide as E; [|by apply Hg].
  subst j. destruct (o_groups s !! i) as [h|] eqn:Ei; [|done]. injection Ej as <-. by apply Hf; [|apply Hg].
Qed.
Lemma with_group_values i f s : values s →
  (∀ g, o_groups s !! i = Some g → dp_vals (g_dp g) → dp_vals (g_dp (f g))) → values (with_group i f s).
Proof.
  intros [Hg Hp Hl] Hf. split; [|done|done]. apply Forall_lookup. cbn. intros j g Ej.
  rewrite list_lookup_alter in Ej. rewrite Forall_lookup in Hg. case_decide as E; [|by apply (Hg j)].
  subst j. destruct (o_groups s !! i) as [h|] eqn:Ei; [|done]. injection Ej as <-. by apply Hf; [|apply (Hg i)].
Qed.
Lemma with_dp_linked f s : linked s → (∀ n i d, node_ok n i d → node_ok n i (f d)) → linked (with_dp f s).
Proof. intros Hl Hf. apply with_group_linked; [done|]. intros g _ Hg. by apply Hf. Qed.
Lemma with_dp_ok f s : ok s → (∀ n i d, node_ok n i d → node_ok n i (f d)) → (∀ d, dp_vals d → dp_vals (f d)) → ok (with_dp f s).
Proof.
  intros [Hl Hv] Hn Hf. split; [by apply with_dp_linked|]. apply with_group_values; [done|]. intros g _. apply Hf.
Qed.
Lemma with_pr_ok f s : ok s → (∀ p, pr_dp_full_mask (f p) = pr_dp_full_mask p) → (∀ p, pr_vals p → pr_vals (f p)) → ok (with_pr f s).
Proof.
  intros [[Hn Hd Hg Hm Hp] [Vg Vp Vl]] Hf Hv. split; split; cbn; try done; [by rewrite Hf|by apply Hv].
Qed.
Lemma post_ok r s : ok s → post r s.
Proof. intros [? ?]. by split. Qed.
Lemma post_linked r s : linked s → r ≠ Next → post r s.
Proof. intros Hl Hr. by split. Qed.

(** A changed setting: all the others are as they were. *)
Ltac vals := let H := fresh in intros ? H; destruct H; split; cbn; first [assumption | lia | done].
Ltac node := let H := fresh in intros ? ? ? H; exact H || (destruct H as [? ? ? ? [? ?]]; split; try assumption; by split).

(** ** Letters between commas *)

Lemma strchr_length e c e' : strchr e c = Some e' → (length e' ≤ length e)%nat ∧ e' ≠ [].
Proof.
  induction e as [|x e IH]; cbn; [done|]. destruct (x =? c); [by intros [= <-]|]. intros H. apply IH in H as [? ?]. split; [lia|done].
Qed.
Lemma comma_length e e' : comma e = Some e' → (length e' < length e)%nat.
Proof.
  unfold comma. destruct (strchr e (ch ",")) as [r|] eqn:E; [|done]. intros [= <-]. apply strchr_length in E as [? ?].
  destruct r; [done|]. cbn in *. lia.
Qed.
Lemma strtol_length base s : (length (strtol base s).2 ≤ length s)%nat.
Proof.
  unfold strtol, strto. destruct (sign_of _) as [neg t] eqn:Es. destruct (base_of base t) as [b r] eqn:Eb.
  destruct (is_digit b (here r)); [|done]. assert (Hn : ∀ l acc, (length (number b l acc).2 ≤ length l)%nat).
  { clear. induction l as [|c l IH]; intros acc; cbn; [lia|]. destruct (digit b c); [|cbn; lia]. specialize (IH (acc * b + z)). lia. }
  specialize (Hn r 0). destruct (number b r 0) as [v e]. cbn in *.
  pose proof (drop_while_length isspace s).
  assert (length t ≤ length (drop_while isspace s))%nat.
  { unfold sign_of in Es. destruct (_ =? _); [|destruct (_ =? _)]; injection Es as <- <-; [..|done]; destruct (drop_while isspace s); cbn; lia. }
  assert (length r ≤ length t)%nat.
  { unfold base_of in Eb. repeat match type of Eb with context [if ?c then _ else _] => destruct c end; injection Eb as <- <-;
      rewrite ?length_drop; lia. }
  lia.
Qed.

Lemma lor_range a b k : 0 <= k → 0 <= a < 2 ^ k → 0 <= b < 2 ^ k → 0 <= Z.lor a b < 2 ^ k.
Proof.
  intros Hk Ha Hb. split; [apply Z.lor_nonneg; lia|]. destruct (Z.eq_dec (Z.lor a b) 0) as [->|Hne]; [lia|].
  apply Z.log2_lt_pow2; [pose proof (Z.lor_nonneg a b); lia|]. rewrite Z.log2_lor by lia.
  destruct (Z.max_spec (Z.log2 a) (Z.log2 b)) as [[_ ->]|[_ ->]].
  - destruct (Z.eq_dec b 0) as [->|]; [|by apply Z.log2_lt_pow2; lia].
    destruct (Z.eq_dec k 0) as [->|]; [|cbn; lia]. exfalso. apply Hne. rewrite Z.lor_0_r. lia.
  - destruct (Z.eq_dec a 0) as [->|]; [|by apply Z.log2_lt_pow2; lia].
    destruct (Z.eq_dec k 0) as [->|]; [|cbn; lia]. exfalso. apply Hne. rewrite Z.lor_0_l. lia.
Qed.

(** The flags of a table. *)
Definition table_ok (k : Z) (t : list (Z * Z)) : bool := forallb (λ x, (0 <=? x.2) && (x.2 <? 2 ^ k)) t.
Lemma table_find k t c x y : table_ok k t = true → find (λ t, t.1 =? c) t = Some (x, y) → 0 <= y < 2 ^ k.
Proof.
  intros Ht Hf. apply find_some in Hf as [Hin _]. unfold table_ok in Ht. rewrite forallb_forall in Ht. specialize (Ht _ Hin).
  cbn in Ht. lia.
Qed.
Lemma wp_parse_flags k table optarg : 0 <= k → table_ok k table = true →
  wp (parse_flags table optarg) (λ r, 0 <= r.2 < 2 ^ k).
Proof.
  intros Hk Ht. unfold parse_flags.
  apply (wp_loop _ (λ x, 0 <= x.2 < 2 ^ k) (λ x, length x.1)); [|cbn; pose proof (Z.pow_pos_nonneg 2 k); lia|cbn; lia].
  intros [e acc] Ha. cbn in Ha. unfold flags_body. destruct (find _ table) as [[c f]|] eqn:Ef; [|by apply wp_ok].
  pose proof (table_find k table _ _ _ Ht Ef). apply wp_ok. destruct (comma e) as [e'|] eqn:Ec; cbn.
  - split; [by apply lor_range|by apply comma_length].
  - by apply lor_range.
Qed.

Lemma swp_opt_flags k table optarg set s : 0 <= k → table_ok k table = true → ok s →
  (∀ v, 0 <= v < 2 ^ k → swp (set v) s (λ _ s', ok s')) → swp (opt_flags table optarg set) s post.
Proof.
  intros Hk Ht Hs Hset. unfold opt_flags. sstep. sstep. eapply wp_mono; [by apply (wp_parse_flags k)|]. cbv beta.
  intros [b v] Hv. sstep. eapply swp_mono; [by apply Hset|]. cbv beta. intros _ s' Hs'. sstep. by apply post_ok.
Qed.
Lemma swp_opt_val optarg bad set s : ok s →
  (∀ v, long_min <= v <= long_max → bad v = false → swp (set v) s (λ _ s', ok s')) → swp (opt_val optarg bad set) s post.
Proof.
  intros Hs Hset. unfold opt_val. pose proof (strtol_range 0 optarg) as Hr. destruct (strtol 0 optarg) as [v e]. cbn in Hr.
  destruct (bad v) eqn:Eb; cbn [orb]; [by apply post_ok|]. destruct (negb _); [by apply post_ok|].
  sstep. eapply swp_mono; [by apply Hset|]. cbv beta. intros _ s' Hs'. sstep. by apply post_ok.
Qed.

(** ** Groups *)

(** The state with a new last group. *)
Definition new_group (s : popt) : group :=
  Group (set_dp_bit (group_bit (o_dp_n s)) (set_dp_id (o_dp_n s) (set_dp_prev (Some (o_dp s)) dp_init))) 0 [] None false false.
Definition added (s : popt) : popt :=
  set_o_dp (length (o_groups s))
    (with_pr (λ p, set_pr_dp_full_mask (Z.lor (pr_dp_full_mask p) (group_bit (o_dp_n s))) p)
      (set_o_dp_n (o_dp_n s + 1)
        (with_group (o_dp s) (λ g, set_g_dp (set_dp_next (Some (length (o_groups s))) (g_dp g)) g)
          (set_o_groups (o_groups s ++ [new_group s]) s)))).
Lemma swp_added {R} (K : OPT R) s P : swp K (added s) P → swp (n ← add_group (Some (o_dp s)); modify (set_o_dp n);; K) s P.
Proof. done. Qed.

Lemma dp_init_vals : dp_vals dp_init.
Proof.
  split; cbn; try done; unfold part_ok, is_byte, INT_MAX, long_max; cbn; try lia; try (by left); try (by constructor).
Qed.

Lemma added_ok s : ok s → ok (added s).
Proof.
  intros [[Hn Hd Hg Hm Hp] [Vg Vp Vl]]. split.
  - split; cbn; rewrite ?length_alter, ?length_app; cbn; [lia|lia| | |done].
    + intros i g Hi. rewrite list_lookup_alter in Hi. case_decide as E.
      * subst i. rewrite lookup_app_l in Hi by lia. destruct (o_groups s !! o_dp s) as [h|] eqn:Ei; [|done].
        destruct (Hg _ h Ei) as [H1 H2 H3 H4 H5]. injection Hi as <-. split; [done|done|done| |done].
        cbn. rewrite bool_decide_eq_false_2 by lia. f_equal. lia.
      * apply lookup_app_Some in Hi as [Hi|[Hge Hi]].
        -- destruct (Hg _ g Hi) as [H1 H2 H3 H4 H5]. apply lookup_lt_Some in Hi. split; [done|done|done| |done].
           rewrite H4. by rewrite !bool_decide_eq_false_2 by lia.
        -- apply list_lookup_singleton_Some in Hi as [Hi <-]. assert (i = length (o_groups s)) as -> by lia.
           split; cbn; [lia|by rewrite Hn| | |by split]; [by rewrite <- Hd|]. rewrite bool_decide_eq_true_2; [done|lia].
    + rewrite Hm, Nat.add_1_r, Hn. done.
  - split; [|destruct Vp; by split|done]. cbn. apply Forall_lookup. intros i g Hi.
    assert (Hall : Forall (λ g, dp_vals (g_dp g)) (o_groups s ++ [new_group s])).
    { apply Forall_app_2; [done|]. constructor; [|constructor]. cbn. pose proof dp_init_vals as Hi0. destruct Hi0. by split. }
    rewrite Forall_lookup in Hall. rewrite list_lookup_alter in Hi. case_decide as E; [subst i|by apply (Hall i)].
    destruct ((o_groups s ++ [new_group s]) !! o_dp s) as [h|] eqn:Eh; [|done]. injection Hi as <-.
    cbn. by destruct (Hall _ h Eh); split.
Qed.

(** ** The options with more to them *)

Context (Hjunk : fresh junk) (Hfopen : ∀ n f, fopen n = Some f → bytes_wf (f_read f)).
Context (Hcache : ∀ n t, cache_text n = Some t → lengths_ok t = true).
Context (Hpton : ∀ f s a, f = AF_INET ∨ f = AF_INET6 → inet_pton f s = Some a → bytes_wf a ∧ blen a = ip_size f).
Context (Hgai : finds_addresses getaddrinfo) (Hstrtof : ∀ s, end_of s (strtof s).2).

(** Behind every [p] there is an equals sign. *)
Fixpoint auto_arg_ok (e : bytes) : bool :=
  match e with
  | [] => true
  | c :: e' => (negb (c =? ch "p") || bool_decide (is_Some (strchr e (ch "=")))) && auto_arg_ok e'
  end.
Lemma auto_arg_ok_end e t : end_of e t → auto_arg_ok e = true → auto_arg_ok t = true.
Proof.
  intros (k & _ & ->). revert k. induction e as [|c e IH]; intros k; [by rewrite drop_nil|].
  destruct k as [|k]; [done|]. intros H. cbn [auto_arg_ok] in H. apply andb_true_iff in H as [_ H]. by apply IH.
Qed.
Lemma end_of_strchr e c t : strchr e c = Some t → end_of e t.
Proof.
  induction e as [|x e IH]; cbn; [done|]. destruct (x =? c); [intros [= <-]; apply end_of_refl|]. intros H. by apply end_of_cons, IH.
Qed.
Lemma end_of_comma e t : comma e = Some t → end_of e t.
Proof.
  unfold comma. destruct (strchr e (ch ",")) as [r|] eqn:E; [|done]. intros [= <-].
  exact (end_of_trans _ _ _ (end_of_strchr _ _ _ E) (end_of_tail r)).
Qed.
Lemma end_of_length s t : end_of s t → (length t ≤ length s)%nat.
Proof. intros (k & _ & ->). rewrite length_drop. lia. Qed.

Lemma wp_parse_auto optarg : auto_arg_ok optarg = true → wp (parse_auto optarg) (λ r, 0 <= r.1.2 < 2 ^ 5).
Proof.
  intros Ha. unfold parse_auto.
  apply (wp_loop _ (λ x, auto_arg_ok x.1.1 = true ∧ 0 <= x.1.2 < 2 ^ 5) (λ x, length x.1.1)); [|done|cbn; lia].
  intros [[e det] pri] [He Hd]. cbn in He, Hd. unfold auto_body.
  assert (Hgo : ∀ t d p, end_of e t → 0 <= d < 2 ^ 5 →
    wp (Ok (match comma t with Some e => inl (e, d, p) | None => inr (true, d, p) end : bytes * Z * option Z + bool * Z * option Z))
    (λ r, match r with inl s' => (auto_arg_ok s'.1.1 = true ∧ 0 <= s'.1.2 < 2 ^ 5) ∧ (length s'.1.1 < length e)%nat
          | inr x => 0 <= x.1.2 < 2 ^ 5 end)).
  { intros t d p Ht Hdd. apply wp_ok. destruct (comma t) as [e'|] eqn:Ec; cbn; [|done].
    pose proof (end_of_trans _ _ _ Ht (end_of_comma _ _ Ec)) as Hend. apply comma_length in Ec.
    apply end_of_length in Ht. split; [|lia]. split; [by apply (auto_arg_ok_end e)|done]. }
  destruct (find _ detects) as [[c f]|] eqn:Ef.
  { apply Hgo; [apply end_of_refl|]. apply lor_range; [lia|done|]. by apply (table_find 5 detects (here e) c f). }
  destruct (Z.eqb_spec (here e) (ch "p")) as [Hp|]; [|by apply wp_ok].
  destruct e as [|c e]; [done|]. cbn [here] in Hp. subst c. cbn [auto_arg_ok] in He. rewrite Z.eqb_refl in He. cbn [negb orb] in He.
  apply andb_true_iff in He as [He1 He2]. apply bool_decide_eq_true in He1 as [t Ht]. rewrite Ht.
  pose proof (Hstrtof (tail t)) as Hs. destruct (strtof (tail t)) as [f r]. cbn in Hs. destruct (negb (here r =? 0)); [by apply wp_ok|].
  apply Hgo; [|done]. apply (end_of_trans _ t); [by apply end_of_strchr in Ht|]. exact (end_of_trans _ _ _ (end_of_tail t) Hs).
Qed.

Lemma opt_auto_ok optarg s : ok s → auto_arg_ok optarg = true → swp (opt_auto optarg) s post.
Proof.
  intros Hs Ha. unfold opt_auto. sstep. sstep. sstep. sstep. destruct (_ <? _).
  { sstep. sstep. sstep. apply post_ok. destruct Hs as [[] []]. by split; split. }
  sstep. apply swp_the_group; [apply Hs|]. intros g Hg. sstep.
  assert (Hif : ∀ b : bool, swp (if b then modify (set_o_all_limited false) else skip) s (λ _ s', ok s')).
  { intros []; [|done]. sstep. destruct Hs as [[] []]. by split; split. }
  generalize (o_get s) as gs. intros gs.
  eapply swp_mono; [apply Hif|]. cbv beta. clear s Hs g Hg Hif. intros _ s Hs. sstep. sstep. apply swp_added.
  pose proof (added_ok s Hs) as Hadd. assert (Hne : o_dp s ≠ o_dp (added s)).
  { cbn. pose proof (lk_dp s (proj1 Hs)). lia. }
  set (prev := o_dp s) in *. clearbody prev. revert Hadd Hne. generalize (added s). clear s Hs. intros s Hs Hne.
  sstep. sstep. eapply wp_mono; [by apply wp_parse_auto|]. cbv beta. intros [[b det] pri] Hd. cbn in Hd.
  sstep. apply swp_updd. sstep. set (s1 := with_dp _ s). assert (H1 : ok s1).
  { apply with_dp_ok; [done|node|]. intros d []. split; cbn; try done. by apply lor_range. }
  assert (H2 : swp (match pri with Some p => upd_group prev (λ g, set_g_dp (set_dp_pri p (g_dp g)) g) | None => skip end) s1 (λ _ s', ok s')).
  { destruct pri as [p|]; [|done]. change (ok (with_group prev (λ g, set_g_dp (set_dp_pri p (g_dp g)) g) s1)). destruct H1 as [Hl Hv]. split.
    - apply with_group_linked; [done|]. intros g _. by intros [].
    - apply with_group_values; [done|]. intros g _ []. by split. }
  eapply swp_mono; [exact H2|]. cbv beta. clear - Hfopen. intros _ s Hs. sstep. apply swp_the_group; [apply Hs|]. intros g Hg. sstep.
  assert (Hif : ∀ b : bool, swp (if b then updp (set_pr_auto_reconnect true) else skip) s (λ _ s', ok s')).
  { intros []; [|done]. apply swp_updp, with_pr_ok; [done|done|vals]. }
  eapply swp_mono; [apply Hif|]. cbv beta. clear s Hs g Hg Hif. intros _ s Hs. sstep. apply swp_updg. sstep. apply post_ok.
  destruct Hs as [Hl Hv]. split; [by apply with_group_linked|by apply with_group_values].
Qed.

(** The list of groups is walked to its end. *)
Lemma find_group_ok id s x fuel : linked s → (∀ i, x = Some i → (i < length (o_groups s))%nat) →
  (S (length (o_groups s)) < fuel)%nat →
  swp (sloop (find_group_body id) fuel x) s (λ r s', s' = s ∧ ∀ i, r = Some i → (i < length (o_groups s))%nat).
Proof.
  intros Hl Hx Hf.
  apply (swp_sloop _ (λ x s', s' = s ∧ ∀ i, x = Some i → (i < length (o_groups s))%nat)
    (λ x, match x with Some i => S (length (o_groups s) - i) | None => O end)); [|done|destruct x; lia].
  clear x Hx Hf fuel. intros [i|] s' [-> Hi]; cbn [find_group_body]; [|sstep; by split].
  destruct (lookup_lt_is_Some_2 (o_groups s) i (Hi i eq_refl)) as [g Hg]. sstep. apply (swp_group_at _ _ g); [done|]. sstep.
  destruct (_ =? _); [by split|]. pose proof (nd_next _ _ _ (lk_nodes s Hl i g Hg)) as Hn. rewrite Hn.
  pose proof (Hi i eq_refl). case_bool_decide; (split; [split; [done|]|lia]); [by intros|]. intros j [= <-]. lia.
Qed.

Lemma opt_copy_ok optarg s : ok s → swp (opt_copy optarg) s post.
Proof.
  intros Hs. unfold opt_copy. sstep. sstep. sstep. sstep. destruct (_ <? _); [by apply post_ok|].
  destruct (_ =? ch "i").
  { sstep. apply swp_updd. sstep. apply post_ok, with_dp_ok; [done|node|]. intros d []. split; cbn; try done. lia. }
  sstep. sstep. sstep. eapply swp_mono; [apply find_group_ok; [apply Hs| |lia]|].
  { intros i. destruct (o_groups s) as [|g l]; [done|]. intros [= <-]. cbn. lia. }
  cbv beta. intros [i|] s' [-> Hi]; [|by apply post_ok].
  destruct (lookup_lt_is_Some_2 (o_groups s) i (Hi i eq_refl)) as [g Hg]. sstep. apply (swp_group_at _ _ g); [done|].
  sstep. sstep. sstep. sstep. sstep. apply post_ok. destruct Hs as [[] []]. by split; split.
Qed.

Lemma opt_timeout_ok optarg s : ok s → swp (opt_timeout optarg) s post.
Proof.
  intros Hs. unfold opt_timeout. destruct (strtof optarg) as [f e].
  assert (Hup : ∀ g s, ok s → (∀ p, pr_dp_full_mask (g p) = pr_dp_full_mask p) → (∀ p, pr_vals p → pr_vals (g p)) → ok (with_pr g s))
    by (intros; by apply with_pr_ok).
  assert (Hstep : ∀ (set : F → params → params) e s (k : bytes → OPT after),
    (∀ v p, pr_dp_full_mask (set v p) = pr_dp_full_mask p) → (∀ v p, pr_vals p → pr_vals (set v p)) → ok s →
    (∀ e s, ok s → swp (k e) s post) →
    swp (e ← (if here e =? ch ":" then let '(f, e) := strtof (tail e) in updp (set f);; mret e else mret e); k e) s post).
  { intros set e0 s0 k H1 H2 H0 Hk. sstep. destruct (_ =? _); [|by apply Hk]. destruct (strtof (tail e0)) as [f1 e1].
    sstep. apply swp_updp. sstep. apply Hk, with_pr_ok; [done|apply H1|apply H2]. }
  sstep. apply swp_updp. assert (H0 : ok (with_pr (set_pr_timeout (f_ms f)) s)) by (apply Hup; [done|done|vals]).
  revert H0. generalize (with_pr (set_pr_timeout (f_ms f)) s). clear s Hs. intros s Hs.
  apply (Hstep (λ f, set_pr_ptimeout (f_ms f))); [done|intros v; vals|done|]. clear s Hs e. intros e s Hs.
  apply (Hstep (λ f, set_pr_to_count_lim (f_int f))); [done|intros v; vals|done|]. clear s Hs e. intros e s Hs.
  apply (Hstep (λ f, set_pr_to_bytes_lim (f_int f))); [done|intros v; vals|done|]. clear s Hs e. intros e s Hs.
  sstep. by apply post_ok.
Qed.

Lemma opt_cache_file_ok optarg s : ok s → swp (opt_cache_file optarg) s post.
Proof.
  intros Hs. unfold opt_cache_file. sstep. apply swp_updg.
  assert (H1 : ok (with_group (o_dp s) (set_g_cache_file (Some optarg)) s)).
  { destruct Hs. split; [by apply with_group_linked|by apply with_group_values]. }
  revert H1. generalize (with_group (o_dp s) (set_g_cache_file (Some optarg)) s). clear s Hs. intros s Hs.
  case_bool_decide; [by apply post_ok|]. destruct (cache_text optarg) as [t|] eqn:Et; [|by apply post_ok].
  sstep. sstep. sstep. sstep. sstep. sstep. destruct Hs as [[Hn Hd Hg Hm Hp] Hv].
  eapply wp_mono; [apply load_cache_total; [done|apply Hp|apply Hp|by apply (Hcache optarg)]|]. cbv beta. intros hdr Hh.
  sstep. sstep. sstep. apply post_ok. destruct Hv. by split; split.
Qed.

Lemma opt_hosts_ok optarg s : ok s → swp (opt_hosts optarg) s post.
Proof.
  intros Hs. unfold opt_hosts. sstep. apply swp_the_group; [apply Hs|]. intros g Hg.
  set (hosts := match dp_hosts (g_dp g) with Some h => h | None => _ end). assert (Hh : names_ok hosts).
  { pose proof (nd_pools _ _ _ (lk_nodes s (proj1 Hs) _ g Hg)) as [Hp _]. unfold hosts.
    destruct (dp_hosts (g_dp g)) as [h|]; [by apply Hp|apply names_ok_empty]. }
  clearbody hosts. assert (Hset : ∀ h s, names_ok h → ok s → ok (with_dp (set_dp_hosts (Some h)) s)).
  { intros h s0 Hh0 H0. apply with_dp_ok; [done| |vals]. intros n i d [? ? ? ? [? ?]]. split; try done. split; [|done]. by intros ? [= <-]. }
  sstep. apply swp_updd. pose proof (Hset hosts s Hh Hs) as Hs1. revert Hs1. generalize (with_dp (set_dp_hosts (Some hosts)) s).
  clear s Hs g Hg. intros s Hs. sstep. sstep. apply wp_ftob; [done|apply Hfopen|]. intros [data|] Hd; [|by apply post_ok].
  destruct (Hd data eq_refl) as [Hw _]. sstep. sstep. set (s1 := set_o_need_free _ s).
  assert (Hs1 : ok s1) by (destruct Hs as [[] []]; by split; split). sstep. sstep. rewrite parse_hosts_ok by done.
  destruct (mem_add_all_names (hosts_of data) hosts Hh) as (h & -> & Hh1); [by apply hosts_wf|]. apply wp_ok.
  sstep. apply swp_updd. sstep. apply post_ok. by apply Hset.
Qed.

Lemma opt_ipset_ok optarg s : ok s → swp (opt_ipset optarg) s post.
Proof.
  intros Hs. unfold opt_ipset. sstep. sstep. apply wp_ftob; [done|apply Hfopen|]. intros [data|] Hd; [|by apply post_ok].
  sstep. apply swp_the_group; [apply Hs|]. intros g Hg.
  set (ipset := match dp_ipset (g_dp g) with Some h => h | None => _ end). assert (Hh : pool_ok bit_dom ipset ∧ mp_cmp_type ipset = CMP_BITS).
  { pose proof (nd_pools _ _ _ (lk_nodes s (proj1 Hs) _ g Hg)) as [_ Hp]. unfold ipset.
    destruct (dp_ipset (g_dp g)) as [h|]; [by apply Hp|]. split; [apply (pool_ok_empty bit_dom)|done]. }
  clearbody ipset. destruct Hh as [Hh Ht]. sstep. sstep. rewrite (parse_ipset_ok inet_pton Hpton).
  destruct (mem_add_all_ok bit_dom bit_key (nets_of inet_pton data) ipset (pool_elems ipset)) as (h & -> & Hh1 & Ht1 & _); [done|intros x; by split| |].
  { eapply Forall_impl; [by apply nets_wf|]. intros [raw n] [Hw Hn]. split; [exact Ht|]. split; [exact Hw|exact Hn]. }
  apply wp_ok. sstep. apply swp_updd. sstep. apply post_ok, with_dp_ok; [done| |vals].
  intros n i d [? ? ? ? [? ?]]. split; try done. split; [done|]. intros ? [= <-]. split; [done|congruence].
Qed.

Lemma part_init_ok : part_ok part_init.
Proof. unfold part_ok, long_max. cbn. lia. Qed.
Lemma opt_part_ok m optarg s : ok s → swp (opt_part m optarg) s post.
Proof.
  intros Hs. unfold opt_part. destruct (parse_offset part_init optarg) as [p|] eqn:E; sstep; apply swp_updd; sstep.
  - apply (parse_offset_ok _ _ _ part_init_ok) in E. apply post_ok, with_dp_ok; [done|node|].
    intros d []. split; cbn; try done. apply Forall_app_2; [done|]. by constructor.
  - apply post_linked; [|done]. apply with_dp_linked; [apply Hs|node].
Qed.
Lemma opt_tlsrec_ok optarg s : ok s → swp (opt_tlsrec optarg) s post.
Proof.
  intros Hs. unfold opt_tlsrec. destruct (parse_offset part_init optarg) as [p|] eqn:E; sstep; apply swp_updd; sstep.
  - apply (parse_offset_ok _ _ _ part_init_ok) in E. destruct (Z.ltb_spec 65535 (p_pos p)).
    { apply post_linked; [|done]. apply with_dp_linked; [apply Hs|node]. }
    apply post_ok, with_dp_ok; [done|node|]. intros d []. split; cbn; try done. apply Forall_app_2; [done|]. by constructor.
  - apply post_linked; [|done]. apply with_dp_linked; [apply Hs|node].
Qed.
Lemma opt_fake_offset_ok optarg s : ok s → swp (opt_fake_offset optarg) s post.
Proof.
  intros Hs. unfold opt_fake_offset. sstep. apply swp_the_group; [apply Hs|]. intros g Hg.
  destruct (parse_offset _ optarg) as [p|] eqn:E; [|by apply post_ok].
  apply parse_offset_ok in E; [|apply (group_vals s g _ (proj2 Hs) Hg)]. sstep. apply swp_updd. sstep.
  apply post_ok, with_dp_ok; [done|node|]. by intros d []; split.
Qed.

Lemma opt_fake_mod_ok optarg s : ok s → swp (opt_fake_mod optarg) s post.
Proof.
  intros Hs. unfold opt_fake_mod. sstep. sstep.
  apply (wp_loop _ (λ x, 0 <= x.1.2 < 2 ^ 2) (λ x, length x.1.1)); [|cbn; lia|cbn; lia].
  - intros [[e fl] size] Hfl. cbn in Hfl. unfold fake_mod_body.
    assert (Hgo : ∀ t v p, (length t ≤ length e)%nat → 0 <= v < 2 ^ 2 →
      ∀ P : bytes * Z * option Z + bool * Z * option Z → Prop,
      (∀ x, 0 <= x.1.2 < 2 ^ 2 → (length x.1.1 < length e)%nat → P (inl x)) → (∀ x, 0 <= x.1.2 < 2 ^ 2 → P (inr x)) →
      wp (Ok (match comma t with Some e => inl (e, v, p) | None => inr (true, v, p) end)) P).
    { intros t v p Ht Hv P H1 H2. apply wp_ok. destruct (comma t) as [e'|] eqn:Ec; [|by apply H2].
      apply comma_length in Ec. apply H1; [done|cbn; lia]. }
    match goal with |- wp _ ?P => assert (Hdone : ∀ x, 0 <= x.1.2 < 2 ^ 2 → P (inr x)) end.
    { intros [[b v] sz] Hv. cbn in Hv |- *. sstep. apply swp_updd. set (s1 := with_dp _ s). assert (H1 : ok s1).
      { apply with_dp_ok; [done|node|]. intros d []. split; cbn; try done. by apply lor_range. }
      clearbody s1. sstep. destruct sz as [sz|].
      - apply swp_updd. sstep. apply post_ok, with_dp_ok; [done|node|vals].
      - sstep. sstep. by apply post_ok. }
    destruct (find _ fake_mods) as [[c f]|] eqn:Ef.
    { apply Hgo; [lia| |intros x ? ?; by split|exact Hdone]. apply lor_range; [lia|done|]. by apply (table_find 2 fake_mods (here e) c f). }
    destruct (if here e =? ch "m" then strchr e (ch "=") else None) as [t|] eqn:Et; [|by apply wp_ok, (Hdone (false, fl, size))].
    assert (Ht : (length t ≤ length e)%nat).
    { destruct (here e =? ch "m"); [|done]. by apply strchr_length in Et as [? _]. }
    pose proof (strtol_length 0 (tail t)) as Hl. destruct (strtol 0 (tail t)) as [v r]. cbn in Hl.
    destruct (_ || _); [by apply wp_ok, (Hdone (false, fl, size))|]. apply Hgo; [destruct t; cbn in *; lia|done|intros x ? ?; by split|exact Hdone].
Qed.

Lemma opt_fake_data_ok optarg s : ok s → swp (opt_fake_data optarg) s post.
Proof.
  intros Hs. unfold opt_fake_data. sstep. apply swp_the_group; [apply Hs|]. intros g Hg.
  case_bool_decide; [by apply post_ok|]. sstep. sstep. apply wp_ftob; [done|apply Hfopen|].
  intros [data|] Hd; [|by apply post_ok]. destruct (Hd data eq_refl) as [_ Hl]. sstep. apply swp_updd. sstep.
  apply post_ok, with_dp_ok; [done|node|]. intros d []. split; cbn; try done. by intros p [= <-].
Qed.

Lemma opt_oob_ok optarg s : ok s → swp (opt_oob optarg) s post.
Proof.
  intros Hs. unfold opt_oob. sstep. apply swp_the_group; [apply Hs|]. intros g Hg.
  destruct (v_oob _ (group_vals s g _ (proj2 Hs) Hg)) as [H0 H1].
  destruct (dp_oob_char (g_dp g)) as [c0 c1]. cbn in H0, H1. sstep. sstep.
  apply wp_parse_cform; [by vm_compute| |].
  { constructor; [done|]. constructor; [unfold is_byte; lia|constructor]. }
  intros i b Hi Hl Hw. destruct (i =? 1); cbn [negb]; sstep; apply swp_updd; sstep.
  - apply post_ok, with_dp_ok; [done|node|]. intros d []. split; cbn; try done. split; [by apply bat_byte|lia].
  - apply post_linked; [|done]. apply with_dp_linked; [apply Hs|node].
Qed.

Lemma opt_connect_to_ok optarg s : ok s → swp (opt_connect_to optarg) s post.
Proof.
  intros Hs. unfold opt_connect_to. sstep. apply swp_the_group; [apply Hs|]. intros g Hg.
  pose proof (v_out_addr _ (group_vals s g _ (proj2 Hs) Hg)) as Ha.
  destruct (match get_addr_scheme getaddrinfo optarg (dp_out_addr (g_dp g)) with Some _ => _ | None => _ end) as [type addr] eqn:E.
  assert (Hta : 0 <= type < 65536 ∧ blen addr = 28).
  { destruct (get_addr_scheme _ _ _) as [[m a]|] eqn:Eg; injection E as <- <-; [|split; [by vm_compute|done]].
    apply get_addr_scheme_ok in Eg as (? & ? & _); [|done..]. split; [lia|done]. }
  destruct Hta as [Ht Hb]. sstep. apply swp_updd. sstep. apply swp_updp. sstep.
  destruct (Z.eqb_spec (Z.land type OUT_SUPPORT) type) as [Hland|], (Z.eqb_spec (port_raw addr) 0) as [|Hp]; cbn [negb orb].
  2: { apply post_ok, with_pr_ok; [|done|vals]. apply with_dp_ok; [done|node|]. intros d []. split; cbn; try done.
       split; [|done]. by destruct (Z.eqb_spec type 0). }
  all: apply post_linked; [|done]; destruct (with_dp_linked (λ d, set_dp_out_type (if type =? 0 then MODE_SOCKS5 else type) (set_dp_out_addr addr d)) s (proj1 Hs)) as [? ? ? ? ?];
    [node|by split].
Qed.

Lemma opt_range_ok hi optarg first second s : hi <= INT_MAX → ok s →
  (∀ v s, 1 <= v <= hi → ok s → swp (first v) s (λ _ s', ok s')) →
  (∀ v s, 1 <= v <= hi → ok s → swp (second v) s (λ _ s', ok s')) →
  (∀ v s, linked s → swp (second v) s (λ _ s', linked s')) → swp (opt_range hi optarg first second) s post.
Proof.
  intros Hhi Hs H1 H2 H3. unfold opt_range. destruct (strtol 0 optarg) as [v e].
  destruct (Z.leb_spec v 0), (Z.ltb_spec hi v); cbn [orb]; [by apply post_ok..|].
  sstep. eapply swp_mono; [apply H1; [lia|done]|]. cbv beta. clear s Hs. intros _ s Hs.
  destruct (here e =? ch "-").
  - destruct (strtol 0 (tail e)) as [w r]. destruct (negb _); [by apply post_ok|]. sstep.
    destruct (Z.leb_spec w 0), (Z.ltb_spec hi w); cbn [orb].
    1, 2, 3: eapply swp_mono; [apply H3, Hs|]; cbv beta; intros _ s' Hl; sstep; by apply post_linked.
    eapply swp_mono; [apply H2; [lia|done]|]. cbv beta. intros _ s' Hs'. sstep. by apply post_ok.
  - destruct (negb _); [by apply post_ok|]. sstep.
    eapply swp_mono; [apply H2; [lia|done]|]. cbv beta. intros _ s' Hs'. sstep. by apply post_ok.
Qed.

Lemma addr_set a a' : addr_ok a → blen a' = 28 →
  sa_family a' = sa_family a ∨ sa_family a' = AF_INET ∨ sa_family a' = AF_INET6 → addr_ok a'.
Proof. intros [_ Ha] Hl Hf. split; [done|]. destruct Hf as [->|]; [done|done]. Qed.

Ltac updates := repeat (sstep || apply swp_updp || apply swp_updd || apply swp_updg).
Lemma general_opt_ok rez optarg m s : ok s → general_opt rez optarg = Some m → swp m s post.
Proof.
  intros Hs. unfold general_opt.
  assert (Hset : ∀ f, (∀ p, pr_dp_full_mask (f p) = pr_dp_full_mask p) → (∀ p, pr_vals p → pr_vals (f p)) →
    swp (updp f;; mret Next) s post).
  { intros f H1 H2. updates. apply post_ok. by apply with_pr_ok. }
  repeat (match goal with |- (if ?b then _ else _) = _ → _ => destruct b; [intros [= <-]|] end); [..|done].
  - apply Hset; [done|vals].
  - apply Hset; [done|vals].
  - apply Hset; [done|vals].
  - by split; [apply Hs|].
  - by split; [apply Hs|].
  - updates. destruct (get_addr_scheme _ _ _) as [[mode a]|] eqn:E; [|by apply post_ok].
    pose proof (vs_laddr _ (proj2 Hs)) as [Hl Hlp]. apply get_addr_scheme_ok in E as (Hm & Ha & Hf & Hp); [|done|apply Hl].
    updates. apply post_ok. assert (H1 : ok (set_o_laddr a s)).
    { destruct Hs as [[] []]. split; split; try done. cbn. split; [by apply (addr_set (o_laddr s))|by apply Hp]. }
    apply with_pr_ok; [done|done|]. intros p []. split; cbn; try done. by apply (lor_range _ _ 7).
  - apply swp_opt_val; [done|]. intros v _ Hv. updates. destruct Hs as [[] [? ? [Hl Hp]]]. split; split; try done. cbn.
    destruct Hl as [Hl Hf]. unfold addr_ok. rewrite sa_family_port by (rewrite ?blen_enc16; lia). unfold set_port at 1.
    rewrite blen_put by (rewrite ?blen_enc16; lia). split; [done|]. rewrite port_raw_set by lia.
    apply orb_false_iff in Hv as [? ?]. Z.to_euclidean_division_equations. lia.
  - updates. destruct (get_addr _ _ _) as [a|] eqn:E; [|by apply post_ok].
    pose proof (v_baddr _ (vs_params _ (proj2 Hs))) as Hb. apply get_addr_ok in E as (Ha & Hf & _); [|done|apply Hb].
    updates. apply post_ok. destruct Hs as [[] [? Hv ?]]. split; split; try done. cbn. destruct Hv. split; try done. cbn.
    by apply (addr_set (pr_baddr (o_params s))).
  - apply swp_opt_val; [done|]. intros v _ Hv. updates. apply with_pr_ok; [done|done|]. intros p []. split; cbn; try done. lia.
  - apply swp_opt_val; [done|]. intros v _ Hv. updates. apply with_pr_ok; [done|done|]. intros p []. split; cbn; try done.
    change (65535 / 2) with 32767 in Hv. lia.
  - updates. destruct (Z.ltb_spec (strtol 0 optarg).1 0).
    + apply post_linked; [|done]. by destruct Hs as [[] _].
    + apply post_ok, with_pr_ok; [done|done|vals].
  - updates. apply post_ok. by destruct Hs as [[] []]; split; split.
  - apply swp_opt_val; [done|]. intros v _ Hv. updates. apply with_pr_ok; [done|done|]. intros p []. split; cbn; try done. lia.
  - by apply opt_timeout_ok.
  - apply swp_opt_val; [done|]. intros v _ Hv. updates. apply with_pr_ok; [|done|vals]. apply with_pr_ok; [done|done|].
    intros p []. split; cbn; try done. lia.
  - apply Hset; [done|vals].
  - apply Hset; [done|vals].
Qed.

Lemma htons_range v : 0 <= htons v < 65536.
Proof. unfold htons, port_raw. pose proof (u8_range (Z.shiftr v 8)). pose proof (u8_range (Z.land v 255)). change (0 <= u8 (Z.shiftr v 8) + 256 * u8 (Z.land v 255) < 65536). lia. Qed.

Lemma group_opt_ok rez optarg s : ok s → (rez = ch "A" → auto_arg_ok optarg = true) → swp (group_opt rez optarg) s post.
Proof.
  intros Hs Ha. unfold group_opt.
  assert (Hset : ∀ f, (∀ n i d, node_ok n i d → node_ok n i (f d)) → (∀ d, dp_vals d → dp_vals (f d)) → swp (updd f;; mret Next) s post).
  { intros f H1 H2. updates. apply post_ok. by apply with_dp_ok. }
  assert (Hgrp : ∀ f, (∀ g, g_dp (f g) = g_dp g) → swp (updg f;; mret Next) s post).
  { intros f H1. updates. apply post_ok. destruct Hs. split; [apply with_group_linked|apply with_group_values]; try done; intros g _; by rewrite H1. }
  assert (Hval : ∀ (f : Z → desync_params → desync_params) v, (∀ n i d, node_ok n i d → node_ok n i (f v d)) →
    (∀ d, dp_vals d → dp_vals (f v d)) → swp (updd (f v)) s (λ _ s', ok s')).
  { intros f v H1 H2. updates. by apply with_dp_ok. }
  repeat (lazymatch goal with
    | |- swp (if ?b then opt_auto _ else _) _ _ =>
        destruct b eqn:E; [by apply opt_auto_ok; [|apply Ha, Z.eqb_eq]|clear E]
    | |- swp (if ?b then _ else _) _ _ => destruct b
    end).
  all: match goal with
    | |- swp (opt_cache_file _) _ _ => by apply opt_cache_file_ok
    | |- swp (opt_copy _) _ _ => by apply opt_copy_ok
    | |- swp (opt_hosts _) _ _ => by apply opt_hosts_ok
    | |- swp (opt_ipset _) _ _ => by apply opt_ipset_ok
    | |- swp (opt_part _ _) _ _ => by apply opt_part_ok
    | |- swp (opt_tlsrec _) _ _ => by apply opt_tlsrec_ok
    | |- swp (opt_fake_offset _) _ _ => by apply opt_fake_offset_ok
    | |- swp (opt_fake_mod _) _ _ => by apply opt_fake_mod_ok
    | |- swp (opt_fake_data _) _ _ => by apply opt_fake_data_ok
    | |- swp (opt_oob _) _ _ => by apply opt_oob_ok
    | |- swp (opt_connect_to _) _ _ => by apply opt_connect_to_ok
    | |- swp (updg _;; _) _ _ => by apply Hgrp
    | |- swp (updd _;; _) _ _ => apply Hset; [node|vals]
    | |- swp (mret _) _ _ => by split; [apply Hs|intros; apply Hs]
    | |- _ => idtac
    end.
  - apply (swp_opt_flags 3); [lia|done|done|]. intros v Hv. apply (Hval (λ v d, set_dp_auto_level (Z.lor (dp_auto_level d) v) d)); [node|].
    intros d []. split; cbn; try done. by apply (lor_range _ _ 3).
  - apply swp_opt_val; [done|]. intros v Hr Hv. apply (Hval (λ v, set_dp_cache_ttl v)); [node|]. intros d []. split; cbn; try done. lia.
  - apply (swp_opt_flags 5); [lia|done|done|]. intros v Hv. apply (Hval (λ v d, set_dp_proto (Z.lor (dp_proto d) v) d)); [node|].
    intros d []. split; cbn; try done. by apply (lor_range _ _ 5).
  - apply swp_opt_val; [done|]. intros v Hr Hv. apply (Hval (λ v, set_dp_ttl v)); [node|]. intros d []. split; cbn; try done. lia.
  - apply (swp_opt_flags 3); [lia|done|done|]. intros v Hv. apply (Hval (λ v d, set_dp_mod_http (Z.lor (dp_mod_http d) v) d)); [node|].
    intros d []. split; cbn; try done. by apply (lor_range _ _ 3).
  - apply swp_opt_val; [done|]. intros v Hr Hv. apply (Hval (λ v, set_dp_tlsminor (Some v))); [node|]. intros d []. split; cbn; try done.
    intros w [= <-]. lia.
  - apply swp_opt_val; [done|]. intros v Hr Hv. apply (Hval (λ v, set_dp_udp_fake_count v)); [node|]. intros d []. split; cbn; try done. lia.
  - apply opt_range_ok; [unfold INT_MAX; lia|done|..]; intros v s0; [intros _ H0|intros _ H0|intros H0]; updates.
    + apply with_dp_ok; [done|node|]. intros d []. split; cbn; try done. split; [apply htons_range|lia].
    + apply with_dp_ok; [done|node|]. intros d []. split; cbn; try done. split; [lia|apply htons_range].
    + apply with_dp_linked; [done|node].
  - apply opt_range_ok; [lia|done|..]; intros v s0; [intros ? H0|intros ? H0|intros H0]; updates.
    + apply with_dp_ok; [done|node|]. intros d []. split; cbn; try done. lia.
    + apply with_dp_ok; [done|node|]. intros d []. split; cbn; try done. lia.
    + apply with_dp_linked; [done|node].
Qed.

Lemma option_case_ok rez optarg s : ok s → (rez = ch "A" → auto_arg_ok optarg = true) → swp (option_case rez optarg) s post.
Proof.
  intros Hs Ha. unfold option_case. destruct (general_opt rez optarg) as [m|] eqn:E; [|by apply group_opt_ok].
  by apply (general_opt_ok rez optarg).
Qed.

(** ** What the options leave alone *)

(** No option but -A and -B touches what [getopt_long] goes by. *)
Definition keeps {A} (m : OPT A) : Prop := ∀ s r s', m s = Ok (r, s') → o_get s' = o_get s ∧ o_curr_optind s' = o_curr_optind s.
Lemma keeps_ret {A} (a : A) : keeps (mret a).
Proof. by intros s r s' [= <- <-]. Qed.
Lemma keeps_bind {A B} (m : OPT A) (f : A → OPT B) : keeps m → (∀ a, keeps (f a)) → keeps (m ≫= f).
Proof.
  intros Hm Hf s r s'. unfold mbind, st_bind, mbind, comp_bind. destruct (m s) as [[a s1]|] eqn:E; [|done].
  intros E1. apply Hm in E as [<- <-]. by apply (Hf a) in E1.
Qed.
Lemma keeps_lift {A} (c : comp A) : keeps (lift c).
Proof. intros s r s'. unfold lift. destruct c; [|done]. by intros [= _ <-]. Qed.
Lemma keeps_gets {A} (f : popt → A) : keeps (gets f).
Proof. by intros s r s' [= <- <-]. Qed.
Lemma keeps_modify f : (∀ s, o_get (f s) = o_get s ∧ o_curr_optind (f s) = o_curr_optind s) → keeps (modify f).
Proof. intros Hf s r s' [= _ <-]. apply Hf. Qed.
Lemma keeps_group i : keeps (group_at i).
Proof. apply keeps_bind; [apply keeps_gets|intros; apply keeps_lift]. Qed.
Lemma keeps_add prev : keeps (add_group prev).
Proof.
  unfold add_group. repeat (apply keeps_bind; [|intros]); try apply keeps_gets; try apply keeps_ret; try (by apply keeps_modify).
  destruct prev; [by apply keeps_modify|apply keeps_modify; done].
Qed.
Lemma keeps_if {A} (b : bool) (m n : OPT A) : keeps m → keeps n → keeps (if b then m else n).
Proof. by destruct b. Qed.
Lemma keeps_option {A B} (x : option A) (f : A → OPT B) n : (∀ a, keeps (f a)) → keeps n → keeps (match x with Some a => f a | None => n end).
Proof. by destruct x. Qed.
Lemma keeps_pair {A B C} (x : A * B) (f : A → B → OPT C) : (∀ a b, keeps (f a b)) → keeps (let '(a, b) := x in f a b).
Proof. by destruct x. Qed.
Lemma keeps_triple {A B C D} (x : A * B * C) (f : A → B → C → OPT D) : (∀ a b c, keeps (f a b c)) → keeps (let '(a, b, c) := x in f a b c).
Proof. by destruct x as [[]]. Qed.

Ltac keep := repeat first
  [ apply keeps_ret | apply keeps_gets | apply keeps_lift | apply keeps_group | apply keeps_add
  | apply keeps_bind; [|intro] | apply keeps_modify; done | apply keeps_option; [intro|] | apply keeps_if
  | apply keeps_pair; intros ? ? | apply keeps_triple; intros ? ? ? ].

Lemma keeps_val optarg bad set : (∀ v, keeps (set v)) → keeps (opt_val optarg bad set).
Proof. intros H. unfold opt_val. keep. apply H. Qed.
Lemma keeps_flags table optarg set : (∀ v, keeps (set v)) → keeps (opt_flags table optarg set).
Proof. intros H. unfold opt_flags. keep. apply H. Qed.
Lemma keeps_range hi optarg first second : (∀ v, keeps (first v)) → (∀ v, keeps (second v)) → keeps (opt_range hi optarg first second).
Proof.
  intros H1 H2. unfold opt_range. apply keeps_pair. intros v e. apply keeps_if; [keep|]. apply keeps_bind; [apply H1|]. intros _.
  apply keeps_triple. intros w r b. keep. apply H2.
Qed.
Lemma keeps_timeout optarg : keeps (opt_timeout optarg).
Proof. unfold opt_timeout. keep. Qed.

Lemma general_opt_keeps rez optarg m : general_opt rez optarg = Some m → keeps m.
Proof.
  unfold general_opt. repeat (match goal with |- (if ?b then _ else _) = _ → _ => destruct b; [intros [= <-]|] end); [..|done].
  all: try (apply keeps_val; intro); try apply keeps_timeout; try (by keep).
Qed.

Lemma group_opt_keeps rez optarg : rez ≠ ch "A" → rez ≠ ch "B" → keeps (group_opt rez optarg).
Proof.
  intros HA HB. unfold group_opt. apply Z.eqb_neq in HA, HB. rewrite HA, HB. clear HA HB.
  repeat (apply keeps_if); try (apply keeps_val; intro); try (apply keeps_flags; intro);
    try (apply keeps_range; intro); unfold updd, updg, opt_cache_file, opt_hosts, opt_ipset, opt_part, opt_tlsrec, opt_fake_offset,
    opt_fake_mod, opt_fake_data, opt_oob, opt_connect_to, the_group, upd_group; keep.
Qed.

Lemma keeps_updd f : keeps (updd f).
Proof. unfold updd, updg, upd_group. keep. Qed.
Lemma bind_gets {A B} (f : popt → A) (k : A → OPT B) s : (gets f ≫= k) s = k (f s) s.
Proof. done. Qed.
Lemma opt_auto_keeps optarg s r s' : o_curr_optind s <= optind (o_get s) → opt_auto optarg s = Ok (r, s') →
  o_get s' = o_get s ∧ o_curr_optind s' = o_curr_optind s.
Proof.
  intros Hc. unfold opt_auto. rewrite !bind_gets. rewrite (proj2 (Z.ltb_ge _ _)) by done.
  match goal with |- ?m s = _ → _ => assert (Hk : keeps m) end.
  { unfold updg, upd_group, the_group, updd. keep. }
  apply Hk.
Qed.

Lemma option_case_keeps rez optarg s r s' : rez ≠ ch "B" → (rez = ch "A" → o_curr_optind s <= optind (o_get s)) →
  option_case rez optarg s = Ok (r, s') → o_get s' = o_get s ∧ o_curr_optind s' = o_curr_optind s.
Proof.
  intros HB HA. unfold option_case. destruct (general_opt rez optarg) as [m|] eqn:E; [by apply (general_opt_keeps _ _ _ E)|].
  destruct (decide (rez = ch "A")) as [->|]; [|by apply group_opt_keeps]. change (group_opt (ch "A") optarg) with (opt_auto optarg).
  by apply opt_auto_keeps, HA.
Qed.

(** ** The whole command line *)

(** What [getopt_long] goes by is always such: it comes to an end; there is no -B; the first
    index is 1; a priority has its equals sign. *)
Context (I : G → Prop) (left : G → nat).
Context (Hget : ∀ g, I g → let '(rez, a, g') := getopt_long g in rez = -1 ∨
  I g' ∧ (left g' < left g)%nat ∧ rez ≠ ch "B" ∧ 1 <= optind g' ∧ (rez = ch "A" → auto_arg_ok a = true)).

Definition going (s : popt) : Prop := ok s ∧ I (o_get s) ∧ o_curr_optind s = 1.
Definition left_off (r : option Z) (s : popt) : Prop :=
  match r with Some r => (r = 1 ∨ r = -1) ∧ linked s | None => ok s end.

(** The values that are returned at once. *)
Definition valid (r : after) : Prop := match r with Return v => v = 1 ∨ v = -1 | _ => True end.
Definition returns (m : OPT after) : Prop := ∀ s r s', m s = Ok (r, s') → valid r.
Lemma returns_ret r : valid r → returns (mret r).
Proof. by intros Hr s r' s' [= <- _]. Qed.
Lemma returns_bind {A} (m : OPT A) f : (∀ a, returns (f a)) → returns (m ≫= f).
Proof.
  intros Hf s r s'. unfold mbind, st_bind, mbind, comp_bind. destruct (m s) as [[a s1]|]; [|done]. apply Hf.
Qed.
Lemma returns_if (b : bool) m n : returns m → returns n → returns (if b then m else n).
Proof. by destruct b. Qed.
Lemma returns_option {B} (x : option B) (f : B → OPT after) n : (∀ a, returns (f a)) → returns n → returns (match x with Some a => f a | None => n end).
Proof. by destruct x. Qed.
Lemma returns_pair {B C} (x : B * C) (f : B → C → OPT after) : (∀ a b, returns (f a b)) → returns (let '(a, b) := x in f a b).
Proof. by destruct x. Qed.
Lemma returns_triple {B C D} (x : B * C * D) (f : B → C → D → OPT after) : (∀ a b c, returns (f a b c)) → returns (let '(a, b, c) := x in f a b c).
Proof. by destruct x as [[]]. Qed.
Lemma valid_if (b : bool) m n : valid m → valid n → valid (if b then m else n).
Proof. by destruct b. Qed.
Ltac rets := repeat first
  [ apply returns_ret; first [done | by apply valid_if | by left | by right] | apply returns_bind; intro | apply returns_option; [intro|] | apply returns_if
  | apply returns_pair; intros ? ? | apply returns_triple; intros ? ? ? ].
Lemma option_case_returns rez optarg : returns (option_case rez optarg).
Proof.
  unfold option_case. destruct (general_opt rez optarg) as [m|] eqn:E.
  - revert E. unfold general_opt. repeat (match goal with |- (if ?b then _ else _) = _ → _ => destruct b; [intros [= <-]|] end); [..|done];
      unfold opt_val, opt_timeout; rets.
  - unfold group_opt, opt_val, opt_flags, opt_range, opt_cache_file, opt_auto, opt_copy, opt_hosts, opt_ipset, opt_part, opt_tlsrec,
      opt_fake_offset, opt_fake_mod, opt_fake_data, opt_oob, opt_connect_to. rets.
Qed.

Lemma swp_and_eq {A} (m : OPT A) s (P : A → popt → Prop) : swp m s P → swp m s (λ r s', P r s' ∧ m s = Ok (r, s')).
Proof. unfold swp. by destruct (m s) as [[r s']|]. Qed.

Lemma args_loop_ok s fuel : going s → (left (o_get s) < fuel)%nat → swp (sloop args_body fuel tt) s left_off.
Proof.
  intros Hs Hf. apply (swp_sloop_st _ (λ _ s, going s) (λ s, left (o_get s))); [|done|done].
  clear s Hs Hf fuel. intros [] s (Hs & Hi & Hc). unfold args_body. sstep. sstep.
  pose proof (Hget (o_get s) Hi) as Hg. destruct (getopt_long (o_get s)) as [[rez a] g']. sstep. sstep.
  set (s1 := set_o_get g' s). assert (Hs1 : ok s1) by (destruct Hs as [[] []]; by split; split).
  destruct (Z.eqb_spec rez (-1)) as [|Hne]; [exact Hs1|]. destruct Hg as [|(Hi' & Hleft & HB & Ho & HA)]; [done|].
  sstep. eapply swp_mono; [apply swp_and_eq, option_case_ok; [done|exact HA]|]. cbv beta. intros r s' [[Hl Hv] E].
  pose proof (option_case_returns _ _ _ _ _ E) as Hr. sstep.
  destruct (option_case_keeps rez a s1 r s' HB) as [Eg Ec]; [intros _; cbn; lia|exact E|]. cbn in Eg, Ec.
  destruct r as [| |v]; cbn; [|auto|auto]. rewrite Eg. split; [|done]. split; [by split; [|apply Hv]|]. split; [by rewrite Eg|lia].
Qed.

Lemma first_group s : o_groups s = [] → o_dp_n s = 0 → pr_dp_full_mask (o_params s) = 0 → pr_vals (o_params s) →
  addr_ok (o_laddr s) ∧ port_raw (o_laddr s) ≠ 0 → pool_ok bit_dom (o_mempool s) ∧ mp_cmp_type (o_mempool s) = CMP_BITS →
  swp (dp ← add_group None; modify (set_o_dp dp)) s (λ _ s', ok s' ∧ o_get s' = o_get s ∧ o_curr_optind s' = o_curr_optind s).
Proof.
  intros Hg Hn Hm Hv Hl Hp. sstep. unfold add_group. repeat (sstep || apply swp_updp). rewrite Hg, Hn. split; [|done]. split.
  - split; cbn; try done; [|by rewrite Hm]. intros [|i] g; [|done]. intros [= <-]. by split.
  - split; cbn; [|destruct Hv; by split|done]. constructor; [|constructor]. cbn. pose proof dp_init_vals as []. by split.
Qed.

(** What a run of [parse_args] leaves: on success all the values are in their ranges, and there
    is a mode; IPv6 is only on when the address to bind is of it. *)
Record accepted (s : popt) : Prop := {
  ac_ok : ok s;
  ac_mode : pr_mode (o_params s) ≠ 0;
  ac_ipv6 : pr_ipv6 (o_params s) = true → sa_family (pr_baddr (o_params s)) = AF_INET6
}.
(** What [parse_args] starts from. *)
Record at_start (s : popt) : Prop := {
  sa_get : I (o_get s);
  sa_optind : o_curr_optind s = 1;
  sa_groups : o_groups s = [];
  sa_dp_n : o_dp_n s = 0;
  sa_mask : pr_dp_full_mask (o_params s) = 0;
  sa_params : pr_vals (o_params s);
  sa_laddr : addr_ok (o_laddr s)
}.
Lemma start_port s : at_start s →
  swp (if port_raw (o_laddr s) =? 0 then modify (set_o_laddr (set_port (o_laddr s) (enc16 1080))) else skip) s
    (λ _ s', at_start s' ∧ port_raw (o_laddr s') ≠ 0 ∧ o_get s' = o_get s).
Proof.
  intros Hs. pose proof Hs as [? ? ? ? ? ? [Hl Hf]]. destruct (Z.eqb_spec (port_raw (o_laddr s)) 0) as [_|]; [|by split_and!].
  cbn. split_and!; [|rewrite port_raw_set by lia; by vm_compute|done]. split; try done. cbn. unfold addr_ok. rewrite sa_family_port by (rewrite ?blen_enc16; lia).
  split; [|done]. unfold set_port. by rewrite blen_put by (rewrite ?blen_enc16; lia).
Qed.
Lemma set_family_addr a : blen a = 28 → addr_ok (set_family a AF_INET).
Proof.
  intros Ha. unfold addr_ok, sa_family, set_family. set (f := [u8 _; _]). assert (Hf : blen f = 2) by done.
  rewrite blen_put by lia. split; [done|left]. by rewrite !bat_put by lia.
Qed.
Lemma start_baddr socket s : at_start s → port_raw (o_laddr s) ≠ 0 →
  swp (if negb (ipv6_support socket) then updp (λ p, set_pr_baddr (set_family (pr_baddr p) AF_INET) p) else skip) s
    (λ _ s', at_start s' ∧ port_raw (o_laddr s') ≠ 0 ∧ o_get s' = o_get s).
Proof.
  intros Hs Hp. destruct (negb _); [|by split_and!]. apply swp_updp. split_and!; try done. pose proof Hs as [? ? ? ? ? Hv ?].
  split; try done. cbn. destruct Hv as [? ? ? ? ? ? [Hb _]]. split; try done. by apply set_family_addr.
Qed.

Lemma args_start_ok socket s : at_start s → swp (args_start socket) s (λ _ s', going s' ∧ o_get s' = o_get s).
Proof.
  intros Hs. unfold args_start.
  sstep. sstep. sstep. eapply swp_mono; [exact (start_port s Hs)|]. cbv beta.
  intros _ s1 (H1 & Hp1 & E1). sstep. eapply swp_mono; [by apply start_baddr|]. cbv beta. intros _ s2 ([] & Hp2 & E2). sstep. sstep.
  eapply swp_mono; [apply first_group; try done; split; [apply (pool_ok_empty bit_dom)|done]|]. cbv beta.
  intros _ s3 (Hok & Eg & Ec). cbn [o_get o_curr_optind set_o_mempool] in Eg, Ec. split; [|congruence]. split; [done|]. split; congruence.
Qed.

Lemma args_end_ok s : ok s → swp args_end s (λ r s, r = 0 ∧ accepted s).
Proof.
  intros Hs.
  unfold args_end. sstep. sstep. sstep.
  assert (Hadd : ∀ b : bool, swp (if b then dp ← gets o_dp; dp ← add_group (Some dp); modify (set_o_dp dp) else skip) s (λ _ s', ok s')).
  { intros []; [|done]. by apply (added_ok s). }
  eapply swp_mono; [apply Hadd|]. cbv beta. clear s Hs Hadd. intros _ s Hs. sstep. apply swp_updp.
  assert (H1 : ok (with_pr (λ p, if sa_family (pr_baddr p) =? AF_INET6 then p else set_pr_ipv6 false p) s)).
  { apply with_pr_ok; [done|by intros p; destruct (_ =? _)|]. intros p Hp. destruct (_ =? _); [done|]. by destruct Hp; split. }
  assert (H6 : ∀ s1, s1 = with_pr (λ p, if sa_family (pr_baddr p) =? AF_INET6 then p else set_pr_ipv6 false p) s →
    pr_ipv6 (o_params s1) = true → sa_family (pr_baddr (o_params s1)) = AF_INET6).
  { intros s1 ->. cbn. destruct (Z.eqb_spec (sa_family (pr_baddr (o_params s))) AF_INET6); [done|]. done. }
  revert H1. specialize (H6 _ eq_refl). revert H6. generalize (with_pr (λ p, if sa_family (pr_baddr p) =? AF_INET6 then p else set_pr_ipv6 false p) s).
  clear s Hs. intros s H6 Hs. sstep. apply swp_updp. sstep.
  assert (H2 : ok (with_pr (λ p, if pr_mode p =? 0 then set_pr_mode (Z.lor MODE_SOCKS4 MODE_SOCKS5) p else p) s)).
  { apply with_pr_ok; [done|by intros p; destruct (_ =? _)|]. intros p Hp. destruct (_ =? _); [|done]. by destruct Hp; split. }
  split; [done|]. split; [done|..]; cbn; destruct (Z.eqb_spec (pr_mode (o_params s)) 0); done.
Qed.

Lemma parse_args_from socket fuel s : at_start s → (left (o_get s) < fuel)%nat →
  swp (parse_args socket fuel) s (λ r s, (r = 0 ∨ r = 1 ∨ r = -1) ∧ linked s ∧ (r = 0 → accepted s)).
Proof.
  intros Hs Hf. unfold parse_args. sstep. eapply swp_mono; [by apply args_start_ok|]. cbv beta. intros [] s1 [Hg Eg]. sstep.
  eapply swp_mono; [apply args_loop_ok; [done|by rewrite Eg]|]. cbv beta. clear. intros [r|] s Hs.
  - destruct Hs as [Hr Hl]. sstep. split; [tauto|]. split; [done|]. lia.
  - eapply swp_mono; [by apply args_end_ok|]. cbv beta. intros r s' [-> Ha]. split; [by left|]. split; [apply Ha|done].
Qed.
Lemma parse_args_total socket fuel g : I g → (left g < fuel)%nat →
  swp (parse_args socket fuel) (popt_init g) (λ r s, (r = 0 ∨ r = 1 ∨ r = -1) ∧ linked s ∧ (r = 0 → accepted s)).
Proof.
  intros Hi Hf. apply parse_args_from; [|done]. split; try done; [split; cbn; try lia; [by vm_compute..|]|]; (split; [done|auto]).
Qed.

End options.

Arguments popt : clear implicits.

(** * The list of groups *)

Lemma group_bit_small id : 0 <= id < 31 → group_bit id = 2 ^ id.
Proof.
  intros H. unfold group_bit. rewrite Z.mod_small, Z.shiftl_1_l by lia.
  assert (2 ^ id < 2 ^ 31) by (apply Z.pow_lt_mono_r; lia). assert (0 < 2 ^ id) by (apply Z.pow_pos_nonneg; lia).
  rewrite s32_small by lia. apply u64_small. lia.
Qed.
Lemma full_mask_bits n k : (n ≤ 31)%nat → Z.testbit (full_mask n) k = true ↔ 0 <= k < Z.of_nat n.
Proof.
  induction n as [|n IH]; intros Hn; cbn [full_mask]; [rewrite Z.bits_0; split; [done|lia]|].
  rewrite group_bit_small, testbit_lor_pow by lia. rewrite orb_true_iff, IH, Z.eqb_eq by lia. lia.
Qed.

(** The groups from [n] on are linked, the first one to the one before. *)
Lemma options_seg {G} (s : popt G) k n : linked s → length (o_groups s) = (n + k)%nat →
  dseg dp_prev dp_next (map g_dp (o_groups s)) (match n with O => None | S m => Some m end) (seq n k) None.
Proof.
  intros Hl. revert n. induction k as [|k IH]; intros n Hn; [done|]. cbn [seq dseg].
  destruct (lookup_lt_is_Some_2 (o_groups s) n) as [g Hg]; [lia|]. destruct (lk_nodes s Hl n g Hg) as [_ _ Hp Hx _].
  split; [|by apply (IH (S n)); lia]. exists (g_dp g). split_and!.
  - rewrite list_lookup_fmap. by rewrite Hg.
  - done.
  - rewrite Hx. destruct k; cbn; [by rewrite bool_decide_eq_true_2 by lia|by rewrite bool_decide_eq_false_2 by lia].
Qed.

(** * What the options rely on *)

(** The runtime: what fresh memory and files are, the two functions for addresses, [strtof], and
    the command line, which comes to an end and has neither a -B nor a -A with a priority and no
    equals sign. *)
Record runtime {G F : Type} (getopt_long : G → Z * bytes * G) (optind : G → Z) (getaddrinfo : bytes → option (Z * bytes))
    (inet_pton : Z → bytes → option bytes) (strtof : bytes → F * bytes) (fopen : bytes → option file)
    (cache_text : bytes → option bytes) (junk : Z → bytes) (I : G → Prop) (left : G → nat) : Prop := {
  rt_junk : fresh junk;
  rt_fopen n f : fopen n = Some f → bytes_wf (f_read f);
  rt_cache n t : cache_text n = Some t → lengths_ok t = true;
  rt_pton f s a : f = AF_INET ∨ f = AF_INET6 → inet_pton f s = Some a → bytes_wf a ∧ blen a = ip_size f;
  rt_gai : finds_addresses getaddrinfo;
  rt_strtof s : end_of s (strtof s).2;
  rt_getopt g : I g → let '(rez, a, g') := getopt_long g in rez = -1 ∨
    I g' ∧ (left g' < left g)%nat ∧ rez ≠ ch "B" ∧ 1 <= optind g' ∧ (rez = ch "A" → auto_arg_ok a = true)
}.

(** A command line that is split into options already. *)
Definition plain_getopt (x : list (Z * bytes) * nat) : Z * bytes * (list (Z * bytes) * nat) :=
  match x.1 !! x.2 with Some (rez, a) => (rez, a, (x.1, S x.2)) | None => (-1, [], x) end.
Definition plain_optind (x : list (Z * bytes) * nat) : Z := Z.of_nat x.2 + 1.
Definition plain_set_optind (v : Z) (x : list (Z * bytes) * nat) : list (Z * bytes) * nat := (x.1, Z.to_nat (v - 1)).
Definition plain_option (x : Z * bytes) : bool :=
  negb (x.1 =? ch "B") && (negb (x.1 =? ch "A") || auto_arg_ok x.2).
Definition plain_gai (s : bytes) : option (Z * bytes) := (λ a, (AF_INET, a)) <$> plain_pton AF_INET s.
Definition plain_strtof (s : bytes) : Z * bytes := (atoi s, drop_while isdigit s).
Definition no_file {A} (n : bytes) : option A := None.
Definition zeros (n : Z) : bytes := repeat 0 (Z.to_nat n).

Lemma zeros_fresh : fresh zeros.
Proof.
  intros n Hn. unfold zeros. split; [rewrite blen_repeat; lia|]. induction (Z.to_nat n); constructor; [by vm_compute|done].
Qed.
Lemma plain_runtime l : forallb plain_option l = true →
  runtime plain_getopt plain_optind plain_gai plain_pton plain_strtof no_file no_file zeros
    (λ x, x.1 = l) (λ x, (length x.1 - x.2)%nat).
Proof.
  intros Hl. split; [apply zeros_fresh|done|done|by apply (pton_size (ntop := plain_ntop))| | |].
  - intros h f ip. unfold plain_gai. destruct (plain_pton AF_INET h) as [a|] eqn:E; [|done]. intros [= <- <-]. left.
    split; [done|]. by apply (pton_size (ntop := plain_ntop)) in E as [_ E]; [|left].
  - intros s. apply end_of_drop_while.
  - intros [l' i] Hi. cbn in Hi. subst l'. unfold plain_getopt. cbn [fst snd]. destruct (l !! i) as [[rez a]|] eqn:E; [|by left].
    right. rewrite forallb_forall in Hl. pose proof (Hl (rez, a)) as H. unfold plain_option in H. cbn [fst snd] in H.
    specialize (H ltac:(by apply list_elem_of_In, (list_elem_of_lookup_2 _ i))). apply andb_true_iff in H as [HB HA].
    apply lookup_lt_Some in E. split_and!; [done|cbn [fst snd]; lia| |unfold plain_optind; cbn [snd]; lia|].
    + intros ->. by rewrite Z.eqb_refl in HB.
    + intros ->. by rewrite Z.eqb_refl in HA.
Qed.

(** * Properties *)

(** C11: [parse_args] returns 0, 1 or -1, without a step out of bounds, whatever the values of the
    options, for command lines without -B and without a -A with a priority and no equals sign, and with cache
    files whose lengths are none below zero ([runtime]; with these it goes wrong, [auto_priority_null],
    [self_copy_diverges] and [CacheFile.load_cache_overruns]).  When it returns 0, every setting is one the engine
    can work with: the values are in their ranges, each list of hosts and each set of addresses is a
    pool in order, the listening address has a family and a port, there is a mode, the upstream
    proxy of a group has a port and a type that is supported, and IPv6 is only on when the address
    that is bound is of it. *)
Theorem options_typed {G F} getopt_long optind set_optind getaddrinfo inet_pton (strtof : bytes → F * bytes) f_int f_ms
    fopen cache_text junk unset I left socket fuel (g : G) :
  runtime getopt_long optind getaddrinfo inet_pton strtof fopen cache_text junk I left → I g → (left g < fuel)%nat →
  swp (parse_args getopt_long optind set_optind getaddrinfo inet_pton strtof f_int f_ms fopen cache_text junk unset socket fuel)
    (popt_init g) (λ r s, (r = 0 ∨ r = 1 ∨ r = -1) ∧ (r = 0 → accepted s)).
Proof.
  intros [] Hi Hf. eapply swp_mono; [by apply (parse_args_total _ _ _ _ _ _ _ _ _ _ _ _ rt_junk0 rt_fopen0 rt_cache0 rt_pton0 rt_gai0 rt_strtof0 I left rt_getopt0)|].
  cbv beta. tauto.
Qed.

(** -p 8080 -s 1+s -A t,p=2 -t 5 *)
Definition sample_line : list (Z * bytes) :=
  [(ch "p", bs "8080"); (ch "s", bs "1+s"); (ch "A", bs "t,p=2"); (ch "t", bs "5")].
Lemma options_typed_witness :
  swp (parse_args plain_getopt plain_optind plain_set_optind plain_gai plain_pton plain_strtof id id no_file no_file zeros
      (λ _, (0, 0, 0)) (λ _, 3) 5) (popt_init (sample_line, 0%nat)) (λ r s, (r = 0 ∨ r = 1 ∨ r = -1) ∧ (r = 0 → accepted s)).
Proof. apply (options_typed _ _ _ _ _ _ _ _ _ _ _ _ _ _ _ _ _ (plain_runtime sample_line eq_refl)); [done|by apply Nat.ltb_lt]. Defined.

(** C12: When [parse_args] succeeds, on a command line as for the theorem before (no -B above all), with no
    more than 31 groups, these are in the state in which
    [find_dp], [on_trigger] and [swop_groups] take them: one doubly linked list from the first
    group on, each with a bit of its own, and the full mask made of exactly these bits.  From the 32nd
    group on the bits repeat ([group_bits_overflow]). *)
Theorem options_link_groups {G F} getopt_long optind set_optind getaddrinfo inet_pton (strtof : bytes → F * bytes) f_int f_ms
    fopen cache_text junk unset I left socket fuel (g : G) :
  runtime getopt_long optind getaddrinfo inet_pton strtof fopen cache_text junk I left → I g → (left g < fuel)%nat →
  swp (parse_args getopt_long optind set_optind getaddrinfo inet_pton strtof f_int f_ms fopen cache_text junk unset socket fuel)
    (popt_init g) (λ r s, r = 0 → o_dp_n s <= 31 → ∀ w, w_dps w = map g_dp (o_groups s) → w_dp w = Some 0%nat →
      let l := seq 0 (length (o_groups s)) in
      l ≠ [] ∧ groups w l ∧ bits_ok w l (pr_dp_full_mask (o_params s))).
Proof.
  intros [] Hi Hf. eapply swp_mono; [by apply (parse_args_total _ _ _ _ _ _ _ _ _ _ _ _ rt_junk0 rt_fopen0 rt_cache0 rt_pton0 rt_gai0 rt_strtof0 I left rt_getopt0)|].
  cbv beta. clear. intros r s (_ & Hl & _) _ Hn w Hw Hh l. rewrite (lk_n s Hl) in Hn. pose proof (lk_dp s Hl) as Hd.
  assert (Hat : ∀ i d, w_dps w !! i = Some d → ∃ g, o_groups s !! i = Some g ∧ d = g_dp g ∧ node_ok (length (o_groups s)) i d).
  { intros i d. rewrite Hw, list_lookup_fmap. destruct (o_groups s !! i) as [g|] eqn:E; [|done]. intros [= <-].
    exists g. split_and!; [done..|]. by apply (lk_nodes s Hl). }
  split; [|split].
  - unfold l. by rewrite <- Hd.
  - split; [apply NoDup_seq|rewrite Hh; unfold l; by rewrite <- Hd|]. rewrite Hw. by apply (options_seg s (length (o_groups s)) 0).
  - split.
    + intros i d Hin (g & Hg & -> & [Hid Hbit _ _ _])%Hat. apply lookup_lt_Some in Hg. rewrite Hid, Hbit. split; [lia|].
      apply group_bit_small. lia.
    + intros i j d e _ _ (g & _ & -> & [Hi _ _ _ _])%Hat (h & _ & -> & [Hj _ _ _ _])%Hat. lia.
    + intros k. rewrite (lk_mask s Hl), full_mask_bits by lia. split.
      * intros Hk. destruct (lookup_lt_is_Some_2 (o_groups s) (Z.to_nat k)) as [g Hg]; [lia|]. exists (Z.to_nat k), (g_dp g).
        split; [apply elem_of_seq; lia|]. rewrite Hw, list_lookup_fmap, Hg. split; [done|].
        rewrite (nd_id _ _ _ (lk_nodes s Hl _ g Hg)). lia.
      * intros (i & d & Hin & (g & Hg & -> & [Hid _ _ _ _])%Hat & <-). apply lookup_lt_Some in Hg. lia.
Qed.

Lemma options_link_groups_witness :
  swp (parse_args plain_getopt plain_optind plain_set_optind plain_gai plain_pton plain_strtof id id no_file no_file zeros
      (λ _, (0, 0, 0)) (λ _, 3) 5) (popt_init (sample_line, 0%nat)) (λ r s, r = 0 → o_dp_n s <= 31 →
    ∀ w, w_dps w = map g_dp (o_groups s) → w_dp w = Some 0%nat →
      let l := seq 0 (length (o_groups s)) in
      l ≠ [] ∧ groups w l ∧ bits_ok w l (pr_dp_full_mask (o_params s))).
Proof. apply (options_link_groups _ _ _ _ _ _ _ _ _ _ _ _ _ _ _ _ _ (plain_runtime sample_line eq_refl)); [done|by apply Nat.ltb_lt]. Defined.

(** The line is accepted, with two groups. *)
Example sample_line_accepted :
  match parse_args plain_getopt plain_optind plain_set_optind plain_gai plain_pton plain_strtof id id no_file no_file zeros
      (λ _, (0, 0, 0)) (λ _, 3) 5 (popt_init (sample_line, 0%nat)) with
  | Ok (r, s) => r = 0 ∧ sin_port (o_laddr s) = enc16 8080 ∧
      map (λ g, (dp_ttl (g_dp g), dp_detect (g_dp g), dp_pri (g_dp g), length (dp_parts (g_dp g)))) (o_groups s) =
        [(0, 0, 2, 1%nat); (5, DETECT_TORST, 0, 0%nat)]
  | Fail _ => False
  end.
Proof. vm_compute. done. Qed.

(** The bit of the 32nd group has all higher bits set, and the 33rd has the bit of the first. *)
Lemma group_bits_overflow : group_bit 31 = 2 ^ 64 - 2 ^ 31 ∧ group_bit 32 = group_bit 0.
Proof. done. Qed.

(** -A with a [p] and no equals sign follows a null pointer. *)
Lemma auto_priority_null : parse_auto plain_strtof id (bs "t,p") = Fail OutOfBounds.
Proof. reflexivity. Qed.

(** A group that copies itself never ends: the option is read again and again, and adds a part
    each time. *)
Definition self_copy : list (Z * bytes) := [(ch "s", bs "1"); (ch "B", bs "1")].
Definition copying (s : popt (list (Z * bytes) * nat)) : Prop :=
  (∃ i, (i < 2)%nat ∧ o_get s = (self_copy, i)) ∧ o_curr_optind s <= 3 ∧ o_dp s = 0%nat ∧
  ∃ g, o_groups s = [g] ∧ dp_id (g_dp g) = 0 ∧ g_optind g = 0.
Lemma self_copy_again s g : o_groups s = [g] → dp_id (g_dp g) = 0 → g_optind g = 0 → o_curr_optind s <= 3 → o_get s = (self_copy, 2%nat) →
  opt_copy plain_optind plain_set_optind (bs "1") s = Ok (Next, set_o_get (self_copy, 0%nat) (set_o_curr_optind 3 s)).
Proof.
  intros Hg Hid Ho Hc Hs. unfold opt_copy. rewrite !bind_gets. rewrite Hs. change (plain_optind (self_copy, 2%nat)) with 3.
  rewrite (proj2 (Z.ltb_ge _ _)) by done. change (here (bs "1") =? ch "i") with false. cbv iota zeta.
  change ((strtol 0 (bs "1")).1 - 1) with 0. rewrite bind_gets, Hg.
  assert (Hat : group_at 0 s = Ok (g, s)) by (unfold group_at; rewrite bind_gets, Hg; done).
  unfold mbind at 1, st_bind at 1. assert (sloop (find_group_body 0) (S (S (length [g]))) (Some 0%nat) s = Ok (Some 0%nat, s)) as ->.
  { assert (Hb : find_group_body 0 (Some 0%nat) s = Ok (inr (Some 0%nat), s)).
    { cbn [find_group_body]. unfold mbind, st_bind. rewrite Hat, bind_ok, Hid. done. }
    unfold sloop. cbn [loop]. by rewrite Hb. }
  rewrite bind_ok. unfold mbind at 1, st_bind at 1. rewrite Hat, bind_ok, Ho. done.
Qed.
Lemma self_copy_diverges fuel :
  parse_args plain_getopt plain_optind plain_set_optind plain_gai plain_pton plain_strtof id id no_file no_file zeros
    (λ _, (0, 0, 0)) (λ _, 3) fuel (popt_init (self_copy, 0%nat)) = Fail OutOfFuel.
Proof.
  assert (∃ s, args_start (λ _, 3) (popt_init (self_copy, 0%nat)) = Ok (tt, s) ∧ copying s) as (s & Es & Hs).
  { eexists. split; [reflexivity|]. split; [exists 0%nat; split; [lia|done]|]. split; [done|]. split; [done|]. by eexists. }
  unfold parse_args. unfold mbind at 1, st_bind at 1. rewrite Es, bind_ok.
  unfold mbind at 1, st_bind at 1, sloop. rewrite (loop_diverges _ (λ x, copying x.2)); [done| |done].
  clear. intros [[] s] ((i & Hi & Hg) & Hc & Hd & g & Hgs & Hid & Hopt). cbn [snd] in *.
  destruct s as [p la tfo n gs mp nf dp c al [l k]]. cbn in Hg, Hc, Hd, Hgs. injection Hg as -> ->. subst.
  destruct i as [|[|i]]; [| |lia].
  - destruct g as [d oi st cf md ds]. cbn in Hid, Hopt. subst oi.
    eexists (tt, _). split; [reflexivity|]. split; [exists 1%nat; split; [lia|done]|]. split; [done|]. split; [done|].
    eexists. split; [reflexivity|]. by split.
  - set (s := Popt p la tfo n [g] mp nf 0 c al (self_copy, 2%nat)).
    pose proof (self_copy_again s g eq_refl Hid Hopt Hc eq_refl) as E.
    exists (tt, set_o_get (self_copy, 0%nat) (set_o_curr_optind 3 s)). split.
    + change (('(r, s) ← ('(r, s) ← opt_copy plain_optind plain_set_optind (bs "1") s;
        Ok (match r with Next => inl tt | Invalid => inr (Some (-1)) | Return r => inr (Some r) end, s));
        Ok (match r with inl x => inl (x, s) | inr y => inr (y, s) end)) =
        Ok (inl (tt, set_o_get (self_copy, 0%nat) (set_o_curr_optind 3 s)) :
          unit * popt (list (Z * bytes) * nat) + option Z * popt (list (Z * bytes) * nat))).
      by rewrite E.
    + split; [exists 0%nat; split; [lia|done]|]. split; [done|]. split; [done|]. by exists g.
Qed.
