(* ===== verification/Proxy.v ===== *)
(** byedpi proxy.c: the callbacks of the events and the event loop.

    An event calls the callback of its connection ([run_cb]); a negative answer closes the
    connection.  [on_request] reads the request of a client in one of the protocols and
    opens the connection, [on_connect] starts the tunnel, [on_tunnel] and [on_udp_tunnel]
    move the data.  [loop_event] (conev.c) and the two callbacks of extend.c that speak to
    an outgoing SOCKS server are here because they call the others.

    The scratch buffer ([buff_ppop]) is the first of the list of free buffers: what
    [recv] puts there is what [save_buffer] later takes from the list. *)
From Stdlib Require Import ZArith Lia Ascii String.
From stdpp Require Import base numbers list option sorting sets.
From S2P Require Import Prelude CMem PacketsTls PacketsHttp Mpool Params Desync DList Conev Socks Extend.

#[local] Open Scope Z_scope.
#[local] Open Scope list_scope.

(** * Constants *)

Definition EINTR : Z := 4.
Definition S_REQ_SIZE : Z := 262.  (* sizeof(struct s5_req) *)

(** The [int] that [getsockopt] writes. *)
Definition le32 (b : bytes) : Z :=
  s32 (bat b 0 + 256 * (bat b 1 + 256 * (bat b 2 + 256 * bat b 3))).

Section proxy.
Context (prm : params).
Context (os : list call → answer).
Context (junk : Z → bytes) (rand : nat → Z).
Context (fuel : nat).

Abbreviation W := (ST world).
Abbreviation sysret := (sysret os).
Abbreviation get_e := (get_e os).
Abbreviation in_desync := (in_desync os).

(** A call with all of its answer. *)
Definition syscall (c : call) : W answer := on_pool (kcall os c).

(** What the system writes to a [union sockaddr_u]. *)
Definition got_addr (addr : bytes) (a : answer) : comp bytes := store addr 0 (take 28 (a_addr a)).

(** ** The scratch buffer *)

Definition buff_ppop (size : Z) : W unit :=
  b ← on_pool (buff_pop junk size); on_pool (buff_push (Some b)).
Definition scratch : W buffer :=
  l ← gets (λ w, p_root_buff (w_pool w)); lift (geti l 0).
Definition set_scratch (data : bytes) : W unit :=
  scratch;; modify (λ w, set_w_pool (set_p_root_buff
    (alter (set_b_data data) 0%nat (p_root_buff (w_pool w))) (w_pool w)) w).

(** ** The tunnel *)

(** The loop of [on_tunnel]: receive and send while the buffer is filled. *)
Definition tunnel_body (val : nat) (peer : option nat) (_ : unit) : W (unit + Z) :=
  n ← tcp_recv_hook prm os junk fuel val;
  if n =? 0 then mret (inr 0) else
  if n <? 0 then mret (inr (-1)) else
  pe ← deref peer;
  '(sn, wait, n) ← tcp_send_hook prm os junk rand fuel pe val n false;
  if sn <? 0 then mret (inr (-1)) else
  if (sn <? n) || wait then
    updb val (λ b, set_b_offset sn (set_b_lock n b));;
    r ← on_pool (mod_etype val 0);
    bad ← (if negb (r =? 0) then mret true else
      r ← on_pool (mod_etype pe (if negb wait then POLLOUT else 0)); mret (negb (r =? 0)));
    mret (inr (if (bad : bool) then -1 else 1))
  else
    buff ← buff_of val;
    mret (if n =? b_size buff then inl tt else inr 0).

(** What was left in the buffer is sent first; [inr] when the callback returns. *)
Definition tunnel_flush (val : nat) (peer : option nat) : W (unit + Z) :=
  e ← eval_at val;
  match ev_buff e with
  | None => mret (inl tt)
  | Some buff =>
      let n := b_lock buff - b_offset buff in
      pe ← deref peer;
      '(sn, wait, _) ← tcp_send_hook prm os junk rand fuel pe val (b_lock buff) true;
      if sn <? 0 then mret (inr (-1)) else
      if (sn <? n) || wait then
        updb val (λ b, set_b_offset (b_offset b + sn) b);; mret (inr 0)
      else
        e ← eval_at val;
        on_pool (buff_push (ev_buff e));; upd val (set_ev_buff None);;
        r ← on_pool (mod_etype val POLLIN);
        bad ← (if negb (r =? 0) then mret true else
          r ← on_pool (mod_etype pe POLLIN); mret (negb (r =? 0)));
        mret (if (bad : bool) then inr (-1) else inl tt)
  end.

Definition on_tunnel (val : nat) (etype : Z) : W Z :=
  e ← eval_at val;
  late ← (if etype =? POLLTIMEOUT then
      v ← deref (ev_pair e); pe ← eval_at v;
      mret (negb (bool_decide (is_Some (ev_buff pe))) && negb (c_round_count (ev_conn e) =? 0))
    else mret false);
  if (late : bool) then on_timeout prm os junk fuel val else
  '(val, peer) ← (if has_bit etype POLLOUT || (etype =? POLLTIMEOUT) then
      v ← deref (ev_pair e); pe ← eval_at v; mret (v, ev_pair pe)
    else mret (val, ev_pair e));
  r ← tunnel_flush val peer;
  match r with
  | inr r => mret r
  | inl _ =>
      buff ← on_pool (buff_pop junk (pr_bfsize prm));
      upd val (set_ev_buff (Some buff));;
      r ← sloop (tunnel_body val peer) fuel tt;
      if r =? 1 then mret 0 else
      if r <? 0 then mret (-1) else
      e ← eval_at val;
      on_pool (buff_push (ev_buff e));; upd val (set_ev_buff None);; mret 0
  end.

(** ** The UDP tunnel *)

(** One round of the loop of [on_udp_tunnel], with [addr] as the last round left it.
    [inl] goes on, [inr] is the value returned. *)
Definition udp_send_result (ns : Z) (addr : bytes) : W (bytes + Z) :=
  if ns <? 0 then
    err ← get_e;
    mret (if (err =? EMSGSIZE) || (err =? ECONNREFUSED) then inl addr else inr (-1))
  else mret (inl addr).

(** A datagram from the client: its header tells where it goes. *)
Definition udp_from_client (val pr : nat) (addr data : bytes) (n : Z) : W (bytes + Z) :=
  e ← eval_at val;
  stop ← (if bool_decide (sin_port (c_addr (ev_conn e)) = [0; 0]) then
      if negb (addr_equ addr (c_addr (ev_conn e))) then mret (Some 0) else
      r ← sysret (KConnect (ev_fd e) addr);
      if r <? 0 then mret (Some (-1)) else
      updc val (set_c_addr addr);; mret None
    else mret None);
  match stop with
  | Some r => mret (inr r)
  | None =>
      frag ← lift (rd data 2);
      if negb (frag =? 0) then mret (inl addr) else
      '(offs, addr) ← on_pool (s5_get_addr prm os data 0 n addr SOCK_DGRAM);
      if offs <? 0 then mret (inr (-1)) else
      pe ← eval_at pr;
      '(stop, addr) ← (if bool_decide (sin_port (c_addr (ev_conn pe)) = [0; 0]) then
          let addr := if sa_family (pr_baddr prm) =? AF_INET6 then map_fix addr 6 else addr in
          if negb (sa_family (pr_baddr prm) =? sa_family addr) then mret (true, addr) else
          r ← sysret (KConnect (ev_fd pe) addr);
          if r <? 0 then mret (true, addr) else
          updc pr (set_c_addr addr);; mret (false, addr)
        else mret (false, addr));
      if (stop : bool) then mret (inr (-1)) else
      pc ← conn_at pr;
      ns ← udp_hook prm os fuel pr data offs (n - offs) (c_addr pc);
      udp_send_result ns addr
  end.

(** A datagram for the client, at [S_SIZE_I6] in the buffer: the header goes before it. *)
Definition udp_to_client (pr : nat) (addr data : bytes) (n : Z) : W (bytes + Z) :=
  let addr := map_fix addr 0 in
  data ← lift (memset data 0 0 S_SIZE_I6);
  '(offs, data) ← lift (s5_set_addr data S_SIZE_I6 S_SIZE_I6 addr true);
  set_scratch data;;
  if (offs <? 0) || (S_SIZE_I6 <? offs) then mret (inr (-1)) else
  pe ← eval_at pr;
  l ← lift (rds data (S_SIZE_I6 - offs) (offs + n));
  ns ← sysret (KSend (ev_fd pe) l);
  udp_send_result ns addr.

Definition udp_body (val pr : nat) (addr : bytes) : W (bytes + Z) :=
  e ← eval_at val; buff ← scratch;
  let conn := c_flag (ev_conn e) =? FLAG_CONN in
  let off := if conn then 0 else S_SIZE_I6 in
  a ← syscall (KRecvFrom (ev_fd e) (u64 (b_size buff - off)));
  let n := a_ret a in
  if n <? 0 then
    err ← get_e;
    mret (if (err =? EAGAIN) || (err =? EWOULDBLOCK) then inr 0
          else if (err =? EMSGSIZE) || (err =? ECONNREFUSED) then inl addr else inr (-1))
  else
    data ← lift (memcpy (b_data buff) off (a_data a) 0 n);
    set_scratch data;;
    addr ← lift (got_addr addr a);
    updc val (λ c, set_c_recv_count (c_recv_count c + n) c);;
    (if c_round_sent (ev_conn e) =? 0 then
       updc val (λ c, set_c_round_sent (c_round_sent c + n) (set_c_round_count (u32 (c_round_count c + 1)) c));;
       updc pr (set_c_round_sent 0)
     else skip);;
    if conn then udp_from_client val pr addr data n else udp_to_client pr addr data n.

Definition on_udp_tunnel (val : nat) : W Z :=
  buff_ppop (pr_bfsize prm);;
  e ← eval_at val;
  pr ← (if c_flag (ev_conn e) =? FLAG_CONN then deref (ev_pair e)
        else q ← deref (ev_pair e); qe ← eval_at q; deref (ev_pair qe));
  sloop (udp_body val pr) fuel (repeat 0 28).

(** ** The requests of a client *)

Definition udp_associate (val : nat) (dst : bytes) : W Z :=
  '(ufd, addr) ← remote_sock prm os dst SOCK_DGRAM;
  if ufd <? 0 then mret (-1) else
  pr ← on_pool (add_event Conev.on_udp_tunnel ufd POLLIN);
  match pr with
  | None => sysret (KClose ufd);; mret (-1)
  | Some pr =>
      e ← eval_at val;
      a ← syscall (KGetSockName (ev_fd e));
      if negb (a_ret a =? 0) then mret (-1) else
      addr ← lift (got_addr addr a);
      let addr := set_port addr [0; 0] in
      cfd ← nb_socket os (sa_family addr) SOCK_DGRAM;
      if cfd <? 0 then on_pool (del_event os fuel pr);; mret (-1) else
      r ← sysret (KBind cfd addr);
      if r <? 0 then on_pool (del_event os fuel pr);; sysret (KClose cfd);; mret (-1) else
      client ← on_pool (add_event Conev.on_udp_tunnel cfd POLLIN);
      match client with
      | None => on_pool (del_event os fuel pr);; sysret (KClose cfd);; mret (-1)
      | Some client =>
          upd val (λ e, set_ev_pair (Some client) (set_ev_cb Conev.on_ignore e));;
          upd client (set_ev_pair (Some pr));;
          upd pr (set_ev_pair (Some val));;
          updc client (λ c, set_c_addr (set_port (c_addr (ev_conn e)) [0; 0]) (set_c_flag FLAG_CONN c));;
          a ← syscall (KGetSockName cfd);
          if negb (a_ret a =? 0) then mret (-1) else
          addr ← lift (got_addr addr a);
          '(len, s5r) ← lift (s5_set_addr (S_VER5 :: repeat 0 (Z.to_nat (S_REQ_SIZE - 1))) 0 S_REQ_SIZE addr false);
          if len <? 0 then mret (-1) else
          l ← lift (rds s5r 0 len);
          r ← on_pool (send os (ev_fd e) l);
          if r <? 0 then mret (-1) else
          r ← on_pool (mod_etype val POLLRDHUP);
          mret (if negb (r =? 0) then -1 else 0)
      end
  end.

(** [save_buffer(pool, val, buff, n)], [buff] being the scratch buffer. *)
Definition save_buffer (val : nat) (n : Z) : W Z :=
  l ← gets (λ w, p_root_buff (w_pool w));
  buff ← on_pool (buff_pop junk (pr_bfsize prm));
  lift (cassert (bool_decide (l ≠ [])));;
  upd val (set_ev_buff (Some (set_b_lock n buff)));;
  updc val (λ c, set_c_round_count (u32 (c_round_count c + 1)) (set_c_recv_count n c));;
  if pr_auto_reconnect prm then
    sq ← on_pool (buff_pop junk (pr_bfsize prm));
    data ← lift (memcpy (b_data sq) 0 (b_data buff) 0 n);
    upd val (set_ev_sq_buff (Some (set_b_data data (set_b_lock n sq))));; mret 0
  else mret 0.

(** The value returned; [*dst] is not used after it. *)
Definition handle_s5 (val : nat) (data : bytes) (n : Z) (dst : bytes) : W Z :=
  e ← eval_at val;
  if negb (c_flag (ev_conn e) =? FLAG_S5) then
    r ← on_pool (auth_socks5 os (ev_fd e) data n);
    if negb (r =? 0) then mret (-1) else
    updc val (set_c_flag FLAG_S5);; mret 0
  else if n <? S_SIZE_MIN then mret (-1) else
  cmd ← lift (rd data 1);
  res ← (
    if cmd =? S_CMD_CONN then
      '(s5e, dst) ← on_pool (s5_get_addr prm os data 0 n dst SOCK_STREAM);
      if 0 <=? s5e then r ← connect_hook prm os fuel val dst Conev.on_connect; mret (inl r) else mret (inr s5e)
    else if (cmd =? S_CMD_AUDP) && pr_udp prm then
      '(s5e, dst) ← on_pool (s5_get_addr prm os data 0 n dst SOCK_DGRAM);
      if 0 <=? s5e then r ← udp_associate val dst; mret (inl r) else mret (inr s5e)
    else mret (inr (- S_ER_CMD)));
  match res with
  | inl r => mret r
  | inr s5e => on_pool (resp_s5_error os (ev_fd e) (- s5e));; mret 1
  end.

(** The bytes at [buff] start with "CONNECT". *)
Definition is_connect (data : bytes) (n : Z) : comp bool :=
  if 7 <? n then r ← memcmp data 0 (bs "CONNECT") 0 7; Ok (r =? 0) else Ok false.

(** What the protocol of a request leaves to do. *)
Inductive req_result :=
  | ReqReturn (r : Z)                    (* [return r] *)
  | ReqConnect (dst : bytes)             (* [error] is 0: connect *)
  | ReqError                             (* [error] is not 0: answer it *)
  | ReqDone.                             (* [skip_conn] *)

Definition of_addr (x : Z * bytes) : req_result := if x.1 =? 0 then ReqConnect x.2 else ReqError.

(** The chain of protocols in [on_request]. *)
Definition read_request (val : nat) (data : bytes) (n : Z) : W req_result :=
  e ← eval_at val;
  let dst := repeat 0 28 in
  c ← lift (rd data 0);
  if has_bit (pr_mode prm) MODE_SOCKS5 && (c =? S_VER5) then
    error ← handle_s5 val data n dst;
    mret (if 0 <? error then ReqReturn (-1) else if error =? 0 then ReqDone else ReqError)
  else if has_bit (pr_mode prm) MODE_SOCKS4 && (c =? S_VER4) then
    updc val (set_c_flag FLAG_S4);;
    r ← on_pool (s4_get_addr prm os data n dst); mret (of_addr r)
  else
  http ← (if has_bit (pr_mode prm) MODE_HTTP then lift (is_connect data n) else mret false);
  if (http : bool) then
    updc val (set_c_flag FLAG_HTTP);;
    r ← on_pool (http_get_addr prm os data n dst); mret (of_addr r)
  else if has_bit (pr_mode prm) MODE_SHADOWSOCKS && (s8 c <=? S_ATP_I6) then
    '(req_size, dst) ← on_pool (s5_get_addr prm os data (-3) (n + 3) dst SOCK_STREAM);
    if req_size <? 0 then mret (ReqReturn (-1)) else
    data ← lift (memmove data 0 (req_size - 3) (n - (req_size - 3)));
    set_scratch data;;
    r ← save_buffer val (n - (req_size - 3));
    mret (if negb (r =? 0) then ReqReturn (-1) else ReqConnect dst)
  else
  tls ← (if has_bit (pr_mode prm) MODE_RAWTLS then lift (is_tls_chello data n) else mret false);
  if (tls : bool) then
    '(error, dst) ← on_pool (tls_get_addr prm os data n dst);
    if negb (error =? 0) then mret ReqError else
    r ← save_buffer val n;
    mret (if negb (r =? 0) then ReqReturn (-1) else ReqConnect dst)
  else if has_bit (pr_mode prm) MODE_TCP then
    r ← save_buffer val n;
    mret (if negb (r =? 0) then ReqReturn (-1) else ReqConnect dst)
  else mret (ReqReturn (-1)).

Definition on_request (val : nat) : W Z :=
  buff_ppop (pr_bfsize prm);;
  buff ← scratch; e ← eval_at val;
  a ← syscall (KRecv (ev_fd e) (b_size buff));
  let n := a_ret a in
  if n <? 1 then mret (-1) else
  data ← lift (memcpy (b_data buff) 0 (a_data a) 0 n);
  set_scratch data;;
  res ← read_request val data n;
  error ← (match res with
    | ReqReturn _ => mret true
    | ReqConnect dst => r ← connect_hook prm os fuel val dst Conev.on_connect; mret (negb (r =? 0))
    | ReqError => mret true
    | ReqDone => mret false
    end);
  match res with
  | ReqReturn r => mret r
  | _ =>
      if (error : bool) then
        e ← eval_at val;
        on_pool (resp_error os (ev_fd e) ENOENT (c_flag (ev_conn e)));; mret (-1)
      else mret 0
  end.

(** ** Connections *)

Definition on_connect (val : nat) (et : Z) : W Z :=
  e ← eval_at val;
  res ← (if has_bit et POLLERR then
      a ← syscall (KGetError (ev_fd e));
      if negb (a_ret a =? 0) then mret (inr (-1)) else
      let error := le32 (a_data a) in
      let error := if error =? 0 then ECONNREFUSED else error in
      again ← (if (error =? ECONNRESET) || (error =? ECONNREFUSED) || (error =? ETIMEDOUT) then
          r ← on_connerr prm os junk fuel val; mret (r =? 0)
        else mret false);
      mret (if (again : bool) then inr 0 else inl error)
    else
      r ← on_pool (mod_etype val POLLIN);
      bad ← (if negb (r =? 0) then mret true else
        v ← deref (ev_pair e); r ← on_pool (mod_etype v POLLIN); mret (negb (r =? 0)));
      if (bad : bool) then mret (inr (-1)) else
      upd val (set_ev_cb Conev.on_tunnel);;
      v ← deref (ev_pair e); upd v (set_ev_cb Conev.on_tunnel);;
      mret (inl 0));
  match res with
  | inr r => mret r
  | inl error =>
      e ← eval_at val; v ← deref (ev_pair e); pe ← eval_at v;
      if (error =? 0) && bool_decide (is_Some (ev_buff pe)) then on_tunnel val et else
      r ← on_pool (resp_error os (ev_fd pe) error (c_flag (ev_conn pe)));
      mret (if r <? 0 then -1 else if negb (error =? 0) then -1 else 0)
  end.

Definition on_ignore (etype : Z) : Z :=
  if has_bit etype (Z.lor POLLHUP (Z.lor POLLERR POLLRDHUP)) then -1 else 0.

(** One round of the loop of [on_accept], with [client] as the last round left it. *)
Definition accept_body (val : nat) (client : bytes) : W (bytes + Z) :=
  e ← eval_at val;
  a ← syscall (KAccept (ev_fd e));
  let c := a_ret a in
  if c <? 0 then
    e1 ← get_e;
    e2 ← (if e1 =? EAGAIN then mret e1 else get_e);
    if (e1 =? EAGAIN) || (e2 =? EINPROGRESS) then mret (inr 0) else
    modify (λ w, set_w_pool (set_p_brk true (w_pool w)) w);; mret (inr (-1))
  else
    client ← lift (got_addr client a);
    r ← sysret (KNonBlock c);
    if r <? 0 then sysret (KClose c);; mret (inl client) else
    r ← sysret (KSetOpt c "TCP_NODELAY" 1);
    if negb (r =? 0) then sysret (KClose c);; mret (inl client) else
    rval ← on_pool (add_event Conev.on_request c POLLIN);
    match rval with
    | None => sysret (KClose c);; mret (inl client)
    | Some rval => updc rval (set_c_addr client);; mret (inl client)
    end.

Definition on_accept (val : nat) : W Z := sloop (accept_body val) fuel (junk 28).

(** ** An outgoing SOCKS server (extend.c) *)

Definition on_socks_recv (run : evcb → nat → Z → W Z) (val : nat) : W Z :=
  e ← eval_at val;
  a ← syscall (KRecv (ev_fd e) S_REQ_SIZE);
  let n := a_ret a in
  if n <? 2 then run (c_after_conn_cb (ev_conn e)) val POLLERR else
  r ← lift (memcpy (repeat 0 (Z.to_nat S_REQ_SIZE)) 0 (a_data a) 0 n);
  ver ← lift (rd r 0); cmd ← lift (rd r 1);
  if negb (ver =? S_VER5) || negb (cmd =? S_ER_OK) then run (c_after_conn_cb (ev_conn e)) val POLLERR
  else if negb (c_conn_state (ev_conn e) =? FLAG_S5) then
    r ← lift (store r 1 [S_CMD_CONN]);
    '(len, r) ← lift (s5_set_addr r 0 S_REQ_SIZE (c_addr (ev_conn e)) false);
    l ← lift (rds r 0 len);
    sn ← on_pool (send os (ev_fd e) l);
    if sn <? 0 then run (c_after_conn_cb (ev_conn e)) val POLLERR else
    updc val (set_c_conn_state FLAG_S5);; mret 0
  else
    upd val (set_ev_cb (c_after_conn_cb (ev_conn e)));;
    run (c_after_conn_cb (ev_conn e)) val POLLOUT.

Definition on_socks_conn (run : evcb → nat → Z → W Z) (val : nat) (t : Z) : W Z :=
  e ← eval_at val;
  r ← on_pool (send os (ev_fd e) [S_VER5; 1; 0]);
  if r <? 0 then run (c_after_conn_cb (ev_conn e)) val t else
  r ← on_pool (mod_etype val POLLIN);
  if negb (r =? 0) then mret (-1) else
  upd val (set_ev_cb Conev.on_socks_recv);; mret 0.

(** ** Events *)

(** The call through a pointer to a callback.  [k] bounds the calls that a callback makes
    through [after_conn_cb]. *)
Fixpoint run_cb (k : nat) (cb : evcb) (val : nat) (et : Z) : W Z :=
  match k with
  | O => sfail OutOfFuel
  | S k =>
      match cb with
      | ON_NULL => sfail OutOfBounds
      | Conev.on_accept => on_accept val
      | Conev.on_request => on_request val
      | Conev.on_connect => on_connect val et
      | Conev.on_ignore => mret (on_ignore et)
      | Conev.on_tunnel => on_tunnel val et
      | Conev.on_udp_tunnel => on_udp_tunnel val
      | Conev.on_socks_conn => on_socks_conn (run_cb k) val et
      | Conev.on_socks_recv => on_socks_recv (run_cb k) val
      | recv_and_connect => on_recv_and_connect prm os junk fuel val
      end
  end.

(** One round of [loop_event], with [i] and [etype] as the last round left them. *)
Definition event_body (x : Z * Z) : W ((Z * Z) + unit) :=
  let '(i, etype) := x in
  brk ← gets (λ w, p_brk (w_pool w));
  if (brk : bool) then mret (inr tt) else
  '(val, i, etype) ← on_pool (next_event_tv os fuel i etype);
  match val with
  | None => e ← get_e; mret (if e =? EINTR then inl (i, etype) else inr tt)
  | Some val =>
      e ← eval_at val;
      ret ← run_cb fuel (ev_cb e) val etype;
      (if ret <? 0 then on_pool (del_event os fuel val) else skip);;
      mret (inl (i, etype))
  end.
Definition loop_event : W unit := sloop event_body fuel (-1, -1).

(** The pool starts with what [malloc] left in its arrays, and the log so far. *)
Definition start_event_loop (items : list eval) (pevents : list pollfd) (srvfd : Z) : W Z :=
  modify (λ w, set_w_pool (set_p_log (p_log (w_pool w))
    (init_pool (pr_max_open prm * 2 + 1) items pevents)) w);;
  v ← on_pool (add_event Conev.on_accept srvfd POLLIN);
  match v with
  | None => on_pool (destroy_pool os fuel);; sysret (KClose srvfd);; mret (-1)
  | Some _ => loop_event;; on_pool (destroy_pool os fuel);; mret 0
  end.

Definition listen_socket (srv : bytes) : W Z :=
  srvfd ← nb_socket os (sa_family srv) SOCK_STREAM;
  if srvfd <? 0 then mret (-1) else
  r ← sysret (KSetOpt srvfd "SO_REUSEADDR" 1);
  if r =? -1 then sysret (KClose srvfd);; mret (-1) else
  r ← sysret (KBind srvfd srv);
  if r <? 0 then sysret (KClose srvfd);; mret (-1) else
  r ← sysret (KListen srvfd 10);
  if negb (r =? 0) then sysret (KClose srvfd);; mret (-1) else
  mret srvfd.

(** [run]; the handlers of signals are not modelled. *)
Definition run (items : list eval) (pevents : list pollfd) (srv : bytes) : W Z :=
  fd ← listen_socket srv;
  if fd <? 0 then mret (-1) else start_event_loop items pevents fd.
End proxy.
