(* ===== verification/Relay.v ===== *)
(** The relay of a tunnel (proxy.c [on_tunnel], extend.c [tcp_recv_hook], [tcp_send_hook])
    from the server to the client.

    The log of calls says what came in on the one descriptor and what the system took on
    the other; [relay] is the state of the two connections between the calls.  However the
    reads and the short sends fall, the bytes taken and the bytes that wait in the buffer
    are together the bytes that came in, in order. *)
From Stdlib Require Import ZArith Lia Ascii String.
From stdpp Require Import base numbers list option sorting sets.
From S2P Require Import Prelude CMem PacketsTls PacketsHttp Mpool Params Desync DList Conev Socks Extend World Proxy.

#[local] Open Scope Z_scope.
#[local] Open Scope list_scope.

(** * The log as two streams *)

Section streams.
Context (f : call → answer → bytes) (os : list call → answer).

(** What the calls of [l] made of [f], after the calls of [pre]. *)
Fixpoint stream (pre l : list call) : bytes :=
  match l with [] => [] | c :: l => f c (os (pre ++ [c])) ++ stream (pre ++ [c]) l end.

Lemma stream_app pre a b : stream pre (a ++ b) = stream pre a ++ stream (pre ++ a) b.
Proof.
  revert pre. induction a as [|c a IH]; intros pre; cbn [stream app]; [by rewrite app_nil_r|].
  rewrite IH, <- !app_assoc. done.
Qed.
End streams.

(** What a [recv] on [fd] brings, and what a [send] on it takes. *)
Definition got (fd : Z) (c : call) (a : answer) : bytes :=
  match c with KRecv fd' n => if fd' =? fd then take (Z.to_nat (a_ret a)) (a_data a) else [] | _ => [] end.
Definition took (fd : Z) (c : call) (a : answer) : bytes :=
  match c with KSend fd' data => if fd' =? fd then take (Z.to_nat (a_ret a)) data else [] | _ => [] end.

(** The reads that filled the buffer. *)
Definition full (fd : Z) (c : call) (a : answer) : bytes :=
  match c with KRecv fd' n => if (fd' =? fd) && (a_ret a =? n) then [0] else [] | _ => [] end.

(** The sends of data of which the system took nothing. *)
Definition refused (fd : Z) (c : call) (a : answer) : bytes :=
  match c with
  | KSend fd' data => if (fd' =? fd) && (a_ret a <? 1) && negb (blen data =? 0) then [0] else []
  | _ => []
  end.

Section relay.
Context (prm : params) (os : list call → answer) (junk : Z → bytes) (rand : nat → Z) (fuel : nat).
Context (val peer : nat) (rfd sfd : Z).
Context (Hvp : val ≠ peer) (Hfd : rfd ≠ sfd) (Htimeout : pr_timeout prm = 0).
Context (Hsize : 0 < pr_bfsize prm) (Hjunk : ∀ n, 0 <= n → blen (junk n) = n).

(** The system keeps to its contract on the two descriptors, and reports no error but that
    a call would block. *)
Record calm : Prop := {
  cm_recv l n : let a := os (l ++ [KRecv rfd n]) in
    a_ret a <= n ∧ (1 <= a_ret a → blen (a_data a) = a_ret a) ∧
    (a_ret a < 0 → unie (a_ret (os ((l ++ [KRecv rfd n]) ++ [KGetE]))) = EAGAIN);
  cm_send l data : let a := os (l ++ [KSend sfd data]) in
    a_ret a <= blen data ∧
    (a_ret a < 0 → unie (a_ret (os ((l ++ [KSend sfd data]) ++ [KGetE]))) = EAGAIN)
}.
Context (Hcalm : calm).

Definition buf_ok (b : buffer) : Prop := 0 < b_size b ∧ blen (b_data b) = b_size b.
(** The [lock] and [offset] mark a part of the buffer. *)
Definition marks_ok (b : buffer) : Prop := 0 <= b_offset b <= b_lock b ∧ b_lock b <= b_size b.

(** The two connections, the buffer of [val] and the log. *)
Record relay (w : world) (e pe : eval) (b : option buffer) (l : list call) : Prop := {
  rl_val : client_at w val e;
  rl_peer : client_at w peer pe;
  rl_fd : ev_fd e = rfd;
  rl_pair : ev_pair e = Some peer;
  rl_flag : c_flag (ev_conn e) = FLAG_CONN;
  rl_idx : 0 <= ev_index e < p_count (w_pool w);
  rl_buff : ev_buff e = b;
  rl_bok : match b with Some b => buf_ok b | None => True end;
  rl_pfd : ev_fd pe = sfd;
  rl_ppair : ev_pair pe = Some val;
  rl_pflag : c_flag (ev_conn pe) ≠ FLAG_CONN;
  rl_mark : c_mark (ev_conn pe) = false;
  rl_sq : ev_sq_buff pe = None;
  rl_dp : ∃ i g, c_dp (ev_conn pe) = Some i ∧ w_dps w !! i = Some g;
  rl_pidx : 0 <= ev_index pe < p_count (w_pool w);
  rl_evs : p_count (w_pool w) <= Z.of_nat (length (p_pevents (w_pool w)));
  rl_root : Forall (λ b, buf_ok b ∧ b_offset b = 0 ∧ b_lock b = 0) (p_root_buff (w_pool w));
  rl_log : world_log w = l
}.

Definition St (b : option buffer) (l : list call) (w : world) : Prop := ∃ e pe, relay w e pe b l.

(** Changes of the items that [relay] does not see. *)
Lemma relay_val w e pe b l f b' :
  relay w e pe b l →
  (ev_fd (f e) = ev_fd e ∧ ev_pair (f e) = ev_pair e ∧ c_flag (ev_conn (f e)) = c_flag (ev_conn e) ∧
   ev_index (f e) = ev_index e) → ev_buff (f e) = b' → match b' with Some b => buf_ok b | None => True end →
  relay (with_eval w val f) (f e) pe b' l.
Proof.
  intros [] (F1 & F2 & F3 & F4) Fb Hb'. split; try done; rewrite ?F1, ?F2, ?F3, ?F4; try done.
  - by apply client_at_with.
  - unfold client_at in *. cbn. rewrite list_lookup_alter_ne by done. done.
Qed.

Lemma relay_peer w e pe b l f :
  relay w e pe b l →
  (ev_fd (f pe) = ev_fd pe ∧ ev_pair (f pe) = ev_pair pe ∧ ev_index (f pe) = ev_index pe ∧
   ev_sq_buff (f pe) = ev_sq_buff pe ∧ c_flag (ev_conn (f pe)) = c_flag (ev_conn pe) ∧
   c_mark (ev_conn (f pe)) = c_mark (ev_conn pe) ∧ c_dp (ev_conn (f pe)) = c_dp (ev_conn pe)) →
  relay (with_eval w peer f) e (f pe) b l.
Proof.
  intros [] (F1 & F2 & F3 & F4 & F5 & F6 & F7).
  split; try done; rewrite ?F1, ?F2, ?F3, ?F4, ?F5, ?F6, ?F7; try done.
  - unfold client_at in *. cbn. rewrite list_lookup_alter_ne by done. done.
  - by apply client_at_with.
Qed.

Lemma relay_log w e pe b l l' : relay w e pe b l → relay (with_log l' w) e pe b l'.
Proof. intros []. by split. Qed.

(** Runs the instructions that only read. *)
Ltac srun :=
  repeat first [ sstep | eapply swp_eval_at; [eassumption|] | eapply swp_conn_at; [eassumption|]
               | eapply swp_deref; [first [eassumption|reflexivity]|]
               | eapply swp_group; [eassumption|] ].

(** * The hooks *)

(** The suffix of the log that carries no data. *)
Definition silent (l s : list call) : Prop :=
  stream (got rfd) os l s = [] ∧ stream (took sfd) os l s = [] ∧ stream (full rfd) os l s = [].

Definition filled (b : buffer) (a : answer) : buffer := set_b_data (put (b_data b) 0 (a_data a)) b.

Lemma filled_ok b a : buf_ok b → blen (a_data a) <= b_size b → buf_ok (filled b a).
Proof.
  intros [H1 H2] H. pose proof (blen_nonneg (a_data a)). split; [done|]. cbn. by rewrite blen_put by lia.
Qed.

Lemma fin_ok w e pe b l : relay w e pe b l → swp (on_fin prm os junk fuel val) w (λ r w', r = -1 ∧ w' = w).
Proof.
  intros []. unfold on_fin. srun. rewrite rl_flag0. change (FLAG_CONN =? FLAG_CONN) with true. cbn [negb].
  srun. rewrite rl_mark0. cbn [andb negb]. by srun.
Qed.

Lemma timeout_off : (pr_timeout prm =? 0) = true.
Proof. by rewrite Htimeout. Qed.

Lemma answer_ok w e pe b l n : relay w e pe (Some b) l →
  swp (on_answer prm os junk fuel val b n) w (λ r w', r = n ∧ w' = w).
Proof.
  intros []. unfold on_answer. srun. rewrite rl_mark0. srun. rewrite timeout_off, andb_false_r. cbn [andb].
  srun. rewrite rl_sq0. by srun.
Qed.

(** What a read leaves. *)
Definition read_done (b : buffer) (l : list call) (r : Z) (w : world) : Prop :=
  let c := KRecv rfd (b_size b) in let a := os (l ++ [c]) in
  (r = -1 ∧ ∃ s, silent l s ∧ St (Some b) (l ++ s) w) ∨
  (r = 0 ∧ ∃ s, silent l s ∧ St (Some b) (l ++ s) w) ∨
  (1 <= r <= b_size b ∧ a_ret a = r ∧ blen (a_data a) = r ∧ St (Some (filled b a)) (l ++ [c]) w).

Lemma rounds_ok w e pe b l : relay w e pe b l →
  swp (count_round val (Some peer)) w (λ _ w', ∃ e' pe', relay w' e' pe' b l).
Proof.
  intros Hr. pose proof Hr as []. destruct rl_dp0 as (i & g & Ei & Eg).
  assert (Hend : ∀ w' e' pe' (d : bool), relay w' e' pe' b l → c_dp (ev_conn pe') = Some i → w_dps w' !! i = Some g →
    swp (if d then
           peer ← deref (Some peer); pc ← conn_at peer; i ← deref (c_dp pc); group i;; skip
         else skip) w' (λ _ w', ∃ e' pe', relay w' e' pe' b l)).
  { intros w' e' pe' d Hr' Ei' Eg'. pose proof Hr' as []. destruct d; srun; eauto. }
  unfold count_round. srun. destruct (c_round_sent (ev_conn e) =? 0) eqn:E0; srun.
  - eapply swp_updc; [done|].
    match goal with |- context [with_eval w val ?f] =>
      apply (relay_val _ _ _ _ _ f b) in Hr; [|by split_and!|done|done] end.
    set (w1 := with_eval w _ _) in *. srun. eapply swp_updc; [exact (rl_peer _ _ _ _ _ Hr)|].
    match goal with |- context [with_eval w1 peer ?f] => apply (relay_peer _ _ _ _ _ f) in Hr; [|by split_and!] end.
    cbv beta. eapply Hend; [exact Hr|done|done].
  - by eapply Hend.
Qed.

Lemma recv_ok w b l : St (Some b) l w → swp (tcp_recv_hook prm os junk fuel val) w (read_done b l).
Proof.
  intros (e & pe & Hr). pose proof Hr as []. unfold tcp_recv_hook, buff_of. srun.
  rewrite rl_buff0. srun. apply swp_answer. rewrite rl_fd0, rl_log0.
  set (c := KRecv rfd (b_size b)). set (a := os (l ++ [c])). unfold read_done. fold c. fold a.
  destruct (cm_recv Hcalm l (b_size b)) as (H1 & H2 & H3). fold c a in H1, H2, H3.
  assert (Hr1 : relay (with_log (l ++ [c]) w) e pe (Some b) (l ++ [c])) by (by eapply relay_log).
  set (w1 := with_log _ _) in *. cbv zeta.
  destruct (Z.ltb_spec (a_ret a) 1) as [Hn|Hn].
  - destruct (Z.eqb_spec (a_ret a) 0) as [H0|H0].
    + eapply swp_mono; [by eapply fin_ok|]. intros r w' [-> ->]. left. split; [done|]. exists [c]. split; [|by exists e, pe].
      unfold silent. cbn. fold c a. unfold got, took, full, c. rewrite Z.eqb_refl, H0. destruct rl_bok0 as [? _].
      destruct (Z.eqb_spec 0 (b_size b)); [lia|done].
    + srun. apply swp_get_e. rewrite (rl_log _ _ _ _ _ Hr1), H3 by lia.
      change (EAGAIN =? EAGAIN) with true. srun. right; left.
      split; [done|]. exists [c; KGetE]. split.
      * unfold silent. cbn. fold c a. unfold got, took, full, c. rewrite Z.eqb_refl.
        replace (Z.to_nat (a_ret a)) with 0%nat by lia. destruct rl_bok0 as [? _].
        destruct (Z.eqb_spec (a_ret a) (b_size b)); [lia|done].
      * exists e, pe. change (l ++ [c; KGetE]) with (l ++ [c] ++ [KGetE]). rewrite app_assoc.
        by eapply relay_log.
  - assert (Hlen : blen (a_data a) = a_ret a) by (apply H2; lia). destruct rl_bok0 as [Hb1 Hb2].
    srun. apply wp_memcpy; [lia..|].
    rewrite <- Hlen, sub_all. fold (filled b a).
    assert (Hbf : buf_ok (filled b a)) by (apply filled_ok; [done|lia]).
    srun. eapply swp_upd_eval; [exact (rl_val _ _ _ _ _ Hr1)|].
    apply (relay_val _ _ _ _ _ (set_ev_buff (Some (filled b a))) (Some (filled b a))) in Hr1; [|by split_and!|done|done].
    set (w2 := with_eval w1 _ _) in *. srun. eapply swp_updc; [exact (rl_val _ _ _ _ _ Hr1)|].
    match goal with |- context [with_eval w2 val ?f] =>
      apply (relay_val _ _ _ _ _ f (Some (filled b a))) in Hr1; [|by split_and!|done|done] end.
    set (w3 := with_eval w2 _ _) in *.
    srun. rewrite rl_pair0. eapply swp_mono; [by eapply rounds_ok|].
    intros _ w4 (e4 & pe4 & Hr4). srun. eapply swp_conn_at; [exact (rl_val _ _ _ _ _ Hr4)|].
    rewrite (rl_flag _ _ _ _ _ Hr4). change (FLAG_CONN =? FLAG_CONN) with true. cbv iota.
    eapply swp_mono; [by eapply answer_ok|]. intros r w5 [-> ->]. right; right. rewrite Hlen.
    split_and!; [lia|lia|done|done|]. by exists e4, pe4.
Qed.

(** What a send of [n] leaves. *)
Definition sent (b : buffer) (l : list call) (n : Z) (r : Z * bool * Z) (w : world) : Prop :=
  ∃ sn s, r = (sn, false, n) ∧ 0 <= sn <= n - b_offset b ∧ St (Some b) (l ++ s) w ∧
    stream (got rfd) os l s = [] ∧ stream (full rfd) os l s = [] ∧
    stream (took sfd) os l s = sub (b_data b) (b_offset b) sn ∧
    (1 <= sn ∨ n <= b_offset b ∨ stream (refused sfd) os l s ≠ []).

Lemma send_ok w b l n lock :
  St (Some b) l w → 0 <= b_offset b <= n → n <= b_size b →
  swp (tcp_send_hook prm os junk rand fuel peer val n lock) w (sent b l n).
Proof.
  intros (e & pe & Hr) Ho Hn. pose proof Hr as []. unfold tcp_send_hook, buff_of. srun.
  rewrite rl_buff0. srun. destruct (Z.eqb_spec (c_flag (ev_conn pe)) FLAG_CONN) as [|_]; [done|].
  srun. change (0 <? 0) with false. cbv iota. srun. destruct rl_bok0 as [Hb1 Hb2].
  apply wp_rds; [lia|lia|lia|]. set (data := sub _ _ _). srun. apply swp_sysret.
  rewrite rl_pfd0, rl_log0. set (c := KSend sfd data). set (a := os (l ++ [c])).
  destruct (cm_send Hcalm l data) as (H1 & H2). fold c a in H1, H2.
  assert (Hlen : blen data = n - b_offset b) by (apply blen_sub; lia).
  assert (Hr1 : relay (with_log (l ++ [c]) w) e pe (Some b) (l ++ [c])) by (by eapply relay_log).
  set (w1 := with_log _ _) in *. destruct (Z.ltb_spec (a_ret a) 0) as [Hneg|Hpos].
  - srun. apply swp_get_e. rewrite (rl_log _ _ _ _ _ Hr1), H2 by done.
    change (EAGAIN =? EAGAIN) with true. srun. exists 0, [c; KGetE]. split_and!; [done|lia|lia| |done|done| |].
    + exists e, pe. change (l ++ [c; KGetE]) with (l ++ [c] ++ [KGetE]). rewrite app_assoc. by eapply relay_log.
    + cbn. fold c a. rewrite Z.eqb_refl, sub_0. by replace (Z.to_nat (a_ret a)) with 0%nat by lia.
    + destruct (Z.le_gt_cases n (b_offset b)); [by right; left|]. right; right. cbn. fold c a. rewrite Z.eqb_refl, Hlen.
      destruct (Z.ltb_spec (a_ret a) 1), (Z.eqb_spec (n - b_offset b) 0); done || lia.
  - srun. destruct (Z.ltb_spec (a_ret a) 0); [lia|]. srun.
    eapply swp_updc; [exact (rl_val _ _ _ _ _ Hr1)|].
    match goal with |- context [with_eval w1 val ?f] =>
      apply (relay_val _ _ _ _ _ f (Some b)) in Hr1; [|by split_and!|done|done] end.
    srun. exists (a_ret a), [c]. split_and!; [done|lia|lia|by eexists _, pe|done|done| |].
    + cbn. fold c a. rewrite Z.eqb_refl, app_nil_r. unfold data.
      rewrite <- sub_take, sub_sub by lia. by rewrite Z.add_0_r.
    + destruct (Z.le_gt_cases 1 (a_ret a)); [by left|]. destruct (Z.le_gt_cases n (b_offset b)); [by right; left|].
      right; right. cbn. fold c a. rewrite Z.eqb_refl, Hlen.
      destruct (Z.ltb_spec (a_ret a) 1), (Z.eqb_spec (n - b_offset b) 0); done || lia.
Qed.

Lemma mod_ok w b l v t : v = val ∨ v = peer → St b l w →
  swp (on_pool (mod_etype v t)) w (λ r w', r = 0 ∧ St b l w').
Proof.
  intros Hv (e & pe & Hr). pose proof Hr as [].
  assert (∃ ev, client_at w v ev ∧ 0 <= ev_index ev < p_count (w_pool w)) as (ev & Ev & Hi).
  { destruct Hv as [-> | ->]; eauto. }
  apply swp_on_pool. unfold mod_etype. sstep. eapply swp_item; [exact Ev|]. sstep. sstep. sstep. sstep.
  apply wp_assert; [lia|]. sstep. sstep. sstep. sstep.
  destruct (lookup_lt_is_Some_2 (p_pevents (w_pool w)) (Z.to_nat (ev_index ev))) as [pf Epf]; [lia|].
  eapply wp_geti; [lia|exact Epf|]. sstep. sstep. sstep. split; [done|].
  exists e, pe. destruct Hr. split; try done. cbn. by rewrite length_alter.
Qed.

Lemma drop_buff_ok w b l : St (Some b) l w →
  swp (on_pool (buff_push (Some b))) w (λ _ w, swp (upd val (set_ev_buff None)) w (λ _ w', St None l w')).
Proof.
  intros (e & pe & Hr). pose proof Hr as []. apply swp_on_pool.
  assert (Hw : ∀ p, p_items p = p_items (w_pool w) → p_count p = p_count (w_pool w) →
    p_pevents p = p_pevents (w_pool w) → p_log p = p_log (w_pool w) →
    Forall (λ b, buf_ok b ∧ b_offset b = 0 ∧ b_lock b = 0) (p_root_buff p) →
    swp (upd val (set_ev_buff None)) (set_w_pool p w) (λ _ w', St None l w')).
  { intros p E1 E2 E3 E4 Hf.
    assert (Hr' : relay (set_w_pool p w) e pe (Some b) l).
    { split; try done; unfold client_at, world_log in *; cbn; rewrite ?E1, ?E2, ?E3, ?E4; done. }
    eapply swp_upd_eval; [exact (rl_val _ _ _ _ _ Hr')|]. eexists _, pe.
    by apply (relay_val _ _ _ _ _ (set_ev_buff None) None) in Hr'. }
  unfold buff_push. sstep. sstep. destruct (MAX_BUFF_INP <=? _); [sstep; by apply Hw|].
  sstep. apply Hw; try done. cbn. apply list.Forall_cons. split; [|done]. by destruct rl_bok0.
Qed.

Lemma take_buff_ok w l : St None l w →
  swp (on_pool (buff_pop junk (pr_bfsize prm))) w (λ b w, swp (upd val (set_ev_buff (Some b))) w
    (λ _ w', St (Some b) l w' ∧ b_offset b = 0 ∧ b_lock b = 0)).
Proof.
  intros (e & pe & Hr). pose proof Hr as []. apply swp_on_pool. unfold buff_pop. sstep. sstep.
  destruct (p_root_buff (w_pool w)) as [|b root] eqn:Eroot.
  - sstep. eapply swp_upd_eval; [exact rl_val0|].
    set (b := Buffer _ _ _ _). split; [|done].
    assert (buf_ok b) by (split; [done|]; cbn; apply Hjunk; lia).
    eexists _, pe. apply (relay_val _ _ _ _ _ (set_ev_buff (Some b)) (Some b)) in Hr; [|by split_and!|done|done].
    by destruct w as [[]].
  - sstep. sstep. sstep. eapply swp_upd_eval; [exact rl_val0|]. apply list.Forall_cons in rl_root0 as [(Hb & Hoff & Hlock) Hf].
    split; [|done].
    eexists _, pe. apply (relay_val _ _ _ _ _ (set_ev_buff (Some b)) (Some b)) in Hr; [|by split_and!|done|done].
    destruct Hr. split; try done.
Qed.

(** * The relay *)

Definition received (l : list call) : bytes := stream (got rfd) os [] l.
Definition delivered (l : list call) : bytes := stream (took sfd) os [] l.
Definition full_reads (l : list call) : nat := length (stream (full rfd) os [] l).

Definition refusals (l : list call) : nat := length (stream (refused sfd) os [] l).

Lemma received_mono l l' : l `prefix_of` l' → received l `prefix_of` received l'.
Proof. intros [s ->]. unfold received. rewrite stream_app. by apply prefix_app_r. Qed.
Lemma delivered_mono l l' : l `prefix_of` l' → delivered l `prefix_of` delivered l'.
Proof. intros [s ->]. unfold delivered. rewrite stream_app. by apply prefix_app_r. Qed.

(** The bytes that wait in the buffer. *)
Definition pending (b : option buffer) : bytes :=
  match b with Some b => sub (b_data b) (b_offset b) (b_lock b - b_offset b) | None => [] end.

(** The state between two events: what came in was delivered or waits in the buffer. *)
Definition flows (b : option buffer) (l : list call) (w : world) : Prop :=
  St b l w ∧ match b with Some b => marks_ok b | None => True end ∧ received l = delivered l ++ pending b.

Definition backlog (b : option buffer) : nat := length (pending b).

(** Nothing new was read, and bytes were sent, or a send was refused. *)
Definition waits (b : option buffer) (l : list call) (b' : option buffer) (l' : list call) : Prop :=
  received l' = received l ∧ (backlog b' + refusals l < backlog b + refusals l')%nat.

Lemma St_bok b l w : St (Some b) l w → buf_ok b.
Proof. intros (e & pe & []). done. Qed.

Lemma silent_streams l s : silent l s →
  received (l ++ s) = received l ∧ delivered (l ++ s) = delivered l ∧ full_reads (l ++ s) = full_reads l.
Proof.
  intros (S1 & S2 & S3). unfold received, delivered, full_reads. rewrite !stream_app. cbn [app].
  by rewrite S1, S2, S3, !app_nil_r.
Qed.

Lemma sent_streams l s n sn b : stream (got rfd) os l s = [] → stream (full rfd) os l s = [] →
  stream (took sfd) os l s = sub (b_data b) (b_offset b) sn →
  received l = delivered l ++ sub (b_data b) (b_offset b) (n - b_offset b) →
  0 <= b_offset b → 0 <= sn <= n - b_offset b → n <= blen (b_data b) →
  received (l ++ s) = delivered (l ++ s) ++ sub (b_data b) (b_offset b + sn) (n - (b_offset b + sn)) ∧
  full_reads (l ++ s) = full_reads l.
Proof.
  intros S1 S2 S3 E Ho Hsn Hn. unfold received, delivered, full_reads in *. rewrite !stream_app. cbn [app].
  rewrite S1, S2, S3, !app_nil_r, E, <- app_assoc. split; [|done]. f_equal.
  rewrite (sub_split (b_data b) (b_offset b) (n - b_offset b) sn) by lia. do 2 f_equal. lia.
Qed.

Lemma waits_sent b l s sn : stream (got rfd) os l s = [] → buf_ok b → 0 <= b_offset b → b_lock b <= b_size b →
  0 <= sn < b_lock b - b_offset b → (1 <= sn ∨ b_lock b <= b_offset b ∨ stream (refused sfd) os l s ≠ []) →
  waits (Some b) l (Some (set_b_offset (b_offset b + sn) b)) (l ++ s).
Proof.
  intros S1 [Hb1 Hb2] Ho Hl Hsn Hp. unfold waits, received, refusals, backlog. rewrite !stream_app. cbn [pending b_data b_offset b_lock set_b_offset app].
  rewrite S1, app_nil_r, length_app. split; [done|].
  pose proof (blen_sub (b_data b) (b_offset b + sn) (b_lock b - (b_offset b + sn))) as L1.
  pose proof (blen_sub (b_data b) (b_offset b) (b_lock b - b_offset b)) as L2. unfold blen in *.
  destruct Hp as [Hp|[Hp|Hp]]; [lia|lia|]. destruct (stream (refused sfd) os l s); [done|]. cbn [length]. lia.
Qed.

Lemma flush_ok w b l : flows b l w →
  swp (tunnel_flush prm os junk rand fuel val (Some peer)) w (λ r w', ∃ l', l `prefix_of` l' ∧
    match r with
    | inl _ => flows None l' w'
    | inr r => r = 0 ∧ ∃ b', flows (Some b') l' w' ∧ waits b l (Some b') l'
    end).
Proof.
  intros (Hst & Hm & E). pose proof Hst as (e & pe & Hr). pose proof (rl_val _ _ _ _ _ Hr) as Ev.
  unfold tunnel_flush. srun. rewrite (rl_buff _ _ _ _ _ Hr). destruct b as [b|]; [|srun; exists l; by split].
  destruct Hm as [Hm1 Hm2]. pose proof (St_bok _ _ _ Hst) as [Hb1 Hb2]. srun.
  eapply swp_mono; [apply send_ok; [exact Hst|lia|lia]|].
  intros r w1 (sn & s & -> & Hsn & Hst1 & S1 & S2 & S3 & S4). cbv beta iota.
  destruct (sent_streams l s (b_lock b) sn b S1 S2 S3 E) as [E1 E2]; [lia|lia|lia|].
  destruct (Z.ltb_spec sn 0); [lia|]. rewrite orb_false_r.
  destruct (Z.ltb_spec sn (b_lock b - b_offset b)) as [Hlt|Hge].
  - destruct Hst1 as (e1 & pe1 & Hr1). srun. eapply swp_upd_eval; [exact (rl_val _ _ _ _ _ Hr1)|]. srun.
    exists (l ++ s). split; [by apply prefix_app_r|]. split; [done|]. eexists (set_b_offset (b_offset b + sn) b).
    split; [|apply waits_sent; [done|by split|lia|lia|lia|exact S4]]. split_and!.
    + eexists _, pe1.
      apply (relay_val _ _ _ _ _ (λ e, set_ev_buff ((λ b, set_b_offset (b_offset b + sn) b) <$> ev_buff e) e)
        (Some (set_b_offset (b_offset b + sn) b))) in Hr1; [exact Hr1|by split_and!| |done].
      cbn. by rewrite (rl_buff _ _ _ _ _ Hr1).
    + split; cbn; lia.
    + exact E1.
  - destruct Hst1 as (e1 & pe1 & Hr1). srun. eapply swp_eval_at; [exact (rl_val _ _ _ _ _ Hr1)|].
    rewrite (rl_buff _ _ _ _ _ Hr1). assert (Hst1 : St (Some b) (l ++ s) w1) by (by exists e1, pe1).
    srun. eapply swp_mono; [by apply drop_buff_ok|]. intros [] w2 H2. cbv beta in H2. srun.
    eapply swp_mono; [exact H2|]. intros [] w3 H3. srun.
    eapply swp_mono; [apply (mod_ok _ None); [by left|done]|]. intros r w4 [-> H4]. change (negb (0 =? 0)) with false. cbv iota. srun.
    eapply swp_mono; [apply (mod_ok _ None); [by right|done]|]. intros r w5 [-> H5]. change (negb (0 =? 0)) with false. cbv iota. srun.
    exists (l ++ s). split; [by apply prefix_app_r|]. split_and!; [done|done|]. rewrite E1. unfold pending.
    f_equal. replace (b_lock b - (b_offset b + sn)) with 0 by lia. apply sub_0.
Qed.

(** Empty, between two reads. *)
Definition idle (b : buffer) (l : list call) (w : world) : Prop :=
  St (Some b) l w ∧ b_offset b = 0 ∧ b_lock b = 0 ∧ received l = delivered l.

Lemma idle_flows b l w : idle b l w → flows (Some b) l w.
Proof.
  intros (H & Ho & Hl & E). destruct (St_bok _ _ _ H). split; [done|]. split; [split; lia|].
  unfold pending. rewrite Ho, Hl, sub_0, app_nil_r. done.
Qed.

Lemma idle_silent b l s w : silent l s → received l = delivered l → St (Some b) (l ++ s) w →
  b_offset b = 0 → b_lock b = 0 → idle b (l ++ s) w ∧ full_reads (l ++ s) = full_reads l.
Proof.
  intros Hs E Hst Ho Hl. destruct (silent_streams l s Hs) as (E1 & E2 & E3).
  split; [|done]. split_and!; try done. by rewrite E1, E2.
Qed.

(** A read that brings [n] bytes. *)
Lemma read_streams b l n : let c := KRecv rfd (b_size b) in let a := os (l ++ [c]) in
  a_ret a = n → blen (a_data a) = n → 1 <= n → received l = delivered l →
  received (l ++ [c]) = delivered (l ++ [c]) ++ a_data a ∧
  full_reads (l ++ [c]) = (full_reads l + if (n =? b_size b)%Z then 1 else 0)%nat.
Proof.
  intros c a Ha Hd Hn E. unfold received, delivered, full_reads in *. rewrite !stream_app. cbn [app stream].
  fold a. assert (got rfd c a = a_data a) as ->.
  { unfold got, c. rewrite Z.eqb_refl, Ha. apply take_ge. unfold blen in Hd. lia. }
  assert (took sfd c a = []) as -> by done.
  assert (full rfd c a = if n =? b_size b then [0] else []) as ->.
  { unfold full, c. by rewrite Z.eqb_refl, Ha. }
  rewrite !app_nil_r, length_app, E. split; [done|]. by destruct (n =? b_size b).
Qed.

Lemma tunnel_body_ok w b l : idle b l w →
  swp (tunnel_body prm os junk rand fuel val (Some peer) tt) w (λ r w', match r with
    | inl _ => ∃ b' l', l `prefix_of` l' ∧ idle b' l' w' ∧ full_reads l' = S (full_reads l)
    | inr r => ∃ b' l', l `prefix_of` l' ∧ flows (Some b') l' w' ∧ (r = 1 ∨ (r = 0 ∨ r = -1) ∧ idle b' l' w')
    end).
Proof.
  intros (Hst & Ho & Hl & E). pose proof (St_bok _ _ _ Hst) as [Hb1 Hb2]. unfold tunnel_body. srun.
  eapply swp_mono; [by apply recv_ok|].
  intros r w1 [(-> & s & Hs & H1)|[(-> & s & Hs & H1)|(Hr & Ha & Hd & H1)]].
  - change (-1 =? 0) with false. change (-1 <? 0) with true. cbv iota. srun.
    destruct (idle_silent b l s w1 Hs E H1 Ho Hl) as [Hi _].
    exists b, (l ++ s). split; [by apply prefix_app_r|]. split; [by apply idle_flows|]. auto.
  - change (0 =? 0) with true. cbv iota. srun.
    destruct (idle_silent b l s w1 Hs E H1 Ho Hl) as [Hi _].
    exists b, (l ++ s). split; [by apply prefix_app_r|]. split; [by apply idle_flows|]. auto.
  - destruct (Z.eqb_spec r 0); [lia|]. destruct (Z.ltb_spec r 0); [lia|]. srun.
    set (c := KRecv rfd (b_size b)) in *. set (a := os (l ++ [c])) in *.
    destruct (read_streams b l r Ha Hd ltac:(lia) E) as [E1 F1]. fold c a in E1, F1.
    assert (Ed : sub (b_data (filled b a)) 0 r = a_data a).
    { cbn. rewrite <- Hd. apply sub_put_same; lia. }
    eapply swp_mono; [apply send_ok; [exact H1|cbn; lia|cbn; lia]|].
    intros ? w2 (sn & s & -> & Hsn & H2 & S1 & S2 & S3 & _). cbn [b_offset filled set_b_data] in *. rewrite Ho in *.
    cbv beta iota. destruct (Z.ltb_spec sn 0); [lia|]. rewrite orb_false_r.
    destruct (sent_streams (l ++ [c]) s r sn (filled b a) S1 S2) as [E2 F2];
      cbn [b_offset filled set_b_data] in *; rewrite ?Ho; try lia; [done|..].
    { by rewrite Z.sub_0_r, E1, Ed. }
    { change (b_data (filled b a)) with (put (b_data b) 0 (a_data a)). rewrite blen_put; lia. }
    rewrite Ho in E2. rewrite Z.add_0_l in E2.
    destruct (Z.ltb_spec sn r) as [Hlt|Hge].
    + destruct H2 as (e2 & pe2 & Hr2). srun. eapply swp_upd_eval; [exact (rl_val _ _ _ _ _ Hr2)|]. srun.
      set (b' := set_b_offset sn (set_b_lock r (filled b a))).
      apply (relay_val _ _ _ _ _ (λ e, set_ev_buff ((λ b, set_b_offset sn (set_b_lock r b)) <$> ev_buff e) e)
        (Some b')) in Hr2; [|by split_and!|cbn; by rewrite (rl_buff _ _ _ _ _ Hr2)|exact (St_bok _ _ _ H1)].
      assert (H3 : St (Some b') ((l ++ [c]) ++ s) (with_eval w2 val
        (λ e, set_ev_buff ((λ b, set_b_offset sn (set_b_lock r b)) <$> ev_buff e) e))) by (by eexists _, pe2).
      eapply swp_mono; [apply (mod_ok _ (Some b')); [by left|exact H3]|]. intros ? w4 [-> H4].
      change (negb (0 =? 0)) with false. cbv iota. srun.
      eapply swp_mono; [apply (mod_ok _ (Some b')); [by right|exact H4]|]. intros ? w5 [-> H5].
      change (negb (0 =? 0)) with false. cbv iota. srun.
      exists b', ((l ++ [c]) ++ s). split; [by do 2 apply prefix_app_r|]. split; [|by left]. split_and!; [done|split; cbn; lia|exact E2].
    + srun. destruct H2 as (e2 & pe2 & Hr2). unfold buff_of. srun.
      eapply swp_eval_at; [exact (rl_val _ _ _ _ _ Hr2)|]. rewrite (rl_buff _ _ _ _ _ Hr2). srun.
      assert (Hi : idle (filled b a) ((l ++ [c]) ++ s) w2).
      { split_and!; [by exists e2, pe2|done|done|].
        rewrite E2. replace (r - sn) with 0 by lia. by rewrite sub_0, app_nil_r. }
      cbn [b_size filled set_b_data]. destruct (r =? b_size b).
      * eexists _, _. split; [by do 2 apply prefix_app_r|]. split; [exact Hi|]. rewrite F2, F1. lia.
      * eexists _, _. split; [by do 2 apply prefix_app_r|]. split; [by apply idle_flows|]. auto.
Qed.

(** The reads that fill the buffer are not more than [total]. *)
Lemma tunnel_loop_ok total w b l :
  (∀ l, (full_reads l <= total)%nat) → (total < fuel)%nat → idle b l w →
  swp (sloop (tunnel_body prm os junk rand fuel val (Some peer)) fuel tt) w (λ r w',
    ∃ b' l', l `prefix_of` l' ∧ flows (Some b') l' w' ∧ (r = 1 ∨ (r = 0 ∨ r = -1) ∧ idle b' l' w')).
Proof.
  intros Ht Hf Hi.
  apply (swp_sloop_st _ (λ _ w, ∃ b l', l `prefix_of` l' ∧ idle b l' w)
    (λ w, total - full_reads (world_log w))%nat).
  - clear w b Hi. intros [] w (b & l1 & Hp & Hi). eapply swp_mono; [exact (tunnel_body_ok w b l1 Hi)|].
    intros [[]|r] w'.
    2: { intros (b' & l' & Hp' & H). exists b', l'. split; [by etrans|done]. }
    intros (b' & l' & Hp' & Hi' & Hc).
    assert (world_log w = l1) as -> by (by destruct Hi as [(e & pe & []) _]).
    assert (world_log w' = l') as -> by (by destruct Hi' as [(e & pe & []) _]).
    split; [exists b', l'; split; [by etrans|done]|]. specialize (Ht l'). lia.
  - by exists b, l.
  - lia.
Qed.

(** Which connection the event names: data for [val], or room at [peer]. *)
Definition event_at (v : nat) (etype : Z) : Prop :=
  etype ≠ POLLTIMEOUT ∧ (v = val ∧ has_bit etype POLLOUT = false ∨ v = peer ∧ has_bit etype POLLOUT = true).

Lemma on_tunnel_ok total v etype w b l :
  (∀ l, (full_reads l <= total)%nat) → (total < fuel)%nat → event_at v etype → flows b l w →
  swp (on_tunnel prm os junk rand fuel v etype) w (λ r w', (r = 0 ∨ r = -1) ∧ ∃ b' l', l `prefix_of` l' ∧ flows b' l' w' ∧
    (received l `prefix_of` delivered l' ∨ r = 0 ∧ waits b l b' l')).
Proof.
  intros Ht Hf [Hne Hev] Hfl. pose proof Hfl as ((e & pe & Hr) & _). pose proof Hr as []. unfold on_tunnel.
  assert (∃ ev, client_at w v ev ∧ ((v = val ∧ ev = e) ∨ (v = peer ∧ ev = pe))) as (ev & Hv & Hcase).
  { destruct Hev as [[-> _]|[-> _]]; eauto. }
  srun. destruct (Z.eqb_spec etype POLLTIMEOUT); [done|]. srun. rewrite orb_false_r.
  assert (Hk : swp (tunnel_flush prm os junk rand fuel val (Some peer)) w (λ r s, swp
      (match r with
      | inl _ =>
          buff ← on_pool (buff_pop junk (pr_bfsize prm));
          upd val (set_ev_buff (Some buff));;
          r ← sloop (tunnel_body prm os junk rand fuel val (Some peer)) fuel tt;
          if r =? 1 then mret 0 else
          if r <? 0 then mret (-1) else
          e ← eval_at val; on_pool (buff_push (ev_buff e));; upd val (set_ev_buff None);; mret 0
      | inr r => mret r
      end) s (λ r w', (r = 0 ∨ r = -1) ∧ ∃ b' l', l `prefix_of` l' ∧ flows b' l' w' ∧
        (received l `prefix_of` delivered l' ∨ r = 0 ∧ waits b l b' l')))).
  { eapply swp_mono; [exact (flush_ok w b l Hfl)|]. intros [[]|r] w1 (l1 & Hp1 & H1).
    2: { destruct H1 as [-> (b' & H1 & Hw)]. srun. split; [by left|]. exists (Some b'), l1. auto. }
    destruct H1 as (H1 & _ & E1). cbn [pending] in E1. rewrite app_nil_r in E1.
    assert (Hd : ∀ l2, l1 `prefix_of` l2 → received l `prefix_of` delivered l2).
    { intros l2 Hl2. apply delivered_mono in Hl2. apply received_mono in Hp1. rewrite E1 in Hp1. by etrans. }
    srun. eapply swp_mono; [exact (take_buff_ok w1 l1 H1)|]. intros b2 w2 H2.
    cbv beta in H2. srun. eapply swp_mono; [exact H2|]. intros [] w3 (H3 & Ho & Hl). srun.
    eapply swp_mono.
    { apply (tunnel_loop_ok total w3 b2 l1 Ht Hf). by split_and!. }
    intros r w4 (b4 & l4 & Hp4 & H4 & Hc).
    assert (Hp : l `prefix_of` l4) by (by etrans). destruct Hc as [-> |[[-> | ->] Hi]].
    - change (1 =? 1) with true. srun. split; [by left|]. exists (Some b4), l4. auto.
    - change (0 =? 1) with false. change (0 <? 0) with false. cbv iota.
      destruct Hi as ((e4 & pe4 & Hr4) & _ & _ & E4). srun.
      eapply swp_eval_at; [exact (rl_val _ _ _ _ _ Hr4)|]. rewrite (rl_buff _ _ _ _ _ Hr4). srun.
      eapply swp_mono; [apply drop_buff_ok; by exists e4, pe4|]. intros [] w5 H5. cbv beta in H5. srun.
      eapply swp_mono; [exact H5|]. intros [] w6 H6. srun. split; [by left|]. exists None, l4.
      split; [done|]. split; [|left; by apply Hd]. split_and!; [done|done|]. cbn. by rewrite app_nil_r.
    - change (-1 =? 1) with false. change (-1 <? 0) with true. srun. split; [by right|]. exists (Some b4), l4. auto. }
  destruct Hcase as [[-> ->]|[-> ->]].
  - assert (has_bit etype POLLOUT = false) as -> by (destruct Hev as [[_ ?]|[? _]]; done). srun.
    rewrite rl_pair0. exact Hk.
  - assert (has_bit etype POLLOUT = true) as -> by (destruct Hev as [[? _]|[_ ?]]; [by subst|done]). srun.
    rewrite rl_pair0. exact Hk.
Qed.

(** The handler on one event after the other, until it asks for the connection to be closed. *)
Fixpoint on_events (evs : list (nat * Z)) : ST world Z :=
  match evs with
  | [] => mret 0
  | (v, etype) :: evs => r ← on_tunnel prm os junk rand fuel v etype; if r =? 0 then on_events evs else mret r
  end.

Lemma on_events_ok total limit evs w b l bs :
  (∀ l, (full_reads l <= total)%nat) → (total < fuel)%nat → (∀ l, (refusals l <= limit)%nat) →
  Forall (λ x, event_at x.1 x.2) evs → flows b l w →
  bs `prefix_of` delivered l ∨ bs `prefix_of` received l ∧ (backlog b + limit <= refusals l + length evs)%nat →
  swp (on_events evs) w (λ r w', ∃ b' l', l `prefix_of` l' ∧ flows b' l' w' ∧ bs `prefix_of` delivered l').
Proof.
  intros Ht Hf Hlim Hevs. revert w b l. induction Hevs as [|[v et] evs Hev Hevs IH]; intros w b l Hfl Hn; cbn [on_events].
  - srun. exists b, l. split_and!; [done|done|]. destruct Hn as [|[Hbs Hn]]; [done|]. destruct Hfl as (_ & _ & E).
    specialize (Hlim l). cbn in Hn. rewrite E, (nil_length_inv (pending b)), app_nil_r in Hbs; [done|]. unfold backlog in Hn. lia.
  - srun. eapply swp_mono; [by eapply (on_tunnel_ok total)|]. cbv beta. cbn [length] in Hn.
    intros r w1 (Hr & b1 & l1 & Hp1 & Hfl1 & Hc).
    assert (Hn1 : bs `prefix_of` delivered l1 ∨ r = 0 ∧ bs `prefix_of` received l1 ∧
      (backlog b1 + limit <= refusals l1 + length evs)%nat).
    { destruct Hn as [Hn|[Hbs Hn]]; [left; apply delivered_mono in Hp1; by etrans|].
      destruct Hc as [Hc|(-> & E & Hc)]; [left; by etrans|]. right. rewrite E. split_and!; [done|done|lia]. }
    destruct (Z.eqb_spec r 0) as [->|Hr0].
    + eapply swp_mono; [apply (IH w1 b1 l1 Hfl1); tauto|]. cbv beta. intros r' w' (b' & l' & Hp' & H). exists b', l'.
      split; [by etrans|done].
    + srun. exists b1, l1. destruct Hn1 as [|[? _]]; done.
Qed.
End relay.

Lemma stream_nil f os pre l : (∀ pre c, f c (os (pre ++ [c])) = []) → stream f os pre l = [].
Proof. intros H. revert pre. induction l as [|c l IH]; intros pre; cbn; [done|]. by rewrite H, IH. Qed.

(** * Properties *)


(** A client on descriptor 5 and a server on 7, that sends three bytes at a time; the
    client's side takes two at most. *)
Definition relay_os (l : list call) : answer :=
  match list.last l with
  | Some (KRecv _ n) => if n <? 4 then Answer (Z.min (n - 1) (-1)) [] [] [] else Answer 3 [1; 2; 3] [] []
  | Some (KSend _ data) => Answer (Z.min 2 (blen data)) [] [] []
  | Some KGetE => Answer WSAEWOULDBLOCK [] [] []
  | _ => Answer 0 [] [] []
  end.

Definition relay_items : list eval :=
  [set_ev_fd 5 (set_ev_pair (Some 1%nat) (set_ev_conn (set_c_dp (Some 0%nat) zero_conn) zero_eval));
   set_ev_fd 7 (set_ev_index 1 (set_ev_pair (Some 0%nat) (set_ev_conn (set_c_flag FLAG_CONN zero_conn) zero_eval)))].
Definition relay_group : desync_params := dp_init.
Definition relay_world : world :=
  World (set_p_count 2 (set_p_items relay_items (init_pool 2 [] [Pollfd 5 POLLIN 0; Pollfd 7 POLLIN 0])))
    [relay_group] (Some 0%nat) (mem_pool 0 CMP_BITS) 0 0 [] [].
Definition relay_params : params :=
  Params 10 false 0 false 0 0 0 0 0 2 true true true false true 512 0 16 (repeat 0 28) 1.

Lemma relay_os_calm : calm relay_os 7 5.
Proof.
  split.
  - intros l n a. subst a. unfold relay_os. rewrite !last_snoc.
    destruct (Z.ltb_spec n 4); cbn; split_and!; done || lia.
  - intros l data a. subst a. unfold relay_os. rewrite !last_snoc. cbn. pose proof (blen_nonneg data).
    split; [lia|done].
Qed.

Lemma relay_os_full l : full_reads relay_os 7 l = 0%nat.
Proof.
  unfold full_reads. rewrite stream_nil; [done|]. intros pre c. destruct c; try done.
  unfold full. destruct (fd =? 7); [|done]. cbn [andb]. unfold relay_os. rewrite last_snoc.
  destruct (Z.ltb_spec n 4); cbn [a_ret].
  + destruct (Z.eqb_spec (Z.min (n - 1) (-1)) n); [lia|done].
  + destruct (Z.eqb_spec 3 n); [lia|done].
Qed.

Lemma relay_world_flows : flows relay_os 1 0 7 5 None [] relay_world.
Proof.
  split; [|by split]. do 2 eexists. split; try reflexivity; try done.
  by exists 0%nat, relay_group.
Qed.



(** The same two, when of three bytes the client has taken two. *)
Definition waiting_log : list call := [KRecv 7 16; KSend 5 [1; 2; 3]].
Definition waiting_buffer : buffer := Buffer 16 2 3 ([1; 2; 3] ++ repeat 0 13).
Definition waiting_world : world :=
  with_log waiting_log (with_eval relay_world 1 (set_ev_buff (Some waiting_buffer))).
Lemma waiting_flows : flows relay_os 1 0 7 5 (Some waiting_buffer) waiting_log waiting_world.
Proof.
  split; [|by split]. do 2 eexists. split; try reflexivity; try done.
  by exists 0%nat, relay_group.
Qed.
Lemma relay_os_takes l : refusals relay_os 5 l = 0%nat.
Proof.
  unfold refusals. rewrite stream_nil; [done|]. intros pre c. destruct c; try done. unfold refused, relay_os. rewrite last_snoc.
  cbn [a_ret]. destruct (fd =? 5); [|done]. cbn [andb]. pose proof (blen_nonneg data).
  destruct (Z.ltb_spec (Z.min 2 (blen data)) 1), (Z.eqb_spec (blen data) 0); done || lia.
Qed.
