(* ===== verification/Requests.v ===== *)
(** The requests of clients (proxy.c): the refusals of [handle_s5], the frames of the UDP
    tunnel, and the descriptors that [listen_socket] and [create_conn] open. *)
From Stdlib Require Import ZArith Lia Ascii String.
From stdpp Require Import base numbers list option sorting sets.
From S2P Require Import Prelude CMem PacketsTls PacketsHttp Mpool Params Desync DList Conev Socks Extend World Proxy.

#[local] Open Scope Z_scope.
#[local] Open Scope list_scope.

(** * Datagrams *)

(** The header of a datagram from [a] (RFC 1928, section 7). *)
Definition udp_header (a : bytes) : bytes :=
  if sa_family a =? AF_INET then [0; 0; 0; S_ATP_I4] ++ sin_addr a ++ sin_port a
  else [0; 0; 0; S_ATP_I6] ++ sin6_addr a ++ sin_port a.

Lemma addr_fields a : blen a = sa_len →
  blen (sin_addr a) = 4 ∧ blen (sin_port a) = 2 ∧ blen (sin6_addr a) = 16.
Proof. intros Ha. by bytes28 a Ha. Qed.

Lemma udp_header_parsed prm os a payload a0 type s :
  blen a = sa_len → blen a0 = sa_len → sa_family a = AF_INET ∨ sa_family a = AF_INET6 ∧ pr_ipv6 prm = true →
  ∃ a', s5_get_addr prm os (udp_header a ++ payload) 0 (blen (udp_header a ++ payload)) a0 type s =
    Ok ((blen (udp_header a), a'), s) ∧ same_addr a' a.
Proof.
  intros Ha Ha0 Hf. pose proof (blen_nonneg payload). unfold udp_header, same_addr.
  destruct (addr_fields a Ha) as (L1 & L2 & L3).
  destruct Hf as [Hf|[Hf H6]]; rewrite Hf.
  - change (AF_INET =? AF_INET) with true. cbv iota.
    destruct (addr_v4 a0 (sin_addr a) (sin_port a) Ha0) as (A1 & A2 & A3 & A4); [by bytes28 a Ha..|].
    set (B := (_ ++ _) ++ payload).
    assert (bat B (0 + 3) = S_ATP_I4 ∧ sub B (0 + 4) 4 = sin_addr a ∧ sub B (0 + 8) 2 = sin_port a ∧
      S_SIZE_I4 <= blen B) as (B1 & B2 & B3 & B4).
    { subst B. unfold S_SIZE_I4. split_and!; [by bytes28 a Ha..|]. rewrite !blen_app, !blen_cons, blen_nil. lia. }
    eexists. rewrite s5_get_addr_v4 by (done || lia). rewrite B2, B3.
    split; [by bytes28 a Ha|]. by rewrite A2, A3, A4.
  - change (AF_INET6 =? AF_INET) with false. cbv iota.
    destruct (addr_v6 a0 (sin6_addr a) (sin_port a) Ha0) as (A1 & A2 & A3 & A4); [by bytes28 a Ha..|].
    set (B := (_ ++ _) ++ payload).
    assert (bat B (0 + 3) = S_ATP_I6 ∧ sub B (0 + 4) 16 = sin6_addr a ∧ sub B (0 + 20) 2 = sin_port a ∧
      S_SIZE_I6 <= blen B) as (B1 & B2 & B3 & B4).
    { subst B. unfold S_SIZE_I6. split_and!; [by bytes28 a Ha..|]. rewrite !blen_app, !blen_cons, blen_nil. lia. }
    eexists. rewrite s5_get_addr_v6 by (done || lia). rewrite B2, B3.
    split; [by bytes28 a Ha|]. by rewrite A2, A3, A4.
Qed.

Lemma store_eq b i l : 0 <= i → i + blen l <= blen b → store b i l = Ok (put b i l).
Proof. intros. unfold store. pose proof (blen_nonneg l). by rewrite in_range_true by lia. Qed.

Lemma s5_set_addr_frame y a : blen a = sa_len → sa_family a = AF_INET ∨ sa_family a = AF_INET6 →
  ∃ o D, s5_set_addr (repeat 0 22 ++ y) S_SIZE_I6 S_SIZE_I6 a true = Ok (o, D) ∧ blen D = 22 + blen y ∧
    0 <= o <= S_SIZE_I6 ∧ D = repeat 0 (Z.to_nat (22 - o)) ++ udp_header a ++ y ∧ o = blen (udp_header a).
Proof.
  unfold S_SIZE_I6. intros Ha Hf. pose proof (blen_nonneg y).
  destruct (addr_fields a Ha) as (L1 & L2 & L3).
  unfold s5_set_addr, udp_header, S_SIZE_I4, S_SIZE_I6. change (22 <? 10) with false. change (22 <? 22) with false.
  assert (Hb : blen (repeat 0 22 ++ y) = 22 + blen y) by (rewrite blen_app, blen_repeat; lia).
  destruct Hf as [Hf|Hf]; rewrite Hf.
  - change (AF_INET =? AF_INET) with true. cbv iota zeta.
    rewrite store_eq by blia. rewrite bind_ok.
    rewrite store_eq by blia. rewrite bind_ok.
    rewrite store_eq by blia. rewrite bind_ok.
    eexists 10, _. split; [done|]. split_and!; [|lia|lia| |].
    + blia.
    + clear -L1 L2. destruct (list4 _ L1) as (i1 & i2 & i3 & i4 & ->), (list2 _ L2) as (p1 & p2 & ->). reflexivity.
    + rewrite !blen_app, !blen_cons, blen_nil. lia.
  - change (AF_INET6 =? AF_INET) with false. cbv iota zeta.
    rewrite store_eq by blia. rewrite bind_ok.
    rewrite store_eq by blia. rewrite bind_ok.
    rewrite store_eq by blia. rewrite bind_ok.
    eexists 22, _. split; [done|]. split_and!; [|lia|lia| |].
    + blia.
    + bytes28 a Ha. reflexivity.
    + rewrite !blen_app, !blen_cons, blen_nil. lia.
Qed.

Section frames.
Context (prm : params) (os : list call → answer).

(** [udp_to_client] on a datagram of [n] bytes from [addr]. *)
Lemma udp_to_client_ok pr addr data n w e :
  let a := map_fix addr 0 in let l := udp_header a ++ sub data S_SIZE_I6 n in
  blen a = sa_len → sa_family a = AF_INET ∨ sa_family a = AF_INET6 →
  0 <= n → S_SIZE_I6 + n <= blen data → client_at w pr e → p_root_buff (w_pool w) ≠ [] →
  swp (udp_to_client os pr addr data n) w (λ _ w', ∃ s,
    world_log w' = world_log w ++ KSend (ev_fd e) l :: s).
Proof.
  intros a l Ha Hf Hn Hd He Hr. unfold udp_to_client. fold a. change S_SIZE_I6 with 22 in *.
  destruct (split_at data 22) as (x & y & -> & Hx); [lia|]. rewrite blen_app in Hd.
  assert (Em : memset (x ++ y) 0 0 22 = Ok (repeat 0 22 ++ y)).
  { apply wp_eq. apply wp_memset; [lia|lia|rewrite blen_app; lia|]. change (u8 0) with 0.
    pose proof (put_at [] x y (repeat 0 (Z.to_nat 22)) 0) as E. cbn [app] in E. apply E; [done|].
    rewrite blen_repeat. lia. }
  destruct (s5_set_addr_frame y a Ha Hf) as (o & D & Es & HD & Ho & Ed & Eo). change S_SIZE_I6 with 22 in *.
  sstep. sstep. rewrite Em. apply wp_ok. sstep. sstep. rewrite Es. apply wp_ok. sstep.
  eapply (swp_mono _ _ (λ _ w', client_at w' pr e ∧ world_log w' = world_log w)).
  { unfold set_scratch, scratch. sstep. sstep. sstep. sstep.
    destruct (p_root_buff (w_pool w)) as [|b root] eqn:Eb; [done|].
    eapply wp_geti; [lia|reflexivity|]. by sstep. }
  intros _ w1 [H1 Hl1]. destruct (Z.ltb_spec o 0); [lia|]. destruct (Z.ltb_spec 22 o); [lia|].
  cbn [orb]. sstep. eapply swp_eval_at; [exact H1|]. sstep. sstep. apply wp_rds; [lia|lia|lia|].
  assert (El : sub D (22 - o) (o + n) = l).
  { subst l. rewrite Ed, sub_app_r by (rewrite ?blen_repeat; lia). rewrite blen_repeat.
    replace (22 - o - Z.of_nat (Z.to_nat (22 - o))) with 0 by lia.
    rewrite (sub_split _ 0 (o + n) o) by (rewrite ?blen_app; lia).
    rewrite Z.add_0_l, sub_app_l by lia. rewrite Eo, sub_all, !sub_app_r by lia.
    rewrite Hx. do 2 f_equal; lia. }
  rewrite El. sstep. apply swp_sysret. rewrite Hl1. unfold udp_send_result.
  destruct (_ <? 0).
  - sstep. apply swp_get_e. sstep. exists [KGetE]. cbn. by rewrite <- app_assoc.
  - sstep. by exists [].
Qed.
End frames.

(** * Refusals *)

Section refusals.
Context (prm : params) (os : list call → answer) (junk : Z → bytes) (rand : nat → Z) (fuel : nat).

(** The scratch buffer is the first free one, and stays it. *)
Lemma buff_ppop_ok b root w (P : unit → world → Prop) size :
  p_root_buff (w_pool w) = b :: root → p_buff_count (w_pool w) <= MAX_BUFF_INP →
  P tt (set_w_pool (set_p_buff_count (p_buff_count (w_pool w) - 1 + 1)
    (set_p_root_buff (set_b_offset 0 (set_b_lock 0 b) :: root) (w_pool w))) w) →
  swp (buff_ppop junk size) w P.
Proof.
  intros Er Hc HP. unfold buff_ppop. sstep. apply swp_on_pool. unfold buff_pop. repeat sstep. rewrite Er.
  repeat sstep. apply swp_on_pool. unfold buff_push. repeat sstep. cbn [p_buff_count set_p_buff_count set_w_pool w_pool].
  destruct (Z.leb_spec MAX_BUFF_INP (p_buff_count (w_pool w) - 1)); [lia|]. repeat sstep. exact HP.
Qed.

(** A command that [handle_s5] goes on with, and the bytes that an address takes in the request,
    by its type: IPv4, a name with its length in front, IPv6. *)
Definition supported (data : bytes) : Prop :=
  bat data 1 = S_CMD_CONN ∨ bat data 1 = S_CMD_AUDP ∧ pr_udp prm = true.
#[export] Instance supported_dec data : Decision (supported data).
Proof. unfold supported. apply _. Defined.
Inductive s5_size (data : bytes) : Z → Prop :=
  | size_v4 : bat data 3 = S_ATP_I4 → s5_size data S_SIZE_I4
  | size_name : bat data 3 = S_ATP_ID → s5_size data (bat data 4 + S_SIZE_ID)
  | size_v6 : bat data 3 = S_ATP_I6 → s5_size data S_SIZE_I6.
(** Why [handle_s5] refuses a request, and the code it answers. *)
Inductive refused (data : bytes) (n : Z) : Z → Prop :=
  | bad_command : ¬ supported data → refused data n S_ER_CMD
  | cut_short o : supported data → s5_size data o → n < o → refused data n S_ER_GEN
  | no_resolving : supported data → bat data 3 = S_ATP_ID → bat data 4 + S_SIZE_ID <= n → pr_resolve prm = false →
      refused data n S_ER_ATP
  | short_name : supported data → bat data 3 = S_ATP_ID → bat data 4 + S_SIZE_ID <= n → pr_resolve prm = true →
      bat data 4 < 3 → refused data n S_ER_HOST
  | no_ipv6 : supported data → bat data 3 = S_ATP_I6 → S_SIZE_I6 <= n → pr_ipv6 prm = false → refused data n S_ER_ATP.

(** The address of a request that is refused for it. *)
Lemma refused_address data n code : S_SIZE_MIN <= n <= blen data → refused data n code → supported data →
  0 < code ∧ ∀ a type s, ∃ dst, s5_get_addr prm os data 0 n a type s = Ok ((- code, dst), s).
Proof.
  unfold S_SIZE_MIN. intros Hn Hr Hsup. split; [by destruct Hr|]. intros a type s.
  cut (swp (s5_get_addr prm os data 0 n a type) s (λ r s', s' = s ∧ r.1 = - code)).
  { unfold swp, wp. destruct (s5_get_addr _ _ _ _ _ _ _ _) as [[[c dst] s']|]; [|done]. intros [-> Ec]. cbn in Ec. subst c. by exists dst. }
  unfold s5_get_addr, S_SIZE_MIN. destruct (Z.ltb_spec n 8); [lia|]. sstep. sstep. apply wp_rd; [lia|]. sstep. sstep. apply wp_rd; [lia|].
  rewrite !Z.add_0_l. destruct Hr as [Hc|o _ Ho Hlt|_ Ht Hl Hres|_ Ht Hl Hres Hlen|_ Ht Hl H6]; [done|..].
  - destruct Ho as [Ht|Ht|Ht]; rewrite Ht.
    1: change (S_ATP_I4 =? S_ATP_I4) with true.
    2: change (S_ATP_ID =? S_ATP_I4) with false; change (S_ATP_ID =? S_ATP_ID) with true.
    3: change (S_ATP_I6 =? S_ATP_I4) with false; change (S_ATP_I6 =? S_ATP_ID) with false; change (S_ATP_I6 =? S_ATP_I6) with true.
    all: cbv zeta iota; rewrite (proj2 (Z.ltb_lt _ _)) by done; by sstep.
  - rewrite Ht. change (S_ATP_ID =? S_ATP_I4) with false. change (S_ATP_ID =? S_ATP_ID) with true. cbv zeta iota.
    rewrite (proj2 (Z.ltb_ge _ _)) by done. rewrite Hres. sstep. cbn [negb]. sstep. by split.
  - rewrite Ht. change (S_ATP_ID =? S_ATP_I4) with false. change (S_ATP_ID =? S_ATP_ID) with true. cbv zeta iota.
    rewrite (proj2 (Z.ltb_ge _ _)) by done. rewrite Hres, (proj2 (Z.ltb_lt _ _)) by done. sstep. cbn [negb]. sstep. by split.
  - rewrite Ht. change (S_ATP_I6 =? S_ATP_I4) with false. change (S_ATP_I6 =? S_ATP_ID) with false. change (S_ATP_I6 =? S_ATP_I6) with true.
    cbv zeta iota. rewrite (proj2 (Z.ltb_ge _ _)) by done. rewrite H6. sstep. cbn [negb]. sstep. by split.
Qed.

Definition s5_reply (code : Z) : bytes := [5; u8 code; 0; S_ATP_I4; 0; 0; 0; 0; 0; 0].

Lemma s5_reply_runs fd code w (P : Z → world → Prop) :
  P (a_ret (os (world_log w ++ [KSend fd (s5_reply code)]))) (with_log (world_log w ++ [KSend fd (s5_reply code)]) w) →
  swp (on_pool (resp_s5_error os fd code)) w P.
Proof. done. Qed.

Lemma handle_s5_refuses w val e data n code :
  client_at w val e → c_flag (ev_conn e) = FLAG_S5 → S_SIZE_MIN <= n <= blen data → refused data n code →
  swp (handle_s5 prm os fuel val data n (repeat 0 28)) w (λ r w', r = 1 ∧
    w' = with_log (world_log w ++ [KSend (ev_fd e) (s5_reply code)]) w).
Proof.
  unfold S_SIZE_MIN. intros He Hf Hn Hr. unfold handle_s5. sstep. eapply swp_eval_at; [exact He|]. rewrite Hf.
  change (FLAG_S5 =? FLAG_S5) with true. cbn [negb]. unfold S_SIZE_MIN. destruct (Z.ltb_spec n 8); [lia|].
  sstep. sstep. apply wp_rd; [lia|]. sstep.
  assert (Hend : ∀ c, c = - code → swp (on_pool (resp_s5_error os (ev_fd e) (- c));; mret 1) w (λ r w', r = 1 ∧
    w' = with_log (world_log w ++ [KSend (ev_fd e) (s5_reply code)]) w)).
  { intros c ->. rewrite Z.opp_involutive. sstep. apply s5_reply_runs. by sstep. }
  destruct (decide (supported data)) as [Hc|Hc].
  2: { destruct Hr; try done. destruct (Z.eqb_spec (bat data 1) S_CMD_CONN); [by destruct Hc; left|].
    assert ((bat data 1 =? S_CMD_AUDP) && pr_udp prm = false) as ->.
    { apply not_true_is_false. intros [Ha%Z.eqb_eq Hu]%andb_true_iff. by destruct Hc; right. }
    sstep. by apply Hend. }
  - destruct (refused_address data n code) as [Hpos Hs]; [done..|]. assert (Hget : ∀ type (k : bytes → ST world (Z + Z)), swp ('(s5e, dst) ← on_pool (s5_get_addr prm os data 0 n (repeat 0 28) type);
        if 0 <=? s5e then k dst else mret (inr s5e)) w (λ a s, s = w ∧ a = inr (- code))).
    { intros type k. sstep. apply swp_on_pool. destruct (Hs (repeat 0 28) type (w_pool w)) as [dst E]. unfold swp. rewrite E.
      cbn. destruct (Z.leb_spec 0 (- code)); [lia|]. split; [by destruct w|done]. }
    destruct (Z.eqb_spec (bat data 1) S_CMD_CONN).
    + eapply swp_mono; [apply Hget|]. intros ? ? [-> ->]. by apply Hend.
    + destruct Hc as [|[-> ->]]; [done|]. change (S_CMD_AUDP =? S_CMD_AUDP) with true. cbn [andb].
      eapply swp_mono; [apply Hget|]. intros ? ? [-> ->]. by apply Hend.
Qed.

Lemma on_request_refuses w val e b root code :
  let a := os (world_log w ++ [KRecv (ev_fd e) (b_size b)]) in
  let data := put (b_data b) 0 (a_data a) in
  client_at w val e → c_flag (ev_conn e) = FLAG_S5 → has_bit (pr_mode prm) MODE_SOCKS5 = true →
  p_root_buff (w_pool w) = b :: root → p_buff_count (w_pool w) <= MAX_BUFF_INP →
  a_ret a = blen (a_data a) → S_SIZE_MIN <= a_ret a <= blen (b_data b) → bat data 0 = S_VER5 →
  refused data (a_ret a) code →
  swp (on_request prm os junk fuel val) w (λ r w', r = -1 ∧
    p_items (w_pool w') = p_items (w_pool w) ∧
    world_log w' = world_log w ++ [KRecv (ev_fd e) (b_size b); KSend (ev_fd e) (s5_reply code)]).
Proof.
  intros a data He Hf Hm Hr Hc Ha Hn H5 Href. unfold on_request. sstep.
  eapply buff_ppop_ok; [exact Hr|exact Hc|]. set (b' := set_b_offset 0 (set_b_lock 0 b)). sstep.
  unfold S_SIZE_MIN in *. unfold scratch at 1. repeat sstep. eapply wp_geti; [lia|reflexivity|]. sstep.
  eapply swp_eval_at; [exact He|]. sstep. unfold syscall. apply swp_answer.
  change (world_log (set_w_pool _ w)) with (world_log w). change (b_size b') with (b_size b). fold a.
  destruct (Z.ltb_spec (a_ret a) 1); [lia|]. sstep. sstep. apply wp_memcpy; [cbn; lia..|].
  rewrite Ha, sub_all. change (b_data b') with (b_data b). fold data. rewrite <- Ha.
  sstep. set (w1 := with_log _ _).
  eapply (swp_mono _ _ (λ _ w', client_at w' val e ∧ world_log w' = world_log w1 ∧ p_items (w_pool w') = p_items (w_pool w))).
  { unfold set_scratch, scratch. repeat sstep. eapply wp_geti; [lia|reflexivity|]. by repeat sstep. }
  intros _ w2 (He2 & Hl2 & Hi2). sstep.
  assert (Hlen : blen data = blen (b_data b)) by (apply blen_put; lia).
  unfold read_request. sstep. eapply swp_eval_at; [exact He2|]. sstep. sstep. apply wp_rd; [lia|].
  rewrite H5, Hm. change (S_VER5 =? S_VER5) with true. cbn [andb]. sstep.
  eapply swp_mono; [apply (handle_s5_refuses _ _ e _ _ code He2 Hf); [unfold S_SIZE_MIN; lia|exact Href]|].
  intros ? ? [-> ->]. change (0 <? 1) with true. repeat sstep. split_and!; [done|done|].
  cbn. change (p_log (w_pool w2)) with (world_log w2). rewrite Hl2. cbn. by rewrite <- app_assoc.
Qed.
End refusals.

(** * Descriptors *)

(** The descriptors that the calls of [l] opened and did not close, after [pre] and those of
    [acc]. *)
Fixpoint open_fds (os : list call → answer) (pre l : list call) (acc : list Z) : list Z :=
  match l with
  | [] => acc
  | c :: l =>
      let pre := pre ++ [c] in
      open_fds os pre l (match c with
        | KSocket _ _ | KAccept _ => if 0 <=? a_ret (os pre) then a_ret (os pre) :: acc else acc
        | KClose fd => filter (λ x, x ≠ fd) acc
        | _ => acc
        end)
  end.

(** The calls that return a descriptor, and those that change none. *)
Definition opens (c : call) : bool := match c with KSocket _ _ | KAccept _ => true | _ => false end.
Definition keeps_fds (c : call) : bool :=
  match c with KSocket _ _ | KAccept _ | KClose _ => false | _ => true end.

Section descriptors.
Context (prm : params) (os : list call → answer).

Lemma open_fds_app pre a b acc : open_fds os pre (a ++ b) acc = open_fds os (pre ++ a) b (open_fds os pre a acc).
Proof.
  revert pre acc. induction a as [|c a IH]; intros pre acc; cbn; [by rewrite app_nil_r|].
  by rewrite IH, <- app_assoc.
Qed.
Lemma open_fds_quiet pre l acc : forallb keeps_fds l = true → open_fds os pre l acc = acc.
Proof.
  revert pre acc. induction l as [|c l IH]; intros pre acc; cbn; [done|].
  intros [Hc Hl]%andb_prop. rewrite IH by done. by destruct c.
Qed.
Lemma open_fds_close pre s fd : open_fds os pre (s ++ [KClose fd]) [] = filter (λ x, x ≠ fd) (open_fds os pre s []).
Proof. by rewrite open_fds_app. Qed.

(** The log of a run from [w] that left [fd] open, or nothing. *)
Definition left (w : world) (fds : list Z) (w' : world) : Prop :=
  ∃ s, world_log w' = world_log w ++ s ∧ open_fds os (world_log w) s [] = fds.

Lemma left_quiet w w' fds c : left w fds w' → keeps_fds c = true → left w fds (with_log (world_log w' ++ [c]) w').
Proof.
  intros (s & E & Ho) Hc. exists (s ++ [c]). cbn. split; [by rewrite E, app_assoc|].
  rewrite open_fds_app, Ho, open_fds_quiet; [done|]. cbn. by rewrite Hc.
Qed.
Lemma left_close w w' fd : left w [fd] w' → left w [] (with_log (world_log w' ++ [KClose fd]) w').
Proof.
  intros (s & E & Ho). exists (s ++ [KClose fd]). cbn. split; [by rewrite E, app_assoc|].
  rewrite open_fds_close, Ho. rewrite filter_cons_False; [done|]. by intros H.
Qed.
Lemma left_none w : left w [] w.
Proof. exists []. by rewrite app_nil_r. Qed.

(** Two worlds that differ by their log. *)
Definition same_but_log (w w' : world) : Prop := w' = with_log (world_log w') w.

Lemma same_with_log w w' l : same_but_log w w' → same_but_log w (with_log l w').
Proof. unfold same_but_log. intros ->. done. Qed.
Lemma same_refl w : same_but_log w w.
Proof. by destruct w as [[]]. Qed.

(** What a function that opens a descriptor leaves, to a world [w'] that has it open. *)
Definition one_open (w : world) (r : Z) (w' : world) : Prop :=
  same_but_log w w' ∧ (r = -1 ∧ left w [] w' ∨ 0 <= r ∧ left w [r] w').

Lemma swp_close {A} (m : ST world A) w0 w fd (P : A → world → Prop) :
  same_but_log w0 w → left w0 [fd] w →
  (∀ w', same_but_log w0 w' → left w0 [] w' → swp m w' P) →
  swp (sysret os (KClose fd);; m) w P.
Proof.
  intros Hs Hl HP. sstep. apply swp_sysret, HP; [by apply same_with_log|by apply left_close].
Qed.

(** A call on the way, that neither opens nor closes. *)
Lemma swp_quiet w0 fds c w (P : Z → world → Prop) :
  keeps_fds c = true → same_but_log w0 w → left w0 fds w →
  (∀ r w', same_but_log w0 w' → left w0 fds w' → P r w') → swp (sysret os c) w P.
Proof. intros Hc Hs Hl HP. apply swp_sysret, HP; [by apply same_with_log|by apply left_quiet]. Qed.

Lemma fail_open w0 w : same_but_log w0 w → left w0 [] w → one_open w0 (-1) w.
Proof. intros. split; [done|by left]. Qed.

Lemma nb_socket_ok domain type w : swp (nb_socket os domain type) w (one_open w).
Proof.
  unfold nb_socket. sstep. apply swp_sysret. set (c := KSocket domain type).
  set (fd := a_ret (os (world_log w ++ [c]))). set (w1 := with_log _ _).
  assert (Hs : same_but_log w w1) by (apply same_with_log, same_refl).
  destruct (Z.ltb_spec fd 0).
  - sstep. apply fail_open; [done|]. exists [c]. split; [done|]. cbn. fold fd.
    destruct (Z.leb_spec 0 fd); [lia|done].
  - assert (Hl : left w [fd] w1).
    { exists [c]. split; [done|]. cbn. fold fd. destruct (Z.leb_spec 0 fd); [done|lia]. }
    sstep. eapply swp_quiet; [done|exact Hs|exact Hl|]. intros r w2 Hs2 Hl2. destruct (r <? 0).
    + eapply swp_close; [exact Hs2|exact Hl2|]. intros w3 Hs3 Hl3. sstep. by apply fail_open.
    + sstep. split; [done|]. by right.
Qed.

Lemma socket_mod_ok fd w0 fds w (P : Z → world → Prop) :
  same_but_log w0 w → left w0 fds w → (∀ r w', same_but_log w0 w' → left w0 fds w' → P r w') →
  swp (socket_mod prm os fd) w P.
Proof.
  intros Hs Hl HP. unfold socket_mod. destruct (pr_custom_ttl prm); [|sstep; by apply HP].
  set (l := world_log w). set (w1 := with_log (l ++ [KSys fd (SSetHops6 (pr_def_ttl prm)); KSys fd (SSetTtl4 (pr_def_ttl prm))]) w).
  assert (Hs1 : same_but_log w0 w1) by (by apply same_with_log).
  assert (Hl1 : left w0 fds w1).
  { destruct Hl as (s & E & Ho). eexists (s ++ _). cbn. unfold l. split; [by rewrite E, <- app_assoc|].
    by rewrite open_fds_app, Ho, open_fds_quiet. }
  sstep. unfold in_desync, setttl, Desync.call. cbv [swp wp mbind st_bind comp_bind mret st_ret]. cbn. fold l.
  assert (forall r, P r w1) as HP1 by (intros; by apply HP).
  apply HP1.
Qed.

(** Close and fail, or go on. *)
Ltac close_or :=
  lazymatch goal with
  | |- swp (if ?b then _ else _) _ _ => destruct b
  end; [eapply swp_close; [eassumption|eassumption|]; intros ? ? ?; sstep; by apply fail_open|].

(** A call on the way. *)
Ltac quiet := sstep; eapply swp_quiet; [done|eassumption|eassumption|]; intros ? ? ? ?.

Lemma listen_socket_ok srv w : swp (listen_socket os srv) w (one_open w).
Proof.
  unfold listen_socket. sstep. eapply swp_mono; [apply nb_socket_ok|].
  intros fd w1 [Hs [[-> Hl]|[Hfd Hl]]]; [change (-1 <? 0) with true; cbv iota; sstep; by apply fail_open|].
  destruct (Z.ltb_spec fd 0); [lia|].
  quiet. close_or. quiet. close_or. quiet. close_or. sstep. split; [done|by right].
Qed.

Lemma remote_sock_ok dst type w : swp (remote_sock prm os dst type) w (λ r w', one_open w r.1 w').
Proof.
  unfold remote_sock. set (d := map_fix _ _). cbv zeta.
  destruct (negb _); [sstep; apply fail_open; [apply same_refl|apply left_none]|].
  sstep. eapply swp_mono; [apply nb_socket_ok|].
  intros fd w1 [Hs [[-> Hl]|[Hfd Hl]]]; [change (-1 <? 0) with true; cbv iota; sstep; by apply fail_open|].
  destruct (Z.ltb_spec fd 0); [lia|]. sstep. eapply socket_mod_ok; [exact Hs|exact Hl|].
  clear w1 Hs Hl. intros r w1 Hs Hl. close_or.
  sstep. assert (Hv6 : ∀ P : Z → world → Prop, (∀ r w', same_but_log w w' → left w [fd] w' → P r w') →
    swp (if sa_family d =? AF_INET6 then sysret os (KSetOpt fd "IPV6_V6ONLY" 0) else mret 0) w1 P).
  { intros P HP. destruct (sa_family d =? AF_INET6); [|sstep; by apply HP]. by eapply swp_quiet. }
  apply Hv6. clear Hv6 w1 Hs Hl. intros r1 w1 Hs Hl. close_or. quiet. close_or. sstep. split; [done|by right].
Qed.

(** [w'] is [w] with the new connection [peer], and [val] changed. *)
Record joined (val peer : nat) (w w' : world) : Prop := {
  jn_new : ¬ live (w_pool w) peer;
  jn_live x : live (w_pool w') x ↔ live (w_pool w) x ∨ x = peer;
  jn_items x : x ≠ val → x ≠ peer → p_items (w_pool w') !! x = p_items (w_pool w) !! x;
  jn_max : p_max (w_pool w') = p_max (w_pool w);
  jn_iters : p_iters (w_pool w') = p_iters (w_pool w);
  jn_root : p_root_buff (w_pool w') = p_root_buff (w_pool w);
  jn_scan offs : scan_ok (w_pool w) offs → scan_ok (w_pool w') offs;
  jn_rest : w' = set_w_pool (w_pool w') w
}.

(** What [create_conn] leaves: nothing, or the two events tied to each other. *)
Definition connected (T : list nat) (val : nat) (dst : bytes) (next : evcb) (w w' : world) : Prop :=
  ∃ peer e0 e pe, pool_wf (w_pool w') T ∧ joined val peer w w' ∧
    client_at w val e0 ∧ client_at w' val e ∧ client_at w' peer pe ∧
    e = set_ev_cb Conev.on_ignore (set_ev_pair (Some peer) e0) ∧ ev_pair pe = Some val ∧ ev_cb pe = next ∧
    ev_conn pe = set_c_flag FLAG_CONN (set_c_addr dst zero_conn) ∧ ev_buff pe = None ∧ ev_sq_buff pe = None ∧
    left w [ev_fd pe] w'.

Lemma log_wf p T l : pool_wf p T → pool_wf (set_p_log l p) T.
Proof.
  intros []. split; try done; [|by apply (timers_ext p)]. intros i v Hi Hv.
  destruct (wf_live i v Hi Hv) as (ev & pe & ? & ? & []). exists ev, pe. by split_and!.
Qed.
Lemma live_log p l v : live (set_p_log l p) v ↔ live p v.
Proof. done. Qed.

Lemma mod_etype_ok p T v t : pool_wf p T → live p v →
  swp (mod_etype v t) p (λ r p', r = 0 ∧ pool_wf p' T ∧ ∃ pv, p' = set_p_pevents pv p).
Proof.
  intros Hwf Hv. destruct (live_lookup p T v Hwf Hv) as (i & ev & pe & Hi & Hl & Ev & Ep & [Ok1 Ok2 Ok3 Ok4]).
  unfold mod_etype. sstep. eapply swp_item; [exact Ev|]. sstep. sstep. sstep. sstep. apply wp_assert; [lia|].
  sstep. sstep. sstep. sstep. rewrite Ok1. eapply wp_geti; [lia|by rewrite Nat2Z.id|]. sstep. sstep. sstep.
  split; [done|]. split; [|by eexists]. destruct Hwf. split; try done; [| |by apply (timers_ext p)].
  - cbn. by rewrite length_alter.
  - intros j x Hj Hx. destruct (wf_live j x Hj Hx) as (e' & p' & E1 & E2 & []).
    cbn. destruct (decide (j = i)) as [->|].
    + rewrite Nat2Z.id. eexists _, _. split_and!; [exact E1|by rewrite list_lookup_alter_eq, E2|]. by split.
    + rewrite Nat2Z.id. exists e', p'. split_and!; [exact E1|by rewrite list_lookup_alter_ne|]. by split.
Qed.

(** [add_event] on a pool in order. *)
Lemma add_event_joined T w cb fd t : pool_wf (w_pool w) T → 0 < fd →
  swp (on_pool (add_event cb fd t)) w (λ r w', r = None ∧ w' = w ∨
    ∃ v i, r = Some v ∧ pool_wf (w_pool w') T ∧ joined v v w w' ∧ world_log w' = world_log w ∧
      client_at w' v (fresh_eval (p_iters (w_pool w)) i cb fd)).
Proof.
  intros Hwf Hfd. apply swp_on_pool. pose proof (wf_count _ _ Hwf) as Hc.
  destruct (Z.leb_spec (p_max (w_pool w)) (p_count (w_pool w))) as [Hm|Hm].
  { unfold swp. rewrite add_event_full by (done || lia). left. by destruct w. }
  set (n := Z.to_nat (p_count (w_pool w))). assert (Hn : p_count (w_pool w) = Z.of_nat n) by lia.
  destruct (lookup_lt_is_Some_2 (p_links (w_pool w)) n) as [v Hv]; [rewrite (wf_links _ _ Hwf); lia|].
  eapply swp_mono; [by apply (add_event_at (w_pool w) T v n)|]. intros ? ? [-> ->]. right.
  exists v, (Z.of_nat n). split_and!; [done|by apply add_wf| |done|by eapply add_item_v].
  split; try done.
  - by eapply add_not_live.
  - by apply add_live.
  - intros x Hx _. by apply add_item.
  - intros offs. by eapply add_scan.
Qed.

Lemma scan_items v f s offs : (∀ e, ev_mod_iter (f e) = ev_mod_iter e) →
  scan_ok s offs → scan_ok (set_p_items (alter f v (p_items s)) s) offs.
Proof.
  intros Hf [Ho H]. split; [done|]. intros i x Hi Hx. destruct (H i x Hi Hx) as (e & E & Hm). cbn.
  destruct (decide (v = x)) as [->|]; [|exists e; by rewrite list_lookup_alter_ne].
  exists (f e). rewrite list_lookup_alter_eq, E. split; [done|]. by rewrite Hf.
Qed.

Lemma open_fds_from pre l acc x : x ∈ open_fds os pre l acc →
  x ∈ acc ∨ ∃ pre' c, opens c = true ∧ 0 <= a_ret (os (pre' ++ [c])) ∧ x = a_ret (os (pre' ++ [c])).
Proof.
  revert pre acc. induction l as [|c l IH]; intros pre acc; cbn; [by left|]. intros [H|H]%IH; [|by right].
  destruct c; try (by left).
  - apply list_elem_of_filter in H as [_ H]. by left.
  - destruct (Z.leb_spec 0 (a_ret (os (pre ++ [KSocket family type])))); [|by left].
    apply elem_of_cons in H as [->|H]; [right; by exists pre, (KSocket family type)|by left].
  - destruct (Z.leb_spec 0 (a_ret (os (pre ++ [KAccept fd])))); [|by left].
    apply elem_of_cons in H as [->|H]; [right; by exists pre, (KAccept fd)|by left].
Qed.

(** A descriptor is not 0. *)
Context (Hpos : ∀ pre c, opens c = true → 0 <= a_ret (os (pre ++ [c])) → 0 < a_ret (os (pre ++ [c]))).

Lemma left_pos w fd w' : left w [fd] w' → 0 < fd.
Proof.
  intros (s & _ & Ho). destruct (open_fds_from (world_log w) s [] fd) as [H|(pre & c & Hc & H & ->)].
  - rewrite Ho. by left.
  - by apply elem_of_nil in H.
  - by apply Hpos.
Qed.

(** Tying the new event to the connection. *)
Lemma tie_ok T val dst next fd w w1 peer e0 i it : pool_wf (w_pool w1) T → live (w_pool w) val →
  joined peer peer w w1 → client_at w1 val e0 → left w [fd] w1 →
  client_at w1 peer (fresh_eval it i next fd) →
  swp (upd val (set_ev_pair (Some peer));; upd peer (set_ev_pair (Some val));;
       updc peer (λ c, set_c_flag FLAG_CONN (set_c_addr dst c));;
       upd val (set_ev_cb Conev.on_ignore);; mret 0) w1 (λ r w', r = 0 ∧ connected T val dst next w w').
Proof.
  intros Hwf Hv [] He Hl Hpe.
  assert (Hne : val ≠ peer) by (by intros ->).
  sstep. eapply swp_upd_eval; [exact He|]. sstep.
  eapply swp_upd_eval; [unfold client_at; cbn; by rewrite list_lookup_alter_ne|]. sstep.
  eapply swp_updc; [unfold client_at; cbn; by rewrite list_lookup_alter_eq, list_lookup_alter_ne, Hpe by done|]. sstep.
  eapply swp_upd_eval.
  { unfold client_at. cbn. rewrite !list_lookup_alter_ne by done. by rewrite list_lookup_alter_eq, He. }
  sstep. split; [done|]. eexists peer, e0, _, _. split_and!.
  - cbn. do 2 (apply (item_wf (set_p_items _ _)); [|intros x; by split_and!; [..|left]]).
    apply (item_wf (set_p_items _ _)); [|intros x; split_and!; try done; right; intros ? [= <-]; left; apply jn_live0; by left].
    apply item_wf; [done|]. intros x; split_and!; try done; right; intros ? [= <-]; left; apply jn_live0; by right.
  - split; try done.
    + intros x Hx1 Hx2. cbn. rewrite !list_lookup_alter_ne by done. by apply jn_items0.
    + intros offs Ho. by do 4 (apply (scan_items _ _ (set_p_items _ _)) || apply scan_items; [done|]); apply jn_scan0.
    + cbn. rewrite jn_rest0 at 1. done.
  - unfold client_at in *. by rewrite <- jn_items0.
  - unfold client_at. cbn. rewrite list_lookup_alter_eq, !list_lookup_alter_ne, list_lookup_alter_eq, He by done. reflexivity.
  - unfold client_at. cbn. rewrite list_lookup_alter_ne, !list_lookup_alter_eq, list_lookup_alter_ne, Hpe by done. reflexivity.
  - done.
  - done.
  - done.
  - done.
  - done.
  - done.
  - cbn. exact Hl.
Qed.

Lemma create_conn_ok T val dst next w : pool_wf (w_pool w) T → live (w_pool w) val →
  swp (create_conn prm os val dst next) w (λ r w',
    r = -1 ∧ same_but_log w w' ∧ left w [] w' ∨ r = 0 ∧ connected T val dst next w w').
Proof.
  intros Hwf Hv. unfold create_conn. sstep. eapply swp_mono; [apply remote_sock_ok|].
  intros [fd addr] w1 [Hs [[E Hl]|[_ Hl]]]; cbn [fst] in *; [subst fd; change (-1 <? 0) with true; cbv iota; sstep; by left|].
  pose proof (left_pos _ _ _ Hl) as Hfd. destruct (Z.ltb_spec fd 0); [lia|].
  assert (Hend : ∀ w', same_but_log w w' → left w [] w' → swp (mret (-1)) w' (λ r w',
    r = -1 ∧ same_but_log w w' ∧ left w [] w' ∨ r = 0 ∧ connected T val dst next w w')) by (intros; sstep; by left).
  assert (Hcl : ∀ w', same_but_log w w' → left w [fd] w' → swp (sysret os (KClose fd);; mret (-1)) w' (λ r w',
    r = -1 ∧ same_but_log w w' ∧ left w [] w' ∨ r = 0 ∧ connected T val dst next w w')).
  { intros w' ??. by eapply swp_close. }
  quiet. destruct (negb _); [by apply Hcl|]. quiet. sstep.
  match goal with Hs' : same_but_log w ?x, Hl' : left w [fd] ?x |- swp _ ?x _ => clear -Hs' Hl' Hwf Hv Hfd Hcl; rename x into w2 end.
  eapply (swp_mono _ _ (λ _ w', same_but_log w w' ∧ left w [fd] w')).
  { destruct (_ <? 0); [|by sstep]. unfold get_e. sstep. sstep. eapply swp_quiet; [done|eassumption|eassumption|].
    intros r w3 ??. sstep. destruct (negb _); [|by sstep]. sstep. sstep.
    eapply swp_quiet; [done|eassumption|eassumption|]. intros r' w4 ??. sstep. by sstep. }
  intros bad w3 [Hs3 Hl3]. destruct bad; [by apply Hcl|].
  assert (Hwf3 : pool_wf (w_pool w3) T) by (rewrite Hs3; by apply log_wf).
  sstep. eapply swp_mono; [by apply (add_event_joined T)|].
  intros r w4 [[-> ->]|(peer & i & -> & Hwf4 & Hj & El & Hp)]; [by apply Hcl|].
  assert (Hj4 : joined peer peer w w4) by (rewrite Hs3 in Hj; destruct Hj; by split).
  assert (Hv4 : live (w_pool w4) val) by (apply (jn_live _ _ _ _ Hj4); by left).
  destruct (live_lookup _ T val Hwf4 Hv4) as (_ & e0 & _ & _ & _ & He0 & _).
  sstep. apply swp_on_pool. eapply swp_mono; [by apply (mod_etype_ok (w_pool w4) T val 0)|].
  intros ? p5 (-> & Hwf5 & pv & E5). change (0 <? 0) with false; cbv iota.
  eapply swp_mono; [eapply (tie_ok T val dst next fd w _ peer e0 i)|].
  - exact Hwf5.
  - exact Hv.
  - rewrite E5. destruct Hj4. split; try done. exact (f_equal (set_w_pool _) jn_rest0).
  - unfold client_at. cbn. by rewrite E5.
  - destruct Hl3 as (s & E & Ho). exists s. split; [|done]. rewrite E5. etrans; [exact El|exact E].
  - unfold client_at. cbn. by rewrite E5.
  - intros r w5 H. by right.
Qed.
End descriptors.

(** * Properties *)

(** C32: The refusals of a SOCKS5 request of at least eight bytes, from a client that was greeted:
    one with a command that is not supported (or UDP ASSOCIATE, when UDP is off) is answered with code 7
    of RFC 1928, one that ends before its address does with 1, one with a name where names are not
    resolved or with IPv6 where that is off with 8, one with a name of less than three
    characters with 4 ([refused]).  Nothing else happens: no descriptor is opened, no connection of the pool
    changes, and the callback asks for the close of the connection.  A name that the
    resolver does not know is not covered, nor is a type of address that does not exist, which gets
    no answer at all ([Socks.s5_get_addr_unknown_type]). *)
Theorem bad_requests_answered prm os junk fuel w val e b root code :
  let a := os (world_log w ++ [KRecv (ev_fd e) (b_size b)]) in
  let data := put (b_data b) 0 (a_data a) in
  client_at w val e → c_flag (ev_conn e) = FLAG_S5 → has_bit (pr_mode prm) MODE_SOCKS5 = true →
  p_root_buff (w_pool w) = b :: root → p_buff_count (w_pool w) <= MAX_BUFF_INP →
  a_ret a = blen (a_data a) → S_SIZE_MIN <= a_ret a <= blen (b_data b) → bat data 0 = S_VER5 →
  refused prm data (a_ret a) code →
  swp (on_request prm os junk fuel val) w (λ r w', r = -1 ∧
    p_items (w_pool w') = p_items (w_pool w) ∧
    world_log w' = world_log w ++ [KRecv (ev_fd e) (b_size b); KSend (ev_fd e) (s5_reply code)]).
Proof. apply on_request_refuses. Qed.

(** A client on descriptor 5 that was greeted and asks for command 2 (BIND). *)
Definition bind_os (l : list call) : answer :=
  match list.last l with
  | Some (KRecv _ _) => Answer 10 [5; 2; 0; 1; 10; 0; 0; 1; 0; 80] [] []
  | _ => Answer 0 [] [] []
  end.
Definition request_items : list eval :=
  [set_ev_fd 4 zero_eval; set_ev_fd 5 (set_ev_index 1 (set_ev_conn (set_c_flag FLAG_S5 zero_conn) zero_eval))].
Definition request_pool : poolhd :=
  set_p_buff_count 1 (set_p_root_buff [Buffer 64 0 0 (repeat 0 64)]
    (set_p_count 2 (set_p_items request_items (init_pool 2 [] [Pollfd 4 POLLIN 0; Pollfd 5 POLLIN 0])))).
Definition request_world : world := World request_pool [dp_init] (Some 0%nat) (mem_pool 0 CMP_BITS) 0 0 [] [].
Definition request_params : params :=
  Params 10 false 0 false 0 0 0 0 2 MODE_SOCKS5 true true true false true 512 0 64 (repeat 0 28) 1.

Lemma bad_requests_answered_witness :
  swp (on_request request_params bind_os (λ n, repeat 0 (Z.to_nat n)) 1 1) request_world (λ r w', r = -1 ∧
    p_items (w_pool w') = request_items ∧
    world_log w' = [KRecv 5 64; KSend 5 [5; 7; 0; 1; 0; 0; 0; 0; 0; 0]]).
Proof.
  apply (bad_requests_answered request_params bind_os (λ n, repeat 0 (Z.to_nat n)) 1 request_world 1
    (set_ev_fd 5 (set_ev_index 1 (set_ev_conn (set_c_flag FLAG_S5 zero_conn) zero_eval)))
    (Buffer 64 0 0 (repeat 0 64)) [] S_ER_CMD); try (by vm_compute).
  apply bad_command. by vm_compute; intros [|[]].
Defined.

(** C33: A datagram from a server reaches the client behind the header of RFC 1928 for the
    server's address, the payload unchanged, in one call of [send]; and a client that reads
    the header as [s5_get_addr] does gets the address and the payload back. *)
Theorem udp_replies_framed prm os pr addr data n w e a0 type s :
  let a := map_fix addr 0 in let l := udp_header a ++ sub data S_SIZE_I6 n in
  blen a = sa_len → sa_family a = AF_INET ∨ sa_family a = AF_INET6 ∧ pr_ipv6 prm = true →
  0 <= n → S_SIZE_I6 + n <= blen data → client_at w pr e → p_root_buff (w_pool w) ≠ [] → blen a0 = sa_len →
  swp (udp_to_client os pr addr data n) w (λ _ w', ∃ l', world_log w' = world_log w ++ KSend (ev_fd e) l :: l') ∧
  ∃ a', s5_get_addr prm os l 0 (blen l) a0 type s = Ok ((blen l - n, a'), s) ∧ same_addr a' a.
Proof.
  intros a l Ha Hf Hn Hd He Hr Ha0. split; [apply udp_to_client_ok; naive_solver|].
  destruct (udp_header_parsed prm os a (sub data S_SIZE_I6 n) a0 type s) as (a' & E & Hs); [done..|].
  exists a'. split; [|done]. subst l. rewrite E. do 3 f_equal.
  rewrite blen_app, (blen_sub data S_SIZE_I6 n); unfold S_SIZE_I6 in *; lia.
Qed.

Definition reply_addr : bytes := [2; 0; 0; 53; 192; 0; 2; 1] ++ repeat 0 20.

Lemma udp_replies_framed_witness :
  let l := [0; 0; 0; 1; 192; 0; 2; 1; 0; 53; 9; 8; 7] in
  swp (udp_to_client bind_os 1 reply_addr (repeat 0 22 ++ [9; 8; 7]) 3) request_world
    (λ _ w', ∃ l', world_log w' = KSend 5 l :: l') ∧
  ∃ a', s5_get_addr request_params bind_os l 0 13 (repeat 0 28) SOCK_DGRAM request_pool = Ok ((10, a'), request_pool) ∧
    same_addr a' reply_addr.
Proof.
  apply (udp_replies_framed request_params bind_os 1 reply_addr (repeat 0 22 ++ [9; 8; 7]) 3 request_world
    (set_ev_fd 5 (set_ev_index 1 (set_ev_conn (set_c_flag FLAG_S5 zero_conn) zero_eval))) (repeat 0 28) SOCK_DGRAM
    request_pool); try (by vm_compute); left; by vm_compute.
Defined.

(** [listen_socket] returns the one descriptor that it opened, or -1 with every
    descriptor that it opened closed again, whatever the calls answer. *)
Theorem listen_socket_leaks_nothing os srv w : swp (listen_socket os srv) w (one_open os w).
Proof. apply listen_socket_ok. Qed.

(** C24: [create_conn] either fails with every descriptor it opened closed again and nothing
    but the log changed, or leaves one descriptor open: a live event of the pool that is
    paired with the client's, which ignores its events until the connection is made.  The
    pool stays well formed. *)
Theorem create_conn_connects prm os T val dst next w :
  (∀ pre c, opens c = true → 0 <= a_ret (os (pre ++ [c])) → 0 < a_ret (os (pre ++ [c]))) →
  pool_wf (w_pool w) T → live (w_pool w) val →
  swp (create_conn prm os val dst next) w (λ r w',
    r = -1 ∧ same_but_log w w' ∧ left os w [] w' ∨ r = 0 ∧ connected os T val dst next w w').
Proof. intros. by apply create_conn_ok. Qed.

(** Sockets are numbered from 7 and every call succeeds. *)
Definition conn_os (l : list call) : answer :=
  match list.last l with
  | Some c => if opens c then Answer 7 [] [] [] else Answer 0 [] [] []
  | None => Answer 0 [] [] []
  end.
Definition conn_pool : poolhd := added (init_pool 3 (repeat zero_eval 3) (repeat (Pollfd 0 0 0) 3)) 0 0 Conev.on_request 5 POLLIN.

Lemma create_conn_connects_witness :
  let w := World conn_pool [dp_init] (Some 0%nat) (mem_pool 0 CMP_BITS) 0 0 [] [] in
  swp (create_conn request_params conn_os 0 reply_addr Conev.on_connect) w (λ r w',
    r = -1 ∧ same_but_log w w' ∧ left conn_os w [] w' ∨
    r = 0 ∧ connected conn_os [] 0 reply_addr Conev.on_connect w w').
Proof.
  intros w. apply (create_conn_connects request_params conn_os [] 0 reply_addr Conev.on_connect w).
  - intros pre c Hc _. unfold conn_os. rewrite last_snoc, Hc. by vm_compute.
  - apply add_wf; try (by vm_compute). by apply init_pool_wf.
  - exists 0%nat. by vm_compute.
Defined.
