(* ===== verification/Engine.v ===== *)
(** What the event loop relies on of the desync engine (desync.c): it stays in the buffer,
    reports no more than it was given ([Engine]), and sets no timer but the one that waits
    for the system to send ([desync_timely]).

    Any group of options that is to run in the loop needs an instance of [Engine]; the one
    here is for groups that split requests into parts without decoys. *)
From Stdlib Require Import ZArith Lia Ascii String.
From stdpp Require Import base numbers list option sorting.
From S2P Require Import Prelude CMem PacketsTls PacketsHttp Mpool Params Desync DList Conev Socks Extend.

#[local] Open Scope Z_scope.
#[local] Open Scope list_scope.

Lemma swp_conj {S A} (m : ST S A) (s : S) (P Q : A → S → Prop) :
  swp m s P → spwp m s Q → swp m s (λ a s, P a s ∧ Q a s).
Proof. unfold swp, spwp. intros H1 H2. eapply wp_mono; [by apply (wp_conj _ _ _ H1 H2)|]. by intros []. Qed.

(** * Timers *)

Section timely.
Context (prm : params) (os : list sys → Z) (rand : nat → Z) (junk : Z → bytes) (fuel : nat).

Definition on_time (s : dstate) : Prop := Forall (λ ms, ms = pr_await_int prm) (timers_of (d_log s)).
Definition timely {A} (m : ST dstate A) : Prop := ∀ s, on_time s → spwp m s (λ _, on_time).

Lemma t_ret {A} (a : A) : timely (mret a).
Proof. by intros s. Qed.
Lemma t_bind {A B} (m : ST dstate A) (f : A → ST dstate B) : timely m → (∀ a, timely (f a)) → timely (m ≫= f).
Proof.
  intros Hm Hf s Hs. apply spwp_bind. eapply spwp_mono; [by apply Hm|]. intros a s' Hs'. by apply Hf.
Qed.
Lemma t_lift {A} (c : comp A) : timely (lift c).
Proof. intros s Hs. apply spwp_lift. by destruct c. Qed.
Lemma t_gets {A} (f : dstate → A) : timely (gets f).
Proof. by intros s. Qed.
Lemma t_modify f : (∀ s, d_log (f s) = d_log s) → timely (modify f).
Proof. intros Hf s Hs. apply spwp_modify. unfold on_time. by rewrite Hf. Qed.
Lemma t_fail {A} e : timely (sfail e : ST dstate A).
Proof. by intros s. Qed.
Lemma t_call c : match c with SSetTimer ms => ms = pr_await_int prm | _ => True end → timely (Desync.call os c).
Proof.
  intros Hc s Hs. unfold spwp, Desync.call. cbn. unfold on_time, timers_of. cbn [d_log set_log].
  rewrite omap_app. apply Forall_app. split; [exact Hs|]. destruct c; cbn; try constructor; [done|constructor].
Qed.
Lemma t_sloop {X R} (body : X → ST dstate (X + R)) n x : (∀ x, timely (body x)) → timely (sloop body n x).
Proof.
  intros Hb s Hs. apply (spwp_sloop body (λ _, on_time)); [|done]. intros y s' Hs'.
  eapply spwp_mono; [by apply Hb|]. by intros [].
Qed.

(** Step through a function that sets no timer itself. *)
Ltac timely :=
  repeat first
    [ progress intros
    | solve [auto 2]
    | apply t_ret | apply t_lift | apply t_gets | apply t_fail | (apply t_modify; done) | (apply t_call; done)
    | apply t_bind | apply t_sloop
    | match goal with |- timely (match ?x with _ => _ end) => destruct x end
    | progress cbv zeta ].

Lemma t_setttl ttl : timely (setttl os ttl).
Proof. unfold setttl. timely. Qed.
Lemma t_send_buf oob p n : timely (send_buf os oob p n).
Proof. unfold send_buf. timely. Qed.
Lemma t_init_proto_info b n : timely (init_proto_info b n).
Proof. unfold init_proto_info. timely. Qed.
Lemma t_restore_state : timely (restore_state prm os).
Proof. unfold restore_state. pose proof t_setttl. timely. Qed.
Lemma t_gen_offset pos flag b n lp : timely (gen_offset rand pos flag b n lp).
Proof. unfold gen_offset, next_rand. pose proof t_init_proto_info. timely. Qed.
Lemma t_tamp bfsize n dp : timely (tamp rand bfsize n dp).
Proof. unfold tamp, tamp_body, part_tls_at. pose proof t_gen_offset. timely. Qed.
Lemma t_get_tcp_fake n dp : timely (get_tcp_fake os rand junk fuel n dp).
Proof. unfold get_tcp_fake, next_rand. pose proof t_gen_offset. timely. Qed.
Lemma t_getTFE : timely (getTFE os).
Proof. unfold getTFE. timely. Qed.
Lemma t_openTempFile : timely (openTempFile os).
Proof. unfold openTempFile. timely. Qed.
Lemma t_WriteFile h l : timely (WriteFile os h l).
Proof. unfold WriteFile, file_at, set_file. timely. Qed.
Lemma t_SetFilePointer h p : timely (SetFilePointer os h p).
Proof. unfold SetFilePointer, file_at, set_file. timely. Qed.
Lemma t_SetEndOfFile h : timely (SetEndOfFile os h).
Proof. unfold SetEndOfFile, file_at, set_file. timely. Qed.
Lemma t_send_fake b pos dp pkt : timely (send_fake prm os b pos dp pkt).
Proof.
  unfold send_fake, send_fake_steps, TransmitFile, file_at.
  pose proof t_getTFE. pose proof t_openTempFile. pose proof t_WriteFile. pose proof t_SetFilePointer.
  pose proof t_SetEndOfFile. pose proof t_setttl. timely.
Qed.
Lemma t_send_oob lp n pos c : timely (send_oob os lp n pos c).
Proof. unfold send_oob. pose proof t_send_buf. timely. Qed.
Lemma t_send_part bfsize n lp pos dp part r : timely (send_part prm os rand junk fuel bfsize n lp pos dp part r).
Proof.
  unfold send_part. pose proof t_get_tcp_fake. pose proof t_send_fake. pose proof t_send_oob.
  pose proof t_setttl. pose proof t_send_buf. timely.
Qed.

(** The only timer of [desync] is the wait for the system to send. *)
Lemma desync_timely bfsize offset n sent dp : timely (desync prm os rand junk fuel bfsize offset n sent dp).
Proof.
  unfold desync, send_parts, cut_body, send_rest, Desync.get_e. pose proof t_tamp. pose proof t_init_proto_info.
  pose proof t_gen_offset. pose proof t_send_part. pose proof t_restore_state. pose proof t_send_buf. timely.
Qed.
End timely.

(** * Bounds *)

(** The engine with the groups [Q] stays in the buffer, and reports at most what it has. *)
Class Engine (prm : params) (rand : nat → Z) (junk : Z → bytes) (fuel : nat) (Q : desync_params → Prop) : Prop := {
  engine_tcp os s offset n sent g :
    Q g → send_bounded os → bytes_wf (d_buf s) → 0 <= offset <= n → n <= blen (d_buf s) →
    swp (desync prm os rand junk fuel (blen (d_buf s)) offset n sent g) s (λ r s',
      let '(ret, _, n') := r in
      bytes_wf (d_buf s') ∧ blen (d_buf s') = blen (d_buf s) ∧ n <= n' <= blen (d_buf s) ∧ ret <= n' - offset);
  engine_udp os s n g : Q g → 0 <= n <= blen (d_buf s) → swp (desync_udp prm os n g) s (λ _ _, True)
}.

(** Groups that cut requests without decoys and do not rewrite them. *)
Record plain_group (g : desync_params) : Prop := {
  pg_parts : Forall plain (dp_parts g);
  pg_http : dp_mod_http g = 0;
  pg_minor : dp_tlsminor g = None;
  pg_tlsrec : dp_tlsrec g = [];
  pg_udp : dp_udp_fake_count g = 0
}.

Section plain.
Context (prm : params) (os : list sys → Z) (rand : nat → Z) (junk : Z → bytes) (fuel : nat).

(** The bytes up to [lp] are done, the buffer is as it was. *)
Definition at_part (s0 : dstate) (offset n lp : Z) (s : dstate) : Prop := d_buf s = d_buf s0 ∧ offset <= lp <= n.
Definition reported_ok (s0 : dstate) (offset n ret : Z) (s : dstate) : Prop := d_buf s = d_buf s0 ∧ ret <= n - offset.

Lemma part_reported s0 offset n lp s : at_part s0 offset n lp s → reported_ok s0 offset n (lp - offset) s.
Proof. intros [E H]. split; [done|lia]. Qed.
Lemma part_quiet s0 offset n lp s s' : at_part s0 offset n lp s → Desync.quiet os s s' → at_part s0 offset n lp s'.
Proof. intros [E H] [E' _]. split; [congruence|lia]. Qed.

Lemma bounded_send_rest s0 offset n lp s : 0 <= offset → n <= blen (d_buf s0) → at_part s0 offset n lp s →
  swp (send_rest os n offset lp) s (λ r s', reported_ok s0 offset n r.1 s').
Proof.
  intros Ho Hn Ha. pose proof Ha as [E Hl]. unfold send_rest. destruct (Z.leb_spec n lp).
  { sstep. split; [done|cbn; lia]. }
  sstep. apply swp_send_buf; rewrite ?E; [lia..|]. intros k s1 E1 _ _. destruct (_ <? 0).
  - unfold Desync.get_e. do 2 sstep. apply swp_silent; [done|]. intros e s2 [E2 _]. do 2 sstep. split; [congruence|].
    cbn. destruct (_ =? EAGAIN); lia.
  - sstep. split; [congruence|cbn; lia].
Qed.

Lemma bounded_cut_body bfsize n offset skip pskip dp x s0 s :
  send_bounded os → bytes_wf (d_buf s0) → Forall plain (dp_parts dp) → 0 <= offset → n <= blen (d_buf s0) →
  bfsize <= blen (d_buf s0) → plain (ct_part x) → at_part s0 offset n (ct_lp x) s →
  swp (cut_body prm os rand junk fuel bfsize n offset skip pskip dp x) s (λ r s', match r with
    | inl x' => (plain (ct_part x') ∧ at_part s0 offset n (ct_lp x') s') ∧
        (rounds_left (dp_parts dp) (ct_i x') (ct_r x') < rounds_left (dp_parts dp) (ct_i x) (ct_r x))%nat
    | inr (inl lp) => at_part s0 offset n lp s'
    | inr (inr ret) => reported_ok s0 offset n ret.1 s'
    end).
Proof.
  intros Hs Hw Hp Ho Hn Hbf Hpl Ha. unfold cut_body. destruct (negb _) eqn:Hgo; [by sstep|].
  apply negb_false_iff in Hgo.
  pose proof (next_part (dp_parts dp) (ct_i x) (ct_r x) (ct_part x) plain Hgo Hpl Hp) as Hnx.
  cbv zeta in Hnx |- *. destruct (if ct_r x <=? 0 then _ else _) as [[part r] i].
  destruct Hnx as [[Hfk Hrd] Hrounds]. pose proof Ha as [Eb Hlp].
  do 3 sstep. apply (swp_gen_offset os); [by rewrite Eb|by rewrite Eb|done|].
  intros pos0 s1 H1. apply (part_quiet _ _ _ _ _ _ Ha) in H1. clear Ha. pose proof H1 as [Eb1 _].
  set (pos := pos0 + _). destruct (((negb (skip =? 0) && _) || _) && _); [by sstep|].
  destruct (negb (offset =? 0) && _); [by sstep|].
  destruct ((pos <? 0) || _) eqn:E3; [by sstep|].
  set (pos' := if n <? pos then n else pos).
  assert (Hpos : ct_lp x <= pos' <= n) by (subst pos'; destruct (Z.ltb_spec n pos); lia).
  sstep. eapply (swp_mono _ _ (λ o s', d_buf s' = d_buf s0 ∧ ∃ k, o = Some k ∧ k <= pos' - ct_lp x)).
  { destruct (_ =? pskip); [sstep; split; [done|by eexists]|].
    apply swp_send_part; rewrite ?Eb1; [done..|lia|lia|done|]. intros k s2 E _ Hk. split; [congruence|by exists k]. }
  intros o s2 (E2 & k & -> & Hk). do 2 sstep. set (s3 := set_part_sent _ s2).
  assert (H3 : at_part s0 offset n (ct_lp x) s3) by (by split).
  destruct (Z.eqb_spec k ERR_WAIT) as [->|].
  { sstep. apply swp_silent; [done|]. intros ? s4 H4. sstep. by eapply part_reported, part_quiet. }
  destruct (Z.ltb_spec k 0).
  { unfold Desync.get_e. do 2 sstep. apply swp_silent; [done|]. intros e s4 H4. sstep.
    apply (part_quiet _ _ _ _ _ _ H3) in H4. destruct (_ =? EAGAIN); sstep; cbn [fst].
    - by apply part_reported.
    - destruct H4. split; [done|lia]. }
  destruct (Z.eqb_spec k (pos' - ct_lp x)) as [->|]; cbn [negb]; [|sstep; split; [done|cbn; lia]].
  destruct (_ && _).
  { sstep. apply swp_silent; [done|]. intros ? s4 [E4 _]. sstep. split; [by rewrite E4|cbn; lia]. }
  sstep. apply swp_restore. intros s4 [E4 _]. sstep. split; [|exact Hrounds]. split; [by split|]. split; [by rewrite E4|cbn; lia].
Qed.

Lemma bounded_send_parts bfsize n offset skip pskip dp s :
  send_bounded os → bytes_wf (d_buf s) → Forall plain (dp_parts dp) →
  0 <= offset <= n → n <= blen (d_buf s) → bfsize <= blen (d_buf s) →
  swp (send_parts prm os rand junk fuel bfsize n offset skip pskip dp) s (λ r s', reported_ok s offset n r.1 s').
Proof.
  intros Hs Hw Hp Ho Hn Hbf. unfold send_parts. sstep.
  apply (swp_sloop _ (λ x s', plain (ct_part x) ∧ at_part s offset n (ct_lp x) s')
    (λ x, rounds_left (dp_parts dp) (ct_i x) (ct_r x))).
  - intros x s1 (H1 & H2).
    eapply swp_mono; [apply (bounded_cut_body bfsize n offset skip pskip dp x s s1); done || lia|].
    intros [x'|[lp|ret]] s2; cbn; [tauto| |done]. intros Ha. apply bounded_send_rest; [lia|lia|done].
  - cbn [ct_part ct_lp]. split; [done|]. split; [done|lia].
  - unfold rounds_left, parts_fuel, rounds. cbn [ct_i ct_r]. rewrite drop_0. simpl. lia.
Qed.
End plain.

#[export] Instance plain_engine prm rand junk fuel : Engine prm rand junk fuel plain_group.
Proof.
  split.
  - intros os s offset n sent g [G1 G2 G3 G4 _] Hs Hw Ho Hn. unfold desync. repeat sstep.
    eapply (swp_mono _ _ (λ _ s', d_buf s' = d_buf s)).
    { destruct (_ && _); [|by sstep]. apply (swp_init_proto_info (λ _, 0)); [done|done|]. by intros s' [? _]. }
    intros _ s1 E1. sstep. eapply (swp_mono _ _ (λ n' s', n' = n ∧ d_buf s' = d_buf s)).
    { destruct (_ =? 0); [|by sstep]. unfold tamp. rewrite G2, G3, G4. cbn [Z.eqb]. by repeat sstep. }
    intros ? s2 [-> E2]. sstep. eapply swp_mono.
    { apply bounded_send_parts; rewrite ?E2; done || lia. }
    intros [ret wait] s3 [E3 Hr]. cbn [fst] in Hr. sstep. rewrite E3, E2. split_and!; (done || lia).
  - intros os s n g [_ _ _ _ G5] Hn. unfold desync_udp. rewrite G5. cbn [Z.eqb]. repeat sstep.
    unfold send_buf. repeat sstep. apply wp_rds; [lia..|]. by apply swp_call.
Qed.

Lemma engine_mono prm rand junk fuel (Q Q' : desync_params → Prop) : (∀ g, Q' g → Q g) →
  Engine prm rand junk fuel Q → Engine prm rand junk fuel Q'.
Proof. intros H [E1 E2]. split; auto. Qed.
