(* ===== verification/Session.v ===== *)
(** The invariant of byedpi's event loop (proxy.c, extend.c, conev.c), for the usual set-up
    with one group of options.

    The live connections of the pool fall into sessions ([session]): a listener or a client
    on its own, a client tied to its server, or the three descriptors of a UDP association.
    [pinv] says this of a pool that is well formed, together with what the handlers rely
    on in a connection ([conn_ok]): the sizes of the buffers and the marks in them, the
    length of the address, the state of the tracker of TLS records.  Timers run for servers
    only.  [winv] adds the group
    and the cache.  The rules at the end run the operations of the pool under it. *)
From Stdlib Require Import ZArith Lia Ascii String.
From stdpp Require Import base numbers list option sorting sets.
From S2P Require Import Prelude CMem PacketsTls PacketsHttp Mpool Params Desync DList Conev Socks Extend World TlsTrack Groups Cache Requests.

#[local] Open Scope Z_scope.
#[local] Open Scope list_scope.

(** * Sessions *)

(** What a session sees of a connection does not change, but that it gets its group. *)
Definition like (e e' : eval) : Prop :=
  ev_cb e' = ev_cb e ∧ ev_pair e' = ev_pair e ∧ c_flag (ev_conn e') = c_flag (ev_conn e) ∧
  c_after_conn_cb (ev_conn e') = c_after_conn_cb (ev_conn e) ∧
  (c_dp (ev_conn e) = Some 0%nat → c_dp (ev_conn e') = Some 0%nat).

#[export] Instance like_preorder : PreOrder like.
Proof.
  split; [by intros e|]. intros a b c (A1 & A2 & A3 & A4 & A5) (B1 & B2 & B3 & B4 & B5).
  split_and!; [congruence..|auto].
Qed.
Lemma like_core e e' : core e' = core e → like e e'.
Proof.
  intros H. pose proof (f_equal (λ e, (ev_cb e, ev_pair e, ev_conn e)) H) as E. cbn in E. injection E as E1 E2 E3.
  unfold like. by rewrite E1, E2, E3.
Qed.

(** A server that the client waits for. *)
Definition connecting (e : eval) : Prop :=
  ev_cb e = on_connect ∨ (ev_cb e = on_socks_conn ∨ ev_cb e = on_socks_recv) ∧ c_after_conn_cb (ev_conn e) = on_connect.

Inductive session (its : list eval) : list nat → Prop :=
  | alone v e :
      its !! v = Some e → ev_pair e = None → c_flag (ev_conn e) ≠ FLAG_CONN →
      ev_cb e = on_accept ∨ ev_cb e = on_request ∨ ev_cb e = recv_and_connect →
      session its [v]
  | tied c v ce ve :
      its !! c = Some ce → its !! v = Some ve → ev_pair ce = Some v → ev_pair ve = Some c →
      c_flag (ev_conn ce) ≠ FLAG_CONN → c_flag (ev_conn ve) = FLAG_CONN → c_dp (ev_conn ce) = Some 0%nat →
      ev_cb ce = on_tunnel ∧ ev_cb ve = on_tunnel ∨ ev_cb ce = on_ignore ∧ connecting ve →
      session its [c; v]
  | association t u r te ue re :
      its !! t = Some te → its !! u = Some ue → its !! r = Some re →
      ev_pair te = Some u → ev_pair ue = Some r → ev_pair re = Some t →
      c_flag (ev_conn te) ≠ FLAG_CONN → c_flag (ev_conn ue) = FLAG_CONN → c_flag (ev_conn re) ≠ FLAG_CONN →
      ev_cb te = on_ignore → ev_cb ue = on_udp_tunnel → ev_cb re = on_udp_tunnel →
      session its [t; u; r].

Lemma session_like its its' X : (∀ v e, v ∈ X → its !! v = Some e → ∃ e', its' !! v = Some e' ∧ like e e') →
  session its X → session its' X.
Proof.
  intros H S. destruct S as [v e E|c v ce ve E1 E2|t u r te ue re E1 E2 E3].
  - destruct (H v e ltac:(set_solver) E) as (e' & E' & L1 & L2 & L3 & L4 & L5).
    by apply (alone _ v e'); rewrite ?L1, ?L2, ?L3.
  - destruct (H c ce ltac:(set_solver) E1) as (ce' & E1' & L1 & L2 & L3 & L4 & L5).
    destruct (H v ve ltac:(set_solver) E2) as (ve' & E2' & M1 & M2 & M3 & M4 & M5).
    apply (tied _ c v ce' ve'); unfold connecting in *; rewrite ?L1, ?L2, ?L3, ?M1, ?M2, ?M3, ?M4; auto.
  - destruct (H t te ltac:(set_solver) E1) as (te' & E1' & L1 & L2 & L3 & L4 & L5).
    destruct (H u ue ltac:(set_solver) E2) as (ue' & E2' & M1 & M2 & M3 & M4 & M5).
    destruct (H r re ltac:(set_solver) E3) as (re' & E3' & N1 & N2 & N3 & N4 & N5).
    by apply (association _ t u r te' ue' re'); rewrite ?L1, ?L2, ?L3, ?M1, ?M2, ?M3, ?N1, ?N2, ?N3.
Qed.

(** From any of its connections the pairs lead to all of the session. *)
Lemma session_orbit its X (P : nat → Prop) x : session its X → x ∈ X → P x →
  (∀ a e b, a ∈ X → b ∈ X → P a → its !! a = Some e → ev_pair e = Some b → P b) → Forall P X.
Proof.
  intros S Hx HP Hs. destruct S as [v e E Ep|c v ce ve E1 E2 P1 P2|t u r te ue re E1 E2 E3 P1 P2 P3].
  - apply list_elem_of_singleton in Hx as ->. by constructor.
  - assert (P c ∧ P v) as [??]; [|by repeat constructor].
    apply elem_of_cons in Hx as [->|Hx%list_elem_of_singleton]; [|subst x].
    + split; [done|]. by apply (Hs c ce v); [set_solver..| | |].
    + split; [|done]. by apply (Hs v ve c); [set_solver..| | |].
  - assert (∀ x, P x → x ∈ [t; u; r] → (x = t → P u) ∧ (x = u → P r) ∧ (x = r → P t)) as Hn.
    { intros y Hy Hin. split_and!; intros ->.
      - by apply (Hs t te u); [set_solver..| | |].
      - by apply (Hs u ue r); [set_solver..| | |].
      - by apply (Hs r re t); [set_solver..| | |]. }
    assert (P t ∧ P u ∧ P r) as (?&?&?); [|by repeat constructor].
    pose proof (Hn t) as Ht. pose proof (Hn u) as Hu. pose proof (Hn r) as Hr.
    assert (t ∈ [t; u; r] ∧ u ∈ [t; u; r] ∧ r ∈ [t; u; r]) as (?&?&?) by set_solver.
    rewrite !elem_of_cons, elem_of_nil in Hx. naive_solver.
Qed.

Definition in_session (s : poolhd) (v : nat) : Prop :=
  ∃ X, v ∈ X ∧ session (p_items s) X ∧ Forall (live s) X.

(** Connections [D] come, go or change, with all that they lead to; the sessions of the
    others stay. *)
Lemma in_session_keep s s' (D : list nat) v :
  (∀ x e y, x ∈ D → p_items s !! x = Some e → ev_pair e = Some y → live s y → y ∈ D) →
  (∀ x e, live s x → x ∉ D → p_items s !! x = Some e →
     live s' x ∧ ∃ e', p_items s' !! x = Some e' ∧ like e e') →
  in_session s v → v ∉ D → in_session s' v.
Proof.
  intros Hc Hk (X & HvX & Hs & Hl) Hv. exists X.
  assert (HX : Forall (λ x, x ∉ D) X).
  { apply Forall_forall. intros x Hx HD. apply Hv.
    assert (Forall (λ x, x ∈ D) X) as HF; [|rewrite Forall_forall in HF; by apply HF].
    eapply (session_orbit _ X _ x Hs Hx HD). intros a e b Ha Hb HaD E Ep. apply (Hc a e); try done.
    rewrite Forall_forall in Hl. by apply Hl. }
  rewrite Forall_forall in HX, Hl. split_and!; [done| |].
  - eapply session_like; [|exact Hs]. intros x e Hx E. apply (Hk x e); auto.
  - apply Forall_forall. intros x Hx. assert (∃ e, p_items s !! x = Some e) as [e E].
    { destruct Hs; rewrite ?elem_of_cons, ?elem_of_nil in Hx; naive_solver. }
    apply (Hk x e); auto.
Qed.

(** * Connections *)

Section session.
Context (prm : params) (os : list call → answer) (g0 : desync_params).

(** The address type of a SOCKS5 request is one of the three. *)
Definition known_type (data : bytes) : Prop :=
  bat data 3 = S_ATP_I4 ∨ bat data 3 = S_ATP_ID ∨ bat data 3 = S_ATP_I6.
(** A piece of data that looks like a SOCKS5 request with an address. *)
Definition like_request (data : bytes) (n : Z) : Prop :=
  S_SIZE_MIN <= n ∧ bat data 0 = S_VER5 ∧ (bat data 1 = S_CMD_CONN ∨ bat data 1 = S_CMD_AUDP).

(** What the environment promises. *)
Record system_ok : Prop := {
  (* a new descriptor is not 0, which belongs to the standard input *)
  sy_open pre c : opens c = true → 0 <= a_ret (os (pre ++ [c])) → 0 < a_ret (os (pre ++ [c]));
  sy_poll : poll_ok os;
  sy_bytes pre c : bytes_wf (a_data (os (pre ++ [c]))) ∧ bytes_wf (a_addr (os (pre ++ [c])));
  (* no call takes or gives more than there is room for *)
  sy_recv pre fd n : 0 <= n → let a := os (pre ++ [KRecv fd n]) in
    a_ret a <= n ∧ (1 <= a_ret a → blen (a_data a) = a_ret a);
  sy_recvfrom pre fd n : 0 <= n → let a := os (pre ++ [KRecvFrom fd n]) in
    a_ret a <= n ∧ (0 <= a_ret a → blen (a_data a) = a_ret a);
  sy_send pre fd d : a_ret (os (pre ++ [KSend fd d])) <= blen d;
  sy_sys pre fd oob d : a_ret (os (pre ++ [KSys fd (SSend oob d)])) <= blen d;
  sy_resolve : resolver_ok os;
  (* [udp_associate] leaves a connection without a pair when [getsockname] fails *)
  sy_name pre fd : a_ret (os (pre ++ [KGetSockName fd])) = 0;
  (* a timer that is due at 0 counts as none *)
  sy_clock pre ms : ms = pr_ptimeout prm ∨ ms = pr_await_int prm →
    s32 (s32 (a_ret (os (pre ++ [KTimeMs]))) + ms) ≠ 0;
  (* [s5_get_addr] reads in front of the buffer for another type of address *)
  sy_request pre fd n : has_bit (pr_mode prm) MODE_SOCKS5 = true → let a := os (pre ++ [KRecv fd n]) in
    like_request (a_data a) (a_ret a) → known_type (a_data a);
  sy_datagram pre fd : let a := os (pre ++ [KRecvFrom fd (u64 (pr_bfsize prm))]) in
    S_SIZE_MIN <= a_ret a → known_type (a_data a)
}.

(** One group of options, which is not tried again; no prefixes in the cache. *)
Record config_ok : Prop := {
  cf_mode : has_bit (pr_mode prm) MODE_SHADOWSOCKS = false;
  cf_size : S_SIZE_I6 < pr_bfsize prm < 2 ^ 62;
  cf_open : 0 < pr_max_open prm < 2 ^ 32;
  cf_cache : pr_cache_pre prm = 0;
  cf_id : 0 <= dp_id g0;
  cf_bit : dp_bit g0 = 2 ^ dp_id g0;
  cf_mask : pr_dp_full_mask prm = dp_bit g0;
  cf_prev : dp_prev g0 = None;
  cf_next : dp_next g0 = None;
  cf_out : blen (dp_out_addr g0) = sa_len ∧ bytes_wf (dp_out_addr g0)
}.

(** The group, whose counters change. *)
Definition settings (g : desync_params) : desync_params := set_dp_pri 0 (set_dp_fail_count 0 g).
Definition same_group (g : desync_params) : Prop := settings g = settings g0.

Definition buf_ok (b : buffer) : Prop :=
  b_size b = pr_bfsize prm ∧ blen (b_data b) = b_size b ∧ bytes_wf (b_data b).
Definition marks_ok (b : buffer) : Prop := 0 <= b_offset b <= b_lock b ∧ b_lock b <= b_size b.
Definition free_ok (b : buffer) : Prop := buf_ok b ∧ b_offset b = 0 ∧ b_lock b = 0.

Definition addr_ok (a : bytes) : Prop := blen a = sa_len ∧ bytes_wf a.
Definition in_mask (m : Z) : Prop := ∀ k, Z.testbit m k = true → Z.testbit (pr_dp_full_mask prm) k = true.

Record conn_ok (e : eval) : Prop := {
  co_buff b : ev_buff e = Some b → buf_ok b ∧ (ev_cb e = recv_and_connect ∨ marks_ok b);
  co_sq b : ev_sq_buff e = Some b → buf_ok b ∧ 0 <= b_lock b;
  co_addr : addr_ok (c_addr (ev_conn e));
  co_dp : c_dp (ev_conn e) = None ∨ c_dp (ev_conn e) = Some 0%nat;
  co_mask : in_mask (c_dp_mask (ev_conn e));
  co_tls : tracker_wf (c_tls_rec (ev_conn e), c_tls_rec_pos (ev_conn e), c_tls_rec_size (ev_conn e))
}.

Lemma conn_ok_core e e' : core e' = core e → conn_ok e → conn_ok e'.
Proof.
  intros H. pose proof (f_equal (λ e, (ev_cb e, ev_buff e, ev_sq_buff e, ev_conn e)) H) as E. cbn in E.
  injection E as E1 E2 E3 E4. intros []. split; by rewrite ?E1, ?E2, ?E3, ?E4.
Qed.

Lemma zero_conn_ok : addr_ok (c_addr zero_conn) ∧ in_mask 0 ∧ tracker_wf (repeat 0 5, 0, 0).
Proof.
  assert (H : ∀ n, bytes_wf (repeat 0 n)).
  { intros n. induction n; constructor; [unfold is_byte; lia|done]. }
  split_and!; [split; [done|apply H]|intros k; by rewrite Z.bits_0|split_and!; [apply (H 5%nat)|done|lia]].
Qed.

(** * The pool *)

(** The invariant of the pool between two events of round [N], of which the slots behind
    [offs] are done.  The connections of [Z0] are not in a session yet. *)
Context (Z0 : list nat) (N offs : Z).

Definition server (s : poolhd) (v : nat) : Prop := ∃ e, p_items s !! v = Some e ∧ c_flag (ev_conn e) = FLAG_CONN.

Record pinv (s : poolhd) : Prop := {
  pi_wf : ∃ T, pool_wf s T ∧ Forall (server s) T;
  pi_max : p_max s = pr_max_open prm * 2 + 1;
  pi_iters : p_iters s = N;
  pi_scan : scan_ok s offs;
  pi_root : Forall free_ok (p_root_buff s);
  pi_conn v e : live s v → p_items s !! v = Some e → conn_ok e;
  pi_sess v : live s v → v ∉ Z0 → in_session s v
}.

(** A change that neither the sessions nor the scan see: timers, events, the log. *)
Record steady (s s' : poolhd) : Prop := {
  st_live v : live s' v ↔ live s v;
  st_items v e : p_items s !! v = Some e → ∃ e', p_items s' !! v = Some e' ∧ core e' = core e;
  st_back v e' : p_items s' !! v = Some e' → ∃ e, p_items s !! v = Some e ∧ core e' = core e;
  st_max : p_max s' = p_max s;
  st_iters : p_iters s' = p_iters s;
  st_scan o : scan_ok s o → scan_ok s' o
}.

#[global] Instance steady_preorder : PreOrder steady.
Proof.
  split.
  - intros s. split; try done; eauto.
  - intros a b c [A1 A2 A2' A3 A4 A5] [B1 B2 B2' B3 B4 B5]. split; try congruence; auto.
    + intros v. by rewrite B1, A1.
    + intros v e E. destruct (A2 v e E) as (e1 & E1 & C1). destruct (B2 v e1 E1) as (e2 & E2 & C2).
      exists e2. split; [done|congruence].
    + intros v e E. destruct (B2' v e E) as (e1 & E1 & C1). destruct (A2' v e1 E1) as (e2 & E2 & C2).
      exists e2. split; [done|congruence].
Qed.

(** A change that keeps the sessions. *)
Record keeps (s s' : poolhd) : Prop := {
  kp_live v : live s' v ↔ live s v;
  kp_items v e : p_items s !! v = Some e → ∃ e', p_items s' !! v = Some e' ∧ like e e'
}.

#[global] Instance keeps_preorder : PreOrder keeps.
Proof.
  split; [intros s; split; [done|]; intros v e E; by exists e|].
  intros a b c [A1 A2] [B1 B2]. split; [intros v; by rewrite B1, A1|].
  intros v e E. destruct (A2 v e E) as (e1 & E1 & C1). destruct (B2 v e1 E1) as (e2 & E2 & C2).
  exists e2. split; [done|by etrans].
Qed.
Lemma steady_keeps s s' : steady s s' → keeps s s'.
Proof.
  intros []. split; [done|]. intros v e E. destruct (st_items0 v e E) as (e' & ? & ?). exists e'.
  split; [done|by apply like_core].
Qed.

Lemma keeps_session s s' v : keeps s s' → in_session s v → in_session s' v.
Proof.
  intros [K1 K2] H. eapply (in_session_keep s s' []); [set_solver| |exact H|set_solver].
  intros x e Hx _ E. split; [by apply K1|]. by apply K2.
Qed.

Lemma server_keeps s s' T : keeps s s' → Forall (server s) T → Forall (server s') T.
Proof.
  intros [_ K] H. eapply Forall_impl; [exact H|]. intros v (e & E & Hf). destruct (K v e E) as (e' & E' & L).
  exists e'. split; [done|]. by rewrite (proj1 (proj2 (proj2 L))).
Qed.

Lemma steady_same s s' : p_items s' = p_items s → p_links s' = p_links s → p_count s' = p_count s →
  p_max s' = p_max s → p_iters s' = p_iters s → steady s s'.
Proof.
  intros E1 E2 E3 E4 E5. split; try done.
  - intros v. unfold live. by rewrite E2, E3.
  - rewrite E1. eauto.
  - rewrite E1. eauto.
  - intros o. unfold scan_ok. by rewrite E1, E2, E3, E4, E5.
Qed.

Lemma steady_timers s s' : same_but_timers s s' → steady s s'.
Proof.
  intros [H Hi].
  assert (Hs : ∀ v, strip <$> p_items s' !! v = strip <$> p_items s !! v).
  { intros v. pose proof (f_equal (lookup v) Hi) as E. by rewrite !list_lookup_fmap in E. }
  assert (E : p_links s' = p_links s ∧ p_count s' = p_count s ∧ p_max s' = p_max s ∧ p_iters s' = p_iters s).
  { destruct s, s'. cbn in *. injection H. auto. }
  destruct E as (E1 & E2 & E3 & E4). split; try done.
  - intros v. unfold live. by rewrite E1, E2.
  - intros v e E. specialize (Hs v). rewrite E in Hs. destruct (p_items s' !! v) as [e'|]; [|done].
    apply (inj Some) in Hs. exists e'. split; [done|]. unfold core. by rewrite Hs.
  - intros v e E. specialize (Hs v). rewrite E in Hs. destruct (p_items s !! v) as [e'|]; [|done].
    apply (inj Some) in Hs. exists e'. split; [done|]. unfold core. by rewrite Hs.
  - intros o [Ho Hsc]. unfold scan_ok. rewrite E1, E2, E3, E4. split; [done|]. intros i v Hv Hl.
    destruct (Hsc i v Hv Hl) as (e & E & Hm). specialize (Hs v). rewrite E in Hs.
    destruct (p_items s' !! v) as [e'|]; [|done]. exists e'. split; [done|].
    apply (inj Some) in Hs. apply (f_equal ev_mod_iter) in Hs. cbn in Hs. congruence.
Qed.

Lemma pinv_steady s s' : pinv s → steady s s' → (∃ T, pool_wf s' T ∧ Forall (server s) T) → Forall free_ok (p_root_buff s') → pinv s'.
Proof.
  intros [] Hst (T & Hwf & Hsv) Hr. pose proof Hst as []. split; try congruence; auto.
  - exists T. split; [done|]. eapply server_keeps; [by apply steady_keeps|done].
  - intros v e' Hv E'. destruct (st_back0 v e' E') as (e & E & Hc). eapply conn_ok_core; [exact Hc|].
    apply (pi_conn0 v); [by apply st_live0|done].
  - intros v Hv Hz. eapply keeps_session; [by apply steady_keeps|]. apply pi_sess0; [by apply st_live0|done].
Qed.

(** The fields that the pool looks at stay. *)
Definition pool_same (f : eval → eval) : Prop := ∀ e,
  tv_fields (f e) = tv_fields e ∧ ev_fd (f e) = ev_fd e ∧ ev_index (f e) = ev_index e ∧
  ev_mod_iter (f e) = ev_mod_iter e ∧ ev_pair (f e) = ev_pair e.

(** An assignment through the pointer to [v]. *)
Lemma pinv_upd s v f e : pinv s → live s v → p_items s !! v = Some e → pool_same f → like e (f e) → conn_ok (f e) →
  let s' := set_p_items (alter f v (p_items s)) s in pinv s' ∧ keeps s s'.
Proof.
  intros Hp Hv E Hf Hl Hc s'.
  assert (Hk : keeps s s').
  { split; [done|]. intros x y Ex. cbn. rewrite list_lookup_alter. case_decide; subst; [|by exists y].
    rewrite Ex. simplify_eq. by exists (f e). }
  split; [|done]. destruct Hp as [(T & Hwf & Hsv) ? ? ? ? ? ?]. split; try done.
  - exists T. split; [|by eapply server_keeps]. apply item_wf; [done|]. intros x. destruct (Hf x) as (? & ? & ? & ? & ?). split_and!; auto.
  - apply scan_items; [|done]. intros x. by destruct (Hf x) as (? & ? & ? & ? & ?).
  - intros x y Hx. cbn. rewrite list_lookup_alter. case_decide; subst; [|by apply pi_conn0].
    rewrite E. by intros [= <-].
  - intros x Hx Hz. eapply keeps_session; [exact Hk|]. by apply pi_sess0.
Qed.

Lemma pinv_item s v : pinv s → live s v → ∃ e, p_items s !! v = Some e ∧ conn_ok e ∧ 0 < ev_fd e.
Proof.
  intros Hp Hv. destruct (pi_wf _ Hp) as (T & Hwf & _).
  destruct (live_lookup s T v Hwf Hv) as (i & e & pe & _ & _ & E & _ & []). exists e.
  split_and!; [done|by eapply pi_conn|done].
Qed.

(** * The world *)

Definition cache_fine (hdr : mphdr) : Prop :=
  pool_ok bit_dom hdr ∧ mp_cmp_type hdr = CMP_BITS ∧
  Forall (λ e, e_dp e = Some 0%nat ∧ in_mask (e_dp_mask e)) (pool_elems hdr).

(** The invariant of the world; a trigger has the cache in another state [C] for a while. *)
Context (C : mphdr → Prop).

Record winv (w : world) : Prop := {
  wi_pool : pinv (w_pool w);
  wi_group : ∃ g, w_dps w = [g] ∧ same_group g;
  wi_head : w_dp w = Some 0%nat;
  wi_cache : C (w_mempool w)
}.

Definition livew (w : world) (v : nat) : Prop := live (w_pool w) v.
Definition wkeeps (w w' : world) : Prop := keeps (w_pool w) (w_pool w').

#[global] Instance wkeeps_preorder : PreOrder wkeeps.
Proof. split; [intros w|intros a b c]; unfold wkeeps; [done|apply transitivity]. Qed.

(** The connections and their places stay. *)
Record calm (w w' : world) : Prop := {
  cl_items : p_items (w_pool w') = p_items (w_pool w);
  cl_links : p_links (w_pool w') = p_links (w_pool w);
  cl_count : p_count (w_pool w') = p_count (w_pool w);
  cl_max : p_max (w_pool w') = p_max (w_pool w);
  cl_iters : p_iters (w_pool w') = p_iters (w_pool w)
}.
(** The free buffers stay too. *)
Definition quiet (w w' : world) : Prop := calm w w' ∧ p_root_buff (w_pool w') = p_root_buff (w_pool w).

#[global] Instance calm_preorder : PreOrder calm.
Proof. split; [by intros w|]. intros a b c [] []. split; congruence. Qed.
#[global] Instance quiet_preorder : PreOrder quiet.
Proof. split; [by intros w|]. intros a b c [H1 E1] [H2 E2]. split; [by etrans|congruence]. Qed.
Lemma calm_at w w' v e : calm w w' → client_at w v e → client_at w' v e.
Proof. intros [H]. unfold client_at. by rewrite H. Qed.
Lemma calm_live w w' v : calm w w' → livew w v → livew w' v.
Proof. intros [? Hl Hc]. unfold livew, live. by rewrite Hl, Hc. Qed.
Lemma calm_steady w w' : calm w w' → steady (w_pool w) (w_pool w').
Proof. intros []. by apply steady_same. Qed.
Lemma calm_keeps w w' : calm w w' → wkeeps w w'.
Proof. intros H. by apply steady_keeps, calm_steady. Qed.
Lemma quiet_at w w' v e : quiet w w' → client_at w v e → client_at w' v e.
Proof. intros [H _]. by apply calm_at. Qed.
Lemma quiet_live w w' v : quiet w w' → livew w v → livew w' v.
Proof. intros [H _]. by apply calm_live. Qed.
Lemma quiet_keeps w w' : quiet w w' → wkeeps w w'.
Proof. intros [H _]. by apply calm_keeps. Qed.
Lemma keeps_live w w' v : wkeeps w w' → livew w v → livew w' v.
Proof. intros [H _] Hv. by apply H. Qed.

Lemma winv_steady w w' : winv w → steady (w_pool w) (w_pool w') → (∃ T, pool_wf (w_pool w') T ∧ Forall (server (w_pool w)) T) →
  Forall free_ok (p_root_buff (w_pool w')) → w_dps w' = w_dps w → w_dp w' = w_dp w → w_mempool w' = w_mempool w →
  winv w'.
Proof.
  intros [] Hq Hwf Hr E1 E2 E3. split; rewrite ?E1, ?E2, ?E3; try done. by eapply pinv_steady.
Qed.

Lemma winv_log w l : winv w → winv (with_log l w) ∧ quiet w (with_log l w).
Proof.
  intros H. split; [|done]. apply (winv_steady w); try done.
  - by apply calm_steady.
  - destruct (pi_wf _ (wi_pool _ H)) as (T & Hwf & Hsv). exists T. split; [by apply log_wf|done].
  - by apply (pi_root _ (wi_pool _ H)).
Qed.

Lemma winv_item w v : winv w → livew w v → ∃ e, client_at w v e ∧ conn_ok e ∧ 0 < ev_fd e.
Proof. intros H Hv. by apply pinv_item; [apply H|]. Qed.

(** A result and a world that satisfy [P], whatever calls were made. *)
Definition quietly {A} (m : ST world A) (R : A → Prop) : Prop :=
  ∀ w, winv w → swp m w (λ a w', R a ∧ winv w' ∧ quiet w w').

Lemma q_kcall c : quietly (on_pool (kcall os c)) (λ a, ∃ l, a = os (l ++ [c])).
Proof. intros w Hw. apply swp_answer. split; [eauto|by apply winv_log]. Qed.
Lemma q_sysret c : quietly (sysret os c) (λ r, ∃ l, r = a_ret (os (l ++ [c]))).
Proof. intros w Hw. apply swp_sysret. split; [eauto|by apply winv_log]. Qed.
Lemma q_get_e : quietly (get_e os) (λ _, True).
Proof.
  intros w Hw. unfold get_e. sstep. eapply swp_mono; [by apply q_sysret|]. intros r w' (_ & ?). by sstep.
Qed.

Lemma q_ret {A} (a : A) (R : A → Prop) : R a → quietly (mret a) R.
Proof. intros Ha w Hw. sstep. by split_and!. Qed.
Lemma q_bind {A B} (m : ST world A) (f : A → ST world B) R R' :
  quietly m R → (∀ a, R a → quietly (f a) R') → quietly (m ≫= f) R'.
Proof.
  intros Hm Hf w Hw. sstep. eapply swp_mono; [by apply Hm|]. intros a w1 (Ha & H1 & Q1).
  eapply swp_mono; [by apply Hf|]. intros b w2 (Hb & H2 & Q2). split_and!; [done..|by etrans].
Qed.
Lemma q_mono {A} (m : ST world A) (R R' : A → Prop) : quietly m R → (∀ a, R a → R' a) → quietly m R'.
Proof. intros Hm H w Hw. eapply swp_mono; [by apply Hm|]. intros a w1 (Ha & ?). auto. Qed.
Lemma q_if {A} (b : bool) (m n : ST world A) R : quietly m R → quietly n R → quietly (if b then m else n) R.
Proof. by destruct b. Qed.
Lemma q_lift {A} (c : comp A) (R : A → Prop) : wp c R → quietly (lift c) R.
Proof. intros Hc w Hw. sstep. eapply wp_mono; [exact Hc|]. intros a Ha. by split_and!. Qed.

(** An action on the pool that only logs. *)
Lemma q_pool {A} (m : ST poolhd A) (R : A → Prop) :
  (∀ s, swp m s (λ a s', R a ∧ ∃ l, s' = set_p_log l s)) → quietly (on_pool m) R.
Proof.
  intros H w Hw. apply swp_on_pool. eapply swp_mono; [apply H|]. intros a s (Ha & l & ->).
  split; [done|]. by apply winv_log.
Qed.

Lemma q_mod_etype v t w (P : Z → world → Prop) : winv w → livew w v →
  (∀ w', winv w' → quiet w w' → P 0 w') → swp (on_pool (mod_etype v t)) w P.
Proof.
  intros Hw Hv HP. destruct (pi_wf _ (wi_pool _ Hw)) as (T & Hwf & Hsv). apply swp_on_pool.
  eapply swp_mono; [by apply (mod_etype_ok (w_pool w) T)|]. intros r s (-> & Hwf' & pv & ->).
  assert (Hq : quiet w (set_w_pool (set_p_pevents pv (w_pool w)) w)) by done.
  apply HP; [|done]. apply (winv_steady w); try done; [by apply calm_steady, Hq|by exists T|].
  by apply (pi_root _ (wi_pool _ Hw)).
Qed.

(** The world after an assignment through the pointer to [v]. *)
Lemma winv_upd w v f e : winv w → livew w v → client_at w v e → pool_same f → like e (f e) → conn_ok (f e) →
  winv (with_eval w v f) ∧ wkeeps w (with_eval w v f) ∧ client_at (with_eval w v f) v (f e).
Proof.
  intros [] Hv E Hf Hl Hc. destruct (pinv_upd (w_pool w) v f e) as [Hp Hk]; [done..|].
  split_and!; [by split|exact Hk|by apply client_at_with].
Qed.
Lemma with_eval_other w v f x e : x ≠ v → client_at w x e → client_at (with_eval w v f) x e.
Proof. intros Hx. unfold client_at. cbn. by rewrite list_lookup_alter_ne. Qed.

(** The state of the group. *)
Lemma swp_group0 w (P : desync_params → world → Prop) :
  winv w → (∀ g, w_dps w = [g] → same_group g → P g w) → swp (group 0) w P.
Proof.
  intros Hw HP. destruct (wi_group _ Hw) as (g & E & Hg). eapply swp_group; [by rewrite E|]. by apply HP.
Qed.
Lemma swp_upd_group0 w f (P : unit → world → Prop) : winv w → (∀ g, settings (f g) = settings g) →
  (∀ w', winv w' → quiet w w' → P tt w') → swp (upd_group 0 f) w P.
Proof.
  intros Hw Hf HP. pose proof Hw as [? (g & E & Hg) ? ?]. apply swp_upd_group; [by rewrite E|].
  apply HP; [|done]. split; try done. exists (f g). cbn. rewrite E. split; [done|].
  unfold same_group. by rewrite Hf.
Qed.
End session.

Arguments pi_wf {prm Z0 N offs s}.
Arguments pi_max {prm Z0 N offs s}.
Arguments pi_iters {prm Z0 N offs s}.
Arguments pi_scan {prm Z0 N offs s}.
Arguments pi_root {prm Z0 N offs s}.
Arguments pi_conn {prm Z0 N offs s}.
Arguments pi_sess {prm Z0 N offs s}.
Arguments wi_pool {prm g0 Z0 N offs C w}.
Arguments wi_group {prm g0 Z0 N offs C w}.
Arguments wi_head {prm g0 Z0 N offs C w}.
Arguments wi_cache {prm g0 Z0 N offs C w}.
Arguments co_buff {prm e}.
Arguments co_sq {prm e}.
Arguments co_addr {prm e}.
Arguments co_dp {prm e}.
Arguments co_mask {prm e}.
Arguments co_tls {prm e}.
