(* ===== verification/Wire.v ===== *)
(** The addresses of requests (proxy.c) under what the system promises: every parser only
    logs its calls and leaves an address in order, whatever the client sent.

    [addr_in] is what the parsers leave in [*dst]; the rules [l_*] run a function of the pool
    that touches the log only. *)
From Stdlib Require Import ZArith Lia Ascii String.
From stdpp Require Import base numbers list option sorting sets.
From S2P Require Import Prelude CMem PacketsTls PacketsHttp Mpool Params Desync DList Conev Socks Extend World Requests Engine Session.

#[local] Open Scope Z_scope.
#[local] Open Scope list_scope.

(** * Bytes *)

Lemma pwp_rds b i n : bytes_wf b → pwp (rds b i n) bytes_wf.
Proof. intros Hb. unfold rds. destruct (in_range _ _ _); [by apply wf_sub|done]. Qed.
Lemma pwp_store b i l : bytes_wf b → bytes_wf l → pwp (store b i l) bytes_wf.
Proof. intros Hb Hl. unfold store. destruct (in_range _ _ _); [by apply wf_put|done]. Qed.
Lemma pwp_memcpy d i s j n : bytes_wf d → bytes_wf s → pwp (memcpy d i s j n) bytes_wf.
Proof.
  intros Hd Hs. unfold memcpy. destruct (_ =? 0); [done|]. apply pwp_bind. eapply pwp_mono; [by apply pwp_rds|].
  intros l Hl. by apply pwp_store.
Qed.
Lemma pwp_any {A} (c : comp A) : pwp c (λ _, True).
Proof. by destruct c. Qed.

Lemma wf_zeros n : bytes_wf (repeat 0 n).
Proof. induction n; constructor; [unfold is_byte; lia|done]. Qed.
Lemma wf_family a f : bytes_wf a → bytes_wf (set_family a f).
Proof. intros H. apply wf_put; [done|]. repeat constructor; apply wf_u8. Qed.
Lemma wf_htons x : bytes_wf (htons x).
Proof. repeat constructor; apply wf_u8. Qed.

#[local] Ltac wf :=
  repeat first [done | apply wf_sub | apply wf_family | apply wf_htons | apply wf_zeros | apply wf_put
    | progress unfold set_port, set_sin_addr, set_sin6_addr, sin_addr, sin6_addr, sin_port ].

Lemma addr_ok_zero : addr_ok (repeat 0 28).
Proof. split; [done|apply wf_zeros]. Qed.
Lemma addr_ok_port a p : addr_ok a → bytes_wf p → blen p = 2 → addr_ok (set_port a p).
Proof. intros [H1 H2] Hp Hl. unfold sa_len in *. split; [unfold sa_len, set_port; rewrite blen_put; lia|wf]. Qed.
Lemma map_fix_addr a f : addr_ok a → addr_ok (map_fix a f).
Proof.
  unfold addr_ok, sa_len. intros [H1 H2]. unfold map_fix. destruct (_ && _).
  - split; [|wf; repeat constructor; unfold is_byte; lia].
    assert (blen (sin_addr a) = 4) by (unfold sin_addr; apply blen_sub; lia).
    unfold set_family, sin_addr. rewrite !blen_put; rewrite ?blen_put; rewrite ?blen_sub; rewrite ?blen_put; blia.
  - destruct (_ && _); [|done]. split; [|wf]. unfold set_sin_addr, set_family.
    rewrite !blen_put; rewrite ?blen_put; rewrite ?blen_sub; rewrite ?blen_put; blia.
Qed.

(** [s5_set_addr] with room for both families. *)
Lemma s5_set_addr_safe b p n a (tail : bool) : blen a = sa_len → S_SIZE_I6 <= n → 0 <= (if tail then p - S_SIZE_I6 else p) →
  (if tail then p else p + S_SIZE_I6) <= blen b →
  wp (s5_set_addr b p n a tail) (λ r, (r.1 = S_SIZE_I4 ∨ r.1 = S_SIZE_I6) ∧ blen r.2 = blen b ∧
    (bytes_wf b → bytes_wf a → bytes_wf r.2)).
Proof.
  unfold S_SIZE_I6, sa_len. intros Ha Hn Hp Hb. unfold s5_set_addr, S_SIZE_I4, S_SIZE_I6. destruct (Z.ltb_spec n 10); [lia|].
  assert (blen (sin_addr a) = 4 ∧ blen (sin6_addr a) = 16 ∧ blen (sin_port a) = 2) as (L1 & L2 & L3).
  { unfold sin_addr, sin6_addr, sin_port. rewrite !blen_sub by lia. done. }
  destruct (_ =? AF_INET); cbv zeta.
  - set (r := if tail then p - 10 else p). assert (0 <= r ∧ r + 10 <= blen b) by (subst r; destruct tail; lia).
    apply wp_bind, wp_store; [lia|blia|]. apply wp_bind, wp_store; [lia|blia|]. apply wp_bind, wp_store; [lia|blia|].
    apply wp_ok. split; [by left|]. split; [cbn; blia|]. intros Hwb Hwa. cbn. wf; repeat constructor; unfold is_byte, S_ATP_I4, S_ATP_I6; lia.
  - destruct (Z.ltb_spec n 22); [lia|].
    set (r := if tail then p - 22 else p). assert (0 <= r ∧ r + 22 <= blen b) by (subst r; destruct tail; lia).
    apply wp_bind, wp_store; [lia|blia|]. apply wp_bind, wp_store; [lia|blia|]. apply wp_bind, wp_store; [lia|blia|].
    apply wp_ok. split; [by right|]. split; [cbn; blia|]. intros Hwb Hwa. cbn. wf; repeat constructor; unfold is_byte, S_ATP_I4, S_ATP_I6; lia.
Qed.

(** * Functions that only log *)

Definition logged {A} (R : A → Prop) (s : poolhd) (a : A) (s' : poolhd) : Prop := R a ∧ ∃ l, s' = set_p_log l s.
(** [m] returns [R] from any pool, and does nothing but to log. *)
Definition logs {A} (m : ST poolhd A) (R : A → Prop) : Prop := ∀ s, swp m s (logged R s).
(** If it returns. *)
Definition plogs {A} (m : ST poolhd A) (R : A → Prop) : Prop := ∀ s, spwp m s (logged R s).

Lemma logged_trans {A B} (R : A → Prop) (R' : B → Prop) s s1 s2 a b :
  logged R s a s1 → logged R' s1 b s2 → logged R' s b s2.
Proof. intros (_ & l & ->) (Hb & l' & ->). split; [done|]. by exists l'. Qed.

Lemma logs_plogs {A} (m : ST poolhd A) (R R' : A → Prop) : (∀ s, swp m s (λ a _, R a)) → plogs m R' → logs m (λ a, R a ∧ R' a).
Proof.
  intros H1 H2 s. eapply swp_mono; [by apply (swp_conj _ _ _ _ (H1 s) (H2 s))|]. intros a s' (Ha & Hb & Hl). by split.
Qed.
Lemma logs_mono {A} (m : ST poolhd A) (R R' : A → Prop) : logs m R → (∀ a, R a → R' a) → logs m R'.
Proof. intros H HR s. eapply swp_mono; [apply H|]. intros a s' [Ha Hl]. split; auto. Qed.
Lemma logs_partial {A} (m : ST poolhd A) R : logs m R → plogs m R.
Proof. intros H s. by apply wp_pwp, H. Qed.

Lemma logs_bind {A B} (m : ST poolhd A) (f : A → ST poolhd B) R R' :
  logs m R → (∀ a, R a → logs (f a) R') → logs (m ≫= f) R'.
Proof.
  intros Hm Hf s. sstep. eapply swp_mono; [apply Hm|]. intros a s1 H1. eapply swp_mono; [by apply Hf, H1|].
  intros b s2. by eapply logged_trans.
Qed.
Lemma logs_ret {A} (a : A) (R : A → Prop) : R a → logs (mret a) R.
Proof. intros Ha s. sstep. split; [done|]. exists (p_log s). by destruct s. Qed.
Lemma logs_lift {A} (c : comp A) (R : A → Prop) : wp c R → logs (lift c) R.
Proof. intros Hc s. sstep. eapply wp_mono; [exact Hc|]. intros a Ha. split; [done|]. exists (p_log s). by destruct s. Qed.

Lemma l_bind {A B} (m : ST poolhd A) (f : A → ST poolhd B) R R' :
  plogs m R → (∀ a, R a → plogs (f a) R') → plogs (m ≫= f) R'.
Proof.
  intros Hm Hf s. apply spwp_bind. eapply spwp_mono; [apply Hm|]. intros a s1 H1. eapply spwp_mono; [by apply Hf, H1|].
  intros b s2. by eapply logged_trans.
Qed.
Lemma l_ret {A} (a : A) (R : A → Prop) : R a → plogs (mret a) R.
Proof. intros Ha. by apply logs_partial, logs_ret. Qed.
Lemma l_lift {A} (c : comp A) (R : A → Prop) : pwp c R → plogs (lift c) R.
Proof. intros Hc s. apply spwp_lift. eapply pwp_mono; [exact Hc|]. intros a Ha. split; [done|]. exists (p_log s). by destruct s. Qed.
Lemma l_fail {A} e (R : A → Prop) : plogs (sfail e) R.
Proof. by intros s. Qed.
Lemma l_if {A} (b : bool) (m n : ST poolhd A) R : plogs m R → plogs n R → plogs (if b then m else n) R.
Proof. by destruct b. Qed.

Section wire.
Context (prm : params) (os : list call → answer) (Hsys : system_ok prm os).

Lemma logs_send fd d : logs (send os fd d) (λ _, True).
Proof. intros s. cbn. split; [done|]. by eexists. Qed.
Lemma l_kcall c : plogs (kcall os c) (λ a, bytes_wf (a_data a) ∧ bytes_wf (a_addr a)).
Proof. intros s. cbn. split; [by apply (sy_bytes _ _ Hsys)|by eexists]. Qed.

(** * The parsers *)

Lemma l_resolve buff p len a type : bytes_wf a → plogs (resolve prm os buff p len a type) (λ r, bytes_wf r.2).
Proof.
  intros Ha. unfold resolve. eapply l_bind; [apply l_lift, pwp_any|]. intros host _.
  eapply l_bind; [apply l_kcall|]. intros x [_ Hx]. apply l_if; [by apply l_ret|].
  eapply l_bind; [apply l_lift; by apply pwp_memcpy|]. intros b Hb. by apply l_ret.
Qed.

Lemma l_s5_get_addr b p n a type : bytes_wf b → bytes_wf a → plogs (s5_get_addr prm os b p n a type) (λ r, bytes_wf r.2).
Proof.
  intros Hb Ha. unfold s5_get_addr. apply l_if; [by apply l_ret|].
  eapply l_bind; [apply l_lift, pwp_any|]. intros atp _. eapply l_bind; [apply l_lift, pwp_any|]. intros len _. cbv zeta.
  apply l_if; [by apply l_ret|]. eapply (l_bind _ _ (λ r, bytes_wf r.2)).
  - apply l_if; [|apply l_if; [|apply l_if]].
    + eapply l_bind; [by apply l_lift, pwp_rds|]. intros ip Hip. apply l_ret. cbn. wf.
    + apply l_if; [by apply l_ret|]. apply l_if; [by apply l_ret|].
      eapply l_bind; [by apply l_resolve|]. intros [r x] Hx. by apply l_ret.
    + apply l_if; [by apply l_ret|]. eapply l_bind; [by apply l_lift, pwp_rds|]. intros ip Hip. apply l_ret. cbn. wf.
    + by apply l_ret.
  - intros [err x] Hx. cbn [snd] in Hx. apply l_if; [by apply l_ret|].
    eapply l_bind; [by apply l_lift, pwp_rds|]. intros port Hport. apply l_ret. cbn. wf.
Qed.

Lemma l_s4_get_addr b n a : bytes_wf b → bytes_wf a → plogs (s4_get_addr prm os b n a) (λ r, bytes_wf r.2).
Proof.
  intros Hb Ha. unfold s4_get_addr. apply l_if; [by apply l_ret|].
  eapply l_bind; [apply l_lift, pwp_any|]. intros cmd _. apply l_if; [by apply l_ret|].
  eapply l_bind; [by apply l_lift, pwp_rds|]. intros ip Hip. eapply l_bind; [by apply l_lift, pwp_rds|]. intros port Hport.
  eapply (l_bind _ _ (λ r, bytes_wf r.2)).
  - apply l_if; [|apply l_ret; cbn; wf]. eapply l_bind; [apply l_lift, pwp_any|]. intros last _.
    apply l_if; [by apply l_ret|]. eapply l_bind; [apply l_lift, pwp_any|]. intros [q|] _; [|apply l_fail]. cbv zeta.
    apply l_if; [by apply l_ret|]. eapply l_bind; [by apply l_resolve|]. intros [r x] Hx. by apply l_ret.
  - intros [err x] Hx. cbn [snd] in Hx. apply l_if; [by apply l_ret|]. apply l_ret. cbn. wf.
Qed.

Definition addr_in (r : Z * bytes) : Prop := addr_ok r.2.

Lemma s5_addr_in b n a type : bytes_wf b → n <= blen b → addr_ok a → (S_SIZE_MIN <= n → known_type b) →
  logs (s5_get_addr prm os b 0 n a type) (λ r, addr_in r ∧ (r.1 < 0 ∨ S_SIZE_MIN < r.1 <= n)).
Proof.
  intros Hb Hn [Ha1 Ha2] Hk. destruct (Z.ltb_spec n S_SIZE_MIN) as [Hs|Hs].
  { unfold s5_get_addr. rewrite (proj2 (Z.ltb_lt _ _) Hs). apply logs_ret. split; [by split|left]. cbn. unfold S_ER_GEN. lia. }
  specialize (Hk Hs). eapply logs_mono; [apply (logs_plogs _ (λ r, blen r.2 = sa_len ∧ (r.1 < 0 ∨ S_SIZE_MIN < r.1 <= n)));
    [|by apply l_s5_get_addr]|].
  - intros s. eapply swp_mono; [by apply s5_get_addr_ok; [apply (sy_resolve _ _ Hsys)|..]|].
    intros r _ (H1 & H2). split; [done|]. naive_solver.
  - intros r [[H1 H2] H3]. by repeat split.
Qed.
Lemma s4_addr_in b n a : bytes_wf b → n <= blen b → addr_ok a → logs (s4_get_addr prm os b n a) addr_in.
Proof.
  intros Hb Hn [Ha1 Ha2]. eapply logs_mono; [apply (logs_plogs _ (λ r, blen r.2 = sa_len)); [|by apply l_s4_get_addr]|].
  - intros s. eapply swp_mono; [by apply s4_get_addr_ok; [apply (sy_resolve _ _ Hsys)|..]|]. by intros r s' [H _].
  - intros r [H1 H2]. by split.
Qed.
Lemma resolve_addr_in buff p len a type : 0 <= p → 0 <= len → p + len <= blen buff → addr_ok a →
  logs (resolve prm os buff p len a type) addr_in.
Proof.
  intros Hp Hl Hb [Ha1 Ha2]. eapply logs_mono; [apply (logs_plogs _ (λ r, blen r.2 = sa_len)); [|by apply l_resolve]|].
  - intros s. eapply swp_mono; [by apply resolve_ok; [apply (sy_resolve _ _ Hsys)|..]|]. by intros r s' (_ & H & _).
  - intros r [H1 H2]. by split.
Qed.

Lemma http_addr_in b n a : n <= blen b → addr_ok a → logs (http_get_addr prm os b n a) addr_in.
Proof.
  intros Hn Ha. unfold http_get_addr. eapply logs_bind; [apply logs_lift; apply wp_parse_http; [done|intros r Hr; exact Hr]|].
  intros h Hh. cbv zeta. destruct (Z.ltb_spec (hh_len h) 3); cbn [orb]; [by apply logs_ret|].
  destruct (Z.ltb_spec 255 (hh_len h)); [by apply logs_ret|]. unfold host_in in Hh.
  destruct (hh_hs h) as [o|]; [|lia]. destruct Hh as (q & e & Hf & ? & ? & ? & ? & ? & _).
  assert (0 <= q) by apply Hf. eapply logs_bind; [apply resolve_addr_in; [lia..|done]|].
  intros [r x] Hx. destruct (negb _); [by apply logs_ret|]. apply logs_ret. apply addr_ok_port; [done|apply wf_htons|done].
Qed.
Lemma tls_addr_in b n a : bytes_wf b → n <= blen b → addr_ok a → logs (tls_get_addr prm os b n a) addr_in.
Proof.
  intros Hb Hn Ha. unfold tls_get_addr. eapply logs_bind; [apply logs_lift; apply wp_parse_tls; [done|done|intros r Hr; exact Hr]|].
  intros [len hs] Hh. destruct (Z.ltb_spec len 3); cbn [orb]; [by apply logs_ret|].
  destruct (Z.ltb_spec 255 len); [by apply logs_ret|]. unfold name_in in Hh. destruct hs as [o|]; [|lia].
  eapply (logs_bind _ _ addr_in); [destruct (pr_resolve prm); [apply resolve_addr_in; [lia..|done]|by apply logs_ret]|].
  intros [r x] Hx. destruct (negb _); [by apply logs_ret|]. apply logs_ret. apply addr_ok_port; [done|apply wf_htons|done].
Qed.

Lemma logs_auth fd b n : n <= blen b → logs (auth_socks5 os fd b n) (λ _, True).
Proof.
  intros Hn s. destruct (Z.le_gt_cases n 2).
  - unfold auth_socks5. destruct (Z.leb_spec n 2); [|lia]. sstep. split; [done|]. exists (p_log s). by destruct s.
  - unfold swp. rewrite auth_socks5_ok by lia. destruct (_ =? _).
    + split; [done|by eexists].
    + split; [done|]. exists (p_log s). by destruct s.
Qed.
End wire.
