(* ===== verification/Hooks.v ===== *)
(** The pool, the cache, the triggers and the hooks on data (extend.c) under the invariant of
    the event loop ([Session.winv]): none of them goes wrong, and all keep it. *)
From Stdlib Require Import ZArith Lia Ascii String.
From stdpp Require Import base numbers list option sorting sets.
From S2P Require Import Prelude CMem PacketsTls PacketsHttp Mpool Params Desync DList Conev Socks Extend World TlsTrack Groups Cache Requests Engine Session.

#[local] Open Scope Z_scope.
#[local] Open Scope list_scope.

(** The free list that [buff_push] leaves. *)
Definition pushed_list (o : option buffer) (s : poolhd) : list buffer :=
  match o with
  | Some b => if MAX_BUFF_INP <=? p_buff_count s then p_root_buff s
              else set_b_lock 0 (set_b_offset 0 b) :: p_root_buff s
  | None => p_root_buff s
  end.
Lemma buff_push_run o s : buff_push o s = Ok (tt,
  set_p_buff_count (p_buff_count s + Z.of_nat (length (pushed_list o s)) - Z.of_nat (length (p_root_buff s)))
    (set_p_root_buff (pushed_list o s) s)).
Proof.
  assert (Hn : ∀ n k : Z, n + k - k = n) by lia.
  assert (Hs : ∀ n k : Z, n + Z.succ k - k = n + 1) by lia.
  unfold buff_push, pushed_list. destruct s as [? ? ? ? ? ? ? ? ? root n ?], o as [b|]; cbn -[Z.of_nat Z.add Z.sub].
  - cbv [mbind st_bind comp_bind gets]. cbn -[Z.of_nat Z.add Z.sub]. destruct (_ <=? _); cbn [length].
    + by rewrite Hn.
    + by rewrite Nat2Z.inj_succ, Hs.
  - by rewrite Hn.
Qed.

(** Another list of free buffers in a pool in order. *)
Lemma frees_wf s T rb n : pool_wf s T → n = Z.of_nat (length rb) → n <= MAX_BUFF_INP →
  pool_wf (set_p_buff_count n (set_p_root_buff rb s)) T.
Proof.
  intros [] Hn Hm. split; try done; [|by apply (timers_ext s)]. intros i v Hi Hv.
  destruct (wf_live i v Hi Hv) as (ev & pe & ? & ? & []). exists ev, pe. by split_and!.
Qed.

(** New timers on a pool in order. *)
Lemma retimed_wf s s' T T' : pool_wf s T → same_but_timers s s' → timers s' T' → Forall (live s) T' →
  (∀ w, live s w → w ∉ T' → no_links (p_items s') w) → pool_wf s' T'.
Proof.
  intros Hwf Hs Ht Hl Hn. pose proof (same_length _ _ Hs) as Hlen. pose proof (steady_timers _ _ Hs) as Hst.
  rewrite (same_eta _ _ Hs) in *. destruct Hwf as [H1 H2 H3 H4 H5 H6 H7 H8 H9 H10 H11 H12].
  assert (Hf : ∀ v e, p_items s' !! v = Some e → ∃ e0, p_items s !! v = Some e0 ∧ strip e = strip e0).
  { intros v e E. destruct (lookup_lt_is_Some_2 (p_items s) v) as [e0 E0].
    { rewrite <- Hlen. by eapply lookup_lt_Some. }
    destruct (same_items _ _ v e0 Hs E0) as (e' & E' & Hse). exists e0. cbn in E'. rewrite E in E'. by injection E' as ->. }
  split; try done; cbn [p_items p_links p_max p_pevents p_count set_p_items set_p_tv_start set_p_tv_end].
  - cbn in Hlen. by rewrite Hlen.
  - cbn in Hlen. by rewrite Hlen.
  - intros i v Hi Hv. destruct (H7 i v Hi Hv) as (e & pe & E & Ep & [O1 O2 O3 O4]).
    destruct (same_items _ _ v e Hs E) as (e' & E' & Hse). cbn in E'. exists e', pe. split_and!; [done|done|].
    pose proof (f_equal (λ x, (ev_index x, ev_fd x, ev_mod_iter x)) Hse) as F. cbn in F. injection F as F1 F2 F3.
    split; cbn; congruence.
  - intros v e w Hv E Ew. destruct (Hf v e E) as (e0 & E0 & Hse). apply (f_equal ev_pair) in Hse. cbn in Hse.
    destruct (H11 v e0 w Hv E0) as [|(x & Ex & Hx1 & Hx2)]; [congruence|by left|right].
    destruct (same_items _ _ w x Hs Ex) as (x' & Ex' & Hsx). cbn in Ex'.
    pose proof (f_equal (λ x, (ev_fd x, ev_mod_iter x)) Hsx) as F. cbn in F. injection F as F1 F2.
    exists x'. split_and!; [done|congruence|cbn; congruence].
Qed.

Lemma timers_few s T : pool_wf s T → Z.of_nat (length T) <= p_count s.
Proof.
  intros Hwf. pose proof (wf_count _ _ Hwf) as Hc. pose proof (wf_links _ _ Hwf) as Hl.
  assert (length T <= length (take (Z.to_nat (p_count s)) (p_links s)))%nat; [|rewrite length_take in *; lia].
  apply submseteq_length, NoDup_submseteq; [by apply (wf_timers _ _ Hwf)|]. intros v Hv.
  pose proof (wf_timers_live _ _ Hwf) as HT. rewrite Forall_forall in HT. destruct (HT v Hv) as (i & Hi & E).
  apply (list_elem_of_lookup_2 _ i). by rewrite lookup_take_lt by lia.
Qed.

(** * What the hooks keep *)

(** The marks in the buffer of a connection. *)
Definition marks_of (e : eval) : option (Z * Z) := (λ b, (b_offset b, b_lock b)) <$> ev_buff e.
Definition marks_at (w : world) (v : nat) : option (Z * Z) := p_items (w_pool w) !! v ≫= marks_of.

(** The sessions stay, and the marks. *)
Definition wkept (w w' : world) : Prop := wkeeps w w' ∧ ∀ v, marks_at w' v = marks_at w v.

#[export] Instance wkept_preorder : PreOrder wkept.
Proof. split; [by intros w|]. intros a b c [H1 E1] [H2 E2]. split; [by etrans|congruence]. Qed.

Lemma calm_kept w w' : calm w w' → wkept w w'.
Proof. intros H. split; [by apply calm_keeps|]. intros v. unfold marks_at. by rewrite (cl_items _ _ H). Qed.
Lemma quiet_kept w w' : quiet w w' → wkept w w'.
Proof. intros [H _]. by apply calm_kept. Qed.
Lemma marks_core e e' : core e' = core e → marks_of e' = marks_of e.
Proof. intros H. apply (f_equal ev_buff) in H. unfold marks_of. cbn in H. by rewrite H. Qed.
Lemma steady_kept w w' : steady (w_pool w) (w_pool w') → wkept w w'.
Proof.
  intros Hs. split; [by apply steady_keeps|]. intros v. unfold marks_at.
  destruct (p_items (w_pool w') !! v) as [e'|] eqn:E'.
  - destruct (st_back _ _ Hs v e' E') as (e & E & Hc). rewrite E. cbn. by apply marks_core.
  - destruct (p_items (w_pool w) !! v) as [e|] eqn:E; [|done]. destruct (st_items _ _ Hs v e E) as (? & ? & _). congruence.
Qed.
Lemma kept_live w w' v : wkept w w' → livew w v → livew w' v.
Proof. intros [H _]. by apply keeps_live. Qed.
Lemma kept_item w w' v e : wkept w w' → client_at w v e → ∃ e', client_at w' v e' ∧ like e e'.
Proof. intros [[_ K] _] E. by apply K. Qed.
Lemma kept_marks w w' v m : wkept w w' → marks_at w v = m → marks_at w' v = m.
Proof. intros [_ H] <-. apply H. Qed.

(** The client [c] is tied to its server [v]. *)
Definition tied_at (w : world) (c v : nat) : Prop :=
  livew w c ∧ livew w v ∧ ∃ ce ve, client_at w c ce ∧ client_at w v ve ∧ ev_pair ce = Some v ∧ ev_pair ve = Some c ∧
    c_flag (ev_conn ce) ≠ FLAG_CONN ∧ c_flag (ev_conn ve) = FLAG_CONN ∧ c_dp (ev_conn ce) = Some 0%nat.

Lemma tied_keeps w w' c v : wkeeps w w' → tied_at w c v → tied_at w' c v.
Proof.
  intros [K1 K2] (H1 & H2 & ce & ve & E1 & E2 & P1 & P2 & F1 & F2 & D).
  destruct (K2 c ce E1) as (ce' & E1' & L1 & L2 & L3 & L4 & L5). destruct (K2 v ve E2) as (ve' & E2' & M1 & M2 & M3 & M4 & M5).
  split_and!; [by apply K1..|]. exists ce', ve'. rewrite L2, L3, M2, M3. split_and!; auto.
Qed.
Lemma tied_kept w w' c v : wkept w w' → tied_at w c v → tied_at w' c v.
Proof. intros [H _]. by apply tied_keeps. Qed.

(** A client with no server yet. *)
Definition lone_at (w : world) (x : nat) : Prop :=
  livew w x ∧ ∃ e, client_at w x e ∧ ev_pair e = None ∧ c_flag (ev_conn e) ≠ FLAG_CONN.
Lemma lone_kept w w' x : wkept w w' → lone_at w x → lone_at w' x.
Proof.
  intros [[K1 K2] _] (H & e & E & P & F). destruct (K2 x e E) as (e' & E' & L1 & L2 & L3 & _).
  split; [by apply K1|]. exists e'. rewrite L2, L3. by split_and!.
Qed.

(** One that reads from a stream. *)
Definition party (w : world) (x : nat) : Prop := (∃ c v, tied_at w c v ∧ (x = c ∨ x = v)) ∨ lone_at w x.
Lemma party_kept w w' x : wkept w w' → party w x → party w' x.
Proof.
  intros K [(c & v & H & Hx)|H]; [left; exists c, v; split; [by eapply tied_kept|done]|right; by eapply lone_kept].
Qed.
Lemma party_live w x : party w x → livew w x.
Proof. intros [(c & v & (Hc & Hv & _) & [-> | ->])|[H _]]; done. Qed.

(** The three connections of an association over UDP. *)
Definition assoc_at (w : world) (t u r : nat) : Prop :=
  livew w t ∧ livew w u ∧ livew w r ∧ ∃ te ue re, client_at w t te ∧ client_at w u ue ∧ client_at w r re ∧
    ev_pair te = Some u ∧ ev_pair ue = Some r ∧ ev_pair re = Some t ∧
    c_flag (ev_conn te) ≠ FLAG_CONN ∧ c_flag (ev_conn ue) = FLAG_CONN ∧ c_flag (ev_conn re) ≠ FLAG_CONN.
Lemma assoc_keeps w w' t u r : wkeeps w w' → assoc_at w t u r → assoc_at w' t u r.
Proof.
  intros [K1 K2] (H1 & H2 & H3 & te & ue & re & E1 & E2 & E3 & P1 & P2 & P3 & F1 & F2 & F3).
  destruct (K2 t te E1) as (te' & E1' & L1 & L2 & L3 & _). destruct (K2 u ue E2) as (ue' & E2' & M1 & M2 & M3 & _).
  destruct (K2 r re E3) as (re' & E3' & N1 & N2 & N3 & _).
  split_and!; [by apply K1..|]. exists te', ue', re'. rewrite L2, L3, M2, M3, N2, N3. by split_and!.
Qed.
Lemma assoc_kept w w' t u r : wkept w w' → assoc_at w t u r → assoc_at w' t u r.
Proof. intros [H _]. by apply assoc_keeps. Qed.

(** The buffer of [v] may change. *)
Definition but (v : nat) (w w' : world) : Prop := wkeeps w w' ∧ ∀ x, x ≠ v → marks_at w' x = marks_at w x.
#[export] Instance but_preorder v : PreOrder (but v).
Proof.
  split; [by intros w|]. intros a b c [H1 E1] [H2 E2]. split; [by etrans|]. intros x Hx. by rewrite E2, E1.
Qed.
Lemma kept_but v w w' : wkept w w' → but v w w'.
Proof. intros [H E]. split; auto. Qed.

(** Facts move to a world that keeps them. *)
Ltac carry K :=
  let w := match type of K with wkept ?w _ => w end in
  repeat match goal with
  | H : livew w _ |- _ => apply (kept_live _ _ _ K) in H
  | H : tied_at w _ _ |- _ => apply (tied_kept _ _ _ _ K) in H
  | H : lone_at w _ |- _ => apply (lone_kept _ _ _ K) in H
  | H : party w _ |- _ => apply (party_kept _ _ _ K) in H
  | H : assoc_at w _ _ _ |- _ => apply (assoc_kept _ _ _ _ _ K) in H
  | H : marks_at w _ = _ |- _ => apply (kept_marks _ _ _ _ K) in H
  end.

Section hooks.
Context (prm : params) (g0 : desync_params) (Z0 : list nat) (N offs : Z) (C : mphdr → Prop).

Abbreviation winv := (winv prm g0 Z0 N offs C).
Abbreviation conn_ok := (conn_ok prm).
Abbreviation buf_ok := (buf_ok prm).
Abbreviation free_ok := (free_ok prm).

(** * Buffers *)

Lemma buff_push_ok o w : winv w → (∀ b, o = Some b → buf_ok b) →
  swp (on_pool (buff_push o)) w (λ _ w', winv w' ∧ calm w w').
Proof.
  intros Hw Ho. apply swp_on_pool. unfold swp. rewrite buff_push_run.
  apply wp_ok. split; [|done]. pose proof (pi_root (wi_pool Hw)) as Hr.
  destruct (pi_wf (wi_pool Hw)) as (T & Hwf & Hsv). pose proof (wf_buffs _ _ Hwf) as [B1 B2].
  apply (winv_steady _ _ _ _ _ _ w); try done; [by apply calm_steady| |].
  - exists T. split; [|done]. apply frees_wf; [done|lia|]. unfold pushed_list. destruct o; [|lia].
    destruct (Z.leb_spec MAX_BUFF_INP (p_buff_count (w_pool w))); cbn [length]; lia.
  - cbn [p_root_buff set_p_buff_count set_p_root_buff w_pool set_w_pool]. unfold pushed_list. destruct o as [b|]; [|done].
    destruct (_ <=? _); [done|]. constructor; [|done]. destruct (Ho b eq_refl). by split_and!.
Qed.

Context (Hcfg : config_ok prm g0).

Context (junk : Z → bytes) (Hjunk : ∀ n, 0 <= n → blen (junk n) = n ∧ bytes_wf (junk n)).

Lemma buff_pop_ok w : winv w →
  swp (on_pool (buff_pop junk (pr_bfsize prm))) w (λ b w', free_ok b ∧ winv w' ∧ calm w w').
Proof.
  intros Hw. apply swp_on_pool. unfold buff_pop. sstep. sstep. pose proof (pi_root (wi_pool Hw)) as Hr.
  destruct (p_root_buff (w_pool w)) as [|b root] eqn:E.
  - sstep. split; [|split; [by destruct w|by destruct w]]. destruct (Hjunk (pr_bfsize prm)); [destruct (cf_size _ _ Hcfg); unfold S_SIZE_I6 in *; lia|].
    by split_and!.
  - apply Forall_cons in Hr as [Hb Hr]. sstep. sstep. sstep. split; [done|]. split; [|done].
    apply (winv_steady _ _ _ _ _ _ w); try done; [by apply calm_steady|].
    destruct (pi_wf (wi_pool Hw)) as (T & Hwf & Hsv). exists T. split; [|done]. pose proof (wf_buffs _ _ Hwf) as [B1 B2].
    rewrite E in B1. cbn [length] in B1. apply frees_wf; [done|lia..].
Qed.

(** * Timers *)

(** Timers move, nothing else. *)
Definition retimed (w w' : world) : Prop :=
  steady (w_pool w) (w_pool w') ∧ p_root_buff (w_pool w') = p_root_buff (w_pool w).

Lemma retimed_at w w' v e : retimed w w' → client_at w v e → ∃ e', client_at w' v e' ∧ core e' = core e.
Proof. intros [[] _] E. by apply st_items. Qed.
Lemma retimed_keeps w w' : retimed w w' → wkeeps w w'.
Proof. intros [H _]. by apply steady_keeps. Qed.

Lemma retimed_winv w s' T T' : winv w → pool_wf (w_pool w) T → same_but_timers (w_pool w) s' → timers s' T' →
  Forall (live (w_pool w)) T' → Forall (server (w_pool w)) T' → (∀ v, live (w_pool w) v → v ∉ T' → no_links (p_items s') v) →
  winv (set_w_pool s' w) ∧ retimed w (set_w_pool s' w).
Proof.
  intros Hw Hwf Hs Ht Hl Hsv Hn. assert (Hr : p_root_buff s' = p_root_buff (w_pool w)) by (by rewrite (same_eta _ _ Hs)).
  assert (Hst : steady (w_pool w) s') by (by apply steady_timers). split; [|by split].
  apply (winv_steady _ _ _ _ _ _ w); try done; [|cbn; rewrite Hr; apply Hw].
  exists T'. split; [by eapply retimed_wf|done].
Qed.

Lemma remove_timer_run v w : winv w → livew w v →
  swp (on_pool (remove_timer v)) w (λ _ w', winv w' ∧ retimed w w').
Proof.
  intros Hw Hv. apply swp_on_pool. destruct (pi_wf (wi_pool Hw)) as (T & Hwf & Hsv).
  eapply swp_mono; [apply (remove_timer_ok _ T v); [apply Hwf|]|].
  { destruct (decide (v ∈ T)); [by left|right]. by apply (wf_others _ _ Hwf). }
  intros _ s' (Ht & Hs & Hn & _ & Ho). eapply retimed_winv; [done|exact Hwf|done|exact Ht| | |].
  - apply Forall_forall. intros x [Hx _]%in_others. pose proof (wf_timers_live _ _ Hwf) as HT.
    rewrite Forall_forall in HT. by apply HT.
  - apply Forall_forall. intros x [Hx _]%in_others. rewrite Forall_forall in Hsv. by apply Hsv.
  - intros x Hx Hx'. destruct (decide (x = v)) as [->|Hxv]; [done|].
    assert (x ∉ T) by (intros H; apply Hx', in_others; done).
    eapply no_links_ext; [|by apply (wf_others _ _ Hwf x)]. by rewrite Ho.
Qed.

Context (os : list call → answer) (fuel : nat).
Context (Hsys : system_ok prm os) (Hfuel : 4 * pr_max_open prm + 10 <= Z.of_nat fuel).

Lemma set_timer_run v ms w : winv w → livew w v → server (w_pool w) v → ms = pr_ptimeout prm ∨ ms = pr_await_int prm →
  swp (on_pool (set_timer os v ms fuel)) w (λ _ w', winv w' ∧ retimed w w').
Proof.
  intros Hw Hv Hsrv Hms. apply swp_on_pool. pose proof (wi_pool Hw) as Hp.
  destruct (pi_wf Hp) as (T & Hwf & Hsv).
  destruct (live_lookup _ T v Hwf Hv) as (_ & e & _ & _ & _ & E & _).
  destruct (decide (ev_tv_ms e = 0)) as [Hz|Hz].
  2: { unfold set_timer. sstep. eapply swp_item; [exact E|]. rewrite (proj2 (Z.eqb_neq _ _) Hz). cbn [negb]. sstep.
       split; [by destruct w|split; [by destruct w|done]]. }
  assert (HvT : v ∉ T).
  { intros H. pose proof (tm_set _ _ (wf_timers _ _ Hwf)) as Hset. rewrite Forall_forall in Hset.
    apply (Hset v H). unfold tvms. by rewrite E. }
  set (s1 := set_p_log (p_log (w_pool w) ++ [KTimeMs]) (w_pool w)).
  assert (Hwf1 : pool_wf s1 T) by (by apply log_wf).
  eapply swp_mono; [apply (set_timer_ok os (w_pool w) T v e); [apply Hwf|done..| |]|].
  - by apply (sy_clock _ _ Hsys).
  - pose proof (timers_few _ _ Hwf). pose proof (wf_count _ _ Hwf). rewrite (pi_max Hp) in *. lia.
  - intros _ s' (L1 & L2 & ET & Ht & Hs & _ & Ho). destruct (winv_log prm g0 Z0 N offs C w (p_log (w_pool w) ++ [KTimeMs]) Hw) as [Hw1 Hq1].
    destruct (retimed_winv (with_log (p_log (w_pool w) ++ [KTimeMs]) w) s' T (L1 ++ v :: L2)) as [Hw2 Hr2]; try done.
    + apply Forall_forall. intros x Hx. assert (x ∈ T ∨ x = v) as [HxT| ->]; [set_solver| |done].
      pose proof (wf_timers_live _ _ Hwf1) as HT. rewrite Forall_forall in HT. by apply HT.
    + apply Forall_forall. intros x Hx. assert (x ∈ T ∨ x = v) as [HxT| ->]; [set_solver| |done].
      rewrite Forall_forall in Hsv. by apply Hsv.
    + intros x Hx Hx'. eapply no_links_ext; [|apply (wf_others _ _ Hwf x); [done|set_solver]].
      rewrite Ho; [done|set_solver|set_solver].
    + split; [exact Hw2|]. destruct Hr2 as [Hs2 Hr2]. split; [|done].
      etrans; [|exact Hs2]. by apply calm_steady.
Qed.

(** * Good runs *)

(** A result with [R], the invariant, and what the hooks keep. *)
Definition good {A} (w : world) (R : A → Prop) (a : A) (w' : world) : Prop := R a ∧ winv w' ∧ wkept w w'.

Lemma g_ret {A} (a : A) w (R : A → Prop) : winv w → R a → swp (mret a) w (good w R).
Proof. intros Hw Ha. sstep. by split_and!. Qed.
Lemma g_bind {A B} (m : ST world A) (f : A → ST world B) w R R' : swp m w (good w R) →
  (∀ a w', R a → winv w' → wkept w w' → swp (f a) w' (good w' R')) → swp (m ≫= f) w (good w R').
Proof.
  intros Hm Hf. sstep. eapply swp_mono; [exact Hm|]. intros a w1 (Ha & H1 & K1).
  eapply swp_mono; [by apply Hf|]. intros b w2 (Hb & H2 & K2). split_and!; [done..|by etrans].
Qed.
Lemma g_mono {A} (m : ST world A) w (R R' : A → Prop) : swp m w (good w R) → (∀ a, R a → R' a) → swp m w (good w R').
Proof. intros Hm H. eapply swp_mono; [exact Hm|]. intros a w' (Ha & ?). split; auto. Qed.
Lemma g_quiet {A} (m : ST world A) w (R : A → Prop) : winv w → quietly prm g0 Z0 N offs C m R → swp m w (good w R).
Proof.
  intros Hw H. eapply swp_mono; [by apply H|]. intros a w' (Ha & H1 & Q). split_and!; [done..|by apply quiet_kept].
Qed.
Lemma g_retimed {A} (m : ST world A) w : swp m w (λ _ w', winv w' ∧ retimed w w') → swp m w (good w (λ _, True)).
Proof. intros H. eapply swp_mono; [exact H|]. intros a w' (H1 & Hr & _). split_and!; [done..|by apply steady_kept]. Qed.

(** The run goes on from a world that keeps all. *)
Lemma g_on {A} (m : ST world A) w w' (R : A → Prop) : wkept w w' → swp m w' (good w' R) → swp m w' (good w R).
Proof. intros K H. eapply swp_mono; [exact H|]. intros a w2 (Ha & H2 & K2). split_and!; [done..|by etrans]. Qed.

(** An assignment through a pointer, that the sessions do not see. *)
Lemma kept_upd w v f e : winv w → livew w v → client_at w v e → pool_same f → like e (f e) → conn_ok (f e) →
  marks_of (f e) = marks_of e → winv (with_eval w v f) ∧ wkept w (with_eval w v f).
Proof.
  intros Hw Hv E Hf Hl Hc Hm.
  destruct (winv_upd _ _ _ _ _ _ w v f e Hw Hv E Hf Hl Hc) as (H1 & H2 & H3).
  split; [done|]. split; [done|]. intros x. unfold marks_at. cbn. rewrite list_lookup_alter.
  case_decide as Hx; [|done]. subst x. unfold client_at in E. by rewrite E.
Qed.
Lemma g_upd w v f e : winv w → livew w v → client_at w v e → pool_same f → like e (f e) → conn_ok (f e) →
  marks_of (f e) = marks_of e → swp (upd v f) w (good w (λ _, True)).
Proof. intros Hw Hv E Hf Hl Hc Hm. eapply swp_upd_eval; [exact E|]. split; [done|]. by apply (kept_upd w v f e). Qed.

(** The fields of [ev_conn] that [conn_ok] is about. *)
Record fields_ok (c : conn) : Prop := {
  fo_addr : addr_ok (c_addr c);
  fo_dp : c_dp c = None ∨ c_dp c = Some 0%nat;
  fo_mask : in_mask prm (c_dp_mask c);
  fo_tls : tracker_wf (c_tls_rec c, c_tls_rec_pos c, c_tls_rec_size c)
}.
Lemma conn_fields e : conn_ok e → fields_ok (ev_conn e).
Proof. by intros []. Qed.
Lemma conn_ok_set e c : conn_ok e → fields_ok c → conn_ok (set_ev_conn c e).
Proof. by intros [] []. Qed.

Lemma kept_updc w v f e : winv w → livew w v → client_at w v e → fields_ok (f (ev_conn e)) →
  c_flag (f (ev_conn e)) = c_flag (ev_conn e) → c_after_conn_cb (f (ev_conn e)) = c_after_conn_cb (ev_conn e) →
  (c_dp (ev_conn e) = Some 0%nat → c_dp (f (ev_conn e)) = Some 0%nat) →
  let f' e := set_ev_conn (f (ev_conn e)) e in winv (with_eval w v f') ∧ wkept w (with_eval w v f').
Proof.
  intros Hw Hv E Hf H1 H2 H3 f'. apply (kept_upd w v _ e); try done.
  destruct (winv_item _ _ _ _ _ _ w v Hw Hv) as (x & E' & Hc & _). unfold client_at in *. simplify_eq. by apply conn_ok_set.
Qed.

Lemma g_updc w v f e : winv w → livew w v → client_at w v e → fields_ok (f (ev_conn e)) →
  c_flag (f (ev_conn e)) = c_flag (ev_conn e) → c_after_conn_cb (f (ev_conn e)) = c_after_conn_cb (ev_conn e) →
  (c_dp (ev_conn e) = Some 0%nat → c_dp (f (ev_conn e)) = Some 0%nat) →
  swp (updc v f) w (good w (λ _, True)).
Proof. intros Hw Hv E Hf H1 H2 H3. eapply swp_updc; [exact E|]. split; [done|]. by apply (kept_updc w v f e). Qed.

(** A counter or a flag of the protocol changes. *)
Definition plain_set (f : conn → conn) : Prop := ∀ c,
  c_addr (f c) = c_addr c ∧ c_dp (f c) = c_dp c ∧ c_dp_mask (f c) = c_dp_mask c ∧ c_tls_rec (f c) = c_tls_rec c ∧
  c_tls_rec_pos (f c) = c_tls_rec_pos c ∧ c_tls_rec_size (f c) = c_tls_rec_size c ∧
  c_flag (f c) = c_flag c ∧ c_after_conn_cb (f c) = c_after_conn_cb c.
Lemma plain_fields f c : plain_set f → fields_ok c → fields_ok (f c).
Proof. intros Hf []. destruct (Hf c) as (E1 & E2 & E3 & E4 & E5 & E6 & _). split; rewrite ?E1, ?E2, ?E3, ?E4, ?E5, ?E6; done. Qed.

Lemma g_updc_plain w v f : winv w → livew w v → plain_set f → swp (updc v f) w (good w (λ _, True)).
Proof.
  intros Hw Hv Hf. destruct (winv_item _ _ _ _ _ _ w v Hw Hv) as (e & E & Hc & _).
  destruct (Hf (ev_conn e)) as (_ & H2 & _ & _ & _ & _ & H3 & H4).
  apply (g_updc w v f e); try done; [by apply plain_fields, conn_fields|congruence].
Qed.

(** ** Reading *)

Lemma g_eval_at w v (P : eval → world → Prop) : winv w → livew w v →
  (∀ e, client_at w v e → conn_ok e → 0 < ev_fd e → P e w) → swp (eval_at v) w P.
Proof.
  intros Hw Hv HP. destruct (winv_item _ _ _ _ _ _ w v Hw Hv) as (e & E & Hc & Hf). eapply swp_eval_at; [exact E|]. by apply HP.
Qed.
Lemma g_conn_at w v (P : conn → world → Prop) : winv w → livew w v →
  (∀ e, client_at w v e → conn_ok e → P (ev_conn e) w) → swp (conn_at v) w P.
Proof. intros Hw Hv HP. unfold conn_at. sstep. eapply g_eval_at; [done..|]. intros e E Hc _. sstep. by apply HP. Qed.

Lemma q_send fd d : quietly prm g0 Z0 N offs C (on_pool (send os fd d)) (λ _, True).
Proof. apply q_pool. intros s. cbn. split; [done|]. by eexists. Qed.
Lemma q_set_timeout fd s : quietly prm g0 Z0 N offs C (set_timeout os fd s) (λ _, True).
Proof. eapply q_bind; [apply q_sysret|]. intros r _. by apply q_ret. Qed.

(** * The group *)

Lemma same_fields g : same_group g0 g →
  dp_prev g = None ∧ dp_next g = None ∧ dp_id g = dp_id g0 ∧ dp_bit g = dp_bit g0 ∧ dp_out_addr g = dp_out_addr g0.
Proof.
  intros H. pose proof (f_equal (λ g, (dp_prev g, dp_next g, dp_id g, dp_bit g, dp_out_addr g)) H) as E. cbn in E.
  injection E as -> -> -> -> ->. split_and!; try done; apply Hcfg.
Qed.

Lemma one_group w : winv w → groups w [0%nat] ∧ bits_ok w [0%nat] (pr_dp_full_mask prm).
Proof.
  intros Hw. destruct (wi_group Hw) as (g & E & Hg). destruct (same_fields g Hg) as (G1 & G2 & G3 & G4 & _).
  pose proof (cf_id _ _ Hcfg). pose proof (cf_bit _ _ Hcfg) as Hb. pose proof (cf_mask _ _ Hcfg) as Hm.
  split; split.
  - apply NoDup_singleton.
  - apply (wi_head Hw).
  - rewrite E. split; [|done]. by exists g.
  - intros i h ->%list_elem_of_singleton. rewrite E. cbn. intros [= <-]. rewrite G3, G4. done.
  - intros i j h h' ->%list_elem_of_singleton ->%list_elem_of_singleton. done.
  - intros k. rewrite Hm, Hb, Z.pow2_bits_eqb by done. rewrite Z.eqb_eq. split.
    + intros <-. exists 0%nat, g. rewrite E. split_and!; [by left|done|done].
    + intros (i & h & ->%list_elem_of_singleton & Eh & <-). rewrite E in Eh. cbn in Eh. by injection Eh as <-.
Qed.

Lemma fuel_pos : (2 < fuel)%nat.
Proof. pose proof (cf_open _ _ Hcfg). lia. Qed.

Lemma g_find_dp w v buff dst : winv w → livew w v →
  (∀ e, client_at w v e → buff_ok (request_of buff e)) →
  swp (find_dp prm fuel v buff dst) w (good w (λ r, r = None ∨ r = Some 0%nat)).
Proof.
  intros Hw Hv Hb. destruct (winv_item _ _ _ _ _ _ w v Hw Hv) as (e & E & Hc & _). destruct (one_group w Hw) as [Hg Hbits].
  eapply swp_mono; [apply (find_dp_ok prm fuel w [0%nat] v e buff dst); try done|].
  - by apply Hb.
  - intros i Hi. destruct (co_dp Hc) as [H|H]; rewrite H in Hi; [done|]. injection Hi as <-. by left.
  - by apply (co_mask Hc).
  - pose proof fuel_pos. cbn. lia.
  - intros r w' (m & -> & Hgr & Hr).
    assert (Hd : r = None ∨ r = Some 0%nat).
    { destruct r as [i|]; [|by left]. right. destruct Hr as (->%list_elem_of_singleton & _). done. }
    destruct (kept_updc w v (set_c_dp_mask m) e) as [H1 H2]; [done..| |done|done|done|by split_and!].
    destruct (conn_fields e Hc). split; try done. exact (gw_full _ _ _ _ _ _ _ Hgr).
Qed.

Lemma g_upd_group w f : winv w → (∀ g, settings (f g) = settings g) → swp (upd_group 0 f) w (good w (λ _, True)).
Proof. intros Hw Hf. eapply swp_upd_group0; [done..|]. intros w' H' Q. split_and!; [done..|by apply quiet_kept]. Qed.
End hooks.

(** * The cache *)

(** The cache while a trigger fills in its new element, of the shape [k]. *)
Definition filling (prm : params) (k : Z * bytes * Z) (hdr : mphdr) : Prop :=
  pool_ok bit_dom hdr ∧ mp_cmp_type hdr = CMP_BITS ∧
  Forall (λ e, (e_dp e = Some 0%nat ∧ in_mask prm (e_dp_mask e)) ∨ shape e = k) (pool_elems hdr).

Lemma with_elem_forall (Q : elem → Prop) f v hdr : (∀ x, Q x → Q (f x)) → Forall Q (pool_elems hdr) →
  Forall Q (pool_elems (with_elem f v hdr)).
Proof.
  intros Hf H. rewrite with_elem_elems, Forall_map. eapply Forall_impl; [exact H|]. intros x Hx.
  unfold at_elem. destruct (_ && _); auto.
Qed.

Lemma filling_upd prm k f v hdr : (∀ x, shape (f x) = shape x ∧ e_dp (f x) = e_dp x ∧ e_dp_mask (f x) = e_dp_mask x) →
  filling prm k hdr → filling prm k (with_elem f v hdr).
Proof.
  intros Hf (H1 & H2 & H3). split_and!; [apply with_elem_ok; [apply Hf|done]|done|].
  apply with_elem_forall; [|done]. intros x. destruct (Hf x) as (-> & -> & ->). done.
Qed.

(** The trigger sets the group of its element. *)
Lemma filling_done prm k v hdr mask det : in_mask prm mask → shape v = k → filling prm k hdr →
  cache_fine prm (with_elem (set_e_cache mask det (Some 0%nat)) v hdr).
Proof.
  intros Hm <- (H1 & H2 & H3). split_and!; [by apply with_elem_ok|done|].
  rewrite with_elem_elems, Forall_map. eapply Forall_impl; [exact H3|]. cbv beta. intros x [Hx|Hx].
  - unfold at_elem. by destruct (_ && _).
  - by rewrite at_elem_same.
Qed.

(** Whatever key is deleted. *)
Lemma mem_delete_fine prm hdr key n : cache_fine prm hdr → bit_dom (new_elem hdr key n) →
  wp (mem_delete hdr key n) (cache_fine prm).
Proof.
  intros (Hp & Ht & Hf) Hd. destruct Hp as [Ha Ho Hc Hty]. unfold mem_delete.
  destruct (kavl_erase_ok scmp (mp_root hdr) (new_elem hdr key n) Ha) as
    [(t & a & e & b & -> & Hat & _ & E1 & E2)|[-> _]]; [by apply (in_order_cuts scmp bit_dom bit_key)| |].
  2: { apply wp_bind, wp_ok, wp_ok. done. }
  apply wp_bind, wp_ok, wp_ok. fold (pool_elems hdr) in E1. rewrite E1 in *.
  apply Forall_app in Hf as [F1 F2], Hty as [Y1 Y2]. apply Forall_cons in F2 as [_ F2], Y2 as [_ Y2].
  split_and!; [|done|unfold pool_elems; cbn; rewrite E2; by apply Forall_app].
  split; unfold pool_elems; cbn [mp_root mp_count mp_cmp_type]; rewrite ?E2.
  - done.
  - by eapply in_order_remove.
  - rewrite Hc, !length_app. cbn [length]. lia.
  - by apply Forall_app.
Qed.

(** The key of an address. *)
Lemma key_dom hdr dst n : addr_ok dst → mp_cmp_type hdr = CMP_BITS → let '(key, len) := serialize_addr dst in
  n = len ∨ n = len * 8 → bit_dom (new_elem hdr key n) ∧ bit_dom (new_elem hdr (sub key 0 len) (len * 8)).
Proof.
  intros [Hl Hw] Ht. pose proof (serialize_ok dst Hw Hl) as H. destruct (serialize_addr dst) as [key len].
  destruct H as (Hkw & Hkl & Hn). intros Hc. split; (split; [exact Ht|]); cbn.
  - split; [done|]. destruct Hc as [-> | ->]; lia.
  - split; [by apply wf_sub|]. rewrite blen_sub; lia.
Qed.

Section caching.
Context (prm : params) (os : list call → answer) (g0 : desync_params) (Z0 : list nat) (N offs : Z).
Context (Hcfg : config_ok prm g0).
Abbreviation winv := (winv prm g0 Z0 N offs).
Abbreviation good := (good prm g0 Z0 N offs (cache_fine prm)).

Lemma winv_cache C C' w hdr : winv C w → C' hdr → winv C' (set_w_mempool hdr w).
Proof. intros []. by split. Qed.

Lemma kept_cache w hdr : wkept w (set_w_mempool hdr w).
Proof. by apply calm_kept. Qed.

Lemma g_cache_get w dst : winv (cache_fine prm) w → addr_ok dst →
  swp (cache_get os dst) w (good w (λ r, ∀ e, r = Some e → e_dp e = Some 0%nat ∧ in_mask prm (e_dp_mask e))).
Proof.
  intros Hw Hd. unfold cache_get. pose proof (wi_cache Hw) as Hfine. pose proof Hfine as (Hp & Ht & Hf).
  pose proof (key_dom (w_mempool w) dst) as Hk. destruct (serialize_addr dst) as [key len].
  sstep. sstep. destruct (Hk (len * 8) Hd Ht) as [Hk8 _]; [by right|].
  pose proof (mem_get_ok bit_dom bit_key _ _ _ Hp Hk8) as Hget.
  destruct (mem_get (w_mempool w) key (len * 8)) as [e|]; [|by apply g_ret].
  destruct Hget as [He _]. rewrite Forall_forall in Hf. pose proof (Hf e He) as [Edp Em].
  sstep. eapply swp_deref; [exact Edp|]. sstep. apply (swp_group0 _ _ _ _ _ _ w _ Hw). intros g Eg _.
  eapply g_bind; [apply g_quiet; [done|apply q_sysret]|]. intros t w1 _ H1 K1.
  destruct (_ && _); [|apply g_ret; [done|by intros x [= <-]]].
  sstep. sstep. destruct (Hk len Hd Ht) as [Hkl _]; [by left|].
  eapply wp_mono; [by apply (mem_delete_fine prm)|]. intros hdr Hh. sstep. sstep. sstep.
  split; [done|]. split; [by eapply winv_cache|apply kept_cache].
Qed.

(** What remains once the element [v] is in the cache: the time, and the host. *)
Lemma tag_filling w v t (host : option bytes) hdr : winv (cache_fine prm) w → filling prm (shape v) hdr →
  swp (upd_elem v (set_e_time t);;
    match e_extra v, host with
    | None, Some h => upd_elem v (set_e_extra (Some h));; mret (set_e_extra (Some h) (set_e_time t v), None)
    | _, _ => mret (set_e_time t v, host)
    end) (set_w_mempool hdr w) (λ r w', winv (filling prm (shape r.1)) w' ∧ wkept w w').
Proof.
  intros Hw Hh. sstep. apply swp_upd_elem.
  assert (H1 : filling prm (shape v) (with_elem (set_e_time t) v hdr)) by (by apply filling_upd).
  assert (Hend : swp (mret (set_e_time t v, host)) (set_w_mempool (with_elem (set_e_time t) v hdr) w)
    (λ r w', winv (filling prm (shape r.1)) w' ∧ wkept w w')).
  { sstep. split; [by eapply winv_cache|apply kept_cache]. }
  destruct (e_extra v) as [x|]; [exact Hend|]. destruct host as [h|]; [|exact Hend].
  sstep. apply swp_upd_elem. sstep. split; [|by apply calm_kept].
  apply (winv_cache (cache_fine prm) _ w); [done|]. cbn [w_mempool set_w_mempool].
  apply (filling_upd prm (shape v)); [done|exact H1].
Qed.

Lemma g_cache_add w dst host : winv (cache_fine prm) w → addr_ok dst →
  swp (cache_add prm os dst host) w (λ r w', winv (filling prm (shape r.1)) w' ∧ wkept w w').
Proof.
  intros Hw Hd. unfold cache_add. pose proof (λ hdr, key_dom hdr dst) as Hk. destruct (serialize_addr dst) as [key n].
  sstep. eapply swp_mono; [by apply (q_sysret prm os g0 Z0 N offs (cache_fine prm))|]. intros t w1 (_ & H1 & Q1).
  pose proof (quiet_kept _ _ Q1) as K1. pose proof (wi_cache H1) as (Hp & Ht & Hf).
  sstep. sstep. rewrite (cf_cache _ _ Hcfg). cbn [Z.eqb negb]. rewrite andb_false_r. sstep. apply wp_ok. sstep. sstep.
  destruct (Hk (w_mempool w1) (n * 8) Hd Ht) as [_ Hb]; [by right|].
  assert (Hend : ∀ v hdr, filling prm (shape v) hdr → swp (modify (set_w_mempool hdr);; upd_elem v (set_e_time t);;
    match e_extra v, host with
    | None, Some h => upd_elem v (set_e_extra (Some h));; mret (set_e_extra (Some h) (set_e_time t v), None)
    | _, _ => mret (set_e_time t v, host)
    end) w1 (λ r w', winv (filling prm (shape r.1)) w' ∧ wkept w w')).
  { intros v hdr Hv. sstep. sstep. eapply swp_mono; [by apply tag_filling|]. intros r w2 [H2 K2].
    split; [done|by etrans]. }
  assert (Hold : ∀ k l, Forall (λ e, e_dp e = Some 0%nat ∧ in_mask prm (e_dp_mask e)) l →
    Forall (λ e, (e_dp e = Some 0%nat ∧ in_mask prm (e_dp_mask e)) ∨ shape e = k) l).
  { intros k l H. eapply Forall_impl; [exact H|]. by left. }
  destruct (mem_add_ok bit_dom bit_key _ _ _ Hp Hb) as [(v & -> & _)|(hdr & a & b & -> & Hp' & Ht' & El & Eab & _)];
    apply wp_ok; apply Hend.
  - split_and!; [done..|]. by apply Hold.
  - split_and!; [done|congruence|]. rewrite El. apply Forall_app. rewrite Forall_cons.
    assert (Hab : Forall (λ e, e_dp e = Some 0%nat ∧ in_mask prm (e_dp_mask e)) (a ++ b)).
    { rewrite Eab. apply Forall_forall. intros e He. rewrite Forall_forall in Hf. apply Hf.
      rewrite list_elem_of_In, filter_In, <- list_elem_of_In in He. by destruct He. }
    apply Forall_app in Hab as [Ha Hb']. split_and!; [by apply Hold|by right|by apply Hold].
Qed.
End caching.

(** * Triggers *)

Section triggers.
Context (prm : params) (os : list call → answer) (junk : Z → bytes) (rand : nat → Z) (fuel : nat).
Context (g0 : desync_params) (Z0 : list nat) (N offs : Z).
Context (Hsys : system_ok prm os) (Hcfg : config_ok prm g0).
Context (Hjunk : ∀ n, 0 <= n → blen (junk n) = n ∧ bytes_wf (junk n)).
Context (Hfuel : 4 * pr_max_open prm + 10 <= Z.of_nat fuel).

Abbreviation winvC := (winv prm g0 Z0 N offs).
Abbreviation goodC := (good prm g0 Z0 N offs).
Abbreviation winv := (winvC (cache_fine prm)).
Abbreviation good := (goodC (cache_fine prm)).
Abbreviation conn_ok := (conn_ok prm).
Abbreviation buf_ok := (buf_ok prm).

Lemma group_mask g m : same_group g0 g → in_mask prm m → in_mask prm (Z.lor m (dp_bit g)).
Proof.
  intros Hg Hm k. destruct (same_fields _ _ Hcfg g Hg) as (_ & _ & _ & -> & _).
  rewrite Z.lor_spec, (cf_mask _ _ Hcfg). intros [H|H]%orb_prop; [|done]. rewrite <- (cf_mask _ _ Hcfg). by apply Hm.
Qed.
Lemma group_tried g m : same_group g0 g → has_bit (dp_bit g) (Z.lor m (dp_bit g)) = true.
Proof.
  intros Hg. destruct (same_fields _ _ Hcfg g Hg) as (_ & _ & _ & -> & _). rewrite (cf_bit _ _ Hcfg).
  pose proof (cf_id _ _ Hcfg). by rewrite has_bit_pow, testbit_lor_pow, Z.eqb_refl, orb_true_r.
Qed.

(** The only group was tried: there is no next one. *)
Lemma g_next_group C w c e type alive u g : winvC C w → livew w c → client_at w c e → same_group g0 g →
  c_dp_mask (ev_conn e) = Z.lor (c_dp_mask (ev_conn e)) (dp_bit g) →
  swp (sloop (next_group_body c type alive) fuel (Some 0%nat, u)) w (goodC C w (λ r, r.2 = None)).
Proof.
  intros Hw Hc E Hg Hm. pose proof (fuel_pos prm g0 Hcfg fuel Hfuel).
  destruct fuel as [|[|k]]; [lia..|]. apply swp_sloop_step. unfold next_group_body at 1.
  sstep. apply (swp_group0 _ _ _ _ _ _ w _ Hw). intros g' Eg Hg'.
  destruct (same_fields _ _ Hcfg g Hg) as (_ & _ & _ & B & _). destruct (same_fields _ _ Hcfg g' Hg') as (_ & Nx & _ & B' & _).
  sstep. eapply swp_conn_at; [exact E|]. destruct (_ && _); [by apply g_ret|].
  rewrite Hm, B, <- B', group_tried by done. cbn [negb andb].
  destruct (winv_item _ _ _ _ _ _ w c Hw Hc) as (x & E' & Hx & _). unfold client_at in *. rewrite E in E'. injection E' as <-.
  sstep. eapply swp_updc; [exact E|]. set (w1 := with_eval _ _ _).
  destruct (kept_updc prm g0 Z0 N offs C w c (λ c, set_c_dp_mask (Z.lor (c_dp_mask c) (dp_bit g')) c) e) as [H1 K1]; try done.
  { destruct (conn_fields _ e Hx). split; try done. by apply group_mask. }
  sstep. rewrite Nx. apply swp_sloop_step. unfold next_group_body. sstep. by split_and!.
Qed.

(** With one group of options a trigger marks the address in the cache, and no more. *)
Lemma g_on_trigger w c v type alive : winv w → tied_at w c v →
  swp (on_trigger prm os junk fuel type v alive) w (good w (λ r, r = -1)).
Proof.
  intros Hw Ht. pose proof Ht as (Hc & Hv & ce & ve & Ec & Ev & Pc & Pv & Fc & Fv & Dc). unfold on_trigger.
  sstep. eapply swp_eval_at; [exact Ev|]. sstep. eapply swp_deref; [exact Pv|]. sstep. eapply swp_eval_at; [exact Ec|].
  destruct (winv_item _ _ _ _ _ _ w v Hw Hv) as (ve' & E' & Hve & _). unfold client_at in E', Ev. rewrite Ev in E'. injection E' as <-.
  sstep. eapply swp_mono; [apply (g_cache_add prm os g0 Z0 N offs Hcfg w _ _ Hw), (co_addr Hve)|].
  intros [cache host] w1 [H1 K1]. cbn [fst] in H1. carry K1.
  set (C := filling prm (shape cache)) in *.
  (* the host, the counters and the mask of the client *)
  destruct (winv_item _ _ _ _ _ _ w1 c H1 Hc) as (e1 & E1 & X1 & _).
  sstep. eapply swp_mono; [apply (g_upd prm g0 Z0 N offs C w1 c _ e1); try done|].
  { destruct X1. by split. }
  intros _ w2 (_ & H2 & K2). carry K2. sstep. eapply swp_deref; [exact Dc|]. sstep.
  eapply swp_mono; [apply (g_upd_group prm g0 Z0 N offs C w2); [done|by intros []]|].
  intros _ w3 (_ & H3 & K3). carry K3. sstep. apply (swp_group0 _ _ _ _ _ _ w3 _ H3). intros g Eg Hg.
  destruct (winv_item _ _ _ _ _ _ w3 c H3 Hc) as (e3 & E3 & X3 & _).
  sstep. eapply swp_updc; [exact E3|]. set (w4 := with_eval _ _ _).
  destruct (kept_updc prm g0 Z0 N offs C w3 c (λ c, set_c_detect type (set_c_dp_mask (Z.lor (c_dp_mask c) (dp_bit g)) c)) e3) as [H4 K4]; try done.
  { destruct (conn_fields _ e3 X3). split; try done. by apply group_mask. }
  fold w4 in H4, K4. pose proof (client_at_with w3 c _ e3 E3 : client_at w4 c _) as E4. carry K4.
  sstep. eapply swp_conn_at; [exact E4|]. sstep. sstep. rewrite (wi_head H4). sstep.
  eapply swp_mono; [eapply (g_next_group C w4 c _ type _ _ g H4 Hc E4 Hg)|].
  { cbn. by rewrite <- Z.lor_assoc, Z.lor_diag. }
  intros [u next] w5 (En & H5 & K5). cbn [snd] in En. subst next. carry K5.
  (* the priority of the group *)
  sstep. apply (swp_group0 _ _ _ _ _ _ w5 _ H5). intros g' Eg' Hg'. sstep.
  eapply swp_mono; [instantiate (1 := λ _ w', winvC C w' ∧ wkept w5 w')|].
  { destruct (negb _); [|by sstep]. sstep. sstep. eapply swp_mono; [apply (g_upd_group prm g0 Z0 N offs C w5); [done|by intros []]|].
    by intros _ w' (_ & ? & ?). }
  intros _ w6 (H6 & K6). sstep. sstep. rewrite (wi_head H6). sstep. apply swp_upd_elem. sstep.
  split; [done|]. split.
  - eapply winv_cache; [exact H6|]. apply (filling_done prm (shape cache)); [intros k; by rewrite Z.bits_0|done|].
    exact (wi_cache H6).
  - etrans; [exact K1|]. etrans; [exact K2|]. etrans; [exact K3|]. etrans; [exact K4|]. etrans; [exact K5|].
    etrans; [exact K6|]. apply kept_cache.
Qed.

Lemma g_on_torst w c v : winv w → tied_at w c v → swp (on_torst prm os junk fuel v) w (good w (λ r, r = -1)).
Proof.
  intros Hw Ht. unfold on_torst. eapply g_bind; [by eapply g_on_trigger|]. intros r w1 -> H1 K1. carry K1.
  change (-1 =? 0) with false. cbv iota. destruct Ht as (Hc & Hv & ce & ve & Ec & Ev & Pc & Pv & _).
  sstep. eapply swp_eval_at; [exact Ev|]. sstep. eapply swp_deref; [exact Pv|]. sstep. eapply swp_eval_at; [exact Ec|].
  eapply g_bind; [apply g_quiet; [done|apply q_sysret]|]. intros r w2 _ H2 _. by apply g_ret.
Qed.

(** At the end of the stream of either of the two. *)
Lemma g_on_fin w c v x : winv w → tied_at w c v → x = c ∨ x = v → swp (on_fin prm os junk fuel x) w (good w (λ r, r = -1)).
Proof.
  intros Hw Ht Hx. pose proof Ht as (Hc & Hv & ce & ve & Ec & Ev & Pc & Pv & Fc & Fv & _). unfold on_fin.
  assert (Hend : ∀ b, swp (e ← eval_at v; peer ← deref (ev_pair e); pc ← conn_at peer;
      if negb (c_mark pc && (c_round_count (ev_conn e) <=? 1)) then mret (-1) else
      r ← on_trigger prm os junk fuel DETECT_TLS_ERR v b; mret (if r =? 0 then 0 else -1)) w (good w (λ r, r = -1))).
  { intros b. sstep. eapply swp_eval_at; [exact Ev|]. sstep. eapply swp_deref; [exact Pv|]. sstep.
    eapply swp_conn_at; [exact Ec|]. destruct (negb _); [by apply g_ret|].
    eapply g_bind; [by eapply g_on_trigger|]. intros r w1 -> H1 _. by apply g_ret. }
  destruct Hx as [-> | ->].
  - sstep. eapply swp_eval_at; [exact Ec|]. destruct (Z.eqb_spec (c_flag (ev_conn ce)) FLAG_CONN); [done|]. cbn [negb].
    rewrite Pc. apply Hend.
  - sstep. eapply swp_eval_at; [exact Ev|]. rewrite Fv, Z.eqb_refl. cbn [negb]. apply Hend.
Qed.

Lemma g_on_timeout w c v : winv w → tied_at w c v → swp (on_timeout prm os junk fuel v) w (good w (λ _, True)).
Proof.
  intros Hw Ht. unfold on_timeout. pose proof Ht as (_ & Hv & _).
  eapply g_bind; [apply g_updc_plain; [done|done|by intros []]|]. intros _ w1 _ H1 K1. carry K1.
  sstep. apply (g_conn_at prm g0 Z0 N offs (cache_fine prm)); [done|done|]. intros e E _.
  destruct (_ <=? _); [eapply g_mono; [by eapply g_on_torst|done]|].
  eapply g_bind; [|intros _ w2 _ H2 _; by apply g_ret]. apply g_retimed.
  eapply set_timer_run; try done; [|by left]. destruct Ht as (_ & _ & ce & ve & _ & Ev & _ & _ & _ & Fv & _). by exists ve.
Qed.

Lemma g_handle_err w c v x n : winv w → tied_at w c v → x = c ∨ x = v →
  swp (handle_err prm os junk fuel x n) w (good w (λ r, r = -1)).
Proof.
  intros Hw Ht Hx. unfold handle_err. destruct (_ || _); [|by apply g_ret].
  pose proof Ht as (Hc & Hv & ce & ve & Ec & Ev & _ & _ & Fc & Fv & _). destruct Hx as [-> | ->].
  - sstep. eapply swp_conn_at; [exact Ec|]. destruct (Z.eqb_spec (c_flag (ev_conn ce)) FLAG_CONN); [done|].
    eapply g_on_fin; [done..|by left].
  - sstep. eapply swp_conn_at; [exact Ev|]. rewrite Fv, Z.eqb_refl. by eapply g_on_torst.
Qed.

(** * Buffers of connections *)

Lemma upd_buff w v f e o : winv w → livew w v → client_at w v e → f e = set_ev_buff o e → pool_same f →
  (∀ b, o = Some b → buf_ok b ∧ marks_ok b) →
  let w' := with_eval w v f in
  winv w' ∧ but v w w' ∧ marks_at w' v = (λ b, (b_offset b, b_lock b)) <$> o.
Proof.
  intros Hw Hv E Hf Hs Ho w'. destruct (winv_item _ _ _ _ _ _ w v Hw Hv) as (x & E' & X & _).
  unfold client_at in *. rewrite E in E'. injection E' as <-.
  destruct (winv_upd _ _ _ _ _ _ w v f e Hw Hv E Hs) as (H1 & K1 & E1); rewrite ?Hf; [done| |].
  { destruct X. split; try done. cbn. intros b Hb. destruct (Ho b Hb). split; [done|by right]. }
  split_and!; [done| |].
  - split; [done|]. intros x Hx. unfold marks_at. cbn. by rewrite list_lookup_alter_ne.
  - unfold marks_at, w'. cbn. rewrite list_lookup_alter_eq, E. cbn. by rewrite Hf.
Qed.

Lemma g_buff_of w v o l (P : buffer → world → Prop) : winv w → livew w v → marks_at w v = Some (o, l) →
  (∀ e b, client_at w v e → conn_ok e → ev_buff e = Some b → buf_ok b → b_offset b = o → b_lock b = l → P b w) →
  swp (buff_of v) w P.
Proof.
  intros Hw Hv Hm HP. unfold buff_of. sstep. eapply (g_eval_at prm g0 Z0 N offs (cache_fine prm)); [done..|].
  intros e E X _. unfold marks_at in Hm. unfold client_at in E. rewrite E in Hm. cbn in Hm. unfold marks_of in Hm.
  destruct (ev_buff e) as [b|] eqn:Eb; [|done]. cbn in Hm. injection Hm as H1 H2. sstep.
  apply (HP e b); try done. by apply (co_buff X).
Qed.

Lemma g_updb w v f o l (P : unit → world → Prop) : winv w → livew w v → marks_at w v = Some (o, l) →
  (∀ b, buf_ok b → b_offset b = o → b_lock b = l → buf_ok (f b) ∧ marks_ok (f b)) →
  (∀ b w', b_offset b = o → b_lock b = l → winv w' → but v w w' → marks_at w' v = Some (b_offset (f b), b_lock (f b)) → P tt w') →
  swp (updb v f) w P.
Proof.
  intros Hw Hv Hm Hf HP. destruct (winv_item _ _ _ _ _ _ w v Hw Hv) as (e & E & X & _). unfold updb.
  eapply swp_upd_eval; [exact E|]. unfold marks_at in Hm. pose proof E as E0. unfold client_at in E0. rewrite E0 in Hm.
  cbn in Hm. unfold marks_of in Hm. destruct (ev_buff e) as [b|] eqn:Eb; [|done]. cbn in Hm. injection Hm as H1 H2.
  destruct (upd_buff w v (λ e, set_ev_buff (f <$> ev_buff e) e) e (Some (f b))) as (A1 & A2 & A3); try done.
  - by rewrite Eb.
  - intros x [= <-]. apply Hf; try done. by apply (co_buff X).
  - by apply (HP b).
Qed.

(** * The desync engine *)

Context (Heng : Engine prm rand junk fuel (same_group g0)).

(** A call into desync.c, whose run from any state of the engine ends with [R]. *)
Lemma run_desync {A} fd b restore ps (m : (list sys → Z) → ST dstate A) w (R : A → dstate → Prop) : winv w →
  (∀ os' s, send_bounded os' → d_log s = [] → d_buf s = b → swp (m os') s R) →
  swp (in_desync os fd b restore ps m) w (λ x w', R x.1 x.2 ∧ winv w' ∧ quiet w w').
Proof.
  intros Hw Hm. unfold swp, in_desync. cbv zeta. set (pre := p_log (w_pool w)). set (os' := λ l : list sys, _).
  assert (Hs : send_bounded os').
  { intros l oob d. unfold os'. rewrite map_app, app_assoc. apply (sy_sys _ _ Hsys). }
  specialize (Hm os' (DState [] (w_rand w) b no_info restore ps (w_tf_count w) (w_tf w) (w_files w)) Hs eq_refl eq_refl).
  unfold swp in Hm. destruct (m os' _) as [[a d]|]; [|done]. cbn in Hm |- *. split; [done|].
  destruct (winv_log prm g0 Z0 N offs (cache_fine prm) w (pre ++ map (KSys fd) (d_log d)) Hw) as [H1 Q1]. by split; [destruct H1; split|].
Qed.

(** The call of [desync] in [tcp_send_hook]. *)
Lemma g_call_desync w c v n o l (lock : bool) g : winv w → tied_at w c v → same_group g0 g →
  marks_at w c = Some (o, l) → 0 <= o <= n → n <= pr_bfsize prm → 0 <= o <= l → l <= pr_bfsize prm →
  swp (call_desync prm os junk rand fuel v c c n lock g) w (λ r w', winv w' ∧ but c w w' ∧
    marks_at w' c = Some (o, if lock then r.2 else l) ∧ n <= r.2 <= pr_bfsize prm ∧ r.1.1 <= r.2 - o).
Proof.
  intros Hw Ht Hg Hm Hn Hsz Hl Hlz. pose proof Ht as (Hc & Hv & ce & ve & Ec & Ev & Pc & Pv & Fc & Fv & Dc).
  unfold call_desync. sstep. eapply swp_eval_at; [exact Ev|]. sstep. eapply swp_conn_at; [exact Ec|].
  sstep. eapply g_buff_of; [done|exact Hc|exact Hm|]. intros e b E X Eb Hb Ho Hlk. destruct Hb as (B1 & B2 & B3).
  rewrite Ho. sstep. eapply swp_mono.
  { apply (run_desync (ev_fd ve) (b_data b) (c_restore_ttl (ev_conn ve)) (c_part_sent (ev_conn ce))
      (λ os, desync prm os rand junk fuel (b_size b) o n (c_round_sent (ev_conn ce)) g) w
      (λ r d, let '(ret, _, n') := r in bytes_wf (d_buf d) ∧ blen (d_buf d) = b_size b ∧ n <= n' <= b_size b ∧
         ret <= n' - o ∧ on_time prm d) Hw).
    intros os' s Hs Hlog Hbuf. eapply swp_mono.
    - apply swp_conj; [|apply (desync_timely prm os' rand junk fuel (b_size b) o n (c_round_sent (ev_conn ce)) g s)].
      + pose proof (engine_tcp os' s o n (c_round_sent (ev_conn ce)) g Hg Hs) as He. rewrite Hbuf, B2 in He.
        apply He; [done|lia|lia].
      + unfold on_time. rewrite Hlog. constructor.
    - intros [[ret wait] n'] d [H1 H2]. destruct H1 as (? & ? & [? ?] & ?). by split_and!. }
  intros [[[ret wait] n'] d] w1 ((D1 & D2 & D3 & D4 & D5) & H1 & Q1). cbn [fst snd] in *.
  pose proof (quiet_kept _ _ Q1) as K1. carry K1. sstep.
  eapply swp_mono; [apply (g_updc_plain prm g0 Z0 N offs (cache_fine prm) w1 v); [done|done|by intros []]|].
  intros _ w2 (_ & H2 & K2). carry K2. sstep.
  eapply swp_mono; [apply (g_updc_plain prm g0 Z0 N offs (cache_fine prm) w2 c); [done|done|by intros []]|].
  intros _ w3 (_ & H3 & K3). carry K3. sstep.
  eapply (swp_mono _ _ (good w3 (λ _, True))).
  { destruct (timers_of (d_log d)) as [|ms t] eqn:Et; [sstep; by split_and!|].
    apply g_retimed. eapply set_timer_run; try done.
    - destruct Ht as (_ & _ & x & y & _ & Ey & _ & _ & _ & Fy & _). by exists y.
    - right. unfold on_time in D5. rewrite Et in D5. by apply Forall_cons in D5 as [? _]. }
  intros _ w4 (_ & H4 & K4). carry K4. sstep.
  eapply g_updb; [exact H4|exact Hc|exact Hm| |].
  - intros x (X1 & X2 & X3) Xo Xl. unfold marks_ok, buf_ok. destruct lock; cbn; rewrite ?Xo, ?Xl; split_and!; try done; lia.
  - intros x w5 Xo Xl H5 K5 M5. sstep. cbn [fst snd]. split; [done|]. split; [|split; [|lia]].
    + etrans; [|exact K5]. apply kept_but. etrans; [exact K1|]. etrans; [exact K2|]. etrans; [exact K3|exact K4].
    + rewrite M5. destruct lock; cbn; by rewrite ?Xo, ?Xl.
Qed.

(** * Hooks *)

(** The marks of [c] stay where a run keeps all marks. *)
Lemma g_save_hostname w c b n : winv w → livew w c → bytes_wf b → n <= blen b →
  swp (save_hostname c b n) w (good w (λ _, True)).
Proof.
  intros Hw Hc Hb Hn. unfold save_hostname. sstep. apply (g_eval_at prm g0 Z0 N offs (cache_fine prm)); [done..|].
  intros e E X _. destruct (ev_host e); [sstep; by split_and!|].
  assert (Hk : ∀ len host, (match host with None => len = 0 | Some o => 0 < len → 0 <= o ∧ o + len <= blen b end) →
    swp (if len <=? 0 then skip else
      host ← deref (Z.to_nat <$> host); name ← lift (rds b (Z.of_nat host) len);
      upd c (set_ev_host (Some name));; updc c (set_c_host_len len)) w (good w (λ _, True))).
  { intros len host Hh. destruct (Z.leb_spec len 0) as [_|Hlen]; [sstep; by split_and!|].
    destruct host as [o|]; [|lia]. destruct (Hh ltac:(lia)) as [Q1 Q2]. sstep. eapply swp_deref; [done|]. sstep. sstep.
    apply wp_rds; [lia..|]. eapply g_bind; [apply (g_upd prm g0 Z0 N offs (cache_fine prm) w c _ e); try done|].
    { destruct X. by split. }
    intros _ w1 _ H1 K1. carry K1. apply g_updc_plain; [done|done|by intros []]. }
  sstep. sstep. apply wp_parse_tls; [done|done|]. intros [len host] Hr. cbv beta iota. sstep.
  destruct (len =? 0) eqn:E0.
  - sstep. sstep. apply wp_parse_http; [done|]. intros r Hin. sstep. apply Hk. unfold host_in in Hin.
    destruct (hh_hs r) as [o|]; [|done]. destruct Hin as (q & x & Hf & ? & ? & ? & ? & ? & _).
    intros ?. assert (0 <= q) by apply Hf. lia.
  - sstep. apply Hk. unfold name_in in Hr. destruct host; [lia|done].
Qed.

Lemma g_setup_conn w c v b n : winv w → tied_at w c v → bytes_wf b → n <= blen b →
  swp (setup_conn prm os fuel c b n) w (good w (λ _, True)).
Proof.
  intros Hw Ht Hb Hn. unfold setup_conn. pose proof Ht as (Hc & Hv & ce & ve & Ec & Ev & Pc & _).
  sstep. eapply swp_eval_at; [exact Ec|]. sstep. eapply swp_deref; [exact Pc|]. sstep. eapply swp_eval_at; [exact Ev|].
  eapply g_bind; [by apply g_find_dp|]. intros r w1 Hr H1 K1. carry K1.
  destruct r as [i|]; [|by apply g_ret]. assert (i = 0%nat) as -> by (destruct Hr; congruence).
  eapply g_bind; [by apply g_save_hostname|]. intros _ w2 _ H2 K2. carry K2.
  sstep. sstep. rewrite is_tls_chello_eq by done. apply wp_ok. set (mark := hello_bytes _ _ _).
  destruct (winv_item _ _ _ _ _ _ w2 c H2 Hc) as (e & E & X & _).
  eapply g_bind; [apply (g_updc prm g0 Z0 N offs (cache_fine prm) w2 c _ e); try done|].
  { destruct (conn_fields _ e X). split; try done; by right. }
  intros _ w3 _ H3 K3. destruct (negb _); [|by apply g_ret].
  eapply g_bind; [apply g_quiet; [done|apply q_set_timeout]|]. intros t w4 _ H4 _. by apply g_ret.
Qed.

Lemma g_free_first_req w c : winv w → livew w c → swp (free_first_req c) w (good w (λ _, True)).
Proof.
  intros Hw Hc. unfold free_first_req. sstep. apply (g_eval_at prm g0 Z0 N offs (cache_fine prm)); [done..|].
  intros e E X _. sstep. eapply swp_mono; [apply buff_push_ok; [done|]|].
  { intros b Hb. by apply (co_sq X). }
  intros _ w1 [H1 C1]. pose proof (calm_kept _ _ C1) as K1. apply (calm_at _ _ _ _ C1) in E. carry K1.
  eapply swp_mono; [apply (g_upd prm g0 Z0 N offs (cache_fine prm) w1 c _ e); try done|].
  { destruct X. by split. }
  intros [] w2 (_ & H2 & K2). split; [done|]. split; [done|]. etrans; [exact K1|exact K2].
Qed.

Lemma g_try_set_tls_timer w c v b n : winv w → tied_at w c v → bytes_wf b → 0 < n <= blen b →
  swp (try_set_tls_timer prm os fuel v b n) w (good w (λ _, True)).
Proof.
  intros Hw Ht Hb Hn. unfold try_set_tls_timer. pose proof Ht as (_ & Hv & _).
  sstep. apply (g_conn_at prm g0 Z0 N offs (cache_fine prm)); [done..|]. intros e E X. destruct (_ && _).
  - eapply g_bind; [apply g_retimed; by eapply remove_timer_run|]. intros _ w1 _ H1 _. by apply g_ret.
  - sstep. sstep. eapply wp_mono; [apply tls_track_all_wf; [done|done|]|].
    { by apply (co_tls X). }
    intros [ok [[hdr rpos] size]] Htr. cbn [snd] in Htr. cbv beta iota.
    eapply g_bind; [apply (g_updc prm g0 Z0 N offs (cache_fine prm) w v _ e); try done|].
    { by destruct (conn_fields _ e X). }
    intros _ w1 _ H1 K1. carry K1. destruct (negb ok); [by apply g_ret|].
    eapply (g_bind _ _ _ _ _ _ _ _ _ (λ _, True)); [|intros _ w2 _ H2 _; by apply g_ret].
    destruct (negb _); [|sstep; by split_and!].
    eapply g_bind; [apply g_retimed; by eapply remove_timer_run|]. intros _ w2 _ H2 K2. carry K2.
    destruct (negb _); [|sstep; by split_and!]. apply g_retimed. eapply set_timer_run; try done; [|by left].
    destruct Ht as (_ & _ & x & y & _ & Ey & _ & _ & _ & Fy & _). by exists y.
Qed.

(** The one that sends, and the owner of the buffer. *)
Definition ends (c v remote owner : nat) : Prop := remote = v ∧ owner = c ∨ remote = c ∧ owner = v.

(** What a send from the buffer of [owner], with the marks [o] and [l], leaves. *)
Definition sent (w : world) (owner : nat) (n o l : Z) (lock : bool) (r : Z * bool * Z) (w' : world) : Prop :=
  winv w' ∧ but owner w w' ∧ marks_at w' owner = Some (o, if lock then r.2 else l) ∧
  n <= r.2 <= pr_bfsize prm ∧ r.1.1 <= r.2 - o.

Lemma sent_kept w w' w'' owner n o l lock r : wkept w w' → sent w' owner n o l lock r w'' → sent w owner n o l lock r w''.
Proof. intros K (H1 & H2 & H3 & H4 & H5). split_and!; try done; [|lia|lia]. etrans; [by apply kept_but|done]. Qed.
Lemma kept_sent w w' owner n o l (lock : bool) sn wait : winv w' → wkept w w' → marks_at w' owner = Some (o, l) →
  (lock = true → n = l) → n <= pr_bfsize prm → sn <= n - o → sent w owner n o l lock (sn, wait, n) w'.
Proof.
  intros H K M Hl Hn Hs. split_and!; cbn; try done; [by apply kept_but|]. destruct lock; [|done]. by rewrite Hl.
Qed.

(** The raw send, of what was not sent before. *)
Lemma g_raw_send w fd b o n : winv w → bytes_wf b → 0 <= o <= n → n <= blen b →
  swp (l ← lift (rds b o (n - o)); sn ← sysret os (KSend fd l);
       again ← (if sn <? 0 then e ← get_e os; mret (e =? EAGAIN) else mret false);
       mret (sn, false, n, again)) w
    (good w (λ r, ∃ sn again, r = (sn, false, n, again) ∧ sn <= n - o)).
Proof.
  intros Hw Hb Ho Hn. sstep. sstep. apply wp_rds; [lia..|].
  eapply g_bind; [apply g_quiet; [done|apply q_sysret]|]. intros sn w1 [pre ->] H1 _.
  pose proof (sy_send _ _ Hsys pre fd (sub b o (n - o))) as Hsn. rewrite blen_sub in Hsn by lia.
  set (sn := a_ret _) in *.
  eapply (g_bind _ _ _ _ _ _ _ _ _ (λ _, True)).
  - destruct (_ <? 0); [|by apply g_ret]. eapply g_bind; [apply g_quiet; [done|apply q_get_e]|]. intros e w2 _ H2 _. by apply g_ret.
  - intros again w2 _ H2 _. apply g_ret; [done|]. by exists sn, again.
Qed.

(** What follows the send. *)
Lemma g_send_end w c v remote owner n n' o l (lock : bool) sn wait : winv w → tied_at w c v → ends c v remote owner →
  marks_at w owner = Some (o, if lock then n' else l) → n <= n' <= pr_bfsize prm → 0 <= o <= n → sn <= n' - o →
  swp (if sn <? 0 then e ← get_e os; r ← handle_err prm os junk fuel remote e; mret (r, wait, n')
       else
         re ← eval_at remote; peer ← deref (ev_pair re);
         updc peer (λ c, set_c_round_sent (c_round_sent c + sn) c);;
         mret (sn, wait, n')) w (sent w owner n o l lock).
Proof.
  intros Hw Ht He Hm Hn Ho Hsn. assert (Hr : remote = c ∨ remote = v) by (destruct He as [[]|[]]; auto).
  assert (Hend : ∀ w' sn, winv w' → wkept w w' → sn <= n' - o → sent w owner n o l lock (sn, wait, n') w').
  { intros w' x H K Hx. carry K. split_and!; cbn; try done; [by apply kept_but|lia|lia]. }
  destruct (sn <? 0).
  - sstep. eapply swp_mono; [apply g_quiet; [exact Hw|apply q_get_e]|]. intros e w1 (_ & H1 & K1).
    pose proof (tied_kept _ _ _ _ K1 Ht) as Ht1. sstep. eapply swp_mono; [by eapply g_handle_err|].
    intros r w2 (-> & H2 & K2). sstep. apply Hend; [done|etrans; [exact K1|exact K2]|lia].
  - pose proof Ht as (Hc & Hv & ce & ve & Ec & Ev & Pc & Pv & _). sstep.
    assert (∃ re p, client_at w remote re ∧ ev_pair re = Some p ∧ livew w p) as (re & p & E & P & L).
    { destruct Hr as [-> | ->]; [exists ce, v|exists ve, c]; done. }
    eapply swp_eval_at; [exact E|]. sstep. eapply swp_deref; [exact P|]. sstep.
    eapply swp_mono; [apply (g_updc_plain prm g0 Z0 N offs (cache_fine prm) w p); [done|done|by intros []]|].
    intros [] w1 (_ & H1 & K1). sstep. by apply Hend.
Qed.

Lemma g_tcp_send w c v remote owner n (lock : bool) o l : winv w → tied_at w c v → ends c v remote owner →
  marks_at w owner = Some (o, l) → 0 <= o <= n → n <= pr_bfsize prm → 0 <= o <= l → l <= pr_bfsize prm → (lock = true → n = l) →
  swp (tcp_send_hook prm os junk rand fuel remote owner n lock) w (sent w owner n o l lock).
Proof.
  intros Hw Ht He Hm Ho Hn Hl Hlz Hlock. pose proof Ht as (Hc & Hv & ce & ve & Ec & Ev & Pc & Pv & Fc & Fv & Dc).
  assert (∃ re, client_at w remote re ∧ livew w owner) as (re & E & Hown).
  { destruct He as [[-> ->]|[-> ->]]; [by exists ve|by exists ce]. }
  unfold tcp_send_hook. sstep. eapply swp_eval_at; [exact E|]. sstep.
  eapply g_buff_of; [done|exact Hown|exact Hm|]. intros oe b Eo X Eb (B1 & B2 & B3) Bo Bl. rewrite Bo.
  destruct He as [[-> ->]|[-> ->]].
  - assert (re = ve) as -> by (unfold client_at in *; congruence). rewrite Fv, Z.eqb_refl.
    sstep. eapply (swp_mono _ _ (good w (λ _, True))).
    { sstep. eapply swp_deref; [exact Pv|]. sstep. eapply swp_conn_at; [exact Ec|].
      destruct (_ =? n); [|by apply g_ret]. eapply g_setup_conn; try done. lia. }
    intros r w1 (_ & H1 & K1). pose proof K1 as K1'. carry K1. destruct (r <? 0).
    { sstep. apply kept_sent; try done. lia. }
    eapply swp_mono; [|intros ? ? H; exact (sent_kept _ _ _ _ _ _ _ _ _ K1' H)]. clear w Hw Ec Ev E Eo K1 K1'.
    pose proof Ht as (_ & _ & ce1 & ve1 & Ec & Ev & Pc1 & Pv1 & Fc1 & Fv1 & Dc1).
    sstep. sstep. eapply swp_deref; [exact Pv|]. sstep. eapply swp_conn_at; [exact Ec|].
    sstep. eapply swp_deref; [exact Dc1|]. sstep. apply (swp_group0 _ _ _ _ _ _ w1 _ H1). intros g Eg Hg. sstep.
    destruct (negb _).
    + sstep. eapply swp_mono; [apply g_raw_send; [done|done|lia|lia]|]. intros ? w2 ((sn & again & -> & Hsn) & H2 & K2).
      pose proof K2 as K2'. carry K2. destruct again; [sstep; apply kept_sent; done || lia|].
      eapply swp_mono; [|intros ? ? H; exact (sent_kept _ _ _ _ _ _ _ _ _ K2' H)].
      eapply (g_send_end w2 c v v c n n o l lock); [done|done|by left| |lia|lia|lia]. destruct lock; [|done]. by rewrite Hlock.
    + sstep. sstep. eapply swp_deref; [exact Pv|]. sstep. eapply swp_conn_at; [exact Ec|].
      sstep. eapply swp_deref; [exact Dc1|]. sstep. apply (swp_group0 _ _ _ _ _ _ w1 _ H1). intros g' Eg' Hg'. sstep.
      eapply swp_mono; [eapply (g_call_desync w1 c v n o l lock g'); done || lia|].
      intros [[sn wait] n'] w2 (H2 & K2 & M2 & N2 & S2). cbn [fst snd] in *. sstep.
      assert (Ht2 : tied_at w2 c v) by (by eapply tied_keeps; [apply K2|]).
      eapply swp_mono; [eapply (g_send_end w2 c v v c n n' o l lock); [done|done|by left|done|lia|lia|lia]|].
      intros r1 w3 (A1 & A2 & A3 & A4 & A5). split; [done|]. split; [etrans; [exact K2|exact A2]|]. split; [done|lia].
  - assert (re = ce) as -> by (unfold client_at in *; congruence).
    destruct (Z.eqb_spec (c_flag (ev_conn ce)) FLAG_CONN); [done|]. sstep. sstep.
    change (0 <? 0) with false. cbv iota. sstep. sstep. sstep.
    eapply swp_mono; [apply g_raw_send; [done|done|lia|lia]|]. intros ? w2 ((sn & again & -> & Hsn) & H2 & K2).
    pose proof K2 as K2'. carry K2. destruct again; [sstep; apply kept_sent; done || lia|].
    eapply swp_mono; [|intros ? ? H; exact (sent_kept _ _ _ _ _ _ _ _ _ K2' H)].
    eapply (g_send_end w2 c v c v n n o l lock); [done|done|by right| |lia|lia|lia]. destruct lock; [|done]. by rewrite Hlock.
Qed.

(** ** Receiving *)

Lemma g_fin w x : winv w → party w x → swp (on_fin prm os junk fuel x) w (good w (λ r, r = -1)).
Proof.
  intros Hw [(c & v & H & Hx)|(Hl & e & E & P & F)]; [by eapply g_on_fin|]. unfold on_fin.
  sstep. eapply swp_eval_at; [exact E|]. destruct (Z.eqb_spec (c_flag (ev_conn e)) FLAG_CONN); [done|]. cbn [negb].
  rewrite P. by apply g_ret.
Qed.
Lemma g_err w x n : winv w → party w x → swp (handle_err prm os junk fuel x n) w (good w (λ r, r = -1)).
Proof.
  intros Hw [(c & v & H & Hx)|H]; [by eapply g_handle_err|]. unfold handle_err. destruct (_ || _); [|by apply g_ret].
  pose proof H as (Hl & e & E & P & F). sstep. eapply swp_conn_at; [exact E|].
  destruct (Z.eqb_spec (c_flag (ev_conn e)) FLAG_CONN); [done|]. apply g_fin; [done|by right].
Qed.

Lemma g_count_round w x e : winv w → party w x → client_at w x e → swp (count_round x (ev_pair e)) w (good w (λ _, True)).
Proof.
  intros Hw Hp E. pose proof (party_live _ _ Hp) as Hx. unfold count_round. sstep. eapply swp_conn_at; [exact E|].
  assert (Hpair : ∀ y, ev_pair e = Some y → ∃ c v, tied_at w c v ∧ (x = c ∧ y = v ∨ x = v ∧ y = c)).
  { intros y Py. destruct Hp as [(c & v & Ht & Hxx)|(_ & e' & E' & P & _)].
    - exists c, v. split; [done|]. destruct Ht as (_ & _ & ce & ve & Ec & Ev & Pc & Pv & _).
      unfold client_at in *. destruct Hxx as [-> | ->]; [left|right]; split; congruence.
    - unfold client_at in *. congruence. }
  eapply (g_bind _ _ _ _ _ _ _ _ _ (λ _, True)).
  - destruct (_ =? 0); [|sstep; by split_and!].
    eapply g_bind; [apply g_updc_plain; [done|done|by intros []]|]. intros _ w1 _ H1 K1.
    destruct (ev_pair e) as [y|] eqn:Py; [|sstep; by split_and!].
    destruct (Hpair y eq_refl) as (c & v & Ht & Hy). carry K1. apply g_updc_plain; [done| |by intros []].
    destruct Ht as (Hc & Hv & _). by destruct Hy as [[_ ->]|[_ ->]].
  - intros _ w1 _ H1 K1. destruct (Z.eqb_spec (c_flag (ev_conn e)) FLAG_CONN) as [F|]; cbn [andb]; [|sstep; by split_and!].
    destruct (_ =? 0); [|sstep; by split_and!].
    assert (∃ c, tied_at w c x ∧ ev_pair e = Some c) as (c & Ht & ->).
    { destruct Hp as [(c & v & Ht & Hxx)|(_ & e' & E' & P & F')].
      - pose proof Ht as (_ & _ & ce & ve & Ec & Ev & Pc & Pv & Fc & Fv & _). unfold client_at in *.
        destruct Hxx as [-> | ->]; [congruence|]. exists c. split; [done|congruence].
      - unfold client_at in *. congruence. }
    carry K1. destruct Ht as (_ & _ & ce & ve & Ec & Ev & Pc & Pv & Fc & Fv & Dc).
    sstep. eapply swp_deref; [done|]. sstep. eapply swp_conn_at; [exact Ec|]. sstep. eapply swp_deref; [exact Dc|].
    sstep. apply (swp_group0 _ _ _ _ _ _ w1 _ H1). intros g Eg _. sstep. by split_and!.
Qed.

Lemma g_on_response w c v resp sn ce : winv w → tied_at w c v → client_at w c ce → ev_sq_buff ce ≠ None →
  swp (on_response prm os junk fuel v resp sn) w (good w (λ r, r = -1)).
Proof.
  intros Hw Ht E Hsq. pose proof (fuel_pos prm g0 Hcfg fuel Hfuel).
  pose proof Ht as (Hc & Hv & ce' & ve & Ec & Ev & Pc & Pv & Fc & Fv & Dc). unfold client_at in E, Ec.
  assert (ce' = ce) as -> by congruence. unfold on_response.
  sstep. eapply swp_eval_at; [exact Ev|]. sstep. eapply swp_deref; [exact Pv|]. sstep. eapply swp_eval_at; [exact Ec|].
  destruct (ev_sq_buff ce) as [sq|]; [|done]. sstep. eapply swp_deref; [exact Dc|].
  sstep. apply (swp_group0 _ _ _ _ _ _ w _ Hw). intros g Eg Hg.
  destruct (winv_item _ _ _ _ _ _ w c Hw Hc) as (x & Ex & X & _). unfold client_at in Ex. assert (x = ce) as -> by congruence.
  eapply g_bind; [apply (g_updc prm g0 Z0 N offs (cache_fine prm) w c _ ce); try done|].
  { destruct (conn_fields _ ce X). split; try done. by apply group_mask. }
  intros _ w1 _ H1 K1. sstep. sstep. rewrite (wi_head H1).
  destruct (same_fields _ _ Hcfg g Hg) as (_ & _ & _ & B & _).
  sstep. destruct fuel as [|[|k]]; [lia..|]. apply swp_sloop_step. unfold response_body at 1.
  sstep. apply (swp_group0 _ _ _ _ _ _ w1 _ H1). intros g' Eg' Hg'.
  destruct (same_fields _ _ Hcfg g' Hg') as (_ & Nx & _ & B' & _). rewrite B, <- B', group_tried by done.
  sstep. rewrite Nx. apply swp_sloop_step. unfold response_body. sstep. by apply g_ret.
Qed.

Lemma g_on_answer w c v buff n : winv w → tied_at w c v → buf_ok buff → 0 < n <= b_size buff →
  swp (on_answer prm os junk fuel v buff n) w (good w (λ r, r = 0 ∨ r = n)).
Proof.
  intros Hw Ht (B1 & B2 & B3) Hn. unfold on_answer. pose proof Ht as (Hc & Hv & ce & ve & Ec & Ev & Pc & Pv & Fc & Fv & Dc).
  sstep. eapply swp_eval_at; [exact Ev|]. sstep. eapply swp_deref; [exact Pv|]. sstep. eapply swp_conn_at; [exact Ec|].
  eapply (g_bind _ _ _ _ _ _ _ _ _ (λ _, True)).
  { destruct (c_mark _); [|sstep; by split_and!].
    eapply g_bind; [eapply g_try_set_tls_timer; [done|done|done|lia]|]. intros r w1 _ H1 K1. carry K1.
    destruct (negb _); [|sstep; by split_and!]. apply g_updc_plain; [done|done|by intros []]. }
  clear Ec Ev. intros _ w1 _ H1 K1. carry K1. clear w Hw K1.
  sstep. apply (g_conn_at prm g0 Z0 N offs (cache_fine prm)); [done..|]. intros e E _.
  eapply (g_bind _ _ _ _ _ _ _ _ _ (λ _, True)).
  { destruct (_ && _); [|sstep; by split_and!].
    eapply g_bind; [apply g_quiet; [done|apply q_set_timeout]|]. intros r w2 _ H2 K2. carry K2.
    apply g_updc_plain; [done|done|by intros []]. }
  clear E. intros _ w2 _ H2 K2. carry K2. clear w1 H1 K2.
  sstep. apply (g_eval_at prm g0 Z0 N offs (cache_fine prm)); [done..|]. intros pe Ep _ _.
  destruct (ev_sq_buff pe) as [sq|] eqn:Esq; [|apply g_ret; [done|by right]].
  eapply g_bind; [eapply (g_on_response w2 c v _ _ pe); [done|done|done|by rewrite Esq]|].
  intros r w3 -> H3 K3. carry K3. change (-1 =? 0) with false. cbv iota.
  eapply g_bind; [by apply g_free_first_req|]. intros _ w4 _ H4 _. apply g_ret; [done|by right].
Qed.

Lemma g_keep_request w x buff n : winv w → livew w x → buf_ok buff → 0 < n <= b_size buff →
  swp (keep_request junk x buff n) w (good w (λ r, r = n)).
Proof.
  intros Hw Hx (B1 & B2 & B3) Hn. unfold keep_request.
  sstep. apply (g_eval_at prm g0 Z0 N offs (cache_fine prm)); [done..|]. intros e E X _.
  eapply (g_bind _ _ _ _ _ _ _ _ _ (λ b, buf_ok b ∧ 0 <= b_lock b)).
  { destruct (ev_sq_buff e) as [b|] eqn:Eb; [apply g_ret; [done|]; by apply (co_sq X)|].
    rewrite B1. eapply swp_mono; [by eapply buff_pop_ok|]. intros b w1 ((Hb & _ & Hl) & H1 & C1).
    split; [split; [done|lia]|]. split; [done|by apply calm_kept]. }
  intros sq w1 ((S1 & S2 & S3) & Hl) H1 K1. carry K1.
  destruct (winv_item _ _ _ _ _ _ w1 x H1 Hx) as (e1 & E1 & X1 & _).
  assert (Hset : ∀ b, buf_ok b → 0 <= b_lock b → swp (upd x (set_ev_sq_buff (Some b))) w1 (good w1 (λ _, True))).
  { intros b Hb Hbl. apply (g_upd prm g0 Z0 N offs (cache_fine prm) w1 x _ e1); try done.
    destruct X1. split; try done. cbn. by intros ? [= <-]. }
  destruct (Z.leb_spec (b_size sq) (b_lock sq + n)).
  - eapply g_bind; [apply Hset; cbn; [done|lia]|]. intros _ w2 _ H2 K2. carry K2.
    eapply g_bind; [by apply g_free_first_req|]. intros _ w3 _ H3 _. by apply g_ret.
  - sstep. sstep. rewrite Z.add_simpl_r. apply wp_memcpy; [lia..|].
    eapply g_bind; [apply Hset; cbn; [|lia]|].
    { split; [done|]. split; [cbn; rewrite blen_put; rewrite ?blen_sub; lia|]. apply wf_put; [done|by apply wf_sub]. }
    intros _ w2 _ H2 _. by apply g_ret.
Qed.

Lemma g_tcp_recv w x m : winv w → party w x → marks_at w x = Some m →
  swp (tcp_recv_hook prm os junk fuel x) w (good w (λ r, r <= pr_bfsize prm)).
Proof.
  intros Hw Hp Hm. pose proof (party_live _ _ Hp) as Hx. pose proof (cf_size _ _ Hcfg) as Hsz. unfold S_SIZE_I6 in Hsz.
  unfold tcp_recv_hook. sstep. apply (g_eval_at prm g0 Z0 N offs (cache_fine prm)); [done..|]. intros e E X _.
  destruct m as [o l]. sstep. eapply g_buff_of; [done|exact Hx|exact Hm|]. intros e' b E' _ Eb (B1 & B2 & B3) Bo Bl.
  assert (e' = e) as -> by (unfold client_at in *; congruence). clear E'.
  sstep. eapply swp_mono; [by apply q_kcall|]. intros a w1 ([pre ->] & H1 & Q1).
  destruct (sy_recv _ _ Hsys pre (ev_fd e) (b_size b)) as [R1 R2]; [lia|]. set (a := os _) in *.
  pose proof (sy_bytes _ _ Hsys pre (KRecv (ev_fd e) (b_size b))) as [Rw _]. fold a in Rw.
  pose proof (quiet_kept _ _ Q1) as K1. pose proof (quiet_at _ _ _ _ Q1 E) as E1.
  eapply g_on; [exact K1|]. carry K1. destruct (Z.ltb_spec (a_ret a) 1).
  - destruct (_ =? 0); [eapply g_mono; [by apply g_fin|intros r ->; lia]|].
    eapply g_bind; [apply g_quiet; [done|apply q_get_e]|]. intros err w2 _ H2 K2. carry K2.
    destruct (_ =? EAGAIN); [apply g_ret; [done|lia]|].
    eapply g_bind; [apply g_quiet; [done|apply q_get_e]|]. intros err' w3 _ H3 K3. carry K3.
    eapply g_mono; [by apply g_err|intros r ->; lia].
  - sstep. sstep. specialize (R2 ltac:(lia)). apply wp_memcpy; [lia..|]. set (data := put _ _ _).
    assert (Hd : buf_ok (set_b_data data b)).
    { split; [done|]. split; [cbn; unfold data; rewrite blen_put; rewrite ?blen_sub; lia|].
      apply wf_put; [done|by apply wf_sub]. }
    eapply g_bind; [apply (g_upd prm g0 Z0 N offs (cache_fine prm) w1 x _ e); try done|].
    { destruct X. split; try done. cbn. intros ? [= <-]. split; [done|].
      destruct (co_buff b Eb) as [_ [Hcb|Hmk]]; [by left|by right]. }
    { unfold marks_of. cbn. by rewrite Eb. }
    intros _ w2 _ H2 K2. destruct (kept_item _ _ _ _ K2 E1) as (e2 & E2 & L2). carry K2.
    eapply g_bind; [apply g_updc_plain; [done|done|by intros []]|]. intros _ w3 _ H3 K3.
    destruct (kept_item _ _ _ _ K3 E2) as (e3 & E3 & L3). carry K3.
    assert (Epair : ev_pair e3 = ev_pair e) by (rewrite (proj1 (proj2 L3)); apply L2).
    rewrite <- Epair. eapply g_bind; [by apply g_count_round|]. intros _ w4 _ H4 K4.
    destruct (kept_item _ _ _ _ K4 E3) as (e4 & E4 & L4). carry K4.
    sstep. eapply swp_conn_at; [exact E4|]. destruct (Z.eqb_spec (c_flag (ev_conn e4)) FLAG_CONN) as [F|F].
    + destruct Hp as [(c & v & Ht & Hxx)|(_ & x' & E' & _ & F')]; [|unfold client_at in *; congruence].
      assert (x = v) as ->.
      { destruct Hxx as [-> | ->]; [|done]. destruct Ht as (_ & _ & ce & ve & Ec & _ & _ & _ & Fc & _).
        unfold client_at in *. congruence. }
      eapply g_mono; [eapply g_on_answer; [done|done|exact Hd|cbn; lia]|]. intros r [-> | ->]; lia.
    + sstep. eapply swp_conn_at; [exact E4|]. destruct (_ && _); [|apply g_ret; [done|lia]].
      eapply g_mono; [apply g_keep_request; [done|done|exact Hd|cbn; lia]|]. intros r ->. lia.
Qed.

(** * Datagrams *)

Lemma g_udp_hook w t u r b p n dst : winv w → assoc_at w t u r → 0 <= p → 0 <= n → p + n <= blen b →
  swp (udp_hook prm os fuel r b p n dst) w (good w (λ _, True)).
Proof.
  intros Hw Ha Hp Hn Hb. pose proof (fuel_pos prm g0 Hcfg fuel Hfuel) as Hf. unfold udp_hook.
  pose proof Ha as (_ & Hu & _ & te & ue & re & Et & Eu & Er & Pt & Pu & Pr & _).
  sstep. eapply swp_eval_at; [exact Er|]. sstep. eapply swp_deref; [exact Pr|]. sstep. eapply swp_eval_at; [exact Et|].
  sstep. eapply swp_deref; [exact Pt|]. sstep. eapply swp_conn_at; [exact Eu|].
  destruct (winv_item _ _ _ _ _ _ w u Hw Hu) as (x & Ex & X & _).
  assert (x = ue) as -> by (unfold client_at in *; congruence). clear Ex.
  eapply (g_bind _ _ _ _ _ _ _ _ _ (λ dp, dp = None ∨ dp = Some 0%nat)).
  { destruct (c_dp (ev_conn ue)) as [i|] eqn:Ed; [apply g_ret; [done|]; rewrite <- Ed; by apply (co_dp X)|].
    sstep. sstep. rewrite (wi_head Hw). destruct fuel as [|[|k]]; [lia..|]. apply swp_sloop_step. unfold udp_group_body at 1.
    sstep. apply (swp_group0 _ _ _ _ _ _ w _ Hw). intros g Eg Hg. destruct (same_fields _ _ Hcfg g Hg) as (_ & Nx & _).
    sstep. destruct (_ && _); [split; [by right|by split]|]. rewrite Nx. apply swp_sloop_step. unfold udp_group_body.
    apply g_ret; [done|by left]. }
  intros dp w1 Hdp H1 K1. destruct dp as [i|]; [|by apply g_ret].
  assert (i = 0%nat) as -> by (destruct Hdp; congruence). pose proof Ha as Ha1. carry K1.
  destruct (winv_item _ _ _ _ _ _ w1 u H1 Hu) as (e1 & E1 & X1 & _).
  eapply g_bind; [apply (g_updc prm g0 Z0 N offs (cache_fine prm) w1 u _ e1); try done|].
  { destruct (conn_fields _ e1 X1). split; try done; by right. }
  intros _ w2 _ H2 K2. sstep. apply (swp_group0 _ _ _ _ _ _ w2 _ H2). intros g Eg Hg. sstep. sstep.
  apply wp_rds; [lia..|]. destruct (negb _); [eapply g_quiet; [done|]; eapply q_mono; [apply q_sysret|done]|].
  sstep. eapply swp_mono; [eapply (run_desync _ _ _ _ (λ os, desync_udp prm os n g) w2 (λ _ _, True) H2)|].
  { intros os' s _ _ Hs. apply (engine_udp os' s n g Hg). rewrite Hs, blen_sub; lia. }
  intros [a d] w3 (_ & H3 & Q3). sstep. split; [done|]. split; [done|by apply quiet_kept].
Qed.
End triggers.
