(* ===== verification/Serve.v ===== *)
(** byedpi's event loop does not go wrong (proxy.c).

    Under the invariant of the loop ([Session.winv]) every callback ends without a fault
    and leaves the invariant and its connection; so [loop_event] never follows a null
    pointer, fails an assertion or leaves an array, whatever clients and servers send. *)
From Stdlib Require Import ZArith Lia Ascii String.
From stdpp Require Import base numbers list option sorting sets.
From S2P Require Import Prelude CMem PacketsTls PacketsHttp Mpool Params Desync DList Conev Socks Extend World TlsTrack Groups Cache Proxy Requests Engine Session Wire Hooks.

#[local] Open Scope Z_scope.
#[local] Open Scope list_scope.

Section serve.
Context (prm : params) (g0 : desync_params) (N offs : Z).

Abbreviation winvZ Z := (winv prm g0 Z N offs (cache_fine prm)).
Abbreviation winv := (winvZ []).

(** * Changing the sessions *)

Lemma winv_weaken Z w : winv w → winvZ Z w.
Proof. intros [[] ? ? ?]. split; try done. split; try done. intros v Hv Hz. apply pi_sess; [done|set_solver]. Qed.

Lemma winv_more Z Z' w : winvZ Z w → (∀ z, z ∈ Z → z ∈ Z') → winvZ Z' w.
Proof. intros [[] ? ? ?] HZ. split; try done. split; try done. intros v Hv Hz. apply pi_sess; [done|naive_solver]. Qed.

Lemma winv_close Z w : winvZ Z w → (∀ z, z ∈ Z → livew w z → in_session (w_pool w) z) → winv w.
Proof.
  intros [[] ? ? ?] HZ. split; try done. split; try done. intros v Hv _.
  destruct (decide (v ∈ Z)); [by apply HZ|by apply pi_sess].
Qed.

(** The connections [Z] lead to each other only. *)
Definition own (w : world) (Z : list nat) : Prop :=
  ∀ x e y, x ∈ Z → client_at w x e → ev_pair e = Some y → livew w y → y ∈ Z.

(** An assignment to one of [Z]. *)
Lemma winv_set Z w v f e : winvZ Z w → own w Z → v ∈ Z → livew w v → client_at w v e →
  (∀ x, tv_fields (f x) = tv_fields x ∧ ev_fd (f x) = ev_fd x ∧ ev_index (f x) = ev_index x ∧
     ev_mod_iter (f x) = ev_mod_iter x ∧ (ev_pair (f x) = ev_pair x ∨ ∀ y, ev_pair (f x) = Some y → livew w y ∨ closed (w_pool w) y)) →
  (c_flag (ev_conn e) = FLAG_CONN → c_flag (ev_conn (f e)) = FLAG_CONN) → conn_ok prm (f e) →
  winvZ Z (with_eval w v f) ∧ client_at (with_eval w v f) v (f e) ∧
  (∀ x, livew (with_eval w v f) x ↔ livew w x) ∧ (∀ x y, x ≠ v → client_at w x y → client_at (with_eval w v f) x y).
Proof.
  intros [[(T & Hwf & Hsv) ? ? ? ? Hconn Hsess] ? ? ?] Hown HvZ Hv E Hf Hfl Hc.
  assert (Hoth : ∀ x y, x ≠ v → client_at w x y → client_at (with_eval w v f) x y) by (intros x y Hx; by apply with_eval_other).
  split_and!; [|by apply client_at_with|done|done]. split; try done. split; try done.
  - exists T. split; [by apply item_wf|]. eapply Forall_impl; [exact Hsv|]. intros x (y & Ey & Fy).
    destruct (decide (x = v)) as [->|Hx].
    + exists (f e). split; [by apply (client_at_with w v f e)|]. unfold client_at in E. rewrite E in Ey. injection Ey as <-. auto.
    + exists y. split; [by apply (Hoth x y)|done].
  - apply scan_items; [|done]. intros x. by destruct (Hf x) as (_ & _ & _ & ? & _).
  - intros x y Hx Ey. cbn in Ey. rewrite list_lookup_alter in Ey. case_decide as Hxv; [|by apply (Hconn x)].
    subst x. unfold client_at in E. rewrite E in Ey. injection Ey as <-. done.
  - intros x Hx Hz. apply (in_session_keep (w_pool w) _ Z x); [exact Hown| |by apply Hsess|done].
    intros y ey Hy Hyz Ey. split; [done|]. exists ey. split; [|done]. apply (Hoth y ey); [by intros ->|done].
Qed.

(** * What a callback finds *)

Definition waits (e : eval) : Prop :=
  ev_cb e = Conev.on_accept ∨ ev_cb e = Conev.on_request ∨ ev_cb e = recv_and_connect.

Lemma session_of w v e : winv w → livew w v → client_at w v e →
  (ev_pair e = None ∧ c_flag (ev_conn e) ≠ FLAG_CONN ∧ waits e) ∨
  (∃ c x ce xe, tied_at w c x ∧ client_at w c ce ∧ client_at w x xe ∧ (v = c ∨ v = x) ∧
     (ev_cb ce = Conev.on_tunnel ∧ ev_cb xe = Conev.on_tunnel ∨ ev_cb ce = Conev.on_ignore ∧ connecting xe)) ∨
  (∃ t u r, assoc_at w t u r ∧ (v = t ∧ ev_cb e = Conev.on_ignore ∨ (v = u ∨ v = r) ∧ ev_cb e = Conev.on_udp_tunnel)).
Proof.
  intros Hw Hv E. destruct (pi_sess (wi_pool Hw) v Hv) as (X & HvX & Hs & Hl); [set_solver|].
  rewrite Forall_forall in Hl. unfold client_at in E. destruct Hs as [x y Ey|c x ce xe E1 E2|t u r te ue re E1 E2 E3].
  - apply list_elem_of_singleton in HvX as <-. rewrite E in Ey. injection Ey as <-. left. by split_and!.
  - right. left. exists c, x, ce, xe. split_and!; try done; [|set_solver]. split_and!; [apply Hl; set_solver..|].
    exists ce, xe. by split_and!.
  - right. right. exists t, u, r.
    assert (v = t ∨ v = u ∨ v = r) as Hx by set_solver. split.
    { split_and!; [apply Hl; set_solver..|]. exists te, ue, re. by split_and!. }
    destruct Hx as [-> |[-> | ->]]; [left|right|right]; split; auto; congruence.
Qed.

(** * Closing *)

Context (os : list call → answer) (fuel : nat) (Hfuel : 4 * pr_max_open prm + 10 <= Z.of_nat fuel).

Lemma not_closed s T v : pool_wf s T → live s v → ¬ closed s v.
Proof.
  intros Hwf Hv (e & E & Hf & _). destruct (live_lookup _ _ _ Hwf Hv) as (_ & e' & _ & _ & _ & E' & _ & [_ ? _ _]).
  rewrite E in E'. injection E' as <-. lia.
Qed.

(** The pool without the connections [D]. *)
Lemma winv_deleted Z w s' D T T' : winvZ Z w → pool_wf (w_pool w) T → Forall (server (w_pool w)) T → pool_wf s' T' →
  deleted (w_pool w) D s' → (∀ x, x ∈ T' → x ∈ T) → winvZ Z (set_w_pool s' w).
Proof.
  intros Hw Hwf Hsv Hwf' Hd Hsub. pose proof (wi_pool Hw) as Hp.
  assert (Hback : ∀ x e', live s' x → p_items s' !! x = Some e' →
    ∃ e, livew w x ∧ x ∉ D ∧ p_items (w_pool w) !! x = Some e ∧ core e' = core e).
  { intros x e' Hx E'. apply (dl_live _ _ _ Hd) in Hx as [Hx HxD].
    destruct (live_lookup _ _ _ Hwf Hx) as (_ & e & _ & _ & _ & E & _).
    destruct (dl_others _ _ _ Hd x e Hx HxD E) as (e1 & E1 & Hc). exists e. split_and!; try done. congruence. }
  destruct Hw as [? ? ? ?]. split; try done. split.
  - exists T'. split; [done|]. apply Forall_forall. intros x Hx.
    pose proof (wf_timers_live _ _ Hwf') as HT. rewrite Forall_forall in HT. specialize (HT x Hx).
    destruct (live_lookup _ _ _ Hwf' HT) as (_ & e' & _ & _ & _ & E' & _).
    destruct (Hback x e' HT E') as (e & _ & _ & E & Hc). exists e'. split; [done|].
    rewrite Forall_forall in Hsv. destruct (Hsv x (Hsub x Hx)) as (y & Ey & Fy).
    cbn in E. rewrite E in Ey. injection Ey as <-. apply (f_equal ev_conn) in Hc. cbn in Hc. by rewrite Hc.
  - etrans; [exact (dl_max _ _ _ Hd)|apply (pi_max Hp)].
  - etrans; [exact (dl_iters _ _ _ Hd)|apply (pi_iters Hp)].
  - apply (dl_scan _ _ _ Hd), (pi_scan Hp).
  - apply (dl_roots _ _ _ Hd); [apply (pi_root Hp)|]. intros b (d & e & HdD & E & Hb).
    pose proof (pi_conn Hp d e (dl_were _ _ _ Hd d HdD) E) as X.
    assert (buf_ok prm b) by (destruct Hb as [Hb|Hb]; [by apply (co_buff X)|by apply (co_sq X)]). by split_and!.
  - intros x e' Hx E'. destruct (Hback x e' Hx E') as (e & Hxl & _ & E & Hc).
    eapply conn_ok_core; [exact Hc|]. by apply (pi_conn Hp x).
  - intros x Hx Hz. pose proof (proj1 (dl_live _ _ _ Hd x) Hx) as [Hxl HxD].
    apply (in_session_keep (w_pool w) _ D x); [| |by apply (pi_sess Hp)|done].
    + intros y e z HyD E Ep Hz'. destruct (dl_chain _ _ _ Hd y e z HyD E Ep) as [|Hc]; [done|].
      by destruct (not_closed _ _ _ Hwf Hz').
    + intros y e Hy HyD E. split; [by apply (dl_live _ _ _ Hd)|].
      destruct (dl_others _ _ _ Hd y e Hy HyD E) as (e' & E' & Hc). exists e'. split; [done|by apply like_core].
Qed.

(** [del_event] takes a connection out with its session. *)
Lemma s_del_event Z w v : winvZ Z w → livew w v →
  swp (on_pool (del_event os fuel v)) w (λ _ w', winvZ Z w').
Proof.
  intros Hw Hv. pose proof (wi_pool Hw) as Hp. destruct (pi_wf Hp) as (T & Hwf & Hsv).
  pose proof (wf_count _ _ Hwf) as Hcnt. pose proof (pi_max Hp) as Hmax.
  apply swp_on_pool. eapply swp_mono; [apply (del_event_run os fuel (w_pool w) T v Hwf); [by left|lia]|].
  intros _ s' (D & T' & Hwf' & Hd & _ & _ & Hsub). by eapply winv_deleted.
Qed.

(** One that is tied to none goes alone. *)
Lemma s_del_one Z w v e : winvZ Z w → livew w v → client_at w v e → ev_pair e = None →
  swp (on_pool (del_event os fuel v)) w (λ _ w', winvZ Z w' ∧ ∀ x, livew w' x ↔ livew w x ∧ x ≠ v).
Proof.
  intros Hw Hv E P. destruct (pi_wf (wi_pool Hw)) as (T & Hwf & Hsv). pose proof (wf_count _ _ Hwf).
  pose proof (pi_max (wi_pool Hw)) as Hmax. apply swp_on_pool. destruct fuel as [|k]; [lia|]. cbn [del_event].
  destruct (live_lookup _ T v Hwf Hv) as (i & e' & pe & _ & _ & E' & _ & [_ ? _ ?]).
  unfold client_at in E. assert (e' = e) as -> by (cbn in *; congruence).
  sstep. eapply swp_item; [exact E|]. sstep. sstep. sstep. sstep. apply wp_assert; [lia|].
  destruct (Z.eqb_spec (ev_fd e) (-1)); [lia|]. rewrite P.
  sstep. eapply swp_mono; [by apply (del_one_ok os)|]. intros _ s1 [Hwf1 Hrm].
  sstep. sstep. sstep. sstep. sstep. apply wp_assert.
  { pose proof (wf_count _ _ Hwf1). lia. }
  pose proof (deleted_one _ _ _ _ Hv E P Hrm) as Hd. split.
  - eapply winv_deleted; try done. intros x Hx. by apply in_others in Hx as [? _].
  - intros x. unfold livew. cbn. rewrite (dl_live _ _ _ Hd), list_elem_of_singleton. done.
Qed.

(** * Connecting *)

Context (Hsys : system_ok prm os) (Hcfg : config_ok prm g0).

(** The new server [x] of [v], whose session is not complete yet. *)
Definition opened (w : world) (v x : nat) (e pe : eval) : Prop :=
  winvZ [v; x] w ∧ own w [v; x] ∧ livew w v ∧ livew w x ∧
  client_at w v (set_ev_cb Conev.on_ignore (set_ev_pair (Some x) e)) ∧ client_at w x pe ∧
  ev_pair pe = Some v ∧ c_flag (ev_conn pe) = FLAG_CONN ∧ c_flag (ev_conn e) ≠ FLAG_CONN.

Lemma opened_done w v x e pe : opened w v x e pe → c_dp (ev_conn e) = Some 0%nat → connecting pe → winv w.
Proof.
  intros (H1 & _ & Hv & Hx & Ev & Ex & P & F & F') D Hc. apply (winv_close [v; x]); [done|].
  assert (session (p_items (w_pool w)) [v; x]) as Hs.
  { eapply tied; [exact Ev|exact Ex|done|done|done|done|done|]. right. by split. }
  intros z Hz _. exists [v; x]. split; [done|]. split; [done|]. by repeat constructor.
Qed.

Lemma s_create_conn w v dst next e : winv w → livew w v → client_at w v e → ev_pair e = None →
  c_flag (ev_conn e) ≠ FLAG_CONN → (∀ b, ev_buff e = Some b → marks_ok b) → addr_ok dst →
  swp (create_conn prm os v dst next) w (λ r w',
    r ≠ 0 ∧ winv w' ∧ livew w' v ∨ r = 0 ∧ ∃ x pe, opened w' v x e pe ∧ ev_cb pe = next).
Proof.
  intros Hw Hv E P F Hb Hd. pose proof (wi_pool Hw) as Hp. destruct (pi_wf Hp) as (T & Hwf & Hsv).
  eapply swp_mono; [apply (create_conn_ok prm os (sy_open _ _ Hsys) T v dst next w Hwf Hv)|].
  intros r w' [(-> & Hs & _)|(-> & x & e0 & e' & pe & Hwf' & [] & E0 & E' & Ex & -> & Px & Cx & Fx & Bx & Sx & _)]; [left|right].
  - split; [done|]. rewrite Hs. destruct (winv_log prm g0 [] N offs (cache_fine prm) w (world_log w') Hw) as [H1 Q1].
    split; [done|]. by apply (quiet_live _ _ _ Q1).
  - assert (e0 = e) as -> by (unfold client_at in *; congruence).
    assert (Hvx : v ≠ x) by (intros ->; done).
    assert (Hlv : livew w' v) by (apply jn_live; by left). assert (Hlx : livew w' x) by (apply jn_live; by right).
    split; [done|]. exists x, pe. split; [|done]. split_and!; try done.
    2: { intros y ey z Hy Ey Pz _. unfold client_at in *. rewrite !elem_of_cons, elem_of_nil in Hy |- *.
         destruct Hy as [-> |[-> |[]]]; [|]; simplify_eq; cbn in *; simplify_eq; auto. }
    2: { by rewrite Fx. }
    pose proof (winv_item _ _ _ _ _ _ w v Hw Hv) as (e1 & E1 & X & _).
    assert (e1 = e) as -> by (unfold client_at in *; congruence).
    destruct (winv_weaken [v; x] w Hw) as [Hp2 ? ? ?]. rewrite jn_rest. split; try done. split; cbn.
    + exists T. split; [done|]. apply Forall_forall. intros y Hy. rewrite Forall_forall in Hsv.
      destruct (Hsv y Hy) as (ey & Ey & Fy).
      assert (y ≠ v) by (intros ->; unfold client_at in E; congruence).
      assert (y ≠ x) by (intros ->; apply jn_new; pose proof (wf_timers_live _ _ Hwf) as HT; rewrite Forall_forall in HT; by apply HT).
      exists ey. by rewrite jn_items.
    + etrans; [exact jn_max|apply Hp].
    + etrans; [exact jn_iters|apply Hp].
    + apply jn_scan, (pi_scan Hp).
    + rewrite jn_root. apply (pi_root Hp).
    + intros y ey Hy Ey. destruct (decide (y = v)) as [->|Hyv]; [|destruct (decide (y = x)) as [->|Hyx]].
      * assert (ey = set_ev_cb Conev.on_ignore (set_ev_pair (Some x) e)) as -> by (unfold client_at in *; congruence).
        destruct X. split; try done. cbn. intros b Hbb. split; [by apply co_buff|right; by apply Hb].
      * assert (ey = pe) as -> by (unfold client_at in *; congruence).
        destruct (zero_conn_ok prm) as (Z1 & Z2 & Z3). split; rewrite ?Bx, ?Sx, ?Fx; cbn; try done; by left.
      * rewrite jn_items in Ey by done. apply (pi_conn Hp y); [|done]. apply jn_live in Hy as [|]; done.
    + intros y Hy Hz. assert (y ≠ v ∧ y ≠ x) as [Hyv Hyx] by set_solver.
      apply jn_live in Hy as [Hy|]; [|done]. apply (in_session_keep (w_pool w) _ [v] y); [| |by apply (pi_sess Hp); [done|set_solver]|set_solver].
      * intros z ez q ->%list_elem_of_singleton Ez Pq. unfold client_at in E. simplify_eq.
      * intros z ez Hz1 Hz2 Ez. assert (z ≠ v) by set_solver. assert (z ≠ x) by (by intros ->).
        split; [apply jn_live; by left|]. exists ez. split; [by rewrite jn_items|done].
Qed.

(** The server gets an address and the callback for when it is connected. *)
Lemma opened_set w v x e pe f : opened w v x e pe → pool_same f → c_flag (ev_conn (f pe)) = c_flag (ev_conn pe) →
  conn_ok prm (f pe) → opened (with_eval w x f) v x e (f pe).
Proof.
  intros (H1 & Hown & Hv & Hx & Ev & Ex & P & F & F') Hf Hfl Hc.
  assert (Hvx : v ≠ x) by (intros ->; unfold client_at in *; simplify_eq; done).
  destruct (winv_set [v; x] w x f pe) as (H2 & Ex' & Hl & Hoth); try done; [set_solver| |congruence|].
  { intros y. destruct (Hf y) as (? & ? & ? & ? & ?). split_and!; auto. }
  destruct (Hf pe) as (_ & _ & _ & _ & Pf). split; [done|]. split; [|split; [by apply Hl|]; split; [by apply Hl|];
    split; [by apply Hoth|]; split_and!; [done|congruence..|done]].
  intros y ey z Hy Ey Pz Hz. destruct (decide (y = x)) as [->|Hyx].
  - apply (Hown x pe z); [done|done|unfold client_at in *; congruence|by apply Hl].
  - assert (client_at w y ey) as Ey'.
    { unfold client_at in *. cbn in Ey. by rewrite list_lookup_alter_ne in Ey. }
    apply (Hown y ey z); [done|done|done|by apply Hl].
Qed.

(** A client on its own changes its callback or the protocol it speaks. *)
Lemma s_lone_upd w v f e : winv w → livew w v → client_at w v e → ev_pair e = None → pool_same f →
  c_flag (ev_conn e) ≠ FLAG_CONN → c_flag (ev_conn (f e)) ≠ FLAG_CONN → waits (f e) → conn_ok prm (f e) →
  winv (with_eval w v f) ∧ livew (with_eval w v f) v ∧ client_at (with_eval w v f) v (f e).
Proof.
  intros Hw Hv E P Hf F F' Hwt Hc. destruct (winv_set [v] w v f e) as (H1 & E1 & Hl & _); try done.
  - by apply winv_weaken.
  - intros x y z ->%list_elem_of_singleton Ey Pz _. unfold client_at in *. simplify_eq.
  - by left.
  - intros x. destruct (Hf x) as (? & ? & ? & ? & ?). split_and!; auto.
  - split_and!; [|by apply Hl|done]. apply (winv_close [v]); [done|]. intros z ->%list_elem_of_singleton _.
    exists [v]. split; [by left|]. split; [|constructor; [by apply Hl|done]].
    apply (alone _ v (f e)); try done. destruct (Hf e) as (_ & _ & _ & _ & ->). done.
Qed.

Context (rand : nat → Z) (junk : Z → bytes).
Context (Hjunk : ∀ n, 0 <= n → blen (junk n) = n ∧ bytes_wf (junk n)).
Abbreviation good := (good prm g0 [] N offs (cache_fine prm)).

(** What a callback leaves: the invariant, and its connection, which may be closed then. *)
Definition served {A} (v : nat) (_ : A) (w : world) : Prop := winv w ∧ livew w v.

Lemma good_served {A} w v (R : A → Prop) a w' : livew w v → good w R a w' → served v a w'.
Proof. intros Hv (_ & H & K). split; [done|]. by apply (kept_live _ _ _ K). Qed.
Lemma served_ret {A} w v (a : A) : winv w → livew w v → swp (mret a) w (served v).
Proof. intros Hw Hv. sstep. by split. Qed.

Lemma q_resp_error fd e f : quietly prm g0 [] N offs (cache_fine prm) (on_pool (resp_error os fd e f)) (λ _, True).
Proof.
  apply q_pool. intros s. unfold resp_error. destruct (_ =? _); [split; [done|]; by eexists|].
  destruct (_ =? _); [split; [done|]; by eexists|]. destruct (_ =? _); [split; [done|]; by eexists|].
  sstep. split; [done|]. exists (p_log s). by destruct s.
Qed.
Lemma same_out g : same_group g0 g → dp_out_addr g = dp_out_addr g0.
Proof. intros H. by destruct (same_fields _ _ Hcfg g H) as (_ & _ & _ & _ & ->). Qed.

(** The marks, if there is a buffer. *)
Definition marked (w : world) (v : nat) : Prop := ∀ o l, marks_at w v = Some (o, l) → 0 <= o <= l ∧ l <= pr_bfsize prm.
Lemma marked_kept w w' v : wkept w w' → marked w v → marked w' v.
Proof. intros [_ K] H o l E. rewrite K in E. by apply H. Qed.
Lemma marked_buff w v e b : client_at w v e → marked w v → conn_ok prm e → ev_buff e = Some b → marks_ok b.
Proof.
  intros E H X Eb. destruct (co_buff X b Eb) as [(B1 & _) _]. destruct (H (b_offset b) (b_lock b)) as [H1 H2].
  { unfold marks_at. unfold client_at in E. rewrite E. cbn. unfold marks_of. by rewrite Eb. }
  split; [done|]. by rewrite B1.
Qed.

Lemma s_connect_hook w v dst : winv w → lone_at w v → marked w v → addr_ok dst →
  swp (connect_hook prm os fuel v dst Conev.on_connect) w (served v).
Proof.
  intros Hw Hl Hm Hd. pose proof (proj1 Hl) as Hv. unfold connect_hook.
  sstep. apply (g_conn_at prm g0 [] N offs (cache_fine prm)); [done..|]. intros e E X.
  sstep. eapply (swp_mono _ _ (good w (λ _, True))).
  { destruct (c_dp _); [sstep; by split_and!|]. eapply g_bind; [by eapply g_cache_get|].
    intros o w1 Ho H1 K1. pose proof (kept_live _ _ _ K1 Hv) as Hv1. destruct o as [x|]; [|sstep; by split_and!].
    destruct (Ho x eq_refl) as [D M]. destruct (winv_item _ _ _ _ _ _ w1 v H1 Hv1) as (e1 & E1 & X1 & _).
    apply (g_updc prm g0 [] N offs (cache_fine prm) w1 v _ e1); try done.
    destruct (conn_fields _ e1 X1). split; try done; by right. }
  intros [] w1 (_ & H1 & K1). apply (marked_kept _ _ _ K1) in Hm. carry K1. clear w Hw E K1.
  sstep. eapply swp_mono; [eapply g_find_dp; [exact Hcfg|exact Hfuel|done|done|]|].
  { intros x Ex. destruct (winv_item _ _ _ _ _ _ w1 v H1 Hv) as (x' & Ex' & X1 & _).
    assert (x' = x) as -> by (unfold client_at in *; congruence). unfold request_of.
    destruct (ev_buff x) as [b|] eqn:Eb; [|done]. pose proof (marked_buff _ _ _ _ Ex Hm X1 Eb) as [_ Hb].
    destruct (co_buff X1 b Eb) as [(B1 & B2 & B3) _]. split; [done|lia]. }
  intros r w2 (Hr & H2 & K2). apply (marked_kept _ _ _ K2) in Hm. carry K2.
  destruct r as [i|]; [|by apply served_ret]. assert (i = 0%nat) as -> by (destruct Hr; congruence).
  destruct (winv_item _ _ _ _ _ _ w2 v H2 Hv) as (e2 & E2 & X2 & _).
  sstep. eapply swp_updc; [exact E2|]. set (w3 := with_eval _ _ _).
  destruct (kept_updc prm g0 [] N offs (cache_fine prm) w2 v (set_c_dp (Some 0%nat)) e2) as [H3 K3]; try done.
  { destruct (conn_fields _ e2 X2). split; try done; by right. }
  fold w3 in H3, K3. pose proof (client_at_with w2 v _ e2 E2 : client_at w3 v _) as E3.
  apply (marked_kept _ _ _ K3) in Hm. carry K3. set (e3 := set_ev_conn _ e2) in E3.
  sstep. apply (swp_group0 _ _ _ _ _ _ w3 _ H3). intros g Eg Hg. sstep. eapply swp_eval_at; [exact E3|].
  destruct Hl as (_ & e3' & E3' & P3 & F3). assert (e3' = e3) as -> by (unfold client_at in *; congruence). clear E3'.
  destruct (winv_item _ _ _ _ _ _ w3 v H3 Hv) as (e3' & E3' & X3 & _).
  assert (e3' = e3) as -> by (unfold client_at in *; congruence). clear E3'.
  pose proof (λ b, marked_buff w3 v e3 b E3 Hm X3) as Hb.
  pose proof Hd as [Hdl Hdw]. destruct (_ && _ && _).
  - sstep. eapply swp_mono; [apply q_resp_error, H3|]. intros r w4 (_ & H4 & Q4).
    pose proof (quiet_live _ _ _ Q4 Hv) as Hv4. pose proof (quiet_at _ _ _ _ Q4 E3) as E4.
    destruct (_ <? 0); [by apply served_ret|]. sstep. eapply swp_upd_eval; [exact E4|].
    destruct (s_lone_upd w4 v (set_ev_cb recv_and_connect) e3) as (H5 & Hv5 & E5); try done; [right; by right| |].
    { destruct X3. split; try done. cbn. intros b Hbb. split; [by apply co_buff|by left]. }
    sstep. eapply swp_mono; [apply (g_updc prm g0 [] N offs (cache_fine prm) _ v _ _ H5 Hv5 E5); try done|].
    { destruct (conn_fields _ e3 X3). by split. }
    intros [] w6 (_ & H6 & K6). apply served_ret; [done|by apply (kept_live _ _ _ K6)].
  - destruct (negb _).
    + sstep. eapply swp_mono; [eapply s_create_conn; try done; rewrite (same_out g Hg); apply (cf_out _ _ Hcfg)|].
      intros r w4 [(Hne & H4 & Hv4)|(-> & x & pe & Ho & Hcb)].
      { destruct (Z.eqb_spec r 0); [done|]. by apply served_ret. }
      change (negb (0 =? 0)) with false. cbv iota. pose proof Ho as (_ & _ & Hv4 & Hx4 & Ev4 & Ex4 & _).
      sstep. eapply swp_eval_at; [exact Ev4|]. sstep. eapply swp_deref; [done|]. sstep. eapply swp_updc; [exact Ex4|].
      apply (opened_set _ _ _ _ _ (λ e, set_ev_conn (set_c_addr dst (set_c_after_conn_cb Conev.on_connect (ev_conn e))) e)) in Ho; try done.
      2: { pose proof Ho as ([Hpw _ _ _] & _). pose proof (pi_conn Hpw x pe Hx4 Ex4) as []. by split. }
      pose proof Ho as (_ & _ & Hv5 & _). apply served_ret; [|done]. eapply opened_done; [exact Ho|done|].
      unfold connecting. cbn. rewrite Hcb. destruct (_ =? _); [right; by split; [left|]|by left].
    + eapply swp_mono; [by eapply s_create_conn|]. intros r w4 [(_ & H4 & Hv4)|(_ & x & pe & Ho & Hcb)]; [by split|].
      pose proof Ho as (_ & _ & Hv5 & _). split; [|done]. eapply opened_done; [exact Ho|done|]. by left.
Qed.

(** * Accepting *)

(** A new connection, that is in no session yet. *)
Definition added_to (w : world) (x : nat) (e : eval) (w' : world) : Prop :=
  ¬ livew w x ∧ client_at w' x e ∧ livew w' x ∧
  (∀ y, livew w y → livew w' y) ∧ (∀ y z, y ≠ x → client_at w y z → client_at w' y z) ∧
  (∀ y z, y ≠ x → client_at w' y z → client_at w y z) ∧ (∀ y, livew w' y → livew w y ∨ y = x).

Lemma s_add_event Z w cb fd t : winvZ Z w → 0 < fd → swp (on_pool (add_event cb fd t)) w (λ r w', match r with
  | None => w' = w
  | Some x => winvZ (x :: Z) w' ∧ ∃ i, added_to w x (fresh_eval N i cb fd) w'
  end).
Proof.
  intros Hw Hfd. pose proof (wi_pool Hw) as Hp. destruct (pi_wf Hp) as (T & Hwf & Hsv).
  eapply swp_mono; [by apply (add_event_joined T)|].
  intros r w' [[-> ->]|(x & i & -> & Hwf' & [] & _ & Ex)]; [done|]. rewrite (pi_iters Hp) in Ex. split.
  2: { exists i. split_and!; try done; [apply jn_live; by right|intros y Hy; apply jn_live; by left| | |intros y Hy; by apply jn_live].
       - intros y z Hy. unfold client_at. by rewrite jn_items.
       - intros y z Hy. unfold client_at. by rewrite jn_items. }
  destruct Hw as [_ ? ? ?]. rewrite jn_rest. split; try done. split; cbn.
  - exists T. split; [done|]. apply Forall_forall. intros y Hy. rewrite Forall_forall in Hsv.
    destruct (Hsv y Hy) as (ey & Ey & Fy).
    assert (y ≠ x) by (intros ->; apply jn_new; pose proof (wf_timers_live _ _ Hwf) as HT; rewrite Forall_forall in HT; by apply HT).
    exists ey. by rewrite jn_items.
  - etrans; [exact jn_max|apply Hp].
  - etrans; [exact jn_iters|apply Hp].
  - apply jn_scan, (pi_scan Hp).
  - rewrite jn_root. apply (pi_root Hp).
  - intros y ey Hy Ey. destruct (decide (y = x)) as [->|Hyx].
    + unfold client_at in Ex. rewrite Ex in Ey. injection Ey as <-.
      destruct (zero_conn_ok prm) as (Z1 & Z2 & Z3). split; cbn; try done; by left.
    + rewrite jn_items in Ey by done. apply (pi_conn Hp y); [|done]. apply jn_live in Hy as [|]; done.
  - intros y Hy Hz. assert (y ≠ x) as Hyx by set_solver. apply jn_live in Hy as [Hy|]; [|done].
    apply (in_session_keep (w_pool w) _ [] y); [set_solver| |apply (pi_sess Hp); [done|set_solver]|set_solver].
    intros z ez Hz1 _ Ez. assert (z ≠ x) by (by intros ->).
    split; [apply jn_live; by left|]. exists ez. split; [by rewrite jn_items|done].
Qed.

Lemma got_addr_ok addr a (P : bytes → Prop) : addr_ok addr → bytes_wf (a_addr a) → (∀ x, addr_ok x → P x) → wp (got_addr addr a) P.
Proof.
  intros [Hl Hw] Ha HP. unfold got_addr. unfold sa_len in *.
  assert (blen (take 28 (a_addr a)) <= 28) by (unfold blen; rewrite length_take; lia).
  apply wp_store; [lia|lia|]. apply HP. pose proof (blen_nonneg (take 28 (a_addr a))).
  split; [unfold sa_len; rewrite blen_put; lia|]. apply wf_put; [done|]. by apply Forall_take.
Qed.

Lemma s_accept_body w v client : winv w → livew w v → addr_ok client →
  swp (accept_body os v client) w (λ r w', winv w' ∧ livew w' v ∧ match r with inl c => addr_ok c | inr _ => True end).
Proof.
  intros Hw Hv Hc. unfold accept_body. sstep. apply (g_eval_at prm g0 [] N offs (cache_fine prm)); [done..|]. intros e E X _.
  sstep. eapply swp_mono; [by apply q_kcall|]. intros a w1 ([pre ->] & H1 & Q1). apply (quiet_live _ _ _ Q1) in Hv.
  pose proof (sy_open _ _ Hsys pre (KAccept (ev_fd e)) eq_refl) as Hpos.
  destruct (sy_bytes _ _ Hsys pre (KAccept (ev_fd e))) as [_ Haw]. set (a := os _) in *.
  destruct (Z.ltb_spec (a_ret a) 0).
  - sstep. eapply swp_mono; [by apply q_get_e|]. intros e1 w2 (_ & H2 & Q2). apply (quiet_live _ _ _ Q2) in Hv.
    sstep. eapply (swp_mono _ _ (λ _ w3, winv w3 ∧ livew w3 v)).
    { destruct (_ =? _); [by sstep|]. eapply swp_mono; [by apply q_get_e|]. intros e2 w3 (_ & H3 & Q3).
      split; [done|by apply (quiet_live _ _ _ Q3)]. }
    intros e2 w3 [H3 Hv3]. destruct (_ || _); [by sstep|]. sstep. sstep. sstep. split; [|done].
    apply (winv_steady prm g0 [] N offs (cache_fine prm) w3); try done.
    + by apply steady_same.
    + destruct (pi_wf (wi_pool H3)) as (T & Hwf & Hsv). exists T. split; [|done]. destruct Hwf. split; try done.
      * intros i x Hi Hx. destruct (wf_live i x Hi Hx) as (ev & pe & ? & ? & []). exists ev, pe. by split_and!.
      * by apply (timers_ext (w_pool w3)).
    + apply (pi_root (wi_pool H3)).
  - sstep. sstep. apply got_addr_ok; [done|done|]. intros c Hc'.
    assert (Hclose : ∀ w', winv w' → livew w' v → swp (sysret os (KClose (a_ret a));; mret (inl c)) w'
      (λ (r : bytes + Z) w', winv w' ∧ livew w' v ∧ match r with inl c => addr_ok c | inr _ => True end)).
    { intros w' H' Hv'. sstep. eapply swp_mono; [by apply q_sysret|]. intros r w2 (_ & H2 & Q2). sstep.
      split; [done|]. split; [by apply (quiet_live _ _ _ Q2)|done]. }
    sstep. eapply swp_mono; [by apply q_sysret|]. intros r w2 (_ & H2 & Q2). apply (quiet_live _ _ _ Q2) in Hv.
    destruct (_ <? 0); [by apply Hclose|].
    sstep. eapply swp_mono; [by apply q_sysret|]. intros r3 w3 (_ & H3 & Q3). apply (quiet_live _ _ _ Q3) in Hv.
    destruct (negb _); [by apply Hclose|].
    sstep. eapply swp_mono; [apply (s_add_event []); [done|apply Hpos; lia]|]. intros [x|] w4; [|intros ->; by apply Hclose].
    intros [H4 (i & Hnew & Ex & Hx & Hlive & _)]. apply Hlive in Hv.
    assert (H5 : winv w4).
    { apply (winv_close [x]); [done|]. intros z ->%list_elem_of_singleton _. exists [x]. split; [by left|].
      split; [|by constructor]. eapply alone; [exact Ex|done|done|]. right; by left. }
    sstep. eapply swp_mono; [apply (g_updc prm g0 [] N offs (cache_fine prm) w4 x _ _ H5 Hx Ex); try done|].
    { destruct (zero_conn_ok prm) as (Z1 & Z2 & Z3). split; cbn; try done; by left. }
    intros [] w5 (_ & H6 & K6). sstep. split; [done|]. split; [by apply (kept_live _ _ _ K6)|done].
Qed.

Lemma s_on_accept w v : winv w → livew w v → snwp (on_accept os junk fuel v) w (served v).
Proof.
  intros Hw Hv. unfold on_accept. apply (snwp_sloop (accept_body os v) (λ c w, winv w ∧ livew w v ∧ addr_ok c)).
  - intros c w1 (H1 & Hv1 & Hc). apply swp_snwp. eapply swp_mono; [by apply s_accept_body|].
    intros [c'|r] w2 (H2 & Hv2 & Hc'); [by split_and!|by split].
  - split_and!; [done|done|]. destruct (Hjunk 28); [lia|]. by split.
Qed.

(** * The tunnel *)

Context (Heng : Engine prm rand junk fuel (same_group g0)).

Lemma marked_start w v e : client_at w v e → conn_ok prm e → ev_cb e ≠ recv_and_connect → marked w v.
Proof.
  intros E X Hcb o l Hm. unfold marks_at in Hm. unfold client_at in E. rewrite E in Hm. cbn in Hm. unfold marks_of in Hm.
  destruct (ev_buff e) as [b|] eqn:Eb; [|done]. cbn in Hm. injection Hm as <- <-.
  destruct (co_buff X b Eb) as [(B1 & _) [H|[H1 H2]]]; [done|]. by rewrite <- B1.
Qed.

(** The two of a tunnel, [x] the one that data comes from. *)
Definition tunnel (w : world) (c v x p : nat) : Prop := winv w ∧ tied_at w c v ∧ (x = c ∧ p = v ∨ x = v ∧ p = c).

Lemma tunnel_kept w w' c v x p : tunnel w c v x p → winv w' → wkeeps w w' → tunnel w' c v x p.
Proof. intros (_ & Ht & Hx) H K. split; [done|]. split; [by eapply tied_keeps|done]. Qed.
Lemma tunnel_ends w c v x p : tunnel w c v x p → ends c v p x.
Proof. intros (_ & _ & [[-> ->]|[-> ->]]); [by left|by right]. Qed.
Lemma tunnel_live w c v x p : tunnel w c v x p → livew w x ∧ livew w p.
Proof. intros (_ & (Hc & Hv & _) & [[-> ->]|[-> ->]]); done. Qed.

(** Two calls of [mod_etype]. *)
Lemma s_mod_etypes {A} w x p t u (f : bool → A) (R : A → world → Prop) : winv w → livew w x → livew w p →
  (∀ w', winv w' → quiet w w' → R (f false) w') →
  swp (r ← on_pool (mod_etype x t);
       bad ← (if negb (r =? 0) then mret true else r ← on_pool (mod_etype p u); mret (negb (r =? 0)));
       mret (f bad)) w R.
Proof.
  intros Hw Hx Hp HR. sstep. apply (q_mod_etype prm g0 [] N offs (cache_fine prm)); [done..|]. intros w1 H1 Q1.
  change (negb (0 =? 0)) with false. cbv iota. sstep. sstep.
  apply (q_mod_etype prm g0 [] N offs (cache_fine prm)); [done|by apply (quiet_live _ _ _ Q1)|]. intros w2 H2 Q2.
  sstep. sstep. apply HR; [done|by etrans].
Qed.

(** The buffer of [x] goes back to the pool. *)
Lemma s_drop_buff {A} w x (k : ST world A) P : winv w → livew w x →
  (∀ w', winv w' → wkeeps w w' → marks_at w' x = None → swp k w' P) →
  swp (e ← eval_at x; on_pool (buff_push (ev_buff e));; upd x (set_ev_buff None);; k) w P.
Proof.
  intros Hw Hx HP. sstep. apply (g_eval_at prm g0 [] N offs (cache_fine prm)); [done..|]. intros e E X _.
  sstep. eapply swp_mono; [apply (buff_push_ok prm g0 [] N offs (cache_fine prm)); [done|intros b Hb; by apply (co_buff X)]|].
  intros _ w1 [H1 C1]. apply (calm_at _ _ _ _ C1) in E. sstep. eapply swp_upd_eval; [exact E|].
  destruct (upd_buff prm g0 [] N offs w1 x (set_ev_buff None) e None) as (H2 & [K2 _] & M2); try done.
  { by apply (calm_live _ _ _ C1). }
  apply HP; [done| |done]. etrans; [by apply calm_keeps|done].
Qed.

Lemma s_take_buff {A} w x (k : ST world A) P : winv w → livew w x →
  (∀ w', winv w' → wkeeps w w' → marks_at w' x = Some (0, 0) → snwp k w' P) →
  snwp (buff ← on_pool (buff_pop junk (pr_bfsize prm)); upd x (set_ev_buff (Some buff));; k) w P.
Proof.
  intros Hw Hx HP. nstep. eapply swp_mono; [by eapply (buff_pop_ok prm g0 [] N offs (cache_fine prm) Hcfg)|].
  intros b w1 ((Hb & Ho & Hl) & H1 & C1). apply (calm_live _ _ _ C1) in Hx.
  destruct (winv_item _ _ _ _ _ _ w1 x H1 Hx) as (e & E & X & _). nstep. eapply swp_upd_eval; [exact E|].
  destruct (upd_buff prm g0 [] N offs w1 x (set_ev_buff (Some b)) e (Some b)) as (H2 & [K2 _] & M2); try done.
  { intros ? [= <-]. split; [done|]. unfold marks_ok. destruct Hb as (Hs & Hbl & _). pose proof (blen_nonneg (b_data b)). lia. }
  apply HP; [done| |].
  - etrans; [by apply calm_keeps|done].
  - rewrite M2. cbn. by rewrite Ho, Hl.
Qed.

Lemma s_tunnel_flush w c v x p : tunnel w c v x p → marked w x →
  swp (tunnel_flush prm os junk rand fuel x (Some p)) w (λ r w', tunnel w' c v x p).
Proof.
  intros Ht Hm. pose proof Ht as (Hw & Htied & _). destruct (tunnel_live _ _ _ _ _ Ht) as [Hx Hp]. unfold tunnel_flush.
  sstep. apply (g_eval_at prm g0 [] N offs (cache_fine prm)); [done..|]. intros e E X _.
  destruct (ev_buff e) as [b|] eqn:Eb; [|by sstep]. pose proof (marked_buff _ _ _ _ E Hm X Eb) as [M1 M2].
  destruct (co_buff X b Eb) as [(B1 & _) _].
  assert (Hmk : marks_at w x = Some (b_offset b, b_lock b)).
  { unfold marks_at. unfold client_at in E. rewrite E. cbn. unfold marks_of. by rewrite Eb. }
  sstep. eapply swp_deref; [done|]. sstep.
  eapply swp_mono; [eapply (g_tcp_send prm os junk rand fuel g0 [] N offs Hsys Hcfg Hjunk Hfuel Heng w c v p x (b_lock b) true
    (b_offset b) (b_lock b)); try done; [by eapply tunnel_ends|lia..]|].
  intros [[sn wait] n'] w1 (H1 & [K1 _] & S3 & S4 & S5). cbn [fst snd] in *.
  apply (tunnel_kept _ w1) in Ht; [|done..]. destruct (tunnel_live _ _ _ _ _ Ht) as [Hx1 Hp1].
  destruct (Z.ltb_spec sn 0); [by sstep|]. destruct (_ || wait).
  - sstep. eapply (g_updb prm g0 [] N offs); [done|done|exact S3| |].
    + intros y (Y1 & Y2 & Y3) Yo Yl. unfold buf_ok, marks_ok. cbn. rewrite Yo, Yl. split_and!; try done; lia.
    + intros y w2 _ _ H2 [K2 _] _. sstep. by apply (tunnel_kept _ w2) in Ht.
  - eapply s_drop_buff; [done|done|]. intros w2 H2 K2 M2'. apply (tunnel_kept _ w2) in Ht; [|done..].
    destruct (tunnel_live _ _ _ _ _ Ht) as [Hx2 Hp2]. apply s_mod_etypes; [done..|].
    intros w3 H3 Q3. apply (tunnel_kept _ w3) in Ht; [done|done|by apply quiet_keeps].
Qed.

(** A round of the loop starts with an empty buffer. *)
Lemma s_tunnel_body w c v x p : tunnel w c v x p → marks_at w x = Some (0, 0) →
  swp (tunnel_body prm os junk rand fuel x (Some p) tt) w (λ r w', tunnel w' c v x p ∧
    match r with inl _ => marks_at w' x = Some (0, 0) | inr _ => True end).
Proof.
  intros Ht Hm. pose proof Ht as (Hw & Htied & Hxp). destruct (tunnel_live _ _ _ _ _ Ht) as [Hx Hp].
  pose proof (cf_size _ _ Hcfg) as Hsz. unfold S_SIZE_I6 in Hsz. unfold tunnel_body.
  assert (Hparty : party w x).
  { left. exists c, v. split; [done|]. destruct Hxp as [[-> _]|[-> _]]; auto. }
  sstep. eapply swp_mono; [by eapply (g_tcp_recv prm os junk rand fuel g0 [] N offs Hsys Hcfg Hjunk Hfuel Heng w x)|].
  intros n w1 (Hn & H1 & K1). apply (kept_marks _ _ _ _ K1) in Hm. apply (tunnel_kept _ w1) in Ht; [|done|by apply K1].
  destruct (Z.eqb_spec n 0); [by sstep|]. destruct (Z.ltb_spec n 0); [by sstep|].
  pose proof Ht as (_ & Htied1 & _). clear w Hw Htied Hx Hp Hparty K1.
  sstep. eapply swp_deref; [done|]. sstep.
  eapply swp_mono; [eapply (g_tcp_send prm os junk rand fuel g0 [] N offs Hsys Hcfg Hjunk Hfuel Heng w1 c v p x n false 0 0);
    try done; [by eapply tunnel_ends|lia..]|].
  intros [[sn wait] n'] w2 (H2 & [K2 _] & S3 & S4 & S5). cbn [fst snd] in *.
  apply (tunnel_kept _ w2) in Ht; [|done..]. destruct (tunnel_live _ _ _ _ _ Ht) as [Hx2 Hp2].
  destruct (Z.ltb_spec sn 0); [by sstep|]. destruct (_ || wait).
  - sstep. eapply (g_updb prm g0 [] N offs); [done|done|exact S3| |].
    + intros y (Y1 & Y2 & Y3) Yo Yl. unfold buf_ok, marks_ok. cbn. split_and!; try done; lia.
    + intros y w3 _ _ H3 [K3 _] _. apply (tunnel_kept _ w3) in Ht; [|done..]. destruct (tunnel_live _ _ _ _ _ Ht) as [Hx3 Hp3].
      apply (s_mod_etypes _ _ _ _ _ (λ bad : bool, inr (if bad then -1 else 1))); [done..|].
      intros w4 H4 Q4. apply (tunnel_kept _ w4) in Ht; [done|done|by apply quiet_keeps].
  - sstep. eapply (g_buff_of prm g0 [] N offs); [done|done|exact S3|]. intros e b E X Eb _ _ _. sstep.
    split; [done|]. by destruct (_ =? _).
Qed.

(** The tunnel from [x] to [p], whatever is left in the buffer. *)
Lemma s_tunnel w c v x p y : tunnel w c v x p → marked w x → y = c ∨ y = v →
  snwp (r ← tunnel_flush prm os junk rand fuel x (Some p);
        match r with
        | inr r => mret r
        | inl _ =>
            buff ← on_pool (buff_pop junk (pr_bfsize prm));
            upd x (set_ev_buff (Some buff));;
            r ← sloop (tunnel_body prm os junk rand fuel x (Some p)) fuel tt;
            if r =? 1 then mret 0 else
            if r <? 0 then mret (-1) else
            e ← eval_at x;
            on_pool (buff_push (ev_buff e));; upd x (set_ev_buff None);; mret 0
        end) w (served y).
Proof.
  intros Ht Hm Hy. assert (Hend : ∀ w', tunnel w' c v x p → winv w' ∧ livew w' y).
  { intros w' (H & (Hc & Hv & _) & _). split; [done|]. by destruct Hy as [-> | ->]. }
  nstep. eapply swp_mono; [by apply s_tunnel_flush|]. intros r w1 Ht1. destruct r as [[]|r]; [|by nstep; apply Hend].
  pose proof Ht1 as (H1 & _). destruct (tunnel_live _ _ _ _ _ Ht1) as [Hx1 _].
  eapply s_take_buff; [done|done|]. intros w2 H2 K2 M2. apply (tunnel_kept _ w2) in Ht1; [|done..].
  apply snwp_bind. apply (snwp_sloop _ (λ _ w, tunnel w c v x p ∧ marks_at w x = Some (0, 0))).
  - intros [] w3 [Ht3 M3]. apply swp_snwp. eapply swp_mono; [by apply s_tunnel_body|].
    intros [[]|z] w4 [Ht4 M4]; [done|]. destruct (z =? 1); [nstep; by apply Hend|]. destruct (z <? 0); [nstep; by apply Hend|].
    pose proof Ht4 as (H4 & _). destruct (tunnel_live _ _ _ _ _ Ht4) as [Hx4 _]. apply swp_snwp.
    eapply s_drop_buff; [done|done|]. intros w5 H5 K5 _. sstep. apply Hend. by apply (tunnel_kept _ w5) in Ht4.
  - done.
Qed.

(** The callback of a tunnel; the timeout is that of the server. *)
Lemma s_on_tunnel w y et ye : winv w → livew w y → client_at w y ye → ev_cb ye = Conev.on_tunnel →
  (et = POLLTIMEOUT → server (w_pool w) y) → snwp (on_tunnel prm os junk rand fuel y et) w (served y).
Proof.
  intros Hw Hy Ey Hcb Hto.
  destruct (session_of w y ye Hw Hy Ey) as [(_ & _ & Hwt)|[(c & x & ce & xe & Ht & Ec & Ex & Hyx & Hcbs)|(t & u & r & _ & Hz)]].
  { exfalso. unfold waits in Hwt. rewrite Hcb in Hwt. naive_solver. }
  2: { exfalso. rewrite Hcb in Hz. naive_solver. }
  assert (Hcbs' : ev_cb ce = Conev.on_tunnel ∧ ev_cb xe = Conev.on_tunnel).
  { destruct Hcbs as [|[Hc Hx]]; [done|]. exfalso. unfold client_at in *. destruct Hyx as [-> | ->]; simplify_eq.
    - congruence.
    - unfold connecting in Hx. rewrite Hcb in Hx. naive_solver. }
  destruct Hcbs' as [Hcc Hcx].
  pose proof Ht as (Hc & Hx & ce' & xe' & Ec' & Ex' & Pc & Px & Fc & Fx & _).
  assert (ce' = ce) as -> by (unfold client_at in *; congruence). assert (xe' = xe) as -> by (unfold client_at in *; congruence).
  assert (Mc : marked w c).
  { destruct (winv_item _ _ _ _ _ _ w c Hw Hc) as (z & Ez & X & _). apply (marked_start w c z); [done|done|].
    assert (z = ce) as -> by (unfold client_at in *; congruence). congruence. }
  assert (Mx : marked w x).
  { destruct (winv_item _ _ _ _ _ _ w x Hw Hx) as (z & Ez & X & _). apply (marked_start w x z); [done|done|].
    assert (z = xe) as -> by (unfold client_at in *; congruence). congruence. }
  (* the two, seen from [y] *)
  assert (∃ p pe, client_at w p pe ∧ ev_pair ye = Some p ∧ ev_pair pe = Some y ∧ livew w p ∧ marked w y ∧ marked w p ∧
    tunnel w c x y p ∧ tunnel w c x p y) as (p & pe & Ep & Py & Pp & Hp & My & Mp & T1 & T2).
  { unfold client_at in *. destruct Hyx as [-> | ->]; simplify_eq.
    - exists x, xe. split_and!; try done; split_and!; auto.
    - exists c, ce. split_and!; try done; split_and!; auto. }
  unfold on_tunnel. nstep. eapply swp_eval_at; [exact Ey|]. nstep.
  apply (swp_mono _ _ (λ late w', w' = w ∧ (late = true → et = POLLTIMEOUT))).
  { destruct (Z.eqb_spec et POLLTIMEOUT); [|by sstep]. sstep. eapply swp_deref; [exact Py|]. sstep. eapply swp_eval_at; [exact Ep|].
    by sstep. }
  intros late ? [-> Hlate]. destruct late.
  { nstep. eapply swp_mono; [|intros ? ? H; by eapply good_served].
    destruct (Hto (Hlate eq_refl)) as (z & Ez & Fz). assert (y = x) as ->.
    { destruct Hyx as [-> | ->]; [|done]. unfold client_at in *. congruence. }
    by eapply (g_on_timeout prm os junk fuel g0 [] N offs). }
  nstep. destruct (_ || _).
  - sstep. eapply swp_deref; [exact Py|]. sstep. eapply swp_eval_at; [exact Ep|]. sstep. rewrite Pp.
    by apply (s_tunnel w c x p y y).
  - sstep. rewrite Py. by apply (s_tunnel w c x y p y).
Qed.

(** * Connected *)

Lemma own_tied w c v : tied_at w c v → own w [c; v].
Proof.
  intros (Hc & Hv & ce & ve & Ec & Ev & Pc & Pv & _) x e y Hx E P _. unfold client_at in *.
  rewrite !elem_of_cons, elem_of_nil in Hx |- *. destruct Hx as [-> |[-> |[]]]; simplify_eq; auto.
Qed.

(** Both ends get the callback of the tunnel. *)
Lemma s_both_tunnel {A} (k : ST world A) P w c v ce ve : winv w → tied_at w c v → client_at w c ce → client_at w v ve →
  ev_cb ce ≠ recv_and_connect → ev_cb ve ≠ recv_and_connect →
  (∀ w', winv w' → tied_at w' c v → client_at w' c (set_ev_cb Conev.on_tunnel ce) →
    client_at w' v (set_ev_cb Conev.on_tunnel ve) → swp k w' P) →
  swp (upd v (set_ev_cb Conev.on_tunnel);; x ← deref (ev_pair ve); upd x (set_ev_cb Conev.on_tunnel);; k) w P.
Proof.
  intros Hw Ht Ec Ev Hcc Hcv HP. pose proof (own_tied _ _ _ Ht) as Hown.
  pose proof Ht as (Hc & Hv & ce' & ve' & Ec' & Ev' & Pc & Pv & Fc & Fv & Dc).
  assert (ce' = ce) as -> by (unfold client_at in *; congruence). assert (ve' = ve) as -> by (unfold client_at in *; congruence).
  assert (Hcv' : c ≠ v) by (intros ->; unfold client_at in *; simplify_eq; done).
  assert (Hok : ∀ x e, livew w x → client_at w x e → ev_cb e ≠ recv_and_connect → conn_ok prm (set_ev_cb Conev.on_tunnel e)).
  { intros x e Hx E Hcb. destruct (winv_item _ _ _ _ _ _ w x Hw Hx) as (e' & E' & X & _).
    assert (e' = e) as -> by (unfold client_at in *; congruence). destruct X. split; try done.
    cbn. intros b Hb. split; [by apply co_buff|]. destruct (co_buff b Hb) as [_ [|]]; [done|by right]. }
  destruct (winv_set [c; v] w v (set_ev_cb Conev.on_tunnel) ve) as (H1 & E1 & L1 & O1); try done.
  { by apply winv_weaken. } { set_solver. } { intros x. split_and!; auto. } { by eapply Hok. }
  sstep. eapply swp_upd_eval; [exact Ev|]. set (w1 := with_eval w v _) in *. pose proof (O1 c ce Hcv' Ec) as Ec1.
  destruct (winv_set [c; v] w1 c (set_ev_cb Conev.on_tunnel) ce) as (H2 & E2 & L2 & O2); try done.
  { intros x e y Hx E Pe Hy. destruct (decide (x = v)) as [->|Hxv].
    - unfold client_at in *. simplify_eq. cbn in Pe. assert (y = c) as -> by congruence. by left.
    - assert (x = c) as -> by set_solver. unfold client_at in *. simplify_eq. set_solver. }
  { set_solver. } { intros x. split_and!; auto. } { by apply (Hok c). }
  sstep. eapply swp_deref; [exact Pv|]. sstep. eapply swp_upd_eval; [exact Ec1|]. set (w2 := with_eval w1 c _) in *.
  pose proof (O2 v _ (not_eq_sym Hcv') E1) as Ev2.
  assert (Hl : livew w2 c ∧ livew w2 v) by (split; by apply L2, L1).
  apply HP; [| |done|done].
  - apply (winv_close [c; v]); [done|]. intros z Hz _. exists [c; v]. split; [done|]. split; [|repeat constructor; apply Hl].
    eapply tied; [exact E2|exact Ev2|done|done|done|done|done|]. by left.
  - split; [apply Hl|]. split; [apply Hl|]. exists (set_ev_cb Conev.on_tunnel ce), (set_ev_cb Conev.on_tunnel ve). by split_and!.
Qed.

(** What the first half of [on_connect] leaves. *)
Definition connect_end (c v : nat) (res : Z + Z) (w : world) : Prop :=
  winv w ∧ tied_at w c v ∧ match res with
  | inr _ => True
  | inl error => error = 0 → ∃ ve, client_at w v ve ∧ ev_cb ve = Conev.on_tunnel
  end.

Lemma s_on_connect w c v ce ve et : winv w → tied_at w c v → client_at w c ce → client_at w v ve →
  ev_cb ce = Conev.on_ignore → connecting ve → snwp (on_connect prm os junk rand fuel v et) w (served v).
Proof.
  intros Hw Ht Ec Ev Hcc Hcv. unfold on_connect.
  pose proof Ht as (Hc & Hv & ce' & ve' & Ec' & Ev' & Pc & Pv & Fc & Fv & Dc).
  assert (ce' = ce) as -> by (unfold client_at in *; congruence). assert (ve' = ve) as -> by (unfold client_at in *; congruence).
  nstep. eapply swp_eval_at; [exact Ev|]. nstep. apply (swp_mono _ _ (connect_end c v)).
  - destruct (has_bit _ _).
    + sstep. eapply swp_mono; [by apply q_kcall|]. intros a w1 ([pre _] & H1 & Q1). pose proof (quiet_kept _ _ Q1) as K1. carry K1.
      destruct (negb _); [by sstep|]. set (error := if _ =? 0 then _ else _).
      assert (He : error ≠ 0) by (subst error; destruct (Z.eqb_spec (le32 (a_data a)) 0); done).
      sstep. eapply (swp_mono _ _ (good w1 (λ r, r = false))).
      { destruct (_ || _); [|by apply g_ret]. unfold on_connerr. eapply g_bind; [by eapply (g_on_trigger prm os junk fuel g0 [] N offs)|].
        intros r w2 -> H2 K2. by apply g_ret. }
      intros r w2 (-> & H2 & K2). carry K2. sstep. by split_and!.
    + sstep. apply (q_mod_etype prm g0 [] N offs (cache_fine prm)); [done..|]. intros w1 H1 Q1.
      change (negb (0 =? 0)) with false. cbv iota. pose proof (quiet_kept _ _ Q1) as K1. carry K1.
      sstep. sstep. eapply swp_deref; [exact Pv|]. sstep. apply (q_mod_etype prm g0 [] N offs (cache_fine prm)); [done..|].
      intros w2 H2 Q2. pose proof (quiet_kept _ _ Q2) as K2. carry K2. sstep. change (negb (0 =? 0)) with false. cbv iota.
      apply (s_both_tunnel _ _ w2 c v ce ve); try done.
      * by apply (quiet_at _ _ _ _ Q2), (quiet_at _ _ _ _ Q1).
      * by apply (quiet_at _ _ _ _ Q2), (quiet_at _ _ _ _ Q1).
      * by rewrite Hcc.
      * destruct Hcv as [H|[[H|H] _]]; by rewrite H.
      * intros w3 H3 Ht3 _ Ev3. sstep. split; [done|]. split; [done|]. intros _. eexists. split; [exact Ev3|done].
  - clear w Hw Ht Ec Ev Ec' Ev' Hc Hv. intros res w (Hw & Ht & Hres).
    pose proof Ht as (Hc & Hv & ce' & ve' & Ec & Ev & Pc' & Pv' & _).
    destruct res as [error|r]; [|by nstep]. nstep. eapply swp_eval_at; [exact Ev|]. nstep. eapply swp_deref; [exact Pv'|].
    nstep. eapply swp_eval_at; [exact Ec|]. destruct (Z.eqb_spec error 0) as [->|]; cbn [andb].
    1: destruct (bool_decide _).
    + destruct (Hres eq_refl) as (y & Ey & Hy). eapply s_on_tunnel; [done|done|exact Ey|done|].
      intros _. destruct Ht as (_ & _ & ? & z & _ & Ez & _ & _ & _ & Fz & _). by exists z.
    + nstep. eapply swp_mono; [by apply q_resp_error|]. intros r w1 (_ & H1 & Q1). pose proof (quiet_kept _ _ Q1) as K1. carry K1.
      nstep. by split.
    + nstep. eapply swp_mono; [by apply q_resp_error|]. intros r w1 (_ & H1 & Q1). pose proof (quiet_kept _ _ Q1) as K1. carry K1.
      nstep. by split.
Qed.

(** * An outgoing SOCKS server *)

(** The client [c] waits for its server [v]. *)
Definition dialing (w : world) (c v : nat) : Prop := winv w ∧ tied_at w c v ∧
  ∃ ce ve, client_at w c ce ∧ client_at w v ve ∧ ev_cb ce = Conev.on_ignore ∧ connecting ve.

Lemma dialing_kept w w' c v : dialing w c v → winv w' → wkept w w' → dialing w' c v.
Proof.
  intros (_ & Ht & ce & ve & Ec & Ev & Hc & Hv) H K. split; [done|]. split; [by eapply tied_kept|].
  destruct (kept_item _ _ _ _ K Ec) as (ce' & Ec' & L1 & _). destruct (kept_item _ _ _ _ K Ev) as (ve' & Ev' & M1 & _ & _ & M4 & _).
  exists ce', ve'. unfold connecting in *. rewrite L1, M1, M4. by split_and!.
Qed.
Lemma dialing_served w c v : dialing w c v → winv w ∧ livew w v.
Proof. intros (H & (_ & Hv & _) & _). by split. Qed.

Lemma s_dialed w c v et : dialing w c v → snwp (on_connect prm os junk rand fuel v et) w (served v).
Proof. intros (Hw & Ht & ce & ve & Ec & Ev & Hc & Hv). by eapply s_on_connect. Qed.

(** The server gets another of the three callbacks. *)
Lemma s_server_cb w c v ve cb : dialing w c v → client_at w v ve → connecting (set_ev_cb cb ve) →
  dialing (with_eval w v (set_ev_cb cb)) c v ∧ client_at (with_eval w v (set_ev_cb cb)) v (set_ev_cb cb ve).
Proof.
  intros (Hw & Ht & ce & ve' & Ec & Ev & Hcc & Hcv) Ev' Hcb. assert (ve' = ve) as -> by (unfold client_at in *; congruence). clear Ev'.
  pose proof Ht as (Hc & Hv & ce' & ve' & Ec' & Ev' & Pc & Pv & Fc & Fv & Dc).
  assert (ce' = ce) as -> by (unfold client_at in *; congruence). assert (ve' = ve) as -> by (unfold client_at in *; congruence).
  assert (Hne : c ≠ v) by (intros ->; unfold client_at in *; simplify_eq; done).
  destruct (winv_set [c; v] w v (set_ev_cb cb) ve) as (H1 & E1 & L1 & O1); try done.
  { by apply winv_weaken. } { by apply own_tied. } { set_solver. } { intros x. split_and!; auto. }
  { destruct (winv_item _ _ _ _ _ _ w v Hw Hv) as (x & Ex & X & _). assert (x = ve) as -> by (unfold client_at in *; congruence).
    destruct X. split; try done. cbn. intros b Hb. split; [by apply co_buff|right]. destruct (co_buff b Hb) as [_ [H|]]; [|done].
    unfold connecting in Hcv. rewrite H in Hcv. naive_solver. }
  set (w1 := with_eval w v _) in *. pose proof (O1 c ce Hne Ec) as Ec1. split; [|done].
  assert (Hl : livew w1 c ∧ livew w1 v) by (split; by apply L1). split.
  - apply (winv_close [c; v]); [done|]. intros z Hz _. exists [c; v]. split; [done|]. split; [|repeat constructor; apply Hl].
    eapply tied; [exact Ec1|exact E1|done|done|done|done|done|]. by right.
  - split; [split; [apply Hl|]; split; [apply Hl|]; exists ce, (set_ev_cb cb ve); by split_and!|].
    exists ce, (set_ev_cb cb ve). by split_and!.
Qed.

Lemma s_on_socks_conn run w c v ve et : dialing w c v → client_at w v ve →
  ev_cb ve = Conev.on_socks_conn ∨ ev_cb ve = Conev.on_socks_recv →
  (∀ w t, dialing w c v → snwp (run Conev.on_connect v t) w (served v)) →
  snwp (on_socks_conn os run v et) w (served v).
Proof.
  intros Hd Ev Hcb Hrun. pose proof (dialing_served _ _ _ Hd) as [Hw Hv]. unfold on_socks_conn.
  assert (Hcn : connecting ve).
  { destruct Hd as (_ & _ & ce & y & _ & Ey & _ & Hy). unfold client_at in *. congruence. }
  assert (Hac : c_after_conn_cb (ev_conn ve) = Conev.on_connect).
  { destruct Hcn as [H|[_ H]]; [|done]. destruct Hcb; congruence. }
  nstep. eapply swp_eval_at; [exact Ev|]. nstep. eapply swp_mono; [by apply q_send|]. intros r w1 (_ & H1 & Q1).
  pose proof (quiet_kept _ _ Q1) as K1. apply (dialing_kept _ w1) in Hd; [|done..]. apply (quiet_at _ _ _ _ Q1) in Ev.
  destruct (_ <? 0); [rewrite Hac; by apply Hrun|]. pose proof (dialing_served _ _ _ Hd) as [_ Hv1].
  nstep. apply (q_mod_etype prm g0 [] N offs (cache_fine prm)); [done..|]. intros w2 H2 Q2.
  pose proof (quiet_kept _ _ Q2) as K2. apply (dialing_kept _ w2) in Hd; [|done..]. apply (quiet_at _ _ _ _ Q2) in Ev.
  change (negb (0 =? 0)) with false. cbv iota. nstep. eapply swp_upd_eval; [exact Ev|]. nstep.
  destruct (s_server_cb w2 c v ve Conev.on_socks_recv Hd Ev) as [H3 _]; [right; split; [by right|done]|].
  by apply dialing_served in H3.
Qed.

Lemma s_on_socks_recv run w c v ve : dialing w c v → client_at w v ve →
  ev_cb ve = Conev.on_socks_conn ∨ ev_cb ve = Conev.on_socks_recv →
  (∀ w t, dialing w c v → snwp (run Conev.on_connect v t) w (served v)) →
  snwp (on_socks_recv os run v) w (served v).
Proof.
  intros Hd Ev Hcb Hrun. pose proof (dialing_served _ _ _ Hd) as [Hw Hv]. unfold on_socks_recv.
  assert (Hcn : connecting ve).
  { destruct Hd as (_ & _ & ce & y & _ & Ey & _ & Hy). unfold client_at in *. congruence. }
  assert (Hac : c_after_conn_cb (ev_conn ve) = Conev.on_connect).
  { destruct Hcn as [H|[_ H]]; [|done]. destruct Hcb; congruence. }
  destruct (winv_item _ _ _ _ _ _ w v Hw Hv) as (x & Ex & X & _). assert (x = ve) as -> by (unfold client_at in *; congruence). clear Ex.
  destruct (co_addr X) as [Ha _].
  nstep. eapply swp_eval_at; [exact Ev|]. rewrite !Hac. nstep. eapply swp_mono; [by apply q_kcall|]. intros a w1 ([pre ->] & H1 & Q1).
  destruct (sy_recv _ _ Hsys pre (ev_fd ve) S_REQ_SIZE) as [R1 R2]; [done|]. set (a := os _) in *. unfold S_REQ_SIZE in R1.
  pose proof (quiet_kept _ _ Q1) as K1. apply (dialing_kept _ w1) in Hd; [|done..]. apply (quiet_at _ _ _ _ Q1) in Ev.
  destruct (Z.ltb_spec (a_ret a) 2); [by apply Hrun|]. specialize (R2 ltac:(lia)).
  nstep. sstep. apply wp_memcpy; [lia|lia|lia|by rewrite blen_repeat|lia|]. set (r := put _ _ _).
  assert (Hr : blen r = 262) by (subst r; rewrite blen_put; rewrite ?blen_sub; rewrite ?blen_repeat; unfold S_REQ_SIZE; lia).
  nstep. sstep. apply wp_rd; [lia|]. nstep. sstep. apply wp_rd; [lia|]. destruct (_ || _); [by apply Hrun|].
  destruct (negb _).
  - nstep. sstep. apply wp_store; [lia|rewrite Hr, blen_cons, blen_nil; lia|]. set (r1 := put r _ _).
    assert (Hr1 : blen r1 = 262) by (subst r1; rewrite blen_put; rewrite ?Hr, ?blen_cons, ?blen_nil; lia).
    nstep. sstep. eapply wp_mono; [apply s5_set_addr_safe; [done|unfold S_SIZE_I6, S_REQ_SIZE; lia|lia|unfold S_SIZE_I6; lia]|].
    intros [len r2] [Hlen Hr2]. cbn [fst snd] in *. nstep. sstep. apply wp_rds; [lia|destruct Hlen as [-> | ->]; unfold S_SIZE_I4, S_SIZE_I6; lia..|].
    nstep. eapply swp_mono; [by apply q_send|]. intros sn w2 (_ & H2 & Q2).
    pose proof (quiet_kept _ _ Q2) as K2. apply (dialing_kept _ w2) in Hd; [|done..].
    destruct (_ <? 0); [by apply Hrun|]. pose proof (dialing_served _ _ _ Hd) as [_ Hv2].
    nstep. eapply swp_mono; [by apply (g_updc_plain prm g0 [] N offs (cache_fine prm)); [done|done|intros []]|].
    intros _ w3 (_ & H3 & K3). apply (dialing_kept _ w3) in Hd; [|done..]. nstep. by apply dialing_served in Hd.
  - nstep. eapply swp_upd_eval; [exact Ev|].
    destruct (s_server_cb w1 c v ve Conev.on_connect Hd Ev) as [H3 _]; [by left|]. by apply Hrun.
Qed.

(** * A first request before the connection *)

Lemma s_on_recv_and_connect w v e : winv w → livew w v → client_at w v e → ev_pair e = None →
  c_flag (ev_conn e) ≠ FLAG_CONN → ev_cb e = recv_and_connect →
  snwp (on_recv_and_connect prm os junk fuel v) w (served v).
Proof.
  intros Hw Hv E P F Hcb. pose proof (cf_size _ _ Hcfg) as Hsz. unfold S_SIZE_I6 in Hsz.
  unfold on_recv_and_connect. eapply s_take_buff; [done|done|]. intros w1 H1 K1 M1.
  assert (Hk : ∃ e, client_at w1 v e ∧ ev_pair e = None ∧ c_flag (ev_conn e) ≠ FLAG_CONN ∧ ev_cb e = recv_and_connect).
  { destruct (kp_items _ _ K1 v e E) as (e1 & E1 & L1 & L2 & L3 & _). exists e1. by rewrite L1, L2, L3. }
  apply (keeps_live _ _ _ K1) in Hv. clear w e Hw E P F Hcb K1. destruct Hk as (e & E & P & F & Hcb).
  nstep. eapply swp_mono; [eapply (g_tcp_recv prm os junk rand fuel g0 [] N offs Hsys Hcfg Hjunk Hfuel Heng w1 v); try done|].
  { right. split; [done|]. by exists e. }
  intros lock w2 (Hlock & H2 & K2). destruct (kept_item _ _ _ _ K2 E) as (e2 & E2 & L1 & L2 & L3 & _).
  apply (kept_marks _ _ _ _ K2) in M1. carry K2. rewrite <- L2 in P. rewrite <- L3 in F. rewrite <- L1 in Hcb. clear w1 e H1 E L1 L2 L3 K2.
  destruct (winv_item _ _ _ _ _ _ w2 v H2 Hv) as (x & Ex & X & _). assert (x = e2) as -> by (unfold client_at in *; congruence). clear Ex.
  assert (∃ b, ev_buff e2 = Some b ∧ b_offset b = 0) as (b & Eb & Ob).
  { unfold marks_at in M1. unfold client_at in E2. rewrite E2 in M1. cbn in M1. unfold marks_of in M1.
    destruct (ev_buff e2) as [b|]; [|done]. exists b. split; [done|]. cbn in M1. congruence. }
  set (f := λ e, set_ev_buff (set_b_lock lock <$> ev_buff e) e).
  destruct (winv_upd _ _ _ _ _ _ w2 v f e2 H2 Hv E2) as (H3 & K3 & E3); [by intros x; split_and!|by split_and!| |].
  { destruct X. split; try done. cbn. rewrite Eb. cbn. intros ? [= <-]. destruct (co_buff b Eb) as [(B1 & B2 & B3) _].
    split; [by split_and!|by left]. }
  nstep. unfold updb. eapply swp_upd_eval; [exact E2|]. fold f. set (w3 := with_eval w2 v f) in *.
  apply (keeps_live _ _ _ K3) in Hv. destruct (Z.leb_spec lock 0); [by nstep|].
  nstep. unfold conn_at. sstep. eapply swp_eval_at; [exact E3|]. sstep. nstep. apply s_connect_hook; [done| | |].
  - split; [done|]. by exists (f e2).
  - intros o l Hm. unfold marks_at in Hm. unfold client_at in E3. rewrite E3 in Hm. cbn in Hm. unfold marks_of in Hm.
    cbn in Hm. rewrite Eb in Hm. cbn in Hm. rewrite Ob in Hm. injection Hm as <- <-. lia.
  - apply (co_addr X).
Qed.

(** * The scratch buffer *)

Definition scratch_in (w : world) : Prop := p_root_buff (w_pool w) ≠ [].

(** The sessions and the marks stay, and so does the scratch buffer. *)
Definition spared (w w' : world) : Prop := wkept w w' ∧ (scratch_in w → scratch_in w').
#[local] Instance spared_preorder : PreOrder spared.
Proof. split; [by intros w|]. intros a b c [H1 S1] [H2 S2]. split; [by etrans|auto]. Qed.
Lemma quiet_spared w w' : quiet w w' → spared w w'.
Proof. intros H. split; [by apply quiet_kept|]. destruct H as [_ H]. unfold scratch_in. by rewrite H. Qed.

Lemma buff_pop_room s : p_buff_count s = Z.of_nat (length (p_root_buff s)) → p_buff_count s <= MAX_BUFF_INP →
  spwp (buff_pop junk (pr_bfsize prm)) s (λ _ s', p_buff_count s' < MAX_BUFF_INP).
Proof.
  intros Hc Hm. unfold buff_pop. apply spwp_bind, spwp_gets. destruct (p_root_buff s).
  - apply spwp_ret. rewrite Hc. done.
  - apply spwp_bind, spwp_modify, spwp_ret. cbn. lia.
Qed.

Lemma s_ppop w : winv w → swp (buff_ppop junk (pr_bfsize prm)) w (λ _ w', winv w' ∧ wkept w w' ∧ scratch_in w').
Proof.
  intros Hw. unfold buff_ppop. sstep.
  eapply swp_mono; [eapply (swp_conj _ _ _ (λ _ w', p_buff_count (w_pool w') < MAX_BUFF_INP))|].
  - by eapply (buff_pop_ok prm g0 [] N offs (cache_fine prm) Hcfg).
  - destruct (pi_wf (wi_pool Hw)) as (T & Hwf & _). destruct (wf_buffs _ _ Hwf) as [B1 B2].
    pose proof (buff_pop_room (w_pool w) B1 B2) as H. unfold spwp, on_pool, mbind, comp_bind in *.
    by destruct (buff_pop junk (pr_bfsize prm) (w_pool w)) as [[b s]|].
  - intros b w1 [(Hb & H1 & C1) Hroom].
    eapply swp_mono; [eapply (swp_conj _ _ _ (λ _ w', scratch_in w'))|].
    + apply (buff_push_ok prm g0 [] N offs (cache_fine prm)); [done|]. intros ? [= <-]. apply Hb.
    + unfold spwp, on_pool, mbind, comp_bind. rewrite buff_push_run. cbn. unfold scratch_in. cbn.
      by rewrite (proj2 (Z.leb_gt _ _) Hroom).
    + intros _ w2 [[H2 C2] Hs]. split; [done|]. split; [|done]. apply calm_kept. by etrans.
Qed.

Lemma s_scratch w (P : buffer → world → Prop) : winv w → scratch_in w → (∀ b, free_ok prm b → P b w) → swp scratch w P.
Proof.
  intros Hw Hs HP. unfold scratch, scratch_in in *. pose proof (pi_root (wi_pool Hw)) as Hr. sstep. sstep. sstep.
  destruct (p_root_buff (w_pool w)) as [|b l]; [done|]. eapply wp_geti; [lia|reflexivity|]. apply HP. by inversion Hr.
Qed.

Lemma s_set_scratch w data (P : unit → world → Prop) : winv w → scratch_in w → blen data = pr_bfsize prm → bytes_wf data →
  (∀ w', winv w' → spared w w' → scratch_in w' → calm w w' → P tt w') → swp (set_scratch data) w P.
Proof.
  intros Hw Hs Hl Hd HP. unfold set_scratch. sstep. apply s_scratch; [done|done|]. intros _ _. sstep.
  assert (Hs' : scratch_in (set_w_pool (set_p_root_buff (alter (set_b_data data) 0%nat (p_root_buff (w_pool w))) (w_pool w)) w)).
  { unfold scratch_in in *. cbn. by destruct (p_root_buff (w_pool w)). }
  assert (C : calm w (set_w_pool (set_p_root_buff (alter (set_b_data data) 0%nat (p_root_buff (w_pool w))) (w_pool w)) w)) by done.
  apply HP; [|split; [by apply calm_kept|done]|done|done].
  pose proof (pi_root (wi_pool Hw)) as Hr. destruct (pi_wf (wi_pool Hw)) as (T & Hwf & Hsv).
  apply (winv_steady prm g0 [] N offs (cache_fine prm) w); try done.
  - by apply calm_steady.
  - exists T. split; [|done]. destruct (wf_buffs _ _ Hwf) as [B1 B2].
    assert (Hn : length (alter (set_b_data data) 0%nat (p_root_buff (w_pool w))) = length (p_root_buff (w_pool w))) by apply length_alter.
    destruct Hwf. split; try done; [|by apply (timers_ext (w_pool w))|by cbn; rewrite Hn].
    intros i x Hi Hx. destruct (wf_live i x Hi Hx) as (ev & pe & ? & ? & []). exists ev, pe. by split_and!.
  - cbn. destruct (p_root_buff (w_pool w)) as [|b l]; [done|]. cbn. inversion Hr as [|? ? Hb]; subst. constructor; [|done].
    destruct Hb as ((B1 & B2 & B3) & Bo & Bl). split; [split; [done|]; split; [cbn; congruence|done]|done].
Qed.

(** An assignment to the fields of a connection. *)
Lemma s_updc w v f (P : unit → world → Prop) : winv w → livew w v →
  (∀ c, fields_ok prm c → fields_ok prm (f c)) → (∀ c, c_flag (f c) = c_flag c ∧ c_after_conn_cb (f c) = c_after_conn_cb c ∧ c_dp (f c) = c_dp c) →
  (∀ w', winv w' → spared w w' → P tt w') → swp (updc v f) w P.
Proof.
  intros Hw Hv Hf Hs HP. destruct (winv_item _ _ _ _ _ _ w v Hw Hv) as (e & E & X & _). destruct (Hs (ev_conn e)) as (S1 & S2 & S3).
  destruct (kept_updc prm g0 [] N offs (cache_fine prm) w v f e) as [H1 K1]; try done.
  { by apply Hf, conn_fields. } { congruence. }
  eapply swp_updc; [exact E|]. by apply HP.
Qed.
Lemma plain_all f : plain_set f → (∀ c, fields_ok prm c → fields_ok prm (f c)) ∧
  (∀ c, c_flag (f c) = c_flag c ∧ c_after_conn_cb (f c) = c_after_conn_cb c ∧ c_dp (f c) = c_dp c).
Proof.
  intros Hf. split; [intros c; by apply plain_fields|]. intros c. by destruct (Hf c) as (_ & H2 & _ & _ & _ & _ & H3 & H4).
Qed.
Lemma addr_all a : addr_ok a → (∀ c, fields_ok prm c → fields_ok prm (set_c_addr a c)) ∧
  (∀ c, c_flag (set_c_addr a c) = c_flag c ∧ c_after_conn_cb (set_c_addr a c) = c_after_conn_cb c ∧ c_dp (set_c_addr a c) = c_dp c).
Proof. intros Ha. split; [|done]. intros c []. by split. Qed.

(** [udp_hook] does not touch the free buffers. *)
Definition rooted {A} (m : ST world A) : Prop := ∀ w, spwp m w (λ _ w', p_root_buff (w_pool w') = p_root_buff (w_pool w)).

Lemma r_ret {A} (a : A) : rooted (mret a).
Proof. by intros w. Qed.
Lemma r_bind {A B} (m : ST world A) (f : A → ST world B) : rooted m → (∀ a, rooted (f a)) → rooted (m ≫= f).
Proof.
  intros Hm Hf w. apply spwp_bind. eapply spwp_mono; [apply Hm|]. intros a w1 E1. eapply spwp_mono; [apply Hf|].
  intros b w2 E2. congruence.
Qed.
Lemma r_lift {A} (c : comp A) : rooted (lift c).
Proof. intros w. apply spwp_lift. by destruct c. Qed.
Lemma r_gets {A} (f : world → A) : rooted (gets f).
Proof. by intros w. Qed.
Lemma r_modify f : (∀ w, p_root_buff (w_pool (f w)) = p_root_buff (w_pool w)) → rooted (modify f).
Proof. intros H w. apply spwp_modify, H. Qed.
Lemma r_sloop {X R} (body : X → ST world (X + R)) n x : (∀ x, rooted (body x)) → rooted (sloop body n x).
Proof.
  intros Hb w. apply (spwp_sloop body (λ _ w', p_root_buff (w_pool w') = p_root_buff (w_pool w))); [|done].
  intros y w1 E1. eapply spwp_mono; [apply Hb|]. intros [] w2 E2; congruence.
Qed.
Lemma r_deref o : rooted (deref o).
Proof. by destruct o; intros w. Qed.
Lemma r_eval_at v : rooted (eval_at v).
Proof.
  intros w. unfold eval_at, spwp, on_pool, item, gets, lift, mbind, st_bind, mbind, comp_bind. by destruct (geti _ _).
Qed.
Lemma r_upd v f : rooted (upd v f).
Proof.
  intros w. unfold upd, spwp, on_pool, upd_item, item, gets, lift, modify, mbind, st_bind, mbind, comp_bind. by destruct (geti _ _).
Qed.
Lemma r_sysret c : rooted (sysret os c).
Proof. by intros w. Qed.
Lemma r_in_desync {A} fd b restore ps (m : (list sys → Z) → ST dstate A) : rooted (in_desync os fd b restore ps m).
Proof.
  intros w. unfold spwp, in_desync, mbind, comp_bind. cbv zeta. by destruct (m _ _) as [[]|].
Qed.

Lemma r_udp_hook v b p n dst : rooted (udp_hook prm os fuel v b p n dst).
Proof.
  pose proof r_deref. pose proof r_eval_at. pose proof r_upd. pose proof r_sysret.
  pose proof (λ fd b restore ps m, @r_in_desync Z fd b restore ps m).
  assert (∀ i, rooted (group i)).
  { intros i. unfold group. apply r_bind; [apply r_gets|]. intros ?. apply r_lift. }
  assert (∀ i f, rooted (upd_group i f)).
  { intros i f. unfold upd_group. apply r_bind; [auto|]. intros ?. by apply r_modify. }
  unfold udp_hook, conn_at, updc, udp_group_body.
  repeat first
    [ progress intros | solve [auto 2] | apply r_ret | apply r_lift | apply r_gets | apply r_bind | apply r_sloop
    | match goal with |- rooted (match ?x with _ => _ end) => destruct x end ].
Qed.

(** * The UDP tunnel *)

(** The loop of [on_udp_tunnel] is at work on the association [t], [u], [r]. *)
Definition udp_ready (t u r : nat) (w : world) : Prop := winv w ∧ assoc_at w t u r ∧ scratch_in w.

Lemma ready_spared t u r w w' : udp_ready t u r w → winv w' → spared w w' → udp_ready t u r w'.
Proof. intros (_ & Ha & Hs) H [K S]. split_and!; [done|by eapply assoc_kept|auto]. Qed.
Lemma ready_quiet t u r w w' : udp_ready t u r w → winv w' → quiet w w' → udp_ready t u r w'.
Proof. intros Hr H Q. eapply ready_spared; [done|done|by apply quiet_spared]. Qed.
Lemma ready_live t u r w : udp_ready t u r w → livew w t ∧ livew w u ∧ livew w r.
Proof. by intros (_ & (?&?&?&_) & _). Qed.

(** A round ends with an address in order, or with the result. *)
Definition round_end (t u r : nat) (x : bytes + Z) (w : world) : Prop :=
  udp_ready t u r w ∧ match x with inl addr => addr_ok addr | inr _ => True end.

Lemma s_udp_send_result t u r w ns addr : udp_ready t u r w → addr_ok addr →
  swp (udp_send_result os ns addr) w (round_end t u r).
Proof.
  intros Hr Ha. unfold udp_send_result. destruct (_ <? 0); [|sstep; by split].
  sstep. eapply swp_mono; [apply q_get_e, Hr|]. intros e w1 (_ & H1 & Q1). apply (ready_quiet _ _ _ _ w1) in Hr; [|done..].
  sstep. split; [done|]. by destruct (_ || _).
Qed.

Lemma s_udp_to_client t u r w addr data n : udp_ready t u r w → addr_ok addr → 0 <= n → S_SIZE_I6 + n <= blen data →
  blen data = pr_bfsize prm → bytes_wf data → swp (udp_to_client os u addr data n) w (round_end t u r).
Proof.
  unfold S_SIZE_I6. intros Hr Ha Hn Hb Hl Hd. unfold udp_to_client. cbv zeta. pose proof (map_fix_addr addr 0 Ha) as [Ha1 Ha2].
  set (a := map_fix addr 0) in *. change S_SIZE_I6 with 22. sstep. sstep. apply wp_memset; [lia..|]. set (d := put data _ _).
  assert (Hdl : blen d = blen data) by (subst d; rewrite blen_put; rewrite ?blen_repeat; lia).
  assert (Hdw : bytes_wf d) by (apply wf_put; [done|apply wf_zeros]).
  sstep. sstep. eapply wp_mono; [apply s5_set_addr_safe; [done|done|done|unfold S_SIZE_I6; lia]|].
  intros [o d'] (Ho & Hd' & Hw'). cbn [fst snd] in *. pose proof Hr as (Hw & _ & Hs).
  sstep. apply s_set_scratch; [done|done|lia|by apply Hw'|]. intros w1 H1 S1 _ _. apply (ready_spared _ _ _ _ w1) in Hr; [|done..].
  unfold S_SIZE_I4, S_SIZE_I6 in Ho. destruct (_ || _) eqn:Eo; [sstep; by split|].
  destruct (ready_live _ _ _ _ Hr) as (_ & Hu & _). sstep. apply (g_eval_at prm g0 [] N offs (cache_fine prm)); [done..|]. intros e E X _.
  sstep. sstep. apply wp_rds; [lia..|]. sstep. eapply swp_mono; [by apply q_sysret|]. intros ns w2 (_ & H2 & Q2).
  apply s_udp_send_result; [by eapply ready_quiet|]. by split.
Qed.

(** A field of one of the three. *)
Lemma s_ready_updc t u r w x f (P : unit → world → Prop) : udp_ready t u r w → x = u ∨ x = r →
  (∀ c, fields_ok prm c → fields_ok prm (f c)) →
  (∀ c, c_flag (f c) = c_flag c ∧ c_after_conn_cb (f c) = c_after_conn_cb c ∧ c_dp (f c) = c_dp c) →
  (∀ w', udp_ready t u r w' → P tt w') → swp (updc x f) w P.
Proof.
  intros Hr Hx Hf Hs HP. destruct (ready_live _ _ _ _ Hr) as (_ & Hu & Hv). apply s_updc; [apply Hr|by destruct Hx as [-> | ->]|done|done|].
  intros w' H' S'. by apply HP; eapply ready_spared.
Qed.

Lemma s_udp_from_client t u r w addr data n : udp_ready t u r w → addr_ok addr → 0 <= n <= blen data →
  blen data = pr_bfsize prm → bytes_wf data → (S_SIZE_MIN <= n → known_type data) →
  swp (udp_from_client prm os fuel u r addr data n) w (round_end t u r).
Proof.
  intros Hr Ha Hn Hl Hd Hk. pose proof (cf_size _ _ Hcfg) as Hsz. unfold S_SIZE_I6 in Hsz.
  unfold udp_from_client. destruct (ready_live _ _ _ _ Hr) as (_ & Hu & _).
  sstep. apply (g_eval_at prm g0 [] N offs (cache_fine prm)); [apply Hr|done|]. intros e E X _.
  sstep. apply (swp_mono _ _ (λ _ w', udp_ready t u r w')).
  { destruct (bool_decide _); [|by sstep]. destruct (negb _); [by sstep|].
    sstep. eapply swp_mono; [apply q_sysret, Hr|]. intros k w1 (_ & H1 & Q1). apply (ready_quiet _ _ _ _ w1) in Hr; [|done..].
    destruct (_ <? 0); [by sstep|]. sstep. apply (s_ready_updc t u r); [done|by left|by apply addr_all..|]. intros w2 Hr2. by sstep. }
  clear w Hr Hu E. intros [k|] w Hr; [by sstep|].
  sstep. sstep. apply wp_rd; [lia|]. destruct (negb _); [by sstep|].
  sstep. eapply swp_mono; [apply (q_pool prm g0 [] N offs (cache_fine prm) _ _ (s5_addr_in prm os Hsys data n addr SOCK_DGRAM Hd (proj2 Hn) Ha Hk)), Hr|].
  intros [o a] w1 ([Ha1 Ho] & H1 & Q1). cbn [fst] in Ho. unfold addr_in in Ha1. cbn [snd] in Ha1.
  apply (ready_quiet _ _ _ _ w1) in Hr; [|done..]. clear w H1 Q1. destruct (Z.ltb_spec o 0); [by sstep|].
  destruct (ready_live _ _ _ _ Hr) as (_ & _ & Hv). unfold S_SIZE_MIN in Ho.
  sstep. apply (g_eval_at prm g0 [] N offs (cache_fine prm)); [apply Hr|done|]. intros pe Ep _ _.
  sstep. apply (swp_mono _ _ (λ x w', udp_ready t u r w' ∧ addr_ok x.2)).
  { destruct (bool_decide _); [|by sstep]. set (a' := if _ =? AF_INET6 then map_fix a 6 else a).
    assert (Ha' : addr_ok a') by (subst a'; destruct (_ =? AF_INET6); [by apply map_fix_addr|done]). cbv zeta.
    destruct (negb _); [by sstep|]. sstep. eapply swp_mono; [apply q_sysret, Hr|]. intros k w2 (_ & H2 & Q2).
    apply (ready_quiet _ _ _ _ w2) in Hr; [|done..]. destruct (_ <? 0); [by sstep|].
    sstep. apply (s_ready_updc t u r); [done|by right|by apply addr_all..|]. intros w3 Hr3. by sstep. }
  clear w1 Hr Hv Ep. intros [stop a'] w [Hr Ha']. cbn [snd] in Ha'. destruct stop; [by sstep|].
  destruct (ready_live _ _ _ _ Hr) as (_ & _ & Hv). sstep. apply (g_conn_at prm g0 [] N offs (cache_fine prm)); [apply Hr|done|]. intros pe' Ep' _.
  pose proof Hr as (Hw & Has & Hs). sstep.
  eapply swp_mono; [eapply (swp_conj _ _ _ _ (g_udp_hook prm os junk rand fuel g0 [] N offs Hsys Hcfg Hfuel Heng w t u r data o (n - o) _ Hw Has _ _ _) (r_udp_hook r data o (n - o) _ w))|].
  Unshelve. 2-4: lia.
  intros ns w2 [(_ & H2 & K2) Er]. apply s_udp_send_result; [|done].
  apply (ready_spared _ _ _ w); [done..|]. split; [done|]. unfold scratch_in. by rewrite Er.
Qed.

Lemma s_udp_body t u r w v p addr : udp_ready t u r w → v = u ∧ p = r ∨ v = r ∧ p = u → addr_ok addr →
  swp (udp_body prm os fuel v p addr) w (round_end t u r).
Proof.
  intros Hr Hvp Ha. pose proof (cf_size _ _ Hcfg) as Hsz. unfold S_SIZE_I6 in Hsz. unfold udp_body.
  destruct (ready_live _ _ _ _ Hr) as (_ & Hu & Hrr). assert (Hv : livew w v) by (by destruct Hvp as [[-> _]|[-> _]]).
  sstep. apply (g_eval_at prm g0 [] N offs (cache_fine prm)); [apply Hr|done|]. intros e E X _.
  assert (Hconn : (c_flag (ev_conn e) =? FLAG_CONN) = true ∧ v = u ∧ p = r ∨ (c_flag (ev_conn e) =? FLAG_CONN) = false ∧ v = r ∧ p = u).
  { destruct Hr as (_ & (_ & _ & _ & te & ue & re & Et & Eu & Er & _ & _ & _ & Ft & Fu & Fr) & _).
    unfold client_at in *. destruct Hvp as [[-> ->]|[-> ->]]; [left|right]; split; try done.
    - assert (ue = e) as <- by congruence. by apply Z.eqb_eq.
    - assert (re = e) as <- by congruence. by apply Z.eqb_neq. }
  sstep. apply s_scratch; [apply Hr|apply Hr|]. intros b ((B1 & B2 & B3) & _ & _).
  cbv zeta. set (conn := _ =? FLAG_CONN) in *. set (off := if conn then 0 else S_SIZE_I6).
  assert (Hoff : 0 <= off <= 22) by (subst off; unfold S_SIZE_I6; destruct conn; lia).
  sstep. unfold syscall. eapply swp_mono; [apply q_kcall, Hr|]. intros a w1 ([pre ->] & H1 & Q1).
  destruct (sy_recvfrom _ _ Hsys pre (ev_fd e) (u64 (b_size b - off))) as [R1 R2]; [rewrite u64_small; lia|].
  destruct (sy_bytes _ _ Hsys pre (KRecvFrom (ev_fd e) (u64 (b_size b - off)))) as [W1 W2].
  pose proof (sy_datagram _ _ Hsys pre (ev_fd e)) as Hdg.
  assert (Hcd : conn = true → b_size b - off = pr_bfsize prm) by (intros Hc; subst off; rewrite Hc; lia).
  assert (Hk : conn = true → let a := os (pre ++ [KRecvFrom (ev_fd e) (u64 (b_size b - off))]) in S_SIZE_MIN <= a_ret a → known_type (a_data a)).
  { intros Hc. rewrite (Hcd Hc). exact Hdg. }
  clear Hdg. cbv zeta in Hk, R1, R2. set (a := os (pre ++ [KRecvFrom (ev_fd e) (u64 (b_size b - off))])) in *.
  rewrite u64_small in R1 by lia.
  apply (ready_quiet _ _ _ _ w1) in Hr; [|done..]. clear w Hv Hu Hrr E H1 Q1.
  destruct (Z.ltb_spec (a_ret a) 0) as [Hn|Hn].
  { sstep. eapply swp_mono; [apply q_get_e, Hr|]. intros er w2 (_ & H2 & Q2). sstep. split; [by eapply ready_quiet|].
    destruct (_ || _); [done|]. by destruct (_ || _). }
  specialize (R2 Hn). sstep. sstep. apply wp_memcpy; [lia..|]. rewrite <- R2, sub_all. set (data := put _ _ _).
  assert (Hdl : blen data = pr_bfsize prm) by (subst data; rewrite blen_put; lia).
  assert (Hdw : bytes_wf data) by (by apply wf_put).
  pose proof Hr as (H1 & _ & Hs1). sstep. apply s_set_scratch; [done|done|done|done|]. intros w2 H2 S2 _ _.
  apply (ready_spared _ _ _ _ w2) in Hr; [|done..]. clear w1 H1 Hs1 H2 S2.
  sstep. sstep. apply got_addr_ok; [done|done|]. intros addr' Ha'.
  assert (Hvx : v = u ∨ v = r) by naive_solver. assert (Hpx : p = u ∨ p = r) by naive_solver.
  assert (Hset : ∀ f, plain_set f → ∀ x w (P : unit → world → Prop), x = u ∨ x = r → udp_ready t u r w →
    (∀ w', udp_ready t u r w' → P tt w') → swp (updc x f) w P).
  { intros f Hf x w P Hx Hrw HP. destruct (plain_all f Hf). by apply (s_ready_updc t u r). }
  sstep. apply Hset; [by intros []|done|done|]. clear w2 Hr. intros w3 Hr.
  sstep. apply (swp_mono _ _ (λ _, udp_ready t u r)).
  { destruct (_ =? 0); [|by sstep]. sstep. apply Hset; [by intros []|done|done|]. clear w3 Hr. intros w4 Hr.
    apply Hset; [by intros []|done|done|]. by intros w5 Hr5. }
  clear w3 Hr. intros _ w Hr. destruct Hconn as [(Hc & -> & ->)|(Hc & -> & ->)]; rewrite Hc.
  - assert (off = 0) as Hz by (subst off; by rewrite Hc). apply s_udp_from_client; [done|done|lia|done|done|].
    intros Hm. rewrite R2 in Hm. specialize (Hk Hc Hm). unfold known_type in *. unfold S_SIZE_MIN in Hm.
    assert (bat data 3 = bat (a_data a) 3) as ->; [|done].
    subst data. rewrite bat_put by lia. rewrite Hz. destruct (Z.leb_spec 0 3); [|lia]. destruct (Z.ltb_spec 3 (0 + blen (a_data a))); [|lia].
    done.
  - assert (off = 22) as Hz by (subst off; by rewrite Hc). apply s_udp_to_client; [done|done|lia|unfold S_SIZE_I6; lia|done|done].
Qed.

Lemma s_on_udp_tunnel w t u r v : winv w → assoc_at w t u r → v = u ∨ v = r →
  snwp (on_udp_tunnel prm os junk fuel v) w (served v).
Proof.
  intros Hw Ha Hv. unfold on_udp_tunnel. nstep. eapply swp_mono; [by apply s_ppop|]. intros _ w1 (H1 & K1 & S1). carry K1.
  pose proof Ha as (_ & _ & _ & te & ue & re & Et & Eu & Er & Pt & Pu & Pr & Ft & Fu & Fr).
  assert (Hr : udp_ready t u r w1) by done.
  assert (Hgo : ∀ p, v = u ∧ p = r ∨ v = r ∧ p = u → snwp (sloop (udp_body prm os fuel v p) fuel (repeat 0 28)) w1 (served v)).
  { intros p Hp. apply (snwp_sloop _ (λ a w, udp_ready t u r w ∧ addr_ok a)); [|split; [done|apply addr_ok_zero]].
    intros a w2 [Hr2 Ha2]. apply swp_snwp. eapply swp_mono; [by eapply s_udp_body|].
    intros [a'|k] w3 [Hr3 Ha3]; [by split|]. destruct (ready_live _ _ _ _ Hr3) as (_ & Hu & Hvr).
    split; [apply Hr3|]. by destruct Hv as [-> | ->]. }
  destruct Hv as [-> | ->].
  - nstep. eapply swp_eval_at; [exact Eu|]. rewrite Fu. change (FLAG_CONN =? FLAG_CONN) with true. cbv iota.
    nstep. eapply swp_deref; [exact Pu|]. apply Hgo. by left.
  - nstep. eapply swp_eval_at; [exact Er|]. destruct (Z.eqb_spec (c_flag (ev_conn re)) FLAG_CONN); [done|]. nstep.
    sstep. eapply swp_deref; [exact Pr|]. sstep. eapply swp_eval_at; [exact Et|]. eapply swp_deref; [exact Pt|].
    apply Hgo. by right.
Qed.

(** * UDP ASSOCIATE *)

(** A client whose request is read. *)
Definition asking (w : world) (v : nat) : Prop := winv w ∧ livew w v ∧
  ∃ e, client_at w v e ∧ ev_pair e = None ∧ c_flag (ev_conn e) ≠ FLAG_CONN ∧ ev_cb e = Conev.on_request.

Lemma asking_kept w w' v : asking w v → winv w' → wkeeps w w' → asking w' v.
Proof.
  intros (_ & Hv & e & E & P & F & Hcb) H K. split; [done|]. split; [by eapply keeps_live|].
  destruct (kp_items _ _ K v e E) as (e' & E' & L1 & L2 & L3 & _). exists e'. by rewrite L1, L2, L3.
Qed.
Lemma asking_quiet w w' v : asking w v → winv w' → quiet w w' → asking w' v.
Proof. intros Ha H Q. eapply asking_kept; [done|done|by apply quiet_keeps]. Qed.
Lemma asking_served {A} w v (a : A) : asking w v → served v a w.
Proof. intros (H & Hv & _). by split. Qed.
Lemma asking_marks w v e b : asking w v → client_at w v e → ev_buff e = Some b → marks_ok b.
Proof.
  intros (Hw & Hv & e' & E' & _ & _ & Hcb) E Eb. assert (e' = e) as -> by (unfold client_at in *; congruence).
  destruct (winv_item _ _ _ _ _ _ w v Hw Hv) as (x & Ex & X & _). assert (x = e) as -> by (unfold client_at in *; congruence).
  destruct (co_buff X b Eb) as [_ [H|]]; [congruence|done].
Qed.
Lemma asking_lone w v : asking w v → lone_at w v ∧ marked w v.
Proof.
  intros Ha. pose proof Ha as (Hw & Hv & e & E & P & F & Hcb). split; [split; [done|by exists e]|].
  destruct (winv_item _ _ _ _ _ _ w v Hw Hv) as (x & Ex & X & _). assert (x = e) as -> by (unfold client_at in *; congruence).
  apply (marked_start w v e); [done|done|]. by rewrite Hcb.
Qed.

(** [remote_sock] leaves the address in order. *)
Definition answers (m : ST world (Z * bytes)) : Prop := ∀ w, spwp m w (λ r _, addr_ok r.2).
Lemma a_ret' r a : addr_ok a → answers (mret (r, a)).
Proof. by intros Ha w. Qed.
Lemma a_bind {A} (m : ST world A) f : (∀ a, answers (f a)) → answers (m ≫= f).
Proof.
  intros Hf w. apply spwp_bind. unfold spwp at 1. destruct (m w) as [[a w']|]; [|done]. apply Hf.
Qed.
Lemma a_if (b : bool) m n : answers m → answers n → answers (if b then m else n).
Proof. by destruct b. Qed.
Lemma a_remote_sock dst type : addr_ok dst → answers (remote_sock prm os dst type).
Proof.
  intros Hd. unfold remote_sock. cbv zeta. pose proof (map_fix_addr dst (if sa_family (pr_baddr prm) =? AF_INET6 then 6 else 0) Hd).
  repeat first [apply a_if | apply a_bind; intros ? | by apply a_ret'].
Qed.

Lemma log_quiet Z w w' : winvZ Z w → same_but_log w w' → winvZ Z w' ∧ quiet w w'.
Proof. intros Hw ->. by apply winv_log. Qed.

Lemma s_remote_sock w dst type (P : Z * bytes → world → Prop) : winv w → addr_ok dst →
  (∀ fd addr w', winv w' → quiet w w' → addr_ok addr → (fd < 0 ∨ 0 < fd) → P (fd, addr) w') →
  swp (remote_sock prm os dst type) w P.
Proof.
  intros Hw Hd HP. eapply swp_mono; [apply (swp_conj _ _ _ _ (remote_sock_ok prm os dst type w) (a_remote_sock dst type Hd w))|].
  intros [fd addr] w1 [[Hs Hl] Ha]. cbn [fst snd] in *. destruct (log_quiet [] w w1 Hw Hs) as [H1 Q1]. apply HP; [done..|].
  destruct Hl as [[-> _]|[_ Hl]]; [by left|right]. by eapply (left_pos os (sy_open _ _ Hsys)).
Qed.
Lemma s_nb_socket Z w d t (P : BinNums.Z → world → Prop) : winvZ Z w →
  (∀ fd w', winvZ Z w' → quiet w w' → (fd < 0 ∨ 0 < fd) → P fd w') → swp (nb_socket os d t) w P.
Proof.
  intros Hw HP. eapply swp_mono; [apply nb_socket_ok|]. intros fd w1 [Hs Hl].
  destruct (log_quiet Z w w1 Hw Hs) as [H1 Q1]. apply HP; [done..|].
  destruct Hl as [[-> _]|[_ Hl]]; [by left|right]. by eapply (left_pos os (sy_open _ _ Hsys)).
Qed.

Lemma three_distinct (v c p : nat) : c ≠ v → c ≠ p → p ≠ v → NoDup [v; c; p].
Proof.
  intros H1 H2 H3. rewrite !NoDup_cons, !elem_of_cons. split_and!; [..|constructor]; rewrite ?elem_of_nil; intuition congruence.
Qed.

(** The three connections of an association are tied. *)
Lemma s_tie_udp {A} (k : ST world A) P w v c p e ce pe a : winvZ [v; c; p] w → NoDup [v; c; p] →
  livew w v → livew w c → livew w p → client_at w v e → client_at w c ce → client_at w p pe →
  ev_pair e = None → ev_pair ce = None → ev_pair pe = None → c_flag (ev_conn e) ≠ FLAG_CONN → c_flag (ev_conn pe) ≠ FLAG_CONN →
  ev_cb ce = Conev.on_udp_tunnel → ev_cb pe = Conev.on_udp_tunnel → (∀ b, ev_buff e = Some b → marks_ok b) → addr_ok a →
  (∀ w', winv w' → livew w' v → swp k w' P) →
  swp (upd v (λ e, set_ev_pair (Some c) (set_ev_cb Conev.on_ignore e));; upd c (set_ev_pair (Some p));;
       upd p (set_ev_pair (Some v));; updc c (λ x, set_c_addr a (set_c_flag FLAG_CONN x));; k) w P.
Proof.
  intros Hw Hnd Hv Hc Hp Ev Ec Ep Pv Pc Pp Fv Fp Bc Bp Hm Ha HP.
  assert (v ≠ c ∧ v ≠ p ∧ c ≠ p) as (N1 & N2 & N3) by (rewrite !NoDup_cons, !elem_of_cons in Hnd; naive_solver). clear Hnd.
  set (Z := [v; c; p]) in *. assert (HZ : v ∈ Z ∧ c ∈ Z ∧ p ∈ Z) by set_solver. destruct HZ as (Z1 & Z2 & Z3).
  assert (Hown : ∀ w x y z, client_at w v x → client_at w c y → client_at w p z →
    ev_pair x = None ∨ ev_pair x = Some c → ev_pair y = None ∨ ev_pair y = Some p → ev_pair z = None ∨ ev_pair z = Some v → own w Z).
  { clear -Z1 Z2 Z3. intros w x y z Ex Ey Ez Px Py Pz q e r Hq E Pe _. unfold client_at in *.
    assert (q = v ∨ q = c ∨ q = p) as [-> |[-> | ->]] by set_solver; simplify_eq; naive_solver. }
  assert (Hok : ∀ x y, livew w x → client_at w x y → conn_ok prm y).
  { intros x y Hx Ey. destruct (winv_item _ _ _ _ _ _ w x Hw Hx) as (y' & E' & X & _). unfold client_at in *. congruence. }
  pose proof (Hok v e Hv Ev) as Xv. pose proof (Hok c ce Hc Ec) as Xc. pose proof (Hok p pe Hp Ep) as Xp. clear Hok.
  set (f1 := λ e, set_ev_pair (Some c) (set_ev_cb Conev.on_ignore e)).
  destruct (winv_set Z w v f1 e) as (H1 & E1 & L1 & O1); try done.
  { eapply (Hown _ e ce pe); eauto. }
  { intros x. split_and!; try done. right. intros y [= <-]. by left. }
  { destruct Xv. split; try done. cbn. intros b Hb. split; [by apply co_buff|right; by apply Hm]. }
  sstep. eapply swp_upd_eval; [exact Ev|]. fold f1. set (w1 := with_eval w v f1) in *.
  pose proof (O1 c ce (not_eq_sym N1) Ec) as Ec1. pose proof (O1 p pe (not_eq_sym N2) Ep) as Ep1.
  set (f2 := set_ev_pair (Some p)). destruct (winv_set Z w1 c f2 ce) as (H2 & E2 & L2 & O2); try done.
  { eapply (Hown _ (f1 e) ce pe); eauto. }
  { intros x. split_and!; try done. right. intros y [= <-]. by left. }
  { by destruct Xc. }
  sstep. eapply swp_upd_eval; [exact Ec1|]. fold f2. set (w2 := with_eval w1 c f2) in *.
  pose proof (O2 v _ N1 E1) as Ev2. pose proof (O2 p pe (not_eq_sym N3) Ep1) as Ep2.
  set (f3 := set_ev_pair (Some v)). destruct (winv_set Z w2 p f3 pe) as (H3 & E3 & L3 & O3); try done.
  { eapply (Hown _ (f1 e) (f2 ce) pe); eauto. }
  { intros x. split_and!; try done. right. intros y [= <-]. by left. }
  { by destruct Xp. }
  sstep. eapply swp_upd_eval; [exact Ep2|]. fold f3. set (w3 := with_eval w2 p f3) in *.
  pose proof (O3 v _ N2 Ev2) as Ev3. pose proof (O3 c _ N3 E2) as Ec3.
  set (f4 := λ x, set_ev_conn (set_c_addr a (set_c_flag FLAG_CONN (ev_conn x))) x).
  destruct (winv_set Z w3 c f4 (f2 ce)) as (H4 & E4 & L4 & O4); try done.
  { eapply (Hown _ (f1 e) (f2 ce) (f3 pe)); eauto. }
  { intros x. split_and!; try done. by left. }
  { by destruct Xc. }
  sstep. eapply swp_updc; [exact Ec3|]. fold f4. set (w4 := with_eval w3 c f4) in *.
  pose proof (O4 v _ N1 Ev3) as Ev4. pose proof (O4 p _ (not_eq_sym N3) E3) as Ep4.
  apply HP; [|done]. apply (winv_close Z); [done|]. intros z Hz _. exists Z. split; [done|]. split; [|by repeat constructor].
  eapply association; [exact Ev4|exact E4|exact Ep4|done..].
Qed.

(** While the descriptor of the server is in no session. *)
Definition halfway (p v : nat) (e pe : eval) (w : world) : Prop := winvZ [p] w ∧ p ≠ v ∧ livew w p ∧ livew w v ∧
  client_at w v e ∧ client_at w p pe ∧ ev_pair pe = None ∧ c_flag (ev_conn pe) ≠ FLAG_CONN ∧ ev_cb pe = Conev.on_udp_tunnel.

Lemma halfway_quiet p v e pe w w' : halfway p v e pe w → winvZ [p] w' → quiet w w' → halfway p v e pe w'.
Proof.
  intros (_ & Hn & Hp & Hv & Ev & Ep & P & F & Hcb) H Q. split_and!; try done;
    [by eapply quiet_live|by eapply quiet_live|by eapply quiet_at|by eapply quiet_at].
Qed.
Lemma s_halfway_drop {A} (k : ST world A) P p v e pe w : halfway p v e pe w → (∀ w', winv w' → livew w' v → swp k w' P) →
  swp (on_pool (del_event os fuel p);; k) w P.
Proof.
  intros (Hw & Hn & Hp & Hv & Ev & Ep & Pp & _ & _) HP. sstep. eapply swp_mono; [by eapply s_del_one|].
  intros _ w1 [H1 Hl]. apply HP; [|by apply Hl]. apply (winv_close [p]); [done|].
  intros z ->%list_elem_of_singleton Hz. apply Hl in Hz. naive_solver.
Qed.

(** The end of [udp_associate]: the address of the new socket goes to the client. *)
Lemma s_associated w v cfd addr e : winv w → livew w v → addr_ok addr →
  swp (a ← syscall os (KGetSockName cfd);
       if negb (a_ret a =? 0) then mret (-1) else
       addr ← lift (got_addr addr a);
       '(len, s5r) ← lift (s5_set_addr (S_VER5 :: repeat 0 (Z.to_nat (S_REQ_SIZE - 1))) 0 S_REQ_SIZE addr false);
       if len <? 0 then mret (-1) else
       l ← lift (rds s5r 0 len);
       r ← on_pool (send os (ev_fd e) l);
       if r <? 0 then mret (-1) else
       r ← on_pool (mod_etype v POLLRDHUP);
       mret (if negb (r =? 0) then -1 else 0)) w (served v).
Proof.
  intros Hw Hv Ha. sstep. unfold syscall. eapply swp_mono; [by apply q_kcall|]. intros a w1 ([pre ->] & H1 & Q1).
  destruct (sy_bytes _ _ Hsys pre (KGetSockName cfd)) as [_ W2]. apply (quiet_live _ _ _ Q1) in Hv.
  destruct (negb _); [by apply served_ret|]. sstep. sstep. apply got_addr_ok; [done|done|]. intros addr' [Ha1 Ha2].
  assert (Hb : blen (S_VER5 :: repeat 0 (Z.to_nat (S_REQ_SIZE - 1))) = 262) by done.
  sstep. sstep. eapply wp_mono; [apply s5_set_addr_safe; [done|unfold S_SIZE_I6, S_REQ_SIZE; lia|lia|rewrite Hb; unfold S_SIZE_I6; lia]|].
  intros [len d] (Hlen & Hd & _). cbn [fst snd] in *. destruct (_ <? 0); [by apply served_ret|].
  sstep. sstep. apply wp_rds; [lia|destruct Hlen as [-> | ->]; rewrite ?Hd, ?Hb; unfold S_SIZE_I4, S_SIZE_I6; lia..|].
  sstep. eapply swp_mono; [by apply q_send|]. intros r w2 (_ & H2 & Q2). apply (quiet_live _ _ _ Q2) in Hv.
  destruct (_ <? 0); [by apply served_ret|]. sstep. apply (q_mod_etype prm g0 [] N offs (cache_fine prm)); [done..|].
  intros w3 H3 Q3. apply served_ret; [done|by apply (quiet_live _ _ _ Q3)].
Qed.

Lemma s_udp_associate w v dst : asking w v → addr_ok dst → swp (udp_associate prm os fuel v dst) w (served v).
Proof.
  intros Ha Hd. unfold udp_associate. sstep. apply s_remote_sock; [apply Ha|done|]. intros ufd addr w1 H1 Q1 Hadr Hufd.
  apply (asking_quiet _ w1) in Ha; [|done..]. clear w Q1. destruct (Z.ltb_spec ufd 0); [sstep; by apply asking_served|].
  sstep. eapply swp_mono; [apply (s_add_event []); [done|lia]|]. intros [p|] w2.
  2: { intros ->. sstep. eapply swp_mono; [by apply q_sysret|]. intros ? w3 (_ & H3 & Q3). sstep.
       eapply asking_served. by eapply asking_quiet. }
  intros (H2 & i & Hnew & Ep & Hp & Hlv & Hkeep & _). pose proof Ha as (_ & Hv & e & E & P & F & Hcb).
  assert (Hpv : p ≠ v) by (intros ->; done).
  destruct (winv_item _ _ _ _ _ _ w1 v H1 Hv) as (x & Ex & X & _). assert (x = e) as -> by (unfold client_at in *; congruence). clear Ex.
  assert (Hm : ∀ b, ev_buff e = Some b → marks_ok b) by (intros b; by eapply asking_marks).
  assert (Hh : halfway p v e (fresh_eval N i Conev.on_udp_tunnel ufd) w2).
  { split_and!; try done; [by apply Hlv|apply Hkeep; [done|exact E]]. }
  clear Ha H2 Ep Hp Hlv Hkeep Hnew Hv E H1. clear w1. rename w2 into w.
  set (pe := fresh_eval _ _ _ _) in *. destruct (co_addr X) as [Xa1 Xa2].
  sstep. eapply swp_eval_at; [apply Hh|]. sstep. unfold syscall at 1. eapply swp_mono; [apply q_kcall, Hh|]. intros a w1 ([pre ->] & H1 & Q1).
  apply (halfway_quiet _ _ _ _ _ w1) in Hh; [|done..]. clear w Q1 H1. rewrite (sy_name _ _ Hsys). change (negb (0 =? 0)) with false. cbv iota.
  destruct (sy_bytes _ _ Hsys pre (KGetSockName (ev_fd e))) as [_ W2].
  sstep. sstep. apply got_addr_ok; [done|done|]. intros addr1 Ha1.
  assert (Hport : ∀ x, addr_ok x → addr_ok (set_port x [0; 0])).
  { intros y Hy. apply addr_ok_port; [done| |done]. apply (wf_zeros 2). }
  sstep. apply (s_nb_socket [p]); [apply Hh|]. intros cfd w2 H2 Q2 Hcfd. apply (halfway_quiet _ _ _ _ _ w2) in Hh; [|done..]. clear w1 Q2 H2.
  destruct (Z.ltb_spec cfd 0).
  { eapply s_halfway_drop; [done|]. intros w3 H3 Hv3. by apply served_ret. }
  assert (Hclose : ∀ w, halfway p v e pe w → swp (on_pool (del_event os fuel p);; sysret os (KClose cfd);; mret (-1)) w (served v)).
  { intros w Hw. eapply s_halfway_drop; [done|]. intros w3 H3 Hv3. sstep. eapply swp_mono; [by apply q_sysret|].
    intros ? w4 (_ & H4 & Q4). apply served_ret; [done|by apply (quiet_live _ _ _ Q4)]. }
  sstep. eapply swp_mono; [apply q_sysret, Hh|]. intros r w3 (_ & H3 & Q3). apply (halfway_quiet _ _ _ _ _ w3) in Hh; [|done..].
  clear w2 Q3 H3. destruct (_ <? 0); [by apply Hclose|].
  sstep. eapply swp_mono; [apply (s_add_event [p]); [apply Hh|lia]|]. intros [c|] w4; [|intros ->; by apply Hclose].
  intros (H4 & j & Hnew & Ec & Hc & Hlv & Hkeep & _). destruct Hh as (_ & _ & Hp & Hv & Ev & Ep & Pp & Fp & Bp).
  assert (c ≠ v ∧ c ≠ p) as [Hcv Hcp] by (split; by intros ->).
  eapply s_tie_udp; [by eapply winv_more; [exact H4|set_solver]| |by apply Hlv|exact Hc|by apply Hlv|
    apply Hkeep; [done|exact Ev]|exact Ec|apply Hkeep; [done|exact Ep]|done..| |].
  - by apply three_distinct.
  - by apply Hport.
  - intros w5 H5 Hv5. apply s_associated; [done|done|by apply Hport].
Qed.

(** * The request of a client *)

Lemma s_ask_flag w v f (P : unit → world → Prop) : asking w v → f ≠ FLAG_CONN → (∀ w', asking w' v → P tt w') →
  swp (updc v (set_c_flag f)) w P.
Proof.
  intros (Hw & Hv & e & E & Pe & F & Hcb) Hf HP. eapply swp_updc; [exact E|].
  destruct (winv_item _ _ _ _ _ _ w v Hw Hv) as (x & Ex & X & _). assert (x = e) as -> by (unfold client_at in *; congruence).
  destruct (s_lone_upd w v (λ e, set_ev_conn (set_c_flag f (ev_conn e)) e) e) as (H1 & Hv1 & E1); try done.
  { right; by left. } { by destruct X. }
  apply HP. split; [done|]. split; [done|]. eexists. split; [exact E1|done].
Qed.

(** The client's buffer is set. *)
Lemma s_ask_upd w v f e o (P : unit → world → Prop) : asking w v → client_at w v e → f e = set_ev_buff o e → pool_same f →
  (∀ b, o = Some b → buf_ok prm b ∧ marks_ok b) → (∀ w', asking w' v → P tt w') → swp (upd v f) w P.
Proof.
  intros Ha E Hf Hs Hb HP. pose proof Ha as (Hw & Hv & _). eapply swp_upd_eval; [exact E|].
  destruct (upd_buff prm g0 [] N offs w v f e o) as (H1 & [K1 _] & _); try done. apply HP. by eapply asking_kept.
Qed.

Lemma s_save_buffer w v n : asking w v → scratch_in w → 0 <= n <= pr_bfsize prm →
  swp (save_buffer prm junk v n) w (λ r w', r = 0 ∧ asking w' v).
Proof.
  intros Ha Hs Hn. unfold save_buffer. sstep. sstep. sstep.
  eapply swp_mono; [eapply (buff_pop_ok prm g0 [] N offs (cache_fine prm)); [exact Hcfg|exact Hjunk|apply Ha]|].
  intros b w1 (((B1 & B2 & B3) & Bo & Bl) & H1 & C1). apply (asking_kept _ w1) in Ha; [|done|by apply calm_keeps].
  sstep. sstep. apply wp_assert; [by apply bool_decide_eq_true|]. clear w Hs C1. pose proof Ha as (_ & Hv & e & E & _).
  sstep. eapply (s_ask_upd _ _ _ e (Some (set_b_lock n b))); [done|done|done|done| |].
  { intros ? [= <-]. split; [done|]. unfold marks_ok. cbn. rewrite Bo. lia. }
  clear w1 H1 Ha Hv e E. intros w Ha. pose proof Ha as (Hw & Hv & _).
  sstep. apply s_updc; [done|done|by apply plain_all; intros []..|]. intros w2 H2 [K2 _].
  apply (asking_kept _ w2) in Ha; [|done|by apply K2]. clear w Hw Hv K2. destruct (pr_auto_reconnect prm); [|by sstep].
  sstep. eapply swp_mono; [by eapply (buff_pop_ok prm g0 [] N offs (cache_fine prm)); [exact Hcfg|exact Hjunk|apply Ha]|].
  intros q w3 (((C1 & C2 & C3) & _) & H3 & C4). apply (asking_kept _ w3) in Ha; [|done|by apply calm_keeps]. clear w2 H2 C4.
  sstep. sstep. apply wp_memcpy; [lia..|]. set (d := put _ _ _).
  pose proof Ha as (_ & Hv & e & E & _). destruct (winv_item _ _ _ _ _ _ w3 v H3 Hv) as (x & Ex & X & _).
  assert (x = e) as -> by (unfold client_at in *; congruence).
  sstep. eapply swp_mono; [apply (g_upd prm g0 [] N offs (cache_fine prm) w3 v _ e); try done|].
  { destruct X. split; try done. cbn. intros ? [= <-]. split; [|cbn; lia]. split; [done|]. cbn.
    split; [subst d; rewrite blen_put; rewrite ?blen_sub; lia|]. apply wf_put; [done|by apply wf_sub]. }
  intros _ w4 (_ & H4 & [K4 _]). sstep. split; [done|]. by eapply asking_kept.
Qed.

Lemma s_handle_s5 w v data n dst : asking w v → addr_ok dst → bytes_wf data → 1 <= n <= blen data → bat data 0 = S_VER5 →
  (like_request data n → known_type data) → swp (handle_s5 prm os fuel v data n dst) w (served v).
Proof.
  intros Ha Hd Hw Hn H5 Hk. unfold handle_s5. sstep. apply (g_eval_at prm g0 [] N offs (cache_fine prm)); [apply Ha|apply Ha|]. intros e E X _.
  destruct (negb _).
  - sstep. eapply swp_mono; [apply (q_pool prm g0 [] N offs (cache_fine prm) _ _ (logs_auth os (ev_fd e) data n (proj2 Hn))), Ha|].
    intros r w1 (_ & H1 & Q1). apply (asking_quiet _ w1) in Ha; [|done..]. destruct (negb _); [sstep; by apply asking_served|].
    sstep. apply s_ask_flag; [done|done|]. intros w2 Ha2. sstep. by apply asking_served.
  - unfold S_SIZE_MIN in *. destruct (Z.ltb_spec n 8); [sstep; by apply asking_served|].
    sstep. sstep. apply wp_rd; [lia|].
    assert (Hget : ∀ type (k : bytes → ST world Z) w, bat data 1 = S_CMD_CONN ∨ bat data 1 = S_CMD_AUDP → asking w v → (∀ dst w, asking w v → addr_ok dst → swp (k dst) w (served v)) →
      swp ('(s5e, dst) ← on_pool (s5_get_addr prm os data 0 n dst type); if 0 <=? s5e then r ← k dst; mret (inl r) else mret (inr s5e))
        w (λ (r : Z + Z) w', served v r w')).
    { intros type k w' Hcmd Ha' Hkk. sstep.
      assert (Hk' : S_SIZE_MIN <= n → known_type data) by (intros ?; apply Hk; by split_and!).
      eapply swp_mono; [apply (q_pool prm g0 [] N offs (cache_fine prm) _ _ (s5_addr_in prm os Hsys data n dst type Hw (proj2 Hn) Hd Hk')), Ha'|].
      intros [o a] w1 ([Ha1 _] & H1 & Q1). apply (asking_quiet _ w1) in Ha'; [|done..].
      destruct (_ <=? _); [|sstep; by apply asking_served]. sstep. eapply swp_mono; [by apply Hkk|]. intros r w2 H2. sstep. exact H2. }
    sstep. apply (swp_mono _ _ (served v)).
    + destruct (Z.eqb_spec (bat data 1) S_CMD_CONN); [|destruct (_ && _) eqn:Eu; [apply andb_prop in Eu as [Eu%Z.eqb_eq _]|sstep; by apply asking_served]].
      * apply Hget; [by left|done|]. intros a w1 Ha1 Hao. destruct (asking_lone _ _ Ha1). apply s_connect_hook; [apply Ha1|done..].
      * apply Hget; [by right|done|]. intros a w1 Ha1 Hao. by apply s_udp_associate.
    + intros [r|s5e] w1 [H1 Hv1]; [by apply served_ret|]. unfold resp_s5_error. sstep.
      eapply swp_mono; [by apply q_send|]. intros r w2 (_ & H2 & Q2).
      apply served_ret; [done|by apply (quiet_live _ _ _ Q2)].
Qed.

(** What the protocol of a request leaves. *)
Definition request_end (v : nat) (r : req_result) (w : world) : Prop :=
  match r with ReqConnect dst => asking w v ∧ addr_ok dst | _ => winv w ∧ livew w v end.

Lemma of_addr_end w v r : asking w v → addr_in r → request_end v (of_addr r) w.
Proof.
  intros Ha Hr. unfold of_addr. destruct (_ =? 0); [by split|]. by apply (asking_served w v 0).
Qed.

Lemma s_read_request w v data n : asking w v → scratch_in w → bytes_wf data → 1 <= n <= blen data → blen data = pr_bfsize prm →
  (has_bit (pr_mode prm) MODE_SOCKS5 = true → like_request data n → known_type data) →
  swp (read_request prm os junk fuel v data n) w (request_end v).
Proof.
  intros Ha Hs Hd Hn Hl Hk. unfold read_request. pose proof addr_ok_zero as Hz.
  sstep. apply (g_eval_at prm g0 [] N offs (cache_fine prm)); [apply Ha|apply Ha|]. intros e E X _. cbv zeta.
  sstep. sstep. apply wp_rd; [lia|].
  assert (Hq : ∀ (m : ST poolhd (Z * bytes)) w, asking w v → logs m addr_in → swp (r ← on_pool m; mret (of_addr r)) w (request_end v)).
  { intros m w1 Ha1 Hm. sstep. eapply swp_mono; [apply (q_pool prm g0 [] N offs (cache_fine prm) _ _ Hm), Ha1|].
    intros r w2 (Hr & H2 & Q2). sstep. apply of_addr_end; [|done]. by eapply asking_quiet. }
  assert (Hsv : ∀ dst, addr_ok dst → ∀ w, asking w v → scratch_in w →
    swp (r ← save_buffer prm junk v n; mret (if negb (r =? 0) then ReqReturn (-1) else ReqConnect dst)) w (request_end v)).
  { intros dst Hdst w1 Ha1 Hs1. sstep. eapply swp_mono; [apply s_save_buffer; [done|done|lia]|].
    intros r w2 [-> Ha2]. sstep. by split. }
  destruct (has_bit (pr_mode prm) MODE_SOCKS5 && _) eqn:E5.
  { apply andb_prop in E5 as [M5 V5%Z.eqb_eq]. sstep. eapply swp_mono; [apply s_handle_s5; try done; auto|].
    intros r w1 H1. sstep. destruct (0 <? r); [done|]. by destruct (r =? 0). }
  clear E5 Hk. destruct (_ && _).
  { sstep. apply s_ask_flag; [done|done|]. intros w1 Ha1. apply Hq; [done|]. apply s4_addr_in; [done|done|lia|done]. }
  sstep. eapply (swp_mono _ _ (λ _ w', w' = w)).
  { destruct (has_bit _ _); [|by sstep]. sstep. unfold is_connect. destruct (Z.ltb_spec 7 n); [|by apply wp_ok].
    unfold memcmp. cbn [Z.eqb]. apply wp_bind, wp_bind, wp_rds; [lia..|]. apply wp_bind, wp_rds; [lia|lia|done|]. by apply wp_ok. }
  intros http ? ->. destruct http.
  { sstep. apply s_ask_flag; [done|done|]. intros w1 Ha1. apply Hq; [done|]. apply http_addr_in; [done|lia|done]. }
  rewrite (cf_mode _ _ Hcfg). cbn [andb].
  sstep. eapply (swp_mono _ _ (λ _ w', w' = w)).
  { destruct (has_bit _ _); [|by sstep]. sstep. rewrite is_tls_chello_eq by (done || lia). by apply wp_ok. }
  intros tls ? ->. destruct tls.
  - sstep. eapply swp_mono; [apply (q_pool prm g0 [] N offs (cache_fine prm) _ _ (tls_addr_in prm os Hsys data n _ Hd (proj2 Hn) Hz)), Ha|].
    intros [er dst] w1 (Hr & H1 & Q1). apply (asking_quiet _ w1) in Ha; [|done..].
    assert (Hs1 : scratch_in w1) by (by apply quiet_spared in Q1 as [_ H]; apply H).
    destruct (negb _); [sstep; by apply (asking_served w1 v 0)|]. by apply Hsv.
  - destruct (has_bit _ _); [|sstep; by apply (asking_served w v 0)]. by apply Hsv.
Qed.

Lemma s_on_request w v : asking w v → swp (on_request prm os junk fuel v) w (served v).
Proof.
  intros Ha. pose proof (cf_size _ _ Hcfg) as Hsz. unfold S_SIZE_I6 in Hsz. unfold on_request.
  sstep. eapply swp_mono; [apply s_ppop, Ha|]. intros _ w1 (H1 & [K1 _] & S1). apply (asking_kept _ w1) in Ha; [|done..]. clear w K1.
  sstep. apply s_scratch; [done|done|]. intros b ((B1 & B2 & B3) & _).
  sstep. apply (g_eval_at prm g0 [] N offs (cache_fine prm)); [apply Ha|apply Ha|]. intros e E X _.
  sstep. unfold syscall. eapply swp_mono; [by apply q_kcall|]. intros a w2 ([pre ->] & H2 & Q2).
  destruct (sy_recv _ _ Hsys pre (ev_fd e) (b_size b)) as [R1 R2]; [lia|].
  pose proof (sy_request _ _ Hsys pre (ev_fd e) (b_size b)) as Rq.
  destruct (sy_bytes _ _ Hsys pre (KRecv (ev_fd e) (b_size b))) as [Rw _]. cbv zeta in R1, R2, Rq.
  set (a := os (pre ++ [KRecv (ev_fd e) (b_size b)])) in *.
  apply (asking_quiet _ w2) in Ha; [|done..]. apply quiet_spared in Q2 as [_ S2]. specialize (S2 S1). clear w1 H1 S1 E.
  destruct (Z.ltb_spec (a_ret a) 1) as [|Hn]; [sstep; by apply asking_served|]. specialize (R2 Hn).
  sstep. sstep. apply wp_memcpy; [lia..|]. rewrite <- R2, sub_all. set (data := put _ _ _).
  assert (Hdl : blen data = pr_bfsize prm) by (subst data; rewrite blen_put; lia).
  assert (Hdw : bytes_wf data) by (by apply wf_put).
  sstep. apply s_set_scratch; [done|done|done|done|]. intros w3 H3 [[K3 _] _] S3 _. apply (asking_kept _ w3) in Ha; [|done..]. clear w2 H2 S2 K3.
  sstep. eapply swp_mono; [apply s_read_request; [done|done|done|lia|done|]|].
  { intros Hm (Hmin & Hv5 & Hcmd). rewrite R2 in Hmin. unfold like_request in Rq. specialize (Rq Hm). unfold S_SIZE_MIN in *. unfold known_type in *.
    assert (Hb : ∀ i, 0 <= i < 8 → bat data i = bat (a_data a) i).
    { intros i Hi. subst data. rewrite bat_put by lia. destruct (Z.leb_spec 0 i); [|lia]. destruct (Z.ltb_spec i (0 + blen (a_data a))); [|lia].
      cbn. f_equal. lia. }
    rewrite Hb in Hv5, Hcmd |- * by lia. apply Rq. by split_and!. }
  clear w3 Ha H3 S3. intros res w Hres. sstep. apply (swp_mono _ _ (served v)).
  - destruct res as [r|dst| |]; try (by apply served_ret; apply Hres). destruct Hres as [Ha Hdst]. destruct (asking_lone _ _ Ha).
    sstep. eapply swp_mono; [by apply s_connect_hook; [apply Ha|..]|]. intros r w1 H1. sstep. exact H1.
  - clear w Hres. intros error w [Hw Hv]. assert (Hend : swp (if (error : bool) then
        e ← eval_at v; on_pool (resp_error os (ev_fd e) ENOENT (c_flag (ev_conn e)));; mret (-1) else mret 0) w (served v)).
    { destruct error; [|by apply served_ret]. sstep. apply (g_eval_at prm g0 [] N offs (cache_fine prm)); [done|done|]. intros e' E' _ _.
      sstep. eapply swp_mono; [by apply q_resp_error|]. intros r w1 (_ & H1 & Q1). apply served_ret; [done|by apply (quiet_live _ _ _ Q1)]. }
    destruct res; [by apply served_ret|exact Hend..].
Qed.

(** * Every callback *)

Abbreviation run_cb := (run_cb prm os junk rand fuel).

Lemma s_run_connect k w c v t : dialing w c v → snwp (run_cb k Conev.on_connect v t) w (served v).
Proof. intros Hd. destruct k as [|k]; [done|]. by eapply s_dialed. Qed.

Lemma s_run_cb k w v e et : winv w → livew w v → client_at w v e → (et = POLLTIMEOUT → server (w_pool w) v) →
  snwp (run_cb k (ev_cb e) v et) w (served v).
Proof.
  intros Hw Hv E Hto. destruct k as [|k]; [done|].
  assert (Hret : ∀ a, snwp (mret a) w (served (A := Z) v)) by (intros a; by apply snwp_ret).
  destruct (session_of w v e Hw Hv E) as [(P & F & Hwt)|[(c & x & ce & xe & Ht & Ec & Ex & Hvx & Hcbs)|(t & u & r & Ha & Hvx)]].
  - destruct Hwt as [H|[H|H]]; rewrite H; cbn [Proxy.run_cb].
    + by apply s_on_accept.
    + apply swp_snwp, s_on_request. split; [done|]. split; [done|]. by exists e.
    + by eapply s_on_recv_and_connect.
  - destruct Hcbs as [[Hc Hx]|[Hc Hx]].
    + assert (ev_cb e = Conev.on_tunnel) as H.
      { unfold client_at in *. destruct Hvx as [-> | ->]; congruence. }
      rewrite H. cbn [Proxy.run_cb]. by eapply s_on_tunnel.
    + destruct Hvx as [-> | ->].
      * assert (e = ce) as -> by (unfold client_at in *; congruence). rewrite Hc. cbn [Proxy.run_cb]. apply Hret.
      * assert (e = xe) as -> by (unfold client_at in *; congruence).
        assert (Hd : dialing w c x) by (split_and!; [done|apply Ht..|]; exists ce, xe; by split_and!).
        destruct Hx as [H|[[H|H] Haf]]; rewrite H; cbn [Proxy.run_cb].
        -- by eapply s_dialed.
        -- eapply s_on_socks_conn; [exact Hd|done|by left|]. intros w1 t1. by apply s_run_connect.
        -- eapply s_on_socks_recv; [exact Hd|done|by right|]. intros w1 t1. by apply s_run_connect.
  - destruct Hvx as [[-> H]|[Hvx H]]; rewrite H; cbn [Proxy.run_cb]; [apply Hret|]. by eapply s_on_udp_tunnel.
Qed.
End serve.
