(* ===== verification/Loop.v ===== *)
(** byedpi never goes wrong (proxy.c, conev.c): [run], from the opening of the listening
    socket to the closing of the pool.

    [next_event_tv] hands out a live connection, and the timeout to servers only; the
    callback of the connection keeps the invariant ([Serve.s_run_cb]), and [del_event] takes a
    connection out with its session.  So the invariant holds at every event, for as long as the
    loop runs.  The example is a visit: a client that greets, has a server connected, sends a
    request, gets the answer and leaves. *)
From Stdlib Require Import ZArith Lia Ascii String.
From stdpp Require Import base numbers list option sorting sets.
From S2P Require Import Prelude CMem PacketsTls PacketsHttp Mpool Params Desync DList Conev Socks Extend World TlsTrack Groups Cache Proxy Requests Engine Session Wire Hooks Serve.

#[local] Open Scope Z_scope.
#[local] Open Scope list_scope.

Lemma on_pool_run {A} (m : ST poolhd A) w (Q : A → world → Prop) :
  swp (on_pool m) w Q → swp m (w_pool w) (λ a p, Q a (set_w_pool p w)).
Proof. unfold swp, on_pool, mbind, comp_bind. by destruct (m (w_pool w)) as [[a p]|]. Qed.

Section loop.
Context (prm : params) (g0 : desync_params) (os : list call → answer) (junk : Z → bytes) (rand : nat → Z) (fuel : nat).

Abbreviation winvN N offs := (winv prm g0 [] N offs (cache_fine prm)).

(** * The next event *)

(** The same connections, in the same round or the next. *)
Lemma winv_conns N offs w s' offs' T : winvN N offs w → same_conns (w_pool w) s' → scan_ok s' offs' →
  pool_wf s' T → Forall (server (w_pool w)) T → winvN (p_iters s') offs' (set_w_pool s' w).
Proof.
  intros [[] ? ? ?] [(E1 & E2 & E3 & E4 & E5 & _) _] Hs Hwf Hsv. split; try done.
  assert (Hl : ∀ v, live s' v ↔ live (w_pool w) v) by (intros v; unfold live; by rewrite E2, E3).
  split; cbn [w_pool set_w_pool]; rewrite ?E5; try done; [|congruence| |].
  - exists T. split; [done|]. unfold server in *. by rewrite E1.
  - intros v e Hv. rewrite E1. apply pi_conn. by apply Hl.
  - intros v Hv Hz. apply (in_session_keep (w_pool w) s' [] v); [set_solver| |apply pi_sess; [by apply Hl|done]|set_solver].
    intros x e Hx _ E. split; [by apply Hl|]. exists e. by rewrite E1.
Qed.

Context (Hfuel : 4 * pr_max_open prm + 10 <= Z.of_nat fuel).
Context (Hsys : system_ok prm os) (Hcfg : config_ok prm g0).

(** What [next_event] and [next_event_tv] leave. *)
Definition event_at (N : Z) (r : option nat * Z * Z) (w : world) : Prop :=
  ∃ N', N <= N' <= N + 1 ∧ winvN N' r.1.2 w ∧ match r.1.1 with
    | Some v => livew w v ∧ (r.2 = POLLTIMEOUT → server (w_pool w) v)
    | None => True
    end.

Lemma s_next_event N offs w typel ms : winvN N offs w → 0 <= N < 2 ^ 64 - 1 →
  swp (on_pool (next_event os fuel offs typel ms)) w (λ r w', event_at N r w' ∧
    (r.1.1 = None → p_tv_start (w_pool w') = p_tv_start (w_pool w) ∧ r.1.2 = offs ∧ winvN N offs w')).
Proof.
  intros Hw HN. pose proof (wi_pool Hw) as Hp. destruct (pi_wf Hp) as (T & Hwf & Hsv).
  pose proof (wf_count _ _ Hwf) as Hc. pose proof (pi_max Hp) as Hm. pose proof (pi_scan Hp) as Hs. pose proof (pi_iters Hp) as Hi.
  apply swp_on_pool. eapply swp_mono; [apply (next_event_ok os ms (w_pool w) T (map (λ p, (pf_fd p, pf_revents p)) (p_pevents (w_pool w))))|].
  - apply (sy_poll _ _ Hsys).
  - done.
  - intros i pe _ E _. by apply (list_elem_of_fmap_2 (λ p, (pf_fd p, pf_revents p))), (list_elem_of_lookup_2 _ i).
  - done.
  - lia.
  - destruct Hs as [Hs _]. lia.
  - intros [[[v|] offs'] t] s' [Hwf' H].
    + destruct H as (Hv & Hsc & Ht & Hsame & _). pose proof Hsame as [_ Hit]. split; [|done].
      exists (p_iters s'). split; [lia|]. split; [by eapply winv_conns|]. split; [done|]. by intros Hto.
    + destruct H as (-> & _ & _ & ->).
      set (w' := set_w_pool (polled _ _ _) w). assert (H' : winvN N offs w').
      { apply (winv_steady prm g0 [] N offs (cache_fine prm) w); try done; [by apply steady_same|by exists T|apply (pi_root Hp)]. }
      split; [|intros _; by split_and!]. exists N. split; [lia|]. by split.
Qed.

Lemma s_next_event_tv N offs w typel : winvN N offs w → 0 <= N < 2 ^ 64 - 1 →
  swp (on_pool (next_event_tv os fuel offs typel)) w (event_at N).
Proof.
  intros Hw HN. apply swp_on_pool. unfold next_event_tv. sstep. sstep.
  pose proof (wi_pool Hw) as Hp. destruct (pi_wf Hp) as (T & Hwf & Hsv).
  destruct (p_tv_start (w_pool w)) as [v|] eqn:Est.
  2: { eapply swp_mono; [apply on_pool_run, (s_next_event N offs w typel (-1) Hw HN)|]. by intros r s' [H _]. }
  assert (HvT : v ∈ T).
  { pose proof (tm_start _ _ (wf_timers _ _ Hwf)) as H. rewrite Est in H. destruct T as [|x T]; [done|]. injection H as ->. by left. }
  assert (Hv : livew w v ∧ server (w_pool w) v).
  { pose proof (wf_timers_live _ _ Hwf) as H. rewrite Forall_forall in H, Hsv. split; [by apply H|by apply Hsv]. }
  destruct Hv as [Hv Hsrv]. destruct (live_lookup _ _ _ Hwf Hv) as (_ & e & _ & _ & _ & E & _).
  sstep. eapply swp_item; [exact E|]. sstep. apply swp_kret. set (l := p_log (w_pool w) ++ [KTimeMs]).
  destruct (winv_log prm g0 [] N offs (cache_fine prm) w l Hw) as [H1 Q1]. set (w1 := with_log l w) in *. cbv zeta.
  sstep. apply (swp_mono _ _ (λ r s', let w' := set_w_pool s' w in event_at N r w' ∧
    (r.1.1 = None → p_tv_start s' = Some v ∧ winvN N offs w' ∧ r.1.2 = offs))).
  { destruct (0 <? _).
    - eapply swp_mono; [apply (on_pool_run _ w1), (s_next_event N offs w1 typel _ H1 HN)|].
      intros r s' [He Hn]. split; [exact He|]. intros Hr. destruct (Hn Hr) as (Hst & Ho & Hw'). split; [|split; [exact Hw'|exact Ho]].
      etrans; [exact Hst|exact Est].
    - sstep. split; [|done]. exists N. split; [lia|]. by split. }
  intros [[val offs'] t] s1 [He Hn]. cbn [fst snd] in *. sstep. sstep. destruct val as [x|]; [by sstep|].
  destruct (Hn eq_refl) as (Est1 & H2 & ->). rewrite Est1. clear He Hn. set (w2 := set_w_pool s1 w) in *.
  destruct (Z.eqb_spec t POLLTIMEOUT) as [->|]; [|sstep; exists N; split; [lia|]; by split].
  destruct (pi_wf (wi_pool H2)) as (T2 & Hwf2 & Hsv2).
  assert (Hv2 : livew w2 v ∧ server (w_pool w2) v).
  { assert (HvT2 : v ∈ T2).
    { pose proof (tm_start _ _ (wf_timers _ _ Hwf2)) as H. cbn in H. rewrite Est1 in H. destruct T2 as [|x T2]; [done|]. injection H as ->. by left. }
    pose proof (wf_timers_live _ _ Hwf2) as H. rewrite Forall_forall in H, Hsv2. split; [by apply H|by apply Hsv2]. }
  destruct Hv2 as [Hv2 Hs2]. sstep.
  eapply swp_mono; [apply (on_pool_run (remove_timer v) w2), (remove_timer_run prm g0 [] N offs (cache_fine prm) v w2 H2 Hv2)|].
  intros [] s3 [H3 R3]. sstep. pose proof (retimed_keeps _ _ R3) as K3. exists N. split; [lia|]. split; [done|].
  split; [by eapply keeps_live|]. intros _. assert (Forall (server (w_pool w2)) [v]) as HF by (by constructor).
  eapply server_keeps in HF; [|exact K3]. by inversion HF.
Qed.

(** * The loop *)

Context (Hjunk : ∀ n, 0 <= n → blen (junk n) = n ∧ bytes_wf (junk n)).
Context (Heng : Engine prm rand junk fuel (same_group g0)).

(** One event, with [x] as the last round left it. *)
Lemma s_event_body N x w : winvN N x.1 w → 0 <= N < 2 ^ 64 - 1 →
  snwp (event_body prm os junk rand fuel x) w (λ r w', ∃ N' offs, N <= N' <= N + 1 ∧ winvN N' offs w' ∧
    match r with inl y => y.1 = offs | inr _ => True end).
Proof.
  destruct x as [offs et]. cbn [fst]. intros Hw HN. unfold event_body. nstep. sstep.
  destruct (p_brk (w_pool w)); [nstep; exists N, offs; split; [lia|by split]|].
  nstep. eapply swp_mono; [by eapply (s_next_event_tv N offs)|]. intros [[val i] t] w1 (N' & HN' & H1 & Hv). cbn [fst snd] in *.
  destruct val as [v|].
  2: { nstep. eapply swp_mono; [by apply (q_get_e prm os g0 [] N' i (cache_fine prm))|]. intros e w2 (_ & H2 & _). nstep.
       exists N', i. split; [lia|]. split; [done|]. by destruct (_ =? _). }
  destruct Hv as [Hv Hto]. nstep. apply (g_eval_at prm g0 [] N' i (cache_fine prm)); [done|done|]. intros e E _ _.
  apply snwp_bind. eapply snwp_mono; [by eapply (s_run_cb prm g0 N' i os fuel Hfuel Hsys Hcfg rand junk Hjunk Heng)|].
  intros ret w2 [H2 Hv2]. nstep. apply (swp_mono _ _ (λ _ w', winvN N' i w')).
  - destruct (ret <? 0); [|by sstep]. by apply (s_del_event prm g0 N' i os fuel Hfuel []).
  - intros _ w3 H3. nstep. exists N', i. by split.
Qed.

(** The loop from round [N], for fewer than 2^64 events. *)
Lemma s_loop_event N w : winvN N (-1) w → 0 <= N → N + Z.of_nat fuel < 2 ^ 64 →
  snwp (loop_event prm os junk rand fuel) w (λ _ w', ∃ N' offs, winvN N' offs w').
Proof.
  intros Hw HN Hfl. unfold loop_event.
  apply (snwp_sloop_fuel _ (λ k x w, ∃ N', 0 <= N' ∧ N' + Z.of_nat k < 2 ^ 64 ∧ winvN N' x.1 w)); [|by exists N].
  intros k x w1 (N1 & H1 & Hk & Hw1). eapply snwp_mono; [apply (s_event_body N1 x w1 Hw1); lia|].
  intros [y|[]] w2 (N2 & o & HN2 & Hw2 & Hy); [|by exists N2, o]. subst o. exists N2. split; [lia|]. split; [lia|done].
Qed.

(** An empty pool. *)
Lemma init_winv w l items pevents : length items = Z.to_nat (pr_max_open prm * 2 + 1) → length pevents = Z.to_nat (pr_max_open prm * 2 + 1) →
  (∃ g, w_dps w = [g] ∧ same_group g0 g) → w_dp w = Some 0%nat → cache_fine prm (w_mempool w) →
  winvN 0 (-1) (set_w_pool (set_p_log l (init_pool (pr_max_open prm * 2 + 1) items pevents)) w).
Proof.
  intros Hi Hp Hg Hd Hc. pose proof (cf_open _ _ Hcfg). split; try done.
  assert (Hn : ∀ v, ¬ live (init_pool (pr_max_open prm * 2 + 1) items pevents) v) by (intros v (i & Hv & _); cbn in Hv; lia).
  split; try done.
  - exists []. split; [|constructor]. apply log_wf, init_pool_wf; [lia|done|done].
  - split; [cbn; lia|]. intros i v Hiv. cbn in Hiv. lia.
  - intros v e Hv. by destruct (Hn v).
  - intros v Hv. by destruct (Hn v).
Qed.

(** The listener is a session of its own. *)
Lemma s_listen w srvfd : winvN 0 (-1) w → 0 < srvfd →
  swp (on_pool (add_event Conev.on_accept srvfd POLLIN)) w (λ r w', match r with Some _ => winvN 0 (-1) w' | None => w' = w end).
Proof.
  intros H0 Hfd. eapply swp_mono; [by eapply (s_add_event prm g0 0 (-1) os fuel Hfuel Hsys Hcfg rand junk Hjunk [])|].
  intros [v|] w1; [|done]. intros (H1 & i & _ & Ev & Hv & _).
  apply (winv_close prm g0 0 (-1) [v]); [done|]. intros z ->%list_elem_of_singleton _. exists [v]. split; [by left|].
  split; [|by constructor]. eapply alone; [exact Ev|done|done|by left].
Qed.

Lemma s_start w items pevents srvfd : length items = Z.to_nat (pr_max_open prm * 2 + 1) →
  length pevents = Z.to_nat (pr_max_open prm * 2 + 1) → 0 < srvfd → Z.of_nat fuel < 2 ^ 64 →
  (∃ g, w_dps w = [g] ∧ same_group g0 g) → w_dp w = Some 0%nat → cache_fine prm (w_mempool w) →
  snwp (start_event_loop prm os junk rand fuel items pevents srvfd) w (λ r w', r = -1 ∨ r = 0 ∧ p_count (w_pool w') = 0).
Proof.
  intros Hi Hp Hfd Hfl Hg Hd Hc. unfold start_event_loop. nstep. sstep.
  pose proof (init_winv w (p_log (w_pool w)) items pevents Hi Hp Hg Hd Hc) as H0. set (w0 := set_w_pool _ w) in *.
  assert (Hdestroy : ∀ N' o w (P : unit → world → Prop), winvN N' o w → (∀ w', p_count (w_pool w') = 0 → P tt w') →
    swp (on_pool (destroy_pool os fuel)) w P).
  { intros N' o w1 P H1 HP. destruct (pi_wf (wi_pool H1)) as (T & Hwf & _). pose proof (wf_count _ _ Hwf).
    pose proof (pi_max (wi_pool H1)). pose proof (cf_open _ _ Hcfg). apply swp_on_pool.
    eapply swp_mono; [by apply (destroy_pool_ok os _ T); [|lia]|]. intros [] s (_ & _ & _ & H' & _). by apply HP. }
  nstep. eapply swp_mono; [by eapply s_listen|]. intros [v|] w1.
  - intros H2.
    apply snwp_bind. eapply snwp_mono; [apply (s_loop_event 0); [done|lia|lia]|]. intros _ w2 (N2 & o & H3).
    nstep. eapply Hdestroy; [exact H3|]. intros w3 Hw3. nstep. by right.
  - intros ->. nstep. eapply Hdestroy; [exact H0|]. intros w3 Hw3. nstep. apply swp_sysret. nstep. by left.
Qed.

Lemma s_run w items pevents srv : length items = Z.to_nat (pr_max_open prm * 2 + 1) →
  length pevents = Z.to_nat (pr_max_open prm * 2 + 1) → Z.of_nat fuel < 2 ^ 64 →
  (∃ g, w_dps w = [g] ∧ same_group g0 g) → w_dp w = Some 0%nat → cache_fine prm (w_mempool w) →
  snwp (run prm os junk rand fuel items pevents srv) w (λ r w', r = -1 ∨ r = 0 ∧ p_count (w_pool w') = 0).
Proof.
  intros Hi Hp Hfl Hg Hd Hc. unfold run. nstep. eapply swp_mono; [apply listen_socket_ok|].
  intros fd w1 [Hs [[-> _]|[Hfd Hl]]]; [nstep; by left|]. destruct (Z.ltb_spec fd 0); [lia|].
  apply s_start; try done; [by eapply (left_pos os (sy_open _ _ Hsys))|by rewrite Hs..].
Qed.
End loop.

(** * Properties *)


(** C2: the invariant of the event loop holds from event to event.  When every live
    connection is a listener or a client on its own, a client with its server, or one of
    the three of a UDP association ([Session.session]), with its buffers, marks, address and
    tracker in order and with timers for servers only, then, in the setting of [run_never_faults], the next event does not go wrong,
    whichever it is, and leaves the pool so, in this round of [poll] or the next. *)
Theorem event_keeps_sessions prm g0 os junk rand fuel N x w :
  config_ok prm g0 → system_ok prm os → (∀ n, 0 <= n → blen (junk n) = n ∧ bytes_wf (junk n)) →
  Engine prm rand junk fuel (same_group g0) → 4 * pr_max_open prm + 10 <= Z.of_nat fuel →
  winv prm g0 [] N x.1 (cache_fine prm) w → 0 <= N < 2 ^ 64 - 1 →
  snwp (event_body prm os junk rand fuel x) w (λ r w', ∃ N' offs, N <= N' <= N + 1 ∧
    winv prm g0 [] N' offs (cache_fine prm) w' ∧ match r with inl y => y.1 = offs | inr _ => True end).
Proof. intros Hcfg Hsys Hjunk Heng Hf Hw HN. by eapply s_event_body. Qed.

(** ** A visit *)

(** One client greets, asks for 10.0.0.1:80, sends a request, gets an answer and leaves.
    What [poll] reports, and what the client and the server send, in order. *)
Definition visit_polls : list (list Z) :=
  [[POLLIN]; [0; POLLIN]; [0; POLLIN]; [0; 0; POLLOUT]; [0; POLLIN]; [0; 0; POLLIN]; [0; POLLIN]].
Definition visit_data : list bytes :=
  [[5; 1; 0]; [5; 1; 0; 1; 10; 0; 0; 1; 0; 80]; bs "GET / HTTP/1.0"; bs "HTTP/1.0 204 None"].

Definition same_kind (f : call → bool) (l : list call) : nat := length (List.filter f l) - 1.
Definition visit_os (l : list call) : answer :=
  match list.last l with
  | Some (KSocket _ _) => Answer (2 + Z.of_nat (length l)) [] [] []
  | Some (KAccept _) =>
      if (same_kind (λ c, match c with KAccept _ => true | _ => false end) l =? 0)%nat
      then Answer (2 + Z.of_nat (length l)) [] v4_sample [] else Answer (-1) [] [] []
  | Some (KPoll fds _) =>
      let rev := nth (same_kind (λ c, match c with KPoll _ _ => true | _ => false end) l) visit_polls [] in
      Answer (if existsb (λ x, negb (x =? 0)) (take (length fds) rev) then 1 else -1) [] [] rev
  | Some (KRecv _ n) =>
      let d := nth (same_kind (λ c, match c with KRecv _ _ => true | _ => false end) l) visit_data [] in
      if blen d <=? n then Answer (blen d) d [] [] else Answer (-1) [] [] []
  | Some (KRecvFrom _ _) => Answer (-1) [] [] []
  | Some (KSend _ d) | Some (KSys _ (SSend _ d)) => Answer (blen d) [] [] []
  | Some (KResolve _ _ _ _) => Answer (-1) [] [] []
  | Some KTimeMs => Answer 1 [] [] []
  | Some KGetE => Answer EAGAIN [] [] []
  | _ => Answer 0 [] [] []
  end.

(** Two clients at most; requests are split behind their third byte. *)
Definition visit_params : params :=
  Params 10 false 0 false 0 0 0 0 0 MODE_SOCKS5 true true true false true 2 0 64 ([2; 0] ++ repeat 0 26) 1.
Definition visit_group : desync_params := with_parts [Part DESYNC_SPLIT 0 3 0 0] [] (sample_group None None 0 0).
Definition visit_world : world := World (init_pool 0 [] []) [visit_group] (Some 0%nat) (mem_pool 0 CMP_BITS) 0 0 [] [].
Definition visit_run : ST world Z :=
  run visit_params visit_os no_junk (λ _, 0) 64 (repeat zero_eval 5) (repeat (Pollfd 0 0 0) 5) v4_sample.

Lemma visit_group_plain g : same_group visit_group g → Engine.plain_group g.
Proof.
  intros H. pose proof (f_equal (λ g, (dp_parts g, dp_mod_http g, dp_tlsminor g, dp_tlsrec g, dp_udp_fake_count g)) H) as E.
  cbn in E. injection E as E1 E2 E3 E4 E5. split; rewrite ?E1, ?E2, ?E3, ?E4, ?E5; try done. by repeat constructor.
Qed.
#[export] Instance visit_engine rand junk fuel : Engine visit_params rand junk fuel (same_group visit_group).
Proof. eapply engine_mono; [apply visit_group_plain|apply _]. Qed.

Lemma visit_config : config_ok visit_params visit_group.
Proof.
  split; try done. split; [done|]. apply (wf_zeros 28).
Qed.

Lemma nth_forall {A} (P : A → Prop) l d k : P d → Forall P l → P (nth k l d).
Proof. intros Hd Hl. destruct (nth_in_or_default k l d) as [H| ->]; [|done]. rewrite List.Forall_forall in Hl. by apply Hl. Qed.

(** The two of them send bytes, and no request with an unknown type of address. *)
Lemma visit_data_ok : Forall (λ d, bytes_wf d ∧ (like_request d (blen d) → known_type d)) visit_data.
Proof.
  assert (H : Forall bytes_wf visit_data).
  { repeat (constructor; [repeat (constructor; [vm_compute; split; [discriminate|reflexivity]|]); constructor|]). constructor. }
  repeat (apply Forall_cons in H as [? H]; constructor; [split; [done|]|]); [..|constructor].
  - by intros [Hn _].
  - intros _. by left.
  - by intros (_ & Hb & _).
  - by intros (_ & Hb & _).
Qed.

Lemma visit_system : system_ok visit_params visit_os.
Proof.
  assert (Hd : ∀ k, let d := nth k visit_data [] in bytes_wf d ∧ (like_request d (blen d) → known_type d)).
  { intros k. apply (nth_forall (λ d, bytes_wf d ∧ (like_request d (blen d) → known_type d))); [|apply visit_data_ok].
    split; [constructor|]. by intros [Hn _]. }
  assert (Hv4 : bytes_wf v4_sample).
  { repeat (constructor; [vm_compute; split; [discriminate|reflexivity]|]). constructor. }
  split; unfold visit_os.
  - intros pre c Hc. rewrite last_snoc. destruct c; try done; cbn [a_ret]; [intros _; lia|].
    destruct (_ =? _)%nat; cbn [a_ret]; lia.
  - intros l fds ms. rewrite last_snoc. cbv zeta. cbn [a_ret a_rev]. set (rev := nth _ visit_polls []).
    destruct (existsb _ _) eqn:Ex; [|done]. intros _. apply existsb_exists in Ex as (x & Hx & Hnz).
    apply list_elem_of_In, list_elem_of_lookup in Hx as [k Hk]. apply lookup_take_Some in Hk as [Hk Hlt].
    exists k. split; [done|]. rewrite (nth_lookup_Some _ _ _ _ Hk). intros ->. done.
  - intros pre c. rewrite last_snoc. assert (bytes_wf []) by constructor.
    destruct c as [fd []| | | | | | | | | | | | | | | | | | |]; cbn [a_data a_addr]; try done.
    + by destruct (_ =? _)%nat.
    + destruct (_ <=? _); cbn [a_data a_addr]; [|done]. split; [apply Hd|done].
  - intros pre fd n Hn. rewrite last_snoc. cbv zeta. destruct (Z.leb_spec (blen (nth (same_kind (λ c, match c with
      KRecv _ _ => true | _ => false end) (pre ++ [KRecv fd n])) visit_data [])) n); cbn [a_ret a_data]; [done|]. split; [lia|lia].
  - intros pre fd n Hn. rewrite last_snoc. cbn. split; [lia|lia].
  - intros pre fd d. rewrite last_snoc. cbn. lia.
  - intros pre fd oob d. rewrite last_snoc. cbn. lia.
  - intros l h t x y. rewrite last_snoc. by intros a [=].
  - intros pre fd. by rewrite last_snoc.
  - intros pre ms [-> | ->]; rewrite last_snoc; by vm_compute.
  - intros pre fd n _. rewrite last_snoc. cbv zeta. destruct (_ <=? _); cbn [a_ret a_data]; [apply Hd|]. by intros [Hn _].
  - intros pre fd. rewrite last_snoc. cbn. unfold S_SIZE_MIN. lia.
Qed.

Lemma no_junk_ok n : 0 <= n → blen (no_junk n) = n ∧ bytes_wf (no_junk n).
Proof. intros Hn. unfold no_junk. split; [rewrite blen_repeat; lia|apply wf_zeros]. Qed.
Lemma empty_cache_fine : cache_fine visit_params (mem_pool 0 CMP_BITS).
Proof.
  split; [split|split; [done|constructor]]; try done; unfold mem_pool, pool_elems; cbn; repeat constructor.
Qed.

(** The greeting and the request are answered, the client's request goes to the server in the
    two parts of the group, and the answer back; then all descriptors are closed. *)
Definition sent_or_closed (c : call) : bool :=
  match c with KSend _ _ | KSys _ (SSend _ _) | KClose _ => true | _ => false end.
Definition sent_in (r : comp (Z * world)) : list call :=
  match r with Ok (_, w') => List.filter sent_or_closed (p_log (w_pool w')) | _ => [] end.

Lemma visit_served : sent_in (visit_run visit_world) =
  [KSend 9 [5; 0]; KSend 9 [5; 0; 0; 1; 0; 0; 0; 0; 0; 0];
   KSys 19 (SSend false (bs "GET")); KSys 19 (SSend false (bs " / HTTP/1.0"));
   KSend 9 (bs "HTTP/1.0 204 None"); KClose 9; KClose 19; KClose 3].
Proof. by vm_compute. Qed.


(** The pool behind [init_pool], and with the listener. *)
Definition visit_empty : world :=
  set_w_pool (set_p_log [] (init_pool 5 (repeat zero_eval 5) (repeat (Pollfd 0 0 0) 5))) visit_world.
Definition visit_listening : world :=
  match on_pool (add_event Conev.on_accept 3 POLLIN) visit_empty with Ok (_, w) => w | _ => visit_empty end.

Lemma visit_listening_inv : winv visit_params visit_group [] 0 (-1) (cache_fine visit_params) visit_listening.
Proof.
  assert (H0 : winv visit_params visit_group [] 0 (-1) (cache_fine visit_params) visit_empty).
  { apply (init_winv visit_params visit_group 64 visit_config visit_world []); try done; [by exists visit_group|apply empty_cache_fine]. }
  assert (H : swp (on_pool (add_event Conev.on_accept 3 POLLIN)) visit_empty (λ r w, winv visit_params visit_group [] 0 (-1) (cache_fine visit_params) w)).
  { eapply swp_mono; [apply (s_listen visit_params visit_group visit_os no_junk (λ _, 0) 64); try done;
      [apply visit_system|apply visit_config|apply no_junk_ok]|]. by intros [v|] w; [|intros ->]. }
  unfold visit_listening. unfold swp in H. by destruct (on_pool _ _) as [[r w]|].
Qed.

Lemma event_keeps_sessions_witness :
  snwp (event_body visit_params visit_os no_junk (λ _, 0) 64 (-1, -1)) visit_listening (λ r w', ∃ N' offs, 0 <= N' <= 0 + 1 ∧
    winv visit_params visit_group [] N' offs (cache_fine visit_params) w' ∧ match r with inl y => y.1 = offs | inr _ => True end).
Proof.
  apply (event_keeps_sessions visit_params visit_group visit_os no_junk (λ _, 0) 64 0 (-1, -1)); try done.
  - exact visit_config.
  - exact visit_system.
  - exact no_junk_ok.
  - apply visit_engine.
  - exact visit_listening_inv.
Defined.
