(* ===== verification/GdTrack.v ===== *)
(** GoodbyeDPI dnsredir.c and ttltrack.c: the two trackers of connections.

    The DNS tracker remembers where a query went, so that the answer of the other server
    can be given the address it is expected from; the TTL tracker remembers with which TTL
    the SYN+ACK of a server came in.  Both keep records in a table of uthash.h, which keeps
    its elements in the order they were added and is here the list of them; both throw
    records away that are thirty seconds old.

    A [uint32_t[4]] and a port are the bytes they have in memory, because the code only
    copies them.  [time(NULL)] is a stream of values. *)
From Stdlib Require Import ZArith Lia Ascii String SpecFloat.
From stdpp Require Import base numbers list option sorting sets.
From S2P Require Import Prelude CMem.

#[local] Open Scope Z_scope.
#[local] Open Scope list_scope.

(** * Tables *)

(** [struct udp_connrecord], [struct tcp_connrecord]: the key, the time it was added, and
    what it is about. *)
Record connrecord (V : Type) := Connrecord { r_key : bytes; r_time : Z; r_data : V }.
Arguments Connrecord {V}. Arguments r_key {V}. Arguments r_time {V}. Arguments r_data {V}.

(** The statics of one file; [tk_ticks] counts the calls of [time]. *)
Record tracker (V : Type) := Tracker {
  tk_last_cleanup : Z; tk_conntrack : list (connrecord V); tk_ticks : nat }.
Arguments Tracker {V}. Arguments tk_last_cleanup {V}. Arguments tk_conntrack {V}. Arguments tk_ticks {V}.

Definition ipv4_copy_addr (src : bytes) : comp bytes := a ← rds src 0 4; Ok (a ++ repeat 0 12).
Definition ipv6_copy_addr (src : bytes) : comp bytes := rds src 0 16.
Definition copy_addr (is_ipv6 : bool) (src : bytes) : comp bytes :=
  if is_ipv6 then ipv6_copy_addr src else ipv4_copy_addr src.

(** The four and the six that a key starts with. *)
Definition key_tag (is_ipv6 : bool) : Z := if is_ipv6 then ch "6" else ch "4".

Section tracker.
Context {V : Type} (clock : nat → Z).
Abbreviation M := (ST (tracker V)).

(** [time(NULL)] *)
Definition time : M Z :=
  k ← gets tk_ticks; modify (λ s, Tracker (tk_last_cleanup s) (tk_conntrack s) (S (tk_ticks s)));; mret (clock k).
Definition set_last_cleanup (t : Z) : M unit :=
  modify (λ s, Tracker t (tk_conntrack s) (tk_ticks s)).
Definition set_conntrack (l : list (connrecord V)) : M unit :=
  modify (λ s, Tracker (tk_last_cleanup s) l (tk_ticks s)).

(** The macros of uthash.h. *)
Definition HASH_FIND_STR (key : bytes) : M (option (connrecord V)) :=
  l ← gets tk_conntrack; mret (List.find (λ r, bool_decide (r_key r = key)) l).
Definition HASH_ADD_STR (r : connrecord V) : M unit :=
  l ← gets tk_conntrack; set_conntrack (l ++ [r]).
Definition HASH_DEL (r : connrecord V) : M unit :=
  l ← gets tk_conntrack; set_conntrack (List.filter (λ x, negb (bool_decide (r_key x = r_key r))) l).

(** [check_get_udp_conntrack_key], [check_get_tcp_conntrack_key] *)
Definition check_get_conntrack_key (key : bytes) : M (option (connrecord V)) :=
  l ← gets tk_conntrack;
  if bool_decide (l = []) then mret None else HASH_FIND_STR key.

(** [add_udp_conntrack], [add_tcp_conntrack], with the key and the data of the record. *)
Definition add_conntrack (key : bytes) (data : comp V) : M bool :=
  r ← check_get_conntrack_key key;
  match r with
  | None => t ← time; v ← lift data; HASH_ADD_STR (Connrecord key t v);; mret true
  | Some _ => mret false
  end.

(** The body of [HASH_ITER] in the clean-up. *)
Definition clean_record (interval last : Z) (r : connrecord V) : M unit :=
  if interval <=? last - r_time r then HASH_DEL r else skip.
Fixpoint clean_records (interval last : Z) (l : list (connrecord V)) : M unit :=
  match l with
  | [] => skip
  | r :: l => clean_record interval last r;; clean_records interval last l
  end.

(** [dns_cleanup], [tcp_cleanup] *)
Definition cleanup (interval : Z) : M unit :=
  last ← gets tk_last_cleanup;
  if last =? 0 then t ← time; set_last_cleanup t else
  t ← time;
  if interval <=? t - last then
    t ← time; set_last_cleanup t;;
    l ← gets tk_conntrack; clean_records interval t l
  else skip.
End tracker.

(** [ntohs] of the two bytes at [i]. *)
Definition ntohs_at (b : bytes) (i : Z) : comp Z := h ← rd b i; l ← rd b (i + 1); Ok (256 * h + l).

(** * dnsredir.c *)

Module Dns.

Definition UDP_CONNRECORD_KEY_LEN : Z := 19.
Definition DNS_CLEANUP_INTERVAL_SEC : Z := 30.

(** The address and the port a query was for. *)
Record dns_record := DnsRecord { dstip : bytes; dstport : bytes }.

(** [struct conntrack_info] *)
Record conntrack_info := ConntrackInfo {
  ci_is_ipv6 : bool; ci_srcip : bytes; ci_srcport : bytes; ci_dstip : bytes; ci_dstport : bytes }.

Definition fill_key_data (is_ipv6 : bool) (srcip srcport : bytes) : comp bytes :=
  a ← copy_addr is_ipv6 srcip; Ok (key_tag is_ipv6 :: a ++ srcport).

Definition fill_data_from_key (key : bytes) : comp (bool * bytes * bytes) :=
  c ← rd key 0;
  let is_ipv6 := c =? ch "6" in
  k ← rds key 1 16; a ← copy_addr is_ipv6 k;
  p ← rds key 17 2; Ok (is_ipv6, a, p).

Definition construct_key (srcip srcport : bytes) (is_ipv6 : bool) : comp bytes :=
  fill_key_data is_ipv6 srcip srcport.

Definition deconstruct_key (key : bytes) (r : connrecord dns_record) : comp conntrack_info :=
  '(v6, sip, sport) ← fill_data_from_key key;
  dip ← copy_addr v6 (dstip (r_data r));
  Ok (ConntrackInfo v6 sip sport dip (dstport (r_data r))).

(** The answer of the 16-bit reads of [dns_is_dns_packet]; [ntohs] of the 32 bits at 6
    keeps the two bytes there. *)
Definition dns_is_dns_packet (packet_data : bytes) (len : Z) (outgoing : bool) : comp bool :=
  if len <? 16 then Ok false else
  flags ← ntohs_at packet_data 2;
  rds packet_data 6 4;; answers ← ntohs_at packet_data 6;
  Ok (if outgoing && (Z.land flags 64000 =? 0) && (answers =? 0) then true
      else negb outgoing && (Z.land flags 63488 =? 32768)).

Section dns.
Context (clock : nat → Z).
Abbreviation M := (ST (tracker dns_record)).

Definition add_udp_conntrack (srcip srcport dip dport : bytes) (is_ipv6 : bool) : M bool :=
  if bool_decide (srcport = [0; 0]) || bool_decide (dport = [0; 0]) then mret false else
  key ← lift (construct_key srcip srcport is_ipv6);
  add_conntrack clock key (a ← copy_addr is_ipv6 dip; Ok (DnsRecord a dport)).

Definition dns_cleanup : M unit := cleanup clock DNS_CLEANUP_INTERVAL_SEC.

Definition dns_handle_outgoing (srcip srcport dip dport packet_data : bytes) (len : Z) (is_ipv6 : bool) : M bool :=
  if len <? 16 then mret false else
  dns_cleanup;;
  dns ← lift (dns_is_dns_packet packet_data len true);
  if (dns : bool) then add_udp_conntrack srcip srcport dip dport is_ipv6 else mret false.

(** [None] for [FALSE]. *)
Definition dns_handle_incoming (srcip srcport packet_data : bytes) (len : Z) (is_ipv6 : bool) :
    M (option conntrack_info) :=
  if len <? 16 then mret None else
  dns_cleanup;;
  dns ← lift (dns_is_dns_packet packet_data len false);
  if (dns : bool) then
    key ← lift (construct_key srcip srcport is_ipv6);
    r ← check_get_conntrack_key key;
    match r with
    | Some r => info ← lift (deconstruct_key key r); HASH_DEL r;; mret (Some info)
    | None => mret None
    end
  else mret None.
End dns.
End Dns.

(** * ttltrack.c *)

Module Tcp.

Definition TCP_CONNRECORD_KEY_LEN : Z := 37.
Definition TCP_CLEANUP_INTERVAL_SEC : Z := 30.

(** [struct tcp_conntrack_info] *)
Record tcp_conntrack_info := TcpConntrackInfo {
  ti_is_ipv6 : bool; ti_ttl : Z; ti_srcip : bytes; ti_srcport : bytes; ti_dstip : bytes; ti_dstport : bytes }.

Definition fill_key_data (is_ipv6 : bool) (srcip dstip srcport dstport : bytes) : comp bytes :=
  s ← copy_addr is_ipv6 srcip; d ← copy_addr is_ipv6 dstip;
  Ok (key_tag is_ipv6 :: s ++ d ++ srcport ++ dstport).

(** The addresses and the ports of the source and of the destination. *)
Definition fill_data_from_key (key : bytes) : comp (bool * (bytes * bytes) * (bytes * bytes)) :=
  c ← rd key 0;
  let is_ipv6 := c =? ch "6" in
  k ← rds key 1 16; s ← copy_addr is_ipv6 k;
  k ← rds key 17 16; d ← copy_addr is_ipv6 k;
  sp ← rds key 33 2; dp ← rds key 35 2; Ok (is_ipv6, (s, sp), (d, dp)).

Definition construct_key (srcip dstip srcport dstport : bytes) (is_ipv6 : bool) : comp bytes :=
  fill_key_data is_ipv6 srcip dstip srcport dstport.

(** The data of a record is the TTL. *)
Definition deconstruct_key (key : bytes) (r : connrecord Z) : comp tcp_conntrack_info :=
  '(v6, (sip, sport), (dip, dport)) ← fill_data_from_key key;
  Ok (TcpConntrackInfo v6 (u8 (r_data r)) sip sport dip dport).

Section tcp.
Context (clock : nat → Z).
Abbreviation M := (ST (tracker Z)).

Definition add_tcp_conntrack (srcip dstip srcport dstport : bytes) (is_ipv6 : bool) (ttl : Z) : M bool :=
  if bool_decide (srcport = [0; 0]) || bool_decide (dstport = [0; 0]) then mret false else
  key ← lift (construct_key srcip dstip srcport dstport is_ipv6);
  add_conntrack clock key (Ok ttl).

Definition tcp_cleanup : M unit := cleanup clock TCP_CLEANUP_INTERVAL_SEC.

Definition tcp_handle_incoming (srcip dstip srcport dstport : bytes) (is_ipv6 : bool) (ttl : Z) : M bool :=
  tcp_cleanup;; add_tcp_conntrack srcip dstip srcport dstport is_ipv6 ttl.

Definition tcp_handle_outgoing (srcip dstip srcport dstport : bytes) (is_ipv6 : bool) :
    M (option tcp_conntrack_info) :=
  tcp_cleanup;;
  key ← lift (construct_key dstip srcip dstport srcport is_ipv6);
  r ← check_get_conntrack_key key;
  match r with
  | Some r => info ← lift (deconstruct_key key r); HASH_DEL r;; mret (Some info)
  | None => mret None
  end.
End tcp.

(** ** The TTL of a fake packet *)

(** [float] *)
Definition float_of (n : Z) : spec_float := binary_normalize 24 128 n 0 false.
Definition float_mul : spec_float → spec_float → spec_float := SFmul 24 128.
Definition float_div : spec_float → spec_float → spec_float := SFdiv 24 128.
(** [trunc] *)
Definition float_trunc (x : spec_float) : Z :=
  match x with
  | S754_finite neg m e =>
      let v := if 0 <=? e then Zpos m * 2 ^ e else Zpos m / 2 ^ (- e) in if neg then - v else v
  | _ => 0
  end.

(** [trunc((autottl2 - autottl1) * ((float)nhops/10))] *)
Definition scaled (d nhops : Z) : Z :=
  float_trunc (float_mul (float_of d) (float_div (float_of nhops) (float_of 10))).

Definition tcp_get_auto_ttl (ttl autottl1 autottl2 minhops maxttl : Z) : Z :=
  let found := if (98 <? ttl) && (ttl <? 128) then Some (u8 (128 - ttl))
               else if (34 <? ttl) && (ttl <? 64) then Some (u8 (64 - ttl)) else None in
  match found with
  | None => 0
  | Some nhops =>
      if (nhops <=? autottl1) || (nhops <? minhops) then 0 else
      let t := u8 (nhops - autottl2) in
      let t := if (t <? autottl2) && (nhops <=? 9)
               then u8 (nhops - autottl1 - scaled (autottl2 - autottl1) nhops) else t in
      if negb (maxttl =? 0) && (maxttl <? t) then maxttl else t
  end.

End Tcp.

(** * What the operations on a table do *)

Section table.
Context {V : Type} (clock : nat → Z).
Implicit Types (s : tracker V) (r x : connrecord V) (l t : list (connrecord V)).

(** No two records have the same key. *)
Definition keys_ok s : Prop := NoDup (map r_key (tk_conntrack s)).

(** [r] is younger than [interval] at every reading of the clock between two states. *)
Definition young_between (interval : Z) (r : connrecord V) (a b : nat) : Prop :=
  ∀ k, (a <= k < b)%nat → clock k - r_time r < interval.

(** From [s] to [s'] the clock went on, and every record that is young enough stays. *)
Record passes (interval : Z) (P : connrecord V → Prop) s s' : Prop := {
  pa_keys : keys_ok s';
  pa_ticks : (tk_ticks s <= tk_ticks s')%nat;
  pa_kept r : r ∈ tk_conntrack s → P r → young_between interval r (tk_ticks s) (tk_ticks s') →
    r ∈ tk_conntrack s' }.

Lemma passes_trans interval (P : connrecord V → Prop) s1 s2 s3 :
  passes interval P s1 s2 → passes interval P s2 s3 → passes interval P s1 s3.
Proof.
  intros [K1 T1 H1] [K2 T2 H2]. split; [done|lia|]. intros r Hr HP Hy.
  apply H2; [apply H1| |]; try done; intros k Hk; apply Hy; lia.
Qed.
Lemma passes_weaken interval (P Q : connrecord V → Prop) s s' :
  passes interval P s s' → (∀ r, Q r → P r) → passes interval Q s s'.
Proof. intros [] HQ. split; [done..|]. auto. Qed.
Lemma passes_refl interval P s : keys_ok s → passes interval P s s.
Proof. by split. Qed.

(** ** Finding *)

Lemma find_key key l : match List.find (λ r, bool_decide (r_key r = key)) l with
  | Some r => r ∈ l ∧ r_key r = key
  | None => Forall (λ r, r_key r ≠ key) l
  end.
Proof.
  induction l as [|x l IH]; cbn; [done|]. case_bool_decide; [by split; [left|]|].
  destruct (List.find _ l); [destruct IH; by split; [right|]|by constructor].
Qed.

Lemma swp_check key s (P : option (connrecord V) → tracker V → Prop) :
  (∀ r, r ∈ tk_conntrack s → r_key r = key → P (Some r) s) →
  (Forall (λ r, r_key r ≠ key) (tk_conntrack s) → P None s) →
  swp (check_get_conntrack_key key) s P.
Proof.
  intros H1 H2. unfold check_get_conntrack_key, HASH_FIND_STR. repeat sstep. case_bool_decide as E.
  - sstep. apply H2. by rewrite E.
  - repeat sstep. pose proof (find_key key (tk_conntrack s)) as Hf.
    destruct (List.find _ _) as [r|]; [apply H1; apply Hf|by apply H2].
Qed.

Lemma unique_key s r x : keys_ok s → r ∈ tk_conntrack s → x ∈ tk_conntrack s → r_key r = r_key x → r = x.
Proof.
  unfold keys_ok. induction (tk_conntrack s) as [|y l IH]; cbn; [by intros _ ?%elem_of_nil|].
  intros [Hy Hl]%NoDup_cons [->|Hr]%elem_of_cons [->|Hx]%elem_of_cons E; [done| | |by apply IH].
  - destruct Hy. rewrite E. by apply (list_elem_of_fmap_2 r_key).
  - destruct Hy. rewrite <- E. by apply (list_elem_of_fmap_2 r_key).
Qed.

(** ** Deleting *)

Lemma nodup_keys_filter (f : connrecord V → bool) l : NoDup (map r_key l) → NoDup (map r_key (List.filter f l)).
Proof.
  induction l as [|x l IH]; cbn; [done|]. intros [Hx Hl]%NoDup_cons. destruct (f x); cbn; [|by apply IH].
  apply NoDup_cons. split; [|by apply IH]. intros (y & Ey & Hy)%list_elem_of_fmap. apply Hx.
  rewrite Ey. apply (list_elem_of_fmap_2 r_key). apply list_elem_of_In, filter_In in Hy as [Hy _].
  by apply list_elem_of_In.
Qed.

Lemma elem_filter (f : connrecord V → bool) l x : x ∈ List.filter f l ↔ x ∈ l ∧ f x = true.
Proof. rewrite !list_elem_of_In. apply filter_In. Qed.

Lemma swp_del interval r s (P : unit → tracker V → Prop) :
  keys_ok s → (∀ s', passes interval (λ x, r_key x ≠ r_key r) s s' → tk_ticks s' = tk_ticks s → tk_last_cleanup s' = tk_last_cleanup s →
    tk_conntrack s' = List.filter (λ x, negb (bool_decide (r_key x = r_key r))) (tk_conntrack s) → P tt s') →
  swp (HASH_DEL r) s P.
Proof.
  intros Hk HP. unfold HASH_DEL, set_conntrack. repeat sstep. apply HP; [|done|done|done]. split; cbn; [|lia|].
  - by apply nodup_keys_filter.
  - intros x Hx Hne _. apply elem_filter. split; [done|]. by rewrite bool_decide_eq_false_2.
Qed.

(** ** Cleaning *)

Lemma clean_records_ok interval last l s : keys_ok s →
  swp (clean_records interval last l) s (λ _ s', keys_ok s' ∧ tk_ticks s' = tk_ticks s ∧
    tk_last_cleanup s' = tk_last_cleanup s ∧
    ∀ x, x ∈ tk_conntrack s' ↔ x ∈ tk_conntrack s ∧
      Forall (λ r, interval <= last - r_time r → r_key x ≠ r_key r) l).
Proof.
  revert s. induction l as [|r l IH]; intros s Hk; cbn [clean_records].
  { sstep. split_and!; [done..|]. intros x. rewrite list.Forall_nil. tauto. }
  sstep. unfold clean_record. destruct (Z.leb_spec interval (last - r_time r)) as [Hr|Hr].
  - apply (swp_del interval); [done|]. intros s1 [K1 _ _] Ht1 El1 E1.
    eapply swp_mono; [exact (IH s1 K1)|]. intros _ s2 (K2 & T2 & L2 & H2). split_and!; [done|congruence|congruence|].
    intros x. rewrite H2, E1, elem_filter, list.Forall_cons, negb_true_iff, bool_decide_eq_false. tauto.
  - sstep. eapply swp_mono; [exact (IH s Hk)|]. intros _ s2 (K2 & T2 & L2 & H2). split_and!; [done..|].
    intros x. rewrite H2, list.Forall_cons. intuition lia.
Qed.

(** A clean-up keeps the records that are young. *)
Lemma cleanup_ok interval s : keys_ok s →
  swp (cleanup clock interval) s (λ _ s', passes interval (λ _, True) s s' ∧
    ∀ r, r ∈ tk_conntrack s' → r ∈ tk_conntrack s).
Proof.
  intros Hk. unfold cleanup, time, set_last_cleanup. repeat sstep. destruct (tk_last_cleanup s =? 0).
  { repeat sstep. split; [|done]. split; [done|cbn; lia|done]. }
  repeat sstep. cbn. destruct (interval <=? _); [|repeat sstep; split; [split; [done|cbn; lia|done]|done]].
  repeat sstep. eapply swp_mono; [apply clean_records_ok; exact Hk|]. cbn.
  intros _ s' (K & T & _ & H). split; [|intros r [Hr _]%H; exact Hr]. split; [done|lia|].
  intros r Hr _ Hy. apply H. split; [done|]. apply list.Forall_forall. intros x Hx Hold E.
  assert (r = x) as -> by (by apply (unique_key s)).
  specialize (Hy (S (tk_ticks s))). lia.
Qed.

(** ** Adding *)

Lemma add_ok interval key (data : comp V) v s : keys_ok s → data = Ok v →
  swp (add_conntrack clock key data) s (λ b s', passes interval (λ _, True) s s' ∧
    (∀ x, x ∈ tk_conntrack s' → x ∈ tk_conntrack s ∨ x = Connrecord key (clock (tk_ticks s)) v) ∧
    if (b : bool) then Connrecord key (clock (tk_ticks s)) v ∈ tk_conntrack s' ∧ tk_ticks s' = S (tk_ticks s)
    else ∃ r, r ∈ tk_conntrack s ∧ r_key r = key ∧ s' = s).
Proof.
  intros Hk ->. unfold add_conntrack. sstep. apply swp_check.
  - intros r Hr E. sstep. split_and!; [by apply passes_refl|by left|by exists r].
  - intros Hnew. unfold time, HASH_ADD_STR, set_conntrack. repeat sstep. cbn. split_and!; [split; cbn|..].
    + unfold keys_ok. cbn. rewrite map_app. apply NoDup_app. split_and!; [done| |by apply NoDup_singleton].
      intros y (x & -> & Hx)%list_elem_of_fmap Ey%list_elem_of_singleton. rewrite list.Forall_forall in Hnew.
      by destruct (Hnew x Hx).
    + lia.
    + intros r Hr _ _. apply elem_of_app. by left.
    + intros x [Hx|Hx%list_elem_of_singleton]%elem_of_app; [by left|by right].
    + apply elem_of_app. right. by apply list_elem_of_singleton.
    + done.
Qed.
End table.

(** * Keys *)

(** The sixteen bytes that stand for an address in a record. *)
Definition addr16 (v6 : bool) (ip : bytes) : bytes := if v6 then sub ip 0 16 else sub ip 0 4 ++ repeat 0 12.
(** An address as long as its family asks. *)
Definition ip_ok (v6 : bool) (ip : bytes) : Prop := (if v6 then 16 else 4) <= blen ip.

Lemma rds_ok b i n : 0 <= i → 0 <= n → i + n <= blen b → rds b i n = Ok (sub b i n).
Proof. intros. apply wp_eq. by apply wp_rds. Qed.

Lemma copy_addr_ok v6 ip : ip_ok v6 ip → copy_addr v6 ip = Ok (addr16 v6 ip).
Proof.
  unfold ip_ok, copy_addr, ipv6_copy_addr, ipv4_copy_addr, addr16. intros H. destruct v6; by rewrite rds_ok by lia.
Qed.
Lemma blen_addr16 v6 ip : ip_ok v6 ip → blen (addr16 v6 ip) = 16.
Proof. unfold ip_ok, addr16. destruct v6; intros H; rewrite ?blen_app, blen_sub by lia; [done|]. by rewrite blen_repeat. Qed.
Lemma addr16_ok v6 ip : ip_ok v6 ip → ip_ok v6 (addr16 v6 ip).
Proof. intros H. unfold ip_ok. rewrite blen_addr16 by done. by destruct v6. Qed.
Lemma addr16_twice v6 ip : ip_ok v6 ip → addr16 v6 (addr16 v6 ip) = addr16 v6 ip.
Proof.
  intros H. unfold ip_ok in H. destruct v6; cbn [addr16].
  - by rewrite sub_sub by lia.
  - f_equal. rewrite sub_app_l by (rewrite ?blen_sub; lia). by rewrite sub_sub by lia.
Qed.

(** A byte string read at the place where it was put together. *)
Lemma sub_mid a b c i n : blen a = i → blen b = n → sub (a ++ b ++ c) i n = b.
Proof. intros Ha Hb. rewrite <- Hb. by apply sub_at. Qed.

Lemma key_tag_v6 v6 : (key_tag v6 =? ch "6") = v6.
Proof. by destruct v6. Qed.

(** * The DNS tracker *)

Module DnsFacts.
Import Dns.

Definition dns_key (v6 : bool) (ip port : bytes) : bytes := key_tag v6 :: addr16 v6 ip ++ port.

Lemma construct_key_ok v6 ip port : ip_ok v6 ip → construct_key ip port v6 = Ok (dns_key v6 ip port).
Proof. intros H. unfold construct_key, fill_key_data. by rewrite copy_addr_ok. Qed.

Lemma key_fields v6 ip port : ip_ok v6 ip → blen port = 2 →
  fill_data_from_key (dns_key v6 ip port) = Ok (v6, addr16 v6 ip, port).
Proof.
  intros H Hp. pose proof (blen_addr16 v6 ip H) as Ha. unfold fill_data_from_key, dns_key.
  assert (Hl : blen (key_tag v6 :: addr16 v6 ip ++ port) = 19) by (rewrite blen_cons, blen_app; lia).
  rewrite rd_eq by lia. rewrite bind_ok. cbv zeta. change (bat (key_tag v6 :: _) 0) with (key_tag v6). rewrite key_tag_v6.
  rewrite (rds_ok _ 1 16), (rds_ok _ 17 2) by lia. rewrite !bind_ok.
  pose proof (sub_mid [key_tag v6] (addr16 v6 ip) port 1 16 eq_refl Ha) as Es. cbn [app] in Es. rewrite Es.
  rewrite copy_addr_ok by (by apply addr16_ok). rewrite !bind_ok, addr16_twice by done.
  pose proof (sub_mid (key_tag v6 :: addr16 v6 ip) port [] 17 2) as Ep.
  rewrite app_nil_r in Ep. cbn [app] in Ep. rewrite Ep; [done|rewrite blen_cons; lia|done].
Qed.

(** The records of the table are long enough to be read. *)
Definition record_ok (r : connrecord dns_record) : Prop :=
  ∃ v6 ip port, r_key r = dns_key v6 ip port ∧ ip_ok v6 ip ∧ blen port = 2 ∧ blen (dstip (r_data r)) = 16 ∧
    blen (dstport (r_data r)) = 2.
(** What the caller of [dns_handle_incoming] gets. *)
Definition info_ok (i : conntrack_info) : Prop :=
  blen (ci_srcport i) = 2 ∧ blen (ci_dstip i) = 16 ∧ blen (ci_dstport i) = 2.
Definition dns_ok (s : tracker dns_record) : Prop := keys_ok s ∧ Forall record_ok (tk_conntrack s).

Lemma dns_packet_total data len out : len <= blen data → ∃ b, dns_is_dns_packet data len out = Ok b.
Proof.
  intros Hl. unfold dns_is_dns_packet. destruct (Z.ltb_spec len 16); [by eexists|].
  unfold ntohs_at. rewrite !rd_eq by lia. rewrite rds_ok by lia. cbn. by eexists.
Qed.

Lemma deconstruct_ok r v6 ip port : r_key r = dns_key v6 ip port → ip_ok v6 ip → blen port = 2 →
  blen (dstip (r_data r)) = 16 → deconstruct_key (r_key r) r =
    Ok (ConntrackInfo v6 (addr16 v6 ip) port (addr16 v6 (dstip (r_data r))) (dstport (r_data r))).
Proof.
  intros E H Hp Hd. unfold deconstruct_key. rewrite E, key_fields by done. rewrite bind_ok.
  by rewrite copy_addr_ok by (unfold ip_ok; destruct v6; lia).
Qed.

Section dns.
Context (clock : nat → Z).
Abbreviation passes30 := (passes clock DNS_CLEANUP_INTERVAL_SEC).

(** One packet that the tracker sees. *)
Inductive packet :=
  | Outgoing (srcip srcport dip dport data : bytes) (len : Z) (v6 : bool)
  | Incoming (srcip srcport data : bytes) (len : Z) (v6 : bool).

Definition packet_ok (p : packet) : Prop :=
  match p with
  | Outgoing sip sport dip dport data len v6 =>
      ip_ok v6 sip ∧ blen sport = 2 ∧ ip_ok v6 dip ∧ blen dport = 2 ∧ len <= blen data
  | Incoming sip sport data len v6 => ip_ok v6 sip ∧ blen sport = 2 ∧ len <= blen data
  end.
Definition packet_key (p : packet) : bytes :=
  match p with
  | Outgoing sip sport _ _ _ _ v6 | Incoming sip sport _ _ v6 => dns_key v6 sip sport
  end.
Definition handle (p : packet) : ST (tracker dns_record) (option conntrack_info) :=
  match p with
  | Outgoing sip sport dip dport data len v6 =>
      dns_handle_outgoing clock sip sport dip dport data len v6;; mret None
  | Incoming sip sport data len v6 => dns_handle_incoming clock sip sport data len v6
  end.
Fixpoint handle_all (l : list packet) : ST (tracker dns_record) unit :=
  match l with [] => skip | p :: l => handle p;; handle_all l end.

Lemma cleanup_dns s : dns_ok s → swp (dns_cleanup clock) s (λ _ s', dns_ok s' ∧ passes30 (λ _, True) s s' ∧
  ∀ r, r ∈ tk_conntrack s' → r ∈ tk_conntrack s).
Proof.
  intros [Hk Hr]. eapply swp_mono; [by apply cleanup_ok|]. cbv beta. intros _ s' [Hp Hs]. split_and!; [|done..].
  split; [apply Hp|]. rewrite list.Forall_forall in Hr |- *. auto.
Qed.

Lemma outgoing_ok sip sport dip dport data len v6 s :
  dns_ok s → packet_ok (Outgoing sip sport dip dport data len v6) →
  swp (dns_handle_outgoing clock sip sport dip dport data len v6) s (λ b s', dns_ok s' ∧
    passes30 (λ _, True) s s' ∧
    (dns_is_dns_packet data len true = Ok true → sport ≠ [0; 0] → dport ≠ [0; 0] →
     Forall (λ r, r_key r ≠ dns_key v6 sip sport) (tk_conntrack s) →
     ∃ k, (tk_ticks s <= k < tk_ticks s')%nat ∧ b = true ∧
       Connrecord (dns_key v6 sip sport) (clock k) (DnsRecord (addr16 v6 dip) dport) ∈ tk_conntrack s')).
Proof.
  intros Hs (Hsip & Hsp & Hdip & Hdp & Hl). unfold dns_handle_outgoing. destruct (Z.ltb_spec len 16) as [Hlen|Hlen].
  { sstep. split_and!; [done|apply passes_refl; apply Hs|]. unfold dns_is_dns_packet.
    by destruct (Z.ltb_spec len 16); [|lia]. }
  sstep. eapply swp_mono; [by apply cleanup_dns|]. intros _ s1 (H1 & Hp1 & Hs1).
  destruct (dns_packet_total data len true Hl) as [q ->]. sstep. sstep. apply wp_ok.
  destruct q; [|sstep; by split_and!]. unfold add_udp_conntrack.
  destruct (bool_decide_reflect (sport = [0; 0])) as [|Hs0]; [by repeat sstep|].
  destruct (bool_decide_reflect (dport = [0; 0])) as [|Hd0]; [by repeat sstep|]. cbn [orb].
  rewrite construct_key_ok by done. sstep. sstep. apply wp_ok.
  eapply swp_mono; [apply (add_ok clock DNS_CLEANUP_INTERVAL_SEC); [apply H1|]|].
  { rewrite copy_addr_ok by done. reflexivity. }
  cbv beta. intros b s2 (Hp2 & Hnew & Hb). split_and!.
  - split; [apply Hp2|]. destruct H1 as [_ H1]. rewrite list.Forall_forall in H1 |- *.
    intros x [Hx | ->]%Hnew; [by apply H1|]. exists v6, sip, sport. by split_and!; [..|apply blen_addr16|].
  - by eapply passes_trans.
  - intros _ _ _ Hfree. destruct b.
    + destruct Hb as [Hin Ht]. exists (tk_ticks s1). pose proof (pa_ticks _ _ _ _ _ Hp1).
      split_and!; [lia|lia|done|done].
    + destruct Hb as (r & Hr & Hkey & _). rewrite list.Forall_forall in Hfree. by destruct (Hfree r (Hs1 r Hr)).
Qed.

Lemma incoming_ok sip sport data len v6 s :
  dns_ok s → packet_ok (Incoming sip sport data len v6) →
  swp (dns_handle_incoming clock sip sport data len v6) s (λ o s', dns_ok s' ∧
    passes30 (λ r, r_key r ≠ dns_key v6 sip sport) s s' ∧
    (dns_is_dns_packet data len false = Ok true →
     Forall (λ r, r_key r ≠ dns_key v6 sip sport) (tk_conntrack s') ∧
     ∀ r, r ∈ tk_conntrack s → r_key r = dns_key v6 sip sport →
       young_between clock DNS_CLEANUP_INTERVAL_SEC r (tk_ticks s) (tk_ticks s') →
       o = Some (ConntrackInfo v6 (addr16 v6 sip) sport (addr16 v6 (dstip (r_data r))) (dstport (r_data r)))) ∧
    ∀ i, o = Some i → info_ok i).
Proof.
  intros Hs (Hsip & Hsp & Hl). unfold dns_handle_incoming. destruct (Z.ltb_spec len 16) as [Hlen|Hlen].
  { sstep. split_and!; [done|apply passes_refl; apply Hs| |done]. unfold dns_is_dns_packet.
    by destruct (Z.ltb_spec len 16); [|lia]. }
  sstep. eapply swp_mono; [by apply cleanup_dns|]. intros _ s1 (H1 & Hp1 & Hs1).
  destruct (dns_packet_total data len false Hl) as [q ->]. sstep. sstep. apply wp_ok.
  destruct q; [|sstep; split_and!; [done|by eapply passes_weaken|done|done]].
  rewrite construct_key_ok by done. sstep. sstep. apply wp_ok. sstep. apply swp_check.
  - intros r Hr E. destruct H1 as [K1 R1]. pose proof R1 as R1'. rewrite list.Forall_forall in R1'.
    destruct (R1' r Hr) as (v6' & ip' & port' & E' & Hip' & Hport' & Hd' & Hdp').
    rewrite <- E. sstep. sstep. rewrite (deconstruct_ok r v6' ip' port') by done. apply wp_ok. sstep.
    apply (swp_del clock DNS_CLEANUP_INTERVAL_SEC); [done|]. intros s2 Hp2 Ht2 _ E2. sstep. split_and!.
    + split; [apply Hp2|]. rewrite E2. apply list.Forall_forall. intros x [Hx _]%elem_filter. by apply R1'.
    + eapply passes_trans; [by eapply passes_weaken|done].
    + intros _. split.
      * rewrite E2. apply list.Forall_forall. intros x [_ Hx]%elem_filter.
        by apply negb_true_iff, bool_decide_eq_false in Hx.
      * intros r' Hr' E3 Hy. assert (r' = r) as ->.
        { apply (unique_key s1); [done| |done|congruence]. apply (pa_kept _ _ _ _ _ Hp1); [done|done|].
          intros k Hk. apply Hy. lia. }
        pose proof (key_fields v6 sip sport Hsip Hsp) as F1. pose proof (key_fields v6' ip' port' Hip' Hport') as F2.
        rewrite <- E, E', F2 in F1. by injection F1 as -> -> ->.
    + intros i Hi. injection Hi as <-. split_and!; [done| |done]. apply blen_addr16. unfold ip_ok. destruct v6'; lia.
  - intros Hnone. sstep. split_and!; [done|by eapply passes_weaken| |done]. intros _. split; [done|].
    intros r Hr E Hy. rewrite list.Forall_forall in Hnone. destruct (Hnone r); [|done].
    by apply (pa_kept _ _ _ _ _ Hp1).
Qed.

Lemma handle_all_ok key l s : dns_ok s → Forall (λ p, packet_ok p ∧ packet_key p ≠ key) l →
  swp (handle_all l) s (λ _ s', dns_ok s' ∧ passes30 (λ r, r_key r = key) s s').
Proof.
  intros Hs Hl. revert s Hs. induction Hl as [|p l [Hp Hk] Hl IH]; intros s Hs; cbn [handle_all].
  { sstep. split; [done|]. apply passes_refl, Hs. }
  sstep. eapply (swp_mono _ _ (λ _ s', dns_ok s' ∧ passes30 (λ r, r_key r = key) s s')).
  - destruct p; cbn in *.
    + sstep. eapply swp_mono; [by apply outgoing_ok|]. cbv beta. intros b s' (H' & Hp' & _). sstep.
      split; [done|]. by eapply passes_weaken.
    + eapply swp_mono; [by apply incoming_ok|]. cbv beta. intros b s' (H' & Hp' & _).
      split; [done|]. eapply passes_weaken; [done|]. cbv beta. congruence.
  - cbv beta. intros _ s1 [H1 Hp1]. eapply swp_mono; [by apply IH|]. cbv beta. intros _ s2 [H2 Hp2].
    split; [done|]. by eapply passes_trans.
Qed.
End dns.
End DnsFacts.

(** * The TTL tracker *)

Module TcpFacts.
Import Tcp.

Definition tcp_key (v6 : bool) (sip dip sport dport : bytes) : bytes :=
  key_tag v6 :: addr16 v6 sip ++ addr16 v6 dip ++ sport ++ dport.

Lemma tcp_construct_key_ok v6 sip dip sport dport : ip_ok v6 sip → ip_ok v6 dip →
  construct_key sip dip sport dport v6 = Ok (tcp_key v6 sip dip sport dport).
Proof. intros H1 H2. unfold construct_key, fill_key_data. by rewrite !copy_addr_ok. Qed.

Lemma tcp_key_fields v6 sip dip sport dport : ip_ok v6 sip → ip_ok v6 dip → blen sport = 2 → blen dport = 2 →
  fill_data_from_key (tcp_key v6 sip dip sport dport) =
    Ok (v6, (addr16 v6 sip, sport), (addr16 v6 dip, dport)).
Proof.
  intros H1 H2 Hs Hd. pose proof (blen_addr16 v6 sip H1) as L1. pose proof (blen_addr16 v6 dip H2) as L2.
  unfold fill_data_from_key, tcp_key. set (key := key_tag v6 :: _).
  assert (Hl : blen key = 37) by (unfold key; rewrite blen_cons, !blen_app; lia).
  assert (E1 : sub key 1 16 = addr16 v6 sip) by (apply (sub_mid [key_tag v6]); [done|done]).
  assert (E2 : sub key 17 16 = addr16 v6 dip).
  { apply (sub_mid (key_tag v6 :: addr16 v6 sip)); [rewrite blen_cons; lia|done]. }
  assert (E3 : sub key 33 2 = sport).
  { unfold key. rewrite (app_assoc _ (addr16 v6 dip)). apply (sub_mid (key_tag v6 :: addr16 v6 sip ++ addr16 v6 dip));
      [rewrite blen_cons, blen_app; lia|done]. }
  assert (E4 : sub key 35 2 = dport).
  { unfold key. rewrite (app_assoc _ (addr16 v6 dip)), (app_assoc _ sport).
    pose proof (sub_mid (key_tag v6 :: (addr16 v6 sip ++ addr16 v6 dip) ++ sport) dport [] 35 2) as E.
    rewrite app_nil_r in E. apply E; [rewrite blen_cons, !blen_app; lia|done]. }
  rewrite rd_eq by lia. rewrite bind_ok. cbv zeta. change (bat key 0) with (key_tag v6). rewrite key_tag_v6.
  rewrite (rds_ok _ 1 16), (rds_ok _ 17 16), (rds_ok _ 33 2), (rds_ok _ 35 2) by lia.
  rewrite E1, E2, E3, E4, !bind_ok. rewrite copy_addr_ok, bind_ok, bind_ok, copy_addr_ok by (by apply addr16_ok).
  by rewrite !bind_ok, (addr16_twice v6 sip), (addr16_twice v6 dip) by done.
Qed.

(** The readings of the clock between two states differ by less than the clean-up's
    interval. *)
Definition quick (clock : nat → Z) (a b : nat) : Prop :=
  ∀ j k, (a <= j < b)%nat → (a <= k < b)%nat → clock k - clock j < TCP_CLEANUP_INTERVAL_SEC.

Section tcp.
Context (clock : nat → Z).
Abbreviation passes30 := (passes clock TCP_CLEANUP_INTERVAL_SEC).

Lemma tcp_incoming_ok sip dip sport dport v6 ttl s : keys_ok s → ip_ok v6 sip → ip_ok v6 dip →
  sport ≠ [0; 0] → dport ≠ [0; 0] → Forall (λ r, r_key r ≠ tcp_key v6 sip dip sport dport) (tk_conntrack s) →
  swp (tcp_handle_incoming clock sip dip sport dport v6 ttl) s (λ b s', passes30 (λ _, True) s s' ∧ b = true ∧
    ∃ k, (tk_ticks s <= k < tk_ticks s')%nat ∧
      Connrecord (tcp_key v6 sip dip sport dport) (clock k) ttl ∈ tk_conntrack s').
Proof.
  intros Hk H1 H2 Hs Hd Hfree. unfold tcp_handle_incoming. sstep. eapply swp_mono; [by apply cleanup_ok|].
  cbv beta. intros _ s1 [Hp1 Hs1]. unfold add_tcp_conntrack. rewrite !bool_decide_eq_false_2 by done. cbn [orb].
  rewrite tcp_construct_key_ok by done. sstep. sstep. apply wp_ok.
  eapply swp_mono; [apply (add_ok clock TCP_CLEANUP_INTERVAL_SEC); [apply Hp1|reflexivity]|].
  cbv beta. intros b s2 (Hp2 & _ & Hb). pose proof (pa_ticks _ _ _ _ _ Hp1). destruct b.
  - destruct Hb as [Hin Ht]. split_and!; [by eapply passes_trans|done|]. exists (tk_ticks s1). split; [lia|done].
  - destruct Hb as (r & Hr & Hkey & _). rewrite list.Forall_forall in Hfree. by destruct (Hfree r (Hs1 r Hr)).
Qed.

Lemma tcp_outgoing_ok sip dip sport dport v6 s r : keys_ok s → ip_ok v6 sip → ip_ok v6 dip →
  blen sport = 2 → blen dport = 2 → r ∈ tk_conntrack s → r_key r = tcp_key v6 dip sip dport sport →
  swp (tcp_handle_outgoing clock sip dip sport dport v6) s (λ o s', passes30 (λ x, r_key x ≠ r_key r) s s' ∧
    (young_between clock TCP_CLEANUP_INTERVAL_SEC r (tk_ticks s) (tk_ticks s') →
     o = Some (TcpConntrackInfo v6 (u8 (r_data r)) (addr16 v6 dip) dport (addr16 v6 sip) sport) ∧
     Forall (λ x, r_key x ≠ r_key r) (tk_conntrack s'))).
Proof.
  intros Hk H1 H2 Hs Hd Hr Hkey. unfold tcp_handle_outgoing. sstep. eapply swp_mono; [by apply cleanup_ok|].
  cbv beta. intros _ s1 [Hp1 Hs1]. rewrite tcp_construct_key_ok by done. sstep. sstep. apply wp_ok. sstep.
  apply swp_check.
  - intros x Hx Ex. assert (x = r) as ->.
    { apply (unique_key s); [done|by apply Hs1|done|congruence]. }
    sstep. sstep. unfold deconstruct_key. rewrite tcp_key_fields by done. cbn [mbind comp_bind]. apply wp_ok. sstep.
    apply (swp_del clock TCP_CLEANUP_INTERVAL_SEC); [apply Hp1|]. intros s2 Hp2 Ht2 _ E2. sstep. split.
    + eapply passes_trans; [by eapply passes_weaken|done].
    + intros _. split; [done|]. rewrite E2. apply list.Forall_forall. intros y [_ Hy]%elem_filter.
      by apply negb_true_iff, bool_decide_eq_false in Hy.
  - intros Hnone. sstep. split; [by eapply passes_weaken|]. intros Hy. rewrite list.Forall_forall in Hnone.
    destruct (Hnone r); [|done]. by apply (pa_kept _ _ _ _ _ Hp1).
Qed.

(** Whatever the table holds, both calls return and keep it without repeated keys. *)
Lemma tcp_incoming_total sip dip sport dport v6 ttl s : keys_ok s → ip_ok v6 sip → ip_ok v6 dip →
  swp (tcp_handle_incoming clock sip dip sport dport v6 ttl) s (λ _ s', keys_ok s').
Proof.
  intros Hk H1 H2. unfold tcp_handle_incoming. sstep. eapply swp_mono; [by apply cleanup_ok|].
  cbv beta. intros _ s1 [Hp1 _]. unfold add_tcp_conntrack. destruct (_ || _); [sstep; apply Hp1|].
  rewrite tcp_construct_key_ok by done. sstep. sstep. apply wp_ok.
  eapply swp_mono; [apply (add_ok clock TCP_CLEANUP_INTERVAL_SEC); [apply Hp1|reflexivity]|].
  cbv beta. intros b s2 (Hp2 & _). apply Hp2.
Qed.
Lemma tcp_outgoing_total sip dip sport dport v6 s : keys_ok s → ip_ok v6 sip → ip_ok v6 dip →
  blen sport = 2 → blen dport = 2 →
  swp (tcp_handle_outgoing clock sip dip sport dport v6) s (λ _ s', keys_ok s').
Proof.
  intros Hk H1 H2 Hs Hd. unfold tcp_handle_outgoing. sstep. eapply swp_mono; [by apply cleanup_ok|].
  cbv beta. intros _ s1 [Hp1 _]. rewrite tcp_construct_key_ok by done. sstep. sstep. apply wp_ok. sstep.
  apply swp_check; [|intros _; sstep; apply Hp1]. intros x Hx Ex. sstep. sstep. unfold deconstruct_key.
  rewrite tcp_key_fields by done. cbn [mbind comp_bind]. apply wp_ok. sstep.
  apply (swp_del clock TCP_CLEANUP_INTERVAL_SEC); [apply Hp1|]. intros s2 Hp2 _ _ _. sstep. apply Hp2.
Qed.
End tcp.

(** ** The TTL of a fake packet *)

(** The distance of a server whose packets come in with [ttl]. *)
Definition hops (ttl : Z) : option Z :=
  if (98 <? ttl) && (ttl <? 128) then Some (128 - ttl)
  else if (34 <? ttl) && (ttl <? 64) then Some (64 - ttl) else None.

Definition scaled_small : bool :=
  forallb (λ n, forallb (λ d, (0 <=? scaled d n) && (scaled d n <=? d)) (seqZ 0 10)) (seqZ 0 10).
Lemma scaled_range d n : 0 <= d < 10 → 0 <= n < 10 → 0 <= scaled d n <= d.
Proof.
  intros Hd Hn. assert (H : scaled_small = true) by (by vm_compute). unfold scaled_small in H.
  assert (Hin : ∀ z, 0 <= z < 10 → In z (seqZ 0 10)).
  { intros z Hz. apply list_elem_of_In, elem_of_seqZ. lia. }
  rewrite forallb_forall in H. specialize (H n (Hin n Hn)). cbv beta in H. rewrite forallb_forall in H.
  specialize (H d (Hin d Hd)). lia.
Qed.

Lemma hops_range ttl n : 0 <= ttl < 256 → hops ttl = Some n → 0 < n < 30 ∧ u8 n = n.
Proof.
  intros Ht. unfold hops. destruct (_ && _) eqn:E1; [|destruct ((34 <? ttl) && _) eqn:E2]; intros [= <-];
    (split; [|apply u8_small]); lia.
Qed.

Lemma auto_ttl_ok ttl a1 a2 minhops maxttl n :
  0 <= ttl < 256 → hops ttl = Some n → 0 < a1 <= a2 → a2 <= n → 0 <= maxttl →
  let t := tcp_get_auto_ttl ttl a1 a2 minhops maxttl in
  0 <= t < n ∧ (maxttl ≠ 0 → t <= maxttl).
Proof.
  intros Ht Hn Ha Hle Hm t. destruct (hops_range ttl n Ht Hn) as [Hr Hu].
  assert (Hf : (if (98 <? ttl) && (ttl <? 128) then Some (u8 (128 - ttl))
     else if (34 <? ttl) && (ttl <? 64) then Some (u8 (64 - ttl)) else None) = Some n).
  { revert Hn. unfold hops. destruct (_ && _); [by intros [= ->]; rewrite Hu|].
    destruct ((34 <? ttl) && _); [by intros [= ->]; rewrite Hu|by intros [=]]. }
  subst t. unfold tcp_get_auto_ttl. rewrite Hf. clear Hf Hn. cbv zeta.
  destruct ((n <=? a1) || (n <? minhops)) eqn:E1; [lia|].
  rewrite (u8_small (n - a2)) by lia.
  assert (Hc : 0 <= (if (n - a2 <? a2) && (n <=? 9) then u8 (n - a1 - scaled (a2 - a1) n) else n - a2) < n).
  { destruct ((n - a2 <? a2) && (n <=? 9)) eqn:E2; [|lia].
    pose proof (scaled_range (a2 - a1) n). rewrite u8_small by lia. lia. }
  set (t := if _ : bool then _ else _) in *. destruct (negb (maxttl =? 0) && (maxttl <? t)) eqn:E3; lia.
Qed.
End TcpFacts.

(** * Where the code does not do what it means to *)

(** With the default [--auto-ttl 1-4-10] a server three hops away gets the fake packet with
    TTL 10, which reaches it: [nhops - autottl2] wraps around. *)
Lemma tcp_get_auto_ttl_wraps : TcpFacts.hops 61 = Some 3 ∧ Tcp.tcp_get_auto_ttl 61 1 4 3 10 = 10.
Proof. by vm_compute. Qed.

(** * Properties *)

Section properties.
Import Dns DnsFacts.

(** The tracker sees a query, then [l], then an answer for the client of the query. *)
Definition conversation (clock : nat → Z) (sip sport dip dport query : bytes) (qlen : Z) (l : list packet)
    (answer : bytes) (alen : Z) (v6 : bool) : ST (tracker dns_record) (bool * option conntrack_info) :=
  sent ← dns_handle_outgoing clock sip sport dip dport query qlen v6;
  handle_all clock l;;
  info ← dns_handle_incoming clock sip sport answer alen v6;
  mret (sent, info).

(** The readings of the clock between two states are within the clean-up's interval. *)
Definition within_interval (clock : nat → Z) (a b : nat) : Prop :=
  ∀ j k, (a <= j < b)%nat → (a <= k < b)%nat → clock k - clock j < DNS_CLEANUP_INTERVAL_SEC.


(** A query for 8.8.8.8 from 10.0.0.1:4096, one from 10.0.0.2, and an answer. *)
Definition sample_query : bytes := [0; 1; 1; 0; 0; 1; 0; 0; 0; 0; 0; 0; 1; 97; 0; 0].
Definition sample_answer : bytes := [0; 1; 129; 128; 0; 1; 0; 1; 0; 0; 0; 0; 1; 97; 0; 0].

End properties.

(** A SYN+ACK recorded with its TTL is found by the first packet the other way within
    thirty seconds, with this TTL and both addresses in their places, and forgotten. *)
Theorem server_ttl_tracked clock sip dip sport dport v6 ttl s :
  keys_ok s → ip_ok v6 sip → ip_ok v6 dip → blen sport = 2 → blen dport = 2 → sport ≠ [0; 0] → dport ≠ [0; 0] →
  0 <= ttl < 256 → Forall (λ r, r_key r ≠ TcpFacts.tcp_key v6 sip dip sport dport) (tk_conntrack s) →
  swp (added ← Tcp.tcp_handle_incoming clock sip dip sport dport v6 ttl;
       info ← Tcp.tcp_handle_outgoing clock dip sip dport sport v6; mret (added, info)) s (λ '(added, info) s',
    keys_ok s' ∧ added = true ∧ (TcpFacts.quick clock (tk_ticks s) (tk_ticks s') →
      info = Some (Tcp.TcpConntrackInfo v6 ttl (addr16 v6 sip) sport (addr16 v6 dip) dport) ∧
      Forall (λ r, r_key r ≠ TcpFacts.tcp_key v6 sip dip sport dport) (tk_conntrack s'))).
Proof.
  intros Hk H1 H2 Hs Hd Hs0 Hd0 Ht Hfree. sstep. eapply swp_mono; [by apply TcpFacts.tcp_incoming_ok|].
  cbv beta. intros b s1 (P1 & -> & k & Hk1 & Hin). sstep.
  eapply swp_mono; [apply (TcpFacts.tcp_outgoing_ok clock dip sip dport sport v6 s1 _ (pa_keys _ _ _ _ _ P1) H2 H1 Hd Hs Hin eq_refl)|].
  cbv beta. intros o s2 [P2 R2]. sstep. split_and!; [apply P2|done|]. intros Hy.
  pose proof (pa_ticks _ _ _ _ _ P1). pose proof (pa_ticks _ _ _ _ _ P2).
  destruct R2 as [-> Hgone]; [intros j Hj; cbn; apply Hy; lia|]. cbn in *. by rewrite u8_small by lia.
Qed.

Lemma server_ttl_tracked_witness :
  let clock := λ k, 100 + Z.of_nat k in
  swp (added ← Tcp.tcp_handle_incoming clock [1; 1; 1; 1] [10; 0; 0; 1] [1; 187] [16; 0] false 54;
       info ← Tcp.tcp_handle_outgoing clock [10; 0; 0; 1] [1; 1; 1; 1] [16; 0] [1; 187] false; mret (added, info))
    (Tracker 0 [] 0) (λ '(added, info) s', keys_ok s' ∧ added = true ∧ (TcpFacts.quick clock 0 (tk_ticks s') →
      info = Some (Tcp.TcpConntrackInfo false 54 ([1; 1; 1; 1] ++ repeat 0 12) [1; 187] ([10; 0; 0; 1] ++ repeat 0 12) [16; 0]) ∧
      Forall (λ r, r_key r ≠ TcpFacts.tcp_key false [1; 1; 1; 1] [10; 0; 0; 1] [1; 187] [16; 0]) (tk_conntrack s'))).
Proof.
  intros clock. apply (server_ttl_tracked clock [1; 1; 1; 1] [10; 0; 0; 1] [1; 187] [16; 0] false 54 (Tracker 0 [] 0));
    try (by vm_compute); try discriminate. apply NoDup_nil_2.
Defined.

(** The automatic TTL of a fake packet is less than the distance of the server, and at
    most the maximum, whenever the distance is not less than [autottl2]: the fake packet
    dies on the way. *)
Lemma auto_ttl_dies_on_the_way ttl a1 a2 minhops maxttl n :
  0 <= ttl < 256 → TcpFacts.hops ttl = Some n → 0 < a1 <= a2 → a2 <= n → 0 <= maxttl →
  let t := Tcp.tcp_get_auto_ttl ttl a1 a2 minhops maxttl in
  0 <= t < n ∧ (maxttl ≠ 0 → t <= maxttl).
Proof. apply TcpFacts.auto_ttl_ok. Qed.

Lemma auto_ttl_dies_on_the_way_witness :
  let t := Tcp.tcp_get_auto_ttl 57 1 4 3 10 in 0 <= t < 7 ∧ (10 ≠ 0 → t <= 10).
Proof. apply (auto_ttl_dies_on_the_way 57 1 4 3 10 7); done || lia. Defined.
