(* ===== verification/GdLine.v ===== *)
(** GoodbyeDPI's utils/getline.c: reading a file by lines into a buffer that grows.

    A file is the list of its bytes that are not read yet, none of which fails to be read. *)
From Stdlib Require Import ZArith Lia.
From stdpp Require Import base numbers list option.
From S2P Require Import Prelude CMem.

#[local] Open Scope Z_scope.
#[local] Open Scope list_scope.

Section getline.
(** What fresh memory holds. *)
Context (junk : Z → bytes).

(** BUFSIZ of the C library *)
Definition BUFSIZ : Z := 512.

(** One round of the loop: [ptr] as an offset, the buffer with its size, and the file. *)
Definition getdelim_body (delimiter : Z) (x : Z * bytes * Z * bytes) :
    comp (Z * bytes * Z * bytes + Z * bytes * Z * bytes) :=
  let '(ptr, buf, bufsiz, fp) := x in
  match fp with
  | [] =>
      if negb (ptr =? 0) then buf ← wr buf ptr 0; Ok (inr (ptr, buf, bufsiz, []))
      else Ok (inr (-1, buf, bufsiz, []))
  | c :: fp =>
      buf ← wr buf ptr c;
      let ptr := ptr + 1 in
      if c =? delimiter then buf ← wr buf ptr 0; Ok (inr (ptr, buf, bufsiz, fp))
      else if bufsiz <=? ptr + 2 then
        let nbufsiz := u64 (bufsiz * 2) in
        Ok (inl (ptr, take (Z.to_nat nbufsiz) buf ++ junk (nbufsiz - bufsiz), nbufsiz, fp))
      else Ok (inl (ptr, buf, bufsiz, fp))
  end.

(** What is returned, the buffer, its size, and the rest of the file. *)
Definition getdelim (buf : option bytes) (bufsiz delimiter : Z) (fp : bytes) : comp (Z * bytes * Z * bytes) :=
  let '(buf, bufsiz) := match buf with
    | Some buf => if bufsiz =? 0 then (junk BUFSIZ, BUFSIZ) else (buf, bufsiz)
    | None => (junk BUFSIZ, BUFSIZ)
    end in
  loop (getdelim_body delimiter) (S (length fp)) (0, buf, bufsiz, fp).
Definition getline (buf : option bytes) (bufsiz : Z) (fp : bytes) : comp (Z * bytes * Z * bytes) := getdelim buf bufsiz 10 fp.

(** * Lines *)

(** The lines of a file, each with the character that ends it. *)
Fixpoint split_lines (f : bytes) : list bytes :=
  match f with
  | [] => []
  | c :: f => if c =? 10 then [c] :: split_lines f else
      match split_lines f with l :: ls => (c :: l) :: ls | [] => [[c]] end
  end.

Lemma split_lines_concat f : concat (split_lines f) = f.
Proof.
  induction f as [|c f IH]; cbn [split_lines]; [done|]. destruct (c =? 10); cbn [concat app]; [by rewrite IH|].
  destruct (split_lines f) as [|l ls]; cbn [concat app] in *; by rewrite IH.
Qed.
Lemma split_lines_nil f : split_lines f = [] → f = [].
Proof. destruct f as [|c f]; cbn [split_lines]; [done|]. destruct (c =? 10); [done|]. by destruct (split_lines f). Qed.
Lemma split_lines_nonempty f l ls : split_lines f = l :: ls → l ≠ [].
Proof.
  destruct f as [|c f]; cbn [split_lines]; [done|]. destruct (c =? 10); [by intros [= <- _]|].
  destruct (split_lines f); by intros [= <- _].
Qed.
Lemma split_lines_rest f l ls : split_lines f = l :: ls → ∃ g, f = l ++ g ∧ split_lines g = ls.
Proof.
  revert l ls. induction f as [|c f IH]; intros l ls; cbn [split_lines]; [done|]. destruct (c =? 10).
  { intros [= <- <-]. by exists f. }
  destruct (split_lines f) as [|l' ls'] eqn:E; intros [= <- <-].
  - exists f. split; [done|]. done.
  - destruct (IH _ _ eq_refl) as (g & -> & Hg). by exists g.
Qed.

Context (Hjunk : ∀ n, 0 <= n → blen (junk n) = n).

(** The buffer, with [pre] at its start. *)
Definition line_buf (limit : Z) (pre buf : bytes) (bufsiz : Z) : Prop :=
  ∃ t, buf = pre ++ t ∧ blen buf = bufsiz ∧ blen pre + 2 <= bufsiz ∧ bufsiz <= limit.

Lemma wr_behind pre c d t : is_byte d → wr (pre ++ c :: t) (blen pre) d = Ok (pre ++ d :: t).
Proof.
  intros Hd. unfold wr, store. rewrite u8_small by done. change (blen [d]) with 1. pose proof (blen_nonneg pre). pose proof (blen_nonneg t).
  rewrite in_range_true; [|done|done|rewrite blen_app, blen_cons; lia]. by rewrite (put_at pre [c] t [d]).
Qed.

(** The line that is begun with [pre], up to its end. *)
Lemma getdelim_loop limit l rest pre buf bufsiz fuel : line_buf limit pre buf bufsiz → bytes_wf l →
  split_lines (l ++ rest) = l :: split_lines rest → (length l < fuel)%nat → 2 * (blen pre + blen l + 2) <= limit → limit < 2 ^ 63 →
  wp (loop (getdelim_body 10) fuel (blen pre, buf, bufsiz, l ++ rest)) (λ '(r, buf', bufsiz', fp),
    r = blen pre + blen l ∧ fp = rest ∧ (∃ t, buf' = (pre ++ l) ++ 0 :: t) ∧ blen buf' = bufsiz' ∧ 2 <= bufsiz' <= limit).
Proof.
  revert pre buf bufsiz fuel. induction l as [|c l IH]; intros pre buf bufsiz fuel (t & -> & Hb & Hr & Hl) Hwf Hs Hf Hlim Hmax.
  { by apply split_lines_nonempty in Hs. }
  destruct fuel as [|fuel]; [cbn in Hf; lia|]. apply list.Forall_cons in Hwf as [Hc Hwf]. rewrite blen_cons in Hlim. cbn [length] in Hf.
  pose proof (blen_nonneg pre). pose proof (blen_nonneg l). rewrite blen_app in Hb. cbn [loop app getdelim_body].
  destruct t as [|x t]; [rewrite blen_nil in Hb; lia|]. destruct t as [|y t]; [rewrite blen_cons, blen_nil in Hb; lia|]. rewrite !blen_cons in Hb.
  rewrite wr_behind, bind_ok by done. replace (blen pre + 1) with (blen (pre ++ [c])) by (rewrite blen_app; done).
  replace (pre ++ c :: y :: t) with ((pre ++ [c]) ++ y :: t) by (by rewrite <- app_assoc).
  assert (Hp : blen (pre ++ [c]) = blen pre + 1) by (rewrite blen_app; done). assert (Hbuf : blen ((pre ++ [c]) ++ y :: t) = bufsiz) by (rewrite blen_app, blen_cons, Hp; lia).
  cbn [app split_lines] in Hs. destruct (c =? 10).
  { rewrite wr_behind, bind_ok by (by split). apply wp_ok. injection Hs as Hs.
    assert (l = []) as ->. { destruct l as [|d l]; [done|]. discriminate Hs. }
    cbn [app]. split_and!; [rewrite blen_cons, blen_nil; lia|done|by exists t|rewrite <- Hbuf, !blen_app, !blen_cons; lia|lia|lia]. }
  assert (Hnext : l ≠ [] → split_lines (l ++ rest) = l :: split_lines rest).
  { intros Hne. destruct (split_lines (l ++ rest)) as [|m ms] eqn:E; [by injection Hs as <-|]. injection Hs as -> ->. done. }
  (* the rest of the line, from a buffer with room *)
  assert (Hgo : ∀ buf' siz', line_buf limit (pre ++ [c]) buf' siz' →
    wp (loop (getdelim_body 10) fuel (blen (pre ++ [c]), buf', siz', l ++ rest)) (λ '(r, buf', bufsiz', fp),
      r = blen pre + blen (c :: l) ∧ fp = rest ∧ (∃ t, buf' = (pre ++ c :: l) ++ 0 :: t) ∧ blen buf' = bufsiz' ∧ 2 <= bufsiz' <= limit)).
  { intros buf' siz' Hb'. destruct l as [|d l].
    - assert (rest = []) as ->. { destruct rest as [|e rest]; [done|]. cbn in Hs. exfalso. destruct (e =? 10); [done|]. by destruct (split_lines rest). }
      destruct fuel as [|fuel]; [cbn in Hf; lia|]. destruct Hb' as (t' & -> & Hb' & Hr' & Hl'). cbn [app loop getdelim_body].
      rewrite Hp. destruct (Z.eqb_spec (blen pre + 1) 0); [lia|]. cbn [negb]. destruct t' as [|z t']; [rewrite blen_app, blen_nil in Hb'; lia|].
      rewrite <- Hp, wr_behind, bind_ok by (by split). apply wp_ok. rewrite Hp, blen_cons, blen_nil in *.
      split_and!; [lia|done|by exists t'|rewrite <- Hb', !blen_app, !blen_cons; lia|lia|lia].
    - eapply wp_mono; [apply (IH (pre ++ [c]) buf' siz' fuel Hb' Hwf); [by apply Hnext|cbn [length] in *; lia|rewrite Hp; lia|done]|].
      intros [[[r b'] s'] fp]. rewrite Hp, !blen_cons, <- app_assoc. cbn [app]. intros (-> & H'). split; [lia|done]. }
  destruct (Z.leb_spec bufsiz (blen (pre ++ [c]) + 2)) as [Hfull|Hroom].
  - assert (Hu : u64 (bufsiz * 2) = bufsiz * 2) by (apply u64_small; lia). rewrite Hu. apply Hgo.
    eexists. rewrite take_ge by (unfold blen in Hbuf; lia). rewrite <- app_assoc. split; [reflexivity|].
    rewrite app_assoc, blen_app, Hbuf, Hjunk by lia. lia.
  - apply Hgo. eexists. split; [reflexivity|]. lia.
Qed.

(** [getline] returns the next line with its length, and leaves what is behind it. *)
Lemma getline_ok limit buf bufsiz l ls f : split_lines f = l :: ls → blen buf = bufsiz → 2 <= bufsiz <= limit → bytes_wf f →
  2 * (blen f + 2) <= limit → limit < 2 ^ 63 →
  wp (getline (Some buf) bufsiz f) (λ '(r, buf', bufsiz', fp), r = blen l ∧ split_lines fp = ls ∧ f = l ++ fp ∧
    (∃ t, buf' = l ++ 0 :: t) ∧ blen buf' = bufsiz' ∧ 2 <= bufsiz' <= limit).
Proof.
  intros Hs Hb Hr Hwf Hlim Hmax. destruct (split_lines_rest _ _ _ Hs) as (g & -> & Hg). unfold getline, getdelim.
  destruct (Z.eqb_spec bufsiz 0); [lia|]. rewrite wf_app in Hwf. rewrite blen_app in Hlim. pose proof (blen_nonneg g). pose proof (blen_nonneg l).
  eapply wp_mono; [apply (getdelim_loop limit l g [] buf bufsiz)|].
  - exists buf. rewrite blen_nil. split_and!; [done|done|lia|lia].
  - by destruct Hwf.
  - by rewrite Hs, Hg.
  - rewrite length_app. lia.
  - rewrite blen_nil. lia.
  - done.
  - intros [[[r b'] s'] fp]. cbn [app]. intros (-> & -> & Hx). rewrite blen_nil. destruct Hx as (? & ? & ?). split_and!; (done || lia).
Qed.
Lemma getline_end buf bufsiz : bufsiz ≠ 0 → getline (Some buf) bufsiz [] = Ok (-1, buf, bufsiz, []).
Proof. intros H. unfold getline, getdelim. by destruct (Z.eqb_spec bufsiz 0). Qed.
End getline.
