(* ===== verification/GdText.v ===== *)
(** GoodbyeDPI's texts: utils/repl_str.c, which fills in the templates of the filters, and
    blackwhitelist.c, the list of hosts.

    A C string is the list of its bytes without the zero at its end, none of them zero; an
    object that holds one has the zero too.  The hash table of uthash.h is the list of its
    elements in the order they were added. *)
From Stdlib Require Import ZArith Lia Ascii String.
From stdpp Require Import base numbers list option sorting sets.
From S2P Require Import Prelude CMem GdLine.

#[local] Open Scope Z_scope.
#[local] Open Scope list_scope.

(** * repl_str.c *)

Definition is_prefix (m l : bytes) : bool := bool_decide (take (length m) l = m).

(** Where the first occurrence of [from] in [l] starts. *)
Fixpoint find_sub (from l : bytes) : option Z :=
  if is_prefix from l then Some 0 else
  match l with [] => None | _ :: l => Z.succ <$> find_sub from l end.

(** [strstr(str + p, from)], as an offset into [str]. *)
Definition strstr (str : bytes) (p : Z) (from : bytes) : option Z :=
  Z.add p <$> find_sub from (drop (Z.to_nat p) str).

(** The variables of the first loop of [repl_str]; the cache of positions is the list of
    the [count] values stored so far. *)
Record scan_st := ScanSt {
  sc_pstr : Z; sc_pos_cache : list Z; sc_cache_sz : Z; sc_cache_sz_inc : Z }.

Definition cache_sz_inc_factor : Z := 3.
Definition cache_sz_inc_max : Z := 1048576.

(** One round: an occurrence goes into the cache, which grows when it is full. *)
Definition scan_body (str from : bytes) (x : scan_st) : comp (scan_st + scan_st) :=
  match strstr str (sc_pstr x) from with
  | None => Ok (inr x)
  | Some pstr2 =>
      let count := Z.of_nat (length (sc_pos_cache x)) + 1 in
      let '(sz, inc) := if sc_cache_sz x <? count then
          let inc := sc_cache_sz_inc x * cache_sz_inc_factor in
          (sc_cache_sz x + sc_cache_sz_inc x, if cache_sz_inc_max <? inc then cache_sz_inc_max else inc)
        else (sc_cache_sz x, sc_cache_sz_inc x) in
      if sz <? count then Fail OutOfBounds else
      Ok (inl (ScanSt (pstr2 + blen from) (sc_pos_cache x ++ [pstr2]) sz inc))
  end.

(** One round of the second loop: [to] and the text up to the next occurrence. *)
Definition paste_body (str from to : bytes) (pos_cache : list Z) (orglen : Z) (x : Z * Z * bytes) :
    comp (Z * Z * bytes + bytes) :=
  let '(i, pret, ret) := x in
  let count := Z.of_nat (length pos_cache) in
  if count <=? i then Ok (inr ret) else
  ret ← memcpy ret pret to 0 (blen to);
  let pret := pret + blen to in
  pos ← geti pos_cache i;
  next ← (if i =? count - 1 then Ok orglen else geti pos_cache (i + 1));
  let cpylen := next - pos - blen from in
  ret ← memcpy ret pret str (pos + blen from) cpylen;
  Ok (inl (i + 1, pret + cpylen, ret)).

(** The new string as [malloc] and the copies left it, with its zero. *)
Definition repl_str (junk : Z → bytes) (str from to : bytes) : comp bytes :=
  sc ← loop (scan_body str from) (S (S (length str))) (ScanSt 0 [] 0 16);
  let pos_cache := sc_pos_cache sc in
  let count := Z.of_nat (length pos_cache) in
  let orglen := sc_pstr sc + (blen str - sc_pstr sc) in
  let retlen := if 0 <? count then u64 (orglen + u64 (blen to - blen from) * count) else orglen in
  let ret := junk (retlen + 1) in
  if count =? 0 then store ret 0 (str ++ [0]) else
  pos ← geti pos_cache 0;
  ret ← memcpy ret 0 str 0 pos;
  ret ← loop (paste_body str from to pos_cache orglen) (S (length pos_cache)) (0, pos, ret);
  store ret retlen [0].

(** * blackwhitelist.c *)

Definition HOST_MAXLEN : Z := 253.

(** The C string at [p] of an object. *)
Fixpoint cstr_of (l : bytes) : comp bytes :=
  match l with [] => Fail OutOfBounds | c :: l => if c =? 0 then Ok [] else s ← cstr_of l; Ok (c :: s) end.
Definition cstr (b : bytes) (p : Z) : comp bytes :=
  if (p <? 0) || (blen b <? p) then Fail OutOfBounds else cstr_of (drop (Z.to_nat p) b).

(** [strchr(b + p, c)], as an offset into [b]. *)
Definition strchr (b : bytes) (p c : Z) : comp (option Z) :=
  s ← cstr b p; Ok ((λ i, p + i) <$> find_idx (λ x, x =? c) s).

(** [strcspn] *)
Fixpoint strcspn (s reject : bytes) : Z :=
  match s with
  | [] => 0
  | c :: s => if bool_decide (c ∈ reject) then 0 else 1 + strcspn s reject
  end.

(** The list of hosts. *)
Definition check_get_hostname (hosts : list bytes) (host : bytes) : bool := bool_decide (host ∈ hosts).

Definition add_hostname (hosts : list bytes) (host : bytes) : bool * list bytes :=
  if check_get_hostname hosts host then (false, hosts) else (true, hosts ++ [host]).

(** One line of the file, in the buffer that [getline] read it into. *)
Definition load_line (line : bytes) (x : list bytes * Z) : comp (bytes * (list bytes * Z)) :=
  let '(hosts, cnt) := x in
  s ← cstr line 0;
  line ← wr line (strcspn s [13; 10]) 0;
  s ← cstr line 0;
  if HOST_MAXLEN <? blen s then Ok (line, (hosts, cnt))
  else if blen s <? 2 then Ok (line, (hosts, cnt))
  else let '(added, hosts) := add_hostname hosts s in Ok (line, (hosts, if (added : bool) then cnt + 1 else cnt)).

(** One round of the loop: the buffer with its size, and what of the file is not read. *)
Definition load_body (junk : Z → bytes) (x : bytes * Z * bytes * (list bytes * Z)) :
    comp (bytes * Z * bytes * (list bytes * Z) + list bytes * Z) :=
  let '(line, linelen, fp, listed) := x in
  '(read, line, linelen, fp) ← getline junk (Some line) linelen fp;
  if read =? -1 then Ok (inr listed) else
  '(line, listed) ← load_line line listed;
  Ok (inl (line, linelen, fp, listed)).

(** [blackwhitelist_load_list] on the bytes of the file, or on one that does not open. *)
Definition blackwhitelist_load_list (junk : Z → bytes) (file : option bytes) (hosts : list bytes) :
    comp (bool * list bytes) :=
  match file with
  | None => Ok (false, hosts)
  | Some fp =>
      let linelen := HOST_MAXLEN + 1 in
      '(hosts, _) ← loop (load_body junk) (S (length fp)) (junk linelen, linelen, fp, (hosts, 0));
      Ok (negb (bool_decide (hosts = [])), hosts)
  end.

(** One round of the loop over the parent domains. *)
Definition parent_body (hosts : list bytes) (current_host : bytes) (tokenized_host : option Z) :
    comp (option Z + bool) :=
  match tokenized_host with
  | None => Ok (inr false)
  | Some p =>
      if HOST_MAXLEN <=? p then Ok (inr false) else
      s ← cstr current_host (p + 1);
      if check_get_hostname hosts s then Ok (inr true) else
      p ← strchr current_host (p + 1) (ch "."); Ok (inl p)
  end.

(** [blackwhitelist_check_hostname(host_addr, host_len)], the host at [p] of a packet. *)
Definition blackwhitelist_check_hostname (junk : Z → bytes) (hosts : list bytes) (packet : bytes) (p host_len : Z) :
    comp bool :=
  let current_host := junk (HOST_MAXLEN + 1) in
  if HOST_MAXLEN <? host_len then Ok false else
  current_host ← (if negb (host_len =? 0) then
      b ← memcpy current_host 0 packet p host_len; wr b host_len 0
    else Ok current_host);
  s ← cstr current_host 0;
  if check_get_hostname hosts s then Ok true else
  t ← strchr current_host 0 (ch ".");
  loop (parent_body hosts current_host) (S (Z.to_nat (HOST_MAXLEN + 1))) t.

(** * Replacing every occurrence *)

(** The reference: the text from left to right, each occurrence replaced as it is met. *)
Fixpoint replace_k (k : nat) (from to l : bytes) : bytes :=
  match k with
  | O => l
  | S k => if is_prefix from l then to ++ replace_k k from to (drop (length from) l)
           else match l with [] => [] | c :: l => c :: replace_k k from to l end
  end.
Definition replace_all (from to l : bytes) : bytes := replace_k (S (length l)) from to l.

Section replace.
Context (from to : bytes) (Hfrom : from ≠ []).
Implicit Types (l str : bytes).

Lemma from_length : (0 < length from)%nat.
Proof. destruct from; [done|cbn; lia]. Qed.

Lemma replace_k_enough k k' l : (length l < k)%nat → (length l < k')%nat →
  replace_k k from to l = replace_k k' from to l.
Proof.
  revert k' l. induction k as [|k IH]; intros k' l H1 H2; [lia|]. destruct k' as [|k']; [lia|]. cbn.
  destruct (is_prefix from l) eqn:E.
  - f_equal. apply IH; rewrite length_drop; pose proof from_length.
    all: assert (0 < length l)%nat by (destruct l; [unfold is_prefix in E; rewrite take_nil in E;
      by apply bool_decide_eq_true in E|cbn; lia]); lia.
  - destruct l as [|c l]; [done|]. f_equal. cbn in H1, H2. apply IH; lia.
Qed.

Lemma find_sub_spec l i : find_sub from l = Some i →
  0 <= i ∧ i + blen from <= blen l ∧
  replace_all from to l = sub l 0 i ++ to ++ replace_all from to (drop (Z.to_nat (i + blen from)) l).
Proof.
  revert i. induction l as [|c l IH]; intros i; cbn [find_sub]; destruct (is_prefix from _) eqn:E.
  - unfold is_prefix in E. apply bool_decide_eq_true in E. rewrite take_nil in E. by destruct Hfrom.
  - done.
  - intros [= <-]. assert (length from <= length (c :: l))%nat.
    { unfold is_prefix in E. apply bool_decide_eq_true in E. rewrite <- E, length_take. lia. }
    split_and!; [lia|unfold blen; lia|]. unfold replace_all at 1. cbn [replace_k]. rewrite E, sub_0. cbn [app].
    f_equal. rewrite Z.add_0_l. unfold blen. rewrite Nat2Z.id. pose proof from_length.
    apply replace_k_enough; rewrite length_drop; lia.
  - destruct (find_sub from l) as [j|] eqn:Ej; [|done]. intros [= <-]. destruct (IH j eq_refl) as (H1 & H2 & H3).
    rewrite blen_cons. split_and!; [lia|lia|]. unfold replace_all at 1. cbn [replace_k]. rewrite E.
    change (replace_k (length (c :: l)) from to l) with (replace_all from to l). rewrite H3.
    pose proof (blen_nonneg from). unfold sub. cbn [drop]. replace (Z.to_nat (Z.succ j)) with (S (Z.to_nat j)) by lia.
    replace (Z.to_nat (Z.succ j + blen from)) with (S (Z.to_nat (j + blen from))) by lia. done.
Qed.

Lemma find_sub_none l : find_sub from l = None → replace_all from to l = l.
Proof.
  induction l as [|c l IH]; cbn [find_sub]; destruct (is_prefix from _) eqn:E; try done; intros H.
  - unfold replace_all. cbn. by rewrite E.
  - unfold replace_all. cbn [replace_k]. rewrite E. f_equal. apply IH. by destruct (find_sub from l).
Qed.

(** ** The positions *)

(** The occurrences from [p] on, as the first loop finds them. *)
Inductive matches str : Z → list Z → Prop :=
  | matches_end p : strstr str p from = None → matches str p []
  | matches_next p q ps : strstr str p from = Some q → matches str (q + blen from) ps → matches str p (q :: ps).

Fixpoint spaced str (p : Z) (ps : list Z) : Prop :=
  match ps with [] => p <= blen str | q :: ps => p <= q ∧ spaced str (q + blen from) ps end.

(** The text from [p] on with the occurrences replaced. *)
Fixpoint pasted str (p : Z) (ps : list Z) : bytes :=
  match ps with
  | [] => sub str p (blen str - p)
  | q :: ps => sub str p (q - p) ++ to ++ pasted str (q + blen from) ps
  end.

Lemma strstr_spec str p q : 0 <= p <= blen str → strstr str p from = Some q →
  p <= q ∧ q + blen from <= blen str ∧
  replace_all from to (drop (Z.to_nat p) str) =
    sub str p (q - p) ++ to ++ replace_all from to (drop (Z.to_nat (q + blen from)) str).
Proof.
  intros Hp. unfold strstr. destruct (find_sub _ _) as [i|] eqn:E; [|done]. intros [= <-].
  destruct (find_sub_spec _ i E) as (H1 & H2 & ->). unfold blen in *. rewrite length_drop in H2.
  split_and!; [lia|lia|]. rewrite drop_drop. unfold sub. rewrite drop_0.
  f_equal; [f_equal; lia|]. do 3 f_equal. lia.
Qed.

Lemma matches_spaced str p ps : 0 <= p <= blen str → matches str p ps →
  spaced str p ps ∧ pasted str p ps = replace_all from to (drop (Z.to_nat p) str).
Proof.
  intros Hp H. revert Hp. induction H as [p H|p q ps H Hm IH]; intros Hp; cbn [spaced pasted].
  - split; [lia|]. unfold strstr in H. destruct (find_sub _ _) eqn:E; [done|]. rewrite (find_sub_none _ E).
    unfold sub, blen. rewrite take_ge; [done|]. rewrite length_drop. lia.
  - destruct (strstr_spec str p q Hp H) as (H1 & H2 & ->). pose proof (blen_nonneg from).
    destruct IH as [Hs ->]; [lia|]. done.
Qed.

Lemma spaced_le str p ps : spaced str p ps → p <= blen str.
Proof.
  pose proof (blen_nonneg from). revert p. induction ps as [|q ps IH]; intros p; cbn; [done|].
  intros [Hq Hs]. apply IH in Hs. lia.
Qed.

Lemma blen_pasted str p ps : 0 <= p → spaced str p ps →
  blen (pasted str p ps) = blen str - p + (blen to - blen from) * Z.of_nat (length ps).
Proof.
  pose proof (blen_nonneg from). revert p. induction ps as [|q ps IH]; intros p Hp; cbn [spaced pasted length].
  - intros H'. rewrite blen_sub by lia. lia.
  - intros [Hq Hs]. pose proof (spaced_le _ _ _ Hs). rewrite !blen_app, IH, blen_sub by (done || lia). lia.
Qed.

Lemma scan_ok str : wp (loop (scan_body str from) (S (S (length str))) (ScanSt 0 [] 0 16))
  (λ sc, matches str 0 (sc_pos_cache sc) ∧ 0 <= sc_pstr sc <= blen str).
Proof.
  pose proof from_length. assert (0 < blen from) by (unfold blen; lia).
  apply (wp_loop _ (λ x, 0 <= sc_pstr x <= blen str ∧ 16 <= sc_cache_sz_inc x ∧
      Z.of_nat (length (sc_pos_cache x)) <= sc_cache_sz x ∧
      ∀ ps, matches str (sc_pstr x) ps → matches str 0 (sc_pos_cache x ++ ps))
    (λ x, Z.to_nat (blen str - sc_pstr x))).
  - intros [pstr cache sz inc] (Hp & Hinc & Hsz & Hm). cbn [sc_pstr sc_pos_cache sc_cache_sz sc_cache_sz_inc] in *.
    unfold scan_body. cbn [sc_pstr sc_pos_cache sc_cache_sz sc_cache_sz_inc].
    destruct (strstr str pstr from) as [q|] eqn:E.
    2: { cbn. split; [|lia]. rewrite <- (app_nil_r cache). by apply Hm, matches_end. }
    destruct (strstr_spec str pstr q Hp E) as (H1 & H2 & _).
    set (c := Z.of_nat (length cache) + 1).
    assert (∃ sz' inc', (if sz <? c then
        (sz + inc, if cache_sz_inc_max <? inc * cache_sz_inc_factor then cache_sz_inc_max else inc * cache_sz_inc_factor)
        else (sz, inc)) = (sz', inc') ∧ c <= sz' ∧ 16 <= inc') as (sz' & inc' & Es & Hs' & Hi').
    { unfold cache_sz_inc_max, cache_sz_inc_factor. destruct (Z.ltb_spec sz c); eexists _, _; (split; [done|]); [|lia].
      destruct (Z.ltb_spec 1048576 (inc * 3)); lia. }
    cbv zeta. rewrite Es. destruct (Z.ltb_spec sz' c); [lia|]. cbn. split_and!; try lia.
    + rewrite length_app. cbn. lia.
    + intros ps Hps. rewrite <- app_assoc. apply Hm. by apply matches_next.
  - cbn. split_and!; [lia|apply blen_nonneg|lia|lia|done].
  - cbn. unfold blen. lia.
Qed.

(** ** Pasting *)

(** The text in front of the occurrence with number [i] is in place. *)
Definition paste_inv str (ps : list Z) (full ret0 : bytes) (x : Z * Z * bytes) : Prop :=
  let '(i, pret, ret) := x in
  blen ret = blen ret0 ∧ 0 <= i <= Z.of_nat (length ps) ∧ ∃ out, pret = blen out ∧ sub ret 0 pret = out ∧
  match drop (Z.to_nat i) ps with
  | [] => out = full
  | q :: qs => 0 <= q ∧ spaced str (q + blen from) qs ∧ out ++ to ++ pasted str (q + blen from) qs = full
  end.

Lemma drop_cons {A} (l : list A) (n : nat) x y : drop n l = x :: y →
  l !! n = Some x ∧ drop (S n) l = y ∧ length l = (n + S (length y))%nat.
Proof.
  intros E. assert (Hl : l !! n = Some x) by (by rewrite <- (Nat.add_0_r n), <- lookup_drop, E).
  split_and!; [done|by rewrite <- Nat.add_1_r, <- drop_drop, E|].
  pose proof (lookup_lt_Some _ _ _ Hl). pose proof (length_drop l n). rewrite E in H0. cbn in H0. lia.
Qed.

Lemma paste_ok str ps full ret pret0 : blen full < blen ret → pret0 <= blen str →
  paste_inv str ps full ret (0, pret0, ret) →
  wp (loop (paste_body str from to ps (blen str)) (S (length ps)) (0, pret0, ret))
    (λ ret', blen ret' = blen ret ∧ sub ret' 0 (blen full) = full).
Proof.
  intros Hroom _ Hinv. apply (wp_loop _ (paste_inv str ps full ret) (λ x, (length ps - Z.to_nat x.1.1)%nat));
    [|done|cbn; lia].
  intros [[i pret] r] (Hr & Hi & out & -> & Hout & Hrest). unfold paste_body.
  destruct (Z.leb_spec (Z.of_nat (length ps)) i) as [Hle|Hlt].
  { rewrite drop_ge in Hrest by lia. subst full. cbn. by rewrite Hout. }
  destruct (drop (Z.to_nat i) ps) as [|q qs] eqn:Ed.
  { apply (f_equal length) in Ed. rewrite length_drop in Ed. cbn in Ed. lia. }
  destruct (drop_cons ps (Z.to_nat i) q qs Ed) as (Eq & Ed' & Elen). destruct Hrest as (Hq & Hsp & Efull).
  pose proof (blen_nonneg out). pose proof (blen_nonneg to). pose proof (blen_nonneg from).
  pose proof (spaced_le _ _ _ Hsp) as Hqle.
  (* the text up to the next occurrence *)
  assert (∃ next rest, (if i =? Z.of_nat (length ps) - 1 then Ok (blen str) else geti ps (i + 1)) = Ok next ∧
    q + blen from <= next <= blen str ∧
    pasted str (q + blen from) qs = sub str (q + blen from) (next - (q + blen from)) ++ rest ∧
    match qs with [] => rest = [] | q' :: qs' => next = q' ∧ spaced str (q' + blen from) qs' ∧
      rest = to ++ pasted str (q' + blen from) qs' end) as (next & rest & En & Hn & Ep & Hqs).
  { destruct qs as [|q' qs'].
    - exists (blen str), []. cbn in Elen. destruct (Z.eqb_spec i (Z.of_nat (length ps) - 1)); [|lia].
      cbn. rewrite app_nil_r. split_and!; [done|lia|lia|done|done].
    - destruct (drop_cons ps (S (Z.to_nat i)) q' qs' Ed') as (Eq' & _ & Elen').
      cbn in Hsp. destruct Hsp as [Hq' Hsp']. pose proof (spaced_le _ _ _ Hsp').
      exists q', (to ++ pasted str (q' + blen from) qs').
      destruct (Z.eqb_spec i (Z.of_nat (length ps) - 1)); [cbn in Elen; lia|].
      split_and!; [|lia|lia|done|done|done|done].
      unfold geti. destruct (Z.ltb_spec (i + 1) 0); [lia|].
      replace (Z.to_nat (i + 1)) with (S (Z.to_nat i)) by lia. by rewrite Eq'. }
  set (mid := sub str (q + blen from) (next - (q + blen from))) in *.
  assert (Hmid : blen mid = next - (q + blen from)) by (unfold mid; rewrite blen_sub; lia).
  assert (Hlen : blen out + blen to + blen mid + blen rest = blen full).
  { rewrite <- Efull, Ep, !blen_app. lia. }
  pose proof (blen_nonneg rest).
  apply wp_bind, wp_memcpy; [lia|lia|lia|lia|lia|]. rewrite sub_all. apply wp_bind.
  eapply wp_geti; [lia|exact Eq|]. rewrite En, bind_ok.
  apply wp_bind, wp_memcpy; [lia|lia|lia|rewrite blen_put; lia|lia|].
  replace (next - q - blen from) with (next - (q + blen from)) by lia. fold mid.
  apply wp_ok. rewrite put_put_app by lia. split; [|cbn; lia].
  unfold paste_inv. rewrite blen_put by (rewrite ?blen_app; lia). split; [done|]. split; [lia|].
  exists (out ++ to ++ mid). rewrite !blen_app. split; [lia|]. split.
  { assert (blen (put r (blen out) (to ++ mid)) = blen r) by (rewrite blen_put; rewrite ?blen_app; lia).
    rewrite (sub_split _ 0 _ (blen out)) by lia. f_equal.
    - rewrite sub_put_disjoint; [exact Hout|..]; rewrite ?blen_app; lia.
    - replace (blen out + blen to + (next - (q + blen from)) - blen out)
        with (blen (to ++ mid)) by (rewrite blen_app; lia). apply sub_put_same; rewrite ?blen_app; lia. }
  replace (Z.to_nat (i + 1)) with (S (Z.to_nat i)) by lia. rewrite Ed'.
  destruct qs as [|q' qs'].
  - rewrite <- Efull, Ep, Hqs. by rewrite app_nil_r.
  - destruct Hqs as (-> & Hsp' & ->). split_and!; [lia|done|]. rewrite <- Efull, Ep. by rewrite <- !app_assoc.
Qed.
End replace.

Lemma u64_mul_add x a c : u64 (x + u64 a * c) = u64 (x + a * c).
Proof. unfold u64. rewrite <- Z.add_mod_idemp_r, Z.mul_mod_idemp_l, Z.add_mod_idemp_r; done. Qed.

Lemma put_all b l : blen b = blen l → put b 0 l = l.
Proof.
  intros H. pose proof (put_at [] b [] l 0 eq_refl H) as E. cbn [app] in E. by rewrite !app_nil_r in E.
Qed.

Lemma repl_str_ok junk str from to :
  (∀ n, 0 <= n → blen (junk n) = n) → from ≠ [] → blen (replace_all from to str) < 2 ^ 64 →
  repl_str junk str from to = Ok (replace_all from to str ++ [0]).
Proof.
  intros Hj Hfrom Hlen. apply wp_eq. unfold repl_str. apply wp_bind.
  eapply wp_mono; [by apply scan_ok|]. cbv beta. intros sc [Hm Hp]. cbv zeta.
  pose proof (blen_nonneg str). pose proof (blen_nonneg to). pose proof (blen_nonneg from).
  replace (sc_pstr sc + (blen str - sc_pstr sc)) with (blen str) by lia. set (ps := sc_pos_cache sc) in *.
  destruct (matches_spaced from to Hfrom str 0 ps) as [Hsp Ep]; [lia|done|]. change (Z.to_nat 0) with 0%nat in Ep.
  rewrite drop_0 in Ep. rewrite <- Ep in *. pose proof (blen_pasted from to str 0 ps ltac:(lia) Hsp) as Hb.
  set (full := pasted from to str 0 ps) in *. pose proof (blen_nonneg full).
  assert (Eret : (if 0 <? Z.of_nat (length ps) then u64 (blen str + u64 (blen to - blen from) * Z.of_nat (length ps))
    else blen str) = blen full).
  { destruct (Z.ltb_spec 0 (Z.of_nat (length ps))); [|lia]. rewrite u64_mul_add, u64_small; lia. }
  rewrite Eret. assert (Hjl : blen (junk (blen full + 1)) = blen full + 1) by (apply Hj; lia).
  destruct ps as [|q ps'] eqn:Eps.
  { cbn [length Z.of_nat Z.eqb]. cbn in Hb. assert (Ef : full = str).
    { subst full. cbn. replace (blen str - 0) with (blen str) by lia. apply sub_all. }
    rewrite Ef in *. apply wp_store; [lia|rewrite blen_app, blen_cons, blen_nil; lia|].
    apply put_all. rewrite blen_app, blen_cons, blen_nil. lia. }
  destruct (Z.eqb_spec (Z.of_nat (length (q :: ps'))) 0) as [|_]; [done|].
  cbn in Hsp. destruct Hsp as [Hq Hsp]. pose proof (spaced_le from _ _ _ Hsp) as Hqle.
  change (geti (q :: ps') 0) with (Ok q). rewrite bind_ok.
  assert (Hfull : full = sub str 0 q ++ to ++ pasted from to str (q + blen from) ps').
  { subst full. cbn. by rewrite Z.sub_0_r. }
  pose proof (blen_nonneg (pasted from to str (q + blen from) ps')).
  assert (Hlf : blen full = q + blen to + blen (pasted from to str (q + blen from) ps')).
  { rewrite Hfull, !blen_app, blen_sub by lia. lia. }
  apply wp_bind, wp_memcpy; [lia|lia|lia|lia|lia|]. set (r0 := put _ 0 _).
  assert (Hr0 : blen r0 = blen full + 1) by (unfold r0; rewrite blen_put; rewrite ?blen_sub; lia).
  apply wp_bind. eapply wp_mono.
  { apply (paste_ok from to str (q :: ps') full r0 q); [lia|lia|].
    split; [done|]. split; [cbn; lia|]. exists (sub str 0 q). split; [rewrite blen_sub; lia|]. split.
    - pose proof (sub_put_same (junk (blen full + 1)) 0 (sub str 0 q)) as E. rewrite blen_sub in E by lia. apply E; lia.
    - cbn [drop Z.to_nat]. split_and!; [lia|done|by symmetry]. }
  cbv beta. intros r [Hr Hc]. apply wp_store; [lia|rewrite blen_cons, blen_nil; lia|].
  destruct (split_at r (blen full)) as (x & y & -> & Hx); [lia|]. rewrite sub_app_l, <- Hx, sub_all in Hc by lia.
  subst x. rewrite blen_app in Hr. destruct y as [|c [|? y]]; [rewrite blen_nil in Hr; lia| |rewrite !blen_cons in Hr; pose proof (blen_nonneg y); lia].
  rewrite <- (app_nil_r [c]). rewrite put_at; [done|done|done].
Qed.

(** * The list of hosts *)

(** A C string: no byte of it is zero. *)
Definition no_zero (s : bytes) : Prop := Forall (λ c, c ≠ 0) s.

Lemma cstr_of_app s t : no_zero s → cstr_of (s ++ 0 :: t) = Ok s.
Proof.
  induction 1 as [|c s Hc Hs IH]; cbn; [done|]. destruct (Z.eqb_spec c 0); [done|]. by rewrite IH.
Qed.
Lemma cstr_zero s t p : no_zero s → 0 <= p <= blen s → cstr (s ++ 0 :: t) p = Ok (sub s p (blen s - p)).
Proof.
  intros Hs Hp. unfold cstr. rewrite blen_app, blen_cons. pose proof (blen_nonneg t).
  destruct (Z.ltb_spec p 0); [lia|]. destruct (Z.ltb_spec (blen s + (blen t + 1)) p); [lia|]. cbn [orb].
  unfold blen in *. rewrite drop_app_le by lia. rewrite cstr_of_app by (by apply Forall_drop).
  unfold sub. rewrite take_ge; [done|]. rewrite length_drop. lia.
Qed.

Definition dot : Z := ch ".".
Definition next_dot (s : bytes) : option Z := find_idx (λ x, x =? dot) s.

Lemma find_idx_spec s : match next_dot s with
  | Some i => ∃ x y, s = x ++ dot :: y ∧ blen x = i ∧ dot ∉ x
  | None => dot ∉ s
  end.
Proof.
  unfold next_dot. induction s as [|c s IH]; cbn [find_idx]; [by apply not_elem_of_nil|].
  destruct (Z.eqb_spec c dot) as [->|Hc].
  - exists [], s. split_and!; [done|done|apply not_elem_of_nil].
  - destruct (find_idx _ s) as [i|]; cbn.
    + destruct IH as (x & y & -> & <- & Hx). exists (c :: x), y. rewrite blen_cons. split_and!; [done|lia|].
      rewrite not_elem_of_cons. by split.
    + rewrite not_elem_of_cons. by split.
Qed.

(** [host] is in the list or one of its parent domains is. *)
Definition listed (hosts : list bytes) (host : bytes) : Prop :=
  host ∈ hosts ∨ ∃ sub_, ∃ parent, host = sub_ ++ dot :: parent ∧ parent ∈ hosts.

Section check.
Context (hosts : list bytes) (host : bytes) (t : bytes).
Context (Hz : no_zero host) (Hlen : blen host <= HOST_MAXLEN).

(** What [strchr] finds from [p] on. *)
Lemma strchr_ok p : 0 <= p <= blen host →
  wp (strchr (host ++ 0 :: t) p dot) (λ o, match o with
    | Some q => p <= q < blen host ∧ (∃ x, host = x ++ dot :: sub host (q + 1) (blen host - (q + 1))) ∧
        ∀ x y, host = x ++ dot :: y → p <= blen x → q <= blen x
    | None => ∀ x y, host = x ++ dot :: y → blen x < p
    end).
Proof.
  intros Hp. unfold strchr. rewrite cstr_zero by done. rewrite bind_ok. apply wp_ok.
  set (s := sub host p (blen host - p)). change (find_idx (λ x, x =? dot) s) with (next_dot s).
  assert (Eh : host = sub host 0 p ++ s).
  { unfold s. rewrite <- (sub_all host) at 1. rewrite (sub_split host 0 (blen host) p) by lia. by rewrite Z.add_0_l. }
  assert (Hl0 : blen (sub host 0 p) = p) by (rewrite blen_sub; lia).
  assert (Hfirst : ∀ x y, host = x ++ dot :: y → p <= blen x → ∃ x', x = sub host 0 p ++ x' ∧ s = x' ++ dot :: y).
  { intros x y E Hx. destruct (split_at x p) as (a & b & -> & Ha); [lia|]. exists b.
    rewrite Eh, <- app_assoc in E. apply app_inj_1 in E as [E1 E2]; [by subst|].
    unfold blen in *. lia. }
  pose proof (find_idx_spec s) as H. destruct (next_dot s) as [i|]; cbn.
  - destruct H as (x & y & E & <- & Hx). pose proof (blen_nonneg x). pose proof (blen_nonneg y).
    assert (Hls : blen s = blen x + 1 + blen y) by (rewrite E, blen_app, blen_cons; lia).
    assert (Hh : blen host = p + blen s) by (rewrite Eh, blen_app at 1; lia).
    split; [lia|]. split.
    + exists (sub host 0 p ++ x). rewrite <- app_assoc. rewrite Eh at 1. f_equal. rewrite E at 1. do 2 f_equal.
      replace (blen host - (p + blen x + 1)) with (blen y) by lia.
      assert (E' : host = (sub host 0 p ++ x ++ [dot]) ++ y ++ []).
      { rewrite app_nil_r, <- !app_assoc. cbn. by rewrite <- E. }
      rewrite E' at 1. symmetry. apply sub_at; [|done]. rewrite !blen_app, blen_cons, blen_nil. lia.
    + intros x2 y2 E2 Hp2. destruct (Hfirst x2 y2 E2 Hp2) as (x' & -> & E').
      rewrite blen_app, Hl0. destruct (Z.le_gt_cases (blen x) (blen x')); [lia|]. exfalso. apply Hx.
      rewrite E in E'. assert (Hpre : x = x' ++ dot :: drop (S (length x')) x).
      { assert (Hx' : x !! length x' = Some dot).
        { assert (Hlk : (x ++ dot :: y) !! length x' = Some dot) by (rewrite E'; by apply list_lookup_middle).
          rewrite lookup_app_l in Hlk; [done|unfold blen in *; lia]. }
        assert (Ht : take (length x') x = x').
        { apply (f_equal (take (length x'))) in E'. rewrite take_app_le in E' by (unfold blen in *; lia).
          by rewrite E', take_app_length. }
        rewrite <- (take_drop_middle x (length x') dot Hx') at 1. by rewrite Ht. }
      rewrite Hpre. apply elem_of_app. right. by left.
  - intros x2 y2 E2. destruct (Z.lt_ge_cases (blen x2) p); [done|]. exfalso.
    destruct (Hfirst x2 y2 E2) as (x' & -> & E'); [lia|]. apply H. rewrite E'. apply elem_of_app. right. by left.
Qed.

(** The domain behind the dot at [q]. *)
Definition behind (q : Z) : bytes := sub host (q + 1) (blen host - (q + 1)).

Lemma behind_dot x y : host = x ++ dot :: y → y = behind (blen x).
Proof.
  intros E. unfold behind. assert (E' : host = (x ++ [dot]) ++ y ++ []) by (by rewrite app_nil_r, <- app_assoc).
  assert (Hl : blen host - (blen x + 1) = blen y) by (rewrite E, blen_app, blen_cons; lia).
  rewrite Hl, E'. symmetry. apply sub_at; [|done]. by rewrite blen_app, blen_cons, blen_nil.
Qed.

Lemma parent_loop_ok o fuel : host ∉ hosts → (Z.to_nat (HOST_MAXLEN + 1) < fuel)%nat →
  match o with
  | Some q => 0 <= q < blen host ∧ (∃ x, host = x ++ dot :: behind q) ∧
      ∀ x y, host = x ++ dot :: y → y ∈ hosts → q <= blen x
  | None => ∀ x y, host = x ++ dot :: y → y ∉ hosts
  end →
  wp (loop (parent_body hosts (host ++ 0 :: t)) fuel o) (λ b, b = true ↔ listed hosts host).
Proof.
  intros Hnot Hfuel Ho. set (Inv := λ o : option Z, match o with
    | Some q => 0 <= q < blen host ∧ (∃ x, host = x ++ dot :: behind q) ∧
        ∀ x y, host = x ++ dot :: y → y ∈ hosts → q <= blen x
    | None => ∀ x y, host = x ++ dot :: y → y ∉ hosts end).
  apply (wp_loop _ Inv (λ o, match o with Some q => S (Z.to_nat (blen host - q)) | None => 0%nat end)).
  - intros [q|] H; cbn [parent_body Inv] in *.
    2: { apply wp_ok. split; [done|]. intros [?|(x & y & E & Hy)]; [done|]. by destruct (H x y E). }
    destruct H as (Hq & [x Ex] & Hbefore). unfold HOST_MAXLEN in *. destruct (Z.leb_spec 253 q); [lia|].
    rewrite cstr_zero by (done || lia). rewrite bind_ok. fold (behind q).
    unfold check_get_hostname. case_bool_decide as Hb.
    { apply wp_ok. split; [|done]. intros _. right. by exists x, (behind q). }
    apply wp_bind. eapply wp_mono; [apply strchr_ok; lia|]. cbv beta.
    assert (Hnext : ∀ x y, host = x ++ dot :: y → y ∈ hosts → q + 1 <= blen x).
    { intros x2 y2 E2 Hy2. pose proof (Hbefore x2 y2 E2 Hy2). destruct (decide (blen x2 = q)) as [Heq|]; [|lia].
      exfalso. apply Hb. by rewrite <- Heq, <- (behind_dot x2 y2 E2). }
    intros [q2|].
    + intros (Hq2 & [x2 Hx2] & Hmin). apply wp_ok. split; [|lia]. split_and!; [lia|lia|by exists x2|].
      intros x3 y3 E3 Hy3. apply (Hmin x3 y3 E3). by apply (Hnext x3 y3).
    + intros Hnone. apply wp_ok. split; [|lia]. intros x3 y3 E3 Hy3. pose proof (Hnone x3 y3 E3).
      pose proof (Hnext x3 y3 E3 Hy3). lia.
  - exact Ho.
  - unfold HOST_MAXLEN in *. destruct o; lia.
Qed.
End check.

(** What is done with the host once it is copied, [s] with its zero. *)
Lemma check_buffer_ok hosts s t : no_zero s → blen s <= HOST_MAXLEN →
  wp (h ← cstr (s ++ 0 :: t) 0;
      if check_get_hostname hosts h then Ok true else
      o ← strchr (s ++ 0 :: t) 0 (ch ".");
      loop (parent_body hosts (s ++ 0 :: t)) (S (Z.to_nat (HOST_MAXLEN + 1))) o) (λ b, b = true ↔ listed hosts s).
Proof.
  intros Hz Hlen. pose proof (blen_nonneg s). rewrite cstr_zero by (done || lia). rewrite bind_ok, Z.sub_0_r, sub_all.
  unfold check_get_hostname. case_bool_decide as Hb; [apply wp_ok; split; [by left|done]|].
  apply wp_bind. eapply wp_mono; [apply strchr_ok; [done|lia]|]. cbv beta. intros o Ho.
  apply (parent_loop_ok hosts s t Hz Hlen); [done|lia|].
  destruct o as [q|].
  - destruct Ho as (Hq & Hx & Hmin). split_and!; [lia|lia|done|].
    intros x y Exy Hy. apply (Hmin x y Exy). apply blen_nonneg.
  - intros x y Exy Hy. pose proof (Ho x y Exy). pose proof (blen_nonneg x). lia.
Qed.

(** The bytes in front of the first zero. *)
Lemma first_zero h : ∃ s t, h ++ [0] = s ++ 0 :: t ∧ no_zero s ∧ blen s <= blen h.
Proof.
  induction h as [|c h (s & t & E & Hz & Hl)]; [exists [], []; split_and!; [done|constructor|done]|].
  destruct (decide (c = 0)) as [->|Hc].
  - exists [], (h ++ [0]). split_and!; [done|constructor|]. change (blen []) with 0. apply blen_nonneg.
  - exists (c :: s), t. rewrite !blen_cons. split_and!; [cbn; by rewrite E|by constructor|lia].
Qed.

(** The copy of the host with its zero. *)
Lemma host_copied junk packet p n : (∀ n, 0 <= n → blen (junk n) = n) → 0 <= p → 0 < n <= HOST_MAXLEN →
  p + n <= blen packet → ∃ t,
  (b ← memcpy (junk (HOST_MAXLEN + 1)) 0 packet p n; wr b n 0) = Ok ((sub packet p n ++ [0]) ++ t).
Proof.
  intros Hj Hp Hn Hin. unfold HOST_MAXLEN in *. assert (Hjl : blen (junk (253 + 1)) = 254) by (apply Hj; lia).
  set (j := junk _) in *. destruct (split_at j n) as (a & b & Ej & Ha); [lia|]. rewrite Ej in *. rewrite blen_app in Hjl.
  destruct b as [|c b]; [rewrite blen_nil in Hjl; lia|]. rewrite blen_cons in Hjl. exists b.
  assert (Hs : blen (sub packet p n) = n) by (rewrite blen_sub; lia).
  apply wp_eq, wp_bind, wp_memcpy; [lia|lia|lia|rewrite blen_app, blen_cons; lia|lia|].
  pose proof (put_at [] a (c :: b) (sub packet p n) 0 eq_refl) as E. cbn [app] in E. rewrite E by lia.
  apply wp_store; [lia|rewrite blen_app, !blen_cons, blen_nil; pose proof (blen_nonneg b); lia|].
  change (u8 0) with 0. rewrite <- app_assoc. by apply (put_at _ [c] b [0]).
Qed.

(** The answer is about the host up to its first zero. *)
Lemma check_hostname_any junk hosts packet p n : (∀ n, 0 <= n → blen (junk n) = n) → 0 <= p → 0 < n →
  p + n <= blen packet → ∃ s t, sub packet p n ++ [0] = s ++ 0 :: t ∧ no_zero s ∧
  wp (blackwhitelist_check_hostname junk hosts packet p n) (λ b, b = true ↔ n <= HOST_MAXLEN ∧ listed hosts s).
Proof.
  intros Hj Hp Hpos Hin. destruct (first_zero (sub packet p n)) as (s & t & E & Hz & Hl). exists s, t. split_and!; [done..|].
  rewrite blen_sub in Hl by lia. unfold blackwhitelist_check_hostname.
  destruct (Z.ltb_spec HOST_MAXLEN n) as [|Hlen]; [apply wp_ok; split; [done|lia]|].
  destruct (Z.eqb_spec n 0); [lia|]. cbn [negb].
  destruct (host_copied junk packet p n) as [u ->]; [done|done|lia|done|]. rewrite bind_ok, E, <- app_assoc. cbn [app].
  eapply wp_mono; [apply check_buffer_ok; [done|lia]|]. cbv beta. intros b ->. split; [by split|]. by intros [_ H].
Qed.

Lemma check_hostname_ok junk hosts packet p host :
  (∀ n, 0 <= n → blen (junk n) = n) → 0 <= p → 0 < blen host → p + blen host <= blen packet →
  sub packet p (blen host) = host → no_zero host →
  wp (blackwhitelist_check_hostname junk hosts packet p (blen host))
    (λ b, b = true ↔ blen host <= HOST_MAXLEN ∧ listed hosts host).
Proof.
  intros Hj Hp Hpos Hin Hhost Hz.
  destruct (check_hostname_any junk hosts packet p (blen host)) as (s & t & E & Hs & Hw); [done..|].
  rewrite Hhost in E. assert (host = s) as <-; [|done].
  pose proof (cstr_of_app host [] Hz) as E1. pose proof (cstr_of_app s t Hs) as E2. rewrite E in E1. congruence.
Qed.

(** ** Loading *)

(** The host of a line: what is in front of the end of the line, or of a zero in it. *)
Definition host_of (line : bytes) : bytes := sub line 0 (strcspn line [13; 10; 0]).
Definition good_line (line : bytes) : Prop := 2 <= blen (host_of line) <= HOST_MAXLEN.

Lemma strcspn_range s l : 0 <= strcspn s l <= blen s.
Proof. induction s as [|c s IH]; cbn [strcspn]; [done|]. rewrite blen_cons. case_bool_decide; lia. Qed.

(** Its text is cut at the same place. *)
Lemma host_of_text line s t : line ++ [0] = s ++ 0 :: t → no_zero s → host_of line = sub s 0 (strcspn s [13; 10]).
Proof.
  unfold host_of, sub. revert s. induction line as [|c line IH]; intros s E Hs.
  { destruct s as [|d s]; [done|]. injection E as _ E. by destruct s. }
  destruct s as [|d s]; cbn [app] in E; injection E as -> E; [done|].
  apply list.Forall_cons in Hs as [Hd Hs]. cbn [strcspn].
  assert (Hin : d ∈ [13; 10; 0] ↔ d ∈ [13; 10]) by (rewrite !elem_of_cons; naive_solver).
  rewrite (bool_decide_ext _ _ Hin). case_bool_decide; [done|].
  pose proof (strcspn_range line [13; 10; 0]). pose proof (strcspn_range s [13; 10]). specialize (IH s E Hs).
  rewrite !drop_0 in *. rewrite !Z.add_comm with (n := 1), !Z2Nat.inj_add, !Nat.add_1_r by lia. cbn [take]. by rewrite IH.
Qed.

Lemma load_line_ok line t hosts cnt :
  wp (load_line (line ++ 0 :: t) (hosts, cnt)) (λ '(b, (hosts', _)), blen b = blen (line ++ 0 :: t) ∧
    ∀ h, h ∈ hosts' ↔ h ∈ hosts ∨ good_line line ∧ h = host_of line).
Proof.
  destruct (first_zero line) as (s & t' & E & Hs & _). unfold good_line. rewrite (host_of_text _ _ _ E Hs).
  assert (line ++ 0 :: t = s ++ 0 :: t' ++ t) as ->.
  { change (0 :: t) with ([0] ++ t). by rewrite app_assoc, E, <- app_assoc. }
  revert Hs. generalize (t' ++ t). clear line t E t'. intros t Hz. unfold load_line.
  rewrite (cstr_zero s t 0 Hz) by (pose proof (blen_nonneg s); lia).
  rewrite bind_ok, Z.sub_0_r, sub_all. pose proof (strcspn_range s [13; 10]) as Hr.
  set (n := strcspn s [13; 10]) in *. destruct (split_at s n) as (a & b & El & Ha); [lia|].
  assert (Hb : ∃ u, wr (s ++ 0 :: t) n 0 = Ok (a ++ 0 :: u) ∧ blen (a ++ 0 :: u) = blen (s ++ 0 :: t)).
  { rewrite El, <- app_assoc. destruct (b ++ 0 :: t) as [|c u] eqn:Eu; [by apply app_nil in Eu as [_ Eu]|]. exists u. rewrite <- Ha, wr_behind by (unfold is_byte; lia).
    by rewrite !blen_app, !blen_cons. }
  destruct Hb as (u & -> & Hlen). rewrite bind_ok. assert (Hza : no_zero a).
  { unfold no_zero in *. rewrite El in Hz. by apply Forall_app in Hz as [? _]. }
  rewrite cstr_zero by (done || (pose proof (blen_nonneg a); lia)). rewrite bind_ok, Z.sub_0_r, sub_all.
  assert (sub s 0 n = a) as ->. { rewrite El, sub_app_l by lia. rewrite <- Ha. apply sub_all. }
  unfold HOST_MAXLEN. destruct (Z.ltb_spec 253 (blen a)); [apply wp_ok; intuition lia|].
  destruct (Z.ltb_spec (blen a) 2); [apply wp_ok; intuition lia|].
  unfold add_hostname, check_get_hostname. case_bool_decide as Hin; apply wp_ok; (split; [done|intros h]).
  - split; [by left|]. by intros [?|[_ ->]].
  - rewrite elem_of_app, list_elem_of_singleton. intuition lia.
Qed.

Lemma load_lines_ok junk limit f line linelen hosts cnt fuel : (∀ n, 0 <= n → blen (junk n) = n) →
  blen line = linelen → 2 <= linelen <= limit → bytes_wf f → 2 * (blen f + 2) <= limit → limit < 2 ^ 63 →
  (length f < fuel)%nat → wp (loop (load_body junk) fuel (line, linelen, f, (hosts, cnt))) (λ '(hosts', _), ∀ h, h ∈ hosts' ↔
    h ∈ hosts ∨ ∃ line, line ∈ split_lines f ∧ good_line line ∧ h = host_of line).
Proof.
  intros Hj. revert f line linelen hosts cnt. induction fuel as [|fuel IH]; intros f line linelen hosts cnt Hl Hr Hwf Hf Hlim Hfuel; [lia|].
  cbn [loop load_body]. apply wp_bind. destruct (split_lines f) as [|l ls] eqn:Es.
  { apply split_lines_nil in Es as ->. rewrite getline_end, bind_ok by lia. apply wp_ok, wp_ok. intros h. split; [by left|].
    intros [?|(? & []%elem_of_nil & _)]. done. }
  apply wp_bind. eapply wp_mono; [by apply (getline_ok junk Hj limit _ _ l ls)|].
  intros [[[r b] siz] fp] (-> & Hls & -> & [t ->] & Hb & Hsiz). pose proof (split_lines_nonempty _ _ _ Es) as Hne.
  destruct (Z.eqb_spec (blen l) (-1)) as [|_]; [pose proof (blen_nonneg l); lia|]. apply wp_bind.
  eapply wp_mono; [apply load_line_ok|]. intros [b' [h1 c1]] [Hb' H1]. apply wp_ok. rewrite wf_app in Hwf. rewrite blen_app in Hf.
  rewrite length_app in Hfuel. pose proof (blen_nonneg l). assert (0 < length l)%nat by (destruct l; [done|cbn; lia]).
  eapply wp_mono; [apply IH; [lia|lia|by destruct Hwf|lia|lia|lia]|]. rewrite Hls. intros [h2 c2] H2 h. rewrite H2, H1. split.
  - intros [[?|[? ->]]|(x & Hx & ? & ->)]; [by left|right; exists l|right; exists x]; rewrite elem_of_cons; auto.
  - intros [?|(x & [->|Hx]%elem_of_cons & ? & ->)]; [by left; left|left; by right|right; by exists x].
Qed.

(** A file of bytes that is smaller than the address space. *)
Definition file_ok (f : bytes) : Prop := bytes_wf f ∧ blen f < 2 ^ 60.

Lemma load_list_ok junk f hosts : (∀ n, 0 <= n → blen (junk n) = n) → file_ok f →
  wp (blackwhitelist_load_list junk (Some f) hosts) (λ '(ok, hosts'), ok = negb (bool_decide (hosts' = [])) ∧
    ∀ h, h ∈ hosts' ↔ h ∈ hosts ∨ ∃ line, line ∈ split_lines f ∧ good_line line ∧ h = host_of line).
Proof.
  intros Hj [Hwf Hf]. cbn [blackwhitelist_load_list]. unfold HOST_MAXLEN. pose proof (blen_nonneg f). apply wp_bind.
  eapply wp_mono; [apply (load_lines_ok junk (2 ^ 62)); [done|apply Hj|..]; [lia..|done|lia|lia|lia]|].
  intros [hosts' cnt] Hh. by apply wp_ok.
Qed.

(** * The properties *)

(** C39: [repl_str] returns the string with every occurrence of [from] replaced by [to], as a
    left to right reading of it replaces them, with its zero, whatever the memory [malloc]
    returned held; none of its copies leaves the two strings or the new one. *)
Theorem repl_str_replaces junk str from to :
  (∀ n, 0 <= n → blen (junk n) = n) → from ≠ [] → blen (replace_all from to str) < 2 ^ 64 →
  repl_str junk str from to = Ok (replace_all from to str ++ [0]).
Proof. apply repl_str_ok. Qed.

Lemma repl_str_replaces_witness :
  repl_str (λ n, repeat 170 (Z.to_nat n)) (bs "a #I# and #I#") (bs "#I#") (bs "ip") =
  Ok (bs "a ip and ip" ++ [0]).
Proof.
  assert (Ej : ∀ n, 0 <= n → blen (repeat 170 (Z.to_nat n)) = n).
  { intros n Hn. unfold blen. rewrite repeat_length. lia. }
  assert (Er : replace_all (bs "#I#") (bs "ip") (bs "a #I# and #I#") = bs "a ip and ip") by (vm_compute; reflexivity).
  rewrite <- Er. apply (repl_str_replaces _ _ _ _ Ej); [vm_compute; discriminate|rewrite Er; vm_compute; reflexivity].
Defined.

(** C40: after [blackwhitelist_load_list] has read a file, whatever its bytes,
    [blackwhitelist_check_hostname] says of the host of a packet exactly whether its length
    is within [HOST_MAXLEN] and it, or one of its parent domains, is the text before the end
    of a line of the file of 2 to [HOST_MAXLEN] characters; and neither of the two, nor [getline]
    with the buffer it makes larger, reads or writes outside its buffers. *)
Theorem listed_hosts_found junk f packet p host :
  (∀ n, 0 <= n → blen (junk n) = n) → file_ok f → no_zero host → 0 <= p → 0 < blen host →
  p + blen host <= blen packet → sub packet p (blen host) = host →
  wp (blackwhitelist_load_list junk (Some f) []) (λ '(ok, hosts),
    (ok = true ↔ ∃ line, line ∈ split_lines f ∧ good_line line) ∧
    wp (blackwhitelist_check_hostname junk hosts packet p (blen host)) (λ b, b = true ↔
      blen host <= HOST_MAXLEN ∧ ∃ line, line ∈ split_lines f ∧ good_line line ∧
        (host = host_of line ∨ ∃ x, host = x ++ dot :: host_of line))).
Proof.
  intros Hj Hf Hz Hp Hpos Hin Hhost. eapply wp_mono; [by apply load_list_ok|]. intros [ok hosts] [-> Hh].
  assert (Hh' : ∀ h, h ∈ hosts ↔ ∃ line, line ∈ split_lines f ∧ good_line line ∧ h = host_of line).
  { intros h. rewrite Hh. split; [intros [[]%not_elem_of_nil|?]; done|by right]. }
  split.
  - case_bool_decide as Hb; cbn [negb]; split; try done.
    + intros (line & Hi & Hg). subst hosts. assert (Hn : host_of line ∈ []) by (apply Hh'; by exists line). by apply not_elem_of_nil in Hn.
    + intros _. destruct hosts as [|h hosts]; [done|]. destruct (proj1 (Hh' h)) as (line & ? & ? & _); [by left|].
      by exists line.
  - eapply wp_mono; [by apply check_hostname_ok|]. cbv beta. intros b ->. unfold listed.
    split; intros [Hm H]; (split; [done|]).
    + destruct H as [[line (? & ? & ?)]%Hh'|(x & y & -> & [line (? & ? & ->)]%Hh')]; exists line; [tauto|].
      split_and!; [done|done|right]. by exists x.
    + destruct H as (line & Hi & Hg & [->|[x ->]]); [left; apply Hh'; by exists line|].
      right. exists x, (host_of line). split; [done|]. apply Hh'. by exists line.
Qed.

(** A file of three lines, the last without an end, the first longer than the buffer. *)
Definition sample_list : bytes := repeat 97 600 ++ [13; 10] ++ bs "x" ++ [10] ++ bs "c.org".
Lemma sample_list_ok : file_ok sample_list.
Proof.
  split; [|vm_compute; reflexivity]. assert (H : bool_decide (Forall (λ c, 0 <= c < 256) sample_list) = true) by (vm_compute; reflexivity).
  by apply bool_decide_eq_true in H.
Qed.
Lemma all_nonzero l : bool_decide (Forall (λ c, c ≠ 0) l) = true → no_zero l.
Proof. by intros H%bool_decide_eq_true. Qed.
Lemma listed_hosts_found_witness :
  let junk := λ n, repeat 170 (Z.to_nat n) in
  let packet := bs "Host: www.c.org" in
  ∃ hosts, blackwhitelist_load_list junk (Some sample_list) [] = Ok (true, hosts) ∧
    blackwhitelist_check_hostname junk hosts packet 6 9 = Ok true ∧
    ∃ line, line ∈ split_lines sample_list ∧ good_line line ∧ ∃ x, bs "www.c.org" = x ++ dot :: host_of line.
Proof.
  intros junk packet. exists [bs "c.org"].
  assert (Ej : ∀ n, 0 <= n → blen (junk n) = n).
  { intros n Hn. unfold blen, junk. rewrite repeat_length. lia. }
  assert (E1 : blackwhitelist_load_list junk (Some sample_list) [] = Ok (true, [bs "c.org"])) by (vm_compute; reflexivity).
  assert (E2 : blackwhitelist_check_hostname junk [bs "c.org"] packet 6 9 = Ok true) by (vm_compute; reflexivity).
  split; [exact E1|]. split; [exact E2|].
  pose proof (listed_hosts_found junk sample_list packet 6 (bs "www.c.org") Ej) as H. rewrite E1 in H. cbn [wp] in H.
  destruct H as [_ H]; [by apply sample_list_ok|apply all_nonzero; vm_compute; reflexivity|lia|vm_compute; reflexivity
    |vm_compute; discriminate|vm_compute; reflexivity|].
  change (blen (bs "www.c.org")) with 9 in H. rewrite E2 in H. cbn [wp] in H. destruct (proj1 H eq_refl) as [_ (line & Hi & Hg & Hx)].
  exists line. split; [exact Hi|]. split; [exact Hg|]. destruct Hx as [Hx|Hx]; [|exact Hx].
  exfalso. revert Hi. replace (split_lines sample_list) with [repeat 97 600 ++ [13; 10]; bs "x" ++ [10]; bs "c.org"] by (vm_compute; reflexivity).
  rewrite !list.elem_of_cons. intros [->|[->|[->|[]%not_elem_of_nil]]]; vm_compute in Hx; discriminate Hx.
Defined.
