(* ===== verification/UtHash.v ===== *)
(** The hash tables of uthash.h, which GoodbyeDPI's trackers and its list of hosts are kept in:
    buckets of elements that are doubly linked, a second doubly linked list of all elements in the
    order they were added, Jenkins's hash, and buckets that are doubled when one gets too long.

    An element is an index into the array of all there are in memory, and a pointer to one an
    optional index.  [malloc] gives blocks of up to [mem] bytes; a larger one ends the program
    ([uthash_fatal]), which is the result [None]. *)
From Stdlib Require Import ZArith Lia Ascii String.
From stdpp Require Import base numbers list option sorting.
From S2P Require Import Prelude CMem DList.

#[local] Open Scope Z_scope.
#[local] Open Scope list_scope.

(** * The data *)

(** [UT_hash_handle], with the bytes of the key. *)
Record handle := Handle {
  h_prev : option nat; h_next : option nat; hh_prev : option nat; hh_next : option nat;
  h_key : bytes; h_hashv : Z }.
Definition set_h_prev (x : option nat) (h : handle) : handle := Handle x (h_next h) (hh_prev h) (hh_next h) (h_key h) (h_hashv h).
Definition set_h_next (x : option nat) (h : handle) : handle := Handle (h_prev h) x (hh_prev h) (hh_next h) (h_key h) (h_hashv h).
Definition set_hh_prev (x : option nat) (h : handle) : handle := Handle (h_prev h) (h_next h) x (hh_next h) (h_key h) (h_hashv h).
Definition set_hh_next (x : option nat) (h : handle) : handle := Handle (h_prev h) (h_next h) (hh_prev h) x (h_key h) (h_hashv h).
Definition set_h_key (key : bytes) (hashv : Z) (h : handle) : handle := Handle (h_prev h) (h_next h) (hh_prev h) (hh_next h) key hashv.

#[export] Instance app_order : DNode h_prev h_next set_h_prev set_h_next.
Proof. by split. Qed.
#[export] Instance bucket_order : DNode hh_prev hh_next set_hh_prev set_hh_next.
Proof. by split. Qed.

(** [UT_hash_bucket], [UT_hash_table] *)
Record bucket := Bucket { b_head : option nat; b_count : Z; b_expand_mult : Z }.
Record table := Table {
  buckets : list bucket; num_buckets : Z; log2_num_buckets : Z; num_items : Z; tail : nat;
  ideal_chain_maxlen : Z; nonideal_items : Z; ineff_expands : Z; noexpand : Z }.

Definition set_buckets (bs : list bucket) (t : table) : table :=
  Table bs (num_buckets t) (log2_num_buckets t) (num_items t) (tail t) (ideal_chain_maxlen t) (nonideal_items t) (ineff_expands t) (noexpand t).
Definition set_num_items (n : Z) (t : table) : table :=
  Table (buckets t) (num_buckets t) (log2_num_buckets t) n (tail t) (ideal_chain_maxlen t) (nonideal_items t) (ineff_expands t) (noexpand t).
Definition set_tail (p : nat) (t : table) : table :=
  Table (buckets t) (num_buckets t) (log2_num_buckets t) (num_items t) p (ideal_chain_maxlen t) (nonideal_items t) (ineff_expands t) (noexpand t).

(** The elements in memory, the variable that is the table for its user, and the table that the
    elements in it point to. *)
Record hash := Hash { u_items : list handle; u_head : option nat; u_tbl : option table }.

Definition HASH_INITIAL_NUM_BUCKETS : Z := 32.
Definition HASH_INITIAL_NUM_BUCKETS_LOG2 : Z := 5.
Definition HASH_BKT_CAPACITY_THRESH : Z := 10.
(** [sizeof(UT_hash_bucket)] *)
Definition bucket_size : Z := 16.

(** Memory behind a pointer. *)
Definition at_elem (its : list handle) (p : nat) : comp handle :=
  match its !! p with Some h => Ok h | None => Fail OutOfBounds end.
Definition upd (its : list handle) (p : nat) (f : handle → handle) : comp (list handle) :=
  match its !! p with Some _ => Ok (alter f p its) | None => Fail OutOfBounds end.
Definition upd_if (its : list handle) (p : option nat) (f : handle → handle) : comp (list handle) :=
  match p with Some q => upd its q f | None => Ok its end.
Definition the_table (s : hash) : comp table := match u_tbl s with Some t => Ok t | None => Fail OutOfBounds end.

(** * Jenkins's hash *)

Definition HASH_JEN_MIX (x : Z * Z * Z) : Z * Z * Z :=
  let '(a, b, c) := x in
  let a := Z.lxor (u32 (u32 (a - b) - c)) (Z.shiftr c 13) in
  let b := Z.lxor (u32 (u32 (b - c) - a)) (u32 (Z.shiftl a 8)) in
  let c := Z.lxor (u32 (u32 (c - a) - b)) (Z.shiftr b 13) in
  let a := Z.lxor (u32 (u32 (a - b) - c)) (Z.shiftr c 12) in
  let b := Z.lxor (u32 (u32 (b - c) - a)) (u32 (Z.shiftl a 16)) in
  let c := Z.lxor (u32 (u32 (c - a) - b)) (Z.shiftr b 5) in
  let a := Z.lxor (u32 (u32 (a - b) - c)) (Z.shiftr c 3) in
  let b := Z.lxor (u32 (u32 (b - c) - a)) (u32 (Z.shiftl a 10)) in
  let c := Z.lxor (u32 (u32 (c - a) - b)) (Z.shiftr b 15) in
  (a, b, c).

(** Four bytes of the key, the lowest first. *)
Definition jen_word (key : bytes) (p : Z) : comp Z :=
  a ← rd key p; b ← rd key (p + 1); c ← rd key (p + 2); d ← rd key (p + 3);
  Ok (u32 (a + Z.shiftl b 8 + Z.shiftl c 16 + Z.shiftl d 24)).
(** One round: [_hj_i], [_hj_j] and [hashv], where [_hj_key] is, and [_hj_k]. *)
Definition jen_body (key : bytes) (x : Z * Z * Z * Z * Z) : comp (Z * Z * Z * Z * Z + Z * Z * Z * Z * Z) :=
  let '(i, j, hashv, p, k) := x in
  if k <? 12 then Ok (inr x) else
  u ← jen_word key p; v ← jen_word key (p + 4); w ← jen_word key (p + 8);
  let '(i, j, hashv) := HASH_JEN_MIX (u32 (i + u), u32 (j + v), u32 (hashv + w)) in
  Ok (inl (i, j, hashv, p + 12, k - 12)).
(** A case of the switch on [_hj_k], into which the ones above fall: the byte in front of [n]. *)
Definition jen_case (key : bytes) (p k n shift : Z) : comp Z :=
  if n <=? k then v ← rd key (p + (n - 1)); Ok (Z.shiftl v shift) else Ok 0.
Definition HASH_JEN (key : bytes) : comp Z :=
  let keylen := u32 (blen key) in
  '(i, j, hashv, p, k) ← loop (jen_body key) (S (length key)) (2654435769, 2654435769, 4276993775, 0, keylen);
  let hashv := u32 (hashv + keylen) in
  c11 ← jen_case key p k 11 24; c10 ← jen_case key p k 10 16; c9 ← jen_case key p k 9 8;
  c8 ← jen_case key p k 8 24; c7 ← jen_case key p k 7 16; c6 ← jen_case key p k 6 8; c5 ← jen_case key p k 5 0;
  c4 ← jen_case key p k 4 24; c3 ← jen_case key p k 3 16; c2 ← jen_case key p k 2 8; c1 ← jen_case key p k 1 0;
  let hashv := u32 (u32 (u32 (hashv + c11) + c10) + c9) in
  let j := u32 (u32 (u32 (u32 (j + c8) + c7) + c6) + c5) in
  let i := u32 (u32 (u32 (u32 (i + c4) + c3) + c2) + c1) in
  let '(_, _, hashv) := HASH_JEN_MIX (i, j, hashv) in Ok hashv.

Definition HASH_TO_BKT (hashv num_bkts : Z) : Z := Z.land hashv (u32 (num_bkts - 1)).

(** * Buckets *)

(** An element in front of those of a bucket, its links and that of the first. *)
Definition push (its : list handle) (b : bucket) (p : nat) : comp (list handle) :=
  its ← upd its p (λ h, set_hh_next (b_head b) (set_hh_prev None h));
  upd_if its (b_head b) (set_hh_prev (Some p)).

Definition HASH_DEL_IN_BKT (its : list handle) (b : bucket) (delhh : nat) : comp (list handle * bucket) :=
  d ← at_elem its delhh;
  let count := u32 (b_count b - 1) in
  let head := if bool_decide (b_head b = Some delhh) then hh_next d else b_head b in
  its ← upd_if its (hh_prev d) (set_hh_next (hh_next d));
  d ← at_elem its delhh;
  its ← upd_if its (hh_next d) (set_hh_prev (hh_prev d));
  Ok (its, Bucket head count (b_expand_mult b)).

(** One round over the elements of an old bucket; [num_bkts] is the new number. *)
Definition move_body (num_bkts ideal : Z) (x : list handle * list bucket * Z * option nat) :
    comp (list handle * list bucket * Z * option nat + list handle * list bucket * Z) :=
  let '(its, new_buckets, nonideal, thh) := x in
  match thh with
  | None => Ok (inr (its, new_buckets, nonideal))
  | Some p =>
      h ← at_elem its p;
      let hh_nxt := hh_next h in
      let bkt := HASH_TO_BKT (h_hashv h) num_bkts in
      b ← geti new_buckets bkt;
      let count := u32 (b_count b + 1) in
      let '(nonideal, mult) :=
        if ideal <? count then
          (u32 (nonideal + 1), if u32 (b_expand_mult b * ideal) <? count then u32 (b_expand_mult b + 1) else b_expand_mult b)
        else (nonideal, b_expand_mult b) in
      its ← push its b p;
      Ok (inl (its, <[Z.to_nat bkt := Bucket (Some p) count mult]> new_buckets, nonideal, hh_nxt))
  end.
(** One round over the old buckets. *)
Definition expand_body (t : table) (num_bkts ideal : Z) (x : Z * list handle * list bucket * Z) :
    comp (Z * list handle * list bucket * Z + list handle * list bucket * Z) :=
  let '(bkt_i, its, new_buckets, nonideal) := x in
  if num_buckets t <=? bkt_i then Ok (inr (its, new_buckets, nonideal)) else
  b ← geti (buckets t) bkt_i;
  '(its, new_buckets, nonideal) ← loop (move_body num_bkts ideal) (S (length its)) (its, new_buckets, nonideal, b_head b);
  Ok (inl (bkt_i + 1, its, new_buckets, nonideal)).

Definition no_bucket : bucket := Bucket None 0 0.

Section memory.
Context (mem : Z).

(** A shift by 32 or more is not defined. *)
Definition HASH_EXPAND_BUCKETS (its : list handle) (t : table) : comp (option (list handle * table)) :=
  let num_bkts := u32 (num_buckets t * 2) in
  let size := bucket_size * num_buckets t * 2 in
  if mem <? size then Ok None else
  cassert (log2_num_buckets t + 1 <? 32);;
  let ideal := u32 (Z.shiftr (num_items t) (log2_num_buckets t + 1) +
    (if negb (Z.land (num_items t) (u32 (num_bkts - 1)) =? 0) then 1 else 0)) in
  '(its, new_buckets, nonideal) ← loop (expand_body t num_bkts ideal) (S (length (buckets t)))
    (0, its, repeat no_bucket (Z.to_nat (num_buckets t * 2)), 0);
  let ineff := if Z.shiftr (num_items t) 1 <? nonideal then u32 (ineff_expands t + 1) else 0 in
  Ok (Some (its, Table new_buckets num_bkts (log2_num_buckets t + 1) (num_items t) (tail t) ideal nonideal ineff
    (if 1 <? ineff then 1 else noexpand t))).

Definition HASH_ADD_TO_BKT (its : list handle) (t : table) (bkt : Z) (addhh : nat) : comp (option (list handle * table)) :=
  b ← geti (buckets t) bkt;
  let count := u32 (b_count b + 1) in
  its ← push its b addhh;
  let t := set_buckets (<[Z.to_nat bkt := Bucket (Some addhh) count (b_expand_mult b)]> (buckets t)) t in
  if (u32 (u32 (b_expand_mult b + 1) * HASH_BKT_CAPACITY_THRESH) <=? count) && (noexpand t =? 0)
  then HASH_EXPAND_BUCKETS its t else Ok (Some (its, t)).

(** * The operations *)

Definition HASH_MAKE_TABLE (add : nat) : option table :=
  if mem <? HASH_INITIAL_NUM_BUCKETS * bucket_size then None else
  Some (Table (repeat no_bucket (Z.to_nat HASH_INITIAL_NUM_BUCKETS)) HASH_INITIAL_NUM_BUCKETS HASH_INITIAL_NUM_BUCKETS_LOG2
    0 add 0 0 0 0).

(** The elements and the table with [add] at the end of the list. *)
Definition HASH_APPEND_LIST (its : list handle) (t : table) (add : nat) : comp (list handle * table) :=
  its ← upd its add (set_h_next None);
  its ← upd its add (set_h_prev (Some (tail t)));
  its ← upd its (tail t) (set_h_next (Some add));
  Ok (its, set_tail add t).

Definition HASH_ADD_TO_TABLE (its : list handle) (t : table) (hashval : Z) (add : nat) : comp (option (list handle * table)) :=
  let t := set_num_items (u32 (num_items t + 1)) t in
  HASH_ADD_TO_BKT its t (HASH_TO_BKT hashval (num_buckets t)) add.

Definition HASH_ADD_KEYPTR (s : hash) (key : bytes) (add : nat) : comp (option hash) :=
  hashv ← HASH_JEN key;
  its ← upd (u_items s) add (set_h_key key hashv);
  match u_head s with
  | None =>
      its ← upd its add (λ h, set_h_prev None (set_h_next None h));
      match HASH_MAKE_TABLE add with
      | None => Ok None
      | Some t =>
          r ← HASH_ADD_TO_TABLE its t hashv add;
          Ok (match r with Some (its, t) => Some (Hash its (Some add) (Some t)) | None => None end)
      end
  | Some head =>
      t ← the_table s;
      '(its, t) ← HASH_APPEND_LIST its t add;
      r ← HASH_ADD_TO_TABLE its t hashv add;
      Ok (match r with Some (its, t) => Some (Hash its (Some head) (Some t)) | None => None end)
  end.
End memory.

(** One round over the elements of a bucket. *)
Definition find_body (its : list handle) (key : bytes) (hashval : Z) (out : option nat) : comp (option nat + option nat) :=
  match out with
  | None => Ok (inr None)
  | Some p =>
      h ← at_elem its p;
      if (h_hashv h =? hashval) && (blen (h_key h) =? blen key) && bool_decide (h_key h = key) then Ok (inr (Some p))
      else Ok (inl (hh_next h))
  end.
Definition HASH_FIND (s : hash) (key : bytes) : comp (option nat) :=
  match u_head s with
  | None => Ok None
  | Some _ =>
      hashv ← HASH_JEN key;
      t ← the_table s;
      b ← geti (buckets t) (HASH_TO_BKT hashv (num_buckets t));
      loop (find_body (u_items s) key hashv) (S (length (u_items s))) (b_head b)
  end.

(** An element is taken out of the list and of its bucket. *)
Definition unlink (s : hash) (del : nat) (t : table) : comp hash :=
  d ← at_elem (u_items s) del;
  its ← upd_if (u_items s) (h_prev d) (set_h_next (h_next d));
  let head := match h_prev d with Some _ => u_head s | None => h_next d end in
  d ← at_elem its del;
  its ← upd_if its (h_next d) (set_h_prev (h_prev d));
  d ← at_elem its del;
  let bkt := HASH_TO_BKT (h_hashv d) (num_buckets t) in
  b ← geti (buckets t) bkt;
  '(its, b) ← HASH_DEL_IN_BKT its b del;
  Ok (Hash its head (Some (set_num_items (u32 (num_items t - 1)) (set_buckets (<[Z.to_nat bkt := b]> (buckets t)) t)))).
(** The table is freed with its last element. *)
Definition HASH_DELETE (s : hash) (del : nat) : comp hash :=
  d ← at_elem (u_items s) del;
  match h_prev d, h_next d with
  | None, None => Ok (Hash (u_items s) None None)
  | _, _ =>
      t ← the_table s;
      t ← (if bool_decide (tail t = del) then
             match h_prev d with Some q => Ok (set_tail q t) | None => Fail OutOfBounds end
           else Ok t);
      unlink s del t
  end.

(** [HASH_ITER] with a body that changes the table: [el], and [tmp], which is read before it. *)
Definition next_of (s : hash) (p : option nat) : comp (option nat) :=
  match p with Some q => h ← at_elem (u_items s) q; Ok (h_next h) | None => Ok None end.
Definition iter_body (body : nat → hash → comp hash) (x : option nat * option nat * hash) :
    comp (option nat * option nat * hash + hash) :=
  let '(el, tmp, s) := x in
  match el with
  | None => Ok (inr s)
  | Some p => s ← body p s; n ← next_of s tmp; Ok (inl (tmp, n, s))
  end.
Definition HASH_ITER (body : nat → hash → comp hash) (s : hash) : comp hash :=
  tmp ← next_of s (u_head s);
  loop (iter_body body) (S (length (u_items s))) (u_head s, tmp, s).

(** * The hash *)

Definition u32_ok (x : Z) : Prop := 0 <= x < 2 ^ 32.
Lemma lxor_u32 x y : u32_ok x → u32_ok y → u32_ok (Z.lxor x y).
Proof.
  unfold u32_ok. intros [Hx1 Hx2] [Hy1 Hy2]. split; [by apply Z.lxor_nonneg|].
  destruct (Z.eq_dec (Z.lxor x y) 0) as [->|Hne]; [done|]. apply Z.log2_lt_pow2; [pose proof (proj2 (Z.lxor_nonneg x y)); lia|].
  eapply Z.le_lt_trans; [by apply Z.log2_lxor|]. apply Z.max_lub_lt.
  - destruct (Z.eq_dec x 0) as [->|]; [done|]. apply Z.log2_lt_pow2; lia.
  - destruct (Z.eq_dec y 0) as [->|]; [done|]. apply Z.log2_lt_pow2; lia.
Qed.
Lemma shiftr_u32 x n : 0 <= n → u32_ok x → u32_ok (Z.shiftr x n).
Proof.
  unfold u32_ok. intros Hn [H1 H2]. rewrite Z.shiftr_div_pow2 by done. pose proof (Z.pow_pos_nonneg 2 n ltac:(lia) Hn).
  split; [by apply Z.div_pos|]. apply Z.div_lt_upper_bound; nia.
Qed.
Lemma u32_u32_ok x : u32_ok (u32 x).
Proof. apply u32_range. Qed.
Lemma mix_ok a b c : u32_ok c → let '(a', b', c') := HASH_JEN_MIX (a, b, c) in u32_ok c'.
Proof.
  intros Hc. unfold HASH_JEN_MIX. cbv zeta.
  repeat (apply lxor_u32 || apply shiftr_u32 || apply u32_u32_ok || lia).
Qed.

Lemma wp_jen_word key p (P : Z → Prop) : 0 <= p → p + 4 <= blen key → (∀ v, P v) → wp (jen_word key p) P.
Proof. intros Hp Hl HP. unfold jen_word. repeat (apply wp_bind, wp_rd; [lia|]). apply wp_ok, HP. Qed.
Lemma wp_jen_case key p k n shift (P : Z → Prop) : 0 <= p → p + k = blen key → 1 <= n → (∀ v, P v) → wp (jen_case key p k n shift) P.
Proof.
  intros Hp Hk Hn HP. unfold jen_case. destruct (Z.leb_spec n k); [|apply wp_ok, HP]. apply wp_bind, wp_rd; [lia|]. apply wp_ok, HP.
Qed.

(** Every key has a hash of 32 bits, and reading it stays in the key. *)
Lemma HASH_JEN_ok key : blen key < 2 ^ 32 → wp (HASH_JEN key) u32_ok.
Proof.
  intros Hl. pose proof (blen_nonneg key) as Hn. unfold HASH_JEN. cbv zeta. rewrite (u32_small (blen key)) by lia. apply wp_bind.
  apply (wp_loop _ (λ '(i, j, h, p, k), 0 <= p ∧ 0 <= k ∧ p + k = blen key ∧ u32_ok h) (λ '(i, j, h, p, k), Z.to_nat k)).
  - intros [[[[i j] h] p] k] (Hp & Hk & Hpk & Hh). unfold jen_body. destruct (Z.ltb_spec k 12).
    + apply wp_ok. cbv beta iota. do 11 (apply wp_bind, wp_jen_case; [lia..|intros ?]).
      match goal with |- context [HASH_JEN_MIX (?a, ?b, ?c)] => pose proof (mix_ok a b c) as Hm; destruct (HASH_JEN_MIX (a, b, c)) as [[? ?] c'] end.
      apply wp_ok, Hm, u32_u32_ok.
    + do 3 (apply wp_bind, wp_jen_word; [lia..|intros ?]).
      match goal with |- context [HASH_JEN_MIX (?a, ?b, ?c)] => pose proof (mix_ok a b c) as Hm; destruct (HASH_JEN_MIX (a, b, c)) as [[? ?] c'] end.
      apply wp_ok. split; [|lia]. split_and!; [lia|lia|lia|apply Hm, u32_u32_ok].
  - split_and!; [lia|lia|lia|]. unfold u32_ok. lia.
  - unfold blen. lia.
Qed.
Lemma bucket_index hashv k : 0 <= k <= 32 → HASH_TO_BKT hashv (2 ^ k) = hashv mod 2 ^ k.
Proof.
  intros Hk. unfold HASH_TO_BKT. assert (2 ^ k <= 2 ^ 32) by (apply Z.pow_le_mono_r; lia). pose proof (Z.pow_pos_nonneg 2 k ltac:(lia) ltac:(lia)).
  rewrite u32_small by lia. replace (2 ^ k - 1) with (Z.ones k) by (rewrite Z.ones_equiv; lia). apply Z.land_ones. lia.
Qed.

(** * Links *)

(** What an assignment to the links of one order leaves alone. *)
Definition keys_of (h : handle) : bytes * Z := (h_key h, h_hashv h).
Definition app_links (h : handle) : option nat * option nat := (h_prev h, h_next h).
Definition bkt_links (h : handle) : option nat * option nat := (hh_prev h, hh_next h).
Definition same {A} (f : handle → A) (its its' : list handle) : Prop := ∀ v, f <$> its' !! v = f <$> its !! v.

#[export] Instance same_preorder {A} (f : handle → A) : PreOrder (same f).
Proof. split; [by intros its v|]. intros x y z H1 H2 v. by rewrite H2. Qed.
Lemma same_alter {A} (f : handle → A) g p its : (∀ h, f (g h) = f h) → same f its (alter g p its).
Proof.
  intros Hg v. destruct (decide (p = v)) as [->|]; [|by rewrite list_lookup_alter_ne].
  rewrite list_lookup_alter_eq. by destruct (its !! v) as [h|]; cbn; rewrite ?Hg.
Qed.
Lemma same_upd_opt {A} (f : handle → A) g p its : (∀ h, f (g h) = f h) → same f its (upd_opt p g its).
Proof. destruct p; [|done]. apply same_alter. Qed.
Lemma same_some {A} (f : handle → A) its its' v h : same f its its' → its !! v = Some h → ∃ h', its' !! v = Some h' ∧ f h' = f h.
Proof. intros H E. specialize (H v). rewrite E in H. destruct (its' !! v) as [h'|]; [|done]. exists h'. split; [done|]. by injection H. Qed.
Lemma is_some_length (its its' : list handle) : (∀ v, is_Some (its' !! v) ↔ is_Some (its !! v)) → length its' = length its.
Proof.
  intros H. assert (Hl : ∀ n, (n < length its')%nat ↔ (n < length its)%nat) by (intros n; rewrite <- !lookup_lt_is_Some; apply H).
  pose proof (Hl (length its)). pose proof (Hl (length its')). lia.
Qed.
Lemma links_length {A} (f : handle → A) its its' : same f its its' → length its' = length its.
Proof. intros H. apply is_some_length. intros v. rewrite <- (fmap_is_Some f (its' !! v)), H. apply fmap_is_Some. Qed.

(** A segment depends on the links of its elements only. *)
Lemma dseg_app its its' p L n : same app_links its its' → dseg h_prev h_next its p L n → dseg h_prev h_next its' p L n.
Proof.
  intros Hs. revert p. induction L as [|v L IH]; intros p; cbn [dseg]; [done|]. intros [(h & E & H1 & H2) H]. split; [|by apply IH].
  destruct (same_some _ _ _ _ _ Hs E) as (h' & E' & [= F1 F2]). exists h'. split; [done|]. by rewrite F1, F2.
Qed.
Lemma dseg_bkt its its' p L n : (∀ v, v ∈ L → bkt_links <$> its' !! v = bkt_links <$> its !! v) →
  dseg hh_prev hh_next its p L n → dseg hh_prev hh_next its' p L n.
Proof.
  revert p. induction L as [|v L IH]; intros p Hs; cbn [dseg]; [done|]. intros [(h & E & H1 & H2) H]. split.
  - specialize (Hs v ltac:(by left)). rewrite E in Hs. destruct (its' !! v) as [h'|]; [|done]. injection Hs as F1 F2. exists h'. by rewrite F1, F2.
  - apply IH; [|done]. intros w Hw. apply Hs. by right.
Qed.

Lemma wp_upd its p f (P : list handle → Prop) : is_Some (its !! p) → P (alter f p its) → wp (upd its p f) P.
Proof. intros [h E] HP. unfold upd. by rewrite E. Qed.
Lemma wp_upd_if its p f (P : list handle → Prop) : (∀ q, p = Some q → is_Some (its !! q)) → P (upd_opt p f its) → wp (upd_if its p f) P.
Proof. intros Hp HP. destruct p as [q|]; [|done]. apply wp_upd; [by apply Hp|done]. Qed.
Lemma wp_at_elem its p h (P : handle → Prop) : its !! p = Some h → P h → wp (at_elem its p) P.
Proof. intros E HP. unfold at_elem. by rewrite E. Qed.

(** * One bucket *)

Record chain_ok (its : list handle) (b : bucket) (c : list nat) : Prop := {
  co_seg : dseg hh_prev hh_next its None c None;
  co_head : b_head b = hd_or None c;
  co_count : b_count b = Z.of_nat (length c)
}.
Lemma chain_same its its' b c : (∀ v, v ∈ c → bkt_links <$> its' !! v = bkt_links <$> its !! v) → chain_ok its b c → chain_ok its' b c.
Proof. intros Hs []. split; [|done..]. by eapply dseg_bkt. Qed.

(** The links of one bucket were changed. *)
Record relinked (its its' : list handle) (c : list nat) : Prop := {
  rl_keys : same keys_of its its';
  rl_app : same app_links its its';
  rl_rest v : v ∉ c → its' !! v = its !! v
}.
Lemma chain_relinked its its' b c c' : relinked its its' c' → (∀ v, v ∈ c → v ∉ c') → chain_ok its b c → chain_ok its' b c.
Proof. intros [_ _ Hr] Hd. apply chain_same. intros v Hv. by rewrite Hr by (by apply Hd). Qed.

Lemma push_ok its b c p : dseg hh_prev hh_next its None c None → b_head b = hd_or None c → NoDup (p :: c) → is_Some (its !! p) →
  wp (push its b p) (λ its', dseg hh_prev hh_next its' None (p :: c) None ∧ relinked its its' (p :: c)).
Proof.
  intros Hs Hh Hnd Hp. apply NoDup_cons in Hnd as [Hn Hnd]. unfold push. set (f := λ h, set_hh_next (b_head b) (set_hh_prev None h)).
  apply wp_bind, wp_upd; [done|]. pose proof (seg_alter_notin (prev := hh_prev) (next := hh_next) its None c None f p Hn Hs) as Hs1.
  assert (Hsk : same keys_of its (alter f p its)) by (by apply same_alter). assert (Hsa : same app_links its (alter f p its)) by (by apply same_alter).
  destruct Hp as [h Ep]. assert (Ep1 : alter f p its !! p = Some (f h)) by (by rewrite list_lookup_alter_eq, Ep).
  apply wp_upd_if.
  { intros q Hq. rewrite Hh in Hq. apply hd_or_elem in Hq. by apply (seg_lookup _ _ _ _ _ Hs1). }
  rewrite Hh. split.
  - cbn [dseg]. split.
    + exists (f h). rewrite upd_opt_ne; [split; [done|by rewrite <- Hh]|]. intros E. by apply hd_or_elem in E.
    + pose proof (seg_start (alter f p its) None c None (Some p) Hnd Hs1) as H. by apply H.
  - split; [etrans; [done|by apply same_upd_opt]|etrans; [done|by apply same_upd_opt]|].
    intros v Hv. rewrite upd_opt_ne; [apply list_lookup_alter_ne; intros ->; apply Hv; by left|].
    intros E. apply Hv. right. by apply hd_or_elem.
Qed.

Lemma del_ok its b c1 p c2 : chain_ok its b (c1 ++ p :: c2) → NoDup (c1 ++ p :: c2) → Z.of_nat (length (c1 ++ p :: c2)) < 2 ^ 32 →
  wp (HASH_DEL_IN_BKT its b p) (λ '(its', b'), chain_ok its' b' (c1 ++ c2) ∧ relinked its its' (c1 ++ c2)).
Proof.
  intros [Hs Hh Hc] Hnd Hl. apply seg_app in Hs as [Hs1 Hs2]. cbn [hd_or] in Hs1. destruct Hs2 as [(d & Ed & Dp & Dn) Hs2].
  apply NoDup_app in Hnd as (Hnd1 & Hd & Hnd2). apply NoDup_cons in Hnd2 as [Hp2 Hnd2].
  assert (Hp1 : p ∉ c1) by (intros Hx; apply (Hd p Hx); by left). assert (Hdis : ∀ v, v ∈ c1 → v ∉ c2) by (intros v Hv Hx; apply (Hd v Hv); by right).
  unfold HASH_DEL_IN_BKT. apply wp_bind. apply (wp_at_elem _ _ d); [done|]. rewrite Dp, Dn. apply wp_bind, wp_upd_if.
  { intros q Hq. apply last_or_elem in Hq. by apply (seg_lookup _ _ _ _ _ Hs1). }
  set (its1 := upd_opt _ _ its).
  assert (Hs1' : dseg hh_prev hh_next its1 None c1 (hd_or None c2)) by (by apply (seg_end its None c1 (Some p))).
  assert (Hs2' : dseg hh_prev hh_next its1 (Some p) c2 None).
  { apply seg_upd_notin; [|done]. intros q Hq. apply Hdis. by apply last_or_elem. }
  assert (Ed1 : its1 !! p = Some d) by (unfold its1; rewrite upd_opt_ne; [done|intros E; by apply last_or_elem in E]).
  apply wp_bind. apply (wp_at_elem _ _ d); [done|]. rewrite Dp, Dn. apply wp_bind, wp_upd_if.
  { intros q Hq. apply hd_or_elem in Hq. by apply (seg_lookup _ _ _ _ _ Hs2'). }
  apply wp_ok. split; [split|split].
  - apply seg_app. split.
    + apply seg_upd_notin; [|done]. intros q Hq Hx. apply hd_or_elem in Hq. by apply (Hdis q).
    + by apply (seg_start its1 (Some p) c2 None (last_or None c1)).
  - rewrite Hh. destruct c1 as [|v c1]; cbn [app hd_or b_head]; [by rewrite bool_decide_eq_true_2|].
    rewrite bool_decide_eq_false_2; [done|]. intros [= ->]. apply Hp1. by left.
  - cbn [b_count]. rewrite Hc. rewrite !length_app in *. cbn [length] in *. rewrite u32_small; lia.
  - etrans; by apply same_upd_opt.
  - etrans; by apply same_upd_opt.
  - intros v Hv. rewrite elem_of_app in Hv. unfold its1. rewrite !upd_opt_ne; [done|..]; intros E; [apply last_or_elem in E|apply hd_or_elem in E]; tauto.
Qed.

(** * The buckets of a table *)

(** Elements, each with [i] as the index of its bucket among [2 ^ k]. *)
Definition indexed (its : list handle) (k : Z) (i : nat) (c : list nat) : Prop :=
  ∀ v, v ∈ c → ∃ h, its !! v = Some h ∧ h_hashv h mod 2 ^ k = Z.of_nat i.
(** The chain of each bucket. *)
Record chains_ok (its : list handle) (k : Z) (bs : list bucket) (cs : nat → list nat) : Prop := {
  ch_len : Z.of_nat (length bs) = 2 ^ k;
  ch_chain i b : bs !! i = Some b → chain_ok its b (cs i);
  ch_nodup i : NoDup (cs i);
  ch_index i : indexed its k i (cs i);
  ch_few : Z.of_nat (length its) < 2 ^ 32
}.

Lemma indexed_same its its' k i c : same keys_of its its' → indexed its k i c → indexed its' k i c.
Proof.
  intros Hs H v Hv. destruct (H v Hv) as (h & E & Hi). destruct (same_some _ _ _ _ _ Hs E) as (h' & E' & [= _ Eh]). exists h'. by rewrite Eh.
Qed.
Lemma nodup_bound (c : list nat) n : NoDup c → (∀ v, v ∈ c → (v < n)%nat) → (length c <= n)%nat.
Proof.
  intros Hnd Hlt. replace n with (length (seq 0 n)) by apply length_seq. apply submseteq_length, NoDup_submseteq; [done|].
  intros v Hv. apply elem_of_seq. specialize (Hlt v Hv). lia.
Qed.
Lemma chain_few its k bs cs i : chains_ok its k bs cs → Z.of_nat (length (cs i)) < 2 ^ 32.
Proof.
  intros []. assert (length (cs i) <= length its)%nat; [|lia]. apply nodup_bound; [done|]. intros v Hv.
  destruct (ch_index0 i v Hv) as (h & E & _). by apply lookup_lt_Some in E.
Qed.
Lemma other_chain its k bs cs i j v : chains_ok its k bs cs → v ∈ cs i → i ≠ j → v ∉ cs j.
Proof.
  intros [] Hi Hne Hj. destruct (ch_index0 i v Hi) as (h & E & Ei). destruct (ch_index0 j v Hj) as (h' & E' & Ej). rewrite E in E'.
  injection E' as <-. lia.
Qed.

Definition set_chain (i : nat) (c : list nat) (cs : nat → list nat) (j : nat) : list nat := if decide (i = j) then c else cs j.
Lemma set_chain_eq i c cs : set_chain i c cs i = c.
Proof. unfold set_chain. by destruct (decide (i = i)). Qed.
Lemma set_chain_ne i c cs j : i ≠ j → set_chain i c cs j = cs j.
Proof. unfold set_chain. by destruct (decide (i = j)). Qed.

(** One chain is relinked, with elements of its own index. *)
Lemma chains_relinked its its' k bs cs i b c c' : chains_ok its k bs cs → (i < length bs)%nat → relinked its its' c' →
  (∀ j v, i ≠ j → v ∈ cs j → v ∉ c') → chain_ok its' b c → NoDup c → indexed its k i c →
  chains_ok its' k (<[i := b]> bs) (set_chain i c cs).
Proof.
  intros [] Hi Hr Hd Hc Hnd Hx. split.
  - by rewrite length_insert.
  - intros j bj. destruct (decide (i = j)) as [->|Hne].
    + rewrite list_lookup_insert_eq, set_chain_eq by done. by intros [= <-].
    + rewrite list_lookup_insert_ne, set_chain_ne by done. intros E. eapply chain_relinked; [done| |by apply ch_chain0]. intros v. by apply Hd.
  - intros j. destruct (decide (i = j)) as [->|Hne]; [by rewrite set_chain_eq|by rewrite set_chain_ne].
  - intros j. destruct Hr as [Hk _ _]. destruct (decide (i = j)) as [->|Hne]; [rewrite set_chain_eq|rewrite set_chain_ne by done]; by eapply indexed_same.
  - destruct Hr as [Hk _ _]. by rewrite (links_length _ _ _ Hk).
Qed.

(** An element that is in no chain goes in front of its chain. *)
Lemma chains_push its k bs cs p h b mult : chains_ok its k bs cs → its !! p = Some h → (∀ j, p ∉ cs j) →
  let i := Z.to_nat (h_hashv h mod 2 ^ k) in bs !! i = Some b → 0 <= k →
  wp (push its b p) (λ its', chains_ok its' k (<[i := Bucket (Some p) (u32 (b_count b + 1)) mult]> bs) (set_chain i (p :: cs i) cs) ∧ relinked its its' (p :: cs i)).
Proof.
  intros Hch Ep Hp i Hb Hk. pose proof Hch as []. destruct (ch_chain0 i b Hb) as [Hs Hh Hc].
  assert (Hnd : NoDup (p :: cs i)) by (apply NoDup_cons; split; [apply Hp|done]).
  assert (Hx : indexed its k i (p :: cs i)).
  { intros v [->|Hv]%elem_of_cons; [|by apply ch_index0]. exists h. split; [done|]. unfold i. rewrite Z2Nat.id; [done|]. apply Z.mod_pos_bound. lia. }
  eapply wp_mono; [apply (push_ok its b (cs i) p Hs Hh Hnd); by exists h|]. intros its' [Hs' Hr]. split; [|done].
  apply (chains_relinked _ _ _ _ _ i _ _ (p :: cs i) Hch); try done.
  - by apply lookup_lt_Some in Hb.
  - intros j v Hne Hv [->|Hv']%elem_of_cons; [by apply (Hp j)|]. by apply (other_chain _ _ _ _ j i v Hch).
  - split; [done..|]. cbn [b_count length]. rewrite Hc. rewrite u32_small; [lia|]. split; [lia|].
    assert (length (p :: cs i) <= length its)%nat; [|cbn [length] in *; lia]. apply nodup_bound; [done|]. intros v Hv.
    destruct (Hx v Hv) as (h' & E & _). by apply lookup_lt_Some in E.
Qed.

(** * Doubling the buckets *)

Lemma bucket_at its k bs cs h : chains_ok its k bs cs → 0 <= k <= 32 →
  ∃ b, HASH_TO_BKT (h_hashv h) (2 ^ k) = h_hashv h mod 2 ^ k ∧ 0 <= h_hashv h mod 2 ^ k ∧ bs !! Z.to_nat (h_hashv h mod 2 ^ k) = Some b.
Proof.
  intros [] Hk. pose proof (Z.mod_pos_bound (h_hashv h) (2 ^ k) ltac:(lia)) as Hm. rewrite bucket_index by done.
  destruct (lookup_lt_is_Some_2 bs (Z.to_nat (h_hashv h mod 2 ^ k))) as [b E]; [lia|]. exists b. split_and!; [done|lia|done].
Qed.

(** What has moved: the elements of [rest] to the new chains. *)
Record moved (its its' : list handle) (rest : list nat) (ncs ncs' : nat → list nat) : Prop := {
  mv_keys : same keys_of its its';
  mv_app : same app_links its its';
  mv_elem v : (∃ j, v ∈ ncs' j) ↔ v ∈ rest ∨ ∃ j, v ∈ ncs j;
  mv_rest v : v ∉ rest → (∀ j, v ∉ ncs j) → its' !! v = its !! v
}.
Lemma moved_push its its1 its' p rest i ncs ncs' : relinked its its1 (p :: ncs i) → p ∉ rest →
  moved its1 its' rest (set_chain i (p :: ncs i) ncs) ncs' → moved its its' (p :: rest) ncs ncs'.
Proof.
  intros [Hk Ha Hr] Hp [Mk Ma Me Mr]. split; [by etrans|by etrans| |].
  - intros v. rewrite Me, elem_of_cons. split.
    + intros [?|[j Hj]]; [by left; right|]. destruct (decide (i = j)) as [->|Hne].
      * rewrite set_chain_eq in Hj. apply elem_of_cons in Hj as [->|Hj]; [by left; left|right; by exists j].
      * rewrite set_chain_ne in Hj by done. right. by exists j.
    + intros [[->|?]|[j Hj]]; [right; exists i; rewrite set_chain_eq; by left|by left|right; exists j].
      destruct (decide (i = j)) as [->|Hne]; [rewrite set_chain_eq; by right|by rewrite set_chain_ne].
  - intros v Hv Hn. rewrite elem_of_cons in Hv. rewrite Mr; [|tauto|].
    + apply Hr. rewrite elem_of_cons. intros [->|Hx]; [tauto|by apply (Hn i)].
    + intros j. destruct (decide (i = j)) as [->|Hne]; [rewrite set_chain_eq, elem_of_cons|by rewrite set_chain_ne].
      intros [->|Hx]; [tauto|by apply (Hn j)].
Qed.

Lemma move_ok k ideal rest its nb ncs nonideal prev fuel : 0 <= k <= 32 → chains_ok its k nb ncs → dseg hh_prev hh_next its prev rest None →
  NoDup rest → (∀ v j, v ∈ rest → v ∉ ncs j) → (length rest < fuel)%nat →
  wp (loop (move_body (2 ^ k) ideal) fuel (its, nb, nonideal, hd_or None rest)) (λ '(its', nb', _), ∃ ncs',
    chains_ok its' k nb' ncs' ∧ moved its its' rest ncs ncs').
Proof.
  intros Hk. revert its nb ncs nonideal prev fuel. induction rest as [|p rest IH]; intros its nb ncs nonideal prev fuel Hch Hs Hnd Hd Hf.
  { destruct fuel as [|fuel]; [cbn in Hf; lia|]. cbn. exists ncs. split; [done|]. split; try done. intros v. split; [by right|]. by intros [?%elem_of_nil|]. }
  destruct fuel as [|fuel]; [cbn in Hf; lia|]. cbn [length] in Hf. apply NoDup_cons in Hnd as [Hp Hnd]. destruct Hs as [(h & Ep & _ & Hn) Hs].
  cbn [loop move_body hd_or]. apply wp_bind, wp_bind, (wp_at_elem _ _ h); [done|]. rewrite Hn.
  destruct (bucket_at its k nb ncs h Hch Hk) as (b & -> & Hi & Eb). apply wp_bind, (wp_geti _ _ b); [done|done|].
  match goal with |- context [let '(x, y) := ?c in _] => destruct c as [nonideal' mult] end. apply wp_bind.
  eapply wp_mono; [apply (chains_push its k nb ncs p h b mult Hch Ep); [intros j; apply Hd; by left|done|lia]|].
  intros its1 [Hch1 Hr]. apply wp_ok. assert (Hs1 : dseg hh_prev hh_next its1 (Some p) rest None).
  { eapply dseg_bkt; [|exact Hs]. intros v Hv. rewrite (rl_rest _ _ _ Hr); [done|]. intros [->|Hx]%elem_of_cons; [done|]. apply (Hd v (Z.to_nat (h_hashv h mod 2 ^ k))); [by right|done]. }
  eapply wp_mono; [eapply (IH its1 _ _ nonideal' (Some p) fuel Hch1 Hs1 Hnd); [|lia]|].
  - intros v j Hv. unfold set_chain. destruct (decide _) as [<-|]; [|apply Hd; by right]. intros [->|Hx]%elem_of_cons; [done|]. by apply (Hd v (Z.to_nat (h_hashv h mod 2 ^ k))); [right|].
  - intros [[its' nb'] n'] (ncs' & Hch' & Hm). exists ncs'. split; [done|]. by eapply moved_push.
Qed.

Lemma chains_empty its k : 0 <= k → Z.of_nat (length its) < 2 ^ 32 → chains_ok its k (repeat no_bucket (Z.to_nat (2 ^ k))) (λ _, []).
Proof.
  intros Hk Hl. split; [|intros i b E|intros _; constructor|by intros i v ?%elem_of_nil|done].
  - rewrite repeat_length, Z2Nat.id; [done|]. by apply Z.pow_nonneg.
  - apply list_elem_of_lookup_2, list_elem_of_In, repeat_spec in E. by subst b.
Qed.

Lemma expand_loop its t k cs ideal : 0 <= k <= 31 → num_buckets t = 2 ^ k → chains_ok its k (buckets t) cs →
  wp (loop (expand_body t (2 ^ (k + 1)) ideal) (S (length (buckets t))) (0, its, repeat no_bucket (Z.to_nat (2 ^ (k + 1))), 0))
    (λ '(its', nb, _), ∃ ncs, chains_ok its' (k + 1) nb ncs ∧ same keys_of its its' ∧ same app_links its its' ∧
      ∀ v, (∃ j, v ∈ ncs j) ↔ ∃ j, Z.of_nat j < 2 ^ k ∧ v ∈ cs j).
Proof.
  intros Hk Hn Hch. pose proof Hch as [].
  apply (wp_loop _ (λ '(i, its', nb, _), 0 <= i <= 2 ^ k ∧ ∃ ncs, chains_ok its' (k + 1) nb ncs ∧ same keys_of its its' ∧ same app_links its its' ∧
      (∀ v, (∃ j, v ∈ ncs j) ↔ ∃ j, Z.of_nat j < i ∧ v ∈ cs j) ∧ ∀ j b, i <= Z.of_nat j → buckets t !! j = Some b → chain_ok its' b (cs j))
    (λ '(i, _, _, _), Z.to_nat (2 ^ k - i))).
  - intros [[[i its'] nb] nonideal] (Hi & ncs & Hnch & Hsk & Hsa & Hm & Hold). unfold expand_body. rewrite Hn.
    destruct (Z.leb_spec (2 ^ k) i) as [|Hlt].
    { apply wp_ok. exists ncs. split_and!; [done..|]. by replace i with (2 ^ k) in Hm by lia. }
    destruct (lookup_lt_is_Some_2 (buckets t) (Z.to_nat i)) as [b Eb]; [lia|]. apply wp_bind, (wp_geti _ _ b); [lia|done|].
    destruct (Hold (Z.to_nat i) b ltac:(lia) Eb) as [Hs Hh _]. rewrite Hh. apply wp_bind.
    assert (Hnew : ∀ v j, v ∈ cs (Z.to_nat i) → v ∉ ncs j).
    { intros v j Hv Hx. destruct (proj1 (Hm v)) as (j' & Hj' & Hv'); [by exists j|]. apply (other_chain _ _ _ _ (Z.to_nat i) j' v Hch Hv); [lia|done]. }
    eapply wp_mono; [apply (move_ok (k + 1) ideal (cs (Z.to_nat i)) its' nb ncs nonideal None); [lia|done|done|done|done|]|].
    + assert (length (cs (Z.to_nat i)) <= length its')%nat; [|lia]. apply nodup_bound; [done|]. intros v Hv.
      destruct (ch_index0 _ v Hv) as (h & E & _). rewrite (links_length _ _ _ Hsk). by apply lookup_lt_Some in E.
    + intros [[its2 nb2] n2] (ncs2 & Hch2 & [Mk Ma Me Mr]). apply wp_ok. split; [|lia]. split; [lia|]. exists ncs2.
      split_and!; [done|by etrans|by etrans| |].
      * intros v. rewrite Me, Hm. split.
        -- intros [Hv|(j & Hj & Hv)]; [exists (Z.to_nat i)|exists j]; (split; [lia|done]).
        -- intros (j & Hj & Hv). destruct (decide (j = Z.to_nat i)) as [->|]; [by left|right]. exists j. split; [lia|done].
      * intros j bj Hj Ej. eapply chain_same; [|apply (Hold j bj); [lia|done]]. intros v Hv. rewrite Mr; [done| |].
        -- apply (other_chain _ _ _ _ j _ v Hch Hv). lia.
        -- intros j' Hx. destruct (proj1 (Hm v)) as (j2 & Hj2 & Hv2); [by exists j'|]. apply (other_chain _ _ _ _ j j2 v Hch Hv); [lia|done].
  - split; [lia|]. exists (λ _, []). split_and!; [apply chains_empty; [lia|done]|done|done| |].
    + intros v. split; [by intros [j ?%elem_of_nil]|intros (j & Hj & _); lia].
    + intros j b _. apply ch_chain0.
  - lia.
Qed.

(** * The table *)

(** The elements of a table, in its buckets. *)
Definition table_ok (its : list handle) (t : table) (l : list nat) : Prop := ∃ k cs,
  5 <= k <= 31 ∧ num_buckets t = 2 ^ k ∧ log2_num_buckets t = k ∧ num_items t = Z.of_nat (length l) ∧
  chains_ok its k (buckets t) cs ∧ ∀ v, v ∈ l ↔ ∃ j, v ∈ cs j.

Lemma chains_frame its its' k bs cs : (∀ v j, v ∈ cs j → keys_of <$> its' !! v = keys_of <$> its !! v ∧ bkt_links <$> its' !! v = bkt_links <$> its !! v) →
  length its' = length its → chains_ok its k bs cs → chains_ok its' k bs cs.
Proof.
  intros Hs Hl []. split; [done|intros i b E|done|intros i v Hv|by rewrite Hl].
  - eapply chain_same; [|by apply ch_chain0]. intros v Hv. by apply (Hs v i).
  - destruct (ch_index0 i v Hv) as (h & E & Hi). destruct (Hs v i Hv) as [Hk _]. rewrite E in Hk. destruct (its' !! v) as [h'|]; [|done].
    injection Hk as _ Hk. exists h'. by rewrite Hk.
Qed.
Lemma table_frame its its' t l : (∀ v, v ∈ l → keys_of <$> its' !! v = keys_of <$> its !! v ∧ bkt_links <$> its' !! v = bkt_links <$> its !! v) →
  length its' = length its → table_ok its t l → table_ok its' t l.
Proof.
  intros Hs Hl (k & cs & ? & ? & ? & ? & Hch & Hm). exists k, cs. split_and!; [lia..|done|done|done| |done].
  eapply chains_frame; [|done|exact Hch]. intros v j Hv. apply Hs, Hm. by exists j.
Qed.
Lemma table_same its its' t l : same keys_of its its' → same bkt_links its its' → table_ok its t l → table_ok its' t l.
Proof. intros Hk Hb. apply table_frame; [by intros v _; split|by eapply links_length]. Qed.

Lemma chain_range its k bs cs j v : 0 <= k → chains_ok its k bs cs → v ∈ cs j → Z.of_nat j < 2 ^ k.
Proof. intros Hk [] Hv. destruct (ch_index0 j v Hv) as (h & _ & <-). apply Z.mod_pos_bound. by apply Z.pow_pos_nonneg. Qed.

Section memory_ok.
Context (mem : Z) (Hmem : mem < bucket_size * 2 ^ 32).

Lemma expand_ok its t l : table_ok its t l → wp (HASH_EXPAND_BUCKETS mem its t) (λ r, match r with
  | Some (its', t') => table_ok its' t' l ∧ tail t' = tail t ∧ same keys_of its its' ∧ same app_links its its' ∧ num_buckets t' = 2 * num_buckets t
  | None => mem < 2 * bucket_size * num_buckets t end).
Proof.
  intros (k & cs & Hk & Hn & Hl & Hi & Hch & Hm). unfold HASH_EXPAND_BUCKETS. rewrite Hn, Hl, Hi. unfold bucket_size in *.
  destruct (Z.ltb_spec mem (16 * 2 ^ k * 2)) as [|Hroom]; [apply wp_ok; lia|].
  assert (Hp : 2 ^ k * 2 = 2 ^ (k + 1)) by (rewrite Z.pow_add_r by lia; lia). rewrite Hp.
  assert (Hlt : k + 1 < 32) by (apply (Z.pow_lt_mono_r_iff 2); lia). apply wp_bind, wp_assert; [by apply Z.ltb_lt|].
  pose proof (Z.pow_pos_nonneg 2 (k + 1) ltac:(lia) ltac:(lia)). rewrite (u32_small (2 ^ (k + 1))) by lia. apply wp_bind.
  eapply wp_mono; [apply (expand_loop its t k cs _ ltac:(lia) Hn Hch)|]. intros [[its' nb] nonideal] (ncs & Hch' & Hsk & Hsa & Hm').
  apply wp_ok. split_and!; [|done|done|done|cbn; lia]. exists (k + 1), ncs. split_and!; [lia|lia|done|done|done|done|].
  intros v. rewrite Hm, Hm'. split; [|intros (j & _ & Hv); by exists j]. intros [j Hv]. exists j. split; [|done]. eapply chain_range; [|done..]. lia.
Qed.

Lemma add_to_table_ok its t l p h : table_ok its t l → p ∉ l → its !! p = Some h → Z.of_nat (length l) + 1 < 2 ^ 32 →
  wp (HASH_ADD_TO_TABLE mem its t (h_hashv h) p) (λ r, match r with
  | Some (its', t') => table_ok its' t' (l ++ [p]) ∧ tail t' = tail t ∧ same keys_of its its' ∧ same app_links its its' ∧ num_buckets t' <= 2 * num_buckets t
  | None => mem < 2 * bucket_size * num_buckets t end).
Proof.
  intros (k & cs & Hk & Hn & Hl & Hi & Hch & Hm) Hp Ep Hfew. unfold HASH_ADD_TO_TABLE, HASH_ADD_TO_BKT. cbn [set_num_items buckets num_buckets].
  rewrite Hn. destruct (bucket_at its k (buckets t) cs h Hch ltac:(lia)) as (b & -> & Hix & Eb). apply wp_bind, (wp_geti _ _ b); [done|done|].
  assert (Hout : ∀ j, p ∉ cs j) by (intros j Hx; apply Hp, Hm; by exists j). apply wp_bind.
  eapply wp_mono; [apply (chains_push its k (buckets t) cs p h b (b_expand_mult b) Hch Ep Hout); [done|lia]|].
  intros its' [Hch' [Hsk Hsa _]]. set (i := Z.to_nat (h_hashv h mod 2 ^ k)) in *.
  match goal with |- context [set_buckets ?x ?y] => set (t' := set_buckets x y) end.
  assert (Ht : table_ok its' t' (l ++ [p])).
  { exists k, (set_chain i (p :: cs i) cs). split_and!; [lia|lia|done|done| |done|].
    - cbn. rewrite Hi, u32_small by lia. rewrite length_app. cbn [length]. lia.
    - intros v. rewrite elem_of_app, list_elem_of_singleton, Hm. split.
      + intros [[j Hv]| ->]; [exists j|exists i; rewrite set_chain_eq; by left].
        destruct (decide (i = j)) as [->|]; [rewrite set_chain_eq; by right|by rewrite set_chain_ne].
      + intros [j Hv]. destruct (decide (i = j)) as [->|]; [|rewrite set_chain_ne in Hv by done; left; by exists j].
        rewrite set_chain_eq in Hv. apply elem_of_cons in Hv as [->|Hv]; [by right|left; by exists j]. }
  pose proof (Z.pow_pos_nonneg 2 k ltac:(lia) ltac:(lia)).
  destruct (_ && _); [|apply wp_ok; split_and!; [done..|cbn; lia]]. eapply wp_mono; [by apply expand_ok|]. intros [[its2 t2]|]; [|cbn; lia].
  intros (Ht2 & Htl & Hk2 & Ha2 & Hb2). split_and!; [done|done|by etrans|by etrans|cbn in Hb2; lia].
Qed.
End memory_ok.

(** * The list *)

Lemma append_ok its t l p : dseg h_prev h_next its None l None → NoDup l → last_or None l = Some (tail t) → p ∉ l → is_Some (its !! p) →
  wp (HASH_APPEND_LIST its t p) (λ '(its', t'), dseg h_prev h_next its' None (l ++ [p]) None ∧ t' = set_tail p t ∧
    same keys_of its its' ∧ same bkt_links its its').
Proof.
  intros Hs Hnd Hl Hp [h Ep]. unfold HASH_APPEND_LIST. apply wp_bind, wp_upd; [by exists h|].
  assert (E1 : alter (set_h_next None) p its !! p = Some (set_h_next None h)) by (by rewrite list_lookup_alter_eq, Ep).
  apply wp_bind, wp_upd; [by exists (set_h_next None h)|]. set (its2 := alter (set_h_prev _) p _).
  assert (E2 : its2 !! p = Some (set_h_prev (Some (tail t)) (set_h_next None h))) by (unfold its2; by rewrite list_lookup_alter_eq, E1).
  assert (Hs2 : dseg h_prev h_next its2 None l None) by (apply seg_alter_notin; [done|]; by apply seg_alter_notin).
  assert (Ht : tail t ∈ l) by (by apply last_or_elem). apply wp_bind, wp_upd; [by apply (seg_lookup _ _ _ _ _ Hs2)|].
  apply wp_ok. split_and!; [|done|..].
  - apply seg_app. cbn [hd_or]. pose proof (seg_end its2 None l None (Some p) Hnd (λ _, eq_refl) Hs2) as H. rewrite Hl in H. split; [exact H|].
    cbn [dseg hd_or]. split; [|done]. eexists. rewrite list_lookup_alter_ne by (intros E; by rewrite E in Ht). rewrite E2. by rewrite Hl.
  - etrans; [by apply (same_alter _ (set_h_next None) p)|]. etrans; [by apply (same_alter _ (set_h_prev (Some (tail t))) p)|]. by apply same_alter.
  - etrans; [by apply (same_alter _ (set_h_next None) p)|]. etrans; [by apply (same_alter _ (set_h_prev (Some (tail t))) p)|]. by apply same_alter.
Qed.

Lemma list_unlink_ok its l1 p l2 d : dseg h_prev h_next its None (l1 ++ p :: l2) None → NoDup (l1 ++ p :: l2) → its !! p = Some d →
  h_prev d = last_or None l1 ∧ h_next d = hd_or None l2 ∧
  let its1 := upd_opt (h_prev d) (set_h_next (h_next d)) its in
  let its2 := upd_opt (h_next d) (set_h_prev (h_prev d)) its1 in
  (∀ q, h_prev d = Some q → is_Some (its !! q)) ∧ (∀ q, h_next d = Some q → is_Some (its1 !! q)) ∧ its1 !! p = Some d ∧ its2 !! p = Some d ∧
  dseg h_prev h_next its2 None (l1 ++ l2) None ∧ same keys_of its its2 ∧ same bkt_links its its2.
Proof.
  intros Hs Hnd Ed. apply seg_app in Hs as [Hs1 [(d' & Ed' & Dp & Dn) Hs2]]. cbn [hd_or] in Hs1. rewrite Ed in Ed'. injection Ed' as <-.
  apply NoDup_app in Hnd as (Hnd1 & Hd & Hnd2). apply NoDup_cons in Hnd2 as [Hp2 Hnd2].
  assert (Hp1 : p ∉ l1) by (intros Hx; apply (Hd p Hx); by left). assert (Hdis : ∀ v, v ∈ l1 → v ∉ l2) by (intros v Hv Hx; apply (Hd v Hv); by right).
  split; [done|]. split; [done|]. rewrite Dp, Dn. cbv zeta. set (its1 := upd_opt (last_or None l1) _ its).
  assert (Hs1' : dseg h_prev h_next its1 None l1 (hd_or None l2)) by (by apply (seg_end its None l1 (Some p))).
  assert (Hs2' : dseg h_prev h_next its1 (Some p) l2 None).
  { apply seg_upd_notin; [|done]. intros q Hq. apply Hdis. by apply last_or_elem. }
  assert (Ed1 : its1 !! p = Some d) by (unfold its1; rewrite upd_opt_ne; [done|intros E; by apply last_or_elem in E]).
  split_and!; [| |done|rewrite upd_opt_ne; [done|intros E; by apply hd_or_elem in E]| |etrans; by apply same_upd_opt|etrans; by apply same_upd_opt].
  - intros q Hq. apply last_or_elem in Hq. by apply (seg_lookup _ _ _ _ _ Hs1).
  - intros q Hq. apply hd_or_elem in Hq. by apply (seg_lookup _ _ _ _ _ Hs2').
  - apply seg_app. split; [|by apply (seg_start its1 (Some p) l2 None (last_or None l1))].
    apply seg_upd_notin; [|done]. intros q Hq Hx. apply hd_or_elem in Hq. by apply (Hdis q).
Qed.

(** * The operations on a table *)

(** A table with the elements [l], in the order they were added; no two have the same key. *)
Record rep (s : hash) (l : list nat) : Prop := {
  rp_nodup : NoDup l;
  rp_head : u_head s = hd_or None l;
  rp_seg : dseg h_prev h_next (u_items s) None l None;
  rp_key v : v ∈ l → ∃ h, u_items s !! v = Some h ∧ HASH_JEN (h_key h) = Ok (h_hashv h);
  rp_table : l ≠ [] → ∃ t, u_tbl s = Some t ∧ last_or None l = Some (tail t) ∧ table_ok (u_items s) t l;
  rp_free : l = [] → u_tbl s = None;
  rp_few : Z.of_nat (length (u_items s)) < 2 ^ 32
}.

Lemma rep_length s l : rep s l → (length l <= length (u_items s))%nat.
Proof. intros []. apply nodup_bound; [done|]. intros v Hv. destruct (rp_key0 v Hv) as (h & E & _). by apply lookup_lt_Some in E. Qed.
(** The buckets there are, or will be. *)
Definition capacity (s : hash) : Z := match u_tbl s with Some t => num_buckets t | None => HASH_INITIAL_NUM_BUCKETS end.
Definition hashed (its : list handle) (v : nat) : Prop := ∃ h, its !! v = Some h ∧ HASH_JEN (h_key h) = Ok (h_hashv h).
Lemma hashed_same its its' v : keys_of <$> its' !! v = keys_of <$> its !! v → hashed its v → hashed its' v.
Proof.
  intros Hs (h & E & Hj). rewrite E in Hs. destruct (its' !! v) as [h'|] eqn:E'; [|done]. injection Hs as E1 E2. exists h'. by rewrite E1, E2.
Qed.

(** ** Adding *)

Section add.
Context (mem : Z) (Hmem : mem < bucket_size * 2 ^ 32).

(** The buckets, when the list has the element. *)
Lemma finish_add its t l p h head : dseg h_prev h_next its None (l ++ [p]) None → table_ok its t l → tail t = p →
  its !! p = Some h → (∀ v, v ∈ l ++ [p] → hashed its v) → NoDup l → p ∉ l → Z.of_nat (length its) < 2 ^ 32 → head = hd_or None (l ++ [p]) →
  wp (HASH_ADD_TO_TABLE mem its t (h_hashv h) p) (λ r, match r with
    | Some (its', t') => rep (Hash its' head (Some t')) (l ++ [p]) ∧ same keys_of its its' ∧ num_buckets t' <= 2 * num_buckets t
    | None => mem < 2 * bucket_size * num_buckets t end).
Proof.
  intros Hs Ht Htail Ep Hh Hnd Hp Hfew ->. assert (Hnd' : NoDup (l ++ [p])).
  { apply NoDup_app. split_and!; [done|intros v Hv; by intros ->%list_elem_of_singleton|apply NoDup_singleton]. }
  assert (Hl : (length (l ++ [p]) <= length its)%nat).
  { apply nodup_bound; [done|]. intros v Hv. destruct (Hh v Hv) as (h' & E & _). by apply lookup_lt_Some in E. }
  rewrite length_app in Hl. cbn [length] in Hl.
  eapply wp_mono; [apply (add_to_table_ok mem Hmem its t l p h Ht Hp Ep); lia|]. intros [[its' t']|]; [|done].
  intros (Ht' & Htl & Hk & Ha & Hb). split; [|done]. split; cbn [u_items u_head u_tbl].
  - done.
  - done.
  - by eapply dseg_app.
  - intros v Hv. apply (hashed_same its); [apply Hk|by apply Hh].
  - intros _. exists t'. split_and!; [done|by rewrite last_or_snoc, Htl, Htail|done].
  - intros E. by destruct l.
  - by rewrite (links_length _ _ _ Hk).
Qed.

Lemma hash_add_ok s l p key : rep s l → p ∉ l → is_Some (u_items s !! p) → blen key < 2 ^ 32 →
  wp (HASH_ADD_KEYPTR mem s key p) (λ r, match r with
  | Some s' => rep s' (l ++ [p]) ∧ h_key <$> u_items s' !! p = Some key ∧ (∀ v, v ≠ p → keys_of <$> u_items s' !! v = keys_of <$> u_items s !! v) ∧
      capacity s' <= 2 * capacity s
  | None => mem < 2 * bucket_size * capacity s end).
Proof.
  intros Hrep Hp [h0 Ep] Hkey. pose proof Hrep as []. unfold HASH_ADD_KEYPTR. apply wp_bind.
  destruct (HASH_JEN key) as [hashv|] eqn:Ej; [|by pose proof (HASH_JEN_ok key Hkey) as H; rewrite Ej in H].
  apply wp_ok, wp_bind, wp_upd; [by exists h0|]. set (its := alter _ p (u_items s)).
  assert (E0 : its !! p = Some (set_h_key key hashv h0)) by (unfold its; by rewrite list_lookup_alter_eq, Ep).
  assert (Hne : ∀ v, v ≠ p → its !! v = u_items s !! v) by (intros v Hv; unfold its; by apply list_lookup_alter_ne).
  assert (Hin : ∀ v, v ∈ l → v ≠ p) by (by intros v Hv ->). assert (Hlen : length its = length (u_items s)) by apply length_alter.
  (* with the list in order, the rest is [finish_add] *)
  assert (Hend : ∀ its1 t head, dseg h_prev h_next its1 None (l ++ [p]) None → table_ok its1 t l → tail t = p → same keys_of its its1 → num_buckets t = capacity s →
    head = hd_or None (l ++ [p]) → wp (r ← HASH_ADD_TO_TABLE mem its1 t hashv p;
      Ok (match r with Some (its2, t2) => Some (Hash its2 head (Some t2)) | None => None end)) (λ r, match r with
      | Some s' => rep s' (l ++ [p]) ∧ h_key <$> u_items s' !! p = Some key ∧ (∀ v, v ≠ p → keys_of <$> u_items s' !! v = keys_of <$> u_items s !! v) ∧
          capacity s' <= 2 * capacity s
      | None => mem < 2 * bucket_size * capacity s end)).
  { intros its1 t head Hs Ht Htail Hk Hcap Hhead. rewrite <- Hcap. destruct (same_some _ _ _ _ _ Hk E0) as (h & E1 & [= Eh Ev]). rewrite <- Ev. apply wp_bind.
    eapply wp_mono; [apply (finish_add its1 t l p h head Hs Ht Htail E1); [|done|done|by rewrite (links_length _ _ _ Hk), Hlen|done]|].
    - intros v [Hv| ->%list_elem_of_singleton]%elem_of_app; [|exists h; split; [done|by rewrite Eh, Ev]].
      apply (hashed_same its); [apply Hk|]. destruct (rp_key0 v Hv) as (h1 & E & Hj). exists h1. by rewrite Hne by (by apply Hin).
    - intros [[its2 t2]|]; [|done]. intros (Hr & Hk2 & Hb2). apply wp_ok. split_and!; [done| | |done].
      + cbn [u_items]. destruct (same_some _ _ _ _ _ Hk2 E1) as (h2 & -> & [= Eh2 _]). cbn. by rewrite Eh2, Eh.
      + intros v Hv. cbn [u_items]. by rewrite (Hk2 v), (Hk v), Hne. }
  rewrite rp_head0. destruct l as [|w l]; cbn [hd_or].
  - apply wp_bind, wp_upd; [by eexists|]. unfold HASH_MAKE_TABLE.
    assert (Hcap : capacity s = HASH_INITIAL_NUM_BUCKETS) by (unfold capacity; by rewrite (rp_free0 eq_refl)).
    destruct (Z.ltb_spec mem (HASH_INITIAL_NUM_BUCKETS * bucket_size)); [apply wp_ok; rewrite Hcap; unfold HASH_INITIAL_NUM_BUCKETS, bucket_size in *; lia|].
    apply Hend; [|exists 5, (λ _, [])|done|by apply same_alter|by rewrite Hcap|done].
    + cbn [app dseg hd_or]. split; [|done]. eexists. rewrite list_lookup_alter_eq, E0. done.
    + split_and!; [lia|lia|done|done|done| |].
      * apply (chains_empty _ 5); [lia|]. by rewrite length_alter, Hlen.
      * intros v. split; [by intros ?%elem_of_nil|by intros [_ ?%elem_of_nil]].
  - destruct (rp_table0 ltac:(done)) as (t & Et & Hlast & Ht). unfold the_table. rewrite Et. apply wp_bind, wp_ok, wp_bind.
    assert (Ht' : table_ok its t (w :: l)).
    { eapply table_frame; [|exact Hlen|exact Ht]. intros v Hv. by rewrite Hne by (by apply Hin). }
    eapply wp_mono; [apply (append_ok its t (w :: l) p); [|done|done|done|by eexists]|].
    + eapply seg_ext; [|exact rp_seg0]. intros v Hv. by apply Hne, Hin.
    + intros [its1 t1] (Hs1 & -> & Hk1 & Hb1). apply Hend; [done| |done|done|by unfold capacity; rewrite Et|done].
      destruct (table_same _ _ _ _ Hk1 Hb1 Ht') as (k & cs & H). by exists k, cs.
Qed.
End add.

(** ** Finding *)

Lemma find_loop its key hashv prev c fuel : dseg hh_prev hh_next its prev c None → (length c < fuel)%nat →
  wp (loop (find_body its key hashv) fuel (hd_or None c)) (λ o, match o with
    | Some p => p ∈ c ∧ keys_of <$> its !! p = Some (key, hashv)
    | None => ∀ v, v ∈ c → keys_of <$> its !! v ≠ Some (key, hashv) end).
Proof.
  revert prev fuel. induction c as [|p c IH]; intros prev fuel Hs Hf; (destruct fuel as [|fuel]; [cbn in Hf; lia|]).
  { cbn. by intros v ?%elem_of_nil. }
  destruct Hs as [(h & Ep & _ & Hn) Hs]. cbn [loop find_body hd_or]. apply wp_bind, wp_bind, (wp_at_elem _ _ h); [done|].
  destruct ((h_hashv h =? hashv) && (blen (h_key h) =? blen key) && bool_decide (h_key h = key)) eqn:E.
  - apply wp_ok, wp_ok. rewrite !andb_true_iff, bool_decide_eq_true, Z.eqb_eq in E. destruct E as [[Eh _] Ek].
    split; [by left|]. rewrite Ep. cbn. unfold keys_of. by rewrite Eh, Ek.
  - apply wp_ok. rewrite Hn. eapply wp_mono; [apply (IH (Some p) fuel Hs); cbn [length] in Hf; lia|]. intros [q|].
    + intros [Hq Hk]. split; [by right|done].
    + intros Hall v [->|Hv]%elem_of_cons; [|by apply Hall]. rewrite Ep. cbn. intros [= Ek Eh].
      rewrite Ek, Eh, Z.eqb_refl, Z.eqb_refl, bool_decide_eq_true_2 in E; done.
Qed.

Lemma find_ok s l key : rep s l → blen key < 2 ^ 32 →
  wp (HASH_FIND s key) (λ o, match o with
    | Some p => p ∈ l ∧ h_key <$> u_items s !! p = Some key
    | None => ∀ v, v ∈ l → h_key <$> u_items s !! v ≠ Some key end).
Proof.
  intros Hrep Hkey. pose proof Hrep as []. unfold HASH_FIND. rewrite rp_head0. destruct l as [|w l]; cbn [hd_or].
  { apply wp_ok. by intros v ?%elem_of_nil. }
  apply wp_bind. destruct (HASH_JEN key) as [hashv|] eqn:Ej; [|by pose proof (HASH_JEN_ok key Hkey) as H; rewrite Ej in H].
  destruct (rp_table0 ltac:(done)) as (t & Et & _ & (k & cs & Hk & Hn & _ & _ & Hch & Hm)). unfold the_table. rewrite Et.
  apply wp_ok, wp_bind, wp_ok, wp_bind. rewrite Hn.
  destruct (bucket_at (u_items s) k (buckets t) cs (set_h_key key hashv (Handle None None None None [] 0)) Hch ltac:(lia)) as (b & Eb & Hi & Hb).
  cbn [set_h_key h_hashv] in *. rewrite Eb. apply (wp_geti _ _ b); [done|done|].
  pose proof Hch as []. destruct (ch_chain0 _ b Hb) as [Hs Hh _]. rewrite Hh. set (i := Z.to_nat (hashv mod 2 ^ k)) in *.
  assert (Hf : (length (cs i) < S (length (u_items s)))%nat).
  { apply Nat.lt_succ_r, nodup_bound; [done|]. intros v Hv. destruct (ch_index0 i v Hv) as (h & E & _). by apply lookup_lt_Some in E. }
  eapply wp_mono; [apply (find_loop _ key hashv None (cs i) _ Hs Hf)|]. intros [p|].
  - intros [Hp Hk']. split; [apply Hm; by exists i|]. destruct (u_items s !! p) as [h|]; [|done]. injection Hk' as Ek _. cbn. by rewrite Ek.
  - intros Hall v Hv Hkv. destruct (rp_key0 v Hv) as (h & E & Hj). rewrite E in Hkv. injection Hkv as Ek. rewrite Ek, Ej in Hj. injection Hj as Eh.
    destruct (proj1 (Hm v) Hv) as [j Hvj]. assert (j = i) as ->.
    { destruct (ch_index0 j v Hvj) as (h' & E' & Ei). rewrite E in E'. injection E' as <-. rewrite <- Eh in Ei. unfold i. by rewrite Ei, Nat2Z.id. }
    apply (Hall v Hvj). rewrite E. cbn. unfold keys_of. by rewrite Ek, Eh.
Qed.

(** ** Deleting *)

(** A list without one of its elements. *)
Lemma nodup_without {A} (l1 l2 : list A) p : NoDup (l1 ++ p :: l2) → NoDup (l1 ++ l2).
Proof.
  intros (H1 & H2 & [_ H3]%NoDup_cons)%NoDup_app. apply NoDup_app. split_and!; [done|intros v Hv Hx; by apply (H2 v Hv); right|done].
Qed.
Lemma without_elem (l1 : list nat) p l2 v : NoDup (l1 ++ p :: l2) → v ∈ l1 ++ l2 ↔ v ≠ p ∧ v ∈ l1 ++ p :: l2.
Proof.
  intros (_ & H2 & [H3 _]%NoDup_cons)%NoDup_app. assert (p ∉ l1) by (intros Hx; apply (H2 p Hx); by left).
  rewrite !elem_of_app, elem_of_cons. split; [|tauto]. intros [Hv|Hv]; (split; [by intros ->|tauto]).
Qed.

Lemma del_in_table its t l1 p l2 its1 : table_ok its t (l1 ++ p :: l2) → NoDup (l1 ++ p :: l2) → same keys_of its its1 → same bkt_links its its1 →
  ∃ h b, its1 !! p = Some h ∧ 0 <= HASH_TO_BKT (h_hashv h) (num_buckets t) ∧ buckets t !! Z.to_nat (HASH_TO_BKT (h_hashv h) (num_buckets t)) = Some b ∧
    wp (HASH_DEL_IN_BKT its1 b p) (λ '(its2, b'), same keys_of its1 its2 ∧ same app_links its1 its2 ∧
      ∀ tl, table_ok its2 (set_num_items (u32 (num_items t - 1))
        (set_buckets (<[Z.to_nat (HASH_TO_BKT (h_hashv h) (num_buckets t)) := b']> (buckets t)) (set_tail tl t))) (l1 ++ l2)).
Proof.
  intros Ht Hnd Hsk Hsb. destruct (table_same _ _ _ _ Hsk Hsb Ht) as (k & cs & Hk & Hn & Hl & Hi & Hch & Hm). clear Ht Hsk Hsb its.
  destruct (proj1 (Hm p)) as [i Hp]; [apply elem_of_app; right; by left|]. pose proof Hch as []. destruct (ch_index0 i p Hp) as (h & Ep & Ei).
  destruct (bucket_at its1 k (buckets t) cs h Hch ltac:(lia)) as (b & Eix & Hix & Eb). rewrite Ei, ?Nat2Z.id in *.
  exists h, b. rewrite Hn, Eix, Nat2Z.id. split_and!; [done|lia|done|]. apply list_elem_of_split in Hp as (c1 & c2 & Hc). pose proof (ch_nodup0 i) as Hndc.
  pose proof (ch_chain0 i b Eb) as Hco. pose proof (chain_few _ _ _ _ i Hch) as Hfew. rewrite Hc in Hndc, Hco, Hfew.
  eapply wp_mono; [apply (del_ok its1 b c1 p c2 Hco Hndc Hfew)|]. intros [its2 b'] [Hco' Hr]. pose proof Hr as [Hrk Hra _]. split_and!; [done|done|].
  assert (Hsub : ∀ v, v ∈ c1 ++ c2 → v ∈ cs i) by (intros v; rewrite Hc, !elem_of_app, elem_of_cons; tauto).
  intros tl. exists k, (set_chain i (c1 ++ c2) cs). split_and!; [lia|lia|done|done| | |].
  - cbn. rewrite Hi. rewrite !length_app. cbn [length].
    rewrite u32_small; [lia|]. assert (length (l1 ++ p :: l2) <= length its1)%nat as Hle; [|rewrite length_app in Hle; cbn [length] in Hle; lia].
    apply nodup_bound; [done|]. intros v Hv. apply Hm in Hv as [j Hv]. destruct (ch_index0 j v Hv) as (hv & E & _). by apply lookup_lt_Some in E.
  - cbn [set_num_items set_buckets buckets]. apply (chains_relinked its1 its2 k (buckets t) cs i b' (c1 ++ c2) (c1 ++ c2) Hch); [by apply lookup_lt_Some in Eb|done| |done| |].
    + intros j v Hne Hv Hx. apply (other_chain _ _ _ _ j i v Hch Hv); [done|]. by apply Hsub.
    + by eapply nodup_without.
    + intros v Hv. by apply ch_index0, Hsub.
  - intros v. rewrite (without_elem l1 p l2 v Hnd), Hm. pose proof (λ w, without_elem c1 p c2 w Hndc) as Hci. rewrite <- Hc in Hci.
    split.
    + intros [Hne [j Hj]]. exists j. destruct (decide (i = j)) as [->|]; [rewrite set_chain_eq; by apply Hci|by rewrite set_chain_ne].
    + intros [j Hj]. destruct (decide (i = j)) as [->|Hne]; [rewrite set_chain_eq in Hj; apply Hci in Hj as [? ?]; split; [done|by exists j]|].
      rewrite set_chain_ne in Hj by done. split; [|by exists j]. intros ->. apply (other_chain _ _ _ _ j i p Hch Hj); [done|].
      rewrite Hc, elem_of_app, elem_of_cons. tauto.
Qed.

Lemma unlink_rep s l1 p l2 t tl : rep s (l1 ++ p :: l2) → u_tbl s = Some t → l1 ++ l2 ≠ [] → last_or None (l1 ++ l2) = Some tl →
  table_ok (u_items s) t (l1 ++ p :: l2) →
  wp (unlink s p (set_tail tl t)) (λ s', rep s' (l1 ++ l2) ∧ same keys_of (u_items s) (u_items s') ∧ capacity s' <= capacity s).
Proof.
  intros Hrep Et Hne Hlast Ht. pose proof Hrep as []. destruct (rp_key0 p ltac:(apply elem_of_app; right; by left)) as (d & Ed & _).
  destruct (list_unlink_ok _ _ _ _ d rp_seg0 rp_nodup0 Ed) as (Dp & Dn & H). cbv zeta in H.
  destruct H as (Hok1 & Hok2 & Ed1 & Ed2 & Hs2 & Hk2 & Hb2). unfold unlink. apply wp_bind, (wp_at_elem _ _ d); [done|].
  apply wp_bind, wp_upd_if; [done|]. apply wp_bind, (wp_at_elem _ _ d); [done|]. apply wp_bind, wp_upd_if; [done|].
  apply wp_bind, (wp_at_elem _ _ d); [done|]. cbn [set_tail num_buckets buckets].
  destruct (del_in_table (u_items s) t l1 p l2 _ Ht rp_nodup0 Hk2 Hb2) as (h & b & Eh & Hi & Eb & Hdel). rewrite Ed2 in Eh. injection Eh as <-.
  apply wp_bind, (wp_geti _ _ b); [done|done|]. apply wp_bind. eapply wp_mono; [exact Hdel|]. intros [its3 b'] (Hk3 & Ha3 & Ht3). apply wp_ok.
  assert (Hk : same keys_of (u_items s) its3) by (by etrans). split; [|split; [done|unfold capacity; rewrite Et; done]]. split; cbn [u_items u_head u_tbl].
  - by eapply nodup_without.
  - rewrite Dp, Dn, rp_head0. destruct l1 as [|v l1]; [done|]. rewrite last_or_cons. unfold last_or. by destruct (list.last l1).
  - by eapply dseg_app.
  - intros v Hv. apply (hashed_same (u_items s)); [apply Hk|]. apply rp_key0. rewrite elem_of_app in *. rewrite elem_of_cons. tauto.
  - intros _. eexists. split_and!; [done|done|]. apply (Ht3 tl).
  - done.
  - by rewrite (links_length _ _ _ Hk).
Qed.

Lemma delete_ok s l1 p l2 : rep s (l1 ++ p :: l2) → wp (HASH_DELETE s p) (λ s', rep s' (l1 ++ l2) ∧ same keys_of (u_items s) (u_items s') ∧ capacity s' <= capacity s).
Proof.
  intros Hrep. pose proof Hrep as []. destruct (rp_key0 p ltac:(apply elem_of_app; right; by left)) as (d & Ed & _).
  destruct (list_unlink_ok _ _ _ _ d rp_seg0 rp_nodup0 Ed) as (Dp & Dn & _).
  unfold HASH_DELETE. apply wp_bind, (wp_at_elem _ _ d); [done|].
  destruct (decide (l1 ++ l2 = [])) as [[-> ->]%app_nil|Hne].
  { rewrite Dp, Dn. apply wp_ok. split_and!; [split; cbn; try done; [constructor|by intros v ?%elem_of_nil]|done|].
    destruct (rp_table0 ltac:(done)) as (t & Et & _ & (k & cs & Hk & Hn & _)). unfold capacity. cbn. rewrite Et, Hn.
    change HASH_INITIAL_NUM_BUCKETS with (2 ^ 5). apply Z.pow_le_mono_r; lia. }
  destruct (rp_table0 ltac:(by destruct l1)) as (t & Et & Hlast & Ht). rewrite last_or_app in Hlast.
  assert (Hend : ∀ tl, last_or None (l1 ++ l2) = Some tl → wp (unlink s p (set_tail tl t)) (λ s', rep s' (l1 ++ l2) ∧ same keys_of (u_items s) (u_items s') ∧ capacity s' <= capacity s)).
  { intros tl Htl. by apply (unlink_rep s l1 p l2 t tl). }
  assert (Hgo : wp (t ← the_table s; t ← (if bool_decide (tail t = p) then match h_prev d with Some q => Ok (set_tail q t) | None => Fail OutOfBounds end else Ok t);
    unlink s p t) (λ s', rep s' (l1 ++ l2) ∧ same keys_of (u_items s) (u_items s') ∧ capacity s' <= capacity s)).
  { unfold the_table. rewrite Et. apply wp_bind, wp_ok, wp_bind. destruct l2 as [|w l2].
    - cbn in Hlast. injection Hlast as <-. rewrite bool_decide_eq_true_2 by done. rewrite app_nil_r in *. rewrite Dp. unfold last_or in *.
      destruct (list.last l1) as [q|] eqn:El; [|by apply last_None in El]. apply wp_ok. by apply Hend.
    - rewrite bool_decide_eq_false_2.
      + apply wp_ok. replace t with (set_tail (tail t) t) by (by destruct t). apply Hend. rewrite last_or_app. by rewrite last_or_cons in Hlast.
      + intros E. rewrite last_or_cons, E in Hlast. unfold last_or in Hlast. apply NoDup_app in rp_nodup0 as (_ & _ & [Hp _]%NoDup_cons). apply Hp.
        destruct (list.last l2) eqn:El; injection Hlast as ->; [right; by apply last_Some_elem_of|by left]. }
  destruct (h_prev d) eqn:E1; [exact Hgo|]. destruct (h_next d) eqn:E2; [exact Hgo|]. exfalso. apply Hne.
  destruct l1 as [|v l1]; [by destruct l2|]. rewrite last_or_cons in Dp. unfold last_or in Dp. by destruct (list.last l1).
Qed.

(** ** Going over the elements *)

Lemma next_ok s k q r : rep s (k ++ q :: r) → next_of s (Some q) = Ok (hd_or None r).
Proof.
  intros []. apply seg_app in rp_seg0 as [_ [(d & Ed & _ & Dn) _]]. unfold next_of, at_elem. by rewrite Ed, bind_ok, Dn.
Qed.
Lemma next_ok_hd s k r : rep s (k ++ r) → next_of s (hd_or None r) = Ok (hd_or None (tl r)).
Proof. destruct r as [|q r]; [done|]. apply next_ok. Qed.

(** Deleting those that are dead, as the trackers do with old records. *)
Definition clean_up (dead : nat → bool) (p : nat) (s : hash) : comp hash := if dead p then HASH_DELETE s p else Ok s.

Lemma iter_loop dead s k r fuel : rep s (k ++ r) → (length r < fuel)%nat →
  wp (loop (iter_body (clean_up dead)) fuel (hd_or None r, hd_or None (tl r), s)) (λ s',
    rep s' (k ++ List.filter (λ p, negb (dead p)) r) ∧ same keys_of (u_items s) (u_items s') ∧ capacity s' <= capacity s).
Proof.
  revert s k fuel. induction r as [|p r IH]; intros s k fuel Hs Hf; (destruct fuel as [|fuel]; [cbn in Hf; lia|]); [done|].
  cbn [loop iter_body hd_or tl List.filter]. cbn [length] in Hf.
  (* the body leaves the rest of the list as it was *)
  assert (Hbody : wp (clean_up dead p s) (λ s', rep s' (k ++ (if negb (dead p) then [p] else []) ++ r) ∧ same keys_of (u_items s) (u_items s') ∧ capacity s' <= capacity s)).
  { unfold clean_up. destruct (dead p); cbn [negb]; [by apply delete_ok|by apply wp_ok]. }
  apply wp_bind, wp_bind. eapply wp_mono; [exact Hbody|]. intros s1 (Hs1 & Hk1 & Hc1). rewrite app_assoc in Hs1.
  rewrite (next_ok_hd s1 _ r Hs1), bind_ok. apply wp_ok. eapply wp_mono; [apply (IH s1 _ fuel Hs1); lia|].
  intros s2 (Hs2 & Hk2 & Hc2). split_and!; [|by etrans|lia]. rewrite <- app_assoc in Hs2. by destruct (negb (dead p)).
Qed.
Lemma iter_ok dead s l : rep s l → wp (HASH_ITER (clean_up dead) s) (λ s',
  rep s' (List.filter (λ p, negb (dead p)) l) ∧ same keys_of (u_items s) (u_items s') ∧ capacity s' <= capacity s).
Proof.
  intros Hs. unfold HASH_ITER. pose proof (rep_length s l Hs). rewrite (rp_head s l Hs), (next_ok_hd s [] l Hs), bind_ok.
  apply (iter_loop dead s [] l); [done|lia].
Qed.

(** * What the table promises *)

(** What a user of a table does: he adds elements with new keys, looks for keys, deletes elements,
    and goes over all of them to delete some. *)
Inductive op := OAdd (p : nat) (key : bytes) | OFind (key : bytes) | ODel (p : nat) | OClean (dead : nat → bool).

(** On the table: the answers of the searches, unless the program is ended. *)
Definition run_op (mem : Z) (o : op) (s : hash) : comp (option (list (option nat) * hash)) :=
  match o with
  | OAdd p key => r ← HASH_ADD_KEYPTR mem s key p; Ok (match r with Some s => Some ([], s) | None => None end)
  | OFind key => out ← HASH_FIND s key; Ok (Some ([out], s))
  | ODel p => s ← HASH_DELETE s p; Ok (Some ([], s))
  | OClean dead => s ← HASH_ITER (clean_up dead) s; Ok (Some ([], s))
  end.
Fixpoint run_ops (mem : Z) (os : list op) (s : hash) : comp (option (list (option nat) * hash)) :=
  match os with
  | [] => Ok (Some ([], s))
  | o :: os =>
      r ← run_op mem o s;
      match r with
      | None => Ok None
      | Some (a, s) => r ← run_ops mem os s; Ok (match r with Some (a', s) => Some (a ++ a', s) | None => None end)
      end
  end.

Definition other (p q : nat) : bool := negb (bool_decide (q = p)).
(** On the list of the elements with their keys, in the order they were added. *)
Abbreviation items := (list (nat * bytes)).
Definition spec_op (o : op) (l : items) : list (option nat) * items :=
  match o with
  | OAdd p key => ([], l ++ [(p, key)])
  | OFind key => ([fst <$> List.find (λ x, bool_decide (x.2 = key)) l], l)
  | ODel p => ([], List.filter (λ x, other p x.1) l)
  | OClean dead => ([], List.filter (λ x, negb (dead x.1)) l)
  end.
Fixpoint spec_ops (os : list op) (l : items) : list (option nat) * items :=
  match os with
  | [] => ([], l)
  | o :: os => let '(a, l) := spec_op o l in let '(a', l) := spec_ops os l in (a ++ a', l)
  end.
(** An element that is added is one of the [n] in memory, and neither it nor its key is in the
    table; one that is deleted is in the table. *)
Definition valid_op (n : nat) (o : op) (l : items) : Prop :=
  match o with
  | OAdd p key => (p < n)%nat ∧ p ∉ (l.*1) ∧ key ∉ (l.*2) ∧ blen key < 2 ^ 32
  | OFind key => blen key < 2 ^ 32
  | ODel p => p ∈ l.*1
  | OClean _ => True
  end.
Fixpoint valid_ops (n : nat) (os : list op) (l : items) : Prop :=
  match os with [] => True | o :: os => valid_op n o l ∧ valid_ops n os (spec_op o l).2 end.
Fixpoint adds (os : list op) : Z := match os with [] => 0 | OAdd _ _ :: os => adds os + 1 | _ :: os => adds os end.

Record models (s : hash) (l : items) : Prop := {
  md_rep : rep s l.*1;
  md_keys : NoDup l.*2;
  md_key x : x ∈ l → h_key <$> u_items s !! x.1 = Some x.2
}.

Lemma fmap_inj {A B} (f : A → B) (l : list A) x y : NoDup (f <$> l) → x ∈ l → y ∈ l → f x = f y → x = y.
Proof.
  intros Hnd [i Hi]%list_elem_of_lookup [j Hj]%list_elem_of_lookup E. assert (i = j) as ->; [|congruence].
  apply (NoDup_lookup (f <$> l) i j (f x)); [done|by rewrite list_lookup_fmap, Hi|by rewrite list_lookup_fmap, Hj, E].
Qed.
Lemma nodup_filter {A B} (f : A → B) g (l : list A) : NoDup (f <$> l) → NoDup (f <$> List.filter g l).
Proof.
  induction l as [|x l IH]; [done|]. rewrite fmap_cons. intros [Hn Hnd]%NoDup_cons. cbn [List.filter]. destruct (g x); [|by apply IH].
  rewrite fmap_cons. apply NoDup_cons. split; [|by apply IH]. intros (y & Ey & Hy)%list_elem_of_fmap. apply Hn. rewrite Ey.
  apply list_elem_of_fmap_2. apply list_elem_of_In, List.filter_In in Hy as [Hy _]. by apply list_elem_of_In.
Qed.
Lemma fst_filter (g : nat → bool) (l : items) : (List.filter (λ x, g x.1) l).*1 = List.filter g (l.*1).
Proof. induction l as [|[p k] l IH]; [done|]. cbn [List.filter fst]. rewrite fmap_cons. cbn [List.filter fst]. destruct (g p); by rewrite ?fmap_cons, IH. Qed.
Lemma filter_ne (l1 : list nat) p l2 : NoDup (l1 ++ p :: l2) → List.filter (other p) (l1 ++ p :: l2) = (l1 ++ l2).
Proof.
  intros (H1 & H2 & [H3 _]%NoDup_cons)%NoDup_app. assert (Hk : ∀ l, p ∉ l → List.filter (other p) l = l).
  { intros l. induction l as [|q l IH]; [done|]. rewrite not_elem_of_cons. intros [Hq Hl]. cbn [List.filter].
    unfold other at 1. rewrite bool_decide_eq_false_2 by (by intros ->). cbn [negb]. by rewrite IH. }
  rewrite List.filter_app. cbn [List.filter]. unfold other at 2. rewrite bool_decide_eq_true_2 by done. cbn [negb]. rewrite !Hk; [done|done|].
  intros Hx. apply (H2 p Hx). by left.
Qed.

(** The table with some of its elements only. *)
Lemma models_filter s s' l g : models s l → rep s' (List.filter g l).*1 → same keys_of (u_items s) (u_items s') → models s' (List.filter g l).
Proof.
  intros [_ Hnd Hk] Hr Hs. split; [done|by apply nodup_filter|]. intros x Hx. apply list_elem_of_In, List.filter_In in Hx as [Hx _].
  apply list_elem_of_In in Hx. specialize (Hk x Hx). specialize (Hs x.1). destruct (u_items s !! x.1) as [h|]; [|done].
  destruct (u_items s' !! x.1) as [h'|]; [|done]. injection Hs as E _. cbn in *. by rewrite E.
Qed.

Section refines.
Context (mem : Z) (Hmem : mem < bucket_size * 2 ^ 32).

Lemma find_models s l key : models s l → blen key < 2 ^ 32 → HASH_FIND s key = Ok (fst <$> List.find (λ x, bool_decide (x.2 = key)) l).
Proof.
  intros [Hr Hnd Hk] Hkey. pose proof (find_ok s _ key Hr Hkey) as H. destruct (HASH_FIND s key) as [o|]; [|done]. cbn in H. f_equal.
  destruct (List.find _ l) as [x|] eqn:Ef.
  - apply List.find_some in Ef as [Hx Ex]. apply list_elem_of_In in Hx. apply bool_decide_eq_true in Ex. destruct o as [p|].
    + destruct H as [(y & -> & Hy)%list_elem_of_fmap Hp]. cbn. f_equal. rewrite (Hk y Hy) in Hp. injection Hp as Hp. f_equal.
      apply (fmap_inj snd l); [done..|]. by rewrite Hp, Ex.
    + exfalso. apply (H x.1); [by apply list_elem_of_fmap_2|]. by rewrite (Hk x Hx), Ex.
  - destruct o as [p|]; [|done]. destruct H as [(y & -> & Hy)%list_elem_of_fmap Hp]. rewrite (Hk y Hy) in Hp. injection Hp as Hp.
    pose proof (List.find_none _ _ Ef y) as Hf. cbn in Hf. rewrite bool_decide_eq_true_2 in Hf by done. by discriminate Hf; apply list_elem_of_In.
Qed.

Lemma op_ok s l o : models s l → valid_op (length (u_items s)) o l → wp (run_op mem o s) (λ r, match r with
  | Some (a, s') => a = (spec_op o l).1 ∧ models s' (spec_op o l).2 ∧ length (u_items s') = length (u_items s) ∧ capacity s' <= 2 ^ adds [o] * capacity s
  | None => mem < 2 ^ adds [o] * bucket_size * capacity s end).
Proof.
  intros Hm Hv. pose proof Hm as [Hr Hnd Hk]. destruct o as [p key|key|p|dead]; cbn [run_op valid_op spec_op adds fst snd] in *; apply wp_bind.
  - destruct Hv as (Hp & Hnp & Hnk & Hkey). destruct (lookup_lt_is_Some_2 _ _ Hp) as [h0 E0].
    eapply wp_mono; [apply (hash_add_ok mem Hmem s l.*1 p key Hr Hnp); [by exists h0|done]|]. intros [s'|]; [|intros; apply wp_ok; lia].
    intros (Hr' & Hkp & Hother & Hc). apply wp_ok. split_and!; [done| | |lia].
    + split; [by rewrite fmap_app|rewrite fmap_app; apply NoDup_app; split_and!; [done|intros k Hx; by intros ->%list_elem_of_singleton|apply NoDup_singleton]|].
      intros x [Hx| ->%list_elem_of_singleton]%elem_of_app; [|done].
      assert (Hne : x.1 ≠ p) by (intros <-; apply Hnp; by apply list_elem_of_fmap_2). specialize (Hother _ Hne). specialize (Hk x Hx).
      destruct (u_items s !! x.1) as [h|]; [|done]. destruct (u_items s' !! x.1) as [h'|]; [|done]. injection Hother as E _. cbn in *. by rewrite E.
    + apply is_some_length. intros v. destruct (decide (v = p)) as [->|Hne].
      * rewrite E0. split; [done|]. intros _. by destruct (u_items s' !! p).
      * rewrite <- (fmap_is_Some keys_of (u_items s' !! v)), (Hother v Hne). apply fmap_is_Some.
  - rewrite (find_models s l key Hm Hv). apply wp_ok, wp_ok. split_and!; [done..|lia].
  - apply list_elem_of_fmap in Hv as ([p' k] & -> & Hx). apply list_elem_of_split in Hx as (l1 & l2 & ->). cbn [fst].
    rewrite fmap_app, fmap_cons in Hr. cbn [fst] in Hr. eapply wp_mono; [by apply delete_ok|]. intros s' (Hr' & Hs & Hc). apply wp_ok.
    split_and!; [done|apply (models_filter s s' _ _ Hm); [|done]|by eapply links_length|lia].
    match goal with |- rep _ ?x => assert (x = l1.*1 ++ l2.*1) as ->; [|done] end.
    etrans; [apply (fst_filter (other p'))|]. rewrite fmap_app, fmap_cons. apply filter_ne, Hr.
  - eapply wp_mono; [by apply iter_ok|]. intros s' (Hr' & Hs & Hc). apply wp_ok.
    split_and!; [done|apply (models_filter s s' _ _ Hm); [|done]|by eapply links_length|lia].
    by rewrite (fst_filter (λ q, negb (dead q))).
Qed.
End refines.

(** * The property *)

Lemma adds_nonneg os : 0 <= adds os.
Proof. induction os as [|[] os IH]; cbn [adds]; lia. Qed.
Lemma adds_cons o os : adds (o :: os) = adds [o] + adds os.
Proof. destruct o; cbn [adds]; lia. Qed.

Lemma ops_ok mem os s l : mem < bucket_size * 2 ^ 32 → models s l → valid_ops (length (u_items s)) os l → wp (run_ops mem os s) (λ r, match r with
  | Some (a, s') => a = (spec_ops os l).1 ∧ models s' (spec_ops os l).2
  | None => mem < 2 ^ adds os * bucket_size * capacity s end).
Proof.
  intros Hmem. revert s l. induction os as [|o os IH]; intros s l Hm Hv; cbn [run_ops spec_ops]; [done|]. destruct Hv as [Ho Hv].
  pose proof (adds_nonneg os) as Hn. pose proof (adds_nonneg [o]) as Hno. rewrite adds_cons, Z.pow_add_r by done.
  pose proof (Z.pow_pos_nonneg 2 (adds os) ltac:(lia) Hn). apply wp_bind. eapply wp_mono; [by apply (op_ok mem Hmem s l o)|]. intros [[a s1]|].
  - intros (-> & Hm1 & Hlen & Hc). rewrite <- Hlen in Hv. destruct (spec_op o l) as [a1 l1] eqn:E. cbn [fst snd] in *.
    apply wp_bind. eapply wp_mono; [by apply (IH s1 l1)|]. destruct (spec_ops os l1) as [a2 l2]. cbn [fst snd]. intros [[a' s2]|].
    + intros [-> Hm2]. by apply wp_ok.
    + intros Hfull. apply wp_ok. unfold bucket_size in *. nia.
  - intros Hfull. apply wp_ok. unfold bucket_size in *.
    assert (0 <= capacity s) as Hcap; [|nia]. unfold capacity. destruct (u_tbl s) as [t|] eqn:Et; [|done]. destruct Hm as [[] _ _].
    destruct (decide (l.*1 = [])) as [E|Hne]; [rewrite (rp_free0 E) in Et; done|]. destruct (rp_table0 Hne) as (t' & Et' & _ & (k & cs & _ & Hnb & _)).
    rewrite Et in Et'. injection Et' as <-. rewrite Hnb. by apply Z.pow_nonneg.
Qed.

(** C22: A table of uthash.h is the list of its elements in the order they were added: whatever its user
    adds (with keys that are not in it), looks for, deletes, and deletes while going over it, from the
    empty table on, with fewer than 2^32 elements in memory, every search finds the element with the
    key, or none if there is none, and at the end the table has exactly the elements of the list, in
    their order and under their keys; no link is followed that is not there, no bucket is out of range
    and every loop ends, also while buckets are doubled and redistributed.  Only [malloc] can end the
    program, and only if it does not give a block of 512 bytes doubled for each addition. *)
Theorem hash_table_refines mem its os :
  mem < bucket_size * 2 ^ 32 → Z.of_nat (length its) < 2 ^ 32 → valid_ops (length its) os [] →
  wp (run_ops mem os (Hash its None None)) (λ r, match r with
    | Some (answers, s) => let '(answers', l) := spec_ops os [] in answers = answers' ∧ models s l
    | None => mem < 512 * 2 ^ adds os
    end).
Proof.
  intros Hmem Hfew Hv. assert (Hm : models (Hash its None None) []).
  { split; [|constructor|by intros x ?%elem_of_nil]. split; cbn; try done; [constructor|by intros v ?%elem_of_nil]. }
  eapply wp_mono; [by apply (ops_ok mem os _ [] Hmem Hm)|]. intros [[a s]|].
  - intros [-> Hs]. by destruct (spec_ops os []).
  - change (capacity (Hash its None None)) with 32. unfold bucket_size. lia.
Qed.

(** Forty elements whose keys all have the same first byte, some deleted, all over a fresh memory. *)
Definition fresh_items : list handle := repeat (Handle None None None None [] 0) 40.
Definition sample_key (p : nat) : bytes := [ch "4"; Z.of_nat p; 0; 0; 0; 0; 0; 0; 0; 0; 0; 0; 80].
Definition sample_ops : list op :=
  map (λ p, OAdd p (sample_key p)) (seq 0 40) ++
  [OFind (sample_key 7); ODel 7%nat; OFind (sample_key 7); OClean (λ p, bool_decide (p < 38)%nat); OFind (sample_key 37); OFind (sample_key 39)].
Fixpoint validb (n : nat) (os : list op) (l : items) : bool :=
  match os with
  | [] => true
  | o :: os => match o with
      | OAdd p key => bool_decide (p < n)%nat && negb (bool_decide (p ∈ l.*1)) && negb (bool_decide (key ∈ l.*2)) && (blen key <? 2 ^ 32)
      | OFind key => blen key <? 2 ^ 32
      | ODel p => bool_decide (p ∈ l.*1)
      | OClean _ => true
      end && validb n os (spec_op o l).2
  end.
Lemma validb_ok n os l : validb n os l = true → valid_ops n os l.
Proof.
  revert l. induction os as [|o os IH]; intros l; cbn [validb valid_ops]; [done|]. rewrite andb_true_iff. intros [Ho Hos]. split; [|by apply IH].
  destruct o; cbn [valid_op]; rewrite ?andb_true_iff, ?negb_true_iff, ?bool_decide_eq_true, ?bool_decide_eq_false, ?Z.ltb_lt in Ho; tauto.
Qed.
Lemma sample_ops_valid : valid_ops (length fresh_items) sample_ops [].
Proof. apply validb_ok. vm_compute. reflexivity. Qed.
Lemma sample_sizes : 2 ^ 20 < bucket_size * 2 ^ 32 ∧ Z.of_nat (length fresh_items) < 2 ^ 32.
Proof. split; vm_compute; reflexivity. Qed.
Lemma hash_table_refines_witness : ∃ s,
  run_ops (2 ^ 20) sample_ops (Hash fresh_items None None) = Ok (Some ([Some 7; None; None; Some 39]%nat, s)) ∧
  models s [(38%nat, sample_key 38); (39%nat, sample_key 39)].
Proof.
  assert (E : match run_ops (2 ^ 20) sample_ops (Hash fresh_items None None) with Ok (Some (a, _)) => bool_decide (a = [Some 7; None; None; Some 39]%nat) | _ => false end = true)
    by (vm_compute; reflexivity).
  pose proof (hash_table_refines (2 ^ 20) fresh_items sample_ops (proj1 sample_sizes) (proj2 sample_sizes) sample_ops_valid) as H.
  destruct (run_ops (2 ^ 20) sample_ops (Hash fresh_items None None)) as [[[a s]|]|]; [|discriminate E|discriminate E].
  exists s. apply bool_decide_eq_true in E. subst a. split; [reflexivity|].
  assert (El : (spec_ops sample_ops []).2 = [(38%nat, sample_key 38); (39%nat, sample_key 39)]) by (vm_compute; reflexivity).
  cbn [wp] in H. destruct (spec_ops sample_ops []) as [a' l]. cbn [snd] in El. subst l. exact (proj2 H).
Defined.
