(* ===== verification/GdTables.v ===== *)
(** The tables of GoodbyeDPI's trackers and its list of hosts on the hash tables of uthash.h: the
    operations that GdTrack and GdText do on lists are those of UtHash on the elements that hold the records.

    A record is an element in memory, [recs] says which one an element holds; a list of elements
    with their keys, as UtHash has it, stands for the list of their records. *)
From Stdlib Require Import ZArith Lia.
From stdpp Require Import base numbers list option sorting.
From S2P Require Import Prelude CMem UtHash GdTrack GdText.

#[local] Open Scope Z_scope.
#[local] Open Scope list_scope.

Section tables.
Context {V : Type} (recs : nat → connrecord V).
Implicit Types (h : hash) (l : items) (s : tracker V).

Abbreviation records l := ((λ x : nat * bytes, recs x.1) <$> l).

(** The table of a tracker holds the elements of [l], and each the record with its key. *)
Record tracked (h : hash) (l : items) (s : tracker V) : Prop := {
  tr_models : models h l;
  tr_records : tk_conntrack s = records l;
  tr_key x : x ∈ l → r_key (recs x.1) = x.2
}.

Lemma find_records key l : (∀ x, x ∈ l → r_key (recs x.1) = x.2) →
  List.find (λ r, bool_decide (r_key r = key)) (records l) = recs <$> (fst <$> List.find (λ x, bool_decide (x.2 = key)) l).
Proof.
  induction l as [|x l IH]; intros Hk; [done|]. rewrite fmap_cons. cbn [List.find]. rewrite (Hk x) by (by left).
  destruct (bool_decide (x.2 = key)); [done|]. apply IH. intros y Hy. apply Hk. by right.
Qed.

(** [HASH_FIND_STR] *)
Lemma find_tracked h l s key : tracked h l s → blen key < 2 ^ 32 → ∃ o, HASH_FIND h key = Ok o ∧ HASH_FIND_STR key s = Ok (recs <$> o, s).
Proof.
  intros [Hm Hr Hk] Hkey. eexists. split; [by apply find_models|]. unfold HASH_FIND_STR, mbind, st_bind, gets, mret, st_ret. cbn.
  by rewrite Hr, find_records.
Qed.

(** [HASH_ADD_STR], of an element that is not in the table and holds a record with a new key *)
Lemma add_tracked mem h l s p : mem < bucket_size * 2 ^ 32 → tracked h l s → (p < length (u_items h))%nat → p ∉ l.*1 →
  r_key (recs p) ∉ l.*2 → blen (r_key (recs p)) < 2 ^ 32 →
  wp (HASH_ADD_KEYPTR mem h (r_key (recs p)) p) (λ r, match r with
    | Some h' => swp (HASH_ADD_STR (recs p)) s (λ _ s', tracked h' (l ++ [(p, r_key (recs p))]) s')
    | None => True end).
Proof.
  intros Hmem [Hm Hr Hk] Hp Hnp Hnk Hkey. pose proof (op_ok mem Hmem h l (OAdd p (r_key (recs p))) Hm) as H. cbn [run_op valid_op spec_op] in H.
  specialize (H ltac:(done)). apply wp_bind in H. eapply wp_mono; [exact H|]. intros [h'|] H'; [|done]. cbn in H'. destruct H' as (_ & Hm' & _).
  unfold HASH_ADD_STR, set_conntrack. repeat sstep. split; [done|cbn; by rewrite Hr, fmap_app|].
  intros x [Hx| ->%list_elem_of_singleton]%elem_of_app; [by apply Hk|done].
Qed.

(** Taking a record out of the list by its key is taking it out by its element. *)
Lemma records_without k p key r : NoDup (k ++ (p, key) :: r).*2 → (∀ x, x ∈ k ++ (p, key) :: r → r_key (recs x.1) = x.2) →
  List.filter (λ x, negb (bool_decide (r_key x = r_key (recs p)))) (records (k ++ (p, key) :: r)) = records (k ++ r).
Proof.
  intros Hnd Hk. assert (Hp : r_key (recs p) = key) by (apply (Hk (p, key)); rewrite elem_of_app, elem_of_cons; auto).
  assert (Hne : ∀ l, (∀ x, x ∈ l → x.2 ≠ key ∧ r_key (recs x.1) = x.2) → List.filter (λ x, negb (bool_decide (r_key x = key))) (records l) = records l).
  { induction l as [|x l IH]; intros H; [done|]. rewrite fmap_cons. cbn [List.filter]. destruct (H x) as [Hx E]; [by left|].
    rewrite E, bool_decide_eq_false_2 by done. cbn [negb]. f_equal. apply IH. intros y Hy. apply H. by right. }
  rewrite fmap_app, fmap_cons in Hnd. cbn [snd] in Hnd. apply NoDup_app in Hnd as (_ & Hd & [Hn _]%NoDup_cons).
  rewrite Hp, fmap_app, fmap_cons, List.filter_app. cbn [List.filter fst]. rewrite Hp, bool_decide_eq_true_2 by done. cbn [negb].
  rewrite !Hne, fmap_app; [done|intros x Hx; split|intros x Hx; split].
  - intros E. apply Hn. rewrite <- E. by apply list_elem_of_fmap_2.
  - apply Hk. rewrite elem_of_app, elem_of_cons. auto.
  - intros E. apply (Hd x.2); [by apply list_elem_of_fmap_2|]. rewrite E. by left.
  - apply Hk. rewrite elem_of_app. auto.
Qed.

(** [HASH_DEL] *)
Lemma del_tracked h k p key r s : tracked h (k ++ (p, key) :: r) s →
  wp (HASH_DELETE h p) (λ h', swp (HASH_DEL (recs p)) s (λ _ s', tracked h' (k ++ r) s')).
Proof.
  intros [Hm Hr Hk]. pose proof Hm as [Hrep Hnd _]. rewrite fmap_app, fmap_cons in Hrep. cbn [fst] in Hrep.
  pose proof (rp_nodup _ _ Hrep) as Hnd1. eapply wp_mono; [by apply delete_ok|]. intros h' (Hrep' & Hs & _).
  assert (Hf : List.filter (λ x : nat * bytes, other p x.1) (k ++ (p, key) :: r) = k ++ r).
  { assert (Hp : ∀ l, p ∉ l.*1 → List.filter (λ x : nat * bytes, other p x.1) l = l).
    { induction l as [|x l IH]; [done|]. rewrite fmap_cons, not_elem_of_cons. intros [Hx Hl]. cbn [List.filter]. unfold other at 1.
      rewrite bool_decide_eq_false_2 by (by intros E; rewrite E in Hx). cbn [negb]. by rewrite IH. }
    apply NoDup_app in Hnd1 as (_ & Hd & [Hn _]%NoDup_cons). rewrite List.filter_app. cbn [List.filter fst]. unfold other at 2.
    rewrite bool_decide_eq_true_2 by done. cbn [negb]. rewrite !Hp; [done|done|]. intros Hx. apply (Hd p Hx). by left. }
  unfold HASH_DEL, set_conntrack. repeat sstep. split.
  - rewrite <- Hf. apply (models_filter h); [done| |done]. rewrite Hf. by rewrite fmap_app.
  - cbn. rewrite Hr. by apply (records_without k p key r).
  - intros x Hx. apply Hk. rewrite elem_of_app in *. rewrite elem_of_cons. tauto.
Qed.

(** [HASH_ITER] in a clean-up *)
Definition old (interval last : Z) (p : nat) : bool := interval <=? last - r_time (recs p).

Lemma clean_list interval last k r s : NoDup (k ++ r).*2 → (∀ x, x ∈ k ++ r → r_key (recs x.1) = x.2) → tk_conntrack s = records (k ++ r) →
  swp (clean_records interval last (records r)) s (λ _ s',
    tk_conntrack s' = records (k ++ List.filter (λ x : nat * bytes, negb (old interval last x.1)) r)).
Proof.
  revert k s. induction r as [|[p key] r IH]; intros k s Hnd Hk Hs; [by apply swp_skip|]. rewrite fmap_cons. cbn [clean_records fst List.filter].
  sstep. unfold clean_record, old at 1. destruct (interval <=? last - r_time (recs p)) eqn:E; cbn [negb].
  - unfold HASH_DEL, set_conntrack. repeat sstep. rewrite Hs, (records_without k p key r Hnd Hk). apply (IH k); [|intros x Hx; apply Hk|done].
    + rewrite fmap_app, fmap_cons in Hnd. rewrite fmap_app. by apply (nodup_without _ _ key).
    + rewrite elem_of_app in *. rewrite elem_of_cons. tauto.
  - sstep. eapply swp_mono; [apply (IH (k ++ [(p, key)])); rewrite <- app_assoc; cbn [app]; [exact Hnd|exact Hk|exact Hs]|].
    cbv beta. intros _ s' ->. by rewrite <- app_assoc.
Qed.
Lemma clean_tracked interval last h l s : tracked h l s →
  wp (HASH_ITER (clean_up (old interval last)) h) (λ h', swp (clean_records interval last (tk_conntrack s)) s (λ _ s',
    tracked h' (List.filter (λ x : nat * bytes, negb (old interval last x.1)) l) s')).
Proof.
  intros [Hm Hr Hk]. eapply wp_mono; [by apply iter_ok, Hm|]. intros h' (Hrep & Hs & _).
  rewrite Hr. eapply swp_mono; [apply (clean_list interval last [] l s); [apply Hm|exact Hk|exact Hr]|]. cbv beta. intros _ s' Hs'. split.
  - apply (models_filter h); [done| |done]. by rewrite (fst_filter (λ q, negb (old interval last q))).
  - exact Hs'.
  - intros x Hx. apply list_elem_of_In, List.filter_In in Hx as [Hx _]. by apply Hk, list_elem_of_In.
Qed.
End tables.

(** The list of hosts: the keys of the elements. *)
Lemma hosts_tracked mem h l p host : mem < bucket_size * 2 ^ 32 → models h l → blen host < 2 ^ 32 → (p < length (u_items h))%nat → p ∉ l.*1 →
  ∃ o, HASH_FIND h host = Ok o ∧ check_get_hostname (l.*2) host = bool_decide (is_Some o) ∧
    (o = None → wp (HASH_ADD_KEYPTR mem h host p) (λ r, match r with
      | Some h' => add_hostname (l.*2) host = (true, (l ++ [(p, host)]).*2) ∧ models h' (l ++ [(p, host)])
      | None => True end)).
Proof.
  intros Hmem Hm Hhost Hp Hnp. eexists. split; [by apply find_models|]. unfold add_hostname, check_get_hostname.
  destruct (List.find _ l) as [x|] eqn:Ef; cbn [fmap option_fmap option_map].
  - apply List.find_some in Ef as [Hx Ex]. apply list_elem_of_In in Hx. apply bool_decide_eq_true in Ex. split; [|done].
    rewrite !bool_decide_eq_true_2; [done|by eexists|]. rewrite <- Ex. by apply list_elem_of_fmap_2.
  - assert (Hn : host ∉ l.*2).
    { intros (y & -> & Hy)%list_elem_of_fmap. apply list_elem_of_In in Hy. pose proof (List.find_none _ _ Ef y Hy) as H. cbn in H.
      by rewrite bool_decide_eq_true_2 in H. }
    rewrite (bool_decide_eq_false_2 (host ∈ _)) by done. split; [by rewrite bool_decide_eq_false_2 by (by intros [])|]. intros _.
    pose proof (op_ok mem Hmem h l (OAdd p host) Hm) as H. cbn [run_op valid_op spec_op] in H. specialize (H ltac:(done)). apply wp_bind in H.
    eapply wp_mono; [exact H|]. intros [h'|] H'; [|done]. cbn in H'. destruct H' as (_ & Hm' & _). split; [by rewrite fmap_app|done].
Qed.
