(* ===== verification/GdFake.v ===== *)
(** GoodbyeDPI's packets and its decoys: the headers of windivert.h, the calls of the WinDivert
    library, and fakepackets.c, the packets that are sent in front of the real ones and that
    the server drops.

    A packet is a buffer of [MAX_PACKET_SIZE] bytes of which the first [packetLen] are the
    packet; a pointer to a header is an offset.  What the library does is a parameter:
    [parse] is [WinDivertHelperParsePacket] and [calc] is [WinDivertHelperCalcChecksums], on
    the bytes of a packet.  [WinDivertSend] adds what it is given to a log. *)
From Stdlib Require Import ZArith Lia Ascii String.
From stdpp Require Import base numbers list option.
From S2P Require Import Prelude CMem PacketsTls GdTrack.

#[local] Open Scope Z_scope.
#[local] Open Scope list_scope.

Definition MAX_PACKET_SIZE : Z := 9016.

(** * The WinDivert library *)

(** [WINDIVERT_ADDRESS], with what the program never looks at in one field. *)
Record address := Address {
  a_Outbound : bool; a_IPChecksum : bool; a_TCPChecksum : bool; a_rest : Z }.

(** What [WinDivertHelperParsePacket] returns through its pointers: the offsets of the
    headers and of the data, [None] for [NULL], and the length of the data. *)
Record parsed := Parsed {
  ppIpHdr : option Z; ppIpV6Hdr : option Z; ppTcpHdr : option Z; ppUdpHdr : option Z;
  packet_data : option Z; packet_dataLen : Z }.

(** The fields of [WINDIVERT_IPHDR], [WINDIVERT_IPV6HDR], [WINDIVERT_TCPHDR] and
    [WINDIVERT_UDPHDR], as offsets into the header. *)
Definition ip_Length : Z := 2.
Definition ip_TTL : Z := 8.
Definition ip_SrcAddr : Z := 12.
Definition ip_DstAddr : Z := 16.
Definition ipv6_Length : Z := 4.
Definition ipv6_HopLimit : Z := 7.
Definition ipv6_SrcAddr : Z := 8.
Definition ipv6_DstAddr : Z := 24.
Definition tcp_SrcPort : Z := 0.
Definition tcp_DstPort : Z := 2.
Definition tcp_SeqNum : Z := 4.
Definition tcp_AckNum : Z := 8.
Definition tcp_Window : Z := 14.
Definition tcp_Checksum : Z := 16.
Definition udp_SrcPort : Z := 0.
Definition udp_DstPort : Z := 2.

(** A pointer that is followed. *)
Definition ptr {A} (p : option A) : comp A := match p with Some x => Ok x | None => Fail OutOfBounds end.

(** [x = htons(v)] for a 16-bit field, [ntohl(x)] and [x = htonl(v)] for a 32-bit one. *)
Definition htons_at (b : bytes) (i v : Z) : comp bytes := store b i (enc16 (u16 v)).
Definition enc32 (v : Z) : bytes := enc16 (u32 v / 2 ^ 16) ++ enc16 (u32 v mod 2 ^ 16).
Definition ntohl_at (b : bytes) (i : Z) : comp Z := h ← ntohs_at b i; l ← ntohs_at b (i + 2); Ok (65536 * h + l).
Definition htonl_at (b : bytes) (i v : Z) : comp bytes := store b i (enc32 v).

(** [WinDivertSend]: the packet and its address. *)
Abbreviation sent := (bytes * address)%type.
Definition WinDivertSend (packet : bytes) (packetLen : Z) (addr : address) : ST (list sent) unit :=
  p ← lift (rds packet 0 packetLen); modify (λ l, l ++ [(p, addr)]).

(** * fakepackets.c *)

(** [struct fake_t] *)
Record fake_t := Fake { f_data : bytes; f_size : Z }.

(** [fakes], [fakes_count] *)
Record fake_table := FakeTable { fakes : list (option fake_t); fakes_count : Z }.
Definition no_fakes : fake_table := FakeTable (repeat None 30) 0.

Definition crlf : bytes := [13; 10].
(** With the zero at its end. *)
Definition fake_http_request : bytes :=
  bs "GET / HTTP/1.1" ++ crlf ++ bs "Host: www.w3.org" ++ crlf ++ bs "User-Agent: curl/7.65.3" ++ crlf ++
  bs "Accept: */*" ++ crlf ++ bs "Accept-Encoding: deflate, gzip, br" ++ crlf ++ crlf ++ [0].

(** A ClientHello for www.w3.org. *)
Definition fake_https_request : bytes :=
  [22; 3; 1; 2; 0; 1; 0; 1; 252; 3; 3; 154; 143; 167; 106; 93; 87; 243; 98; 25; 190; 70; 130;
  69; 226; 89; 92; 180; 72; 49; 18; 21; 20; 121; 44; 170; 205; 234; 218; 240; 225; 253; 187;
  32; 244; 131; 42; 148; 241; 72; 59; 157; 182; 116; 186; 60; 129; 99; 188; 24; 204; 20; 69;
  87; 108; 128; 249; 37; 207; 156; 134; 96; 80; 49; 46; 233; 0; 34; 19; 1; 19; 3; 19; 2; 192;
  43; 192; 47; 204; 169; 204; 168; 192; 44; 192; 48; 192; 10; 192; 9; 192; 19; 192; 20; 0; 51;
  0; 57; 0; 47; 0; 53; 1; 0; 1; 145; 0; 0; 0; 15; 0; 13; 0; 0; 10; 119; 119; 119; 46; 119; 51;
  46; 111; 114; 103; 0; 23; 0; 0; 255; 1; 0; 1; 0; 0; 10; 0; 14; 0; 12; 0; 29; 0; 23; 0; 24;
  0; 25; 1; 0; 1; 1; 0; 11; 0; 2; 1; 0; 0; 35; 0; 0; 0; 16; 0; 14; 0; 12; 2; 104; 50; 8; 104;
  116; 116; 112; 47; 49; 46; 49; 0; 5; 0; 5; 1; 0; 0; 0; 0; 0; 51; 0; 107; 0; 105; 0; 29; 0;
  32; 176; 228; 218; 52; 180; 41; 141; 211; 92; 112; 211; 190; 232; 167; 42; 107; 228; 17; 25;
  139; 24; 157; 131; 154; 73; 124; 131; 127; 169; 3; 140; 60; 0; 23; 0; 65; 4; 76; 4; 164;
  113; 76; 73; 117; 85; 209; 24; 30; 34; 98; 25; 83; 0; 222; 116; 47; 179; 222; 19; 84; 230;
  120; 7; 148; 85; 14; 178; 108; 176; 3; 238; 121; 169; 150; 30; 14; 152; 23; 120; 36; 68; 12;
  136; 128; 6; 139; 212; 128; 191; 103; 124; 55; 106; 91; 70; 76; 167; 152; 111; 185; 34; 0;
  43; 0; 9; 8; 3; 4; 3; 3; 3; 2; 3; 1; 0; 13; 0; 24; 0; 22; 4; 3; 5; 3; 6; 3; 8; 4; 8; 5; 8;
  6; 4; 1; 5; 1; 6; 1; 2; 3; 2; 1; 0; 45; 0; 2; 1; 1; 0; 28; 0; 2; 64; 1; 0; 21; 0; 150; 0; 0;
  0; 0; 0; 0; 0; 0; 0; 0; 0; 0; 0; 0; 0; 0; 0; 0; 0; 0; 0; 0; 0; 0; 0; 0; 0; 0; 0; 0; 0; 0; 0;
  0; 0; 0; 0; 0; 0; 0; 0; 0; 0; 0; 0; 0; 0; 0; 0; 0; 0; 0; 0; 0; 0; 0; 0; 0; 0; 0; 0; 0; 0; 0;
  0; 0; 0; 0; 0; 0; 0; 0; 0; 0; 0; 0; 0; 0; 0; 0; 0; 0; 0; 0; 0; 0; 0; 0; 0; 0; 0; 0; 0; 0; 0;
  0; 0; 0; 0; 0; 0; 0; 0; 0; 0; 0; 0; 0; 0; 0; 0; 0; 0; 0; 0; 0; 0; 0; 0; 0; 0; 0; 0; 0; 0; 0;
  0; 0; 0; 0; 0; 0; 0; 0; 0; 0; 0; 0; 0; 0; 0; 0; 0; 0; 0; 0; 0; 0; 0; 0].

(** The hello up to the length of its extensions. *)
Definition fake_clienthello_part0 : bytes :=
  [22; 3; 1; 221; 221; 1; 0; 221; 221; 3; 3; 170; 170; 170; 170; 170; 170; 170; 170; 170; 170;
  170; 170; 170; 170; 170; 170; 170; 170; 170; 170; 170; 170; 170; 170; 170; 170; 170; 170;
  170; 170; 170; 170; 32; 170; 170; 170; 170; 170; 170; 170; 170; 170; 170; 170; 170; 170;
  170; 170; 170; 170; 170; 170; 170; 170; 170; 170; 170; 170; 170; 170; 170; 170; 170; 170;
  170; 0; 34; 19; 1; 19; 3; 19; 2; 192; 43; 192; 47; 204; 169; 204; 168; 192; 44; 192; 48;
  192; 10; 192; 9; 192; 19; 192; 20; 0; 156; 0; 157; 0; 47; 0; 53; 1; 0; 221; 221].

(** The extensions behind the name. *)
Definition fake_clienthello_part1 : bytes :=
  [0; 23; 0; 0; 255; 1; 0; 1; 0; 0; 10; 0; 14; 0; 12; 0; 29; 0; 23; 0; 24; 0; 25; 1; 0; 1; 1;
  0; 11; 0; 2; 1; 0; 0; 35; 0; 0; 0; 16; 0; 14; 0; 12; 2; 104; 50; 8; 104; 116; 116; 112; 47;
  49; 46; 49; 0; 5; 0; 5; 1; 0; 0; 0; 0; 0; 34; 0; 10; 0; 8; 4; 3; 5; 3; 6; 3; 2; 3; 0; 51; 0;
  107; 0; 105; 0; 29; 0; 32; 170; 170; 170; 170; 170; 170; 170; 170; 170; 170; 170; 170; 170;
  170; 170; 170; 170; 170; 170; 170; 170; 170; 170; 170; 170; 170; 170; 170; 170; 170; 170;
  170; 0; 23; 0; 65; 4; 170; 170; 170; 170; 170; 170; 170; 170; 170; 170; 170; 170; 170; 170;
  170; 170; 170; 170; 170; 170; 170; 170; 170; 170; 170; 170; 170; 170; 170; 170; 170; 170;
  170; 170; 170; 170; 170; 170; 170; 170; 170; 170; 170; 170; 170; 170; 170; 170; 170; 170;
  170; 170; 170; 170; 170; 170; 170; 170; 170; 170; 170; 170; 170; 170; 0; 43; 0; 5; 4; 3; 4;
  3; 3; 0; 13; 0; 24; 0; 22; 4; 3; 5; 3; 6; 3; 8; 4; 8; 5; 8; 6; 4; 1; 5; 1; 6; 1; 2; 3; 2; 1;
  0; 45; 0; 2; 1; 1; 0; 28; 0; 2; 64; 1; 254; 13; 1; 25; 0; 0; 1; 0; 1; 170; 0; 32; 170; 170;
  170; 170; 170; 170; 170; 170; 170; 170; 170; 170; 170; 170; 170; 170; 170; 170; 170; 170;
  170; 170; 170; 170; 170; 170; 170; 170; 170; 170; 170; 170; 0; 239; 170; 170; 170; 170; 170;
  170; 170; 170; 170; 170; 170; 170; 170; 170; 170; 170; 170; 170; 170; 170; 170; 170; 170;
  170; 170; 170; 170; 170; 170; 170; 170; 170; 170; 170; 170; 170; 170; 170; 170; 170; 170;
  170; 170; 170; 170; 170; 170; 170; 170; 170; 170; 170; 170; 170; 170; 170; 170; 170; 170;
  170; 170; 170; 170; 170; 170; 170; 170; 170; 170; 170; 170; 170; 170; 170; 170; 170; 170;
  170; 170; 170; 170; 170; 170; 170; 170; 170; 170; 170; 170; 170; 170; 170; 170; 170; 170;
  170; 170; 170; 170; 170; 170; 170; 170; 170; 170; 170; 170; 170; 170; 170; 170; 170; 170;
  170; 170; 170; 170; 170; 170; 170; 170; 170; 170; 170; 170; 170; 170; 170; 170; 170; 170;
  170; 170; 170; 170; 170; 170; 170; 170; 170; 170; 170; 170; 170; 170; 170; 170; 170; 170;
  170; 170; 170; 170; 170; 170; 170; 170; 170; 170; 170; 170; 170; 170; 170; 170; 170; 170;
  170; 170; 170; 170; 170; 170; 170; 170; 170; 170; 170; 170; 170; 170; 170; 170; 170; 170;
  170; 170; 170; 170; 170; 170; 170; 170; 170; 170; 170; 170; 170; 170; 170; 170; 170; 170;
  170; 170; 170; 170; 170; 170; 170; 170; 170; 170; 170; 170; 170; 170; 170; 170; 170; 170;
  170; 170; 170; 170; 170; 170; 170; 170; 170; 170; 170; 170; 170; 170; 170; 170; 170; 170].

(** ** Loading *)

(** The loop of [fake_add] from slot [k] on; [n] slots are left to look at. *)
Fixpoint add_loop (fake : fake_t) (t : fake_table) (k : Z) (n : nat) : comp (Z * fake_table) :=
  match n with
  | O => Ok (3, t)
  | S n =>
      f ← geti (fakes t) k;
      match f with
      | None => Ok (0, FakeTable (<[Z.to_nat k := Some fake]> (fakes t)) (fakes_count t + 1))
      | Some _ => add_loop fake t (k + 1) n
      end
  end.
(** [k <= sizeof(fakes) / sizeof( *fakes)] *)
Definition fake_add (data : bytes) (size : Z) (t : fake_table) : comp (Z * fake_table) :=
  add_loop (Fake data size) t 0 31.

(** The value of a hexadecimal digit. *)
Definition hex_char (curchar : Z) : option Z :=
  if (ch "0" <=? curchar) && (curchar <=? ch "9") then Some (curchar - ch "0")
  else if (ch "a" <=? curchar) && (curchar <=? ch "f") then Some (curchar - (ch "a" - 10))
  else if (ch "A" <=? curchar) && (curchar <=? ch "F") then Some (curchar - (ch "A" - 10))
  else None.

(** One round: two digits into one byte; [None] for a character that is no digit. *)
Definition hex_body (data : bytes) (len : Z) (x : Z * bytes) : comp (Z * bytes + option bytes) :=
  let '(i, finaldata) := x in
  if i <? len - 1 then
    num1 ← rd data i; num2 ← rd data (i + 1);
    match hex_char num1, hex_char num2 with
    | Some num1, Some num2 =>
        finaldata ← wr finaldata (i / 2) (Z.lor (Z.shiftl num1 4) num2); Ok (inl (i + 2, finaldata))
    | _, _ => Ok (inr None)
    end
  else Ok (inr (Some finaldata)).

(** [data] is the string without its zero. *)
Definition fake_load_from_hex (data : bytes) (t : fake_table) : comp (Z * fake_table) :=
  let len := blen data in
  if (len <? 2) || negb (len mod 2 =? 0) || (1420 * 2 <? len) then Ok (1, t) else
  r ← loop (hex_body data len) (S (length data)) (0, repeat 0 (Z.to_nat ((len + 2) / 2)));
  match r with Some finaldata => fake_add finaldata (len / 2) t | None => Ok (2, t) end.

(** [rand_s k] is what the [k]-th call of the function stores, [None] when it fails. *)
Section random.
Context (rand_s : nat → option Z).

(** Stores the value of call [k] in [v]. *)
Definition rand_to (k : nat) (v : Z) : Z := match rand_s k with Some r => u32 r | None => v end.

(** [n] random bytes; [random] is the variable of that name. *)
Fixpoint random_bytes (n : nat) (random : Z) (k : nat) : bytes * Z * nat :=
  match n with
  | O => ([], random, k)
  | S n => let random := rand_to k random in
           let '(l, random', k') := random_bytes n random (S k) in (u8 (random mod 255) :: l, random', k')
  end.

Fixpoint load_random (count : nat) (maxsize random : Z) (k : nat) (t : fake_table) : comp (Z * fake_table * nat) :=
  match count with
  | O => Ok (0, t, k)
  | S count =>
      match rand_s k with
      | None => Ok (1, t, S k)
      | Some len =>
          if maxsize =? 0 then Fail DivByZero else
          let len := u32 (8 + u32 len mod maxsize) in
          let '(data, random, k) := random_bytes (Z.to_nat len) random (S k) in
          '(r, t) ← fake_add data len t;
          if negb (r =? 0) then Ok (2, t, k) else load_random count maxsize random k t
      end
  end.

Definition fake_load_random (count maxsize : Z) (k : nat) (t : fake_table) : comp (Z * fake_table * nat) :=
  if (count <? 1) || (30 <? count) then Ok (1, t, k) else load_random (Z.to_nat count) maxsize 0 k t.

Definition set_uint16be (buffer : bytes) (offset value : Z) : comp bytes :=
  buffer ← wr buffer offset (Z.land (Z.shiftr value 8) 255); wr buffer (offset + 1) (Z.land value 255).

(** The loop that replaces the placeholders. *)
Fixpoint randomize (packet : bytes) (random : Z) (k : nat) : bytes * Z * nat :=
  match packet with
  | [] => ([], random, k)
  | c :: packet =>
      let '(c, random, k) := if c =? 170 then let random := rand_to k random in (Z.land random 255, random, S k)
                             else (c, random, k) in
      let '(packet, random, k) := randomize packet random k in (c :: packet, random, k)
  end.

(** The packet of [fake_load_from_sni], with what [malloc] left where the name goes. *)
Definition sni_packet (junk : Z → bytes) (domain_name : bytes) (k : nat) : comp (bytes * nat) :=
  let name_size := blen domain_name in
  let part0_size := blen fake_clienthello_part0 in
  let part1_size := blen fake_clienthello_part1 in
  let sni_head_size := 9 in
  let packet_size := part0_size + part1_size + sni_head_size + name_size in
  let packet := junk packet_size in
  packet ← memcpy packet 0 fake_clienthello_part0 0 part0_size;
  packet ← memcpy packet (part0_size + sni_head_size + name_size) fake_clienthello_part1 0 part1_size;
  let '(packet, _, k) := randomize packet 0 k in
  packet ← set_uint16be packet 3 (packet_size - 5);
  packet ← set_uint16be packet 7 (packet_size - 9);
  packet ← set_uint16be packet 114 (packet_size - 116);
  packet ← set_uint16be packet (part0_size + 0) 0;
  packet ← set_uint16be packet (part0_size + 2) (name_size + 5);
  packet ← set_uint16be packet (part0_size + 4) (name_size + 3);
  packet ← wr packet (part0_size + 6) 0;
  packet ← set_uint16be packet (part0_size + 7) name_size;
  packet ← memcpy packet (part0_size + sni_head_size) domain_name 0 name_size;
  Ok (packet, k).

(** [None] for [NULL]. *)
Definition fake_load_from_sni (junk : Z → bytes) (domain_name : option bytes) (k : nat) (t : fake_table) :
    comp (Z * fake_table * nat) :=
  match domain_name with
  | None => Ok (1, t, k)
  | Some domain_name =>
      '(packet, k) ← sni_packet junk domain_name k;
      '(r, t) ← fake_add packet (blen packet) t; Ok (r, t, k)
  end.
End random.

(** ** Sending *)

Section send.
Context (parse : bytes → option parsed) (calc : bytes → address → bytes * address) (junk : Z → bytes).
Abbreviation M := (ST (list sent)).

(** [WinDivertHelperParsePacket], [WinDivertHelperCalcChecksums] on a buffer. *)
Definition parse_packet (packet : bytes) (packetLen : Z) : comp (option parsed) :=
  p ← rds packet 0 packetLen; Ok (parse p).
Definition calc_checksums (packet : bytes) (packetLen : Z) (addr : address) : comp (bytes * address) :=
  p ← rds packet 0 packetLen;
  let '(p, addr) := calc p addr in packet ← store packet 0 p; Ok (packet, addr).

(** The headers, rewritten for the size of the decoy. *)
Definition fake_headers (packet_fake : bytes) (p : parsed) (fake_request_size : Z) (is_ipv6 : bool) (set_ttl : Z)
    (set_seq : bool) : comp bytes :=
  let relen packet i :=
    n ← ntohs_at packet i; htons_at packet i (n - packet_dataLen p + fake_request_size) in
  b ← (if negb is_ipv6 then
      ip ← ptr (ppIpHdr p);
      b ← relen packet_fake (ip + ip_Length);
      if negb (set_ttl =? 0) then wr b (ip + ip_TTL) set_ttl else Ok b
    else
      ip ← ptr (ppIpV6Hdr p);
      b ← relen packet_fake (ip + ipv6_Length);
      if negb (set_ttl =? 0) then wr b (ip + ipv6_HopLimit) set_ttl else Ok b);
  if set_seq then
    tcp ← ptr (ppTcpHdr p);
    a ← ntohl_at b (tcp + tcp_AckNum); b ← htonl_at b (tcp + tcp_AckNum) (a - 66000);
    s ← ntohl_at b (tcp + tcp_SeqNum); htonl_at b (tcp + tcp_SeqNum) (s - 10000)
  else Ok b.

Definition send_fake_data (addr : address) (pkt : bytes) (packetLen : Z) (is_ipv6 is_https : bool)
    (set_ttl : Z) (set_checksum set_seq : bool) (fake_data : option fake_t) : M Z :=
  let '(fake_request_data, fake_request_size) :=
    match fake_data with
    | Some f => (f_data f, f_size f)
    | None => if is_https then (fake_https_request, blen fake_https_request)
              else (fake_http_request, blen fake_http_request - 1)
    end in
  packet_fake ← lift (memcpy (junk MAX_PACKET_SIZE) 0 pkt 0 packetLen);
  let addr_new := Address (a_Outbound addr) false false (a_rest addr) in
  r ← lift (parse_packet packet_fake packetLen);
  match r with
  | None => mret 1
  | Some p =>
      if MAX_PACKET_SIZE <? packetLen + fake_request_size + 1 then mret 2 else
      data ← lift (ptr (packet_data p));
      packet_fake ← lift (memcpy packet_fake data fake_request_data 0 fake_request_size);
      let packetLen_new := packetLen - packet_dataLen p + fake_request_size in
      packet_fake ← lift (fake_headers packet_fake p fake_request_size is_ipv6 set_ttl set_seq);
      '(packet_fake, addr_new) ← lift (calc_checksums packet_fake packetLen_new addr_new);
      packet_fake ← lift (if set_checksum then
          tcp ← ptr (ppTcpHdr p);
          c ← ntohs_at packet_fake (tcp + tcp_Checksum); htons_at packet_fake (tcp + tcp_Checksum) (c - 1)
        else Ok packet_fake);
      WinDivertSend packet_fake packetLen_new addr_new;;
      mret 0
  end.

Definition send_fake_request (addr : address) (pkt : bytes) (packetLen : Z) (is_ipv6 is_https : bool)
    (set_ttl : Z) (set_checksum set_seq : bool) (fake_data : option fake_t) : M Z :=
  (if negb (set_ttl =? 0) then
    send_fake_data addr pkt packetLen is_ipv6 is_https set_ttl false false fake_data;; skip else skip);;
  (if set_checksum then
    send_fake_data addr pkt packetLen is_ipv6 is_https 0 set_checksum false fake_data;; skip else skip);;
  (if set_seq then
    send_fake_data addr pkt packetLen is_ipv6 is_https 0 false set_seq fake_data;; skip else skip);;
  mret 0.

(** The inner loop, [n] rounds of it; the result is what [ret] grows by. *)
Fixpoint resend_loop (send : M Z) (n : nat) (ret : Z) : M Z :=
  match n with
  | O => mret ret
  | S n => r ← send; resend_loop send n (if negb (r =? 0) then ret + 1 else ret)
  end.

(** The outer loop from slot [i] on, [n] rounds of it. *)
Fixpoint fakes_loop (t : fake_table) (send : option fake_t → M Z) (fakes_resend i : Z) (n : nat) (ret : Z) : M Z :=
  match n with
  | O => mret ret
  | S n =>
      f ← lift (geti (fakes t) i);
      ret ← resend_loop (send f) (Z.to_nat fakes_resend) ret;
      fakes_loop t send fakes_resend (i + 1) n ret
  end.

(** [i < fakes_count || i == 0] *)
Definition fake_rounds (t : fake_table) : nat := Z.to_nat (Z.max 1 (fakes_count t)).

Definition send_fake_http_request (t : fake_table) (fakes_resend : Z) (addr : address) (pkt : bytes) (packetLen : Z)
    (is_ipv6 : bool) (set_ttl : Z) (set_checksum set_seq : bool) : M Z :=
  fakes_loop t (send_fake_request addr pkt packetLen is_ipv6 false set_ttl set_checksum set_seq) fakes_resend 0
    (fake_rounds t) 0.

Definition send_fake_https_request (t : fake_table) (fakes_resend : Z) (addr : address) (pkt : bytes) (packetLen : Z)
    (is_ipv6 : bool) (set_ttl : Z) (set_checksum set_seq : bool) : M Z :=
  fakes_loop t (send_fake_request addr pkt packetLen is_ipv6 true set_ttl set_checksum set_seq) fakes_resend 0
    (fake_rounds t) 0.
End send.

(** * Loading *)

(** The decoys [l] were loaded, in this order. *)
Definition loaded (t : fake_table) (l : list fake_t) : Prop :=
  fakes t = (Some <$> l) ++ repeat None (30 - length l) ∧ (length l <= 30)%nat ∧ fakes_count t = Z.of_nat (length l).

Lemma loaded_none : loaded no_fakes [].
Proof. split_and!; [done|cbn; lia|done]. Qed.

Lemma add_loop_ok f t l n k : loaded t l → (length l < 30)%nat → 0 <= k <= Z.of_nat (length l) →
  (Z.to_nat (Z.of_nat (length l) - k) < n)%nat →
  ∃ t', add_loop f t k n = Ok (0, t') ∧ loaded t' (l ++ [f]).
Proof.
  intros (Hf & Hl & Hc) Hlt. revert k. induction n as [|n IH]; intros k Hk Hn; [lia|]. cbn [add_loop].
  destruct (decide (k = Z.of_nat (length l))) as [->|Hne].
  - assert (E : geti (fakes t) (Z.of_nat (length l)) = Ok None).
    { apply wp_eq, (wp_geti _ _ None); [lia| |done]. rewrite Nat2Z.id, Hf, lookup_app_r by (rewrite length_fmap; lia).
      rewrite length_fmap, Nat.sub_diag. destruct (30 - length l)%nat eqn:E; [lia|done]. }
    rewrite E, bind_ok. eexists. split; [done|]. split_and!; cbn; rewrite ?length_app; cbn; [|lia|lia].
    rewrite Hf, Nat2Z.id. rewrite insert_app_r_alt by (rewrite length_fmap; lia).
    rewrite length_fmap, Nat.sub_diag, fmap_app, <- app_assoc. f_equal.
    replace (30 - length l)%nat with (S (30 - (length l + 1))) by lia. done.
  - destruct (lookup_lt_is_Some_2 l (Z.to_nat k)) as [x Hx]; [lia|].
    assert (E : geti (fakes t) k = Ok (Some x)).
    { apply wp_eq, (wp_geti _ _ (Some x)); [lia| |done]. rewrite Hf, lookup_app_l by (rewrite length_fmap; lia).
      by rewrite list_lookup_fmap, Hx. }
    rewrite E, bind_ok. apply IH; lia.
Qed.

Lemma fake_add_ok d n t l : loaded t l → (length l < 30)%nat →
  ∃ t', fake_add d n t = Ok (0, t') ∧ loaded t' (l ++ [Fake d n]).
Proof. intros. apply (add_loop_ok _ t l); [done|done|lia|lia]. Qed.

(** A table that is full: the loop of [fake_add] reads beyond it. *)
Lemma fake_add_overruns d n t l : loaded t l → length l = 30%nat → fake_add d n t = Fail OutOfBounds.
Proof.
  intros (Hf & _ & _) Hl. rewrite Hl, app_nil_r in Hf. unfold fake_add.
  assert (H : ∀ m k, 0 <= k → Z.of_nat m + k = 31 → add_loop (Fake d n) t k m = Fail OutOfBounds ∨ m = O).
  { induction m as [|m IH]; intros k Hk Hm; [by right|]. left. cbn [add_loop]. unfold geti. rewrite Hf.
    destruct (Z.ltb_spec k 0); [lia|]. rewrite list_lookup_fmap.
    destruct (l !! Z.to_nat k) as [x|] eqn:E; cbn; [|done].
    destruct m as [|m]; [|by destruct (IH (k + 1)); [lia..| |]]. apply lookup_lt_Some in E. lia. }
  by destruct (H 31%nat 0).
Qed.

(** ** Hexadecimal *)

(** The bytes a string of digits stands for. *)
Fixpoint hex_decode (l : bytes) : option bytes :=
  match l with
  | a :: b :: l =>
      x ← hex_char a; y ← hex_char b; d ← hex_decode l; Some (Z.lor (Z.shiftl x 4) y :: d)
  | _ => Some []
  end.

Definition hex_digit (v : Z) : Z := if v <? 10 then ch "0" + v else ch "a" + (v - 10).
Definition hex_encode (d : bytes) : bytes := concat (map (λ c, [hex_digit (c / 16); hex_digit (c mod 16)]) d).

Lemma hex_char_range c v : hex_char c = Some v → 0 <= v < 16.
Proof.
  unfold hex_char. change (ch "0") with 48. change (ch "9") with 57. change (ch "a") with 97.
  change (ch "f") with 102. change (ch "A") with 65. change (ch "F") with 70.
  intros H. repeat case_match; simplify_eq; lia.
Qed.
Lemma hex_char_digit v : 0 <= v < 16 → hex_char (hex_digit v) = Some v.
Proof.
  intros H. unfold hex_digit, hex_char. change (ch "0") with 48. change (ch "9") with 57. change (ch "a") with 97.
  change (ch "f") with 102. change (ch "A") with 65. change (ch "F") with 70.
  repeat case_match; try lia; f_equal; lia.
Qed.
Lemma hex_pair x y : 0 <= x < 16 → 0 <= y < 16 → Z.lor (Z.shiftl x 4) y = 16 * x + y.
Proof.
  intros Hx Hy. rewrite Z.shiftl_mul_pow2 by lia. change (2 ^ 4) with 16.
  pose proof (Z.add_lor_land (x * 16) y).
  assert (E : Z.land (x * 16) y = 0).
  { apply Z.bits_inj'. intros i Hi. rewrite Z.land_spec, Z.bits_0. change 16 with (2 ^ 4).
    destruct (Z.lt_ge_cases i 4); [by rewrite Z.mul_pow2_bits_low by lia|].
    rewrite andb_comm. destruct (Z.eq_dec y 0) as [->|]; [by rewrite Z.bits_0|].
    rewrite (Z.bits_above_log2 y i); [done|lia|]. apply Z.lt_le_trans with 4; [|lia].
    apply Z.log2_lt_pow2; lia. }
  lia.
Qed.

Lemma hex_decode_encode d : bytes_wf d → hex_decode (hex_encode d) = Some d.
Proof.
  induction 1 as [|c d Hc Hd IH]; [done|]. unfold hex_encode. cbn [map concat app]. fold (hex_encode d).
  cbn [hex_decode]. unfold is_byte in Hc.
  assert (0 <= c / 16 < 16) by (split; [apply Z.div_pos|apply Z.div_lt_upper_bound]; lia).
  pose proof (Z.mod_pos_bound c 16 ltac:(lia)).
  rewrite !hex_char_digit by done. cbn [mbind option_bind]. rewrite IH. cbn [mbind option_bind].
  rewrite hex_pair by done. do 2 f_equal. rewrite (Z.div_mod c 16) at 3; lia.
Qed.
Lemma hex_encode_len d : blen (hex_encode d) = 2 * blen d.
Proof.
  induction d as [|c d IH]; [done|]. unfold hex_encode. cbn [map concat app]. fold (hex_encode d).
  rewrite !blen_cons, IH. lia.
Qed.
(** What the loop returns, for a string of even length. *)
Lemma hex_loop_ok data pre rest done_ fuel : data = pre ++ rest → blen done_ * 2 = blen pre → Z.even (blen rest) = true →
  (length rest < fuel)%nat →
  loop (hex_body data (blen data)) fuel (blen pre, done_ ++ repeat 0 (Z.to_nat (blen rest / 2 + 1))) =
  Ok (d ← hex_decode rest; Some (done_ ++ d ++ [0])).
Proof.
  intros -> Hd He. revert pre done_ fuel Hd He.
  assert (H : ∀ n rest pre done_ fuel, (length rest <= n)%nat → blen done_ * 2 = blen pre → Z.even (blen rest) = true →
    (length rest < fuel)%nat →
    loop (hex_body (pre ++ rest) (blen (pre ++ rest))) fuel (blen pre, done_ ++ repeat 0 (Z.to_nat (blen rest / 2 + 1))) =
    Ok (d ← hex_decode rest; Some (done_ ++ d ++ [0]))); [|intros; by apply (H (length rest))].
  induction n as [|n IH]; intros [|a rest'] pre done_ fuel Hn Hd He Hf; cbn [length] in Hn; try lia;
    (destruct fuel as [|fuel]; [lia|]); cbn [loop]; unfold hex_body at 2; rewrite blen_app.
  1, 2: rewrite blen_nil; destruct (Z.ltb_spec (blen pre) (blen pre + 0 - 1)); [lia|done].
  destruct rest' as [|b rest']; [done|]. rewrite !blen_cons. pose proof (blen_nonneg rest'). pose proof (blen_nonneg pre).
  destruct (Z.ltb_spec (blen pre) (blen pre + (blen rest' + 1 + 1) - 1)); [|lia].
  rewrite (rd_eq _ (blen pre)), (rd_eq _ (blen pre + 1)) by (rewrite blen_app, !blen_cons; lia).
  rewrite !bat_app by lia. destruct (Z.ltb_spec (blen pre) (blen pre)); [lia|].
  destruct (Z.ltb_spec (blen pre + 1) (blen pre)); [lia|]. rewrite Z.sub_diag.
  replace (blen pre + 1 - blen pre) with 1 by lia. change (bat (a :: b :: rest') 0) with a.
  change (bat (a :: b :: rest') 1) with b. rewrite !bind_ok. cbn [hex_decode].
  destruct (hex_char a) as [x|] eqn:Ea; cbn [mbind option_bind]; [|done].
  destruct (hex_char b) as [y|] eqn:Eb; cbn [mbind option_bind]; [|done].
  apply hex_char_range in Ea, Eb. rewrite hex_pair by done.
  assert (Hdiv : (blen rest' + 1 + 1) / 2 = blen rest' / 2 + 1).
  { replace (blen rest' + 1 + 1) with (blen rest' + 1 * 2) by lia. by rewrite Z.div_add by lia. }
  rewrite Hdiv. assert (Hpos : 0 <= blen rest' / 2) by (apply Z.div_pos; lia).
  replace (Z.to_nat (blen rest' / 2 + 1 + 1)) with (S (Z.to_nat (blen rest' / 2 + 1))) by lia. cbn [repeat].
  set (v := 16 * x + y). set (zs := repeat 0 _).
  assert (Hw : wr (done_ ++ 0 :: zs) (blen pre / 2) v = Ok ((done_ ++ [v]) ++ zs)).
  { apply wp_eq. apply wp_store; rewrite <- Hd, Z.div_mul by lia.
    - apply blen_nonneg.
    - rewrite blen_app, !blen_cons, blen_nil. pose proof (blen_nonneg zs). lia.
    - rewrite u8_small by (subst v; lia). rewrite <- app_assoc. cbn [app].
      apply (put_at done_ [0] zs [v] (blen done_)); done. }
  rewrite Hw, bind_ok. cbv beta iota.
  specialize (IH rest' (pre ++ [a; b]) (done_ ++ [v]) fuel). cbn [length] in Hn, Hf.
  rewrite <- (app_assoc pre) in IH. cbn [app] in IH. rewrite !blen_app, !blen_cons, !blen_nil in IH.
  rewrite !blen_cons in He. replace (blen pre + (0 + 1 + 1)) with (blen pre + 2) in IH by lia.
  unfold zs. rewrite bind_ok, IH.
  - destruct (hex_decode rest') as [d|]; cbn; [|done]. by rewrite <- app_assoc.
  - lia.
  - lia.
  - rewrite !Z.even_add in He. by destruct (Z.even (blen rest')).
  - lia.
Qed.

Lemma hex_decode_len l d : hex_decode l = Some d → Z.even (blen l) = true → blen l = 2 * blen d.
Proof.
  assert (H : ∀ n l d, (length l <= n)%nat → hex_decode l = Some d → Z.even (blen l) = true → blen l = 2 * blen d);
    [|by apply (H (length l))].
  induction n as [|n IH]; intros [|a [|b l']] d' Hn Hd He; cbn [length] in Hn; try lia; try done.
  1, 2: by injection Hd as <-.
  cbn [hex_decode] in Hd. destruct (hex_char a); [|done]. destruct (hex_char b); [|done]. cbn [mbind option_bind] in Hd.
  destruct (hex_decode l') as [d2|] eqn:E; [|done]. cbn in Hd. injection Hd as <-. rewrite !blen_cons in *.
  rewrite !Z.even_add in He. specialize (IH l' d2 ltac:(lia) E ltac:(by destruct (Z.even (blen l')))). lia.
Qed.

Lemma fake_load_from_hex_ok data t :
  fake_load_from_hex data t =
    if (blen data <? 2) || Z.odd (blen data) || (2840 <? blen data) then Ok (1, t) else
    match hex_decode data with Some d => fake_add (d ++ [0]) (blen d) t | None => Ok (2, t) end.
Proof.
  unfold fake_load_from_hex. rewrite Zmod_odd. change (1420 * 2) with 2840.
  destruct (Z.odd (blen data)) eqn:Eo; cbn [Z.eqb negb]; [by rewrite orb_true_r|].
  destruct (Z.ltb_spec (blen data) 2); [done|]. destruct (Z.ltb_spec 2840 (blen data)); [done|]. cbn [orb].
  assert (He : Z.even (blen data) = true) by (by rewrite <- Z.negb_odd, Eo).
  replace ((blen data + 2) / 2) with (blen data / 2 + 1).
  2: { replace (blen data + 2) with (blen data + 1 * 2) by lia. by rewrite Z.div_add by lia. }
  pose proof (hex_loop_ok data [] data [] (S (length data)) eq_refl eq_refl He ltac:(lia)) as E.
  cbn [app] in E. change (blen []) with 0 in E. rewrite E, bind_ok.
  destruct (hex_decode data) as [d|] eqn:Ed; cbn; [|done]. f_equal.
  rewrite (hex_decode_len data d Ed He). rewrite Z.mul_comm. by rewrite Z.div_mul by lia.
Qed.

(** ** The hello with a name *)

(** What the replacement of placeholders may make of a byte. *)
Definition random_of (c c' : Z) : Prop := if c =? 170 then is_byte c' else c' = c.
Abbreviation randomized := (Forall2 random_of).

Lemma randomize_ok rand_s l r k : randomized l (fst (fst (randomize rand_s l r k))).
Proof.
  revert r k. induction l as [|c l IH]; intros r k; [constructor|]. cbn [randomize].
  destruct (Z.eqb_spec c 170) as [->|Hc].
  - set (r' := rand_to _ _ _). specialize (IH r' (S k)). destruct (randomize _ _ _ _) as [[l' r2] k2]. cbn in *.
    constructor; [|done]. unfold random_of. cbn. unfold is_byte. change 255 with (Z.ones 8).
    rewrite Z.land_ones by lia. apply (Z.mod_pos_bound _ (2 ^ 8)). lia.
  - specialize (IH r k). destruct (randomize _ _ _ _) as [[l' r2] k2]. cbn in *. constructor; [|done].
    unfold random_of. destruct (Z.eqb_spec c 170); done.
Qed.

Lemma randomized_len l l' : randomized l l' → blen l' = blen l.
Proof. intros H. unfold blen. by rewrite (Forall2_length H). Qed.
Lemma randomized_fixed l l' : forallb (λ c, negb (c =? 170)) l = true → randomized l l' → l' = l.
Proof.
  intros Hf H. induction H as [|c c' l l' Hc H IH]; [done|]. cbn in Hf. apply andb_prop in Hf as [Hc' Hf].
  unfold random_of in Hc. destruct (c =? 170); [done|]. by rewrite Hc, IH.
Qed.
Lemma randomized_wf l l' : bytes_wf l → randomized l l' → bytes_wf l'.
Proof.
  intros Hw H. induction H as [|c c' l l' Hc H IH]; [done|]. apply list.Forall_cons in Hw as [Hb Hw].
  constructor; [|by apply IH]. unfold random_of in Hc. destruct (c =? 170); [done|by subst].
Qed.
Lemma randomized_app a b l : randomized (a ++ b) l → ∃ a' b', l = a' ++ b' ∧ randomized a a' ∧ randomized b b'.
Proof. intros H. apply Forall2_app_inv_l in H as (a' & b' & Ha & Hb & ->). by exists a', b'. Qed.

(** The extensions behind the name, as they are written in the source. *)
Fixpoint dec_exts (n : nat) (l : bytes) : list ext :=
  match n with
  | O => []
  | S n => match l with
           | [] => []
           | _ => (be16 l 0, sub l 4 (be16 l 2)) :: dec_exts n (drop (Z.to_nat (4 + be16 l 2)) l)
           end
  end.
Definition tail_exts : list ext := Eval vm_compute in dec_exts 20 fake_clienthello_part1.

Lemma tail_exts_enc : fake_clienthello_part1 = enc_exts tail_exts.
Proof. vm_compute. reflexivity. Qed.

Definition header_fixed (e : ext) : bool := forallb (λ c, negb (c =? 170)) (enc16 e.1 ++ enc16 (blen e.2)).

Lemma randomized_exts l m : forallb header_fixed l = true → randomized (enc_exts l) m →
  ∃ l', m = enc_exts l' ∧ Forall2 (λ e e' : ext, e'.1 = e.1 ∧ randomized e.2 e'.2) l l'.
Proof.
  revert m. induction l as [|[t d] l IH]; intros m Hf H.
  { apply Forall2_nil_inv_l in H as ->. exists []. by split. }
  cbn [forallb] in Hf. apply andb_prop in Hf as [Hh Hf]. cbn [enc_exts enc_ext fst snd] in H.
  unfold enc_ext in H. cbn [fst snd] in H. rewrite app_assoc in H.
  apply randomized_app in H as (m1 & m2 & -> & H1 & H2). apply randomized_app in H1 as (h & d' & -> & Hhd & Hd).
  apply randomized_fixed in Hhd; [|done]. subst h. destruct (IH m2 Hf H2) as (l' & -> & Hl').
  exists ((t, d') :: l'). split; [|by constructor]. cbn [enc_exts]. unfold enc_ext. cbn [fst snd].
  by rewrite (randomized_len _ _ Hd), <- !app_assoc.
Qed.

(** Writing over one of several pieces. *)
Lemma put_piece (segs : list bytes) i o l s : segs !! i = Some s → o = blen (concat (take i segs)) → blen s = blen l →
  put (concat segs) o l = concat (<[i := l]> segs).
Proof.
  intros Hi -> Hl. rewrite <- (take_drop_middle segs i s Hi) at 1.
  rewrite insert_take_drop by (by eapply lookup_lt_Some). rewrite !concat_app. cbn [concat].
  by apply put_at.
Qed.
Lemma concat_insert_len (segs : list bytes) i l s : segs !! i = Some s → blen s = blen l →
  blen (concat (<[i := l]> segs)) = blen (concat segs).
Proof.
  intros Hi Hl. rewrite <- (take_drop_middle segs i s Hi) at 2.
  rewrite insert_take_drop by (by eapply lookup_lt_Some). rewrite !concat_app. cbn [concat].
  rewrite !blen_app. lia.
Qed.

Lemma set_piece segs i o v s : segs !! i = Some s → o = blen (concat (take i segs)) → blen s = 2 →
  set_uint16be (concat segs) o v = Ok (concat (<[i := enc16 v]> segs)).
Proof.
  intros Hi Ho Hs. apply wp_eq. unfold set_uint16be, wr.
  assert (Hb : o + 2 <= blen (concat segs)).
  { rewrite <- (take_drop_middle segs i s Hi). rewrite concat_app, Ho. cbn [concat]. rewrite !blen_app.
    pose proof (blen_nonneg (concat (drop (S i) segs))). lia. }
  pose proof (blen_nonneg (concat (take i segs))).
  apply wp_bind, wp_store; [lia|change (blen [_]) with 1; lia|]. apply wp_store; [lia| |].
  { rewrite blen_put; [change (blen [_]) with 1; lia|lia|change (blen [_]) with 1; lia]. }
  rewrite put_put_adjacent by lia. rewrite <- (put_piece segs i o (enc16 v) s) by done.
  unfold enc16. f_equal. f_equal. unfold u8. change 255 with (Z.ones 8). rewrite Z.land_ones by lia.
  apply Zmod_mod.
Qed.
Lemma wr_piece segs i o v s : segs !! i = Some s → o = blen (concat (take i segs)) → blen s = 1 → is_byte v →
  wr (concat segs) o v = Ok (concat (<[i := [v]]> segs)).
Proof.
  intros Hi Ho Hs Hv. apply wp_eq. unfold wr. unfold is_byte in Hv. rewrite u8_small by lia.
  assert (Hb : o + 1 <= blen (concat segs)).
  { rewrite <- (take_drop_middle segs i s Hi). rewrite concat_app, Ho. cbn [concat]. rewrite !blen_app.
    pose proof (blen_nonneg (concat (drop (S i) segs))). lia. }
  pose proof (blen_nonneg (concat (take i segs))).
  apply wp_store; [lia|change (blen [_]) with 1; lia|]. by apply put_piece with s.
Qed.
Lemma memcpy_piece segs i o l s : segs !! i = Some s → o = blen (concat (take i segs)) → blen s = blen l →
  memcpy (concat segs) o l 0 (blen l) = Ok (concat (<[i := l]> segs)).
Proof.
  intros Hi Ho Hs. apply wp_eq. pose proof (blen_nonneg l). pose proof (blen_nonneg (concat (take i segs))).
  assert (Hb : o + blen l <= blen (concat segs)).
  { rewrite <- (take_drop_middle segs i s Hi). rewrite concat_app, Ho. cbn [concat]. rewrite !blen_app.
    pose proof (blen_nonneg (concat (drop (S i) segs))). lia. }
  apply wp_memcpy; [lia|lia|lia|lia|lia|]. rewrite sub_all. by apply put_piece with s.
Qed.

Lemma split_piece b n : 0 <= n <= blen b → ∃ x y, b = x ++ y ∧ blen x = n ∧ blen y = blen b - n.
Proof.
  intros H. destruct (split_at b n H) as (x & y & -> & Hx). exists x, y. split_and!; [done|done|].
  rewrite blen_app. lia.
Qed.

Definition part0_pieces : list bytes :=
  [[22; 3; 1]; [221; 221]; [1; 0]; [221; 221]; [3; 3]; repeat 170 32; [32]; repeat 170 32;
   [0; 34] ++ sub fake_clienthello_part0 78 34; [1; 0]; [221; 221]].
Lemma part0_split : fake_clienthello_part0 = concat part0_pieces.
Proof. vm_compute. reflexivity. Qed.

(** The pieces of a randomized part 0. *)
Lemma randomized_part0 m : randomized fake_clienthello_part0 m → ∃ rnd sid,
  m = concat [[22; 3; 1]; [221; 221]; [1; 0]; [221; 221]; [3; 3]; rnd; [32]; sid;
              [0; 34] ++ sub fake_clienthello_part0 78 34; [1; 0]; [221; 221]] ∧
  bytes_wf rnd ∧ blen rnd = 32 ∧ bytes_wf sid ∧ blen sid = 32.
Proof.
  rewrite part0_split. unfold part0_pieces. cbn [concat]. intros H.
  repeat match goal with H : randomized (_ ++ _) _ |- _ => apply randomized_app in H as (? & ? & -> & ? & H) end.
  apply Forall2_nil_inv_l in H as ->.
  assert (Hw : bytes_wf (repeat 170 32)).
  { apply Forall_forall. intros c Hc. apply repeat_spec in Hc || (apply list_elem_of_In, repeat_spec in Hc).
    subst. unfold is_byte. lia. }
  repeat match goal with
  | H : randomized (repeat _ _) _ |- _ =>
      pose proof (randomized_wf _ _ Hw H); pose proof (randomized_len _ _ H); clear H
  | H : randomized _ _ |- _ => apply randomized_fixed in H; [subst|vm_compute; reflexivity]
  end.
  eexists _, _. split; [reflexivity|]. done.
Qed.

Definition sni_hello (name rnd sid : bytes) (tail : list ext) : client_hello :=
  ClientHello 1 3 rnd sid (sub fake_clienthello_part0 78 34) ((0, sni_data name) :: tail).

Lemma tail_exts_wf : Forall ext_wf tail_exts.
Proof.
  apply (bool_decide_unpack (Forall (λ e : ext, (0 <= e.1 < 65536) ∧ Forall (λ c, 0 <= c < 256) e.2 ∧ blen e.2 < 65536) tail_exts)).
  vm_compute. exact I.
Qed.

Lemma tail_randomized m : randomized fake_clienthello_part1 m → ∃ tail,
  m = enc_exts tail ∧ Forall ext_wf tail ∧ Forall (λ e : ext, e.1 ≠ 0) tail ∧ blen (enc_exts tail) = 523.
Proof.
  intros H. pose proof (randomized_len _ _ H) as Hl. rewrite tail_exts_enc in H.
  apply randomized_exts in H as (tail & -> & Ht); [|vm_compute; reflexivity]. exists tail.
  split; [done|]. split; [|split; [|done]].
  - pose proof tail_exts_wf as Hw. clear Hl. induction Ht as [|e e' l l' [He Hd] Ht IH]; [done|].
    apply list.Forall_cons in Hw as [(H1 & H2 & H3) Hw]. constructor; [|by apply IH].
    split; [by rewrite He|]. split; [by eapply randomized_wf|by rewrite (randomized_len _ _ Hd)].
  - assert (Hn : Forall (λ e : ext, e.1 ≠ 0) tail_exts).
    { apply (bool_decide_unpack (Forall (λ e : ext, e.1 ≠ 0) tail_exts)). vm_compute. exact I. }
    clear Hl. induction Ht as [|e e' l l' [He Hd] Ht IH]; [done|].
    apply list.Forall_cons in Hn as [H1 Hn]. constructor; [by rewrite He|by apply IH].
Qed.

(** Take the next write into the pieces of a buffer: the one at index [i]. *)
Ltac piece lem i :=
  erewrite (lem _ i);
  [rewrite bind_ok; cbn [insert list_insert]|reflexivity
  |cbn [take concat]; rewrite ?blen_app; repeat change (blen (?x :: ?l)) with (1 + blen l); rewrite ?blen_enc16, ?blen_cons, ?blen_nil; lia
  |rewrite ?blen_cons, ?blen_nil; lia|..].

Lemma sni_packet_ok rand_s junk name k :
  (∀ n, 0 <= n → blen (junk n) = n) → bytes_wf name → blen name < 60000 →
  ∃ rnd sid tail k', bytes_wf rnd ∧ blen rnd = 32 ∧ bytes_wf sid ∧ blen sid = 32 ∧ Forall ext_wf tail ∧
    Forall (λ e : ext, e.1 ≠ 0) tail ∧ blen (enc_exts tail) = 523 ∧
    sni_packet rand_s junk name k = Ok (enc_hello (sni_hello name rnd sid tail), k').
Proof.
  intros Hj Hn Hlen. pose proof (blen_nonneg name) as Hn0. unfold sni_packet.
  change (blen fake_clienthello_part0) with 116. change (blen fake_clienthello_part1) with 523. cbv zeta.
  set (size := 116 + 523 + 9 + blen name). assert (Hsz : blen (junk size) = size) by (apply Hj; lia).
  destruct (split_piece (junk size) 116) as (j0 & j' & Ej & Hj0 & Hj'); [lia|].
  destruct (split_piece j' (9 + blen name)) as (hole & j1 & -> & Hhole & Hj1); [lia|]. rewrite Ej.
  assert (E0 : memcpy (j0 ++ hole ++ j1) 0 fake_clienthello_part0 0 116 =
    Ok (fake_clienthello_part0 ++ hole ++ j1)).
  { apply wp_eq, wp_memcpy; [lia|lia|lia|rewrite !blen_app; lia|done|].
    change (sub fake_clienthello_part0 0 116) with fake_clienthello_part0.
    apply (put_at [] j0 (hole ++ j1) fake_clienthello_part0); [done|by rewrite Hj0]. }
  rewrite E0, bind_ok. clear E0.
  assert (E1 : memcpy (fake_clienthello_part0 ++ hole ++ j1) (116 + 9 + blen name) fake_clienthello_part1 0 523 =
    Ok (fake_clienthello_part0 ++ hole ++ fake_clienthello_part1)).
  { apply wp_eq, wp_memcpy; [lia|lia|lia|rewrite !blen_app; change (blen fake_clienthello_part0) with 116; lia|done|].
    change (sub fake_clienthello_part1 0 523) with fake_clienthello_part1.
    pose proof (put_at (fake_clienthello_part0 ++ hole) j1 [] fake_clienthello_part1 (116 + 9 + blen name)) as E.
    rewrite !app_nil_r, <- !app_assoc in E. apply E.
    - rewrite blen_app. change (blen fake_clienthello_part0) with 116. lia.
    - change (blen fake_clienthello_part1) with 523. lia. }
  rewrite E1, bind_ok. clear E1.
  pose proof (randomize_ok rand_s (fake_clienthello_part0 ++ hole ++ fake_clienthello_part1) 0 k) as Hr.
  destruct (randomize _ _ _ _) as [[m r'] k']. cbn [fst] in Hr.
  apply randomized_app in Hr as (m0 & m' & -> & H0 & Hr). apply randomized_app in Hr as (h & m1 & -> & Hh & H1).
  apply randomized_part0 in H0 as (rnd & sid & -> & ? & ? & ? & ?).
  apply tail_randomized in H1 as (tail & -> & ? & ? & Htl).
  apply randomized_len in Hh. rewrite Hhole in Hh.
  destruct (split_piece h 2) as (h0 & h' & -> & Hh0 & Hh'); [lia|].
  destruct (split_piece h' 2) as (h2 & h'' & -> & Hh2 & Hh''); [lia|].
  destruct (split_piece h'' 2) as (h4 & h3 & -> & Hh4 & Hh3); [lia|].
  destruct (split_piece h3 1) as (h6 & h5 & -> & Hh6 & Hh5); [lia|].
  destruct (split_piece h5 2) as (h7 & hn & -> & Hh7 & Hhn); [lia|].
  exists rnd, sid, tail, k'. split_and!; try done. cbn [concat]. rewrite app_nil_r, <- !app_assoc.
  set (ciph := [0; 34] ++ sub fake_clienthello_part0 78 34). assert (Hciph : blen ciph = 36) by reflexivity.
  set (segs := [[22; 3; 1]; [221; 221]; [1; 0]; [221; 221]; [3; 3]; rnd; [32]; sid; ciph; [1; 0]; [221; 221];
    h0; h2; h4; h6; h7; hn; enc_exts tail]).
  match goal with |- context [set_uint16be ?b 3 _] =>
    replace b with (concat segs) by (unfold segs, ciph; cbn [concat]; rewrite app_nil_r, <- !app_assoc; reflexivity) end.
  unfold segs. clear segs.
  piece set_piece 1%nat. piece set_piece 3%nat. piece set_piece 10%nat. piece set_piece 11%nat.
  piece set_piece 12%nat. piece set_piece 13%nat. piece wr_piece 14%nat; [|unfold is_byte; lia]. piece set_piece 15%nat.
  piece memcpy_piece 16%nat. unfold enc_hello, enc_hello_head, enc_block, sni_hello.
  cbn [ch_minor ch_version ch_random ch_sid ch_ciphers ch_exts enc_exts concat]. unfold enc_ext, sni_data. cbn [fst snd].
  do 2 f_equal. rewrite !blen_app, !blen_enc16, Htl, app_nil_r.
  change (blen [0]) with 1. change (blen (sub fake_clienthello_part0 78 34)) with 34.
  replace (blen sid) with 32 by done. rewrite <- !app_assoc. unfold ciph. rewrite <- app_assoc.
  change (enc16 34) with [0; 34].
  replace (2 + 32 + 1 + 32 + 2 + 34 + 2 + (2 + (2 + (2 + (2 + (1 + (2 + blen name)))) + 523))) with (size - 9) by lia.
  replace (size - 9 + 4) with (size - 5) by lia.
  replace (2 + (2 + (2 + (1 + (2 + blen name)))) + 523) with (size - 116) by lia.
  by replace (2 + (1 + (2 + blen name))) with (blen name + 5) by lia.
Qed.

Lemma sni_hello_wf name rnd sid tail : bytes_wf name → blen name < 60000 → bytes_wf rnd → blen rnd = 32 →
  bytes_wf sid → blen sid = 32 → Forall ext_wf tail → blen (enc_exts tail) = 523 → hello_wf (sni_hello name rnd sid tail).
Proof.
  intros. pose proof (blen_nonneg name). unfold hello_wf, sni_hello, is_byte. cbn [ch_minor ch_version ch_random ch_sid ch_ciphers ch_exts enc_exts].
  assert (Hd : blen (sni_data name) = blen name + 5).
  { unfold sni_data. rewrite !blen_app, !blen_enc16. change (blen [0]) with 1. lia. }
  split_and!; try done; try lia.
  - apply wf_sub. apply (bool_decide_unpack (Forall (λ c, 0 <= c < 256) fake_clienthello_part0)). vm_compute. exact I.
  - constructor; [|done]. split; [cbn; lia|]. cbn [snd]. split; [|lia]. unfold sni_data. wf_split.
    repeat constructor; unfold is_byte; lia.
  - rewrite blen_app, blen_enc_ext. cbn [snd]. lia.
Qed.

(** * Fields of a packet *)

Definition be32 (b : bytes) (i : Z) : Z := 65536 * be16 b i + be16 b (i + 2).

Lemma enc16_u16 v : enc16 (u16 v) = enc16 v.
Proof.
  unfold enc16, u16, u8. rewrite !Z.shiftr_div_pow2 by lia. change 255 with (Z.ones 8). rewrite !Z.land_ones by lia.
  change (2 ^ 8) with 256. change (2 ^ 16) with 65536. f_equal; [|f_equal]; Z.to_euclidean_division_equations; lia.
Qed.

Lemma bat_put_other b i l j : 0 <= i → i + blen l <= blen b → 0 <= j → j < i ∨ i + blen l <= j →
  bat (put b i l) j = bat b j.
Proof. intros. rewrite bat_put by lia. destruct (_ && _) eqn:E; [lia|done]. Qed.
Lemma be16_put b i v : 0 <= i → i + 2 <= blen b → be16 (put b i (enc16 v)) i = u16 v.
Proof.
  intros. rewrite <- be16_enc16. unfold be16. rewrite !bat_put by (rewrite ?blen_enc16; lia). rewrite blen_enc16.
  rewrite (proj2 (Z.leb_le i i)), (proj2 (Z.leb_le i (i + 1))), (proj2 (Z.ltb_lt i (i + 2))), (proj2 (Z.ltb_lt (i + 1) (i + 2))) by lia.
  cbn [andb]. rewrite Z.sub_diag. replace (i + 1 - i) with (0 + 1) by lia. done.
Qed.
Lemma be16_put_other b i l j : 0 <= i → i + blen l <= blen b → 0 <= j → j + 2 <= i ∨ i + blen l <= j →
  be16 (put b i l) j = be16 b j.
Proof. intros. pose proof (blen_nonneg l). unfold be16. by rewrite !bat_put_other by lia. Qed.
Lemma be32_put_other b i l j : 0 <= i → i + blen l <= blen b → 0 <= j → j + 4 <= i ∨ i + blen l <= j →
  be32 (put b i l) j = be32 b j.
Proof. intros. pose proof (blen_nonneg l). unfold be32. by rewrite !be16_put_other by lia. Qed.

Lemma blen_enc32 v : blen (enc32 v) = 4.
Proof. done. Qed.
Lemma be32_put b i v : 0 <= i → i + 4 <= blen b → be32 (put b i (enc32 v)) i = u32 v.
Proof.
  intros. unfold enc32. set (x := u32 v / 2 ^ 16). set (y := u32 v mod 2 ^ 16).
  pose proof (u32_range v). assert (0 <= x < 65536).
  { subst x. split; [apply Z.div_pos; lia|apply Z.div_lt_upper_bound; lia]. }
  pose proof (Z.mod_pos_bound (u32 v) (2 ^ 16) ltac:(lia)) as Hy. fold y in Hy. change (2 ^ 16) with 65536 in Hy.
  rewrite <- put_put_app by (rewrite ?blen_enc16; lia). rewrite blen_enc16. unfold be32.
  rewrite be16_put_other, !be16_put by (rewrite ?blen_put; rewrite ?blen_enc16; lia).
  rewrite !u16_small by lia. subst x y. change 65536 with (2 ^ 16). symmetry. apply Z.div_mod. lia.
Qed.

Lemma wp_ntohs_at b i P : 0 <= i → i + 2 <= blen b → P (be16 b i) → wp (ntohs_at b i) P.
Proof.
  intros ?? HP. unfold ntohs_at. apply wp_bind, wp_rd; [lia|]. apply wp_bind, wp_rd; [lia|]. apply wp_ok.
  unfold be16 in HP. by rewrite (Z.mul_comm 256).
Qed.
Lemma wp_ntohl_at b i P : 0 <= i → i + 4 <= blen b → P (be32 b i) → wp (ntohl_at b i) P.
Proof. intros ?? HP. unfold ntohl_at. apply wp_bind, wp_ntohs_at; [lia|lia|]. by apply wp_bind, wp_ntohs_at; [lia|lia|]. Qed.
Lemma wp_htons_at b i v P : 0 <= i → i + 2 <= blen b → P (put b i (enc16 v)) → wp (htons_at b i v) P.
Proof. intros. unfold htons_at. rewrite enc16_u16. by apply wp_store. Qed.
Lemma wp_htonl_at b i v P : 0 <= i → i + 4 <= blen b → P (put b i (enc32 v)) → wp (htonl_at b i v) P.
Proof. intros. unfold htonl_at. by apply wp_store. Qed.
Lemma wp_ptr {A} (p : option A) x (P : A → Prop) : p = Some x → P x → wp (ptr p) P.
Proof. by intros ->. Qed.

(** * What the library promises *)

(** The headers and the data that were found in a packet of [n] bytes: in bounds, in order. *)
Record headers_in (n : Z) (q : parsed) : Prop := {
  hi_ip i : ppIpHdr q = Some i → 0 <= i ∧ i + 20 <= n;
  hi_ipv6 i : ppIpV6Hdr q = Some i → 0 <= i ∧ i + 40 <= n;
  hi_tcp t : ppTcpHdr q = Some t → 0 <= t ∧ t + 20 <= n ∧
    (∀ i, ppIpHdr q = Some i → i + 20 <= t) ∧ (∀ i, ppIpV6Hdr q = Some i → i + 40 <= t);
  hi_udp u : ppUdpHdr q = Some u → 0 <= u ∧ u + 8 <= n ∧
    (∀ i, ppIpHdr q = Some i → i + 20 <= u) ∧ (∀ i, ppIpV6Hdr q = Some i → i + 40 <= u);
  hi_data d : packet_data q = Some d → 0 <= d ∧ 0 < packet_dataLen q ∧ d + packet_dataLen q <= n ∧
    (∀ t, ppTcpHdr q = Some t → t + 20 <= d) ∧ (∀ u, ppUdpHdr q = Some u → u + 8 <= d) }.

(** The library finds headers inside of the packet, and its checksums replace bytes. *)
Class WinDivert (parse : bytes → option parsed) (calc : bytes → address → bytes * address) : Prop := {
  parse_in p q : parse p = Some q → headers_in (blen p) q;
  calc_length p a : blen (fst (calc p a)) = blen p;
  calc_outbound p a : a_Outbound (snd (calc p a)) = a_Outbound a }.

(** * Sending *)

(** Where the fields of the IP header are. *)
Definition length_pos (q : parsed) (is_ipv6 : bool) (i : Z) : Prop :=
  if is_ipv6 then ∃ h, ppIpV6Hdr q = Some h ∧ i = h + ipv6_Length else ∃ h, ppIpHdr q = Some h ∧ i = h + ip_Length.
Definition ttl_pos (q : parsed) (is_ipv6 : bool) (i : Z) : Prop :=
  if is_ipv6 then ∃ h, ppIpV6Hdr q = Some h ∧ i = h + ipv6_HopLimit else ∃ h, ppIpHdr q = Some h ∧ i = h + ip_TTL.

(** [m] is the packet [p] with other data: [size] bytes [fake]; its length is that of the
    new packet, its TTL is [ttl] unless that is 0, and its numbers are in the past when
    [past]. *)
Record decoy_of (q : parsed) (is_ipv6 : bool) (p fake : bytes) (ttl : Z) (past : bool) (m : bytes) : Prop := {
  dc_len : blen m = blen p - packet_dataLen q + blen fake;
  dc_data d : packet_data q = Some d → sub m d (blen fake) = fake;
  dc_length i : length_pos q is_ipv6 i → be16 m i = u16 (be16 p i - packet_dataLen q + blen fake);
  dc_ttl i : ttl_pos q is_ipv6 i → bat m i = if ttl =? 0 then bat p i else u8 ttl;
  dc_seq t : ppTcpHdr q = Some t →
    be32 m (t + tcp_SeqNum) = if past then u32 (be32 p (t + tcp_SeqNum) - 10000) else be32 p (t + tcp_SeqNum);
  dc_ack t : ppTcpHdr q = Some t →
    be32 m (t + tcp_AckNum) = if past then u32 (be32 p (t + tcp_AckNum) - 66000) else be32 p (t + tcp_AckNum);
  dc_rest j d t : 0 <= j < d → packet_data q = Some d → ppTcpHdr q = Some t →
    (∀ i, length_pos q is_ipv6 i → j < i ∨ i + 2 <= j) → (ttl = 0 ∨ ¬ ttl_pos q is_ipv6 j) →
    (past = true → j < t + tcp_SeqNum ∨ t + tcp_SeqNum + 8 <= j) → bat m j = bat p j }.

(** The packet with its checksum off by one. *)
Definition damaged (q : parsed) (m : bytes) : bytes :=
  match ppTcpHdr q with Some t => put m (t + tcp_Checksum) (enc16 (be16 m (t + tcp_Checksum) - 1)) | None => m end.

Lemma bat_prefix b n j : 0 <= j < n → bat (sub b 0 n) j = bat b j.
Proof. intros. by rewrite bat_sub by lia. Qed.
Lemma be16_prefix b n j : 0 <= j → j + 2 <= n → be16 (sub b 0 n) j = be16 b j.
Proof. intros. unfold be16. by rewrite !bat_prefix by lia. Qed.
Lemma be32_prefix b n j : 0 <= j → j + 4 <= n → be32 (sub b 0 n) j = be32 b j.
Proof. intros. unfold be32. by rewrite !be16_prefix by lia. Qed.
Lemma be16_ext b b' j : bat b j = bat b' j → bat b (j + 1) = bat b' (j + 1) → be16 b j = be16 b' j.
Proof. unfold be16. by intros -> ->. Qed.
Lemma be32_ext b b' j : (∀ k, j <= k < j + 4 → bat b k = bat b' k) → be32 b j = be32 b' j.
Proof. intros H. unfold be32, be16. by rewrite !H by lia. Qed.

Lemma length_pos_eq q v6 i j : length_pos q v6 i → length_pos q v6 j → i = j.
Proof. unfold length_pos. destruct v6; intros (h & E & ->) (h' & E' & ->); congruence. Qed.
Lemma ttl_pos_eq q v6 i j : ttl_pos q v6 i → ttl_pos q v6 j → i = j.
Proof. unfold ttl_pos. destruct v6; intros (h & E & ->) (h' & E' & ->); congruence. Qed.

(** A TCP packet with data, of the family [v6]. *)
Record tcp_packet (n : Z) (q : parsed) (v6 : bool) (L T t d : Z) : Prop := {
  tp_L : length_pos q v6 L; tp_T : ttl_pos q v6 T; tp_t : ppTcpHdr q = Some t; tp_d : packet_data q = Some d;
  tp_order : 0 <= L ∧ L + 2 <= T ∧ T + 1 <= t ∧ t + 20 <= d; tp_dl : 0 < packet_dataLen q; tp_n : d + packet_dataLen q <= n }.

Lemma tcp_packet_in n q (v6 : bool) h t d : headers_in n q → (if v6 then ppIpV6Hdr q else ppIpHdr q) = Some h →
  ppTcpHdr q = Some t → packet_data q = Some d →
  ∃ L T, tcp_packet n q v6 L T t d.
Proof.
  intros Hq Hh Ht Hd. destruct (hi_tcp _ _ Hq t Ht) as (? & ? & Hv4 & Hv6).
  destruct (hi_data _ _ Hq d Hd) as (? & ? & ? & Hdt & _). specialize (Hdt t Ht).
  destruct v6.
  - destruct (hi_ipv6 _ _ Hq h Hh). specialize (Hv6 h Hh). exists (h + ipv6_Length), (h + ipv6_HopLimit).
    unfold ipv6_Length, ipv6_HopLimit. split; [by exists h|by exists h|done|done|lia|done|done].
  - destruct (hi_ip _ _ Hq h Hh). specialize (Hv4 h Hh). exists (h + ip_Length), (h + ip_TTL).
    unfold ip_Length, ip_TTL. split; [by exists h|by exists h|done|done|lia|done|done].
Qed.

(** What [fake_headers] makes of a buffer. *)
Definition with_headers (b : bytes) (q : parsed) (L T t size ttl : Z) (past : bool) : bytes :=
  let b1 := put b L (enc16 (be16 b L - packet_dataLen q + size)) in
  let b2 := if ttl =? 0 then b1 else put b1 T [u8 ttl] in
  if past then
    put (put b2 (t + tcp_AckNum) (enc32 (be32 b (t + tcp_AckNum) - 66000)))
      (t + tcp_SeqNum) (enc32 (be32 b (t + tcp_SeqNum) - 10000))
  else b2.

Lemma fake_headers_ok n q (v6 : bool) L T t d b size ttl past : tcp_packet n q v6 L T t d → n <= blen b →
  fake_headers b q size v6 ttl past = Ok (with_headers b q L T t size ttl past).
Proof.
  intros [HL HT Ht Hd Ho Hdl Hn] Hb. apply wp_eq. unfold fake_headers. apply wp_bind.
  set (b1 := put b L (enc16 (be16 b L - packet_dataLen q + size))).
  set (b2 := if ttl =? 0 then b1 else put b1 T [u8 ttl]).
  assert (Hb1 : blen b1 = blen b) by (unfold b1; rewrite blen_put; rewrite ?blen_enc16; lia).
  assert (Hb2 : blen b2 = blen b).
  { unfold b2. destruct (ttl =? 0); [done|]. rewrite blen_put; [done|lia|]. change (blen [_]) with 1. lia. }
  apply wp_mono with (λ x, x = b2).
  - unfold b2, length_pos, ttl_pos, ip_Length, ip_TTL, ipv6_Length, ipv6_HopLimit in *. destruct v6; cbn [negb];
      (destruct HL as (h & Eh & ->), HT as (h' & Eh' & ->)); rewrite Eh in Eh'; injection Eh' as <-;
      (apply wp_bind; eapply wp_ptr; [exact Eh|]);
      (apply wp_bind, wp_bind, wp_ntohs_at; [lia|lia|]); (apply wp_htons_at; [lia|lia|]); fold b1;
      (destruct (ttl =? 0); cbn [negb]; [by apply wp_ok|]);
      (apply wp_store; [lia|change (blen [_]) with 1; lia|done]).
  - intros x ->. unfold with_headers. fold b1. fold b2. unfold tcp_AckNum, tcp_SeqNum. destruct past; [|by apply wp_ok].
    assert (E : ∀ j, t <= j → j + 4 <= t + 20 → be32 b2 j = be32 b j).
    { intros j Hj1 Hj2. apply be32_ext. intros k Hk. unfold b2, b1. destruct (ttl =? 0).
      - apply bat_put_other; rewrite ?blen_enc16; lia.
      - rewrite bat_put_other; [apply bat_put_other; rewrite ?blen_enc16; lia|lia| |lia|change (blen [_]) with 1; lia].
        fold b1. change (blen [_]) with 1. lia. }
    apply wp_bind. eapply wp_ptr; [exact Ht|]. apply wp_bind, wp_ntohl_at; [lia|lia|]. rewrite E by lia.
    apply wp_bind, wp_htonl_at; [lia|lia|]. apply wp_bind, wp_ntohl_at; [lia|rewrite blen_put; rewrite ?blen_enc32; lia|].
    rewrite be32_put_other, E by (rewrite ?blen_enc32; lia).
    apply wp_htonl_at; [lia|rewrite blen_put; rewrite ?blen_enc32; lia|done].
Qed.

Lemma with_headers_ok n q v6 L T t d b size ttl past : tcp_packet n q v6 L T t d → n <= blen b →
  let b' := with_headers b q L T t size ttl past in
  blen b' = blen b ∧ be16 b' L = u16 (be16 b L - packet_dataLen q + size) ∧
  bat b' T = (if ttl =? 0 then bat b T else u8 ttl) ∧
  be32 b' (t + tcp_SeqNum) = (if past then u32 (be32 b (t + tcp_SeqNum) - 10000) else be32 b (t + tcp_SeqNum)) ∧
  be32 b' (t + tcp_AckNum) = (if past then u32 (be32 b (t + tcp_AckNum) - 66000) else be32 b (t + tcp_AckNum)) ∧
  (∀ j, 0 <= j → j < L ∨ L + 2 <= j → ttl = 0 ∨ j ≠ T → (past = true → j < t + 4 ∨ t + 12 <= j) → bat b' j = bat b j).
Proof.
  intros [HL HT Ht Hd Ho Hdl Hn] Hb. unfold with_headers, tcp_AckNum, tcp_SeqNum.
  set (b1 := put b L _). set (b2 := if ttl =? 0 then b1 else put b1 T [u8 ttl]).
  assert (H1 : blen [u8 ttl] = 1) by done.
  assert (Hb1 : blen b1 = blen b) by (unfold b1; rewrite blen_put; rewrite ?blen_enc16; lia).
  assert (Hb2 : blen b2 = blen b) by (unfold b2; destruct (ttl =? 0); [done|]; rewrite blen_put; lia).
  assert (R2 : ∀ j, 0 <= j → j < L ∨ L + 2 <= j → ttl = 0 ∨ j ≠ T → bat b2 j = bat b j).
  { intros j Hj HjL HjT. unfold b2. destruct (Z.eqb_spec ttl 0).
    - apply bat_put_other; rewrite ?blen_enc16; lia.
    - rewrite bat_put_other by lia. apply bat_put_other; rewrite ?blen_enc16; lia. }
  assert (T2 : bat b2 T = if ttl =? 0 then bat b T else u8 ttl).
  { unfold b2. destruct (Z.eqb_spec ttl 0) as [|Hne].
    - apply bat_put_other; rewrite ?blen_enc16; lia.
    - rewrite bat_put by lia. rewrite H1, (proj2 (Z.leb_le T T)), (proj2 (Z.ltb_lt T (T + 1))) by lia. cbn [andb].
      by rewrite Z.sub_diag. }
  assert (L2 : be16 b2 L = u16 (be16 b L - packet_dataLen q + size)).
  { unfold b2. destruct (ttl =? 0).
    - apply be16_put; lia.
    - rewrite be16_put_other by lia. apply be16_put; lia. }
  destruct past.
  - set (ack := enc32 _). set (seq := enc32 _). assert (Ha : blen ack = 4) by done. assert (Hs : blen seq = 4) by done.
    split_and!.
    + rewrite !blen_put; rewrite ?blen_put; lia.
    + rewrite !be16_put_other by (rewrite ?blen_put; lia). done.
    + rewrite !bat_put_other by (rewrite ?blen_put; lia). done.
    + apply be32_put; [lia|rewrite blen_put; lia].
    + rewrite be32_put_other by (rewrite ?blen_put; lia). apply be32_put; lia.
    + intros j Hj HjL HjT Hjp. specialize (Hjp eq_refl). rewrite !bat_put_other by (rewrite ?blen_put; lia). by apply R2.
  - split_and!; try done.
    + apply be32_ext. intros k Hk. apply R2; lia.
    + apply be32_ext. intros k Hk. apply R2; lia.
    + intros j Hj HjL HjT _. by apply R2.
Qed.

Lemma put_inner b p i x : blen p <= blen b → 0 <= i → i + blen x <= blen p →
  put (put b 0 p) i x = put b 0 (put p i x).
Proof.
  intros Hp Hi Hx. pose proof (blen_nonneg x). pose proof (blen_nonneg p).
  assert (Hb : blen (put b 0 p) = blen b) by (rewrite blen_put; lia).
  assert (Hpp : blen (put p i x) = blen p) by (rewrite blen_put; lia).
  apply bytes_ext; [rewrite !blen_put; lia|]. rewrite blen_put by lia. rewrite Hb. intros j Hj.
  rewrite (bat_put (put b 0 p)) by lia. rewrite !(bat_put b 0) by lia. rewrite (bat_put p) by lia. rewrite Hpp, Z.sub_0_r.
  destruct (Z.leb_spec i j), (Z.ltb_spec j (i + blen x)), (Z.leb_spec 0 j), (Z.ltb_spec j (0 + blen p)); cbn [andb]; try lia; done.
Qed.

(** The data and the size of a decoy. *)
Definition fake_bytes (is_https : bool) (f : option fake_t) : bytes * Z :=
  match f with
  | Some f => (f_data f, f_size f)
  | None => if is_https then (fake_https_request, blen fake_https_request)
            else (fake_http_request, blen fake_http_request - 1)
  end.
Definition fake_payload (is_https : bool) (f : option fake_t) : bytes :=
  let '(data, size) := fake_bytes is_https f in sub data 0 size.
Definition fake_ok (is_https : bool) (f : option fake_t) : Prop :=
  let '(data, size) := fake_bytes is_https f in 0 <= size <= blen data.

Section send.
Context (parse : bytes → option parsed) (calc : bytes → address → bytes * address) (junk : Z → bytes).
Context `{!WinDivert parse calc} (Hj : ∀ n, 0 <= n → blen (junk n) = n).

(** The address of a decoy. *)
Definition fake_address (addr : address) : address := Address (a_Outbound addr) false false (a_rest addr).

Lemma swp_send b n a s (P : unit → list sent → Prop) : 0 <= n <= blen b → P tt (s ++ [(sub b 0 n, a)]) →
  swp (WinDivertSend b n a) s P.
Proof. intros Hn HP. unfold WinDivertSend. sstep. sstep. apply wp_rds; [lia|lia|lia|]. sstep. done. Qed.

Lemma wp_parse b n (P : option parsed → Prop) : 0 <= n <= blen b → P (parse (sub b 0 n)) → wp (parse_packet parse b n) P.
Proof. intros. unfold parse_packet. apply wp_bind, wp_rds; [lia|lia|lia|]. done. Qed.

Lemma wp_calc b n a (P : bytes * address → Prop) : 0 <= n <= blen b →
  (let '(p, a') := calc (sub b 0 n) a in P (put b 0 p, a')) → wp (calc_checksums calc b n a) P.
Proof.
  intros Hn HP. unfold calc_checksums. apply wp_bind, wp_rds; [lia|lia|lia|].
  pose proof (calc_length (sub b 0 n) a) as Hc. rewrite blen_sub in Hc by lia.
  destruct (calc _ _) as [p a']. cbn [fst] in Hc. apply wp_bind, wp_store; [lia|lia|done].
Qed.

(** The buffer of a decoy, before its headers. *)
Lemma decoy_buffer pkt n d fake : 0 <= n <= blen pkt → n <= MAX_PACKET_SIZE → 0 <= d →
  d + blen fake <= MAX_PACKET_SIZE →
  let b := put (put (junk MAX_PACKET_SIZE) 0 (sub pkt 0 n)) d fake in
  blen b = MAX_PACKET_SIZE ∧ sub b d (blen fake) = fake ∧ (∀ j, 0 <= j < d → j < n → bat b j = bat pkt j).
Proof.
  intros Hn Hm Hd Hf. cbv zeta. pose proof (blen_nonneg fake).
  assert (Hk : blen (junk MAX_PACKET_SIZE) = MAX_PACKET_SIZE) by (apply Hj; unfold MAX_PACKET_SIZE; lia).
  assert (Hs : blen (sub pkt 0 n) = n) by (rewrite blen_sub; lia).
  assert (Hb : blen (put (junk MAX_PACKET_SIZE) 0 (sub pkt 0 n)) = MAX_PACKET_SIZE) by (rewrite blen_put; lia).
  split_and!.
  - rewrite blen_put; lia.
  - apply sub_put_same; lia.
  - intros j Hj' Hjn. rewrite bat_put_other by lia. rewrite bat_put by lia. rewrite Hs.
    rewrite (proj2 (Z.leb_le 0 j)), (proj2 (Z.ltb_lt j (0 + n))) by lia. cbn [andb].
    rewrite Z.sub_0_r. by rewrite bat_prefix by lia.
Qed.

Lemma decoy_made pkt n q v6 L T t d fake ttl past : tcp_packet n q v6 L T t d →
  0 <= n <= blen pkt → n + blen fake <= MAX_PACKET_SIZE →
  let b := put (put (junk MAX_PACKET_SIZE) 0 (sub pkt 0 n)) d fake in
  decoy_of q v6 (sub pkt 0 n) fake ttl past
    (sub (with_headers b q L T t (blen fake) ttl past) 0 (n - packet_dataLen q + blen fake)).
Proof.
  intros Hq Hn Hf. pose proof Hq as [HL HT Ht Hd Ho Hdl Hdn]. pose proof (blen_nonneg fake).
  destruct (decoy_buffer pkt n d fake Hn) as (Hb & Hs & Hp); [lia|lia|lia|]. cbv zeta. set (b := put (put _ _ _) d fake) in *.
  destruct (with_headers_ok n q v6 L T t d b (blen fake) ttl past Hq) as (W1 & W2 & W3 & W4 & W5 & W6); [lia|].
  set (b' := with_headers _ _ _ _ _ _ _ _) in *. set (n' := n - packet_dataLen q + blen fake).
  assert (Hp16 : ∀ j, 0 <= j → j + 2 <= d → be16 b j = be16 (sub pkt 0 n) j).
  { intros j Hj1 Hj2. rewrite be16_prefix by lia. apply be16_ext; apply Hp; lia. }
  assert (Hp32 : ∀ j, 0 <= j → j + 4 <= d → be32 b j = be32 (sub pkt 0 n) j).
  { intros j Hj1 Hj2. rewrite be32_prefix by lia. apply be32_ext. intros k Hk. apply Hp; lia. }
  unfold tcp_SeqNum, tcp_AckNum in *. split.
  - rewrite !blen_sub; lia.
  - intros d' Hd'. rewrite Hd in Hd'. injection Hd' as <-. rewrite sub_sub by lia. rewrite Z.add_0_l. trans (sub b d (blen fake)); [|done].
    apply bytes_ext; [rewrite !blen_sub; lia|]. intros j Hj1. rewrite blen_sub in Hj1 by lia.
    rewrite !bat_sub by lia. apply W6; lia.
  - intros i Hi. rewrite (length_pos_eq q v6 i L Hi HL), be16_prefix, W2 by lia. by rewrite Hp16 by lia.
  - intros i Hi. rewrite (ttl_pos_eq q v6 i T Hi HT), bat_prefix, W3 by lia. destruct (ttl =? 0); [|done].
    rewrite bat_prefix by lia. apply Hp; lia.
  - intros t' Ht'. rewrite Ht in Ht'. injection Ht' as <-. unfold tcp_SeqNum. rewrite be32_prefix, W4 by lia. by rewrite Hp32 by lia.
  - intros t' Ht'. rewrite Ht in Ht'. injection Ht' as <-. unfold tcp_AckNum. rewrite be32_prefix, W5 by lia. by rewrite Hp32 by lia.
  - intros j d' t' Hj1 Hd' Ht' HjL HjT Hjp. rewrite Hd in Hd'. injection Hd' as <-. rewrite Ht in Ht'. injection Ht' as <-.
    rewrite !bat_prefix by lia. rewrite W6; [apply Hp; lia|lia|by apply HjL| |].
    + destruct HjT as [?|HjT]; [by left|right]. by intros ->.
    + intros Hpast. specialize (Hjp Hpast). unfold tcp_SeqNum in Hjp. lia.
Qed.

Lemma send_fake_data_ok addr pkt n q (v6 https chk past : bool) ttl f L T t d s (P : Z → list sent → Prop) :
  parse (sub pkt 0 n) = Some q → tcp_packet n q v6 L T t d → 0 <= n <= blen pkt → fake_ok https f →
  n + snd (fake_bytes https f) + 1 <= MAX_PACKET_SIZE →
  (∀ m, decoy_of q v6 (sub pkt 0 n) (fake_payload https f) ttl past m →
    let '(p, a) := calc m (fake_address addr) in P 0 (s ++ [(if chk then damaged q p else p, a)])) →
  swp (send_fake_data parse calc junk addr pkt n v6 https ttl chk past f) s P.
Proof.
  intros Hparse Hq Hn Hf Hfit HP. pose proof Hq as [HL HT Ht Hd Ho Hdl Hdn].
  unfold send_fake_data, fake_payload, fake_ok in *. fold (fake_bytes https f). destruct (fake_bytes https f) as [data size].
  cbn [snd] in Hfit. cbv zeta. fold (fake_address addr).
  assert (Hk : blen (junk MAX_PACKET_SIZE) = MAX_PACKET_SIZE) by (apply Hj; unfold MAX_PACKET_SIZE; lia).
  assert (Hs : blen (sub pkt 0 n) = n) by (rewrite blen_sub; lia).
  assert (Hfk : blen (sub data 0 size) = size) by (rewrite blen_sub; lia).
  sstep. sstep. apply wp_memcpy; [lia|lia|lia|lia|lia|]. set (b0 := put _ _ _).
  assert (Hb0 : blen b0 = MAX_PACKET_SIZE) by (unfold b0; rewrite blen_put; lia).
  sstep. sstep. apply wp_parse; [lia|]. assert (E : sub b0 0 n = sub pkt 0 n).
  { pose proof (sub_put_same (junk MAX_PACKET_SIZE) 0 (sub pkt 0 n)) as E. rewrite Hs in E. apply E; lia. }
  rewrite E, Hparse.
  destruct (Z.ltb_spec MAX_PACKET_SIZE (n + size + 1)); [lia|]. sstep. sstep. eapply wp_ptr; [exact Hd|].
  sstep. sstep. apply wp_memcpy; [lia|lia|lia|lia|lia|]. unfold b0. set (b := put (put _ _ _) _ _).
  destruct (decoy_buffer pkt n d (sub data 0 size)) as (Hb & _); [lia|lia|lia|lia|]. fold b in Hb.
  sstep. sstep. rewrite (fake_headers_ok n q v6 L T t d) by (done || lia). apply wp_ok.
  pose proof (decoy_made pkt n q v6 L T t d (sub data 0 size) ttl past Hq Hn) as Hm. rewrite Hfk in Hm. cbv zeta in Hm.
  fold b in Hm. specialize (Hm ltac:(lia)). set (b' := with_headers _ _ _ _ _ _ _ _) in *.
  assert (Hb' : blen b' = MAX_PACKET_SIZE).
  { rewrite <- Hb. by apply (with_headers_ok n q v6 L T t d); [|lia]. }
  set (n' := n - packet_dataLen q + size) in *. set (m := sub b' 0 n') in *. specialize (HP m Hm).
  pose proof (calc_length m (fake_address addr)) as Hc.
  assert (Hlm : blen m = n') by (unfold m; rewrite blen_sub; lia). rewrite Hlm in Hc.
  sstep. sstep. apply wp_calc; [lia|]. fold m. destruct (calc m (fake_address addr)) as [p a]. cbn [fst] in Hc. rewrite <- Hc.
  sstep. sstep. apply wp_mono with (λ x, x = put b' 0 (if chk then damaged q p else p)).
  - unfold damaged, tcp_Checksum. rewrite Ht. destruct chk; [|by apply wp_ok].
    assert (Hpl : blen (put b' 0 p) = blen b') by (rewrite blen_put; lia).
    apply wp_bind. eapply wp_ptr; [done|]. apply wp_bind, wp_ntohs_at; [lia|lia|]. apply wp_htons_at; [lia|lia|].
    rewrite put_inner by (rewrite ?blen_enc16; lia). do 3 f_equal. f_equal.
    rewrite <- (be16_prefix _ (blen p)) by lia. by rewrite sub_put_same by lia.
  - intros x ->. assert (Hdp : blen (if chk then damaged q p else p) = blen p).
    { unfold damaged, tcp_Checksum. rewrite Ht. destruct chk; [|done]. rewrite blen_put; rewrite ?blen_enc16; lia. }
    sstep. apply swp_send; [rewrite blen_put; lia|]. rewrite <- Hdp, sub_put_same by lia. sstep. exact HP.
Qed.

(** A decoy that does not fit is not sent; nothing faults either way. *)
Lemma send_fake_data_total addr pkt n q (v6 https chk past : bool) ttl f L T t d s :
  parse (sub pkt 0 n) = Some q → tcp_packet n q v6 L T t d → 0 <= n <= blen pkt → n <= MAX_PACKET_SIZE → fake_ok https f →
  swp (send_fake_data parse calc junk addr pkt n v6 https ttl chk past f) s (λ _ _, True).
Proof.
  intros Hparse Hq Hn Hm Hf. destruct (decide (n + snd (fake_bytes https f) + 1 <= MAX_PACKET_SIZE)) as [Hfit|Hlong].
  { eapply send_fake_data_ok; [done..|]. intros m _. by destruct (calc m (fake_address addr)). }
  unfold send_fake_data, fake_ok in *. fold (fake_bytes https f). destruct (fake_bytes https f) as [data size]. cbn [snd] in Hlong.
  assert (Hk : blen (junk MAX_PACKET_SIZE) = MAX_PACKET_SIZE) by (apply Hj; unfold MAX_PACKET_SIZE; lia).
  sstep. sstep. apply wp_memcpy; [lia|lia|lia|lia|lia|]. sstep. sstep.
  assert (Hs : blen (sub pkt 0 n) = n) by (rewrite blen_sub; lia).
  pose proof (sub_put_same (junk MAX_PACKET_SIZE) 0 (sub pkt 0 n)) as E. rewrite Hs in E.
  apply wp_parse; [rewrite blen_put; lia|]. rewrite E, Hparse by lia.
  destruct (Z.ltb_spec MAX_PACKET_SIZE (n + size + 1)); [by sstep|lia].
Qed.

(** ** The requests *)

(** The decoys of one request: the TTL, whether the checksum is damaged, and whether the
    numbers are in the past. *)
Definition variants (ttl : Z) (chk past : bool) : list (Z * bool * bool) :=
  (if ttl =? 0 then [] else [(ttl, false, false)]) ++ (if chk then [(0, true, false)] else []) ++
  (if past then [(0, false, true)] else []).

(** The decoys in the order they are sent. *)
Definition plan (l : list fake_t) (resend ttl : Z) (chk past : bool) : list (option fake_t * (Z * bool * bool)) :=
  f ← (if bool_decide (l = []) then [None] else Some <$> l);
  concat (repeat (pair f <$> variants ttl chk past) (Z.to_nat resend)).

Definition decoy_sent (addr : address) (q : parsed) (v6 https : bool) (p : bytes)
    (x : option fake_t * (Z * bool * bool)) (y : sent) : Prop :=
  let '(f, (ttl, chk, past)) := x in
  ∃ m, decoy_of q v6 p (fake_payload https f) ttl past m ∧
    let '(c, a) := calc m (fake_address addr) in y = (if chk then damaged q c else c, a).

Section request.
Context (addr : address) (pkt : bytes) (n : Z) (q : parsed) (v6 https : bool) (L T t d : Z).
Context (Hparse : parse (sub pkt 0 n) = Some q) (Hq : tcp_packet n q v6 L T t d) (Hn : 0 <= n <= blen pkt).
Abbreviation R := (decoy_sent addr q v6 https (sub pkt 0 n)).

(** A computation that sends what is planned. *)
Definition sends {A} (m : ST (list sent) A) (pl : list (option fake_t * (Z * bool * bool))) (P : A → Prop) : Prop :=
  ∀ s, swp m s (λ a s', P a ∧ ∃ new, s' = s ++ new ∧ Forall2 R pl new).

Lemma sends_nil {A} (a : A) (P : A → Prop) : P a → sends (mret a) [] P.
Proof. intros HP s. sstep. split; [done|]. exists []. by rewrite app_nil_r. Qed.
Lemma sends_bind {A B} (m : ST (list sent) A) (f : A → ST (list sent) B) pl1 pl2 P Q :
  sends m pl1 P → (∀ a, P a → sends (f a) pl2 Q) → sends (a ← m; f a) (pl1 ++ pl2) Q.
Proof.
  intros Hm Hf s. sstep. eapply swp_mono; [apply Hm|]. intros a s1 (Ha & new1 & -> & H1).
  eapply swp_mono; [by apply Hf|]. intros b s2 (Hb & new2 & -> & H2). split; [done|].
  exists (new1 ++ new2). rewrite app_assoc. split; [done|]. by apply Forall2_app.
Qed.
Lemma sends_skip (m : ST (list sent) Z) pl (P : Z → Prop) : sends m pl P → sends (m;; skip) pl (λ _, True).
Proof.
  intros Hm. rewrite <- (app_nil_r pl). eapply sends_bind; [exact Hm|]. intros a _ s. apply swp_skip. split; [done|].
  exists []. by rewrite app_nil_r.
Qed.

Lemma send_fake_data_sends f ttl (chk past : bool) : fake_ok https f → n + snd (fake_bytes https f) + 1 <= MAX_PACKET_SIZE →
  sends (send_fake_data parse calc junk addr pkt n v6 https ttl chk past f) [(f, (ttl, chk, past))] (λ r, r = 0).
Proof.
  intros Hf Hfit s. eapply send_fake_data_ok; [done..|]. intros m Hm. destruct (calc m (fake_address addr)) as [c a] eqn:E.
  split; [done|]. eexists. split; [done|]. constructor; [|constructor]. exists m. split; [done|]. by rewrite E.
Qed.

Lemma sends_when (b : bool) (m : ST (list sent) Z) x (P : Z → Prop) : (b = true → sends m [x] P) →
  sends (if b then m;; skip else skip) (if b then [x] else []) (λ _, True).
Proof.
  intros Hm. destruct b; [by eapply sends_skip, Hm|]. intros s. apply swp_skip. split; [done|]. exists [].
  by rewrite app_nil_r.
Qed.

Lemma send_fake_request_ok f ttl (chk past : bool) : fake_ok https f → n + snd (fake_bytes https f) + 1 <= MAX_PACKET_SIZE →
  sends (send_fake_request parse calc junk addr pkt n v6 https ttl chk past f) (pair f <$> variants ttl chk past) (λ r, r = 0).
Proof.
  intros Hf Hfit. unfold send_fake_request, variants.
  assert (E : pair f <$> (if ttl =? 0 then [] else [(ttl, false, false)]) ++ (if chk then [(0, true, false)] else []) ++
    (if past then [(0, false, true)] else []) =
    (if negb (ttl =? 0) then [(f, (ttl, false, false))] else []) ++ (if chk then [(f, (0, chk, false))] else []) ++
    (if past then [(f, (0, false, past))] else []) ++ []).
  { by destruct (ttl =? 0), chk, past. }
  rewrite E. eapply sends_bind; [eapply sends_when; intros _; by apply send_fake_data_sends|]. intros _ _.
  eapply sends_bind; [eapply sends_when; intros _; by apply send_fake_data_sends|]. intros _ _.
  eapply sends_bind; [eapply sends_when; intros _; by apply send_fake_data_sends|]. intros _ _.
  by apply sends_nil.
Qed.

Lemma resend_loop_ok m pl k ret : sends m pl (λ r, r = 0) →
  sends (resend_loop m k ret) (concat (repeat pl k)) (λ r, r = ret).
Proof.
  intros Hm. induction k as [|k IH]; cbn [resend_loop repeat concat]; [by apply sends_nil|].
  eapply sends_bind; [exact Hm|]. intros r ->. exact IH.
Qed.

Lemma fakes_loop_ok tab (send : option fake_t → ST (list sent) Z) pl resend l i ret :
  0 <= i → (∀ k f, l !! k = Some f → fakes tab !! (Z.to_nat i + k)%nat = Some f) →
  (∀ f, f ∈ l → sends (send f) (pl f) (λ r, r = 0)) →
  sends (fakes_loop tab send resend i (length l) ret) (f ← l; concat (repeat (pl f) (Z.to_nat resend))) (λ r, r = ret).
Proof.
  intros Hi Hl Hs. revert i Hi Hl. induction l as [|f l IH]; intros i Hi Hl; cbn [fakes_loop length]; [by apply sends_nil|].
  assert (Hf : geti (fakes tab) i = Ok f).
  { apply wp_eq, (wp_geti _ _ f); [lia| |done]. specialize (Hl 0%nat f eq_refl). by rewrite Nat.add_0_r in Hl. }
  rewrite Hf. change (sends (ret ← resend_loop (send f) (Z.to_nat resend) ret;
    fakes_loop tab send resend (i + 1) (length l) ret)
    (concat (repeat (pl f) (Z.to_nat resend)) ++ (f ← l; concat (repeat (pl f) (Z.to_nat resend)))) (λ r, r = ret)).
  eapply sends_bind; [apply resend_loop_ok, Hs; by left|]. intros r ->. apply IH.
  - intros g Hg. apply Hs. by right.
  - lia.
  - intros k g Hk. specialize (Hl (S k) g Hk). rewrite <- Hl. f_equal. lia.
Qed.

(** The decoys of the table [tab] are those of [plan]. *)
Lemma send_fakes_ok tab l resend ttl chk past : loaded tab l →
  (∀ f, f ∈ (if bool_decide (l = []) then [None] else Some <$> l) →
     fake_ok https f ∧ n + snd (fake_bytes https f) + 1 <= MAX_PACKET_SIZE) →
  sends (fakes_loop tab (send_fake_request parse calc junk addr pkt n v6 https ttl chk past) resend 0 (fake_rounds tab) 0)
    (plan l resend ttl chk past) (λ r, r = 0).
Proof.
  intros (Hf & Hlen & Hc) Hfits. unfold plan. set (l' := if bool_decide (l = []) then [None] else Some <$> l) in *.
  assert (Hr : fake_rounds tab = length l').
  { unfold fake_rounds, l'. rewrite Hc. case_bool_decide as Hb; [by subst|]. rewrite length_fmap.
    destruct l; [done|]. cbn [length]. lia. }
  rewrite Hr. apply fakes_loop_ok; [done| |].
  - intros k f Hk. change (Z.to_nat 0 + k)%nat with k. rewrite Hf. unfold l' in Hk. case_bool_decide as Hb.
    + subst l. cbn in Hk. by destruct k as [|[|k]].
    + by apply lookup_app_l_Some.
  - intros f Hf'. destruct (Hfits f Hf'). by apply send_fake_request_ok.
Qed.
End request.

Section total.
Context (addr : address) (pkt : bytes) (n : Z) (q : parsed) (v6 https : bool) (L T t d : Z).
Context (Hparse : parse (sub pkt 0 n) = Some q) (Hq : tcp_packet n q v6 L T t d) (Hn : 0 <= n <= blen pkt).
Context (Hm : n <= MAX_PACKET_SIZE).

Lemma send_fakes_total tab l resend ttl chk past s : loaded tab l →
  (∀ f, f ∈ (if bool_decide (l = []) then [None] else Some <$> l) → fake_ok https f) →
  swp (fakes_loop tab (send_fake_request parse calc junk addr pkt n v6 https ttl chk past) resend 0 (fake_rounds tab) 0) s
    (λ _ _, True).
Proof.
  intros (Hf & Hlen & Hc) Hok.
  assert (Hone : ∀ (b : bool) (m : ST (list sent) Z) s, (∀ s, swp m s (λ _ _, True)) →
    swp (if b then m;; skip else skip) s (λ _ _, True)).
  { intros b m s' H. destruct b; [|by sstep]. sstep. eapply swp_mono; [apply H|]. intros. by sstep. }
  assert (Hreq : ∀ f s, fake_ok https f →
    swp (send_fake_request parse calc junk addr pkt n v6 https ttl chk past f) s (λ _ _, True)).
  { intros f s' Hf'. unfold send_fake_request.
    sstep. eapply swp_mono; [apply Hone; intros; by eapply send_fake_data_total|]. intros _ ? _.
    sstep. eapply swp_mono; [apply Hone; intros; by eapply send_fake_data_total|]. intros _ ? _.
    sstep. eapply swp_mono; [apply Hone; intros; by eapply send_fake_data_total|]. intros _ ? _. by sstep. }
  set (l' := if bool_decide (l = []) then [None] else Some <$> l) in *.
  assert (Hr : fake_rounds tab = length l').
  { unfold fake_rounds, l'. rewrite Hc. case_bool_decide as Hb; [by subst|]. rewrite length_fmap.
    destruct l; [done|]. cbn [length]. lia. }
  assert (Hget : ∀ k f, l' !! k = Some f → fakes tab !! k = Some f).
  { intros k f Hk. rewrite Hf. unfold l' in Hk. case_bool_decide as Hb; [|by apply lookup_app_l_Some].
    subst l. cbn in Hk. by destruct k as [|[|k]]. }
  rewrite Hr. assert (Hloop : ∀ m i ret s, 0 <= i → (Z.to_nat i + m = length l')%nat →
    swp (fakes_loop tab (send_fake_request parse calc junk addr pkt n v6 https ttl chk past) resend i m ret) s (λ _ _, True)).
  { induction m as [|m IH]; intros i ret s' Hi Hm'; cbn [fakes_loop]; [by sstep|].
    destruct (lookup_lt_is_Some_2 l' (Z.to_nat i)) as [f Hlf]; [lia|]. sstep. sstep.
    apply (wp_geti _ _ f); [lia|by apply Hget|]. sstep.
    assert (Hrs : ∀ k ret s, swp (resend_loop (send_fake_request parse calc junk addr pkt n v6 https ttl chk past f) k ret) s (λ _ _, True)).
    { induction k as [|k IHk]; intros ret' s''; cbn [resend_loop]; [by sstep|]. sstep.
      eapply swp_mono; [apply Hreq, Hok; by eapply list_elem_of_lookup_2|]. intros r s3 _. apply IHk. }
    eapply swp_mono; [apply Hrs|]. intros r s3 _. apply IH; lia. }
  by apply Hloop.
Qed.
End total.
End send.

(** * A library to try it with *)

(** Packets whose headers have no options; the checksums are left to the card. *)
Definition plain_parse (p : bytes) : option parsed :=
  let n := blen p in
  let data o := if o <? n then Some o else None in
  let l4 ip4 ip6 proto o :=
    if (proto =? 6) && (o + 20 <=? n) then Some (Parsed ip4 ip6 (Some o) None (data (o + 20)) (n - (o + 20)))
    else if (proto =? 17) && (o + 8 <=? n) then Some (Parsed ip4 ip6 None (Some o) (data (o + 8)) (n - (o + 8)))
    else None in
  if (bat p 0 =? 69) && (20 <=? n) then l4 (Some 0) None (bat p 9) 20
  else if (bat p 0 / 16 =? 6) && (40 <=? n) then l4 None (Some 0) (bat p 6) 40
  else None.
Definition plain_calc (p : bytes) (a : address) : bytes * address := (p, a).

#[export] Instance plain_library : WinDivert plain_parse plain_calc.
Proof.
  split; [|done..]. intros p q Hq. unfold plain_parse in Hq. pose proof (blen_nonneg p).
  repeat case_match; simplify_eq; split; cbn; intros; repeat case_match; simplify_eq; split_and!; intros; simplify_eq; lia.
Qed.

Definition sample_addr : address := Address true true true 0.
(** A request in an IPv4 packet to port 80. *)
Definition sample_http : bytes :=
  [69; 0; 0; 58; 0; 1; 0; 0; 64; 6; 0; 0; 10; 0; 0; 1; 10; 0; 0; 2] ++
  [200; 0; 0; 80; 0; 0; 0; 9; 0; 1; 200; 0; 80; 24; 255; 255; 0; 0; 0; 0] ++ bs "GET / HTTP/1.1" ++ crlf ++ crlf.

(** * The properties *)

(** the digits of up to 1420 bytes, given to [fake_load_from_hex], add a decoy whose
    payload is those bytes, behind the decoys that were loaded before. *)
Theorem fake_hex_loaded d t l : loaded t l → (length l < 30)%nat → bytes_wf d → 1 <= blen d <= 1420 →
  ∃ t' f, fake_load_from_hex (hex_encode d) t = Ok (0, t') ∧ loaded t' (l ++ [f]) ∧
    fake_ok true (Some f) ∧ fake_payload true (Some f) = d.
Proof.
  intros Hl Hn Hd Hlen. rewrite fake_load_from_hex_ok, hex_encode_len, hex_decode_encode by done.
  destruct (Z.ltb_spec (2 * blen d) 2); [lia|]. rewrite Z.odd_mul. destruct (Z.ltb_spec 2840 (2 * blen d)); [lia|].
  cbn [Z.odd andb orb]. destruct (fake_add_ok (d ++ [0]) (blen d) t l Hl Hn) as (t' & -> & Hl').
  exists t', (Fake (d ++ [0]) (blen d)). split; [done|]. split; [done|].
  split; [cbn; rewrite blen_app; change (blen [0]) with 1; lia|].
  unfold fake_payload. cbn. rewrite sub_app_l by lia. apply sub_all.
Qed.

Lemma fake_hex_loaded_witness : ∃ t' f, fake_load_from_hex (bs "16f0") no_fakes = Ok (0, t') ∧ loaded t' [f] ∧
  fake_ok true (Some f) ∧ fake_payload true (Some f) = [22; 240].
Proof.
  change (bs "16f0") with (hex_encode [22; 240]). apply (fake_hex_loaded [22; 240] no_fakes []).
  - apply loaded_none.
  - cbn. lia.
  - apply (bool_decide_unpack (Forall (λ c, 0 <= c < 256) [22; 240])). vm_compute. exact I.
  - vm_compute. split; discriminate.
Defined.

(** C28: [fake_load_from_sni] adds a decoy that is a well-formed ClientHello, whatever the random
    numbers and the memory of the block are: a parser of hellos, that of byedpi, finds in
    it exactly the name that was asked for. *)
Theorem fake_sni_found rand_s junk name k t l :
  (∀ n, 0 <= n → blen (junk n) = n) → loaded t l → (length l < 30)%nat → bytes_wf name → blen name < 60000 →
  ∃ t' f k', fake_load_from_sni rand_s junk (Some name) k t = Ok (0, t', k') ∧ loaded t' (l ++ [f]) ∧
    fake_ok true (Some f) ∧ let p := fake_payload true (Some f) in
    (∃ c, hello_wf c ∧ p = enc_hello c) ∧
    ∃ o, parse_tls p (blen p) = Ok (blen name, Some o) ∧ sub p o (blen name) = name.
Proof.
  intros Hj Hl Hn Hw Hlen.
  destruct (sni_packet_ok rand_s junk name k Hj Hw Hlen) as (rnd & sid & tail & k' & ? & ? & ? & ? & ? & Hne & Htl & E).
  unfold fake_load_from_sni. rewrite E, bind_ok. set (c := sni_hello name rnd sid tail).
  destruct (fake_add_ok (enc_hello c) (blen (enc_hello c)) t l Hl Hn) as (t' & -> & Hl'). rewrite bind_ok.
  exists t', (Fake (enc_hello c) (blen (enc_hello c))), k'. pose proof (blen_nonneg (enc_hello c)).
  split; [done|]. split; [done|]. split; [unfold fake_ok; cbn [fake_bytes f_data f_size]; lia|].
  unfold fake_payload. cbn [fake_bytes f_data f_size]. rewrite sub_all. cbv zeta.
  assert (Hc : hello_wf c) by (by apply sni_hello_wf). split; [by exists c|].
  pose proof (parse_tls_enc c [] name tail [] Hc) as Hp. rewrite app_nil_r in Hp. apply Hp; [constructor|done|constructor|].
  rewrite Htl. pose proof (blen_nonneg name). change (blen []) with 0. lia.
Qed.

Lemma fake_sni_found_witness : ∃ t' f k',
  fake_load_from_sni (λ k, Some (Z.of_nat k * 7)) (λ n, repeat 170 (Z.to_nat n)) (Some (bs "w3.org")) 0 no_fakes = Ok (0, t', k') ∧
  loaded t' [f] ∧ fake_ok true (Some f) ∧ let p := fake_payload true (Some f) in
  (∃ c, hello_wf c ∧ p = enc_hello c) ∧ ∃ o, parse_tls p (blen p) = Ok (6, Some o) ∧ sub p o 6 = bs "w3.org".
Proof.
  apply (fake_sni_found (λ k, Some (Z.of_nat k * 7)) (λ n, repeat 170 (Z.to_nat n)) (bs "w3.org") 0 no_fakes []).
  - intros n Hn. rewrite blen_repeat. lia.
  - apply loaded_none.
  - cbn. lia.
  - apply (bool_decide_unpack (Forall (λ c, 0 <= c < 256) (bs "w3.org"))). vm_compute. exact I.
  - vm_compute. reflexivity.
Defined.

(** C27: in front of a request, [send_fake_http_request] and [send_fake_https_request] send
    exactly the decoys of [plan]: every loaded one (or the default) as often as asked, once
    with the TTL, once with a checksum that is off by one, once with numbers in the past,
    as the options say; each is the request's packet with the payload of the decoy in the
    place of its data, the length of its headers right, and nothing else changed, and every
    access is in bounds. *)
Theorem decoys_sent parse calc junk addr pkt n q (v6 https : bool) h t d tab l resend ttl chk past s :
  WinDivert parse calc → (∀ n, 0 <= n → blen (junk n) = n) →
  0 <= n <= blen pkt → parse (sub pkt 0 n) = Some q →
  (if v6 then ppIpV6Hdr q else ppIpHdr q) = Some h → ppTcpHdr q = Some t → packet_data q = Some d →
  loaded tab l →
  (∀ f, f ∈ (if bool_decide (l = []) then [None] else Some <$> l) →
     fake_ok https f ∧ n + snd (fake_bytes https f) + 1 <= MAX_PACKET_SIZE) →
  let send := if https then send_fake_https_request else send_fake_http_request in
  swp (send parse calc junk tab resend addr pkt n v6 ttl chk past) s (λ r s',
    r = 0 ∧ ∃ new, s' = s ++ new ∧
      Forall2 (decoy_sent calc addr q v6 https (sub pkt 0 n)) (plan l resend ttl chk past) new).
Proof.
  intros Hlib Hj Hn Hp Hh Ht Hd Hl Hfit. cbv zeta.
  destruct (tcp_packet_in n q v6 h t d) as (L & T & Hq); [|done..|].
  { replace n with (blen (sub pkt 0 n)) by (rewrite blen_sub; lia). by apply (parse_in (parse := parse) (calc := calc)). }
  destruct https; by apply (send_fakes_ok parse calc junk Hj addr pkt n q v6 _ L T t d Hp Hq Hn tab l resend ttl chk past Hl Hfit s).
Qed.

Lemma decoys_sent_witness :
  swp (send_fake_http_request plain_parse plain_calc (λ n, repeat 170 (Z.to_nat n)) no_fakes 1 sample_addr sample_http 58 false
    5 true true) [] (λ r s', r = 0 ∧ ∃ new, s' = [] ++ new ∧
      Forall2 (decoy_sent plain_calc sample_addr (Parsed (Some 0) None (Some 20) None (Some 40) 18) false false sample_http)
        [(None, (5, false, false)); (None, (0, true, false)); (None, (0, false, true))] new).
Proof.
  apply (decoys_sent plain_parse plain_calc (λ n, repeat 170 (Z.to_nat n)) sample_addr sample_http 58
    (Parsed (Some 0) None (Some 20) None (Some 40) 18) false false 0 20 40 no_fakes [] 1 5 true true []).
  - apply plain_library.
  - intros n Hn. rewrite blen_repeat. lia.
  - vm_compute. split; discriminate.
  - vm_compute. reflexivity.
  - reflexivity.
  - reflexivity.
  - reflexivity.
  - apply loaded_none.
  - intros f Hf. apply list_elem_of_singleton in Hf as ->. vm_compute. repeat split; discriminate.
Defined.
