(* ===== verification/GdPacket.v ===== *)
(** GoodbyeDPI's packet loop (goodbyedpi.c): what is looked for in a packet, how it is
    rewritten, cut into fragments and sent. *)
From Stdlib Require Import ZArith Lia Ascii String.
From stdpp Require Import base numbers list option.
From S2P Require Import Prelude CMem PacketsTls GdTrack GdText GdFake.

#[local] Open Scope Z_scope.
#[local] Open Scope list_scope.

(** * Strings *)

Definition http10_redirect_302 : bytes := bs "HTTP/1.0 302 ".
Definition http11_redirect_302 : bytes := bs "HTTP/1.1 302 ".
Definition http_host_find : bytes := crlf ++ bs "Host: ".
Definition http_host_replace : bytes := crlf ++ bs "hoSt: ".
Definition http_useragent_find : bytes := crlf ++ bs "User-Agent: ".
Definition location_http : bytes := crlf ++ bs "Location: http://".
Definition connection_close : bytes := crlf ++ bs "Connection: close".
Definition http_methods : list bytes :=
  [bs "GET "; bs "HEAD "; bs "POST "; bs "PUT "; bs "DELETE "; bs "CONNECT "; bs "OPTIONS "].

(** * Looking into a packet

    The data of a packet is the [pktlen] bytes of a buffer at [p]. *)

Definition memmem_body (b : bytes) (p n : Z) (needle : bytes) (i : Z) : comp (Z + option Z) :=
  if i <? n then
    c ← memcmp b (p + i) needle 0 (blen needle);
    if c =? 0 then Ok (inr (Some (p + i))) else Ok (inl (i + 1))
  else Ok (inr None).

Definition dumb_memmem (b : bytes) (p hlen : Z) (needle : bytes) : comp (option Z) :=
  let nlen := blen needle in
  if hlen <? nlen then Ok None else
  loop (memmem_body b p (hlen - nlen + 1) needle) (S (Z.to_nat (hlen - nlen + 1))) 0.

Definition is_passivedpi_redirect (b : bytes) (p pktlen : Z) : comp bool :=
  c ← memcmp b p http11_redirect_302 0 (blen http11_redirect_302);
  found ← (if c =? 0 then Ok true else
    c ← memcmp b p http10_redirect_302 0 (blen http10_redirect_302); Ok (c =? 0));
  if (found : bool) then
    l ← dumb_memmem b p pktlen location_http;
    match l with
    | None => Ok false
    | Some _ => c ← dumb_memmem b p pktlen connection_close; Ok (bool_decide (is_Some c))
    end
  else Ok false.

(** The addresses of the name and of the value, and the length of the value. *)
Definition find_header_and_get_info (b : bytes) (p pktlen : Z) (hdrname : bytes) : comp (option (Z * Z * Z)) :=
  h ← dumb_memmem b p pktlen hdrname;
  match h with
  | None => Ok None
  | Some hdr_begin =>
      let hdrvalueaddr := hdr_begin + blen hdrname in
      rn ← dumb_memmem b hdrvalueaddr (pktlen - (hdrvalueaddr - p)) crlf;
      match rn with
      | None => Ok None
      | Some data_addr_rn =>
          let hdrvaluelen := data_addr_rn - hdrvalueaddr in
          if (3 <=? hdrvaluelen) && (hdrvaluelen <=? HOST_MAXLEN) then
            Ok (Some (hdr_begin, hdrvalueaddr, hdrvaluelen))
          else Ok None
      end
  end.

(** The characters [extract_sni] takes for those of a host name. *)
Definition sni_char (c : Z) : bool :=
  ((ch "0" <=? c) && (c <=? ch "9")) || ((ch "a" <=? c) && (c <=? ch "z")) || (c =? ch ".") || (c =? ch "-").

(** The check of the name at [hnaddr], from its [i]-th character on. *)
Fixpoint sni_chars (b : bytes) (hnaddr : Z) (n : nat) : comp bool :=
  match n with
  | O => Ok true
  | S n => c ← rd b hnaddr; if sni_char c then sni_chars b (hnaddr + 1) n else Ok false
  end.

(** The test for the headers of the extension at [i]. *)
Definition sni_at (b : bytes) (i : Z) : comp bool :=
  d0 ← rd b i; d1 ← rd b (i + 1); d2 ← rd b (i + 2); d3 ← rd b (i + 3); d4 ← rd b (i + 4);
  d5 ← rd b (i + 5); d6 ← rd b (i + 6); d7 ← rd b (i + 7); d8 ← rd b (i + 8);
  Ok ((d0 =? 0) && (d1 =? 0) && (d2 =? 0) && (d4 =? 0) && (d6 =? 0) && (d7 =? 0) &&
      (d3 - d5 =? 2) && (d5 - d8 =? 3)).

Definition sni_body (b : bytes) (p pktlen : Z) (i : Z) : comp (Z + option (Z * Z)) :=
  if i + 8 <? pktlen then
    m ← sni_at b (p + i);
    if (m : bool) then
      hnlen ← rd b (p + i + 8);
      if pktlen <? i + 8 + hnlen then Ok (inr None)
      else if (hnlen <? 3) || (HOST_MAXLEN <? hnlen) then Ok (inr None) else
      ok ← sni_chars b (p + i + 9) (Z.to_nat hnlen);
      Ok (inr (if (ok : bool) then Some (p + i + 9, hnlen) else None))
    else Ok (inl (i + 1))
  else Ok (inr None).

(** The address and the length of the name. *)
Definition extract_sni (b : bytes) (p pktlen : Z) : comp (option (Z * Z)) :=
  loop (sni_body b p pktlen) (S (Z.to_nat pktlen)) 0.

(** The end of the method, and whether the packet is the second part of a request. *)
Fixpoint method_end (b : bytes) (pkt http_frag : Z) (l : list bytes) : comp (option (Z * bool)) :=
  match l with
  | [] => Ok None
  | m :: l =>
      c ← memcmp b pkt m 0 (blen m);
      if c =? 0 then Ok (Some (pkt + blen m - 1, false)) else
      c ← (if (http_frag =? 1) || (http_frag =? 2) then memcmp b pkt m http_frag (blen m - http_frag) else Ok 1);
      if c =? 0 then Ok (Some (pkt + blen m - http_frag - 1, true)) else
      method_end b pkt http_frag l
  end.
Definition find_http_method_end (b : bytes) (pkt http_frag : Z) : comp (option (Z * bool)) :=
  method_end b pkt http_frag http_methods.

(** * Rewriting a packet *)

Definition mix_body (p pktlen : Z) (x : Z * bytes) : comp (Z * bytes + bytes) :=
  let '(i, b) := x in
  if i <? pktlen then
    b ← (if i mod 2 =? 1 then c ← rd b (p + i); wr b (p + i) (toupper c) else Ok b);
    Ok (inl (i + 1, b))
  else Ok (inr b).
Definition mix_case (b : bytes) (p pktlen : Z) : comp bytes :=
  loop (mix_body p pktlen) (S (Z.to_nat pktlen)) (0, b).

Definition change_window_size (b : bytes) (tcp size : Z) : comp bytes :=
  if (1 <=? size) && (size <=? 65535) then htons_at b (tcp + tcp_Window) size else Ok b.

(** The space in front of the host goes to the end of the User-Agent. *)
Definition remove_space (b : bytes) (host_addr useragent_addr useragent_len : Z) : comp bytes :=
  if host_addr <? useragent_addr then
    b ← memmove b (host_addr - 1) host_addr (useragent_addr + useragent_len - host_addr);
    wr b (useragent_addr + useragent_len - 1) (ch " ")
  else
    b ← memmove b (useragent_addr + useragent_len + 1) (useragent_addr + useragent_len)
          (host_addr - 1 - (useragent_addr + useragent_len));
    wr b (useragent_addr + useragent_len) (ch " ").

(** * The state of the program *)

(** The options, as [main] has set them before it opens the filters; [o_hosts] is the list
    that was loaded, [o_fake_table] and [o_fakes_resend] are the variables of fakepackets.c. *)
Record options := Options {
  o_do_passivedpi : bool; o_do_block_quic : bool; o_do_fragment_http : bool;
  o_do_fragment_http_persistent : bool; o_do_fragment_http_persistent_nowait : bool;
  o_do_fragment_https : bool; o_do_host : bool; o_do_host_removespace : bool;
  o_do_additional_space : bool; o_do_http_allports : bool; o_do_host_mixedcase : bool;
  o_do_dnsv4_redirect : bool; o_do_dnsv6_redirect : bool; o_do_dns_verb : bool;
  o_do_tcp_verb : bool; o_do_blacklist : bool; o_do_allow_no_sni : bool;
  o_do_fragment_by_sni : bool; o_do_fake_packet : bool; o_do_auto_ttl : bool;
  o_do_wrong_chksum : bool; o_do_wrong_seq : bool; o_do_native_frag : bool;
  o_do_reverse_frag : bool; o_http_fragment_size : Z; o_https_fragment_size : Z;
  o_max_payload_size : Z; o_ttl_min_nhops : Z; o_auto_ttl_1 : Z; o_auto_ttl_2 : Z;
  o_auto_ttl_max : Z; o_dnsv4_addr : bytes; o_dnsv6_addr : bytes; o_dnsv4_port : bytes;
  o_dnsv6_port : bytes; o_fake_table : fake_table; o_fakes_resend : Z; o_hosts : list bytes }.

(** The buffer of the packet, [ttl_of_fake_packet], the trackers, and what was sent. *)
Record engine := Engine {
  g_packet : bytes; g_ttl_of_fake_packet : Z;
  g_dns : tracker Dns.dns_record; g_tcp : tracker Z; g_sent : list sent }.

(** The options of a start without arguments, which is mode [-9]. *)
Definition default_options : options := {|
  o_do_passivedpi := false; o_do_block_quic := true; o_do_fragment_http := true;
  o_do_fragment_http_persistent := true; o_do_fragment_http_persistent_nowait := true; o_do_fragment_https := true;
  o_do_host := false; o_do_host_removespace := false; o_do_additional_space := false; o_do_http_allports := false;
  o_do_host_mixedcase := false; o_do_dnsv4_redirect := false; o_do_dnsv6_redirect := false; o_do_dns_verb := false;
  o_do_tcp_verb := false; o_do_blacklist := false; o_do_allow_no_sni := false; o_do_fragment_by_sni := false;
  o_do_fake_packet := true; o_do_auto_ttl := false; o_do_wrong_chksum := true; o_do_wrong_seq := true;
  o_do_native_frag := true; o_do_reverse_frag := true; o_http_fragment_size := 2; o_https_fragment_size := 2;
  o_max_payload_size := 1200; o_ttl_min_nhops := 0; o_auto_ttl_1 := 1; o_auto_ttl_2 := 4; o_auto_ttl_max := 0;
  o_dnsv4_addr := [0; 0; 0; 0]; o_dnsv6_addr := repeat 0 16; o_dnsv4_port := [0; 53]; o_dnsv6_port := [0; 53];
  o_fake_table := no_fakes; o_fakes_resend := 1; o_hosts := [] |}.

(** The state in which the loop starts, with the TTL for decoys that was set. *)
Definition start (junk : Z → bytes) (ttl : Z) : engine :=
  Engine (junk MAX_PACKET_SIZE) ttl (Tracker 0 [] 0) (Tracker 0 [] 0) [].

Abbreviation M := (ST engine).

Definition set_packet (b : bytes) : M unit :=
  modify (λ s, Engine b (g_ttl_of_fake_packet s) (g_dns s) (g_tcp s) (g_sent s)).
Definition set_ttl_of_fake_packet (v : Z) : M unit :=
  modify (λ s, Engine (g_packet s) v (g_dns s) (g_tcp s) (g_sent s)).
Definition on_dns {A} (m : ST (tracker Dns.dns_record) A) : M A := λ s,
  '(a, t) ← m (g_dns s); Ok (a, Engine (g_packet s) (g_ttl_of_fake_packet s) t (g_tcp s) (g_sent s)).
Definition on_tcp {A} (m : ST (tracker Z) A) : M A := λ s,
  '(a, t) ← m (g_tcp s); Ok (a, Engine (g_packet s) (g_ttl_of_fake_packet s) (g_dns s) t (g_sent s)).
Definition on_wire {A} (m : ST (list sent) A) : M A := λ s,
  '(a, l) ← m (g_sent s); Ok (a, Engine (g_packet s) (g_ttl_of_fake_packet s) (g_dns s) (g_tcp s) l).

(** A computation on the buffer. *)
Definition look {A} (f : bytes → comp A) : M A := b ← gets g_packet; lift (f b).
Definition edit (f : bytes → comp bytes) : M unit := b ← gets g_packet; b ← lift (f b); set_packet b.

Inductive packet_type_e :=
| unknown | ipv4_tcp | ipv4_tcp_data | ipv4_udp_data | ipv6_tcp | ipv6_tcp_data | ipv6_udp_data.
#[export] Instance packet_type_eq_dec : EqDecision packet_type_e.
Proof. solve_decision. Defined.

Section engine.
Context (parse : bytes → option parsed) (calc : bytes → address → bytes * address) (junk : Z → bytes).
Context (clock : nat → Z) (o : options).

(** * Fragments *)

(** The new value of the length of the IP header. *)
Definition set_length (p : parsed) (packet_v4 packet_v6 : bool) (f : Z → Z) : M unit :=
  if packet_v4 then
    ip ← lift (ptr (ppIpHdr p));
    edit (λ b, n ← ntohs_at b (ip + ip_Length); htons_at b (ip + ip_Length) (f n))
  else if packet_v6 then
    ip ← lift (ptr (ppIpV6Hdr p));
    edit (λ b, n ← ntohs_at b (ip + ipv6_Length); htons_at b (ip + ipv6_Length) (f n))
  else skip.

(** [step = 1] is [true]. *)
Definition send_native_fragment (addr : address) (packetLen : Z) (p : parsed) (packet_v4 packet_v6 : bool)
    (fragment_size : Z) (step : bool) : M unit :=
  packet_bak ← look (λ b, memcpy (junk MAX_PACKET_SIZE) 0 b 0 packetLen);
  let orig_packetLen := packetLen in
  if (packet_dataLen p <=? fragment_size) && negb step then skip else
  let fragment_size := if packet_dataLen p <=? fragment_size then 0 else fragment_size in
  packetLen ← (if negb step then
      set_length p packet_v4 packet_v6 (λ n, n - packet_dataLen p + fragment_size);;
      mret (packetLen - packet_dataLen p + fragment_size)
    else
      set_length p packet_v4 packet_v6 (λ n, n - fragment_size);;
      data ← lift (ptr (packet_data p));
      edit (λ b, memmove b data (data + fragment_size) (packet_dataLen p - fragment_size));;
      tcp ← lift (ptr (ppTcpHdr p));
      edit (λ b, s ← ntohl_at b (tcp + tcp_SeqNum); htonl_at b (tcp + tcp_SeqNum) (s + fragment_size));;
      mret (packetLen - fragment_size));
  let addr := Address (a_Outbound addr) false false (a_rest addr) in
  '(b, addr) ← look (λ b, calc_checksums calc b packetLen addr);
  set_packet b;;
  b ← gets g_packet; on_wire (WinDivertSend b packetLen addr);;
  edit (λ b, memcpy b 0 packet_bak 0 orig_packetLen).

(** * The handlers of the packet loop *)

(** The packet of one round, and what the handlers leave for the end of the round:
    [should_reinject], [should_recalc_checksum], and the address of the host, [Some] when
    [sni_ok]. *)
Record received := Received {
  rc_addr : address; rc_packetLen : Z; rc_parsed : parsed; rc_v4 : bool; rc_v6 : bool;
  rc_type : packet_type_e }.
Record verdict := Verdict { should_reinject : bool; should_recalc_checksum : bool; host_addr : option Z }.

(** The type of a packet, and whether it is of IPv4 or of IPv6. *)
Definition packet_type (r : option parsed) : packet_type_e * bool * bool :=
  match r with
  | None => (unknown, false, false)
  | Some p =>
      let has {A} (x : option A) := bool_decide (is_Some x) in
      if has (ppIpHdr p) then
        (if has (ppTcpHdr p) then if has (packet_data p) then ipv4_tcp_data else ipv4_tcp
         else if has (ppUdpHdr p) && has (packet_data p) then ipv4_udp_data else unknown, true, false)
      else if has (ppIpV6Hdr p) then
        (if has (ppTcpHdr p) then if has (packet_data p) then ipv6_tcp_data else ipv6_tcp
         else if has (ppUdpHdr p) && has (packet_data p) then ipv6_udp_data else unknown, false, true)
      else (unknown, false, false)
  end.

Definition port_80 : bytes := [0; 80].

(** [ppTcpHdr->DstPort] and the like, in network byte order. *)
Definition field (hdr : option Z) (off n : Z) : M bytes :=
  h ← lift (ptr hdr); look (λ b, rds b (h + off) n).
Definition put_field (hdr : option Z) (off : Z) (v : bytes) : M unit :=
  h ← lift (ptr hdr); edit (λ b, store b (h + off) v).

Definition SrcAddr (r : received) : M bytes :=
  if rc_v4 r then field (ppIpHdr (rc_parsed r)) ip_SrcAddr 4 else field (ppIpV6Hdr (rc_parsed r)) ipv6_SrcAddr 16.
Definition DstAddr (r : received) : M bytes :=
  if rc_v4 r then field (ppIpHdr (rc_parsed r)) ip_DstAddr 4 else field (ppIpV6Hdr (rc_parsed r)) ipv6_DstAddr 16.

(** [TCP_HANDLE_OUTGOING_TTL_PARSE_PACKET_IF] *)
Definition outgoing_ttl (r : received) : M (option Tcp.tcp_conntrack_info) :=
  if rc_v4 r || rc_v6 r then
    src ← SrcAddr r; dst ← DstAddr r;
    sp ← field (ppTcpHdr (rc_parsed r)) tcp_SrcPort 2; dp ← field (ppTcpHdr (rc_parsed r)) tcp_DstPort 2;
    on_tcp (Tcp.tcp_handle_outgoing clock src dst sp dp (rc_v6 r))
  else mret None.

(** [TCP_HANDLE_OUTGOING_FAKE_PACKET], for [send_fake_https_request] or [send_fake_http_request]. *)
Definition handle_fake_packet (is_https : bool) (r : received) : M unit :=
  should_send_fake ←
    (if o_do_auto_ttl o || negb (o_ttl_min_nhops o =? 0) then
      info ← outgoing_ttl r;
      match info with
      | None => mret true
      | Some info =>
          let ttl := Tcp.ti_ttl info in
          if o_do_auto_ttl o then
            set_ttl_of_fake_packet (u8 (Tcp.tcp_get_auto_ttl ttl (o_auto_ttl_1 o) (o_auto_ttl_2 o)
                                         (o_ttl_min_nhops o) (o_auto_ttl_max o)));;
            mret true
          else mret (negb (Tcp.tcp_get_auto_ttl ttl 0 0 (o_ttl_min_nhops o) 0 =? 0))
      end
    else mret true);
  if (should_send_fake : bool) then
    b ← gets g_packet; ttl ← gets g_ttl_of_fake_packet;
    let send := if is_https then send_fake_https_request else send_fake_http_request in
    on_wire (send parse calc junk (o_fake_table o) (o_fakes_resend o) (rc_addr r) b (rc_packetLen r) (rc_v6 r)
               ttl (o_do_wrong_chksum o) (o_do_wrong_seq o));;
    skip
  else skip.

(** [WINDIVERT_IPV6HDR_GET_FLOWLABEL(ppIpV6Hdr) == 0x0] *)
Definition no_flowlabel (p : parsed) : M bool :=
  l ← field (ppIpV6Hdr p) 1 3;
  mret ((Z.land (bat l 0) 15 =? 0) && (bat l 1 =? 0) && (bat l 2 =? 0)).

(** An inbound packet with data. *)
Definition handle_inbound_data (r : received) (data len : Z) : M verdict :=
  redirect ← (if o_do_passivedpi o then look (λ b, is_passivedpi_redirect b data len) else mret false);
  if (redirect : bool) then
    drop ← (if rc_v4 r then mret true else if rc_v6 r then no_flowlabel (rc_parsed r) else mret false);
    mret (Verdict (negb drop) false None)
  else mret (Verdict true false None).

(** [memcmp(packet_data, "\x16\x03...", ...)] *)
Definition is_tls_data (b : bytes) (data len : Z) : comp bool :=
  if len =? 2 then c ← memcmp b data [22; 3] 0 2; Ok (c =? 0)
  else if 3 <=? len then
    c ← memcmp b data [22; 3; 1] 0 3;
    if c =? 0 then Ok true else c ← memcmp b data [22; 3; 3] 0 3; Ok (c =? 0)
  else Ok false.

(** An outbound packet that may be a TLS handshake. *)
Definition handle_https (r : received) (data len : Z) : M verdict :=
  tls ← look (λ b, is_tls_data b data len);
  if (tls : bool) then
    sni ← (if o_do_blacklist o || o_do_fragment_by_sni o then look (λ b, extract_sni b data len) else mret None);
    act ← (if o_do_blacklist o then
        match sni with
        | Some (host, host_len) => look (λ b, blackwhitelist_check_hostname junk (o_hosts o) b host host_len)
        | None => mret (o_do_allow_no_sni o)
        end
      else mret true);
    if (act : bool) then
      (if o_do_fake_packet o then handle_fake_packet true r else skip);;
      mret (Verdict true (o_do_native_frag o) (fst <$> sni))
    else mret (Verdict true false (fst <$> sni))
  else mret (Verdict true false None).

(** What [-a] and [-s] do to the request; the result is whether it was changed. *)
Definition change_spaces (data len host_addr : Z) : M bool :=
  if o_do_additional_space o && o_do_host_removespace o then
    m ← look (λ b, find_http_method_end b data (if o_do_fragment_http o then o_http_fragment_size o else 0));
    match m with
    | Some (method_addr, _) =>
        edit (λ b, memmove b (method_addr + 1) method_addr (host_addr - method_addr - 1));; mret true
    | None => mret false
    end
  else if o_do_host_removespace o then
    ua ← look (λ b, find_header_and_get_info b data len http_useragent_find);
    match ua with
    | Some (_, useragent_addr, useragent_len) =>
        if 0 <? useragent_len then
          edit (λ b, remove_space b host_addr useragent_addr useragent_len);; mret true
        else mret false
    | None => mret false
    end
  else mret false.

(** An outbound packet that is an HTTP request. *)
Definition handle_http (r : received) (data len : Z) : M verdict :=
  h ← look (λ b, find_header_and_get_info b data len http_host_find);
  match h with
  | None => mret (Verdict true false None)
  | Some (hdr_name_addr, host_addr, host_len) =>
      if (0 <? host_len) && (host_len <=? HOST_MAXLEN) then
        act ← (if o_do_blacklist o then
            look (λ b, blackwhitelist_check_hostname junk (o_hosts o) b host_addr host_len) else mret true);
        if (act : bool) then
          (if o_do_fake_packet o then handle_fake_packet false r else skip);;
          (if o_do_host_mixedcase o then edit (λ b, mix_case b host_addr host_len) else skip);;
          (if o_do_host o then edit (λ b, memcpy b hdr_name_addr http_host_replace 0 (blen http_host_replace)) else skip);;
          c ← change_spaces data len host_addr;
          mret (Verdict true (o_do_native_frag o || o_do_host_mixedcase o || o_do_host o || c) None)
        else mret (Verdict true false None)
      else mret (Verdict true false None)
  end.

(** The fragments of a packet that was handled, or [false] when it is not cut. *)
Definition fragment_packet (r : received) (v : verdict) (data : Z) : M bool :=
  if should_reinject v && should_recalc_checksum v && o_do_native_frag o then
    dport ← field (ppTcpHdr (rc_parsed r)) tcp_DstPort 2;
    let current_fragment_size :=
      if o_do_fragment_http o && bool_decide (dport = port_80) then o_http_fragment_size o
      else if o_do_fragment_https o && negb (bool_decide (dport = port_80)) then
        match host_addr v with
        | Some host => if o_do_fragment_by_sni o then host - data else o_https_fragment_size o
        | None => o_https_fragment_size o
        end
      else 0 in
    if current_fragment_size =? 0 then mret false else
    let send := send_native_fragment (rc_addr r) (rc_packetLen r) (rc_parsed r) (rc_v4 r) (rc_v6 r)
                  current_fragment_size in
    send (o_do_reverse_frag o);; send (negb (o_do_reverse_frag o));; mret true
  else mret false.

(** A TCP packet with data; [None] when its fragments were sent. *)
Definition handle_tcp_data (r : received) : M (option verdict) :=
  let len := packet_dataLen (rc_parsed r) in
  data ← lift (ptr (packet_data (rc_parsed r)));
  dport ← field (ppTcpHdr (rc_parsed r)) tcp_DstPort 2;
  let Outbound := a_Outbound (rc_addr r) in
  v ← (if negb Outbound && (16 <? len) then handle_inbound_data r data len
    else if Outbound && ((o_do_fragment_https o && (len =? o_https_fragment_size o)) || (16 <? len)) &&
            negb (bool_decide (dport = port_80)) && (o_do_fake_packet o || o_do_native_frag o) then
      handle_https r data len
    else if Outbound && (16 <? len) && (o_do_http_allports o || bool_decide (dport = port_80)) then
      method ← look (λ b, find_http_method_end b data (if o_do_fragment_http o then o_http_fragment_size o else 0));
      if bool_decide (is_Some method) &&
         (o_do_host o || o_do_host_removespace o || o_do_host_mixedcase o || o_do_fragment_http_persistent o ||
          o_do_fake_packet o)
      then handle_http r data len else mret (Verdict true false None)
    else mret (Verdict true false None));
  cut ← fragment_packet r v data;
  mret (if (cut : bool) then None else Some v).

(** A TCP packet without data: the answer of a server to a connection. *)
Definition handle_tcp (r : received) : M verdict :=
  tcp ← lift (ptr (ppTcpHdr (rc_parsed r)));
  flags ← look (λ b, rd b (tcp + 13));
  if negb (a_Outbound (rc_addr r)) && Z.testbit flags 1 && Z.testbit flags 4 then
    sp ← field (ppTcpHdr (rc_parsed r)) tcp_SrcPort 2; dp ← field (ppTcpHdr (rc_parsed r)) tcp_DstPort 2;
    (if o_do_fake_packet o && (o_do_auto_ttl o || negb (o_ttl_min_nhops o =? 0)) && (rc_v4 r || rc_v6 r) then
      src ← SrcAddr r; dst ← DstAddr r;
      ttl ← (if rc_v4 r then field (ppIpHdr (rc_parsed r)) ip_TTL 1 else field (ppIpV6Hdr (rc_parsed r)) ipv6_HopLimit 1);
      on_tcp (Tcp.tcp_handle_incoming clock src dst sp dp (rc_v6 r) (bat ttl 0));; skip
    else skip);;
    if negb (o_do_native_frag o) then
      if o_do_fragment_http o && bool_decide (sp = port_80) then
        edit (λ b, change_window_size b tcp (o_http_fragment_size o));; mret (Verdict true true None)
      else if o_do_fragment_https o && negb (bool_decide (sp = port_80)) then
        edit (λ b, change_window_size b tcp (o_https_fragment_size o));; mret (Verdict true true None)
      else mret (Verdict true false None)
    else mret (Verdict true false None)
  else mret (Verdict true false None).

(** A UDP packet, when DNS is redirected. *)
Definition handle_dns (r : received) : M verdict :=
  let len := packet_dataLen (rc_parsed r) in
  data ← lift (ptr (packet_data (rc_parsed r)));
  packet ← look (λ b, rds b data len);
  let udp := ppUdpHdr (rc_parsed r) in
  sp ← field udp udp_SrcPort 2; dp ← field udp udp_DstPort 2;
  src ← SrcAddr r; dst ← DstAddr r;
  let drop outgoing :=
    dns ← lift (Dns.dns_is_dns_packet packet len outgoing); mret (Verdict (negb dns) false None) in
  if negb (a_Outbound (rc_addr r)) then
    info ← on_dns (Dns.dns_handle_incoming clock dst dp packet len (rc_v6 r));
    match info with
    | Some info =>
        (if rc_v4 r then put_field (ppIpHdr (rc_parsed r)) ip_SrcAddr (take 4 (Dns.ci_dstip info))
         else put_field (ppIpV6Hdr (rc_parsed r)) ipv6_SrcAddr (Dns.ci_dstip info));;
        put_field udp udp_DstPort (Dns.ci_srcport info);;
        put_field udp udp_SrcPort (Dns.ci_dstport info);;
        mret (Verdict true true None)
    | None => drop false
    end
  else
    ok ← on_dns (Dns.dns_handle_outgoing clock src sp dst dp packet len (rc_v6 r));
    if (ok : bool) then
      (if rc_v4 r then put_field (ppIpHdr (rc_parsed r)) ip_DstAddr (o_dnsv4_addr o);; put_field udp udp_DstPort (o_dnsv4_port o)
       else put_field (ppIpV6Hdr (rc_parsed r)) ipv6_DstAddr (o_dnsv6_addr o);; put_field udp udp_DstPort (o_dnsv6_port o));;
      mret (Verdict true true None)
    else drop true.

(** The end of the round. *)
Definition reinject (addr : address) (packetLen : Z) (v : verdict) : M unit :=
  if should_reinject v then
    addr ← (if should_recalc_checksum v then
        '(b, addr) ← look (λ b, calc_checksums calc b packetLen addr); set_packet b;; mret addr
      else mret addr);
    b ← gets g_packet; on_wire (WinDivertSend b packetLen addr)
  else skip.

(** One round of the loop, once [WinDivertRecv] has filled the buffer. *)
Definition handle_packet (addr : address) (packetLen : Z) : M unit :=
  p ← look (λ b, parse_packet parse b packetLen);
  let '(type, v4, v6) := packet_type p in
  v ← match p with
      | None => mret (Some (Verdict true false None))
      | Some p =>
          let r := Received addr packetLen p v4 v6 type in
          if bool_decide (type = ipv4_tcp_data ∨ type = ipv6_tcp_data) then handle_tcp_data r
          else if bool_decide (type = ipv4_tcp ∨ type = ipv6_tcp) then v ← handle_tcp r; mret (Some v)
          else if (o_do_dnsv4_redirect o && bool_decide (type = ipv4_udp_data)) ||
                  (o_do_dnsv6_redirect o && bool_decide (type = ipv6_udp_data)) then
            v ← handle_dns r; mret (Some v)
          else mret (Some (Verdict true false None))
      end;
  match v with Some v => reinject addr packetLen v | None => skip end.

(** The loop, over the packets that [WinDivertRecv] returns until it fails. *)
Fixpoint packet_loop (l : list sent) : M unit :=
  match l with
  | [] => skip
  | (data, addr) :: l =>
      edit (λ b, store b 0 data);; handle_packet addr (blen data);; packet_loop l
  end.
End engine.

(** * Rules *)

Definition with_packet (b : bytes) (s : engine) : engine :=
  Engine b (g_ttl_of_fake_packet s) (g_dns s) (g_tcp s) (g_sent s).
Definition with_sent (l : list sent) (s : engine) : engine :=
  Engine (g_packet s) (g_ttl_of_fake_packet s) (g_dns s) (g_tcp s) l.

Lemma swp_bind_inv {S A B} (m : ST S A) (f : A → ST S B) s P :
  swp (x ← m; f x) s P → swp m s (λ a s', swp (f a) s' P).
Proof. unfold swp, mbind, st_bind. cbn. unfold mbind, comp_bind. by destruct (m s) as [[a s']|]. Qed.
Lemma swp_look {A} (f : bytes → comp A) s (P : A → engine → Prop) :
  wp (f (g_packet s)) (λ a, P a s) → swp (look f) s P.
Proof. intros H. unfold look. sstep. sstep. by sstep. Qed.
Lemma swp_edit f s (P : unit → engine → Prop) :
  wp (f (g_packet s)) (λ b, P tt (with_packet b s)) → swp (edit f) s P.
Proof.
  intros H. unfold edit. sstep. sstep. sstep. sstep. eapply wp_mono; [exact H|]. cbv beta. intros b Hb.
  unfold set_packet. by sstep.
Qed.
Lemma swp_on_wire {A} (m : ST (list sent) A) s (P : A → engine → Prop) :
  swp m (g_sent s) (λ a l, P a (with_sent l s)) → swp (on_wire m) s P.
Proof. unfold swp, on_wire. cbn. by destruct (m (g_sent s)) as [[a l]|]. Qed.
Lemma swp_on_dns {A} (m : ST (tracker Dns.dns_record) A) s (P : A → engine → Prop) :
  swp m (g_dns s) (λ a t, P a (Engine (g_packet s) (g_ttl_of_fake_packet s) t (g_tcp s) (g_sent s))) → swp (on_dns m) s P.
Proof. unfold swp, on_dns. cbn. by destruct (m (g_dns s)) as [[a l]|]. Qed.
Lemma swp_on_tcp {A} (m : ST (tracker Z) A) s (P : A → engine → Prop) :
  swp m (g_tcp s) (λ a t, P a (Engine (g_packet s) (g_ttl_of_fake_packet s) (g_dns s) t (g_sent s))) → swp (on_tcp m) s P.
Proof. unfold swp, on_tcp. cbn. by destruct (m (g_tcp s)) as [[a l]|]. Qed.

(** * Searching *)

Lemma bytes_cmp_eq a b : blen a = blen b → (bytes_cmp a b =? 0) = bool_decide (a = b).
Proof.
  revert b. induction a as [|x a IH]; intros [|y b] Hl; rewrite ?blen_cons, ?blen_nil in Hl;
    try (pose proof (blen_nonneg a)); try (pose proof (blen_nonneg b)); try lia; [done|].
  cbn [bytes_cmp]. destruct (Z.ltb_spec x y); [rewrite bool_decide_eq_false_2; [done|intros [=]; lia]|].
  destruct (Z.ltb_spec y x); [rewrite bool_decide_eq_false_2; [done|intros [=]; lia]|].
  assert (y = x) as -> by lia. rewrite IH by lia. apply bool_decide_ext. split; [by intros ->|by intros [= ->]].
Qed.

(** [memcmp(b + i, m + j, n) == 0] *)
Lemma wp_memcmp b i m j n P : 0 <= i → 0 <= n → i + n <= blen b → 0 <= j → j + n <= blen m →
  (∀ c, (c =? 0) = bool_decide (sub b i n = sub m j n) → P c) → wp (memcmp b i m j n) P.
Proof.
  intros ????? HP. unfold memcmp. destruct (Z.eqb_spec n 0) as [->|].
  - apply wp_ok. apply HP. by rewrite !sub_0, bool_decide_eq_true_2.
  - apply wp_bind, wp_rds; [lia|lia|lia|]. apply wp_bind, wp_rds; [lia|lia|lia|]. apply wp_ok, HP.
    apply bytes_cmp_eq. rewrite !blen_sub; lia.
Qed.

Section search.
Context (b : bytes) (p hlen : Z).
Context (Hp : 0 <= p) (Hlen : 0 <= hlen) (Hin : p + hlen <= blen b).

(** [needle] is at [i]. *)
Definition occurs (needle : bytes) (i : Z) : Prop := sub b i (blen needle) = needle.

Lemma dumb_memmem_ok needle :
  wp (dumb_memmem b p hlen needle) (λ r, match r with
    | Some i => p <= i ∧ i + blen needle <= p + hlen ∧ occurs needle i ∧ ∀ j, p <= j < i → ¬ occurs needle j
    | None => ∀ j, p <= j → j + blen needle <= p + hlen → ¬ occurs needle j
    end).
Proof.
  unfold dumb_memmem. pose proof (blen_nonneg needle). destruct (Z.ltb_spec hlen (blen needle)); [apply wp_ok; lia|].
  apply (wp_loop _ (λ i, 0 <= i <= hlen - blen needle + 1 ∧ ∀ j, p <= j < p + i → ¬ occurs needle j)
           (λ i, Z.to_nat (hlen - blen needle + 1 - i))); [|split; [lia|intros; lia]|lia].
  intros i [Hi Hno]. unfold memmem_body. destruct (Z.ltb_spec i (hlen - blen needle + 1)).
  - apply wp_bind, wp_memcmp; [lia|lia|lia|lia|lia|]. intros c Hc. rewrite sub_all in Hc. rewrite Hc.
    case_bool_decide as Hb; apply wp_ok.
    + split_and!; [lia|lia|done|]. intros j Hj. apply Hno. lia.
    + split; [|lia]. split; [lia|]. intros j Hj. destruct (decide (j = p + i)) as [->|]; [done|]. apply Hno. lia.
  - apply wp_ok. intros j Hj Hjn. apply Hno. lia.
Qed.
End search.

(** What [find_header_and_get_info] finds. *)
Record header_at (b : bytes) (p len : Z) (name : bytes) (h v l : Z) : Prop := {
  ha_v : v = h + blen name; ha_first : p <= h; ha_name : occurs b name h;
  ha_none j : p <= j < h → ¬ occurs b name j;
  ha_len : 3 <= l <= HOST_MAXLEN; ha_in : v + l + 2 <= p + len; ha_end : occurs b crlf (v + l);
  ha_line j : v <= j < v + l → ¬ occurs b crlf j }.

Lemma header_at_unique b p len name h v l h' v' l' :
  header_at b p len name h v l → header_at b p len name h' v' l' → h = h' ∧ v = v' ∧ l = l'.
Proof.
  intros [-> F1 N1 U1 L1 I1 E1 O1] [-> F2 N2 U2 L2 I2 E2 O2]. assert (h = h') as <-.
  { destruct (Z.lt_trichotomy h h') as [|[|]]; [|done|].
    - by destruct (U2 h).
    - by destruct (U1 h'). }
  assert (l = l') as <-; [|done]. destruct (Z.lt_trichotomy l l') as [|[|]]; [|done|].
  - by destruct (O2 (h + blen name + l)); [lia|].
  - by destruct (O1 (h + blen name + l')); [lia|].
Qed.

Lemma find_header_ok b p len name : 0 <= p → 0 <= len → p + len <= blen b →
  wp (find_header_and_get_info b p len name) (λ r, match r with
    | Some (h, v, l) => header_at b p len name h v l
    | None => ∀ h v l, ¬ header_at b p len name h v l
    end).
Proof.
  intros Hp Hl Hin. unfold find_header_and_get_info. pose proof (blen_nonneg name).
  apply wp_bind. eapply wp_mono; [by apply dumb_memmem_ok|]. cbv beta. intros [h|].
  2: { intros Hno. apply wp_ok. intros h v l [-> ? Hn _ ? ? ? _]. apply (Hno h); [done|lia|done]. }
  intros (H1 & H2 & H3 & H4). assert (Huniq : ∀ h' v l, header_at b p len name h' v l → h' = h).
  { intros h' v l [_ ? Hn Hnone _ _ _ _]. destruct (Z.lt_trichotomy h h') as [|[|]]; [|done|].
    - by destruct (Hnone h).
    - by destruct (H4 h'). }
  apply wp_bind. eapply wp_mono; [apply dumb_memmem_ok; lia|]. cbv beta. change (blen crlf) with 2. intros [rn|].
  2: { intros Hno. apply wp_ok. intros h' v l Hh. pose proof (Huniq _ _ _ Hh) as ->. destruct Hh as [-> _ _ _ ? ? He _].
       apply (Hno (h + blen name + l)); [lia|lia|done]. }
  intros (R1 & R2 & R3 & R4). set (l := rn - (h + blen name)).
  destruct ((3 <=? l) && (l <=? HOST_MAXLEN)) eqn:El; apply wp_ok.
  - split; [done|lia|done|done|lia|lia| |].
    + by replace (h + blen name + l) with rn by lia.
    + intros j Hj. apply R4. lia.
  - intros h' v l' Hh. pose proof (Huniq _ _ _ Hh) as ->. destruct Hh as [-> _ _ _ Hl' Hin' He Hline].
    assert (l' = l); [|lia]. destruct (Z.lt_trichotomy (h + blen name + l') rn) as [|[|]].
    + by destruct (R4 (h + blen name + l')); [lia|].
    + lia.
    + by destruct (Hline rn); [lia|].
Qed.
Lemma header_at_found b p len name h v l : 0 <= p → 0 <= len → p + len <= blen b →
  find_header_and_get_info b p len name = Ok (Some (h, v, l)) → header_at b p len name h v l.
Proof. intros Hp Hl Hb E. pose proof (find_header_ok b p len name Hp Hl Hb) as H. by rewrite E in H. Qed.

(** ** The server name *)

Definition sni_here (b : bytes) (i : Z) : bool :=
  (bat b i =? 0) && (bat b (i + 1) =? 0) && (bat b (i + 2) =? 0) && (bat b (i + 4) =? 0) && (bat b (i + 6) =? 0) &&
  (bat b (i + 7) =? 0) && (bat b (i + 3) - bat b (i + 5) =? 2) && (bat b (i + 5) - bat b (i + 8) =? 3).

Lemma sni_at_ok b i : 0 <= i → i + 8 < blen b → sni_at b i = Ok (sni_here b i).
Proof. intros. unfold sni_at. by rewrite !rd_eq by lia. Qed.

Lemma sni_chars_ok b h n : 0 <= h → h + Z.of_nat n <= blen b →
  sni_chars b h n = Ok (forallb sni_char (sub b h (Z.of_nat n))).
Proof.
  revert h. induction n as [|n IH]; intros h Hh Hn; [done|]. cbn [sni_chars]. rewrite rd_eq, bind_ok by lia.
  assert (E : sub b h (Z.of_nat (S n)) = bat b h :: sub b (h + 1) (Z.of_nat n)).
  { rewrite (sub_split b h (Z.of_nat (S n)) 1) by lia. replace (Z.of_nat (S n) - 1) with (Z.of_nat n) by lia.
    assert (E1 : sub b h 1 = [bat b h]).
    { apply bytes_ext; [rewrite blen_sub by lia; done|]. intros j Hj. rewrite blen_sub in Hj by lia.
      rewrite bat_sub by lia. assert (j = 0) as -> by lia. by rewrite Z.add_0_r. }
    by rewrite E1. }
  rewrite E. cbn [forallb]. destruct (sni_char (bat b h)); [|done]. cbn [andb]. apply IH; lia.
Qed.

(** What [extract_sni] takes for the server name: the first place that looks like the
    headers of the extension, if what follows looks like a name.  The name may end one byte
    behind the data. *)
Record sni_found (b : bytes) (p len h n : Z) : Prop := {
  sf_range : p <= h - 9 ∧ h - 1 < p + len; sf_here : sni_here b (h - 9) = true;
  sf_first j : p <= j < h - 9 → sni_here b j = false;
  sf_n : n = bat b (h - 1); sf_len : 3 <= n <= HOST_MAXLEN; sf_in : h + n <= p + len + 1;
  sf_chars : forallb sni_char (sub b h n) = true }.

Lemma sni_found_unique b p len h n h' n' : sni_found b p len h n → sni_found b p len h' n' → h = h' ∧ n = n'.
Proof.
  intros [R1 H1 F1 -> _ _ _] [R2 H2 F2 -> _ _ _]. assert (h = h') as ->; [|done].
  destruct (Z.lt_trichotomy h h') as [|[|]]; [|done|].
  - by rewrite F2 in H1 by lia.
  - by rewrite F1 in H2 by lia.
Qed.

Lemma extract_sni_ok b p len : 0 <= p → 0 <= len → p + len < blen b →
  wp (extract_sni b p len) (λ r, match r with
    | Some (h, n) => sni_found b p len h n
    | None => ∀ h n, ¬ sni_found b p len h n
    end).
Proof.
  intros Hp Hl Hin. unfold extract_sni.
  apply (wp_loop _ (λ i, 0 <= i <= Z.max 0 (len - 8) ∧ ∀ j, p <= j < p + i → sni_here b j = false)
           (λ i, Z.to_nat (len - i))); [|split; [lia|intros; lia]|lia].
  intros i [Hi Hno]. unfold sni_body. destruct (Z.ltb_spec (i + 8) len).
  2: { apply wp_ok. intros h n [? Hh _ _ _ _ _]. rewrite Hno in Hh; [done|lia]. }
  rewrite sni_at_ok, bind_ok by lia. destruct (sni_here b (p + i)) eqn:Eh.
  2: { apply wp_ok. split; [|lia]. split; [lia|]. intros j Hj. destruct (decide (j = p + i)) as [->|]; [done|].
       apply Hno. lia. }
  rewrite rd_eq, bind_ok by lia. set (n := bat b (p + i + 8)).
  assert (Huniq : ∀ h m, sni_found b p len h m → h = p + i + 9 ∧ m = n).
  { intros h m [Hr Hh Hf -> _ _ _]. assert (h - 9 = p + i) as E.
    { destruct (Z.lt_trichotomy (h - 9) (p + i)) as [|[|]]; [|done|].
      - by rewrite Hno in Hh by lia.
      - by rewrite Hf in Eh by lia. }
    split; [lia|]. unfold n. f_equal. lia. }
  destruct (Z.ltb_spec len (i + 8 + n)) as [Hlong|Hfit].
  { apply wp_ok. intros h m Hf. destruct (Huniq h m Hf) as [-> ->]. destruct Hf as [_ _ _ _ _ ? _]. lia. }
  destruct ((n <? 3) || (HOST_MAXLEN <? n)) eqn:En.
  { apply wp_ok. intros h m Hf. destruct (Huniq h m Hf) as [-> ->]. destruct Hf as [_ _ _ _ ? _ _]. lia. }
  rewrite sni_chars_ok, bind_ok by lia. rewrite Z2Nat.id by lia. destruct (forallb _ _) eqn:Ec; apply wp_ok.
  - split; try lia; try done.
    + by replace (p + i + 9 - 9) with (p + i) by lia.
    + intros j Hj. apply Hno. lia.
    + unfold n. f_equal. lia.
  - intros h m Hf. destruct (Huniq h m Hf) as [-> ->]. destruct Hf as [_ _ _ _ _ _ Hc]. congruence.
Qed.

(** ** The method and the redirect *)

Lemma http_methods_len : Forall (λ m, 4 <= blen m <= 8) http_methods.
Proof. apply (bool_decide_unpack (Forall (λ m, 4 <= blen m <= 8) http_methods)). vm_compute. exact I. Qed.

Lemma method_end_ok b p frag l : 0 <= p → p + 8 <= blen b → Forall (λ m, 4 <= blen m <= 8) l →
  wp (method_end b p frag l) (λ r, match r with Some (m, _) => p < m <= p + 7 | None => True end).
Proof.
  intros Hp Hb. induction 1 as [|m l Hm Hl IH]; cbn [method_end]; [by apply wp_ok|].
  apply wp_bind, wp_memcmp; [lia|lia|lia|lia|lia|]. intros c _. destruct (c =? 0); [apply wp_ok; lia|].
  destruct ((frag =? 1) || (frag =? 2)) eqn:Ef.
  - apply wp_bind, wp_memcmp; [lia|lia|lia|lia|lia|]. intros c' _. destruct (c' =? 0); [apply wp_ok; lia|done].
  - rewrite bind_ok. done.
Qed.
Lemma find_http_method_end_ok b p frag : 0 <= p → p + 8 <= blen b →
  wp (find_http_method_end b p frag) (λ r, match r with Some (m, _) => p < m <= p + 7 | None => True end).
Proof. intros. apply method_end_ok; [done|done|apply http_methods_len]. Qed.

Lemma is_passivedpi_redirect_ok b p len : 0 <= p → 13 <= len → p + len <= blen b →
  wp (is_passivedpi_redirect b p len) (λ _, True).
Proof.
  intros Hp Hl Hin. unfold is_passivedpi_redirect. change (blen http11_redirect_302) with 13.
  change (blen http10_redirect_302) with 13.
  apply wp_bind, wp_memcmp; [lia|lia|lia|lia|done|]. intros c _. apply wp_bind.
  apply wp_mono with (λ _, True).
  { destruct (c =? 0); [by apply wp_ok|]. apply wp_bind, wp_memcmp; [lia|lia|lia|lia|done|]. intros c' _. by apply wp_ok. }
  intros [] _; [|by apply wp_ok]. apply wp_bind. eapply wp_mono; [apply dumb_memmem_ok; lia|]. cbv beta.
  intros [i|] _; [|by apply wp_ok]. apply wp_bind. eapply wp_mono; [apply dumb_memmem_ok; lia|]. cbv beta.
  intros r _. by apply wp_ok.
Qed.

(** ** Rewriting *)

(** Every second character of the host, from the second on, is a capital. *)
Lemma mix_case_ok b p n : 0 <= p → 0 <= n → p + n <= blen b →
  wp (mix_case b p n) (λ b', blen b' = blen b ∧ ∀ j, 0 <= j →
    bat b' j = if (p <=? j) && (j <? p + n) && ((j - p) mod 2 =? 1) then u8 (toupper (bat b j)) else bat b j).
Proof.
  intros Hp Hn Hin. unfold mix_case.
  apply (wp_loop _ (λ '(i, b'), 0 <= i <= n ∧ blen b' = blen b ∧ ∀ j, 0 <= j →
      bat b' j = if (p <=? j) && (j <? p + i) && ((j - p) mod 2 =? 1) then u8 (toupper (bat b j)) else bat b j)
    (λ '(i, _), Z.to_nat (n - i))); [| |lia].
  - intros [i b'] (Hi & Hl & Hj). unfold mix_body. destruct (Z.ltb_spec i n).
    + apply wp_bind. destruct (Z.eqb_spec (i mod 2) 1) as [Ho|He].
      * apply wp_bind, wp_rd; [lia|]. apply wp_store; [lia|change (blen [_]) with 1; lia|]. apply wp_ok.
        split; [|lia]. split; [lia|]. split; [rewrite blen_put; [done|lia|change (blen [_]) with 1; lia]|].
        intros j Hj0.
        rewrite bat_put by (try change (blen [_]) with 1; lia). change (blen [_]) with 1.
        destruct (decide (j = p + i)) as [->|Hne].
        -- rewrite (proj2 (Z.leb_le (p + i) (p + i))), (proj2 (Z.ltb_lt (p + i) (p + i + 1))) by lia. cbn [andb].
           rewrite Z.sub_diag. change (bat [?x] 0) with x. rewrite (proj2 (Z.leb_le p (p + i))), (proj2 (Z.ltb_lt (p + i) (p + (i + 1)))) by lia.
           replace (p + i - p) with i by lia. rewrite Ho. cbn [andb Z.eqb Pos.eqb].
           rewrite Hj by lia. rewrite (proj2 (Z.ltb_ge (p + i) (p + i))) by lia. rewrite andb_false_r. cbn [andb]. done.
        -- destruct ((p + i <=? j) && (j <? p + i + 1)) eqn:E; [lia|]. rewrite Hj by lia.
           assert ((j <? p + (i + 1)) = (j <? p + i)) as -> by (apply eq_true_iff_eq; lia). done.
      * rewrite bind_ok || idtac. apply wp_ok, wp_ok. split; [|lia]. split_and!; [lia|lia|done|]. intros j Hj0. rewrite Hj by lia.
        destruct (decide (j = p + i)) as [->|Hne].
        -- replace (p + i - p) with i by lia. rewrite (proj2 (Z.eqb_neq (i mod 2) 1)) by done. by rewrite !andb_false_r.
        -- assert ((j <? p + (i + 1)) = (j <? p + i)) as -> by (apply eq_true_iff_eq; lia). done.
    + apply wp_ok. assert (i = n) as -> by lia. done.
  - split_and!; [lia|lia|done|]. intros j Hj. rewrite Z.add_0_r.
    destruct ((p <=? j) && (j <? p)) eqn:E; [lia|done].
Qed.

Lemma change_window_size_ok b tcp size : 0 <= tcp → tcp + 20 <= blen b →
  wp (change_window_size b tcp size) (λ b', blen b' = blen b).
Proof.
  intros. unfold change_window_size, tcp_Window. destruct (_ && _); [|by apply wp_ok].
  apply wp_htons_at; [lia|lia|]. rewrite blen_put; rewrite ?blen_enc16; lia.
Qed.

(** The User-Agent behind the host: what is from the host to the end of the value moves one
    place to the left. *)
Lemma remove_space_right pre host mid ua post : 0 < blen host →
  remove_space (pre ++ [ch " "] ++ host ++ mid ++ ua ++ post) (blen pre + 1) (blen pre + 1 + blen host + blen mid) (blen ua) =
    Ok (pre ++ host ++ mid ++ ua ++ [ch " "] ++ post).
Proof.
  intros Hpos. apply wp_eq. unfold remove_space.
  pose proof (blen_nonneg pre). pose proof (blen_nonneg host). pose proof (blen_nonneg mid). pose proof (blen_nonneg ua).
  pose proof (blen_nonneg post).
  destruct (Z.ltb_spec (blen pre + 1) (blen pre + 1 + blen host + blen mid)); [|lia].
  set (x := host ++ mid ++ ua). assert (Hx : blen x = blen host + blen mid + blen ua) by (unfold x; rewrite !blen_app; lia).
  replace (pre ++ [ch " "] ++ host ++ mid ++ ua ++ post) with (pre ++ [ch " "] ++ x ++ post)
    by (unfold x; by rewrite <- !app_assoc).
  replace (blen pre + 1 + blen host + blen mid + blen ua - (blen pre + 1)) with (blen x) by lia.
  replace (blen pre + 1 - 1) with (blen pre) by lia.
  assert (Hb : blen (pre ++ [ch " "] ++ x ++ post) = blen pre + 1 + blen x + blen post).
  { rewrite !blen_app. change (blen [_]) with 1. lia. }
  apply wp_bind, wp_memmove; [lia|lia|lia|lia|lia|].
  assert (Es : sub (pre ++ [ch " "] ++ x ++ post) (blen pre + 1) (blen x) = x).
  { rewrite (app_assoc pre). apply sub_at; [|done]. rewrite blen_app. done. }
  rewrite Es. destruct (split_at x (blen x)) as (x1 & x2 & Ex & Hx1); [lia|].
  assert (Ep : put (pre ++ [ch " "] ++ x ++ post) (blen pre) x = pre ++ x ++ drop (Z.to_nat (blen x)) ([ch " "] ++ x) ++ post).
  { rewrite (app_assoc [ch " "]). rewrite <- (take_drop (Z.to_nat (blen x)) ([ch " "] ++ x)) at 1.
    rewrite <- app_assoc. apply put_at; [done|]. unfold blen. rewrite length_take, length_app. cbn [length]. lia. }
  rewrite Ep. set (c := drop _ _). assert (Hc : blen c = 1).
  { unfold c, blen. rewrite length_drop, length_app. cbn [length]. lia. }
  apply wp_store; rewrite <- ?Hx.
  - lia.
  - rewrite !blen_app. change (blen [u8 (ch " ")]) with 1. lia.
  - replace (blen pre + 1 + blen host + blen mid + blen ua - 1) with (blen (pre ++ x)) by (rewrite blen_app; lia).
    rewrite (app_assoc pre x). rewrite put_at by (done || (rewrite Hc; done)). unfold x. by rewrite <- !app_assoc.
Qed.

(** The User-Agent in front of the host: what is between them moves one place to the right. *)
Lemma remove_space_left pre ua mid post :
  remove_space (pre ++ ua ++ mid ++ [ch " "] ++ post) (blen pre + blen ua + blen mid + 1) (blen pre) (blen ua) =
    Ok (pre ++ ua ++ [ch " "] ++ mid ++ post).
Proof.
  apply wp_eq. unfold remove_space. pose proof (blen_nonneg pre). pose proof (blen_nonneg mid). pose proof (blen_nonneg ua).
  pose proof (blen_nonneg post). destruct (Z.ltb_spec (blen pre + blen ua + blen mid + 1) (blen pre)); [lia|].
  rewrite (app_assoc pre ua). set (x := pre ++ ua). assert (Hx : blen x = blen pre + blen ua) by (unfold x; by rewrite blen_app).
  rewrite <- Hx. replace (blen x + blen mid + 1 - 1 - blen x) with (blen mid) by lia.
  assert (Hb : blen (x ++ mid ++ [ch " "] ++ post) = blen x + blen mid + 1 + blen post).
  { rewrite !blen_app. change (blen [_]) with 1. lia. }
  apply wp_bind, wp_memmove; [lia|lia|lia|lia|lia|]. rewrite sub_at by done.
  assert (Ep : put (x ++ mid ++ [ch " "] ++ post) (blen x + 1) mid = x ++ take 1 (mid ++ [ch " "]) ++ mid ++ post).
  { rewrite (app_assoc mid). rewrite <- (take_drop 1 (mid ++ [ch " "])) at 1. rewrite <- app_assoc, (app_assoc x).
    assert (Ht : blen (take 1 (mid ++ [ch " "])) = 1) by (unfold blen; rewrite length_take, length_app; cbn [length]; lia).
    rewrite put_at; [by rewrite <- app_assoc|by rewrite blen_app, Ht|].
    unfold blen. rewrite length_drop, length_app. cbn [length]. lia. }
  rewrite Ep. set (c := take 1 _). assert (Hc : blen c = 1) by (unfold c, blen; rewrite length_take, length_app; cbn [length]; lia).
  apply wp_store; [lia| |].
  - rewrite !blen_app, Hc. change (blen [u8 (ch " ")]) with 1. lia.
  - rewrite put_at; [|done|by rewrite Hc]. unfold x. by rewrite <- !app_assoc.
Qed.

(** * Fragments *)

(** [m] is the packet [p] with the [len] bytes of its data at [off], and no other data; its
    length and its sequence number are those of such a segment. *)
Record fragment_of (q : parsed) (v6 : bool) (p : bytes) (off len : Z) (m : bytes) : Prop := {
  fr_len : blen m = blen p - packet_dataLen q + len;
  fr_data d : packet_data q = Some d → sub m d len = sub p (d + off) len;
  fr_length i : length_pos q v6 i → be16 m i = u16 (be16 p i - packet_dataLen q + len);
  fr_seq t : ppTcpHdr q = Some t → u32 (be32 m (t + tcp_SeqNum)) = u32 (be32 p (t + tcp_SeqNum) + off);
  fr_rest j d t : 0 <= j < d → packet_data q = Some d → ppTcpHdr q = Some t →
    (∀ i, length_pos q v6 i → j < i ∨ i + 2 <= j) → j < t + tcp_SeqNum ∨ t + tcp_SeqNum + 4 <= j → bat m j = bat p j }.

(** What is sent for a packet that [calc] completes. *)
Definition checksummed (calc : bytes → address → bytes * address) (addr : address) (m : bytes) : sent :=
  calc m (fake_address addr).

Lemma restore_packet b b' n : 0 <= n <= blen b → blen b' = blen b → (∀ j, n <= j → bat b' j = bat b j) →
  put b' 0 (sub b 0 n) = b.
Proof.
  intros Hn Hl Hj. assert (Hs : blen (sub b 0 n) = n) by (rewrite blen_sub; lia).
  apply bytes_ext; [rewrite blen_put; lia|]. rewrite blen_put by lia. intros j Hjr.
  rewrite bat_put by lia. rewrite Hs. destruct (Z.leb_spec 0 j), (Z.ltb_spec j (0 + n)); cbn [andb]; try lia.
  - rewrite Z.sub_0_r. by apply bat_prefix.
  - apply Hj. lia.
Qed.

(** The packet before its checksums, for the fragment of [len] bytes at [off]. *)
Definition cut_packet (b : bytes) (q : parsed) (L t d off len : Z) (step : bool) : bytes :=
  let b1 := put b L (enc16 (be16 b L - packet_dataLen q + len)) in
  if step then
    let b2 := put b1 d (sub b1 (d + off) len) in
    put b2 (t + tcp_SeqNum) (enc32 (be32 b2 (t + tcp_SeqNum) + off))
  else b1.

Section cut.
Context (q : parsed) (v6 : bool) (n L T t d : Z).
Context (Hq : tcp_packet n q v6 L T t d).

Lemma cut_packet_ok b off len (step : bool) : n <= blen b → 0 <= off → 0 <= len → off + len <= packet_dataLen q →
  (step = false → off = 0) →
  let b' := cut_packet b q L t d off len step in
  blen b' = blen b ∧ (∀ j, n <= j → bat b' j = bat b j) ∧
  fragment_of q v6 (sub b 0 n) off len (sub b' 0 (n - packet_dataLen q + len)).
Proof.
  intros Hb Ho Hl Hol Hs. pose proof Hq as [HL HT Ht Hd Hord Hdl Hn]. unfold cut_packet, tcp_SeqNum.
  set (b1 := put b L _). assert (Hb1 : blen b1 = blen b) by (unfold b1; rewrite blen_put; rewrite ?blen_enc16; lia).
  assert (R1 : ∀ j, 0 <= j → j < L ∨ L + 2 <= j → bat b1 j = bat b j).
  { intros j Hj Hjl. apply bat_put_other; rewrite ?blen_enc16; lia. }
  assert (L1 : be16 b1 L = u16 (be16 b L - packet_dataLen q + len)) by (apply be16_put; lia).
  set (x := sub b1 (d + off) len). assert (Hx : blen x = len) by (unfold x; rewrite blen_sub; lia).
  set (b2 := put b1 d x). assert (Hb2 : blen b2 = blen b) by (unfold b2; rewrite blen_put; lia).
  assert (R2 : ∀ j, 0 <= j → j < d ∨ d + len <= j → bat b2 j = bat b1 j) by (intros; apply bat_put_other; lia).
  set (b3 := put b2 (t + 4) (enc32 (be32 b2 (t + 4) + off))).
  assert (Hb3 : blen b3 = blen b) by (unfold b3; rewrite blen_put; rewrite ?blen_enc32; lia).
  assert (R3 : ∀ j, 0 <= j → j < t + 4 ∨ t + 8 <= j → bat b3 j = bat b2 j) by (intros; apply bat_put_other; rewrite ?blen_enc32; lia).
  assert (S3 : be32 b3 (t + 4) = u32 (be32 b (t + 4) + off)).
  { unfold b3. rewrite be32_put by lia. do 2 f_equal. apply be32_ext. intros k Hk. rewrite R2, R1 by lia. done. }
  set (b' := if step then b3 else b1).
  assert (Hb' : blen b' = blen b) by (by unfold b'; destruct step).
  assert (R' : ∀ j, 0 <= j → j < L ∨ L + 2 <= j → j < t + 4 ∨ t + 8 <= j → j < d ∨ d + len <= j → bat b' j = bat b j).
  { intros j Hj H1 H2 H3. unfold b'. destruct step; [rewrite R3, R2 by lia|]; by apply R1. }
  assert (L' : be16 b' L = u16 (be16 b L - packet_dataLen q + len)).
  { rewrite <- L1. unfold b'. destruct step; [|done]. unfold be16. by rewrite !R3, !R2 by lia. }
  assert (D' : sub b' d len = sub b (d + off) len).
  { trans (sub b1 (d + off) len).
    - unfold b'. destruct step.
      + trans (sub b2 d len); [|pose proof (sub_put_same b1 d x) as E; rewrite Hx in E; apply E; lia].
        apply bytes_ext; [rewrite !blen_sub; lia|]. intros j Hj. rewrite blen_sub in Hj by lia.
        rewrite !bat_sub by lia. apply R3; lia.
      + rewrite (Hs eq_refl). by rewrite Z.add_0_r.
    - apply bytes_ext; [rewrite !blen_sub; lia|]. intros j Hj. rewrite blen_sub in Hj by lia.
      rewrite !bat_sub by lia. apply R1; lia. }
  assert (S' : u32 (be32 b' (t + 4)) = u32 (be32 b (t + 4) + off)).
  { unfold b'. destruct step.
    - rewrite S3. unfold u32. by rewrite Zmod_mod.
    - rewrite (Hs eq_refl), Z.add_0_r. f_equal. apply be32_ext. intros k Hk. apply R1; lia. }
  split; [done|]. split; [intros j Hj; apply R'; lia|]. split; unfold tcp_SeqNum.
  - rewrite !blen_sub; lia.
  - intros d' Hd'. rewrite Hd in Hd'. injection Hd' as <-. rewrite !sub_sub by lia. by rewrite Z.add_0_l.
  - intros i Hi. rewrite (length_pos_eq q v6 i L Hi HL), !be16_prefix by lia. done.
  - intros t' Ht'. rewrite Ht in Ht'. injection Ht' as <-. by rewrite !be32_prefix by lia.
  - intros j d' t' Hj Hd' Ht' HjL Hjs. rewrite Hd in Hd'. injection Hd' as <-. rewrite Ht in Ht'. injection Ht' as <-.
    rewrite !bat_prefix by lia. apply R'; [lia|by apply HjL|lia|lia].
Qed.

Context (parse : bytes → option parsed) (calc : bytes → address → bytes * address) (junk : Z → bytes).
Context `{!WinDivert parse calc} (Hj : ∀ n, 0 <= n → blen (junk n) = n).

Lemma set_length_ok f s (P : unit → engine → Prop) : n <= blen (g_packet s) →
  P tt (with_packet (put (g_packet s) L (enc16 (f (be16 (g_packet s) L)))) s) → swp (set_length q (negb v6) v6 f) s P.
Proof.
  intros Hb HP. destruct Hq as [HL HT Ht Hd Hord Hdl Hn]. unfold set_length, length_pos in *. destruct v6; cbn [negb];
    destruct HL as (h & Eh & ->); sstep; sstep; (eapply wp_ptr; [exact Eh|]);
    (apply swp_edit, wp_bind, wp_ntohs_at; [lia|lia|]); (apply wp_htons_at; [lia|lia|done]).
Qed.

(** The data moves to the front and the sequence number grows, once the length is set. *)
Lemma shift_ok b off s (P : Z → engine → Prop) : n <= blen b → 0 <= off < packet_dataLen q →
  g_packet s = put b L (enc16 (be16 b L - off)) →
  P (n - off) (with_packet (cut_packet b q L t d off (packet_dataLen q - off) true) s) →
  swp (data ← lift (ptr (packet_data q));
       edit (λ b, memmove b data (data + off) (packet_dataLen q - off));;
       tcp ← lift (ptr (ppTcpHdr q));
       edit (λ b, x ← ntohl_at b (tcp + tcp_SeqNum); htonl_at b (tcp + tcp_SeqNum) (x + off));;
       mret (n - off)) s P.
Proof.
  intros Hb Ho Hs HP. destruct Hq as [HL HT Ht Hd Hord Hdl Hn]. unfold cut_packet in HP.
  replace (be16 b L - packet_dataLen q + (packet_dataLen q - off)) with (be16 b L - off) in HP by lia.
  rewrite <- Hs in HP. assert (Hb1 : blen (g_packet s) = blen b) by (rewrite Hs, blen_put; rewrite ?blen_enc16; lia).
  sstep. sstep. eapply wp_ptr; [exact Hd|]. sstep. apply swp_edit. apply wp_memmove; [lia|lia|lia|lia|lia|].
  set (b2 := put (g_packet s) _ _) in *.
  assert (Hb2 : blen b2 = blen b) by (unfold b2; rewrite blen_put; rewrite ?blen_sub; lia).
  sstep. sstep. eapply wp_ptr; [exact Ht|]. unfold tcp_SeqNum in *. sstep. apply swp_edit. cbn [g_packet with_packet].
  apply wp_bind, wp_ntohl_at; [lia|lia|]. apply wp_htonl_at; [lia|lia|]. by sstep.
Qed.

(** The end of [send_native_fragment]: the cut packet goes out and the buffer is restored. *)
Lemma send_cut_ok addr b bak n' s (P : unit → engine → Prop) :
  0 <= n <= blen b → blen (g_packet s) = blen b → (∀ j, n <= j → bat (g_packet s) j = bat b j) →
  sub bak 0 n = sub b 0 n → n <= blen bak → 0 <= n' <= n →
  P tt (with_sent (g_sent s ++ [checksummed calc addr (sub (g_packet s) 0 n')]) (with_packet b s)) →
  swp ('(b, addr) ← look (λ b, calc_checksums calc b n' (fake_address addr));
       set_packet b;;
       b ← gets g_packet; on_wire (WinDivertSend b n' addr);;
       edit (λ b, memcpy b 0 bak 0 n)) s P.
Proof.
  intros Hn Hl Htail Hbak Hbl Hn' HP. sstep. apply swp_look. apply (wp_calc parse calc); [lia|].
  unfold checksummed in HP. pose proof (calc_length (parse := parse) (calc := calc) (sub (g_packet s) 0 n') (fake_address addr)) as Hc.
  rewrite blen_sub in Hc by lia. destruct (calc _ _) as [p a]. cbn [fst] in Hc.
  unfold set_packet. sstep. sstep. cbn [g_packet]. sstep. sstep. cbn [g_packet]. set (b4 := put (g_packet s) 0 p).
  assert (Hb4 : blen b4 = blen b) by (unfold b4; rewrite blen_put; lia).
  assert (E4 : sub b4 0 n' = p) by (rewrite <- Hc; apply sub_put_same; lia).
  sstep. apply swp_on_wire, swp_send; [lia|]. rewrite E4. cbn [g_sent]. apply swp_edit. cbn [g_packet with_sent].
  apply wp_memcpy; [lia|lia|lia|lia|lia|]. rewrite Hbak.
  rewrite (restore_packet b b4 n); [exact HP|lia|done|]. intros j Hjn. unfold b4. rewrite bat_put_other by lia. by apply Htail.
Qed.

(** The fragment of [len] bytes at [off] goes out, and the buffer is what it was. *)
Lemma send_fragment_ok addr size (step : bool) s (P : unit → engine → Prop) :
  n <= MAX_PACKET_SIZE → blen (g_packet s) = MAX_PACKET_SIZE → 0 <= size →
  let fits := size <? packet_dataLen q in
  let off := if step && fits then size else 0 in
  let len := if fits then (if step then packet_dataLen q - size else size) else packet_dataLen q in
  (if fits || step then
     ∀ m, fragment_of q v6 (sub (g_packet s) 0 n) off len m →
       P tt (with_sent (g_sent s ++ [checksummed calc addr m]) s)
   else P tt s) →
  swp (send_native_fragment calc junk addr n q (negb v6) v6 size step) s P.
Proof.
  intros Hm Hb Hsz. pose proof Hq as [HL HT Ht Hd Hord Hdl Hn]. unfold send_native_fragment. set (b := g_packet s) in *. cbv zeta.
  assert (Hjl : blen (junk MAX_PACKET_SIZE) = MAX_PACKET_SIZE) by (apply Hj; unfold MAX_PACKET_SIZE; lia).
  intros HP. sstep. apply swp_look. cbv beta. fold b. apply wp_memcpy; [lia|lia|lia|lia|lia|]. set (bak := put _ _ _).
  assert (Hbs : blen (sub b 0 n) = n) by (rewrite blen_sub; lia).
  assert (Hbak : sub bak 0 n = sub b 0 n).
  { pose proof (sub_put_same (junk MAX_PACKET_SIZE) 0 (sub b 0 n)) as E. rewrite Hbs in E. apply E; lia. }
  assert (Hbakl : n <= blen bak) by (unfold bak; rewrite blen_put; lia).
  rewrite Z.leb_antisym. destruct (Z.ltb_spec size (packet_dataLen q)) as [Hfit|Hlong], step; cbn [negb andb orb] in *.
  4: { by apply swp_skip. }
  - destruct (cut_packet_ok b size (packet_dataLen q - size) true) as (C1 & C2 & C3); [lia|lia|lia|lia|done|].
    sstep. sstep. apply set_length_ok; [fold b; lia|]. fold b. apply (shift_ok b size); [lia|lia|done|].
    replace (n - packet_dataLen q + (packet_dataLen q - size)) with (n - size) in C3 by lia.
    apply (send_cut_ok addr b bak (n - size)); cbn [g_packet with_packet]; [lia|done|done|done|done|lia|]. by apply HP.
  - destruct (cut_packet_ok b 0 size false) as (C1 & C2 & C3); [lia|lia|lia|lia|done|].
    sstep. sstep. apply set_length_ok; [fold b; lia|]. fold b. sstep.
    apply (send_cut_ok addr b bak); cbn [g_packet with_packet]; [lia|done|done|done|done|lia|]. by apply HP.
  - destruct (cut_packet_ok b 0 (packet_dataLen q - 0) true) as (C1 & C2 & C3); [lia|lia|lia|lia|done|].
    sstep. sstep. apply set_length_ok; [fold b; lia|]. fold b. apply (shift_ok b 0); [lia|lia|done|].
    replace (n - packet_dataLen q + (packet_dataLen q - 0)) with (n - 0) in C3 by lia. rewrite Z.sub_0_r in C3.
    apply (send_cut_ok addr b bak (n - 0)); cbn [g_packet with_packet]; [lia|done|done|done|done|lia|].
    rewrite !Z.sub_0_r in C3 |- *. apply HP. by replace (n - 0) with n by lia.
Qed.
End cut.

(** * No packet can make the loop fault *)

(** Options that the loop can run with: the addresses and ports have their sizes, and the
    decoys their bytes. *)
Record options_ok (o : options) : Prop := {
  oo_fakes : ∃ l, loaded (o_fake_table o) l ∧ Forall (λ f, 0 <= f_size f <= blen (f_data f)) l;
  oo_sizes : 0 <= o_http_fragment_size o ∧ 0 <= o_https_fragment_size o;
  oo_dnsv4 : blen (o_dnsv4_addr o) = 4 ∧ blen (o_dnsv4_port o) = 2;
  oo_dnsv6 : blen (o_dnsv6_addr o) = 16 ∧ blen (o_dnsv6_port o) = 2 }.

(** The buffer has its size and the trackers are in order. *)
Record engine_ok (s : engine) : Prop := {
  eo_packet : blen (g_packet s) = MAX_PACKET_SIZE; eo_dns : DnsFacts.dns_ok (g_dns s); eo_tcp : keys_ok (g_tcp s) }.

Lemma with_packet_ok b s : engine_ok s → blen b = blen (g_packet s) → engine_ok (with_packet b s).
Proof. intros [] Hb. split; cbn; [lia|done|done]. Qed.
Lemma with_sent_ok l s : engine_ok s → engine_ok (with_sent l s).
Proof. by intros []. Qed.

Section safety.
Context (parse : bytes → option parsed) (calc : bytes → address → bytes * address) (junk : Z → bytes).
Context `{!WinDivert parse calc} (Hj : ∀ n, 0 <= n → blen (junk n) = n).
Context (clock : nat → Z) (o : options) (Ho : options_ok o).

(** The packet in the buffer, and what was found in it. *)
Record received_ok (r : received) : Prop := {
  ro_len : 0 <= rc_packetLen r < MAX_PACKET_SIZE; ro_headers : headers_in (rc_packetLen r) (rc_parsed r);
  ro_v : rc_v4 r = negb (rc_v6 r); ro_ip : ∃ h, (if rc_v6 r then ppIpV6Hdr (rc_parsed r) else ppIpHdr (rc_parsed r)) = Some h }.

(** The headers in the buffer are those that were found. *)
Definition intact (r : received) (s : engine) : Prop := parse (sub (g_packet s) 0 (rc_packetLen r)) = Some (rc_parsed r).

Lemma swp_field hdr h off k s (P : bytes → engine → Prop) : hdr = Some h → 0 <= h + off → 0 <= k →
  h + off + k <= blen (g_packet s) → (∀ x, blen x = k → x = sub (g_packet s) (h + off) k → P x s) → swp (field hdr off k) s P.
Proof.
  intros -> ??? HP. unfold field. sstep. sstep. apply wp_ok, swp_look, wp_rds; [lia|lia|lia|].
  apply HP; [|done]. rewrite blen_sub; lia.
Qed.
Lemma swp_put_field hdr h off v s (P : unit → engine → Prop) : hdr = Some h → 0 <= h + off →
  h + off + blen v <= blen (g_packet s) → engine_ok s → (∀ s', engine_ok s' → P tt s') → swp (put_field hdr off v) s P.
Proof.
  intros -> ?? Hs HP. unfold put_field. sstep. sstep. apply wp_ok, swp_edit, wp_store; [lia|lia|].
  apply HP, with_packet_ok; [done|]. rewrite blen_put; lia.
Qed.

Section received.
Context (r : received) (Hr : received_ok r).
Abbreviation q := (rc_parsed r).
Abbreviation n := (rc_packetLen r).

Lemma swp_SrcAddr s (P : bytes → engine → Prop) : engine_ok s → (∀ x, ip_ok (rc_v6 r) x → P x s) → swp (SrcAddr r) s P.
Proof.
  intros Hs HP. pose proof (eo_packet _ Hs). destruct Hr as [Hn Hq Hv [h Hh]]. unfold SrcAddr. rewrite Hv.
  destruct (rc_v6 r) eqn:E; cbn [negb].
  - destruct (hi_ipv6 _ _ Hq h Hh). unfold ipv6_SrcAddr. eapply swp_field; [done|lia|lia|lia|].
    intros x Hx _. apply HP. unfold ip_ok. lia.
  - destruct (hi_ip _ _ Hq h Hh). unfold ip_SrcAddr. eapply swp_field; [done|lia|lia|lia|].
    intros x Hx _. apply HP. unfold ip_ok. lia.
Qed.
Lemma swp_DstAddr s (P : bytes → engine → Prop) : engine_ok s → (∀ x, ip_ok (rc_v6 r) x → P x s) → swp (DstAddr r) s P.
Proof.
  intros Hs HP. pose proof (eo_packet _ Hs). destruct Hr as [Hn Hq Hv [h Hh]]. unfold DstAddr. rewrite Hv.
  destruct (rc_v6 r) eqn:E; cbn [negb].
  - destruct (hi_ipv6 _ _ Hq h Hh). unfold ipv6_DstAddr. eapply swp_field; [done|lia|lia|lia|].
    intros x Hx _. apply HP. unfold ip_ok. lia.
  - destruct (hi_ip _ _ Hq h Hh). unfold ip_DstAddr. eapply swp_field; [done|lia|lia|lia|].
    intros x Hx _. apply HP. unfold ip_ok. lia.
Qed.

(** A field of the TCP header. *)
Lemma swp_tcp_field t off k s (P : bytes → engine → Prop) : engine_ok s → ppTcpHdr q = Some t → 0 <= off → 0 <= k →
  off + k <= 20 → (∀ x, blen x = k → P x s) → swp (field (ppTcpHdr q) off k) s P.
Proof.
  intros Hs Ht ??? HP. pose proof (eo_packet _ Hs). destruct Hr as [Hn Hq _ _].
  destruct (hi_tcp _ _ Hq t Ht) as (? & ? & _). eapply swp_field; [done|lia|lia|lia|]. auto.
Qed.
Lemma swp_udp_field u off k s (P : bytes → engine → Prop) : engine_ok s → ppUdpHdr q = Some u → 0 <= off → 0 <= k →
  off + k <= 8 → (∀ x, blen x = k → P x s) → swp (field (ppUdpHdr q) off k) s P.
Proof.
  intros Hs Ht ??? HP. pose proof (eo_packet _ Hs). destruct Hr as [Hn Hq _ _].
  destruct (hi_udp _ _ Hq u Ht) as (? & ? & _). eapply swp_field; [done|lia|lia|lia|]. auto.
Qed.

Section tcp.
Context (t d : Z) (Ht : ppTcpHdr q = Some t) (Hd : packet_data q = Some d).

Lemma received_tcp : ∃ L T, tcp_packet n q (rc_v6 r) L T t d.
Proof. destruct Hr as [Hn Hq Hv [h Hh]]. by eapply tcp_packet_in. Qed.

Lemma swp_outgoing_ttl s (P : option Tcp.tcp_conntrack_info → engine → Prop) : engine_ok s →
  (∀ i s', engine_ok s' → g_packet s' = g_packet s → g_sent s' = g_sent s →
     g_ttl_of_fake_packet s' = g_ttl_of_fake_packet s → P i s') → swp (outgoing_ttl clock r) s P.
Proof.
  intros Hs HP. unfold outgoing_ttl. rewrite (ro_v _ Hr). replace (negb (rc_v6 r) || rc_v6 r) with true by (by destruct (rc_v6 r)).
  sstep. apply swp_SrcAddr; [done|]. intros src Hsrc. sstep. apply swp_DstAddr; [done|]. intros dst Hdst.
  sstep. apply (swp_tcp_field t); [done|done|done|done|done|]. intros sp Hsp.
  sstep. apply (swp_tcp_field t); [done|done|done|done|done|]. intros dp Hdp. apply swp_on_tcp.
  eapply swp_mono; [apply TcpFacts.tcp_outgoing_total; [apply Hs|done..]|]. cbv beta. intros i tab Htab.
  apply HP; [|done|done|done]. by destruct Hs.
Qed.

(** The decoys go out, and only the trackers and the log change. *)
Lemma swp_handle_fake_packet https s (P : unit → engine → Prop) : engine_ok s → intact r s →
  (∀ s', engine_ok s' → g_packet s' = g_packet s → P tt s') → swp (handle_fake_packet parse calc junk clock o https r) s P.
Proof.
  intros Hs Hi HP. unfold handle_fake_packet. sstep.
  apply (swp_mono _ _ (λ _ s', engine_ok s' ∧ g_packet s' = g_packet s)).
  { destruct (_ || _); [|by sstep]. sstep. apply swp_outgoing_ttl; [done|]. intros i s' Hs' Hp _ _. destruct i as [i|]; [|by sstep].
    destruct (o_do_auto_ttl o); [|by sstep]. sstep. unfold set_ttl_of_fake_packet. sstep. sstep. split; [by destruct Hs'|done]. }
  intros b s1 [Hs1 Hp1]. destruct b; [|sstep; by apply HP]. sstep. sstep. sstep. sstep. sstep. apply swp_on_wire.
  destruct received_tcp as (L & T & Hq). destruct (oo_fakes _ Ho) as (l & Hl & Hf).
  pose proof (eo_packet _ Hs1) as Hb1. pose proof (ro_len _ Hr).
  assert (Hok : ∀ f, f ∈ (if bool_decide (l = []) then [None] else Some <$> l) → fake_ok https f).
  { intros f Hin. case_bool_decide.
    - apply list_elem_of_singleton in Hin as ->. unfold fake_ok, fake_bytes. destruct https; vm_compute; split; discriminate.
    - apply list_elem_of_fmap in Hin as (x & -> & Hx). rewrite list.Forall_forall in Hf. by apply Hf. }
  assert (Hsend : ∀ h, h = https → swp ((if h then send_fake_https_request else send_fake_http_request) parse calc junk
    (o_fake_table o) (o_fakes_resend o) (rc_addr r) (g_packet s1) n (rc_v6 r) (g_ttl_of_fake_packet s1)
    (o_do_wrong_chksum o) (o_do_wrong_seq o)) (g_sent s1) (λ _ _, True)).
  { intros h ->. unfold intact in Hi. rewrite <- Hp1 in Hi.
    destruct https; by apply (send_fakes_total parse calc junk Hj _ _ n q (rc_v6 r) _ L T t d Hi Hq ltac:(lia) ltac:(lia) _ l). }
  eapply swp_mono; [by apply Hsend|]. intros x s2 _. sstep. apply HP; [by apply with_sent_ok|done].
Qed.

(** The line of the host: where it starts, and where its value does. *)
Definition host_line (b : bytes) (len h v : Z) : Prop := v = h + 8 ∧ d <= h ∧ v + 3 <= d + len ∧ occurs b crlf h.

Lemma occurs_crlf b i : 0 <= i → i + 2 <= blen b → occurs b crlf i ↔ bat b i = 13 ∧ bat b (i + 1) = 10.
Proof.
  intros Hi Hb. unfold occurs. change (blen crlf) with 2. split.
  - intros E. pose proof (bat_sub b i 2 0 ltac:(lia) ltac:(lia)) as E0. pose proof (bat_sub b i 2 1 ltac:(lia) ltac:(lia)) as E1.
    rewrite E in E0, E1. rewrite Z.add_0_r in E0. by split.
  - intros [E0 E1]. apply bytes_ext; [by rewrite blen_sub by lia|]. intros j Hj'. rewrite blen_sub in Hj' by lia.
    rewrite bat_sub by lia. assert (j = 0 ∨ j = 1) as [-> | ->] by lia; [by rewrite Z.add_0_r|done].
Qed.

Lemma useragent_no_cr i : 0 < i < 14 → bat http_useragent_find i ≠ 13.
Proof.
  intros Hi E. assert (H : forallb (λ i, negb (bat http_useragent_find i =? 13)) (seqZ 1 13) = true) by (vm_compute; reflexivity).
  rewrite forallb_forall in H. specialize (H i). rewrite E in H. assert (Hin : In i (seqZ 1 13)); [|by specialize (H Hin)].
  apply list_elem_of_In, elem_of_seqZ. lia.
Qed.

(** The User-Agent is behind the line of the host, or it ends in front of it. *)
Lemma useragent_apart b len h v hu vu lu : d + len <= blen b → 0 <= d → host_line b len h v →
  header_at b d len http_useragent_find hu vu lu → v < vu ∨ vu + lu <= h.
Proof.
  intros Hb Hd0 (-> & Hh & Hv & Hcr) [-> Hf Hn _ Hl Hin _ Hline]. change (blen http_useragent_find) with 14 in *.
  destruct (Z.lt_ge_cases (h + 8) (hu + 14)) as [|Hge]; [by left|right].
  destruct (Z.lt_ge_cases h (hu + 14)) as [Hlt|].
  - exfalso. apply occurs_crlf in Hcr as [E _]; [|lia|lia]. apply (useragent_no_cr (h - hu)); [lia|].
    unfold occurs in Hn. rewrite <- Hn. change (blen http_useragent_find) with 14. rewrite bat_sub by lia.
    by replace (hu + (h - hu)) with h by lia.
  - destruct (Z.lt_ge_cases h (hu + 14 + lu)); [|lia]. exfalso. by apply (Hline h).
Qed.

Lemma swp_change_spaces len h v s (P : bool → engine → Prop) : engine_ok s → 16 < len → 0 <= d → d + len <= MAX_PACKET_SIZE →
  host_line (g_packet s) len h v → (∀ c s', engine_ok s' → P c s') → swp (change_spaces o d len v) s P.
Proof.
  intros Hs Hlen Hd0 Hin Hline HP. pose proof (eo_packet _ Hs) as Hb. unfold change_spaces.
  pose proof Hline as (-> & Hh & Hv & Hcr). destruct (o_do_additional_space o && _).
  - sstep. apply swp_look. eapply wp_mono; [apply find_http_method_end_ok; lia|]. intros [[m f]|] Hm; [|sstep; by apply HP].
    sstep. apply swp_edit, wp_memmove; [lia|lia|lia|lia|lia|]. sstep. apply HP, with_packet_ok; [done|].
    rewrite blen_put; rewrite ?blen_sub; lia.
  - destruct (o_do_host_removespace o); [|sstep; by apply HP]. sstep. apply swp_look.
    eapply wp_mono; [apply find_header_ok; lia|]. intros [[[hu vu] lu]|] Hu; [|sstep; by apply HP].
    destruct (0 <? lu); [|sstep; by apply HP].
    destruct (useragent_apart (g_packet s) len h (h + 8) hu vu lu) as [Hr'|Hl']; [lia|done|done|done| |];
      destruct Hu as [-> Hf _ _ Hl Hin' _ _]; sstep; apply swp_edit; unfold remove_space.
    + destruct (Z.ltb_spec (h + 8) (hu + blen http_useragent_find)); [|lia].
      apply wp_bind, wp_memmove; [lia|lia|lia|lia|lia|].
      apply wp_store; [lia|change (blen [_]) with 1; rewrite blen_put; rewrite ?blen_sub; lia|]. sstep.
      apply HP, with_packet_ok; [done|]. rewrite !blen_put; change (blen [_]) with 1; rewrite ?blen_put; rewrite ?blen_sub; lia.
    + change (blen http_useragent_find) with 14 in *. destruct (Z.ltb_spec (h + 8) (hu + 14)); [lia|].
      apply wp_bind, wp_memmove; [lia|lia|lia|lia|lia|].
      apply wp_store; [lia|change (blen [_]) with 1; rewrite blen_put; rewrite ?blen_sub; lia|]. sstep.
      apply HP, with_packet_ok; [done|]. rewrite !blen_put; change (blen [_]) with 1; rewrite ?blen_put; rewrite ?blen_sub; lia.
Qed.

(** Where the data is. *)
Lemma data_range : 0 <= d ∧ 0 < packet_dataLen q ∧ d + packet_dataLen q <= n ∧ t + 20 <= d.
Proof. destruct (hi_data _ _ (ro_headers _ Hr) d Hd) as (? & ? & ? & Hdt & _). specialize (Hdt t Ht). lia. Qed.

(** A verdict whose host is behind the start of the data. *)
Definition verdict_ok (v : verdict) : Prop := ∀ h, host_addr v = Some h → d <= h.

Lemma swp_check_host b p m s (P : bool → engine → Prop) : b = g_packet s → 0 <= p → 0 < m → p + m <= blen b →
  (∀ x, P x s) → swp (look (λ b, blackwhitelist_check_hostname junk (o_hosts o) b p m)) s P.
Proof.
  intros -> Hp Hm Hin HP. apply swp_look.
  destruct (check_hostname_any junk (o_hosts o) (g_packet s) p m Hj Hp Hm Hin) as (? & ? & _ & _ & Hw).
  eapply wp_mono; [exact Hw|]. intros ? _. apply HP.
Qed.

Lemma swp_handle_inbound s (P : verdict → engine → Prop) : engine_ok s → 16 < packet_dataLen q →
  (∀ v, verdict_ok v → P v s) → swp (handle_inbound_data o r d (packet_dataLen q)) s P.
Proof.
  intros Hs Hlen HP. pose proof (eo_packet _ Hs). pose proof data_range. pose proof (ro_len _ Hr). unfold handle_inbound_data.
  sstep. apply (swp_mono _ _ (λ _ s', s' = s)).
  { destruct (o_do_passivedpi o); [|by sstep]. apply swp_look. eapply wp_mono; [apply is_passivedpi_redirect_ok; lia|]. done. }
  intros b ? ->. destruct b; [|sstep; by apply HP]. sstep. destruct (rc_v4 r) eqn:E4; [sstep; sstep; by apply HP|].
  destruct (rc_v6 r) eqn:E6; [|sstep; sstep; by apply HP]. unfold no_flowlabel. sstep.
  pose proof (ro_ip _ Hr) as [h Hh]. rewrite E6 in Hh. destruct (hi_ipv6 _ _ (ro_headers _ Hr) h Hh).
  eapply swp_field; [exact Hh|lia|lia|lia|]. intros x _ _. sstep. sstep. by apply HP.
Qed.

Lemma is_tls_data_ok b len : 0 <= d → 0 <= len → d + len <= blen b → wp (is_tls_data b d len) (λ _, True).
Proof.
  intros. unfold is_tls_data. destruct (Z.eqb_spec len 2).
  { apply wp_bind, wp_memcmp; [lia|lia|lia|lia|done|]. intros. by apply wp_ok. }
  destruct (Z.leb_spec 3 len); [|by apply wp_ok]. apply wp_bind, wp_memcmp; [lia|lia|lia|lia|done|]. intros c _.
  destruct (c =? 0); [by apply wp_ok|]. apply wp_bind, wp_memcmp; [lia|lia|lia|lia|done|]. intros. by apply wp_ok.
Qed.

Lemma swp_handle_https s (P : verdict → engine → Prop) : engine_ok s → intact r s →
  (∀ v s', engine_ok s' → verdict_ok v → P v s') → swp (handle_https parse calc junk clock o r d (packet_dataLen q)) s P.
Proof.
  intros Hs Hi HP. pose proof (eo_packet _ Hs). pose proof data_range. pose proof (ro_len _ Hr). unfold handle_https.
  sstep. apply swp_look. eapply wp_mono; [apply is_tls_data_ok; lia|]. intros b _. destruct b; [|sstep; by apply HP].
  sstep. apply (swp_mono _ _ (λ sni s', s' = s ∧ ∀ h m, sni = Some (h, m) → d <= h ∧ 0 < m ∧ h + m <= d + packet_dataLen q + 1)).
  { destruct (_ || _); [|by sstep]. apply swp_look. eapply wp_mono; [apply extract_sni_ok; lia|]. intros [[h m]|] Hf; (split; [done|]).
    - intros ? ? [= <- <-]. destruct Hf. lia.
    - done. }
  intros sni ? (-> & Hsni). sstep. apply (swp_mono _ _ (λ _ s', s' = s)).
  { destruct (o_do_blacklist o); [|by sstep]. destruct sni as [[h m]|]; [|by sstep]. destruct (Hsni h m eq_refl) as (? & ? & ?).
    by eapply swp_check_host; [done|lia|lia|lia|]. }
  assert (Hv : ∀ a c, verdict_ok (Verdict a c (fst <$> sni))).
  { intros a c h Hh. destruct sni as [[h' m]|]; [|done]. cbn in Hh. injection Hh as <-. by apply (Hsni h' m). }
  intros act ? ->. destruct act; [|sstep; by apply HP]. sstep. destruct (o_do_fake_packet o).
  - apply swp_handle_fake_packet; [done|done|]. intros s' Hs' _. sstep. by apply HP.
  - sstep. sstep. by apply HP.
Qed.

Lemma swp_handle_http s (P : verdict → engine → Prop) : engine_ok s → intact r s → 16 < packet_dataLen q →
  (∀ v s', engine_ok s' → verdict_ok v → P v s') → swp (handle_http parse calc junk clock o r d (packet_dataLen q)) s P.
Proof.
  intros Hs Hi Hlen HP. pose proof (eo_packet _ Hs) as Hb. pose proof data_range. pose proof (ro_len _ Hr). unfold handle_http.
  sstep. apply swp_look. eapply wp_mono; [apply find_header_ok; lia|]. cbv beta.
  intros [[[h v] l]|] Hh; [|sstep; by apply HP]. destruct ((0 <? l) && (l <=? HOST_MAXLEN)); [|sstep; by apply HP].
  destruct Hh as [-> Hf Hn _ Hl Hin _ _]. change (blen http_host_find) with 8 in *.
  assert (Hcr : occurs (g_packet s) crlf h).
  { unfold occurs in *. change (blen crlf) with 2. change (blen http_host_find) with 8 in Hn.
    replace h with (h + 0) by lia. rewrite <- (sub_sub (g_packet s) h 8) by lia. by rewrite Hn. }
  sstep. apply (swp_mono _ _ (λ _ s', s' = s)).
  { destruct (o_do_blacklist o); [|by sstep]. by eapply swp_check_host; [done|lia|lia|lia|]. }
  intros act ? ->. destruct act; [|sstep; by apply HP].
  sstep. apply (swp_mono _ _ (λ _ s', engine_ok s' ∧ g_packet s' = g_packet s)).
  { destruct (o_do_fake_packet o); [|by sstep]. apply swp_handle_fake_packet; done. }
  intros _ s1 [Hs1 Hp1]. rewrite <- Hp1 in Hcr, Hb.
  sstep. apply (swp_mono _ _ (λ _ s', engine_ok s' ∧ occurs (g_packet s') crlf h)).
  { destruct (o_do_host_mixedcase o); [|by sstep]. apply swp_edit. eapply wp_mono; [apply mix_case_ok; lia|].
    intros b' (Hb' & Hj'). split; [by apply with_packet_ok|]. cbn [g_packet with_packet].
    apply occurs_crlf in Hcr; [|lia|lia]. apply occurs_crlf; [lia|lia|]. rewrite !Hj' by lia.
    destruct ((h + 8 <=? h) && _ && _) eqn:E1; [lia|]. by destruct ((h + 8 <=? h + 1) && _ && _) eqn:E2; [lia|]. }
  intros _ s2 [Hs2 Hcr2]. pose proof (eo_packet _ Hs2) as Hb2.
  sstep. apply (swp_mono _ _ (λ _ s', engine_ok s' ∧ occurs (g_packet s') crlf h)).
  { destruct (o_do_host o); [|by sstep]. apply swp_edit. change (blen http_host_replace) with 8.
    apply wp_memcpy; [lia|lia|lia|lia|done|]. change (sub http_host_replace 0 8) with http_host_replace.
    split; [apply with_packet_ok; [done|]; rewrite blen_put; change (blen http_host_replace) with 8; lia|].
    cbn [g_packet with_packet]. unfold occurs. change (blen crlf) with 2.
    pose proof (sub_put_same (g_packet s2) h http_host_replace) as E. change (blen http_host_replace) with 8 in E.
    replace h with (h + 0) at 2 by lia. rewrite <- (sub_sub _ h 8) by lia. by rewrite E by lia. }
  intros _ s3 [Hs3 Hcr3]. sstep. apply (swp_change_spaces _ h); [done|lia|lia|lia| |].
  { unfold host_line, HOST_MAXLEN in *. split_and!; [done|lia|lia|done]. }
  intros c s4 Hs4. sstep. by apply HP.
Qed.

Lemma swp_fragment_packet v s (P : bool → engine → Prop) : engine_ok s → verdict_ok v →
  (∀ c s', engine_ok s' → P c s') → swp (fragment_packet calc junk o r v d) s P.
Proof.
  intros Hs Hv HP. pose proof (ro_len _ Hr). unfold fragment_packet. destruct (_ && _ && _); [|sstep; by apply HP].
  sstep. apply (swp_tcp_field t); [done|done|done|done|done|]. intros dp _. destruct (oo_sizes _ Ho).
  set (size := if _ && _ then _ else _). assert (Hsize : 0 <= size).
  { unfold size. repeat case_match; try lia. match goal with H : host_addr v = Some _ |- _ => pose proof (Hv _ H); lia end. }
  destruct (size =? 0); [sstep; by apply HP|]. destruct received_tcp as (L & T & Hq).
  assert (Hone : ∀ step s (P : unit → engine → Prop), engine_ok s → (∀ s', engine_ok s' → P tt s') →
    swp (send_native_fragment calc junk (rc_addr r) n q (rc_v4 r) (rc_v6 r) size step) s P).
  { intros step s' P' Hs' HP'. rewrite (ro_v _ Hr).
    apply (send_fragment_ok q (rc_v6 r) n L T t d Hq parse calc junk Hj); [lia|apply Hs'|done|].
    destruct (_ || _); [|by apply HP']. intros m _. by apply HP', with_sent_ok. }
  sstep. apply Hone; [done|]. intros s1 Hs1. sstep. apply Hone; [done|]. intros s2 Hs2. sstep. by apply HP.
Qed.

Lemma swp_handle_tcp_data s (P : option verdict → engine → Prop) : engine_ok s → intact r s →
  (∀ v s', engine_ok s' → P v s') → swp (handle_tcp_data parse calc junk clock o r) s P.
Proof.
  intros Hs Hi HP. pose proof (eo_packet _ Hs). pose proof data_range. pose proof (ro_len _ Hr). unfold handle_tcp_data.
  sstep. sstep. eapply wp_ptr; [exact Hd|]. sstep. apply (swp_tcp_field t); [done|done|done|done|done|]. intros dp _.
  sstep. apply (swp_mono _ _ (λ v s', engine_ok s' ∧ verdict_ok v)).
  - destruct (negb _ && (16 <? _)) eqn:E1.
    { apply swp_handle_inbound; [done|lia|]. by intros v Hv. }
    destruct (a_Outbound _ && _ && _ && _); [by apply swp_handle_https|].
    destruct (a_Outbound _ && _ && _) eqn:E2; [|by sstep]. sstep. apply swp_look.
    eapply wp_mono; [apply find_http_method_end_ok; lia|]. intros m _. destruct (bool_decide _ && _); [|by sstep].
    apply swp_handle_http; [done|done|lia|]. done.
  - intros v s1 [Hs1 Hv]. sstep. apply swp_fragment_packet; [done|done|]. intros c s2 Hs2. sstep. by apply HP.
Qed.
End tcp.

Lemma swp_handle_tcp t s (P : verdict → engine → Prop) : engine_ok s → ppTcpHdr q = Some t →
  (∀ v s', engine_ok s' → P v s') → swp (handle_tcp clock o r) s P.
Proof.
  intros Hs Ht HP. pose proof (eo_packet _ Hs) as Hb. pose proof (ro_len _ Hr). pose proof (ro_headers _ Hr) as Hq.
  destruct (hi_tcp _ _ Hq t Ht) as (? & ? & _). unfold handle_tcp.
  sstep. sstep. eapply wp_ptr; [exact Ht|]. sstep. apply swp_look, wp_rd; [lia|].
  destruct (negb _ && _ && _); [|sstep; by apply HP].
  sstep. apply (swp_tcp_field t); [done|done|done|done|done|]. intros sp Hsp.
  sstep. apply (swp_tcp_field t); [done|done|done|done|done|]. intros dp Hdp.
  sstep. apply (swp_mono _ _ (λ _ s', engine_ok s')).
  { destruct (o_do_fake_packet o && _ && _); [|by sstep]. sstep. apply swp_SrcAddr; [done|]. intros src Hsrc.
    sstep. apply swp_DstAddr; [done|]. intros dst Hdst. sstep. apply (swp_mono _ _ (λ _ s', s' = s)).
    { rewrite (ro_v _ Hr). destruct (ro_ip _ Hr) as [h Hh]. destruct (rc_v6 r); cbn [negb].
      - destruct (hi_ipv6 _ _ Hq h Hh). unfold ipv6_HopLimit. by eapply swp_field; [done|lia|lia|lia|].
      - destruct (hi_ip _ _ Hq h Hh). unfold ip_TTL. by eapply swp_field; [done|lia|lia|lia|]. }
    intros ttl ? ->. sstep. apply swp_on_tcp.
    eapply swp_mono; [apply TcpFacts.tcp_incoming_total; [apply Hs|done..]|]. cbv beta. intros b tab Htab. sstep. by destruct Hs. }
  intros _ s1 Hs1. pose proof (eo_packet _ Hs1) as Hb1. destruct (negb (o_do_native_frag o)); [|sstep; by apply HP].
  assert (Hwin : ∀ size (Q : unit → engine → Prop), (∀ s', engine_ok s' → Q tt s') →
    swp (edit (λ b, change_window_size b t size)) s1 Q).
  { intros size Q HQ. apply swp_edit. eapply wp_mono; [apply change_window_size_ok; lia|]. intros b Hb'.
    by apply HQ, with_packet_ok. }
  destruct (o_do_fragment_http o && _); [sstep; apply Hwin; intros; sstep; by apply HP|].
  destruct (o_do_fragment_https o && _); [sstep; apply Hwin; intros; sstep; by apply HP|]. sstep. by apply HP.
Qed.

Lemma swp_handle_dns u d s (P : verdict → engine → Prop) : engine_ok s → ppUdpHdr q = Some u → packet_data q = Some d →
  (∀ v s', engine_ok s' → P v s') → swp (handle_dns clock o r) s P.
Proof.
  intros Hs Hu Hd HP. pose proof (eo_packet _ Hs) as Hb. pose proof (ro_len _ Hr). pose proof (ro_headers _ Hr) as Hq.
  destruct (hi_data _ _ Hq d Hd) as (? & ? & ? & _). unfold handle_dns.
  sstep. sstep. eapply wp_ptr; [exact Hd|]. sstep. apply swp_look, wp_rds; [lia|lia|lia|]. set (data := sub _ _ _).
  assert (Hl : blen data = packet_dataLen q) by (unfold data; rewrite blen_sub; lia).
  sstep. apply (swp_udp_field u); [done|done|done|done|done|]. intros sp Hsp.
  sstep. apply (swp_udp_field u); [done|done|done|done|done|]. intros dp Hdp.
  sstep. apply swp_SrcAddr; [done|]. intros src Hsrc. sstep. apply swp_DstAddr; [done|]. intros dst Hdst.
  assert (Hdrop : ∀ out s', engine_ok s' →
    swp (dns ← lift (Dns.dns_is_dns_packet data (packet_dataLen q) out); mret (Verdict (negb dns) false None)) s' P).
  { intros out s' Hs'. destruct (DnsFacts.dns_packet_total data (packet_dataLen q) out) as [x ->]; [lia|]. sstep. sstep.
    apply wp_ok. sstep. by apply HP. }
  assert (Hudp : ∀ off x s' (Q : unit → engine → Prop), engine_ok s' → 0 <= off → off + blen x <= 8 →
    (∀ s'', engine_ok s'' → Q tt s'') → swp (put_field (ppUdpHdr q) off x) s' Q).
  { intros off x s' Q Hs' ?? HQ. pose proof (eo_packet _ Hs'). destruct (hi_udp _ _ Hq u Hu) as (? & ? & _).
    by eapply swp_put_field; [done|lia|lia|done|]. }
  assert (Hip : ∀ (v6 : bool) off x s' (Q : unit → engine → Prop), v6 = rc_v6 r → engine_ok s' → 0 <= off →
    off + blen x <= (if v6 then 40 else 20) → (∀ s'', engine_ok s'' → Q tt s'') →
    swp (put_field (if v6 then ppIpV6Hdr q else ppIpHdr q) off x) s' Q).
  { intros v6 off x s' Q -> Hs' ?? HQ. pose proof (eo_packet _ Hs'). destruct (ro_ip _ Hr) as [h Hh]. destruct (rc_v6 r).
    - destruct (hi_ipv6 _ _ Hq h Hh). by eapply swp_put_field; [done|lia|lia|done|].
    - destruct (hi_ip _ _ Hq h Hh). by eapply swp_put_field; [done|lia|lia|done|]. }
  rewrite (ro_v _ Hr). destruct (negb (a_Outbound (rc_addr r))).
  - sstep. apply swp_on_dns. eapply swp_mono; [apply DnsFacts.incoming_ok; [apply Hs|split_and!; [done|done|lia]]|].
    cbv beta. intros info tab (Htab & _ & _ & Hinfo). set (s1 := Engine _ _ _ _ _). assert (Hs1 : engine_ok s1) by (by destruct Hs).
    destruct info as [info|]; [|by apply Hdrop]. destruct (Hinfo info eq_refl) as (I1 & I2 & I3).
    sstep. apply (swp_mono _ _ (λ _ s', engine_ok s')).
    { destruct (rc_v6 r) eqn:E; cbn [negb].
      - apply (Hip true); [done|done|done|unfold ipv6_SrcAddr; lia|done].
      - apply (Hip false); [done|done|done| |done]. unfold ip_SrcAddr, blen in *. rewrite length_take. lia. }
    intros _ s2 Hs2. sstep. apply Hudp; [done|done|unfold udp_DstPort; lia|]. intros s3 Hs3.
    sstep. apply Hudp; [done|done|unfold udp_SrcPort; lia|]. intros s4 Hs4. sstep. by apply HP.
  - sstep. apply swp_on_dns. eapply swp_mono; [apply DnsFacts.outgoing_ok; [apply Hs|split_and!; [done..|lia]]|].
    cbv beta. intros ok tab (Htab & _). set (s1 := Engine _ _ _ _ _). assert (Hs1 : engine_ok s1) by (by destruct Hs).
    destruct ok; [|by apply Hdrop]. destruct (oo_dnsv4 _ Ho), (oo_dnsv6 _ Ho).
    sstep. apply (swp_mono _ _ (λ _ s', engine_ok s')).
    { destruct (rc_v6 r) eqn:E; cbn [negb]; sstep.
      - apply (Hip true); [done|done|done|unfold ipv6_DstAddr; lia|]. intros s2 Hs2.
        apply Hudp; [done|done|unfold udp_DstPort; lia|done].
      - apply (Hip false); [done|done|done|unfold ip_DstAddr; lia|]. intros s2 Hs2.
        apply Hudp; [done|done|unfold udp_DstPort; lia|done]. }
    intros _ s2 Hs2. sstep. by apply HP.
Qed.
End received.

Lemma swp_reinject addr m v s (P : unit → engine → Prop) : engine_ok s → 0 <= m < MAX_PACKET_SIZE →
  (∀ s', engine_ok s' → P tt s') → swp (reinject calc addr m v) s P.
Proof.
  intros Hs Hm HP. pose proof (eo_packet _ Hs) as Hb. unfold reinject. destruct (should_reinject v); [|sstep; by apply HP].
  sstep. apply (swp_mono _ _ (λ _ s', engine_ok s')).
  - destruct (should_recalc_checksum v); [|by sstep]. sstep. apply swp_look, (wp_calc parse calc); [lia|].
    pose proof (calc_length (parse := parse) (calc := calc) (sub (g_packet s) 0 m) addr) as Hc. rewrite blen_sub in Hc by lia.
    destruct (calc _ _) as [p a]. cbn [fst] in Hc. sstep. unfold set_packet. sstep. sstep.
    apply with_packet_ok; [done|]. rewrite blen_put; lia.
  - intros a s1 Hs1. sstep. sstep. apply swp_on_wire, swp_send; [pose proof (eo_packet _ Hs1); lia|]. by apply HP, with_sent_ok.
Qed.

Lemma swp_handle_packet addr m s (P : unit → engine → Prop) : engine_ok s → 0 <= m < MAX_PACKET_SIZE →
  (∀ s', engine_ok s' → P tt s') → swp (handle_packet parse calc junk clock o addr m) s P.
Proof.
  intros Hs Hm HP. pose proof (eo_packet _ Hs) as Hb. unfold handle_packet. sstep. apply swp_look, (wp_parse parse); [lia|].
  destruct (parse (sub (g_packet s) 0 m)) as [q|] eqn:Hparse; cbn [packet_type].
  2: { sstep. sstep. by apply swp_reinject. }
  pose proof (parse_in (parse := parse) (calc := calc) _ _ Hparse) as Hq. rewrite blen_sub in Hq by lia.
  assert (Hend : ∀ v s', engine_ok s' → swp (match v with Some v => reinject calc addr m v | None => skip end) s' P).
  { intros [v|] s' Hs'; [by apply swp_reinject|sstep; by apply HP]. }
  assert (Hget : ∀ A (x : option A), bool_decide (is_Some x) = true → ∃ a, x = Some a).
  { intros A x Hx. by apply bool_decide_eq_true in Hx as [a ->]; exists a. }
  assert (Hr : ∀ (v6 : bool) h type, (if v6 then ppIpV6Hdr q else ppIpHdr q) = Some h →
    received_ok (Received addr m q (negb v6) v6 type) ∧ intact (Received addr m q (negb v6) v6 type) s).
  { intros v6 h type Hh. split; [|done]. split; cbn; [lia|done|done|by exists h]. }
  assert (Hfam : ∀ (v6 : bool) h, (if v6 then ppIpV6Hdr q else ppIpHdr q) = Some h →
    (∀ t d type, ppTcpHdr q = Some t → packet_data q = Some d →
      swp (handle_tcp_data parse calc junk clock o (Received addr m q (negb v6) v6 type)) s
        (λ v s', swp (match v with Some v => reinject calc addr m v | None => skip end) s' P)) ∧
    (∀ t type, ppTcpHdr q = Some t →
      swp (v ← handle_tcp clock o (Received addr m q (negb v6) v6 type); mret (Some v)) s
        (λ v s', swp (match v with Some v => reinject calc addr m v | None => skip end) s' P)) ∧
    (∀ u d type, ppUdpHdr q = Some u → packet_data q = Some d →
      swp (v ← handle_dns clock o (Received addr m q (negb v6) v6 type); mret (Some v)) s
        (λ v s', swp (match v with Some v => reinject calc addr m v | None => skip end) s' P))).
  { intros v6 h Hh. split_and!.
    - intros t d type Ht Hd. destruct (Hr v6 h type Hh) as [R1 R2].
      apply (swp_handle_tcp_data (Received addr m q (negb v6) v6 type) R1 t d); [done|done|done|done|].
      intros v s' Hs'. by apply Hend.
    - intros t type Ht. destruct (Hr v6 h type Hh) as [R1 R2]. sstep.
      apply (swp_handle_tcp (Received addr m q (negb v6) v6 type) R1 t); [done|done|]. intros v s' Hs'. sstep. exact (Hend (Some v) s' Hs').
    - intros u d type Hu Hd. destruct (Hr v6 h type Hh) as [R1 R2]. sstep.
      apply (swp_handle_dns (Received addr m q (negb v6) v6 type) R1 u d); [done|done|done|]. intros v s' Hs'. sstep. exact (Hend (Some v) s' Hs'). }
  assert (Hno : swp (mret (Some (Verdict true false None))) s
    (λ v s', swp (match v with Some v => reinject calc addr m v | None => skip end) s' P)) by (sstep; by apply swp_reinject).
  cbv zeta. destruct (ppIpHdr q) as [h|] eqn:E4; cbn [is_Some].
  - destruct (Hfam false h) as (H1 & H2 & H3); [done|].
    destruct (ppTcpHdr q) as [t|] eqn:Et; destruct (packet_data q) as [d|] eqn:Ed; destruct (ppUdpHdr q) as [u|] eqn:Eu;
      cbn; sstep; try (by eapply H1); try (by eapply H2); try exact Hno.
    + destruct (o_do_dnsv4_redirect o); cbn [andb orb]; [by eapply H3|]. rewrite andb_false_r. exact Hno.
    + by rewrite !andb_false_r.
    + by rewrite !andb_false_r.
    + by rewrite !andb_false_r.
  - destruct (ppIpV6Hdr q) as [h|] eqn:E6; cbn [is_Some]; [|cbn; sstep; rewrite !andb_false_r; exact Hno].
    destruct (Hfam true h) as (H1 & H2 & H3); [done|].
    destruct (ppTcpHdr q) as [t|] eqn:Et; destruct (packet_data q) as [d|] eqn:Ed; destruct (ppUdpHdr q) as [u|] eqn:Eu;
      cbn; sstep; try (by eapply H1); try (by eapply H2); try exact Hno; rewrite ?andb_false_r, ?andb_true_r; cbn [orb];
      try exact Hno.
    destruct (o_do_dnsv6_redirect o); [by eapply H3|exact Hno].
Qed.

Lemma swp_packet_loop l s : engine_ok s → Forall (λ x : sent, blen x.1 < MAX_PACKET_SIZE) l →
  swp (packet_loop parse calc junk clock o l) s (λ _ s', engine_ok s').
Proof.
  intros Hs Hl. revert s Hs. induction Hl as [|[data a] l Hx Hl IH]; intros s Hs; cbn [packet_loop]; [by sstep|].
  cbn [fst] in Hx. pose proof (blen_nonneg data). pose proof (eo_packet _ Hs).
  sstep. apply swp_edit, wp_store; [lia|lia|]. sstep. apply swp_handle_packet.
  - apply with_packet_ok; [done|]. rewrite blen_put; lia.
  - lia.
  - intros s' Hs'. by apply IH.
Qed.
End safety.

(** * Reassembly *)

Lemma u32_diff x p off : u32 x = u32 (p + off) → 0 <= off < 2 ^ 32 → u32 (x - p) = off.
Proof.
  unfold u32. intros E Ho. rewrite Zminus_mod, E, <- Zminus_mod. replace (p + off - p) with off by lia.
  by apply Z.mod_small.
Qed.

(** A receiver puts the data of the segment [m] where its sequence number says, counted from
    that of the packet [p]. *)
Definition place (t d : Z) (p buf m : bytes) : bytes :=
  put buf (u32 (be32 m (t + tcp_SeqNum) - be32 p (t + tcp_SeqNum))) (sub m d (blen m - d)).

(** The segments [ms] are fragments of [p], and give its data in whatever order they come. *)
Definition reassemble (q : parsed) (v6 : bool) (t d : Z) (p : bytes) (ms : list bytes) : Prop :=
  Forall (λ m, ∃ off len, fragment_of q v6 p off len m) ms ∧
  ∀ buf, blen buf = packet_dataLen q → foldl (place t d p) buf ms = sub p d (packet_dataLen q).

Section pair.
Context (q : parsed) (v6 : bool) (n L T t d : Z) (p : bytes).
Context (Hq : tcp_packet n q v6 L T t d) (Hp : blen p = n) (Hn : d + packet_dataLen q = n) (Hm : n <= MAX_PACKET_SIZE).

Lemma place_fragment off len m buf : fragment_of q v6 p off len m → 0 <= off → 0 <= len → off + len <= packet_dataLen q →
  place t d p buf m = put buf off (sub p (d + off) len).
Proof.
  intros Hf Ho Hl Hol. pose proof Hq as [_ _ Ht Hd Hord Hdl _]. unfold place. unfold MAX_PACKET_SIZE in Hm.
  rewrite (u32_diff _ _ off) by (try apply (fr_seq _ _ _ _ _ _ Hf t Ht); change (2 ^ 32) with 4294967296; lia).
  rewrite (fr_len _ _ _ _ _ _ Hf), Hp. replace (n - packet_dataLen q + len - d) with len by lia.
  by rewrite (fr_data _ _ _ _ _ _ Hf d Hd).
Qed.

Lemma reassemble_one m : fragment_of q v6 p 0 (packet_dataLen q) m → reassemble q v6 t d p [m].
Proof.
  intros Hf. pose proof Hq as [_ _ _ _ Hord Hdl _]. split; [constructor; [by exists 0, (packet_dataLen q)|constructor]|].
  intros buf Hbuf. cbn [foldl]. rewrite (place_fragment 0 (packet_dataLen q)) by (done || lia). rewrite Z.add_0_r.
  apply put_all. rewrite blen_sub; lia.
Qed.

Lemma reassemble_two k m1 m2 : 0 < k < packet_dataLen q → fragment_of q v6 p 0 k m1 →
  fragment_of q v6 p k (packet_dataLen q - k) m2 →
  reassemble q v6 t d p [m1; m2] ∧ reassemble q v6 t d p [m2; m1].
Proof.
  intros Hk H1 H2. pose proof Hq as [_ _ _ _ Hord Hdl _]. set (dl := packet_dataLen q) in *.
  assert (Hs : sub p d dl = sub p d k ++ sub p (d + k) (dl - k)) by (apply sub_split; lia).
  assert (B1 : blen (sub p d k) = k) by (rewrite blen_sub; lia).
  assert (B2 : blen (sub p (d + k) (dl - k)) = dl - k) by (rewrite blen_sub; lia).
  split; (split; [repeat (apply Forall_cons_2; [eexists _, _; eassumption|]); apply Forall_nil_2|]); intros buf Hbuf; cbn [foldl];
    destruct (split_at buf k) as (x & y & -> & Hx); try lia; rewrite blen_app in Hbuf;
    rewrite (place_fragment k (dl - k) m2), (place_fragment 0 k m1) by (done || lia); rewrite Z.add_0_r; fold dl; rewrite Hs.
  - pose proof (put_at [] x y (sub p d k) 0 eq_refl) as E. cbn [app] in E. rewrite E by lia.
    pose proof (put_at (sub p d k) y [] (sub p (d + k) (dl - k)) k) as E2. rewrite !app_nil_r in E2. apply E2; lia.
  - pose proof (put_at x y [] (sub p (d + k) (dl - k)) k) as E2. rewrite !app_nil_r in E2. rewrite E2 by lia.
    pose proof (put_at [] x (sub p (d + k) (dl - k)) (sub p d k) 0 eq_refl) as E. cbn [app] in E. apply E; lia.
Qed.
End pair.

Section fragments.
Context (parse : bytes → option parsed) (calc : bytes → address → bytes * address) (junk : Z → bytes).
Context `{!WinDivert parse calc} (Hj : ∀ n, 0 <= n → blen (junk n) = n).
Context (q : parsed) (v6 : bool) (n L T t d : Z).
Context (Hq : tcp_packet n q v6 L T t d) (Hn : d + packet_dataLen q = n) (Hm : n <= MAX_PACKET_SIZE).

(** The two calls for one packet: its data goes out in one piece, or in two. *)
Lemma send_both_ok addr size (rev : bool) s (P : unit → engine → Prop) : blen (g_packet s) = MAX_PACKET_SIZE → 0 < size →
  (∀ ms, reassemble q v6 t d (sub (g_packet s) 0 n) ms → length ms = (if size <? packet_dataLen q then 2%nat else 1%nat) →
     P tt (with_sent (g_sent s ++ map (checksummed calc addr) ms) s)) →
  swp (send_native_fragment calc junk addr n q (negb v6) v6 size rev;;
       send_native_fragment calc junk addr n q (negb v6) v6 size (negb rev)) s P.
Proof.
  intros Hb Hsz HP. pose proof Hq as [_ _ _ _ Hord Hdl _].
  assert (Hbs : blen (sub (g_packet s) 0 n) = n) by (rewrite blen_sub; lia).
  sstep. apply (send_fragment_ok q v6 n L T t d Hq parse calc junk Hj); [done|done|lia|]. cbv zeta.
  destruct (Z.ltb_spec size (packet_dataLen q)) as [Hfit|Hlong]; cbn [orb andb].
  - intros m1 H1. apply (send_fragment_ok q v6 n L T t d Hq parse calc junk Hj); [done|done|lia|]. cbv zeta.
    rewrite (proj2 (Z.ltb_lt _ _)) by done. cbn [orb andb g_sent g_packet with_sent]. intros m2 H2.
    rewrite <- app_assoc. apply (HP [m1; m2]); [|done].
    destruct rev; cbn [andb negb] in *.
    + destruct (reassemble_two q v6 n L T t d _ Hq Hbs Hn Hm size m2 m1) as [_ R]; [lia|done|done|exact R].
    + destruct (reassemble_two q v6 n L T t d _ Hq Hbs Hn Hm size m1 m2) as [R _]; [lia|done|done|exact R].
  - destruct rev; cbn [negb andb orb].
    + intros m1 H1. apply (send_fragment_ok q v6 n L T t d Hq parse calc junk Hj); [done|done|lia|]. cbv zeta.
      rewrite (proj2 (Z.ltb_ge _ _)) by lia. cbn [orb]. apply (HP [m1]); [|done]. by eapply reassemble_one.
    + apply (send_fragment_ok q v6 n L T t d Hq parse calc junk Hj); [done|done|lia|]. cbv zeta.
      rewrite (proj2 (Z.ltb_ge _ _)) by lia. cbn [orb andb]. intros m1 H1. apply (HP [m1]); [|done]. by eapply reassemble_one.
Qed.
End fragments.

(** * A hello through the loop *)

Section hello.
Context (parse : bytes → option parsed) (calc : bytes → address → bytes * address) (junk : Z → bytes).
Context `{!WinDivert parse calc} (Hj : ∀ n, 0 <= n → blen (junk n) = n).
Context (clock : nat → Z) (o : options).

(** Options that split every hello, as those of the modes -5 to -9 without a blacklist. *)
Record splits_hellos : Prop := {
  so_https : o_do_fragment_https o = true; so_native : o_do_native_frag o = true;
  so_blacklist : o_do_blacklist o = false; so_sni : o_do_fragment_by_sni o = false;
  so_size : 0 < o_https_fragment_size o }.

(** The TTL for decoys, which --auto-ttl may choose anew, and whether they are sent, which
    --min-ttl may keep them from. *)
Definition chosen (s : engine) (ttl : Z) (sends : bool) : Prop :=
  (o_do_auto_ttl o = false → ttl = g_ttl_of_fake_packet s) ∧
  (o_do_auto_ttl o = true ∨ o_ttl_min_nhops o = 0 → sends = true).

(** A hello in a packet of [n] bytes that is not for port 80. *)
Record hello_packet (b : bytes) (n : Z) (q : parsed) (v6 : bool) (h t d : Z) : Prop := {
  hp_parse : parse (sub b 0 n) = Some q; hp_n : 0 <= n < MAX_PACKET_SIZE;
  hp_ip : if v6 then ppIpHdr q = None ∧ ppIpV6Hdr q = Some h else ppIpHdr q = Some h;
  hp_tcp : ppTcpHdr q = Some t; hp_data : packet_data q = Some d; hp_all : d + packet_dataLen q = n;
  hp_long : 16 < packet_dataLen q; hp_hello : sub b d 3 = [22; 3; 1]; hp_port : sub b (t + tcp_DstPort) 2 ≠ port_80 }.

Context (Hopt : splits_hellos) (addr : address) (Hout : a_Outbound addr = true).
Context (n : Z) (q : parsed) (v6 : bool) (h t d : Z) (l : list fake_t).
Context (Htab : loaded (o_fake_table o) l).
Context (Hfits : ∀ f, f ∈ (if bool_decide (l = []) then [None] else Some <$> l) →
  fake_ok true f ∧ n + snd (fake_bytes true f) + 1 <= MAX_PACKET_SIZE).

Definition decoys_for (ttl : Z) (sends : bool) : list (option fake_t * (Z * bool * bool)) :=
  if sends then plan l (o_fakes_resend o) ttl (o_do_wrong_chksum o) (o_do_wrong_seq o) else [].

Lemma hello_decoys s r (P : unit → engine → Prop) : engine_ok s → hello_packet (g_packet s) n q v6 h t d →
  rc_addr r = addr → rc_packetLen r = n → rc_v6 r = v6 → received_ok r → rc_parsed r = q →
  (∀ ttl sends decoys s', chosen s ttl sends →
     Forall2 (decoy_sent calc addr q v6 true (sub (g_packet s) 0 n)) (decoys_for ttl sends) decoys →
     g_packet s' = g_packet s → g_sent s' = g_sent s ++ decoys → P tt s') →
  swp (handle_fake_packet parse calc junk clock o true r) s P.
Proof.
  intros Hs [Hparse Hn Hip Ht Hd Hall Hlong _ _] Ea En E6 Hr Eq HP. unfold handle_fake_packet. sstep.
  apply (swp_mono _ _ (λ b s', g_packet s' = g_packet s ∧ g_sent s' = g_sent s ∧ chosen s (g_ttl_of_fake_packet s') b)).
  { destruct (_ || _) eqn:E.
    - sstep. apply (swp_outgoing_ttl clock r Hr t); [by rewrite Eq|done|]. intros i s' _ Hp Hg Httl.
      destruct i as [i|]; [|sstep; split_and!; [done|done|by split]].
      unfold chosen. destruct (o_do_auto_ttl o) eqn:Eauto.
      + sstep. unfold set_ttl_of_fake_packet. sstep. sstep. by split_and!.
      + sstep. split_and!; [done|done|done|]. intros [?|Hz]; [done|]. by rewrite Hz in E.
    - sstep. by split_and!. }
  intros b s1 (Hp & Hg & Hc). destruct b.
  2: { sstep. by apply (HP _ false [] _ Hc); [constructor| |rewrite app_nil_r]. }
  sstep. sstep. sstep. sstep. sstep. apply swp_on_wire. rewrite Ea, En, E6, Hp, Hg.
  destruct (tcp_packet_in n q v6 h t d) as (L & T & Hq); [| |done|done|].
  { replace n with (blen (sub (g_packet s) 0 n)) by (rewrite blen_sub; pose proof (eo_packet _ Hs); lia). by apply (parse_in (parse := parse) (calc := calc)). }
  { destruct v6; [apply Hip|done]. }
  eapply swp_mono; [apply (send_fakes_ok parse calc junk Hj addr (g_packet s) n q v6 true L T t d Hparse Hq ltac:(pose proof (eo_packet _ Hs); lia) _ l);
    [done|exact Hfits]|].
  cbv beta. intros x sent' (_ & new & -> & Hnew). sstep. by apply (HP _ true new _ Hc).
Qed.

Lemma handle_hello s (P : unit → engine → Prop) : engine_ok s → hello_packet (g_packet s) n q v6 h t d →
  (∀ ttl sends decoys ms s', chosen s ttl sends →
     Forall2 (decoy_sent calc addr q v6 true (sub (g_packet s) 0 n)) (if o_do_fake_packet o then decoys_for ttl sends else []) decoys →
     reassemble q v6 t d (sub (g_packet s) 0 n) ms →
     length ms = (if o_https_fragment_size o <? packet_dataLen q then 2%nat else 1%nat) →
     g_packet s' = g_packet s → g_sent s' = g_sent s ++ decoys ++ map (checksummed calc addr) ms → P tt s') →
  swp (handle_packet parse calc junk clock o addr n) s P.
Proof.
  intros Hs Hh HP. pose proof (eo_packet _ Hs) as Hb. pose proof Hh as [Hparse Hn Hip Ht Hd Hall Hlong Hhello Hport].
  assert (Hin : headers_in n q).
  { replace n with (blen (sub (g_packet s) 0 n)) by (rewrite blen_sub; lia). by apply (parse_in (parse := parse) (calc := calc)). }
  destruct (tcp_packet_in n q v6 h t d) as (L & T & Hq); [done| |done|done|].
  { destruct v6; [apply Hip|done]. }
  pose proof Hq as [_ _ _ _ Hord Hdl _].
  unfold handle_packet. sstep. apply swp_look, (wp_parse parse); [lia|]. rewrite Hparse.
  assert (Et : packet_type (Some q) = (if v6 then ipv6_tcp_data else ipv4_tcp_data, negb v6, v6)).
  { unfold packet_type. cbv zeta. rewrite Ht, Hd. destruct v6; [destruct Hip as [-> ->]|rewrite Hip]; done. }
  rewrite Et. set (r := Received _ _ _ _ _ _). rewrite bool_decide_eq_true_2 by (destruct v6; [by right|by left]).
  sstep. unfold handle_tcp_data. cbn [rc_parsed rc_addr r]. sstep. sstep. eapply wp_ptr; [exact Hd|].
  sstep. unfold tcp_DstPort in *. eapply swp_field; [exact Ht|lia|lia|lia|]. intros dport _ ->. rewrite Hout. cbn [negb andb].
  rewrite (bool_decide_eq_false_2 _ Hport). rewrite (proj2 (Z.ltb_lt 16 _)) by done. rewrite orb_true_r. cbn [negb andb].
  rewrite (so_native Hopt), orb_true_r. sstep. unfold handle_https. sstep. apply swp_look.
  apply wp_mono with (λ b, b = true).
  { unfold is_tls_data. destruct (Z.eqb_spec (packet_dataLen q) 2); [lia|]. destruct (Z.leb_spec 3 (packet_dataLen q)); [|lia].
    apply wp_bind, wp_memcmp; [lia|lia|lia|lia|done|]. intros c Hc. rewrite Hhello in Hc. rewrite Hc.
    by rewrite bool_decide_eq_true_2 by done. }
  intros b ->. rewrite (so_blacklist Hopt), (so_sni Hopt). cbn [orb]. sstep. sstep. sstep. sstep. sstep.
  apply (swp_mono _ _ (λ _ s', ∃ ttl sends decoys, chosen s ttl sends ∧
    Forall2 (decoy_sent calc addr q v6 true (sub (g_packet s) 0 n)) (if o_do_fake_packet o then decoys_for ttl sends else []) decoys ∧
    g_packet s' = g_packet s ∧ g_sent s' = g_sent s ++ decoys)).
  { destruct (o_do_fake_packet o).
    - apply hello_decoys; try done.
      + split; try done. exists h. destruct v6; [apply Hip|done].
      + intros ttl sends decoys s' Hc Hdec Ep Eg. by exists ttl, sends, decoys.
    - sstep. exists (g_ttl_of_fake_packet s), true, []. split_and!; [by split|constructor|done|by rewrite app_nil_r]. }
  intros _ s1 (ttl & sends & decoys & Hc & Hdec & Ep1 & Eg1). sstep. cbn [fmap option_fmap option_map]. unfold fragment_packet.
  cbn [should_reinject should_recalc_checksum host_addr andb rc_parsed rc_addr rc_packetLen rc_v4 rc_v6 r]. rewrite (so_native Hopt).
  cbn [andb]. unfold tcp_DstPort. sstep. sstep.
  eapply swp_field; [exact Ht|lia|lia|rewrite Ep1; lia|]. intros dport _ ->. rewrite Ep1.
  rewrite (bool_decide_eq_false_2 _ Hport), andb_false_r, (so_https Hopt). cbn [negb andb].
  pose proof (so_size Hopt). destruct (Z.eqb_spec (o_https_fragment_size o) 0); [lia|].
  assert (Hboth : ∀ (rev : bool) (Q : unit → engine → Prop),
    (∀ ms, reassemble q v6 t d (sub (g_packet s) 0 n) ms →
      length ms = (if o_https_fragment_size o <? packet_dataLen q then 2%nat else 1%nat) →
      Q tt (with_sent (g_sent s ++ decoys ++ map (checksummed calc addr) ms) s1)) →
    swp (send_native_fragment calc junk addr n q (negb v6) v6 (o_https_fragment_size o) rev;;
         send_native_fragment calc junk addr n q (negb v6) v6 (o_https_fragment_size o) (negb rev)) s1 Q).
  { intros rev Q HQ. apply (send_both_ok parse calc junk Hj q v6 n L T t d Hq Hall); [lia|by rewrite Ep1|done|].
    rewrite Ep1, Eg1. intros ms Hms Hlen. rewrite <- app_assoc. by apply HQ. }
  assert (H2 := Hboth (o_do_reverse_frag o) (λ _ s', P tt s')). apply swp_bind_inv in H2.
  2: { intros ms Hms Hlen. by apply (HP ttl sends decoys ms). }
  sstep. eapply swp_mono; [exact H2|]. clear H2.
  - cbv beta. intros _ s2 H2. sstep. eapply swp_mono; [exact H2|]. cbv beta. intros [] s3 H3. sstep. sstep. by sstep.
Qed.
End hello.

(** * The space in front of the host *)

Lemma host_value d b len h v l : 0 <= d → d + len <= blen b → header_at b d len http_host_find h v l →
  host_line d b len h v ∧ sub b (v - 1) 1 = [ch " "].
Proof.
  intros Hd Hin [-> Hf Hn _ Hl Hi _ _]. unfold occurs in Hn. change (blen http_host_find) with 8 in *. split.
  - split_and!; [done|done|lia|]. unfold occurs. change (blen crlf) with 2. replace h with (h + 0) by lia.
    rewrite <- (sub_sub b h 8) by lia. by rewrite Hn.
  - replace (h + 8 - 1) with (h + 7) by lia. rewrite <- (sub_sub b h 8) by lia. by rewrite Hn.
Qed.

Lemma sub_tail b i k : 0 <= i → 0 <= k → i + k <= blen b → sub b i (blen b - i) = sub b i k ++ sub b (i + k) (blen b - (i + k)).
Proof. intros. rewrite (sub_split b i (blen b - i) k) by lia. do 2 f_equal. lia. Qed.
Lemma sub_head b i : 0 <= i <= blen b → b = sub b 0 i ++ sub b i (blen b - i).
Proof. intros. rewrite <- (sub_all b) at 1. rewrite (sub_split b 0 (blen b) i) by lia. done. Qed.

Section space.
Context (b : bytes) (v vu lu : Z).
Context (Hlu : 0 <= lu) (Hspace : sub b (v - 1) 1 = [ch " "]).

Lemma remove_space_behind : 0 < v → v < vu → vu + lu <= blen b → let e := vu + lu in
  remove_space b v vu lu = Ok (sub b 0 (v - 1) ++ sub b v (e - v) ++ [ch " "] ++ sub b e (blen b - e)).
Proof.
  intros Hv Hvu He e. unfold e.
  assert (Hb : b = sub b 0 (v - 1) ++ [ch " "] ++ sub b v (vu - v) ++ [] ++ sub b vu lu ++ sub b (vu + lu) (blen b - (vu + lu))).
  { rewrite (sub_head b (v - 1)) at 1 by lia. rewrite (sub_tail b (v - 1) 1) by lia. rewrite Hspace.
    replace (v - 1 + 1) with v by lia. rewrite (sub_tail b v (vu - v)) by lia. replace (v + (vu - v)) with vu by lia.
    by rewrite (sub_tail b vu lu) by lia. }
  pose proof (remove_space_right (sub b 0 (v - 1)) (sub b v (vu - v)) [] (sub b vu lu) (sub b (vu + lu) (blen b - (vu + lu)))) as E.
  rewrite <- Hb in E. change (blen []) with 0 in E. rewrite !blen_sub in E by lia.
  replace (v - 1 + 1 + (vu - v) + 0) with vu in E by lia. replace (v - 1 + 1) with v in E by lia. rewrite E by lia.
  rewrite (sub_split b v (vu + lu - v) (vu - v)) by lia. replace (v + (vu - v)) with vu by lia.
  replace (vu + lu - v - (vu - v)) with lu by lia. by rewrite <- !app_assoc.
Qed.

Lemma remove_space_front : 0 <= vu → vu + lu < v → v <= blen b → let e := vu + lu in
  remove_space b v vu lu = Ok (sub b 0 e ++ [ch " "] ++ sub b e (v - 1 - e) ++ sub b v (blen b - v)).
Proof.
  intros Hvu He Hv e. unfold e.
  assert (Hb : b = sub b 0 vu ++ sub b vu lu ++ sub b (vu + lu) (v - 1 - (vu + lu)) ++ [ch " "] ++ sub b v (blen b - v)).
  { rewrite (sub_head b vu) at 1 by lia. rewrite (sub_tail b vu lu) by lia.
    rewrite (sub_tail b (vu + lu) (v - 1 - (vu + lu))) by lia. replace (vu + lu + (v - 1 - (vu + lu))) with (v - 1) by lia.
    rewrite (sub_tail b (v - 1) 1) by lia. rewrite Hspace. by replace (v - 1 + 1) with v by lia. }
  pose proof (remove_space_left (sub b 0 vu) (sub b vu lu) (sub b (vu + lu) (v - 1 - (vu + lu))) (sub b v (blen b - v))) as E.
  rewrite <- Hb in E. rewrite !blen_sub in E by lia. replace (vu + lu + (v - 1 - (vu + lu)) + 1) with v in E by lia. rewrite E.
  rewrite (sub_split b 0 (vu + lu) vu) by lia. replace (vu + lu - vu) with lu by lia. by rewrite <- !app_assoc.
Qed.
End space.

(** * The properties *)

(** C7: the packet loop never reads or writes outside of its buffers, never follows a null
    pointer and always comes to the end of a round: for every sequence of packets shorter than
    the buffer (one that fills it may be read beyond, [extract_sni_overreads]), for all
    options with decoys that were loaded and addresses of their size, whatever TTL was set for decoys,
    and for whatever the library finds in the packets, the loop runs through, and the buffer
    and both tracking tables are in order afterwards. *)
Theorem loop_never_faults parse calc junk clock o ttl l :
  WinDivert parse calc → (∀ n, 0 <= n → blen (junk n) = n) → options_ok o →
  Forall (λ x : sent, blen x.1 < MAX_PACKET_SIZE) l →
  swp (packet_loop parse calc junk clock o l) (start junk ttl) (λ _ s, engine_ok s).
Proof.
  intros Hlib Hj Ho Hl. apply (swp_packet_loop parse calc junk Hj clock o Ho); [|exact Hl]. split; cbn.
  - apply Hj. unfold MAX_PACKET_SIZE. lia.
  - split; [|constructor]. apply NoDup_nil_2.
  - apply NoDup_nil_2.
Qed.

Definition zeros (n : Z) : bytes := repeat 0 (Z.to_nat n).
Lemma zeros_len n : 0 <= n → blen (zeros n) = n.
Proof. intros. unfold zeros. rewrite blen_repeat. lia. Qed.

Lemma default_options_ok : options_ok default_options.
Proof. split; cbn; [exists []; split; [apply loaded_none|constructor]|lia|done|done]. Qed.

Lemma loop_never_faults_witness :
  swp (packet_loop plain_parse plain_calc zeros (λ k, Z.of_nat k) default_options [(sample_http, sample_addr); ([1; 2], sample_addr)])
    (start zeros 5) (λ _ s, engine_ok s).
Proof.
  apply (loop_never_faults plain_parse plain_calc zeros (λ k, Z.of_nat k) default_options 5
    [(sample_http, sample_addr); ([1; 2], sample_addr)] plain_library zeros_len default_options_ok).
  repeat (apply Forall_cons_2; [vm_compute; reflexivity|]). apply Forall_nil_2.
Defined.

(** C6: with options that split every hello ([splits_hellos]: native fragments for HTTPS, as the
    modes -5 to -9 set them, no blacklist and no splitting at the server name), a TCP packet
    from this system, not to port 80, with more than 16 bytes of data that start as a TLS 1.0
    hello record (16 03 01), is kept back.  Out go the decoys of [plan], each with its checksum
    off by one or its numbers in the past as the options say, under the TTL that was set or
    that --auto-ttl has chosen, and none only where --min-ttl finds the server too near; and then
    the packet's own data in segments, in the order the options ask for, from which a receiver that
    goes by sequence numbers rebuilds it exactly, whatever the order.  Headers are those of
    the packet but for length, sequence number and checksums, and the packet itself is not
    sent again.  The decoys have to fit the buffer together with the packet. *)
Theorem hello_split parse calc junk clock o addr n q v6 h t d l s :
  WinDivert parse calc → (∀ n, 0 <= n → blen (junk n) = n) → splits_hellos o → a_Outbound addr = true →
  loaded (o_fake_table o) l →
  (∀ f, f ∈ (if bool_decide (l = []) then [None] else Some <$> l) →
     fake_ok true f ∧ n + snd (fake_bytes true f) + 1 <= MAX_PACKET_SIZE) →
  engine_ok s → hello_packet parse (g_packet s) n q v6 h t d →
  swp (handle_packet parse calc junk clock o addr n) s (λ _ s', ∃ ttl sends decoys ms,
    chosen o s ttl sends ∧ g_sent s' = g_sent s ++ decoys ++ map (checksummed calc addr) ms ∧
    Forall2 (decoy_sent calc addr q v6 true (sub (g_packet s) 0 n))
      (if o_do_fake_packet o then decoys_for o l ttl sends else []) decoys ∧
    reassemble q v6 t d (sub (g_packet s) 0 n) ms ∧
    length ms = (if o_https_fragment_size o <? packet_dataLen q then 2%nat else 1%nat) ∧
    g_packet s' = g_packet s).
Proof.
  intros Hlib Hj Hopt Hout Htab Hfits Hs Hh.
  apply (handle_hello parse calc junk Hj clock o Hopt addr Hout n q v6 h t d l Htab Hfits s _ Hs Hh).
  intros ttl sends decoys ms s' Hc Hd Hms Hlen Ep Eg. by exists ttl, sends, decoys, ms.
Qed.

(** The start of a hello in an IPv4 packet to port 443. *)
Definition sample_hello : bytes :=
  [69; 0; 0; 60; 0; 1; 0; 0; 64; 6; 0; 0; 10; 0; 0; 1; 10; 0; 0; 2] ++
  [200; 0; 1; 187; 0; 0; 0; 9; 0; 1; 200; 0; 80; 24; 255; 255; 0; 0; 0; 0] ++
  [22; 3; 1; 2; 0; 1; 0; 1; 252; 3; 3; 154; 143; 167; 106; 93; 87; 243; 98; 25].
Definition sample_engine : engine :=
  Engine (sample_hello ++ zeros 8956) 0 (Tracker 0 [] 0) (Tracker 0 [] 0) [].

Lemma hello_split_witness :
  swp (handle_packet plain_parse plain_calc zeros (λ k, Z.of_nat k) default_options sample_addr 60) sample_engine
    (λ _ s', ∃ ttl sends decoys ms, chosen default_options sample_engine ttl sends ∧
      g_sent s' = [] ++ decoys ++ map (checksummed plain_calc sample_addr) ms ∧
      Forall2 (decoy_sent plain_calc sample_addr (Parsed (Some 0) None (Some 20) None (Some 40) 20) false true
        (sub (g_packet sample_engine) 0 60)) (decoys_for default_options [] ttl sends) decoys ∧
      reassemble (Parsed (Some 0) None (Some 20) None (Some 40) 20) false 20 40 (sub (g_packet sample_engine) 0 60) ms ∧
      length ms = 2%nat ∧ g_packet s' = g_packet sample_engine).
Proof.
  apply (hello_split plain_parse plain_calc zeros (λ k, Z.of_nat k) default_options sample_addr 60
    (Parsed (Some 0) None (Some 20) None (Some 40) 20) false 0 20 40 [] sample_engine plain_library zeros_len).
  - split; reflexivity.
  - reflexivity.
  - apply loaded_none.
  - intros f Hf. apply list_elem_of_singleton in Hf as ->. vm_compute. repeat split; discriminate.
  - split; [vm_compute; reflexivity|split; constructor|constructor].
  - split; [vm_compute; reflexivity|vm_compute; split; [discriminate|reflexivity]|reflexivity|reflexivity|reflexivity|reflexivity
      |reflexivity|vm_compute; reflexivity|vm_compute; discriminate].
Defined.

(** C29: [extract_sni] finds the name of the server_name extension of a hello: when the data is
    [pre], the extension for [name] and [post], nothing in [pre] looks like such an
    extension, and the name is of 3 to 250 lower case letters, digits, dots and dashes. *)
Theorem sni_extracted b p len pre name post :
  0 <= p → 0 <= len → p + len < blen b → sub b p len = pre ++ enc_ext (0, sni_data name) ++ post →
  (∀ j, 0 <= j < blen pre → sni_here b (p + j) = false) →
  3 <= blen name <= 250 → forallb sni_char name = true →
  extract_sni b p len = Ok (Some (p + blen pre + 9, blen name)) ∧ sub b (p + blen pre + 9) (blen name) = name.
Proof.
  intros Hp Hl Hb Hdata Hpre Hn Hc. pose proof (blen_nonneg pre). pose proof (blen_nonneg post).
  assert (Hext : enc_ext (0, sni_data name) = [0; 0; 0; blen name + 5; 0; blen name + 3; 0; 0; blen name] ++ name).
  { unfold enc_ext, sni_data. cbn [fst snd]. rewrite !blen_app, !blen_enc16. change (blen [0]) with 1.
    replace (2 + (1 + (2 + blen name))) with (blen name + 5) by lia.
    assert (E : ∀ v, 0 <= v < 256 → enc16 v = [0; v]).
    { intros v Hv. unfold enc16. rewrite Z.shiftr_div_pow2 by lia. change (2 ^ 8) with 256. rewrite Z.div_small by lia.
      change 255 with (Z.ones 8). rewrite Z.land_ones by lia. change (2 ^ 8) with 256. rewrite Z.mod_small by lia.
      by rewrite (u8_small v), (u8_small 0) by lia. }
    by rewrite !E by lia. }
  rewrite Hext in Hdata. set (hd := [0; 0; 0; _; 0; _; 0; 0; _]) in *. assert (Hhd : blen hd = 9) by done.
  assert (Hlen : len = blen pre + 9 + blen name + blen post).
  { apply (f_equal blen) in Hdata. rewrite blen_sub, !blen_app in Hdata by lia. lia. }
  assert (Hat : ∀ j, 0 <= j < len → bat b (p + j) = bat (pre ++ (hd ++ name) ++ post) j).
  { intros j Hj. by rewrite <- Hdata, bat_sub by lia. }
  assert (Hhat : ∀ j, 0 <= j < 9 → bat b (p + (blen pre + j)) = bat hd j).
  { intros j Hj. rewrite Hat by lia. rewrite <- app_assoc, !(bat_app) by lia.
    destruct (Z.ltb_spec (blen pre + j) (blen pre)); [lia|]. replace (blen pre + j - blen pre) with j by lia.
    by destruct (Z.ltb_spec j (blen hd)); [|lia]. }
  assert (Hname : sub b (p + blen pre + 9) (blen name) = name).
  { replace (p + blen pre + 9) with (p + (blen pre + 9)) by lia. rewrite <- (sub_sub b p len) by lia. rewrite Hdata.
    replace (pre ++ (hd ++ name) ++ post) with ((pre ++ hd) ++ name ++ post) by (by rewrite <- !app_assoc).
    apply sub_at; [rewrite blen_app; lia|done]. }
  assert (Hf : sni_found b p len (p + blen pre + 9) (blen name)).
  { assert (Hh : ∀ j k, j = p + (blen pre + k) → 0 <= k < 9 → bat b j = bat hd k) by (intros j k -> Hk; by apply Hhat).
    split; unfold HOST_MAXLEN; try lia.
    - unfold sni_here. replace (p + blen pre + 9 - 9) with (p + blen pre) by lia.
      rewrite (Hh (p + blen pre) 0), (Hh (p + blen pre + 1) 1), (Hh (p + blen pre + 2) 2), (Hh (p + blen pre + 3) 3),
        (Hh (p + blen pre + 4) 4), (Hh (p + blen pre + 5) 5), (Hh (p + blen pre + 6) 6), (Hh (p + blen pre + 7) 7),
        (Hh (p + blen pre + 8) 8) by lia.
      change (bat hd 3) with (blen name + 5). change (bat hd 5) with (blen name + 3). change (bat hd 8) with (blen name).
      change (bat hd 0) with 0. change (bat hd 1) with 0. change (bat hd 2) with 0. change (bat hd 4) with 0.
      change (bat hd 6) with 0. change (bat hd 7) with 0. lia.
    - intros j Hj. replace j with (p + (j - p)) by lia. apply Hpre. lia.
    - by rewrite (Hh (p + blen pre + 9 - 1) 8) by lia.
    - by rewrite Hname. }
  split; [|done]. pose proof (extract_sni_ok b p len Hp Hl Hb) as Hw. apply wp_inv in Hw as (r & -> & Hr).
  destruct r as [[h' n']|]; [|by destruct (Hr _ _ Hf)]. by destruct (sni_found_unique _ _ _ _ _ _ _ Hf Hr) as [-> ->].
Qed.

Lemma sni_extracted_witness :
  extract_sni ([22; 3; 1] ++ enc_ext (0, sni_data (bs "w3.org")) ++ [0; 23; 0; 0; 9]) 0 22 = Ok (Some (12, 6)) ∧
  sub ([22; 3; 1] ++ enc_ext (0, sni_data (bs "w3.org")) ++ [0; 23; 0; 0; 9]) 12 6 = bs "w3.org".
Proof.
  apply (sni_extracted ([22; 3; 1] ++ enc_ext (0, sni_data (bs "w3.org")) ++ [0; 23; 0; 0; 9]) 0 22 [22; 3; 1] (bs "w3.org")
    [0; 23; 0; 0]); try (vm_compute; reflexivity); try (vm_compute; discriminate).
  - intros j Hj. change (blen [22; 3; 1]) with 3 in Hj. assert (j = 0 ∨ j = 1 ∨ j = 2) as [-> |[-> | ->]] by lia; reflexivity.
  - vm_compute. split; discriminate.
Defined.

(** C30: with [-s], the space in front of the host of a request goes to the end of its
    User-Agent, which may be behind the Host header or in front of it: what is between the
    two moves by one byte, the request keeps its length, and nothing else changes. *)
Theorem host_space_moved o d len h v l hu vu lu s :
  o_do_host_removespace o = true → o_do_additional_space o = false →
  0 <= d → 0 <= len → d + len <= blen (g_packet s) →
  header_at (g_packet s) d len http_host_find h v l → header_at (g_packet s) d len http_useragent_find hu vu lu →
  let b := g_packet s in let e := vu + lu in
  swp (change_spaces o d len v) s (λ c s', c = true ∧ s' = with_packet (if v <? vu
    then sub b 0 (v - 1) ++ sub b v (e - v) ++ [ch " "] ++ sub b e (blen b - e)
    else sub b 0 e ++ [ch " "] ++ sub b e (v - 1 - e) ++ sub b v (blen b - v)) s).
Proof.
  intros Hs Ha Hd Hl Hin Hh Hu. cbv zeta. set (b := g_packet s) in *.
  destruct (host_value d b len h v l Hd Hin Hh) as [Hline Hsp].
  pose proof Hh as [Hv Hf _ _ Hl' Hi _ _]. pose proof Hu as [Hvu Hfu _ _ Hlu Hiu _ _].
  change (blen http_host_find) with 8 in *. change (blen http_useragent_find) with 14 in *.
  pose proof (useragent_apart d b len h v hu vu lu Hin Hd Hline Hu) as Hapart.
  unfold change_spaces. rewrite Hs, Ha. cbn [andb]. sstep. apply swp_look. fold b.
  eapply wp_mono; [by apply find_header_ok|]. cbv beta. intros [[[hu' vu'] lu']|] Hu'; [|by destruct (Hu' _ _ _ Hu)].
  destruct (header_at_unique _ _ _ _ _ _ _ _ _ _ Hu Hu') as (<- & <- & <-).
  destruct (Z.ltb_spec 0 lu); [|lia]. sstep. apply swp_edit. fold b.
  destruct (Z.ltb_spec v vu).
  - rewrite remove_space_behind by (done || lia). apply wp_ok. by sstep.
  - rewrite remove_space_front by (done || lia). apply wp_ok. by sstep.
Qed.

Definition spaced : bytes := bs "GET / HTTP/1.1" ++ crlf ++ bs "Host: w3.org" ++ crlf ++ bs "User-Agent: curl" ++ crlf ++ crlf.
Definition removing : options := {|
  o_do_passivedpi := false; o_do_block_quic := false; o_do_fragment_http := false; o_do_fragment_http_persistent := false;
  o_do_fragment_http_persistent_nowait := false; o_do_fragment_https := false; o_do_host := true;
  o_do_host_removespace := true; o_do_additional_space := false; o_do_http_allports := false; o_do_host_mixedcase := false;
  o_do_dnsv4_redirect := false; o_do_dnsv6_redirect := false; o_do_dns_verb := false; o_do_tcp_verb := false;
  o_do_blacklist := false; o_do_allow_no_sni := false; o_do_fragment_by_sni := false; o_do_fake_packet := false;
  o_do_auto_ttl := false; o_do_wrong_chksum := false; o_do_wrong_seq := false; o_do_native_frag := false;
  o_do_reverse_frag := false; o_http_fragment_size := 0; o_https_fragment_size := 0; o_max_payload_size := 0;
  o_ttl_min_nhops := 0; o_auto_ttl_1 := 0; o_auto_ttl_2 := 0; o_auto_ttl_max := 0; o_dnsv4_addr := [0; 0; 0; 0];
  o_dnsv6_addr := repeat 0 16; o_dnsv4_port := [0; 53]; o_dnsv6_port := [0; 53]; o_fake_table := no_fakes;
  o_fakes_resend := 1; o_hosts := [] |}.

Lemma host_space_moved_witness :
  swp (change_spaces removing 0 (blen spaced) 22) (Engine spaced 0 (Tracker 0 [] 0) (Tracker 0 [] 0) [])
    (λ c s', c = true ∧ s' = with_packet (bs "GET / HTTP/1.1" ++ crlf ++ bs "Host:w3.org" ++ crlf ++ bs "User-Agent: curl " ++ crlf ++ crlf)
      (Engine spaced 0 (Tracker 0 [] 0) (Tracker 0 [] 0) [])).
Proof.
  apply (host_space_moved removing 0 (blen spaced) 14 22 6 28 42 4 (Engine spaced 0 (Tracker 0 [] 0) (Tracker 0 [] 0) [])).
  6, 7: apply header_at_found.
  all: vm_compute; try reflexivity; discriminate.
Defined.

(** The bound of the length of the name forgets the byte in front of it: the name may end
    one byte behind the data. *)
Lemma extract_sni_overreads :
  extract_sni ([0; 0; 0; 8; 0; 6; 0; 0; 3] ++ bs "abc") 0 11 = Ok (Some (9, 3)).
Proof. vm_compute. reflexivity. Qed.
