(* ===== verification/GdOptions.v ===== *)
(** GoodbyeDPI's command line and its start (goodbyedpi.c): the options, the strings of the
    filters, the opening and closing of the filters, and [main] around the packet loop.

    What [getopt_long] returns, call by call, is a list.  [exit] is a value, the code, which ends
    the sequence it is in; the driver and the system answer from the log of the calls so far. *)
From Stdlib Require Import ZArith Lia Ascii String.
From stdpp Require Import base numbers list option.
From S2P Require Import Prelude CMem PacketsTls Params Inet GdTrack GdLine GdText GdFake GdPacket Text.

#[local] Open Scope Z_scope.
#[local] Open Scope list_scope.

(** * Setting options *)

(** The options [x] with [v] for the field [f x]. *)
Ltac with_field p v x :=
  let c := constr:(Options
    (o_do_passivedpi x) (o_do_block_quic x) (o_do_fragment_http x) (o_do_fragment_http_persistent x)
    (o_do_fragment_http_persistent_nowait x) (o_do_fragment_https x) (o_do_host x) (o_do_host_removespace x)
    (o_do_additional_space x) (o_do_http_allports x) (o_do_host_mixedcase x) (o_do_dnsv4_redirect x)
    (o_do_dnsv6_redirect x) (o_do_dns_verb x) (o_do_tcp_verb x) (o_do_blacklist x) (o_do_allow_no_sni x)
    (o_do_fragment_by_sni x) (o_do_fake_packet x) (o_do_auto_ttl x) (o_do_wrong_chksum x) (o_do_wrong_seq x)
    (o_do_native_frag x) (o_do_reverse_frag x) (o_http_fragment_size x) (o_https_fragment_size x)
    (o_max_payload_size x) (o_ttl_min_nhops x) (o_auto_ttl_1 x) (o_auto_ttl_2 x) (o_auto_ttl_max x)
    (o_dnsv4_addr x) (o_dnsv6_addr x) (o_dnsv4_port x) (o_dnsv6_port x) (o_fake_table x) (o_fakes_resend x)
    (o_hosts x)) in
  lazymatch eval pattern p in c with ?g _ => let r := eval cbv beta in (g v) in exact r end.
Definition set_o_do_passivedpi (v : bool) (x : options) : options := ltac:(with_field (o_do_passivedpi x) v x).
Definition set_o_do_block_quic (v : bool) (x : options) : options := ltac:(with_field (o_do_block_quic x) v x).
Definition set_o_do_fragment_http (v : bool) (x : options) : options := ltac:(with_field (o_do_fragment_http x) v x).
Definition set_o_do_fragment_http_persistent (v : bool) (x : options) : options := ltac:(with_field (o_do_fragment_http_persistent x) v x).
Definition set_o_do_fragment_http_persistent_nowait (v : bool) (x : options) : options := ltac:(with_field (o_do_fragment_http_persistent_nowait x) v x).
Definition set_o_do_fragment_https (v : bool) (x : options) : options := ltac:(with_field (o_do_fragment_https x) v x).
Definition set_o_do_host (v : bool) (x : options) : options := ltac:(with_field (o_do_host x) v x).
Definition set_o_do_host_removespace (v : bool) (x : options) : options := ltac:(with_field (o_do_host_removespace x) v x).
Definition set_o_do_additional_space (v : bool) (x : options) : options := ltac:(with_field (o_do_additional_space x) v x).
Definition set_o_do_http_allports (v : bool) (x : options) : options := ltac:(with_field (o_do_http_allports x) v x).
Definition set_o_do_host_mixedcase (v : bool) (x : options) : options := ltac:(with_field (o_do_host_mixedcase x) v x).
Definition set_o_do_dnsv4_redirect (v : bool) (x : options) : options := ltac:(with_field (o_do_dnsv4_redirect x) v x).
Definition set_o_do_dnsv6_redirect (v : bool) (x : options) : options := ltac:(with_field (o_do_dnsv6_redirect x) v x).
Definition set_o_do_dns_verb (v : bool) (x : options) : options := ltac:(with_field (o_do_dns_verb x) v x).
Definition set_o_do_tcp_verb (v : bool) (x : options) : options := ltac:(with_field (o_do_tcp_verb x) v x).
Definition set_o_do_blacklist (v : bool) (x : options) : options := ltac:(with_field (o_do_blacklist x) v x).
Definition set_o_do_allow_no_sni (v : bool) (x : options) : options := ltac:(with_field (o_do_allow_no_sni x) v x).
Definition set_o_do_fragment_by_sni (v : bool) (x : options) : options := ltac:(with_field (o_do_fragment_by_sni x) v x).
Definition set_o_do_fake_packet (v : bool) (x : options) : options := ltac:(with_field (o_do_fake_packet x) v x).
Definition set_o_do_auto_ttl (v : bool) (x : options) : options := ltac:(with_field (o_do_auto_ttl x) v x).
Definition set_o_do_wrong_chksum (v : bool) (x : options) : options := ltac:(with_field (o_do_wrong_chksum x) v x).
Definition set_o_do_wrong_seq (v : bool) (x : options) : options := ltac:(with_field (o_do_wrong_seq x) v x).
Definition set_o_do_native_frag (v : bool) (x : options) : options := ltac:(with_field (o_do_native_frag x) v x).
Definition set_o_do_reverse_frag (v : bool) (x : options) : options := ltac:(with_field (o_do_reverse_frag x) v x).
Definition set_o_http_fragment_size (v : Z) (x : options) : options := ltac:(with_field (o_http_fragment_size x) v x).
Definition set_o_https_fragment_size (v : Z) (x : options) : options := ltac:(with_field (o_https_fragment_size x) v x).
Definition set_o_max_payload_size (v : Z) (x : options) : options := ltac:(with_field (o_max_payload_size x) v x).
Definition set_o_ttl_min_nhops (v : Z) (x : options) : options := ltac:(with_field (o_ttl_min_nhops x) v x).
Definition set_o_auto_ttl_1 (v : Z) (x : options) : options := ltac:(with_field (o_auto_ttl_1 x) v x).
Definition set_o_auto_ttl_2 (v : Z) (x : options) : options := ltac:(with_field (o_auto_ttl_2 x) v x).
Definition set_o_auto_ttl_max (v : Z) (x : options) : options := ltac:(with_field (o_auto_ttl_max x) v x).
Definition set_o_dnsv4_addr (v : bytes) (x : options) : options := ltac:(with_field (o_dnsv4_addr x) v x).
Definition set_o_dnsv6_addr (v : bytes) (x : options) : options := ltac:(with_field (o_dnsv6_addr x) v x).
Definition set_o_dnsv4_port (v : bytes) (x : options) : options := ltac:(with_field (o_dnsv4_port x) v x).
Definition set_o_dnsv6_port (v : bytes) (x : options) : options := ltac:(with_field (o_dnsv6_port x) v x).
Definition set_o_fake_table (v : fake_table) (x : options) : options := ltac:(with_field (o_fake_table x) v x).
Definition set_o_fakes_resend (v : Z) (x : options) : options := ltac:(with_field (o_fakes_resend x) v x).
Definition set_o_hosts (v : list bytes) (x : options) : options := ltac:(with_field (o_hosts x) v x).

(** * The state *)

(** A call of the driver or of the system. *)
Inductive call := CFlushDns | COpen (filter : bytes) (flags : Z) | CShutdown (h : Z) | CClose (h : Z).

(** The options, [ttl_of_fake_packet], [debug_exit], the two strings, the filters that are open,
    how often [rand_s] was called, and the calls. *)
Record setup := Setup {
  u_options : options; u_ttl : Z; u_debug_exit : bool; u_filter : bytes; u_passive : bytes;
  u_filters : list (option Z); u_filter_num : Z; u_rand : nat; u_log : list call }.

(** A call of [getopt_long]: what it returns, [optarg], and [argv[optind]] then. *)
Record arg := Arg { ar_opt : Z; ar_optarg : option bytes; ar_next : option bytes }.

(** * Exits *)

(** A step that may call [exit] with a code. *)
Abbreviation X A := (ST setup (Z + A)).
Definition xbind {A B} (m : X A) (k : A → X B) : X B :=
  r ← m; match r with inl code => mret (inl code) | inr a => k a end.
Definition exit {A} (code : Z) : X A := mret (inl code).
Definition run (m : ST setup unit) : X unit := m;; mret (inr tt).
Definition next : X unit := mret (inr tt).
Notation "x ←! m ; k" := (xbind m (λ x, k)) (at level 20, m at level 100, k at level 200, only parsing).
Notation "m ;;! k" := (xbind m (λ _, k)) (at level 100, k at level 200, right associativity, only parsing).

Definition ERROR_DEFAULT : Z := 1.
Definition ERROR_PORT_BOUNDS : Z := 2.
Definition ERROR_DNS_V4_ADDR : Z := 3.
Definition ERROR_DNS_V6_ADDR : Z := 4.
Definition ERROR_DNS_V4_PORT : Z := 5.
Definition ERROR_DNS_V6_PORT : Z := 6.
Definition ERROR_BLACKLIST_LOAD : Z := 7.
Definition ERROR_AUTOTTL : Z := 8.
Definition ERROR_ATOUSI : Z := 9.
Definition ERROR_AUTOB : Z := 10.
Definition EXIT_SUCCESS : Z := 0.
Definition EXIT_FAILURE : Z := 1.
(** [die], after its [sleep]. *)
Definition die {A} : X A := exit EXIT_FAILURE.

Definition upd (f : options → options) : ST setup unit :=
  modify (λ s, Setup (f (u_options s)) (u_ttl s) (u_debug_exit s) (u_filter s) (u_passive s) (u_filters s) (u_filter_num s)
                     (u_rand s) (u_log s)).
Definition set_ttl (v : Z) : ST setup unit :=
  modify (λ s, Setup (u_options s) v (u_debug_exit s) (u_filter s) (u_passive s) (u_filters s) (u_filter_num s) (u_rand s) (u_log s)).
Definition set_debug_exit : ST setup unit :=
  modify (λ s, Setup (u_options s) (u_ttl s) true (u_filter s) (u_passive s) (u_filters s) (u_filter_num s) (u_rand s) (u_log s)).
Definition set_filter_string (v : bytes) : ST setup unit :=
  modify (λ s, Setup (u_options s) (u_ttl s) (u_debug_exit s) v (u_passive s) (u_filters s) (u_filter_num s) (u_rand s) (u_log s)).
Definition set_filter_passive_string (v : bytes) : ST setup unit :=
  modify (λ s, Setup (u_options s) (u_ttl s) (u_debug_exit s) (u_filter s) v (u_filters s) (u_filter_num s) (u_rand s) (u_log s)).
Definition set_filters (l : list (option Z)) (n : Z) : ST setup unit :=
  modify (λ s, Setup (u_options s) (u_ttl s) (u_debug_exit s) (u_filter s) (u_passive s) l n (u_rand s) (u_log s)).
Definition set_rand (k : nat) : ST setup unit :=
  modify (λ s, Setup (u_options s) (u_ttl s) (u_debug_exit s) (u_filter s) (u_passive s) (u_filters s) (u_filter_num s) k (u_log s)).
(** Makes a call; the log with it. *)
Definition make (c : call) : ST setup (list call) :=
  modify (λ s, Setup (u_options s) (u_ttl s) (u_debug_exit s) (u_filter s) (u_passive s) (u_filters s) (u_filter_num s)
                     (u_rand s) (u_log s ++ [c]));;
  gets u_log.

(** * The strings of the filters *)

Definition DIVERT_NO_LOCALNETSv4_DST : bytes := bs "(" ++
  bs "(ip.DstAddr < 127.0.0.1 or ip.DstAddr > 127.255.255.255) and " ++
  bs "(ip.DstAddr < 10.0.0.0 or ip.DstAddr > 10.255.255.255) and " ++
  bs "(ip.DstAddr < 192.168.0.0 or ip.DstAddr > 192.168.255.255) and " ++
  bs "(ip.DstAddr < 172.16.0.0 or ip.DstAddr > 172.31.255.255) and " ++
  bs "(ip.DstAddr < 169.254.0.0 or ip.DstAddr > 169.254.255.255)" ++ bs ")".
Definition DIVERT_NO_LOCALNETSv4_SRC : bytes := bs "(" ++
  bs "(ip.SrcAddr < 127.0.0.1 or ip.SrcAddr > 127.255.255.255) and " ++
  bs "(ip.SrcAddr < 10.0.0.0 or ip.SrcAddr > 10.255.255.255) and " ++
  bs "(ip.SrcAddr < 192.168.0.0 or ip.SrcAddr > 192.168.255.255) and " ++
  bs "(ip.SrcAddr < 172.16.0.0 or ip.SrcAddr > 172.31.255.255) and " ++
  bs "(ip.SrcAddr < 169.254.0.0 or ip.SrcAddr > 169.254.255.255)" ++ bs ")".
Definition DIVERT_NO_LOCALNETSv6_DST : bytes := bs "(" ++
  bs "(ipv6.DstAddr > ::1) and " ++
  bs "(ipv6.DstAddr < 2001::0 or ipv6.DstAddr > 2001:1::0) and " ++
  bs "(ipv6.DstAddr < fc00::0 or ipv6.DstAddr > fe00::0) and " ++
  bs "(ipv6.DstAddr < fe80::0 or ipv6.DstAddr > fec0::0) and " ++
  bs "(ipv6.DstAddr < ff00::0 or ipv6.DstAddr > ffff::0)" ++ bs ")".
Definition DIVERT_NO_LOCALNETSv6_SRC : bytes := bs "(" ++
  bs "(ipv6.SrcAddr > ::1) and " ++
  bs "(ipv6.SrcAddr < 2001::0 or ipv6.SrcAddr > 2001:1::0) and " ++
  bs "(ipv6.SrcAddr < fc00::0 or ipv6.SrcAddr > fe00::0) and " ++
  bs "(ipv6.SrcAddr < fe80::0 or ipv6.SrcAddr > fec0::0) and " ++
  bs "(ipv6.SrcAddr < ff00::0 or ipv6.SrcAddr > ffff::0)" ++ bs ")".

Definition IPID_TEMPLATE : bytes := bs "#IPID#".
Definition MAXPAYLOADSIZE_TEMPLATE : bytes := bs "#MAXPAYLOADSIZE#".
Definition FILTER_STRING_TEMPLATE : bytes :=
  bs "(tcp and !impostor and !loopback " ++ MAXPAYLOADSIZE_TEMPLATE ++ bs " and " ++
  bs "((inbound and (" ++ bs "(" ++ bs "(" ++
  bs "(ipv6 or (ip.Id >= 0x0 and ip.Id <= 0xF) " ++ IPID_TEMPLATE ++
  bs ") and " ++ bs "tcp.SrcPort == 80 and tcp.Ack" ++ bs ") or " ++
  bs "((tcp.SrcPort == 80 or tcp.SrcPort == 443) and tcp.Ack and tcp.Syn)" ++ bs ")" ++
  bs " and (" ++ DIVERT_NO_LOCALNETSv4_SRC ++ bs " or " ++ DIVERT_NO_LOCALNETSv6_SRC ++ bs "))) or " ++
  bs "(outbound and " ++ bs "(tcp.DstPort == 80 or tcp.DstPort == 443) and tcp.Ack and " ++
  bs "(" ++ DIVERT_NO_LOCALNETSv4_DST ++ bs " or " ++ DIVERT_NO_LOCALNETSv6_DST ++ bs "))" ++ bs "))".
Definition FILTER_PASSIVE_BLOCK_QUIC : bytes :=
  bs "outbound and !impostor and !loopback and udp " ++ bs "and udp.DstPort == 443 and udp.PayloadLength >= 1200 " ++
  bs "and udp.Payload[0] >= 0xC0 and udp.Payload32[1b] == 0x01".
Definition FILTER_PASSIVE_STRING_TEMPLATE : bytes :=
  bs "inbound and ip and tcp and " ++ bs "!impostor and !loopback and " ++ bs "(true " ++ IPID_TEMPLATE ++ bs ") and " ++
  bs "(tcp.SrcPort == 443 or tcp.SrcPort == 80) and tcp.Rst and " ++ DIVERT_NO_LOCALNETSv4_SRC.

(** [sprintf] for the conversions [%d] and [%hu]. *)
Fixpoint format (fmt : bytes) (args : list Z) : bytes :=
  match fmt with
  | [] => []
  | c :: fmt =>
      if negb (c =? ch "%") then c :: format fmt args else
      match args, fmt with
      | a :: args, d :: fmt =>
          if d =? ch "d" then dec a ++ format fmt args
          else match fmt with
               | e :: fmt => if (d =? ch "h") && (e =? ch "u") then dec (u16 a) ++ format fmt args else []
               | [] => []
               end
      | _, _ => []
      end
  end.
(** A string that is written into [n] bytes. *)
Definition room (n : Z) (s : bytes) : comp bytes := if n <? blen s + 1 then Fail OutOfBounds else Ok s.

Definition IPPROTO_TCP : Z := 6.
Definition IPPROTO_UDP : Z := 17.
Definition udp_filter : bytes := bs " or (udp and !impostor and !loopback and (udp.SrcPort == %d or udp.DstPort == %d))".
Definition tcp_filter : bytes :=
  bs " or (tcp and !impostor and !loopback " ++ MAXPAYLOADSIZE_TEMPLATE ++
  bs " and (tcp.SrcPort == %d or tcp.DstPort == %d))".
Definition ipid_filter : bytes := bs " or ip.Id == %d".
Definition maxpayloadsize_filter : bytes :=
  bs "and (tcp.PayloadLength ? tcp.PayloadLength < %hu " ++
  bs "or tcp.Payload32[0] == 0x47455420 or tcp.Payload32[0] == 0x504F5354 " ++
  bs "or (tcp.Payload[0] == 0x16 and tcp.Payload[1] == 0x03 and tcp.Payload[2] <= 0x03): true)".

Section setup.
(** Fresh memory; the values of [rand_s]; [inet_pton]; the bytes of a file, if it can be opened. *)
Context (junk : Z → bytes) (rand_s : nat → option Z) (inet_pton : Z → bytes → option bytes).
Context (read_file : bytes → option bytes).
(** [WinDivertOpen]: a handle, [None] for an invalid one; whether dnsapi.dll is found. *)
Context (WinDivertOpen : list call → option Z) (dnsapi : list call → bool).

(** [repl_str], as a string. *)
Definition replaced (str from to : bytes) : comp bytes := r ← repl_str junk str from to; GdText.cstr r 0.

Definition add_filter_str (proto port : Z) : ST setup unit :=
  current_filter ← gets u_filter;
  let fmt := if proto =? IPPROTO_UDP then udp_filter else tcp_filter in
  new_filter ← lift (room (blen current_filter + blen fmt + 16) (current_filter ++ format fmt [port; port]));
  set_filter_string new_filter.

Definition add_ip_id_str (id : Z) : ST setup unit :=
  addfilter ← lift (room (blen ipid_filter + 16) (format ipid_filter [id]));
  str ← gets u_filter;
  newstr ← lift (replaced str IPID_TEMPLATE addfilter);
  set_filter_string newstr;;
  str ← gets u_passive;
  newstr ← lift (replaced str IPID_TEMPLATE addfilter);
  set_filter_passive_string newstr.

Definition add_maxpayloadsize_str (maxpayload : Z) : ST setup unit :=
  addfilter ← lift (room (blen maxpayloadsize_filter + 16) (format maxpayloadsize_filter [maxpayload]));
  str ← gets u_filter;
  newstr ← lift (replaced str MAXPAYLOADSIZE_TEMPLATE addfilter);
  set_filter_string newstr.

Definition finalize_filter_strings : ST setup unit :=
  str ← gets u_filter;
  newstr2 ← lift (replaced str IPID_TEMPLATE []);
  newstr ← lift (replaced newstr2 MAXPAYLOADSIZE_TEMPLATE []);
  set_filter_string newstr;;
  str ← gets u_passive;
  newstr ← lift (replaced str IPID_TEMPLATE []);
  set_filter_passive_string newstr.

(** * The options *)

Definition atousi (str : bytes) : option Z :=
  let res := (strtoul 10 str).1 in if 65535 <? res then None else Some res.
Definition atoub (str : bytes) : option Z :=
  let res := (strtoul 10 str).1 in if 255 <? res then None else Some res.
(** The two, on a pointer, with their exits. *)
Definition atousi_arg (str : option bytes) : X Z :=
  str ← lift (ptr str); match atousi str with Some v => mret (inr v) | None => exit ERROR_ATOUSI end.
Definition atoub_arg (str : option bytes) : X Z :=
  str ← lift (ptr str); match atoub str with Some v => mret (inr v) | None => exit ERROR_AUTOB end.

Definition SET_HTTP_FRAGMENT_SIZE_OPTION (fragment_size : Z) : ST setup unit :=
  upd (λ o, if o_http_fragment_size o =? 0 then set_o_http_fragment_size fragment_size o else o).

Definition flush_dns_cache : X unit :=
  l ← make CFlushDns; if dnsapi l then next else exit EXIT_FAILURE.

(** [strtok]: the token, and what the next call goes on with. *)
Definition strtok (s : bytes) (c : Z) : option (bytes * bytes) :=
  match drop_while (λ x, x =? c) s with
  | [] => None
  | t => Some (take_while (λ x, negb (x =? c)) t, tail (drop_while (λ x, negb (x =? c)) t))
  end.

(** An optional argument in a word of its own. *)
Definition optional_arg (a : arg) : option bytes :=
  match ar_optarg a, ar_next a with
  | None, Some w => if here w =? ch "-" then None else Some w
  | x, _ => x
  end.

(** The modes. *)
Definition passive_modes (o : options) : options :=
  set_o_do_passivedpi true (set_o_do_host true (set_o_do_host_removespace true o)).
Definition persistent_modes (o : options) : options :=
  set_o_do_fragment_http_persistent true (set_o_do_fragment_http_persistent_nowait true o).
Definition old_modes (o : options) : options :=
  persistent_modes (set_o_do_fragment_http true (set_o_do_fragment_https true (passive_modes o))).
Definition modern_modes (o : options) : options :=
  set_o_max_payload_size 1200 (set_o_do_fake_packet true (persistent_modes
    (set_o_http_fragment_size 2 (set_o_https_fragment_size 2
      (set_o_do_reverse_frag true (set_o_do_native_frag true
        (set_o_do_fragment_http true (set_o_do_fragment_https true o)))))))).
Definition mode_7 (o : options) : options := set_o_do_wrong_chksum true (modern_modes o).
Definition mode_8 (o : options) : options := mode_7 (set_o_do_wrong_seq true o).
Definition mode_9 (o : options) : options := mode_8 (set_o_do_block_quic true o).

Definition opt_port (optarg : option bytes) : X unit :=
  str ← lift (ptr optarg);
  let i := atoi str in
  if (i <=? 0) || (65535 <? i) then exit ERROR_PORT_BOUNDS
  else if negb (i =? 80) && negb (i =? 443) then run (add_filter_str IPPROTO_TCP i) else next.

(** --dns-addr, --dnsv6-addr *)
Definition opt_dns_addr (family : Z) (optarg : option bytes) (error : Z) (redirect : options → bool)
    (set : bytes → options → options) : X unit :=
  str ← lift (ptr optarg);
  o ← gets u_options;
  match inet_pton family str with
  | Some a => if redirect o then exit error else
      run (upd (set a));;! run (add_filter_str IPPROTO_UDP 53);;! flush_dns_cache
  | None => exit error
  end.
(** --dns-port, --dnsv6-port *)
Definition opt_dns_port (optarg : option bytes) (error : Z) (redirect : options → bool)
    (set : bytes → options → options) : X unit :=
  o ← gets u_options;
  if negb (redirect o) then exit error else
  v ←! atousi_arg optarg;
  (if negb (v =? 53) then run (add_filter_str IPPROTO_UDP v) else next);;!
  run (upd (set (enc16 v))).

Definition opt_blacklist (optarg : option bytes) : X unit :=
  run (upd (set_o_do_blacklist true));;!
  str ← lift (ptr optarg);
  o ← gets u_options;
  '(ok, hosts) ← lift (blackwhitelist_load_list junk (read_file str) (o_hosts o));
  run (upd (set_o_hosts hosts));;!
  if ok : bool then next else exit ERROR_BLACKLIST_LOAD.

Definition opt_auto_ttl (a : arg) : X unit :=
  run (upd (λ o, set_o_do_auto_ttl true (set_o_do_fake_packet true o)));;!
  match optional_arg a with
  | None => next
  | Some optarg =>
      match strchr optarg (ch "-") with
      | Some _ =>
          let t := strtok optarg (ch "-") in
          v ←! atoub_arg (fst <$> t);
          run (upd (set_o_auto_ttl_1 v));;!
          match (x ← t; strtok x.2 (ch "-")) with
          | None => exit ERROR_AUTOTTL
          | Some (w, rest) =>
              v ←! atoub_arg (Some w);
              run (upd (set_o_auto_ttl_2 v));;!
              match strtok rest (ch "-") with
              | None => exit ERROR_AUTOTTL
              | Some (w, _) => v ←! atoub_arg (Some w); run (upd (set_o_auto_ttl_max v))
              end
          end
      | None =>
          v ←! atoub_arg (Some optarg);
          run (upd (λ o, set_o_auto_ttl_1 v (set_o_auto_ttl_2 v o)))
      end
  end.

Definition opt_max_payload (a : arg) : X unit :=
  match optional_arg a with
  | Some optarg => v ←! atousi_arg (Some optarg); run (upd (set_o_max_payload_size v))
  | None => run (upd (set_o_max_payload_size 1200))
  end.

(** What a loader does to the table, and to the calls of [rand_s]; a failure is a warning. *)
Definition load_fake (f : nat → fake_table → comp (Z * fake_table * nat)) : X unit :=
  o ← gets u_options; k ← gets u_rand;
  '(_, t, k) ← lift (f k (o_fake_table o));
  run (upd (set_o_fake_table t));;! run (set_rand k).

(** The options without an argument. *)
Definition flag_opt (opt : Z) : option (options → options) :=
  let o c := opt =? ch c in
  if o "1"%char then Some old_modes
  else if o "2"%char then Some (λ o, set_o_https_fragment_size 40 (old_modes o))
  else if o "3"%char then Some (λ o, set_o_https_fragment_size 40 (set_o_do_fragment_https true (passive_modes o)))
  else if o "4"%char then Some passive_modes
  else if o "5"%char then Some (λ o, set_o_do_auto_ttl true (modern_modes o))
  else if o "6"%char then Some (λ o, set_o_do_wrong_seq true (modern_modes o))
  else if o "9"%char then Some mode_9
  else if o "8"%char then Some mode_8
  else if o "7"%char then Some mode_7
  else if o "p"%char then Some (set_o_do_passivedpi true)
  else if o "q"%char then Some (set_o_do_block_quic true)
  else if o "r"%char then Some (set_o_do_host true)
  else if o "s"%char then Some (set_o_do_host_removespace true)
  else if o "a"%char then Some (λ o, set_o_do_host_removespace true (set_o_do_additional_space true o))
  else if o "m"%char then Some (set_o_do_host_mixedcase true)
  else if o "n"%char then Some (λ o, set_o_do_native_frag true (persistent_modes o))
  else if o "w"%char then Some (set_o_do_http_allports true)
  else if o "v"%char then Some (λ o, set_o_do_tcp_verb true (set_o_do_dns_verb true o))
  else if o "]"%char then Some (set_o_do_allow_no_sni true)
  else if o ">"%char then Some (set_o_do_fragment_by_sni true)
  else if o "%"%char then Some (λ o, set_o_do_wrong_chksum true (set_o_do_fake_packet true o))
  else if o ")"%char then Some (λ o, set_o_do_wrong_seq true (set_o_do_fake_packet true o))
  else if o "*"%char then Some (λ o, persistent_modes (set_o_do_native_frag true o))
  else if o "("%char then Some (λ o, persistent_modes (set_o_do_native_frag true (set_o_do_reverse_frag true o)))
  else None.

(** Those with one. *)
Definition value_opt (a : arg) : X unit :=
  let o c := ar_opt a =? ch c in
  let optarg := ar_optarg a in
  if o "f"%char then
    run (upd (set_o_do_fragment_http true));;!
    v ←! atousi_arg optarg; run (SET_HTTP_FRAGMENT_SIZE_OPTION v)
  else if o "k"%char then
    run (upd (λ o, set_o_do_native_frag true (set_o_do_fragment_http_persistent true o)));;!
    v ←! atousi_arg optarg; run (SET_HTTP_FRAGMENT_SIZE_OPTION v)
  else if o "e"%char then
    run (upd (set_o_do_fragment_https true));;!
    v ←! atousi_arg optarg; run (upd (set_o_https_fragment_size v))
  else if o "z"%char then opt_port optarg
  else if o "i"%char then v ←! atousi_arg optarg; run (add_ip_id_str v)
  else if o "d"%char then opt_dns_addr AF_INET optarg ERROR_DNS_V4_ADDR o_do_dnsv4_redirect
    (λ a o, set_o_dnsv4_addr a (set_o_do_dnsv4_redirect true o))
  else if o "!"%char then opt_dns_addr AF_INET6 optarg ERROR_DNS_V6_ADDR o_do_dnsv6_redirect
    (λ a o, set_o_dnsv6_addr a (set_o_do_dnsv6_redirect true o))
  else if o "g"%char then opt_dns_port optarg ERROR_DNS_V4_PORT o_do_dnsv4_redirect set_o_dnsv4_port
  else if o "@"%char then opt_dns_port optarg ERROR_DNS_V6_PORT o_do_dnsv6_redirect set_o_dnsv6_port
  else if o "b"%char then opt_blacklist optarg
  else if o "$"%char then
    run (upd (λ o, set_o_do_fake_packet true (set_o_do_auto_ttl false
      (set_o_auto_ttl_1 0 (set_o_auto_ttl_2 0 (set_o_auto_ttl_max 0 o))))));;!
    v ←! atoub_arg optarg; run (set_ttl v)
  else if o "["%char then
    run (upd (set_o_do_fake_packet true));;!
    v ←! atoub_arg optarg; run (upd (set_o_ttl_min_nhops v))
  else if o "+"%char then opt_auto_ttl a
  else if o "|"%char then opt_max_payload a
  else if o "u"%char then
    str ← lift (ptr optarg); load_fake (λ k t, '(r, t) ← fake_load_from_hex str t; Ok (r, t, k))
  else if o "}"%char then load_fake (fake_load_from_sni rand_s junk optarg)
  else if o "j"%char then v ←! atoub_arg optarg; load_fake (fake_load_random rand_s v 200)
  else if o "t"%char then v ←! atoub_arg optarg; run (upd (set_o_fakes_resend v))
  else if o "x"%char then run set_debug_exit
  else exit ERROR_DEFAULT.

Definition option_case (a : arg) : X unit :=
  match flag_opt (ar_opt a) with Some f => run (upd f) | None => value_opt a end.

Fixpoint options_loop (l : list arg) : X unit :=
  match l with [] => next | a :: l => option_case a;;! options_loop l end.

(** * The start *)

(** [if (!x) x = v] *)
Definition unless_set (get : options → Z) (set : Z → options → options) (v : Z) (o : options) : options :=
  if get o =? 0 then set v o else o.
Definition defaults (o : options) : options :=
  let o := unless_set o_http_fragment_size set_o_http_fragment_size 2 o in
  let o := unless_set o_https_fragment_size set_o_https_fragment_size 2 o in
  let o := unless_set o_auto_ttl_1 set_o_auto_ttl_1 1 o in
  let o := unless_set o_auto_ttl_2 set_o_auto_ttl_2 4 o in
  if o_do_auto_ttl o then
    unless_set o_auto_ttl_max set_o_auto_ttl_max 10 (unless_set o_ttl_min_nhops set_o_ttl_min_nhops 3 o)
  else o.

Definition MAX_FILTERS : Z := 4.
Definition WINDIVERT_FLAG_DROP : Z := 2.

(** [None] for [NULL]. *)
Definition init (filter : bytes) (flags : Z) : ST setup (option Z) :=
  l ← make (COpen filter flags); mret (WinDivertOpen l).

(** [filters[filter_num] = init(filter, flags)] *)
Definition open_filter (filter : bytes) (flags : Z) : ST setup (option Z) :=
  h ← init filter flags;
  n ← gets u_filter_num; l ← gets u_filters;
  if (n <? 0) || (MAX_FILTERS <=? n) then sfail OutOfBounds else
  set_filters (<[Z.to_nat n := h]> l) n;; mret h.
Definition count_filter : ST setup unit := l ← gets u_filters; n ← gets u_filter_num; set_filters l (n + 1).
(** One that must open at once. *)
Definition open_drop (filter : bytes) : X unit :=
  h ← open_filter filter WINDIVERT_FLAG_DROP;
  match h with None => die | Some _ => run count_filter end.

(** The loop over the filters. *)
Fixpoint check_filters (k : nat) (i : Z) : X unit :=
  match k with
  | O => next
  | S k =>
      l ← gets u_filters; h ← lift (geti l i);
      match h with None => die | Some _ => check_filters k (i + 1) end
  end.

Definition open_filters : X unit :=
  o ← gets u_options; l ← gets u_filters;
  run (set_filters l 0);;!
  (if o_do_passivedpi o then f ← gets u_passive; open_drop f else next);;!
  (if o_do_block_quic o then open_drop FILTER_PASSIVE_BLOCK_QUIC else next);;!
  f ← gets u_filter;
  open_filter f 0;;
  run count_filter;;!
  n ← gets u_filter_num;
  check_filters (Z.to_nat n) 0.

(** What follows the options, up to the loop. *)
Definition start_filters : X unit :=
  run (upd defaults);;!
  o ← gets u_options;
  (if o_do_native_frag o && negb (o_do_fragment_http o || o_do_fragment_https o) then die else next);;!
  (if negb (o_max_payload_size o =? 0) then run (add_maxpayloadsize_str (o_max_payload_size o)) else next);;!
  run finalize_filter_strings;;!
  open_filters;;!
  d ← gets u_debug_exit;
  if d : bool then exit EXIT_SUCCESS else next.

(** The variables of [main], and the globals. *)
Definition no_options : options := {|
  o_do_passivedpi := false; o_do_block_quic := false; o_do_fragment_http := false;
  o_do_fragment_http_persistent := false; o_do_fragment_http_persistent_nowait := false; o_do_fragment_https := false;
  o_do_host := false; o_do_host_removespace := false; o_do_additional_space := false; o_do_http_allports := false;
  o_do_host_mixedcase := false; o_do_dnsv4_redirect := false; o_do_dnsv6_redirect := false; o_do_dns_verb := false;
  o_do_tcp_verb := false; o_do_blacklist := false; o_do_allow_no_sni := false; o_do_fragment_by_sni := false;
  o_do_fake_packet := false; o_do_auto_ttl := false; o_do_wrong_chksum := false; o_do_wrong_seq := false;
  o_do_native_frag := false; o_do_reverse_frag := false; o_http_fragment_size := 0; o_https_fragment_size := 0;
  o_max_payload_size := 0; o_ttl_min_nhops := 0; o_auto_ttl_1 := 0; o_auto_ttl_2 := 0; o_auto_ttl_max := 0;
  o_dnsv4_addr := repeat 0 4; o_dnsv6_addr := repeat 0 16; o_dnsv4_port := enc16 53; o_dnsv6_port := enc16 53;
  o_fake_table := no_fakes; o_fakes_resend := 1; o_hosts := [] |}.
Definition setup_init : setup := Setup no_options 0 false FILTER_STRING_TEMPLATE FILTER_PASSIVE_STRING_TEMPLATE
  (repeat None (Z.to_nat MAX_FILTERS)) 0 0 [].

(** [main], up to the loop; [argc1] is [argc == 1]. *)
Definition startup (argc1 : bool) (l : list arg) : X unit :=
  (if argc1 then run (upd mode_9) else next);;!
  options_loop l;;!
  start_filters.

(** * The end *)

Definition deinit (handle : option Z) : ST setup bool :=
  match handle with Some h => make (CShutdown h);; make (CClose h);; mret true | None => mret false end.
Fixpoint deinit_loop (k : nat) (i : Z) : ST setup unit :=
  match k with
  | O => skip
  | S k => l ← gets u_filters; h ← lift (geti l i); deinit h;; deinit_loop k (i + 1)
  end.
Definition deinit_all : ST setup unit := n ← gets u_filter_num; deinit_loop (Z.to_nat n) 0.
Definition sigint_handler : X unit := deinit_all;; exit EXIT_SUCCESS.

(** The whole of [main], on the packets that come in before the first failure to receive one:
    the code of an exit, or the state of the packet loop at its end. *)
Context (parse : bytes → option parsed) (calc : bytes → address → bytes * address) (clock : nat → Z).
Definition main (argc1 : bool) (l : list arg) (packets : list sent) : comp (Z + engine) :=
  '(r, s) ← startup argc1 l setup_init;
  match r with
  | inl code => Ok (inl code)
  | inr _ => '(_, e) ← packet_loop parse calc junk clock (u_options s) packets (start junk (u_ttl s)); Ok (inr e)
  end.
End setup.

(** * Numbers *)

Lemma strto_nonneg base s neg v e : 0 <= base → strto base s = Some (neg, v, e) → 0 <= v.
Proof.
  assert (Hd : ∀ b c x, digit b c = Some x → 0 <= x).
  { intros b c x. unfold digit. unfold isdigit. change (ch "0") with 48. change (ch "a") with 97. change (ch "z") with 122.
    change (ch "A") with 65. change (ch "Z") with 90. intros H. repeat case_match; simplify_eq; lia. }
  assert (Hn : ∀ b t acc, 0 <= b → 0 <= acc → 0 <= (number b t acc).1).
  { intros b t acc Hb. revert acc. induction t as [|c t IH]; intros acc Ha; cbn; [done|].
    destruct (digit b c) as [x|] eqn:E; [|done]. apply IH. apply Hd in E. nia. }
  intros Hb. unfold strto. destruct (sign_of _) as [ng t]. destruct (base_of base t) as [b t'] eqn:Eb.
  assert (0 <= b) by (unfold base_of in Eb; repeat case_match; simplify_eq; lia).
  destruct (is_digit b (here t')); [|done]. specialize (Hn b t' 0). destruct (number b t' 0) as [w r]. cbn in Hn.
  intros [= <- <- <-]. by apply Hn.
Qed.
Lemma strtoul_range s : 0 <= (strtoul 10 s).1.
Proof.
  unfold strtoul. destruct (strto 10 s) as [[[neg v] e]|] eqn:E; cbn; [|done].
  destruct (ulong_max <? v); [done|]. apply u32_range.
Qed.
Lemma atousi_range s v : atousi s = Some v → 0 <= v <= 65535.
Proof. unfold atousi. pose proof (strtoul_range s). destruct (Z.ltb_spec 65535 (strtoul 10 s).1); [done|]. intros [= <-]. lia. Qed.
Lemma atoub_range s v : atoub s = Some v → 0 <= v <= 255.
Proof. unfold atoub. pose proof (strtoul_range s). destruct (Z.ltb_spec 255 (strtoul 10 s).1); [done|]. intros [= <-]. lia. Qed.

Lemma dec_digits_length fuel n acc k : 0 <= n < 10 ^ Z.of_nat (S k) → blen (dec_digits fuel n acc) <= blen acc + Z.of_nat (S k).
Proof.
  revert n acc k. induction fuel as [|fuel IH]; intros n acc k Hn; cbn [dec_digits]; [lia|].
  destruct (Z.ltb_spec n 10); [rewrite blen_cons; lia|]. destruct k as [|k]; [cbn in Hn; lia|].
  rewrite Nat2Z.inj_succ, Z.pow_succ_r in Hn by lia.
  specialize (IH (n / 10) ((ch "0" + n mod 10) :: acc) k). rewrite blen_cons in IH. rewrite Nat2Z.inj_succ.
  assert (0 <= n / 10 < 10 ^ Z.of_nat (S k)) by (split; [apply Z.div_pos|apply Z.div_lt_upper_bound]; lia). lia.
Qed.
Lemma dec_length v : 0 <= v <= 65535 → blen (dec v) <= 5.
Proof.
  intros H. unfold dec. destruct (Z.ltb_spec v 0); [lia|].
  etransitivity; [apply (dec_digits_length _ _ _ 4)|]; [change (10 ^ Z.of_nat 5) with 100000; lia|]. change (blen []) with 0. lia.
Qed.

(** * Texts with slots *)

Inductive slot := IpId | MaxPayload.
#[export] Instance slot_eq_dec : EqDecision slot.
Proof. solve_decision. Defined.
Inductive seg := Text (t : bytes) | Slot (k : slot).

Definition slot_text (k : slot) : bytes := match k with IpId => IPID_TEMPLATE | MaxPayload => MAXPAYLOADSIZE_TEMPLATE end.
Definition seg_text (x : seg) : bytes := match x with Text t => t | Slot k => slot_text k end.
Definition render (l : list seg) : bytes := concat (map seg_text l).
Definition fill_seg (k : slot) (to : bytes) (x : seg) : seg :=
  match x with Slot j => if decide (j = k) then Text to else x | Text _ => x end.
Abbreviation fill k to := (map (fill_seg k to)).

Definition plain (t : bytes) : bool := forallb (λ c, negb (c =? ch "#") && negb (c =? 0)) t.
(** No slot in a text, and a text behind each slot, with which no slot goes on. *)
Definition parted (l : list seg) : bool :=
  match l with Text (c :: _) :: _ => negb (c =? ch "I") && negb (c =? ch "M") | _ => false end.
Fixpoint tame (l : list seg) : bool :=
  match l with
  | [] => true
  | Text t :: l => plain t && tame l
  | Slot _ :: l => parted l && tame l
  end.

Lemma render_cons x l : render (x :: l) = seg_text x ++ render l.
Proof. done. Qed.
Lemma render_app a b : render (a ++ b) = render a ++ render b.
Proof. unfold render. by rewrite map_app, concat_app. Qed.

Lemma plain_app a b : plain (a ++ b) = plain a && plain b.
Proof. apply forallb_app. Qed.

Section replace.
Context (from to : bytes) (Hfrom : from ≠ []).

Lemma replace_all_cons c l : is_prefix from (c :: l) = false → replace_all from to (c :: l) = c :: replace_all from to l.
Proof. intros E. unfold replace_all at 1. cbn [replace_k]. by rewrite E. Qed.
Lemma replace_all_from l : replace_all from to (from ++ l) = to ++ replace_all from to l.
Proof.
  unfold replace_all at 1. cbn [replace_k]. unfold is_prefix. rewrite take_app_length, bool_decide_eq_true_2, drop_app_length by done.
  f_equal. apply replace_k_enough; [done| |lia]. rewrite length_app. destruct from; [done|cbn; lia].
Qed.
End replace.

(** The two slots start with the same character. *)
Lemma slot_text_head k : ∃ r, slot_text k = ch "#" :: r.
Proof. destruct k; eexists; reflexivity. Qed.
Lemma slot_text_nonempty k : slot_text k ≠ [].
Proof. by destruct (slot_text_head k) as [r ->]. Qed.
#[local] Hint Resolve slot_text_nonempty : core.

Lemma replace_plain k to t l : plain t = true → replace_all (slot_text k) to (t ++ l) = t ++ replace_all (slot_text k) to l.
Proof.
  destruct (slot_text_head k) as [r Er]. induction t as [|c t IH]; [done|]. cbn [plain forallb app]. intros [Hc Ht]%andb_true_iff.
  rewrite replace_all_cons, IH; [done|done|]. rewrite Er. unfold is_prefix. apply bool_decide_eq_false. cbn [length take].
  intros [= E _]. by subst c.
Qed.

Lemma other_slot j k to c l : j ≠ k → c ≠ ch "I" → c ≠ ch "M" →
  replace_all (slot_text k) to (slot_text j ++ c :: l) = slot_text j ++ replace_all (slot_text k) to (c :: l).
Proof.
  intros Hjk HI HM. destruct j, k; [done| | |done]; unfold slot_text, IPID_TEMPLATE, MAXPAYLOADSIZE_TEMPLATE.
  all: match goal with |- replace_all ?f _ (?s ++ _) = _ => let f' := eval vm_compute in f in let s' := eval vm_compute in s in
    change f with f'; change s with s' end; cbn [app].
  all: repeat (rewrite replace_all_cons; [f_equal|unfold is_prefix; apply bool_decide_eq_false; cbn [length take]; by intros [=]]).
Qed.

Lemma fill_parted k to l : parted l = true → parted (fill k to l) = true.
Proof. by destruct l as [|[[|c t]|j] l]. Qed.

(** Filling a slot is replacing its text. *)
Lemma replace_fill k to l : tame l = true → replace_all (slot_text k) to (render l) = render (fill k to l).
Proof.
  induction l as [|[t|j] l IH]; [intros _; unfold replace_all; cbn; unfold is_prefix|..].
  - rewrite take_nil. destruct (slot_text_head k) as [r ->]. done.
  - cbn [tame]. intros [Ht Hl]%andb_true_iff. cbn [map fill_seg]. rewrite !render_cons. cbn [seg_text]. by rewrite replace_plain, IH.
  - cbn [tame]. intros [Hp Hl]%andb_true_iff. cbn [map fill_seg]. rewrite render_cons. cbn [seg_text].
    destruct (decide (j = k)) as [->|Hjk].
    + by rewrite replace_all_from, render_cons, IH by done.
    + rewrite render_cons. cbn [seg_text]. rewrite <- IH by done. destruct l as [|[[|c t]|?] l]; try done. cbn [parted] in Hp.
      apply andb_true_iff in Hp as [HI HM]. rewrite render_cons. cbn [seg_text app].
      apply other_slot; [done| |]; intros ->; by rewrite Z.eqb_refl in *.
Qed.
Lemma fill_tame k to l : plain to = true → tame l = true → tame (fill k to l) = true.
Proof.
  intros Hto. induction l as [|[t|j] l IH]; [done|..]; cbn [tame map fill_seg]; intros [H1 H2]%andb_true_iff; rewrite ?H1; [by apply IH|].
  destruct (decide (j = k)); cbn [tame]; rewrite ?Hto; [by apply IH|]. rewrite IH by done. by rewrite fill_parted.
Qed.

(** A slot that was filled stays as it is. *)
Lemma fill_fill k to to' l : fill k to' (fill k to l) = fill k to l.
Proof. rewrite map_map. apply map_ext. intros [t|j]; [done|]. cbn. destruct (decide (j = k)) eqn:E; [done|]. cbn. by rewrite E. Qed.
Lemma fill_swap j k to to' l : j ≠ k → fill j to (fill k to' l) = fill k to' (fill j to l).
Proof.
  intros Hjk. rewrite !map_map. apply map_ext. intros [t|i]; [done|]. cbn.
  by destruct i, j, k.
Qed.

(** With both filled there is no slot left. *)
Lemma filled_plain to to' l : tame l = true → plain to = true → plain to' = true →
  plain (render (fill MaxPayload to' (fill IpId to l))) = true.
Proof.
  intros Hl H H'. induction l as [|[t|j] l IH]; [done|..]; cbn [tame] in Hl; apply andb_true_iff in Hl as [H1 H2].
  - cbn [map fill_seg]. rewrite render_cons, plain_app. cbn [seg_text]. by rewrite H1, IH.
  - cbn [map]. rewrite render_cons, plain_app, (IH H2), andb_true_r. by destruct j.
Qed.

Lemma render_length l n : Forall (λ x, blen (seg_text x) <= n) l → blen (render l) <= n * Z.of_nat (length l).
Proof.
  induction 1 as [|x l Hx Hl IH]; [cbn; change (blen []) with 0; lia|]. rewrite render_cons, blen_app. cbn [length]. lia.
Qed.
Lemma fill_length_le k to l n : blen to <= n → Forall (λ x, blen (seg_text x) <= n) l →
  Forall (λ x, blen (seg_text x) <= n) (fill k to l).
Proof.
  intros Hto. induction 1 as [|x l Hx Hl IH]; constructor; [|done]. destruct x as [t|j]; [done|]. cbn [fill_seg].
  by destruct (decide (j = k)).
Qed.

(** * What is printed *)

Lemma dec_plain v : plain (dec v) = true.
Proof.
  assert (Hn : ∀ n, 0 <= n → plain (dec_nat n) = true).
  { intros n Hn. destruct (dec_nat_spec n Hn) as (l & -> & Hl & _). unfold plain. rewrite forallb_forall in *. intros c Hc.
    apply Hl in Hc. unfold isdigit in Hc. change (ch "#") with 35. lia. }
  unfold dec. destruct (Z.ltb_spec v 0); [|by apply Hn]. change (plain (dec_nat (- v)) = true). apply Hn. lia.
Qed.
(** Induction over a format: a conversion takes two or three characters. *)
Lemma format_ind (P : bytes → list Z → bytes → Prop) :
  (∀ fmt args, P fmt args []) →
  (∀ c fmt args, c ≠ ch "%" → P fmt args (format fmt args) → P (c :: fmt) args (c :: format fmt args)) →
  (∀ c d fmt a args, P fmt args (format fmt args) → P (c :: d :: fmt) (a :: args) (dec a ++ format fmt args)) →
  (∀ c d e fmt a args, P fmt args (format fmt args) → P (c :: d :: e :: fmt) (a :: args) (dec (u16 a) ++ format fmt args)) →
  ∀ fmt args, P fmt args (format fmt args).
Proof.
  intros H1 H2 H3 H4. assert (H : ∀ n fmt args, (length fmt <= n)%nat → P fmt args (format fmt args)); [|intros; by apply (H (length fmt))].
  induction n as [|n IH]; intros [|c fmt] args Hn; cbn [length] in Hn; try lia; [apply H1..|]. cbn [format].
  destruct (Z.eqb_spec c (ch "%")) as [Ec|]; cbn [negb]; [|apply H2; [done|apply IH; lia]].
  destruct args as [|a args]; [apply H1|]. destruct fmt as [|d fmt]; [apply H1|]. cbn [length] in Hn.
  destruct (d =? ch "d"); [apply H3, IH; lia|]. destruct fmt as [|e fmt]; [apply H1|]. cbn [length] in Hn.
  destruct (_ && _); [apply H4, IH; lia|apply H1].
Qed.
Lemma format_length fmt args : Forall (λ v, 0 <= v <= 65535) args → blen (format fmt args) <= blen fmt + 3 * Z.of_nat (length args).
Proof.
  apply (format_ind (λ fmt args r, Forall (λ v, 0 <= v <= 65535) args → blen r <= blen fmt + 3 * Z.of_nat (length args))); clear.
  - intros fmt args _. change (blen []) with 0. pose proof (blen_nonneg fmt). lia.
  - intros c fmt args _ IH Ha. rewrite !blen_cons. specialize (IH Ha). lia.
  - intros c d fmt a args IH H. apply list.Forall_cons in H as [Hv Ha]. rewrite blen_app, !blen_cons. cbn [length]. pose proof (dec_length a Hv). specialize (IH Ha). lia.
  - intros c d e fmt a args IH H. apply list.Forall_cons in H as [Hv Ha]. rewrite blen_app, !blen_cons. cbn [length]. rewrite u16_small by lia.
    pose proof (dec_length a Hv). specialize (IH Ha). lia.
Qed.
Lemma format_plain fmt args : plain fmt = true → plain (format fmt args) = true.
Proof.
  apply (format_ind (λ fmt args r, plain fmt = true → plain r = true)); clear.
  - done.
  - intros c fmt args _ IH. cbn [plain forallb]. intros [-> H]%andb_true_iff. by apply IH.
  - intros c d fmt a args IH H. rewrite plain_app, dec_plain. cbn [plain forallb] in H. rewrite !andb_true_iff in H. apply IH, H.
  - intros c d e fmt a args IH H. rewrite plain_app, dec_plain. cbn [plain forallb] in H. rewrite !andb_true_iff in H. apply IH, H.
Qed.
Lemma format_ok fmt args : plain fmt = true → Forall (λ v, 0 <= v <= 65535) args →
  plain (format fmt args) = true ∧ blen (format fmt args) <= blen fmt + 3 * Z.of_nat (length args).
Proof. intros Hp Ha. split; [by apply format_plain|by apply format_length]. Qed.
Lemma tame_no_zero l : tame l = true → no_zero (render l).
Proof.
  assert (Hp : ∀ t, plain t = true → no_zero t).
  { induction t as [|c t IH]; [constructor|]. cbn [plain forallb]. intros [[_ Hc]%andb_true_iff Ht]%andb_true_iff.
    constructor; [|by apply IH]. by intros ->. }
  induction l as [|[t|j] l IH]; cbn [tame]; [intros _; constructor|..]; intros [H1 H2]%andb_true_iff; rewrite render_cons;
    apply Forall_app; (split; [|by apply IH]); [by apply Hp|]. destruct j; vm_compute; repeat constructor; discriminate.
Qed.

(** * What the command line asks for *)

(** The filter for a port, from its protocol and number. *)
Definition extra_text (x : Z * Z) : bytes := format (if x.1 =? IPPROTO_UDP then udp_filter else tcp_filter) [x.2; x.2].
Definition id_text (id : option Z) : bytes := match id with Some v => format ipid_filter [v] | None => [] end.
Definition payload_text (p : Z) : bytes := if p =? 0 then [] else format maxpayloadsize_filter [p].

(** The reference: the template with the ports behind it, and then each slot filled. *)
Definition main_filter (id : option Z) (ex : list (Z * Z)) (p : Z) : bytes :=
  replace_all MAXPAYLOADSIZE_TEMPLATE (payload_text p)
    (replace_all IPID_TEMPLATE (id_text id) (FILTER_STRING_TEMPLATE ++ concat (map extra_text ex))).
Definition passive_filter (id : option Z) : bytes := replace_all IPID_TEMPLATE (id_text id) FILTER_PASSIVE_STRING_TEMPLATE.

(** The ports an option adds, the id it gives, how many decoys it loads. *)
Definition ports_of (a : arg) : list (Z * Z) :=
  let o c := ar_opt a =? ch c in
  match ar_optarg a with
  | None => []
  | Some s =>
      if o "z"%char then let i := atoi s in if negb (i =? 80) && negb (i =? 443) then [(IPPROTO_TCP, i)] else []
      else if o "d"%char || o "!"%char then [(IPPROTO_UDP, 53)]
      else if o "g"%char || o "@"%char then
        match atousi s with Some v => if negb (v =? 53) then [(IPPROTO_UDP, v)] else [] | None => [] end
      else []
  end.
Definition id_of (a : arg) : option Z := if ar_opt a =? ch "i" then s ← ar_optarg a; atousi s else None.
Definition decoys_of (a : arg) : Z :=
  let o c := ar_opt a =? ch c in
  if o "u"%char || o "}"%char then 1
  else if o "j"%char then
    match (s ← ar_optarg a; atoub s) with Some v => if (v <? 1) || (30 <? v) then 0 else v | None => 0 end
  else 0.

Definition all_ports (l : list arg) : list (Z * Z) := concat (map ports_of l).
(** The first one counts. *)
Definition first_id (l : list arg) : option Z := foldr (λ a r, match id_of a with Some v => Some v | None => r end) None l.
Definition all_decoys (l : list arg) : Z := foldr (λ a n, decoys_of a + n) 0 l.

(** What [getopt_long] promises of an option that needs an argument, and that --auto-ttl does not
    get dashes only. *)
Definition needs_value (opt : Z) : bool := bool_decide (opt ∈ bs "fkezid!g@b$[u}jt").
Record arg_ok (a : arg) : Prop := {
  ao_value : needs_value (ar_opt a) = true → is_Some (ar_optarg a);
  ao_bytes s : ar_optarg a = Some s → bytes_wf s ∧ blen s < 60000;
  ao_ttl s : ar_opt a = ch "+" → optional_arg a = Some s → strchr s (ch "-") ≠ None → strtok s (ch "-") ≠ None
}.
Record line_ok (l : list arg) : Prop := {
  lo_args : Forall arg_ok l;
  lo_length : Z.of_nat (length l) < 2 ^ 31;
  lo_decoys : all_decoys l <= 30
}.

(** * The strings, as texts with slots *)

Definition cut (k : slot) (t : bytes) : list seg :=
  match find_sub (slot_text k) t with
  | Some i => [Text (sub t 0 i); Slot k; Text (drop (Z.to_nat (i + blen (slot_text k))) t)]
  | None => [Text t]
  end.
Definition main_segs : list seg := Eval vm_compute in
  match cut MaxPayload FILTER_STRING_TEMPLATE with a :: b :: Text c :: _ => a :: b :: cut IpId c | l => l end.
Definition passive_segs : list seg := Eval vm_compute in cut IpId FILTER_PASSIVE_STRING_TEMPLATE.
Definition port_segs (x : Z * Z) : list seg :=
  if x.1 =? IPPROTO_UDP then [Text (format udp_filter [x.2; x.2])] else
  match cut MaxPayload tcp_filter with a :: b :: Text c :: _ => [a; b; Text (format c [x.2; x.2])] | l => l end.
Definition ports_segs (ex : list (Z * Z)) : list seg := concat (map port_segs ex).

Lemma main_segs_render : render main_segs = FILTER_STRING_TEMPLATE.
Proof. vm_compute. reflexivity. Qed.
Lemma passive_segs_render : render passive_segs = FILTER_PASSIVE_STRING_TEMPLATE.
Proof. vm_compute. reflexivity. Qed.
Lemma main_segs_tame : tame main_segs = true.
Proof. vm_compute. reflexivity. Qed.
Lemma passive_segs_tame : tame passive_segs = true.
Proof. vm_compute. reflexivity. Qed.

Definition port_ok (x : Z * Z) : Prop := 0 <= x.2 <= 65535.
Lemma port_segs_ok x : port_ok x → render (port_segs x) = extra_text x ∧ tame (port_segs x) = true ∧
  (length (port_segs x) <= 3)%nat ∧ Forall (λ s, blen (seg_text s) <= 2000) (port_segs x).
Proof.
  destruct x as [proto v]. intros Hv. unfold port_ok in Hv. cbn [snd] in Hv. unfold port_segs, extra_text. cbn [fst snd].
  assert (Ha : Forall (λ v, 0 <= v <= 65535) [v; v]) by (repeat constructor; lia).
  destruct (proto =? IPPROTO_UDP).
  - destruct (format_ok udp_filter [v; v] eq_refl Ha) as [H1 H2]. split_and!; [apply app_nil_r|cbn [tame]; by rewrite H1|cbn; lia|].
    constructor; [|constructor]. cbn [seg_text]. assert (blen udp_filter <= 200) by (vm_compute; discriminate). cbn [length] in H2. lia.
  - set (c := cut MaxPayload tcp_filter). vm_compute in c. subst c. cbn beta iota.
    match goal with |- context [Text (format ?m _)] => set (mid := m) end.
    destruct (format_ok mid [v; v] eq_refl Ha) as [H1 H2]. split_and!.
    + unfold render. cbn [map concat seg_text]. rewrite app_nil_r. reflexivity.
    + cbn [tame]. rewrite H1, andb_true_r. reflexivity.
    + cbn; lia.
    + repeat constructor; cbn [seg_text]; [vm_compute; discriminate|vm_compute; discriminate|].
      assert (blen mid <= 200) by (vm_compute; discriminate). cbn [length] in H2. lia.
Qed.
Lemma ports_segs_ok ex : Forall port_ok ex → render (ports_segs ex) = concat (map extra_text ex) ∧ tame (ports_segs ex) = true ∧
  (length (ports_segs ex) <= 3 * length ex)%nat ∧ Forall (λ s, blen (seg_text s) <= 2000) (ports_segs ex).
Proof.
  assert (Happ : ∀ a b, tame a = true → tame b = true → tame (a ++ b) = true).
  { induction a as [|[t|j] a IH]; [done|..]; cbn [app tame]; intros b [H1 H2]%andb_true_iff Hb; rewrite IH by done; rewrite andb_true_r; [done|].
    by destruct a as [|[[|c t]|?] a]. }
  induction 1 as [|x ex Hx Hex (IH1 & IH2 & IH3 & IH4)]; [done|]. destruct (port_segs_ok x Hx) as (H1 & H2 & H3 & H4).
  unfold ports_segs in *. cbn [map concat]. rewrite render_app, H1, IH1, length_app. split_and!; [done|by apply Happ|cbn [length]; lia|].
  by apply Forall_app.
Qed.

(** The pieces of the main filter. *)
Definition filter_segs (ex : list (Z * Z)) : list seg := main_segs ++ ports_segs ex.
Lemma filter_segs_ok ex : Forall port_ok ex → render (filter_segs ex) = FILTER_STRING_TEMPLATE ++ concat (map extra_text ex) ∧
  tame (filter_segs ex) = true ∧ (length (filter_segs ex) <= 5 + 3 * length ex)%nat ∧
  Forall (λ s, blen (seg_text s) <= 2000) (filter_segs ex).
Proof.
  intros Hex. destruct (ports_segs_ok ex Hex) as (H1 & H2 & H3 & H4). unfold filter_segs. rewrite render_app, main_segs_render, H1, length_app.
  split_and!; [done| |change (length main_segs) with 5%nat; lia|].
  - pose proof main_segs_tame as Hm. unfold main_segs in *. cbn [app tame parted] in *. by rewrite H2.
  - apply Forall_app. split; [|done]. repeat constructor; vm_compute; discriminate.
Qed.

Lemma id_text_ok id : (∀ v, id = Some v → 0 <= v <= 65535) → plain (id_text id) = true ∧ blen (id_text id) <= 200.
Proof.
  intros H. destruct id as [v|]; [|done]. cbn [id_text]. destruct (format_ok ipid_filter [v] eq_refl) as [H1 H2]; [by apply Forall_singleton, H|].
  split; [done|]. assert (blen ipid_filter <= 20) by (vm_compute; discriminate). cbn [length] in H2. lia.
Qed.
Lemma payload_text_ok p : 0 <= p <= 65535 → plain (payload_text p) = true ∧ blen (payload_text p) <= 500.
Proof.
  intros H. unfold payload_text. destruct (p =? 0); [done|]. destruct (format_ok maxpayloadsize_filter [p] eq_refl) as [H1 H2]; [by apply Forall_singleton|].
  split; [done|]. assert (blen maxpayloadsize_filter <= 300) by (vm_compute; discriminate). cbn [length] in H2. lia.
Qed.

(** A slot that is filled, if it is asked for. *)
Definition fill_id (id : option Z) (l : list seg) : list seg :=
  match id with Some _ => fill IpId (id_text id) l | None => l end.

Section texts.
Context (junk : Z → bytes) (Hj : ∀ n, 0 <= n → blen (junk n) = n).

Lemma replaced_ok k to l n : tame l = true → plain to = true → blen to <= n → Forall (λ s, blen (seg_text s) <= n) l →
  n * Z.of_nat (length l) < 2 ^ 64 → replaced junk (render l) (slot_text k) to = Ok (render (fill k to l)).
Proof.
  intros Hl Hto Hn Hs Hlen. unfold replaced. pose proof (replace_fill k to l Hl) as E.
  pose proof (render_length _ n (fill_length_le k to l n Hn Hs)) as Hr. rewrite length_map in Hr.
  rewrite repl_str_ok; [|done|apply slot_text_nonempty|rewrite E; lia]. rewrite bind_ok, E.
  pose proof (tame_no_zero _ (fill_tame k to l Hto Hl)) as Hz.
  rewrite (GdText.cstr_zero _ [] 0 Hz) by (pose proof (blen_nonneg (render (fill k to l))); lia). by rewrite Z.sub_0_r, sub_all.
Qed.
End texts.

Lemma plain_eq s t : s = t → plain t = true → plain s = true.
Proof. by intros ->. Qed.

(** The strings when all slots are filled. *)
Lemma main_filter_fill id ex p : Forall port_ok ex → (∀ v, id = Some v → 0 <= v <= 65535) →
  main_filter id ex p = render (fill MaxPayload (payload_text p) (fill IpId (id_text id) (filter_segs ex))).
Proof.
  intros Hex Hid. destruct (filter_segs_ok ex Hex) as (H1 & H2 & _). unfold main_filter. rewrite <- H1.
  rewrite (replace_fill IpId) by done. apply (replace_fill MaxPayload), fill_tame; [by apply id_text_ok|done].
Qed.
Lemma passive_filter_fill id : passive_filter id = render (fill IpId (id_text id) passive_segs).
Proof. unfold passive_filter. rewrite <- passive_segs_render. apply (replace_fill IpId), passive_segs_tame. Qed.

(** * Rules *)

(** [m] ends, with a code of the program or with [P]. *)
Definition xwp {A} (m : X A) (s : setup) (P : A → setup → Prop) : Prop :=
  swp m s (λ r s', match r with inl code => 0 <= code <= 10 | inr a => P a s' end).

Section rules.
Implicit Types s : setup.
Lemma xwp_next s (P : unit → setup → Prop) : P tt s → xwp next s P.
Proof. intros H. by apply swp_ret. Qed.
Lemma xwp_ret {A} (a : A) s P : P a s → xwp (mret (inr a)) s P.
Proof. intros H. by apply swp_ret. Qed.
Lemma xwp_exit {A} c s (P : A → setup → Prop) : 0 <= c <= 10 → xwp (exit c) s P.
Proof. intros H. by apply swp_ret. Qed.
Lemma xwp_run m s (P : unit → setup → Prop) : swp m s (λ _ s', P tt s') → xwp (run m) s P.
Proof. intros H. apply swp_bind. eapply swp_mono; [exact H|]. intros [] s' H'. by apply swp_ret. Qed.
Lemma xwp_bind {A B} (m : X A) (k : A → X B) s P : xwp m s (λ a s', xwp (k a) s' P) → xwp (xbind m k) s P.
Proof. intros H. apply swp_bind. eapply swp_mono; [exact H|]. intros [c|a] s' H'; [by apply swp_ret|done]. Qed.
Lemma xwp_st {A B} (m : ST setup A) (k : A → X B) s P : swp m s (λ a s', xwp (k a) s' P) → xwp (mbind k m) s P.
Proof. intros H. by apply swp_bind. Qed.
Lemma xwp_mono {A} (m : X A) s (P Q : A → setup → Prop) : xwp m s P → (∀ a s', P a s' → Q a s') → xwp m s Q.
Proof. intros H HQ. eapply swp_mono; [exact H|]. intros [c|a] s'; [done|apply HQ]. Qed.

Definition with_options (f : options → options) s : setup :=
  Setup (f (u_options s)) (u_ttl s) (u_debug_exit s) (u_filter s) (u_passive s) (u_filters s) (u_filter_num s) (u_rand s) (u_log s).
Lemma xwp_upd f s (P : unit → setup → Prop) : P tt (with_options f s) → xwp (run (upd f)) s P.
Proof. intros H. apply xwp_run. by apply swp_modify. Qed.
Lemma swp_make c s (P : list call → setup → Prop) :
  P (u_log s ++ [c]) (Setup (u_options s) (u_ttl s) (u_debug_exit s) (u_filter s) (u_passive s) (u_filters s) (u_filter_num s)
    (u_rand s) (u_log s ++ [c])) → swp (make c) s P.
Proof. intros H. apply swp_bind, swp_modify. by apply swp_gets. Qed.

Lemma xwp_atousi str s (P : Z → setup → Prop) : (∀ v, atousi str = Some v → 0 <= v <= 65535 → P v s) → xwp (atousi_arg (Some str)) s P.
Proof.
  intros H. apply xwp_st, swp_lift, wp_ok. destruct (atousi str) as [v|] eqn:E; [|by apply xwp_exit].
  apply xwp_ret, H; [done|by eapply atousi_range].
Qed.
Lemma xwp_atoub str s (P : Z → setup → Prop) : (∀ v, atoub str = Some v → 0 <= v <= 255 → P v s) → xwp (atoub_arg (Some str)) s P.
Proof.
  intros H. apply xwp_st, swp_lift, wp_ok. destruct (atoub str) as [v|] eqn:E; [|by apply xwp_exit].
  apply xwp_ret, H; [done|by eapply atoub_range].
Qed.
End rules.

(** The next instruction. *)
Ltac xstep :=
  match goal with
  | |- xwp (xbind _ _) _ _ => apply xwp_bind
  | |- xwp (run (upd _)) _ _ => apply xwp_upd
  | |- xwp (exit _) _ _ => apply xwp_exit; done
  | |- xwp die _ _ => apply xwp_exit; done
  | |- xwp next _ _ => apply xwp_next
  | |- xwp (mret (inr _)) _ _ => apply xwp_ret
  | |- xwp (mbind _ (gets _)) _ _ => apply xwp_st, swp_gets
  | |- xwp (mbind _ (lift (ptr (Some _)))) _ _ => apply xwp_st, swp_lift, wp_ok
  | |- xwp (atousi_arg (Some _)) _ _ => apply xwp_atousi; intros ???
  | |- xwp (atoub_arg (Some _)) _ _ => apply xwp_atoub; intros ???
  end; cbv beta.

(** * Decoys *)

Definition fine (f : fake_t) : Prop := 0 <= f_size f <= blen (f_data f).
(** The table has room for [n] more. *)
Definition table_ok (t : fake_table) (n : Z) : Prop :=
  ∃ l, loaded t l ∧ Forall fine l ∧ Z.of_nat (length l) + n <= 30.
Lemma table_mono t n m : table_ok t n → m <= n → table_ok t m.
Proof. intros (l & H1 & H2 & H3) Hm. exists l. split_and!; [done|done|lia]. Qed.
Lemma fake_add_table d size t n : table_ok t (n + 1) → 0 <= n → 0 <= size <= blen d →
  wp (fake_add d size t) (λ '(r, t), r = 0 ∧ table_ok t n).
Proof.
  intros (l & H1 & H2 & H3) Hn Hs. destruct (fake_add_ok d size t l) as (t' & -> & Ht); [done|lia|]. apply wp_ok. split; [done|].
  exists (l ++ [Fake d size]). rewrite length_app. cbn [length]. split_and!; [done| |lia]. apply Forall_app. split; [done|]. by apply Forall_singleton.
Qed.
Lemma hex_table s t n : table_ok t (n + 1) → 0 <= n → wp (fake_load_from_hex s t) (λ r, table_ok r.2 n).
Proof.
  intros Ht Hn. rewrite fake_load_from_hex_ok. destruct (_ || _ || _) eqn:E; [apply wp_ok; eapply table_mono; [exact Ht|lia]|].
  destruct (hex_decode s) as [d|]; [|apply wp_ok; eapply table_mono; [exact Ht|lia]].
  eapply wp_mono; [apply (fake_add_table _ _ _ n)|]; [done|done| |by intros [r t'] [_ H]].
  rewrite blen_app. change (blen [0]) with 1. pose proof (blen_nonneg d). lia.
Qed.
Lemma random_bytes_length rand_s n r k : length (random_bytes rand_s n r k).1.1 = n.
Proof.
  revert r k. induction n as [|n IH]; intros r k; [done|]. cbn [random_bytes]. specialize (IH (rand_to rand_s k r) (S k)).
  destruct (random_bytes _ _ _ _) as [[l r'] k']. cbn in *. by rewrite IH.
Qed.
Lemma load_random_table rand_s count r k t n : table_ok t (n + Z.of_nat count) → 0 <= n →
  wp (load_random rand_s count 200 r k t) (λ x, table_ok x.1.2 n).
Proof.
  revert r k t. induction count as [|count IH]; intros r k t Ht Hn; cbn [load_random].
  { apply wp_ok. eapply table_mono; [exact Ht|lia]. }
  destruct (rand_s k) as [len|]; [|apply wp_ok; eapply table_mono; [exact Ht|lia]]. cbn [Z.eqb]. set (m := u32 _). cbv zeta.
  pose proof (random_bytes_length rand_s (Z.to_nat m) r (S k)) as Hl. destruct (random_bytes _ _ _ _) as [[data r'] k']. cbn in Hl.
  apply wp_bind. eapply wp_mono; [apply (fake_add_table _ _ _ (n + Z.of_nat count))|].
  - eapply table_mono; [exact Ht|lia].
  - lia.
  - unfold blen. rewrite Hl. pose proof (u32_range (8 + u32 len mod 200)) as Hm. fold m in Hm. lia.
  - intros [x t'] [-> Ht']. cbn [Z.eqb negb]. by apply IH.
Qed.
Lemma sni_table rand_s junk name k t n : (∀ n, 0 <= n → blen (junk n) = n) → bytes_wf name → blen name < 60000 →
  table_ok t (n + 1) → 0 <= n → wp (fake_load_from_sni rand_s junk (Some name) k t) (λ x, table_ok x.1.2 n).
Proof.
  intros Hj Hw Hl Ht Hn. cbn [fake_load_from_sni].
  destruct (sni_packet_ok rand_s junk name k Hj Hw Hl) as (rnd & sid & tail & k' & _ & _ & _ & _ & _ & _ & _ & ->). rewrite bind_ok.
  set (p := enc_hello _). apply wp_bind. eapply wp_mono; [apply (fake_add_table _ _ _ n); [done|done|pose proof (blen_nonneg p); lia]|].
  intros [x t'] [_ Ht']. by apply wp_ok.
Qed.

Lemma blacklist_total junk file hosts : (∀ n, 0 <= n → blen (junk n) = n) → (∀ f, file = Some f → file_ok f) →
  ∃ r, blackwhitelist_load_list junk file hosts = Ok r.
Proof.
  intros Hj Hf. destruct file as [f|]; [|by eexists]. pose proof (load_list_ok junk f hosts Hj (Hf f eq_refl)) as H.
  destruct (blackwhitelist_load_list _ _ _) as [r|]; [by exists r|done].
Qed.

(** * The options *)

Lemma decoys_nonneg a : 0 <= decoys_of a.
Proof.
  unfold decoys_of. repeat case_match; lia.
Qed.
Lemma all_decoys_nonneg l : 0 <= all_decoys l.
Proof. induction l as [|a l IH]; cbn; [lia|]. pose proof (decoys_nonneg a). fold (all_decoys l). lia. Qed.

Record opts_ok (n : Z) (o : options) : Prop := {
  pk_table : table_ok (o_fake_table o) n;
  pk_http : 0 <= o_http_fragment_size o;
  pk_https : 0 <= o_https_fragment_size o;
  pk_dnsv4 : blen (o_dnsv4_addr o) = 4;
  pk_dnsv4_port : blen (o_dnsv4_port o) = 2;
  pk_dnsv6 : blen (o_dnsv6_addr o) = 16;
  pk_dnsv6_port : blen (o_dnsv6_port o) = 2;
  pk_payload : 0 <= o_max_payload_size o <= 65535
}.

(** Before the options [rest], with these ports and this id so far. *)
Record going (rest : list arg) (ex : list (Z * Z)) (id : option Z) (s : setup) : Prop := {
  gg_opts : opts_ok (all_decoys rest) (u_options s);
  gg_filters : u_filters s = repeat None 4;
  gg_log : Forall (λ c, c = CFlushDns) (u_log s);
  gg_ports : Forall port_ok ex;
  gg_length : Z.of_nat (length ex + length rest) < 2 ^ 31;
  gg_id v : id = Some v → 0 <= v <= 65535;
  gg_filter : u_filter s = render (fill_id id (filter_segs ex));
  gg_passive : u_passive s = render (fill_id id passive_segs)
}.

Definition or_id (id x : option Z) : option Z := match id with Some v => Some v | None => x end.

(** A change of the options. *)
Lemma going_upd rest ex id s f : going rest ex id s →
  (opts_ok (all_decoys rest) (u_options s) → opts_ok (all_decoys rest) (f (u_options s))) →
  going rest ex id (with_options f s).
Proof. intros [] H. split; [by apply H|done..]. Qed.
(** What else may change. *)
Lemma going_same rest ex id s s' : going rest ex id s → u_options s' = u_options s → u_filters s' = u_filters s →
  u_log s' = u_log s → u_filter s' = u_filter s → u_passive s' = u_passive s → going rest ex id s'.
Proof. intros [] E1 E2 E3 E4 E5. split; rewrite ?E1, ?E2, ?E3, ?E4, ?E5; done. Qed.
Lemma going_drop a l ex id s : going (a :: l) ex id s → going l ex id s.
Proof.
  intros []. split; try done.
  - destruct gg_opts0. split; try done. eapply table_mono; [done|]. cbn. pose proof (decoys_nonneg a). fold (all_decoys l). lia.
  - cbn in gg_length0. lia.
Qed.
(** An option that has no port and no id. *)
Lemma going_next a l ex id s : going (a :: l) ex id s → ports_of a = [] → id_of a = None →
  going l (ex ++ ports_of a) (or_id id (id_of a)) s.
Proof. intros Hg -> ->. rewrite app_nil_r. assert (or_id id None = id) as -> by (by destruct id). by eapply going_drop. Qed.

Lemma fill_id_app id a b : fill_id id (a ++ b) = fill_id id a ++ fill_id id b.
Proof. destruct id; [|done]. apply map_app. Qed.
Lemma fill_id_ports id ex : fill_id id (ports_segs ex) = ports_segs ex.
Proof.
  destruct id as [v|]; [|done]. cbn [fill_id]. unfold ports_segs. induction ex as [|[proto port] ex IH]; [done|]. cbn [map concat].
  rewrite map_app, IH. f_equal. unfold port_segs. cbn [fst snd]. by destruct (proto =? IPPROTO_UDP).
Qed.
Lemma filter_segs_app ex ex' : filter_segs (ex ++ ex') = filter_segs ex ++ ports_segs ex'.
Proof. unfold filter_segs, ports_segs. by rewrite map_app, concat_app, app_assoc. Qed.

Lemma fill_id_tame id l : (∀ v, id = Some v → 0 <= v <= 65535) → tame l = true → tame (fill_id id l) = true.
Proof. intros Hid Hl. destruct id as [v|]; [|done]. apply fill_tame; [by apply id_text_ok|done]. Qed.
Lemma fill_id_length id l n : (∀ v, id = Some v → 0 <= v <= 65535) → 200 <= n → Forall (λ s, blen (seg_text s) <= n) l →
  Forall (λ s, blen (seg_text s) <= n) (fill_id id l) ∧ length (fill_id id l) = length l.
Proof.
  intros Hid Hn Hl. destruct id as [v|]; [|done]. cbn [fill_id]. rewrite length_map. split; [|done].
  apply fill_length_le; [|done]. pose proof (id_text_ok (Some v) Hid). lia.
Qed.

(** A port. *)
Definition with_filter (v : bytes) (s : setup) : setup :=
  Setup (u_options s) (u_ttl s) (u_debug_exit s) v (u_passive s) (u_filters s) (u_filter_num s) (u_rand s) (u_log s).
Lemma add_filter_ok rest ex id s proto port : going rest ex id s → 0 <= port <= 65535 →
  swp (add_filter_str proto port) s (λ _ s', s' = with_filter (render (fill_id id (filter_segs (ex ++ [(proto, port)])))) s).
Proof.
  intros [] Hp. unfold add_filter_str. sstep. sstep. sstep. sstep. unfold room.
  set (fmt := if proto =? IPPROTO_UDP then udp_filter else tcp_filter).
  assert (Hl : blen (format fmt [port; port]) <= blen fmt + 3 * 2) by (apply (format_length fmt [port; port]); repeat (constructor; [done|]); constructor).
  rewrite blen_app. destruct (Z.ltb_spec (blen (u_filter s) + blen fmt + 16) (blen (u_filter s) + blen (format fmt [port; port]) + 1)); [lia|].
  apply wp_ok, swp_modify. unfold with_filter. f_equal.
  rewrite filter_segs_app, fill_id_app, fill_id_ports, render_app, <- gg_filter0.
  destruct (ports_segs_ok [(proto, port)]) as (-> & _); [by apply Forall_singleton|]. cbn [map concat]. by rewrite app_nil_r.
Qed.
Lemma going_port a l ex id s x : going (a :: l) ex id s → ports_of a = [x] → port_ok x → id_of a = None →
  going l (ex ++ ports_of a) (or_id id (id_of a)) (with_filter (render (fill_id id (filter_segs (ex ++ [x])))) s).
Proof.
  intros Hg -> Hx ->. assert (or_id id None = id) as -> by (by destruct id). pose proof (going_drop _ _ _ _ _ Hg) as [].
  split; try done; [by apply Forall_app; split; [done|apply Forall_singleton]|]. apply gg_length in Hg. rewrite length_app. cbn [length] in *. lia.
Qed.

Section line.
Context (junk : Z → bytes) (rand_s : nat → option Z) (inet_pton : Z → bytes → option bytes).
Context (read_file : bytes → option bytes).
Context (WinDivertOpen : list call → option Z) (dnsapi : list call → bool).
Context (Hj : ∀ n, 0 <= n → blen (junk n) = n).
Context (Hpton : ∀ f s a, f = AF_INET ∨ f = AF_INET6 → inet_pton f s = Some a → blen a = ip_size f).
Context (Hfile : ∀ s f, read_file s = Some f → file_ok f).

(** A slot of both strings. *)
Lemma add_ip_id_ok rest ex id s v : going rest ex id s → 0 <= v <= 65535 →
  swp (add_ip_id_str junk v) s (λ _ s', going rest ex (or_id id (Some v)) s').
Proof.
  intros Hg Hv. pose proof Hg as []. unfold add_ip_id_str. sstep. sstep.
  assert (Hid : ∀ w, Some v = Some w → 0 <= w <= 65535) by (by intros w [= <-]).
  destruct (id_text_ok (Some v) Hid) as [Hp _]. cbn [id_text] in Hp.
  destruct (format_ok ipid_filter [v] eq_refl) as [_ Hl]; [by apply Forall_singleton|]. cbn [length] in Hl. unfold room.
  destruct (Z.ltb_spec (blen ipid_filter + 16) (blen (format ipid_filter [v]) + 1)); [lia|]. apply wp_ok. sstep. sstep. sstep. sstep.
  destruct (filter_segs_ok ex gg_ports0) as (_ & Ht & Hlen & Hs).
  destruct (fill_id_length id (filter_segs ex) 2000 gg_id0 ltac:(lia) Hs) as [Hs' Hlen'].
  assert (Hfs : blen (format ipid_filter [v]) <= 2000) by (assert (blen ipid_filter <= 20) by (vm_compute; discriminate); lia).
  rewrite gg_filter0. change IPID_TEMPLATE with (slot_text IpId).
  rewrite (replaced_ok junk Hj IpId _ _ 2000); [|by apply fill_id_tame|done|done|done|rewrite Hlen'; lia]. apply wp_ok. sstep. apply swp_modify.
  sstep. sstep. sstep. sstep. cbn [u_passive]. rewrite gg_passive0.
  rewrite (replaced_ok junk Hj IpId _ _ 2000); [|by apply fill_id_tame, passive_segs_tame|done|done| |].
  2: { apply fill_id_length; [done|lia|]. repeat constructor; vm_compute; discriminate. }
  2: { destruct id; cbn [fill_id]; rewrite ?length_map; vm_compute; reflexivity. }
  apply wp_ok, swp_modify. split; try done.
  - intros w. destruct id as [u|]; cbn [or_id]; [apply gg_id0|apply Hid].
  - cbn [u_filter]. destruct id as [u|]; cbn [or_id fill_id id_text]; [by rewrite fill_fill|done].
  - cbn [u_passive]. destruct id as [u|]; cbn [or_id fill_id id_text]; [by rewrite fill_fill|done].
Qed.

Lemma flag_opt_ok opt f : flag_opt opt = Some f →
  (∀ n o, opts_ok n o → opts_ok n (f o)) ∧ ∀ x y, ports_of (Arg opt x y) = [] ∧ id_of (Arg opt x y) = None.
Proof.
  unfold flag_opt. intros H.
  repeat match type of H with
  | (if opt =? ?c then _ else _) = _ => destruct (Z.eqb_spec opt c) as [->|_];
      [injection H as <-; split; [intros n o []; split; cbn; try done; lia|intros [x|] y; done]|]
  end. done.
Qed.

(** Ends the proof of an option that only changed the options. *)
Ltac opts_upd := repeat (eapply going_upd; [|intros []; split; cbn; try done; lia]); try done.
Ltac opts := apply going_next; [opts_upd|try reflexivity|try reflexivity].

Section option.
Context (l : list arg) (ex : list (Z * Z)) (id : option Z).
Abbreviation after a := (λ (_ : unit) s', going l (ex ++ ports_of a) (or_id id (id_of a)) s').

Lemma opt_port_ok str nxt s (a := Arg (ch "z") (Some str) nxt) : going (a :: l) ex id s → xwp (opt_port (Some str)) s (after a).
Proof.
  intros Hg. unfold opt_port. xstep. destruct ((atoi str <=? 0) || (65535 <? atoi str)) eqn:E; [by xstep|].
  assert (Hp : ports_of a = if negb (atoi str =? 80) && negb (atoi str =? 443) then [(IPPROTO_TCP, atoi str)] else []) by done.
  destruct (negb (atoi str =? 80) && negb (atoi str =? 443)).
  - apply xwp_run. eapply swp_mono; [apply (add_filter_ok _ _ _ _ _ _ Hg); lia|]. intros [] s' ->.
    apply going_port; [done|done|unfold port_ok; cbn; lia|done].
  - xstep. by apply going_next.
Qed.

Lemma going_flush rest s : going rest ex id s →
  going rest ex id (Setup (u_options s) (u_ttl s) (u_debug_exit s) (u_filter s) (u_passive s) (u_filters s) (u_filter_num s)
    (u_rand s) (u_log s ++ [CFlushDns])).
Proof. intros []. split; try done. cbn. apply Forall_app. split; [done|]. by apply Forall_singleton. Qed.
Lemma opt_dns_addr_ok family str a error redirect set s :
  going (a :: l) ex id s → family = AF_INET ∨ family = AF_INET6 → 0 <= error <= 10 →
  ports_of a = [(IPPROTO_UDP, 53)] → id_of a = None →
  (∀ n o x, blen x = ip_size family → opts_ok n o → opts_ok n (set x o)) →
  xwp (opt_dns_addr inet_pton dnsapi family (Some str) error redirect set) s (after a).
Proof.
  intros Hg Hf He Hp Hi Hset. unfold opt_dns_addr. xstep. xstep. destruct (inet_pton family str) as [x|] eqn:E; [|by apply xwp_exit].
  destruct (redirect _); [by apply xwp_exit|]. xstep. xstep. xstep.
  assert (Hg' : going (a :: l) ex id (with_options (set x) s)) by (apply going_upd; [done|]; apply Hset; by eapply Hpton).
  apply xwp_run. eapply swp_mono; [apply (add_filter_ok _ _ _ _ _ _ Hg'); lia|]. intros [] s' ->. unfold flush_dns_cache.
  apply xwp_st, swp_make. destruct (dnsapi _); [|by xstep]. xstep. rewrite Hp.
  assert (Hpo : port_ok (IPPROTO_UDP, 53)) by (unfold port_ok; cbn; lia).
  pose proof (going_port a l ex id _ _ Hg' Hp Hpo Hi) as H. rewrite Hp in H. destruct H. split; try done. cbn in *.
  apply Forall_app. split; [done|]. by apply Forall_singleton.
Qed.
Lemma opt_dns_port_ok str a error redirect set s :
  going (a :: l) ex id s → 0 <= error <= 10 → id_of a = None →
  ports_of a = match atousi str with Some v => if negb (v =? 53) then [(IPPROTO_UDP, v)] else [] | None => [] end →
  (∀ n o x, blen x = 2 → opts_ok n o → opts_ok n (set x o)) →
  xwp (opt_dns_port (Some str) error redirect set) s (after a).
Proof.
  intros Hg He Hi Hp Hset. unfold opt_dns_port. xstep. destruct (negb _); [by apply xwp_exit|]. xstep. apply xwp_atousi. intros v Ev Hv.
  rewrite Ev in Hp. xstep. destruct (negb (v =? 53)) eqn:E.
  - apply xwp_run. eapply swp_mono; [apply (add_filter_ok _ _ _ _ _ _ Hg); lia|]. intros [] s' ->. xstep.
    apply going_upd; [apply going_port; [done|done|unfold port_ok; cbn; lia|done]|]. by apply Hset.
  - xstep. xstep. apply going_next; [|done|done]. apply going_upd; [done|]. by apply Hset.
Qed.

Lemma opt_auto_ttl_ok x nxt s (a := Arg (ch "+") x nxt) : arg_ok a → going (a :: l) ex id s → xwp (opt_auto_ttl a) s (after a).
Proof.
  intros [_ _ Hd] Hg. unfold opt_auto_ttl. xstep. xstep. assert (Hp : ports_of a = [] ∧ id_of a = None) by (by destruct x).
  destruct (optional_arg a) as [str|] eqn:Eo; [|xstep; opts; apply Hp]. specialize (Hd str eq_refl eq_refl).
  destruct (strchr str (ch "-")) eqn:Es.
  - destruct (strtok str (ch "-")) as [[w rest]|] eqn:Et; [|by destruct Hd]. cbn [fmap option_fmap option_map fst mbind option_bind snd].
    xstep. xstep. xstep. xstep. destruct (strtok rest _) as [[w2 rest2]|]; [|by xstep]. xstep. xstep. xstep. xstep.
    destruct (strtok rest2 _) as [[w3 rest3]|]; [|by xstep]. xstep. xstep. xstep. opts; apply Hp.
  - xstep. xstep. xstep. opts; apply Hp.
Qed.
Lemma load_fake_ok a f s : going (a :: l) ex id s → ports_of a = [] → id_of a = None →
  (∀ k t, table_ok t (all_decoys l + decoys_of a) → wp (f k t) (λ x, table_ok x.1.2 (all_decoys l))) →
  xwp (load_fake f) s (after a).
Proof.
  intros Hg Hp Hi Hf. unfold load_fake. xstep. xstep. apply xwp_st, swp_lift. pose proof (gg_opts _ _ _ _ Hg) as Ho.
  eapply wp_mono; [apply Hf; eapply table_mono; [apply (pk_table _ _ Ho)|]; cbn; fold (all_decoys l); lia|].
  intros [[r t] k] Ht. cbn in Ht. xstep. xstep. apply xwp_run, swp_modify. rewrite Hp, Hi, app_nil_r.
  assert (or_id id None = id) as -> by (by destruct id). pose proof (going_drop _ _ _ _ _ Hg) as []. split; try done.
  destruct gg_opts0. by split.
Qed.
End option.

(** The argument that an option must have. *)
Ltac value Hv := destruct (Hv eq_refl) as (str & -> & Hw & Hl); clear Hv.

Lemma switch_ok a l ex id s : arg_ok a → going (a :: l) ex id s →
  xwp (option_case junk rand_s inet_pton read_file dnsapi a) s (λ _ s', going l (ex ++ ports_of a) (or_id id (id_of a)) s').
Proof.
  intros Ha Hg. unfold option_case. destruct (flag_opt (ar_opt a)) as [f|] eqn:Ef.
  { destruct a as [opt x y]. destruct (flag_opt_ok opt f Ef) as [Hf Hp]. xstep. apply going_next; [|apply Hp..].
    apply going_upd; [done|]. apply Hf. }
  clear Ef. unfold value_opt. destruct a as [opt optarg nxt]. cbn [ar_opt ar_optarg].
  assert (Hv : needs_value opt = true → ∃ str, optarg = Some str ∧ bytes_wf str ∧ blen str < 60000).
  { intros H. destruct (ao_value _ Ha H) as [str E]. cbn in E. exists str. split; [done|]. by apply (ao_bytes _ Ha). }
  destruct (Z.eqb_spec opt (ch "f")) as [->|_]; [value Hv; xstep; xstep; xstep; xstep; unfold SET_HTTP_FRAGMENT_SIZE_OPTION; xstep|].
  { apply going_next; [|done|done]. apply going_upd; [opts_upd|]. intros []; destruct (_ =? 0); split; cbn; try done; lia. }
  destruct (Z.eqb_spec opt (ch "k")) as [->|_]; [value Hv; xstep; xstep; xstep; xstep; unfold SET_HTTP_FRAGMENT_SIZE_OPTION; xstep|].
  { apply going_next; [|done|done]. apply going_upd; [opts_upd|]. intros []; destruct (_ =? 0); split; cbn; try done; lia. }
  destruct (Z.eqb_spec opt (ch "e")) as [->|_]; [value Hv; xstep; xstep; xstep; xstep; xstep; opts|].
  destruct (Z.eqb_spec opt (ch "z")) as [->|_]; [value Hv; by apply opt_port_ok|].
  destruct (Z.eqb_spec opt (ch "i")) as [->|_].
  { value Hv. xstep. apply xwp_atousi. intros v Ev Hv. apply xwp_run. eapply swp_mono; [by apply (add_ip_id_ok _ _ _ _ _ Hg)|].
    intros [] s' Hs. assert (id_of (Arg (ch "i") (Some str) nxt) = Some v) as -> by done. rewrite app_nil_r. by eapply going_drop. }
  destruct (Z.eqb_spec opt (ch "d")) as [->|_].
  { value Hv. apply opt_dns_addr_ok; [done|by left|done|done|done|]. intros n o x Hx []. by split. }
  destruct (Z.eqb_spec opt (ch "!")) as [->|_].
  { value Hv. apply opt_dns_addr_ok; [done|by right|done|done|done|]. intros n o x Hx []. by split. }
  destruct (Z.eqb_spec opt (ch "g")) as [->|_].
  { value Hv. apply opt_dns_port_ok; [done|done|done|done|]. intros n o x Hx []. by split. }
  destruct (Z.eqb_spec opt (ch "@")) as [->|_].
  { value Hv. apply opt_dns_port_ok; [done|done|done|done|]. intros n o x Hx []. by split. }
  destruct (Z.eqb_spec opt (ch "b")) as [->|_].
  { value Hv. unfold opt_blacklist. xstep. xstep. xstep. xstep. destruct (blacklist_total junk (read_file str) (o_hosts (u_options (with_options (set_o_do_blacklist true) s))) Hj (Hfile str)) as [[ok hosts] E].
    apply xwp_st, swp_lift. rewrite E. apply wp_ok. xstep. xstep. destruct ok; [|by xstep]. xstep. opts. }
  destruct (Z.eqb_spec opt (ch "$")) as [->|_].
  { value Hv. xstep. xstep. match goal with |- xwp _ ?x ?P => assert (H0 : P tt x) by opts end. xstep. xstep. apply xwp_run, swp_modify.
    cbv beta in H0. by apply (going_same _ _ _ _ _ H0). }
  destruct (Z.eqb_spec opt (ch "[")) as [->|_]; [value Hv; xstep; xstep; xstep; xstep; xstep; opts|].
  destruct (Z.eqb_spec opt (ch "+")) as [->|_]; [by apply opt_auto_ttl_ok|].
  destruct (Z.eqb_spec opt (ch "|")) as [->|_].
  { unfold opt_max_payload. assert (Hp : ports_of (Arg (ch "|") optarg nxt) = []) by (by destruct optarg).
    destruct (optional_arg _) as [str|]; [xstep; xstep|]; xstep; opts; apply Hp. }
  destruct (Z.eqb_spec opt (ch "u")) as [->|_].
  { value Hv. xstep. apply load_fake_ok; [done..|]. intros k t Ht. apply wp_bind. eapply wp_mono; [apply hex_table; [exact Ht|apply all_decoys_nonneg]|].
    intros [r t'] Ht'. by apply wp_ok. }
  destruct (Z.eqb_spec opt (ch "}")) as [->|_].
  { value Hv. apply load_fake_ok; [done..|]. intros k t Ht. apply sni_table; [done|done|done|exact Ht|apply all_decoys_nonneg]. }
  destruct (Z.eqb_spec opt (ch "j")) as [->|_].
  { value Hv. xstep. apply xwp_atoub. intros v Ev Hv. apply load_fake_ok; [done..|]. intros k t Ht. unfold fake_load_random.
    assert (Hd : decoys_of (Arg (ch "j") (Some str) nxt) = if (v <? 1) || (30 <? v) then 0 else v).
    { unfold decoys_of. cbn [ar_opt ar_optarg mbind option_bind]. rewrite Ev. done. }
    rewrite Hd in Ht. destruct (_ || _) eqn:Eb; [apply wp_ok; eapply table_mono; [exact Ht|lia]|].
    apply load_random_table; [|apply all_decoys_nonneg]. eapply table_mono; [exact Ht|lia]. }
  destruct (Z.eqb_spec opt (ch "t")) as [->|_]; [value Hv; xstep; xstep; xstep; opts|].
  destruct (Z.eqb_spec opt (ch "x")) as [->|_]; [|by xstep].
  apply xwp_run, swp_modify. eapply going_same; [apply going_next; [exact Hg|by destruct optarg|done]|done..].
Qed.

Lemma or_id_assoc a b c : or_id (or_id a b) c = or_id a (or_id b c).
Proof. by destruct a. Qed.
Lemma options_loop_ok l ex id s : Forall arg_ok l → going l ex id s →
  xwp (options_loop junk rand_s inet_pton read_file dnsapi l) s (λ _ s', going [] (ex ++ all_ports l) (or_id id (first_id l)) s').
Proof.
  intros Hl. revert ex id s. induction Hl as [|a l Ha Hl IH]; intros ex id s Hg; cbn [options_loop].
  { xstep. unfold all_ports. cbn. rewrite app_nil_r. by destruct id. }
  xstep. eapply xwp_mono; [by apply switch_ok|]. cbv beta. intros [] s' Hg'. eapply xwp_mono; [by apply IH|]. cbv beta.
  intros [] s2. unfold all_ports. cbn [map concat]. rewrite <- app_assoc, or_id_assoc. by destruct (id_of a) eqn:E; cbn; rewrite E.
Qed.

(** * The start *)

Lemma unless_set_ok n get set v o : (∀ o, opts_ok n o → opts_ok n (set v o)) → opts_ok n o → opts_ok n (unless_set get set v o).
Proof. unfold unless_set. intros H Ho. destruct (get o =? 0); [by apply H|done]. Qed.
Lemma defaults_ok n o : opts_ok n o → opts_ok n (defaults o).
Proof.
  intros Ho. unfold defaults. cbv zeta. assert (Hend : ∀ b o1 o2, opts_ok n o1 → opts_ok n o2 → opts_ok n (if b : bool then o1 else o2)) by (by intros []).
  apply Hend; repeat (apply unless_set_ok; [intros ? []; split; cbn; try done; lia|]); done.
Qed.

(** Filters that are open: the calls made for them, and their handles. *)
Record opening (fl done : list call) (hs : list Z) (s : setup) : Prop := {
  og_log : u_log s = fl ++ done;
  og_filters : u_filters s = (Some <$> hs) ++ repeat None (4 - length hs);
  og_num : u_filter_num s = Z.of_nat (length hs);
  og_calls : length done = length hs;
  og_room : (length hs <= 4)%nat;
  og_answers i h : hs !! i = Some h → WinDivertOpen (fl ++ take (S i) done) = Some h
}.
(** What opening a filter leaves alone. *)
Definition kept (s s' : setup) : Prop :=
  u_options s' = u_options s ∧ u_filter s' = u_filter s ∧ u_passive s' = u_passive s ∧ u_debug_exit s' = u_debug_exit s.

Lemma open_filter_ok fl d hs s f flags : opening fl d hs s → (length hs < 4)%nat →
  swp (open_filter WinDivertOpen f flags) s (λ h s', kept s s' ∧ u_log s' = fl ++ d ++ [COpen f flags] ∧
    h = WinDivertOpen (u_log s') ∧ u_filters s' = (Some <$> hs) ++ h :: repeat None (3 - length hs) ∧ u_filter_num s' = Z.of_nat (length hs)).
Proof.
  intros [] Hh. unfold open_filter, init. sstep. apply swp_bind, swp_make. sstep. sstep. sstep. sstep. sstep. cbn [u_filter_num u_filters].
  rewrite og_num0. unfold MAX_FILTERS. destruct (Z.ltb_spec (Z.of_nat (length hs)) 0); [lia|].
  destruct (Z.leb_spec 4 (Z.of_nat (length hs))); [lia|]. cbn [orb]. sstep. apply swp_modify. sstep. cbn. split_and!; try done.
  - by rewrite og_log0, <- app_assoc.
  - rewrite og_filters0, Nat2Z.id, insert_app_r_alt by (rewrite length_fmap; lia). rewrite length_fmap, Nat.sub_diag.
    replace (4 - length hs)%nat with (S (3 - length hs)) by lia. done.
Qed.
(** It did open. *)
Lemma opened_one fl d hs s0 s f flags h : opening fl d hs s0 → (length hs < 4)%nat → u_log s = fl ++ d ++ [COpen f flags] →
  Some h = WinDivertOpen (u_log s) → u_filters s = (Some <$> hs) ++ Some h :: repeat None (3 - length hs) →
  u_filter_num s = Z.of_nat (length hs) + 1 → opening fl (d ++ [COpen f flags]) (hs ++ [h]) s.
Proof.
  intros [] Hh Hlog Ha Hf Hn. split.
  - done.
  - rewrite Hf, fmap_app, <- app_assoc, length_app. cbn. do 2 f_equal. f_equal. lia.
  - rewrite Hn, length_app. cbn. lia.
  - rewrite !length_app. cbn. lia.
  - rewrite length_app. cbn. lia.
  - intros i x Hi. destruct (decide (i < length hs)%nat) as [Hlt|Hge].
    + rewrite lookup_app_l in Hi by done. rewrite take_app_le by lia. by apply og_answers0.
    + apply lookup_app_Some in Hi as [Hi|[_ Hi]]; [by apply lookup_lt_Some in Hi|]. apply list_lookup_singleton_Some in Hi as [Hi <-].
      rewrite take_ge by (rewrite length_app; cbn; lia). by rewrite Ha, Hlog.
Qed.
Lemma open_drop_ok fl d hs s f : opening fl d hs s → (length hs < 4)%nat →
  xwp (open_drop WinDivertOpen f) s (λ _ s', kept s s' ∧ ∃ h, opening fl (d ++ [COpen f WINDIVERT_FLAG_DROP]) (hs ++ [h]) s').
Proof.
  intros Ho Hh. unfold open_drop. apply xwp_st. eapply swp_mono; [by apply (open_filter_ok _ _ _ _ f WINDIVERT_FLAG_DROP Ho)|].
  cbv beta. intros [h|] s' (Hk & Hl & Ha & Hf & Hn); [|by xstep]. apply xwp_run. unfold count_filter. sstep. sstep. sstep. sstep. apply swp_modify.
  split; [done|]. exists h. eapply opened_one; try done. cbn. lia.
Qed.
Lemma check_filters_ok k i s : 0 <= i → i + Z.of_nat k <= Z.of_nat (length (u_filters s)) →
  xwp (check_filters k i) s (λ _ s', s' = s ∧ ∀ j, i <= j < i + Z.of_nat k → ∃ h, u_filters s !! Z.to_nat j = Some (Some h)).
Proof.
  revert i. induction k as [|k IH]; intros i Hi Hk; cbn [check_filters]; [xstep; split; [done|lia]|].
  xstep. apply xwp_st, swp_lift. destruct (lookup_lt_is_Some_2 (u_filters s) (Z.to_nat i)) as [x Hx]; [lia|].
  apply (wp_geti _ _ x); [lia|done|]. destruct x as [h|]; [|by xstep]. eapply xwp_mono; [apply IH; lia|]. cbv beta.
  intros [] s' [-> H]. split; [done|]. intros j Hji. destruct (decide (j = i)) as [->|]; [by exists h|]. apply H. lia.
Qed.

(** The calls of the start, from what the command line asked for. *)
Definition opens (o : options) (id : option Z) (ex : list (Z * Z)) : list call :=
  (if o_do_passivedpi o then [COpen (passive_filter id) WINDIVERT_FLAG_DROP] else []) ++
  (if o_do_block_quic o then [COpen FILTER_PASSIVE_BLOCK_QUIC WINDIVERT_FLAG_DROP] else []) ++
  [COpen (main_filter id ex (o_max_payload_size o)) 0].

Lemma kept_trans s s' s'' : kept s s' → kept s' s'' → kept s s''.
Proof. unfold kept. intuition congruence. Qed.

Lemma open_filters_ok fl s : u_log s = fl → u_filters s = repeat None 4 →
  xwp (open_filters WinDivertOpen) s (λ _ s', u_options s' = u_options s ∧ ∃ hs, opening fl
    ((if o_do_passivedpi (u_options s) then [COpen (u_passive s) WINDIVERT_FLAG_DROP] else []) ++
     (if o_do_block_quic (u_options s) then [COpen FILTER_PASSIVE_BLOCK_QUIC WINDIVERT_FLAG_DROP] else []) ++
     [COpen (u_filter s) 0]) hs s').
Proof.
  intros Hl Hf. unfold open_filters. xstep. xstep. xstep. apply xwp_run, swp_modify. set (s0 := Setup _ _ _ _ _ _ _ _ _).
  assert (H0 : opening fl [] [] s0) by (split; [rewrite app_nil_r; exact Hl|exact Hf|done|done|cbn; lia|done]).
  set (o := u_options s).
  assert (H1 : xwp (if o_do_passivedpi o then f ← gets u_passive; open_drop WinDivertOpen f else next) s0
    (λ _ s', kept s0 s' ∧ ∃ hs, opening fl (if o_do_passivedpi o then [COpen (u_passive s) WINDIVERT_FLAG_DROP] else []) hs s' ∧ (length hs <= 1)%nat)).
  { destruct (o_do_passivedpi o); [|xstep; split; [done|]; exists []; split; [done|cbn; lia]]. xstep.
    eapply xwp_mono; [apply (open_drop_ok _ _ _ _ (u_passive s) H0); cbn; lia|].
    cbv beta. intros [] s' [Hk [h Hh]]. split; [done|]. exists [h]. split; [done|cbn; lia]. }
  xstep. eapply xwp_mono; [exact H1|]. cbv beta. intros [] s1 (Hk1 & hs1 & Ho1 & Hn1). clear H0 H1. set (d1 := if o_do_passivedpi o then _ else _) in *.
  assert (H2 : xwp (if o_do_block_quic o then open_drop WinDivertOpen FILTER_PASSIVE_BLOCK_QUIC else next) s1 (λ _ s', kept s0 s' ∧
    ∃ hs, opening fl (d1 ++ if o_do_block_quic o then [COpen FILTER_PASSIVE_BLOCK_QUIC WINDIVERT_FLAG_DROP] else []) hs s' ∧ (length hs <= 2)%nat)).
  { destruct (o_do_block_quic o); [|xstep; split; [done|]; exists hs1; rewrite app_nil_r; split; [done|lia]].
    eapply xwp_mono; [apply (open_drop_ok _ _ _ _ _ Ho1); lia|]. cbv beta. intros [] s' [Hk [h Hh]].
    split; [by eapply kept_trans|]. exists (hs1 ++ [h]). split; [done|]. rewrite length_app. cbn. lia. }
  xstep. eapply xwp_mono; [exact H2|]. cbv beta. intros [] s2 (Hk2 & hs2 & Ho2 & Hn2). clear H2. rewrite app_assoc. set (d2 := d1 ++ _) in *.
  destruct Hk2 as (E1 & E2 & E3 & _). xstep. assert (u_filter s2 = u_filter s) as -> by done.
  apply xwp_st. eapply swp_mono; [apply (open_filter_ok _ _ _ _ (u_filter s) 0 Ho2); lia|]. cbv beta. intros h s3 (Hk & Hlog & Ha & Hfs & Hn).
  xstep. apply xwp_run. unfold count_filter. sstep. sstep. sstep. sstep. apply swp_modify. xstep. cbn [u_filter_num].
  eapply xwp_mono; [apply check_filters_ok; [lia|]|].
  { cbn [u_filters]. rewrite Hfs, length_app, length_fmap, Hn. cbn [length]. rewrite repeat_length. lia. }
  cbv beta. intros [] s' [-> Hc]. cbn [u_filters] in Hc. rewrite Hn in Hc. destruct (Hc (Z.of_nat (length hs2))) as [x Hx]; [lia|].
  rewrite Hfs, Nat2Z.id, lookup_app_r, length_fmap, Nat.sub_diag in Hx by (rewrite length_fmap; lia). cbn in Hx. injection Hx as ->.
  split; [by destruct Hk as (-> & _)|]. exists (hs2 ++ [x]). eapply (opened_one _ _ _ s2); try done; cbn; lia.
Qed.

(** After the start: the calls, and the handles. *)
Record started (id : option Z) (ex : list (Z * Z)) (s : setup) : Prop := {
  st_opts : opts_ok 0 (u_options s);
  st_ports : Forall port_ok ex;
  st_id v : id = Some v → 0 <= v <= 65535;
  st_calls : ∃ fl hs, Forall (λ c, c = CFlushDns) fl ∧ opening fl (opens (u_options s) id ex) hs s
}.

Lemma start_filters_ok ex id s : going [] ex id s → xwp (start_filters junk WinDivertOpen) s (λ _ s', started id ex s').
Proof.
  intros Hg. unfold start_filters. xstep. xstep. xstep. set (s0 := with_options defaults s).
  assert (Hg0 : going [] ex id s0) by (apply going_upd; [done|]; apply defaults_ok). clearbody s0. clear Hg s. set (o := u_options s0).
  xstep. assert (Hdie : ∀ b s (P : unit → setup → Prop), P tt s → xwp (if b : bool then die else next) s P) by (intros [] **; by xstep).
  apply Hdie. pose proof Hg0 as []. destruct (filter_segs_ok ex gg_ports0) as (Hr & Ht & Hlen & Hs).
  destruct (fill_id_length id (filter_segs ex) 2000 gg_id0 ltac:(lia) Hs) as [Hs' Hlen'].
  pose proof (fill_id_tame id _ gg_id0 Ht) as Ht'. set (p := o_max_payload_size o).
  destruct (payload_text_ok p) as [Hpp Hpl]; [apply (pk_payload _ _ gg_opts0)|].
  set (segs1 := if p =? 0 then fill_id id (filter_segs ex) else fill MaxPayload (payload_text p) (fill_id id (filter_segs ex))).
  assert (H1 : tame segs1 = true ∧ (length segs1 <= 5 + 3 * length ex)%nat ∧ Forall (λ s, blen (seg_text s) <= 2000) segs1).
  { unfold segs1. destruct (p =? 0); [split_and!; [done|lia|done]|]. split_and!; [by apply fill_tame|rewrite length_map; lia|].
    apply fill_length_le; [lia|done]. }
  assert (Hpay : xwp (if negb (p =? 0) then run (add_maxpayloadsize_str junk p) else next) s0 (λ _ s', s' = with_filter (render segs1) s0)).
  { unfold segs1, payload_text in *. destruct (p =? 0) eqn:Ep; cbn [negb].
    - xstep. unfold with_filter. rewrite <- gg_filter0. by destruct s0.
    - apply xwp_run. unfold add_maxpayloadsize_str. sstep. sstep. unfold room.
      pose proof (format_length maxpayloadsize_filter [p]) as Hl. cbn [length] in Hl.
      specialize (Hl (Forall_cons_2 _ _ _ (pk_payload _ _ gg_opts0) (Forall_nil_2 _))).
      destruct (Z.ltb_spec (blen maxpayloadsize_filter + 16) (blen (format maxpayloadsize_filter [p]) + 1)); [lia|]. apply wp_ok. sstep. sstep. sstep. sstep.
      rewrite gg_filter0. rewrite (replaced_ok junk Hj MaxPayload _ _ 2000); [|done|done|lia|done|rewrite Hlen'; lia]. apply wp_ok, swp_modify. done. }
  xstep. eapply xwp_mono; [exact Hpay|]. cbv beta. intros [] s1 ->. clear Hpay. destruct H1 as (Ht1 & Hl1 & Hs1).
  xstep. apply xwp_run. unfold finalize_filter_strings. sstep. sstep. sstep. sstep. cbn [with_filter u_filter].
  rewrite (replaced_ok junk Hj IpId _ _ 2000); [|done|done|done|done|lia]. apply wp_ok. sstep. sstep.
  rewrite (replaced_ok junk Hj MaxPayload _ _ 2000);
    [|by apply fill_tame|done|done|by apply fill_length_le|rewrite length_map; lia]. apply wp_ok. sstep. apply swp_modify. sstep. sstep. sstep. sstep. cbn [u_passive with_filter].
  rewrite gg_passive0. rewrite (replaced_ok junk Hj IpId _ _ 2000); [|by apply fill_id_tame, passive_segs_tame|done|done| |].
  2: { apply fill_id_length; [done|lia|]. repeat constructor; vm_compute; discriminate. }
  2: { destruct id; cbn [fill_id]; rewrite ?length_map; vm_compute; reflexivity. }
  apply wp_ok, swp_modify. xstep. cbn [u_filter u_options u_ttl u_debug_exit u_filters u_filter_num u_rand u_log].
  assert (Efill : fill MaxPayload [] (fill IpId [] segs1) = fill MaxPayload (payload_text p) (fill IpId (id_text id) (filter_segs ex))).
  { unfold segs1, payload_text. destruct (p =? 0), id as [v|]; cbn [fill_id id_text]; rewrite ?fill_fill; try done.
    - by rewrite (fill_swap IpId MaxPayload), fill_fill, fill_fill.
    - by rewrite (fill_swap IpId MaxPayload), fill_fill. }
  assert (Epas : fill IpId [] (fill_id id passive_segs) = fill IpId (id_text id) passive_segs) by (destruct id; cbn [fill_id id_text]; by rewrite ?fill_fill).
  eapply xwp_mono; [apply (open_filters_ok (u_log s0)); [done|exact gg_filters0]|]. cbv beta. cbn [u_options u_passive u_filter].
  intros [] s2 (Eo & hs & Ho). xstep. destruct (u_debug_exit s2); [by xstep|]. xstep.
  rewrite Efill, Epas, <- passive_filter_fill, <- (main_filter_fill id ex p gg_ports0 gg_id0) in Ho.
  split; [rewrite Eo; exact gg_opts0|done|done|]. exists (u_log s0), hs. split; [done|]. rewrite Eo. exact Ho.
Qed.

Lemma startup_ok argc1 l : line_ok l →
  xwp (startup junk rand_s inet_pton read_file WinDivertOpen dnsapi argc1 l) setup_init (λ _ s, started (first_id l) (all_ports l) s).
Proof.
  intros [Ha Hn Hd]. unfold startup. xstep.
  assert (H0 : going l [] None setup_init).
  { split; [split; try done|done|constructor|constructor|cbn [length]; lia|done| |].
    - exists []. split_and!; [apply loaded_none|constructor|cbn; lia].
    - unfold filter_segs. cbn [fill_id ports_segs map concat]. by rewrite app_nil_r, main_segs_render.
    - cbn [fill_id]. by rewrite passive_segs_render. }
  assert (H1 : xwp (if argc1 then run (upd mode_9) else next) setup_init (λ _ s, going l [] None s)).
  { destruct argc1; xstep; [|done]. apply going_upd; [done|]. intros []. split; cbn; try done; lia. }
  eapply xwp_mono; [exact H1|]. cbv beta. intros [] s Hs. xstep. eapply xwp_mono; [by apply options_loop_ok|]. cbv beta.
  intros [] s' Hs'. by apply start_filters_ok.
Qed.
End line.

(** * The end *)

Definition closes (h : Z) : list call := [CShutdown h; CClose h].
Lemma deinit_loop_ok hs pre rest s : u_filters s = (Some <$> pre ++ hs) ++ rest →
  swp (deinit_loop (length hs) (Z.of_nat (length pre))) s (λ _ s', u_log s' = u_log s ++ concat (map closes hs)).
Proof.
  revert pre s. induction hs as [|h hs IH]; intros pre s Hf; cbn [length deinit_loop]; [sstep; by rewrite app_nil_r|].
  sstep. sstep. sstep. sstep. apply (wp_geti _ _ (Some h)); [lia| |].
  { rewrite Hf, Nat2Z.id, lookup_app_l by (rewrite length_fmap, length_app; cbn; lia).
    by rewrite list_lookup_fmap, lookup_app_r, Nat.sub_diag. }
  cbn [deinit]. sstep. sstep. apply swp_make. sstep. apply swp_make. sstep.
  replace (Z.of_nat (length pre) + 1) with (Z.of_nat (length (pre ++ [h]))) by (rewrite length_app; cbn; lia).
  eapply swp_mono; [apply IH; cbn [u_filters]; by rewrite <- app_assoc|]. cbv beta. intros _ s' ->. cbn. by rewrite <- !app_assoc.
Qed.
Lemma deinit_all_ok WinDivertOpen fl d hs s : opening WinDivertOpen fl d hs s →
  swp deinit_all s (λ _ s', u_log s' = u_log s ++ concat (map closes hs)).
Proof.
  intros []. unfold deinit_all. sstep. sstep. rewrite og_num0, Nat2Z.id. by apply (deinit_loop_ok hs [] (repeat None (4 - length hs))).
Qed.

(** * Properties *)

(** What the start relies on: fresh memory of the size asked for, addresses
    of their size, files of bytes that are smaller than the address space. *)
Record system (junk : Z → bytes) (inet_pton : Z → bytes → option bytes) (read_file : bytes → option bytes) : Prop := {
  sy_junk n : 0 <= n → blen (junk n) = n;
  sy_pton f s a : f = AF_INET ∨ f = AF_INET6 → inet_pton f s = Some a → blen a = ip_size f;
  sy_file s f : read_file s = Some f → file_ok f
}.

(** C8: GoodbyeDPI from its command line to its end, for command lines that load at most thirty
    decoys, with no --auto-ttl of dashes only (the two go wrong otherwise,
    [GdFake.fake_add_overruns] and [auto_ttl_null]) and with arguments of less than 60000 bytes
    ([line_ok]), and for packets shorter than the buffer.  Whatever the options else, the files, the random numbers and the
    answers of the driver, and whatever is in the packets, [main] ends without a step out of bounds,
    either by [exit], with one of its codes, or in the packet loop, whose buffer and tracking
    tables are in order. *)
Theorem main_never_faults parse calc clock junk rand_s inet_pton read_file WinDivertOpen dnsapi argc1 l packets :
  WinDivert parse calc → system junk inet_pton read_file → line_ok l → Forall (λ x : sent, blen x.1 < MAX_PACKET_SIZE) packets →
  wp (main junk rand_s inet_pton read_file WinDivertOpen dnsapi parse calc clock argc1 l packets) (λ r, match r with
    | inl code => 0 <= code <= 10
    | inr e => engine_ok e
    end).
Proof.
  intros Hlib [Hj Hpton Hfile] Hl Hp. unfold main. apply wp_bind.
  pose proof (startup_ok junk rand_s inet_pton read_file WinDivertOpen dnsapi Hj Hpton Hfile argc1 l Hl) as H.
  eapply wp_mono; [exact H|]. cbv beta. intros [[code|[]] s]; [intros Hc; by apply wp_ok|]. intros [[(fs & Hf1 & Hf2 & _) Hh1 Hh2 H4 H4p H6 H6p _] _ _ _].
  apply wp_bind. eapply wp_mono.
  - apply (swp_packet_loop parse calc junk Hj clock (u_options s)); [|split|exact Hp].
    + by split; [exists fs|done..].
    + apply Hj. unfold MAX_PACKET_SIZE. lia.
    + split; [apply NoDup_nil_2|constructor].
    + apply NoDup_nil_2.
  - cbv beta. intros [_ e] He. by apply wp_ok.
Qed.

(** -9 --ip-id 54321 --port 8080 --dns-addr 9.9.9.9 --dns-port 9953 --auto-ttl=1-4-10
    --fake-from-hex 160301 --blacklist hosts.txt -p *)
Definition sample_args : list arg :=
  [Arg (ch "9") None None; Arg (ch "i") (Some (bs "54321")) None; Arg (ch "z") (Some (bs "8080")) None;
   Arg (ch "d") (Some (bs "9.9.9.9")) None; Arg (ch "g") (Some (bs "9953")) None; Arg (ch "+") (Some (bs "1-4-10")) None;
   Arg (ch "u") (Some (bs "160301")) None;
   Arg (ch "b") (Some (bs "hosts.txt")) None; Arg (ch "p") None None].
(** An argument that is known. *)
Ltac known_arg :=
  split;
  [first [by vm_compute|intros _; eexists; reflexivity]
  |intros s E; first [discriminate E|injection E as <-; split; [unfold bytes_wf, is_byte; repeat constructor; discriminate|by vm_compute]]
  |intros s E1 E2; first [discriminate E1|injection E2 as <-; intros _; vm_compute; discriminate]].
Lemma sample_args_ok : line_ok sample_args.
Proof.
  split; [|done|by vm_compute]. unfold sample_args. repeat (apply Forall_cons_2; [known_arg|]). apply Forall_nil_2.
Qed.
(** One file, with a host. *)
Definition plain_files (name : bytes) : option bytes := if bool_decide (name = bs "hosts.txt") then Some (bs "c.org" ++ [10]) else None.
Lemma plain_system : system zeros plain_pton plain_files.
Proof.
  split; [apply zeros_len|intros f s a Hf E; by apply (pton_size (ntop := plain_ntop)) in E as [_ E]|].
  intros s f. unfold plain_files. case_bool_decide; [intros [= <-]|done].
  split; [unfold bytes_wf, is_byte; repeat constructor; discriminate|by vm_compute].
Qed.

Lemma main_never_faults_witness :
  wp (main zeros (λ _, None) plain_pton plain_files (λ _, Some 1) (λ _, true) plain_parse plain_calc (λ k, Z.of_nat k) false sample_args
      [(sample_http, sample_addr); ([1; 2], sample_addr)]) (λ r, match r with inl code => 0 <= code <= 10 | inr e => engine_ok e end).
Proof.
  apply (main_never_faults _ _ _ _ _ _ _ _ _ _ _ _ plain_library plain_system sample_args_ok).
  repeat (apply Forall_cons_2; [vm_compute; reflexivity|]). apply Forall_nil_2.
Defined.

(** C9: When the start succeeds, the driver was asked for exactly the filters of the options: that
    against passive DPI and that against QUIC if they are on, to drop what they match, and then the
    main one, whose string is the template with all the ports of the command line behind it and each
    slot filled, the one for the payload with the size that was asked for and the one for the id
    with the first that was given; no slot is left.  Every filter is one that the driver opened, and
    an interrupt shuts down and closes each of them once, in the order they were opened, and exits
    with 0. *)
Theorem filters_opened junk rand_s inet_pton read_file WinDivertOpen dnsapi argc1 l :
  system junk inet_pton read_file → line_ok l →
  swp (startup junk rand_s inet_pton read_file WinDivertOpen dnsapi argc1 l) setup_init (λ r s, match r with
    | inl code => 0 <= code <= 10
    | inr _ => let calls := opens (u_options s) (first_id l) (all_ports l) in ∃ before hs,
        Forall (λ c, c = CFlushDns) before ∧ u_log s = before ++ calls ∧
        Forall (λ c, match c with COpen f _ => ch "#" ∉ f | _ => False end) calls ∧
        length hs = length calls ∧ (∀ i h, hs !! i = Some h → WinDivertOpen (before ++ take (S i) calls) = Some h) ∧
        swp sigint_handler s (λ r' s', r' = inl (A := Z) (B := unit) 0 ∧ u_log s' = u_log s ++ concat (map closes hs))
    end).
Proof.
  intros [Hj Hpton Hfile] Hl. pose proof (startup_ok junk rand_s inet_pton read_file WinDivertOpen dnsapi Hj Hpton Hfile argc1 l Hl) as H.
  eapply swp_mono; [exact H|]. cbv beta. intros [code|[]] s; [done|]. intros [Ho Hports Hid (fl & hs & Hf & Hs)]. exists fl, hs. pose proof Hs as [].
  split_and!; [done|done| |by rewrite og_calls0|done|].
  - assert (Hp : ∀ f, plain f = true → ch "#" ∉ f).
    { intros f Hp Hin. unfold plain in Hp. rewrite forallb_forall in Hp. apply list_elem_of_In, Hp in Hin. done. }
    assert (Hmain : plain (main_filter (first_id l) (all_ports l) (o_max_payload_size (u_options s))) = true).
    { eapply plain_eq; [by apply main_filter_fill|]. apply filled_plain; [by apply filter_segs_ok|by apply id_text_ok|apply payload_text_ok, (pk_payload _ _ Ho)]. }
    assert (Hpas : plain (passive_filter (first_id l)) = true).
    { eapply plain_eq; [apply passive_filter_fill|]. pose proof (filled_plain (id_text (first_id l)) [] passive_segs passive_segs_tame) as Hx.
      exact (Hx (proj1 (id_text_ok _ Hid)) eq_refl). }
    assert (Hquic : plain FILTER_PASSIVE_BLOCK_QUIC = true) by (vm_compute; reflexivity).
    unfold opens. apply Forall_app. split; [|apply Forall_app; split].
    + destruct (o_do_passivedpi _); [apply Forall_singleton, Hp, Hpas|apply Forall_nil_2].
    + destruct (o_do_block_quic _); [apply Forall_singleton, Hp, Hquic|apply Forall_nil_2].
    + apply Forall_singleton, Hp, Hmain.
  - unfold sigint_handler. apply swp_bind. eapply swp_mono; [by eapply deinit_all_ok|]. cbv beta. intros _ s' Hs'. by apply swp_ret.
Qed.

Lemma filters_opened_witness :
  swp (startup zeros (λ _, None) plain_pton plain_files (λ l, Some (Z.of_nat (length l))) (λ _, true) false sample_args) setup_init
    (λ r s, match r with
    | inl code => 0 <= code <= 10
    | inr _ => let calls := opens (u_options s) (first_id sample_args) (all_ports sample_args) in ∃ before hs,
        Forall (λ c, c = CFlushDns) before ∧ u_log s = before ++ calls ∧
        Forall (λ c, match c with COpen f _ => ch "#" ∉ f | _ => False end) calls ∧
        length hs = length calls ∧ (∀ i h, hs !! i = Some h → Some (Z.of_nat (length (before ++ take (S i) calls))) = Some h) ∧
        swp sigint_handler s (λ r' s', r' = inl (A := Z) (B := unit) 0 ∧ u_log s' = u_log s ++ concat (map closes hs))
    end).
Proof. apply (filters_opened _ _ _ _ (λ l, Some (Z.of_nat (length l))) _ _ _ plain_system sample_args_ok). Defined.

(** The start succeeds on this command line, with the DNS cache flushed and three filters. *)
Example sample_args_start :
  match startup zeros (λ _, None) plain_pton plain_files (λ l, Some (Z.of_nat (length l))) (λ _, true) false sample_args setup_init with
  | Ok (inr _, s) => map (λ h, is_Some h) (u_filters s) = map (λ h, is_Some h) [Some 2; Some 3; Some 4; None] ∧ u_filters s = [Some 2; Some 3; Some 4; None] ∧
      fakes_count (o_fake_table (u_options s)) = 1 ∧ o_auto_ttl_max (u_options s) = 10 ∧ o_dnsv4_port (u_options s) = enc16 9953
  | _ => False
  end.
Proof. vm_compute. done. Qed.

(** The modes, as the text of the usage spells them. *)
Definition flag (c : ascii) : arg := Arg (ch c) None None.
Definition value (c : ascii) (v : string) : arg := Arg (ch c) (Some (bs v)) None.
Definition modes : list (ascii * list arg) :=
  [("3"%char, [flag "p"; flag "r"; flag "s"; value "e" "40"]);
   ("4"%char, [flag "p"; flag "r"; flag "s"]);
   ("5"%char, [value "f" "2"; value "e" "2"; flag "+"; flag "("; flag "|"]);
   ("6"%char, [value "f" "2"; value "e" "2"; flag ")"; flag "("; flag "|"]);
   ("7"%char, [value "f" "2"; value "e" "2"; flag "%"; flag "("; flag "|"]);
   ("8"%char, [value "f" "2"; value "e" "2"; flag ")"; flag "%"; flag "("; flag "|"]);
   ("9"%char, [value "f" "2"; value "e" "2"; flag ")"; flag "%"; flag "("; flag "|"; flag "q"])].

(** C38: Each of the modes -3 to -9 does exactly what the options do that the usage gives for it, in
    whatever state it comes, unless -f or -k gave another size for HTTP fragments before. *)
Theorem modes_as_spelled junk rand_s inet_pton read_file dnsapi c spelled s :
  (c, spelled) ∈ modes → o_http_fragment_size (u_options s) = 0 ∨ o_http_fragment_size (u_options s) = 2 →
  options_loop junk rand_s inet_pton read_file dnsapi [flag c] s = options_loop junk rand_s inet_pton read_file dnsapi spelled s.
Proof.
  intros Hin Hs. destruct s as [[] ttl dbg f p fs fn k lg]. cbn in Hs. unfold modes in Hin.
  repeat (apply elem_of_cons in Hin as [[= -> ->]|Hin]; [destruct Hs as [-> | ->]; reflexivity|]). by apply elem_of_nil in Hin.
Qed.
Lemma modes_as_spelled_witness :
  options_loop zeros (λ _, None) plain_pton (λ _, None) (λ _, true) [flag "9"] setup_init =
  options_loop zeros (λ _, None) plain_pton (λ _, None) (λ _, true)
    [value "f" "2"; value "e" "2"; flag ")"; flag "%"; flag "("; flag "|"; flag "q"] setup_init.
Proof. apply (modes_as_spelled _ _ _ _ _ "9"%char); [unfold modes; rewrite !elem_of_cons; do 6 right; by left|by left]. Defined.

(** A start without arguments is mode -9. *)
Lemma no_arguments_mode_9 junk rand_s inet_pton read_file dnsapi s :
  options_loop junk rand_s inet_pton read_file dnsapi [flag "9"] s = run (upd mode_9) s ∧ defaults (mode_9 no_options) = default_options.
Proof. split; reflexivity. Qed.

(** -1 and -2 are not what the usage says: -k and -n turn on --native-frag, and the modes do not. *)
Lemma mode_1_differs :
  let get r := match r with Ok (_, s) => Some (o_do_native_frag (u_options s)) | Fail _ => None end in
  let loop l := options_loop zeros (λ _, None) plain_pton (λ _, None) (λ _, true) l setup_init in
  get (loop [flag "1"]) = Some false ∧
  get (loop [flag "p"; flag "r"; flag "s"; value "f" "2"; value "k" "2"; flag "n"; value "e" "2"]) = Some true.
Proof. vm_compute. done. Qed.

(** --auto-ttl=- gives the null pointer of [strtok] to [atoub]. *)
Lemma auto_ttl_null junk rand_s inet_pton read_file dnsapi s :
  options_loop junk rand_s inet_pton read_file dnsapi [value "+" "-"] s = Fail OutOfBounds.
Proof. reflexivity. Qed.

(** A second --ip-id changes nothing: the slot is gone. *)
Lemma second_id_ignored :
  let get r := match r with Ok (_, s) => Some (u_filter s, u_passive s) | Fail _ => None end in
  let loop l := options_loop zeros (λ _, None) plain_pton (λ _, None) (λ _, true) l setup_init in
  get (loop [value "i" "54321"; value "i" "12345"]) = get (loop [value "i" "54321"]).
Proof. vm_compute. done. Qed.
