(* ===== verification/Main.v ===== *)
(** byedpi main.c: from the environment to the exit: the options of a plugin, [init],
    [dump_all_cache], [clear_params] and [main] around [parse_args] and [run].

    Memory is the list of the blocks that were freed: to free one twice, or to read a group
    that was freed, is a step out of bounds. *)
From Stdlib Require Import ZArith Lia Ascii String.
From stdpp Require Import base numbers list option sorting.
From S2P Require Import Prelude CMem Text PacketsHttp Mpool HostPool Params Inet DList Conev Socks Extend World Groups Proxy.
From S2P Require Import CacheFile OptText Options.

#[local] Open Scope Z_scope.
#[local] Open Scope list_scope.

(** * The options of a plugin *)

(** The loop over the line: where it is, [argc], the line, whose spaces become the ends of the
    words, and the array of the pointers into it. *)
Record split_st := SplitSt { sp_c : Z; sp_argc : Z; sp_line : bytes; sp_argv : list (option Z) }.

Definition split_body (x : split_st) : comp (split_st + split_st) :=
  let '(SplitSt c argc line argv) := x in
  v ← rd line c;
  if (v =? 0) || negb (argc <? 64) then Ok (inr x) else
  if v =? ch " " then line ← wr line c 0; Ok (inl (SplitSt (c + 1) argc line argv)) else
  first ← (if c =? 0 then Ok true else p ← rd line (c - 1); Ok (p =? 0));
  if first : bool then
    if (argc <? 0) || (Z.of_nat (length argv) <=? argc) then Fail OutOfBounds
    else Ok (inl (SplitSt (c + 1) (argc + 1) line (<[Z.to_nat argc := Some c]> argv)))
  else Ok (inl (SplitSt (c + 1) argc line argv)).

(** The string a pointer into the line is to. *)
Definition arg_at (line : bytes) (p : option Z) : comp bytes :=
  match p with Some p => Ok (cstr (drop (Z.to_nat p) line)) | None => Fail OutOfBounds end.
(** [argv[0]] to [argv[argc - 1]] *)
Fixpoint args_at (line : bytes) (l : list (option Z)) : comp (list bytes) :=
  match l with [] => Ok [] | p :: l => a ← arg_at line p; r ← args_at line l; Ok (a :: r) end.

Definition env_args (env_options : bytes) : comp (list bytes) :=
  x ← loop split_body (S (length env_options)) (SplitSt 0 1 (env_options ++ [0]) (Some 0 :: repeat None 63));
  args_at (sp_line x) (take (Z.to_nat (sp_argc x)) (sp_argv x)).

(** * Memory *)

(** What [clear_params] frees: the line and its array, the cache, the data of lists of hosts,
    and what a group has.  A pool is freed with its elements. *)
Inductive block :=
  | BLine | BArgv | BCache (l : list elem) | BNeedFree (i : nat)
  | BParts (g : nat) | BTlsrec (g : nat) | BFakeData (g : nat) | BFakeSni (g : nat)
  | BHosts (g : nat) (l : list elem) | BIpset (g : nat) (l : list elem) | BGroup (g : nat).
#[export] Instance block_eq_dec : EqDecision block.
Proof. solve_decision. Defined.

(** [free], of a pointer that is not null. *)
Definition free (b : block) : ST (list block) unit :=
  freed ← gets id; if decide (b ∈ freed) then sfail OutOfBounds else modify (λ l, l ++ [b]).
Definition free_if (present : bool) (b : block) : ST (list block) unit := if present then free b else skip.
Definition free_pool (hdr : option mphdr) (b : list elem → block) : ST (list block) unit :=
  match hdr with Some hdr => l ← lift (mem_destroy hdr); free (b l) | None => skip end.

(** The loop over the groups. *)
Definition clear_body (dps : list desync_params) (dp : option nat) : ST (list block) (option nat + unit) :=
  match dp with
  | None => mret (inr tt)
  | Some i =>
      freed ← gets id;
      if decide (BGroup i ∈ freed) then sfail OutOfBounds else
      d ← lift (geti dps (Z.of_nat i));
      free_if (negb (bool_decide (dp_parts d = []))) (BParts i);;
      free_if (negb (bool_decide (dp_tlsrec d = []))) (BTlsrec i);;
      free_if (bool_decide (is_Some (dp_fake_data d))) (BFakeData i);;
      free_if (negb (bool_decide (dp_fake_sni_list d = []))) (BFakeSni i);;
      free_pool (dp_hosts d) (BHosts i);;
      free_pool (dp_ipset d) (BIpset i);;
      free (BGroup i);;
      mret (inl (dp_next d))
  end.
Fixpoint free_all (k : nat) (i : nat) : ST (list block) unit :=
  match k with O => skip | S k => free (BNeedFree i);; free_all k (S i) end.

(** [line]: whether there is a line of a plugin. *)
Definition clear_params (line : bool) (mempool : mphdr) (need_free : list bytes) (dps : list desync_params)
    (dp : option nat) : ST (list block) unit :=
  (if line then free BLine;; free BArgv else skip);;
  free_pool (Some mempool) BCache;;
  free_all (length need_free) 0;;
  sloop (clear_body dps) (S (S (length dps))) dp.

(** * The start and the end *)

Section main.
(** What [parse_args] and [run] rely on. *)
Context {G : Type} (getopt_start : list bytes → G) (getopt_long : G → Z * bytes * G) (optind : G → Z) (set_optind : Z → G → G).
Context (getaddrinfo : bytes → option (Z * bytes)) (inet_pton : Z → bytes → option bytes) (inet_ntop : Z → bytes → bytes).
Context {F : Type} (strtof : bytes → F * bytes) (f_int f_ms : F → Z).
Context (fopen : bytes → option file) (cache_text : bytes → option bytes).
Context (junk : Z → bytes) (unset : nat → Z * Z * Z) (socket : Z → Z).
Context (os : list call → answer) (rand : nat → Z) (fuel : nat).
(** Whether a file can be written. *)
Context (fopen_w : bytes → bool).

Definition get_default_ttl : ST world Z :=
  fd ← sysret os (KSocket AF_INET SOCK_STREAM);
  if fd <? 0 then mret (-1) else
  a ← on_pool (kcall os (KGetTtl fd));
  let orig_ttl := if a_ret a <? 0 then -1 else s32 (le32 (a_data a)) in
  sysret os (KClose fd);;
  mret orig_ttl.

(** [init], after [params]; the seed is that of [rand]. *)
Definition init (prm : params) : ST world (Z * params) :=
  if pr_def_ttl prm =? 0 then
    ttl ← get_default_ttl;
    let prm := set_pr_def_ttl ttl prm in
    mret (if ttl <? 1 then -1 else 0, prm)
  else mret (0, prm).

(** The files that are written, in order, from the groups on. *)
Definition dump_all_body (cache_file : nat → option bytes) (x : option nat * list (bytes * bytes)) :
    ST world (option nat * list (bytes * bytes) + list (bytes * bytes)) :=
  let '(dp, out) := x in
  match dp with
  | None => mret (inr out)
  | Some i =>
      d ← Extend.group i;
      match cache_file i with
      | None => mret (inl (dp_next d, out))
      | Some name =>
          if negb (bool_decide (name = bs "-")) && negb (fopen_w name) then mret (inr out) else
          hdr ← gets w_mempool;
          text ← lift (dump_cache inet_ntop hdr i);
          mret (inl (dp_next d, out ++ [(name, text)]))
      end
  end.
Definition dump_all_cache (cache_file : nat → option bytes) : ST world (list (bytes * bytes)) :=
  dp ← gets w_dp; l ← gets w_dps;
  sloop (dump_all_body cache_file) (S (S (length l))) (dp, []).

(** The options before [parse_args]. *)
Definition env_start (g : G) (local_port : option bytes) : popt G :=
  let s := popt_init g in
  match local_port with
  | Some p => set_o_params (set_pr_mode (Z.lor (pr_mode (o_params s)) MODE_SHADOWSOCKS) (o_params s))
                (set_o_laddr (set_port (o_laddr s) (enc16 (atoi p))) s)
  | None => s
  end.

(** What [run] starts from; [items] and [pevents] are what fresh memory holds. *)
Definition world_of (s : popt G) : world :=
  World (init_pool 0 [] []) (map g_dp (o_groups s)) (Some 0%nat) (o_mempool s) 0 0 [] [].

(** The end of the program: its code, the calls that were made, what was freed and the files that
    were written. *)
Record ended := Ended { e_status : Z; e_calls : list call; e_freed : list block; e_files : list (bytes * bytes) }.

(** After the loop: [dump_all_cache] and [clear_params]. *)
Definition finish (line : bool) (s : popt G) (w : world) : comp ended :=
  '(files, w) ← dump_all_cache (λ i, g ← o_groups s !! i; g_cache_file g) w;
  '(_, freed) ← clear_params line (w_mempool w) (o_need_free s) (w_dps w) (w_dp w) [];
  Ok (Ended 0 (world_log w) freed files).
(** [clear_params] after a failure. *)
Definition leave (code : Z) (line : bool) (s : popt G) (w : world) : comp ended :=
  '(_, freed) ← clear_params line (w_mempool w) (o_need_free s) (w_dps w) (w_dp w) [];
  Ok (Ended code (world_log w) freed []).

Definition main (wsa : Z) (winsvc : bool) (local_port env_options : option bytes) (argv : list bytes)
    (items : list eval) (pevents : list pollfd) (opt_fuel : nat) : comp ended :=
  if negb (wsa =? 0) then Ok (Ended (-1) [] [] []) else
  if winsvc then Ok (Ended 0 [] [] []) else
  args ← match env_options with Some e => env_args e | None => Ok argv end;
  let line := bool_decide (is_Some env_options) in
  '(status, s) ← parse_args getopt_long optind set_optind getaddrinfo inet_pton strtof f_int f_ms fopen cache_text junk unset
    socket opt_fuel (env_start (getopt_start args) local_port);
  if negb (status =? 0) then leave (status - 1) line s (world_of s) else
  '(r, prm, w) ← init (o_params s) (world_of s);
  if r <? 0 then leave (-1) line s w else
  '(r, w) ← run prm os junk rand fuel items pevents (o_laddr s) w;
  if r <? 0 then leave (-1) line s w else
  finish line s w.
End main.

(** * The words of a line *)

Definition word (w : bytes) : Prop := w ≠ [] ∧ Forall (λ c, c ≠ 0 ∧ c ≠ ch " ") w.
(** Words, each behind so many spaces, and spaces at the end. *)
Fixpoint spaced (l : list (nat * bytes)) (t : nat) : bytes :=
  match l with [] => repeat (ch " ") t | (n, w) :: l => repeat (ch " ") n ++ w ++ spaced l t end.

(** Where the words begin in [s], which is at [i]; [b]: whether a word can begin there. *)
Fixpoint starts (i : Z) (b : bool) (s : bytes) : list Z :=
  match s with
  | [] => []
  | c :: s => if c =? ch " " then starts (i + 1) true s
              else if b then i :: starts (i + 1) false s else starts (i + 1) false s
  end.
Fixpoint words (b : bool) (s : bytes) : list bytes :=
  match s with
  | [] => []
  | c :: s' => if c =? ch " " then words true s'
               else if b then take_while (λ x, negb (x =? ch " ")) s :: words false s' else words false s'
  end.
Definition zeroed (s : bytes) : bytes := map (λ c, if c =? ch " " then 0 else c) s.

Lemma cstr_zeroed s : Forall (λ c, c ≠ 0) s → cstr (zeroed s ++ [0]) = take_while (λ x, negb (x =? ch " ")) s.
Proof.
  induction 1 as [|c s Hc Hs IH]; [done|]. cbn [zeroed map app cstr take_while]. fold (zeroed s).
  destruct (Z.eqb_spec c (ch " ")); [done|]. destruct (Z.eqb_spec c 0); [done|]. cbn [negb]. by rewrite IH.
Qed.

Lemma words_starts pre s b : Forall (λ c, c ≠ 0) (pre ++ s) →
  args_at (zeroed (pre ++ s) ++ [0]) (Some <$> starts (blen pre) b s) = Ok (words b s).
Proof.
  revert pre b. induction s as [|c s IH]; intros pre b Hz; [done|]. cbn [starts words].
  assert (Hn : ∀ b, args_at (zeroed (pre ++ c :: s) ++ [0]) (Some <$> starts (blen pre + 1) b s) = Ok (words b s)).
  { intros b'. specialize (IH (pre ++ [c]) b'). rewrite <- app_assoc in IH. rewrite <- IH by done. do 3 f_equal. unfold blen. rewrite length_app. cbn. lia. }
  destruct (c =? ch " ") eqn:Ec; [apply Hn|]. destruct b; [|apply Hn]. rewrite fmap_cons. cbn [args_at arg_at]. rewrite bind_ok, Hn, bind_ok.
  do 2 f_equal. unfold zeroed. rewrite map_app, <- app_assoc. fold (zeroed pre) (zeroed (c :: s)).
  rewrite drop_app_length' by (unfold zeroed, blen; rewrite length_map; lia). rewrite cstr_zeroed by by apply Forall_app in Hz as [_ ?].
  cbn [take_while]. by rewrite Ec.
Qed.

Lemma rd_at a c b : rd (a ++ c :: b) (blen a) = Ok c.
Proof.
  rewrite rd_eq by (rewrite blen_app, blen_cons; pose proof (blen_nonneg a); pose proof (blen_nonneg b); lia).
  rewrite bat_app by apply blen_nonneg. destruct (Z.ltb_spec (blen a) (blen a)); [lia|]. by rewrite Z.sub_diag.
Qed.
Lemma wr_at a c b v : is_byte v → wr (a ++ c :: b) (blen a) v = Ok (a ++ v :: b).
Proof.
  intros Hv. unfold wr, store. rewrite u8_small by done. rewrite in_range_true;
    [|apply blen_nonneg|done|change (blen [v]) with 1; rewrite blen_app, blen_cons; pose proof (blen_nonneg b); lia].
  by rewrite (put_at a [c] b [v]).
Qed.

(** The loop, with [acc] the words that were found. *)
Definition split_state (pre s : bytes) (acc : list Z) : split_st :=
  SplitSt (blen pre) (1 + Z.of_nat (length acc)) (zeroed pre ++ s ++ [0]) (Some 0 :: (Some <$> acc) ++ repeat None (63 - length acc)).
Definition at_word (pre : bytes) : bool := match list.last pre with Some c => c =? ch " " | None => true end.

Lemma zeroed_snoc pre c : zeroed (pre ++ [c]) = zeroed pre ++ [if c =? ch " " then 0 else c].
Proof. apply map_app. Qed.
Lemma blen_zeroed pre : blen (zeroed pre) = blen pre.
Proof. unfold blen, zeroed. by rewrite length_map. Qed.

(** The character before. *)
Lemma first_at pre c s : Forall (λ c, c ≠ 0) pre →
  (if blen pre =? 0 then Ok true else p ← rd (zeroed pre ++ c :: s) (blen pre - 1); Ok (p =? 0)) = Ok (at_word pre).
Proof.
  intros Hz. unfold at_word. destruct pre as [|d pre _] using rev_ind; [done|]. rewrite last_snoc, blen_app.
  pose proof (blen_nonneg pre). change (blen [d]) with 1. destruct (Z.eqb_spec (blen pre + 1) 0); [lia|].
  replace (blen pre + 1 - 1) with (blen (zeroed pre)) by (rewrite blen_zeroed; lia).
  rewrite zeroed_snoc, <- app_assoc. cbn [app]. rewrite rd_at, bind_ok. f_equal.
  destruct (Z.eqb_spec d (ch " ")) as [->|]; [done|]. apply Forall_app in Hz as [_ Hz]. rewrite Forall_singleton in Hz. by apply Z.eqb_neq.
Qed.

Lemma split_step pre c s acc : Forall (λ c, c ≠ 0) (pre ++ [c]) → (length acc < 63)%nat →
  split_body (split_state pre (c :: s) acc) = Ok (inl (split_state (pre ++ [c]) s
    (if (c =? ch " ") || negb (at_word pre) then acc else acc ++ [blen pre]))).
Proof.
  intros Hz Hl. apply Forall_app in Hz as [Hz Hc]. rewrite Forall_singleton in Hc. unfold split_body, split_state at 1.
  cbn [app]. pose proof (rd_at (zeroed pre) c (s ++ [0])) as Hr. rewrite blen_zeroed in Hr. rewrite Hr, bind_ok.
  destruct (Z.eqb_spec c 0); [done|]. destruct (Z.ltb_spec (1 + Z.of_nat (length acc)) 64); [|lia]. cbn [orb negb].
  unfold split_state. rewrite zeroed_snoc, <- app_assoc, blen_app. change (blen [c]) with 1. destruct (c =? ch " ") eqn:E; cbn [orb].
  - pose proof (wr_at (zeroed pre) c (s ++ [0]) 0 ltac:(by split)) as Hw. rewrite blen_zeroed in Hw. rewrite Hw, bind_ok. done.
  - rewrite first_at, bind_ok by done. destruct (at_word pre); cbn [negb]; [|done].
    destruct (Z.ltb_spec (1 + Z.of_nat (length acc)) 0); [lia|]. cbn [orb length].
    rewrite length_app, length_fmap, repeat_length. destruct (Z.leb_spec (Z.of_nat (S (length acc + (63 - length acc)))) (1 + Z.of_nat (length acc))); [lia|].
    do 2 f_equal. f_equal; [rewrite length_app; cbn; lia|]. replace (Z.to_nat (1 + Z.of_nat (length acc))) with (S (length acc)) by lia.
    cbn [list_insert]. change (insert (S ?n) ?x (?y :: ?l)) with (y :: <[n:=x]> l). f_equal.
    rewrite insert_app_r_alt by (rewrite length_fmap; lia). rewrite length_fmap, Nat.sub_diag, length_app. cbn [length].
    replace (63 - length acc)%nat with (S (63 - (length acc + 1))) by lia. cbn. by rewrite fmap_app, <- app_assoc.
Qed.

Lemma at_word_snoc pre c : at_word (pre ++ [c]) = (c =? ch " ").
Proof. unfold at_word. by rewrite last_snoc. Qed.
Lemma split_loop pre s acc fuel : Forall (λ c, c ≠ 0) (pre ++ s) → (length s < fuel)%nat →
  (length (acc ++ starts (blen pre) (at_word pre) s) < 63)%nat →
  loop split_body fuel (split_state pre s acc) = Ok (split_state (pre ++ s) [] (acc ++ starts (blen pre) (at_word pre) s)).
Proof.
  revert pre acc fuel. induction s as [|c s IH]; intros pre acc fuel Hz Hf Hl; (destruct fuel as [|fuel]; [cbn in Hf; lia|]); cbn [loop].
  - cbn [starts]. rewrite !app_nil_r in *. unfold split_body, split_state at 1. cbn [app].
    pose proof (rd_at (zeroed pre) 0 []) as Hr. rewrite blen_zeroed in Hr. by rewrite Hr, bind_ok.
  - assert (Hz' : Forall (λ c, c ≠ 0) ((pre ++ [c]) ++ s)) by by rewrite <- app_assoc.
    rewrite length_app in Hl. rewrite split_step, bind_ok by (try (by apply Forall_app in Hz' as [? _]); lia).
    specialize (IH (pre ++ [c])). rewrite at_word_snoc, <- app_assoc, blen_app in IH. change (blen [c]) with 1 in IH. cbn [app] in IH.
    cbn [starts] in *. cbn [length] in Hf. destruct (c =? ch " "); cbn [orb].
    + apply IH; [done|lia|rewrite length_app; lia].
    + destruct (at_word pre); cbn [negb].
      * rewrite IH; [by rewrite <- app_assoc|done|lia|]. rewrite !length_app. cbn [length] in *. lia.
      * apply IH; [done|lia|rewrite length_app; lia].
Qed.

Lemma words_spaces n b s : words true (repeat (ch " ") n ++ s) = words true s ∧ (0 < n → words b (repeat (ch " ") n ++ s) = words true s)%nat.
Proof. split; [induction n; [done|exact IHn]|]. destruct n as [|n]; [lia|]. intros _. cbn. induction n; [done|exact IHn]. Qed.
(** What is behind a word. *)
Definition gap (s : bytes) : Prop := s = [] ∨ ∃ s', s = ch " " :: s'.
Lemma words_in w s : Forall (λ c, c ≠ 0 ∧ c ≠ ch " ") w → gap s → words false (w ++ s) = words true s.
Proof.
  intros Hw Hs. induction Hw as [|c w [_ Hc] Hw IH]; cbn [app words]; [by destruct Hs as [->|[s' ->]]|].
  by rewrite (proj2 (Z.eqb_neq _ _) Hc).
Qed.
Lemma take_word w s : Forall (λ c, c ≠ 0 ∧ c ≠ ch " ") w → gap s → take_while (λ x, negb (x =? ch " ")) (w ++ s) = w.
Proof.
  intros Hw Hs. induction Hw as [|c w [_ Hc] Hw IH]; cbn [app take_while]; [by destruct Hs as [->|[s' ->]]|].
  by rewrite (proj2 (Z.eqb_neq _ _) Hc), IH.
Qed.
Lemma words_word w s : word w → gap s → words true (w ++ s) = w :: words true s.
Proof.
  intros [Hw0 Hw] Hs. destruct w as [|c w]; [done|]. cbn [app words]. pose proof Hw as [[_ Hc] Hw']%list.Forall_cons.
  rewrite (proj2 (Z.eqb_neq _ _) Hc), words_in by done. f_equal. by apply (take_word (c :: w)).
Qed.

(** Words that are apart. *)
Definition apart (l : list (nat * bytes)) : Prop := Forall (λ x, (0 < x.1)%nat) (tail l).
Lemma spaced_gap l t : Forall (λ x, (0 < x.1)%nat) l → gap (spaced l t).
Proof.
  intros H. destruct H as [|[n w] l Hn Hl]; cbn [spaced].
  - destruct t; [by left|right; by eexists].
  - cbn in Hn. destruct n as [|n]; [lia|]. right. by eexists.
Qed.
Lemma words_spaced l t : Forall (λ x, word x.2) l → apart l → words true (spaced l t) = map snd l.
Proof.
  unfold apart. induction l as [|[n w] l IH]; intros Hw Ha; cbn [spaced map tail snd] in *.
  - pose proof (proj1 (words_spaces t true [])) as H. by rewrite app_nil_r in H.
  - apply list.Forall_cons in Hw as [Hw Hl]. rewrite (proj1 (words_spaces n true _)), words_word; [|done|by apply spaced_gap].
    rewrite IH; [done..|]. by destruct Ha.
Qed.
Lemma spaced_chars l t : Forall (λ x, word x.2) l → Forall (λ c, c ≠ 0) (spaced l t).
Proof.
  assert (Hr : ∀ n, Forall (λ c, c ≠ 0) (repeat (ch " ") n)) by (intros n; induction n; by constructor).
  induction 1 as [|[n w] l [_ Hw] Hl IH]; cbn [spaced]; [apply Hr|]. apply Forall_app. split; [apply Hr|]. apply Forall_app.
  split; [|done]. eapply Forall_impl; [exact Hw|]. cbn. by intros c [? _].
Qed.

Lemma starts_length i b s : length (starts i b s) = length (words b s).
Proof.
  revert i b. induction s as [|c s IH]; intros i b; cbn [starts words]; [done|]. destruct (c =? ch " "); [apply IH|].
  destruct b; cbn [length]; by rewrite IH.
Qed.
Lemma env_args_words s : Forall (λ c, c ≠ 0) s → (length (words true s) < 63)%nat →
  env_args s = Ok (take_while (λ x, negb (x =? ch " ")) s :: words true s).
Proof.
  intros Hs Hl. unfold env_args. pose proof (split_loop [] s [] (S (length s))) as H. cbn [app] in H.
  change (split_state [] s []) with (SplitSt 0 1 (s ++ [0]) (Some 0 :: repeat None 63)) in H. rewrite H; [|done|lia|by rewrite starts_length].
  rewrite bind_ok. unfold split_state. cbn [sp_line sp_argc sp_argv]. set (l := starts (blen []) (at_word []) s).
  assert (Ht : take (Z.to_nat (1 + Z.of_nat (length l))) (Some 0 :: (Some <$> l) ++ repeat None (63 - length l)) = Some 0 :: (Some <$> l)).
  { replace (Z.to_nat _) with (S (length l)) by lia. cbn [take]. f_equal. rewrite take_app_length' by by rewrite length_fmap. done. }
  rewrite Ht. cbn [app args_at arg_at]. rewrite drop_0, cstr_zeroed, bind_ok by done.
  pose proof (words_starts [] s true Hs) as Hw. cbn [app] in Hw. fold (zeroed s) in Hw. unfold l.
  change (at_word []) with true. rewrite Hw, bind_ok. done.
Qed.

(** * Memory *)

Definition some_if (present : bool) (b : block) : list block := if present then [b] else [].
Definition pool_blocks (hdr : option mphdr) (b : list elem → block) : list block :=
  match hdr with Some hdr => [b (pool_elems hdr)] | None => [] end.
(** The blocks of a group, and all of them, with the groups [l]. *)
Definition group_blocks (dps : list desync_params) (i : nat) : list block :=
  match dps !! i with
  | Some d => some_if (negb (bool_decide (dp_parts d = []))) (BParts i) ++
      some_if (negb (bool_decide (dp_tlsrec d = []))) (BTlsrec i) ++
      some_if (bool_decide (is_Some (dp_fake_data d))) (BFakeData i) ++
      some_if (negb (bool_decide (dp_fake_sni_list d = []))) (BFakeSni i) ++
      pool_blocks (dp_hosts d) (BHosts i) ++ pool_blocks (dp_ipset d) (BIpset i) ++ [BGroup i]
  | None => []
  end.
Definition owned (line : bool) (mempool : mphdr) (need_free : list bytes) (dps : list desync_params) (l : list nat) : list block :=
  (if line then [BLine; BArgv] else []) ++ [BCache (pool_elems mempool)] ++
  map BNeedFree (seq 0 (length need_free)) ++ (l ≫= group_blocks dps).

(** Each is there once. *)
Definition group_of (b : block) : option nat :=
  match b with
  | BParts g | BTlsrec g | BFakeData g | BFakeSni g | BGroup g => Some g
  | BHosts g _ | BIpset g _ => Some g
  | _ => None
  end.
Lemma elem_some_if c b x : x ∈ some_if c b → x = b.
Proof. destruct c; cbn; [by intros ?%list_elem_of_singleton|by intros ?%elem_of_nil]. Qed.
Lemma elem_pool_blocks h b x : x ∈ pool_blocks h b → ∃ l, x = b l.
Proof. destruct h; cbn; [intros ->%list_elem_of_singleton; by eexists|by intros ?%elem_of_nil]. Qed.
Ltac block_cases H :=
  repeat (apply elem_of_app in H as [H|H]);
  first [apply elem_some_if in H|apply elem_pool_blocks in H as [? H]|apply list_elem_of_singleton in H|idtac].
Lemma group_blocks_of dps i b : b ∈ group_blocks dps i → group_of b = Some i.
Proof.
  unfold group_blocks. destruct (dps !! i) as [d|]; [|by intros ?%elem_of_nil]. intros H. block_cases H; by subst.
Qed.
Lemma group_blocks_NoDup dps i : NoDup (group_blocks dps i).
Proof.
  unfold group_blocks. destruct (dps !! i) as [d|]; [|constructor].
  assert (Hi : ∀ c b, NoDup (some_if c b)) by (intros [] b; cbn; [apply NoDup_singleton|constructor]).
  assert (Hp : ∀ h b, NoDup (pool_blocks h b)) by (intros [] b; cbn; [apply NoDup_singleton|constructor]).
  repeat (apply NoDup_app; split_and!; [by auto|intros x Hx Hy; block_cases Hx; block_cases Hy; congruence|]). apply NoDup_singleton.
Qed.
Lemma owned_NoDup line mempool need_free dps l : NoDup l → NoDup (owned line mempool need_free dps l).
Proof.
  intros Hl. unfold owned.
  assert (Hg : ∀ x, x ∈ (l ≫= group_blocks dps) → is_Some (group_of x)).
  { intros x (i & Hx%group_blocks_of & _)%list_elem_of_bind. by rewrite Hx. }
  assert (Hn : ∀ x, x ∈ map BNeedFree (seq 0 (length need_free)) → ∃ k, x = BNeedFree k).
  { intros x (k & -> & _)%list_elem_of_fmap. by eexists. }
  apply NoDup_app. split_and!; [destruct line; [|constructor]; apply NoDup_cons; split; [by intros ?%list_elem_of_singleton|apply NoDup_singleton]| |].
  { intros x Hx Hy. assert (x = BLine ∨ x = BArgv) as Hx'.
    { destruct line; [|by apply elem_of_nil in Hx]. rewrite elem_of_cons, list_elem_of_singleton in Hx. tauto. }
    apply elem_of_app in Hy as [Hy|Hy]; [apply list_elem_of_singleton in Hy; destruct Hx'; congruence|].
    apply elem_of_app in Hy as [[k Hy]%Hn|[k Hy]%Hg]; destruct Hx'; by subst. }
  apply NoDup_app. split_and!; [apply NoDup_singleton| |].
  { intros x ->%list_elem_of_singleton [[k Hy]%Hn|[k Hy]%Hg]%elem_of_app; done. }
  apply NoDup_app. split_and!.
  - apply (NoDup_fmap_2_strong BNeedFree); [by intros ? ? _ _ [= ->]|apply NoDup_seq].
  - intros x [k ->]%Hn [? Hy]%Hg. done.
  - apply NoDup_bind; [|by intros; apply group_blocks_NoDup|done]. intros x y b _ _ Hx%group_blocks_of Hy%group_blocks_of. congruence.
Qed.

(** [m] frees [bs], when they are to be freed once. *)
Definition frees {A} (m : ST (list block) A) (bs : list block) (a : A) : Prop :=
  ∀ freed rest, NoDup (freed ++ bs ++ rest) → swp m freed (λ r f, r = a ∧ f = freed ++ bs).
Lemma frees_bind {A B} (m : ST (list block) A) (k : A → ST (list block) B) bs bs' a b :
  frees m bs a → frees (k a) bs' b → frees (m ≫= k) (bs ++ bs') b.
Proof.
  intros Hm Hk freed rest Hnd. rewrite <- (app_assoc bs bs' rest) in Hnd. apply swp_bind. eapply swp_mono; [by eapply Hm|]. cbv beta.
  intros r f [-> ->]. eapply swp_mono; [apply (Hk _ rest); by rewrite <- app_assoc|]. cbv beta. intros r f [-> ->]. by rewrite <- app_assoc.
Qed.
Lemma frees_ret {A} (a : A) : frees (mret a) [] a.
Proof. intros freed rest _. sstep. by rewrite app_nil_r. Qed.
Lemma frees_skip : frees skip [] tt.
Proof. intros freed rest _. sstep. by rewrite app_nil_r. Qed.
Lemma frees_free b : frees (free b) [b] tt.
Proof.
  intros freed rest Hnd. unfold free. sstep. sstep. destruct (decide (b ∈ id freed)) as [Hb|_]; [|by apply swp_modify].
  apply NoDup_app in Hnd as (_ & Hd & _). destruct (Hd b Hb). by left.
Qed.
Lemma frees_if c b : frees (free_if c b) (some_if c b) tt.
Proof. destruct c; [apply frees_free|apply frees_skip]. Qed.
Lemma frees_pool h b : (∀ hdr, h = Some hdr → avl (mp_root hdr)) → frees (free_pool h b) (pool_blocks h b) tt.
Proof.
  intros Ha. destruct h as [hdr|]; [|apply frees_skip]. intros freed rest Hnd. unfold free_pool, mem_destroy. sstep. sstep.
  rewrite mem_destroy_loop_ok; [|by apply Ha|lia]. apply wp_ok. by apply (frees_free _ _ rest).
Qed.
Lemma frees_all k i : frees (free_all k i) (map BNeedFree (seq i k)) tt.
Proof. revert i. induction k as [|k IH]; intros i; cbn [free_all seq map]; [apply frees_skip|]. by apply (frees_bind _ _ [_] _ tt), IH; apply frees_free. Qed.

(** A group whose pools are trees. *)
Definition trees_ok (d : desync_params) : Prop :=
  (∀ h, dp_hosts d = Some h → avl (mp_root h)) ∧ (∀ h, dp_ipset d = Some h → avl (mp_root h)).

Lemma frees_group dps i d : dps !! i = Some d → trees_ok d →
  frees (clear_body dps (Some i)) (group_blocks dps i) (inl (dp_next d)).
Proof.
  intros Hd [Hh Hs] freed rest Hnd. unfold clear_body. sstep. sstep. destruct (decide (BGroup i ∈ id freed)) as [Hb|_].
  { apply NoDup_app in Hnd as (_ & Hn & _). destruct (Hn _ Hb). apply elem_of_app. left. unfold group_blocks. rewrite Hd.
    do 6 (apply elem_of_app; right). by left. }
  sstep. sstep. apply (wp_geti _ _ d); [lia|by rewrite Nat2Z.id|]. revert Hnd. generalize freed, rest.
  change (frees (free_if (negb (bool_decide (dp_parts d = []))) (BParts i);;
    free_if (negb (bool_decide (dp_tlsrec d = []))) (BTlsrec i);; free_if (bool_decide (is_Some (dp_fake_data d))) (BFakeData i);;
    free_if (negb (bool_decide (dp_fake_sni_list d = []))) (BFakeSni i);; free_pool (dp_hosts d) (BHosts i);;
    free_pool (dp_ipset d) (BIpset i);; free (BGroup i);; mret (inl (B := unit) (dp_next d))) (group_blocks dps i) (inl (dp_next d))).
  unfold group_blocks. rewrite Hd. do 4 (eapply frees_bind; [apply frees_if|]). do 2 (eapply frees_bind; [by apply frees_pool|]).
  rewrite <- (app_nil_r [BGroup i]). eapply frees_bind; [apply frees_free|apply frees_ret].
Qed.
Lemma frees_groups dps p l fuel : dseg dp_prev dp_next dps p l None → Forall trees_ok dps → (length l < fuel)%nat →
  frees (sloop (clear_body dps) fuel (hd_or None l)) (l ≫= group_blocks dps) tt.
Proof.
  intros Hl Ht. revert p fuel Hl. induction l as [|i l IH]; intros p fuel Hl Hf; (destruct fuel as [|fuel]; [cbn in Hf; lia|]); cbn [hd_or].
  - intros freed rest _. apply swp_sloop_step. cbn [clear_body]. sstep. cbn. by rewrite app_nil_r.
  - destruct Hl as [(d & Hd & _ & Hx) Hl]. intros freed rest Hnd. cbn [mbind list_bind] in *. rewrite <- app_assoc in Hnd.
    apply swp_sloop_step. eapply swp_mono; [eapply (frees_group dps i d); [done|by eapply (Forall_lookup_1 trees_ok)|exact Hnd]|]. cbv beta.
    intros r f [-> ->]. cbv iota beta. rewrite Hx. eapply swp_mono; [eapply (IH (Some i) fuel Hl); [cbn in Hf; lia|by rewrite <- app_assoc]|].
    cbv beta. intros r f [-> ->]. by rewrite <- app_assoc.
Qed.

Lemma dseg_length p l dps : NoDup l → dseg dp_prev dp_next dps p l None → (length l <= length dps)%nat.
Proof.
  intros Hnd Hl. rewrite <- (length_seq (length dps) 0). apply submseteq_length, NoDup_submseteq; [done|]. intros i Hi.
  apply elem_of_seq. pose proof (seg_lookup _ _ _ _ _ Hl Hi) as [d Hd]. apply lookup_lt_Some in Hd. lia.
Qed.

Lemma clear_params_ok line mempool need_free dps l : NoDup l → dseg dp_prev dp_next dps None l None → Forall trees_ok dps →
  avl (mp_root mempool) →
  swp (clear_params line mempool need_free dps (hd_or None l)) [] (λ _ freed, freed = owned line mempool need_free dps l).
Proof.
  intros Hnd Hl Ht Hm. assert (H : frees (clear_params line mempool need_free dps (hd_or None l)) (owned line mempool need_free dps l) tt).
  { unfold clear_params, owned. apply (frees_bind _ _ _ _ tt); [destruct line; [|apply frees_skip]|].
    { by apply (frees_bind _ _ [_] _ tt); apply frees_free. }
    apply (frees_bind _ _ (pool_blocks (Some mempool) BCache) _ tt); [apply frees_pool; by intros ? [= <-]|].
    apply (frees_bind _ _ _ _ tt); [apply frees_all|]. pose proof (dseg_length _ _ _ Hnd Hl). eapply frees_groups; [done|done|lia]. }
  eapply swp_mono; [apply (H [] [])|]; [|by intros ? ? [_ ->]]. rewrite app_nil_r. by apply owned_NoDup.
Qed.

(** * The caches that are written *)

Section dump.
Context (inet_ntop : Z → bytes → bytes) (fopen_w : bytes → bool) (cache_file : nat → option bytes).

(** The files that the groups name, in their order. *)
Definition named (l : list nat) : list (nat * bytes) := l ≫= λ i, match cache_file i with Some n => [(i, n)] | None => [] end.
(** Those up to the first that cannot be opened; [-] is the standard output. *)
Fixpoint opened (l : list (nat * bytes)) : list (nat * bytes) :=
  match l with
  | [] => []
  | (i, n) :: l => if bool_decide (n = bs "-") || fopen_w n then (i, n) :: opened l else []
  end.
Lemma opened_all l : (∀ n, fopen_w n = true) → opened l = l.
Proof. intros H. induction l as [|[i n] l IH]; cbn [opened]; [done|]. by rewrite H, orb_true_r, IH. Qed.
(** A pool that can be written. *)
Record writable (hdr : mphdr) : Prop := {
  wb_pool : pool_ok bit_dom hdr;
  wb_size : tsize (mp_root hdr) < 2 ^ 31 - 1;
  wb_saved g : Forall saved (of_group g (pool_elems hdr))
}.
Definition dumped (hdr : mphdr) (x : nat * bytes) (y : bytes * bytes) : Prop :=
  y.1 = x.2 ∧ dump_cache inet_ntop hdr x.1 = Ok y.2 ∧ lines_of inet_ntop (of_group x.1 (pool_elems hdr)) y.2.

Lemma dump_loop_groups w p l fuel out : writable (w_mempool w) → dseg dp_prev dp_next (w_dps w) p l None → (length l < fuel)%nat →
  swp (sloop (dump_all_body inet_ntop fopen_w cache_file) fuel (hd_or None l, out)) w
    (λ r w', w' = w ∧ ∃ files, r = out ++ files ∧ Forall2 (dumped (w_mempool w)) (opened (named l)) files).
Proof.
  intros [Hp Hsz Hs]. revert p fuel out. induction l as [|i l IH]; intros p fuel out Hl Hf; (destruct fuel as [|fuel]; [cbn in Hf; lia|]);
    apply swp_sloop_step; cbn [hd_or dump_all_body].
  - sstep. split; [done|]. exists []. rewrite app_nil_r. split; [done|constructor].
  - destruct Hl as [(d & Hd & _ & Hx) Hl]. cbn [length] in Hf. sstep. eapply swp_group; [exact Hd|]. unfold named. cbn [mbind list_bind]. fold (named l).
    destruct (cache_file i) as [n|]; [|sstep; rewrite Hx; eapply IH; [done|lia]]. cbn [app opened]. rewrite <- negb_orb.
    destruct (_ || _); cbn [negb]; [|sstep; split; [done|]; exists []; rewrite app_nil_r; by split]. sstep. sstep. sstep. sstep.
    pose proof (dump_cache_ok inet_ntop (w_mempool w) i Hp Hsz (Hs i)) as H. unfold wp in *.
    destruct (dump_cache inet_ntop (w_mempool w) i) as [text|] eqn:E; [|done]. sstep. rewrite Hx.
    eapply swp_mono; [eapply IH; [done|lia]|]. cbv beta. intros r w' (-> & files & -> & Hfs). split; [done|]. exists ((n, text) :: files).
    rewrite <- app_assoc. split; [done|]. by constructor.
Qed.
Lemma dump_all_cache_ok w l : groups w l → writable (w_mempool w) →
  swp (dump_all_cache inet_ntop fopen_w cache_file) w (λ r w', w' = w ∧ Forall2 (dumped (w_mempool w)) (opened (named l)) r).
Proof.
  intros [Hnd Hh Hl] Hw. unfold dump_all_cache. sstep. sstep. sstep. sstep. rewrite Hh. pose proof (dseg_length _ _ _ Hnd Hl).
  eapply swp_mono; [eapply (dump_loop_groups w None l); [done|done|lia]|]. cbv beta. intros r w' (-> & files & -> & Hf). by split.
Qed.
End dump.

(** * The parts of [main] *)

Lemma linked_trees {G} (s : popt G) : linked s → Forall trees_ok (map g_dp (o_groups s)).
Proof.
  intros Hl. apply Forall_lookup. intros i d Hd. rewrite list_lookup_fmap in Hd. destruct (o_groups s !! i) as [g|] eqn:E; [|done].
  injection Hd as <-. destruct (lk_nodes s Hl i g E) as [_ _ _ _ [Hh Hs]]. split; intros h Eh; [apply (Hh h Eh)|apply (Hs h Eh)].
Qed.
Lemma world_of_groups {G} (s : popt G) : linked s → groups (world_of s) (seq 0 (length (o_groups s))).
Proof.
  intros Hl. split; [apply NoDup_seq|by rewrite <- (lk_dp s Hl)|]. by apply (options_seg s (length (o_groups s)) 0).
Qed.
Lemma leave_ok {G} code line (s : popt G) w : linked s → w_dps w = map g_dp (o_groups s) → w_dp w = Some 0%nat → w_mempool w = o_mempool s →
  ∃ freed, leave code line s w = Ok (Ended code (world_log w) freed []) ∧ NoDup freed ∧
    freed = owned line (o_mempool s) (o_need_free s) (map g_dp (o_groups s)) (seq 0 (length (o_groups s))).
Proof.
  intros Hl Ew Eh Em. unfold leave. rewrite Ew, Eh, Em. destruct (world_of_groups s Hl) as [Hnd Hh Hs]. cbn [w_dps w_dp world_of] in Hh, Hs.
  pose proof (clear_params_ok line (o_mempool s) (o_need_free s) (map g_dp (o_groups s)) _ Hnd Hs (linked_trees s Hl)) as H.
  rewrite <- Hh in H. specialize (H ltac:(apply (lk_pool s Hl))). unfold swp, wp in H.
  destruct (clear_params _ _ _ _ _ _) as [[? freed]|]; [|done]. eexists. split; [reflexivity|]. split; [|exact H]. rewrite H. by apply owned_NoDup.
Qed.

Lemma env_start_ok {G} (I : G → Prop) g local_port : I g → at_start I (env_start g local_port).
Proof.
  intros Hg. assert (Hp : pr_vals params_init) by (split; cbn; try lia; [by vm_compute..|]; split; [done|auto]).
  destruct local_port as [p|]; cbn [env_start]; (split; try done; cbn).
  - destruct Hp. split; cbn; try done.
  - set (a := set_family _ _). assert (Ha : blen a = 28) by done. assert (Hf : sa_family a = AF_INET) by done.
    unfold addr_ok. rewrite sa_family_port by (rewrite ?blen_enc16; lia). split; [|by left].
    unfold set_port. by rewrite blen_put by (rewrite ?blen_enc16; lia).
  - split; [done|by left].
Qed.

(** * Properties *)

(** C20: The options of a plugin: whatever the spaces between them, in front and at the end, the
    words of SS_PLUGIN_OPTIONS are the arguments behind the name of the program, for up to 62
    words. *)
Theorem plugin_options_split l t : Forall (λ x, word x.2) l → apart l → (length l <= 62)%nat →
  env_args (spaced l t) = Ok (match l with (O, w) :: _ => w | _ => [] end :: map snd l).
Proof.
  intros Hw Ha Hl. pose proof (words_spaced l t Hw Ha) as E.
  rewrite env_args_words; [|by apply spaced_chars|rewrite E, length_map; lia]. rewrite E.
  do 2 f_equal. destruct l as [|[n w] l]; cbn [spaced]; [by destruct t|]. destruct n as [|n]; [|done]. cbn [repeat app].
  apply list.Forall_cons in Hw as [[_ Hw] _]. by apply take_word, spaced_gap.
Qed.
Definition plugin_words : list (nat * bytes) := [(O, bs "-s"); (2%nat, bs "1"); (1%nat, bs "-An")].
Lemma plugin_words_ok : Forall (λ x, word x.2) plugin_words ∧ apart plugin_words.
Proof. unfold word, apart. split; apply (bool_decide_unpack _); vm_compute; exact I. Qed.
Lemma plugin_options_split_witness : env_args (bs "-s  1 -An ") = Ok [bs "-s"; bs "-s"; bs "1"; bs "-An"].
Proof.
  apply (plugin_options_split plugin_words 1); [apply plugin_words_ok|apply plugin_words_ok|cbn; lia].
Defined.

(** From the 63rd word on, the rest of the line is one argument. *)
Lemma env_args_keeps_rest :
  match env_args (spaced (repeat (1%nat, bs "a") 65) 0) with Ok l => length l = 64%nat ∧ list.last l = Some (bs "a a a") | Fail _ => False end.
Proof. vm_compute. done. Qed.



(** -p 0 *)
Definition bad_line : list (Z * bytes) := [(ch "p", bs "0")].
(** It is refused, and three blocks are freed for the settings, with the line and its array. *)
Example bad_line_ends :
  match main (λ _, (bad_line, 0%nat)) plain_getopt plain_optind plain_set_optind plain_gai plain_pton plain_ntop
      plain_strtof id id no_file no_file zeros (λ _, (0, 0, 0)) (λ _, 3) (λ _, Answer 0 [] [] []) (λ _, 0) 5 (λ _, true) 0 false
      (Some (bs "1090")) (Some (bs "-p 0")) [bs "ciadpi"] [] [] 5 with
  | Ok e => e_status e = -2 ∧ e_freed e = [BLine; BArgv; BCache []; BGroup 0]
  | Fail _ => False
  end.
Proof. vm_compute. done. Qed.

(** Three groups, the first and the last with a file, and the cache of the first two. *)
Definition saving : popt unit :=
  let g f := Group dp_init 0 [] f false false in
  set_o_need_free [bs "w3.org"] (set_o_groups [g (Some (bs "a")); g None; g (Some (bs "b"))] (popt_init tt)).
Definition saving_world : world := World (init_pool 4 [] []) sample_groups (Some 0%nat) sample_cache 0 0 [] [].
Lemma sample_cache_saved : Forall saved (pool_elems sample_cache).
Proof.
  assert (Hs : ∀ e, (∃ f port ip, (f = AF_INET ∨ f = AF_INET6) ∧ e_data e = [f; 0] ++ port ++ ip ∧ blen port = 2 ∧ blen ip = ip_size f) →
    e_time e = 1700000000 → (e_extra e = None ∧ e_extra_len e = 0 ∨ e_extra e = Some (bs "w3.org") ∧ e_extra_len e = 6) → saved e).
  { intros e Hk Ht He. split; [done|rewrite Ht; lia|lia|]. destruct He as [[-> _]|[-> ->]]; [done|]. intros h [= <-]. vm_compute. repeat split; discriminate. }
  repeat apply Forall_cons_2; [..|apply Forall_nil_2]; apply Hs; try done; try tauto.
  - exists AF_INET, [1; 187], [10; 0; 0; 1]. split_and!; [by left|done..].
  - exists AF_INET, [1; 187], [192; 168; 0; 0]. split_and!; [by left|done..].
  - exists AF_INET6, [1; 187], (repeat 1 16). split_and!; [by right|done..].
Qed.
Lemma saving_writable : writable sample_cache.
Proof. split; [apply sample_cache_ok|done|]. intros g. apply Forall_forall. intros e He. unfold of_group in He. apply list_elem_of_filter in He as [_ He].
  pose proof sample_cache_saved as H. rewrite Forall_forall in H. by apply H.
Qed.
