(* ===== verification/Service.v ===== *)
(** The two engines as services of Windows: service.c of GoodbyeDPI and win_service.c of byedpi.

    Three threads share the state of a service.  The first calls [service_register]
    ([register_winsvc]), in which the dispatcher of the system waits until the service has
    stopped; the second is the service, [service_main] with the [main] of the program in it;
    and the system calls the handler of its requests at any time.  What they do is a list of
    events, each of them one access to what they share; any list of them is a schedule, and an
    event that cannot happen does nothing. *)
From Stdlib Require Import ZArith Lia Ascii String.
From stdpp Require Import base numbers list option.
From S2P Require Import Prelude CMem GdOptions.

#[local] Open Scope Z_scope.
#[local] Open Scope list_scope.

(** * The state *)

(** Of windows.h *)
Definition SERVICE_WIN32_OWN_PROCESS : Z := 16.
Definition SERVICE_STOPPED : Z := 1.
Definition SERVICE_RUNNING : Z := 4.
Definition SERVICE_ACCEPT_STOP : Z := 1.
Definition SERVICE_ACCEPT_SHUTDOWN : Z := 4.
Definition SERVICE_CONTROL_STOP : Z := 1.
Definition SERVICE_CONTROL_SHUTDOWN : Z := 5.

Record service_status := ServiceStatus {
  dwServiceType : Z; dwCurrentState : Z; dwControlsAccepted : Z; dwWin32ExitCode : Z;
  dwServiceSpecificExitCode : Z; dwCheckPoint : Z; dwWaitHint : Z }.
Definition set_code (code : Z) (s : service_status) : service_status :=
  ServiceStatus (dwServiceType s) (dwCurrentState s) (dwControlsAccepted s) code
    (dwServiceSpecificExitCode s) (dwCheckPoint s) (dwWaitHint s).
Definition set_state (state : Z) (s : service_status) : service_status :=
  ServiceStatus (dwServiceType s) state (dwControlsAccepted s) (dwWin32ExitCode s)
    (dwServiceSpecificExitCode s) (dwCheckPoint s) (dwWaitHint s).

(** Where the service is: at its start, before it asks for a handler, with the answer, before its
    first report, in [main], behind it with its value, before it sets the state, before its last
    report, at its end. *)
Inductive service_pc :=
  | SStart | SRegister | SHandle (h : Z) | SReport | SMain | SCode (code : Z) | SState | SLast | SDone.
(** The handler: not called, called with a request, before it sets the code, the state, before it reports. *)
Inductive handler_pc := HIdle | HRequest (request : Z) | HCode | HState | HReport.
#[export] Instance handler_pc_eq_dec : EqDecision handler_pc.
Proof. solve_decision. Defined.
(** The registration: before it keeps the arguments, in the dispatcher, behind it, at its end with its value. *)
Inductive register_pc := RSave | RDispatch | RFree (ret : Z) | RDone (ret : Z).

(** What is kept of the command line: [argc], [argv] and whether that block was freed. *)
Record registration := Registration {
  r_pc : register_pc; r_argc : Z; r_argv : option (list bytes); r_freed : bool }.

(** Whether the system has a handler; what was reported, the oldest first; and the program. *)
Record machine (P : Type) := Machine {
  m_status : service_status; m_handle : Z; m_service : service_pc; m_known : bool; m_handler : handler_pc;
  m_reports : list (Z * service_status); m_reg : registration; m_prog : P }.
Arguments Machine {_} _ _ _ _ _ _ _ _.
Arguments m_status {_} _. Arguments m_handle {_} _. Arguments m_service {_} _. Arguments m_known {_} _.
Arguments m_handler {_} _. Arguments m_reports {_} _. Arguments m_reg {_} _. Arguments m_prog {_} _.

Inductive event (P : Type) :=
  | EService (h : Z)          (* the service goes on; [h] is the handle, if it asks for one *)
  | EMain (f : P → P)         (* [main] does something *)
  | EArg (i : nat)            (* [main] reads an argument *)
  | EReturn (code : Z)        (* [main] returns *)
  | EControl (request : Z)    (* the system calls the handler *)
  | EHandler                  (* the handler goes on *)
  | ERegister (failed : bool) (* the registration goes on; whether the dispatcher fails *).
Arguments EService {_} _. Arguments EMain {_} _. Arguments EArg {_} _. Arguments EReturn {_} _.
Arguments EControl {_} _. Arguments EHandler {_}. Arguments ERegister {_} _.

(** What the two programs do differently: what the handler calls before the service stops, and
    what the registration does before and behind the dispatcher. *)
Record service_code (P : Type) := ServiceCode {
  sc_stop : P → comp P;
  sc_save : list bytes → registration → registration;
  sc_free : registration → registration }.
Arguments ServiceCode {_} _ _ _. Arguments sc_stop {_} _ _. Arguments sc_save {_} _ _ _. Arguments sc_free {_} _ _.

(** * The threads *)

Section threads.
Context {P : Type} (code : service_code P) (args : list bytes).
Implicit Types (m : machine P) (e : event P).

Definition at_service (pc : service_pc) m : machine P :=
  Machine (m_status m) (m_handle m) pc (m_known m) (m_handler m) (m_reports m) (m_reg m) (m_prog m).
Definition at_handler (pc : handler_pc) m : machine P :=
  Machine (m_status m) (m_handle m) (m_service m) (m_known m) pc (m_reports m) (m_reg m) (m_prog m).
Definition with_status (f : service_status → service_status) m : machine P :=
  Machine (f (m_status m)) (m_handle m) (m_service m) (m_known m) (m_handler m) (m_reports m) (m_reg m) (m_prog m).
Definition with_handle (h : Z) m : machine P :=
  Machine (m_status m) h (m_service m) (m_known m) (m_handler m) (m_reports m) (m_reg m) (m_prog m).
Definition with_handler_known (b : bool) m : machine P :=
  Machine (m_status m) (m_handle m) (m_service m) b (m_handler m) (m_reports m) (m_reg m) (m_prog m).
Definition with_reg (r : registration) m : machine P :=
  Machine (m_status m) (m_handle m) (m_service m) (m_known m) (m_handler m) (m_reports m) r (m_prog m).
Definition with_prog (p : P) m : machine P :=
  Machine (m_status m) (m_handle m) (m_service m) (m_known m) (m_handler m) (m_reports m) (m_reg m) p.
Definition SetServiceStatus m : machine P :=
  Machine (m_status m) (m_handle m) (m_service m) (m_known m) (m_handler m) (m_reports m ++ [(m_handle m, m_status m)])
    (m_reg m) (m_prog m).

Definition running : service_status :=
  ServiceStatus SERVICE_WIN32_OWN_PROCESS SERVICE_RUNNING (Z.lor SERVICE_ACCEPT_STOP SERVICE_ACCEPT_SHUTDOWN) 0 0 1 0.

(** [service_main]; [h] is what [RegisterServiceCtrlHandler] returns. *)
Definition service_main (h : Z) m : machine P :=
  match m_service m with
  | SStart => match r_pc (m_reg m) with
      | RDispatch => at_service SRegister (with_status (λ _, running) m)
      | _ => m
      end
  | SRegister => at_service (SHandle h) (with_handler_known (negb (h =? 0)) m)
  | SHandle h => at_service (if h =? 0 then SDone else SReport) (with_handle h m)
  | SReport => at_service SMain (SetServiceStatus m)
  | SMain => m
  | SCode c => at_service SState (with_status (set_code c) m)
  | SState => at_service SLast (with_status (set_state SERVICE_STOPPED) m)
  | SLast => at_service SDone (SetServiceStatus m)
  | SDone => m
  end.

Definition is_stop (request : Z) : bool := (request =? SERVICE_CONTROL_STOP) || (request =? SERVICE_CONTROL_SHUTDOWN).
Definition service_controlhandler m : comp (machine P) :=
  match m_handler m with
  | HIdle => Ok m
  | HRequest r =>
      if is_stop r then p ← sc_stop code (m_prog m); Ok (at_handler HCode (with_prog p m))
      else Ok (at_handler HReport m)
  | HCode => Ok (at_handler HState (with_status (set_code 0) m))
  | HState => Ok (at_handler HReport (with_status (set_state SERVICE_STOPPED) m))
  | HReport => Ok (at_handler HIdle (SetServiceStatus m))
  end.

(** The dispatcher returns when the service has ended, or has said that it has. *)
Definition stopped m : bool :=
  match m_service m with SDone => true | _ =>
    match list.last (m_reports m) with Some (_, s) => dwCurrentState s =? SERVICE_STOPPED | None => false end
  end.
Definition at_register (pc : register_pc) (r : registration) : registration := Registration pc (r_argc r) (r_argv r) (r_freed r).
Definition service_register (failed : bool) m : registration :=
  let r := m_reg m in
  match r_pc r with
  | RSave => sc_save code args r
  | RDispatch =>
      match m_service m with
      | SStart => if failed then at_register (RFree 0) r else r
      | _ => if stopped m then at_register (RFree 1) r else r
      end
  | RFree ret => at_register (RDone ret) (sc_free code r)
  | RDone _ => r
  end.

(** An argument that [main] reads. *)
Definition read_arg (i : nat) (r : registration) : comp bytes :=
  if r_freed r then Fail OutOfBounds else
  match r_argv r with Some l => geti l (Z.of_nat i) | None => Fail OutOfBounds end.

Definition service_step e m : comp (machine P) :=
  match e with
  | EService h => Ok (service_main h m)
  | EMain f => Ok (match m_service m with SMain => with_prog (f (m_prog m)) m | _ => m end)
  | EArg i => match m_service m with
      | SMain => if Z.of_nat i <? r_argc (m_reg m) then _ ← read_arg i (m_reg m); Ok m else Ok m
      | _ => Ok m
      end
  | EReturn c => Ok (match m_service m with SMain => at_service (SCode (u32 c)) m | _ => m end)
  | EControl r => Ok (match m_handler m with HIdle => if m_known m then at_handler (HRequest r) m else m | _ => m end)
  | EHandler => service_controlhandler m
  | ERegister failed => Ok (with_reg (service_register failed m) m)
  end.
Fixpoint schedule (es : list (event P)) m : comp (machine P) :=
  match es with [] => Ok m | e :: es => m ← service_step e m; schedule es m end.

(** Before the program calls [service_register]. *)
Definition service_init (p : P) : machine P :=
  Machine (ServiceStatus 0 0 0 0 0 0 0) 0 SStart false HIdle [] (Registration RSave 0 None false) p.
End threads.

(** * The two programs *)

(** GoodbyeDPI copies the arguments, and frees the copy behind the dispatcher. *)
Definition save_args (args : list bytes) (r : registration) : registration :=
  match r_argv r with
  | None => if r_argc r =? 0 then Registration RDispatch (Z.of_nat (length args)) (Some args) false else at_register RDispatch r
  | Some _ => at_register RDispatch r
  end.
Definition free_args (r : registration) : registration :=
  match r_argv r with
  | Some _ => if r_argc r =? 0 then r else Registration (r_pc r) (r_argc r) (r_argv r) true
  | None => r
  end.
Definition goodbye_service : service_code setup :=
  ServiceCode (λ s, '(_, s) ← deinit_all s; Ok s) save_args free_args.

(** byedpi keeps the pointer of its [main], once, and its handler calls nothing. *)
Definition save_svc_args (args : list bytes) (r : registration) : registration :=
  match r_argv r with
  | Some _ => at_register (RDone 0) r
  | None => Registration RDispatch (Z.of_nat (length args)) (Some args) false
  end.
Definition byedpi_service {P} : service_code P := ServiceCode (λ p, Ok p) save_svc_args (λ r, r).

(** * The directory of byedpi's service *)

Definition MAX_PATH : Z := 260.
Definition MAX_DRIVE : Z := 3.
Definition MAX_DIR : Z := 256.
Definition separator (c : Z) : bool := (c =? ch "/") || (c =? ch "\").

(** The text up to the last separator, with it. *)
Fixpoint dir_part (l : bytes) : bytes :=
  match l with
  | [] => []
  | c :: l => match dir_part l with [] => if separator c then [c] else [] | d => c :: d end
  end.
(** [_splitpath_s] with buffers for the drive and the directory: both are empty when one is too short. *)
Definition splitpath_s (path : bytes) : bytes * bytes :=
  let '(drive, rest) := match path with
    | c :: d :: l => if d =? ch ":" then ([c; d], l) else ([], path)
    | _ => ([], path)
    end in
  let dir := dir_part rest in
  if (MAX_DRIVE <? blen drive + 1) || (MAX_DIR <? blen dir + 1) then ([], []) else (drive, dir).
(** The directory that [service_main] makes the current one; [strcat_s] ends the program when it has no room. *)
Definition working_directory (file_name : bytes) : comp bytes :=
  let '(working_dir, tmp) := splitpath_s file_name in
  if MAX_PATH <? blen working_dir + blen tmp + 1 then Fail AssertFailed else Ok (working_dir ++ tmp).

Lemma dir_part_spec l : ∃ base, l = dir_part l ++ base ∧ forallb (λ c, negb (separator c)) base = true ∧
  (dir_part l = [] ∨ ∃ x c, dir_part l = x ++ [c] ∧ separator c = true).
Proof.
  induction l as [|c l (base & E & Hb & Hd)]; [by exists []; split_and!; [..|left]|]. cbn [dir_part].
  destruct (dir_part l) as [|d ds] eqn:Ed.
  - destruct (separator c) eqn:Es.
    + exists l. cbn [app] in *. subst base. split_and!; [done|done|right]. by exists [], c.
    + exists (c :: l). cbn [app] in *. subst base. split_and!; [done| |by left]. cbn [forallb]. by rewrite Es.
  - exists base. split_and!; [cbn [app] in *; by rewrite E at 1|done|right].
    destruct Hd as [|(x & e & Ex & He)]; [done|]. exists (c :: x), e. by rewrite Ex.
Qed.

(** The current directory is that of the program's file: the name up to its last separator; it has room. *)
Lemma working_directory_ok path : ∃ dir, working_directory path = Ok dir ∧ blen dir < MAX_PATH ∧
  (dir = [] ∨ ∃ base, path = dir ++ base ∧ forallb (λ c, negb (separator c)) base = true).
Proof.
  unfold working_directory, splitpath_s.
  set (p := match path with c :: d :: l => if d =? ch ":" then ([c; d], l) else ([], path) | _ => ([], path) end).
  assert (Hp : path = p.1 ++ p.2 ∧ blen p.1 <= 2).
  { unfold p. destruct path as [|c [|d l]]; [done|done|]. by destruct (d =? ch ":"). }
  destruct p as [drive rest]. cbn [fst snd] in Hp. destruct Hp as [-> Hd]. destruct (dir_part_spec rest) as (base & E & Hb & _).
  unfold MAX_DRIVE, MAX_DIR, MAX_PATH. pose proof (blen_nonneg drive). pose proof (blen_nonneg (dir_part rest)).
  destruct (Z.ltb_spec 3 (blen drive + 1)); [lia|]. cbn [orb]. destruct (Z.ltb_spec 256 (blen (dir_part rest) + 1)).
  { change (blen []) with 0. exists []. by split_and!; [..|left]. }
  destruct (Z.ltb_spec 260 (blen drive + blen (dir_part rest) + 1)); [lia|]. exists (drive ++ dir_part rest).
  split_and!; [done|rewrite blen_app; lia|right]. exists base. by rewrite <- app_assoc, <- E.
Qed.

(** byedpi's [service_main], which changes the directory first; its other functions. *)
Definition winsvc_main {P} (file_name : bytes) (h : Z) (m : machine P) : comp (option bytes * machine P) :=
  match m_service m with
  | SStart => dir ← working_directory file_name; Ok (Some dir, service_main h m)
  | _ => Ok (None, service_main h m)
  end.
Definition service_ctrl_handler {P} : machine P → comp (machine P) := service_controlhandler byedpi_service.
Definition register_winsvc {P} (args : list bytes) : bool → machine P → registration := service_register byedpi_service args.

Lemma winsvc_main_ok {P} file_name h (m : machine P) : ∃ dir, winsvc_main file_name h m = Ok (dir, service_main h m).
Proof.
  unfold winsvc_main. destruct (m_service m); try by eexists. destruct (working_directory_ok file_name) as (dir & -> & _). by eexists.
Qed.

(** * What is reported *)

Section reports.
Context {P : Type} (code : service_code P) (args : list bytes).
Implicit Types (m : machine P) (e : event P) (es : list (event P)).

(** A stop was asked for, or [main] returned. *)
Definition ending e : Prop :=
  match e with EControl r => is_stop r = true | EReturn _ => True | _ => False end.
(** The values that the exit code of a service that has stopped may have. *)
Definition exit_code es (c : Z) : Prop := c = 0 ∨ ∃ r, EReturn r ∈ es ∧ c = u32 r.

(** What a status says once the service runs. *)
Record status_ok es (s : service_status) : Prop := {
  so_type : dwServiceType s = SERVICE_WIN32_OWN_PROCESS;
  so_state : dwCurrentState s = SERVICE_RUNNING ∨ dwCurrentState s = SERVICE_STOPPED;
  so_controls : dwControlsAccepted s = 5;
  so_code : exit_code es (dwWin32ExitCode s);
  so_ending : dwCurrentState s = SERVICE_STOPPED → Exists ending es
}.

(** The states that were reported: the service runs, and then it has stopped. *)
Definition states m : list Z := (λ x : Z * service_status, dwCurrentState x.2) <$> m_reports m.
Definition in_order (state : Z) (l : list Z) : Prop :=
  ∃ n k, l = repeat SERVICE_RUNNING n ++ repeat SERVICE_STOPPED k ∧ (k = 0%nat ∨ state = SERVICE_STOPPED).

Definition service_at es (pc : service_pc) m : Prop :=
  match pc with
  | SStart => m_known m = false ∧ m_handler m = HIdle ∧ m_reports m = []
  | SRegister => m_known m = false ∧ m_handler m = HIdle ∧ m_reports m = [] ∧ m_status m = running
  | SCode c => status_ok es (m_status m) ∧ ∃ r, EReturn r ∈ es ∧ c = u32 r
  | SState | SLast => status_ok es (m_status m) ∧ Exists ending es
  | _ => status_ok es (m_status m)
  end.
Definition handler_at es (pc : handler_pc) m : Prop :=
  match pc with
  | HRequest r => is_stop r = true → Exists ending es
  | HCode | HState => Exists ending es
  | _ => True
  end.
Record sane es m : Prop := {
  sn_service : service_at es (m_service m) m;
  sn_handler : handler_at es (m_handler m) m;
  sn_order : in_order (dwCurrentState (m_status m)) (states m);
  sn_reports : Forall (λ x, status_ok es x.2) (m_reports m);
  sn_last : m_service m = SLast → dwCurrentState (m_status m) = SERVICE_STOPPED
}.

Lemma exit_code_mono es e c : exit_code es c → exit_code (es ++ [e]) c.
Proof. intros [?|(r & ? & ?)]; [by left|right]. exists r. by rewrite elem_of_app; auto. Qed.
Lemma ending_mono es e : Exists ending es → Exists ending (es ++ [e]).
Proof. intros H. apply Exists_app. by left. Qed.
Lemma ending_now es e : ending e → Exists ending (es ++ [e]).
Proof. intros H. apply Exists_app. right. by constructor. Qed.
Lemma status_ok_mono es e s : status_ok es s → status_ok (es ++ [e]) s.
Proof. intros []. split; eauto using exit_code_mono, ending_mono. Qed.
#[local] Hint Resolve exit_code_mono ending_mono status_ok_mono : core.

Lemma sane_mono es e m : sane es m → sane (es ++ [e]) m.
Proof.
  intros []. split; [..|done|eapply Forall_impl; [|exact sn_reports0]; intros x; apply status_ok_mono|done].
  - destruct (m_service m); cbn in *; try done; try (by apply status_ok_mono).
    all: destruct sn_service0 as [Hs H]; split; [by apply status_ok_mono|]; try (by apply ending_mono).
    destruct H as (r & ? & ?). exists r. rewrite elem_of_app. auto.
  - destruct (m_handler m); cbn in *; eauto.
Qed.

Lemma in_order_report state l : state = SERVICE_RUNNING ∨ state = SERVICE_STOPPED → in_order state l → in_order state (l ++ [state]).
Proof.
  intros Hs (n & k & -> & Hk). destruct Hs as [-> | ->].
  - destruct Hk as [->|]; [|done]. exists (S n), 0%nat. split; [|by left]. cbn [repeat]. rewrite !app_nil_r. by rewrite <- repeat_cons.
  - exists n, (S k). split; [|by right]. by rewrite <- app_assoc, <- repeat_cons.
Qed.
Lemma in_order_stop state l : in_order state l → in_order SERVICE_STOPPED l.
Proof. intros (n & k & -> & _). exists n, k. by split; [|right]. Qed.

(** A report of a status that is in order. *)
Lemma sane_report es m : sane es m → status_ok es (m_status m) → in_order (dwCurrentState (m_status m)) (states (SetServiceStatus m)) ∧
  Forall (λ x, status_ok es x.2) (m_reports (SetServiceStatus m)).
Proof.
  intros [] Hs. unfold states, SetServiceStatus. cbn [m_reports]. rewrite fmap_app. split.
  - apply in_order_report; [apply (so_state _ _ Hs)|done].
  - apply Forall_app. split; [done|]. by apply Forall_singleton.
Qed.

Lemma service_main_sane es h m : sane es m → sane es (service_main h m).
Proof.
  intros Hm. pose proof Hm as []. unfold service_main. destruct (m_service m) as [| |h'| | |c| | |] eqn:Es; cbn in sn_service0.
  - destruct (r_pc (m_reg m)); [done| |done..]. destruct sn_service0 as (? & ? & Hr). split; cbn; try done.
    unfold states. cbn. rewrite Hr. exists 0%nat, 0%nat. split; [done|by left].
  - destruct sn_service0 as (? & Hh & ? & Hr). split; cbn; try done. rewrite Hr. split; cbn; try done; [by left|by left].
  - split; cbn; try done. + by destruct (h' =? 0). + by destruct (h' =? 0).
  - destruct (sane_report es m Hm sn_service0). by split.
  - done.
  - destruct sn_service0 as [[] (r & Hr & ->)]. assert (Exists ending es) by (apply Exists_exists; exists (EReturn r); split; [by apply list_elem_of_In|done]).
    split; cbn; try done. split; [|done]. split; cbn; try done. right. by exists r.
  - destruct sn_service0 as [[] He]. split; cbn; try done; [|by eapply in_order_stop]. split; [|done]. split; cbn; try done; by right.
  - destruct sn_service0 as [Hs He]. destruct (sane_report es m Hm Hs). by split.
  - done.
Qed.

Lemma controlhandler_sane es m m' : sane es m → m_handler m ≠ HIdle → service_controlhandler code m = Ok m' → sane es m'.
Proof.
  intros Hm Hh. assert (Hok : status_ok es (m_status m)).
  { destruct Hm as [Hs _ _ _ _]. destruct (m_service m); cbn in Hs; try exact Hs; try (destruct Hs as (_ & ? & _); congruence); by destruct Hs. }
  assert (Hsvc : ∀ f hd rp p, status_ok es (f (m_status m)) → service_at es (m_service m)
    (Machine (f (m_status m)) (m_handle m) (m_service m) (m_known m) hd rp (m_reg m) p)).
  { intros f hd rp p Hf. destruct Hm as [Hs _ _ _ _]. destruct (m_service m); cbn in *; try exact Hf; try (destruct Hs as (_ & ? & _); congruence); by destruct Hs. }
  pose proof Hm as []. unfold service_controlhandler. destruct (m_handler m) as [|r| | |] eqn:Eh; [done|..].
  - destruct (is_stop r) eqn:Er; [|intros [= <-]; split; cbn; try done; by apply (Hsvc (λ s, s))].
    destruct (sc_stop code _); [|done]. intros [= <-]. split; cbn; try done; [by apply (Hsvc (λ s, s))|by apply sn_handler0].
  - intros [= <-]. cbn in sn_handler0. split; cbn; try done. apply (Hsvc (set_code 0)). destruct Hok. split; cbn; try done. by left.
  - intros [= <-]. cbn in sn_handler0. split; cbn; try done; [|by eapply in_order_stop]. apply (Hsvc (set_state SERVICE_STOPPED)).
    destruct Hok. split; cbn; try done. by right.
  - intros [= <-]. destruct (sane_report es m Hm Hok). split; cbn; try done. by apply (Hsvc (λ s, s)).
Qed.

Lemma step_sane es e m m' : sane es m → service_step code args e m = Ok m' → sane (es ++ [e]) m'.
Proof.
  intros Hm. pose proof (sane_mono es e m Hm) as Hm'. pose proof Hm' as []. destruct e as [h|f|i|c|r| |b]; cbn [service_step].
  - intros [= <-]. by apply service_main_sane.
  - intros [= <-]. destruct (m_service m) eqn:Es; try done. by split; cbn; rewrite ?Es.
  - destruct (m_service m); try (by intros [= <-]). destruct (_ <? _); [|by intros [= <-]]. destruct (read_arg _ _); [|done]. by intros [= <-].
  - intros [= <-]. destruct (m_service m) eqn:Es; try done. split; cbn; try done. split; [done|]. exists c. rewrite elem_of_app, list_elem_of_singleton. auto.
  - intros [= <-]. destruct (m_handler m) eqn:Eh; try done. destruct (m_known m) eqn:Ek; [|done]. split; cbn; try done.
    + destruct (m_service m); cbn in *; try done; destruct sn_service0 as (? & ?); congruence.
    + intros Hr. by apply ending_now.
  - destruct (decide (m_handler m = HIdle)) as [Eh|Eh]; [|by apply controlhandler_sane]. unfold service_controlhandler. rewrite Eh. by intros [= <-].
  - intros [= <-]. by split.
Qed.

Lemma schedule_sane es0 es m m' : sane es0 m → schedule code args es m = Ok m' → sane (es0 ++ es) m'.
Proof.
  revert es0 m. induction es as [|e es IH]; intros es0 m Hm; cbn [schedule]; [rewrite app_nil_r; by intros [= <-]|].
  destruct (service_step code args e m) as [m1|] eqn:E; [|done]. rewrite bind_ok. intros H.
  replace (es0 ++ e :: es) with ((es0 ++ [e]) ++ es) by (by rewrite <- app_assoc). eapply IH; [by eapply step_sane|done].
Qed.
Lemma init_sane p : sane [] (service_init p).
Proof. split; cbn; try done. exists 0%nat, 0%nat. by split; [|left]. Qed.

(** ** What the system is told *)

(** A report reaches the system only with the handle that it gave. *)
Definition told m : list Z := (λ x : Z * service_status, dwCurrentState x.2) <$> List.filter (λ x, negb (x.1 =? 0)) (m_reports m).
#[local] Arguments told m : simpl never.
(** The service has made its first report, or has got no handle. *)
Definition past_report (pc : service_pc) : Prop :=
  match pc with SStart | SRegister | SHandle _ | SReport => False | _ => True end.
Definition given es (h : Z) : Prop := h = 0 ∨ EService h ∈ es.

Record handles es m : Prop := {
  hn_service : match m_service m with
    | SStart | SRegister => m_handle m = 0 ∧ m_known m = false
    | SHandle h => m_known m = negb (h =? 0) ∧ given es h
    | SDone => m_known m = true → m_handle m ≠ 0 ∧ dwCurrentState (m_status m) = SERVICE_STOPPED ∧ list.last (told m) = Some SERVICE_STOPPED
    | _ => m_known m = true ∧ m_handle m ≠ 0
    end;
  hn_handler : m_handler m ≠ HIdle → m_known m = true;
  hn_handle : given es (m_handle m);
  hn_reports : Forall (λ x, given es x.1) (m_reports m);
  hn_told : past_report (m_service m) → m_known m = true → told m ≠ []
}.

Lemma given_mono es e h : given es h → given (es ++ [e]) h.
Proof. intros [?|?]; [by left|right]. rewrite elem_of_app. auto. Qed.
Lemma handles_mono es e m : handles es m → handles (es ++ [e]) m.
Proof.
  intros []. split; [|done|by apply given_mono|eapply Forall_impl; [|exact hn_reports0]; intros x; apply given_mono|done].
  destruct (m_service m); try done. destruct hn_service0. split; [done|by apply given_mono].
Qed.

Lemma told_report m : told (SetServiceStatus m) = if m_handle m =? 0 then told m else told m ++ [dwCurrentState (m_status m)].
Proof.
  unfold told, SetServiceStatus. cbn [m_reports]. rewrite List.filter_app. cbn [List.filter fst].
  destruct (m_handle m =? 0); cbn [negb]; [by rewrite app_nil_r|]. by rewrite fmap_app.
Qed.
Lemma told_report_given m : m_handle m ≠ 0 → told (SetServiceStatus m) = told m ++ [dwCurrentState (m_status m)].
Proof. intros H. rewrite told_report. by destruct (Z.eqb_spec (m_handle m) 0). Qed.
Lemma snoc_not_nil {A} (l : list A) x : l ++ [x] ≠ [].
Proof. by destruct l. Qed.

Lemma service_main_handles es h m : sane es m → handles es m → EService h ∈ es → handles es (service_main h m).
Proof.
  intros Hs [Hsv Hh Hg Hr Ht] Hin. unfold service_main. destruct (m_service m) as [| |h'| | |c| | |] eqn:Es; cbn in Hsv, Ht.
  - destruct (r_pc _); by split; rewrite ?Es.
  - destruct Hsv as [Hz Hk]. split; cbn; try done; [by split; [|right]|]. intros Hne. specialize (Hh Hne). congruence.
  - destruct Hsv as [Hk Hgv]. destruct (Z.eqb_spec h' 0) as [->|Hne]; split; cbn; rewrite ?Hk; try done. by rewrite <- Hk.
  - destruct Hsv as [Hk Hz]. split; cbn; try done; [|intros _ _; change (told _) with (told (SetServiceStatus m)); rewrite told_report_given by done; apply snoc_not_nil].
    apply Forall_app. split; [done|]. by apply Forall_singleton.
  - by split; rewrite ?Es.
  - by split.
  - by split.
  - destruct Hsv as [Hk Hz]. pose proof (sn_last _ _ Hs Es) as Hst. split; cbn; try done.
    + intros _. split_and!; [done|done|]. change (told _) with (told (SetServiceStatus m)). rewrite told_report_given by done. by rewrite last_snoc, Hst.
    + apply Forall_app. split; [done|]. by apply Forall_singleton.
    + intros _ _. change (told _) with (told (SetServiceStatus m)). rewrite told_report_given by done. apply snoc_not_nil.
  - by split; rewrite ?Es.
Qed.

(** The handler leaves the service and the handle, and sets no state but the last. *)
Lemma handles_keep es m m' : handles es m → m_service m' = m_service m → m_handle m' = m_handle m → m_known m' = m_known m →
  m_reports m' = m_reports m → (dwCurrentState (m_status m) = SERVICE_STOPPED → dwCurrentState (m_status m') = SERVICE_STOPPED) →
  m_known m = true → handles es m'.
Proof.
  intros [Hsv Hh Hg Hr Ht] E1 E2 E3 E4 Hst Hk. assert (Et : told m' = told m) by (unfold told; by rewrite E4).
  split; rewrite ?E1, ?E2, ?E3, ?E4, ?Et; try done. destruct (m_service m); try done. intros _. destruct (Hsv Hk) as (? & ? & ?). auto.
Qed.
Lemma controlhandler_handles es m m' : handles es m → m_handler m ≠ HIdle → service_controlhandler code m = Ok m' → handles es m'.
Proof.
  intros Hm Hne. pose proof (hn_handler _ _ Hm Hne) as Hk. unfold service_controlhandler. destruct (m_handler m) as [|r| | |] eqn:Eh; [done|..].
  - destruct (is_stop r); [|intros [= <-]; by apply (handles_keep es m)]. destruct (sc_stop code _); [|done]. intros [= <-]. by apply (handles_keep es m).
  - intros [= <-]. by apply (handles_keep es m).
  - intros [= <-]. by apply (handles_keep es m).
  - intros [= <-]. pose proof Hm as [Hsv _ Hg Hr Ht]. split; cbn; try done.
    + destruct (m_service m); try done. intros _. destruct (Hsv Hk) as (Hz & Hst & Hl). split_and!; [done|done|].
      change (told _) with (told (SetServiceStatus m)). rewrite told_report_given by done. by rewrite last_snoc, Hst.
    + apply Forall_app. split; [done|]. by apply Forall_singleton.
    + intros Hp _. change (told _) with (told (SetServiceStatus m)). rewrite told_report. destruct (_ =? 0); [by apply Ht|apply snoc_not_nil].
Qed.

Lemma step_handles es e m m' : sane es m → handles es m → service_step code args e m = Ok m' → handles (es ++ [e]) m'.
Proof.
  intros Hs Hm. pose proof (handles_mono es e m Hm) as Hm'. pose proof (sane_mono es e m Hs) as Hs'.
  pose proof Hm' as [Hsv Hh Hg Hr Ht]. destruct e as [h|f|i|c|r| |b]; cbn [service_step].
  - intros [= <-]. apply service_main_handles; [done|done|]. rewrite elem_of_app, list_elem_of_singleton. auto.
  - intros [= <-]. destruct (m_service m) eqn:Es; try done. by split; cbn; rewrite ?Es.
  - destruct (m_service m); try (by intros [= <-]). destruct (_ <? _); [|by intros [= <-]]. destruct (read_arg _ _); [|done]. by intros [= <-].
  - intros [= <-]. by destruct (m_service m) eqn:Es.
  - intros [= <-]. destruct (m_handler m) eqn:Eh; try done. destruct (m_known m) eqn:Ek; [|done]. by split; cbn; rewrite ?Ek.
  - destruct (decide (m_handler m = HIdle)) as [Eh|Eh]; [|by apply controlhandler_handles]. unfold service_controlhandler. rewrite Eh. by intros [= <-].
  - intros [= <-]. by split.
Qed.
Lemma schedule_handles es0 es m m' : sane es0 m → handles es0 m → schedule code args es m = Ok m' → handles (es0 ++ es) m'.
Proof.
  revert es0 m. induction es as [|e es IH]; intros es0 m Hs Hm; cbn [schedule]; [rewrite app_nil_r; by intros [= <-]|].
  destruct (service_step code args e m) as [m1|] eqn:E; [|done]. rewrite bind_ok. intros H.
  replace (es0 ++ e :: es) with ((es0 ++ [e]) ++ es) by (by rewrite <- app_assoc). eapply IH; [by eapply step_sane|by eapply step_handles|done].
Qed.
Lemma init_handles p : handles [] (service_init p).
Proof. split; cbn; try done. by left. Qed.

(** ** The answer to a stop *)

(** The handler has so many steps to go before it has reported that the service stopped; the
    report comes through once the service has its handle and makes its first report. *)
Definition answered m : Prop :=
  dwCurrentState (m_status m) = SERVICE_STOPPED ∧ (past_report (m_service m) → list.last (told m) = Some SERVICE_STOPPED).
Definition answering (k : nat) m : Prop :=
  m_known m = true ∧ match k with
  | O => answered m
  | 1%nat => m_handler m = HReport ∧ dwCurrentState (m_status m) = SERVICE_STOPPED
  | 2%nat => m_handler m = HState
  | 3%nat => m_handler m = HCode
  | _ => ∃ r, m_handler m = HRequest r ∧ is_stop r = true
  end.
Fixpoint handlers es : nat :=
  match es with [] => 0 | EHandler :: es => S (handlers es) | _ :: es => handlers es end.

(** Once the state is that of a service that stopped, it stays so, and it is what is reported. *)
Lemma stopped_stays es h m : handles es m → m_known m = true → dwCurrentState (m_status m) = SERVICE_STOPPED →
  dwCurrentState (m_status (service_main h m)) = SERVICE_STOPPED ∧ m_known (service_main h m) = true.
Proof. intros [Hs _ _ _ _] Hk Hst. unfold service_main. destruct (m_service m); try done; by destruct Hs as [_ ?]; congruence. Qed.
Lemma answered_reports es m : handles es m → m_known m = true → past_report (m_service m) → dwCurrentState (m_status m) = SERVICE_STOPPED →
  list.last (told (SetServiceStatus m)) = Some SERVICE_STOPPED.
Proof.
  intros [Hs _ _ _ _] Hk Hp Hst. rewrite told_report_given; [by rewrite last_snoc, Hst|]. destruct (m_service m); try done; by destruct Hs.
Qed.
Lemma answered_main es h m : handles es m → m_known m = true → answered m → answered (service_main h m).
Proof.
  intros Hm Hk [Hst Hl]. split; [by eapply stopped_stays|]. pose proof (answered_reports es m Hm Hk) as Hrep. pose proof Hm as [Hs _ _ _ _].
  unfold service_main. destruct (m_service m) as [| |h'| | |c| | |] eqn:Es; cbn in *; try done; try (by destruct Hs as [_ ?]; congruence).
  - destruct (Z.eqb_spec h' 0) as [->|]; [|done]. destruct Hs as [Hz _]. by rewrite Hk in Hz.
  - intros _. change (told _) with (told (SetServiceStatus m)). rewrite told_report_given by apply Hs. by rewrite last_snoc, Hst.
  - intros _. by apply Hl.
  - intros _. by apply Hrep.
  - intros _. by apply Hl.
Qed.
Lemma handler_main h m : m_handler (service_main h m) = m_handler m.
Proof. unfold service_main. destruct (m_service m); try done. by destruct (r_pc _). Qed.
Lemma known_main es h m : handles es m → m_known m = true → m_known (service_main h m) = true.
Proof. intros [Hs _ _ _ _] Hk. unfold service_main. destruct (m_service m); try done; [by destruct (r_pc _)|by destruct Hs; congruence]. Qed.

Lemma answering_step es k e m m' : (k <= 4)%nat → handles es m → answering k m → service_step code args e m = Ok m' →
  answering (match e with EHandler => pred k | _ => k end) m'.
Proof.
  intros Hk Hm [Hkn Ha]. assert (Hc : (k < 5)%nat) by lia. destruct e as [h|f|i|c|r| |b]; cbn [service_step].
  - intros [= <-]. split; [by eapply known_main|]. destruct k as [|[|[|[|[|k]]]]]; [by eapply answered_main| |by rewrite handler_main..].
    destruct Ha as [Hh Hs]. rewrite handler_main. split; [done|]. by eapply stopped_stays.
  - intros [= <-]. by destruct (m_service m).
  - destruct (m_service m); try (by intros [= <-]). destruct (_ <? _); [|by intros [= <-]]. destruct (read_arg _ _); [|done]. by intros [= <-].
  - intros [= <-]. destruct (m_service m) eqn:Es; try done. split; [done|]. destruct k as [|k]; [|exact Ha].
    destruct Ha as [Hst Hl]. split; [done|]. intros _. apply Hl. by rewrite Es.
  - intros [= <-]. destruct k as [|[|[|[|[|k]]]]]; [|..|lia].
    { destruct (m_handler m); try done. by rewrite Hkn. }
    { destruct Ha as [Hh ?]. by rewrite Hh. }
    all: try (by rewrite Ha). destruct Ha as (r' & Hh & ?). rewrite Hh. split; [done|]. by exists r'.
  - unfold service_controlhandler. destruct k as [|[|[|[|[|k]]]]]; cbn [pred] in *; [|..|lia].
    + destruct Ha as [Hst Hl]. destruct (m_handler m) as [|r| | |].
      * by intros [= <-].
      * destruct (is_stop r); [|by intros [= <-]]. destruct (sc_stop code _); [|done]. by intros [= <-].
      * by intros [= <-].
      * by intros [= <-].
      * intros [= <-]. split; [done|]. split; [done|]. intros Hp. by apply (answered_reports es m).
    + destruct Ha as [-> Hs]. intros [= <-]. split; [done|]. split; [done|]. intros Hp. by apply (answered_reports es m).
    + rewrite Ha. by intros [= <-].
    + rewrite Ha. by intros [= <-].
    + destruct Ha as (r & -> & ->). destruct (sc_stop code _); [|done]. by intros [= <-].
  - intros [= <-]. done.
Qed.
Lemma answering_all es0 es k m m' : (k <= 4)%nat → sane es0 m → handles es0 m → answering k m → schedule code args es m = Ok m' →
  answering (k - handlers es) m'.
Proof.
  revert es0 k m. induction es as [|e es IH]; intros es0 k m Hk Hs Hm Ha; cbn [schedule].
  { intros [= <-]. by rewrite Nat.sub_0_r. }
  destruct (service_step code args e m) as [m1|] eqn:E; [|done]. rewrite bind_ok. intros H.
  pose proof (answering_step es0 k e m m1 Hk Hm Ha E) as Ha1. pose proof (step_sane es0 e m m1 Hs E) as Hs1.
  pose proof (step_handles es0 e m m1 Hs Hm E) as Hm1.
  assert (Hn : (k - handlers (e :: es) = (match e with EHandler => pred k | _ => k end) - handlers es)%nat) by (destruct e; cbn; lia).
  rewrite Hn. eapply IH; [|exact Hs1|exact Hm1|exact Ha1|exact H]. destruct e; lia.
Qed.
End reports.

(** * The arguments *)

(** What a registration promises to [main]: it keeps the command line, and what it does behind the
    dispatcher leaves where they are kept. *)
Class KeepsArguments {P} (code : service_code P) : Prop := {
  ka_save args : sc_save code args (Registration RSave 0 None false) = Registration RDispatch (Z.of_nat (length args)) (Some args) false;
  ka_free r : r_pc (sc_free code r) = r_pc r ∧ r_argc (sc_free code r) = r_argc r ∧ r_argv (sc_free code r) = r_argv r }.

#[export] Instance goodbye_keeps : KeepsArguments goodbye_service.
Proof. split; [done|]. intros r. cbn [sc_free goodbye_service]. unfold free_args. destruct (r_argv r) eqn:E; [|done]. by destruct (_ =? 0). Qed.
#[export] Instance byedpi_keeps {P} : KeepsArguments (@byedpi_service P).
Proof. by split. Qed.

Section arguments.
Context {P : Type} (code : service_code P) `{!KeepsArguments code} (args : list bytes).
Implicit Types (m : machine P) (e : event P) (es : list (event P)).

Definition kept_args (r : registration) : Prop :=
  r = Registration RSave 0 None false ∨ r_pc r ≠ RSave ∧ r_argc r = Z.of_nat (length args) ∧ r_argv r = Some args.
Definition behind (pc : service_pc) : Prop := match pc with SLast | SDone => True | _ => False end.

(** No stop was asked for: the service says it has stopped when [main] has returned, and it is
    not freed before. *)
Record calm m : Prop := {
  cm_handler : match m_handler m with HIdle | HReport => True | HRequest r => is_stop r = false | _ => False end;
  cm_state : behind (m_service m) ∨ dwCurrentState (m_status m) ≠ SERVICE_STOPPED ∧ Forall (λ x, dwCurrentState x.2 ≠ SERVICE_STOPPED) (m_reports m);
  cm_kept : kept_args (m_reg m);
  cm_start : r_pc (m_reg m) = RSave → m_service m = SStart;
  cm_freed : r_freed (m_reg m) = true → ∃ ret, r_pc (m_reg m) = RDone ret;
  cm_end ret : r_pc (m_reg m) = RFree ret ∨ r_pc (m_reg m) = RDone ret → behind (m_service m) ∨ m_service m = SStart
}.

Lemma calm_init p : calm (service_init p).
Proof. split; cbn; try done; [right; by split; [|constructor]|by left|]. by right. Qed.

Lemma reported_running m : dwCurrentState (m_status m) ≠ SERVICE_STOPPED ∧ Forall (λ x, dwCurrentState x.2 ≠ SERVICE_STOPPED) (m_reports m) →
  Forall (λ x, dwCurrentState x.2 ≠ SERVICE_STOPPED) (m_reports (SetServiceStatus m)).
Proof. intros [Hs Hr]. apply Forall_app. split; [done|]. by apply Forall_singleton. Qed.

Lemma calm_service_main h m : calm m → calm (service_main h m).
Proof.
  intros Hm. pose proof Hm as []. unfold service_main. destruct (m_service m) as [| |h'| | |c| | |] eqn:Es; cbn in cm_state0; try done.
  all: try (destruct cm_state0 as [[]|[Hs Hr]]); try (assert (Hend : ∀ ret, r_pc (m_reg m) = RFree ret ∨ r_pc (m_reg m) = RDone ret → False)
    by (intros ret Hret; by destruct (cm_end0 ret Hret))).
  - destruct (r_pc (m_reg m)) eqn:Er; try done. split; cbn; rewrite ?Er; try done; [by right|naive_solver].
  - split; cbn; try done; [by right|intros He; by specialize (cm_start0 He)|intros ret Hret; by destruct (Hend ret)].
  - split; cbn; try done; [by right|intros He; by specialize (cm_start0 He)|intros ret Hret; by destruct (Hend ret)].
  - split; cbn; try done; [right; split; [done|by apply reported_running]|intros He; by specialize (cm_start0 He)|intros ret Hret; by destruct (Hend ret)].
  - split; cbn; try done; [by right|intros He; by specialize (cm_start0 He)|intros ret Hret; by destruct (Hend ret)].
  - split; cbn; try done; [by left|intros He; by specialize (cm_start0 He)|by left].
  - split; cbn; try done; [by left|intros He; by specialize (cm_start0 He)|by left].
  - split; cbn; try done; [by left|intros He; by specialize (cm_start0 He)|by left].
Qed.

Lemma last_forall {A} (Q : A → Prop) l x : Forall Q l → list.last l = Some x → Q x.
Proof.
  intros Hl E. apply last_Some_elem_of, list_elem_of_In in E. by apply (proj1 (List.Forall_forall Q l) Hl).
Qed.
(** The dispatcher returns when the service is behind its [main]. *)
Lemma calm_register failed m : calm m → calm (with_reg (service_register code args failed m) m).
Proof.
  intros Hm. assert (Hsame : calm (with_reg (m_reg m) m)) by (by destruct m). pose proof Hm as []. unfold service_register. destruct (r_pc (m_reg m)) as [| |ret|ret] eqn:Er; cbn.
  - destruct cm_kept0 as [->|[]]; [|done]. rewrite ka_save. split; cbn; try done; [right|..]; naive_solver.
  - assert (Hk : m_reg m ≠ Registration RSave 0 None false) by (by intros E; rewrite E in Er). destruct cm_kept0 as [|(_ & Hc & Hv)]; [done|].
    assert (Hgo : ∀ ret, behind (m_service m) ∨ m_service m = SStart → calm (with_reg (at_register (RFree ret) (m_reg m)) m)).
    { intros ret Hb. split; cbn; try done; [by right|]. intros Hf. destruct (cm_freed0 Hf). congruence. }
    assert (Hst : stopped m = true → behind (m_service m)).
    { intros Hs. destruct cm_state0 as [|[_ Hr]]; [done|]. unfold stopped in Hs.
      assert (Hn : match list.last (m_reports m) with Some (_, s) => dwCurrentState s =? SERVICE_STOPPED | None => false end = false).
      { destruct (list.last (m_reports m)) as [[hd st]|] eqn:El; [|done]. apply Z.eqb_neq. by apply (last_forall _ _ _ Hr El). }
      rewrite Hn in Hs. by destruct (m_service m). }
    destruct (m_service m) eqn:Es; try (destruct (stopped m) eqn:E; [apply Hgo; left; by apply Hst|exact Hsame]).
    destruct failed; [by apply Hgo; right|exact Hsame].
  - destruct (ka_free (code := code) (m_reg m)) as (Hp & Hc & Hv). assert (Hk : m_reg m ≠ Registration RSave 0 None false) by (by intros E; rewrite E in Er).
    destruct cm_kept0 as [|(_ & Hc' & Hv')]; [done|]. split; cbn; try done; [right; split_and!; [done|by cbn; rewrite Hc|by cbn; rewrite Hv]|intros _; by exists ret|].
    intros ret' _. apply (cm_end0 ret). by left.
  - exact Hsame.
Qed.

Lemma calm_handler m : calm m → wp (service_controlhandler code m) calm.
Proof.
  intros Hm. pose proof Hm as []. unfold service_controlhandler. destruct (m_handler m) as [|r| | |] eqn:Eh; try done.
  - rewrite cm_handler0. apply wp_ok. by split.
  - apply wp_ok. split; cbn; try done. destruct cm_state0; [by left|right]. split; [tauto|by apply reported_running].
Qed.

Lemma calm_step e m : (∀ r, e = EControl r → is_stop r = false) → calm m → wp (service_step code args e m) calm.
Proof.
  intros He Hm. pose proof Hm as []. destruct e as [h|f|i|c|r| |b]; cbn [service_step].
  - apply wp_ok. by apply calm_service_main.
  - apply wp_ok. destruct (m_service m) eqn:Es; try done. by split; cbn; rewrite ?Es.
  - destruct (m_service m) eqn:Es; try done. destruct (Z.ltb_spec (Z.of_nat i) (r_argc (m_reg m))) as [Hi|]; [|done].
    destruct cm_kept0 as [E|(_ & Hc & Hv)]; [rewrite E in Hi; cbn in Hi; lia|]. apply wp_bind. unfold read_arg.
    destruct (r_freed (m_reg m)) eqn:Ef; [destruct (cm_freed0 eq_refl) as [ret Hret]; by destruct (cm_end0 ret (or_intror Hret))|].
    rewrite Hv. rewrite Hc in Hi. destruct (lookup_lt_is_Some_2 args i) as [x Hx]; [lia|]. apply (wp_geti _ _ x); [lia|by rewrite Nat2Z.id|done].
  - apply wp_ok. destruct (m_service m) eqn:Es; try done. destruct cm_state0 as [[]|]. split; cbn; try done; [by right|intros E; by specialize (cm_start0 E)|].
    intros ret Hret. by destruct (cm_end0 ret Hret).
  - apply wp_ok. destruct (m_handler m) eqn:Eh; try done. destruct (m_known m); [|done]. split; cbn; try done. by apply He.
  - by apply calm_handler.
  - apply wp_ok. by apply calm_register.
Qed.
Lemma calm_schedule es m : Forall (λ e, ∀ r, e = EControl r → is_stop r = false) es → calm m → wp (schedule code args es m) calm.
Proof.
  intros Hes. revert m. induction Hes as [|e es He Hes IH]; intros m Hm; cbn [schedule]; [done|].
  apply wp_bind. eapply wp_mono; [by apply calm_step|]. intros m' Hm'. by apply IH.
Qed.
End arguments.

(** * Properties *)

(** A part of a sequence that is in order is in order. *)
Lemma told_in_order {P} (es : list (event P)) (m : machine P) : sane es m →
  ∃ n k, told m = repeat SERVICE_RUNNING n ++ repeat SERVICE_STOPPED k ∧ (k ≠ 0%nat → Exists ending es).
Proof.
  intros [_ _ (n & k & E & _) Hr _]. unfold told, states in *. revert n k E Hr. induction (m_reports m) as [|x l IH]; intros n k E Hr.
  { by exists 0%nat, 0%nat. }
  cbn [fmap list_fmap] in E. apply List.Forall_cons_iff in Hr as [Hx Hr]. cbn [List.filter]. destruct n as [|n]; cbn [repeat app] in E.
  - destruct k as [|k]; [done|]. cbn [repeat] in E. injection E as Ex E. destruct (IH 0%nat k E Hr) as (n' & k' & E' & _).
    pose proof (so_ending _ _ Hx Ex) as He. destruct (negb _); [|by exists n', k'].
    assert (n' = 0%nat ∨ k' = 0%nat ∧ n' = 0%nat) as [->|[_ ->]].
    { destruct n' as [|n']; [by left|]. exfalso. assert (Hin : In SERVICE_RUNNING (repeat SERVICE_STOPPED k)).
      { rewrite <- E. cbn [repeat app] in E'. assert (Hin : In SERVICE_RUNNING (SERVICE_RUNNING :: repeat SERVICE_RUNNING n' ++ repeat SERVICE_STOPPED k')) by (by left).
        rewrite <- E' in Hin. apply in_map_iff in Hin as (y & Ey & Hy). apply in_map_iff. exists y. split; [done|]. by apply filter_In in Hy as [Hy _]. }
      by apply repeat_spec in Hin. }
    all: exists 0%nat, (S k'); cbn; cbn in E'; rewrite E'; split; [by rewrite Ex|done].
  - injection E as Ex E. destruct (IH n k E Hr) as (n' & k' & E' & Hk'). destruct (negb _); [|by exists n', k'].
    exists (S n'), k'. split; [|done]. cbn. cbn in E'. by rewrite E', Ex.
Qed.

(** C21: Whatever the order in which the service, the handler and the dispatcher go on, the system is
    told that the service runs and then that it has stopped, never the other way; a report
    counts only with a handle ([told]), and no report has a handle but the one that the system gave.
    It is told that the service has stopped only after a stop was asked for or [main] returned, with 0 or a value
    that [main] returned as the exit code, and always with the type and the controls of the service.
    Once the service has called [main] the system was told something, and once the service has ended
    the last it was told is that it has stopped.  A stop that the handler has taken is answered: when the
    handler has made its four steps, the last that the system was told is that the service has stopped, whatever
    the other threads do meanwhile, as soon as the service is past its first report (before that, the
    handler may have no handle for its own, [report_without_handle]). *)
Theorem service_reports {P} (code : service_code P) args (es : list (event P)) p m :
  schedule code args es (service_init p) = Ok m →
  (∃ n k, told m = repeat SERVICE_RUNNING n ++ repeat SERVICE_STOPPED k ∧ (k ≠ 0%nat → Exists ending es)) ∧
  Forall (λ x, (x.1 = 0 ∨ EService x.1 ∈ es) ∧ dwServiceType x.2 = SERVICE_WIN32_OWN_PROCESS ∧ dwControlsAccepted x.2 = 5 ∧
    exit_code es (dwWin32ExitCode x.2)) (m_reports m) ∧
  (m_service m = SMain → told m ≠ []) ∧
  (m_service m = SDone → m_known m = true → list.last (told m) = Some SERVICE_STOPPED) ∧
  (∀ r es' m', m_handler m = HRequest r → is_stop r = true → (4 <= handlers es')%nat →
    schedule code args es' m = Ok m' → past_report (m_service m') → list.last (told m') = Some SERVICE_STOPPED).
Proof.
  intros H. pose proof (schedule_sane code args [] es _ m (init_sane p) H) as Hs.
  pose proof (schedule_handles code args [] es _ m (init_sane p) (init_handles p) H) as Hm. cbn [app] in Hm, Hs. pose proof Hm as [Hsv Hh _ Hg Ht].
  split_and!; [by apply told_in_order| | | |].
  - apply List.Forall_forall. intros x Hx. pose proof (sn_reports _ _ Hs) as Hr. rewrite List.Forall_forall in Hr, Hg.
    destruct (Hr x Hx). by split; [apply Hg|].
  - intros Em. rewrite Em in Hsv, Ht. apply Ht; [done|apply Hsv].
  - intros Em Hk. rewrite Em in Hsv. by apply Hsv.
  - intros r es' m' Er Hst Hn H' Hp. assert (Hk : m_known m = true) by (apply Hh; by rewrite Er).
    pose proof (answering_all code args es es' 4 m m' (le_n _) Hs Hm (conj Hk (ex_intro _ r (conj Er Hst))) H') as [_ Ha].
    replace (4 - handlers es')%nat with 0%nat in Ha by lia. by apply Ha.
Qed.

(** A service that is started and told to stop while its [main] runs. *)
Definition sample_start {P} : list (event P) := [ERegister false; EService 0; EService 7; EService 0; EService 0].
Definition sample_stop {P} : list (event P) := sample_start ++ [EMain id; EControl SERVICE_CONTROL_STOP].
Definition service_args : list bytes := [bs "goodbyedpi.exe"; bs "-9"].
Lemma service_reports_witness :
  ∃ m, schedule goodbye_service service_args sample_stop (service_init setup_init) = Ok m ∧
    ∀ m', schedule goodbye_service service_args [EHandler; EReturn 0; EHandler; EService 0; EHandler; EHandler] m = Ok m' →
      past_report (m_service m') → list.last (told m') = Some SERVICE_STOPPED.
Proof.
  assert (Hh : match schedule goodbye_service service_args sample_stop (service_init setup_init) with
    | Ok m => m_handler m = HRequest SERVICE_CONTROL_STOP | Fail _ => False end) by (vm_compute; reflexivity).
  destruct (schedule goodbye_service service_args sample_stop (service_init setup_init)) as [m|] eqn:E; [|destruct Hh].
  exists m. split; [reflexivity|]. intros m'.
  apply (proj2 (proj2 (proj2 (proj2 (service_reports goodbye_service service_args sample_stop setup_init m E)))) SERVICE_CONTROL_STOP _ m' Hh eq_refl).
  cbn. lia.
Defined.

(** As long as no stop is asked for, no schedule makes the service read an argument that is not
    there: while [main] runs, the arguments are those of the command line of the process, not those
    that the system started the service with, and they are not freed. *)
Theorem main_has_arguments {P} (code : service_code P) `{!KeepsArguments code} args (es : list (event P)) p :
  Forall (λ e, ∀ r, e = EControl r → is_stop r = false) es →
  wp (schedule code args es (service_init p)) (λ m, m_service m = SMain →
    r_argc (m_reg m) = Z.of_nat (length args) ∧ r_argv (m_reg m) = Some args ∧ r_freed (m_reg m) = false).
Proof.
  intros Hes. eapply wp_mono; [apply (calm_schedule code args es _ Hes), calm_init|]. intros m [] Hm.
  destruct cm_kept0 as [E|(_ & Hc & Hv)].
  - rewrite E in cm_start0. specialize (cm_start0 eq_refl). congruence.
  - split_and!; [done..|]. destruct (r_freed (m_reg m)) eqn:Ef; [|done]. destruct (cm_freed0 eq_refl) as [ret Hret].
    destruct (cm_end0 ret (or_intror Hret)) as [Hb|Hb]; rewrite Hm in Hb; done.
Qed.

Definition no_stop : list (event setup) := sample_start ++ [EArg 0; EControl 4; EArg 1; EHandler; EHandler; EReturn 0].
Lemma main_has_arguments_witness :
  wp (schedule goodbye_service service_args no_stop (service_init setup_init)) (λ m, m_service m = SMain →
    r_argc (m_reg m) = 2 ∧ r_argv (m_reg m) = Some service_args ∧ r_freed (m_reg m) = false).
Proof.
  apply (main_has_arguments goodbye_service service_args no_stop setup_init). unfold no_stop, sample_start. cbn [app].
  repeat (apply Forall_cons_2; [intros r E; first [discriminate E|injection E as <-; reflexivity]|]). apply Forall_nil_2.
Defined.

(** A stop while GoodbyeDPI reads its options: the dispatcher returns when the handler has said that the
    service stopped, the arguments are freed, and [main] reads one of them. *)
Lemma goodbye_arguments_freed :
  schedule goodbye_service service_args
    (sample_stop ++ [EHandler; EHandler; EHandler; EHandler; ERegister false; ERegister false; EArg 1]) (service_init setup_init) = Fail OutOfBounds.
Proof. vm_compute. reflexivity. Qed.

(** A stop of byedpi's service: it says that it has stopped and the process ends, since the dispatcher
    returns, while [main] is in its loop; nothing has told the loop, and it never gets to save its caches. *)
Lemma byedpi_loop_goes_on {P} (p : P) : ∃ m,
  schedule byedpi_service service_args (sample_start ++ [EControl SERVICE_CONTROL_STOP; EHandler; EHandler; EHandler; EHandler; ERegister false; ERegister false])
    (service_init p) = Ok m ∧ states m = [SERVICE_RUNNING; SERVICE_STOPPED] ∧ m_service m = SMain ∧ r_pc (m_reg m) = RDone 1 ∧ m_prog m = p.
Proof. eexists. split; [vm_compute; reflexivity|]. by vm_compute. Qed.

(** A request that comes before the handle is stored is reported with no handle. *)
Lemma report_without_handle {P} (p : P) : ∃ m,
  schedule byedpi_service service_args [ERegister false; EService 0; EService 7; EControl 4; EHandler; EHandler] (service_init p) = Ok m ∧
  m_reports m = [(0, running)].
Proof. eexists. split; [vm_compute; reflexivity|]. by vm_compute. Qed.

(** byedpi frees nothing: no schedule at all makes its [main] read a wrong argument. *)
Lemma byedpi_never_faults {P} args (es : list (event P)) m : kept_args args (m_reg m) ∧ r_freed (m_reg m) = false →
  wp (schedule byedpi_service args es m) (λ m, kept_args args (m_reg m) ∧ r_freed (m_reg m) = false).
Proof.
  revert m. induction es as [|e es IH]; intros m Hm; cbn [schedule]; [done|]. apply wp_bind.
  assert (wp (service_step byedpi_service args e m) (λ m, kept_args args (m_reg m) ∧ r_freed (m_reg m) = false)) as Hs; [|by eapply wp_mono].
  destruct e as [h|f|i|c|r| |b]; cbn [service_step].
  - apply wp_ok. unfold service_main. destruct (m_service m); try done. by destruct (r_pc _).
  - apply wp_ok. by destruct (m_service m).
  - destruct (m_service m); try done. destruct (Z.ltb_spec (Z.of_nat i) (r_argc (m_reg m))) as [Hi|]; [|done].
    destruct Hm as [[E|(Hp & Hc & Hv)] Hf]; [rewrite E in Hi; cbn in Hi; lia|]. apply wp_bind. unfold read_arg. rewrite Hf, Hv. rewrite Hc in Hi.
    destruct (lookup_lt_is_Some_2 args i) as [x Hx]; [lia|]. apply (wp_geti _ _ x); [lia|by rewrite Nat2Z.id|]. by split; [right|].
  - apply wp_ok. by destruct (m_service m).
  - apply wp_ok. destruct (m_handler m); try done. by destruct (m_known m).
  - unfold service_controlhandler. destruct (m_handler m); try done. by destruct (is_stop _).
  - apply wp_ok. cbn. unfold service_register. destruct Hm as [Hk Hf]. destruct (r_pc (m_reg m)) as [| |ret|ret] eqn:Er; [| | |done].
    + destruct Hk as [->|[]]; [|done]. split; [right|]; done.
    + destruct Hk as [E|(_ & Hc & Hv)]; [by rewrite E in Er|]. assert (Hg : ∀ pc, pc ≠ RSave → kept_args args (at_register pc (m_reg m)) ∧ r_freed (at_register pc (m_reg m)) = false)
        by (intros pc Hpc; by split; [right|]).
      assert (Hs : kept_args args (m_reg m) ∧ r_freed (m_reg m) = false) by (split; [right; by rewrite Er|done]).
      destruct (m_service m); try (destruct (stopped m); [by apply Hg|exact Hs]). destruct b; [by apply Hg|exact Hs].
    + destruct Hk as [E|(_ & Hc & Hv)]; [by rewrite E in Er|]. by split; [right|].
Qed.
